(* ===== verification/_CoqProject ===== *)
-Q . S2P
Prelude.v
Ringbuffer.v
VariableLengthRingbuffer.v
Containers.v
UorbNode.v
UorbMaster.v
UorbSubscription.v
Bson.v
ParamLayers.v
Float32.v
FloatOps.v
FloatBounds.v
Crc.v
Parameters.v
ParamTranslation.v
ParamStorage.v
ParamPersistence.v
AutosaveSchedule.v
FailsafeFramework.v
Failsafe.v
Dataman.v
DatamanClient.v
MissionItem.v
MavlinkMission.v
ClientStorage.v
MissionUpload.v
MissionSession.v
DshotTimers.v
BdshotDecode.v
DShotTelemetry.v
MixerModule.v
ControlAllocator.v
DShotDriver.v
DShotInvariant.v
DShotCommands.v
DShotSchedule.v
MotorOutput.v
ThrustLimit.v
