(* ===== verification/Prelude.v ===== *)
(** * Verification of the PX4 flight stack

    The repository is a PX4 autopilot firmware for the Pixhawk 6X. Its modules are tasks that
    exchange messages over the uORB middleware, keep their settings in the parameter store and
    their missions in dataman, and drive the vehicle through the commander and the outputs.
    This library models the parts on which the others depend and states what they promise.
    Paths are relative to the repository.

    ** Parts of the program and the files that model them

    - Data structures. [Ringbuffer] and [VariableLengthRingbuffer] (src/lib/ringbuffer,
      src/lib/variable_length_ringbuffer): FIFOs of bytes and of packets in one heap block; the
      packet FIFO is written against the interface [ByteFifo], which the byte FIFO implements.
      [Containers] (src/include/containers): intrusive lists and queues over a store of link
      fields, and bitsets.
    - Messages. [UorbNode], [UorbMaster], [UorbSubscription] (platforms/common/uORB): one topic
      instance with its queue and generation counter (DeviceNode), the table of the instances
      (DeviceMaster), and what applications use (Manager, Subscription, SubscriptionInterval,
      SubscriptionCallback, the publications).
    - Settings. [ParamLayers] (src/lib/parameters/*Layer.h) is the stack of overrides of which
      the store is built, behind the interface [ParamLayer]; [Parameters] (parameters.cpp and
      parameters_common.cpp in memory, the requests of autosave.cpp) the store; [Bson]
      (src/lib/tinybson) the file format; [ParamTranslation] (param_translation.cpp) the
      translation of old names; [ParamStorage] (the rest of parameters.cpp and autosave.cpp, the
      lock of platforms/common/shutdown.cpp) saving and loading; [ParamPersistence] and
      [AutosaveSchedule] hold the theorems on the last. [Crc] (src/lib/crc, NuttX lib_crc32.c)
      are the checksums, [Float32] and [FloatOps] the floating-point numbers.
    - Safety. [FailsafeFramework] and [Failsafe] (src/modules/commander/failsafe): the table of
      active actions with its selection, delays, user takeover and deferral, and the conditions
      of the vehicle that lead to actions. The virtual methods of the framework are a type class
      that [Failsafe] implements.
    - Missions. [Dataman] (src/modules/dataman) is the server that stores items in memory or in
      a file, [DatamanClient] (src/lib/dataman_client) the client and the cache of items;
      [MissionItem] (src/modules/mavlink/mavlink_command_params.hpp, the translation functions of
      mavlink_mission.cpp, src/modules/navigator/navigation.h) the items on the wire and in
      storage; [MavlinkMission] (mavlink_mission.{h,cpp}) the protocol with the ground station.
      [ClientStorage] states what the protocol needs from its storage and proves it of the
      client in front of the server; [MissionUpload] and [MissionSession] hold the theorems.

    ** How code becomes definitions

    A class is a record of its members, a method a function from the record (and what it reads:
    the time, the topics, the outcome of system calls) to the result and the new record; names
    are those of the code. Integers are [Z] with the wrap-around of their width written out
    ([uwrap], [swrap] in this file). Floats and doubles are bit patterns; every operation is the
    exact value rounded once. Memory that the code addresses is a list, and an access outside
    it, a null pointer, a failed assertion or another undefined behaviour is [None], so that a
    theorem that gives [Some] says that none of them happens. Code that is generated at build
    time (the table of parameters, message structs) and hardware are arguments. Threads
    interleave as explicit sequences of steps: publications between the calls of a subscriber,
    other threads in the window in which a lock is released, servers and other clients between
    the steps of a client, links that share static members.

    ** What the theorems show

    - Refinements: a component behaves as a simpler specification for every sequence of
      operations: FIFOs, lists, maps, a log of messages with cursors, one stored mission that is
      replaced atomically.
    - Safety: no access out of bounds; no two advertisers of one instance; no lost update;
      failures of reads, writes and allocations leave the state consistent; a failsafe is
      answered by an action that is severe enough and by a mode that can run.
    - Liveness and termination: loops end, with bounds; a requested save happens; a delay ends;
      a load completes.
    - Round trips: documents, parameters over a restart, missions through the protocol, checksums
      and coordinates.
    - Error theorems ([error] in the manifest) prove that the code does not do what it means to
      do in a concrete situation.

    ** Fuel

    Loops that are not structural carry fuel. The fuel is computed from the state: one more than
    the number of nodes for lists ([fuel_for]), the number of bytes of a file plus two for the
    decoder ([decode_fuel]), the number of topic events plus one poll per 100 ms of the time-out
    for the client ([sync_fuel]), the length of the table for binary searches. The theorems show
    that it is enough by concluding that the result is [Some].

    ** Not modelled

    Estimation and control (ekf2, the attitude, rate, position and fixed wing controllers, their
    libraries) is numerical: its correctness is about real dynamics and rounding errors. Sensor
    drivers, buses, timers and boot loaders depend on hardware that the repository does not
    describe. NuttX is a vendored operating system; only its CRC-32 is modelled, and its file
    system by what the code relies on. MAVLink, DDS, zenoh and CAN transports are libraries
    outside of the repository. The rest of commander, navigator and mavlink, the logger, the
    work queues and the small monitoring modules could be modelled with the same means and are
    not yet. Printing, statistics and performance counters are left out everywhere. The manifest
    lists every part with its status. *)
From stdpp Require Import base list gmap.
From Stdlib Require Import ZArith Lia.
#[global] Open Scope Z_scope.
#[global] Arguments Z.eqb : simpl never.
#[global] Arguments Z.leb : simpl never.
#[global] Arguments Z.ltb : simpl never.
#[global] Arguments Z.modulo : simpl never.
#[global] Arguments Z.div : simpl never.
#[global] Arguments Z.pow : simpl never.
#[global] Arguments Z.min : simpl never.
#[global] Arguments Z.max : simpl never.

(** ** Machine integers

    A [w]-bit integer is a [Z]; the wrap-around the C code relies on is
    written out with [uwrap] and [swrap]. *)
Definition uwrap (w : Z) (z : Z) : Z := z mod 2 ^ w.
Definition swrap (w : Z) (z : Z) : Z := (z + 2 ^ (w - 1)) mod 2 ^ w - 2 ^ (w - 1).

Declare Scope c_scope.
Delimit Scope c_scope with c.
Abbreviation u8 := (uwrap 8).
Abbreviation u16 := (uwrap 16).
Abbreviation u32 := (uwrap 32).
Abbreviation u64 := (uwrap 64).
Abbreviation s8 := (swrap 8).
Abbreviation s16 := (swrap 16).
Abbreviation s32 := (swrap 32).
Abbreviation s64 := (swrap 64).

(** [b2z] is the conversion of a C [bool] to an integer. *)
Definition b2z (b : bool) : Z := if b then 1 else 0.

Lemma uwrap_range w z : 0 <= w -> 0 <= uwrap w z < 2 ^ w.
Proof. intros. apply Z.mod_pos_bound. apply Z.pow_pos_nonneg; lia. Qed.

Lemma uwrap_small w z : 0 <= z < 2 ^ w -> uwrap w z = z.
Proof. apply Z.mod_small. Qed.

Lemma uwrap_add_l w a b : 0 <= w -> uwrap w (uwrap w a + b) = uwrap w (a + b).
Proof. intros. unfold uwrap. apply Zplus_mod_idemp_l. Qed.

Lemma uwrap_add_r w a b : 0 <= w -> uwrap w (a + uwrap w b) = uwrap w (a + b).
Proof. intros. unfold uwrap. apply Zplus_mod_idemp_r. Qed.

Lemma uwrap_sub_l w a b : 0 <= w -> uwrap w (uwrap w a - b) = uwrap w (a - b).
Proof. intros. unfold uwrap. apply Zminus_mod_idemp_l. Qed.

Lemma uwrap_sub_r w a b : 0 <= w -> uwrap w (a - uwrap w b) = uwrap w (a - b).
Proof. intros. unfold uwrap. apply Zminus_mod_idemp_r. Qed.

Lemma uwrap_idemp w z : 0 <= w -> uwrap w (uwrap w z) = uwrap w z.
Proof. intros. apply uwrap_small, uwrap_range; done. Qed.

Lemma uwrap_plus_mult w z k : 0 <= w -> uwrap w (z + k * 2 ^ w) = uwrap w z.
Proof. intros. unfold uwrap. apply Z_mod_plus_full. Qed.

Lemma swrap_small w z : 0 < w -> - 2 ^ (w - 1) <= z < 2 ^ (w - 1) -> swrap w z = z.
Proof.
  intros Hw Hz. unfold swrap. rewrite Z.mod_small; [lia|].
  replace (2 ^ w) with (2 * 2 ^ (w - 1)); [lia|].
  rewrite <- Z.pow_succ_r by lia. f_equal. lia.
Qed.

Lemma swrap_range w z : 0 < w -> - 2 ^ (w - 1) <= swrap w z < 2 ^ (w - 1).
Proof.
  intros Hw. unfold swrap. assert (2 ^ w = 2 * 2 ^ (w - 1)) as E by (rewrite <- Z.pow_succ_r by lia; f_equal; lia).
  pose proof (Z.mod_pos_bound (z + 2 ^ (w - 1)) (2 ^ w) ltac:(apply Z.pow_pos_nonneg; lia)). lia.
Qed.

(** A signed value keeps its bits. *)
Lemma uwrap_swrap w z : 0 < w -> uwrap w (swrap w z) = uwrap w z.
Proof.
  intros Hw. unfold swrap, uwrap. rewrite Zminus_mod_idemp_l. f_equal. lia.
Qed.

Lemma swrap_uwrap w z : 0 < w -> swrap w (uwrap w z) = swrap w z.
Proof. intros. unfold swrap, uwrap. by rewrite Zplus_mod_idemp_l. Qed.

(** ** Tactics of the development *)

(** Turns the boolean tests of the code in hypotheses and goal into
    propositions [lia] understands. *)
Ltac bool_hyps :=
  repeat match goal with
  | H : (_ && _)%bool = true |- _ => apply andb_prop in H; destruct H
  | H : (_ || _)%bool = false |- _ => apply orb_false_elim in H; destruct H
  | H : negb _ = true |- _ => apply negb_true_iff in H
  | H : negb _ = false |- _ => apply negb_false_iff in H
  | H : (_ <? _) = true |- _ => apply Z.ltb_lt in H
  | H : (_ <? _) = false |- _ => apply Z.ltb_ge in H
  | H : (_ <=? _) = true |- _ => apply Z.leb_le in H
  | H : (_ <=? _) = false |- _ => apply Z.leb_gt in H
  | H : (_ =? _) = true |- _ => apply Z.eqb_eq in H
  | H : (_ =? _) = false |- _ => apply Z.eqb_neq in H
  | H : (_ >? _) = true |- _ => rewrite Z.gtb_ltb in H; apply Z.ltb_lt in H
  | H : (_ >? _) = false |- _ => rewrite Z.gtb_ltb in H; apply Z.ltb_ge in H
  | H : (_ >=? _) = true |- _ => rewrite Z.geb_leb in H; apply Z.leb_le in H
  | H : (_ >=? _) = false |- _ => rewrite Z.geb_leb in H; apply Z.leb_gt in H
  end.

(** Case analysis on the first [if] of the goal (or of a hypothesis). *)
Ltac case_if :=
  match goal with
  | |- context [if ?b then _ else _] =>
      let E := fresh "Hif" in destruct b eqn:E
  end; bool_hyps.
Ltac case_if_in H :=
  match type of H with
  | context [if ?b then _ else _] =>
      let E := fresh "Hif" in destruct b eqn:E
  end; bool_hyps.

(** Decides a boolean test that linear arithmetic settles. *)
Ltac decide_if :=
  match goal with
  | |- context [if ?b then _ else _] =>
      (replace b with true by (symmetry; lia)) || (replace b with false by (symmetry; lia))
  end; cbv iota.

(** Removes the wrap-around of operations whose result is in range. *)
Ltac nowrap := repeat (rewrite uwrap_small by lia).

Ltac unwrap := unfold uwrap, swrap in *; Z.div_mod_to_equations; lia.

(** [hrt_elapsed_time(&then)] at time [now]. *)
Definition hrt_elapsed_time (now then_ : Z) : Z := if now <? then_ then 0 else now - then_.

(** ** Lists indexed by [Z] and C memory blocks *)

Definition zlen {A} (l : list A) : Z := Z.of_nat (length l).

Definition zlookup {A} (l : list A) (i : Z) : option A :=
  if 0 <=? i then l !! Z.to_nat i else None.

(** Store to [l[i]]; [None] when the index is outside the object. *)
Definition zstore {A} (l : list A) (i : Z) (x : A) : option (list A) :=
  if (0 <=? i) && (i <? zlen l) then Some (<[Z.to_nat i := x]> l) else None.

(** The [len] cells of [blk] from offset [off]. *)
Definition slice {A} (off len : Z) (blk : list A) : list A :=
  take (Z.to_nat len) (drop (Z.to_nat off) blk).

(** [splice off src blk] is [blk] with the cells from [off] on replaced by [src]. *)
Definition splice {A} (off : Z) (src blk : list A) : list A :=
  take (Z.to_nat off) blk ++ src ++ drop (Z.to_nat off + length src) blk.

(** The two halves of [memcpy] on one block: reading [len] cells and writing
    the cells of [src]; [None] is an access outside the object. *)
Definition mem_read {A} (blk : list A) (off len : Z) : option (list A) :=
  if (0 <=? off) && (0 <=? len) && (off + len <=? zlen blk)
  then Some (slice off len blk) else None.

Definition mem_write {A} (blk : list A) (off : Z) (src : list A) : option (list A) :=
  if (0 <=? off) && (off + zlen src <=? zlen blk)
  then Some (splice off src blk) else None.

Section blocks.
Context {A : Type}.
Implicit Types (l blk src : list A).

Lemma zlen_nonneg l : 0 <= zlen l.
Proof. unfold zlen. lia. Qed.

Lemma zlen_app l1 l2 : zlen (l1 ++ l2) = zlen l1 + zlen l2.
Proof. unfold zlen. rewrite length_app. lia. Qed.

Lemma zlen_nil : zlen (@nil A) = 0.
Proof. done. Qed.

Lemma zlen_cons x l : zlen (x :: l) = 1 + zlen l.
Proof. unfold zlen. rewrite length_cons. lia. Qed.

Lemma zlen_slice off len blk :
  0 <= off -> 0 <= len -> off + len <= zlen blk -> zlen (slice off len blk) = len.
Proof. unfold zlen, slice. intros. rewrite length_take, length_drop. lia. Qed.

Lemma zlen_splice off src blk :
  0 <= off -> off + zlen src <= zlen blk -> zlen (splice off src blk) = zlen blk.
Proof.
  unfold zlen, splice. intros.
  rewrite !length_app, length_take, length_drop. lia.
Qed.

Lemma slice_0 off blk : slice off 0 blk = [].
Proof. done. Qed.

Lemma slice_full n blk : n = zlen blk -> slice 0 n blk = blk.
Proof. intros ->. unfold slice, zlen. rewrite Nat2Z.id. apply firstn_all. Qed.

Lemma lookup_slice off len blk i :
  slice off len blk !! i =
    if decide (i < Z.to_nat len)%nat then blk !! (Z.to_nat off + i)%nat else None.
Proof.
  unfold slice. case_decide.
  - rewrite lookup_take_lt by done. apply lookup_drop.
  - apply lookup_take_ge. lia.
Qed.

Lemma lookup_splice off src blk i :
  0 <= off -> off + zlen src <= zlen blk ->
  splice off src blk !! i =
    if decide (Z.to_nat off <= i < Z.to_nat off + length src)%nat
    then src !! (i - Z.to_nat off)%nat else blk !! i.
Proof.
  unfold splice, zlen. intros Hoff Hlen.
  destruct (decide (i < Z.to_nat off)%nat).
  - rewrite decide_False by lia.
    rewrite lookup_app_l by (rewrite length_take; lia). by apply lookup_take_lt.
  - rewrite lookup_app_r by (rewrite length_take; lia).
    rewrite length_take, Nat.min_l by lia. case_decide.
    + by rewrite lookup_app_l by lia.
    + rewrite lookup_app_r by lia. rewrite lookup_drop. f_equal. lia.
Qed.

End blocks.

Lemma zlookup_lt {A} (l : list A) i : 0 <= i < zlen l -> is_Some (zlookup l i).
Proof.
  unfold zlookup, zlen. intros. decide_if. apply lookup_lt_is_Some. lia.
Qed.

Lemma zlookup_insert {A} (l : list A) i j x :
  0 <= i < zlen l -> 0 <= j -> zlookup (<[Z.to_nat i := x]> l) j = if i =? j then Some x else zlookup l j.
Proof.
  unfold zlookup, zlen. intros. decide_if. case_if.
  - subst. apply list_lookup_insert_eq. lia.
  - apply list_lookup_insert_ne. lia.
Qed.

Lemma zstore_Some {A} (l : list A) i x :
  0 <= i < zlen l ->
  exists l', zstore l i x = Some l' /\ zlen l' = zlen l /\
    forall j, zlookup l' j = if j =? i then Some x else zlookup l j.
Proof.
  intros Hi. unfold zstore. rewrite (proj2 (Z.leb_le _ _)), (proj2 (Z.ltb_lt _ _)) by lia.
  eexists; split; [done|]. split; [unfold zlen; by rewrite length_insert|]. intros j.
  destruct (Z.lt_ge_cases j 0) as [Hj|Hj].
  - unfold zlookup. rewrite (proj2 (Z.leb_gt 0 j)) by lia. by rewrite (proj2 (Z.eqb_neq _ _)) by lia.
  - rewrite zlookup_insert by lia. by rewrite Z.eqb_sym.
Qed.

Lemma zlookup_nat {A} (l : list A) k x : zlookup l k = Some x -> l !! Z.to_nat k = Some x.
Proof. unfold zlookup. by case_if. Qed.

Lemma zlookup_Some_lt {A} (l : list A) k x : zlookup l k = Some x -> 0 <= k < zlen l.
Proof.
  unfold zlookup, zlen. case_if; [|done]. intros Hx%lookup_lt_Some. lia.
Qed.

Lemma zlen_replicate {A} n (x : A) : 0 <= n -> zlen (replicate (Z.to_nat n) x) = n.
Proof. intros. unfold zlen. rewrite length_replicate. lia. Qed.

Lemma zlookup_app_inv {A} (l1 l2 : list A) k x :
  zlookup (l1 ++ l2) k = Some x -> (0 <= k < zlen l1 /\ zlookup l1 k = Some x) \/
    (zlen l1 <= k /\ zlookup l2 (k - zlen l1) = Some x).
Proof.
  unfold zlookup, zlen. case_if; [|done]. intros Hx.
  destruct (decide (Z.to_nat k < length l1)%nat) as [Hlt|Hge].
  - left. rewrite lookup_app_l in Hx by done. split; [lia|done].
  - right. rewrite lookup_app_r in Hx by lia. decide_if. split; [lia|].
    rewrite <- Hx. f_equal. lia.
Qed.

Section block_laws.
Context {A : Type}.
Implicit Types (l blk src : list A).

Lemma slice_app off n m blk :
  0 <= off -> 0 <= n -> 0 <= m ->
  slice off (n + m) blk = slice off n blk ++ slice (off + n) m blk.
Proof.
  intros. unfold slice. rewrite !Z2Nat.inj_add by lia.
  rewrite <- take_take_drop. by rewrite drop_drop.
Qed.

Lemma slice_splice_same off n src blk :
  0 <= off -> n = zlen src -> off + n <= zlen blk -> slice off n (splice off src blk) = src.
Proof.
  intros ? -> ?. apply list_eq; intros i. rewrite lookup_slice, lookup_splice by done.
  unfold zlen in *. repeat case_decide; try lia.
  - f_equal. lia.
  - symmetry. apply lookup_ge_None. lia.
Qed.

Lemma slice_splice_before off n pos src blk :
  0 <= off -> 0 <= pos -> off + n <= pos -> pos + zlen src <= zlen blk ->
  slice off n (splice pos src blk) = slice off n blk.
Proof.
  intros. apply list_eq; intros i. rewrite !lookup_slice.
  case_decide; [|done]. rewrite lookup_splice by done. by rewrite decide_False by lia.
Qed.

Lemma slice_splice_after off n pos src blk :
  0 <= pos -> pos + zlen src <= off -> pos + zlen src <= zlen blk ->
  slice off n (splice pos src blk) = slice off n blk.
Proof.
  intros. apply list_eq; intros i. rewrite !lookup_slice.
  case_decide; [|done]. rewrite lookup_splice by done.
  rewrite decide_False; [done|]. unfold zlen in *. lia.
Qed.

Lemma slice_splice_extend off n pos src blk :
  0 <= off <= pos -> pos + zlen src <= zlen blk -> n = pos - off + zlen src ->
  slice off n (splice pos src blk) = slice off (pos - off) blk ++ src.
Proof.
  intros ? ? ->. pose proof (zlen_nonneg src). rewrite slice_app by lia.
  rewrite slice_splice_before by lia. f_equal.
  replace (off + (pos - off)) with pos by lia. apply slice_splice_same; lia.
Qed.

Lemma slice_slice off n off' n' blk :
  0 <= off -> 0 <= off' -> 0 <= n' -> off' + n' <= n ->
  slice off' n' (slice off n blk) = slice (off + off') n' blk.
Proof.
  intros. apply list_eq; intros i. rewrite !lookup_slice.
  repeat case_decide; try lia; try done. f_equal. lia.
Qed.

Lemma slice_app_l off n l1 l2 :
  0 <= off -> 0 <= n -> off + n <= zlen l1 -> slice off n (l1 ++ l2) = slice off n l1.
Proof.
  unfold zlen. intros. apply list_eq; intros i. rewrite !lookup_slice.
  case_decide; [|done]. apply lookup_app_l. lia.
Qed.

Lemma slice_app_r off n l1 l2 :
  zlen l1 <= off -> slice off n (l1 ++ l2) = slice (off - zlen l1) n l2.
Proof.
  unfold zlen. intros. apply list_eq; intros i. rewrite !lookup_slice.
  case_decide; [|done]. rewrite lookup_app_r by lia. f_equal. lia.
Qed.

Lemma slice_app_mid off n l1 l2 :
  0 <= off <= zlen l1 -> zlen l1 <= off + n ->
  slice off n (l1 ++ l2) = slice off (zlen l1 - off) l1 ++ slice 0 (off + n - zlen l1) l2.
Proof.
  intros. replace n with ((zlen l1 - off) + (off + n - zlen l1)) at 1 by lia.
  rewrite slice_app by lia. f_equal; [apply slice_app_l; lia|].
  rewrite slice_app_r by lia. f_equal. lia.
Qed.

Lemma splice_splice off pos s1 s2 blk :
  0 <= off -> pos = off + zlen s1 -> pos + zlen s2 <= zlen blk ->
  splice pos s2 (splice off s1 blk) = splice off (s1 ++ s2) blk.
Proof.
  intros ? -> ?. pose proof (zlen_nonneg s1). pose proof (zlen_nonneg s2).
  apply list_eq; intros i.
  rewrite !lookup_splice by (rewrite ?zlen_splice, ?zlen_app; lia).
  unfold zlen in *. rewrite length_app. repeat case_decide; try lia; try done.
  - rewrite lookup_app_r by lia. f_equal. lia.
  - by rewrite lookup_app_l by lia.
Qed.

Lemma slice_take n l : slice 0 (Z.min n (zlen l)) l = take (Z.to_nat n) l.
Proof.
  unfold slice, zlen. rewrite drop_0. destruct (Z.le_gt_cases n (Z.of_nat (length l))).
  - by rewrite Z.min_l.
  - rewrite Z.min_r, Nat2Z.id, !take_ge by lia. done.
Qed.

Lemma slice_drop n l :
  0 <= n -> slice (Z.min n (zlen l)) (zlen l - Z.min n (zlen l)) l = drop (Z.to_nat n) l.
Proof.
  intros. unfold slice, zlen. rewrite take_ge by (rewrite length_drop; lia).
  destruct (Z.le_gt_cases n (Z.of_nat (length l))).
  - by rewrite Z.min_l.
  - rewrite Z.min_r, !drop_ge by lia. done.
Qed.

Lemma splice_nil off blk : splice off [] blk = blk.
Proof. unfold splice. rewrite app_nil_l. cbn. rewrite Nat.add_0_r. apply take_drop. Qed.

Lemma splice_all src blk : zlen src = zlen blk -> splice 0 src blk = src.
Proof.
  unfold splice, zlen. intros. rewrite drop_ge by lia. by rewrite app_nil_r.
Qed.

Lemma mem_read_Some blk off len :
  0 <= off -> 0 <= len -> off + len <= zlen blk -> mem_read blk off len = Some (slice off len blk).
Proof. intros. unfold mem_read. by decide_if. Qed.

Lemma mem_write_Some blk off src :
  0 <= off -> off + zlen src <= zlen blk -> mem_write blk off src = Some (splice off src blk).
Proof. intros. unfold mem_write. by decide_if. Qed.

Lemma mem_write_inv blk off src blk' :
  mem_write blk off src = Some blk' ->
  0 <= off /\ off + zlen src <= zlen blk /\ blk' = splice off src blk.
Proof. unfold mem_write. intros H. case_if_in H; [|done]. by simplify_eq. Qed.

Lemma Forall_slice (P : A -> Prop) off n blk : Forall P blk -> Forall P (slice off n blk).
Proof. intros. by apply Forall_take, Forall_drop. Qed.

Lemma Forall_splice (P : A -> Prop) off src blk :
  Forall P blk -> Forall P src -> Forall P (splice off src blk).
Proof.
  intros. unfold splice.
  apply Forall_app; split; [by apply Forall_take|].
  apply Forall_app; split; [done|by apply Forall_drop].
Qed.
End block_laws.

Lemma zlookup_ge {A} (l : list A) i : zlen l <= i -> zlookup l i = None.
Proof. unfold zlen, zlookup. intros. case_if; [|done]. apply lookup_ge_None. lia. Qed.

Lemma zlookup_splice {A} pos (src blk : list A) i :
  0 <= pos -> pos + zlen src <= zlen blk -> 0 <= i ->
  zlookup (splice pos src blk) i =
  if (pos <=? i) && (i <? pos + zlen src) then zlookup src (i - pos) else zlookup blk i.
Proof.
  intros Hp Hl Hi. unfold zlookup. rewrite (proj2 (Z.leb_le 0 i) Hi). rewrite lookup_splice by done.
  unfold zlen in *. case_decide.
  - decide_if. decide_if. f_equal. lia.
  - case_if; [lia|done].
Qed.

Lemma zlookup_slice {A} off n (blk : list A) k :
  0 <= off -> 0 <= k -> zlookup (slice off n blk) k = if k <? n then zlookup blk (off + k) else None.
Proof.
  intros. unfold zlookup. decide_if. decide_if. rewrite lookup_slice.
  case_decide; case_if; try lia; [f_equal; lia|done].
Qed.

Lemma zlookup_ext {A} (l1 l2 : list A) :
  zlen l1 = zlen l2 -> (forall k, 0 <= k < zlen l1 -> zlookup l1 k = zlookup l2 k) -> l1 = l2.
Proof.
  unfold zlen. intros Hl H. apply list_eq. intros i.
  destruct (Nat.lt_ge_cases i (length l1)).
  - specialize (H (Z.of_nat i)). unfold zlookup in H. rewrite (proj2 (Z.leb_le _ _)), Nat2Z.id in H by lia.
    apply H. lia.
  - rewrite !lookup_ge_None_2 by lia. done.
Qed.

Lemma bind_intro {A C} (m : option A) (k : A -> option C) x r : m = Some x -> k x = r -> m ≫= k = r.
Proof. by intros ->. Qed.

Lemma zlookup_app {A} (l1 l2 : list A) k :
  0 <= k -> zlookup (l1 ++ l2) k = if k <? zlen l1 then zlookup l1 k else zlookup l2 (k - zlen l1).
Proof.
  unfold zlookup, zlen. intros. decide_if. case_if.
  - apply lookup_app_l. lia.
  - decide_if. rewrite lookup_app_r by lia. f_equal. lia.
Qed.

Lemma zlookup_drop {A} n (l : list A) k : 0 <= n -> 0 <= k -> zlookup (drop (Z.to_nat n) l) k = zlookup l (n + k).
Proof. unfold zlookup. intros. decide_if. decide_if. rewrite lookup_drop. f_equal. lia. Qed.

Create HintDb px4.
#[export] Hint Resolve zlen_nonneg uwrap_range : px4.
#[export] Hint Rewrite @zlen_app @zlen_nil @zlen_cons @slice_0 @splice_nil : px4.

(** ** Little-endian object representation *)

(** The bytes of an [n]-byte unsigned integer as they lie in memory on the
    little-endian targets, and the value they denote. *)
Fixpoint le_bytes (n : nat) (z : Z) : list Z :=
  match n with
  | O => []
  | S n => z mod 256 :: le_bytes n (z / 256)
  end.

Fixpoint le_value (l : list Z) : Z :=
  match l with
  | [] => 0
  | b :: l => b + 256 * le_value l
  end.

Definition byte_ok (b : Z) : Prop := 0 <= b < 256.

Lemma length_le_bytes n z : length (le_bytes n z) = n.
Proof. revert z. induction n; intros; cbn; auto. Qed.

Lemma zlen_le_bytes n z : zlen (le_bytes n z) = Z.of_nat n.
Proof. unfold zlen. by rewrite length_le_bytes. Qed.

Lemma le_bytes_ok n z : Forall byte_ok (le_bytes n z).
Proof.
  revert z. induction n; intros; cbn; constructor; auto.
  apply Z.mod_pos_bound. lia.
Qed.

Lemma le_value_le_bytes n z : le_value (le_bytes n z) = uwrap (8 * Z.of_nat n) z.
Proof.
  revert z. induction n; intros z; [cbn; unfold uwrap; by rewrite Z.mod_1_r|].
  cbn [le_bytes le_value]. rewrite IHn. unfold uwrap.
  replace (2 ^ (8 * Z.of_nat (S n))) with (256 * 2 ^ (8 * Z.of_nat n)).
  - rewrite Z.rem_mul_r; lia.
  - replace (8 * Z.of_nat (S n)) with (8 + 8 * Z.of_nat n) by lia.
    rewrite Z.pow_add_r by lia. lia.
Qed.

Lemma le_value_range l : Forall byte_ok l -> 0 <= le_value l < 256 ^ zlen l.
Proof.
  induction 1 as [|b l Hb _ IH]; [by split|].
  rewrite zlen_cons, Z.pow_add_r by (auto with px4; lia).
  cbn [le_value]. unfold byte_ok in Hb. lia.
Qed.

Lemma le_bytes_le_value l : Forall byte_ok l -> le_bytes (length l) (le_value l) = l.
Proof.
  induction 1 as [|b l Hb _ IH]; [done|]. cbn. unfold byte_ok in Hb.
  f_equal.
  - Z.div_mod_to_equations. lia.
  - etransitivity; [|exact IH]. f_equal. Z.div_mod_to_equations. lia.
Qed.
