(* ===== verification/Ringbuffer.v ===== *)
(** * Byte ring buffer

    [Module Ringbuffer] models src/lib/ringbuffer/Ringbuffer.{hpp,cpp}, a FIFO of
    bytes in one heap block. Clients are written against the interface [ByteFifo]
    and its laws; the ring buffer is an instance of it. [Module FifoRun] states what
    sequences of calls do.

    [None] as the result of an operation is undefined behaviour of the C++ code:
    a [memcpy] outside an object or a failed [assert]. *)
From stdpp Require Import base list option.
From Stdlib Require Import ZArith Lia.
From S2P Require Import Prelude.

(** ** The interface a byte FIFO offers to its clients

    A pointer argument is an [option]: [None] is [nullptr], [Some blk] points to
    the first cell of [blk]. *)
Class ByteFifo (T : Type) := {
  fifo_push_back : T -> option (list Z) -> Z -> option (bool * T);
  fifo_pop_front : T -> option (list Z) -> Z -> option (Z * option (list Z) * T);
  fifo_space_available : T -> Z;
}.

(** What a byte FIFO promises: an abstract queue of bytes of bounded length. *)
Class ByteFifoLaws (T : Type) `{ByteFifo T} := {
  fifo_inv : T -> Prop;
  fifo_bytes : T -> list Z;
  fifo_capacity : T -> Z;
  fifo_capacity_range t : fifo_inv t -> 0 <= fifo_capacity t < 2 ^ 32;
  fifo_space_law t :
    fifo_inv t -> fifo_space_available t = fifo_capacity t - zlen (fifo_bytes t);
  fifo_fits_law t : fifo_inv t -> zlen (fifo_bytes t) <= fifo_capacity t;
  fifo_push_law t src n :
    fifo_inv t -> 0 < n <= zlen src -> n <= fifo_space_available t ->
    exists t', fifo_push_back t (Some src) n = Some (true, t') /\ fifo_inv t' /\
      fifo_bytes t' = fifo_bytes t ++ slice 0 n src /\ fifo_capacity t' = fifo_capacity t;
  fifo_push_full_law t src n :
    fifo_inv t -> n < 2 ^ 32 -> fifo_space_available t < n ->
    fifo_push_back t (Some src) n = Some (false, t);
  fifo_push_nil_law t src : fifo_inv t -> fifo_push_back t (Some src) 0 = Some (false, t);
  fifo_pop_law t dst n :
    fifo_inv t -> 0 <= n < 2 ^ 32 ->
    let k := Z.min n (zlen (fifo_bytes t)) in
    k <= zlen dst ->
    exists t', fifo_pop_front t (Some dst) n =
        Some (k, Some (splice 0 (slice 0 k (fifo_bytes t)) dst), t') /\ fifo_inv t' /\
      fifo_bytes t' = slice k (zlen (fifo_bytes t) - k) (fifo_bytes t) /\
      fifo_capacity t' = fifo_capacity t;
}.

Module Ringbuffer.

Record Ringbuffer := mkRingbuffer {
  _size : Z;
  _ringbuffer : option (list Z);
  _start : Z;
  _end : Z;
}.

(** The default member initialisers. *)
Definition init : Ringbuffer := mkRingbuffer 0 None 0 0.

(** [new uint8_t[_size]] yields [block], whose contents are indeterminate. *)
Definition allocate (rb : Ringbuffer) (buffer_size : Z) (block : option (list Z))
  : option (bool * Ringbuffer) :=
  match rb.(_ringbuffer) with
  | Some _ => None (* assert(_ringbuffer == nullptr) *)
  | None => Some (bool_decide (is_Some block),
                  mkRingbuffer buffer_size block rb.(_start) rb.(_end))
  end.

Definition deallocate (rb : Ringbuffer) : Ringbuffer :=
  mkRingbuffer 0 None rb.(_start) rb.(_end).

Definition space_available (rb : Ringbuffer) : Z :=
  if rb.(_end) <? rb.(_start) then u32 (rb.(_start) - rb.(_end) - 1)
  else u32 (rb.(_start) - rb.(_end) - 1 + rb.(_size)).

Definition space_used (rb : Ringbuffer) : Z :=
  if rb.(_start) <=? rb.(_end) then u32 (rb.(_end) - rb.(_start))
  else u32 (rb.(_end) - rb.(_start) + rb.(_size)).

(** [memcpy(&_ringbuffer[at], buf + from, len)]. *)
Definition copy_in (rb : Ringbuffer) (at_ : Z) (buf : list Z) (from len : Z)
  : option (list Z) :=
  blk ← rb.(_ringbuffer); src ← mem_read buf from len; mem_write blk at_ src.

Definition push_back (rb : Ringbuffer) (buf : option (list Z)) (buf_len : Z)
  : option (bool * Ringbuffer) :=
  match buf with
  | None => Some (false, rb)
  | Some buf =>
    if buf_len =? 0 then Some (false, rb)
    else if rb.(_end) <? rb.(_start) then
      let available := u32 (rb.(_start) - rb.(_end) - 1) in
      if available <? buf_len then Some (false, rb)
      else
        blk ← copy_in rb rb.(_end) buf 0 buf_len;
        Some (true, mkRingbuffer rb.(_size) (Some blk) rb.(_start) (u32 (rb.(_end) + buf_len)))
    else
      let available := u32 (rb.(_start) - rb.(_end) - 1 + rb.(_size)) in
      if available <? buf_len then Some (false, rb)
      else
        let remaining_packet_len := u32 (rb.(_size) - rb.(_end)) in
        if remaining_packet_len <? buf_len then
          blk ← copy_in rb rb.(_end) buf 0 remaining_packet_len;
          let rb1 := mkRingbuffer rb.(_size) (Some blk) rb.(_start) 0 in
          blk ← copy_in rb1 0 buf remaining_packet_len (u32 (buf_len - remaining_packet_len));
          Some (true, mkRingbuffer rb.(_size) (Some blk) rb.(_start)
                        (u32 (buf_len - remaining_packet_len)))
        else
          blk ← copy_in rb rb.(_end) buf 0 buf_len;
          Some (true, mkRingbuffer rb.(_size) (Some blk) rb.(_start) (u32 (rb.(_end) + buf_len)))
  end.

(** [memcpy(buf + to, &_ringbuffer[at], len)]. *)
Definition copy_out (rb : Ringbuffer) (at_ : Z) (buf : list Z) (to len : Z)
  : option (list Z) :=
  blk ← rb.(_ringbuffer); src ← mem_read blk at_ len; mem_write buf to src.

Definition set_start (rb : Ringbuffer) (s : Z) : Ringbuffer :=
  mkRingbuffer rb.(_size) rb.(_ringbuffer) s rb.(_end).

Definition pop_front (rb : Ringbuffer) (buf : option (list Z)) (buf_max_len : Z)
  : option (Z * option (list Z) * Ringbuffer) :=
  match buf with
  | None => Some (0, None, rb)
  | Some buf =>
    if rb.(_start) =? rb.(_end) then Some (0, Some buf, rb)
    else if rb.(_start) <? rb.(_end) then
      let to_copy_len := Z.min (u32 (rb.(_end) - rb.(_start))) buf_max_len in
      dst ← copy_out rb rb.(_start) buf 0 to_copy_len;
      Some (to_copy_len, Some dst, set_start rb (u32 (rb.(_start) + to_copy_len)))
    else
      let to_copy_len := u32 (rb.(_end) - rb.(_start) + rb.(_size)) in
      let to_copy_len := if buf_max_len <? to_copy_len then buf_max_len else to_copy_len in
      let remaining_buf_len := u32 (rb.(_size) - rb.(_start)) in
      if remaining_buf_len <? to_copy_len then
        dst ← copy_out rb rb.(_start) buf 0 remaining_buf_len;
        dst ← copy_out rb 0 dst remaining_buf_len (u32 (to_copy_len - remaining_buf_len));
        Some (to_copy_len, Some dst, set_start rb (u32 (to_copy_len - remaining_buf_len)))
      else
        dst ← copy_out rb rb.(_start) buf 0 to_copy_len;
        Some (to_copy_len, Some dst, set_start rb (u32 (rb.(_start) + to_copy_len)))
  end.

#[global] Instance ringbuffer_fifo : ByteFifo Ringbuffer := {
  fifo_push_back := push_back;
  fifo_pop_front := pop_front;
  fifo_space_available := space_available;
}.

(** *** Invariant and abstract contents *)

Definition blk (rb : Ringbuffer) : list Z := default [] rb.(_ringbuffer).

(** [_end] may equal [_size]: the wrap to 0 is done by the next push. One cell
    always stays free. *)
Record wf (rb : Ringbuffer) : Prop := {
  wf_alloc : is_Some rb.(_ringbuffer);
  wf_size : zlen (blk rb) = rb.(_size);
  wf_bound : 1 <= rb.(_size) < 2 ^ 32;
  wf_start : 0 <= rb.(_start) <= rb.(_size);
  wf_end : 0 <= rb.(_end) <= rb.(_size);
  wf_free : rb.(_end) - rb.(_start) < rb.(_size);
}.

Definition contents (rb : Ringbuffer) : list Z :=
  if rb.(_start) <=? rb.(_end) then slice rb.(_start) (rb.(_end) - rb.(_start)) (blk rb)
  else slice rb.(_start) (rb.(_size) - rb.(_start)) (blk rb) ++ slice 0 rb.(_end) (blk rb).

(** Opens a well-formed buffer into its fields. *)
Ltac open_rb rb :=
  destruct rb as [size ring start end_]; unfold blk in *; simpl in *;
  match goal with
  | H : wf _ |- _ => destruct H as [[b Hb] ?H ?H ?H ?H ?H]; unfold blk in *; simpl in *
  end; simplify_eq; simpl in *.

Lemma contents_length rb : wf rb -> zlen (contents rb) = space_used rb.
Proof.
  intros Hwf. open_rb rb. unfold contents, space_used, blk. simpl. case_if.
  - nowrap. rewrite zlen_slice; lia.
  - nowrap. rewrite zlen_app, !zlen_slice; lia.
Qed.

Lemma space_split rb : wf rb -> space_available rb = rb.(_size) - 1 - zlen (contents rb).
Proof.
  intros Hwf. rewrite contents_length by done. open_rb rb.
  unfold space_available, space_used. simpl. repeat case_if; nowrap; lia.
Qed.

Ltac rb_len := repeat (first [rewrite zlen_splice | rewrite zlen_slice | rewrite zlen_app]); try lia.
Ltac rb_mem :=
  nowrap; repeat (first [rewrite mem_read_Some by rb_len | rewrite mem_write_Some by rb_len]; simpl).
Ltac rb_wf := constructor; unfold blk; simpl; rb_len; eauto.

Lemma push_back_ok rb src n :
  wf rb -> 0 < n <= zlen src -> n <= space_available rb ->
  exists rb', push_back rb (Some src) n = Some (true, rb') /\ wf rb' /\
    contents rb' = contents rb ++ slice 0 n src /\ rb'.(_size) = rb.(_size).
Proof.
  intros Hwf Hn Hsp. open_rb rb. unfold space_available in Hsp. simpl in Hsp.
  unfold push_back, copy_in. simpl. decide_if.
  unfold contents, blk. simpl. case_if.
  - rewrite !uwrap_small in * by lia. repeat decide_if. rb_mem.
    eexists; split; [done|]. nowrap. split_and!; [rb_wf|simpl; decide_if|done].
    rewrite slice_splice_after by rb_len.
    rewrite (slice_splice_extend 0) by rb_len. by rewrite Z.sub_0_r, app_assoc.
  - rewrite !uwrap_small in * by lia. repeat decide_if. case_if; rb_mem.
    + eexists; split; [done|]. nowrap. split_and!; [rb_wf|simpl; decide_if|done].
      rewrite slice_splice_after by rb_len.
      rewrite (slice_splice_extend start) by rb_len.
      rewrite (slice_splice_extend 0) by rb_len.
      rewrite Z.sub_0_r, slice_0, app_nil_l.
      rewrite <- app_assoc, <- (slice_app 0) by lia. repeat f_equal. lia.
    + eexists; split; [done|]. nowrap. split_and!; [rb_wf|simpl; decide_if|done].
      by rewrite slice_splice_extend by rb_len.
Qed.

Lemma push_back_full rb src n :
  wf rb -> n < 2 ^ 32 -> space_available rb < n -> push_back rb (Some src) n = Some (false, rb).
Proof.
  intros Hwf Hn Hsp. open_rb rb. unfold space_available in Hsp. unfold push_back. simpl in *.
  case_if; [done|]. case_if; by decide_if.
Qed.

Lemma contents_nowrap size b s e :
  s <= e -> contents (mkRingbuffer size (Some b) s e) = slice s (e - s) b.
Proof. intros. unfold contents, blk. simpl. by decide_if. Qed.

Lemma contents_wrap size b s e :
  e < s -> contents (mkRingbuffer size (Some b) s e) = slice s (size - s) b ++ slice 0 e b.
Proof. intros. unfold contents, blk. simpl. by decide_if. Qed.

Lemma pop_front_ok rb dst n :
  wf rb -> 0 <= n < 2 ^ 32 ->
  let k := Z.min n (zlen (contents rb)) in
  k <= zlen dst ->
  exists rb', pop_front rb (Some dst) n =
      Some (k, Some (splice 0 (slice 0 k (contents rb)) dst), rb') /\ wf rb' /\
    contents rb' = slice k (zlen (contents rb) - k) (contents rb) /\ rb'.(_size) = rb.(_size).
Proof.
  intros Hwf Hn k Hk. open_rb rb.
  remember k as k0 eqn:Hkd. subst k. unfold pop_front, copy_out, set_start. simpl.
  destruct (Z.eqb_spec start end_) as [->|Hne].
  { rewrite contents_nowrap, Z.sub_diag, slice_0 in * by lia. change (zlen (@nil Z)) with 0 in *.
    assert (k0 = 0) as -> by lia. rewrite slice_0, splice_nil.
    eexists; split; [done|]. split_and!; [rb_wf| |done].
    by rewrite contents_nowrap, Z.sub_diag by lia. }
  destruct (Z.ltb_spec start end_).
  - rewrite contents_nowrap in * by lia. rewrite zlen_slice in * by lia.
    nowrap. rewrite Z.min_comm. rewrite <- Hkd. assert (0 <= k0 <= end_ - start) by lia. rb_mem.
    eexists; split; [rewrite slice_slice, Z.add_0_r by lia; done|]. nowrap.
    split_and!; [rb_wf| |done]. rewrite contents_nowrap, slice_slice by lia. f_equal. lia.
  - rewrite contents_wrap in * by lia. rewrite zlen_app, !zlen_slice in * by lia.
    assert (0 <= k0 <= end_ - start + zlen b) by lia. nowrap.
    replace (if n <? _ then n else _) with k0 by (case_if; lia). case_if; rb_mem.
    + rewrite (splice_splice 0) by rb_len.
      rewrite slice_app_mid, (slice_full (_ - 0)), slice_slice by rb_len. rb_len.
      eexists; split; [done|]. nowrap. split_and!; [rb_wf| |done].
      rewrite contents_nowrap, slice_app_r, slice_slice by rb_len. rb_len. f_equal; lia.
    + rewrite slice_app_l, slice_slice, Z.add_0_r by rb_len.
      eexists; split; [done|]. nowrap. split_and!; [rb_wf| |done].
      rewrite contents_wrap, slice_app_mid, !slice_slice by rb_len. rb_len. f_equal; f_equal; lia.
Qed.

#[global, refine] Instance ringbuffer_fifo_laws : ByteFifoLaws Ringbuffer := {
  fifo_inv := wf;
  fifo_bytes := contents;
  fifo_capacity rb := rb.(_size) - 1;
}.
Proof.
  - intros rb Hwf. destruct Hwf. lia.
  - apply space_split.
  - intros rb Hwf. rewrite contents_length by done. open_rb rb. unfold space_used. simpl.
    case_if; nowrap; lia.
  - intros rb src n Hwf Hn Hsp. destruct (push_back_ok rb src n) as (rb' & ? & ? & ? & E); [done..|].
    exists rb'. rewrite E. done.
  - apply push_back_full.
  - done.
  - intros rb dst n Hwf Hn k Hk. destruct (pop_front_ok rb dst n) as (rb' & ? & ? & ? & E); [done..|].
    exists rb'. rewrite E. done.
Defined.

(** A freshly allocated buffer is well-formed and empty. *)
Lemma allocate_ok n block :
  1 <= n < 2 ^ 32 -> zlen block = n ->
  exists rb, allocate init n (Some block) = Some (true, rb) /\ wf rb /\ contents rb = [] /\
    rb.(_size) = n.
Proof.
  intros Hn <-. unfold allocate. simpl. eexists; split; [done|]. split_and!; [|done..].
  constructor; unfold blk; simpl; try lia; eauto.
Qed.

End Ringbuffer.

(** ** Runs of FIFO operations and their specification *)
Module FifoRun.

(** A client call: pushing [data], or popping at most [n] bytes into a buffer of
    at least that size. *)
Inductive op :=
| Push (data : list Z)
| Pop (n : Z).

(** What the client sees of a call. *)
Inductive obs :=
| Pushed (ok : bool)
| Popped (data : list Z).

Definition op_ok (o : op) : Prop :=
  match o with Push d => zlen d < 2 ^ 32 | Pop n => 0 <= n < 2 ^ 32 end.

Section run.
Context {T : Type} `{ByteFifo T}.

Definition step (t : T) (o : op) : option (obs * T) :=
  match o with
  | Push d => '(ok, t') ← fifo_push_back t (Some d) (zlen d); Some (Pushed ok, t')
  | Pop n =>
      '(k, dst, t') ← fifo_pop_front t (Some (replicate (Z.to_nat n) 0)) n;
      dst ← dst; Some (Popped (slice 0 k dst), t')
  end.

Fixpoint run (t : T) (os : list op) : option (list obs * T) :=
  match os with
  | [] => Some ([], t)
  | o :: os =>
      '(r, t) ← step t o;
      '(rs, t) ← run t os;
      Some (r :: rs, t)
  end.
End run.

(** The specification: a queue of at most [cap] bytes. A push that does not fit,
    and the push of nothing, are refused and change nothing. *)
Definition spec_step (cap : Z) (q : list Z) (o : op) : obs * list Z :=
  match o with
  | Push d =>
      if (0 <? zlen d) && (zlen q + zlen d <=? cap) then (Pushed true, q ++ d) else (Pushed false, q)
  | Pop n => (Popped (take (Z.to_nat n) q), drop (Z.to_nat n) q)
  end.

Fixpoint spec_run (cap : Z) (q : list Z) (os : list op) : list obs :=
  match os with
  | [] => []
  | o :: os => let '(r, q) := spec_step cap q o in r :: spec_run cap q os
  end.

Section refinement.
Context {T : Type} `{ByteFifoLaws T}.

Lemma step_refines t o :
  fifo_inv t -> op_ok o ->
  let '(r, q) := spec_step (fifo_capacity t) (fifo_bytes t) o in
  exists t', step t o = Some (r, t') /\ fifo_inv t' /\ fifo_bytes t' = q /\
    fifo_capacity t' = fifo_capacity t.
Proof.
  intros Hinv Hok. destruct o as [d|n]; simpl in *.
  - pose proof (zlen_nonneg d). pose proof (fifo_space_law t Hinv).
    destruct (Z.eq_dec (zlen d) 0) as [E|?].
    { rewrite E, fifo_push_nil_law by done. simpl. eauto. }
    destruct (Z.leb_spec (zlen (fifo_bytes t) + zlen d) (fifo_capacity t)).
    + decide_if. destruct (fifo_push_law t d (zlen d)) as (t' & Hp & ? & Hb & ?); [done|lia..|].
      rewrite Hp. simpl. exists t'. rewrite Hb, slice_full by done. done.
    + decide_if. rewrite fifo_push_full_law by (done || lia). simpl. eauto.
  - destruct (fifo_pop_law t (replicate (Z.to_nat n) 0) n) as (t' & Hp & ? & Hb & ?); [done..| |].
    { unfold zlen at 2. rewrite length_replicate. lia. }
    rewrite Hp. simpl. exists t'. pose proof (zlen_nonneg (fifo_bytes t)).
    split_and!; [|done| |done].
    + do 2 f_equal. rewrite slice_splice_same, slice_take; [done|done|..].
      * rewrite zlen_slice; lia.
      * unfold zlen at 2. rewrite length_replicate. lia.
    + rewrite Hb. apply slice_drop. lia.
Qed.

Lemma run_refines t os :
  fifo_inv t -> Forall op_ok os ->
  exists t', run t os = Some (spec_run (fifo_capacity t) (fifo_bytes t) os, t').
Proof.
  intros Hinv Hos. revert t Hinv. induction Hos as [|o os Ho _ IH]; intros t Hinv; simpl; [eauto|].
  pose proof (step_refines t o Hinv Ho) as Hs.
  destruct (spec_step _ _ o) as [r q]. destruct Hs as (t1 & -> & Hinv1 & <- & <-). simpl.
  destruct (IH t1 Hinv1) as (t2 & ->). simpl. eauto.
Qed.
End refinement.

End FifoRun.

(** ** Main theorems *)

(** C2: any sequence of [push_back] and [pop_front] calls on a freshly allocated
    [Ringbuffer] runs without touching memory outside its block, and its visible
    results are those of a FIFO queue of [size - 1] bytes. *)
Theorem ringbuffer_refines_fifo size block os :
  1 <= size < 2 ^ 32 -> zlen block = size -> Forall FifoRun.op_ok os ->
  exists rb rb', Ringbuffer.allocate Ringbuffer.init size (Some block) = Some (true, rb) /\
    FifoRun.run rb os = Some (FifoRun.spec_run (size - 1) [] os, rb').
Proof.
  intros Hs Hb Hos. destruct (Ringbuffer.allocate_ok size block Hs Hb) as (rb & -> & Hwf & Hc & <-).
  destruct (FifoRun.run_refines rb os) as (rb' & Hr); [done..|].
  exists rb, rb'. split; [done|]. rewrite Hr. cbn [fifo_bytes fifo_capacity Ringbuffer.ringbuffer_fifo_laws]. by rewrite Hc.
Qed.

Lemma ringbuffer_refines_fifo_witness :
  exists rb rb', Ringbuffer.allocate Ringbuffer.init 4 (Some [9; 9; 9; 9]) = Some (true, rb) /\
    FifoRun.run rb [FifoRun.Push [1; 2]; FifoRun.Pop 1; FifoRun.Push [3; 4]; FifoRun.Push [5]; FifoRun.Pop 9] =
      Some ([FifoRun.Pushed true; FifoRun.Popped [1]; FifoRun.Pushed true; FifoRun.Pushed false;
             FifoRun.Popped [2; 3; 4]], rb').
Proof.
  apply (ringbuffer_refines_fifo 4 [9; 9; 9; 9]
    [FifoRun.Push [1; 2]; FifoRun.Pop 1; FifoRun.Push [3; 4]; FifoRun.Push [5]; FifoRun.Pop 9]);
    [lia|done|repeat constructor; done].
Defined.

(** [deallocate] leaves [_start] and [_end] where they are, so a buffer that is
    deallocated and allocated again (the use its comment names) need not be empty: the
    re-allocated buffer reports bytes that were never pushed into it, and reading them
    leaves the new, smaller block. *)
Theorem reallocated_ringbuffer_is_stale :
  exists rb rb',
    Ringbuffer.push_back (Ringbuffer.mkRingbuffer 8 (Some (replicate 8 0)) 0 0)
      (Some [1; 2; 3; 4; 5; 6]) 6 = Some (true, rb) /\
    Ringbuffer.allocate (Ringbuffer.deallocate rb) 4 (Some (replicate 4 0)) = Some (true, rb') /\
    Ringbuffer.space_used rb' = 6 /\
    Ringbuffer.pop_front rb' (Some (replicate 6 0)) 6 = None.
Proof. do 2 eexists. split; [reflexivity|]. split; [reflexivity|]. by split. Qed.
