(* ===== verification/VariableLengthRingbuffer.v ===== *)
(** * Packet ring buffer

    Models src/lib/variable_length_ringbuffer/VariableLengthRingbuffer.{hpp,cpp}: a
    FIFO of packets stored in a byte FIFO, each behind a four-byte header that holds
    its length. The buffer is written against the interface [ByteFifo] and proved
    against its laws; [vlr_refines_packet_queue] instantiates it with the byte ring
    buffer. [None] is undefined behaviour or a failed [assert]. *)
From stdpp Require Import base list option.
From Stdlib Require Import ZArith Lia.
From S2P Require Import Prelude.
From S2P Require Import Ringbuffer.

Section vlr.
Context {T : Type} `{ByteFifo T}.

(** [sizeof(Header)]: one [uint32_t]. *)
Definition sizeof_Header : Z := 4.

Definition push_back (t : T) (packet : option (list Z)) (packet_len : Z)
  : option (bool * T) :=
  match packet with
  | None => Some (false, t)
  | Some packet =>
    if packet_len =? 0 then Some (false, t)
    else
      let space_required := u32 (packet_len + sizeof_Header) in
      if fifo_space_available t <? space_required then Some (false, t)
      else
        let header := le_bytes 4 (u32 packet_len) in
        '(result, t) ← fifo_push_back t (Some header) sizeof_Header;
        if negb result then None (* assert(result) *) else
        '(result, t) ← fifo_push_back t (Some packet) packet_len;
        if negb result then None else
        Some (true, t)
  end.

Definition pop_front (t : T) (buf : option (list Z)) (buf_max_len : Z)
  : option (Z * option (list Z) * T) :=
  match buf with
  | None => Some (0, None, t)
  | Some buf =>
    '(n, header, t) ← fifo_pop_front t (Some (replicate 4 0)) sizeof_Header;
    if n <? sizeof_Header then Some (0, Some buf, t)
    else
      header ← header;
      let len := le_value header in
      if buf_max_len <? len then None (* assert(header.len <= buf_max_len) *)
      else
        '(bytes_read, buf, t) ← fifo_pop_front t (Some buf) len;
        if bytes_read =? len then Some (bytes_read, buf, t)
        else None (* assert(bytes_read == header.len) *)
  end.

(** The encoding of a queue of packets in the byte FIFO. *)
Definition frame (p : list Z) : list Z := le_bytes 4 (zlen p) ++ p.
Definition frames (ps : list (list Z)) : list Z := concat (map frame ps).

Definition packet_ok (p : list Z) : Prop := 0 < zlen p < 2 ^ 32 - 4.
End vlr.

Section vlr_laws.
Context {T : Type} `{ByteFifoLaws T}.
Implicit Types (t : T) (p : list Z) (ps : list (list Z)).

(** [t] holds the packets [ps]. *)
Definition holds t ps : Prop :=
  fifo_inv t /\ Forall packet_ok ps /\ fifo_bytes t = frames ps.

Lemma vlr_push_back_ok t ps p :
  holds t ps -> packet_ok p -> zlen p + 4 <= fifo_capacity t - zlen (frames ps) ->
  exists t', push_back t (Some p) (zlen p) = Some (true, t') /\ holds t' (ps ++ [p]) /\
    fifo_capacity t' = fifo_capacity t.
Proof.
  intros (Hinv & Hps & Hb) [Hp1 Hp2] Hsp. pose proof (fifo_space_law t Hinv) as Hspace.
  rewrite Hb in Hspace. unfold push_back, sizeof_Header. decide_if. nowrap. decide_if.
  destruct (fifo_push_law t (le_bytes 4 (zlen p)) 4) as (t1 & -> & Hinv1 & Hb1 & Hc1);
    [done|rewrite zlen_le_bytes; lia|lia|]. cbn [negb mbind option_bind].
  pose proof (fifo_space_law t1 Hinv1) as Hspace1.
  rewrite slice_full in Hb1 by by rewrite zlen_le_bytes.
  rewrite Hb1, zlen_app, zlen_le_bytes, Hb in Hspace1.
  destruct (fifo_push_law t1 p (zlen p)) as (t2 & -> & Hinv2 & Hb2 & Hc2); [done|lia|lia|].
  cbn [negb mbind option_bind]. exists t2. split; [done|]. split; [|congruence].
  split_and!; [done|by apply Forall_app_2; [|repeat constructor]|].
  rewrite Hb2, Hb1, Hb, slice_full by done. unfold frames.
  rewrite map_app, concat_app. cbn [map concat]. by rewrite app_nil_r, <- app_assoc.
Qed.

Lemma vlr_push_back_full t ps p :
  holds t ps -> packet_ok p -> fifo_capacity t - zlen (frames ps) < zlen p + 4 ->
  push_back t (Some p) (zlen p) = Some (false, t).
Proof.
  intros (Hinv & Hps & Hb) [Hp1 Hp2] Hsp. pose proof (fifo_space_law t Hinv) as Hspace.
  rewrite Hb in Hspace. unfold push_back, sizeof_Header. decide_if. nowrap. by decide_if.
Qed.

Lemma vlr_pop_front_ok t ps p dst n :
  holds t (p :: ps) -> zlen p <= n -> zlen p <= zlen dst ->
  exists t', pop_front t (Some dst) n = Some (zlen p, Some (splice 0 p dst), t') /\
    holds t' ps /\ fifo_capacity t' = fifo_capacity t.
Proof.
  intros (Hinv & Hps & Hb) Hn Hd. inversion Hps as [|? ? [Hp1 Hp2] Hps']; subst.
  change (frames (p :: ps)) with ((le_bytes 4 (zlen p) ++ p) ++ frames ps) in Hb.
  rewrite <- app_assoc in Hb. pose proof (zlen_nonneg (frames ps)).
  assert (zlen (fifo_bytes t) = 4 + (zlen p + zlen (frames ps))) as Hlen.
  { rewrite Hb, !zlen_app, zlen_le_bytes. lia. }
  unfold pop_front, sizeof_Header.
  destruct (fifo_pop_law t (replicate 4 0) 4) as (t1 & Hp & Hinv1 & Hb1 & Hc1);
    [done|lia|rewrite Hlen; unfold zlen; simpl; lia|].
  rewrite Hlen, Z.min_l in * by lia. rewrite Hp. cbn [mbind option_bind]. decide_if.
  rewrite Hb in *. rewrite slice_app_l, (slice_full 4) by (rewrite ?zlen_le_bytes; lia).
  rewrite slice_app_r in Hb1 by (rewrite zlen_le_bytes; lia).
  rewrite zlen_le_bytes in Hb1. rewrite slice_full in Hb1 by (rewrite zlen_app; lia).
  rewrite splice_all by (rewrite zlen_le_bytes; done). cbn [mbind option_bind].
  rewrite le_value_le_bytes. nowrap. decide_if.
  destruct (fifo_pop_law t1 dst (zlen p)) as (t2 & Hp' & Hinv2 & Hb2 & Hc2);
    rewrite ?Hb1, ?zlen_app in *; [done|lia|lia|].
  rewrite Z.min_l in * by lia. rewrite Hp'. cbn [mbind option_bind]. rewrite Z.eqb_refl.
  exists t2. rewrite slice_app_l, (slice_full (zlen p)) by lia.
  split_and!; [done| |congruence]. split_and!; [done..|].
  rewrite Hb2, slice_app_r, Z.sub_diag, slice_full by lia. done.
Qed.

Lemma vlr_pop_front_empty t dst n :
  holds t [] -> exists t', pop_front t (Some dst) n = Some (0, Some dst, t') /\ holds t' [] /\
    fifo_capacity t' = fifo_capacity t.
Proof.
  intros (Hinv & _ & Hb). unfold pop_front, sizeof_Header.
  destruct (fifo_pop_law t (replicate 4 0) 4) as (t1 & Hp & Hinv1 & Hb1 & Hc1);
    [done|lia|rewrite Hb; done|].
  rewrite Hb in *. change (zlen (frames [])) with 0 in *. rewrite Hp. simpl.
  exists t1. split_and!; [done| |done]. split_and!; done.
Qed.
End vlr_laws.

#[local] Arguments push_back : simpl never.
#[local] Arguments pop_front : simpl never.

(** A client call: pushing a packet or popping one into a buffer of [n] bytes. *)
Inductive op :=
| Push (p : list Z)
| Pop (n : Z).

Inductive obs :=
| Pushed (ok : bool)
| Popped (p : option (list Z)).

Section run.
Context {T : Type} `{ByteFifo T}.

(** A pop that returns 0 is seen as [Popped None]. *)
Definition step (t : T) (o : op) : option (obs * T) :=
  match o with
  | Push p => '(ok, t) ← push_back t (Some p) (zlen p); Some (Pushed ok, t)
  | Pop n =>
      '(k, dst, t) ← pop_front t (Some (replicate (Z.to_nat n) 0)) n;
      dst ← dst;
      Some (Popped (if k =? 0 then None else Some (slice 0 k dst)), t)
  end.

Fixpoint run (t : T) (os : list op) : option (list obs * T) :=
  match os with
  | [] => Some ([], t)
  | o :: os => '(r, t) ← step t o; '(rs, t) ← run t os; Some (r :: rs, t)
  end.
End run.

(** The specification: a queue of packets; a packet costs its length and a
    header of four bytes. *)
Definition spec_step (cap : Z) (ps : list (list Z)) (o : op) : obs * list (list Z) :=
  match o with
  | Push p => if zlen (frames ps) + zlen p + 4 <=? cap then (Pushed true, ps ++ [p]) else (Pushed false, ps)
  | Pop _ => match ps with [] => (Popped None, []) | p :: ps => (Popped (Some p), ps) end
  end.

Fixpoint spec_run (cap : Z) (ps : list (list Z)) (os : list op) : list obs :=
  match os with
  | [] => []
  | o :: os => let '(r, ps) := spec_step cap ps o in r :: spec_run cap ps os
  end.

(** Packets of at most [max] bytes, popped into buffers of at least [max] bytes. *)
Definition op_ok (max : Z) (o : op) : Prop :=
  match o with Push p => packet_ok p /\ zlen p <= max | Pop n => max <= n end.

Section refinement.
Context {T : Type} `{ByteFifoLaws T} (max : Z).

Lemma vlr_step_refines (t : T) ps o :
  holds t ps -> Forall (fun p => zlen p <= max) ps -> op_ok max o ->
  let '(r, ps') := spec_step (fifo_capacity t) ps o in
  exists t', step t o = Some (r, t') /\ holds t' ps' /\ Forall (fun p => zlen p <= max) ps' /\
    fifo_capacity t' = fifo_capacity t.
Proof.
  intros Ht Hmax Hok. destruct o as [p|n]; simpl in *.
  - destruct Hok as [Hp Hpm].
    destruct (Z.leb_spec (zlen (frames ps) + zlen p + 4) (fifo_capacity t)).
    + destruct (vlr_push_back_ok t ps p) as (t' & -> & ? & ?); [done|done|lia|]. simpl.
      exists t'. split_and!; try done. by apply Forall_app_2; [|repeat constructor].
    + rewrite (vlr_push_back_full t ps) by (done || lia). simpl. eauto.
  - destruct ps as [|p ps].
    + destruct (vlr_pop_front_empty t (replicate (Z.to_nat n) 0) n Ht) as (t' & -> & ? & ?). simpl. eauto.
    + inversion Hmax as [|? ? Hpm Hps]; subst.
      destruct Ht as (? & Hpk & ?). inversion Hpk as [|? ? [Hp1 Hp2] ?]; subst.
      assert (zlen (replicate (Z.to_nat n) 0) = n) as Hn.
      { unfold zlen. rewrite length_replicate. lia. }
      destruct (vlr_pop_front_ok t ps p (replicate (Z.to_nat n) 0) n) as (t' & -> & ? & ?);
        [done|lia|lia|]. simpl. decide_if. rewrite slice_splice_same by lia. eauto.
Qed.

Lemma vlr_run_refines (t : T) ps os :
  holds t ps -> Forall (fun p => zlen p <= max) ps -> Forall (op_ok max) os ->
  exists t', run t os = Some (spec_run (fifo_capacity t) ps os, t').
Proof.
  intros Ht Hps Hos. revert t ps Ht Hps.
  induction Hos as [|o os Ho _ IH]; intros t ps Ht Hps; simpl; [eauto|].
  pose proof (vlr_step_refines t ps o Ht Hps Ho) as Hs.
  destruct (spec_step _ ps o) as [r q]. destruct Hs as (t1 & -> & Ht1 & Hq & <-). simpl.
  destruct (IH t1 q Ht1 Hq) as (t2 & ->). simpl. eauto.
Qed.
End refinement.

(** ** Main theorem *)

(** C24: any sequence of packet pushes and pops on a [VariableLengthRingbuffer] over a
    freshly allocated ring buffer fires no [assert] and stays in bounds as long as the
    client pops into buffers that hold its largest packet, and its visible results are
    those of a FIFO queue of packets in which a packet occupies its length plus four. *)
Theorem vlr_refines_packet_queue max size block os :
  1 <= size < 2 ^ 32 -> zlen block = size -> Forall (op_ok max) os ->
  exists rb rb', Ringbuffer.allocate Ringbuffer.init size (Some block) = Some (true, rb) /\
    run rb os =
      Some (spec_run (size - 1) [] os, rb').
Proof.
  intros Hs Hb Hos. destruct (Ringbuffer.allocate_ok size block Hs Hb) as (rb & -> & Hwf & Hc & <-).
  destruct (vlr_run_refines max rb [] os) as (rb' & Hr); [done..|].
  exists rb, rb'. split; [done|exact Hr].
Qed.

Lemma vlr_refines_packet_queue_witness :
  exists rb rb', Ringbuffer.allocate Ringbuffer.init 12 (Some (replicate 12 7)) = Some (true, rb) /\
    run rb
      [Push [1; 2]; Push [3];
       Push [4]; Pop 2] =
      Some ([Pushed true; Pushed true;
             Pushed false; Popped (Some [1; 2])], rb').
Proof.
  apply (vlr_refines_packet_queue 2 12 (replicate 12 7)
      [Push [1; 2]; Push [3];
       Push [4]; Pop 2]);
    [lia|done|repeat constructor; done].
Defined.
