(* ===== verification/Containers.v ===== *)
(** * Intrusive containers

    Models src/include/containers: [List.hpp], [IntrusiveQueue.hpp],
    [IntrusiveSortedList.hpp] and [Bitset.hpp]. The link field that a node embeds is a
    cell of a store [links : gmap Z Z] from node addresses to the address of the
    following node; 0 is [nullptr]. Following [nullptr] or an address outside the
    store is undefined behaviour and is [None].

    A loop over a list carries fuel; [fuel_for links] (one more than the number of
    nodes in the store) is enough for every list that ends, which the theorems show by
    returning [Some]. *)
From stdpp Require Import base list gmap sorting.
From Stdlib Require Import ZArith Lia.
From S2P Require Import Prelude.

Definition fuel_for (links : gmap Z Z) : nat := S (size links).
#[global] Arguments fuel_for : simpl never.

(** ** List.hpp *)

(** [while (node != nullptr)] of [List::add]: find the last node and link [newNode]. *)
Fixpoint List_add_loop (fuel : nat) (links : gmap Z Z) (node newNode : Z)
  : option (gmap Z Z) :=
  match fuel with
  | O => None
  | S fuel =>
    if node =? 0 then Some links
    else
      sib ← links !! node;
      if sib =? 0 then Some (<[node := newNode]> links)
      else List_add_loop fuel links sib newNode
  end.

(** The list is its [_head]; the operations return the new head and links. *)
Definition List_add (links : gmap Z Z) (head newNode : Z) : option (Z * gmap Z Z) :=
  if head =? 0 then Some (newNode, links)
  else links ← List_add_loop (fuel_for links) links head newNode; Some (head, links).

(** [for (T node = getHead(); node != nullptr; node = node->getSibling())] of
    [List::remove]; [true] and the updated links when the node was found. *)
Fixpoint List_remove_loop (fuel : nat) (links : gmap Z Z) (node removeNode : Z)
  : option (bool * gmap Z Z) :=
  match fuel with
  | O => None
  | S fuel =>
    if node =? 0 then Some (false, links)
    else
      sib ← links !! node;
      if sib =? removeNode then
        sib2 ← (if negb (sib =? 0) then links !! sib else Some 0);
        let links := <[node := sib2]> links in
        _ ← links !! removeNode;
        Some (true, <[removeNode := 0]> links)
      else List_remove_loop fuel links sib removeNode
  end.

Definition List_remove (links : gmap Z Z) (head removeNode : Z)
  : option (bool * Z * gmap Z Z) :=
  if removeNode =? 0 then Some (false, head, links)
  else if removeNode =? head then
    next ← links !! head;
    Some (true, next, <[removeNode := 0]> links)
  else
    '(found, links) ← List_remove_loop (fuel_for links) links head removeNode;
    Some (found, head, links).

(** [for (auto node = getHead(); ...) sz++]. *)
Fixpoint List_size_loop (fuel : nat) (links : gmap Z Z) (node sz : Z) : option Z :=
  match fuel with
  | O => None
  | S fuel =>
    if node =? 0 then Some sz
    else sib ← links !! node; List_size_loop fuel links sib (sz + 1)
  end.

Definition List_size (links : gmap Z Z) (head : Z) : option Z :=
  List_size_loop (fuel_for links) links head 0.

Definition List_empty (head : Z) : bool := head =? 0.

(** ** IntrusiveQueue.hpp *)

Record IntrusiveQueue := mkQueue { q_head : Z; q_tail : Z }.

Definition queue_empty (q : IntrusiveQueue) : bool := q.(q_head) =? 0.

Definition queue_size (links : gmap Z Z) (q : IntrusiveQueue) : option Z :=
  List_size_loop (fuel_for links) links q.(q_head) 0.

Definition queue_push (links : gmap Z Z) (q : IntrusiveQueue) (newNode : Z)
  : option (IntrusiveQueue * gmap Z Z) :=
  next ← links !! newNode;
  if negb (next =? 0) || (newNode =? q.(q_tail)) then Some (q, links)
  else
    let head := if q.(q_head) =? 0 then newNode else q.(q_head) in
    if negb (q.(q_tail) =? 0) then
      _ ← links !! q.(q_tail);
      Some (mkQueue head newNode, <[q.(q_tail) := newNode]> links)
    else Some (mkQueue head newNode, links).

Definition queue_pop (links : gmap Z Z) (q : IntrusiveQueue)
  : option (Z * IntrusiveQueue * gmap Z Z) :=
  let ret := q.(q_head) in
  if negb (queue_empty q) then
    q' ← (if negb (q.(q_head) =? q.(q_tail))
          then next ← links !! q.(q_head); Some (mkQueue next q.(q_tail))
          else Some (mkQueue 0 0));
    _ ← links !! ret;
    Some (ret, q', <[ret := 0]> links)
  else Some (ret, q, links).

Fixpoint queue_remove_loop (fuel : nat) (links : gmap Z Z) (q : IntrusiveQueue) (node removeNode : Z)
  : option (bool * IntrusiveQueue * gmap Z Z) :=
  match fuel with
  | O => None
  | S fuel =>
    if node =? 0 then Some (false, q, links)
    else
      next ← links !! node;
      if next =? removeNode then
        let q := if removeNode =? q.(q_tail) then mkQueue q.(q_head) node else q in
        next2 ← links !! removeNode;
        Some (true, q, <[removeNode := 0]> (<[node := next2]> links))
      else queue_remove_loop fuel links q next removeNode
  end.

Definition queue_remove (links : gmap Z Z) (q : IntrusiveQueue) (removeNode : Z)
  : option (bool * IntrusiveQueue * gmap Z Z) :=
  if removeNode =? q.(q_head) then
    next ← links !! q.(q_head);
    if negb (next =? 0) then
      Some (true, mkQueue next q.(q_tail), <[removeNode := 0]> links)
    else Some (true, mkQueue 0 0, links)
  else queue_remove_loop (fuel_for links) links q q.(q_head) removeNode.

(** ** IntrusiveSortedList.hpp *)

Section sorted_list.
(** [operator<=] of the node type. *)
Context (le : Z -> Z -> bool).

Fixpoint SortedList_add_loop (fuel : nat) (links : gmap Z Z) (node newNode : Z)
  : option (gmap Z Z) :=
  match fuel with
  | O => None
  | S fuel =>
    next ← links !! node;
    if negb (node =? 0) && negb (next =? 0) then
      if le newNode next then
        _ ← links !! newNode;
        Some (<[node := newNode]> (<[newNode := next]> links))
      else SortedList_add_loop fuel links next newNode
    else Some (<[node := newNode]> links)
  end.

Definition SortedList_add (links : gmap Z Z) (head newNode : Z) : option (Z * gmap Z Z) :=
  if head =? 0 then Some (newNode, links)
  else if le newNode head then
    _ ← links !! newNode; Some (newNode, <[newNode := head]> links)
  else links ← SortedList_add_loop (fuel_for links) links head newNode; Some (head, links).
End sorted_list.

(** [remove] has the text of [List::remove] with the other link field. *)
Definition SortedList_remove := List_remove.
Definition SortedList_size := List_size.

(** ** Bitset.hpp and atomic_bitset.h

    The two classes differ in the element type ([uint8_t] or an atomic [uint32_t]); [w] is
    the number of bits of an element. *)
Section bitset.
Context (w : Z).

Definition ARRAY_SIZE (N : Z) : Z := if N mod w =? 0 then N / w else N / w + 1.
Definition array_index (position : Z) : Z := position / w.
Definition element_mask (position : Z) : Z := uwrap w (Z.shiftl 1 (position mod w)).

(** [while (x) { total += x & 1; x >>= 1; }] for one element of [fuel] bits. *)
Fixpoint bitset_count_element (fuel : nat) (x total : Z) : Z :=
  match fuel with
  | O => total
  | S fuel => if x =? 0 then total else bitset_count_element fuel (Z.shiftr x 1) (total + Z.land x 1)
  end.

Definition bitset_count (data : list Z) : Z :=
  foldl (fun total x => bitset_count_element (Z.to_nat w) x total) 0 data.

Definition bitset_get (data : list Z) (position : Z) : option bool :=
  x ← zlookup data (array_index position);
  Some (negb (Z.land x (element_mask position) =? 0)).

Definition bitset_set (data : list Z) (pos : Z) (val : bool) : option (list Z) :=
  let bitmask := element_mask pos in
  x ← zlookup data (array_index pos);
  zstore data (array_index pos)
    (if val then Z.lor x bitmask else Z.land x (uwrap w (Z.lnot bitmask))).

Definition bitset_reset (data : list Z) : list Z := map (fun _ => 0) data.
End bitset.

(** [Bitset<N>] and [AtomicBitset<N>]. *)
Definition Bitset_get := bitset_get 8.
Definition Bitset_set := bitset_set 8.
Definition Bitset_count := bitset_count 8.
Definition AtomicBitset_get := bitset_get 32.
Definition AtomicBitset_set := bitset_set 32.
Definition AtomicBitset_count := bitset_count 32.

(** ** Linked lists as lists of nodes *)

(** [chain links p l]: following the links from [p] visits exactly the nodes [l]. *)
Inductive chain (links : gmap Z Z) : Z -> list Z -> Prop :=
| chain_nil : chain links 0 []
| chain_cons p n l : p <> 0 -> links !! p = Some n -> chain links n l -> chain links p (p :: l).

Create HintDb containers.
#[export] Hint Constructors chain : containers.

Lemma chain_0 links l : chain links 0 l -> l = [].
Proof. by inversion 1. Qed.

Lemma chain_fun links p l1 l2 : chain links p l1 -> chain links p l2 -> l1 = l2.
Proof.
  intros H. revert l2. induction H; intros l2; inversion 1; simplify_eq; f_equal; auto.
Qed.

Lemma chain_nonzero links p l : chain links p l -> 0 ∉ l.
Proof. induction 1; [set_solver|]. rewrite not_elem_of_cons. auto. Qed.

Lemma chain_dom links p l x : chain links p l -> x ∈ l -> is_Some (links !! x).
Proof. induction 1; [set_solver|]. rewrite elem_of_cons. intros [->|]; eauto. Qed.

Lemma chain_suffix links p l x :
  chain links p l -> x ∈ l -> exists l1 l2, l = l1 ++ x :: l2 /\ chain links x (x :: l2).
Proof.
  induction 1 as [|p n l ? Hp Hc IH]; [set_solver|]. rewrite elem_of_cons. intros [->|Hin].
  - exists [], l. eauto with containers.
  - destruct (IH Hin) as (l1 & l2 & -> & ?). exists (p :: l1), l2. done.
Qed.

Lemma chain_NoDup links p l : chain links p l -> NoDup l.
Proof.
  induction 1 as [|p n l ? Hp Hc IH]; [constructor|]. constructor; [|done].
  intros Hin. destruct (chain_suffix _ _ _ _ Hc Hin) as (l1 & l2 & -> & Hs).
  assert (p :: l1 ++ p :: l2 = p :: l2) as E
    by (eapply chain_fun; [econstructor; eauto|done]).
  apply (f_equal length) in E. rewrite length_cons, length_app in E. simpl in E. lia.
Qed.

Lemma chain_length links p l : chain links p l -> (length l < fuel_for links)%nat.
Proof.
  intros Hc. pose proof (chain_NoDup _ _ _ Hc) as Hnd. unfold fuel_for.
  rewrite <- (size_list_to_set (C:=gset Z)) by done. rewrite <- size_dom.
  assert (list_to_set (C:=gset Z) l ⊆ dom links) as Hsub.
  { intros x. rewrite elem_of_list_to_set, elem_of_dom. by apply chain_dom with (p := p). }
  apply subseteq_size in Hsub. lia.
Qed.

Lemma chain_ext links links' p l :
  chain links p l -> (forall x, x ∈ l -> links' !! x = links !! x) -> chain links' p l.
Proof.
  induction 1 as [|p n l ? Hp Hc IH]; intros Hext; [constructor|].
  apply chain_cons with n; [done| |]; [rewrite Hext; set_solver|apply IH; set_solver].
Qed.

Lemma chain_insert links p l x v : chain links p l -> x ∉ l -> chain (<[x := v]> links) p l.
Proof.
  intros Hc Hx. apply (chain_ext links); [done|]. intros y Hy.
  apply lookup_insert_ne. set_solver.
Qed.
#[export] Hint Resolve chain_insert : containers.

Lemma List_size_loop_ok links fuel p l sz :
  chain links p l -> (length l < fuel)%nat -> List_size_loop fuel links p sz = Some (sz + zlen l).
Proof.
  intros Hc. revert fuel sz. induction Hc as [|p n l Hp Hl Hc IH]; intros [|fuel] sz Hf; simpl in *; try lia.
  - f_equal. unfold zlen. simpl. lia.
  - decide_if. rewrite Hl. simpl. rewrite IH by lia. f_equal. rewrite zlen_cons. lia.
Qed.

Lemma List_add_loop_ok links fuel p l x :
  chain links p l -> (length l < fuel)%nat -> p <> 0 -> x <> 0 -> x ∉ l -> links !! x = Some 0 ->
  exists links', List_add_loop fuel links p x = Some links' /\ chain links' p (l ++ [x]) /\
    (forall y, y ∉ l -> links' !! y = links !! y).
Proof.
  intros Hc. revert fuel. induction Hc as [|p n l Hp Hl Hc IH]; intros [|fuel] Hf Hp0 Hx Hxl Hlx; simpl in *; try lia.
  decide_if. rewrite Hl. simpl. case_if.
  - subst. apply chain_0 in Hc as ->. eexists; split; [done|]. split.
    + simpl. apply chain_cons with x; [done|by simplify_map_eq|].
      apply chain_cons with 0; [done| |constructor].
      rewrite lookup_insert_ne by set_solver. done.
    + intros y Hy. apply lookup_insert_ne. set_solver.
  - destruct (IH fuel) as (links' & -> & Hc' & Hext); [lia|done|done|set_solver|done|].
    eexists; split; [done|]. split; [|intros; apply Hext; set_solver].
    simpl. apply chain_cons with n; [done| |done]. rewrite Hext; [done|].
    pose proof (chain_NoDup _ _ _ (chain_cons links p n l Hp Hl Hc)) as Hnd. by inversion Hnd.
Qed.

Lemma List_add_ok links head l x :
  chain links head l -> x <> 0 -> x ∉ l -> links !! x = Some 0 ->
  exists head' links', List_add links head x = Some (head', links') /\ chain links' head' (l ++ [x]) /\
    (forall y, y ∉ l -> links' !! y = links !! y).
Proof.
  intros Hc Hx Hxl Hlx. unfold List_add. case_if.
  - subst. apply chain_0 in Hc as ->. do 2 eexists; split; [done|]. split; [|done].
    simpl. eauto with containers.
  - destruct (List_add_loop_ok links (fuel_for links) head l x) as (links' & -> & ? & ?);
      eauto using chain_length.
Qed.

(** The nodes of [l] other than [x]. *)
Fixpoint without (x : Z) (l : list Z) : list Z :=
  match l with
  | [] => []
  | y :: l => if x =? y then without x l else y :: without x l
  end.

Lemma without_notin x l : x ∉ l -> without x l = l.
Proof.
  induction l as [|y l IH]; [done|]. rewrite not_elem_of_cons. intros [? ?]. simpl.
  decide_if. by rewrite IH.
Qed.

Lemma elem_of_without x y l : y ∈ without x l <-> y ∈ l /\ y <> x.
Proof.
  induction l as [|z l IH]; simpl; [set_solver|]. case_if; [subst|]; set_solver.
Qed.

Lemma dom_insert_old (links : gmap Z Z) x v : is_Some (links !! x) -> dom (<[x := v]> links) = dom links.
Proof. intros Hx. apply elem_of_dom in Hx. rewrite dom_insert_L. set_solver. Qed.

Lemma List_remove_loop_ok links fuel p l x :
  chain links p (p :: l) -> (length l < fuel)%nat -> x <> 0 -> x <> p -> is_Some (links !! x) ->
  exists links', List_remove_loop (S fuel) links p x = Some (bool_decide (x ∈ l), links') /\
    chain links' p (p :: without x l) /\
    (forall y, y ∉ p :: l -> links' !! y = links !! y) /\ (x ∈ l -> links' !! x = Some 0).
Proof.
  revert fuel p. induction l as [|z l IH]; intros fuel p Hc Hf Hx Hxp [v Hv].
  - inversion Hc as [|? n ? Hp Hl Hn]; subst. inversion Hn; subst. simpl.
    decide_if. rewrite Hl. simpl. decide_if. destruct fuel; [simpl in Hf; lia|]. simpl.
    eexists; split; [done|]. split_and!; [eauto with containers|done|set_solver].
  - pose proof (chain_NoDup _ _ _ Hc) as Hnd.
    inversion Hc as [|? n ? Hp Hl Hn]; subst. inversion Hn as [|? n2 ? Hz Hl2 Hn2]; subst.
    change (z :: l) with ([z] ++ l) in *. destruct fuel as [|fuel]; [simpl in Hf; lia|].
    cbn [List_remove_loop]. decide_if. rewrite Hl. simpl. case_if.
    + subst. decide_if. rewrite Hl2. simpl. rewrite lookup_insert_ne, Hl2 by set_solver. simpl.
      rewrite bool_decide_true by set_solver. eexists; split; [done|].
      simpl. rewrite Z.eqb_refl. apply NoDup_cons in Hnd as [? Hnd].
      apply NoDup_cons in Hnd as [? ?]. rewrite without_notin by done. split_and!.
      * apply chain_cons with n2; [done| |].
        -- rewrite lookup_insert_ne by congruence. by simplify_map_eq.
        -- apply chain_insert; [|done]. apply chain_insert; [done|set_solver].
      * intros y Hy. rewrite !lookup_insert_ne by set_solver. done.
      * intros _. by simplify_map_eq.
    + destruct (IH fuel z) as (links' & Hr & Hc' & Hext & Hx0);
        [done|simpl in *; lia|done|congruence|eauto|].
      change ([z] ++ l) with (z :: l).
      cbn [List_remove_loop] in Hr. cbn [List_remove_loop]. rewrite Hr. simpl.
      eexists; split.
      { do 2 f_equal. apply bool_decide_ext. rewrite elem_of_cons. naive_solver. }
      simpl. decide_if. split_and!.
      * apply chain_cons with z; [done| |done]. rewrite Hext; [done|]. by inversion Hnd.
      * intros y Hy. apply Hext. set_solver.
      * rewrite elem_of_cons. intros [|]; [congruence|auto].
Qed.

Lemma List_remove_ok links head l x :
  chain links head l -> x <> 0 -> is_Some (links !! x) ->
  exists head' links', List_remove links head x = Some (bool_decide (x ∈ l), head', links') /\
    chain links' head' (without x l) /\
    (forall y, y ∉ l -> links' !! y = links !! y) /\ (x ∈ l -> links' !! x = Some 0).
Proof.
  intros Hc Hx [v Hv]. unfold List_remove. decide_if. pose proof (chain_NoDup _ _ _ Hc) as Hnd.
  case_if.
  - subst head. inversion Hc as [|? n l' ? Hl Hn]; simplify_eq.
    apply NoDup_cons in Hnd as [Hxl _]. rewrite bool_decide_true by set_solver.
    rewrite Hv. simpl. rewrite Z.eqb_refl, without_notin by done.
    do 2 eexists; split; [done|]. split_and!; [eauto with containers| |].
    + intros y Hy. apply lookup_insert_ne. set_solver.
    + intros _. apply lookup_insert_eq.
  - destruct l as [|z l].
    + inversion Hc; subst. simpl. do 2 eexists; split; [done|]. split_and!; [constructor|done|set_solver].
    + assert (head = z) as -> by by inversion Hc. pose proof (chain_length _ _ _ Hc) as Hlen.
      destruct (List_remove_loop_ok links (size links) z l x) as (links' & Hr & ? & ? & ?);
        [done|unfold fuel_for in Hlen; simpl in Hlen; lia|done|done|eauto|].
      unfold fuel_for. rewrite Hr. simpl. decide_if. do 2 eexists; split.
      { do 3 f_equal. apply bool_decide_ext. set_solver. }
      split_and!; [done|done|]. rewrite elem_of_cons. intros [|]; [congruence|auto].
Qed.

(** *** Queues *)

(** [q] is the queue of the nodes [l]; nodes outside it have a null link. *)
Record queue_rep (links : gmap Z Z) (q : IntrusiveQueue) (l : list Z) : Prop := {
  queue_chain : chain links q.(q_head) l;
  queue_last : q.(q_tail) = default 0 (last l);
  queue_out x : is_Some (links !! x) -> x ∉ l -> links !! x = Some 0;
}.

Lemma last_notin (l : list Z) x : x ∉ l -> x <> 0 -> default 0 (last l) <> x.
Proof.
  intros Hx H0 E. destruct (last l) as [y|] eqn:Hl; simpl in E; [|congruence].
  subst. apply last_Some_elem_of in Hl. done.
Qed.

(** The last node of a queue is the only one with a null link. *)
Lemma chain_last links p l x :
  chain links p l -> x ∈ l -> (links !! x = Some 0 <-> last l = Some x).
Proof.
  intros Hc. pose proof (chain_NoDup _ _ _ Hc) as Hnd. revert Hnd.
  induction Hc as [|p n l Hp Hl Hc IH]; intros Hnd Hx; [set_solver|].
  apply NoDup_cons in Hnd as [Hpl Hnd]. destruct l as [|y l].
  - inversion Hc; subst. apply list_elem_of_singleton in Hx as ->. done.
  - rewrite last_cons_cons. apply elem_of_cons in Hx as [->|Hx].
    + inversion Hc; subst. rewrite Hl. split; [congruence|].
      intros Hlast. apply last_Some_elem_of in Hlast. done.
    + auto.
Qed.

Lemma chain_snoc links p l z x :
  chain links p l -> last l = Some z -> x <> 0 -> x ∉ l -> links !! x = Some 0 ->
  chain (<[z := x]> links) p (l ++ [x]).
Proof.
  intros Hc. pose proof (chain_NoDup _ _ _ Hc) as Hnd. revert Hnd.
  induction Hc as [|p n l Hp Hl Hc IH]; intros Hnd Hz Hx Hxl Hlx; [done|].
  apply NoDup_cons in Hnd as [Hpl Hnd]. destruct l as [|y l].
  - simplify_eq/=. apply chain_cons with x; [done|by simplify_map_eq|].
    apply chain_cons with 0; [done| |constructor]. by rewrite lookup_insert_ne by set_solver.
  - rewrite last_cons_cons in Hz. simpl. apply chain_cons with n; [done| |].
    + apply last_Some_elem_of in Hz. rewrite lookup_insert_ne by (intros ->; done). done.
    + apply IH; set_solver.
Qed.

Lemma queue_push_ok links q l x :
  queue_rep links q l -> x <> 0 -> is_Some (links !! x) ->
  exists q' links', queue_push links q x = Some (q', links') /\
    queue_rep links' q' (if bool_decide (x ∈ l) then l else l ++ [x]) /\ dom links' = dom links.
Proof.
  intros [Hc Ht Ho] Hx [v Hv]. destruct q as [head tail]. unfold queue_push. simpl in *.
  rewrite Hv. simpl. case_bool_decide as Hin.
  - assert (negb (v =? 0) || (x =? tail) = true)%bool as ->.
    { apply orb_true_iff. destruct (Z.eq_dec v 0) as [->|]; [right|left; lia].
      rewrite Ht. apply (chain_last _ _ _ _ Hc Hin) in Hv. rewrite Hv. simpl. lia. }
    do 2 eexists; split; [done|]. split; [|done]. by constructor.
  - assert (v = 0) as -> by (specialize (Ho x); rewrite Hv in Ho; naive_solver).
    assert (tail <> x) by (rewrite Ht; by apply last_notin).
    decide_if. destruct l as [|z l].
    + inversion Hc; subst. simpl in *. do 2 eexists; split; [done|]. split; [|done].
      constructor; simpl; [eauto with containers|done|]. intros y Hy Hyx. apply Ho; set_solver.
    + destruct (last (z :: l)) as [t|] eqn:Hlast; [|by apply last_None in Hlast].
      simpl in Ht. subst t. apply last_Some_elem_of in Hlast as Htin.
      pose proof (chain_nonzero _ _ _ Hc) as Hnz. assert (tail <> 0) by (intros ->; done).
      destruct (chain_dom _ _ _ _ Hc Htin) as [vt Hvt].
      assert (head = z) as -> by by inversion Hc. assert (z <> 0) by (intros ->; set_solver).
      do 2 decide_if. rewrite Hvt. simpl. do 2 eexists; split; [done|].
      split; [constructor; simpl|].
      * change (z :: l ++ [x]) with ((z :: l) ++ [x]). by apply chain_snoc.
      * change (z :: l ++ [x]) with ((z :: l) ++ [x]). by rewrite last_snoc.
      * intros y Hy Hyl. rewrite lookup_insert_ne in * by set_solver. apply Ho; [done|set_solver].
      * rewrite dom_insert_L. apply elem_of_dom_2 in Hvt. set_solver.
Qed.

Lemma queue_pop_ok links q l :
  queue_rep links q l ->
  exists q' links', queue_pop links q = Some (hd 0 l, q', links') /\
    queue_rep links' q' (tail l) /\ dom links' = dom links.
Proof.
  intros [Hc Ht Ho]. destruct q as [head t]. unfold queue_pop, queue_empty. simpl in *.
  pose proof (chain_NoDup _ _ _ Hc) as Hnd. destruct l as [|z l].
  - inversion Hc; subst. simpl. do 2 eexists; split; [done|]. split; [by constructor|done].
  - inversion Hc as [|? n ? Hz Hl Hn]; subst. decide_if. apply NoDup_cons in Hnd as [Hzl _].
    assert (dom (<[z:=0]> links) = dom links) as Hdom.
    { rewrite dom_insert_L. apply elem_of_dom_2 in Hl. set_solver. }
    assert (forall y, is_Some (<[z:=0]> links !! y) -> y ∉ l -> <[z:=0]> links !! y = Some 0) as Ho'.
    { intros y Hy Hyl. destruct (decide (y = z)) as [->|]; [by simplify_map_eq|].
      rewrite lookup_insert_ne in * by done. apply Ho; [done|set_solver]. }
    destruct l as [|y l].
    + inversion Hn; subst. simpl. rewrite Z.eqb_refl. simpl. rewrite Hl. simpl.
      do 2 eexists; split; [done|]. split; [|done]. constructor; [constructor|done|done].
    + rewrite last_cons_cons in *. destruct (last (y :: l)) as [u|] eqn:Hlast; [|by apply last_None in Hlast].
      simpl. assert (z <> u) by (apply last_Some_elem_of in Hlast; intros ->; done).
      decide_if. rewrite Hl. simpl. do 2 eexists; split; [done|]. split; [|done].
      constructor; simpl; [eauto with containers|by rewrite Hlast|done].
Qed.

Lemma last_without (l : list Z) x z :
  last l = Some z -> x <> z -> last (without x l) = Some z.
Proof.
  induction l as [|y l IH]; [done|]. intros Hz Hx. simpl. destruct l as [|u l].
  - simplify_eq/=. by decide_if.
  - rewrite last_cons_cons in Hz. specialize (IH Hz Hx). case_if; [done|].
    rewrite last_cons, IH. done.
Qed.

(** The loop of [remove] relinks like [List::remove] and moves the tail when the last
    node goes. *)
Lemma queue_remove_loop_ok links fuel h t p l x :
  chain links p (p :: l) -> (length l < fuel)%nat -> x <> 0 -> x <> p -> is_Some (links !! x) ->
  t = default 0 (last (p :: l)) ->
  exists links', queue_remove_loop (S fuel) links (mkQueue h t) p x =
      Some (bool_decide (x ∈ l), mkQueue h (default 0 (last (p :: without x l))), links') /\
    chain links' p (p :: without x l) /\
    (forall y, y ∉ p :: l -> links' !! y = links !! y) /\ (x ∈ l -> links' !! x = Some 0) /\
    dom links' = dom links.
Proof.
  revert fuel p. induction l as [|z l IH]; intros fuel p Hc Hf Hx Hxp [v Hv] Ht.
  - inversion Hc as [|? n ? Hp Hl Hn]; subst. inversion Hn; subst. simpl.
    decide_if. rewrite Hl. simpl. decide_if. destruct fuel; [simpl in Hf; lia|]. simpl.
    eexists; split; [done|]. split_and!; [eauto with containers|done|set_solver|done].
  - pose proof (chain_NoDup _ _ _ Hc) as Hnd.
    inversion Hc as [|? n ? Hp Hl Hn]; subst. inversion Hn as [|? n2 ? Hz Hl2 Hn2]; subst.
    destruct fuel as [|fuel]; [simpl in Hf; lia|].
    cbn [queue_remove_loop]. decide_if. rewrite Hl. cbn [mbind option_bind]. case_if.
    + subst. rewrite Hl2. simpl. rewrite bool_decide_true by set_solver.
      apply NoDup_cons in Hnd as [? Hnd]. apply NoDup_cons in Hnd as [? ?].
      rewrite Z.eqb_refl, without_notin by done.
      eexists; split; [|split_and!].
      * do 3 f_equal. destruct l as [|u l].
        -- simpl. by rewrite Z.eqb_refl.
        -- rewrite !last_cons_cons. destruct (last (u :: l)) as [w|] eqn:Hw; [|by apply last_None in Hw].
           apply last_Some_elem_of in Hw. simpl. by destruct (Z.eqb_spec x w) as [->|].
      * apply chain_cons with n2; [done| |].
        -- rewrite lookup_insert_ne by congruence. by simplify_map_eq.
        -- apply chain_insert; [|done]. apply chain_insert; [done|set_solver].
      * intros y Hy. rewrite !lookup_insert_ne by set_solver. done.
      * intros _. by simplify_map_eq.
      * rewrite !dom_insert_old; eauto. rewrite lookup_insert_ne; eauto.
    + destruct (IH fuel z) as (links' & Hr & Hc' & Hext & Hx0 & Hdom);
        [done|simpl in *; lia|done|congruence|eauto|done|].
      cbn [queue_remove_loop] in Hr. rewrite Hr.
      assert (x <> z) by congruence. simpl. decide_if.
      eexists; split.
      { do 3 f_equal. apply bool_decide_ext. rewrite elem_of_cons. naive_solver. }
      split_and!.
      * apply chain_cons with z; [done| |done]. rewrite Hext; [done|]. by inversion Hnd.
      * intros y Hy. apply Hext. set_solver.
      * rewrite elem_of_cons. intros [|]; [congruence|auto].
      * done.
Qed.

Lemma queue_remove_ok links q l x :
  queue_rep links q l -> x <> 0 -> is_Some (links !! x) ->
  exists q' links', queue_remove links q x = Some (bool_decide (x ∈ l), q', links') /\
    queue_rep links' q' (without x l) /\ dom links' = dom links.
Proof.
  intros [Hc Ht Ho] Hx [v Hv]. destruct q as [head t]. unfold queue_remove. cbn [q_head q_tail] in *.
  pose proof (chain_NoDup _ _ _ Hc) as Hnd. destruct l as [|z l].
  - inversion Hc; subst. decide_if. simpl. do 2 eexists; split; [done|]. split; [by constructor|done].
  - inversion Hc as [|? n ? Hz Hl Hn]; subst. apply NoDup_cons in Hnd as [Hzl _]. case_if.
    + subst. rewrite bool_decide_true by set_solver. rewrite Hl. simpl.
      rewrite Z.eqb_refl, without_notin by done.
      assert (dom (<[z:=0]> links) = dom links) as Hdom.
      { apply dom_insert_old. eauto. }
      destruct l as [|y l].
      * inversion Hn; subst. simpl. do 2 eexists; split; [done|]. split; [|done].
        constructor; [constructor|done|]. intros y Hy _.
        destruct (decide (y = z)) as [->|]; [done|]. apply Ho; [done|set_solver].
      * assert (n = y) as -> by by inversion Hn. assert (y <> 0) by (by inversion Hn).
        decide_if. do 2 eexists; split; [done|]. split; [|done].
        constructor; simpl; [eauto with containers|done|].
        intros u Hu Hul. destruct (decide (u = z)) as [->|]; [by simplify_map_eq|].
        rewrite lookup_insert_ne in * by done. apply Ho; [done|set_solver].
    + pose proof (chain_length _ _ _ Hc) as Hlen.
      destruct (queue_remove_loop_ok links (size links) z (default 0 (last (z :: l))) z l x)
        as (links' & Hr & Hc' & Hext & Hx0 & Hdom);
        [done|unfold fuel_for in Hlen; simpl in Hlen; lia|done|done|eauto|done|].
      unfold fuel_for. rewrite Hr. simpl. decide_if. do 2 eexists; split.
      { do 3 f_equal. apply bool_decide_ext. set_solver. }
      split; [constructor; [done|done|]|].
      * intros y Hy Hyl. destruct (decide (y = x)) as [->|Hyx].
        { destruct (decide (x ∈ l)); [auto|]. rewrite Hext by set_solver.
          apply Ho; [eauto|set_solver]. }
        assert (y ∉ z :: l).
        { intros Hyz. apply Hyl. apply elem_of_cons in Hyz as [->|]; [set_solver|].
          apply elem_of_cons; right. by apply elem_of_without. }
        rewrite Hext in * by done. by apply Ho.
      * done.
Qed.

(** *** Sorted lists *)

Section sorted_list_laws.
Context (le : Z -> Z -> bool).

(** Insertion before the first node that is not smaller. *)
Fixpoint sorted_insert (x : Z) (l : list Z) : list Z :=
  match l with
  | [] => [x]
  | y :: l => if le x y then x :: y :: l else y :: sorted_insert x l
  end.

Lemma elem_of_sorted_insert x l y : y ∈ sorted_insert x l <-> y = x \/ y ∈ l.
Proof. induction l as [|z l IH]; simpl; [set_solver|]. case_if; set_solver. Qed.

Lemma SortedList_add_loop_ok links fuel p l x :
  chain links p (p :: l) -> (length l < fuel)%nat -> x <> 0 -> x ∉ p :: l -> links !! x = Some 0 ->
  exists links', SortedList_add_loop le fuel links p x = Some links' /\
    chain links' p (p :: sorted_insert x l) /\
    (forall y, y ∉ x :: p :: l -> links' !! y = links !! y).
Proof.
  revert fuel p. induction l as [|z l IH]; intros fuel p Hc Hf Hx Hxl Hlx.
  - inversion Hc as [|? n ? Hp Hl Hn]; subst. inversion Hn; subst.
    destruct fuel; [simpl in Hf; lia|]. simpl. rewrite Hl. simpl. decide_if.
    eexists; split; [done|]. split; [|intros y Hy; rewrite lookup_insert_ne; set_solver].
    apply chain_cons with x; [done|by simplify_map_eq|].
    apply chain_cons with 0; [done| |constructor]. by rewrite lookup_insert_ne by set_solver.
  - pose proof (chain_NoDup _ _ _ Hc) as Hnd. apply NoDup_cons in Hnd as [Hpl _].
    inversion Hc as [|? n ? Hp Hl Hn]; subst. assert (n = z) as -> by by inversion Hn.
    assert (z <> 0) by by inversion Hn.
    destruct fuel as [|fuel]; [simpl in Hf; lia|]. simpl. rewrite Hl. simpl. decide_if. case_if.
    + rewrite Hlx. simpl. eexists; split; [done|].
      split; [|intros y Hy; rewrite !lookup_insert_ne; set_solver].
      apply chain_cons with x; [done|by simplify_map_eq|].
      apply chain_cons with z; [done| |].
      * rewrite lookup_insert_ne by set_solver. by simplify_map_eq.
      * apply chain_insert; [|done]. apply chain_insert; [done|set_solver].
    + destruct (IH fuel z) as (links' & -> & Hc' & Hext); [done|simpl in *; lia|done|set_solver|done|].
      eexists; split; [done|]. split; [|intros y Hy; apply Hext; set_solver].
      apply chain_cons with z; [done| |done]. rewrite Hext; [done|set_solver].
Qed.

Lemma SortedList_add_ok links head l x :
  chain links head l -> x <> 0 -> x ∉ l -> links !! x = Some 0 ->
  exists head' links', SortedList_add le links head x = Some (head', links') /\
    chain links' head' (sorted_insert x l) /\
    (forall y, y ∉ x :: l -> links' !! y = links !! y).
Proof.
  intros Hc Hx Hxl Hlx. unfold SortedList_add. destruct l as [|z l].
  - inversion Hc; subst. simpl. do 2 eexists; split; [done|]. split; [eauto with containers|done].
  - inversion Hc as [|? n ? Hz Hl Hn]; subst. cbn [sorted_insert]. decide_if. case_if.
    + rewrite Hlx. cbn [mbind option_bind]. do 2 eexists; split; [done|].
      split; [|intros y Hy; rewrite lookup_insert_ne; set_solver].
      apply chain_cons with z; [done|by simplify_map_eq|by apply chain_insert].
    + pose proof (chain_length _ _ _ Hc) as Hlen.
      destruct (SortedList_add_loop_ok links (fuel_for links) z l x) as (links' & -> & ? & ?);
        [done|simpl in Hlen; lia|done|done|done|]. simpl. eauto.
Qed.

Context (le_total : forall x y, le x y = false -> le y x = true)
        (le_trans : forall x y z, le x y = true -> le y z = true -> le x z = true).

Lemma sorted_insert_sorted x l :
  StronglySorted (fun a b => le a b = true) l ->
  StronglySorted (fun a b => le a b = true) (sorted_insert x l).
Proof.
  induction 1 as [|y l Hs IH Hy]; simpl; [repeat constructor|]. case_if.
  - constructor; [by constructor|]. constructor; [done|].
    eapply Forall_impl; [done|]. simpl. eauto.
  - constructor; [done|]. apply Forall_forall. intros z Hz%elem_of_sorted_insert.
    rewrite Forall_forall in Hy. destruct Hz as [->|Hz]; auto.
Qed.
End sorted_list_laws.

(** *** Bit sets *)

Section bitset_laws.
Context (w : Z) (w_pos : 0 < w).

(** A bit set of [N] bits. *)
Definition bitset_wf (N : Z) (data : list Z) : Prop :=
  zlen data = ARRAY_SIZE w N /\ Forall (fun x => 0 <= x < 2 ^ w) data.

Definition bit (data : list Z) (pos : Z) : bool :=
  Z.testbit (default 0 (zlookup data (pos / w))) (pos mod w).

Lemma element_mask_pow pos : element_mask w pos = 2 ^ (pos mod w).
Proof.
  pose proof (Z.mod_pos_bound pos w w_pos). unfold element_mask.
  rewrite Z.shiftl_1_l. apply uwrap_small. split; [lia|]. apply Z.pow_lt_mono_r; lia.
Qed.

Lemma mask_test x k : 0 <= k -> negb (Z.land x (2 ^ k) =? 0) = Z.testbit x k.
Proof.
  intros Hk. destruct (Z.testbit x k) eqn:E.
  - apply negb_true_iff, Z.eqb_neq. intros H0. apply (f_equal (fun z => Z.testbit z k)) in H0.
    rewrite Z.land_spec, E, Z.pow2_bits_true, Z.bits_0 in H0 by lia. done.
  - apply negb_false_iff, Z.eqb_eq. apply Z.bits_inj'. intros n Hn.
    rewrite Z.land_spec, Z.bits_0. destruct (Z.eq_dec n k) as [->|]; [by rewrite E|].
    rewrite Z.pow2_bits_false by lia. apply andb_false_r.
Qed.

Lemma ARRAY_SIZE_index N pos : 0 <= pos < N -> 0 <= pos / w < ARRAY_SIZE w N.
Proof.
  intros. unfold ARRAY_SIZE. split; [apply Z.div_pos; lia|].
  pose proof (Z.div_mod N w ltac:(lia)). pose proof (Z.mod_pos_bound N w w_pos).
  case_if; apply Z.div_lt_upper_bound; nia.
Qed.

Lemma bitset_get_bit N data pos :
  bitset_wf N data -> 0 <= pos < N -> bitset_get w data pos = Some (bit data pos).
Proof.
  intros [Hl _] Hp. pose proof (ARRAY_SIZE_index N pos Hp). pose proof (Z.mod_pos_bound pos w w_pos).
  destruct (zlookup_lt data (pos / w)) as [x Hx]; [lia|].
  unfold bitset_get, array_index, bit. rewrite Hx. simpl. rewrite element_mask_pow, mask_test by lia. done.
Qed.

Lemma testbit_high x k : 0 <= x < 2 ^ w -> w <= k -> Z.testbit x k = false.
Proof.
  intros Hx Hk. rewrite <- (Z.mod_small x (2 ^ w)) by lia. rewrite Z.mod_pow2_bits_high by lia. done.
Qed.

Lemma set_element x k v :
  0 <= x < 2 ^ w -> 0 <= k < w ->
  let x' := if v : bool then Z.lor x (2 ^ k) else Z.land x (uwrap w (Z.lnot (2 ^ k))) in
  0 <= x' < 2 ^ w /\ forall i, 0 <= i -> Z.testbit x' i = if i =? k then v else Z.testbit x i.
Proof.
  intros Hx Hk x'.
  assert (forall i, 0 <= i -> Z.testbit x' i = if i =? k then v else Z.testbit x i) as Hb.
  { intros i Hi. unfold x'. destruct v.
    - rewrite Z.lor_spec. case_if; subst.
      + rewrite Z.pow2_bits_true by lia. apply orb_true_r.
      + rewrite Z.pow2_bits_false by lia. apply orb_false_r.
    - rewrite Z.land_spec. unfold uwrap. destruct (Z.lt_ge_cases i w).
      + rewrite Z.mod_pow2_bits_low, Z.lnot_spec by lia. case_if; subst.
        * rewrite Z.pow2_bits_true by lia. apply andb_false_r.
        * rewrite Z.pow2_bits_false by lia. apply andb_true_r.
      + rewrite testbit_high by done. decide_if. done. }
  split; [|done]. assert (0 <= x').
  { unfold x'. destruct v; [apply Z.lor_nonneg; lia|apply Z.land_nonneg; lia]. }
  split; [done|]. destruct (Z.eq_dec x' 0) as [->|]; [lia|].
  apply Z.log2_lt_pow2; [lia|]. destruct (Z.lt_ge_cases (Z.log2 x') w) as [|Hge]; [done|].
  pose proof (Z.bit_log2 x' ltac:(lia)) as Hbit. rewrite Hb in Hbit by lia.
  rewrite testbit_high in Hbit by lia. case_if_in Hbit; [lia|done].
Qed.

Lemma bitset_set_ok N data pos v :
  bitset_wf N data -> 0 <= pos < N ->
  exists data', bitset_set w data pos v = Some data' /\ bitset_wf N data' /\
    forall p, 0 <= p < N -> bit data' p = if p =? pos then v else bit data p.
Proof.
  intros [Hl Hf] Hp. pose proof (ARRAY_SIZE_index N pos Hp). pose proof (Z.mod_pos_bound pos w w_pos).
  destruct (zlookup_lt data (pos / w)) as [x Hx]; [lia|].
  assert (0 <= x < 2 ^ w) as Hxr.
  { unfold zlookup in Hx. case_if_in Hx; [|done]. by eapply Forall_lookup_1 in Hf. }
  unfold bitset_set, array_index. rewrite Hx. simpl. unfold zstore. decide_if.
  rewrite element_mask_pow.
  destruct (set_element x (pos mod w) v Hxr ltac:(lia)) as [Hr Hb].
  eexists; split; [done|]. split.
  - split; [unfold zlen; by rewrite length_insert|]. by apply Forall_insert.
  - intros p Hpn. unfold bit. pose proof (Z.mod_pos_bound p w w_pos).
    pose proof (ARRAY_SIZE_index N p Hpn).
    rewrite zlookup_insert by lia. case_if.
    + simpl. rewrite Hb by lia. rewrite <- Hif, Hx. simpl.
      destruct (Z.eqb_spec (p mod w) (pos mod w)), (Z.eqb_spec p pos) as [|Hne]; try done; [|congruence].
      exfalso. apply Hne. rewrite (Z.div_mod p w), (Z.div_mod pos w) by lia. congruence.
    + destruct (Z.eqb_spec p pos); [congruence|done].
Qed.
End bitset_laws.

(** ** Runs of queue operations *)

Inductive queue_op :=
| QPush (node : Z)
| QPop
| QRemove (node : Z).

(** The observable result: the popped node (0 for none) or whether the node was removed. *)
Inductive queue_obs :=
| QPushed
| QPopped (node : Z)
| QRemoved (found : bool).

Definition queue_step (s : IntrusiveQueue * gmap Z Z) (o : queue_op)
  : option (queue_obs * (IntrusiveQueue * gmap Z Z)) :=
  let '(q, links) := s in
  match o with
  | QPush n => '(q, links) ← queue_push links q n; Some (QPushed, (q, links))
  | QPop => '(r, q, links) ← queue_pop links q; Some (QPopped r, (q, links))
  | QRemove n => '(b, q, links) ← queue_remove links q n; Some (QRemoved b, (q, links))
  end.

Fixpoint queue_run (s : IntrusiveQueue * gmap Z Z) (os : list queue_op) : option (list queue_obs) :=
  match os with
  | [] => Some []
  | o :: os => '(r, s) ← queue_step s o; rs ← queue_run s os; Some (r :: rs)
  end.

(** The specification: a list of distinct nodes. *)
Definition queue_spec_step (l : list Z) (o : queue_op) : queue_obs * list Z :=
  match o with
  | QPush n => (QPushed, if bool_decide (n ∈ l) then l else l ++ [n])
  | QPop => (QPopped (hd 0 l), tail l)
  | QRemove n => (QRemoved (bool_decide (n ∈ l)), without n l)
  end.

Fixpoint queue_spec_run (l : list Z) (os : list queue_op) : list queue_obs :=
  match os with
  | [] => []
  | o :: os => let '(r, l) := queue_spec_step l o in r :: queue_spec_run l os
  end.

Definition queue_op_ok (nodes : gset Z) (o : queue_op) : Prop :=
  match o with QPush n | QRemove n => n <> 0 /\ n ∈ nodes | QPop => True end.

Lemma queue_run_refines links q l os :
  queue_rep links q l -> Forall (queue_op_ok (dom links)) os ->
  queue_run (q, links) os = Some (queue_spec_run l os).
Proof.
  intros Hq Hos. revert links q l Hq Hos. induction os as [|o os IH]; intros links q l Hq Hos; [done|].
  inversion Hos as [|? ? Ho Hos']; subst. destruct o as [n| |n]; simpl in *.
  - destruct Ho as [Hn Hd%elem_of_dom].
    destruct (queue_push_ok links q l n) as (q' & links' & -> & Hq' & Hdom); [done..|].
    simpl. rewrite (IH _ _ _ Hq'); [done|congruence].
  - destruct (queue_pop_ok links q l) as (q' & links' & -> & Hq' & Hdom); [done..|].
    simpl. rewrite (IH _ _ _ Hq'); [done|congruence].
  - destruct Ho as [Hn Hd%elem_of_dom].
    destruct (queue_remove_ok links q l n) as (q' & links' & -> & Hq' & Hdom); [done..|].
    simpl. rewrite (IH _ _ _ Hq'); [done|congruence].
Qed.

(** ** Main theorems *)

(** Any sequence of [push], [pop] and [remove] calls on an [IntrusiveQueue] whose nodes
    start with null links follows no bad pointer, terminates, and returns what a list
    of distinct nodes returns: a push appends unless the node is queued already, a pop
    takes the front, a remove takes the node out wherever it is. *)
Theorem intrusive_queue_refines_list nodes os :
  Forall (queue_op_ok nodes) os ->
  queue_run (mkQueue 0 0, gset_to_gmap 0 nodes) os = Some (queue_spec_run [] os).
Proof.
  intros Hos. apply queue_run_refines; [|by rewrite dom_gset_to_gmap].
  constructor; simpl; [constructor|done|]. intros x [v Hv] _.
  rewrite Hv. by apply lookup_gset_to_gmap_Some in Hv as [_ ->].
Qed.

Lemma intrusive_queue_refines_list_witness :
  queue_run (mkQueue 0 0, gset_to_gmap 0 {[1; 2; 3]})
    [QPush 1; QPush 2; QPush 1; QPush 3; QRemove 2; QPop; QPop; QPop] =
  Some [QPushed; QPushed; QPushed; QPushed; QRemoved true; QPopped 1; QPopped 3; QPopped 0].
Proof.
  apply (intrusive_queue_refines_list {[1; 2; 3]}
    [QPush 1; QPush 2; QPush 1; QPush 3; QRemove 2; QPop; QPop; QPop]).
  repeat constructor; set_solver.
Defined.

(** [IntrusiveSortedList::add] of a node that is in no list keeps the list sorted by
    [operator<=], inserts exactly that node, and terminates without following a bad
    pointer. *)
Theorem sorted_list_add_sorted le links head l x :
  (forall x y, le x y = false -> le y x = true) ->
  (forall x y z, le x y = true -> le y z = true -> le x z = true) ->
  chain links head l -> StronglySorted (fun a b => le a b = true) l ->
  x <> 0 -> x ∉ l -> links !! x = Some 0 ->
  exists head' links' l', SortedList_add le links head x = Some (head', links') /\
    chain links' head' l' /\ StronglySorted (fun a b => le a b = true) l' /\
    (forall y, y ∈ l' <-> y = x \/ y ∈ l).
Proof.
  intros Htot Htr Hc Hs Hx Hxl Hlx.
  destruct (SortedList_add_ok le links head l x) as (h & links' & Ha & Hc' & _); [done..|].
  exists h, links', (sorted_insert le x l). split_and!; [done|done| |].
  - by apply sorted_insert_sorted.
  - intros y. apply elem_of_sorted_insert.
Qed.

Lemma sorted_list_add_sorted_witness :
  exists head' links' l', SortedList_add Z.leb {[1 := 3; 3 := 0; 2 := 0]} 1 2 = Some (head', links') /\
    chain links' head' l' /\ StronglySorted (fun a b => Z.leb a b = true) l' /\
    (forall y, y ∈ l' <-> y = 2 \/ y ∈ [1; 3]).
Proof.
  apply (sorted_list_add_sorted Z.leb _ 1 [1; 3] 2); try set_solver; try lia.
  - apply chain_cons with 3; [lia|done|]. apply chain_cons with 0; [lia|done|constructor].
  - repeat constructor.
Defined.

(** [set(pos, val)] on a bit set of [N] bits stays inside its array, keeps the array
    well-formed, and changes the bit [pos] and no other, for both element widths. *)
Theorem bitset_get_set w N data pos val p :
  w = 8 \/ w = 32 -> bitset_wf w N data -> 0 <= pos < N -> 0 <= p < N ->
  exists data', bitset_set w data pos val = Some data' /\ bitset_wf w N data' /\
    bitset_get w data' p = if p =? pos then Some val else bitset_get w data p.
Proof.
  intros Hw Hwf Hpos Hp. assert (0 < w) by lia.
  destruct (bitset_set_ok w ltac:(lia) N data pos val) as (data' & Hs & Hwf' & Hb); [done..|].
  exists data'. split_and!; [done|done|].
  rewrite !(bitset_get_bit w ltac:(lia) N) by done. rewrite Hb by done. by case_if.
Qed.

Lemma bitset_get_set_witness :
  exists data', bitset_set 8 [0; 128] 12 true = Some data' /\ bitset_wf 8 14 data' /\
    bitset_get 8 data' 13 = (if 13 =? 12 then Some true else bitset_get 8 [0; 128] 13).
Proof.
  apply (bitset_get_set 8 14 [0; 128] 12 true 13); [by left| |lia..].
  split; [done|]. repeat (apply Forall_cons_2; [lia|]). apply Forall_nil_2.
Defined.
