(* ===== verification/UorbNode.v ===== *)
(** * uORB device node: one topic instance

    Models platforms/common/uORB/uORBDeviceNode.{hpp,cpp}: the buffer of the last
    [o_queue] messages of a topic instance, the 32-bit generation counter that
    publishers advance and subscribers compare with, and the list of callbacks. The
    optional Multi-ORB link (CONFIG_ORB_COMMUNICATOR) is left out of [publish] and of the
    subscriber counters.

    The code between ATOMIC_ENTER and ATOMIC_LEAVE is one step. [None] is undefined
    behaviour: a [memcpy] outside an object or [% 0]. *)
From stdpp Require Import base list option strings.
From Stdlib Require Import ZArith Znumtheory Lia.
From S2P Require Import Prelude.

(** Error codes of the platform. *)
Definition PX4_OK : Z := 0.
Definition PX4_ERROR : Z := -1.
Definition EIO : Z := 5.
Definition ENOMEM : Z := 12.
Definition EFAULT : Z := 14.
Definition EEXIST : Z := 17.
Definition EINVAL : Z := 22.
Definition ENAMETOOLONG : Z := 36.

Record orb_metadata := mkMeta {
  o_name : string;
  o_size : Z;
  o_size_no_padding : Z;
  message_hash : Z;
  o_id : Z;
  o_queue : Z;
}.

(** The callbacks are named by the address of the [SubscriptionCallback]. *)
Record DeviceNode := mkNode {
  _meta : orb_metadata;
  _data : option (list Z);
  _data_valid : bool;
  _generation : Z;
  _callbacks : list Z;
  _instance : Z;
  _advertised : bool;
  _subscriber_count : Z;
}.

Definition DeviceNode_new (meta : orb_metadata) (instance : Z) : DeviceNode :=
  mkNode meta None false 0 [] instance false 0.

Definition is_in_range (left value right : Z) : bool :=
  if left <? right then (left <=? value) && (value <=? right)
  else (left <=? value) || (value <=? right).

(** [a % b] on unsigned operands. *)
Definition umod (a b : Z) : option Z := if b =? 0 then None else Some (a mod b).

(** [memcpy(dst, _data + o_size * slot, o_size)]. *)
Definition copy_slot (node : DeviceNode) (data dst : list Z) (slot : Z) : option (list Z) :=
  src ← mem_read data (node.(_meta).(o_size) * slot) node.(_meta).(o_size);
  mem_write dst 0 src.

(** [copy]: whether data was copied, the destination, the reader's new generation. *)
Definition copy (node : DeviceNode) (dst : option (list Z)) (generation : Z)
  : option (bool * option (list Z) * Z) :=
  match dst with
  | None => Some (false, None, generation)
  | Some dst =>
    match node.(_data) with
    | None => Some (false, Some dst, generation)
    | Some data =>
      let queue := node.(_meta).(o_queue) in
      if queue =? 1 then
        dst ← copy_slot node data dst 0;
        Some (true, Some dst, node.(_generation))
      else
        let current_generation := node.(_generation) in
        let generation :=
          if current_generation =? generation then u32 (generation - 1) else generation in
        let generation :=
          if negb (is_in_range (u32 (current_generation - queue)) generation
                     (u32 (current_generation - 1)))
          then u32 (current_generation - queue) else generation in
        slot ← umod generation queue;
        dst ← copy_slot node data dst slot;
        Some (true, Some dst, u32 (generation + 1))
    end
  end.

(** The lazy allocation at the start of [write]: outside an interrupt, allocate and clear
    the buffer; [alloc_ok] is whether the allocation succeeds. *)
Definition ensure_data (in_interrupt alloc_ok : bool) (node : DeviceNode) : DeviceNode :=
  match node.(_data) with
  | Some _ => node
  | None =>
    if negb in_interrupt && alloc_ok then
      let data_size := node.(_meta).(o_size) * node.(_meta).(o_queue) in
      mkNode node.(_meta) (Some (replicate (Z.to_nat data_size) 0)) node.(_data_valid)
        node.(_generation) node.(_callbacks) node.(_instance) node.(_advertised)
        node.(_subscriber_count)
    else node
  end.

(** [write]: the result, the node, and the calls [item->call(generation)] made. *)
Definition write (in_interrupt alloc_ok : bool) (node : DeviceNode) (buffer : list Z) (buflen : Z)
  : option (Z * DeviceNode * list (Z * Z)) :=
  let node := ensure_data in_interrupt alloc_ok node in
  match node.(_data) with
  | None => Some (- ENOMEM, node, [])
  | Some data =>
    if negb (node.(_meta).(o_size) =? buflen) then Some (- EIO, node, [])
    else
      let generation := node.(_generation) in
      slot ← umod generation node.(_meta).(o_queue);
      src ← mem_read buffer 0 node.(_meta).(o_size);
      data ← mem_write data (node.(_meta).(o_size) * slot) src;
      let calls := map (fun item => (item, u32 (generation + 1))) node.(_callbacks) in
      Some (node.(_meta).(o_size),
            mkNode node.(_meta) (Some data) true (u32 (generation + 1)) node.(_callbacks)
              node.(_instance) node.(_advertised) node.(_subscriber_count),
            calls)
  end.

(** [publish]: result, [errno] when set, the node, the callbacks called. A handle is
    [None] for [nullptr]. *)
Definition publish (in_interrupt alloc_ok : bool) (meta : option orb_metadata)
    (devnode : option DeviceNode) (data : option (list Z))
  : option (Z * option Z * option DeviceNode * list (Z * Z)) :=
  match devnode, meta, data with
  | Some node, Some meta, Some data =>
    if negb (node.(_meta).(o_id) =? meta.(o_id)) then
      Some (PX4_ERROR, Some EINVAL, Some node, [])
    else
      '(ret, node, calls) ← write in_interrupt alloc_ok node data meta.(o_size);
      if ret <? 0 then Some (PX4_ERROR, Some (- ret), Some node, calls)
      else if negb (ret =? meta.(o_size)) then Some (PX4_ERROR, Some EIO, Some node, calls)
      else Some (PX4_OK, None, Some node, calls)
  | _, _, _ => Some (PX4_ERROR, Some EFAULT, devnode, [])
  end.

Definition with_advertised (node : DeviceNode) (b : bool) : DeviceNode :=
  mkNode node.(_meta) node.(_data) node.(_data_valid) node.(_generation) node.(_callbacks)
    node.(_instance) b node.(_subscriber_count).

Definition unadvertise (handle : option DeviceNode) : Z * option DeviceNode :=
  match handle with
  | None => (- EINVAL, None)
  | Some devnode => (PX4_OK, Some (with_advertised devnode false))
  end.

Definition is_advertised (node : DeviceNode) : bool := node.(_advertised).
Definition mark_as_advertised (node : DeviceNode) : DeviceNode := with_advertised node true.
Definition get_queue_size (node : DeviceNode) : Z := node.(_meta).(o_queue).
Definition subscriber_count (node : DeviceNode) : Z := node.(_subscriber_count).

Definition updates_available (node : DeviceNode) (generation : Z) : Z :=
  u32 (node.(_generation) - generation).

Definition get_initial_generation (node : DeviceNode) : Z :=
  u32 (node.(_generation) - (if node.(_data_valid) then 1 else 0)).

Definition with_subscriber_count (node : DeviceNode) (n : Z) : DeviceNode :=
  mkNode node.(_meta) node.(_data) node.(_data_valid) node.(_generation) node.(_callbacks)
    node.(_instance) node.(_advertised) n.

(** [_subscriber_count] is an [int8_t]. *)
Definition add_internal_subscriber (node : DeviceNode) : DeviceNode :=
  with_subscriber_count node (s8 (node.(_subscriber_count) + 1)).
Definition remove_internal_subscriber (node : DeviceNode) : DeviceNode :=
  with_subscriber_count node (s8 (node.(_subscriber_count) - 1)).

Definition with_callbacks (node : DeviceNode) (l : list Z) : DeviceNode :=
  mkNode node.(_meta) node.(_data) node.(_data_valid) node.(_generation) l
    node.(_instance) node.(_advertised) node.(_subscriber_count).

(** A callback is registered at most once, at the end of the list. *)
Definition register_callback (node : DeviceNode) (callback_sub : Z) : bool * DeviceNode :=
  if callback_sub =? 0 then (false, node)
  else if existsb (Z.eqb callback_sub) node.(_callbacks) then (true, node)
  else (true, with_callbacks node (node.(_callbacks) ++ [callback_sub])).

Fixpoint remove_first (x : Z) (l : list Z) : list Z :=
  match l with [] => [] | y :: l => if x =? y then l else y :: remove_first x l end.

Definition unregister_callback (node : DeviceNode) (callback_sub : Z) : DeviceNode :=
  with_callbacks node (remove_first callback_sub node.(_callbacks)).

(** ** What a node stores *)

(** The slot [u32 k mod q] of message number [k] identifies it among the last [q]
    messages of [n]: either the queue length divides 2^32 (every topic of msg/ has a
    power of two), or the counter has not wrapped yet. *)
Definition seq_ok (q n : Z) : Prop := (q | 2 ^ 32) \/ n <= 2 ^ 32.

Definition slot_of (q k : Z) : Z := u32 k mod q.

(** [holds node h]: the messages [h] have been published to [node] since boot. *)
Record holds (node : DeviceNode) (h : list (list Z)) : Prop := {
  holds_size : 0 <= node.(_meta).(o_size);
  holds_queue : 1 <= node.(_meta).(o_queue) < 2 ^ 8;
  holds_gen : node.(_generation) = u32 (zlen h);
  holds_valid : node.(_data_valid) = negb (zlen h =? 0);
  holds_msgs : Forall (fun m => zlen m = node.(_meta).(o_size)) h;
  holds_data :
    match node.(_data) with
    | None => h = []
    | Some d => zlen d = node.(_meta).(o_size) * node.(_meta).(o_queue) /\
        forall k m, zlookup h k = Some m -> zlen h - node.(_meta).(o_queue) <= k ->
          slice (node.(_meta).(o_size) * slot_of node.(_meta).(o_queue) k) node.(_meta).(o_size) d = m
    end;
}.

Lemma slot_of_mod q k : seq_ok q (k + 1) -> 0 <= k -> 1 <= q -> slot_of q k = k mod q.
Proof.
  intros [Hd|Hk] H0 Hq; unfold slot_of, uwrap.
  - symmetry. apply Znumtheory.Zmod_div_mod; [lia|lia|done].
  - by rewrite (Z.mod_small k) by lia.
Qed.

Lemma seq_ok_le q n n' : seq_ok q n -> n' <= n -> seq_ok q n'.
Proof. intros [|] ?; [by left|right; lia]. Qed.

Lemma slot_of_range q k : 1 <= q -> 0 <= slot_of q k < q.
Proof. intros. apply Z.mod_pos_bound. lia. Qed.

(** Within a window of [q] messages the slots are distinct. *)
Lemma slot_of_inj q k n :
  seq_ok q (n + 1) -> 1 <= q -> 0 <= k < n -> n - q < k -> slot_of q k <> slot_of q n.
Proof.
  intros Hs Hq Hk Hw. rewrite !slot_of_mod by first [lia | eapply seq_ok_le; [done|lia]].
  intros E. assert ((n - k) mod q = 0) as E'.
  { rewrite Zminus_mod, E, Z.sub_diag. apply Z.mod_0_l. lia. }
  rewrite Z.mod_small in E' by lia. lia.
Qed.

(** [is_in_range] on wrapped counters tests membership in the window of the last [q]
    messages, on either side of a counter wrap-around. *)
Lemma is_in_range_window q n g :
  1 < q < 2 ^ 32 -> g < n -> n - g < 2 ^ 32 ->
  is_in_range (u32 (n - q)) (u32 g) (u32 (n - 1)) = (n - q <=? g).
Proof.
  intros Hq Hg Hd. unfold is_in_range, uwrap.
  destruct (Z.leb_spec (n - q) g); case_if;
    Z.div_mod_to_equations; lia.
Qed.

Lemma ensure_data_holds irq ok node h : holds node h -> holds (ensure_data irq ok node) h.
Proof.
  intros Hh. unfold ensure_data. destruct (_data node) as [d|] eqn:Hd; [done|]. case_if; [|done].
  destruct Hh as [? ? ? ? ? Hda]. rewrite Hd in Hda. subst h.
  constructor; simpl; try done. split; [rewrite zlen_replicate; [done|lia]|].
  intros k m Hk. apply zlookup_Some_lt in Hk. unfold zlen in Hk. simpl in Hk. lia.
Qed.

(** [memcpy] into the slot of message number [zlen h]. *)
Lemma store_message size q (d : list Z) (h : list (list Z)) (m : list Z) :
  0 <= size -> 1 <= q -> seq_ok q (zlen h + 1) -> zlen d = size * q -> zlen m = size ->
  Forall (fun m => zlen m = size) h ->
  (forall k m', zlookup h k = Some m' -> zlen h - q <= k -> slice (size * slot_of q k) size d = m') ->
  let d' := splice (size * slot_of q (zlen h)) m d in
  zlen d' = size * q /\
  forall k m', zlookup (h ++ [m]) k = Some m' -> zlen h + 1 - q <= k ->
    slice (size * slot_of q k) size d' = m'.
Proof.
  intros Hsz Hq Hseq Hd Hm Hms Hold d'. pose proof (slot_of_range q (zlen h) Hq) as Hslot.
  assert (size * slot_of q (zlen h) + zlen m <= zlen d) by nia.
  split; [unfold d'; rewrite zlen_splice; nia|].
  intros k m' Hk Hw. apply zlookup_app_inv in Hk as [[Hr Hk]|[Hr Hk]].
  - pose proof (slot_of_range q k Hq). pose proof (slot_of_inj q k (zlen h) Hseq Hq Hr ltac:(lia)).
    rewrite <- (Hold k m' Hk ltac:(lia)). unfold d'.
    destruct (Z.lt_ge_cases (slot_of q k) (slot_of q (zlen h))).
    + pose proof (Z.mul_le_mono_nonneg_l (slot_of q k + 1) (slot_of q (zlen h)) size Hsz ltac:(lia)).
      apply slice_splice_before; nia.
    + pose proof (Z.mul_le_mono_nonneg_l (slot_of q (zlen h) + 1) (slot_of q k) size Hsz ltac:(lia)).
      apply slice_splice_after; nia.
  - apply zlookup_Some_lt in Hk as Hlt. change (zlen [m]) with 1 in Hlt.
    assert (k = zlen h) as -> by lia. rewrite Z.sub_diag in Hk. unfold zlookup in Hk. simpl in Hk.
    simplify_eq. apply slice_splice_same; nia.
Qed.

Lemma write_ok irq ok node h m :
  holds node h -> zlen m = node.(_meta).(o_size) -> seq_ok node.(_meta).(o_queue) (zlen h + 1) ->
  is_Some node.(_data) \/ (irq = false /\ ok = true) ->
  exists node' calls,
    write irq ok node m node.(_meta).(o_size) = Some (node.(_meta).(o_size), node', calls) /\
    holds node' (h ++ [m]) /\ node'.(_meta) = node.(_meta) /\ node'.(_callbacks) = node.(_callbacks) /\
    node'.(_instance) = node.(_instance) /\ node'.(_advertised) = node.(_advertised) /\
    calls = map (fun item => (item, u32 (zlen h + 1))) node.(_callbacks).
Proof.
  intros Hh Hm Hseq Hal. pose proof (ensure_data_holds irq ok node h Hh) as Hh1.
  assert (exists d, ensure_data irq ok node =
    mkNode node.(_meta) (Some d) node.(_data_valid) node.(_generation) node.(_callbacks)
      node.(_instance) node.(_advertised) node.(_subscriber_count)) as [d Hd].
  { unfold ensure_data. destruct node as [? [d|] ? ? ? ? ? ?]; simpl in *; [by exists d|].
    destruct Hal as [[? ?]|[-> ->]]; [done|]. simpl. eauto. }
  unfold write. rewrite Hd in *. clear Hd Hh. destruct Hh1 as [Hsz Hq Hg Hv Hms [Hlen Hdata]]. simpl in *.
  rewrite Z.eqb_refl. simpl. unfold umod. decide_if. simpl.
  rewrite mem_read_Some, slice_full by lia. simpl. rewrite Hg.
  change (u32 (zlen h) mod o_queue (_meta node)) with (slot_of (o_queue (_meta node)) (zlen h)).
  pose proof (slot_of_range (o_queue (_meta node)) (zlen h) ltac:(lia)).
  rewrite mem_write_Some by nia. simpl.
  rewrite uwrap_add_l by lia. do 2 eexists; split; [done|]. split_and!; try done.
  destruct (store_message (o_size (_meta node)) (o_queue (_meta node)) d h m) as [Hl' Hd']; try done; try lia.
  assert (zlen (h ++ [m]) = zlen h + 1) as Hn by (rewrite zlen_app; done).
  constructor; simpl; rewrite ?Hn; try done.
  - pose proof (zlen_nonneg h). symmetry. apply negb_true_iff. lia.
  - apply Forall_app_2; [done|]. by repeat constructor.
Qed.

(** The message a reader at position [g] gets from a node that has published [n]
    messages and keeps the last [q]: the next one, the last one again when there is
    nothing new, the oldest kept one when it has fallen behind. *)
Definition read_index (q n g : Z) : Z := Z.max (n - q) (Z.min g (n - 1)).

Lemma copy_slot_ok node d dst h k m :
  holds node h -> node.(_data) = Some d -> zlookup h k = Some m ->
  zlen h - node.(_meta).(o_queue) <= k -> node.(_meta).(o_size) <= zlen dst ->
  copy_slot node d dst (slot_of node.(_meta).(o_queue) k) = Some (splice 0 m dst).
Proof.
  intros [Hsz Hq Hg Hv Hms Hda] Hd Hk Hw Hdst. rewrite Hd in Hda. destruct Hda as [Hlen Hdata].
  pose proof (slot_of_range (o_queue (_meta node)) k ltac:(lia)).
  assert (zlen m = o_size (_meta node)) as Hm.
  { unfold zlookup in Hk. case_if_in Hk; [|done]. by eapply Forall_lookup_1 in Hms. }
  unfold copy_slot. rewrite mem_read_Some by nia. simpl.
  rewrite (Hdata k m) by done. rewrite mem_write_Some by lia. done.
Qed.

Lemma copy_ok node h g dst :
  let n := zlen h in let q := node.(_meta).(o_queue) in
  holds node h -> seq_ok q n -> 0 <= g <= n -> n - g < 2 ^ 32 -> 0 < n ->
  node.(_meta).(o_size) <= zlen dst ->
  exists m, zlookup h (read_index q n g) = Some m /\
    copy node (Some dst) (u32 g) = Some (true, Some (splice 0 m dst), u32 (read_index q n g + 1)).
Proof.
  intros n q Hh Hseq Hg Hlag Hn Hdst. pose proof (holds_queue _ _ Hh) as Hq. fold q in Hq.
  assert (0 <= read_index q n g < n) as Hi by (unfold read_index; lia).
  destruct (zlookup_lt h (read_index q n g)) as [m Hm]; [done|]. exists m. split; [done|].
  unfold copy. destruct (_data node) as [d|] eqn:Hd.
  2: { pose proof (holds_data _ _ Hh) as Hda. rewrite Hd in Hda. subst h. done. }
  pose proof (copy_slot_ok node d dst h _ m Hh Hd Hm ltac:(unfold read_index; fold n q; lia) Hdst) as Hcp.
  rewrite (holds_gen _ _ Hh). fold n q in Hcp |- *. case_if.
  - unfold slot_of in Hcp. rewrite Hif, Z.mod_1_r in Hcp. rewrite Hcp. simpl.
    do 2 f_equal. unfold read_index. f_equal. lia.
  - rewrite !uwrap_sub_l by lia.
    assert ((if u32 n =? u32 g then u32 (g - 1) else u32 g) = u32 (Z.min g (n - 1))) as ->.
    { destruct (Z.eq_dec g n) as [->|].
      - rewrite Z.eqb_refl. f_equal. lia.
      - rewrite Z.min_l by lia. case_if; [|done]. exfalso. unwrap. }
    rewrite is_in_range_window by lia.
    assert ((if negb (n - q <=? Z.min g (n - 1)) then u32 (n - q) else u32 (Z.min g (n - 1)))
      = u32 (read_index q n g)) as ->.
    { unfold read_index. case_if; f_equal; lia. }
    unfold umod. decide_if. simpl. fold (slot_of q (read_index q n g)). rewrite Hcp. simpl.
    by rewrite uwrap_add_l by lia.
Qed.
