(* ===== verification/UorbMaster.v ===== *)
(** * uORB device master: the table of topic instances

    Models platforms/common/uORB/uORBDeviceMaster.{hpp,cpp} and uORBUtils.cpp: creating
    the node of a topic instance, claiming an instance for an advertiser, and finding
    nodes. The statistics printing ([printStatistics], [showTop]) is left out.

    A node is its address in the heap [nodes]. The registration of a device name with
    the operating system ([CDev::init]) is the map [vfs]; registering a name that exists
    fails with -EEXIST. [_node_list] is kept as the list of addresses; Containers shows
    that [IntrusiveSortedList::add] implements [sorted_insert]. *)
From stdpp Require Import base list gmap strings pretty.
From Stdlib Require Import ZArith Lia Ascii String.
From S2P Require Import Prelude.
From S2P Require Import Containers.
From S2P Require Import UorbNode.
#[local] Open Scope Z_scope.

Definition ORB_MULTI_MAX_INSTANCES : Z := 10.
Definition orb_maxpath : Z := 64.

Record DeviceMaster := mkMaster {
  nodes : gmap Z (string * DeviceNode);
  _node_list : list Z;
  _node_exists : list (list Z);
  vfs : gmap string Z;
  next_addr : Z;
}.

(** [snprintf(buf, orb_maxpath, "/%s/%s%d", "obj", name, index)]. *)
Definition node_mkpath (name : string) (index : Z) : Z * string :=
  let path := ("/obj/" +:+ name +:+ pretty index)%string in
  if orb_maxpath <=? Z.of_nat (String.length path) then (- ENAMETOOLONG, path) else (PX4_OK, path).

(** ['0' + i]. *)
Definition digit (i : Z) : ascii := ascii_of_N (Z.to_N (48 + i)).

(** [nodepath[strlen(nodepath) - 1] = c]. *)
Fixpoint set_last (s : string) (c : ascii) : string :=
  match s with
  | EmptyString => EmptyString
  | String _ EmptyString => String c EmptyString
  | String a s => String a (set_last s c)
  end.

Definition node_of (m : DeviceMaster) (a : Z) : option DeviceNode := snd <$> m.(nodes) !! a.

(** [node->get_name()] is the name of the topic, [get_devname()] the registered path. *)
Definition getDeviceNodeLocked (m : DeviceMaster) (name : string) (instance : Z) : option Z :=
  List.find (fun a =>
    match m.(nodes) !! a with
    | Some (_, node) => String.eqb node.(_meta).(o_name) name && (node.(_instance) =? instance)
    | None => false
    end) m.(_node_list).

Definition getDeviceNode_path (m : DeviceMaster) (nodepath : string) : option Z :=
  List.find (fun a =>
    match m.(nodes) !! a with Some (p, _) => String.eqb p nodepath | None => false end) m.(_node_list).

(** [ORB_ID::INVALID] is [None]. *)
Definition deviceNodeExists (m : DeviceMaster) (id : option Z) (instance : Z) : option bool :=
  match id with
  | None => Some false
  | Some id =>
    if ORB_MULTI_MAX_INSTANCES - 1 <? instance then Some false
    else bits ← zlookup m.(_node_exists) instance; AtomicBitset_get bits id
  end.

Definition getDeviceNode (m : DeviceMaster) (meta : option orb_metadata) (instance : Z) : option (option Z) :=
  match meta with
  | None => Some None
  | Some meta =>
    e ← deviceNodeExists m (Some meta.(o_id)) instance;
    if negb e then Some None else Some (getDeviceNodeLocked m meta.(o_name) instance)
  end.

Definition update_node (m : DeviceMaster) (a : Z) (f : DeviceNode -> DeviceNode) : DeviceMaster :=
  mkMaster (alter (prod_map id f) a m.(nodes)) m.(_node_list) m.(_node_exists) m.(vfs) m.(next_addr).

(** [strcmp(a, b) <= 0]. *)
Fixpoint strcmp_le (a b : string) : bool :=
  match a, b with
  | EmptyString, _ => true
  | String _ _, EmptyString => false
  | String x a, String y b =>
      if (N_of_ascii x =? N_of_ascii y)%N then strcmp_le a b else (N_of_ascii x <? N_of_ascii y)%N
  end.

Definition devname (m : DeviceMaster) (a : Z) : string :=
  match m.(nodes) !! a with Some (p, _) => p | None => EmptyString end.

(** The branch for a node that was created and registered: it is added to the sorted list
    and its bit is set. *)
Definition add_node (m : DeviceMaster) (path : string) (node : DeviceNode) : option DeviceMaster :=
  let a := m.(next_addr) in
  let m := mkMaster (<[a := (path, node)]> m.(nodes)) m.(_node_list) m.(_node_exists)
             (<[path := a]> m.(vfs)) (a + 1) in
  bits ← zlookup m.(_node_exists) node.(_instance);
  bits ← AtomicBitset_set bits node.(_meta).(o_id) true;
  exists_ ← zstore m.(_node_exists) node.(_instance) bits;
  Some (mkMaster m.(nodes)
          (sorted_insert (fun x y => strcmp_le (devname m x) (devname m y)) a m.(_node_list))
          exists_ m.(vfs) m.(next_addr)).

(** The branch for a name that is registered already. *)
Definition claim_existing (m : DeviceMaster) (meta : orb_metadata) (is_advertiser : bool)
    (single_instance : bool) (group_tries : Z) : Z * DeviceMaster :=
  match getDeviceNodeLocked m meta.(o_name) group_tries with
  | None => (- EEXIST, m)
  | Some a =>
    let advertised := match node_of m a with Some n => is_advertised n | None => false end in
    let is_single_instance_advertiser := is_advertiser && single_instance in
    if negb advertised || is_single_instance_advertiser || negb is_advertiser then
      (PX4_OK, if is_advertiser then update_node m a mark_as_advertised else m)
    else (- EEXIST, m)
  end.

(** One pass of the [do ... while]: the result, [*instance], the path, the master.
    [new_ok] is whether [new DeviceNode] succeeds. *)
Definition advertise_try (new_ok : bool) (m : DeviceMaster) (meta : orb_metadata)
    (is_advertiser : bool) (instance : option Z) (nodepath : string) (group_tries : Z)
  : option (Z * option Z * string * DeviceMaster) :=
  let nodepath := match instance with Some _ => set_last nodepath (digit group_tries) | None => nodepath end in
  let instance := match instance with Some _ => Some group_tries | None => None end in
  if negb new_ok then Some (- ENOMEM, instance, nodepath, m)
  else
    match m.(vfs) !! nodepath with
    | Some _ =>
      let '(ret, m) :=
        claim_existing m meta is_advertiser (match instance with None => true | _ => false end) group_tries in
      Some (ret, instance, nodepath, m)
    | None =>
      let node := DeviceNode_new meta group_tries in
      let node := if is_advertiser then mark_as_advertised node else node in
      m ← add_node m nodepath node;
      Some (PX4_OK, instance, nodepath, m)
    end.

Fixpoint advertise_loop (fuel : nat) (new_ok : bool) (m : DeviceMaster) (meta : orb_metadata)
    (is_advertiser : bool) (instance : option Z) (nodepath : string) (group_tries max_group_tries : Z)
  : option (Z * option Z * DeviceMaster) :=
  match fuel with
  | O => None
  | S fuel =>
    '(ret, instance, nodepath, m) ←
      advertise_try new_ok m meta is_advertiser instance nodepath group_tries;
    if negb new_ok then Some (ret, instance, m) (* return -ENOMEM *)
    else
      let group_tries := group_tries + 1 in
      if negb (ret =? PX4_OK) && (group_tries <? max_group_tries) then
        advertise_loop fuel new_ok m meta is_advertiser instance nodepath group_tries max_group_tries
      else
        let ret := if negb (ret =? PX4_OK) && (max_group_tries <=? group_tries) then - ENOMEM else ret in
        Some (ret, instance, m)
  end.

(** [advertise(meta, is_advertiser, instance)]; [instance] is [None] for [nullptr]. *)
Definition advertise (new_ok : bool) (m : DeviceMaster) (meta : orb_metadata) (is_advertiser : bool)
    (instance : option Z) : option (Z * option Z * DeviceMaster) :=
  let '(ret, nodepath) := node_mkpath meta.(o_name) (default 0 instance) in
  if negb (ret =? PX4_OK) then Some (ret, instance, m)
  else
    let max_group_tries := match instance with Some _ => ORB_MULTI_MAX_INSTANCES | None => 1 end in
    let group_tries := match instance with Some i => u32 i | None => 0 end in
    if match instance with Some _ => max_group_tries <=? group_tries | None => false end
    then Some (- ENOMEM, instance, m)
    else advertise_loop (Z.to_nat max_group_tries) new_ok m meta is_advertiser instance nodepath
           group_tries max_group_tries.

(** ** The table as a map from topic and instance to node *)

Definition path_of (name : string) (i : Z) : string := ("/obj/" +:+ name +:+ String (digit i) EmptyString)%string.

Definition node_at (m : DeviceMaster) (meta : orb_metadata) (i : Z) : option DeviceNode :=
  a ← m.(vfs) !! path_of meta.(o_name) i; node_of m a.

Lemma append_last_inj (s t : string) c d :
  (s +:+ String c EmptyString = t +:+ String d EmptyString)%string -> s = t /\ c = d.
Proof.
  revert t. induction s as [|x s IH]; intros [|y t] E; simpl in E; simplify_eq; [done|..].
  - destruct t; simpl in *; discriminate.
  - destruct s; simpl in *; discriminate.
  - destruct (IH t) as [-> ->]; done.
Qed.

Lemma set_last_append s c d : set_last (s +:+ String c EmptyString)%string d = (s +:+ String d EmptyString)%string.
Proof.
  induction s as [|x s IH]; [done|]. simpl. rewrite IH. by destruct s.
Qed.

Lemma append_assoc (a b c : string) : ((a +:+ b) +:+ c = a +:+ (b +:+ c))%string.
Proof. induction a as [|x a IH]; [done|]. exact (f_equal (String x) IH). Qed.

Lemma string_length_app (a b : string) :
  String.length (a +:+ b) = (String.length a + String.length b)%nat.
Proof. induction a as [|x a IH]; [done|]. exact (f_equal S IH). Qed.

Lemma digit_inj i j : 0 <= i < 10 -> 0 <= j < 10 -> digit i = digit j -> i = j.
Proof.
  intros Hi Hj E. unfold digit in E. apply (f_equal N_of_ascii) in E.
  rewrite !N_ascii_embedding in E by lia. lia.
Qed.

Lemma path_of_inj n n' i j :
  0 <= i < 10 -> 0 <= j < 10 -> path_of n i = path_of n' j -> n = n' /\ i = j.
Proof.
  intros Hi Hj E. unfold path_of in E. apply (inj (String.append "/obj/")) in E.
  apply append_last_inj in E as [-> E]. by apply digit_inj in E.
Qed.

Lemma set_last_path n i j : set_last (path_of n i) (digit j) = path_of n j.
Proof. unfold path_of. rewrite <- !append_assoc. apply set_last_append. Qed.

Lemma pretty_digit i : 0 <= i < 10 -> pretty i = String (digit i) EmptyString.
Proof.
  intros Hi. assert (i ∈ [0; 1; 2; 3; 4; 5; 6; 7; 8; 9]) as Hin.
  { rewrite !elem_of_cons. lia. }
  repeat (apply elem_of_cons in Hin as [->|Hin]; [reflexivity|]). by apply not_elem_of_nil in Hin.
Qed.

#[global] Instance orb_metadata_eq_dec : EqDecision orb_metadata.
Proof. solve_decision. Defined.

(** ** Advertisers and subscribers over time

    [owned] are the instances handed to multi-instance advertisers that have not been
    given back. *)
Inductive event :=
  | Advertise (meta : orb_metadata)
  | SubscribeInstance (meta : orb_metadata) (instance : Z)
  | Unadvertise (meta : orb_metadata) (instance : Z).

Definition step (s : DeviceMaster * list (orb_metadata * Z)) (e : event)
  : option (DeviceMaster * list (orb_metadata * Z)) :=
  let '(m, owned) := s in
  match e with
  | Advertise meta =>
    '(ret, inst, m) ← advertise true m meta true (Some 0);
    Some (m, if ret =? PX4_OK then (meta, default 0 inst) :: owned else owned)
  | SubscribeInstance meta i =>
    '(_, _, m) ← advertise true m meta false (Some i);
    Some (m, owned)
  | Unadvertise meta i =>
    if decide ((meta, i) ∈ owned) then
      a ← getDeviceNodeLocked m meta.(o_name) i;
      Some (update_node m a (fun n => with_advertised n false), filter (.≠ (meta, i)) owned)
    else Some s
  end.

Fixpoint run (s : DeviceMaster * list (orb_metadata * Z)) (es : list event)
  : option (DeviceMaster * list (orb_metadata * Z)) :=
  match es with [] => Some s | e :: es => s ← step s e; run s es end.

(** The master after construction, for [count] topics. *)
Definition DeviceMaster_new (count : Z) : DeviceMaster :=
  mkMaster ∅ [] (replicate 10 (replicate (Z.to_nat (ARRAY_SIZE 32 count)) 0)) ∅ 1.

Section master.
(** The generated topic table, indexed by [o_id]. *)
Context (topics : list orb_metadata).

Definition topic_ok (meta : orb_metadata) : Prop := zlookup topics meta.(o_id) = Some meta.

Context (names_unique : forall m1 m2, topic_ok m1 -> topic_ok m2 -> m1.(o_name) = m2.(o_name) -> m1 = m2)
        (names_short : forall m, topic_ok m -> (String.length m.(o_name) <= 57)%nat).

(** A node of topic [id] and instance [i] has been created. *)
Definition created (ns : gmap Z (string * DeviceNode)) (id i : Z) : Prop :=
  exists a p node, ns !! a = Some (p, node) /\ node.(_meta).(o_id) = id /\ node.(_instance) = i.

Lemma created_insert ns b q n id i :
  ns !! b = None ->
  created (<[b := (q, n)]> ns) id i <-> (n.(_meta).(o_id) = id /\ n.(_instance) = i) \/ created ns id i.
Proof.
  intros Hb. unfold created. setoid_rewrite lookup_insert_Some. split.
  - intros (a & p & n' & [[<- E]|[? Hn]] & ? & ?); [simplify_eq; eauto|eauto 9].
  - intros [[? ?]|(a & p & n' & Hn & ? & ?)]; [exists b, q, n; eauto|].
    exists a, p, n'. split; [|done]. right. split; [congruence|done].
Qed.

Record master_wf (m : DeviceMaster) : Prop := {
  wf_list a : a ∈ m.(_node_list) <-> is_Some (m.(nodes) !! a);
  wf_vfs p a : m.(vfs) !! p = Some a <-> exists node, m.(nodes) !! a = Some (p, node);
  wf_node a p node : m.(nodes) !! a = Some (p, node) ->
    p = path_of node.(_meta).(o_name) node.(_instance) /\ 0 <= node.(_instance) < 10 /\ topic_ok node.(_meta);
  wf_exists_len : zlen m.(_node_exists) = 10;
  wf_exists i bits : zlookup m.(_node_exists) i = Some bits ->
    bitset_wf 32 (zlen topics) bits /\
    forall id, 0 <= id < zlen topics ->
      (bit 32 bits id = true <-> created m.(nodes) id i);
  wf_addr a : is_Some (m.(nodes) !! a) -> a < m.(next_addr);
}.

Lemma topic_id_range meta : topic_ok meta -> 0 <= meta.(o_id) < zlen topics.
Proof. apply zlookup_Some_lt. Qed.

(** The lookup by name and instance agrees with the registered path. *)
Lemma getDeviceNodeLocked_vfs m meta i :
  master_wf m -> topic_ok meta -> 0 <= i < 10 ->
  getDeviceNodeLocked m meta.(o_name) i = m.(vfs) !! path_of meta.(o_name) i.
Proof.
  intros Hwf Hm Hi. unfold getDeviceNodeLocked.
  destruct (List.find _ _) as [a|] eqn:Hf.
  - apply find_some in Hf as [Hin Hb]. destruct (nodes m !! a) as [[p node]|] eqn:Hn; [|done].
    apply andb_prop in Hb as [Hb1 Hb2]. apply String.eqb_eq in Hb1. apply Z.eqb_eq in Hb2.
    symmetry. apply (wf_vfs _ Hwf). exists node. rewrite Hn.
    apply (wf_node _ Hwf) in Hn as (-> & _ & _). by rewrite Hb1, Hb2.
  - destruct (vfs m !! path_of (o_name meta) i) as [a|] eqn:Hv; [|done].
    apply (wf_vfs _ Hwf) in Hv as [node Hn].
    assert (List.In a (_node_list m)) as Hin.
    { apply list_elem_of_In, (wf_list _ Hwf). rewrite Hn. eauto. }
    apply (find_none _ _ Hf) in Hin. rewrite Hn in Hin.
    apply (wf_node _ Hwf) in Hn as (Hp & Hr & _). apply path_of_inj in Hp as [E1 E2]; [|done..].
    rewrite <- E1, <- E2, String.eqb_refl, Z.eqb_refl in Hin. done.
Qed.

Lemma node_at_Some m meta i node :
  node_at m meta i = Some node <->
  exists a p, m.(vfs) !! path_of meta.(o_name) i = Some a /\ m.(nodes) !! a = Some (p, node).
Proof.
  unfold node_at, node_of. destruct (vfs m !! _) as [a|]; simpl; [|naive_solver].
  destruct (nodes m !! a) as [[p n]|] eqn:E; simpl; naive_solver.
Qed.

(** Registering a new node adds exactly that node. *)
Lemma add_node_ok m meta i node :
  master_wf m -> topic_ok meta -> 0 <= i < 10 -> m.(vfs) !! path_of meta.(o_name) i = None ->
  node.(_meta) = meta -> node.(_instance) = i ->
  exists m', add_node m (path_of meta.(o_name) i) node = Some m' /\ master_wf m' /\
    m'.(vfs) = <[path_of meta.(o_name) i := m.(next_addr)]> m.(vfs) /\
    m'.(nodes) = <[m.(next_addr) := (path_of meta.(o_name) i, node)]> m.(nodes).
Proof.
  intros Hwf Hm Hi Hv Emeta Einst. pose proof (topic_id_range _ Hm) as Hid.
  assert (m.(nodes) !! m.(next_addr) = None) as Hfresh.
  { apply eq_None_not_Some. intros Hs%(wf_addr _ Hwf). lia. }
  unfold add_node. cbn [_node_exists]. rewrite Emeta, Einst.
  destruct (zlookup_lt (_node_exists m) i) as [bits Hb]; [rewrite (wf_exists_len _ Hwf); lia|].
  rewrite Hb. simpl. destruct (wf_exists _ Hwf _ _ Hb) as [Hbw Hbits].
  destruct (bitset_set_ok 32 ltac:(lia) _ bits (o_id meta) true Hbw Hid) as (bits' & Hs & Hbw' & Hbits').
  unfold AtomicBitset_set. rewrite Hs. simpl. unfold zstore.
  rewrite (wf_exists_len _ Hwf). decide_if. simpl. eexists; split; [done|]. split; [|done].
  split; simpl.
  - intros a. rewrite elem_of_sorted_insert, (wf_list _ Hwf), lookup_insert_is_Some. 
    destruct (decide (a = next_addr m)); naive_solver.
  - intros p a. rewrite !lookup_insert_Some, (wf_vfs _ Hwf). setoid_rewrite lookup_insert_Some.
    split.
    + intros [[<- <-]|[Hp [n Hn]]]; [by eexists; left|].
      exists n. right. split; [|done]. intros <-. congruence.
    + intros [n [[<- E]|[Ha Hn]]]; [left; naive_solver|]. right. split; [|eauto].
      intros <-. assert (vfs m !! path_of (o_name meta) i = Some a); [|congruence].
      apply (wf_vfs _ Hwf). eauto.
  - intros a p n [[<- E]|[Ha Hn]]%lookup_insert_Some; [|by eapply wf_node].
    simplify_eq. split_and!; [done|lia..|done].
  - unfold zlen. rewrite length_insert. apply (wf_exists_len _ Hwf).
  - intros j bits0 Hj. pose proof (zlookup_Some_lt _ _ _ Hj) as Hjr.
    rewrite zlookup_insert in Hj by (rewrite ?(wf_exists_len _ Hwf); lia).
    setoid_rewrite created_insert; [|done].
    case_if_in Hj; simplify_eq.
    + split; [done|]. intros id Hid'. rewrite Hbits' by done.
      case_if; [naive_solver|]. rewrite Hbits by done. naive_solver.
    + destruct (wf_exists _ Hwf _ _ Hj) as [? Hbj]. split; [done|].
      intros id Hid'. rewrite Hbj by done. naive_solver.
  - intros a Ha. apply lookup_insert_is_Some in Ha as [->|[? Ha]]; [lia|].
    apply (wf_addr _ Hwf) in Ha. lia.
Qed.

(** Changing a node, but not what it is of. *)
Lemma update_node_ok m a f :
  master_wf m -> (forall n, (f n).(_meta) = n.(_meta) /\ (f n).(_instance) = n.(_instance)) ->
  master_wf (update_node m a f).
Proof.
  intros Hwf Hf. unfold update_node.
  assert (forall b p n, alter (prod_map id f) a (nodes m) !! b = Some (p, n) <->
    exists n0, nodes m !! b = Some (p, n0) /\ n = if decide (a = b) then f n0 else n0) as Hl.
  { intros b p n. destruct (decide (a = b)) as [->|].
    - rewrite lookup_alter_eq. destruct (nodes m !! b) as [[? ?]|]; simpl; naive_solver.
    - rewrite lookup_alter_ne by done. naive_solver. }
  assert (forall b, is_Some (alter (prod_map id f) a (nodes m) !! b) <-> is_Some (nodes m !! b)) as Hs.
  { intros b. apply lookup_alter_is_Some. }
  split; simpl.
  - intros b. rewrite Hs. apply (wf_list _ Hwf).
  - intros p b. rewrite (wf_vfs _ Hwf). setoid_rewrite Hl. naive_solver.
  - intros b p n (n0 & Hn & ->)%Hl. apply (wf_node _ Hwf) in Hn.
    destruct (Hf n0) as [E1 E2]. case_decide; [by rewrite E1, E2|done].
  - apply (wf_exists_len _ Hwf).
  - intros i bits Hb. destruct (wf_exists _ Hwf _ _ Hb) as [? Hbits]. split; [done|].
    intros id Hid. rewrite Hbits by done. unfold created. setoid_rewrite Hl. split.
    + intros (b & p & n & Hn & ? & ?). destruct (Hf n) as [E1 E2].
      do 3 eexists. split; [eauto|]. case_decide; [by rewrite E1, E2|done].
    + intros (b & p & n & (n0 & Hn & ->) & ? & ?). destruct (Hf n0) as [E1 E2].
      exists b, p, n0. split; [done|]. case_decide; [by rewrite <- E1, <- E2|done].
  - intros b. rewrite Hs. apply (wf_addr _ Hwf).
Qed.

(** From [m] to [m'] only the entry of [meta], [i] changes; it becomes [n]. *)
Definition sets (m m' : DeviceMaster) (meta : orb_metadata) (i : Z) (n : DeviceNode) : Prop :=
  node_at m' meta i = Some n /\
  forall meta' j, topic_ok meta' -> 0 <= j < 10 -> (meta', j) <> (meta, i) ->
    node_at m' meta' j = node_at m meta' j.

Lemma path_of_ne meta meta' i j :
  topic_ok meta -> topic_ok meta' -> 0 <= i < 10 -> 0 <= j < 10 -> (meta', j) <> (meta, i) ->
  path_of meta'.(o_name) j <> path_of meta.(o_name) i.
Proof. intros ???? Hne [En ->]%path_of_inj; [|done..]. by apply names_unique in En as ->. Qed.

Lemma add_node_sets m m' meta i node :
  master_wf m -> topic_ok meta -> 0 <= i < 10 ->
  m'.(vfs) = <[path_of meta.(o_name) i := m.(next_addr)]> m.(vfs) ->
  m'.(nodes) = <[m.(next_addr) := (path_of meta.(o_name) i, node)]> m.(nodes) ->
  sets m m' meta i node.
Proof.
  intros Hwf Hm Hi Ev En. unfold sets, node_at, node_of. rewrite Ev, En. split.
  - rewrite lookup_insert_eq. simpl. by rewrite lookup_insert_eq.
  - intros meta' j ?? Hne. rewrite lookup_insert_ne by (by apply not_eq_sym, path_of_ne).
    destruct (vfs m !! _) as [b|] eqn:Hb; [|done]. simpl. rewrite lookup_insert_ne; [done|].
    intros <-. apply (wf_vfs _ Hwf) in Hb as [n Hn].
    assert (next_addr m < next_addr m); [|lia]. apply (wf_addr _ Hwf). eauto.
Qed.

Lemma update_node_sets m meta i a n f :
  master_wf m -> topic_ok meta -> 0 <= i < 10 ->
  m.(vfs) !! path_of meta.(o_name) i = Some a -> node_at m meta i = Some n ->
  sets m (update_node m a f) meta i (f n).
Proof.
  intros Hwf Hm Hi Ha Hn. unfold node_at, node_of in Hn. rewrite Ha in Hn. simpl in Hn.
  destruct (nodes m !! a) as [[p n0]|] eqn:En; simplify_eq/=.
  unfold sets, node_at, node_of, update_node. simpl. rewrite Ha. simpl. rewrite lookup_alter_eq, En.
  split; [done|]. intros meta' j ?? Hne.
  destruct (vfs m !! path_of (o_name meta') j) as [b|] eqn:Hb; [|done]. simpl.
  rewrite lookup_alter_ne; [done|]. intros <-.
  apply (wf_vfs _ Hwf) in Ha as [? Ha]. apply (wf_vfs _ Hwf) in Hb as [? Hb].
  apply (path_of_ne meta meta' i j); [done..|]. congruence.
Qed.

(** What a successful call leaves in the entry. *)
Definition claimed (is_advertiser : bool) (meta : orb_metadata) (i : Z) (cur : option DeviceNode) : DeviceNode :=
  let n := default (DeviceNode_new meta i) cur in if is_advertiser then mark_as_advertised n else n.

Definition claimable (is_advertiser : bool) (single : bool) (cur : option DeviceNode) : bool :=
  match cur with
  | None => true
  | Some n => negb (is_advertised n) || (is_advertiser && single) || negb is_advertiser
  end.

Lemma vfs_None_node_at m meta i : m.(vfs) !! path_of meta.(o_name) i = None -> node_at m meta i = None.
Proof. unfold node_at. by intros ->. Qed.

Lemma sets_refl m meta i n : node_at m meta i = Some n -> sets m m meta i n.
Proof. by split. Qed.

Lemma advertise_try_ok adv m meta inst path i :
  master_wf m -> topic_ok meta -> 0 <= i < 10 ->
  match inst with Some _ => exists k, path = path_of meta.(o_name) k | None => path = path_of meta.(o_name) i end ->
  let inst' := match inst with Some _ => Some i | None => None end in
  let single := match inst with Some _ => false | None => true end in
  let path' := path_of meta.(o_name) i in
  if claimable adv single (node_at m meta i)
  then exists m', advertise_try true m meta adv inst path i = Some (PX4_OK, inst', path', m') /\
    master_wf m' /\ sets m m' meta i (claimed adv meta i (node_at m meta i))
  else advertise_try true m meta adv inst path i = Some (- EEXIST, inst', path', m).
Proof.
  intros Hwf Hm Hi Hpath inst' single path'.
  unfold advertise_try. simpl negb. cbn iota.
  assert (match inst with Some _ => set_last path (digit i) | None => path end = path') as ->.
  { destruct inst; [destruct Hpath as [k ->]; apply set_last_path|done]. }
  fold inst'. assert (match inst' with Some _ => false | None => true end = single) as Hsingle by (by destruct inst).
  destruct (vfs m !! path') as [a|] eqn:Hv.
  - unfold claim_existing. rewrite (getDeviceNodeLocked_vfs m meta i) by done. fold path'. rewrite Hv.
    assert (exists n, node_of m a = Some n) as [n Hn].
    { apply (wf_vfs _ Hwf) in Hv as [n Hn]. exists n. unfold node_of. by rewrite Hn. }
    assert (node_at m meta i = Some n) as Hat by (unfold node_at; fold path'; by rewrite Hv).
    rewrite Hn, Hat. unfold claimable. replace (match inst' with Some _ => false | None => true end) with single.
    destruct (negb (is_advertised n) || adv && single || negb adv) eqn:Hc; [|done].
    eexists. split; [done|]. destruct adv; unfold claimed; simpl.
    + split; [by apply update_node_ok|by apply update_node_sets].
    + split; [done|by apply sets_refl].
  - rewrite (vfs_None_node_at _ _ _ Hv). simpl.
    destruct (add_node_ok m meta i (claimed adv meta i None)) as (m' & E & Hwf' & E1 & E2); try done;
      [by destruct adv..|].
    unfold claimed in E. simpl in E. fold path' in E. rewrite E. simpl. eexists; split; [done|].
    split; [done|]. by apply add_node_sets.
Qed.

Lemma node_mkpath_ok meta i :
  topic_ok meta -> 0 <= i < 10 -> node_mkpath meta.(o_name) i = (PX4_OK, path_of meta.(o_name) i).
Proof.
  intros Hm%names_short Hi. unfold node_mkpath, path_of, orb_maxpath. rewrite pretty_digit by done.
  assert (String.length ("/obj/" +:+ o_name meta +:+ String (digit i) EmptyString) =
          6 + String.length (o_name meta))%nat as ->; [|by rewrite (proj2 (Z.leb_gt _ _)) by lia].
  rewrite !string_length_app. simpl. lia.
Qed.

(** The first instance from [i] on that the caller may have. *)
Definition first_claimable (adv : bool) (m : DeviceMaster) (meta : orb_metadata) (i : Z) : option Z :=
  List.find (fun j => claimable adv false (node_at m meta j)) (seqZ i (10 - i)).

Lemma advertise_loop_ok adv m meta path k i fuel :
  master_wf m -> topic_ok meta -> 0 <= i < 10 -> (Z.to_nat (10 - i) <= fuel)%nat ->
  (exists k, path = path_of meta.(o_name) k) ->
  match first_claimable adv m meta i with
  | Some j => 0 <= j < 10 /\
      exists m', advertise_loop fuel true m meta adv (Some k) path i 10 = Some (PX4_OK, Some j, m') /\
        master_wf m' /\ sets m m' meta j (claimed adv meta j (node_at m meta j))
  | None => advertise_loop fuel true m meta adv (Some k) path i 10 = Some (- ENOMEM, Some 9, m)
  end.
Proof.
  intros Hwf Hm. revert path k i. induction fuel as [|fuel IH]; intros path k i Hi Hfuel Hpath; [lia|].
  unfold first_claimable. rewrite seqZ_cons by lia. cbn [List.find advertise_loop].
  pose proof (advertise_try_ok adv m meta (Some k) path i Hwf Hm Hi Hpath) as Ht. simpl in Ht.
  destruct (claimable adv false (node_at m meta i)) eqn:Hc.
  - split; [done|]. destruct Ht as (m' & -> & ? & ?). cbn. eauto.
  - rewrite Ht. cbn [mbind option_bind negb].
    change (- EEXIST =? PX4_OK) with false. cbn [negb andb].
    case_if.
    + replace (Z.pred (10 - i)) with (10 - Z.succ i) by lia. apply IH; [lia..|eauto].
    + assert (i = 9) as -> by lia. by decide_if.
Qed.

Lemma advertise_ok adv m meta k :
  master_wf m -> topic_ok meta -> 0 <= k < 10 ->
  match first_claimable adv m meta k with
  | Some j => 0 <= j < 10 /\
      exists m', advertise true m meta adv (Some k) = Some (PX4_OK, Some j, m') /\
        master_wf m' /\ sets m m' meta j (claimed adv meta j (node_at m meta j))
  | None => advertise true m meta adv (Some k) = Some (- ENOMEM, Some 9, m)
  end.
Proof.
  intros Hwf Hm Hk. unfold advertise. cbn [default]. rewrite node_mkpath_ok by done.
  change (negb (PX4_OK =? PX4_OK)) with false. cbn iota beta.
  unfold ORB_MULTI_MAX_INSTANCES. rewrite (uwrap_small 32 k) by lia.
  replace (10 <=? k) with false by lia. apply advertise_loop_ok; [done..|lia|eauto].
Qed.

Lemma ARRAY_SIZE_nonneg : 0 <= ARRAY_SIZE 32 (zlen topics).
Proof.
  assert (0 <= zlen topics / 32) by (apply Z.div_pos; unfold zlen; lia).
  unfold ARRAY_SIZE. case_if; lia.
Qed.

Lemma DeviceMaster_new_wf : master_wf (DeviceMaster_new (zlen topics)).
Proof.
  unfold DeviceMaster_new. split; simpl.
  - intros a. rewrite lookup_empty. split; [by intros ?%not_elem_of_nil|by intros [??]].
  - intros p a. setoid_rewrite lookup_empty. naive_solver.
  - intros a p n. by rewrite lookup_empty.
  - done.
  - intros i bits Hb. pose proof (zlookup_Some_lt _ _ _ Hb) as Hi.
    unfold zlookup in Hb. case_if_in Hb; [|done].
    apply (list_elem_of_lookup_2 (replicate 10 _)), elem_of_replicate in Hb as [-> _].
    split; [split|].
    + rewrite zlen_replicate by apply ARRAY_SIZE_nonneg. done.
    + apply Forall_replicate. lia.
    + intros id Hid. split; [|intros (a & p & n & Hn & _); by rewrite lookup_empty in Hn].
      unfold bit, zlookup. case_if; [|by rewrite Z.testbit_0_l].
      destruct (_ !! _) as [x|] eqn:Hx; simpl; [|by rewrite Z.testbit_0_l].
      apply list_elem_of_lookup_2, elem_of_replicate in Hx as [-> _]. by rewrite Z.testbit_0_l.
  - intros a [? Ha]. by rewrite lookup_empty in Ha.
Qed.

Definition event_ok (e : event) : Prop :=
  match e with
  | Advertise meta | Unadvertise meta _ => topic_ok meta
  | SubscribeInstance meta i => topic_ok meta /\ 0 <= i < 10
  end.

Record run_inv (s : DeviceMaster * list (orb_metadata * Z)) : Prop := {
  inv_wf : master_wf s.1;
  inv_nodup : NoDup s.2;
  inv_owned meta i : (meta, i) ∈ s.2 -> topic_ok meta /\ 0 <= i < 10 /\
    exists n, node_at s.1 meta i = Some n /\ is_advertised n = true;
}.

Lemma first_claimable_Some adv m meta k j :
  first_claimable adv m meta k = Some j -> k <= j < 10 /\ claimable adv false (node_at m meta j) = true.
Proof.
  unfold first_claimable. intros [Hin Hc]%find_some. apply list_elem_of_In, elem_of_seqZ in Hin.
  split; [lia|done].
Qed.

(** An advertised entry stays advertised when another caller claims an instance. *)
Lemma sets_advertised m m' meta i adv meta' j :
  sets m m' meta i (claimed adv meta i (node_at m meta i)) -> topic_ok meta' -> 0 <= j < 10 ->
  (exists n, node_at m meta' j = Some n /\ is_advertised n = true) ->
  exists n, node_at m' meta' j = Some n /\ is_advertised n = true.
Proof.
  intros [Hs Ho] Hm Hj (n & Hn & Ha). destruct (decide ((meta', j) = (meta, i))) as [E|Hne].
  - simplify_eq. rewrite Hn in Hs. unfold claimed in Hs. simpl in Hs.
    eexists. split; [done|]. by destruct adv.
  - rewrite Ho by done. eauto.
Qed.

Lemma step_inv s e : run_inv s -> event_ok e -> exists s', step s e = Some s' /\ run_inv s'.
Proof.
  destruct s as [m owned]. intros [Hwf Hnd Hown] He. simpl in *.
  destruct e as [meta|meta k|meta i]; simpl in *.
  - pose proof (advertise_ok true m meta 0 Hwf He ltac:(lia)) as Ha.
    destruct (first_claimable true m meta 0) as [j|] eqn:Hj.
    + destruct Ha as (Hjr & m' & -> & Hwf' & Hs). simpl. eexists; split; [done|].
      assert ((meta, j) ∉ owned) as Hnew.
      { apply first_claimable_Some in Hj as [_ Hc]. intros Hin. apply Hown in Hin as (_ & _ & n & Hn & Hadv).
        rewrite Hn in Hc. simpl in Hc. rewrite Hadv in Hc. done. }
      split; simpl; [done|by constructor|]. intros meta' j' [E|Hin]%elem_of_cons.
      * simplify_eq. split_and!; [done|lia..|]. destruct Hs as [Hs _]. eexists; split; [done|done].
      * apply Hown in Hin as (? & ? & ?). split_and!; [done|lia..|]. by eapply sets_advertised.
    + rewrite Ha. simpl. eexists; split; [done|]. by split.
  - destruct He as [He Hk]. pose proof (advertise_ok false m meta k Hwf He Hk) as Ha.
    destruct (first_claimable false m meta k) as [j|] eqn:Hj.
    + destruct Ha as (Hjr & m' & -> & Hwf' & Hs). simpl. eexists; split; [done|].
      split; simpl; [done..|]. intros meta' j' Hin.
      apply Hown in Hin as (? & ? & ?). split_and!; [done|lia..|]. by eapply sets_advertised.
    + rewrite Ha. simpl. eexists; split; [done|]. by split.
  - case_decide as Hin; [|eexists; split; [done|by split]].
    pose proof (Hown _ _ Hin) as (_ & Hi & n & Hn & _).
    pose proof Hn as (a & p & Hv & _)%node_at_Some.
    rewrite getDeviceNodeLocked_vfs, Hv by done. simpl. eexists; split; [done|].
    destruct (update_node_sets m meta i a n (fun n => with_advertised n false)) as [_ Ho]; try done.
    split; simpl; [by apply update_node_ok|by apply NoDup_filter|].
    intros meta' j' [Hne Hin']%list_elem_of_filter. apply Hown in Hin' as (? & ? & ?).
    split_and!; [done|lia..|]. by rewrite Ho.
Qed.

Lemma run_ok es s : run_inv s -> Forall event_ok es -> exists s', run s es = Some s' /\ run_inv s'.
Proof.
  intros Hi Hes. revert s Hi. induction Hes as [|e es He _ IH]; intros s Hi; simpl; [eauto|].
  destruct (step_inv s e Hi He) as (s' & -> & Hi'). simpl. by apply IH.
Qed.
End master.

(** ** The table's promises *)

Definition topics_ok (topics : list orb_metadata) : Prop :=
  (forall m1 m2, topic_ok topics m1 -> topic_ok topics m2 -> m1.(o_name) = m2.(o_name) -> m1 = m2) /\
  (forall m, topic_ok topics m -> (String.length m.(o_name) <= 57)%nat).

(** [DeviceMaster::advertise] with an instance pointer hands out the lowest instance,
    from the requested one on, that may be claimed: a multi-instance advertiser never gets
    one that is advertised already. The entry is created or kept, an advertiser marks it
    advertised, no other topic or instance changes, and the table stays consistent (list,
    registered paths and existence bits agree). When all are taken the call returns
    -ENOMEM and changes nothing. *)
Theorem advertise_lowest_instance topics m meta is_advertiser k :
  topics_ok topics -> master_wf topics m -> topic_ok topics meta -> 0 <= k < 10 ->
  match List.find (fun j => claimable is_advertiser false (node_at m meta j)) (seqZ k (10 - k)) with
  | Some j =>
      exists m', advertise true m meta is_advertiser (Some k) = Some (PX4_OK, Some j, m') /\
        master_wf topics m' /\
        sets topics m m' meta j (claimed is_advertiser meta j (node_at m meta j))
  | None => advertise true m meta is_advertiser (Some k) = Some (- ENOMEM, Some 9, m)
  end.
Proof.
  intros [Hu Hs] Hwf Hm Hk. pose proof (advertise_ok topics Hu Hs is_advertiser m meta k Hwf Hm Hk) as H.
  unfold first_claimable in H. destruct (List.find _ _); [by destruct H|done].
Qed.


Lemma getDeviceNode_vfs topics m meta i :
  topics_ok topics -> master_wf topics m -> topic_ok topics meta -> 0 <= i < 256 ->
  getDeviceNode m (Some meta) i =
    Some (if i <? 10 then m.(vfs) !! path_of meta.(o_name) i else None).
Proof.
  intros [Hu Hs] Hwf Hm Hi. unfold getDeviceNode, deviceNodeExists, ORB_MULTI_MAX_INSTANCES.
  case_if; decide_if; [done|].
  destruct (zlookup_lt (_node_exists m) i) as [bits Hb]; [rewrite (wf_exists_len _ _ Hwf); lia|].
  destruct (wf_exists _ _ Hwf _ _ Hb) as [Hw Hbits]. pose proof (topic_id_range _ _ Hm) as Hid.
  rewrite Hb. cbn [mbind option_bind]. unfold AtomicBitset_get.
  rewrite (bitset_get_bit 32 ltac:(lia) _ _ _ Hw Hid). cbn [mbind option_bind].
  rewrite (getDeviceNodeLocked_vfs topics) by (done || lia).
  destruct (bit 32 bits (o_id meta)) eqn:Hbit; [done|]. simpl.
  destruct (vfs m !! _) as [a|] eqn:Hv; [|done]. exfalso.
  apply (wf_vfs _ _ Hwf) in Hv as [n Hn]. pose proof (wf_node _ _ Hwf _ _ _ Hn) as (Hp & Hr & Hm').
  apply path_of_inj in Hp as [En Ei]; [|lia..]. apply Hu in En; [|done..].
  assert (bit 32 bits (o_id meta) = true); [|congruence]. apply Hbits; [done|].
  do 3 eexists. split; [done|]. by rewrite <- En.
Qed.

(** The lock-free existence test and the lookup agree with the table: for every topic
    and instance [getDeviceNode] finds the node registered under the topic's path, and
    nothing when there is none; beyond the last instance it always finds nothing. *)
Theorem getDeviceNode_finds topics m meta i :
  topics_ok topics -> master_wf topics m -> topic_ok topics meta -> 0 <= i < 256 ->
  getDeviceNode m (Some meta) i =
    Some (if i <? 10 then m.(vfs) !! path_of meta.(o_name) i else None).
Proof. apply getDeviceNode_vfs. Qed.

Definition topics0 : list orb_metadata :=
  [mkMeta "sensor_gyro" 8 8 1 0 8; mkMeta "actuator_armed" 4 4 2 1 1].

Lemma topics0_ok : topics_ok topics0.
Proof.
  assert (forall m, topic_ok topics0 m -> m ∈ topics0) as H.
  { unfold topic_ok, zlookup. intros m Hm. case_if_in Hm; [|done]. by eapply list_elem_of_lookup_2. }
  split.
  - intros m1 m2 H1%H H2%H E. unfold topics0 in *. set_unfold. naive_solver.
  - intros m Hm%H. unfold topics0 in Hm. set_unfold. destruct Hm as [->|[->|[]]]; simpl; lia.
Qed.

Lemma advertise_lowest_instance_witness :
  exists m', advertise true (DeviceMaster_new 2) (mkMeta "sensor_gyro" 8 8 1 0 8) true (Some 0) =
    Some (PX4_OK, Some 0, m') /\ master_wf topics0 m' /\
    sets topics0 (DeviceMaster_new 2) m' (mkMeta "sensor_gyro" 8 8 1 0 8) 0
      (mark_as_advertised (DeviceNode_new (mkMeta "sensor_gyro" 8 8 1 0 8) 0)).
Proof.
  apply (advertise_lowest_instance topics0 (DeviceMaster_new 2) (mkMeta "sensor_gyro" 8 8 1 0 8) true 0);
    [apply topics0_ok|apply (DeviceMaster_new_wf topics0)|done|lia].
Defined.


Lemma getDeviceNode_finds_witness :
  getDeviceNode (DeviceMaster_new 2) (Some (mkMeta "actuator_armed" 4 4 2 1 1)) 3 = Some None.
Proof.
  apply (getDeviceNode_finds topics0 (DeviceMaster_new 2) (mkMeta "actuator_armed" 4 4 2 1 1) 3);
    [apply topics0_ok|apply (DeviceMaster_new_wf topics0)|done|lia].
Defined.
