(* ===== verification/UorbSubscription.v ===== *)
(** * uORB manager, subscriptions and publications

    Models platforms/common/uORB/uORBManager.cpp, Subscription.{hpp,cpp},
    SubscriptionInterval.{hpp,cpp}, SubscriptionCallback.{hpp,cpp}, Publication.cpp on
    top of the device master: how an application publishes to and reads from a topic.

    The manager and its device master exist. The system time a function reads is an
    argument. ORB_USE_PUBLISHER_RULES and CONFIG_ORB_COMMUNICATOR are off. [None] is
    undefined behaviour (a handle that is no node). *)
From stdpp Require Import base list gmap strings.
From Stdlib Require Import ZArith Lia String.
From S2P Require Import Prelude.
From S2P Require Import Containers.
From S2P Require Import UorbNode.
From S2P Require Import UorbMaster.
#[local] Open Scope Z_scope.

Definition ENOENT : Z := 2.

(** ** The manager's functions on node handles *)

Definition get_orb_meta (topics : list orb_metadata) (id : option Z) : option orb_metadata :=
  id ← id; zlookup topics id.

Definition Manager_is_advertised (m : DeviceMaster) (handle : Z) : option bool :=
  is_advertised <$> node_of m handle.

Definition Manager_updates_available (m : DeviceMaster) (handle : Z) (last_generation : Z) : option Z :=
  node ← node_of m handle;
  Some (if is_advertised node then updates_available node last_generation else 0).

Definition orb_device_node_exists (m : DeviceMaster) (id : option Z) (instance : Z) : option bool :=
  deviceNodeExists m id instance.

(** The node found, with its initial generation. *)
Definition orb_add_internal_subscriber (topics : list orb_metadata) (m : DeviceMaster) (id : option Z)
    (instance : Z) : option (option (Z * Z) * DeviceMaster) :=
  r ← getDeviceNode m (get_orb_meta topics id) instance;
  match r with
  | None => Some (None, m)
  | Some a =>
    let m := update_node m a add_internal_subscriber in
    node ← node_of m a;
    Some (Some (a, get_initial_generation node), m)
  end.

Definition orb_remove_internal_subscriber (m : DeviceMaster) (a : Z) : DeviceMaster :=
  update_node m a remove_internal_subscriber.

Definition orb_get_queue_size (m : DeviceMaster) (a : Z) : option Z := get_queue_size <$> node_of m a.

(** Whether data was copied, the destination, the new generation. *)
Definition orb_data_copy (m : DeviceMaster) (a : Z) (dst : option (list Z)) (generation : Z)
    (only_if_updated : bool) : option (bool * option (list Z) * Z) :=
  node ← node_of m a;
  if negb (is_advertised node) then Some (false, dst, generation)
  else if only_if_updated && (updates_available node generation =? 0) then Some (false, dst, generation)
  else copy node dst generation.

Definition orb_register_callback (m : DeviceMaster) (a : Z) (callback_sub : Z) : option (bool * DeviceMaster) :=
  node ← node_of m a;
  let '(ret, node) := register_callback node callback_sub in
  Some (ret, update_node m a (fun _ => node)).

Definition orb_unregister_callback (m : DeviceMaster) (a : Z) (callback_sub : Z) : DeviceMaster :=
  update_node m a (fun node => unregister_callback node callback_sub).

(** [uint8_t] result: -1 becomes 255. *)
Definition orb_get_instance (m : DeviceMaster) (handle : option Z) : option Z :=
  match handle with Some a => _instance <$> node_of m a | None => Some (u8 (-1)) end.

Definition orb_exists (m : DeviceMaster) (meta : option orb_metadata) (instance : Z) : option Z :=
  match meta with
  | None => Some PX4_ERROR
  | Some _ =>
    if (instance <? 0) || (ORB_MULTI_MAX_INSTANCES - 1 <? instance) then Some PX4_ERROR
    else
      r ← getDeviceNode m meta instance;
      match r with
      | None => Some PX4_ERROR
      | Some a => node ← node_of m a; Some (if is_advertised node then PX4_OK else PX4_ERROR)
      end
  end.

(** The result, [errno] when set, the callbacks called, the master. *)
Definition orb_publish (in_interrupt alloc_ok : bool) (m : DeviceMaster) (meta : option orb_metadata)
    (handle : option Z) (data : option (list Z)) : option (Z * option Z * list (Z * Z) * DeviceMaster) :=
  match handle with
  | None =>
    '(ret, errno, _, calls) ← publish in_interrupt alloc_ok meta None data;
    Some (ret, errno, calls, m)
  | Some a =>
    node ← node_of m a;
    '(ret, errno, node', calls) ← publish in_interrupt alloc_ok meta (Some node) data;
    Some (ret, errno, calls, match node' with Some node => update_node m a (fun _ => node) | None => m end)
  end.

Definition orb_unadvertise (m : DeviceMaster) (handle : option Z) : Z * DeviceMaster :=
  match handle with
  | None => (fst (unadvertise None), m)
  | Some a => (PX4_OK, update_node m a (fun node => with_advertised node false))
  end.

(** ** Subscription *)

Record Subscription := mkSub {
  _node : option Z;
  _last_generation : Z;
  _orb_id : option Z;
  sub_instance : Z;
}.

Section with_topics.
Context (topics : list orb_metadata).

Definition Subscription_subscribe (m : DeviceMaster) (s : Subscription)
  : option (bool * DeviceMaster * Subscription) :=
  match s.(_node) with
  | Some _ => Some (true, m, s)
  | None =>
    match s.(_orb_id) with
    | None => Some (false, m, s)
    | Some _ =>
      '(r, m) ← orb_add_internal_subscriber topics m s.(_orb_id) s.(sub_instance);
      match r with
      | Some (a, initial_generation) =>
          Some (true, m, mkSub (Some a) initial_generation s.(_orb_id) s.(sub_instance))
      | None => Some (false, m, s)
      end
    end
  end.

Definition Subscription_unsubscribe (m : DeviceMaster) (s : Subscription) : DeviceMaster * Subscription :=
  (match s.(_node) with Some a => orb_remove_internal_subscriber m a | None => m end,
   mkSub None 0 s.(_orb_id) s.(sub_instance)).

(** The constructor subscribes. *)
Definition Subscription_new (m : DeviceMaster) (id : option Z) (instance : Z)
  : option (DeviceMaster * Subscription) :=
  '(_, m, s) ← Subscription_subscribe m (mkSub None 0 id instance);
  Some (m, s).

(** [update] and [copy] differ in [only_if_updated]. *)
Definition Subscription_data_copy (only_if_updated : bool) (m : DeviceMaster) (s : Subscription)
    (dst : option (list Z)) : option (bool * option (list Z) * DeviceMaster * Subscription) :=
  '(ok, m, s) ← Subscription_subscribe m s;
  match ok, s.(_node) with
  | true, Some a =>
    '(ret, dst, gen) ← orb_data_copy m a dst s.(_last_generation) only_if_updated;
    Some (ret, dst, m, mkSub s.(_node) gen s.(_orb_id) s.(sub_instance))
  | true, None => None
  | false, _ => Some (false, dst, m, s)
  end.

Definition Subscription_update := Subscription_data_copy true.
Definition Subscription_copy := Subscription_data_copy false.

Definition Subscription_advertised (m : DeviceMaster) (s : Subscription)
  : option (bool * DeviceMaster * Subscription) :=
  '(ok, m, s) ← Subscription_subscribe m s;
  match ok, s.(_node) with
  | true, Some a => adv ← Manager_is_advertised m a; Some (adv, m, s)
  | true, None => None
  | false, _ => Some (false, m, s)
  end.

Definition Subscription_updated (m : DeviceMaster) (s : Subscription)
  : option (bool * DeviceMaster * Subscription) :=
  '(ok, m, s) ← Subscription_subscribe m s;
  match ok, s.(_node) with
  | true, Some a =>
    n ← Manager_updates_available m a s.(_last_generation);
    Some (negb (n =? 0), m, s)
  | true, None => None
  | false, _ => Some (false, m, s)
  end.

Definition Subscription_ChangeInstance (m : DeviceMaster) (s : Subscription) (instance : Z)
  : option (bool * DeviceMaster * Subscription) :=
  if negb (instance =? s.(sub_instance)) then
    e ← orb_device_node_exists m s.(_orb_id) instance;
    if e : bool then
      let '(m, s) := Subscription_unsubscribe m s in
      '(_, m, s) ← Subscription_subscribe m (mkSub s.(_node) s.(_last_generation) s.(_orb_id) instance);
      Some (true, m, s)
    else Some (false, m, s)
  else Some (true, m, s).

(** [operator=]: only the topic and the instance are taken over. *)
Definition Subscription_assign (m : DeviceMaster) (s other : Subscription) : DeviceMaster * Subscription :=
  let '(m, _) := Subscription_unsubscribe m s in
  (m, mkSub None 0 other.(_orb_id) other.(sub_instance)).

(** ** SubscriptionInterval *)

Record SubscriptionInterval := mkSubI {
  _subscription : Subscription;
  _last_update : Z;
  _interval_us : Z;
}.

(** [math::constrain(val, min, max)]. *)
Definition constrain (val mn mx : Z) : Z := if val <? mn then mn else if mx <? val then mx else val.

Definition SubscriptionInterval_updated (now : Z) (m : DeviceMaster) (s : SubscriptionInterval)
  : option (bool * DeviceMaster * SubscriptionInterval) :=
  '(adv, m, sub) ← Subscription_advertised m s.(_subscription);
  let s := mkSubI sub s.(_last_update) s.(_interval_us) in
  if adv && (s.(_interval_us) <=? hrt_elapsed_time now s.(_last_update)) then
    '(upd, m, sub) ← Subscription_updated m s.(_subscription);
    Some (upd, m, mkSubI sub s.(_last_update) s.(_interval_us))
  else Some (false, m, s).

Definition next_last_update (now last_update interval_us : Z) : Z :=
  if interval_us <? now
  then constrain (u64 (last_update + interval_us)) (now - interval_us) now
  else now.

Definition SubscriptionInterval_copy (now : Z) (m : DeviceMaster) (s : SubscriptionInterval)
    (dst : option (list Z)) : option (bool * option (list Z) * DeviceMaster * SubscriptionInterval) :=
  '(ok, dst, m, sub) ← Subscription_copy m s.(_subscription) dst;
  if ok : bool then
    Some (true, dst, m, mkSubI sub (next_last_update now s.(_last_update) s.(_interval_us)) s.(_interval_us))
  else Some (false, dst, m, mkSubI sub s.(_last_update) s.(_interval_us)).

(** [now1] and [now2] are the times read by the check and by the copy. *)
Definition SubscriptionInterval_update (now1 now2 : Z) (m : DeviceMaster) (s : SubscriptionInterval)
    (dst : option (list Z)) : option (bool * option (list Z) * DeviceMaster * SubscriptionInterval) :=
  '(upd, m, s) ← SubscriptionInterval_updated now1 m s;
  if upd : bool then SubscriptionInterval_copy now2 m s dst else Some (false, dst, m, s).

(** ** Opening a node by path *)

(** An open file: the node, and for a reader the subscription [f_priv] it owns. *)
Record file := mkFile { f_node : Z; f_priv : option SubscriptionInterval }.

(** [px4_open] of a registered path, through [DeviceNode::open]: a writer marks the node
    advertised, a reader subscribes. [None] in the result is [fd < 0]. *)
Definition px4_open (m : DeviceMaster) (path : string) (wronly : bool) : option (option file * DeviceMaster) :=
  match m.(vfs) !! path with
  | None => Some (None, m)
  | Some a =>
    if wronly then Some (Some (mkFile a None), update_node m a mark_as_advertised)
    else
      node ← node_of m a;
      '(m, sub) ← Subscription_new m (Some node.(_meta).(o_id)) node.(_instance);
      Some (Some (mkFile a (Some (mkSubI sub 0 0))), m)
  end.

(** [px4_close], through [DeviceNode::close]: a reader's subscription is deleted. *)
Definition px4_close (m : DeviceMaster) (fd : option file) : DeviceMaster :=
  match fd with
  | Some (mkFile _ (Some sd)) => fst (Subscription_unsubscribe m sd.(_subscription))
  | _ => m
  end.

(** [DeviceNode::read]: the bytes read or an error, and the destination. *)
Definition DeviceNode_read (m : DeviceMaster) (f : file) (now : Z) (buffer : list Z) (buflen : Z)
  : option (Z * list Z * DeviceMaster * file) :=
  node ← node_of m f.(f_node);
  if negb (buflen =? node.(_meta).(o_size)) then Some (- EIO, buffer, m, f)
  else
    sd ← f.(f_priv);
    '(ok, dst, m, sd) ← SubscriptionInterval_copy now m sd (Some buffer);
    Some (if ok : bool then node.(_meta).(o_size) else 0, default buffer dst, m, mkFile f.(f_node) (Some sd)).

(** [node_open]: the file, [*instance], [errno], the master. [errno] is the caller's
    value on entry: neither [node_mkpath] nor [advertise] writes it. *)
Definition node_open (new_ok : bool) (errno : Z) (m : DeviceMaster) (meta : option orb_metadata)
    (advertiser : bool) (instance : option Z) : option (option file * option Z * Z * DeviceMaster) :=
  match meta with
  | None => Some (None, instance, ENOENT, m)
  | Some meta =>
    let multi := match instance with Some _ => advertiser | None => false end in
    let '(mk, path) := node_mkpath meta.(o_name) (default 0 instance) in
    if negb multi && negb (mk =? PX4_OK) then Some (None, instance, - mk, m)
    else
      '(fd, errno, m) ←
        (if multi then Some (None, errno, m)
         else '(fd, m) ← px4_open m path advertiser;
              Some (fd, match fd with None => ENOENT | Some _ => errno end, m));
      let instance := if multi then Some 0 else instance in
      match fd with
      | Some f => Some (Some f, instance, errno, m)
      | None =>
        '(ret, instance, m) ← advertise new_ok m meta advertiser instance;
        let ret := if negb (ret =? PX4_OK) && (errno =? EEXIST) then PX4_OK else ret in
        if ret =? PX4_OK then
          let '(mk, path) := node_mkpath meta.(o_name) (default 0 instance) in
          if mk =? PX4_OK then
            '(fd, m) ← px4_open m path advertiser;
            Some (fd, instance, match fd with None => EIO | Some _ => errno end, m)
          else Some (None, instance, - mk, m)
        else Some (None, instance, EIO, m)
      end
  end.

(** [orb_advertise_multi(meta, data, instance)]: the advertiser's handle. The error message
    reads [meta->o_name], also for a null [meta]. *)
Definition orb_advertise_multi (new_ok alloc_ok : bool) (errno : Z) (m : DeviceMaster)
    (meta : option orb_metadata) (data : option (list Z)) (instance : option Z)
  : option (option Z * option Z * DeviceMaster) :=
  '(fd, instance, _, m) ← node_open new_ok errno m meta true instance;
  match fd with
  | None => _ ← meta; Some (None, instance, m)
  | Some f =>
    let advertiser := f.(f_node) in
    let m := px4_close m fd in
    match data with
    | None => Some (Some advertiser, instance, m)
    | Some _ =>
      '(result, _, _, m) ← orb_publish false alloc_ok m meta (Some advertiser) data;
      Some (if result =? PX4_ERROR then None else Some advertiser, instance, m)
    end
  end.

Definition orb_subscribe_multi (new_ok : bool) (errno : Z) (m : DeviceMaster) (meta : option orb_metadata)
    (instance : Z) : option (option file * DeviceMaster) :=
  '(fd, _, _, m) ← node_open new_ok errno m meta false (Some instance);
  Some (fd, m).

(** ** SubscriptionCallback *)

Record SubscriptionCallback := mkSubCb {
  cb_this : Z;
  cb_sub : SubscriptionInterval;
  _registered : bool;
  _last_scheduled_generation : Z;
  _required_updates : Z;
}.

Definition with_cb (c : SubscriptionCallback) (sub : Subscription) (registered : bool) : SubscriptionCallback :=
  mkSubCb c.(cb_this) (mkSubI sub c.(cb_sub).(_last_update) c.(cb_sub).(_interval_us)) registered
    c.(_last_scheduled_generation) c.(_required_updates).

(** [get_node() && Manager::register_callback(get_node(), this)]. *)
Definition try_register (m : DeviceMaster) (sub : Subscription) (this : Z) : option (bool * DeviceMaster) :=
  match sub.(_node) with
  | None => Some (false, m)
  | Some a => orb_register_callback m a this
  end.

Definition registerCallback (new_ok : bool) (errno : Z) (m : DeviceMaster) (c : SubscriptionCallback)
  : option (bool * DeviceMaster * SubscriptionCallback) :=
  if c.(_registered) then Some (true, m, c)
  else
    let sub := c.(cb_sub).(_subscription) in
    '(ok, m) ← try_register m sub c.(cb_this);
    if ok : bool then Some (true, m, with_cb c sub true)
    else
      '(fd, m) ← orb_subscribe_multi new_ok errno m (get_orb_meta topics sub.(_orb_id)) sub.(sub_instance);
      '(ok, m, sub) ← Subscription_subscribe m sub;
      '(ok, m) ← (if ok : bool then try_register m sub c.(cb_this) else Some (false, m));
      let m := px4_close m fd in
      Some (ok, m, with_cb c sub ok).

Definition unregisterCallback (m : DeviceMaster) (c : SubscriptionCallback)
  : DeviceMaster * SubscriptionCallback :=
  let sub := c.(cb_sub).(_subscription) in
  (match sub.(_node) with Some a => orb_unregister_callback m a c.(cb_this) | None => m end,
   with_cb c sub false).

Definition SubscriptionCallback_ChangeInstance (new_ok : bool) (errno : Z) (m : DeviceMaster)
    (c : SubscriptionCallback) (instance : Z) : option (bool * DeviceMaster * SubscriptionCallback) :=
  if negb (instance =? c.(cb_sub).(_subscription).(sub_instance)) then
    let registered := c.(_registered) in
    let '(m, c) := if registered then unregisterCallback m c else (m, c) in
    '(ret, m, sub) ← Subscription_ChangeInstance m c.(cb_sub).(_subscription) instance;
    let c := with_cb c sub c.(_registered) in
    if registered then
      '(_, m, c) ← registerCallback new_ok errno m c;
      Some (ret, m, c)
    else Some (ret, m, c)
  else Some (true, m, c).

(** [SubscriptionCallbackWorkItem::call(generation)] at time [now]: whether the work item
    is scheduled. *)
Definition WorkItem_call (now : Z) (c : SubscriptionCallback) (generation : Z) : bool * SubscriptionCallback :=
  let req := c.(_required_updates) in
  if req <=? u32 (generation - c.(_last_scheduled_generation)) then
    let s := c.(cb_sub) in
    if (s.(_interval_us) =? 0) || (s.(_interval_us) <=? hrt_elapsed_time now s.(_last_update)) then
      (true, mkSubCb c.(cb_this) s c.(_registered) generation req)
    else (false, c)
  else (false, c).

(** ** Publications *)

Record PublicationBase := mkPub { _handle : option Z; pub_orb_id : option Z }.

Definition advertised (p : PublicationBase) : bool := match p.(_handle) with Some _ => true | None => false end.

(** [multi] selects [PublicationMultiBase::advertise]. *)
Definition Publication_advertise (multi new_ok : bool) (errno : Z) (m : DeviceMaster) (p : PublicationBase)
  : option (bool * DeviceMaster * PublicationBase) :=
  if advertised p then Some (true, m, p)
  else
    '(h, _, m) ← orb_advertise_multi new_ok true errno m (get_orb_meta topics p.(pub_orb_id)) None
                  (if multi then Some 0 else None);
    let p := mkPub h p.(pub_orb_id) in
    Some (advertised p, m, p).

Definition Publication_publish (multi new_ok in_interrupt alloc_ok : bool) (errno : Z) (m : DeviceMaster)
    (p : PublicationBase) (data : option (list Z))
  : option (bool * list (Z * Z) * DeviceMaster * PublicationBase) :=
  '(_, m, p) ← (if advertised p then Some (true, m, p) else Publication_advertise multi new_ok errno m p);
  '(ret, _, calls, m) ←
    orb_publish in_interrupt alloc_ok m (get_orb_meta topics p.(pub_orb_id)) p.(_handle) data;
  Some (ret =? PX4_OK, calls, m, p).

Definition Publication_unadvertise (m : DeviceMaster) (p : PublicationBase) : bool * DeviceMaster :=
  let '(ret, m) := orb_unadvertise m p.(_handle) in (ret =? PX4_OK, m).

(** [~PublicationBase]. *)
Definition Publication_delete (m : DeviceMaster) (p : PublicationBase) : option DeviceMaster :=
  match p.(_handle) with
  | None => Some m
  | Some a =>
    q ← orb_get_queue_size m a;
    Some (if q =? 1 then snd (Publication_unadvertise m p) else m)
  end.

(** [PublicationMultiBase::get_instance]. *)
Definition Publication_get_instance (new_ok : bool) (errno : Z) (m : DeviceMaster) (p : PublicationBase)
  : option (Z * DeviceMaster * PublicationBase) :=
  '(ok, m, p) ← Publication_advertise true new_ok errno m p;
  if ok : bool then i ← orb_get_instance m p.(_handle); Some (i, m, p) else Some (-1, m, p).

(** ** A publisher and a subscriber of one topic instance

    [Publish] is one publication on the handle [a]; the other events are calls of the
    subscriber with a buffer [dst]. *)
Inductive event :=
  | Publish (data : list Z)
  | Updated
  | Update (dst : list Z)
  | Copy (dst : list Z).

Definition step (a : Z) (meta : orb_metadata) (m : DeviceMaster) (s : Subscription) (e : event)
  : option ((bool * option (list Z)) * DeviceMaster * Subscription) :=
  match e with
  | Publish data =>
    '(ret, _, _, m) ← orb_publish false true m (Some meta) (Some a) (Some data);
    Some ((ret =? PX4_OK, None), m, s)
  | Updated => '(b, m, s) ← Subscription_updated m s; Some ((b, None), m, s)
  | Update dst => '(b, dst, m, s) ← Subscription_update m s (Some dst); Some ((b, dst), m, s)
  | Copy dst => '(b, dst, m, s) ← Subscription_copy m s (Some dst); Some ((b, dst), m, s)
  end.

Fixpoint run (a : Z) (meta : orb_metadata) (m : DeviceMaster) (s : Subscription) (es : list event)
  : option (list (bool * option (list Z)) * DeviceMaster * Subscription) :=
  match es with
  | [] => Some ([], m, s)
  | e :: es =>
    '(o, m, s) ← step a meta m s e;
    '(os, m, s) ← run a meta m s es;
    Some (o :: os, m, s)
  end.
End with_topics.

(** The contract: a topic is the list [h] of everything published, of which the last [q]
    can be read; a subscriber is a position [g] in it. *)
Definition deliver (q : Z) (h : list (list Z)) (g : Z) (dst : list Z) : (bool * option (list Z)) * Z :=
  let i := read_index q (zlen h) g in
  match zlookup h i with
  | Some m => ((true, Some (splice 0 m dst)), i + 1)
  | None => ((false, Some dst), g)
  end.

Definition spec_step (q : Z) (h : list (list Z)) (g : Z) (e : event) : (bool * option (list Z)) * list (list Z) * Z :=
  match e with
  | Publish data => ((true, None), h ++ [data], g)
  | Updated => ((g <? zlen h, None), h, g)
  | Update dst =>
    if g <? zlen h then let '(o, g) := deliver q h g dst in (o, h, g) else ((false, Some dst), h, g)
  | Copy dst => let '(o, g) := deliver q h g dst in (o, h, g)
  end.

Fixpoint spec_run (q : Z) (h : list (list Z)) (g : Z) (es : list event)
  : list (bool * option (list Z)) * list (list Z) * Z :=
  match es with
  | [] => ([], h, g)
  | e :: es =>
    let '(o, h, g) := spec_step q h g e in
    let '(os, h, g) := spec_run q h g es in
    (o :: os, h, g)
  end.

(** ** Invariant of a live subscription *)

Record subscribed (m : DeviceMaster) (s : Subscription) (a : Z) (meta : orb_metadata) (h : list (list Z)) (g : Z)
  : Prop := {
  sub_node : s.(_node) = Some a;
  sub_gen : s.(_last_generation) = u32 g;
  sub_pos : 0 <= g <= zlen h;
  sub_holds : exists node, node_of m a = Some node /\ node.(_meta) = meta /\ holds node h /\
    is_advertised node = true /\ (node.(_data) = None \/ 0 < zlen h);
}.

Lemma node_of_update m a n f : node_of m a = Some n -> node_of (update_node m a f) a = Some (f n).
Proof.
  unfold node_of, update_node. simpl. rewrite lookup_alter_eq.
  destruct (nodes m !! a) as [[? ?]|]; simpl; naive_solver.
Qed.

Lemma updates_available_lag node h g :
  holds node h -> 0 <= g <= zlen h -> zlen h - g < 2 ^ 32 ->
  updates_available node (u32 g) = zlen h - g.
Proof.
  intros Hh Hg Hlag. unfold updates_available. rewrite (holds_gen _ _ Hh).
  rewrite uwrap_sub_l, uwrap_sub_r by lia. apply uwrap_small. lia.
Qed.

Definition event_ok (size : Z) (e : event) : Prop :=
  match e with
  | Publish data => zlen data = size
  | Updated => True
  | Update dst | Copy dst => size <= zlen dst
  end.

Lemma publish_step topics a meta m s h g data :
  subscribed m s a meta h g -> seq_ok meta.(o_queue) (zlen h + 1) -> zlen data = meta.(o_size) ->
  exists m', step topics a meta m s (Publish data) = Some ((true, None), m', s) /\
    subscribed m' s a meta (h ++ [data]) g.
Proof.
  intros [Hn Hg Hp (node & Hnode & Em & Hh & Ha & Hd)] Hseq Hdata. subst meta.
  destruct (write_ok false true node h data Hh Hdata Hseq) as (node' & calls & Hw & Hh' & Em' & _ & _ & Ea & _);
    [by right|].
  simpl. unfold orb_publish. rewrite Hnode. cbn [mbind option_bind]. unfold publish.
  rewrite Z.eqb_refl. cbn [negb]. rewrite Hw. cbn [mbind option_bind].
  pose proof (holds_size _ _ Hh). decide_if. rewrite Z.eqb_refl. cbn.
  eexists; split; [done|]. split; [done..| |].
  - rewrite zlen_app. pose proof (zlen_nonneg [data]). lia.
  - exists node'. rewrite (node_of_update _ _ _ _ Hnode). split_and!; try done.
    + unfold is_advertised in *. by rewrite Ea.
    + right. rewrite zlen_app. change (zlen [data]) with 1. pose proof (zlen_nonneg h). lia.
Qed.

Lemma subscribe_subscribed topics m s a meta h g :
  subscribed m s a meta h g -> Subscription_subscribe topics m s = Some (true, m, s).
Proof. intros [Hn _ _ _]. unfold Subscription_subscribe. by rewrite Hn. Qed.

Lemma updated_step topics a meta m s h g :
  subscribed m s a meta h g -> zlen h - g < 2 ^ 32 ->
  step topics a meta m s Updated = Some ((g <? zlen h, None), m, s).
Proof.
  intros Hs Hlag. pose proof (subscribe_subscribed topics _ _ _ _ _ _ Hs) as Hsub.
  destruct Hs as [Hn Hg Hp (node & Hnode & Em & Hh & Ha & Hd)].
  simpl. unfold Subscription_updated. rewrite Hsub. cbn [mbind option_bind]. rewrite Hn.
  unfold Manager_updates_available. rewrite Hnode. cbn [mbind option_bind]. rewrite Ha, Hg.
  rewrite (updates_available_lag _ h) by done. do 4 f_equal. lia.
Qed.

(** Reading at position [g]. *)
Lemma copy_deliver node h g dst :
  holds node h -> node.(_data) = None \/ 0 < zlen h -> seq_ok node.(_meta).(o_queue) (zlen h) ->
  0 <= g <= zlen h -> zlen h - g < 2 ^ 32 -> node.(_meta).(o_size) <= zlen dst ->
  exists b dst' g', deliver node.(_meta).(o_queue) h g dst = ((b, dst'), g') /\ g <= g' <= zlen h /\
    copy node (Some dst) (u32 g) = Some (b, dst', u32 g').
Proof.
  intros Hh Hd Hseq Hg Hlag Hdst. unfold deliver.
  destruct (Z.eq_dec (zlen h) 0) as [E|Hne].
  - destruct Hd as [Hd|]; [|lia]. rewrite E. unfold zlookup, read_index.
    pose proof (holds_queue _ _ Hh). decide_if. do 3 eexists; split; [done|]. split; [lia|].
    unfold copy. by rewrite Hd.
  - pose proof (zlen_nonneg h).
    destruct (copy_ok node h g dst) as (msg & Hm & Hc); try done; try lia. rewrite Hm.
    do 3 eexists; split; [done|]. split; [|done]. pose proof (holds_queue _ _ Hh).
    apply zlookup_Some_lt in Hm. unfold read_index in *. lia.
Qed.

Lemma read_step topics only a meta m s h g dst :
  subscribed m s a meta h g -> seq_ok meta.(o_queue) (zlen h) -> zlen h - g < 2 ^ 32 ->
  meta.(o_size) <= zlen dst ->
  exists b dst' g' s',
    (if only && negb (g <? zlen h) then ((false, Some dst), g) else deliver meta.(o_queue) h g dst) = ((b, dst'), g') /\
    g <= g' /\ subscribed m s' a meta h g' /\
    Subscription_data_copy topics only m s (Some dst) = Some (b, dst', m, s').
Proof.
  intros Hs Hseq Hlag Hdst. pose proof (subscribe_subscribed topics _ _ _ _ _ _ Hs) as Hsub.
  destruct Hs as [Hn Hg Hp (node & Hnode & <- & Hh & Ha & Hd)].
  unfold Subscription_data_copy. rewrite Hsub. cbn [mbind option_bind]. rewrite Hn.
  unfold orb_data_copy. rewrite Hnode. cbn [mbind option_bind]. rewrite Ha, Hg. cbn [negb].
  rewrite (updates_available_lag _ h) by done.
  replace (zlen h - g =? 0) with (negb (g <? zlen h)) by lia.
  destruct (only && negb (g <? zlen h)).
  - do 4 eexists; split; [done|]. split; [lia|]. split; [|done]. split; simpl; eauto 10.
  - destruct (copy_deliver node h g dst) as (b & dst' & g' & -> & Hg' & ->); try done.
    do 4 eexists; split; [done|]. split; [lia|]. split; [|done]. split; simpl; eauto 10. lia.
Qed.

Lemma sub_step_refines topics a meta m s h g e :
  subscribed m s a meta h g -> seq_ok meta.(o_queue) (zlen h + 1) -> zlen h - g < 2 ^ 32 ->
  event_ok meta.(o_size) e ->
  exists o h' g' m' s', spec_step meta.(o_queue) h g e = (o, h', g') /\
    step topics a meta m s e = Some (o, m', s') /\ subscribed m' s' a meta h' g' /\
    zlen h <= zlen h' <= zlen h + 1 /\ zlen h' - g' <= zlen h - g + 1.
Proof.
  intros Hs Hseq Hlag He.
  assert (seq_ok meta.(o_queue) (zlen h)) by (destruct Hseq; [by left|right; lia]).
  destruct e as [data| |dst|dst]; simpl in He.
  - destruct (publish_step topics a meta m s h g data) as (m' & Hst & Hs'); try done.
    do 5 eexists; split; [done|]. split; [done|]. split; [done|].
    rewrite zlen_app. change (zlen [data]) with 1. lia.
  - do 5 eexists; split; [done|]. split; [by apply updated_step|]. split; [done|]. lia.
  - destruct (read_step topics true a meta m s h g dst) as (b & dst' & g' & s' & E & Hg' & Hs' & Hc); try done.
    simpl in E. exists (b, dst'), h, g', m, s'. split_and!; try done; try lia.
    + simpl. destruct (g <? zlen h); simpl in E; [by rewrite E|by simplify_eq].
    + simpl. unfold Subscription_update. by rewrite Hc.
  - destruct (read_step topics false a meta m s h g dst) as (b & dst' & g' & s' & E & Hg' & Hs' & Hc); try done.
    simpl in E. exists (b, dst'), h, g', m, s'. split_and!; try done; try lia.
    + simpl. by rewrite E.
    + simpl. unfold Subscription_copy. by rewrite Hc.
Qed.

Lemma sub_run_refines topics a meta es : forall m s h g,
  subscribed m s a meta h g -> seq_ok meta.(o_queue) (zlen h + zlen es) -> zlen h - g + zlen es < 2 ^ 32 ->
  Forall (event_ok meta.(o_size)) es ->
  exists os h' g' m' s', spec_run meta.(o_queue) h g es = (os, h', g') /\
    run topics a meta m s es = Some (os, m', s') /\ subscribed m' s' a meta h' g'.
Proof.
  induction es as [|e es IH]; intros m s h g Hs Hseq Hlag Hes; [by do 5 eexists|].
  apply Forall_cons in Hes as [He Hes]. pose proof (zlen_nonneg es).
  rewrite zlen_cons in Hseq, Hlag.
  destruct (sub_step_refines topics a meta m s h g e) as (o & h' & g' & m' & s' & E & Hst & Hs' & Hlen & Hlag'); try done.
  { destruct Hseq; [by left|right; lia]. }
  { lia. }
  destruct (IH m' s' h' g') as (os & h2 & g2 & m2 & s2 & E2 & Hr & Hs2); try done.
  { destruct Hseq; [by left|right; lia]. }
  { lia. }
  exists (o :: os), h2, g2, m2, s2. cbn [spec_run run]. rewrite E, Hst. cbn [mbind option_bind].
  rewrite E2, Hr. by split_and!.
Qed.

(** ** Reading without loss *)

Definition published (es : list event) : list (list Z) :=
  omap (fun e => match e with Publish d => Some d | _ => None end) es.

(** The messages the successful [update] calls returned. *)
Definition received (es : list event) (os : list (bool * option (list Z))) : list (list Z) :=
  omap (fun eo => match eo with (Update _, (true, Some d)) => Some d | _ => None end) (zip es os).

(** Every [update] comes when at most [q] messages are unread. *)
Fixpoint keeps_up (q lag : Z) (es : list event) : bool :=
  match es with
  | [] => true
  | Publish _ :: es => keeps_up q (lag + 1) es
  | Updated :: es => keeps_up q lag es
  | Update _ :: es => (lag <=? q) && keeps_up q (Z.max 0 (lag - 1)) es
  | Copy _ :: _ => false
  end.

Lemma slice_cons_lookup (l : list (list Z)) g n m :
  zlookup l g = Some m -> 0 < n -> slice g n l = m :: slice (g + 1) (n - 1) l.
Proof.
  unfold zlookup, slice. intros Hm Hn. case_if_in Hm; [|done].
  replace (Z.to_nat n) with (S (Z.to_nat (n - 1))) by lia.
  replace (Z.to_nat (g + 1)) with (S (Z.to_nat g)) by lia.
  by rewrite (drop_S _ _ _ Hm).
Qed.

Lemma spec_lossless q size es : forall h g,
  0 < q -> 0 <= g <= zlen h -> Forall (fun m => zlen m = size) h ->
  Forall (fun e => match e with Publish d | Update d | Copy d => zlen d = size | Updated => True end) es ->
  keeps_up q (zlen h - g) es = true ->
  exists os g', spec_run q h g es = (os, h ++ published es, g') /\ g <= g' <= zlen (h ++ published es) /\
    received es os = slice g (g' - g) (h ++ published es).
Proof.
  induction es as [|e es IH]; intros h g Hq Hg Hh Hes Hk.
  - exists [], g. simpl. rewrite app_nil_r, Z.sub_diag. split_and!; [done|lia..|]. by rewrite slice_0.
  - apply Forall_cons in Hes as [He Hes]. destruct e as [d| |d|d]; simpl in Hk; [..|done].
    + destruct (IH (h ++ [d]) g) as (os & g' & E & Hg' & Hr); try done.
      { rewrite zlen_app. change (zlen [d]) with 1. lia. }
      { apply Forall_app_2; [done|]. by repeat constructor. }
      { rewrite zlen_app. change (zlen [d]) with 1. by replace (zlen h + 1 - g) with (zlen h - g + 1) by lia. }
      exists ((true, None) :: os), g'. simpl. rewrite E. simpl.
      change (published (Publish d :: es)) with ([d] ++ published es). rewrite <- app_assoc in *. done.
    + destruct (IH h g) as (os & g' & E & Hg' & Hr); try done.
      exists ((g <? zlen h, None) :: os), g'. simpl. rewrite E. split; [done|]. split; [done|].
      rewrite <- Hr. unfold received. simpl. by destruct (g <? zlen h).
    + apply andb_prop in Hk as [Hlag Hk]. simpl. case_if.
      * unfold deliver.
        assert (read_index q (zlen h) g = g) as -> by (unfold read_index; lia).
        destruct (zlookup_lt h g) as [m Hm]; [lia|]. rewrite Hm.
        destruct (IH h (g + 1)) as (os & g' & E & Hg' & Hr); try done; try lia.
        { by replace (zlen h - (g + 1)) with (Z.max 0 (zlen h - g - 1)) by lia. }
        exists ((true, Some m) :: os), g'. rewrite E.
        assert (splice 0 m d = m) as ->.
        { apply splice_all. unfold zlookup in Hm. case_if_in Hm; [|done].
          eapply Forall_lookup_1 in Hh; [|done]. lia. }
        split; [done|]. split; [change (published (Update d :: es)) with (published es); lia|].
        change (published (Update d :: es)) with (published es).
        rewrite (slice_cons_lookup _ _ _ m), Z.sub_1_r; try lia.
        -- rewrite <- Z.sub_1_r. replace (g' - g - 1) with (g' - (g + 1)) by lia. rewrite <- Hr. done.
        -- unfold zlookup in *. case_if_in Hm; [|done]. by apply lookup_app_l_Some.
      * destruct (IH h g) as (os & g' & E & Hg' & Hr); try done.
        { by replace (zlen h - g) with (Z.max 0 (zlen h - g - 1)) by lia. }
        exists ((false, Some d) :: os), g'. rewrite E. done.
Qed.

(** A node that can be read: advertised, holding [h], and allocated only by a publication. *)
Definition readable (m : DeviceMaster) (a : Z) (meta : orb_metadata) (h : list (list Z)) : Prop :=
  exists node, node_of m a = Some node /\ node.(_meta) = meta /\ holds node h /\
    is_advertised node = true /\ (node.(_data) = None \/ 0 < zlen h).

(** Subscribing starts at the last message published, when there is one. *)
Lemma Subscription_new_ok topics m meta i a h :
  topics_ok topics -> master_wf topics m -> topic_ok topics meta -> 0 <= i < 10 ->
  m.(vfs) !! path_of meta.(o_name) i = Some a -> readable m a meta h ->
  exists m' s, Subscription_new topics m (Some meta.(o_id)) i = Some (m', s) /\
    subscribed m' s a meta h (Z.max 0 (zlen h - 1)).
Proof.
  intros Ht Hwf Hm Hi Hv (node & Hnode & Em & Hh & Ha & Hd).
  unfold Subscription_new, Subscription_subscribe, orb_add_internal_subscriber. cbn [_node _orb_id sub_instance].
  unfold get_orb_meta. cbn [mbind option_bind]. unfold topic_ok in Hm. rewrite Hm.
  rewrite (getDeviceNode_vfs topics) by (done || lia). decide_if. rewrite Hv. cbn [mbind option_bind].
  rewrite (node_of_update _ _ _ _ Hnode). cbn [mbind option_bind].
  do 2 eexists; split; [done|]. pose proof (zlen_nonneg h). split; simpl; [done| |lia|].
  - unfold get_initial_generation. simpl. rewrite (holds_gen _ _ Hh), (holds_valid _ _ Hh).
    rewrite uwrap_sub_l by lia. f_equal. case_if; lia.
  - eexists. rewrite (node_of_update _ _ _ _ Hnode). split_and!; [done..| |done|done].
    by destruct Hh; constructor.
Qed.

(** ** The interval *)

(** The times of the successful [update] calls advance [_last_update] by the interval. *)
Lemma next_last_update_ok now last interval :
  0 <= interval -> 0 <= last -> last + interval <= now < 2 ^ 64 ->
  last + interval <= next_last_update now last interval <= now /\
  now - interval <= next_last_update now last interval.
Proof.
  intros Hi Hl Hn. unfold next_last_update, constrain. rewrite uwrap_small by lia.
  repeat case_if; lia.
Qed.

(** A publisher and a subscription with an interval: an [IUpdate] reads the times
    [now1 <= now2]. The run counts the successful updates. *)
Inductive ievent :=
  | IPublish (data : list Z)
  | IUpdate (now1 now2 : Z) (dst : list Z).

Fixpoint interval_run (topics : list orb_metadata) (a : Z) (meta : orb_metadata) (m : DeviceMaster)
    (s : SubscriptionInterval) (es : list ievent) : option (Z * DeviceMaster * SubscriptionInterval) :=
  match es with
  | [] => Some (0, m, s)
  | IPublish data :: es =>
    '(_, _, _, m) ← orb_publish false true m (Some meta) (Some a) (Some data);
    interval_run topics a meta m s es
  | IUpdate now1 now2 dst :: es =>
    '(ok, _, m, s) ← SubscriptionInterval_update topics now1 now2 m s (Some dst);
    '(k, m, s) ← interval_run topics a meta m s es;
    Some (b2z ok + k, m, s)
  end.

(** Buffers fit and the times are read in order, from [t] on. *)
Fixpoint ievents_ok (size t : Z) (es : list ievent) : Prop :=
  match es with
  | [] => True
  | IPublish data :: es => zlen data = size /\ ievents_ok size t es
  | IUpdate now1 now2 dst :: es =>
      size <= zlen dst /\ t <= now1 <= now2 /\ now2 < 2 ^ 64 /\ ievents_ok size now2 es
  end.

Fixpoint last_time (t : Z) (es : list ievent) : Z :=
  match es with
  | [] => t
  | IPublish _ :: es => last_time t es
  | IUpdate _ now2 _ :: es => last_time now2 es
  end.

(** [update] succeeds exactly when the interval has passed and there is a message. *)
Lemma interval_update_ok topics a meta m s h g now1 now2 dst :
  subscribed m s.(_subscription) a meta h g -> seq_ok meta.(o_queue) (zlen h) -> zlen h - g < 2 ^ 32 ->
  meta.(o_size) <= zlen dst -> 0 <= s.(_last_update) <= now1 -> now1 < 2 ^ 64 ->
  let due := (s.(_interval_us) <=? now1 - s.(_last_update)) && (g <? zlen h) in
  exists dst' s' g', SubscriptionInterval_update topics now1 now2 m s (Some dst) = Some (due, dst', m, s') /\
    subscribed m s'.(_subscription) a meta h g' /\ g <= g' /\ s'.(_interval_us) = s.(_interval_us) /\
    s'.(_last_update) = if due then next_last_update now2 s.(_last_update) s.(_interval_us) else s.(_last_update).
Proof.
  intros Hs Hseq Hlag Hdst Hl Hn due.
  pose proof (subscribe_subscribed topics _ _ _ _ _ _ Hs) as Hsub.
  pose proof (updated_step topics _ _ _ _ _ _ Hs Hlag) as Hupd. simpl in Hupd.
  destruct (Subscription_updated _ _ _) as [[[u mu] su]|] eqn:Hu; simpl in Hupd; [|done]. simplify_eq.
  assert (Subscription_advertised topics m (_subscription s) = Some (true, m, _subscription s)) as Hadv.
  { unfold Subscription_advertised. rewrite Hsub. cbn [mbind option_bind].
    destruct Hs as [-> _ _ (node & Hnode & _ & _ & Ha & _)]. unfold Manager_is_advertised.
    rewrite Hnode. simpl. by rewrite Ha. }
  unfold SubscriptionInterval_update, SubscriptionInterval_updated. rewrite Hadv. cbn [mbind option_bind _interval_us _last_update _subscription andb].
  replace (hrt_elapsed_time now1 (_last_update s)) with (now1 - _last_update s)
    by (unfold hrt_elapsed_time; case_if; lia).
  destruct (_interval_us s <=? now1 - _last_update s) eqn:Hi; simpl in due; subst due.
  2: { cbn. exists (Some dst), (mkSubI (_subscription s) (_last_update s) (_interval_us s)), g. by split_and!. }
  rewrite Hu. cbn [mbind option_bind _interval_us _last_update _subscription].
  destruct (g <? zlen h) eqn:Hg.
  2: { exists (Some dst), (mkSubI (_subscription s) (_last_update s) (_interval_us s)), g. by split_and!. }
  unfold SubscriptionInterval_copy. cbn [_interval_us _last_update _subscription].
  destruct (read_step topics false a meta m (_subscription s) h g dst) as (b & dst' & g' & s' & E & Hg' & Hs' & Hc); try done.
  unfold Subscription_copy. rewrite Hc. cbn [mbind option_bind].
  destruct Hs as [_ _ Hp (node & _ & Em & Hh & _)]. pose proof (holds_queue _ _ Hh) as Hq. rewrite Em in Hq.
  assert (b = true) as ->.
  { simpl in E. unfold deliver in E.
    destruct (zlookup_lt h (read_index (o_queue meta) (zlen h) g)) as [x Hx]; [unfold read_index; lia|].
    rewrite Hx in E. naive_solver. }
  do 3 eexists; split; [done|]. by split_and!.
Qed.

Lemma interval_run_ok topics a meta es : forall m s t h g,
  subscribed m s.(_subscription) a meta h g -> seq_ok meta.(o_queue) (zlen h + zlen es) ->
  zlen h - g + zlen es < 2 ^ 32 ->
  0 <= s.(_interval_us) -> 0 <= s.(_last_update) <= t -> ievents_ok meta.(o_size) t es ->
  exists k m' s', interval_run topics a meta m s es = Some (k, m', s') /\
    s'.(_interval_us) = s.(_interval_us) /\
    s.(_last_update) + k * s.(_interval_us) <= s'.(_last_update) <= last_time t es.
Proof.
  induction es as [|e es IH]; intros m s t h g Hs Hseq Hlag Hi Hl He.
  { exists 0, m, s. simpl. split_and!; [done|done|lia|lia]. }
  rewrite zlen_cons in Hseq, Hlag. pose proof (zlen_nonneg es).
  assert (seq_ok meta.(o_queue) (zlen h + 1)) by (destruct Hseq; [by left|right; lia]).
  assert (seq_ok meta.(o_queue) (zlen h)) by (destruct Hseq; [by left|right; lia]).
  destruct e as [data|now1 now2 dst]; simpl in He.
  - destruct He as [Hd He].
    destruct (publish_step topics a meta m _ h g data Hs) as (m' & Hst & Hs'); try done. cbn [step] in Hst.
    cbn [interval_run last_time]. destruct (orb_publish false true m _ _ _) as [[[[r e'] c] m1]|]; simpl in Hst; [|done]. simplify_eq.
    simpl. apply (IH m' s t (h ++ [data]) g); try done; rewrite zlen_app; change (zlen [data]) with 1.
    + by replace (zlen h + 1 + zlen es) with (zlen h + (1 + zlen es)) by lia.
    + lia.
  - destruct He as (Hdst & Ht & Hn & He).
    destruct (interval_update_ok topics a meta m s h g now1 now2 dst) as (d & s1 & g1 & E & Hs1 & Hg1 & Ei & El);
      try done; try lia.
    simpl. rewrite E. cbn [mbind option_bind].
    set (due := (_interval_us s <=? now1 - _last_update s) && (g <? zlen h)) in *.
    assert (_last_update s + b2z due * _interval_us s <= _last_update s1 <= now2) as Hb.
    { rewrite El. destruct due eqn:Hdue; simpl; [|lia].
      apply andb_prop in Hdue as [Hdue _].
      destruct (next_last_update_ok now2 (_last_update s) (_interval_us s)); lia. }
    assert (0 <= b2z due * _interval_us s) by (unfold b2z; destruct due; lia).
    destruct (IH m s1 now2 h g1) as (k & m' & s' & -> & Ei' & Hk); try done; try lia.
    { destruct Hseq; [by left|right; lia]. }
    exists (b2z due + k), m', s'. rewrite Ei in *. split_and!; [done|done|lia|lia].
Qed.

(** ** The count gate of a callback *)

(** The node calls back with generations [g + 1], [g + 2], ... at the given times. *)
Fixpoint callback_run (c : SubscriptionCallback) (g : Z) (nows : list Z) : list bool * SubscriptionCallback :=
  match nows with
  | [] => ([], c)
  | now :: nows =>
    let '(b, c) := WorkItem_call now c (u32 (g + 1)) in
    let '(bs, c) := callback_run c (g + 1) nows in
    (b :: bs, c)
  end.

Lemma callback_run_ok nows : forall c g j i,
  c.(cb_sub).(_interval_us) = 0 -> 1 <= c.(_required_updates) < 2 ^ 8 ->
  c.(_last_scheduled_generation) = u32 (g - j) -> j = i mod c.(_required_updates) -> 0 <= i ->
  (callback_run c g nows).1 = map (fun k => k mod c.(_required_updates) =? 0) (seqZ (i + 1) (zlen nows)).
Proof.
  induction nows as [|now nows IH]; intros c g j i Hint Hr Hl Hj Hi; [done|].
  pose proof (Z.mod_pos_bound i (_required_updates c) ltac:(lia)) as Hjr.
  rewrite zlen_cons, seqZ_cons by (pose proof (zlen_nonneg nows); lia).
  replace (Z.pred (1 + zlen nows)) with (zlen nows) by lia.
  simpl. unfold WorkItem_call. rewrite Hl, uwrap_sub_l, uwrap_sub_r by lia.
  replace (g + 1 - (g - j)) with (j + 1) by lia. rewrite (uwrap_small 32 (j + 1)) by lia.
  rewrite Hint. cbn [Z.eqb orb]. change (0 =? 0) with true. cbn [orb].
  assert ((i + 1) mod _required_updates c = (j + 1) mod _required_updates c) as Hmod.
  { rewrite Hj, Zplus_mod_idemp_l. done. }
  destruct (_required_updates c <=? j + 1) eqn:Hc.
  - assert (j + 1 = _required_updates c) as Hj1 by lia. rewrite Hj1, Z.mod_same in Hmod by lia.
    destruct (callback_run _ (g + 1) nows) as [bs c'] eqn:E. simpl. f_equal; [lia|].
    pose proof (IH (mkSubCb (cb_this c) (cb_sub c) (_registered c) (u32 (g + 1)) (_required_updates c))
      (g + 1) 0 (i + 1)) as IH'. rewrite E in IH'. simpl in IH'. rewrite IH'; try done; try lia.
    by rewrite Z.sub_0_r.
  - rewrite (Z.mod_small (j + 1)) in Hmod by lia.
    destruct (callback_run _ (g + 1) nows) as [bs c'] eqn:E. simpl. f_equal; [lia|].
    pose proof (IH c (g + 1) (j + 1) (i + 1)) as IH'. rewrite E in IH'. simpl in IH'.
    rewrite IH'; try done; try lia. rewrite Hl. f_equal. lia.
Qed.

(** All instances of a topic are advertised. *)
Definition all_advertised (m : DeviceMaster) (meta : orb_metadata) : Prop :=
  forall i, 0 <= i < 10 -> exists n, node_at m meta i = Some n /\ is_advertised n = true.

Lemma all_advertised_full m meta : all_advertised m meta -> first_claimable true m meta 0 = None.
Proof.
  intros Ha. destruct (first_claimable true m meta 0) as [j|] eqn:E; [|done].
  apply first_claimable_Some in E as [Hj Hc]. destruct (Ha j ltac:(lia)) as (n & Hn & Hadv).
  rewrite Hn in Hc. simpl in Hc. by rewrite Hadv in Hc.
Qed.

(** ** What a subscriber can rely on *)

(** C1: a subscription behaves as a position in the list of all published messages, for
    every interleaving of publications and of the subscriber's [updated], [update] and
    [copy] calls. It starts at the last message; [update] returns the next message, or the
    oldest of the last [o_queue] ones when the subscriber has fallen behind, and false
    when there is nothing new. This holds across the wrap of the 32-bit generation when
    the queue length divides 2^32. *)
Theorem subscription_refines_log topics m meta i a h es :
  topics_ok topics -> master_wf topics m -> topic_ok topics meta -> 0 <= i < 10 ->
  m.(vfs) !! path_of meta.(o_name) i = Some a -> readable m a meta h ->
  seq_ok meta.(o_queue) (zlen h + zlen es) -> zlen es < 2 ^ 32 - 1 ->
  Forall (event_ok meta.(o_size)) es ->
  exists m1 s1 m2 s2 os h' g',
    Subscription_new topics m (Some meta.(o_id)) i = Some (m1, s1) /\
    spec_run meta.(o_queue) h (Z.max 0 (zlen h - 1)) es = (os, h', g') /\
    run topics a meta m1 s1 es = Some (os, m2, s2) /\ subscribed m2 s2 a meta h' g'.
Proof.
  intros Ht Hwf Hm Hi Hv Hr Hseq Hes Hok.
  destruct (Subscription_new_ok topics m meta i a h) as (m1 & s1 & En & Hs); try done.
  destruct (sub_run_refines topics a meta es m1 s1 h (Z.max 0 (zlen h - 1)) Hs Hseq) as (os & h' & g' & m2 & s2 & E1 & E2 & Hs2);
    [lia|done|]. by exists m1, s1, m2, s2, os, h', g'.
Qed.


(** A subscription with an interval is rate limited: over any sequence of publications
    and [update] calls, [k] successful updates need at least [k] intervals between the
    subscription's last update time and the time of the last call. No call fails
    undefined. *)
Theorem subscription_interval_rate topics a meta es m s t h g :
  subscribed m s.(_subscription) a meta h g -> seq_ok meta.(o_queue) (zlen h + zlen es) ->
  zlen h - g + zlen es < 2 ^ 32 -> 0 <= s.(_interval_us) -> 0 <= s.(_last_update) <= t ->
  ievents_ok meta.(o_size) t es ->
  exists k m' s', interval_run topics a meta m s es = Some (k, m', s') /\
    k * s.(_interval_us) <= last_time t es - s.(_last_update).
Proof.
  intros Hs Hseq Hlag Hi Hl He.
  destruct (interval_run_ok topics a meta es m s t h g) as (k & m' & s' & E & _ & Hk); try done.
  exists k, m', s'. split; [done|lia].
Qed.

(** The count gate of [SubscriptionCallbackWorkItem]: with [_required_updates] = r and
    no interval, the work item is scheduled by every r-th publication after the last
    schedule and by no other, also across the wrap of the generation. *)
Theorem callback_every_nth c g nows :
  c.(cb_sub).(_interval_us) = 0 -> 1 <= c.(_required_updates) < 2 ^ 8 ->
  c.(_last_scheduled_generation) = u32 g ->
  (callback_run c g nows).1 = map (fun k => k mod c.(_required_updates) =? 0) (seqZ 1 (zlen nows)).
Proof.
  intros Hi Hr Hl. apply (callback_run_ok nows c g 0 0); try done. by rewrite Z.sub_0_r.
Qed.

(** [orb_advertise_multi] when all ten instances of the topic are advertised. The
    device master refuses with -ENOMEM; the caller gets no handle, unless its [errno]
    happens to be EEXIST from an earlier failure: then the call returns the handle of the
    last instance, which another advertiser holds. *)
Theorem advertise_multi_when_full topics m meta errno inst :
  topics_ok topics -> master_wf topics m -> topic_ok topics meta -> all_advertised m meta ->
  exists inst' m', orb_advertise_multi topics true true errno m (Some meta) None (Some inst) =
    Some (if errno =? EEXIST then m.(vfs) !! path_of meta.(o_name) 9 else None, inst', m') /\
    is_Some (m.(vfs) !! path_of meta.(o_name) 9).
Proof.
  intros [Hu Hsh] Hwf Hm Hall.
  assert (exists a, vfs m !! path_of (o_name meta) 9 = Some a) as [a Ha].
  { destruct (Hall 9 ltac:(lia)) as (n & Hn & _). apply node_at_Some in Hn as (a & p & Ha & _). eauto. }
  pose proof (advertise_ok topics Hu Hsh true m meta 0 Hwf Hm ltac:(lia)) as Had.
  rewrite all_advertised_full in Had by done.
  unfold orb_advertise_multi, node_open. cbn [default negb andb].
  destruct (node_mkpath (o_name meta) _) as [mk pth].
  cbn [mbind option_bind]. rewrite Had. cbn [mbind option_bind].
  change (negb (- ENOMEM =? PX4_OK)) with true. cbn [andb]. rewrite Ha.
  destruct (errno =? EEXIST).
  - change (PX4_OK =? PX4_OK) with true. 
    change (default 0 (Some 9)) with 9. rewrite (node_mkpath_ok topics Hsh meta 9) by (done || lia).
    change (PX4_OK =? PX4_OK) with true. cbn iota.
    unfold px4_open. rewrite Ha. cbn. do 2 eexists. split; [done|eauto].
  - change (- ENOMEM =? PX4_OK) with false. cbn. do 2 eexists. split; [done|eauto].
Qed.

(** ** Concrete runs *)

Definition gyro : orb_metadata := mkMeta "sensor_gyro" 8 8 1 0 8.

(** The table after the first advertiser of [gyro]. *)
Definition gyro_master : DeviceMaster :=
  match advertise true (DeviceMaster_new 2) gyro true (Some 0) with
  | Some (_, _, m) => m
  | None => DeviceMaster_new 2
  end.

Lemma gyro_master_ok :
  master_wf topics0 gyro_master /\ gyro_master.(vfs) !! path_of "sensor_gyro" 0 = Some 1 /\
  readable gyro_master 1 gyro [].
Proof.
  destruct topics0_ok as [Hu Hs].
  pose proof (advertise_ok topics0 Hu Hs true (DeviceMaster_new 2) gyro 0 (DeviceMaster_new_wf topics0) eq_refl ltac:(lia)) as H.
  change (first_claimable true (DeviceMaster_new 2) gyro 0) with (Some 0) in H.
  destruct H as (_ & m & E & Hwf & _). split_and!.
  - unfold gyro_master. by rewrite E.
  - by vm_compute.
  - exists (mark_as_advertised (DeviceNode_new gyro 0)). split_and!; [by vm_compute|done| |done|by left].
    constructor; simpl; try done; lia.
Qed.

Lemma gyro_subscribed :
  subscribed gyro_master (mkSub (Some 1) 0 (Some 0) 0) 1 gyro [] 0.
Proof. destruct gyro_master_ok as (_ & _ & Hr). by split. Qed.

Lemma subscription_refines_log_witness :
  exists m1 s1 m2 s2 os h' g',
    Subscription_new topics0 gyro_master (Some 0) 0 = Some (m1, s1) /\
    spec_run 8 [] 0 [Publish [1;2;3;4;5;6;7;8]; Update [0;0;0;0;0;0;0;0]; Updated] = (os, h', g') /\
    run topics0 1 gyro m1 s1 [Publish [1;2;3;4;5;6;7;8]; Update [0;0;0;0;0;0;0;0]; Updated] = Some (os, m2, s2) /\
    subscribed m2 s2 1 gyro h' g'.
Proof.
  destruct gyro_master_ok as (Hwf & Hv & Hr).
  apply (subscription_refines_log topics0 gyro_master gyro 0 1 []
    [Publish [1;2;3;4;5;6;7;8]; Update [0;0;0;0;0;0;0;0]; Updated]);
    [apply topics0_ok|done|done|lia|done|done|by left; exists 536870912|done|].
  repeat (apply Forall_cons_2; [done|]). apply Forall_nil_2.
Defined.


Lemma subscription_interval_rate_witness :
  exists k m' s',
    interval_run topics0 1 gyro gyro_master (mkSubI (mkSub (Some 1) 0 (Some 0) 0) 0 1000)
      [IPublish [1;2;3;4;5;6;7;8]; IUpdate 1500 1501 [0;0;0;0;0;0;0;0]; IPublish [8;7;6;5;4;3;2;1];
       IUpdate 1600 1601 [0;0;0;0;0;0;0;0]] = Some (k, m', s') /\ k * 1000 <= 1601 - 0.
Proof.
  apply (subscription_interval_rate topics0 1 gyro
    [IPublish [1;2;3;4;5;6;7;8]; IUpdate 1500 1501 [0;0;0;0;0;0;0;0]; IPublish [8;7;6;5;4;3;2;1];
     IUpdate 1600 1601 [0;0;0;0;0;0;0;0]]
    gyro_master (mkSubI (mkSub (Some 1) 0 (Some 0) 0) 0 1000) 0 [] 0);
    [apply gyro_subscribed|by left; exists 536870912|done|done|done|].
  unfold ievents_ok, zlen, gyro. simpl. lia.
Defined.

Lemma callback_every_nth_witness :
  (callback_run (mkSubCb 7 (mkSubI (mkSub (Some 1) 0 (Some 0) 0) 0 0) true (u32 (2 ^ 32 - 2)) 3) (2 ^ 32 - 2)
     [10; 20; 30; 40; 50; 60]).1 = [false; false; true; false; false; true].
Proof.
  apply (callback_every_nth (mkSubCb 7 (mkSubI (mkSub (Some 1) 0 (Some 0) 0) 0 0) true (u32 (2 ^ 32 - 2)) 3)
    (2 ^ 32 - 2) [10; 20; 30; 40; 50; 60]); [done|simpl; lia|done].
Defined.

(** Ten advertisers of [gyro]. *)
Definition full_master : DeviceMaster :=
  match UorbMaster.run (DeviceMaster_new 2, []) (replicate 10 (Advertise gyro)) with
  | Some (m, _) => m
  | None => DeviceMaster_new 2
  end.

Lemma full_master_ok : master_wf topics0 full_master /\ all_advertised full_master gyro.
Proof.
  destruct topics0_ok as [Hu Hs].
  destruct (run_ok topics0 Hu Hs (replicate 10 (Advertise gyro)) (DeviceMaster_new 2, [])) as ([m owned] & Hr & [Hw Hn Ho]).
  - split; simpl; [apply (DeviceMaster_new_wf topics0)|apply NoDup_nil_2|by intros ?? ?%not_elem_of_nil].
  - by apply Forall_replicate.
  - assert (snd <$> UorbMaster.run (DeviceMaster_new 2, []) (replicate 10 (Advertise gyro)) =
      Some ((fun i => (gyro, i)) <$> [9; 8; 7; 6; 5; 4; 3; 2; 1; 0])) as E by (by vm_compute).
    unfold full_master. rewrite Hr in *. apply (inj Some) in E. cbn [snd] in E. split; [done|].
    intros i Hi. apply Ho. cbn [snd]. rewrite E. apply list_elem_of_fmap. exists i. split; [done|].
    rewrite !elem_of_cons. lia.
Qed.

Lemma advertise_multi_when_full_witness :
  exists inst' m', orb_advertise_multi topics0 true true EEXIST full_master (Some gyro) None (Some 0) =
    Some (full_master.(vfs) !! path_of "sensor_gyro" 9, inst', m') /\
    is_Some (full_master.(vfs) !! path_of "sensor_gyro" 9).
Proof.
  destruct full_master_ok as [Hwf Hall].
  apply (advertise_multi_when_full topics0 full_master gyro EEXIST 0); [apply topics0_ok|done|done|done].
Defined.
