(* ===== verification/Bson.v ===== *)
(** * tinybson: the BSON encoder and decoder

    Models src/lib/tinybson/tinybson.{h,cpp}. A coder works on an open file or on a memory
    buffer. The file is its bytes and the position; a write that does not fit the
    remaining capacity of the medium is cut short. Nodes carry the union of their value
    as its eight bytes. The enum [bson_type_t] has one byte (ARM EABI), so that the type
    byte 0xff compares equal to 0xff. [None] is undefined behaviour. *)
From stdpp Require Import base option list.
From Stdlib Require Import ZArith Lia.
From S2P Require Import Prelude.

(** ** Files *)

Record file := mkFile { f_data : list Z; f_pos : Z; f_capacity : Z }.

(** [read(fd, p, s)]: the bytes read; their number is the result. *)
Definition file_read (f : file) (s : Z) : list Z * file :=
  let bytes := slice f.(f_pos) s f.(f_data) in
  (bytes, mkFile f.(f_data) (f.(f_pos) + zlen bytes) f.(f_capacity)).

(** [write(fd, p, s)]. *)
Definition file_write (f : file) (bytes : list Z) : Z * file :=
  let n := Z.max 0 (Z.min (zlen bytes) (f.(f_capacity) - f.(f_pos))) in
  let bytes := take (Z.to_nat n) bytes in
  (n, mkFile (take (Z.to_nat f.(f_pos)) f.(f_data) ++ bytes ++ drop (Z.to_nat (f.(f_pos) + n)) f.(f_data))
        (f.(f_pos) + n) f.(f_capacity)).

(** [lseek(fd, 0, SEEK_SET)]. *)
Definition file_rewind (f : file) : file := mkFile f.(f_data) 0 f.(f_capacity).

(** ** Node types *)

Definition BSON_EOO : Z := 0.
Definition BSON_DOUBLE : Z := 1.
Definition BSON_STRING : Z := 2.
Definition BSON_BINDATA : Z := 5.
Definition BSON_UNDEFINED : Z := 6.
Definition BSON_BOOL : Z := 8.
Definition BSON_INT32 : Z := 16.
Definition BSON_INT64 : Z := 18.
Definition BSON_MAXNAME : Z := 32.
Definition BSON_BUF_INCREMENT : Z := 128.
Definition ENODATA : Z := 61.

(** ** Encoder *)

Record bson_encoder := mkEncoder {
  e_fd : option file;
  e_buf : option (list Z);
  e_bufsize : Z;
  e_bufpos : Z;
  e_realloc_ok : bool;
  e_dead : bool;
  e_total_document_size : Z;
}.

Definition with_fd (e : bson_encoder) (f : file) (added : Z) : bson_encoder :=
  mkEncoder (Some f) e.(e_buf) e.(e_bufsize) e.(e_bufpos) e.(e_realloc_ok) e.(e_dead)
    (s32 (e.(e_total_document_size) + added)).
Definition with_buf (e : bson_encoder) (buf : option (list Z)) (bufsize bufpos : Z) : bson_encoder :=
  mkEncoder e.(e_fd) buf bufsize bufpos e.(e_realloc_ok) e.(e_dead) e.(e_total_document_size).

(** [CODER_KILL]. *)
Definition enc_kill (e : bson_encoder) : Z * bson_encoder :=
  (-1, mkEncoder e.(e_fd) e.(e_buf) e.(e_bufsize) e.(e_bufpos) e.(e_realloc_ok) true e.(e_total_document_size)).

Section encoder.
(** Whether [realloc] succeeds. *)
Context (alloc_ok : bool).

(** The loop that makes room for [s] bytes: [inl] continues with the copy, [inr] returns. *)
Fixpoint make_room (fuel : nat) (e : bson_encoder) (s : Z) : option (bson_encoder + (Z * bson_encoder)) :=
  match fuel with
  | O => None
  | S fuel =>
    if negb (e.(e_bufsize) <? u32 (e.(e_bufpos) + s)) then Some (inl e)
    else
      match e.(e_fd) with
      | Some f =>
        pending ← mem_read (default [] e.(e_buf)) 0 e.(e_bufpos);
        let '(ret, f) := file_write f pending in
        if ret =? e.(e_bufpos) then
          let e := with_buf (with_fd e f ret) e.(e_buf) e.(e_bufsize) 0 in
          if e.(e_bufsize) <? s then Some (inr (enc_kill e)) else Some (inl e)
        else Some (inr (enc_kill (mkEncoder (Some f) e.(e_buf) e.(e_bufsize) e.(e_bufpos) e.(e_realloc_ok)
                                    e.(e_dead) e.(e_total_document_size))))
      | None =>
        if negb e.(e_realloc_ok) then Some (inr (enc_kill e))
        else if negb alloc_ok then Some (inr (enc_kill e))
        else
          let newbuf := default [] e.(e_buf) ++ replicate (Z.to_nat BSON_BUF_INCREMENT) 0 in
          make_room fuel (with_buf e (Some newbuf) (e.(e_bufsize) + BSON_BUF_INCREMENT) e.(e_bufpos)) s
      end
  end.

Definition write_x (e : bson_encoder) (p : list Z) : option (Z * bson_encoder) :=
  if e.(e_dead) then Some (-1, e)
  else
    match e.(e_fd), e.(e_buf) with
    | Some f, None =>
      let '(ret, f) := file_write f p in
      if ret =? zlen p then Some (0, with_fd e f ret)
      else Some (-1, mkEncoder (Some f) None e.(e_bufsize) e.(e_bufpos) e.(e_realloc_ok) e.(e_dead)
                       e.(e_total_document_size))
    | _, _ =>
      r ← make_room (S (length p)) e (zlen p);
      match r with
      | inr r => Some r
      | inl e =>
        buf ← mem_write (default [] e.(e_buf)) e.(e_bufpos) p;
        Some (0, with_buf e (Some buf) e.(e_bufsize) (e.(e_bufpos) + zlen p))
      end
    end.

Definition write_int8 (e : bson_encoder) (b : Z) := write_x e [u8 b].
Definition write_int32 (e : bson_encoder) (i : Z) := write_x e (le_bytes 4 (u32 i)).
Definition write_int64 (e : bson_encoder) (i : Z) := write_x e (le_bytes 8 (u64 i)).
(** A double is its 64-bit pattern. *)
Definition write_double (e : bson_encoder) (d : Z) := write_x e (le_bytes 8 (u64 d)).

Definition write_name (e : bson_encoder) (name : list Z) : option (Z * bson_encoder) :=
  if BSON_MAXNAME <? zlen name then Some (enc_kill e) else write_x e (name ++ [0]).

(** [a || b]: the second call is made when the first returned 0. *)
Definition then_write (r : option (Z * bson_encoder)) (k : bson_encoder -> option (Z * bson_encoder))
  : option (Z * bson_encoder) :=
  '(ret, e) ← r; if ret =? 0 then k e else Some (ret, e).

(** [if (...) CODER_KILL; return 0]. *)
Definition or_kill (r : option (Z * bson_encoder)) : option (Z * bson_encoder) :=
  '(ret, e) ← r; Some (if ret =? 0 then (0, e) else enc_kill e).

Definition bson_encoder_init_file (fd : file) : option (Z * bson_encoder) :=
  or_kill (write_int32 (mkEncoder (Some fd) None 0 0 false false 0) 0).

Definition bson_encoder_init_buf_file (fd : file) (buf : list Z) (bufsize : Z) : option (Z * bson_encoder) :=
  or_kill (write_int32 (mkEncoder (Some fd) (Some buf) bufsize 0 false false 0) 0).

(** [encoder] starts with its member initialisers; [buf] is [None] for [nullptr]. *)
Definition bson_encoder_init_buf (buf : option (list Z)) (bufsize : Z) : option (Z * bson_encoder) :=
  or_kill (write_int32
    (match buf with
     | None => mkEncoder None None 0 0 true false 0
     | Some b => mkEncoder None (Some b) bufsize 0 false false 0
     end) 0).

Definition bson_encoder_fini (e : bson_encoder) : option (Z * bson_encoder) :=
  if e.(e_dead) then Some (-1, e)
  else
    '(ret, e) ← write_int8 e BSON_EOO;
    if negb (ret =? 0) then Some (enc_kill e)
    else
      r ← match e.(e_fd), e.(e_buf) with
          | Some f, Some buf =>
            if 0 <? e.(e_bufpos) then
              pending ← mem_read buf 0 e.(e_bufpos);
              let '(ret, f) := file_write f pending in
              if ret =? e.(e_bufpos) then Some (inl (with_fd e f ret))
              else Some (inr (enc_kill (mkEncoder (Some f) e.(e_buf) e.(e_bufsize) e.(e_bufpos) e.(e_realloc_ok)
                                          e.(e_dead) e.(e_total_document_size))))
            else Some (inl e)
          | _, _ => Some (inl e)
          end;
      match r with
      | inr r => Some r
      | inl e =>
        let bson_doc_bytes := le_bytes 4 (u32 e.(e_total_document_size)) in
        match e.(e_fd), e.(e_buf) with
        | Some f, _ =>
          let '(ret, f) := file_write (file_rewind f) bson_doc_bytes in
          let e := mkEncoder (Some f) e.(e_buf) e.(e_bufsize) e.(e_bufpos) e.(e_realloc_ok) e.(e_dead)
                     e.(e_total_document_size) in
          Some (if ret =? 4 then (0, e) else enc_kill e)
        | None, Some buf =>
          buf ← mem_write buf 0 bson_doc_bytes;
          Some (0, with_buf e (Some buf) e.(e_bufsize) e.(e_bufpos))
        | None, None => Some (0, e)
        end
      end.

Definition bson_encoder_buf_size (e : bson_encoder) : Z :=
  if e.(e_dead) then -1 else match e.(e_fd) with Some _ => -1 | None => e.(e_bufpos) end.

Definition bson_encoder_buf_data (e : bson_encoder) : option (list Z) :=
  match e.(e_fd) with Some _ => None | None => e.(e_buf) end.

Definition bson_encoder_append_bool (e : bson_encoder) (name : list Z) (value : bool) :=
  if e.(e_dead) then Some (-1, e)
  else or_kill (then_write (then_write (write_int8 e BSON_BOOL) (fun e => write_name e name))
                  (fun e => write_int8 e (if value then 1 else 0))).

Definition bson_encoder_append_int32 (e : bson_encoder) (name : list Z) (value : Z) :=
  if e.(e_dead) then Some (-1, e)
  else or_kill (then_write (then_write (write_int8 e BSON_INT32) (fun e => write_name e name))
                  (fun e => write_int32 e value)).

Definition bson_encoder_append_int64 (e : bson_encoder) (name : list Z) (value : Z) :=
  if e.(e_dead) then Some (-1, e)
  else or_kill (then_write (then_write (write_int8 e BSON_INT64) (fun e => write_name e name))
                  (fun e => write_int64 e value)).

Definition bson_encoder_append_double (e : bson_encoder) (name : list Z) (value : Z) :=
  if e.(e_dead) then Some (-1, e)
  else or_kill (then_write (then_write (write_int8 e BSON_DOUBLE) (fun e => write_name e name))
                  (fun e => write_double e value)).

Definition bson_encoder_append_string (e : bson_encoder) (name string : list Z) :=
  if e.(e_dead) then Some (-1, e)
  else
    let len := zlen string + 1 in
    or_kill (then_write (then_write (then_write (write_int8 e BSON_STRING) (fun e => write_name e name))
                           (fun e => write_int32 e len))
               (fun e => write_x e (string ++ [0]))).

Definition bson_encoder_append_binary (e : bson_encoder) (name : list Z) (subtype size : Z) (data : list Z) :=
  if e.(e_dead) then Some (-1, e)
  else
    src ← mem_read data 0 size;
    or_kill (then_write (then_write (then_write (then_write (write_int8 e BSON_BINDATA) (fun e => write_name e name))
                           (fun e => write_int32 e size))
               (fun e => write_int8 e subtype)) (fun e => write_x e src)).
End encoder.

(** ** Decoder *)

(** [n_value] are the bytes of the union [d], [b], [i32], [i64]. *)
Record bson_node := mkBNode { n_name : list Z; n_type : Z; n_subtype : Z; n_value : list Z }.

Definition node_i32 (n : bson_node) : Z := s32 (le_value (take 4 n.(n_value))).
Definition node_i64 (n : bson_node) : Z := s64 (le_value n.(n_value)).
Definition node_d (n : bson_node) : Z := le_value n.(n_value).
Definition node_b (n : bson_node) : bool := negb (le_value (take 1 n.(n_value)) =? 0).

Record node_counts := mkCounts {
  count_node_double : Z;
  count_node_string : Z;
  count_node_bindata : Z;
  count_node_bool : Z;
  count_node_int32 : Z;
  count_node_int64 : Z;
}.

Definition count_node (type : Z) (c : node_counts) : node_counts :=
  let inc t n := if type =? t then u16 (n + 1) else n in
  mkCounts (inc BSON_DOUBLE c.(count_node_double)) (inc BSON_STRING c.(count_node_string))
    (inc BSON_BINDATA c.(count_node_bindata)) (inc BSON_BOOL c.(count_node_bool))
    (inc BSON_INT32 c.(count_node_int32)) (inc BSON_INT64 c.(count_node_int64)).

Record bson_decoder := mkDecoder {
  d_fd : option file;
  d_buf : option (list Z);
  d_bufsize : Z;
  d_bufpos : Z;
  d_dead : bool;
  d_nesting : Z;
  d_node : bson_node;
  d_pending : Z;
  d_total_document_size : Z;
  d_total_decoded_size : Z;
  d_counts : node_counts;
}.

Definition dec_read (d : bson_decoder) (fd : option file) (bufpos added : Z) : bson_decoder :=
  mkDecoder fd d.(d_buf) d.(d_bufsize) bufpos d.(d_dead) d.(d_nesting) d.(d_node) d.(d_pending)
    d.(d_total_document_size) (s32 (d.(d_total_decoded_size) + added)) d.(d_counts).
Definition with_node (d : bson_decoder) (n : bson_node) : bson_decoder :=
  mkDecoder d.(d_fd) d.(d_buf) d.(d_bufsize) d.(d_bufpos) d.(d_dead) d.(d_nesting) n d.(d_pending)
    d.(d_total_document_size) d.(d_total_decoded_size) d.(d_counts).
Definition with_pending (d : bson_decoder) (p : Z) : bson_decoder :=
  mkDecoder d.(d_fd) d.(d_buf) d.(d_bufsize) d.(d_bufpos) d.(d_dead) d.(d_nesting) d.(d_node) p
    d.(d_total_document_size) d.(d_total_decoded_size) d.(d_counts).
Definition with_counts (d : bson_decoder) (c : node_counts) : bson_decoder :=
  mkDecoder d.(d_fd) d.(d_buf) d.(d_bufsize) d.(d_bufpos) d.(d_dead) d.(d_nesting) d.(d_node) d.(d_pending)
    d.(d_total_document_size) d.(d_total_decoded_size) c.
Definition with_nesting (d : bson_decoder) (fd : option file) (n : Z) : bson_decoder :=
  mkDecoder fd d.(d_buf) d.(d_bufsize) d.(d_bufpos) d.(d_dead) n d.(d_node) d.(d_pending)
    d.(d_total_document_size) d.(d_total_decoded_size) d.(d_counts).
Definition with_document_size (d : bson_decoder) (n : Z) : bson_decoder :=
  mkDecoder d.(d_fd) d.(d_buf) d.(d_bufsize) d.(d_bufpos) d.(d_dead) d.(d_nesting) d.(d_node) d.(d_pending)
    n d.(d_total_decoded_size) d.(d_counts).
Definition dec_kill (d : bson_decoder) : bson_decoder :=
  mkDecoder d.(d_fd) d.(d_buf) d.(d_bufsize) d.(d_bufpos) true d.(d_nesting) d.(d_node) d.(d_pending)
    d.(d_total_document_size) d.(d_total_decoded_size) d.(d_counts).

(** [read_x]: the bytes read, or [None] for the result -1. *)
Definition read_x (d : bson_decoder) (s : Z) : option (option (list Z) * bson_decoder) :=
  if d.(d_dead) then Some (None, d)
  else
    match d.(d_fd), d.(d_buf) with
    | Some f, _ =>
      let '(bytes, f) := file_read f s in
      if zlen bytes =? s then Some (Some bytes, dec_read d (Some f) d.(d_bufpos) (zlen bytes))
      else Some (None, with_nesting d (Some f) d.(d_nesting))
    | None, Some buf =>
      if d.(d_bufsize) <=? s then Some (None, dec_kill d)
      else if d.(d_bufsize) - s <? d.(d_bufpos) then Some (None, dec_kill d)
      else
        bytes ← mem_read buf d.(d_bufpos) s;
        Some (Some bytes, dec_read d None (d.(d_bufpos) + s) s)
    | None, None => Some (None, d)
    end.

Definition counts0 : node_counts := mkCounts 0 0 0 0 0 0.
Definition node0 : bson_node := mkBNode [] 0 0 (replicate 8 0).

(** A coder that fails: the decoder is dead and the result is -1. *)
Definition dec_fail {A} (d : bson_decoder) (s : A) : option (Z * bson_decoder * A) := Some (-1, dec_kill d, s).

(** The callback gets the decoder (with the node) and its own state. *)
Section decoder.
Context {A : Type} (callback : bson_decoder -> A -> option (Z * bson_decoder * A)).

Definition bson_decoder_init_file (fd : file) : option (Z * bson_decoder) :=
  let d := mkDecoder (Some fd) None 0 0 false 1 (mkBNode [] BSON_UNDEFINED 0 (replicate 8 0)) 0 0 0 counts0 in
  '(r, d) ← read_x d 4;
  match r with
  | None => Some (-1, dec_kill d)
  | Some bytes => Some (0, with_document_size d (s32 (le_value bytes)))
  end.

(** [buf] is [None] for [nullptr]. *)
Definition bson_decoder_init_buf (buf : option (list Z)) (bufsize : Z) : option (Z * bson_decoder) :=
  match buf with
  | None => Some (-1, mkDecoder None None 0 0 false 0 node0 0 0 0 counts0)
  | Some buf =>
    size ← (if bufsize =? 0 then h ← mem_read buf 0 4; Some (le_value h) else Some bufsize);
    let d := mkDecoder None (Some buf) size 0 false 1 (mkBNode [] BSON_UNDEFINED 0 (replicate 8 0)) 0 0 0 counts0 in
    '(r, d) ← read_x d 4;
    match r with
    | None => Some (-1, dec_kill d)
    | Some bytes =>
      let d := with_document_size d (s32 (le_value bytes)) in
      if (0 <? d.(d_total_document_size)) && (s32 d.(d_bufsize) <? d.(d_total_document_size))
      then Some (-1, dec_kill d)
      else Some (0, d)
    end
  end.

(** The bytes the decoder can still read: bounds the loops that read byte by byte. *)
Definition available (d : bson_decoder) : nat :=
  match d.(d_fd), d.(d_buf) with
  | Some f, _ => Z.to_nat (zlen f.(f_data) - f.(f_pos))
  | None, Some _ => Z.to_nat (d.(d_bufsize) - d.(d_bufpos))
  | None, None => O
  end.

(** [while (pending > 0) { read_int8; pending--; }]: whether all bytes were discarded. *)
Fixpoint discard_pending (fuel : nat) (d : bson_decoder) : option (bool * bson_decoder) :=
  if negb (0 <? d.(d_pending)) then Some (true, d)
  else
    match fuel with
    | O => None
    | S fuel =>
      '(r, d) ← read_x d 1;
      match r with
      | None => Some (false, d)
      | Some _ => discard_pending fuel (with_pending d (d.(d_pending) - 1))
      end
    end.

(** The loop over the name: [None] in the result when the decoder must be killed. *)
Fixpoint read_name (fuel : nat) (d : bson_decoder) (name : list Z) : option (option (list Z) * bson_decoder) :=
  if BSON_MAXNAME <=? zlen name then Some (None, d)
  else
    match fuel with
    | O => None
    | S fuel =>
      '(r, d) ← read_x d 1;
      match r with
      | None => Some (None, d)
      | Some bytes =>
        c ← head bytes;
        if c =? 0 then Some (Some name, d) else read_name fuel d (name ++ [c])
      end
    end.

(** The value of a node: whether it was read; if not the decoder must be killed. *)
Definition read_value (d : bson_decoder) : option (bool * bson_decoder) :=
  let n := d.(d_node) in
  let counted d := with_counts d (count_node n.(n_type) d.(d_counts)) in
  let read k d (f : list Z -> bson_decoder -> option (bool * bson_decoder)) :=
    '(r, d) ← read_x d k;
    match r with None => Some (false, d) | Some bytes => f bytes d end in
  let store bytes d :=
    value ← mem_write n.(n_value) 0 bytes;
    Some (true, counted (with_node d (mkBNode n.(n_name) n.(n_type) n.(n_subtype) value))) in
  if n.(n_type) =? BSON_DOUBLE then read 8 d store
  else if n.(n_type) =? BSON_STRING then
    read 4 d (fun bytes d => Some (true, counted (with_pending d (s32 (le_value bytes)))))
  else if n.(n_type) =? BSON_BINDATA then
    read 4 d (fun bytes d =>
      read 1 (with_pending d (s32 (le_value bytes))) (fun bytes d =>
        Some (true, counted (with_node d (mkBNode n.(n_name) n.(n_type) (le_value bytes) n.(n_value))))))
  else if n.(n_type) =? BSON_BOOL then
    read 1 d (fun bytes d => store [b2z (negb (le_value bytes =? 0))] d)
  else if n.(n_type) =? BSON_INT32 then read 4 d store
  else if n.(n_type) =? BSON_INT64 then read 8 d store
  else Some (false, d).

Definition bson_decoder_next (d : bson_decoder) (st : A) : option (Z * bson_decoder * A) :=
  if d.(d_dead) then Some (-1, d, st)
  else
    let eoo := d.(d_node).(n_type) =? BSON_EOO in
    let nesting := if eoo && (0 <? d.(d_nesting)) then d.(d_nesting) - 1 else d.(d_nesting) in
    if eoo && (nesting =? 0) then Some (0, with_nesting d None nesting, st)
    else
      let d := with_nesting d d.(d_fd) nesting in
      '(ok, d) ← discard_pending (S (available d)) d;
      if negb ok then dec_fail d st
      else
        '(r, d) ← read_x d 1;
        match r with
        | None => dec_fail d st
        | Some bytes =>
          let type := le_value bytes in
          let n := d.(d_node) in
          let d := with_pending (with_node d (mkBNode n.(n_name) type n.(n_subtype) n.(n_value))) 0 in
          if type =? BSON_EOO then
            callback (with_node d (mkBNode [] type n.(n_subtype) n.(n_value))) st
          else if type =? 255 then Some (- ENODATA, dec_kill d, st)
          else
            '(name, d) ← read_name (Z.to_nat BSON_MAXNAME) d [];
            match name with
            | None => dec_fail d st
            | Some name =>
              '(ok, d) ← read_value (with_node d (mkBNode name type n.(n_subtype) n.(n_value)));
              if ok : bool then callback d st else dec_fail d st
            end
        end.

(** [bson_decoder_copy_data]: the bytes copied to the caller's buffer. *)
Definition bson_decoder_copy_data (d : bson_decoder) : option (Z * list Z * bson_decoder) :=
  if d.(d_dead) then Some (-1, [], d)
  else
    '(r, d) ← read_x d (u32 d.(d_pending));
    match r with
    | None => Some (-1, [], dec_kill d)
    | Some bytes => Some (0, bytes, with_pending d 0)
    end.

Definition bson_decoder_data_pending (d : bson_decoder) : Z := u32 d.(d_pending).

(** [do { result = bson_decoder_next(&decoder); } while (result > 0)]. *)
Fixpoint decode_loop (fuel : nat) (d : bson_decoder) (st : A) : option (Z * bson_decoder * A) :=
  match fuel with
  | O => None
  | S fuel =>
    '(result, d, st) ← bson_decoder_next d st;
    if 0 <? result then decode_loop fuel d st else Some (result, d, st)
  end.
End decoder.

(** ** Documents *)

Inductive bvalue :=
  | VBool (b : bool)
  | VInt32 (i : Z)
  | VInt64 (i : Z)
  | VDouble (d : Z)
  | VString (s : list Z)
  | VBinary (subtype : Z) (data : list Z).

Definition append (e : bson_encoder) (nv : list Z * bvalue) : option (Z * bson_encoder) :=
  let '(name, v) := nv in
  match v with
  | VBool b => bson_encoder_append_bool true e name b
  | VInt32 i => bson_encoder_append_int32 true e name i
  | VInt64 i => bson_encoder_append_int64 true e name i
  | VDouble d => bson_encoder_append_double true e name d
  | VString s => bson_encoder_append_string true e name s
  | VBinary t data => bson_encoder_append_binary true e name t (zlen data) data
  end.

(** A whole document through the buffered file encoder. *)
Fixpoint append_all (e : bson_encoder) (nodes : list (list Z * bvalue)) : option (Z * bson_encoder) :=
  match nodes with
  | [] => Some (0, e)
  | n :: nodes => '(ret, e) ← append e n; if ret =? 0 then append_all e nodes else Some (ret, e)
  end.

Definition encode_file (f : file) (buf : list Z) (nodes : list (list Z * bvalue)) : option (Z * bson_encoder) :=
  '(ret, e) ← bson_encoder_init_buf_file true f buf (zlen buf);
  if negb (ret =? 0) then Some (ret, e)
  else
    '(ret, e) ← append_all e nodes;
    if negb (ret =? 0) then Some (ret, e) else bson_encoder_fini true e.

(** A callback that collects the nodes. *)
Definition collect (d : bson_decoder) (st : list (list Z * bvalue))
  : option (Z * bson_decoder * list (list Z * bvalue)) :=
  let n := d.(d_node) in
  let put v := Some (1, d, st ++ [(n.(n_name), v)]) in
  if n.(n_type) =? BSON_EOO then Some (0, d, st)
  else if n.(n_type) =? BSON_DOUBLE then put (VDouble (node_d n))
  else if n.(n_type) =? BSON_BOOL then put (VBool (node_b n))
  else if n.(n_type) =? BSON_INT32 then put (VInt32 (node_i32 n))
  else if n.(n_type) =? BSON_INT64 then put (VInt64 (node_i64 n))
  else
    '(ret, data, d) ← bson_decoder_copy_data d;
    if negb (ret =? 0) then Some (ret, d, st)
    else
      Some (1, d, st ++ [(n.(n_name),
        if n.(n_type) =? BSON_STRING then VString (take (length data - 1) data)
        else VBinary n.(n_subtype) data)]).

Definition decode_file (f : file) : option (Z * bson_decoder * list (list Z * bvalue)) :=
  '(ret, d) ← bson_decoder_init_file f;
  if negb (ret =? 0) then Some (ret, d, []) else decode_loop collect (S (S (length f.(f_data)))) d [].

(** The format: type, name, zero, value. *)
Definition value_type (v : bvalue) : Z :=
  match v with
  | VBool _ => BSON_BOOL | VInt32 _ => BSON_INT32 | VInt64 _ => BSON_INT64
  | VDouble _ => BSON_DOUBLE | VString _ => BSON_STRING | VBinary _ _ => BSON_BINDATA
  end.

Definition value_bytes (v : bvalue) : list Z :=
  match v with
  | VBool b => [b2z b]
  | VInt32 i => le_bytes 4 (u32 i)
  | VInt64 i => le_bytes 8 (u64 i)
  | VDouble d => le_bytes 8 (u64 d)
  | VString s => le_bytes 4 (u32 (zlen s + 1)) ++ s ++ [0]
  | VBinary t data => le_bytes 4 (u32 (zlen data)) ++ [u8 t] ++ data
  end.

Definition node_bytes (nv : list Z * bvalue) : list Z :=
  [value_type nv.2] ++ (nv.1 ++ [0]) ++ value_bytes nv.2.

Definition body (nodes : list (list Z * bvalue)) : list Z := concat (map node_bytes nodes) ++ [BSON_EOO].

(** The document with its length field. *)
Definition document (nodes : list (list Z * bvalue)) : list Z :=
  le_bytes 4 (u32 (4 + zlen (body nodes))) ++ body nodes.

(** Names have at most [maxname] characters; each piece fits the encoder's buffer. *)
Definition node_ok (maxname bufsize : Z) (nv : list Z * bvalue) : Prop :=
  Forall (fun c => 0 < c < 256) nv.1 /\ zlen nv.1 <= maxname /\
  match nv.2 with
  | VBool _ => True
  | VInt32 i => - 2 ^ 31 <= i < 2 ^ 31
  | VInt64 i => - 2 ^ 63 <= i < 2 ^ 63
  | VDouble d => 0 <= d < 2 ^ 64
  | VString s => Forall byte_ok s /\ zlen s < bufsize
  | VBinary t data => Forall byte_ok data /\ zlen data <= bufsize /\ 0 <= t < 256
  end.

(** ** Encoding *)

(** The encoder has produced [w]: the first part is in the file (over its old contents
    [old]), the rest in the buffer. *)
Record encodes (e : bson_encoder) (old : list Z) (cap bufsize : Z) (w : list Z) : Prop := {
  enc_file : exists flushed b, w = flushed ++ slice 0 e.(e_bufpos) b /\
    e.(e_fd) = Some (mkFile (flushed ++ drop (length flushed) old) (zlen flushed) cap) /\
    e.(e_buf) = Some b /\ zlen b = bufsize /\ e.(e_total_document_size) = zlen flushed;
  enc_pos : 0 <= e.(e_bufpos) <= bufsize;
  enc_size : e.(e_bufsize) = bufsize;
  enc_alive : e.(e_dead) = false;
}.

Lemma file_write_append flushed old cap p :
  zlen flushed + zlen p <= cap ->
  file_write (mkFile (flushed ++ drop (length flushed) old) (zlen flushed) cap) p =
    (zlen p, mkFile ((flushed ++ p) ++ drop (length (flushed ++ p)) old) (zlen (flushed ++ p)) cap).
Proof.
  intros Hc. unfold file_write. cbn [f_data f_pos f_capacity]. pose proof (zlen_nonneg p).
  replace (Z.max 0 (Z.min (zlen p) (cap - zlen flushed))) with (zlen p) by lia.
  rewrite zlen_app. f_equal. f_equal. unfold zlen. rewrite !Nat2Z.id, take_app_length.
  rewrite firstn_all, <- app_assoc. do 2 f_equal.
  replace (Z.to_nat (Z.of_nat (length flushed) + Z.of_nat (length p))) with (length flushed + length p)%nat by lia.
  rewrite drop_app_add, drop_drop, length_app. done.
Qed.

(** The bytes of the old contents satisfy [Q], as do those that are written. *)
Section cases.
Context (Q : Z -> Prop) (HQ : forall b, byte_ok b -> Q b).

Lemma written_Q p : Forall byte_ok p -> Forall Q p.
Proof. intros Hp. eapply Forall_impl; [exact Hp|exact HQ]. Qed.

Lemma file_write_bytes f p n f' :
  file_write f p = (n, f') -> Forall Q f.(f_data) -> Forall Q p -> Forall Q f'.(f_data).
Proof.
  intros [= <- <-] Hf Hp. cbn [f_data]. rewrite !Forall_app. split_and!; [by apply Forall_take|by apply Forall_take|by apply Forall_drop].
Qed.

Lemma file_write_short flushed old cap p :
  cap < zlen flushed + zlen p -> 0 < zlen p ->
  (file_write (mkFile (flushed ++ drop (length flushed) old) (zlen flushed) cap) p).1 =? zlen p = false.
Proof. intros Hc Hp. unfold file_write. cbn [f_pos f_capacity fst]. lia. Qed.

(** A write failed: the encoder is dead, and its file has bytes. *)
Definition spoiled (e : bson_encoder) : Prop :=
  e.(e_dead) = true /\ exists f, e.(e_fd) = Some f /\ Forall Q f.(f_data).

(** What is in the file and in the buffer is part of what was written. *)
Lemma encodes_bytes e old cap bufsize w :
  encodes e old cap bufsize w -> Forall Q old -> Forall Q w ->
  exists f b, e.(e_fd) = Some f /\ e.(e_buf) = Some b /\ Forall Q f.(f_data) /\ Forall Q (slice 0 e.(e_bufpos) b).
Proof.
  intros [(flushed & b & -> & Hfd & Hbuf & _) _ _ _] Ho [Hf Hb]%Forall_app. eexists _, b. split; [done|]. split; [done|].
  split; [|done]. cbn [f_data]. apply Forall_app. split; [done|by apply Forall_drop].
Qed.

(** A write fails exactly when the buffer must be flushed and does not fit the file. *)
Lemma write_x_cases e old cap bufsize w p :
  encodes e old cap bufsize w -> zlen p <= bufsize -> zlen w + zlen p < 2 ^ 31 -> bufsize < 2 ^ 31 ->
  Forall Q old -> Forall Q w ->
  exists r e', write_x true e p = Some (r, e') /\
    ((r = 0 /\ encodes e' old cap bufsize (w ++ p) /\ zlen p <= e'.(e_bufpos)) \/ (r = -1 /\ cap < zlen w /\ spoiled e')).
Proof.
  intros He Hp H31 HB Ho Hw. destruct (encodes_bytes _ _ _ _ _ He Ho Hw) as (f0 & b0 & Hf0 & Hb0 & Hfb & Hbb).
  destruct He as [(flushed & b & -> & Hfd & Hbuf & Hb & Htot) Hpos Hsize Hdead].
  pose proof (zlen_nonneg p). pose proof (zlen_nonneg flushed). rewrite zlen_app, zlen_slice in * by lia.
  unfold write_x. rewrite Hdead, Hfd, Hbuf. cbn [make_room]. rewrite Hsize, Hfd.
  rewrite (uwrap_small 32) by lia. case_if.
  - cbn [mbind option_bind]. rewrite Hbuf. cbn [default id]. rewrite mem_write_Some by lia.
    cbn [mbind option_bind]. do 2 eexists; split; [done|]. left. split; [done|]. split; [|cbn; lia]. split; cbn; [|lia|done|done].
    exists flushed, (splice (e_bufpos e) p b). rewrite Hfd, zlen_splice, slice_splice_extend by lia.
    rewrite Z.sub_0_r, <- app_assoc. by split_and!.
  - rewrite Hbuf. cbn [default id]. rewrite mem_read_Some by lia. cbn [mbind option_bind].
    destruct (Z.le_gt_cases (zlen flushed + e_bufpos e) cap) as [Hfit|Hno].
    + rewrite file_write_append by (rewrite zlen_slice by lia; lia).
      rewrite zlen_slice, Z.eqb_refl by lia. cbn [e_bufsize with_buf with_fd e_buf]. decide_if.
      cbn. cbn [default id]. rewrite mem_write_Some by lia. cbn.
      do 2 eexists; split; [done|]. left. split; [done|]. split; [|cbn; lia]. split; cbn; [|lia|done|done].
      exists (flushed ++ slice 0 (e_bufpos e) b), (splice 0 p b). rewrite zlen_splice by lia.
      rewrite slice_splice_same by lia. split_and!; try done.
      rewrite zlen_app, zlen_slice, Htot by lia. apply swrap_small; lia.
    + pose proof (file_write_short flushed old cap (slice 0 (e_bufpos e) b)) as Hs. rewrite zlen_slice in Hs by lia.
      destruct (file_write _ (slice 0 (e_bufpos e) b)) as [n f] eqn:Ew. cbn [fst] in Hs. rewrite Hs by lia.
      cbn [mbind option_bind]. do 2 eexists; split; [done|]. right. split; [done|]. split; [lia|]. split; [done|].
      exists f. split; [done|]. eapply file_write_bytes; [exact Ew| |].
      * assert (f0 = mkFile (flushed ++ drop (length flushed) old) (zlen flushed) cap) as <- by congruence. exact Hfb.
      * assert (b0 = b) as <- by congruence. exact Hbb.
Qed.

(** *** A node is a chain of writes *)

Fixpoint write_chunks (e : bson_encoder) (ps : list (list Z)) : option (Z * bson_encoder) :=
  match ps with
  | [] => Some (0, e)
  | p :: ps => then_write (write_x true e p) (fun e => write_chunks e ps)
  end.

Definition value_chunks (v : bvalue) : list (list Z) :=
  match v with
  | VString s => [le_bytes 4 (u32 (zlen s + 1)); s ++ [0]]
  | VBinary t data => [le_bytes 4 (u32 (zlen data)); [u8 t]; data]
  | _ => [value_bytes v]
  end.

Definition chunks (nv : list Z * bvalue) : list (list Z) := [value_type nv.2] :: (nv.1 ++ [0]) :: value_chunks nv.2.

Lemma concat_chunks nv : concat (chunks nv) = node_bytes nv.
Proof. destruct nv as [name []]; unfold node_bytes; simpl; by rewrite ?app_nil_r. Qed.

Lemma then_write_assoc r k1 k2 :
  then_write (then_write r k1) k2 = then_write r (fun e => then_write (k1 e) k2).
Proof.
  unfold then_write. destruct r as [[ret e]|]; [|done]. simpl. case_if; [done|]. simpl. by case_if.
Qed.

Lemma then_write_ret r : then_write r (fun e => Some (0, e)) = r.
Proof. unfold then_write. destruct r as [[ret e]|]; [|done]. simpl. case_if; [by subst|done]. Qed.

Lemma then_write_ext r k1 k2 : (forall e, k1 e = k2 e) -> then_write r k1 = then_write r k2.
Proof. intros H. unfold then_write. destruct r as [[ret e]|]; [|done]. simpl. by rewrite H. Qed.

Lemma append_chunks bufsize e nv :
  e.(e_dead) = false -> node_ok 32 bufsize nv -> append e nv = or_kill (write_chunks e (chunks nv)).
Proof.
  destruct nv as [name v]. intros Hd (_ & Hn & Hv). simpl in Hn.
  assert (forall e, write_name true e name = write_x true e (name ++ [0])) as Hname.
  { intros e'. unfold write_name, BSON_MAXNAME. by decide_if. }
  unfold append, chunks. destruct v;
    unfold bson_encoder_append_bool, bson_encoder_append_int32, bson_encoder_append_int64,
      bson_encoder_append_double, bson_encoder_append_string, bson_encoder_append_binary;
    rewrite Hd; cbn [snd fst].
  6: rewrite mem_read_Some, slice_full by (auto with px4; lia); cbn [mbind option_bind].
  all: f_equal; rewrite !then_write_assoc; cbn [write_chunks value_chunks value_type];
    apply then_write_ext; intros e1; rewrite ?then_write_assoc, Hname; apply then_write_ext; intros e2.
  all: rewrite ?then_write_ret; try done; try (by destruct b).
  - apply then_write_ext. intros e3. by rewrite then_write_ret.
  - apply then_write_ext. intros e3. apply then_write_ext. intros e4. by rewrite then_write_ret.
Qed.

Lemma write_chunks_cases ps : forall e old cap bufsize w,
  encodes e old cap bufsize w -> Forall (fun p => zlen p <= bufsize /\ Forall byte_ok p) ps ->
  zlen w + zlen (concat ps) < 2 ^ 31 -> bufsize < 2 ^ 31 -> Forall Q old -> Forall Q w ->
  exists r e', write_chunks e ps = Some (r, e') /\
    ((r = 0 /\ encodes e' old cap bufsize (w ++ concat ps)) \/ (r = -1 /\ cap < zlen w + zlen (concat ps) /\ spoiled e')).
Proof.
  induction ps as [|p ps IH]; intros e old cap bufsize w He Hps H31 HB Ho Hw; simpl.
  - exists 0, e. split; [done|]. left. by rewrite app_nil_r.
  - apply Forall_cons in Hps as [[Hp Hpb] Hps]. cbn [concat] in H31. rewrite zlen_app in *.
    pose proof (zlen_nonneg (concat ps)). pose proof (zlen_nonneg p).
    destruct (write_x_cases e old cap bufsize w p) as (r & e1 & E1 & [(-> & He1 & _)|(-> & Hc & Hs)]); try done; [lia|..];
      rewrite E1; unfold then_write; cbn [mbind option_bind].
    + change (0 =? 0) with true. cbn iota.
      destruct (IH e1 old cap bufsize (w ++ p)) as (r & e2 & E2 & H2); try done; [rewrite zlen_app; lia|apply Forall_app; split; [done|by apply written_Q]|].
      exists r, e2. split; [done|]. rewrite app_assoc, zlen_app in *. destruct H2 as [?|(? & ? & ?)]; [by left|right].
      split_and!; [done|lia|done].
    + exists (-1), e1. split; [done|]. right. split_and!; [done|lia|done].
Qed.

Lemma name_bytes name : Forall (fun c => 0 < c < 256) name -> Forall byte_ok (name ++ [0]).
Proof.
  intros Hn. apply Forall_app. split; [|by apply Forall_singleton].
  eapply Forall_impl; [exact Hn|]. intros c Hc. unfold byte_ok. cbv beta in Hc. lia.
Qed.

Lemma chunks_fit bufsize nv : 33 <= bufsize -> node_ok 32 bufsize nv ->
  Forall (fun p => zlen p <= bufsize /\ Forall byte_ok p) (chunks nv).
Proof.
  destruct nv as [name v]. intros HB (Hname & Hn & Hv). cbn [fst snd] in *.
  assert (forall k z, Z.of_nat k <= 8 -> zlen (le_bytes k z) <= bufsize /\ Forall byte_ok (le_bytes k z)) as Hle.
  { intros k z Hk. rewrite zlen_le_bytes. split; [lia|apply le_bytes_ok]. }
  assert (forall b, byte_ok b -> zlen [b] <= bufsize /\ Forall byte_ok [b]) as H1.
  { intros b Hb. change (zlen [b]) with 1. split; [lia|by apply Forall_singleton]. }
  unfold chunks. apply Forall_cons. split; [apply H1; by destruct v|].
  apply Forall_cons. split; [split; [rewrite zlen_app; change (zlen [0]) with 1; cbn [fst]; lia|by apply name_bytes]|].
  destruct v as [b|i|i|d|s|t data]; cbn [value_chunks value_bytes snd]; repeat apply Forall_cons_2; try apply Forall_nil_2;
    try (apply Hle; lia).
  - apply H1. by destruct b.
  - destruct Hv as [Hs Hl]. split; [rewrite zlen_app; change (zlen [0]) with 1; lia|].
    apply Forall_app. split; [done|by apply Forall_singleton].
  - apply H1. apply uwrap_range. lia.
  - destruct Hv as (Hd & Hl & _). by split.
Qed.

Lemma node_bytes_ok bufsize nv : 33 <= bufsize -> node_ok 32 bufsize nv -> Forall byte_ok (node_bytes nv).
Proof.
  intros HB Hnv. rewrite <- concat_chunks. apply Forall_concat. eapply Forall_impl; [by apply chunks_fit|]. by intros p [_ ?].
Qed.

Lemma append_cases e old cap bufsize w nv :
  encodes e old cap bufsize w -> node_ok 32 bufsize nv -> 33 <= bufsize < 2 ^ 31 ->
  zlen w + zlen (node_bytes nv) < 2 ^ 31 -> Forall Q old -> Forall Q w ->
  exists r e', append e nv = Some (r, e') /\
    ((r = 0 /\ encodes e' old cap bufsize (w ++ node_bytes nv)) \/
     (r = -1 /\ cap < zlen w + zlen (node_bytes nv) /\ spoiled e')).
Proof.
  intros He Hnv HB H31 Ho Hw. rewrite (append_chunks bufsize) by (done || apply He).
  rewrite <- concat_chunks in H31 |- *.
  destruct (write_chunks_cases (chunks nv) e old cap bufsize w) as (r & e' & E & He'); try done; [apply chunks_fit; [lia|done]|lia|].
  rewrite E. unfold or_kill. cbn [mbind option_bind]. destruct He' as [[-> He']|(-> & Hc & Hd & f & Hf & Hb)].
  - exists 0, e'. split; [done|]. by left.
  - eexists _, _. split; [done|]. right. split_and!; [done|done|]. split; [done|]. by exists f.
Qed.

Lemma append_all_cases nodes : forall e old cap bufsize w,
  encodes e old cap bufsize w -> Forall (node_ok 32 bufsize) nodes -> 33 <= bufsize < 2 ^ 31 ->
  zlen w + zlen (concat (map node_bytes nodes)) < 2 ^ 31 -> Forall Q old -> Forall Q w ->
  exists r e', append_all e nodes = Some (r, e') /\
    ((r = 0 /\ encodes e' old cap bufsize (w ++ concat (map node_bytes nodes))) \/
     (r = -1 /\ cap < zlen w + zlen (concat (map node_bytes nodes)) /\ spoiled e')).
Proof.
  induction nodes as [|nv nodes IH]; intros e old cap bufsize w He Hn HB H31 Ho Hw.
  - exists 0, e. split; [done|]. left. cbn [map concat]. by rewrite app_nil_r.
  - apply Forall_cons in Hn as [Hnv Hn]. cbn [map concat] in *. rewrite zlen_app in *.
    pose proof (zlen_nonneg (concat (map node_bytes nodes))). pose proof (zlen_nonneg (node_bytes nv)).
    destruct (append_cases e old cap bufsize w nv) as (r & e1 & E1 & [[-> He1]|(-> & Hc & Hs)]); try done; [lia|..];
      cbn [append_all]; rewrite E1; cbn [mbind option_bind].
    + change (0 =? 0) with true. cbn iota.
      destruct (IH e1 old cap bufsize (w ++ node_bytes nv)) as (r & e2 & E2 & H2); try done;
        [rewrite zlen_app; lia|apply Forall_app; split; [done|by apply written_Q, (node_bytes_ok bufsize); [lia|]]|].
      exists r, e2. split; [done|]. rewrite app_assoc, zlen_app in *. destruct H2 as [?|(? & ? & ?)]; [by left|right].
      split_and!; [done|lia|done].
    + exists (-1), e1. split; [done|]. right. split_and!; [done|lia|done].
Qed.

(** The flush at the end of [bson_encoder_fini]. *)
Lemma flush_cases e old cap bufsize w :
  encodes e old cap bufsize w -> 0 < e.(e_bufpos) -> zlen w < 2 ^ 31 -> Forall Q old -> Forall Q w ->
  exists f b, e.(e_fd) = Some f /\ e.(e_buf) = Some b /\
    mem_read b 0 (e_bufpos e) = Some (slice 0 e.(e_bufpos) b) /\
    let '(ret, f') := file_write f (slice 0 e.(e_bufpos) b) in
    Forall Q f'.(f_data) /\
    (if ret =? e.(e_bufpos)
     then zlen w <= cap /\ f' = mkFile (w ++ drop (length w) old) (zlen w) cap /\
          s32 (e.(e_total_document_size) + ret) = zlen w
     else cap < zlen w).
Proof.
  intros He H0 H31 Ho Hw. destruct (encodes_bytes _ _ _ _ _ He Ho Hw) as (f0 & b0 & Hf0 & Hb0 & Hfb & Hbb).
  destruct He as [(flushed & b & Ew & Hfd & Hbuf & Hb & Htot) Hpos Hsize Hdead].
  assert (b0 = b) as -> by congruence. exists f0, b. split; [done|]. split; [done|]. rewrite Hf0 in Hfd. injection Hfd as ->.
  pose proof (zlen_nonneg flushed). assert (zlen w = zlen flushed + e_bufpos e) as Hlen.
  { apply (f_equal zlen) in Ew. rewrite !zlen_app, zlen_slice in Ew by lia. lia. }
  split; [apply mem_read_Some; lia|]. destruct (file_write _ (slice 0 (e_bufpos e) b)) as [n f] eqn:Ef.
  split; [by eapply file_write_bytes|]. destruct (Z.le_gt_cases (zlen flushed + e_bufpos e) cap) as [Hfit|Hno].
  - rewrite file_write_append, zlen_slice in Ef by (rewrite ?zlen_slice; lia). injection Ef as <- <-.
    rewrite Z.eqb_refl, Htot, swrap_small by lia. rewrite <- Ew. split_and!; [lia|done|lia].
  - pose proof (file_write_short flushed old cap (slice 0 (e_bufpos e) b)) as Hs. rewrite zlen_slice, Ef in Hs by lia.
    cbn [fst] in Hs. rewrite Hs by lia. lia.
Qed.

Lemma fini_cases e old cap bufsize w :
  encodes e old cap bufsize w -> 1 <= bufsize < 2 ^ 31 -> 4 <= zlen w -> zlen w + 1 < 2 ^ 31 ->
  Forall Q old -> Forall Q w ->
  let doc := le_bytes 4 (u32 (zlen w + 1)) ++ drop 4 (w ++ [BSON_EOO]) in
  exists r e', bson_encoder_fini true e = Some (r, e') /\
    ((r = 0 /\ zlen w + 1 <= cap /\ e'.(e_fd) = Some (mkFile (doc ++ drop (length w + 1) old) 4 cap)) \/
     (r = -1 /\ cap < zlen w + 1 /\ spoiled e')).
Proof.
  intros He HB H4 H31 Ho Hw doc. unfold bson_encoder_fini. rewrite (enc_alive _ _ _ _ _ He).
  destruct (write_x_cases e old cap bufsize w [BSON_EOO]) as (r & e1 & E1 & [(-> & He1 & Hp1)|(-> & Hc & Hs)]); try done;
    [change (zlen [BSON_EOO]) with 1; lia..| |];
    unfold write_int8; change [u8 BSON_EOO] with [BSON_EOO]; rewrite E1; cbn [mbind option_bind].
  2:{ destruct Hs as (Hd & f & Hf & Hb). eexists _, _. split; [done|]. right. split_and!; [done|lia|]. split; [done|]. by exists f. }
  change (negb (0 =? 0)) with false. cbn iota. change (zlen [BSON_EOO]) with 1 in Hp1.
  assert (Forall Q (w ++ [BSON_EOO])) as Hw1 by (apply Forall_app; split; [done|by apply written_Q, Forall_singleton]).
  assert (zlen (w ++ [BSON_EOO]) = zlen w + 1) as Hl1 by (rewrite zlen_app; done).
  destruct (flush_cases e1 old cap bufsize (w ++ [BSON_EOO])) as (f1 & b1 & Hf1 & Hb1 & Er & H2); try done; [lia..|].
  rewrite Hf1, Hb1, (proj2 (Z.ltb_lt 0 _)), Er by lia. cbn [mbind option_bind]. rewrite Hl1 in H2.
  destruct (file_write f1 _) as [n f2]. destruct H2 as [Hf2 H2]. destruct (n =? e_bufpos e1); cbn [mbind option_bind].
  2:{ eexists _, _. split; [done|]. right. split_and!; [done|done|]. split; [done|]. by exists f2. }
  destruct H2 as (Hcap & -> & Htot). cbn [e_fd e_buf e_total_document_size with_fd]. rewrite Htot.
  unfold file_rewind. cbn [f_data f_capacity].
  pose proof (file_write_append [] ((w ++ [BSON_EOO]) ++ drop (length (w ++ [BSON_EOO])) old) cap
    (le_bytes 4 (u32 (zlen w + 1)))) as Hfw.
  cbn [app length] in Hfw. rewrite drop_0 in Hfw. change (zlen (@nil Z)) with 0 in Hfw. rewrite zlen_le_bytes in Hfw.
  rewrite Hfw by lia. cbn [Z.of_nat Pos.of_succ_nat Pos.succ].
  change (4 =? 4) with true. cbn iota. eexists _, _; split; [done|]. left. split; [done|]. split; [done|]. cbn [e_fd]. unfold doc.
  rewrite length_le_bytes. rewrite length_app. cbn [length].
  assert (4 <= length w)%nat by (unfold zlen in *; lia).
  rewrite (drop_app_le (w ++ [BSON_EOO])) by (rewrite length_app; simpl; lia). by rewrite <- app_assoc.
Qed.

(** The start of a document in the buffer. *)
Lemma init_encodes old cap buf :
  33 <= zlen buf < 2 ^ 31 -> Forall Q old ->
  exists e, bson_encoder_init_buf_file true (mkFile old 0 cap) buf (zlen buf) = Some (0, e) /\
    encodes e old cap (zlen buf) (le_bytes 4 (u32 0)).
Proof.
  intros HB Ho. unfold bson_encoder_init_buf_file, write_int32.
  assert (encodes (mkEncoder (Some (mkFile old 0 cap)) (Some buf) (zlen buf) 0 false false 0) old cap (zlen buf) []) as H0.
  { split; cbn; [|lia|done|done]. by exists [], buf. }
  destruct (write_x_cases _ old cap (zlen buf) [] (le_bytes 4 (u32 0)) H0) as (r & e1 & E1 & [(-> & He1 & _)|(-> & Hc & Hs)]);
    [rewrite ?zlen_le_bytes; change (zlen (@nil Z)) with 0; lia..|lia|done|done| |].
  - exists e1. rewrite E1. by split.
  - exfalso. unfold write_x in E1. cbn [e_dead e_fd e_buf make_room e_bufsize e_bufpos] in E1.
    rewrite zlen_le_bytes in E1. change (u32 (0 + Z.of_nat 4)) with 4 in E1.
    rewrite (proj2 (Z.ltb_ge (zlen buf) 4)) in E1 by lia. cbn [negb mbind option_bind e_buf e_bufpos default id] in E1.
    by rewrite mem_write_Some in E1 by (rewrite ?zlen_le_bytes; lia).
Qed.

(** A document is written, or the file is too small for it. *)
Lemma encode_file_cases old cap buf nodes :
  33 <= zlen buf < 2 ^ 31 -> Forall (node_ok 32 (zlen buf)) nodes -> zlen (document nodes) < 2 ^ 31 -> Forall Q old ->
  exists r e, encode_file (mkFile old 0 cap) buf nodes = Some (r, e) /\
    ((r = 0 /\ zlen (document nodes) <= cap /\
      e.(e_fd) = Some (mkFile (document nodes ++ drop (length (document nodes)) old) 4 cap)) \/
     (r = -1 /\ cap < zlen (document nodes) /\ spoiled e)).
Proof.
  intros HB Hn H31 Ho. unfold encode_file.
  assert (zlen (document nodes) = zlen (le_bytes 4 (u32 0) ++ concat (map node_bytes nodes)) + 1) as Hlen.
  { unfold document, body. rewrite !zlen_app, !zlen_le_bytes. change (zlen [BSON_EOO]) with 1. lia. }
  rewrite Hlen, zlen_app, zlen_le_bytes in *. pose proof (zlen_nonneg (concat (map node_bytes nodes))).
  destruct (init_encodes old cap buf HB Ho) as (e1 & E1 & He1). rewrite E1. cbn [mbind option_bind].
  change (negb (0 =? 0)) with false. cbn iota.
  destruct (append_all_cases nodes e1 old cap (zlen buf) (le_bytes 4 (u32 0))) as (r & e2 & E2 & [[-> He2]|(-> & Hc & Hs)]); try done;
    [rewrite zlen_le_bytes; lia|apply written_Q, le_bytes_ok|..]; rewrite E2; cbn [mbind option_bind].
  2:{ exists (-1), e2. split; [done|]. right. rewrite zlen_le_bytes in Hc. split_and!; [done|lia|done]. }
  change (negb (0 =? 0)) with false. cbn iota.
  destruct (fini_cases _ _ _ _ _ He2) as (r & e3 & E3 & H3); [lia|rewrite zlen_app, zlen_le_bytes; lia..|done| |].
  { apply written_Q, Forall_app. split; [apply le_bytes_ok|]. apply Forall_concat, Forall_map. eapply Forall_impl; [exact Hn|].
    intros nv Hnv. by apply (node_bytes_ok (zlen buf)); [lia|]. }
  rewrite zlen_app, zlen_le_bytes in H3. exists r, e3. split; [done|].
  destruct H3 as [(-> & Hc & Hfd)|H3]; [left|right; exact H3]. split; [done|]. split; [done|]. rewrite Hfd.
  assert (length (document nodes) = length (le_bytes 4 (u32 0) ++ concat (map node_bytes nodes)) + 1)%nat as ->.
  { unfold document, body. rewrite !length_app, !length_le_bytes. simpl. lia. }
  do 2 f_equal. f_equal. unfold document, body. rewrite !zlen_app. change (zlen [BSON_EOO]) with 1.
  rewrite <- (app_assoc (le_bytes 4 (u32 0))), drop_app_length' by (by rewrite length_le_bytes).
  f_equal. f_equal. f_equal. lia.
Qed.

End cases.

Lemma encode_file_ok old cap buf nodes :
  33 <= zlen buf < 2 ^ 31 -> Forall (node_ok 32 (zlen buf)) nodes ->
  zlen (document nodes) <= cap -> zlen (document nodes) < 2 ^ 31 ->
  exists e, encode_file (mkFile old 0 cap) buf nodes = Some (0, e) /\
    e.(e_fd) = Some (mkFile (document nodes ++ drop (length (document nodes)) old) 4 cap).
Proof.
  intros HB Hn Hcap H31. destruct (encode_file_cases (fun _ => True) ltac:(done) old cap buf nodes HB Hn H31) as (r & e & E & H1);
    [by apply Forall_true|]. destruct H1 as [(-> & _ & ?)|(_ & ? & _)]; [by exists e|lia].
Qed.

(** ** Decoding *)

(** A decoder that has read [pre] of a file and has [post] before it. *)
Definition reading (pre post : list Z) (cap nesting : Z) (n : bson_node) (pending doc : Z) (c : node_counts)
  : bson_decoder :=
  mkDecoder (Some (mkFile (pre ++ post) (zlen pre) cap)) None 0 0 false nesting n pending doc (zlen pre) c.

Lemma read_x_reading pre p post cap nesting n pending doc c :
  zlen pre + zlen p < 2 ^ 31 ->
  read_x (reading pre (p ++ post) cap nesting n pending doc c) (zlen p) =
    Some (Some p, reading (pre ++ p) post cap nesting n pending doc c).
Proof.
  intros H31. unfold read_x, reading. cbn [d_dead d_fd]. unfold file_read. cbn [f_data f_pos f_capacity].
  assert (slice (zlen pre) (zlen p) (pre ++ p ++ post) = p) as ->.
  { unfold slice, zlen. rewrite !Nat2Z.id, drop_app_length, take_app_length. done. }
  rewrite Z.eqb_refl. unfold dec_read. cbn. rewrite swrap_small by (pose proof (zlen_nonneg pre); pose proof (zlen_nonneg p); lia).
  by rewrite zlen_app, <- app_assoc.
Qed.

Lemma read_1_reading pre x post cap nesting n pending doc c :
  zlen pre + 1 < 2 ^ 31 ->
  read_x (reading pre (x :: post) cap nesting n pending doc c) 1 =
    Some (Some [x], reading (pre ++ [x]) post cap nesting n pending doc c).
Proof. apply (read_x_reading pre [x] post). Qed.

Lemma read_name_reading name : forall fuel pre post cap nesting n pending doc c acc,
  Forall (fun x => 0 < x < 256) name -> zlen acc + zlen name < BSON_MAXNAME -> (length name < fuel)%nat ->
  zlen pre + zlen name + 1 < 2 ^ 31 ->
  read_name fuel (reading pre (name ++ 0 :: post) cap nesting n pending doc c) acc =
    Some (Some (acc ++ name), reading (pre ++ name ++ [0]) post cap nesting n pending doc c).
Proof.
  induction name as [|x name IH]; intros fuel pre post cap nesting n pending doc c acc Hx Hl Hf H31;
    (destruct fuel as [|fuel]; [simpl in Hf; lia|]); cbn [read_name app].
  - change (zlen (@nil Z)) with 0 in *. decide_if. rewrite read_1_reading by lia. cbn. by rewrite app_nil_r.
  - apply Forall_cons in Hx as [Hx0 Hx]. rewrite zlen_cons in Hl, H31. pose proof (zlen_nonneg name).
    decide_if. rewrite read_1_reading by lia. cbn [mbind option_bind head]. decide_if.
    rewrite IH; [|done|rewrite zlen_app; change (zlen [x]) with 1; lia|simpl in Hf; lia|
      rewrite zlen_app; change (zlen [x]) with 1; lia].
    by rewrite <- !app_assoc.
Qed.

(** *** One node, for any callback *)

(** The node after the type and the name are read, before its value. *)
Lemma next_header {A} (cb : bson_decoder -> A -> option (Z * bson_decoder * A)) pre type name post cap n doc c st :
  n.(n_type) <> BSON_EOO -> 0 < type < 255 -> Forall (fun x => 0 < x < 256) name -> zlen name < BSON_MAXNAME ->
  zlen pre + zlen name + 2 < 2 ^ 31 ->
  bson_decoder_next cb (reading pre ([type] ++ (name ++ [0]) ++ post) cap 1 n 0 doc c) st =
    '(ok, d) ← read_value (reading (pre ++ [type] ++ (name ++ [0])) post cap 1
                 (mkBNode name type n.(n_subtype) n.(n_value)) 0 doc c);
    if ok : bool then cb d st else dec_fail d st.
Proof.
  intros Hn Ht Hname Hl H31. pose proof (zlen_nonneg name). pose proof (zlen_nonneg pre).
  unfold bson_decoder_next.
  set (d := reading pre ([type] ++ (name ++ [0]) ++ post) cap 1 n 0 doc c).
  change (d_dead d) with false. change (d_node d) with n. change (d_nesting d) with 1. cbn iota.
  rewrite (proj2 (Z.eqb_neq (n_type n) BSON_EOO)) by done. cbn [andb].
  change (with_nesting d (d_fd d) 1) with d. change (discard_pending (S (available d)) d) with (Some (true, d)).
  cbn [mbind option_bind negb]. unfold d. cbn [app].
  rewrite read_1_reading by lia. cbn [mbind option_bind le_value].
  replace (type + 256 * 0) with type by lia.
  change BSON_EOO with 0 in *. decide_if. decide_if.
  change (with_pending (with_node (reading ?p ?q ?k ?ne ?m ?pe ?dd ?cc) ?x) 0) with (reading p q k ne x 0 dd cc).
  rewrite <- app_assoc. cbn [d_node reading app].
  rewrite (read_name_reading name) by (first [done | unfold zlen, BSON_MAXNAME in *; simpl; rewrite ?length_app; simpl; lia]).
  cbn [mbind option_bind app].
  change (with_node (reading ?p ?q ?k ?ne ?m ?pe ?dd ?cc) ?x) with (reading p q k ne x pe dd cc).
  by rewrite <- !app_assoc.
Qed.

(** The value of a scalar node goes to the union; a boolean is normalised. *)
Definition store_scalar (d : bson_decoder) (f : list Z -> list Z) (k : Z) : option (bool * bson_decoder) :=
  let n := d.(d_node) in
  '(r, d) ← read_x d k;
  match r with
  | None => Some (false, d)
  | Some bytes =>
    value ← mem_write n.(n_value) 0 (f bytes);
    Some (true, with_counts (with_node d (mkBNode n.(n_name) n.(n_type) n.(n_subtype) value))
                  (count_node n.(n_type) d.(d_counts)))
  end.

Definition scalar_size (v : bvalue) : Z := match v with VBool _ => 1 | VInt32 _ => 4 | _ => 8 end.
Definition is_scalar (v : bvalue) : bool := match v with VString _ | VBinary _ _ => false | _ => true end.
Definition normalise (v : bvalue) (bytes : list Z) : list Z :=
  match v with VBool _ => [b2z (negb (le_value bytes =? 0))] | _ => bytes end.

Lemma read_value_scalar d v :
  d.(d_node).(n_type) = value_type v -> is_scalar v = true ->
  read_value d = store_scalar d (normalise v) (scalar_size v).
Proof.
  intros E Hs. unfold read_value. rewrite E. destruct v; try done.
  all: cbn [value_type scalar_size normalise]; unfold store_scalar; rewrite E; reflexivity.
Qed.

Lemma scalar_bytes v : is_scalar v = true -> zlen (value_bytes v) = scalar_size v /\ normalise v (value_bytes v) = value_bytes v.
Proof. destruct v as [b| | | | |]; try done; intros _; cbn [value_bytes normalise scalar_size]; rewrite ?zlen_le_bytes; [by destruct b|done..]. Qed.

Lemma next_scalar {A} (cb : bson_decoder -> A -> option (Z * bson_decoder * A)) pre name v post cap n doc c st bufsize :
  n.(n_type) <> BSON_EOO -> node_ok 31 bufsize (name, v) -> is_scalar v = true -> zlen n.(n_value) = 8 ->
  zlen pre + zlen (node_bytes (name, v)) < 2 ^ 31 ->
  bson_decoder_next cb (reading pre (node_bytes (name, v) ++ post) cap 1 n 0 doc c) st =
  cb (reading (pre ++ node_bytes (name, v)) post cap 1
        (mkBNode name (value_type v) n.(n_subtype) (splice 0 (value_bytes v) n.(n_value))) 0 doc
        (count_node (value_type v) c)) st.
Proof.
  intros Hn (Hname & Hl & Hv) Hs H8 H31. unfold node_bytes in *. cbn [fst snd] in *.
  rewrite !zlen_app in H31. change (zlen [value_type v]) with 1 in H31. change (zlen [0]) with 1 in H31.
  destruct (scalar_bytes v Hs) as [Hlen Hnorm]. rewrite Hlen in H31.
  assert (1 <= scalar_size v <= 8) by (destruct v; simpl; lia).
  rewrite <- !(app_assoc _ _ post).
  rewrite next_header; try done; [|by destruct v|unfold BSON_MAXNAME; lia|lia].
  rewrite (read_value_scalar _ v) by done. unfold store_scalar. cbn [d_node reading].
  fold (reading (pre ++ [value_type v] ++ name ++ [0]) (value_bytes v ++ post) cap 1
    (mkBNode name (value_type v) (n_subtype n) (n_value n)) 0 doc c).
  rewrite <- Hlen, read_x_reading
    by (rewrite !zlen_app; change (zlen [value_type v]) with 1; change (zlen [0]) with 1; lia).
  cbn [mbind option_bind n_value]. rewrite Hnorm, mem_write_Some by lia. cbn [mbind option_bind].
  rewrite <- !app_assoc. reflexivity.
Qed.

Lemma next_eoo {A} (cb : bson_decoder -> A -> option (Z * bson_decoder * A)) pre post cap n doc c st :
  n.(n_type) <> BSON_EOO -> zlen pre + 1 < 2 ^ 31 ->
  bson_decoder_next cb (reading pre (BSON_EOO :: post) cap 1 n 0 doc c) st =
  cb (reading (pre ++ [BSON_EOO]) post cap 1 (mkBNode [] BSON_EOO n.(n_subtype) n.(n_value)) 0 doc c) st.
Proof.
  intros Hn H31. unfold bson_decoder_next.
  set (d := reading pre (BSON_EOO :: post) cap 1 n 0 doc c).
  change (d_dead d) with false. change (d_node d) with n. change (d_nesting d) with 1. cbn iota.
  rewrite (proj2 (Z.eqb_neq (n_type n) BSON_EOO)) by done. cbn [andb].
  change (with_nesting d (d_fd d) 1) with d. change (discard_pending (S (available d)) d) with (Some (true, d)).
  cbn [mbind option_bind negb]. unfold d. rewrite read_1_reading by lia. reflexivity.
Qed.

Lemma next_string {A} (cb : bson_decoder -> A -> option (Z * bson_decoder * A)) pre name s post cap n doc c st bufsize :
  n.(n_type) <> BSON_EOO -> node_ok 31 bufsize (name, VString s) ->
  zlen pre + zlen (node_bytes (name, VString s)) < 2 ^ 31 ->
  exists pre', bson_decoder_next cb (reading pre (node_bytes (name, VString s) ++ post) cap 1 n 0 doc c) st =
    cb (reading pre' ((s ++ [0]) ++ post) cap 1
        (mkBNode name BSON_STRING n.(n_subtype) n.(n_value)) (zlen (s ++ [0])) doc (count_node BSON_STRING c)) st /\
    pre' ++ s ++ [0] = pre ++ node_bytes (name, VString s).
Proof.
  intros Hn (Hname & Hl & Hv) H31. unfold node_bytes in *. cbn [fst snd value_type value_bytes] in *.
  exists (((pre ++ [BSON_STRING] ++ name ++ [0])) ++ le_bytes 4 (u32 (zlen s + 1))).
  split; [|by rewrite <- !app_assoc].
  rewrite !zlen_app, zlen_le_bytes in H31. change (zlen [0]) with 1 in *. change (zlen [BSON_STRING]) with 1 in H31.
  pose proof (zlen_nonneg s). pose proof (zlen_nonneg pre). pose proof (zlen_nonneg name).
  rewrite <- !(app_assoc _ _ post).
  rewrite next_header; try done; [|unfold BSON_MAXNAME; lia|lia].
  unfold read_value. change (n_type (d_node (reading ?p ?q ?k ?ne ?m ?pe ?dd ?cc))) with (n_type m). cbn [n_type].
  change (BSON_STRING =? BSON_DOUBLE) with false. change (BSON_STRING =? BSON_STRING) with true. cbn iota.
  replace 4 with (zlen (le_bytes 4 (u32 (zlen s + 1)))) by (by rewrite zlen_le_bytes).
  rewrite read_x_reading by (rewrite !zlen_app, zlen_le_bytes; change (zlen [0]) with 1; change (zlen [BSON_STRING]) with 1; lia).
  cbn [mbind option_bind]. rewrite le_value_le_bytes, uwrap_idemp, swrap_uwrap, swrap_small by lia.
  rewrite zlen_app, <- !app_assoc. reflexivity.
Qed.

Lemma next_binary {A} (cb : bson_decoder -> A -> option (Z * bson_decoder * A)) pre name t data post cap n doc c st bufsize :
  n.(n_type) <> BSON_EOO -> node_ok 31 bufsize (name, VBinary t data) ->
  zlen pre + zlen (node_bytes (name, VBinary t data)) < 2 ^ 31 ->
  exists pre', bson_decoder_next cb (reading pre (node_bytes (name, VBinary t data) ++ post) cap 1 n 0 doc c) st =
    cb (reading pre' (data ++ post) cap 1
        (mkBNode name BSON_BINDATA t n.(n_value)) (zlen data) doc (count_node BSON_BINDATA c)) st /\
    pre' ++ data = pre ++ node_bytes (name, VBinary t data).
Proof.
  intros Hn (Hname & Hl & Hd & Hlen & Ht) H31. unfold node_bytes in *. cbn [fst snd value_type value_bytes] in *.
  exists ((((pre ++ [BSON_BINDATA] ++ name ++ [0])) ++ le_bytes 4 (u32 (zlen data))) ++ [u8 t]).
  split; [|by rewrite <- !app_assoc].
  rewrite !zlen_app, zlen_le_bytes in H31. change (zlen [0]) with 1 in *. change (zlen [BSON_BINDATA]) with 1 in H31.
  change (zlen [u8 t]) with 1 in H31.
  pose proof (zlen_nonneg data). pose proof (zlen_nonneg pre). pose proof (zlen_nonneg name).
  rewrite <- !(app_assoc _ _ post).
  rewrite next_header; try done; [|unfold BSON_MAXNAME; lia|lia].
  unfold read_value. change (n_type (d_node (reading ?p ?q ?k ?ne ?m ?pe ?dd ?cc))) with (n_type m). cbn [n_type].
  change (BSON_BINDATA =? BSON_DOUBLE) with false. change (BSON_BINDATA =? BSON_STRING) with false.
  change (BSON_BINDATA =? BSON_BINDATA) with true. cbn iota.
  replace 4 with (zlen (le_bytes 4 (u32 (zlen data)))) by (by rewrite zlen_le_bytes).
  rewrite read_x_reading by (rewrite !zlen_app, zlen_le_bytes; change (zlen [0]) with 1; change (zlen [BSON_BINDATA]) with 1; lia).
  cbn [mbind option_bind]. rewrite le_value_le_bytes, uwrap_idemp, swrap_uwrap, swrap_small by lia.
  change (with_pending (reading ?p ?q ?k ?ne ?m ?pe ?dd ?cc) ?x) with (reading p q k ne m x dd cc). cbn [app].
  rewrite read_1_reading by (rewrite !zlen_app, zlen_cons, zlen_app, zlen_le_bytes; change (zlen [0]) with 1; lia).
  cbn [mbind option_bind le_value]. rewrite (uwrap_small 8 t) by lia. replace (t + 256 * 0) with t by lia.
  rewrite <- !app_assoc. reflexivity.
Qed.

Lemma copy_data_reading pre p post cap n doc c :
  zlen pre + zlen p < 2 ^ 31 ->
  bson_decoder_copy_data (reading pre (p ++ post) cap 1 n (zlen p) doc c) =
    Some (0, p, reading (pre ++ p) post cap 1 n 0 doc c).
Proof.
  intros H31. unfold bson_decoder_copy_data. pose proof (zlen_nonneg p). pose proof (zlen_nonneg pre).
  set (d := reading pre (p ++ post) cap 1 n (zlen p) doc c).
  change (d_dead d) with false. change (d_pending d) with (zlen p). cbn iota.
  rewrite uwrap_small by lia. unfold d. rewrite read_x_reading by lia. reflexivity.
Qed.

Lemma scalar_value name t sub v old :
  is_scalar v = true -> zlen old = 8 ->
  match v with VInt32 i => - 2 ^ 31 <= i < 2 ^ 31 | VInt64 i => - 2 ^ 63 <= i < 2 ^ 63
    | VDouble d => 0 <= d < 2 ^ 64 | _ => True end ->
  let n := mkBNode name t sub (splice 0 (value_bytes v) old) in
  match v with
  | VBool b => node_b n = b
  | VInt32 i => node_i32 n = i
  | VInt64 i => node_i64 n = i
  | VDouble d => node_d n = d
  | _ => True
  end.
Proof.
  intros Hs H8 Hr n. assert (forall p, take (length p) (splice 0 p old) = p) as Htk.
  { intros p. unfold splice. simpl. apply take_app_length. }
  destruct v as [b|i|i|d| |]; try done; subst n; unfold node_b, node_i32, node_i64, node_d; cbn [n_value value_bytes].
  - change 1%nat with (length [b2z b]). rewrite Htk. by destruct b.
  - pose proof (Htk (le_bytes 4 (u32 i))) as E. rewrite length_le_bytes in E. rewrite E.
    rewrite le_value_le_bytes, uwrap_idemp, swrap_uwrap, swrap_small by lia. done.
  - rewrite splice_all by (by rewrite zlen_le_bytes, H8).
    rewrite le_value_le_bytes, uwrap_idemp, swrap_uwrap, swrap_small by lia. done.
  - rewrite splice_all by (by rewrite zlen_le_bytes, H8).
    rewrite le_value_le_bytes, uwrap_idemp by lia. by apply uwrap_small.
Qed.

(** One node read by the collecting callback. *)
Lemma collect_next pre nv post cap n doc c st bufsize :
  n.(n_type) <> BSON_EOO -> node_ok 31 bufsize nv -> zlen n.(n_value) = 8 ->
  zlen pre + zlen (node_bytes nv) < 2 ^ 31 ->
  exists n' c', bson_decoder_next collect (reading pre (node_bytes nv ++ post) cap 1 n 0 doc c) st =
    Some (1, reading (pre ++ node_bytes nv) post cap 1 n' 0 doc c', st ++ [nv]) /\
    n'.(n_type) <> BSON_EOO /\ zlen n'.(n_value) = 8.
Proof.
  intros Hn Hok H8 H31. destruct nv as [name v]. destruct (is_scalar v) eqn:Hs.
  - rewrite (next_scalar collect pre name v post cap n doc c st bufsize) by done.
    destruct (scalar_bytes v Hs) as [Hlen _].
    assert (1 <= scalar_size v <= 8) by (destruct v; simpl; lia).
    exists (mkBNode name (value_type v) n.(n_subtype) (splice 0 (value_bytes v) n.(n_value))), (count_node (value_type v) c).
    split; [|split; [by destruct v|cbn [n_value]; rewrite zlen_splice; lia]].
    unfold collect. change (d_node (reading ?p ?q ?k ?ne ?m ?pe ?dd ?cc)) with m. cbn [n_type n_name].
    pose proof (scalar_value name (value_type v) (n_subtype n) v (n_value n) Hs H8) as Hval.
    destruct Hok as (_ & _ & Hv). cbn [snd] in Hv. cbn zeta in Hval.
    destruct v; try done; cbn [value_type] in *; rewrite Hval by done; reflexivity.
  - destruct v as [| | | |s|t data]; try done.
    + destruct (next_string collect pre name s post cap n doc c st bufsize) as (pre' & E & Ep); try done. rewrite E.
      exists (mkBNode name BSON_STRING n.(n_subtype) n.(n_value)), (count_node BSON_STRING c).
      split; [|by split].
      unfold collect. change (d_node (reading ?p ?q ?k ?ne ?m ?pe ?dd ?cc)) with m. cbn [n_type n_name n_subtype].
      change (BSON_STRING =? BSON_EOO) with false. cbn -[bson_decoder_copy_data].
      rewrite copy_data_reading by (rewrite <- zlen_app, Ep, zlen_app; lia).
      cbn [mbind option_bind]. rewrite Ep, length_app, Nat.add_sub, take_app_length. done.
    + destruct (next_binary collect pre name t data post cap n doc c st bufsize) as (pre' & E & Ep); try done. rewrite E.
      exists (mkBNode name BSON_BINDATA t n.(n_value)), (count_node BSON_BINDATA c).
      split; [|by split].
      unfold collect. change (d_node (reading ?p ?q ?k ?ne ?m ?pe ?dd ?cc)) with m. cbn [n_type n_name n_subtype].
      rewrite copy_data_reading by (rewrite <- zlen_app, Ep, zlen_app; lia).
      cbn [mbind option_bind]. rewrite Ep. done.
Qed.

(** A whole document. *)
Lemma body_cons nv nodes : body (nv :: nodes) = node_bytes nv ++ body nodes.
Proof. unfold body. cbn [map concat]. by rewrite <- app_assoc. Qed.

(** What a callback sees of a scalar node. *)
Record holds_node (n : bson_node) (nv : list Z * bvalue) : Prop := {
  hn_name : n.(n_name) = nv.1;
  hn_type : n.(n_type) = value_type nv.2;
  hn_len : zlen n.(n_value) = 8;
  hn_value : match nv.2 with
             | VBool b => node_b n = b
             | VInt32 i => node_i32 n = i
             | VInt64 i => node_i64 n = i
             | VDouble d => node_d n = d
             | _ => True
             end;
}.

Lemma splice_holds name v sub old bufsize :
  node_ok 31 bufsize (name, v) -> is_scalar v = true -> zlen old = 8 ->
  holds_node (mkBNode name (value_type v) sub (splice 0 (value_bytes v) old)) (name, v).
Proof.
  intros (_ & _ & Hv) Hs H8. destruct (scalar_bytes v Hs) as [Hl _].
  assert (1 <= scalar_size v <= 8) by (destruct v; simpl; lia). split; [done|done| |].
  - cbn [n_value]. rewrite zlen_splice; lia.
  - pose proof (scalar_value name (value_type v) sub v old Hs H8) as H1. cbn [snd fst] in *. by destruct v; try apply H1.
Qed.

(** A document of scalar nodes read by a callback that accepts the [good] nodes: [Inv] relates
    its state to the nodes that it has accepted. *)
Section scalar_loop.
Context {A : Type} (cb : bson_decoder -> A -> option (Z * bson_decoder * A)) (bufsize : Z).
Context (Inv : list (list Z * bvalue) -> A -> Prop) (good : list Z * bvalue -> bool).

Definition accepts (nv : list Z * bvalue) : Prop :=
  forall seen d st, Inv seen st -> holds_node d.(d_node) nv -> exists r st', cb d st = Some (r, d, st') /\
    if good nv then r = 1 /\ Inv (seen ++ [nv]) st' else r = -1.

Lemma scalar_loop nodes : forall fuel pre post cap n doc c seen st,
  (forall d st, d.(d_node).(n_type) = BSON_EOO -> cb d st = Some (0, d, st)) -> Forall accepts nodes ->
  n.(n_type) <> BSON_EOO -> zlen n.(n_value) = 8 ->
  Forall (fun nv => node_ok 31 bufsize nv /\ is_scalar nv.2 = true) nodes -> Inv seen st ->
  (length nodes < fuel)%nat -> zlen pre + zlen (body nodes) < 2 ^ 31 ->
  exists r d' st', decode_loop cb fuel (reading pre (body nodes ++ post) cap 1 n 0 doc c) st = Some (r, d', st') /\
    if forallb good nodes
    then r = 0 /\ Inv (seen ++ nodes) st' /\ d'.(d_total_document_size) = doc /\
         d'.(d_total_decoded_size) = zlen pre + zlen (body nodes)
    else r = -1.
Proof.
  induction nodes as [|[name v] nodes IH]; intros fuel pre post cap n doc c seen st Heoo Hacc Hn H8 Hok HI Hf H31;
    (destruct fuel as [|fuel]; [simpl in Hf; lia|]); cbn [decode_loop].
  - change (body [] ++ post) with (BSON_EOO :: post). change (zlen (body [])) with 1 in *.
    rewrite next_eoo, Heoo by done. cbn [mbind option_bind]. change (0 <? 0) with false. cbn iota.
    do 3 eexists; split; [done|]. cbn [forallb]. rewrite app_nil_r. split_and!; try done. cbn. by rewrite zlen_app.
  - apply Forall_cons in Hacc as [Hacc1 Hacc], Hok as [[Hnv Hs] Hok].
    rewrite body_cons in *. rewrite zlen_app in *. rewrite <- app_assoc. pose proof (zlen_nonneg (body nodes)).
    rewrite (next_scalar cb pre name v (body nodes ++ post) cap n doc c st bufsize) by (done || lia).
    set (n' := mkBNode name (value_type v) _ _). pose proof (splice_holds name v (n_subtype n) (n_value n) bufsize Hnv Hs H8) as Hh.
    match goal with |- context [cb ?d st] => destruct (Hacc1 seen d st HI Hh) as (r & st1 & E & Hr); rewrite E end.
    cbn [mbind option_bind forallb]. destruct (good (name, v)); cbn [andb].
    2:{ subst r. change (0 <? -1) with false. cbn iota. by do 3 eexists. }
    destruct Hr as [-> HI1]. change (0 <? 1) with true. cbn iota.
    destruct (IH fuel (pre ++ node_bytes (name, v)) post cap n' doc (count_node (value_type v) c) (seen ++ [(name, v)]) st1)
      as (r & d' & st' & E2 & H2); try done; [by destruct v|apply Hh|simpl in Hf; lia|rewrite zlen_app; lia|].
    do 3 eexists; split; [exact E2|]. destruct (forallb good nodes); [|done]. rewrite <- app_assoc in H2.
    destruct H2 as (? & ? & ? & Ht). split_and!; try done. rewrite Ht, zlen_app. lia.
Qed.
End scalar_loop.

Lemma collect_loop nodes : forall fuel pre post cap n doc c st bufsize,
  n.(n_type) <> BSON_EOO -> zlen n.(n_value) = 8 -> Forall (node_ok 31 bufsize) nodes ->
  (length nodes < fuel)%nat -> zlen pre + zlen (body nodes) < 2 ^ 31 ->
  exists d', decode_loop collect fuel (reading pre (body nodes ++ post) cap 1 n 0 doc c) st =
    Some (0, d', st ++ nodes) /\ d'.(d_total_document_size) = doc /\
    d'.(d_total_decoded_size) = zlen pre + zlen (body nodes).
Proof.
  induction nodes as [|nv nodes IH]; intros fuel pre post cap n doc c st bufsize Hn H8 Hok Hf H31;
    (destruct fuel as [|fuel]; [simpl in Hf; lia|]); cbn [decode_loop].
  - change (body [] ++ post) with (BSON_EOO :: post). change (zlen (body [])) with 1 in *.
    rewrite next_eoo by done. cbn. eexists; split; [by rewrite app_nil_r|]. split; [done|].
    cbn. rewrite zlen_app. done.
  - apply Forall_cons in Hok as [Hnv Hok].
    rewrite body_cons in *. rewrite zlen_app in *. rewrite <- app_assoc.
    pose proof (zlen_nonneg (body nodes)).
    destruct (collect_next pre nv (body nodes ++ post) cap n doc c st bufsize) as (n' & c' & -> & Hn' & H8'); try done; [lia|].
    cbn [mbind option_bind]. change (0 <? 1) with true. cbn iota.
    destruct (IH fuel (pre ++ node_bytes nv) post cap n' doc c' (st ++ [nv]) bufsize) as (d' & E & Ed & Et);
      try done; [simpl in Hf; lia|rewrite zlen_app; lia|].
    exists d'. rewrite E, <- app_assoc, Ed, Et, zlen_app. split; [done|]. split; [done|lia].
Qed.

Lemma init_file_document nodes post cap :
  zlen (document nodes) < 2 ^ 31 ->
  bson_decoder_init_file (mkFile (document nodes ++ post) 0 cap) =
    Some (0, reading (le_bytes 4 (u32 (zlen (document nodes)))) (body nodes ++ post) cap 1
               (mkBNode [] BSON_UNDEFINED 0 (replicate 8 0)) 0 (zlen (document nodes)) counts0).
Proof.
  intros H31. unfold bson_decoder_init_file. pose proof (zlen_nonneg (body nodes)).
  assert (zlen (document nodes) = 4 + zlen (body nodes)) as El.
  { unfold document. rewrite zlen_app, zlen_le_bytes. done. }
  rewrite El in *. unfold document. rewrite <- app_assoc.
  pose proof (read_x_reading [] (le_bytes 4 (u32 (4 + zlen (body nodes)))) (body nodes ++ post) cap 1
    (mkBNode [] BSON_UNDEFINED 0 (replicate 8 0)) 0 0 counts0) as Hr.
  unfold reading at 1 in Hr. cbn [app] in Hr. change (zlen (@nil Z)) with 0 in Hr. rewrite zlen_le_bytes in Hr.
  change (Z.of_nat 4) with 4 in Hr. rewrite Hr by lia. cbn [mbind option_bind].
  rewrite le_value_le_bytes, uwrap_idemp, swrap_uwrap, swrap_small by lia. reflexivity.
Qed.

Lemma length_nodes_body nodes : (length nodes < length (body nodes))%nat.
Proof.
  unfold body. rewrite length_app. simpl.
  enough (length nodes <= length (concat (map node_bytes nodes)))%nat by lia.
  induction nodes as [|nv nodes IH]; simpl; [lia|]. rewrite length_app. lia.
Qed.

(** ** Any input

    The decoder on a file with arbitrary contents: no step is undefined, and every step
    that returns a positive result has consumed at least one byte. *)
Record node_wf (n : bson_node) : Prop := {
  nw_name : Forall (fun c => 0 < c < 256) n.(n_name);
  nw_len : length n.(n_value) = 8%nat;
  nw_bytes : Forall byte_ok n.(n_value);
}.

Record file_mode (d : bson_decoder) (f : file) : Prop := {
  fm_fd : d.(d_fd) = Some f;
  fm_pos : 0 <= f.(f_pos) <= zlen f.(f_data);
  fm_bytes : Forall byte_ok f.(f_data);
  fm_node : node_wf d.(d_node);
}.

Lemma node_wf_rename n name type sub :
  node_wf n -> Forall (fun c => 0 < c < 256) name -> node_wf (mkBNode name type sub n.(n_value)).
Proof. by intros []; split. Qed.

Lemma node_wf_splice n type sub bytes :
  node_wf n -> Forall byte_ok bytes -> zlen bytes <= 8 -> node_wf (mkBNode n.(n_name) type sub (splice 0 bytes n.(n_value))).
Proof.
  intros [Hn Hl Hb] Hby H8. split; cbn [n_name n_value]; [done| |].
  - pose proof (zlen_splice 0 bytes (n_value n)) as E. unfold zlen in *. rewrite Hl in E. lia.
  - unfold splice. simpl. apply Forall_app. split; [done|by apply Forall_drop].
Qed.

(** [d'] continues [d], having consumed at least [k] bytes. *)
Definition advances (f : file) (k : Z) (d' : bson_decoder) : Prop :=
  exists f', file_mode d' f' /\ f'.(f_data) = f.(f_data) /\ f.(f_pos) + k <= f'.(f_pos).

Lemma advances_trans f k d' f' k' d'' :
  file_mode d' f' -> f'.(f_data) = f.(f_data) -> f.(f_pos) + k <= f'.(f_pos) -> advances f' k' d'' ->
  advances f (k + k') d''.
Proof. intros _ Hd Hp (f2 & Hm & Hd2 & Hp2). exists f2. split_and!; [done|congruence|lia]. Qed.

Lemma advances_le f k k' d : advances f k d -> k' <= k -> advances f k' d.
Proof. intros (f' & ? & ? & ?) ?. exists f'. split_and!; [done..|lia]. Qed.

Lemma read_x_total d f s :
  file_mode d f -> 0 <= s ->
  exists r d', read_x d s = Some (r, d') /\ d'.(d_node) = d.(d_node) /\ d'.(d_pending) = d.(d_pending) /\
    match r with Some bytes => zlen bytes = s /\ Forall byte_ok bytes /\ advances f s d' | None => advances f 0 d' end.
Proof.
  intros [Hfd Hp Hby Hv] Hs. unfold read_x. destruct (d_dead d).
  { do 2 eexists; split; [done|]. split; [done|]. split; [done|]. exists f. split_and!; [by constructor|done|lia]. }
  rewrite Hfd. unfold file_read.
  assert (zlen (slice (f_pos f) s (f_data f)) = Z.min s (zlen (f_data f) - f_pos f)) as Hl.
  { unfold slice, zlen in *. rewrite length_take, length_drop. lia. }
  rewrite Hl. case_if; do 2 eexists; (split; [done|]); (split; [done|]); (split; [done|]).
  - split; [lia|]. split; [by apply Forall_take, Forall_drop|].
    eexists. split; [constructor; [done|cbn; lia|done|done]|split; [done|cbn; lia]].
  - eexists. split; [constructor; [done|cbn; lia|done|done]|split; [done|cbn; lia]].
Qed.

Lemma file_mode_with_pending d f p : file_mode d f -> file_mode (with_pending d p) f.
Proof. by intros []; constructor. Qed.

Lemma available_file d f : file_mode d f -> available d = Z.to_nat (zlen f.(f_data) - f.(f_pos)).
Proof. intros [Hfd _ _ _]. unfold available. by rewrite Hfd. Qed.

Lemma discard_pending_total fuel : forall d f,
  file_mode d f -> (Z.to_nat (zlen f.(f_data) - f.(f_pos)) < fuel)%nat ->
  exists ok d', discard_pending fuel d = Some (ok, d') /\ d'.(d_node) = d.(d_node) /\ advances f 0 d'.
Proof.
  induction fuel as [|fuel IH]; intros d f Hm Hf; [lia|]. cbn [discard_pending].
  case_if; [do 2 eexists; split; [done|]; split; [done|]; exists f; split_and!; [done|done|lia]|].
  destruct (read_x_total d f 1 Hm) as (r & d1 & E & En & Ep & Hr); [lia|]. rewrite E. cbn [mbind option_bind].
  destruct r as [bytes|]; [|by do 2 eexists].
  destruct Hr as (_ & _ & f1 & Hm1 & Hd1 & Hp1).
  destruct (IH (with_pending d1 (d_pending d1 - 1)) f1) as (ok & d2 & E2 & En2 & Ha).
  { by apply file_mode_with_pending. }
  { rewrite Hd1. pose proof (fm_pos _ _ Hm1) as Hp. rewrite Hd1 in Hp. lia. }
  rewrite E2. do 2 eexists; split; [done|]. split; [by rewrite En2|].
  eapply advances_le; [by eapply advances_trans|lia].
Qed.

Lemma read_name_total fuel : forall d f acc,
  file_mode d f -> BSON_MAXNAME <= zlen acc + Z.of_nat fuel -> Forall (fun c => 0 < c < 256) acc ->
  exists r d', read_name fuel d acc = Some (r, d') /\ d'.(d_node) = d.(d_node) /\ advances f 0 d' /\
    from_option (Forall (fun c => 0 < c < 256)) True r.
Proof.
  induction fuel as [|fuel IH]; intros d f acc Hm Hf Hacc; cbn [read_name].
  { decide_if. do 2 eexists; split; [done|]. split; [done|]. split; [|done]. exists f. split_and!; [done|done|lia]. }
  case_if; [do 2 eexists; split; [done|]; split; [done|]; split; [|done]; exists f; split_and!; [done|done|lia]|].
  destruct (read_x_total d f 1 Hm) as (r & d1 & E & En & Ep & Hr); [lia|]. rewrite E. cbn [mbind option_bind].
  destruct r as [bytes|]; [|by do 2 eexists].
  destruct Hr as (Hl & Hby & f1 & Hm1 & Hd1 & Hp1). destruct bytes as [|x bytes]; [done|]. cbn [head mbind option_bind].
  assert (advances f 0 d1) by (exists f1; split_and!; [done..|lia]).
  case_if; [by do 2 eexists|]. apply Forall_cons in Hby as [Hx _].
  destruct (IH d1 f1 (acc ++ [x])) as (r & d2 & E2 & En2 & Ha & Hr); [done| | |].
  { rewrite zlen_app. change (zlen [x]) with 1. lia. }
  { apply Forall_app. split; [done|]. apply Forall_singleton. unfold byte_ok in Hx. lia. }
  rewrite E2. do 2 eexists; split; [done|]. split; [by rewrite En2|]. split; [|done].
  eapply advances_le; [by eapply advances_trans|lia].
Qed.

Lemma advances_same d f : file_mode d f -> advances f 0 d.
Proof. intros Hm. exists f. split_and!; [done|done|lia]. Qed.

(** Changing only the node, the pending count or the counters. *)
Lemma advances_fields f k d d' :
  advances f k d -> d'.(d_fd) = d.(d_fd) -> node_wf d'.(d_node) -> advances f k d'.
Proof.
  intros (f' & [Hfd Hp Hby Hv] & Hd & Hk) E Hn. exists f'. split_and!; [|done|lia]. constructor; [congruence|done..].
Qed.

Lemma store_scalar_total d f g k :
  file_mode d f -> 0 <= k ->
  (forall bytes, zlen bytes = k -> Forall byte_ok bytes -> zlen (g bytes) <= 8 /\ Forall byte_ok (g bytes)) ->
  exists ok d', store_scalar d g k = Some (ok, d') /\ advances f 0 d'.
Proof.
  intros Hm Hk Hg. unfold store_scalar. pose proof (fm_node _ _ Hm) as Hn.
  destruct (read_x_total d f k Hm Hk) as (r & d1 & E & En & _ & Hr). rewrite E. cbn [mbind option_bind].
  destruct r as [bytes|]; [|by do 2 eexists]. destruct Hr as (Hl & Hby & Ha). destruct (Hg _ Hl Hby) as [H8 Hgb].
  pose proof (nw_len _ Hn). rewrite mem_write_Some by (unfold zlen in *; lia). cbn [mbind option_bind].
  do 2 eexists; split; [done|]. eapply advances_fields; [eapply advances_le; [done|lia]|done|].
  cbn [d_node with_counts with_node]. by apply node_wf_splice.
Qed.

Lemma read_value_total d f : file_mode d f -> exists ok d', read_value d = Some (ok, d') /\ advances f 0 d'.
Proof.
  intros Hm. pose proof (fm_node _ _ Hm) as Hn. unfold read_value.
  destruct (n_type (d_node d) =? BSON_DOUBLE).
  { apply (store_scalar_total d f id 8 Hm); [lia|]. intros b Hb. cbn. split; [lia|done]. }
  destruct (n_type (d_node d) =? BSON_STRING).
  { destruct (read_x_total d f 4 Hm) as (r & d1 & E & En & _ & Hr); [lia|]. rewrite E. cbn [mbind option_bind].
    destruct r as [bytes|]; [|by do 2 eexists]. destruct Hr as (_ & _ & Ha).
    do 2 eexists; split; [done|]. eapply advances_fields; [eapply advances_le; [done|lia]|done|]. cbn. by rewrite En. }
  destruct (n_type (d_node d) =? BSON_BINDATA).
  { destruct (read_x_total d f 4 Hm) as (r & d1 & E & En & _ & Hr); [lia|]. rewrite E. cbn [mbind option_bind].
    destruct r as [bytes|]; [|by do 2 eexists]. destruct Hr as (_ & _ & f1 & Hm1 & Hd1 & Hp1).
    destruct (read_x_total (with_pending d1 (s32 (le_value bytes))) f1 1) as (r & d2 & E2 & En2 & _ & Hr2);
      [by apply file_mode_with_pending|lia|]. rewrite E2. cbn [mbind option_bind].
    destruct r as [bytes2|].
    - destruct Hr2 as (_ & _ & Ha). do 2 eexists; split; [done|].
      apply (advances_fields f _ d2); [|done|by apply node_wf_rename, Hn].
      apply (advances_le f (4 + 1)); [exact (advances_trans f 4 d1 f1 1 d2 Hm1 Hd1 Hp1 Ha)|lia].
    - do 2 eexists; split; [done|].
      apply (advances_le f (4 + 0)); [exact (advances_trans f 4 d1 f1 0 d2 Hm1 Hd1 Hp1 Hr2)|lia]. }
  destruct (n_type (d_node d) =? BSON_BOOL).
  { apply (store_scalar_total d f (fun bytes => [b2z (negb (le_value bytes =? 0))]) 1 Hm); [lia|].
    intros b _ _. split; [done|]. apply Forall_singleton. unfold byte_ok. destruct (negb _); simpl; lia. }
  destruct (n_type (d_node d) =? BSON_INT32).
  { apply (store_scalar_total d f id 4 Hm); [lia|]. intros b Hb. cbn. split; [lia|done]. }
  destruct (n_type (d_node d) =? BSON_INT64).
  { apply (store_scalar_total d f id 8 Hm); [lia|]. intros b Hb. cbn. split; [lia|done]. }
  do 2 eexists; split; [done|]. by apply advances_same.
Qed.

(** A callback that returns, does not rewind the file and keeps an invariant of its state. *)
Definition callback_ok {A} (I : A -> Prop) (cb : bson_decoder -> A -> option (Z * bson_decoder * A)) : Prop :=
  forall d f st, file_mode d f -> I st -> exists r d' st', cb d st = Some (r, d', st') /\ advances f 0 d' /\ I st'.

Section total.
Context {A : Type} (I : A -> Prop) (cb : bson_decoder -> A -> option (Z * bson_decoder * A)) (Hcb : callback_ok I cb).

Lemma next_total d f st :
  file_mode d f -> I st ->
  exists r d' st', bson_decoder_next cb d st = Some (r, d', st') /\ (r <= 0 \/ advances f 1 d') /\ I st'.
Proof.
  intros Hm Hst. unfold bson_decoder_next. destruct (d_dead d); [do 3 eexists; split; [done|]; split; [by left|done]|].
  cbv zeta. destruct (_ && (_ =? 0)); [do 3 eexists; split; [done|]; split; [by left|done]|].
  match goal with |- context [with_nesting d (d_fd d) ?k] => set (d0 := with_nesting d (d_fd d) k) end.
  assert (file_mode d0 f) as Hm0 by (by destruct Hm; constructor).
  destruct (discard_pending_total (S (available d0)) d0 f Hm0) as (ok & d1 & E1 & En1 & f1 & Hm1 & Hd1 & Hp1);
    [rewrite (available_file _ _ Hm0); lia|].
  rewrite E1. cbn [mbind option_bind]. destruct ok; cbn [negb]; [|do 3 eexists; split; [done|]; split; [by left|done]].
  destruct (read_x_total d1 f1 1 Hm1) as (r & d2 & E2 & En2 & _ & Hr); [lia|]. rewrite E2. cbn [mbind option_bind].
  destruct r as [bytes|]; [|do 3 eexists; split; [done|]; split; [by left|done]].
  destruct Hr as (_ & _ & f2 & Hm2 & Hd2 & Hp2). pose proof (fm_node _ _ Hm2) as Hn.
  assert (forall d3 k, advances f2 k d3 -> 0 <= k -> advances f 1 d3) as Hfin.
  { intros d3 k (f3 & ? & Hd3 & ?) ?. exists f3. split_and!; [done|congruence|lia]. }
  match goal with |- context [with_pending (with_node d2 ?n) 0] => set (d3 := with_pending (with_node d2 n) 0) end.
  assert (forall d f name type sub, file_mode d f -> Forall (fun c => 0 < c < 256) name ->
    file_mode (with_node d (mkBNode name type sub (n_value (d_node d2)))) f) as Hset.
  { intros d' f' name type sub [] Hname. constructor; [done..|]. by apply node_wf_rename. }
  assert (file_mode d3 f2) as Hm3 by (apply file_mode_with_pending, Hset; [done|apply Hn]).
  destruct (le_value bytes =? BSON_EOO).
  { destruct (Hcb (with_node d3 (mkBNode [] (le_value bytes) (n_subtype (d_node d2)) (n_value (d_node d2)))) f2 st)
      as (r & d4 & st' & E & Ha & Hst'); [by apply Hset|done|].
    do 3 eexists; split; [exact E|]. split; [|done]. right. eapply Hfin; [done|lia]. }
  destruct (le_value bytes =? 255); [do 3 eexists; split; [done|]; split; [by left|done]|].
  destruct (read_name_total (Z.to_nat BSON_MAXNAME) d3 f2 [] Hm3) as (name & d4 & E4 & En4 & (f4 & Hm4 & Hd4 & Hp4) & Hname);
    [unfold BSON_MAXNAME, zlen; simpl; lia|done|]. rewrite E4. cbn [mbind option_bind].
  destruct name as [name|]; [|do 3 eexists; split; [done|]; split; [by left|done]].
  destruct (read_value_total (with_node d4 (mkBNode name (le_value bytes) (n_subtype (d_node d2)) (n_value (d_node d2)))) f4)
    as (ok & d5 & E5 & f5 & Hm5 & Hd5 & Hp5); [by apply Hset|].
  rewrite E5. cbn [mbind option_bind]. destruct ok; [|do 3 eexists; split; [done|]; split; [by left|done]].
  destruct (Hcb d5 f5 st Hm5 Hst) as (r & d6 & st' & E & (f6 & Hm6 & Hd6 & Hp6) & Hst').
  do 3 eexists; split; [exact E|]. split; [|done]. right. exists f6. split_and!; [done|congruence|lia].
Qed.

Lemma decode_loop_total fuel : forall d f st,
  file_mode d f -> I st -> (Z.to_nat (zlen f.(f_data) - f.(f_pos)) < fuel)%nat ->
  exists r d' st', decode_loop cb fuel d st = Some (r, d', st') /\ r <= 0 /\ I st'.
Proof.
  induction fuel as [|fuel IH]; intros d f st Hm Hst Hf; [lia|]. cbn [decode_loop].
  destruct (next_total d f st Hm Hst) as (r & d1 & st1 & E & Hr & Hst1). rewrite E. cbn [mbind option_bind].
  case_if; [|do 3 eexists; split; [done|]; split; [lia|done]].
  destruct Hr as [?|(f1 & Hm1 & Hd1 & Hp1)]; [lia|].
  apply (IH d1 f1 st1 Hm1 Hst1). pose proof (fm_pos _ _ Hm1) as Hp. rewrite Hd1 in *. lia.
Qed.
End total.

Lemma decode_total {A} (I : A -> Prop) (cb : bson_decoder -> A -> option (Z * bson_decoder * A)) f st fuel :
  callback_ok I cb -> I st -> 0 <= f.(f_pos) <= zlen f.(f_data) -> Forall byte_ok f.(f_data) ->
  (length f.(f_data) < fuel)%nat ->
  exists ret d, bson_decoder_init_file f = Some (ret, d) /\
    (ret = 0 -> exists r d' st', decode_loop cb fuel d st = Some (r, d', st') /\ r <= 0 /\ I st').
Proof.
  intros Hcb Hst Hp Hby Hf. unfold bson_decoder_init_file.
  match goal with |- context [read_x ?d 4] => destruct (read_x_total d f 4) as (r & d1 & E & _ & _ & Hr) end;
    [constructor; try done; split; [done..|]; repeat constructor; lia|lia|].
  rewrite E. cbn [mbind option_bind]. destruct r as [bytes|]; [|do 2 eexists; split; [done|lia]].
  destruct Hr as (_ & _ & f1 & Hm1 & Hd1 & Hp1). do 2 eexists; split; [done|]. intros _.
  eapply (decode_loop_total I cb Hcb _ _ f1); [by destruct Hm1; constructor|done|].
  pose proof (fm_pos _ _ Hm1). rewrite Hd1 in *. unfold zlen in *. lia.
Qed.

(** ** Names at the limit, and documents in memory *)

Lemma read_name_overflow name : forall fuel pre post cap nesting n pending doc c acc,
  Forall (fun x => 0 < x < 256) name -> zlen acc + zlen name = BSON_MAXNAME -> (length name <= fuel)%nat ->
  zlen pre + zlen name < 2 ^ 31 ->
  exists d', read_name fuel (reading pre (name ++ post) cap nesting n pending doc c) acc = Some (None, d').
Proof.
  induction name as [|x name IH]; intros fuel pre post cap nesting n pending doc c acc Hx Hl Hf H31.
  - change (zlen (@nil Z)) with 0 in *. destruct fuel; cbn [read_name]; decide_if; eauto.
  - apply Forall_cons in Hx as [Hx0 Hx]. rewrite zlen_cons in Hl, H31. pose proof (zlen_nonneg name).
    destruct fuel as [|fuel]; [simpl in Hf; lia|]. cbn [read_name app]. decide_if.
    rewrite read_1_reading by lia. cbn [mbind option_bind head]. decide_if.
    apply IH; [done|rewrite zlen_app; change (zlen [x]) with 1; lia|simpl in Hf; lia|
      rewrite zlen_app; change (zlen [x]) with 1; lia].
Qed.

Lemma next_long_name {A} (cb : bson_decoder -> A -> option (Z * bson_decoder * A)) pre type name post cap n doc c st :
  n.(n_type) <> BSON_EOO -> 0 < type < 255 -> Forall (fun x => 0 < x < 256) name -> zlen name = BSON_MAXNAME ->
  zlen pre + zlen name + 1 < 2 ^ 31 ->
  exists d', bson_decoder_next cb (reading pre ([type] ++ name ++ post) cap 1 n 0 doc c) st = Some (-1, d', st).
Proof.
  intros Hn Ht Hname Hl H31. pose proof (zlen_nonneg pre). pose proof (zlen_nonneg name). unfold bson_decoder_next.
  set (d := reading pre ([type] ++ name ++ post) cap 1 n 0 doc c).
  change (d_dead d) with false. change (d_node d) with n. change (d_nesting d) with 1. cbn iota.
  rewrite (proj2 (Z.eqb_neq (n_type n) BSON_EOO)) by done. cbn [andb].
  change (with_nesting d (d_fd d) 1) with d. change (discard_pending (S (available d)) d) with (Some (true, d)).
  cbn [mbind option_bind negb]. unfold d. cbn [app]. rewrite read_1_reading by lia. cbn [mbind option_bind le_value].
  replace (type + 256 * 0) with type by lia. change BSON_EOO with 0 in *. decide_if. decide_if.
  change (with_pending (with_node (reading ?p ?q ?k ?ne ?m ?pe ?dd ?cc) ?x) 0) with (reading p q k ne x 0 dd cc).
  match goal with |- context [read_name _ (reading ?p ?q ?k ?ne ?x 0 ?dd ?cc) []] =>
    destruct (read_name_overflow name (Z.to_nat BSON_MAXNAME) p post k ne x 0 dd cc []) as [d' E] end.
  - done.
  - rewrite Hl. done.
  - unfold zlen, BSON_MAXNAME in *. lia.
  - rewrite zlen_app. change (zlen [type]) with 1. lia.
  - rewrite E. cbn. eauto.
Qed.

(** An encoder in memory: it has no file, and its document size stays 0. *)
Definition in_memory (e : bson_encoder) : Prop := e.(e_fd) = None /\ e.(e_total_document_size) = 0.

Lemma make_room_in_memory ok fuel : forall e s r,
  in_memory e -> make_room ok fuel e s = Some r ->
  match r with inl e' => in_memory e' | inr (_, e') => in_memory e' end.
Proof.
  induction fuel as [|fuel IH]; intros e s r [Hfd Ht] E; [done|]. cbn [make_room] in E. rewrite Hfd in E.
  destruct (negb _); [simplify_eq; by split|].
  destruct (negb _); [simplify_eq; by split|]. destruct (negb ok); [simplify_eq; by split|].
  eapply IH; [|exact E]. by split.
Qed.

Lemma write_x_in_memory ok e p r e' : in_memory e -> write_x ok e p = Some (r, e') -> in_memory e'.
Proof.
  intros Hm E. unfold write_x in E. destruct (e_dead e); [by simplify_eq|]. destruct Hm as [Hfd Ht]. rewrite Hfd in E.
  destruct (make_room _ _ _ _) as [r'|] eqn:Er; [|done].
  apply make_room_in_memory in Er; [|done]. cbn [mbind option_bind] in E.
  destruct r' as [e1|[r1 e1]]; [|by simplify_eq].
  destruct (mem_write _ _ _); [|done]. cbn in E. by simplify_eq.
Qed.

Lemma then_write_in_memory r k r' e' :
  (forall ret e, r = Some (ret, e) -> in_memory e) ->
  (forall e ret e'', in_memory e -> k e = Some (ret, e'') -> in_memory e'') ->
  then_write r k = Some (r', e') -> in_memory e'.
Proof.
  intros Hr Hk E. unfold then_write in E. destruct r as [[ret e]|]; [|done]. simpl in E.
  specialize (Hr _ _ eq_refl). case_if_in E; [by eapply Hk|by simplify_eq].
Qed.

Lemma or_kill_in_memory r r' e' :
  (forall ret e, r = Some (ret, e) -> in_memory e) -> or_kill r = Some (r', e') -> in_memory e'.
Proof.
  intros Hr E. unfold or_kill in E. destruct r as [[ret e]|]; [|done]. simpl in E.
  specialize (Hr _ _ eq_refl). destruct Hr. unfold enc_kill in E. case_if_in E; simplify_eq; by split.
Qed.

Lemma write_name_in_memory ok e name r e' : in_memory e -> write_name ok e name = Some (r, e') -> in_memory e'.
Proof.
  intros Hm E. unfold write_name, enc_kill in E. case_if_in E; [destruct Hm; simplify_eq; by split|by eapply write_x_in_memory].
Qed.

Create HintDb bson.
#[export] Hint Resolve write_x_in_memory write_name_in_memory : bson.

Lemma append_in_memory e nv r e' : in_memory e -> append e nv = Some (r, e') -> in_memory e'.
Proof.
  intros Hm E. destruct nv as [name v]. unfold append in E.
  destruct v; unfold bson_encoder_append_bool, bson_encoder_append_int32, bson_encoder_append_int64,
    bson_encoder_append_double, bson_encoder_append_string, bson_encoder_append_binary in E;
    (destruct (e_dead e); [by simplify_eq|]).
  6: destruct (mem_read _ _ _); [|done]; cbn [mbind option_bind] in E.
  all: eapply or_kill_in_memory in E; [done|]; intros ret e1 E1;
    repeat (eapply then_write_in_memory in E1; [exact E1| |unfold write_int8, write_int32, write_int64, write_double; eauto with bson];
            clear E1; clear ret e1; intros ret e1 E1);
    unfold write_int8 in E1; eauto with bson.
Qed.

Definition encode_mem (nodes : list (list Z * bvalue)) : option (Z * bson_encoder) :=
  '(ret, e) ← bson_encoder_init_buf true None 0;
  if negb (ret =? 0) then Some (ret, e)
  else
    '(ret, e) ← append_all e nodes;
    if negb (ret =? 0) then Some (ret, e) else bson_encoder_fini true e.

Lemma append_all_in_memory nodes : forall e r e', in_memory e -> append_all e nodes = Some (r, e') -> in_memory e'.
Proof.
  induction nodes as [|nv nodes IH]; intros e r e' Hm E; cbn [append_all] in E; [by simplify_eq|].
  destruct (append e nv) as [[r1 e1]|] eqn:E1; [|done]. cbn [mbind option_bind] in E.
  apply append_in_memory in E1; [|done]. case_if_in E; [by eapply IH|by simplify_eq].
Qed.

Lemma fini_in_memory e e' data :
  in_memory e -> bson_encoder_fini true e = Some (0, e') -> bson_encoder_buf_data e' = Some data ->
  exists rest, data = le_bytes 4 0 ++ rest.
Proof.
  intros Hm E Hd. unfold bson_encoder_fini in E. destruct (e_dead e); [done|].
  destruct (write_int8 true e BSON_EOO) as [[r1 e1]|] eqn:E1; [|done].
  apply write_x_in_memory in E1 as [Hfd Ht]; [|done]. cbn [mbind option_bind] in E.
  case_if_in E; [done|]. rewrite Hfd in E. cbn [mbind option_bind] in E.
  destruct (e_buf e1) as [buf|] eqn:Hb; rewrite ?Hfd, ?Ht, ?Hb in E.
  - destruct (mem_write buf 0 _) as [buf'|] eqn:Ew; [|done]. cbn [mbind option_bind] in E. simplify_eq.
    unfold bson_encoder_buf_data in Hd. simpl in Hd. rewrite ?Hfd in Hd. simplify_eq.
    unfold mem_write in Ew. case_if_in Ew; [|done]. simplify_eq. by eexists.
  - simplify_eq. unfold bson_encoder_buf_data in Hd. rewrite ?Hfd in Hd. congruence.
Qed.

(** ** What the coder guarantees *)

(** C25: a document written by the buffered file encoder, over any earlier contents of the
    file, is read back by the file decoder exactly: same names, types and values in the
    same order, the length field equal to the bytes decoded, result 0. Names have at most
    31 characters, and every string or blob fits the encoder's buffer. *)
Theorem bson_file_roundtrip old cap buf nodes :
  33 <= zlen buf < 2 ^ 31 -> Forall (node_ok 31 (zlen buf)) nodes ->
  zlen (document nodes) <= cap -> zlen (document nodes) < 2 ^ 31 ->
  exists e f d, encode_file (mkFile old 0 cap) buf nodes = Some (0, e) /\ e.(e_fd) = Some f /\
    decode_file (file_rewind f) = Some (0, d, nodes) /\
    d.(d_total_document_size) = d.(d_total_decoded_size).
Proof.
  intros HB Hn Hcap H31.
  destruct (encode_file_ok old cap buf nodes HB) as (e & E & Hfd); try done.
  { eapply Forall_impl; [exact Hn|]. intros nv (? & ? & ?). split; [done|]. split; [lia|done]. }
  eexists e, _. unfold file_rewind. cbn [f_data f_capacity].
  assert (zlen (document nodes) = 4 + zlen (body nodes)) as El.
  { unfold document. rewrite zlen_app, zlen_le_bytes. done. }
  destruct (collect_loop nodes (S (S (length (document nodes ++ drop (length (document nodes)) old))))
    (le_bytes 4 (u32 (zlen (document nodes)))) (drop (length (document nodes)) old) cap
    (mkBNode [] BSON_UNDEFINED 0 (replicate 8 0)) (zlen (document nodes)) counts0 [] (zlen buf)) as (d & Ed & Hds & Hdt); try done.
  { pose proof (length_nodes_body nodes). unfold document. rewrite !length_app. lia. }
  { rewrite zlen_le_bytes. lia. }
  exists d. split_and!; [done|exact Hfd| |rewrite Hds, Hdt, zlen_le_bytes; lia].
  unfold decode_file. cbn [f_data]. rewrite init_file_document by done. cbn [mbind option_bind].
  change (negb (0 =? 0)) with false. cbn iota. exact Ed.
Qed.

(** C26: decoding terminates on a file with any contents, for any callback that returns,
    does not rewind the file and keeps an invariant of its state: the loop of
    [bson_decoder_next] calls ends with a result that is not positive after at most one
    call per byte, no read or store is out of bounds, and the invariant holds. *)
Theorem bson_decode_total {A} (I : A -> Prop) (cb : bson_decoder -> A -> option (Z * bson_decoder * A)) f st :
  callback_ok I cb -> I st -> 0 <= f.(f_pos) <= zlen f.(f_data) -> Forall byte_ok f.(f_data) ->
  exists ret d, bson_decoder_init_file f = Some (ret, d) /\
    (ret = 0 -> exists r d' st',
      decode_loop cb (S (length f.(f_data))) d st = Some (r, d', st') /\ r <= 0 /\ I st').
Proof.
  intros Hcb Hst Hp Hby. destruct (decode_total I cb f st (S (length f.(f_data))) Hcb Hst Hp Hby) as (ret & d & E & Hd); [lia|].
  by exists ret, d.
Qed.

(** The encoder and the decoder disagree on the longest name. A node whose name has
    exactly BSON_MAXNAME = 32 characters is encoded without an error, but the decoder
    stops there with "node name overflow": it returns -1 and reports no node. *)
Theorem bson_name_limit_mismatch cap buf name i :
  33 <= zlen buf < 2 ^ 31 -> Forall (fun c => 0 < c < 256) name -> zlen name = BSON_MAXNAME ->
  - 2 ^ 31 <= i < 2 ^ 31 -> 43 <= cap ->
  exists e f d, encode_file (mkFile [] 0 cap) buf [(name, VInt32 i)] = Some (0, e) /\ e.(e_fd) = Some f /\
    decode_file (file_rewind f) = Some (-1, d, []).
Proof.
  intros HB Hname Hl Hi Hcap. unfold BSON_MAXNAME in Hl.
  assert (zlen (document [(name, VInt32 i)]) = 43) as Hdoc.
  { unfold document, body, node_bytes. cbn [map concat fst snd value_bytes].
    rewrite !zlen_app, !zlen_le_bytes, Hl. reflexivity. }
  destruct (encode_file_ok [] cap buf [(name, VInt32 i)] HB) as (e & E & Hfd); [|lia..|].
  { apply Forall_singleton. split; [done|]. split; [cbn; lia|done]. }
  exists e, (mkFile (document [(name, VInt32 i)] ++ drop (length (document [(name, VInt32 i)])) []) 4 cap).
  unfold file_rewind, decode_file. cbn [f_data f_capacity]. rewrite Hfd.
  rewrite init_file_document by lia. cbn [mbind option_bind]. change (negb (0 =? 0)) with false. cbn iota.
  cbn [decode_loop]. rewrite body_cons. unfold node_bytes. cbn [fst snd value_type].
  rewrite <- !app_assoc.
  match goal with |- context [bson_decoder_next collect (reading ?p ([?t] ++ name ++ ?q) _ 1 ?n 0 ?dd ?c) _] =>
    destruct (next_long_name collect p t name q cap n dd c []) as [d' Ed] end.
  - done.
  - done.
  - done.
  - done.
  - rewrite zlen_le_bytes. lia.
  - exists d'. split; [done|]. split; [done|]. rewrite Ed. reflexivity.
Qed.

(** A document encoded in memory never gets its length: whatever is appended, the
    finished buffer starts with a zero length field, so that [bson_decoder_init_buf] asked
    to take the size from the header ([bufsize] 0) refuses it. *)
Theorem bson_memory_document_has_no_length nodes e data :
  encode_mem nodes = Some (0, e) -> bson_encoder_buf_data e = Some data ->
  exists rest d, data = le_bytes 4 0 ++ rest /\ bson_decoder_init_buf (Some data) 0 = Some (-1, d).
Proof.
  intros E Hd. unfold encode_mem in E.
  destruct (bson_encoder_init_buf true None 0) as [[r e1]|] eqn:E1; [|done]. cbn [mbind option_bind] in E.
  assert (in_memory e1) as Hm1.
  { unfold bson_encoder_init_buf in E1. eapply or_kill_in_memory in E1; [done|].
    intros ret e2 E2. eapply write_x_in_memory in E2; [done|]. by split. }
  case_if_in E; [by simplify_eq|]. destruct (append_all e1 nodes) as [[r2 e2]|] eqn:E2; [|done].
  cbn [mbind option_bind] in E. apply append_all_in_memory in E2; [|done]. case_if_in E; [by simplify_eq|].
  destruct (fini_in_memory _ _ _ E2 E Hd) as [rest ->]. eexists rest, _. split; [done|].
  unfold bson_decoder_init_buf. change (0 =? 0) with true. cbn iota.
  rewrite mem_read_Some by (rewrite ?zlen_app, ?zlen_le_bytes; pose proof (zlen_nonneg rest); lia).
  cbn [mbind option_bind]. reflexivity.
Qed.

(** ** Concrete documents *)

Definition sample_nodes : list (list Z * bvalue) :=
  [([83; 89; 83], VInt32 (-5)); ([77], VDouble 4614253070214989087); ([66], VBool true);
   ([76], VInt64 (- 2 ^ 40)); ([84], VString [104; 105]); ([82], VBinary 128 [1; 2; 3])].

Lemma bson_file_roundtrip_witness :
  exists e f d, encode_file (mkFile [9; 9; 9] 0 4096) (replicate 64 0) sample_nodes = Some (0, e) /\
    e.(e_fd) = Some f /\ decode_file (file_rewind f) = Some (0, d, sample_nodes) /\
    d.(d_total_document_size) = d.(d_total_decoded_size).
Proof.
  apply (bson_file_roundtrip [9; 9; 9] 4096 (replicate 64 0) sample_nodes); [done| |done|done].
  unfold sample_nodes. repeat (apply Forall_cons_2; [|]); [..|apply Forall_nil_2].
  all: split; [repeat (apply Forall_cons_2; [lia|]); apply Forall_nil_2|]; split; [done|]; cbn [snd];
    first [done | lia | split; [repeat (apply Forall_cons_2; [unfold byte_ok; lia|]); apply Forall_nil_2|]].
  - done.
  - split; [done|lia].
Defined.

Lemma collect_ok : callback_ok (fun _ => True) collect.
Proof.
  intros d f st Hm _. unfold collect. pose proof (advances_same d f Hm) as Ha.
  repeat (case_if; [by do 3 eexists|]). unfold bson_decoder_copy_data.
  destruct (d_dead d); [by do 3 eexists|].
  destruct (read_x_total d f (u32 (d_pending d)) Hm) as (r & d1 & E & En & _ & Hr);
    [pose proof (uwrap_range 32 (d_pending d)); lia|]. rewrite E. cbn [mbind option_bind].
  pose proof (fm_node _ _ Hm) as Hn. pose proof (uwrap_range 32 (d_pending d) ltac:(lia)).
  destruct r as [bytes|].
  - destruct Hr as (_ & _ & Hr). do 3 eexists; split; [done|]. split; [|done].
    apply (advances_fields f _ d1); [apply (advances_le f (u32 (d_pending d))); [done|lia]|done|cbn; by rewrite En].
  - do 3 eexists; split; [done|]. split; [|done]. apply (advances_fields f _ d1); [done|done|cbn; by rewrite En].
Qed.

Lemma bson_decode_total_witness :
  exists ret d, bson_decoder_init_file (mkFile [20; 0; 0; 0; 2; 65; 0; 255; 255; 255; 127] 0 4096) = Some (ret, d) /\
    (ret = 0 -> exists r d' st',
      decode_loop collect (S (length [20; 0; 0; 0; 2; 65; 0; 255; 255; 255; 127])) d [] = Some (r, d', st') /\ r <= 0 /\ True).
Proof.
  apply (bson_decode_total (fun _ => True) collect (mkFile [20; 0; 0; 0; 2; 65; 0; 255; 255; 255; 127] 0 4096));
    [apply collect_ok|done|done|]. repeat constructor; vm_compute; intuition discriminate.
Defined.

Lemma bson_name_limit_mismatch_witness :
  exists e f d, encode_file (mkFile [] 0 4096) (replicate 256 0) [(replicate 32 65, VInt32 7)] = Some (0, e) /\
    e.(e_fd) = Some f /\ decode_file (file_rewind f) = Some (-1, d, []).
Proof.
  apply (bson_name_limit_mismatch 4096 (replicate 256 0) (replicate 32 65) 7); [done| |done|done|done].
  apply Forall_replicate. lia.
Defined.

(** The encoder after a document in memory, and its buffer. *)
Definition mem_encoder : bson_encoder :=
  match encode_mem [([65], VInt32 7)] with Some (_, e) => e | None => mkEncoder None None 0 0 true false 0 end.
Definition mem_data : list Z := default [] mem_encoder.(e_buf).

Lemma bson_memory_document_has_no_length_witness :
  exists rest d, mem_data = le_bytes 4 0 ++ rest /\ bson_decoder_init_buf (Some mem_data) 0 = Some (-1, d).
Proof.
  apply (bson_memory_document_has_no_length [([65], VInt32 7)] mem_encoder mem_data); vm_compute; reflexivity.
Defined.
