(* ===== verification/ParamLayers.v ===== *)
(** * Parameter layers

    Models src/lib/parameters/{ParamLayer,ConstLayer,StaticSparseLayer,DynamicSparseLayer,
    ExhaustiveLayer}.h: the layers of which the parameter store is built. A layer holds
    overrides of parameter values and defers to its parent for the rest.

    A value is the 32-bit pattern of the union [param_value_u]. The lock of
    [AtomicTransaction] makes each operation one step, except for the window around
    [malloc] in [DynamicSparseLayer::_grow], which is modelled: every allocation is given
    its outcome and what other threads do to the layer while the lock is released.
    [None] is undefined behaviour: an access outside an array. *)
From stdpp Require Import base list gmap sorting.
From Stdlib Require Import ZArith Lia.
From S2P Require Import Prelude.
From S2P Require Import Containers.

(** ** The interface

    [layer_get] takes the parent's [get]; [contained] is [containedAsBitset]. *)
Class ParamLayer (L : Type) := {
  layer_store : L -> Z -> Z -> option (bool * L);
  layer_contains : L -> Z -> option bool;
  layer_contained : Z -> L -> option (list Z);
  layer_get : (Z -> option Z) -> L -> Z -> option Z;
  layer_reset : L -> Z -> option L;
  layer_size : L -> Z;
}.

(** What a sparse layer promises to its clients: it is a finite map of overrides with room
    for [layer_cap] of them ([None]: for all); a store inserts if there is room and leaves the
    map alone otherwise. [count] is PARAM_COUNT. *)
Definition map_fits (cap : option Z) (m : gmap Z Z) (p : Z) : bool :=
  bool_decide (is_Some (m !! p)) || match cap with Some n => Z.of_nat (size m) <? n | None => true end.

Class ParamLayerLaws (count : Z) (L : Type) `{ParamLayer L} := {
  layer_ok : L -> Prop;
  layer_map : L -> gmap Z Z;
  layer_cap : L -> option Z;
  layer_store_spec l p v : layer_ok l -> 0 <= p < count ->
    let ok := map_fits (layer_cap l) (layer_map l) p in
    exists l', layer_store l p v = Some (ok, l') /\ layer_ok l' /\ layer_cap l' = layer_cap l /\
      layer_map l' = (if ok then <[p := v]> (layer_map l) else layer_map l);
  layer_contains_spec l p : layer_ok l ->
    layer_contains l p = Some (bool_decide (is_Some (layer_map l !! p)));
  layer_contained_spec l : layer_ok l ->
    exists bits, layer_contained count l = Some bits /\ bitset_wf 32 count bits /\
      forall p, 0 <= p < count -> bit 32 bits p = bool_decide (is_Some (layer_map l !! p));
  layer_get_spec parent l p : layer_ok l ->
    layer_get parent l p = match layer_map l !! p with Some v => Some v | None => parent p end;
  layer_reset_spec l p : layer_ok l ->
    exists l', layer_reset l p = Some l' /\ layer_ok l' /\ layer_cap l' = layer_cap l /\
      layer_map l' = delete p (layer_map l);
  layer_cap_spec l : layer_ok l ->
    match layer_cap l with Some n => Z.of_nat (size (layer_map l)) <= n | None => True end;
  layer_size_spec l : layer_ok l -> layer_size l = Z.of_nat (size (layer_map l));
}.

Definition UINT16_MAX : Z := 65535.

(** ** Slots *)

Record Slot := mkSlot { param : Z; value : Z }.
#[global] Instance Slot_eq_dec : EqDecision Slot.
Proof. solve_decision. Defined.

Definition unused : Slot := mkSlot UINT16_MAX 0.

Definition _slotCompare (a b : Slot) : Z := a.(param) - b.(param).

(** [qsort] with [_slotCompare]: an insertion sort. Slots with equal keys are equal in
    every array that is sorted, so the order [qsort] leaves open does not matter. *)
Fixpoint qsort_insert (x : Slot) (l : list Slot) : list Slot :=
  match l with
  | [] => [x]
  | y :: l => if _slotCompare x y <=? 0 then x :: y :: l else y :: qsort_insert x l
  end.

Fixpoint qsort (l : list Slot) : list Slot :=
  match l with [] => [] | x :: l => qsort_insert x (qsort l) end.

(** [_getIndex]: binary search in the first [next_slot] slots; [next_slot] if there is none. *)
Fixpoint getIndex_loop (fuel : nat) (slots : list Slot) (next_slot p left right : Z) : option Z :=
  if negb (left <=? right) then Some next_slot
  else
    match fuel with
    | O => None
    | S fuel =>
      let mid := (left + right) / 2 in
      s ← zlookup slots mid;
      if s.(param) =? p then Some mid
      else if s.(param) <? p then getIndex_loop fuel slots next_slot p (mid + 1) right
      else getIndex_loop fuel slots next_slot p left (mid - 1)
    end.

Definition getIndex (slots : list Slot) (next_slot p : Z) : option Z :=
  getIndex_loop (Z.to_nat next_slot) slots next_slot p 0 (next_slot - 1).

(** The bits of the first [n] slots. *)
Definition contained_loop (count : Z) (slots : list Slot) (next_slot : Z) : option (list Z) :=
  foldl (fun bits s => bits ← bits; AtomicBitset_set bits s.(param) true)
    (Some (replicate (Z.to_nat (ARRAY_SIZE 32 count)) 0)) (take (Z.to_nat next_slot) slots).

(** ** StaticSparseLayer *)

Record StaticSparseLayer := mkStatic { st_slots : list Slot; st_next_slot : Z }.

Definition Static_init (N_SLOTS : Z) : StaticSparseLayer := mkStatic (replicate (Z.to_nat N_SLOTS) unused) 0.

Definition Static_store (l : StaticSparseLayer) (p v : Z) : option (bool * StaticSparseLayer) :=
  index ← getIndex l.(st_slots) l.(st_next_slot) p;
  if index <? l.(st_next_slot) then
    s ← zlookup l.(st_slots) index;
    slots ← zstore l.(st_slots) index (mkSlot s.(param) v);
    Some (true, mkStatic slots l.(st_next_slot))
  else if l.(st_next_slot) <? zlen l.(st_slots) then
    slots ← zstore l.(st_slots) l.(st_next_slot) (mkSlot p v);
    Some (true, mkStatic (qsort slots) (l.(st_next_slot) + 1))
  else Some (false, l).

Definition Static_contains (l : StaticSparseLayer) (p : Z) : option bool :=
  index ← getIndex l.(st_slots) l.(st_next_slot) p; Some (index <? l.(st_next_slot)).

Definition Static_containedAsBitset (count : Z) (l : StaticSparseLayer) : option (list Z) :=
  contained_loop count l.(st_slots) l.(st_next_slot).

Definition Static_get (parent : Z -> option Z) (l : StaticSparseLayer) (p : Z) : option Z :=
  index ← getIndex l.(st_slots) l.(st_next_slot) p;
  if index <? l.(st_next_slot) then value <$> zlookup l.(st_slots) index else parent p.

Definition Static_reset (l : StaticSparseLayer) (p : Z) : option StaticSparseLayer :=
  index ← getIndex l.(st_slots) l.(st_next_slot) p;
  if index <? l.(st_next_slot) then
    slots ← zstore l.(st_slots) index unused;
    Some (mkStatic (qsort slots) (l.(st_next_slot) - 1))
  else Some l.

Definition Static_size (l : StaticSparseLayer) : Z := l.(st_next_slot).

#[global] Instance Static_layer : ParamLayer StaticSparseLayer := {
  layer_store := Static_store; layer_contains := Static_contains;
  layer_contained := Static_containedAsBitset; layer_get := Static_get;
  layer_reset := Static_reset; layer_size := Static_size;
}.

(** ** DynamicSparseLayer *)

(** [_slots] is [None] for [nullptr]. *)
Record DynamicSparseLayer := mkDynamic {
  _slots : option (list Slot);
  _next_slot : Z;
  _n_slots : Z;
  _n_grow : Z;
}.

(** The constructor; [alloc_ok] is whether [malloc] succeeds. *)
Definition Dynamic_init (alloc_ok : bool) (n_prealloc n_grow : Z) : DynamicSparseLayer :=
  let n_grow := if 0 <? n_grow then n_grow else 1 in
  if alloc_ok then mkDynamic (Some (replicate (Z.to_nat n_prealloc) unused)) 0 n_prealloc n_grow
  else mkDynamic None 0 0 n_grow.

(** The destructor. *)
Definition Dynamic_destroy (l : DynamicSparseLayer) : DynamicSparseLayer := mkDynamic None 0 0 l.(_n_grow).

Definition slots_of (l : DynamicSparseLayer) : list Slot := default [] l.(_slots).

(** One pass of the loop of [_grow]: whether [malloc] succeeds, what other threads do while
    the lock is released for [malloc], and while it is released for [free]. *)
Record window := mkWindow {
  malloc_ok : bool;
  during_malloc : DynamicSparseLayer -> DynamicSparseLayer;
  during_free : DynamicSparseLayer -> DynamicSparseLayer;
}.

(** The loop of [_grow], a window for each pass; [None] when there are more passes than windows. *)
Fixpoint grow_loop (ws : list window) (l : DynamicSparseLayer) : option (bool * DynamicSparseLayer) :=
  if negb (l.(_n_slots) <=? l.(_next_slot)) then Some (l.(_next_slot) <? l.(_n_slots), l)
  else
    match ws with
    | [] => None
    | w :: ws =>
      let alloc_n_slots := l.(_n_slots) in
      let l := w.(during_malloc) l in
      if negb w.(malloc_ok) then Some (false, l)
      else if negb (l.(_n_slots) =? alloc_n_slots) then grow_loop ws l
      else
        (* memcpy of _n_slots slots into the new array, which has alloc_n_slots + _n_grow *)
        if alloc_n_slots + l.(_n_grow) <? l.(_n_slots) then None
        else
          previous ← (if zlen (slots_of l) <? l.(_n_slots) then None
                      else Some (take (Z.to_nat l.(_n_slots)) (slots_of l)));
          let new_slots := previous ++ replicate (Z.to_nat l.(_n_grow)) unused in
          let l := mkDynamic (Some new_slots) l.(_next_slot) (l.(_n_slots) + l.(_n_grow)) l.(_n_grow) in
          grow_loop ws (w.(during_free) l)
    end.

Definition grow (ws : list window) (l : DynamicSparseLayer) : option (bool * DynamicSparseLayer) :=
  if l.(_n_slots) =? 0 then Some (false, l) else grow_loop ws l.

(** [store]: two passes of its loop are enough, since a successful [_grow] leaves room. *)
Fixpoint Dynamic_store_loop (fuel : nat) (ws : list window) (l : DynamicSparseLayer) (p v : Z)
  : option (bool * DynamicSparseLayer) :=
  match fuel with
  | O => None
  | S fuel =>
    index ← getIndex (slots_of l) l.(_next_slot) p;
    if index <? l.(_next_slot) then
      s ← zlookup (slots_of l) index;
      slots ← zstore (slots_of l) index (mkSlot s.(param) v);
      Some (true, mkDynamic (Some slots) l.(_next_slot) l.(_n_slots) l.(_n_grow))
    else if l.(_next_slot) <? l.(_n_slots) then
      slots ← zstore (slots_of l) l.(_next_slot) (mkSlot p v);
      Some (true, mkDynamic (Some (qsort slots)) (l.(_next_slot) + 1) l.(_n_slots) l.(_n_grow))
    else
      '(ok, l) ← grow ws l;
      if negb ok then Some (false, l) else Dynamic_store_loop fuel ws l p v
  end.

Definition Dynamic_store (ws : list window) := Dynamic_store_loop 2 ws.

Definition Dynamic_contains (l : DynamicSparseLayer) (p : Z) : option bool :=
  index ← getIndex (slots_of l) l.(_next_slot) p; Some (index <? l.(_next_slot)).

Definition Dynamic_containedAsBitset (count : Z) (l : DynamicSparseLayer) : option (list Z) :=
  contained_loop count (slots_of l) l.(_next_slot).

Definition Dynamic_get (parent : Z -> option Z) (l : DynamicSparseLayer) (p : Z) : option Z :=
  index ← getIndex (slots_of l) l.(_next_slot) p;
  if index <? l.(_next_slot) then value <$> zlookup (slots_of l) index else parent p.

Definition Dynamic_reset (l : DynamicSparseLayer) (p : Z) : option DynamicSparseLayer :=
  index ← getIndex (slots_of l) l.(_next_slot) p;
  if index <? l.(_next_slot) then
    slots ← zstore (slots_of l) index unused;
    Some (mkDynamic (Some (qsort slots)) (l.(_next_slot) - 1) l.(_n_slots) l.(_n_grow))
  else Some l.

Definition Dynamic_size (l : DynamicSparseLayer) : Z := l.(_next_slot).

(** [byteSize]: a slot has eight bytes. *)
Definition Dynamic_byteSize (l : DynamicSparseLayer) : Z := l.(_n_slots) * 8.

(** Without other threads, and with [malloc] always or never succeeding. *)
Definition alone (alloc_ok : bool) : list window := [mkWindow alloc_ok id id].

Definition Dynamic_layer (alloc_ok : bool) : ParamLayer DynamicSparseLayer := {|
  layer_store := Dynamic_store (alone alloc_ok); layer_contains := Dynamic_contains;
  layer_contained := Dynamic_containedAsBitset; layer_get := Dynamic_get;
  layer_reset := Dynamic_reset; layer_size := Dynamic_size;
|}.

(** ** ConstLayer and ExhaustiveLayer *)

(** [px4::parameters], the generated table, given by its values. *)
Definition Const_get (table : list Z) (p : Z) : Z := default 0 (zlookup table p).
Definition Const_contains (table : list Z) (p : Z) : bool := p <? zlen table.
Definition Const_size (table : list Z) : Z := zlen table.

Record ExhaustiveLayer := mkExhaustive { _values : list Z; _ownership_set : list Z }.

Definition Exhaustive_init (count : Z) (parent : Z -> Z) : ExhaustiveLayer :=
  mkExhaustive (map parent (seqZ 0 count)) (replicate (Z.to_nat (ARRAY_SIZE 32 count)) 0).

Definition Exhaustive_store (l : ExhaustiveLayer) (p v : Z) : option (bool * ExhaustiveLayer) :=
  if zlen l.(_values) <=? p then Some (false, l)
  else
    values ← zstore l.(_values) p v;
    set ← AtomicBitset_set l.(_ownership_set) p true;
    Some (true, mkExhaustive values set).

Definition Exhaustive_contains (l : ExhaustiveLayer) (p : Z) : option bool :=
  if p <? zlen l.(_values) then AtomicBitset_get l.(_ownership_set) p else Some false.

Definition Exhaustive_get (l : ExhaustiveLayer) (p : Z) : option Z :=
  if zlen l.(_values) <=? p then Some 0 else zlookup l.(_values) p.

Definition Exhaustive_reset (parent : Z -> Z) (l : ExhaustiveLayer) (p : Z) : option ExhaustiveLayer :=
  if zlen l.(_values) <=? p then Some l
  else
    values ← zstore l.(_values) p (parent p);
    set ← AtomicBitset_set l.(_ownership_set) p false;
    Some (mkExhaustive values set).

Definition Exhaustive_refresh (parent : Z -> Z) (l : ExhaustiveLayer) (p : Z) : option ExhaustiveLayer :=
  c ← Exhaustive_contains l p;
  if c : bool then Some l else values ← zstore l.(_values) p (parent p); Some (mkExhaustive values l.(_ownership_set)).

(** ** Sorted slots as a finite map *)

Definition sorted (es : list Slot) : Prop := StronglySorted (fun a b => a.(param) < b.(param)) es.

Definition entries (es : list Slot) : gmap Z Z := list_to_map (map (fun s => (s.(param), s.(value))) es).

(** An array whose first slots are [es] and whose other slots are unused. *)
Record holds_slots (count : Z) (slots : list Slot) (next_slot : Z) (es : list Slot) : Prop := {
  hs_slots : exists k, slots = es ++ replicate k unused;
  hs_next : next_slot = zlen es;
  hs_sorted : sorted es;
  hs_range : Forall (fun s => 0 <= s.(param) < count) es;
}.

Lemma sorted_lookup es i j a b :
  sorted es -> zlookup es i = Some a -> zlookup es j = Some b -> i < j -> a.(param) < b.(param).
Proof.
  unfold zlookup. intros Hs Ha Hb Hij. case_if_in Ha; [|done]. case_if_in Hb; [|done].
  assert (Z.to_nat i < Z.to_nat j)%nat as H by lia.
  revert H Ha Hb. generalize (Z.to_nat i) (Z.to_nat j). clear -Hs. intros i j. revert i j.
  induction Hs as [|x es Hs IH Hx]; intros i j H Ha Hb; [done|].
  destruct j as [|j]; [lia|]. destruct i as [|i]; simpl in *.
  - simplify_eq. apply list_elem_of_lookup_2 in Hb. by eapply Forall_forall in Hx.
  - eapply IH; [|done|done]. lia.
Qed.

Lemma getIndex_loop_ok es tail p : forall fuel left right,
  sorted es -> 0 <= left -> right < zlen es -> left <= right + 1 -> (Z.to_nat (right - left + 1) <= fuel)%nat ->
  (forall i s, zlookup es i = Some s -> i < left -> s.(param) < p) ->
  (forall i s, zlookup es i = Some s -> right < i -> p < s.(param)) ->
  exists index, getIndex_loop fuel (es ++ tail) (zlen es) p left right = Some index /\
    ((exists s, zlookup es index = Some s /\ s.(param) = p) \/
     (index = zlen es /\ forall i s, zlookup es i = Some s -> s.(param) <> p)).
Proof.
  induction fuel as [|fuel IH]; intros left right Hs Hl Hr Hlr Hf Hlo Hhi; cbn [getIndex_loop].
  - decide_if. eexists; split; [done|]. right. split; [done|]. intros i s Hi.
    destruct (Z.lt_ge_cases i left); [pose proof (Hlo i s Hi ltac:(lia)); lia|pose proof (Hhi i s Hi ltac:(lia)); lia].
  - case_if.
    + eexists; split; [done|]. right. split; [done|]. intros i s Hi.
      destruct (Z.lt_ge_cases i left); [pose proof (Hlo i s Hi ltac:(lia)); lia|pose proof (Hhi i s Hi ltac:(lia)); lia].
    + pose proof (Z.div_mod (left + right) 2 ltac:(lia)). pose proof (Z.mod_pos_bound (left + right) 2 ltac:(lia)).
      set (mid := (left + right) / 2) in *. destruct (zlookup_lt es mid) as [s Hmid]; [lia|].
      assert (zlookup (es ++ tail) mid = Some s) as ->.
      { unfold zlookup in *. case_if_in Hmid; [|done]. by apply lookup_app_l_Some. }
      cbn [mbind option_bind]. case_if; [eexists; split; [done|]; left; eauto|]. case_if.
      * apply IH; try done; try lia. intros i s' Hi Hlt. destruct (Z.eq_dec i mid) as [->|]; [naive_solver|].
        pose proof (sorted_lookup es i mid s' s Hs Hi Hmid ltac:(lia)). lia.
      * apply IH; try done; try lia. intros i s' Hi Hlt. destruct (Z.eq_dec i mid) as [->|].
        -- rewrite Hmid in Hi. simplify_eq. lia.
        -- pose proof (sorted_lookup es mid i s s' Hs Hmid Hi ltac:(lia)). lia.
Qed.

Lemma zlookup_elem {A} (l : list A) i x : zlookup l i = Some x -> x ∈ l.
Proof. unfold zlookup. case_if; [|done]. apply list_elem_of_lookup_2. Qed.

Lemma elem_zlookup {A} (l : list A) x : x ∈ l -> exists i, zlookup l i = Some x.
Proof.
  intros [i Hi]%list_elem_of_lookup_1. exists (Z.of_nat i). unfold zlookup. case_if; [by rewrite Nat2Z.id|lia].
Qed.

Lemma sorted_NoDup es : sorted es -> NoDup (map param es).
Proof.
  induction 1 as [|x es Hs IH Hx]; simpl; constructor; [|done].
  intros Hin. apply list_elem_of_fmap in Hin as (y & E & Hy). rewrite Forall_forall in Hx. specialize (Hx _ Hy). simpl in Hx. lia.
Qed.

Lemma entries_lookup es p v : sorted es -> entries es !! p = Some v <-> mkSlot p v ∈ es.
Proof.
  intros Hs%sorted_NoDup. unfold entries. rewrite <- elem_of_list_to_map.
  - rewrite list_elem_of_fmap. split.
    + intros ([q w] & E & Hin). simpl in E. by simplify_eq.
    + intros Hin. by exists (mkSlot p v).
  - replace ((map (fun s => (param s, value s)) es).*1) with (map param es); [done|].
    rewrite <- list_fmap_compose. done.
Qed.

Lemma entries_lookup_None es p : sorted es -> entries es !! p = None <-> forall s, s ∈ es -> s.(param) <> p.
Proof.
  intros Hs. rewrite eq_None_not_Some. split.
  - intros Hn [q v] Hin E. simpl in E. subst. apply Hn. exists v. by apply entries_lookup.
  - intros Hf [v Hv]. apply entries_lookup in Hv; [|done]. by apply Hf in Hv.
Qed.

(** The search finds the slot of a parameter, or none. *)
Lemma getIndex_ok count slots next es p :
  holds_slots count slots next es ->
  exists index, getIndex slots next p = Some index /\
    ((index < next /\ exists v es1 es2, es = es1 ++ mkSlot p v :: es2 /\ index = zlen es1 /\ entries es !! p = Some v) \/
     (index = next /\ entries es !! p = None)).
Proof.
  intros [[k ->] -> Hs Hr]. unfold getIndex.
  destruct (getIndex_loop_ok es (replicate k unused) p (Z.to_nat (zlen es)) 0 (zlen es - 1))
    as (index & E & Hi); try done; try lia.
  { pose proof (zlen_nonneg es). lia. }
  { intros i s Hi. apply zlookup_Some_lt in Hi. lia. }
  { intros i s Hi. apply zlookup_Some_lt in Hi. lia. }
  exists index. split; [done|]. destruct Hi as [([q v] & Hl & Hq)|[-> Hn]].
  - simpl in Hq. subst q. left. pose proof (zlookup_Some_lt _ _ _ Hl). split; [lia|].
    pose proof (zlookup_elem _ _ _ Hl) as Hin. unfold zlookup in Hl. case_if_in Hl; [|done].
    exists v, (take (Z.to_nat index) es), (drop (S (Z.to_nat index)) es). split; [symmetry; by apply take_drop_middle|].
    split; [unfold zlen; rewrite length_take; unfold zlen in *; lia|]. by apply entries_lookup.
  - right. split; [done|]. apply entries_lookup_None; [done|]. intros s Hin%elem_zlookup. destruct Hin as [i Hi]. eauto.
Qed.

(** ** Sorting after an append and after a reset *)

Lemma qsort_insert_le x l : (forall y, y ∈ l -> x.(param) <= y.(param)) -> qsort_insert x l = x :: l.
Proof.
  intros H. destruct l as [|y l]; [done|]. simpl. unfold _slotCompare.
  specialize (H y ltac:(set_solver)). case_if; [done|lia].
Qed.

Lemma qsort_insert_past x l1 l2 :
  (forall y, y ∈ l1 -> y.(param) < x.(param)) -> qsort_insert x (l1 ++ l2) = l1 ++ qsort_insert x l2.
Proof.
  induction l1 as [|y l1 IH]; intros H; [done|]. simpl. unfold _slotCompare.
  pose proof (H y ltac:(set_solver)). case_if; [lia|]. f_equal. apply IH. set_solver.
Qed.

Lemma elem_of_qsort_insert x l y : y ∈ qsort_insert x l <-> y = x \/ y ∈ l.
Proof. induction l as [|z l IH]; simpl; [set_solver|]. case_if; set_solver. Qed.

Lemma elem_of_qsort l y : y ∈ qsort l <-> y ∈ l.
Proof. induction l as [|z l IH]; simpl; [done|]. rewrite elem_of_qsort_insert. set_solver. Qed.

Lemma qsort_prefix es l :
  sorted es -> (forall x y, x ∈ es -> y ∈ l -> x.(param) <= y.(param)) -> qsort (es ++ l) = es ++ qsort l.
Proof.
  induction 1 as [|x es Hs IH Hx]; intros H; [done|]. simpl. rewrite IH by set_solver.
  apply qsort_insert_le. intros y [Hy|Hy]%elem_of_app.
  - rewrite Forall_forall in Hx. specialize (Hx _ Hy). simpl in Hx. lia.
  - apply H; [set_solver|]. by apply elem_of_qsort.
Qed.

Lemma qsort_unused k : qsort (replicate k unused) = replicate k unused.
Proof.
  induction k as [|k IH]; [done|]. simpl. rewrite IH. apply qsort_insert_le. intros y Hy%elem_of_replicate.
  by destruct Hy as [-> _].
Qed.

Lemma sorted_app es1 es2 :
  sorted (es1 ++ es2) <->
  sorted es1 /\ sorted es2 /\ (forall x y, x ∈ es1 -> y ∈ es2 -> x.(param) < y.(param)).
Proof.
  unfold sorted. induction es1 as [|x es1 IH]; simpl.
  - split; [intros H; split_and!; [constructor|done|set_solver]|naive_solver].
  - split.
    + inversion 1 as [|? ? Hs Hx]; subst. apply IH in Hs as (H1 & H2 & H3). apply Forall_app in Hx as [Hx1 Hx2].
      split_and!; [by constructor|done|]. intros a b [->|Ha]%elem_of_cons Hb; [|by apply H3].
      by eapply Forall_forall in Hx2.
    + intros (H1 & H2 & H3). inversion H1 as [|? ? Hs Hx]; subst. constructor.
      * apply IH. split_and!; [done..|]. set_solver.
      * apply Forall_app_2; [done|]. apply Forall_forall. intros y Hy. apply H3; set_solver.
Qed.

(** Where a new parameter goes. *)
Lemma sorted_split es p :
  sorted es -> (forall s, s ∈ es -> s.(param) <> p) ->
  exists es1 es2, es = es1 ++ es2 /\ (forall s, s ∈ es1 -> s.(param) < p) /\ (forall s, s ∈ es2 -> p < s.(param)).
Proof.
  induction 1 as [|x es Hs IH Hx]; intros Hne; [by exists [], []; set_solver|].
  destruct (Z.lt_ge_cases (param x) p).
  - destruct IH as (es1 & es2 & -> & H1 & H2); [set_solver|]. exists (x :: es1), es2. set_solver.
  - exists [], (x :: es). split; [done|]. split; [set_solver|]. pose proof (Hne x ltac:(set_solver)).
    intros s [->|Hin]%elem_of_cons; [lia|]. rewrite Forall_forall in Hx. specialize (Hx _ Hin). simpl in Hx. lia.
Qed.

Lemma qsort_greater x es k :
  sorted es -> (forall s, s ∈ es -> x.(param) < s.(param) < UINT16_MAX) -> x.(param) < UINT16_MAX ->
  qsort (es ++ x :: replicate k unused) = x :: es ++ replicate k unused.
Proof.
  intros Hs. induction Hs as [|y es Hs IH Hy]; intros Hx HM; simpl.
  - rewrite qsort_unused. apply qsort_insert_le. intros y [-> _]%elem_of_replicate. simpl. lia.
  - rewrite IH by set_solver. pose proof (Hx y ltac:(set_solver)). simpl. unfold _slotCompare. case_if; [lia|].
    f_equal. apply qsort_insert_le. intros z [Hz|[-> _]%elem_of_replicate]%elem_of_app; [|simpl; lia].
    rewrite Forall_forall in Hy. specialize (Hy _ Hz). simpl in Hy. lia.
Qed.

Lemma qsort_append es1 es2 p v k :
  sorted (es1 ++ es2) -> (forall s, s ∈ es1 -> s.(param) < p) ->
  (forall s, s ∈ es2 -> p < s.(param) < UINT16_MAX) -> p < UINT16_MAX ->
  qsort ((es1 ++ es2) ++ mkSlot p v :: replicate k unused) = (es1 ++ mkSlot p v :: es2) ++ replicate k unused.
Proof.
  intros (Hs1 & Hs2 & H12)%sorted_app H1 H2 Hp. rewrite <- !app_assoc, qsort_prefix, qsort_greater; try done.
  intros x y Hx [Hy|[->|[-> _]%elem_of_replicate]%elem_of_cons]%elem_of_app.
  - pose proof (H12 x y Hx Hy). lia.
  - pose proof (H1 x Hx). simpl. lia.
  - pose proof (H1 x Hx). simpl. unfold UINT16_MAX in *. lia.
Qed.

Lemma qsort_reset es1 s es2 k :
  sorted (es1 ++ s :: es2) -> (forall x, x ∈ es1 ++ es2 -> x.(param) < UINT16_MAX) ->
  qsort (es1 ++ unused :: es2 ++ replicate k unused) = (es1 ++ es2) ++ replicate (S k) unused.
Proof.
  intros (Hs1 & Hs2 & H12)%sorted_app HM. inversion Hs2 as [|? ? Hs2' Hs]; subst.
  rewrite qsort_prefix; [|done|].
  - rewrite <- app_assoc. f_equal. simpl. rewrite (qsort_prefix es2), qsort_unused; [|done|].
    + rewrite qsort_insert_past by (intros y Hy; apply HM; set_solver). f_equal.
      apply qsort_insert_le. intros y [-> _]%elem_of_replicate. done.
    + intros x y Hx [-> _]%elem_of_replicate. pose proof (HM x ltac:(set_solver)). simpl. lia.
  - intros x y Hx Hy. rewrite elem_of_cons, elem_of_app, elem_of_replicate in Hy.
    pose proof (HM x ltac:(set_solver)). destruct Hy as [->|[Hy|[-> _]]]; simpl; [lia| |lia].
    pose proof (H12 x y Hx ltac:(set_solver)). lia.
Qed.

(** ** The three changes of an array of slots *)

Lemma sorted_middle es1 p v es2 s : sorted (es1 ++ mkSlot p v :: es2) -> s ∈ es1 ++ es2 -> s.(param) <> p.
Proof.
  intros (Hs1 & Hs2 & H12)%sorted_app [Hs|Hs]%elem_of_app.
  - pose proof (H12 s (mkSlot p v) Hs ltac:(set_solver)). simpl in *. lia.
  - inversion Hs2 as [|? ? _ Hf]; subst. rewrite Forall_forall in Hf. specialize (Hf _ Hs). simpl in Hf. lia.
Qed.

Lemma entries_middle es1 p v es2 :
  sorted (es1 ++ mkSlot p v :: es2) -> sorted (es1 ++ es2) ->
  entries (es1 ++ mkSlot p v :: es2) = <[p := v]> (entries (es1 ++ es2)).
Proof.
  intros Hs Hs'. apply map_eq. intros q. apply option_eq. intros w.
  rewrite entries_lookup by done. rewrite lookup_insert_Some, entries_lookup by done.
  rewrite elem_of_app, elem_of_cons. split.
  - intros [H|[E|H]]; [right|left; by simplify_eq|right].
    + pose proof (sorted_middle es1 p v es2 (mkSlot q w) Hs ltac:(set_solver)). simpl in *. set_solver.
    + pose proof (sorted_middle es1 p v es2 (mkSlot q w) Hs ltac:(set_solver)). simpl in *. set_solver.
  - intros [[-> ->]|[Hne [H|H]%elem_of_app]]; set_solver.
Qed.

Lemma sorted_same_keys es es' : map param es = map param es' -> sorted es -> sorted es'.
Proof.
  intros E Hs. revert es' E. induction Hs as [|x es Hs IH Hx]; intros [|y es'] E; simpl in E; try discriminate; [constructor|].
  injection E as Exy E. constructor; [by apply IH|]. apply Forall_forall. intros z Hz.
  assert (param z ∈ map param es') as Hin by (apply list_elem_of_fmap; eauto). rewrite <- E in Hin.
  apply list_elem_of_fmap in Hin as (w & Ew & Hw). rewrite Forall_forall in Hx. specialize (Hx _ Hw). simpl in *. lia.
Qed.

Lemma sorted_remove es1 s es2 : sorted (es1 ++ s :: es2) -> sorted (es1 ++ es2).
Proof.
  intros (Hs1 & Hs2 & H12)%sorted_app. inversion Hs2; subst. apply sorted_app. split_and!; [done..|]. set_solver.
Qed.

Lemma delete_entries es1 p v es2 :
  sorted (es1 ++ mkSlot p v :: es2) -> entries (es1 ++ es2) = delete p (entries (es1 ++ mkSlot p v :: es2)).
Proof.
  intros Hs. rewrite entries_middle by (done || by eapply sorted_remove).
  rewrite delete_insert_id; [done|]. apply entries_lookup_None; [by eapply sorted_remove|].
  intros s. by apply sorted_middle with (v := v).
Qed.

Section slots.
Context (count : Z) (count_ok : count <= UINT16_MAX).

Lemma slots_update slots next es1 p v0 es2 v :
  holds_slots count slots next (es1 ++ mkSlot p v0 :: es2) ->
  exists slots', zlookup slots (zlen es1) = Some (mkSlot p v0) /\ zstore slots (zlen es1) (mkSlot p v) = Some slots' /\
    zlen slots' = zlen slots /\ holds_slots count slots' next (es1 ++ mkSlot p v :: es2) /\
    entries (es1 ++ mkSlot p v :: es2) = <[p := v]> (entries (es1 ++ mkSlot p v0 :: es2)).
Proof.
  intros [[k ->] -> Hs Hr]. rewrite <- !app_assoc. cbn [app].
  assert (sorted (es1 ++ mkSlot p v :: es2)) as Hs'.
  { eapply sorted_same_keys; [|exact Hs]. by rewrite !map_app. }
  exists (es1 ++ mkSlot p v :: es2 ++ replicate k unused).
  unfold zlookup, zstore. rewrite !zlen_app, !zlen_cons. pose proof (zlen_nonneg es1).
  pose proof (zlen_nonneg (es2 ++ replicate k unused)). decide_if. rewrite (proj2 (andb_true_iff _ _)) by lia.
  assert (Z.to_nat (zlen es1) = length es1) as -> by (unfold zlen; lia).
  split; [by apply list_lookup_middle|].
  split; [by rewrite insert_app_r_alt, Nat.sub_diag by lia|]. split; [done|]. split.
  - split; [exists k; by rewrite <- app_assoc|by rewrite !zlen_app, !zlen_cons|done|].
    apply Forall_app in Hr as [Hr1 Hr2]. apply Forall_cons in Hr2 as [Hp Hr2]. apply Forall_app_2; [done|].
    by constructor.
  - rewrite !entries_middle by (done || by eapply sorted_remove). by rewrite insert_insert_eq.
Qed.

Lemma slots_append slots next es p v :
  holds_slots count slots next es -> entries es !! p = None -> next < zlen slots -> 0 <= p < count ->
  exists slots' es', zstore slots next (mkSlot p v) = Some slots' /\ zlen (qsort slots') = zlen slots /\
    holds_slots count (qsort slots') (next + 1) es' /\ entries es' = <[p := v]> (entries es).
Proof.
  intros [[k ->] -> Hs Hr] Hn Hlt Hp. rewrite entries_lookup_None in Hn by done.
  destruct (sorted_split es p Hs Hn) as (es1 & es2 & -> & H1 & H2).
  rewrite !zlen_app in Hlt. destruct k as [|k]; [change (zlen (replicate 0 unused)) with 0 in Hlt; lia|].
  rewrite Forall_forall in Hr.
  assert (forall s, s ∈ es2 -> p < s.(param) < UINT16_MAX) as H2'.
  { intros s Hin. pose proof (H2 s Hin). pose proof (Hr s ltac:(set_solver)). simpl in *. lia. }
  exists ((es1 ++ es2) ++ mkSlot p v :: replicate k unused), (es1 ++ mkSlot p v :: es2).
  rewrite qsort_append by (done || lia).
  assert (sorted (es1 ++ mkSlot p v :: es2)) as Hs'.
  { apply sorted_app in Hs as (Hs1 & Hs2 & H12). apply sorted_app. split_and!; [done| |].
    - constructor; [done|]. apply Forall_forall. intros s Hin. simpl. by apply H2.
    - intros x y Hx [->|Hy]%elem_of_cons; [by apply H1|by apply H12]. }
  split; [|split; [|split]].
  - unfold zstore. rewrite !zlen_app in *. pose proof (zlen_nonneg es1). pose proof (zlen_nonneg es2).
    pose proof (zlen_nonneg (replicate (S k) unused)). decide_if. f_equal.
    replace (Z.to_nat (zlen es1 + zlen es2)) with (length (es1 ++ es2) + 0)%nat
      by (rewrite length_app; unfold zlen; lia).
    by rewrite insert_app_r.
  - unfold zlen. rewrite !length_app. simpl. rewrite !length_replicate. lia.
  - split; [by exists k|rewrite !zlen_app, zlen_cons; lia|done|].
    apply Forall_forall. intros s Hin. rewrite elem_of_app, elem_of_cons in Hin.
    destruct Hin as [Hin|[->|Hin]]; [apply Hr; set_solver|simpl; lia|apply Hr; set_solver].
  - by apply entries_middle.
Qed.

Lemma slots_reset slots next es1 p v es2 :
  holds_slots count slots next (es1 ++ mkSlot p v :: es2) ->
  exists slots', zstore slots (zlen es1) unused = Some slots' /\ zlen (qsort slots') = zlen slots /\
    holds_slots count (qsort slots') (next - 1) (es1 ++ es2) /\
    entries (es1 ++ es2) = delete p (entries (es1 ++ mkSlot p v :: es2)).
Proof.
  intros [[k ->] -> Hs Hr]. rewrite Forall_forall in Hr.
  assert (forall x, x ∈ es1 ++ es2 -> x.(param) < UINT16_MAX) as HM.
  { intros x Hx. pose proof (Hr x ltac:(set_solver)) as Hx'. simpl in Hx'. lia. }
  exists (es1 ++ unused :: es2 ++ replicate k unused). rewrite (qsort_reset es1 (mkSlot p v)) by done.
  split; [|split; [|split]].
  - rewrite <- app_assoc. cbn [app]. unfold zstore. rewrite zlen_app, zlen_cons. pose proof (zlen_nonneg es1).
    pose proof (zlen_nonneg (es2 ++ replicate k unused)). decide_if. f_equal.
    unfold zlen. rewrite Nat2Z.id, insert_app_r_alt, Nat.sub_diag by lia. done.
  - unfold zlen. rewrite !length_app. simpl. rewrite !length_replicate. lia.
  - split; [by exists (S k)|rewrite !zlen_app, zlen_cons; lia|by eapply sorted_remove|].
    apply Forall_forall. intros x Hx. apply Hr. set_solver.
  - by apply delete_entries.
Qed.
End slots.

(** ** The laws *)

Definition map_of (slots : list Slot) (next_slot : Z) : gmap Z Z := entries (take (Z.to_nat next_slot) slots).

Lemma map_of_holds count slots next es : holds_slots count slots next es -> map_of slots next = entries es.
Proof.
  intros [[k ->] -> _ _]. unfold map_of, zlen. by rewrite Nat2Z.id, take_app_length.
Qed.

Lemma size_entries es : sorted es -> Z.of_nat (size (entries es)) = zlen es.
Proof.
  intros Hs. unfold entries. rewrite map_size_list_to_map.
  - unfold zlen. by rewrite length_map.
  - replace ((map (fun s => (param s, value s)) es).*1) with (map param es); [by apply sorted_NoDup|].
    rewrite <- list_fmap_compose. done.
Qed.

Lemma contained_fold count es : forall bits,
  0 < count -> bitset_wf 32 count bits -> Forall (fun s => 0 <= s.(param) < count) es ->
  exists bits', foldl (fun bits s => bits ← bits; AtomicBitset_set bits s.(param) true) (Some bits) es = Some bits' /\
    bitset_wf 32 count bits' /\
    forall p, 0 <= p < count -> bit 32 bits' p = bit 32 bits p || bool_decide (p ∈ map param es).
Proof.
  induction es as [|s es IH]; intros bits Hc Hw Hr; simpl.
  - exists bits. split; [done|]. split; [done|]. intros p Hp. by rewrite orb_false_r.
  - apply Forall_cons in Hr as [Hs Hr].
    destruct (bitset_set_ok 32 ltac:(lia) count bits (param s) true Hw Hs) as (bits1 & E & Hw1 & Hb1).
    unfold AtomicBitset_set at 2. rewrite E.
    destruct (IH bits1 Hc Hw1 Hr) as (bits2 & E2 & Hw2 & Hb2). exists bits2. split; [done|]. split; [done|].
    intros p Hp. rewrite Hb2, Hb1 by done. case_if.
    + subst. simpl. symmetry. apply orb_true_iff. right. apply bool_decide_eq_true. set_solver.
    + f_equal. apply bool_decide_ext. set_solver.
Qed.

Lemma zeros_wf count : 0 < count -> bitset_wf 32 count (replicate (Z.to_nat (ARRAY_SIZE 32 count)) 0).
Proof.
  intros Hc. pose proof (ARRAY_SIZE_index 32 ltac:(lia) count 0 ltac:(lia)). split.
  - apply zlen_replicate. lia.
  - apply Forall_replicate. lia.
Qed.

Lemma zeros_bit n p : bit 32 (replicate n 0) p = false.
Proof.
  unfold bit, zlookup. case_if; [|apply Z.testbit_0_l].
  destruct (_ !! _) as [x|] eqn:Hx; simpl; [|apply Z.testbit_0_l].
  apply list_elem_of_lookup_2, elem_of_replicate in Hx as [-> _]. apply Z.testbit_0_l.
Qed.

Section laws.
Context (count : Z) (count_ok : 0 < count <= UINT16_MAX).

Lemma contained_loop_ok slots next es :
  holds_slots count slots next es ->
  exists bits, contained_loop count slots next = Some bits /\ bitset_wf 32 count bits /\
    forall p, 0 <= p < count -> bit 32 bits p = bool_decide (is_Some (entries es !! p)).
Proof.
  intros [[k ->] -> Hs Hr]. unfold contained_loop, zlen. rewrite Nat2Z.id, take_app_length.
  destruct (contained_fold count es _ ltac:(lia) (zeros_wf count ltac:(lia)) Hr) as (bits & E & Hw & Hb).
  exists bits. split; [done|]. split; [done|]. intros p Hp. rewrite Hb, zeros_bit by done. simpl.
  apply bool_decide_ext. rewrite list_elem_of_fmap. split.
  - intros ([q v] & -> & Hin). exists v. by apply entries_lookup.
  - intros [v Hv%entries_lookup]; [|done]. by exists (mkSlot p v).
Qed.

Lemma lookup_of_getIndex es1 p v es2 tail : value <$> zlookup ((es1 ++ mkSlot p v :: es2) ++ tail) (zlen es1) = Some v.
Proof.
  unfold zlookup, zlen. case_if; [|lia]. rewrite Nat2Z.id, <- app_assoc. cbn [app]. by rewrite list_lookup_middle.
Qed.

Definition Static_ok (l : StaticSparseLayer) : Prop := exists es, holds_slots count l.(st_slots) l.(st_next_slot) es.

#[global] Program Instance Static_laws : ParamLayerLaws count StaticSparseLayer := {|
  layer_ok := Static_ok;
  layer_map l := map_of l.(st_slots) l.(st_next_slot);
  layer_cap l := Some (zlen l.(st_slots));
|}.
Next Obligation.
  intros [slots next] p v [es Hes] Hp. simpl in *. unfold map_fits.
  rewrite (map_of_holds _ _ _ _ Hes), size_entries by apply Hes. rewrite <- (hs_next _ _ _ _ Hes).
  destruct (getIndex_ok count slots next es p Hes) as (index & E & Hi). unfold Static_store. simpl. rewrite E. simpl.
  destruct Hi as [(Hlt & v0 & es1 & es2 & -> & -> & Hv)|[-> Hn]].
  - destruct (slots_update count slots next es1 p v0 es2 v Hes) as (slots' & E1 & E2 & Hz & Hes' & Em).
    decide_if. rewrite E1. simpl. rewrite E2. simpl. rewrite bool_decide_true by (rewrite Hv; eauto).
    eexists; split; [done|]. split; [by eexists|]. simpl. by rewrite (map_of_holds _ _ _ _ Hes'), Hz.
  - rewrite Z.ltb_irrefl, Hn, bool_decide_false by (by intros [? ?]). cbn [orb]. case_if.
    + destruct (slots_append count ltac:(lia) slots next es p v Hes Hn ltac:(lia) Hp) as (slots' & es' & E1 & Hz & Hes' & Em).
      rewrite E1. simpl. eexists; split; [done|]. split; [by eexists|]. simpl.
      by rewrite (map_of_holds _ _ _ _ Hes'), Hz.
    + eexists; split; [done|]. split; [by eexists|]. simpl. by rewrite (map_of_holds _ _ _ _ Hes).
Qed.
Next Obligation.
  intros [slots next] p [es Hes]. simpl in *. rewrite (map_of_holds _ _ _ _ Hes). unfold Static_contains. simpl.
  destruct (getIndex_ok count slots next es p Hes) as (index & E & Hi). rewrite E. simpl. f_equal.
  destruct Hi as [(Hlt & v0 & es1 & es2 & _ & _ & ->)|[-> ->]]; [rewrite bool_decide_true by eauto; lia|].
  rewrite Z.ltb_irrefl. done.
Qed.
Next Obligation.
  intros [slots next] [es Hes]. simpl in *. rewrite (map_of_holds _ _ _ _ Hes). by apply contained_loop_ok.
Qed.
Next Obligation.
  intros parent [slots next] p [es Hes]. simpl in *. rewrite (map_of_holds _ _ _ _ Hes). unfold Static_get. simpl.
  destruct (getIndex_ok count slots next es p Hes) as (index & E & Hi). rewrite E. simpl.
  destruct Hi as [(Hlt & v0 & es1 & es2 & -> & -> & ->)|[-> ->]]; decide_if; [|done].
  destruct (hs_slots _ _ _ _ Hes) as [k ->]. apply lookup_of_getIndex.
Qed.
Next Obligation.
  intros [slots next] p [es Hes]. simpl in *. rewrite (map_of_holds _ _ _ _ Hes). unfold Static_reset. simpl.
  destruct (getIndex_ok count slots next es p Hes) as (index & E & Hi). rewrite E. simpl.
  destruct Hi as [(Hlt & v0 & es1 & es2 & -> & -> & Hv)|[-> Hn]]; decide_if.
  - destruct (slots_reset count ltac:(lia) slots next es1 p v0 es2 Hes) as (slots' & E1 & Hz & Hes' & Em).
    rewrite E1. simpl. eexists; split; [done|]. split; [by eexists|]. simpl.
    by rewrite (map_of_holds _ _ _ _ Hes'), Hz.
  - eexists; split; [done|]. split; [by eexists|]. split; [done|]. simpl. rewrite (map_of_holds _ _ _ _ Hes).
    by rewrite delete_id.
Qed.
Next Obligation.
  intros [slots next] [es Hes]. simpl in *. rewrite (map_of_holds _ _ _ _ Hes), size_entries by apply Hes.
  destruct (hs_slots _ _ _ _ Hes) as [k ->]. rewrite zlen_app. pose proof (zlen_nonneg (replicate k unused)). lia.
Qed.
Next Obligation.
  intros [slots next] [es Hes]. simpl in *. rewrite (map_of_holds _ _ _ _ Hes), size_entries by apply Hes.
  apply Hes.
Qed.

(** *** The dynamic layer, with other threads in the windows of [_grow] *)

Record Dynamic_rep (l : DynamicSparseLayer) (es : list Slot) : Prop := {
  dr_slots : holds_slots count (slots_of l) l.(_next_slot) es;
  dr_n : zlen (slots_of l) = l.(_n_slots);
  dr_grow : 1 <= l.(_n_grow);
}.

Definition Dynamic_ok (l : DynamicSparseLayer) : Prop := exists es, Dynamic_rep l es.

Definition Dynamic_map (l : DynamicSparseLayer) : gmap Z Z := map_of (slots_of l) l.(_next_slot).

(** What other threads may do: leave a consistent layer, never shrink the array. *)
Definition interference (f : DynamicSparseLayer -> DynamicSparseLayer) : Prop :=
  forall l, Dynamic_ok l -> Dynamic_ok (f l) /\ l.(_n_slots) <= (f l).(_n_slots).

Definition window_ok (w : window) : Prop := interference w.(during_malloc) /\ interference w.(during_free).

(** From [l] the layer became [l'] by steps of this thread that keep the contents and by
    steps of other threads. *)
Inductive interleaved (ws : list window) : DynamicSparseLayer -> DynamicSparseLayer -> Prop :=
  | il_refl l : interleaved ws l l
  | il_own l l1 l2 : Dynamic_map l1 = Dynamic_map l -> interleaved ws l1 l2 -> interleaved ws l l2
  | il_malloc l w l2 : w ∈ ws -> interleaved ws (w.(during_malloc) l) l2 -> interleaved ws l l2
  | il_free l w l2 : w ∈ ws -> interleaved ws (w.(during_free) l) l2 -> interleaved ws l l2.

Lemma interleaved_incl ws ws' l l' : ws ⊆ ws' -> interleaved ws l l' -> interleaved ws' l l'.
Proof.
  intros Hsub. induction 1 as [|? ? ? ? ? IH|? w ? Hw ? IH|? w ? Hw ? IH].
  - apply il_refl.
  - by eapply il_own.
  - eapply il_malloc; [by apply Hsub|done].
  - eapply il_free; [by apply Hsub|done].
Qed.

(** There are at most [count] parameters. *)
Lemma entries_bound es : sorted es -> Forall (fun s => 0 <= s.(param) < count) es -> zlen es <= count.
Proof.
  intros Hs Hr. assert (length (map param es) <= length (seqZ 0 count))%nat as Hl.
  { apply submseteq_length, NoDup_submseteq; [by apply sorted_NoDup|]. intros p Hp.
    apply list_elem_of_fmap in Hp as (s & -> & Hin). apply elem_of_seqZ.
    rewrite Forall_forall in Hr. specialize (Hr _ Hin). simpl in Hr. lia. }
  rewrite length_map, length_seqZ in Hl. unfold zlen. lia.
Qed.

Definition enlarged (l : DynamicSparseLayer) : DynamicSparseLayer :=
  mkDynamic (Some (slots_of l ++ replicate (Z.to_nat l.(_n_grow)) unused)) l.(_next_slot)
    (l.(_n_slots) + l.(_n_grow)) l.(_n_grow).

Lemma enlarged_ok l : Dynamic_ok l -> Dynamic_ok (enlarged l) /\ Dynamic_map (enlarged l) = Dynamic_map l.
Proof.
  intros [es [[[k E] Hn Hs Hr] Hl Hg]].
  assert (holds_slots count (slots_of (enlarged l)) (_next_slot (enlarged l)) es) as H.
  { split; [|done..]. unfold enlarged. simpl. rewrite E, <- app_assoc, <- replicate_add. by eexists. }
  split.
  - exists es. split; [done| |done]. unfold enlarged, slots_of. simpl. fold (slots_of l).
    rewrite zlen_app, zlen_replicate; lia.
  - unfold Dynamic_map. rewrite (map_of_holds _ _ _ _ H), (map_of_holds count (slots_of l) (_next_slot l) es); [done|].
    split; [by exists k|done..].
Qed.

(** The pass that enlarges the array. *)
Lemma grow_pass ws w l l1 :
  l.(_n_slots) <= l.(_next_slot) -> w.(malloc_ok) = true -> l1 = w.(during_malloc) l -> Dynamic_ok l1 ->
  l1.(_n_slots) = l.(_n_slots) ->
  grow_loop (w :: ws) l = grow_loop ws (w.(during_free) (enlarged l1)).
Proof.
  intros Hfull Hok -> [es [_ Hl Hg]] En. cbn [grow_loop]. decide_if. rewrite Hok. cbn [negb].
  rewrite En, Z.eqb_refl. cbn [negb]. rewrite <- En. decide_if. decide_if. cbn [mbind option_bind].
  rewrite <- Hl. unfold zlen. rewrite Nat2Z.id, firstn_all. unfold enlarged. rewrite <- Hl. done.
Qed.

Lemma grow_loop_ok ws : forall l,
  Forall window_ok ws -> Dynamic_ok l -> (Z.to_nat (count + 1 - l.(_n_slots)) <= length ws)%nat ->
  exists ok l', grow_loop ws l = Some (ok, l') /\ Dynamic_ok l' /\ interleaved ws l l' /\
    if ok then l'.(_next_slot) < l'.(_n_slots) else Exists (fun w => w.(malloc_ok) = false) ws.
Proof.
  induction ws as [|w ws IH]; intros l Hws Hl Hm.
  - cbn [grow_loop]. destruct Hl as [es Hes]. pose proof (dr_slots _ _ Hes) as [_ Hn Hs Hr].
    pose proof (entries_bound es Hs Hr). simpl in Hm. decide_if. rewrite (proj2 (Z.ltb_lt _ _)) by lia.
    do 2 eexists; split; [done|]. split; [by eexists|]. split; [apply il_refl|lia].
  - destruct (Z.le_gt_cases l.(_n_slots) l.(_next_slot)) as [Hfull|].
    2:{ cbn [grow_loop]. decide_if. rewrite (proj2 (Z.ltb_lt _ _)) by lia. do 2 eexists; split; [done|]. split; [done|]. split; [apply il_refl|lia]. }
    apply Forall_cons in Hws as [[Hi1 Hi2] Hws]. simpl in Hm.
    destruct (Hi1 l Hl) as [Hl1 Hn1]. remember (during_malloc w l) as l1 eqn:E1.
    assert (forall l2 x, interleaved ws l2 x -> interleaved (w :: ws) l2 x) as Hsub.
    { intros l2 x. apply interleaved_incl. set_solver. }
    destruct (malloc_ok w) eqn:Hok.
    2:{ cbn [grow_loop]. decide_if. rewrite Hok, <- E1. do 2 eexists; split; [done|]. split; [done|].
        split; [|by constructor]. subst l1. eapply (il_malloc _ _ w); [set_solver|apply il_refl]. }
    destruct (Z.eq_dec (_n_slots l1) (_n_slots l)) as [En|Hne].
    + rewrite (grow_pass ws w l l1) by done. destruct (enlarged_ok l1 Hl1) as [Hl2 Em].
      destruct (Hi2 _ Hl2) as [Hl3 Hn3]. destruct Hl1 as [es Hes]. pose proof (dr_grow _ _ Hes).
      change (_n_slots (enlarged l1)) with (_n_slots l1 + _n_grow l1) in Hn3.
      destruct (IH (during_free w (enlarged l1))) as (ok & l' & E & Hl' & Hil & Hr); [done|done|lia|].
      exists ok, l'. split; [done|]. split; [done|]. split.
      * subst l1. eapply (il_malloc _ _ w); [set_solver|]. eapply il_own; [exact Em|]. eapply (il_free _ _ w); [set_solver|]. by apply Hsub.
      * destruct ok; [done|]. by apply Exists_cons_tl.
    + cbn [grow_loop]. decide_if. rewrite Hok, <- E1. cbn [negb]. rewrite (proj2 (Z.eqb_neq _ _)) by done. cbn [negb].
      destruct (IH l1) as (ok & l' & E & Hl' & Hil & Hr); [done|done|lia|].
      exists ok, l'. split; [done|]. split; [done|]. split.
      * subst l1. eapply (il_malloc _ _ w); [set_solver|]. by apply Hsub.
      * destruct ok; [done|]. by apply Exists_cons_tl.
Qed.

Lemma grow_alone ok l :
  Dynamic_ok l -> l.(_n_slots) <= l.(_next_slot) ->
  grow_loop (alone ok) l = Some (if ok then (true, enlarged l) else (false, l)).
Proof.
  intros Hl Hfull. destruct ok.
  - unfold alone. rewrite (grow_pass [] (mkWindow true id id) l l) by done. cbn [grow_loop during_free id].
    destruct Hl as [es Hes]. pose proof (dr_grow _ _ Hes). pose proof (dr_slots _ _ Hes) as [[k E] Hn _ _].
    pose proof (dr_n _ _ Hes) as Hl. rewrite E, zlen_app in Hl. pose proof (zlen_nonneg (replicate k unused)).
    unfold enlarged. cbn [_n_slots _next_slot]. decide_if. by rewrite (proj2 (Z.ltb_lt _ _)) by lia.
  - cbn [grow_loop alone]. by decide_if.
Qed.

Lemma Dynamic_ok_mk slots next n g es :
  holds_slots count slots next es -> zlen slots = n -> 1 <= g ->
  Dynamic_ok (mkDynamic (Some slots) next n g) /\ Dynamic_map (mkDynamic (Some slots) next n g) = entries es.
Proof. intros Hes Hn Hg. split; [by exists es|]. exact (map_of_holds _ _ _ _ Hes). Qed.

(** A pass of [store] that finds the parameter or a free slot. *)
Lemma store_pass fuel ws l p v :
  Dynamic_ok l -> 0 <= p < count -> is_Some (Dynamic_map l !! p) \/ l.(_next_slot) < l.(_n_slots) ->
  exists l', Dynamic_store_loop (S fuel) ws l p v = Some (true, l') /\ Dynamic_ok l' /\
    l'.(_n_slots) = l.(_n_slots) /\ Dynamic_map l' = <[p := v]> (Dynamic_map l).
Proof.
  intros [es [Hes Hl Hg]] Hp Hroom. unfold Dynamic_map in *. rewrite (map_of_holds _ _ _ _ Hes) in *.
  destruct (getIndex_ok count _ _ es p Hes) as (index & E & Hi). cbn [Dynamic_store_loop]. rewrite E.
  cbn [mbind option_bind]. destruct Hi as [(Hlt & v0 & es1 & es2 & -> & -> & Hv)|[-> Hn]].
  - destruct (slots_update count _ _ es1 p v0 es2 v Hes) as (slots' & E1 & E2 & Hz & Hes' & Em).
    decide_if. rewrite E1. cbn [mbind option_bind param]. rewrite E2. cbn [mbind option_bind].
    destruct (Dynamic_ok_mk _ _ l.(_n_slots) l.(_n_grow) _ Hes' ltac:(congruence) Hg) as [? E3].
    eexists; split; [done|]. split; [done|]. split; [done|]. exact (eq_trans E3 Em).
  - rewrite Z.ltb_irrefl. rewrite Hn in Hroom. destruct Hroom as [[? ?]|Hroom]; [done|]. decide_if.
    destruct (slots_append count ltac:(lia) _ _ es p v Hes Hn ltac:(lia) Hp) as (slots' & es' & E1 & Hz & Hes' & Em).
    destruct (Dynamic_ok_mk _ _ l.(_n_slots) l.(_n_grow) _ Hes' ltac:(congruence) Hg) as [? E3].
    rewrite E1. cbn [mbind option_bind]. eexists; split; [done|]. split; [done|]. split; [done|]. exact (eq_trans E3 Em).
Qed.

(** A pass that finds the array full. *)
Lemma store_pass_full fuel ws l p v :
  Dynamic_ok l -> Dynamic_map l !! p = None -> l.(_n_slots) <= l.(_next_slot) ->
  Dynamic_store_loop (S fuel) ws l p v =
    '(ok, l) ← grow ws l; if negb ok then Some (false, l) else Dynamic_store_loop fuel ws l p v.
Proof.
  intros [es [Hes Hl Hg]] Hn Hfull. unfold Dynamic_map in Hn. rewrite (map_of_holds _ _ _ _ Hes) in Hn.
  destruct (getIndex_ok count _ _ es p Hes) as (index & E & Hi). cbn [Dynamic_store_loop]. rewrite E.
  cbn [mbind option_bind]. destruct Hi as [(_ & v0 & _ & _ & _ & _ & Hv)|[-> _]]; [congruence|].
  rewrite Z.ltb_irrefl. by decide_if.
Qed.

(** [store] in the presence of other threads. *)
Lemma Dynamic_store_ok ws l p v :
  Forall window_ok ws -> Dynamic_ok l -> 0 <= p < count ->
  (Z.to_nat (count + 1 - l.(_n_slots)) <= length ws)%nat ->
  exists ok l' l0, Dynamic_store ws l p v = Some (ok, l') /\ Dynamic_ok l' /\ interleaved ws l l0 /\
    if ok then Dynamic_map l' = <[p := v]> (Dynamic_map l0)
    else l' = l0 /\ (Exists (fun w => w.(malloc_ok) = false) ws \/ l.(_n_slots) = 0).
Proof.
  intros Hws Hl Hp Hm. unfold Dynamic_store.
  destruct (Dynamic_map l !! p) as [v0|] eqn:Hv.
  { destruct (store_pass 1 ws l p v Hl Hp) as (l' & E & Hl' & _ & Em); [rewrite Hv; eauto|].
    exists true, l', l. split_and!; [done|done|apply il_refl|done]. }
  destruct (Z.le_gt_cases l.(_n_slots) l.(_next_slot)) as [Hfull|Hroom].
  2:{ destruct (store_pass 1 ws l p v Hl Hp) as (l' & E & Hl' & _ & Em); [right; lia|].
      exists true, l', l. split_and!; [done|done|apply il_refl|done]. }
  rewrite store_pass_full by done. unfold grow. case_if.
  { exists false, l, l. split_and!; [done|done|apply il_refl|done|by right]. }
  destruct (grow_loop_ok ws l Hws Hl Hm) as (ok & l1 & E & Hl1 & Hil & Hr). rewrite E. cbn [mbind option_bind].
  destruct ok; cbn [negb].
  - destruct (store_pass 0 ws l1 p v Hl1 Hp) as (l' & E' & Hl' & _ & Em); [by right|].
    exists true, l', l1. by split_and!.
  - exists false, l1, l1. split_and!; [done|done|done|done|by left].
Qed.

(** Room without other threads: [_grow] fails on an array that was never allocated. *)
Definition Dynamic_cap (alloc_ok : bool) (l : DynamicSparseLayer) : option Z :=
  if alloc_ok && negb (l.(_n_slots) =? 0) then None else Some l.(_n_slots).

Lemma Dynamic_size_ok l : Dynamic_ok l -> l.(_next_slot) = Z.of_nat (size (Dynamic_map l)).
Proof.
  intros [es [Hes _ _]]. unfold Dynamic_map. rewrite (map_of_holds _ _ _ _ Hes), size_entries by apply Hes. apply Hes.
Qed.

Lemma Dynamic_next_le l : Dynamic_ok l -> 0 <= l.(_next_slot) <= l.(_n_slots) /\ 1 <= l.(_n_grow).
Proof.
  intros [es [[[k E] Hn _ _] Hl Hg]]. rewrite E, zlen_app in Hl. pose proof (zlen_nonneg (replicate k unused)).
  pose proof (zlen_nonneg es). lia.
Qed.

Lemma store_alone_ok ok l p v :
  Dynamic_ok l -> 0 <= p < count ->
  let r := map_fits (Dynamic_cap ok l) (Dynamic_map l) p in
  exists l', Dynamic_store (alone ok) l p v = Some (r, l') /\ Dynamic_ok l' /\
    Dynamic_cap ok l' = Dynamic_cap ok l /\
    Dynamic_map l' = (if r then <[p := v]> (Dynamic_map l) else Dynamic_map l).
Proof.
  intros Hl Hp. unfold Dynamic_store, map_fits. rewrite <- Dynamic_size_ok by done.
  pose proof (Dynamic_next_le l Hl) as [Hle Hg].
  destruct (Dynamic_map l !! p) as [v0|] eqn:Hv.
  { destruct (store_pass 1 (alone ok) l p v Hl Hp) as (l' & E & Hl' & Hn & Em); [rewrite Hv; eauto|].
    rewrite bool_decide_true by eauto. exists l'. split_and!; [done|done|by unfold Dynamic_cap; rewrite Hn|done]. }
  rewrite bool_decide_false by (by intros [? ?]). cbn [orb].
  destruct (Z.le_gt_cases l.(_n_slots) l.(_next_slot)) as [Hfull|Hroom].
  2:{ destruct (store_pass 1 (alone ok) l p v Hl Hp) as (l' & E & Hl' & Hn & Em); [right; lia|].
      assert (match Dynamic_cap ok l with Some n => _next_slot l <? n | None => true end = true) as ->.
      { unfold Dynamic_cap. case_if; [done|]. lia. }
      exists l'. split_and!; [done|done|by unfold Dynamic_cap; rewrite Hn|done]. }
  rewrite store_pass_full by done. unfold grow.
  assert (match Dynamic_cap ok l with Some n => _next_slot l <? n | None => true end
          = ok && negb (_n_slots l =? 0)) as ->.
  { unfold Dynamic_cap. destruct (ok && _); [done|]. lia. }
  case_if; [rewrite andb_false_r; exists l; by split_and!|].
  rewrite grow_alone by done. cbn [mbind option_bind]. destruct ok; cbn [negb andb].
  - destruct (enlarged_ok l Hl) as [Hl2 Em2].
    destruct (store_pass 0 (alone true) (enlarged l) p v Hl2 Hp) as (l' & E' & Hl' & Hn & Em); [right; simpl; lia|].
    exists l'. rewrite <- Em2. split_and!; [done|done| |done]. unfold Dynamic_cap. rewrite Hn. simpl.
    by rewrite !(proj2 (Z.eqb_neq _ _)) by lia.
  - exists l. by split_and!.
Qed.

(** Another thread that stores one parameter is such interference. *)
Definition other_store (ok : bool) (p v : Z) (l : DynamicSparseLayer) : DynamicSparseLayer :=
  match Dynamic_store (alone ok) l p v with Some (_, l') => l' | None => l end.

Lemma other_store_interference ok p v : 0 <= p < count -> interference (other_store ok p v).
Proof.
  intros Hp l Hl. unfold other_store.
  destruct (store_alone_ok ok l p v Hl Hp) as (l' & E & Hl' & _ & _). rewrite E. split; [done|].
  pose proof (Dynamic_next_le l Hl) as [Hle Hg]. revert E. unfold Dynamic_store.
  destruct (Dynamic_map l !! p) as [v0|] eqn:Hv.
  { destruct (store_pass 1 (alone ok) l p v Hl Hp) as (l2 & E & _ & Hn & _); [rewrite Hv; eauto|].
    rewrite E. intros [=]. subst. lia. }
  destruct (Z.le_gt_cases l.(_n_slots) l.(_next_slot)) as [Hfull|Hroom].
  2:{ destruct (store_pass 1 (alone ok) l p v Hl Hp) as (l2 & E & _ & Hn & _); [right; lia|].
      rewrite E. intros [=]. subst. lia. }
  rewrite store_pass_full by done. unfold grow. case_if; [intros [=]; subst; lia|].
  rewrite grow_alone by done. cbn [mbind option_bind]. destruct ok; cbn [negb]; [|intros [=]; subst; lia].
  destruct (enlarged_ok l Hl) as [Hl2 Em2].
  destruct (store_pass 0 (alone true) (enlarged l) p v Hl2 Hp) as (l2 & E' & _ & Hn & _); [right; simpl; lia|].
  rewrite E'. intros [=]. subst. simpl in Hn. lia.
Qed.

Program Definition Dynamic_laws (ok : bool) : @ParamLayerLaws count DynamicSparseLayer (Dynamic_layer ok) := {|
  layer_ok := Dynamic_ok;
  layer_map := Dynamic_map;
  layer_cap := Dynamic_cap ok;
|}.
Next Obligation. intros ok l p v Hl Hp. by apply store_alone_ok. Qed.
Next Obligation.
  intros ok l p [es [Hes Hl Hg]]. simpl. unfold Dynamic_map, Dynamic_contains. rewrite (map_of_holds _ _ _ _ Hes).
  destruct (getIndex_ok count _ _ es p Hes) as (index & E & Hi). rewrite E. simpl. f_equal.
  destruct Hi as [(Hlt & v0 & es1 & es2 & _ & _ & ->)|[-> ->]]; [rewrite bool_decide_true by eauto; lia|].
  rewrite Z.ltb_irrefl. done.
Qed.
Next Obligation.
  intros ok l [es [Hes Hl Hg]]. simpl. unfold Dynamic_map. rewrite (map_of_holds _ _ _ _ Hes). by apply contained_loop_ok.
Qed.
Next Obligation.
  intros ok parent l p [es [Hes Hl Hg]]. simpl. unfold Dynamic_map, Dynamic_get. rewrite (map_of_holds _ _ _ _ Hes).
  destruct (getIndex_ok count _ _ es p Hes) as (index & E & Hi). rewrite E. simpl.
  destruct Hi as [(Hlt & v0 & es1 & es2 & -> & -> & ->)|[-> ->]]; decide_if; [|done].
  destruct (hs_slots _ _ _ _ Hes) as [k ->]. apply lookup_of_getIndex.
Qed.
Next Obligation.
  intros ok l p [es [Hes Hl Hg]]. simpl. unfold Dynamic_map, Dynamic_reset. rewrite (map_of_holds _ _ _ _ Hes).
  destruct (getIndex_ok count _ _ es p Hes) as (index & E & Hi). rewrite E. simpl.
  destruct Hi as [(Hlt & v0 & es1 & es2 & -> & -> & Hv)|[-> Hn]]; decide_if.
  - destruct (slots_reset count ltac:(lia) _ _ es1 p v0 es2 Hes) as (slots' & E1 & Hz & Hes' & Em).
    destruct (Dynamic_ok_mk _ _ l.(_n_slots) l.(_n_grow) _ Hes' ltac:(congruence) Hg) as [? E3].
    rewrite E1. simpl. eexists; split; [done|]. split; [done|]. split; [done|]. exact (eq_trans E3 Em).
  - eexists; split; [done|]. split; [by eexists|]. split; [done|]. rewrite (map_of_holds _ _ _ _ Hes). by rewrite delete_id.
Qed.
Next Obligation.
  intros ok l Hl. cbn beta. rewrite <- Dynamic_size_ok by done. pose proof (Dynamic_next_le l Hl).
  unfold Dynamic_cap. case_if; [done|lia].
Qed.
Next Obligation.
  intros ok l [es [Hes Hl Hg]]. simpl. unfold Dynamic_map. rewrite (map_of_holds _ _ _ _ Hes), size_entries by apply Hes.
  apply Hes.
Qed.
End laws.

(** ** Runs of operations, against a finite map of bounded size *)

Inductive layer_op := Lstore (p v : Z) | Lreset (p : Z) | Lget (p : Z) | Lcontains (p : Z) | Lsize.
Inductive layer_res := Rbool (b : bool) | Rvalue (v : Z) | Rdone.

Definition layer_step `{ParamLayer L} (parent : Z -> Z) (l : L) (o : layer_op) : option (layer_res * L) :=
  match o with
  | Lstore p v => '(ok, l) ← layer_store l p v; Some (Rbool ok, l)
  | Lreset p => l ← layer_reset l p; Some (Rdone, l)
  | Lget p => v ← layer_get (fun p => Some (parent p)) l p; Some (Rvalue v, l)
  | Lcontains p => b ← layer_contains l p; Some (Rbool b, l)
  | Lsize => Some (Rvalue (layer_size l), l)
  end.

Definition map_step (cap : option Z) (parent : Z -> Z) (m : gmap Z Z) (o : layer_op) : layer_res * gmap Z Z :=
  match o with
  | Lstore p v => let ok := map_fits cap m p in (Rbool ok, if ok then <[p := v]> m else m)
  | Lreset p => (Rdone, delete p m)
  | Lget p => (Rvalue (default (parent p) (m !! p)), m)
  | Lcontains p => (Rbool (bool_decide (is_Some (m !! p))), m)
  | Lsize => (Rvalue (Z.of_nat (size m)), m)
  end.

Fixpoint layer_run `{ParamLayer L} (parent : Z -> Z) (l : L) (os : list layer_op) : option (list layer_res) :=
  match os with
  | [] => Some []
  | o :: os => '(r, l) ← layer_step parent l o; rs ← layer_run parent l os; Some (r :: rs)
  end.

Fixpoint map_run (cap : option Z) (parent : Z -> Z) (m : gmap Z Z) (os : list layer_op) : list layer_res :=
  match os with
  | [] => []
  | o :: os => let '(r, m) := map_step cap parent m o in r :: map_run cap parent m os
  end.

Definition layer_op_ok (count : Z) (o : layer_op) : Prop :=
  match o with Lstore p _ => 0 <= p < count | _ => True end.

Lemma layer_step_refines `{ParamLayerLaws count L} parent l o :
  layer_ok l -> layer_op_ok count o ->
  exists l', layer_step parent l o = Some (fst (map_step (layer_cap l) parent (layer_map l) o), l') /\ layer_ok l' /\
    layer_cap l' = layer_cap l /\ layer_map l' = snd (map_step (layer_cap l) parent (layer_map l) o).
Proof.
  intros Hl Ho. destruct o as [p v|p|p|p|]; cbn [layer_step map_step fst snd].
  - destruct (layer_store_spec l p v Hl Ho) as (l' & -> & ? & ? & ?). by eexists.
  - destruct (layer_reset_spec l p Hl) as (l' & -> & ? & ? & ?). by eexists.
  - rewrite layer_get_spec by done. exists l. by destruct (layer_map l !! p).
  - rewrite layer_contains_spec by done. by eexists.
  - rewrite layer_size_spec by done. by eexists.
Qed.

Lemma layer_run_refines `{ParamLayerLaws count L} parent os : forall l,
  layer_ok l -> Forall (layer_op_ok count) os ->
  layer_run parent l os = Some (map_run (layer_cap l) parent (layer_map l) os).
Proof.
  induction os as [|o os IH]; intros l Hl Hos; [done|]. apply Forall_cons in Hos as [Ho Hos].
  destruct (layer_step_refines parent l o Hl Ho) as (l' & E & Hl' & Ec & Em).
  cbn [layer_run map_run]. rewrite E. cbn [mbind option_bind]. rewrite (IH l') by done. rewrite Ec, Em.
  by destruct (map_step _ _ _ _).
Qed.

Lemma init_holds count n : holds_slots count (replicate n unused) 0 [].
Proof. split; [by exists n|done|constructor|constructor]. Qed.

Lemma Dynamic_init_ok count alloc n g : 0 <= n ->
  Dynamic_ok count (Dynamic_init alloc n g) /\ Dynamic_map (Dynamic_init alloc n g) = ∅.
Proof.
  intros Hn. unfold Dynamic_init. assert (1 <= if 0 <? g then g else 1) as Hg by (case_if; lia).
  destruct alloc; split; try (exact (map_of_holds count _ _ _ (init_holds count _))).
  - exists []. split; [apply init_holds|by apply zlen_replicate|done].
  - exists []. split; [apply (init_holds count 0)|done|done].
  - exact (map_of_holds count _ _ _ (init_holds count 0)).
Qed.

(** A reader that gets the lock after the destructor finds an empty layer. *)
Lemma Dynamic_destroy_ok count l : Dynamic_ok count l ->
  Dynamic_ok count (Dynamic_destroy l) /\ Dynamic_map (Dynamic_destroy l) = ∅.
Proof.
  intros [es [_ _ Hg]]. split; [|exact (map_of_holds count _ _ _ (init_holds count 0))].
  exists []. split; [apply (init_holds count 0)|done|done].
Qed.

(** ** The exhaustive layer and a changing parent *)

Inductive cache_op := Cstore (p v : Z) | Creset (p : Z) | Cparent (p v : Z).

Definition update_parent (p v : Z) (parent : Z -> Z) : Z -> Z := fun q => if q =? p then v else parent q.

(** [Cparent]: the parent's value of a parameter changes, then [refresh] is called. *)
Definition cache_step (st : option ((Z -> Z) * ExhaustiveLayer)) (o : cache_op) : option ((Z -> Z) * ExhaustiveLayer) :=
  '(parent, l) ← st;
  match o with
  | Cstore p v => '(_, l) ← Exhaustive_store l p v; Some (parent, l)
  | Creset p => l ← Exhaustive_reset parent l p; Some (parent, l)
  | Cparent p v => let parent := update_parent p v parent in l ← Exhaustive_refresh parent l p; Some (parent, l)
  end.

Definition override_step (st : (Z -> Z) * gmap Z Z) (o : cache_op) : (Z -> Z) * gmap Z Z :=
  let '(parent, m) := st in
  match o with
  | Cstore p v => (parent, <[p := v]> m)
  | Creset p => (parent, delete p m)
  | Cparent p v => (update_parent p v parent, m)
  end.

Definition cache_op_ok (count : Z) (o : cache_op) : Prop :=
  match o with Cstore p _ | Creset p | Cparent p _ => 0 <= p < count end.

Record cached (count : Z) (parent : Z -> Z) (m : gmap Z Z) (l : ExhaustiveLayer) : Prop := {
  ca_values : zlen l.(_values) = count;
  ca_wf : bitset_wf 32 count l.(_ownership_set);
  ca_owned p : 0 <= p < count -> bit 32 l.(_ownership_set) p = bool_decide (is_Some (m !! p));
  ca_value p : 0 <= p < count -> zlookup l.(_values) p = Some (default (parent p) (m !! p));
}.

Lemma cached_contains count parent m l p :
  cached count parent m l -> 0 <= p < count -> Exhaustive_contains l p = Some (bool_decide (is_Some (m !! p))).
Proof.
  intros [Hv Hw Ho _] Hp. unfold Exhaustive_contains, AtomicBitset_get. decide_if.
  by rewrite (bitset_get_bit 32 ltac:(lia) count) by done; rewrite Ho.
Qed.

Lemma cache_step_ok count parent m l o :
  0 < count -> cached count parent m l -> cache_op_ok count o ->
  exists l', cache_step (Some (parent, l)) o = Some ((override_step (parent, m) o).1, l') /\
    cached count (override_step (parent, m) o).1 (override_step (parent, m) o).2 l'.
Proof.
  intros Hc Hca Hp. pose proof Hca as [Hv Hw Ho Hval]. destruct o as [p v|p|p v]; cbn [cache_op_ok] in Hp;
    cbn [cache_step override_step mbind option_bind fst snd].
  - unfold Exhaustive_store. decide_if.
    destruct (zstore_Some (_values l) p v ltac:(lia)) as (vs & E & Hz & Hl). rewrite E. cbn [mbind option_bind].
    destruct (bitset_set_ok 32 ltac:(lia) count _ p true Hw Hp) as (set' & E2 & Hw' & Hb).
    unfold AtomicBitset_set. rewrite E2. cbn [mbind option_bind]. eexists; split; [done|].
    split; [simpl; lia|done| |]; intros q Hq; simpl; [rewrite Hb by done|rewrite Hl]; case_if.
    + subst. rewrite lookup_insert_eq. by rewrite bool_decide_true by eauto.
    + rewrite lookup_insert_ne by done. by apply Ho.
    + subst. by rewrite lookup_insert_eq.
    + rewrite lookup_insert_ne by done. by apply Hval.
  - unfold Exhaustive_reset. decide_if.
    destruct (zstore_Some (_values l) p (parent p) ltac:(lia)) as (vs & E & Hz & Hl). rewrite E. cbn [mbind option_bind].
    destruct (bitset_set_ok 32 ltac:(lia) count _ p false Hw Hp) as (set' & E2 & Hw' & Hb).
    unfold AtomicBitset_set. rewrite E2. cbn [mbind option_bind]. eexists; split; [done|].
    split; [simpl; lia|done| |]; intros q Hq; simpl; [rewrite Hb by done|rewrite Hl]; case_if.
    + subst. rewrite lookup_delete_eq. by rewrite bool_decide_false by (by intros [? ?]).
    + rewrite lookup_delete_ne by done. by apply Ho.
    + subst. by rewrite lookup_delete_eq.
    + rewrite lookup_delete_ne by done. by apply Hval.
  - unfold Exhaustive_refresh. rewrite (cached_contains _ _ _ _ _ Hca Hp). cbn [mbind option_bind].
    unfold update_parent. destruct (m !! p) as [w|] eqn:Hm.
    + rewrite bool_decide_true by eauto. eexists; split; [done|]. split; [done|done|done|].
      intros q Hq. rewrite Hval by done. case_if; [|done]. subst. by rewrite Hm.
    + rewrite bool_decide_false by (by intros [? ?]). rewrite Z.eqb_refl.
      destruct (zstore_Some (_values l) p v ltac:(lia)) as (vs & E & Hz & Hl). rewrite E. cbn [mbind option_bind].
      eexists; split; [done|]. split; [simpl; lia|done|done|].
      intros q Hq. simpl. rewrite Hl. case_if; [subst; by rewrite Hm|]. by apply Hval.
Qed.

Lemma cache_run_ok count os : forall parent m l,
  0 < count -> cached count parent m l -> Forall (cache_op_ok count) os ->
  exists l', foldl cache_step (Some (parent, l)) os = Some ((foldl override_step (parent, m) os).1, l') /\
    cached count (foldl override_step (parent, m) os).1 (foldl override_step (parent, m) os).2 l'.
Proof.
  induction os as [|o os IH]; intros parent m l Hc Hl Hos; [by exists l|].
  apply Forall_cons in Hos as [Ho Hos]. destruct (cache_step_ok count parent m l o Hc Hl Ho) as (l' & E & Hl').
  cbn [foldl]. rewrite E. destruct (override_step (parent, m) o) as [parent' m']. by apply IH.
Qed.

Lemma Exhaustive_init_ok count parent : 0 < count -> cached count parent ∅ (Exhaustive_init count parent).
Proof.
  intros Hc. unfold Exhaustive_init. split; simpl.
  - unfold zlen. rewrite length_map, length_seqZ. lia.
  - by apply zeros_wf.
  - intros p Hp. rewrite zeros_bit. rewrite lookup_empty. by rewrite bool_decide_false by (by intros [? ?]).
  - intros p Hp. unfold zlookup. decide_if. rewrite lookup_empty, list_lookup_fmap, lookup_seqZ_lt by lia.
    simpl. do 2 f_equal. lia.
Qed.

(** ** Properties *)



(** C29: a sparse layer is a finite map of overrides. Every run of operations on a fresh
    [StaticSparseLayer] of [n] slots gives the results of the same run on a map with room for
    [n] entries: binary search, insertion with sorting and removal by sentinel are map lookup,
    insert and delete, and a store is refused exactly when the map is full. The same holds of a
    [DynamicSparseLayer] on which no other thread works, with unbounded room as long as
    [malloc] succeeds and with the room of the first allocation if it stops succeeding. *)
Theorem sparse_layers_refine_map count n g parent os :
  0 < count <= UINT16_MAX -> 0 < n -> Forall (layer_op_ok count) os ->
  layer_run parent (Static_init n) os = Some (map_run (Some n) parent ∅ os) /\
  layer_run (H := Dynamic_layer true) parent (Dynamic_init true n g) os = Some (map_run None parent ∅ os) /\
  layer_run (H := Dynamic_layer false) parent (Dynamic_init true n g) os = Some (map_run (Some n) parent ∅ os).
Proof.
  intros Hc Hn Hos. destruct (Dynamic_init_ok count true n g ltac:(lia)) as [Hd Em]. split_and!.
  - pose proof (layer_run_refines (H0 := Static_laws count Hc) parent os (Static_init n)) as E.
    simpl in E. rewrite zlen_replicate in E by lia.
    rewrite (map_of_holds count _ _ _ (init_holds count _)) in E. apply E; [|done]. eexists. apply init_holds.
  - rewrite (layer_run_refines (H0 := Dynamic_laws count Hc true)) by done.
    cbn [layer_map layer_cap Dynamic_laws]. rewrite Em.
    unfold Dynamic_cap, Dynamic_init. cbn [_n_slots andb]. by rewrite (proj2 (Z.eqb_neq _ _)) by lia.
  - rewrite (layer_run_refines (H0 := Dynamic_laws count Hc false)) by done.
    cbn [layer_map layer_cap Dynamic_laws]. by rewrite Em.
Qed.

Lemma sparse_layers_refine_map_witness :
  let os := [Lstore 5 50; Lstore 1 10; Lstore 3 30; Lget 1; Lreset 5; Lget 5; Lsize; Lstore 3 31; Lcontains 5] in
  layer_run (fun _ => 7) (Static_init 2) os = Some (map_run (Some 2) (fun _ => 7) ∅ os) /\
  layer_run (fun _ => 7) (Static_init 2) os =
    Some [Rbool true; Rbool true; Rbool false; Rvalue 10; Rdone; Rvalue 7; Rvalue 1; Rbool true; Rbool false].
Proof.
  intros os. split; [|vm_compute; reflexivity].
  apply (sparse_layers_refine_map 8 2 1 (fun _ => 7) os); [unfold UINT16_MAX; lia|lia|].
  repeat constructor; simpl; lia.
Defined.

(** The cache of [ExhaustiveLayer] is coherent. After any run of stores, resets and changes
    of the parent that are followed by [refresh], [get] returns the overriding value where there
    is one and the parent's current value everywhere else, and [contains] tells which. *)
Theorem exhaustive_layer_coherent count parent os p :
  0 < count -> Forall (cache_op_ok count) os -> 0 <= p < count ->
  let '(parent', m) := foldl override_step (parent, ∅) os in
  exists l, foldl cache_step (Some (parent, Exhaustive_init count parent)) os = Some (parent', l) /\
    Exhaustive_get l p = Some (default (parent' p) (m !! p)) /\
    Exhaustive_contains l p = Some (bool_decide (is_Some (m !! p))).
Proof.
  intros Hc Hos Hp.
  destruct (cache_run_ok count os parent ∅ _ Hc (Exhaustive_init_ok count parent Hc) Hos) as (l & E & Hl).
  destruct (foldl override_step (parent, ∅) os) as [parent' m]. exists l. split; [done|].
  split; [|by eapply cached_contains]. unfold Exhaustive_get. pose proof (ca_values _ _ _ _ Hl). decide_if.
  by apply Hl.
Qed.

Lemma exhaustive_layer_coherent_witness :
  let os := [Cstore 1 11; Cparent 1 5; Cparent 2 6; Creset 1] in
  exists l, foldl cache_step (Some (fun _ => 0, Exhaustive_init 3 (fun _ => 0))) os
    = Some (update_parent 2 6 (update_parent 1 5 (fun _ => 0)), l) /\
    Exhaustive_get l 1 = Some 5 /\ Exhaustive_contains l 1 = Some false.
Proof.
  intros os. apply (exhaustive_layer_coherent 3 (fun _ => 0) os 1); [lia| |lia].
  repeat constructor; simpl; lia.
Defined.
