(* ===== verification/Float32.v ===== *)
(** * IEEE 754 singles and doubles as bit patterns

    The parameter store compares, widens and narrows floating-point values; they are kept as
    their bit patterns, as the union [param_value_u] and the files do. The magnitude of a
    pattern is its value in units of the smallest subnormal, an integer, so that the
    operations are exact integer arithmetic followed by one rounding to nearest, ties to
    even. [fabsf(a - b)] compared with FLT_EPSILON is what the code does to detect changes. *)
From stdpp Require Import base tactics.
From Stdlib Require Import ZArith Lia.
From S2P Require Import Prelude.

(** ** Magnitudes

    [p] is the number of stored significand bits (23 or 52). A magnitude pattern is the
    exponent field followed by the significand field. *)

Definition f_decode (p bits : Z) : Z :=
  let e := bits / 2 ^ p in
  let m := bits mod 2 ^ p in
  if e =? 0 then m else (2 ^ p + m) * 2 ^ (e - 1).

(** Division rounded to nearest, ties to even. *)
Definition div_rne (a b : Z) : Z :=
  let q := a / b in
  let r := a mod b in
  if 2 * r <? b then q else if b <? 2 * r then q + 1 else if Z.even q then q else q + 1.

(** The pattern of [n / 2 ^ s]; the rounding carries into the exponent field. *)
Definition f_encode (p s n : Z) : Z :=
  let e := Z.max 0 (Z.log2 n - s - p) in
  e * 2 ^ p + div_rne n (2 ^ (s + e)).

(** ** Singles *)

Definition f32_inf : Z := 255 * 2 ^ 23.
Definition f32_nan : Z := f32_inf + 2 ^ 22.
Definition f32_sign (b : Z) : Z := b / 2 ^ 31.
Definition f32_mag (b : Z) : Z := b mod 2 ^ 31.
Definition f32_is_nan (b : Z) : bool := f32_inf <? f32_mag b.
Definition f32_is_inf (b : Z) : bool := f32_mag b =? f32_inf.
Definition f32_is_finite (b : Z) : bool := f32_mag b <? f32_inf.

(** The value in units of [2 ^ -149]. *)
Definition f32_units (b : Z) : Z := (if f32_sign b =? 0 then 1 else -1) * f_decode 23 (f32_mag b).

(** [fabsf(a - b)]. *)
Definition f32_abs_diff (a b : Z) : Z :=
  if f32_is_nan a || f32_is_nan b then f32_nan
  else if f32_is_inf a && f32_is_inf b then (if f32_sign a =? f32_sign b then f32_nan else f32_inf)
  else if f32_is_inf a || f32_is_inf b then f32_inf
  else Z.min f32_inf (f_encode 23 0 (Z.abs (f32_units a - f32_units b))).

(** FLT_EPSILON is [2 ^ -23]. *)
Definition FLT_EPSILON : Z := (127 - 23) * 2 ^ 23.

(** [fabsf(a - b) > FLT_EPSILON], [<=] and [<]: patterns of positive numbers are ordered like
    the numbers, and a comparison with a NaN is false. *)
Definition differ_gt_eps (a b : Z) : bool :=
  let d := f32_abs_diff a b in negb (f32_is_nan d) && (FLT_EPSILON <? d).
Definition differ_le_eps (a b : Z) : bool :=
  let d := f32_abs_diff a b in negb (f32_is_nan d) && (d <=? FLT_EPSILON).
Definition differ_lt_eps (a b : Z) : bool :=
  let d := f32_abs_diff a b in negb (f32_is_nan d) && (d <? FLT_EPSILON).

(** [f * 0.5f]. *)
Definition f32_half (b : Z) : Z :=
  if f32_is_nan b then Z.lor b (2 ^ 22)
  else if f32_is_inf b then b
  else f32_sign b * 2 ^ 31 + f_encode 23 1 (f_decode 23 (f32_mag b)).

(** ** Doubles *)

Definition f64_inf : Z := 2047 * 2 ^ 52.
Definition f64_sign (b : Z) : Z := b / 2 ^ 63.
Definition f64_mag (b : Z) : Z := b mod 2 ^ 63.
Definition f64_is_nan (b : Z) : bool := f64_inf <? f64_mag b.
Definition f64_is_inf (b : Z) : bool := f64_mag b =? f64_inf.

(** DBL_EPSILON is [2 ^ -52]. *)
Definition DBL_EPSILON : Z := (1023 - 52) * 2 ^ 52.

(** [d > DBL_EPSILON], [d < 0.0], [-d]. *)
Definition f64_gt_eps (d : Z) : bool := negb (f64_is_nan d) && (f64_sign d =? 0) && (DBL_EPSILON <? f64_mag d).
Definition f64_lt_0 (d : Z) : bool := negb (f64_is_nan d) && negb (f64_sign d =? 0) && negb (f64_mag d =? 0).
Definition f64_neg (d : Z) : Z := (1 - f64_sign d) * 2 ^ 63 + f64_mag d.

(** [(int32_t)d] as the FPU converts: truncation, saturating; a NaN gives 0. *)
Definition f64_to_int32 (d : Z) : Z :=
  if f64_is_nan d then 0
  else
    let n := (if f64_sign d =? 0 then 1 else -1) * (f_decode 52 (f64_mag d) / 2 ^ 1074) in
    Z.max (- 2 ^ 31) (Z.min (2 ^ 31 - 1) n).

(** [(double)f]: exact, and a NaN becomes quiet. A single's unit is [2 ^ 925] of a double's. *)
Definition f64_of_f32 (b : Z) : Z :=
  f32_sign b * 2 ^ 63 +
  (if f32_is_nan b then f64_inf + Z.lor (f32_mag b - f32_inf) (2 ^ 22) * 2 ^ 29
   else if f32_is_inf b then f64_inf
   else f_encode 52 0 (f_decode 23 (f32_mag b) * 2 ^ 925)).

(** [(float)d]: rounded; too large values become infinite. *)
Definition f32_of_f64 (d : Z) : Z :=
  f64_sign d * 2 ^ 31 +
  (if f64_is_nan d then f32_inf + Z.lor ((f64_mag d - f64_inf) / 2 ^ 29) (2 ^ 22)
   else if f64_is_inf d then f32_inf
   else Z.min f32_inf (f_encode 23 925 (f_decode 52 (f64_mag d)))).

(** ** Encoding is the inverse of decoding *)

Lemma div_rne_exact a b : 0 < b -> div_rne (a * b) b = a.
Proof.
  intros Hb. unfold div_rne. rewrite Z.div_mul, Z.mod_mul by lia. by decide_if.
Qed.

Lemma decode_subnormal p bits : 0 <= p -> 0 <= bits < 2 ^ p -> f_decode p bits = bits.
Proof.
  intros Hp Hb. unfold f_decode. rewrite Z.div_small, Z.mod_small by lia. done.
Qed.

Lemma decode_normal p e m : 0 <= p -> 1 <= e -> 0 <= m < 2 ^ p -> f_decode p (e * 2 ^ p + m) = (2 ^ p + m) * 2 ^ (e - 1).
Proof.
  intros Hp He Hm. unfold f_decode.
  assert ((e * 2 ^ p + m) / 2 ^ p = e) as -> by (symmetry; apply (Z.div_unique _ _ _ m); lia).
  assert ((e * 2 ^ p + m) mod 2 ^ p = m) as -> by (symmetry; apply (Z.mod_unique _ _ e); lia).
  by decide_if.
Qed.

Lemma split_bits p bits : 0 <= p -> 0 <= bits ->
  bits < 2 ^ p \/ exists e m, bits = e * 2 ^ p + m /\ 1 <= e /\ 0 <= m < 2 ^ p.
Proof.
  intros Hp Hb. pose proof (Z.pow_pos_nonneg 2 p ltac:(lia) Hp).
  destruct (Z.lt_ge_cases bits (2 ^ p)); [by left|]. right. exists (bits / 2 ^ p), (bits mod 2 ^ p).
  pose proof (Z.div_mod bits (2 ^ p) ltac:(lia)). pose proof (Z.mod_pos_bound bits (2 ^ p) ltac:(lia)).
  assert (1 <= bits / 2 ^ p) by (apply Z.div_le_lower_bound; lia). lia.
Qed.

Lemma log2_scaled p m e : 0 <= p -> 0 <= e -> 0 <= m < 2 ^ p -> Z.log2 ((2 ^ p + m) * 2 ^ e) = p + e.
Proof.
  intros Hp He Hm. rewrite Z.log2_mul_pow2 by lia.
  assert (Z.log2 (2 ^ p + m) = p) as ->; [|lia]. apply Z.log2_unique; [lia|]. rewrite Z.pow_succ_r by lia. lia.
Qed.

(** A single-precision [k * 2 ^ j] with at most [p + 1] bits in [k] is encoded exactly. *)
Lemma encode_normal p s m e :
  0 <= p -> 0 <= s -> 0 <= e -> 0 <= m < 2 ^ p -> f_encode p s ((2 ^ p + m) * 2 ^ (e + s)) = (e + 1) * 2 ^ p + m.
Proof.
  intros Hp Hs He Hm. unfold f_encode. rewrite log2_scaled by lia.
  replace (Z.max 0 (p + (e + s) - s - p)) with e by lia. rewrite (Z.add_comm s e), div_rne_exact by lia. lia.
Qed.

Lemma encode_subnormal p s n : 0 <= p -> 0 <= s -> 0 <= n < 2 ^ p -> f_encode p s (n * 2 ^ s) = n.
Proof.
  intros Hp Hs Hn. unfold f_encode.
  assert (Z.log2 (n * 2 ^ s) - s - p <= 0) as Hl.
  { destruct (Z.eq_dec n 0) as [->|]; [rewrite Z.mul_0_l; simpl; lia|].
    rewrite Z.log2_mul_pow2 by lia. pose proof (Z.log2_lt_pow2 n p ltac:(lia)). lia. }
  rewrite Z.max_l, Z.add_0_r, div_rne_exact by lia. lia.
Qed.

Lemma encode_decode p s bits : 0 <= p -> 0 <= s -> 0 <= bits -> f_encode p s (f_decode p bits * 2 ^ s) = bits.
Proof.
  intros Hp Hs Hb. destruct (split_bits p bits Hp Hb) as [Hlt|(e & m & -> & He & Hm)].
  - rewrite decode_subnormal by lia. by apply encode_subnormal.
  - rewrite decode_normal, <- Z.mul_assoc, <- Z.pow_add_r by lia. rewrite encode_normal by lia. lia.
Qed.

(** What fits a single is exact as a double. *)
Lemma decode_encode_wide bits :
  0 <= bits < f32_inf -> f_decode 52 (f_encode 52 0 (f_decode 23 bits * 2 ^ 925)) = f_decode 23 bits * 2 ^ 925.
Proof.
  intros Hb.
  assert (forall n, 0 < n < 2 ^ 24 -> forall j, 0 <= j -> f_decode 52 (f_encode 52 0 (n * 2 ^ (j + 52))) = n * 2 ^ (j + 52)) as H.
  { intros n Hn j Hj. pose proof (Z.log2_spec n ltac:(lia)) as [Hlo Hhi]. pose proof (Z.log2_nonneg n).
    pose proof (Z.log2_lt_pow2 n 24 ltac:(lia)). set (k := Z.log2 n) in *.
    rewrite Z.pow_succ_r in Hhi by lia.
    assert (2 ^ 52 = 2 ^ (52 - k) * 2 ^ k) as E52 by (rewrite <- Z.pow_add_r by lia; f_equal; lia).
    assert (n * 2 ^ (j + 52) = (2 ^ 52 + (n - 2 ^ k) * 2 ^ (52 - k)) * 2 ^ (j + k + 0)) as ->.
    { replace (j + 52) with ((52 - k) + (j + k + 0)) by lia. rewrite (Z.pow_add_r 2 (52 - k)), E52 by lia. ring. }
    assert (0 < 2 ^ (52 - k)) by lia.
    rewrite encode_normal by nia. rewrite decode_normal by nia. do 2 f_equal. lia. }
  destruct (split_bits 23 bits ltac:(lia) ltac:(lia)) as [Hlt|(e & m & -> & He & Hm)].
  - rewrite (decode_subnormal 23) by lia. destruct (Z.eq_dec bits 0) as [->|]; [done|].
    apply (H bits ltac:(lia) 873). lia.
  - rewrite (decode_normal 23), <- Z.mul_assoc, <- Z.pow_add_r by lia.
    replace (e - 1 + 925) with (e + 872 + 52) by lia. apply H; lia.
Qed.

Lemma encode_nonneg p s n : 0 <= p -> 0 <= s -> 0 <= n -> 0 <= f_encode p s n.
Proof.
  intros Hp Hs Hn. unfold f_encode, div_rne. pose proof (Z.div_pos n (2 ^ (s + Z.max 0 (Z.log2 n - s - p))) Hn ltac:(lia)).
  assert (0 <= Z.max 0 (Z.log2 n - s - p) * 2 ^ p) by (apply Z.mul_nonneg_nonneg; lia).
  repeat case_if; lia.
Qed.

Lemma decode_nonneg p bits : 0 <= p -> 0 <= bits -> 0 <= f_decode p bits.
Proof.
  intros Hp Hb. destruct (split_bits p bits Hp Hb) as [Hlt|(e & m & -> & He & Hm)].
  - by rewrite decode_subnormal.
  - rewrite decode_normal by lia. apply Z.mul_nonneg_nonneg; lia.
Qed.

(** ** Patterns split into sign and magnitude *)

Lemma f32_split b : b = f32_sign b * 2 ^ 31 + f32_mag b /\ 0 <= f32_mag b < 2 ^ 31.
Proof. unfold f32_sign, f32_mag. pose proof (Z.div_mod b (2 ^ 31)). pose proof (Z.mod_pos_bound b (2 ^ 31)). lia. Qed.

Lemma f32_sign_bit b : 0 <= b < 2 ^ 32 -> f32_sign b = 0 \/ f32_sign b = 1.
Proof. intros Hb. pose proof (f32_split b). lia. Qed.

Lemma f64_fields s m : 0 <= m < 2 ^ 63 -> f64_sign (s * 2 ^ 63 + m) = s /\ f64_mag (s * 2 ^ 63 + m) = m.
Proof.
  intros Hm. unfold f64_sign, f64_mag. split; symmetry.
  - apply (Z.div_unique _ _ _ m); lia.
  - apply (Z.mod_unique _ _ s); lia.
Qed.

Lemma encode_upper p s n k :
  0 <= p -> 0 <= s -> 0 <= n -> 0 <= k -> Z.log2 n <= p + s + k -> f_encode p s n <= (k + 2) * 2 ^ p.
Proof.
  intros Hp Hs Hn Hk Hl. unfold f_encode. remember (Z.max 0 (Z.log2 n - s - p)) as e eqn:He.
  assert (n < 2 ^ (p + 1) * 2 ^ (s + e)) as Hlt.
  { rewrite <- Z.pow_add_r by lia. destruct (Z.eq_dec n 0) as [->|]; [lia|].
    pose proof (Z.log2_spec n ltac:(lia)) as [_ Hhi]. eapply Z.lt_le_trans; [exact Hhi|]. apply Z.pow_le_mono_r; lia. }
  assert (n / 2 ^ (s + e) < 2 ^ (p + 1)) as Hq.
  { apply Z.div_lt_upper_bound; [apply Z.pow_pos_nonneg; lia|lia]. }
  rewrite (Z.pow_add_r 2 p 1) in Hq by lia. change (2 ^ 1) with 2 in Hq.
  assert (e * 2 ^ p <= k * 2 ^ p) by (apply Z.mul_le_mono_nonneg_r; lia).
  assert (div_rne n (2 ^ (s + e)) <= 2 * 2 ^ p) by (unfold div_rne; cbv zeta; repeat case_if; lia). lia.
Qed.

Lemma log2_decode m : 0 <= m < f32_inf -> Z.log2 (f_decode 23 m) <= 276.
Proof.
  intros Hm. destruct (split_bits 23 m ltac:(lia) ltac:(lia)) as [Hlt|(e & x & -> & He & Hx)].
  - rewrite decode_subnormal by lia. pose proof (Z.log2_le_mono m (2 ^ 23) ltac:(lia)) as Hl.
    rewrite Z.log2_pow2 in Hl by lia. lia.
  - rewrite decode_normal, log2_scaled by lia. unfold f32_inf in Hm. nia.
Qed.

Lemma wide_finite m : 0 <= m < f32_inf -> 0 <= f_encode 52 0 (f_decode 23 m * 2 ^ 925) < f64_inf.
Proof.
  intros Hm. pose proof (decode_nonneg 23 m ltac:(lia) ltac:(lia)). split; [apply encode_nonneg; lia|].
  eapply Z.le_lt_trans; [apply (encode_upper 52 0 _ 1149)|]; try lia; [|done].
  destruct (Z.eq_dec (f_decode 23 m) 0) as [->|]; [done|]. rewrite Z.log2_mul_pow2 by lia.
  pose proof (log2_decode m Hm). lia.
Qed.

(** Widening and narrowing give the value back. *)
Lemma f32_of_f64_of_f32 b : 0 <= b < 2 ^ 32 -> f32_is_nan b = false -> f32_of_f64 (f64_of_f32 b) = b.
Proof.
  unfold f32_is_nan. intros Hb Hn%Z.ltb_ge. destruct (f32_split b) as [E Hm].
  unfold f64_of_f32, f32_is_nan, f32_is_inf. rewrite (proj2 (Z.ltb_ge _ _)) by lia.
  case_if.
  - destruct (f64_fields (f32_sign b) f64_inf) as [Es Em]; [unfold f64_inf; lia|].
    unfold f32_of_f64, f64_is_nan, f64_is_inf. rewrite Es, Em, Z.ltb_irrefl, Z.eqb_refl. lia.
  - pose proof (wide_finite (f32_mag b) ltac:(lia)) as Hw.
    destruct (f64_fields (f32_sign b) (f_encode 52 0 (f_decode 23 (f32_mag b) * 2 ^ 925))) as [Es Em].
    { unfold f64_inf in Hw. lia. }
    unfold f32_of_f64, f64_is_nan, f64_is_inf. rewrite Es, Em.
    rewrite (proj2 (Z.ltb_ge _ _)), (proj2 (Z.eqb_neq _ _)) by lia.
    rewrite decode_encode_wide, encode_decode by lia. lia.
Qed.

Lemma quiet_range x : 0 <= x < 2 ^ 23 -> 0 < Z.lor x (2 ^ 22) < 2 ^ 23.
Proof.
  intros Hx. assert (0 < Z.lor x (2 ^ 22)) as Hpos.
  { pose proof (Z.lor_nonneg x (2 ^ 22)). pose proof (Z.lor_eq_0_iff x (2 ^ 22)). lia. }
  split; [done|]. apply Z.log2_lt_pow2; [done|]. rewrite Z.log2_lor by lia.
  destruct (Z.eq_dec x 0) as [->|]; [done|]. pose proof (proj1 (Z.log2_lt_pow2 x 23 ltac:(lia)) ltac:(lia)).
  rewrite Z.log2_pow2 by lia. lia.
Qed.

Lemma f64_split d : 0 <= d < 2 ^ 64 -> (f64_sign d = 0 \/ f64_sign d = 1) /\ 0 <= f64_mag d < 2 ^ 63.
Proof. intros Hd. unfold f64_sign, f64_mag. pose proof (Z.div_mod d (2 ^ 63)). pose proof (Z.mod_pos_bound d (2 ^ 63)). lia. Qed.

Lemma f32_of_f64_range d : 0 <= d < 2 ^ 64 -> 0 <= f32_of_f64 d < 2 ^ 32.
Proof.
  intros [Hs Hm]%f64_split. unfold f32_of_f64, f64_is_nan, f64_is_inf.
  assert (forall x, 0 <= x < 2 ^ 31 -> 0 <= f64_sign d * 2 ^ 31 + x < 2 ^ 32) as H by (intros x Hx; destruct Hs as [->| ->]; lia).
  apply H. case_if; [|case_if; [unfold f32_inf; lia|]].
  - pose proof (quiet_range ((f64_mag d - f64_inf) / 2 ^ 29)) as Hq. unfold f32_inf.
    assert (0 <= (f64_mag d - f64_inf) / 2 ^ 29 < 2 ^ 23) as Hr; [|specialize (Hq Hr); lia].
    unfold f64_inf in *. split; [apply Z.div_pos; lia|apply Z.div_lt_upper_bound; lia].
  - pose proof (decode_nonneg 52 (f64_mag d) ltac:(lia) ltac:(lia)).
    pose proof (encode_nonneg 23 925 (f_decode 52 (f64_mag d)) ltac:(lia) ltac:(lia) ltac:(lia)). unfold f32_inf. lia.
Qed.

Lemma f64_of_f32_range b : 0 <= b < 2 ^ 32 -> 0 <= f64_of_f32 b < 2 ^ 64.
Proof.
  intros Hb. destruct (f32_sign_bit b Hb) as [Hs|Hs]; destruct (f32_split b) as [_ Hm];
    unfold f64_of_f32, f32_is_nan, f32_is_inf; rewrite Hs.
  all: case_if; [|case_if; [unfold f64_inf; lia|pose proof (wide_finite (f32_mag b) ltac:(lia)); unfold f64_inf in *; lia]].
  all: pose proof (quiet_range (f32_mag b - f32_inf)) as Hq; unfold f32_inf, f64_inf in *; lia.
Qed.

(** A finite value does not differ from itself, others compare with nothing. *)
Lemma abs_diff_self b : f32_is_finite b = true -> f32_abs_diff b b = 0.
Proof.
  unfold f32_is_finite, f32_abs_diff, f32_is_nan, f32_is_inf. intros Hf%Z.ltb_lt.
  rewrite (proj2 (Z.ltb_ge f32_inf (f32_mag b))), (proj2 (Z.eqb_neq (f32_mag b) f32_inf)) by lia.
  cbn [orb andb]. by rewrite Z.sub_diag.
Qed.

Lemma abs_diff_self_nan b : f32_is_finite b = false -> f32_abs_diff b b = f32_nan.
Proof.
  unfold f32_is_finite, f32_abs_diff, f32_is_nan, f32_is_inf. intros Hf%Z.ltb_ge. repeat case_if; done || lia.
Qed.

Lemma differ_le_eps_self b : differ_le_eps b b = f32_is_finite b.
Proof.
  unfold differ_le_eps. destruct (f32_is_finite b) eqn:Hf; [by rewrite abs_diff_self|by rewrite abs_diff_self_nan].
Qed.

(** A non-finite value never counts as close to anything: it is NaN, or differs by infinity. *)
Lemma differ_le_eps_finite a b : differ_le_eps a b = true -> f32_is_finite a = true /\ f32_is_finite b = true.
Proof.
  unfold differ_le_eps, f32_abs_diff, f32_is_finite, f32_is_nan, f32_is_inf. rewrite !Z.ltb_lt.
  repeat case_if; first [intros _; lia|intros Hx; vm_compute in Hx; done].
Qed.

(** A NaN stays one. *)
Lemma nan_of_f64_of_f32 b : 0 <= b < 2 ^ 32 -> f32_is_nan b = true -> f32_is_nan (f32_of_f64 (f64_of_f32 b)) = true.
Proof.
  intros Hb Hn. unfold f64_of_f32. rewrite Hn. unfold f32_is_nan in Hn. apply Z.ltb_lt in Hn.
  destruct (f32_split b) as [_ Hm]. pose proof (quiet_range (f32_mag b - f32_inf)) as Hq.
  assert (0 <= f32_mag b - f32_inf < 2 ^ 23) as Hr by (unfold f32_inf in *; lia). specialize (Hq Hr).
  set (x := Z.lor (f32_mag b - f32_inf) (2 ^ 22)) in *.
  destruct (f64_fields (f32_sign b) (f64_inf + x * 2 ^ 29)) as [Es Em]; [unfold f64_inf; lia|].
  unfold f32_of_f64, f64_is_nan. rewrite Es, Em. decide_if.
  replace (f64_inf + x * 2 ^ 29 - f64_inf) with (x * 2 ^ 29) by lia. rewrite Z.div_mul by lia.
  pose proof (quiet_range x ltac:(lia)) as Hq2. unfold f32_is_nan, f32_mag. apply Z.ltb_lt.
  rewrite Z.add_comm, Z.mod_add by lia. rewrite Z.mod_small; unfold f32_inf; lia.
Qed.

Lemma lor_range w x y : 0 <= w -> 0 <= x < 2 ^ w -> 0 <= y < 2 ^ w -> 0 <= Z.lor x y < 2 ^ w.
Proof.
  intros Hw Hx Hy. assert (0 <= Z.lor x y) as H0 by (apply Z.lor_nonneg; lia). split; [done|].
  destruct (Z.eq_dec (Z.lor x y) 0) as [->|]; [lia|]. apply Z.log2_lt_pow2; [lia|]. rewrite Z.log2_lor by lia.
  assert (forall z, 0 <= z < 2 ^ w -> 0 < w -> Z.log2 z < w) as H.
  { intros z Hz Hpos. destruct (Z.eq_dec z 0) as [->|]; [done|]. apply Z.log2_lt_pow2; lia. }
  destruct (Z.eq_dec w 0) as [->|]; [|apply Z.max_lub_lt; apply H; lia].
  replace x with 0 in * by lia. replace y with 0 in * by lia. done.
Qed.

Lemma f32_half_range b : 0 <= b < 2 ^ 32 -> 0 <= f32_half b < 2 ^ 32.
Proof.
  intros Hb. unfold f32_half. case_if; [apply lor_range; lia|]. case_if; [done|].
  destruct (f32_split b) as [_ Hm]. unfold f32_is_nan, f32_is_inf in *. bool_hyps.
  pose proof (decode_nonneg 23 (f32_mag b) ltac:(lia) ltac:(lia)) as Hd.
  pose proof (encode_nonneg 23 1 _ ltac:(lia) ltac:(lia) Hd).
  pose proof (encode_upper 23 1 _ 252 ltac:(lia) ltac:(lia) Hd ltac:(lia)) as Hu.
  pose proof (log2_decode (f32_mag b) ltac:(lia)). specialize (Hu ltac:(lia)).
  destruct (f32_sign_bit b Hb) as [-> | ->]; lia.
Qed.

Lemma f64_neg_range d : 0 <= d < 2 ^ 64 -> 0 <= f64_neg d < 2 ^ 64.
Proof. intros [[Hs|Hs] Hm]%f64_split; unfold f64_neg; rewrite Hs; lia. Qed.
