(* ===== verification/FloatOps.v ===== *)
(** * Floating-point arithmetic on bit patterns

    The operations of C on [float] and [double] that the mission protocol uses, on the
    patterns of [Float32]: products, sums, the floor and the conversions from and to
    integers. A result is the exact value rounded once, to nearest with ties to even; an
    operation on a NaN gives the default NaN. Conversions to an integer saturate as the
    FPU of the targets does. *)
From stdpp Require Import base tactics.
From Stdlib Require Import ZArith Lia.
From S2P Require Import Prelude Float32.

(** ** Singles *)
Definition f32_pack (sign mag : Z) : Z := sign * 2 ^ 31 + Z.min f32_inf mag.
Definition f32_neg (b : Z) : Z := (1 - f32_sign b) * 2 ^ 31 + f32_mag b.
Definition xor_sign (a b : Z) : Z := if a =? b then 0 else 1.

(** The pattern of the quotient [num / den]. *)
Definition f_encode_q (p num den : Z) : Z :=
  let e := Z.max 0 (Z.log2 (num / den) - p) in
  e * 2 ^ p + div_rne num (den * 2 ^ e).

Definition f32_mul (a b : Z) : Z :=
  let s := xor_sign (f32_sign a) (f32_sign b) in
  if f32_is_nan a || f32_is_nan b then f32_nan
  else if f32_is_inf a || f32_is_inf b then
    (if (f32_mag a =? 0) || (f32_mag b =? 0) then f32_nan else f32_pack s f32_inf)
  else f32_pack s (f_encode 23 149 (f_decode 23 (f32_mag a) * f_decode 23 (f32_mag b))).

Definition f32_add (a b : Z) : Z :=
  if f32_is_nan a || f32_is_nan b then f32_nan
  else if f32_is_inf a then (if f32_is_inf b && negb (f32_sign a =? f32_sign b) then f32_nan else a)
  else if f32_is_inf b then b
  else
    let n := f32_units a + f32_units b in
    if n =? 0 then (if (f32_sign a =? 1) && (f32_sign b =? 1) then 2 ^ 31 else 0)
    else f32_pack (if n <? 0 then 1 else 0) (f_encode 23 0 (Z.abs n)).

Definition f32_sub (a b : Z) : Z := f32_add a (f32_neg b).

(** [a / b] for finite operands, [b] not zero; the code divides constants only. *)
Definition f32_div (a b : Z) : Z :=
  f32_pack (xor_sign (f32_sign a) (f32_sign b))
    (f_encode_q 23 (f_decode 23 (f32_mag a) * 2 ^ 149) (f_decode 23 (f32_mag b))).

(** Patterns in the order of their numbers; both zeros are 0. *)
Definition f32_order (b : Z) : Z := if f32_sign b =? 0 then f32_mag b else - f32_mag b.
Definition f32_lt (a b : Z) : bool := negb (f32_is_nan a) && negb (f32_is_nan b) && (f32_order a <? f32_order b).
Definition f32_le (a b : Z) : bool := negb (f32_is_nan a) && negb (f32_is_nan b) && (f32_order a <=? f32_order b).

(** [std::floor] *)
Definition f32_floor (b : Z) : Z :=
  if f32_is_nan b then f32_nan
  else if f32_is_inf b then b
  else if f32_mag b =? 0 then b
  else
    let n := f32_units b / 2 ^ 149 in
    f32_pack (if n <? 0 then 1 else 0) (f_encode 23 0 (Z.abs n * 2 ^ 149)).

(** [(float)n] *)
Definition f32_of_int (n : Z) : Z := f32_pack (if n <? 0 then 1 else 0) (f_encode 23 0 (Z.abs n * 2 ^ 149)).

(** [(int32_t)b] and [(uint32_t)b]: truncated and saturated; a NaN gives 0. *)
Definition f32_trunc (lo hi b : Z) : Z :=
  if f32_is_nan b then 0
  else if f32_is_inf b then (if f32_sign b =? 0 then hi else lo)
  else Z.max lo (Z.min hi (Z.quot (f32_units b) (2 ^ 149))).
Definition f32_to_int32 (b : Z) : Z := f32_trunc (- 2 ^ 31) (2 ^ 31 - 1) b.
Definition f32_to_uint32 (b : Z) : Z := f32_trunc 0 (2 ^ 32 - 1) b.

(** Narrower integers are converted through the 32-bit ones. *)
Definition f32_to_int16 (b : Z) : Z := s16 (f32_to_int32 b).
Definition f32_to_uint16 (b : Z) : Z := u16 (f32_to_uint32 b).

(** ** Doubles *)
Definition f64_nan : Z := f64_inf + 2 ^ 51.
Definition f64_pack (sign mag : Z) : Z := sign * 2 ^ 63 + Z.min f64_inf mag.

Definition f64_mul (a b : Z) : Z :=
  let s := xor_sign (f64_sign a) (f64_sign b) in
  if f64_is_nan a || f64_is_nan b then f64_nan
  else if f64_is_inf a || f64_is_inf b then
    (if (f64_mag a =? 0) || (f64_mag b =? 0) then f64_nan else f64_pack s f64_inf)
  else f64_pack s (f_encode 52 1074 (f_decode 52 (f64_mag a) * f_decode 52 (f64_mag b))).

(** [(double)n] *)
Definition f64_of_int (n : Z) : Z := f64_pack (if n <? 0 then 1 else 0) (f_encode 52 0 (Z.abs n * 2 ^ 1074)).

(** [round], half away from zero, followed by the conversion to [int32_t]. *)
Definition f64_round_int32 (d : Z) : Z :=
  if f64_is_nan d then 0
  else if f64_is_inf d then (if f64_sign d =? 0 then 2 ^ 31 - 1 else - 2 ^ 31)
  else
    let n := (2 * f_decode 52 (f64_mag d) + 2 ^ 1074) / 2 ^ 1075 in
    Z.max (- 2 ^ 31) (Z.min (2 ^ 31 - 1) ((if f64_sign d =? 0 then 1 else -1) * n)).

(** ** The rounding error *)
Lemma div_rne_error a b : 0 < b -> 2 * Z.abs (div_rne a b * b - a) <= b.
Proof.
  intros Hb. unfold div_rne. pose proof (Z.div_mod a b ltac:(lia)) as E. pose proof (Z.mod_pos_bound a b Hb).
  cbv zeta. repeat case_if; nia.
Qed.

(** A normal number is rounded by at most half a unit in its last place. *)
Lemma encode_error p s n :
  0 <= p -> 0 <= s -> 0 < n -> p + s <= Z.log2 n ->
  2 ^ (p + 1) * Z.abs (f_decode p (f_encode p s n) * 2 ^ s - n) <= n.
Proof.
  intros Hp Hs Hn Hl. unfold f_encode. rewrite Z.max_r by lia. set (e := Z.log2 n - s - p).
  pose proof (Z.log2_spec n Hn) as [Hlo Hhi]. rewrite Z.pow_succ_r in Hhi by lia.
  replace (Z.log2 n) with (p + (s + e)) in Hlo, Hhi by lia. rewrite Z.pow_add_r in Hlo, Hhi by lia.
  set (D := 2 ^ (s + e)) in *. assert (0 < D) by (apply Z.pow_pos_nonneg; lia).
  pose proof (div_rne_error n D ltac:(lia)) as Herr. set (q := div_rne n D) in *.
  assert (Hq : 2 ^ p <= q <= 2 * 2 ^ p) by nia.
  assert (Hdec : f_decode p (e * 2 ^ p + q) = q * 2 ^ e).
  { destruct (Z.eq_dec q (2 * 2 ^ p)) as [-> | Hne].
    - replace (e * 2 ^ p + 2 * 2 ^ p) with ((e + 2) * 2 ^ p + 0) by lia. rewrite decode_normal by lia.
      replace (e + 2 - 1) with (Z.succ e) by lia. rewrite Z.pow_succ_r by lia. ring.
    - replace (e * 2 ^ p + q) with ((e + 1) * 2 ^ p + (q - 2 ^ p)) by lia. rewrite decode_normal by lia.
      f_equal; [lia|f_equal; lia]. }
  rewrite Hdec. rewrite <- Z.mul_assoc, <- Z.pow_add_r, (Z.add_comm e s) by lia. fold D.
  rewrite Z.pow_add_r by lia. change (2 ^ 1) with 2. nia.
Qed.

(** A number of at most [p + 1] bits above the subnormal range is exact. *)
Lemma encode_exact p s u n : 0 <= p <= u -> 0 <= s -> 0 <= n < 2 ^ (p + 1) ->
  f_decode p (f_encode p s (n * 2 ^ (u + s))) = n * 2 ^ u.
Proof.
  intros Hp Hs Hn. destruct (Z.eq_dec n 0) as [-> | Hnz].
  { rewrite !Z.mul_0_l. change 0 with (0 * 2 ^ s) at 1. rewrite encode_subnormal by lia. apply decode_subnormal; lia. }
  pose proof (Z.log2_spec n ltac:(lia)) as [Hlo Hhi]. pose proof (Z.log2_nonneg n).
  assert (Z.log2 n < p + 1) by (apply Z.log2_lt_pow2; lia). set (k := Z.log2 n) in *. rewrite Z.pow_succ_r in Hhi by lia.
  assert (2 ^ p = 2 ^ (p - k) * 2 ^ k) as Ep by (rewrite <- Z.pow_add_r by lia; f_equal; lia).
  assert (n * 2 ^ (u + s) = (2 ^ p + (n - 2 ^ k) * 2 ^ (p - k)) * 2 ^ (u - p + k + s)) as ->.
  { replace (u + s) with ((p - k) + (u - p + k + s)) by lia. rewrite (Z.pow_add_r 2 (p - k)), Ep by lia. ring. }
  assert (0 < 2 ^ (p - k)) by (apply Z.pow_pos_nonneg; lia).
  rewrite encode_normal by nia. rewrite decode_normal by nia. replace (u - p + k + 1 - 1) with (u - (p - k)) by lia.
  replace (2 ^ p + (n - 2 ^ k) * 2 ^ (p - k)) with (n * 2 ^ (p - k)) by (rewrite Ep; ring).
  rewrite <- Z.mul_assoc, <- Z.pow_add_r by lia. do 2 f_equal. lia.
Qed.

(** An integer of at most 53 bits is exact as a double. *)
Lemma encode_int n : 0 <= n < 2 ^ 53 -> f_decode 52 (f_encode 52 0 (n * 2 ^ 1074)) = n * 2 ^ 1074.
Proof. intros Hn. apply (encode_exact 52 0 1074); lia. Qed.

Lemma encode_below_inf n : 0 < n -> Z.log2 n <= 2200 -> 0 <= f_encode 52 1074 n < f64_inf.
Proof.
  intros Hn Hl. split; [apply encode_nonneg; lia|].
  eapply Z.le_lt_trans; [apply (encode_upper 52 1074 n 1074); lia|]. done.
Qed.

(** ** Degrees and ten millionths of a degree

    [x * 1e-7] and [round(d * 1e7)] *)
Definition DBL_1e_7 : Z := f_encode_q 52 (2 ^ 1074) (10 ^ 7).
Definition DBL_1e7 : Z := f64_of_int (10 ^ 7).
Definition deg_of_e7 (x : Z) : Z := f64_mul (f64_of_int x) DBL_1e_7.
Definition e7_of_deg (d : Z) : Z := f64_round_int32 (f64_mul d DBL_1e7).

Lemma f64_mul_finite s t a b :
  0 <= a < f64_inf -> 0 <= b < f64_inf ->
  f64_mul (s * 2 ^ 63 + a) (t * 2 ^ 63 + b) = f64_pack (xor_sign s t) (f_encode 52 1074 (f_decode 52 a * f_decode 52 b)).
Proof.
  intros Ha Hb. assert (f64_inf < 2 ^ 63) by done. unfold f64_mul, f64_is_nan, f64_is_inf.
  destruct (f64_fields s a ltac:(lia)) as [-> ->]. destruct (f64_fields t b ltac:(lia)) as [-> ->].
  by rewrite (proj2 (Z.ltb_ge f64_inf a)), (proj2 (Z.ltb_ge f64_inf b)), (proj2 (Z.eqb_neq a _)), (proj2 (Z.eqb_neq b _)) by lia.
Qed.

Lemma log2_between a b n : 0 < n -> 2 ^ a <= n < 2 ^ (b + 1) -> 0 <= a -> a <= Z.log2 n <= b.
Proof.
  intros Hn [Hlo Hhi] Ha. split.
  - apply (Z.log2_le_pow2 n a Hn). done.
  - assert (Z.log2 n < b + 1) by (apply Z.log2_lt_pow2; lia). lia.
Qed.

(** Two roundings and the error of the constant stay far below half a unit. *)
Lemma e7_error X c U b d :
  0 < X <= 2 ^ 31 -> 0 < c -> 0 < U -> 2 ^ 53 * Z.abs (c * 10 ^ 7 - U) <= U ->
  2 ^ 53 * Z.abs (b - X * c) <= X * c -> 2 ^ 53 * Z.abs (d - b * 10 ^ 7) <= b * 10 ^ 7 ->
  2 * Z.abs (d - X * U) < U.
Proof.
  intros HX Hc HU Hce Hb Hd. assert (HP : 0 < X * c) by nia.
  assert (HPQ : 2 ^ 53 * Z.abs (X * c * 10 ^ 7 - X * U) <= X * U).
  { replace (X * c * 10 ^ 7 - X * U) with (X * (c * 10 ^ 7 - U)) by ring. rewrite Z.abs_mul, (Z.abs_eq X) by lia. nia. }
  assert (HQ : 0 < X * U <= 2 ^ 31 * U) by nia. set (P := X * c) in *. set (Q := X * U) in *. clearbody P Q. lia.
Qed.

(** A rounded product in lowest terms: the unit cancels. *)
Lemma encode_product_error a U n :
  U = 2 ^ 1074 -> n = a * U -> 0 < n -> 1126 <= Z.log2 n -> 2 ^ 53 * Z.abs (f_decode 52 (f_encode 52 1074 n) - a) <= a.
Proof.
  intros HU Hn Hpos Hl. assert (0 < U) by (rewrite HU; done).
  pose proof (encode_error 52 1074 n ltac:(lia) ltac:(lia) Hpos ltac:(lia)) as He. rewrite <- HU in He.
  change (52 + 1) with 53 in He. set (b := f_decode 52 _) in *. rewrite Hn in He.
  replace (b * U - a * U) with ((b - a) * U) in He by ring. rewrite Z.abs_mul, (Z.abs_eq U) in He by lia.
  apply (Z.mul_le_mono_pos_r _ _ U); [done|]. set (A := Z.abs (b - a)) in *. clearbody A. lia.
Qed.

(** The product of [X] degrees in units of 1e-7 and its way back, as magnitudes. *)
Lemma e7_magnitudes X : 0 < X <= 2 ^ 31 ->
  exists m1 m2 d,
    f_encode 52 1074 (X * 2 ^ 1074 * f_decode 52 DBL_1e_7) = m1 /\ 0 <= m1 < f64_inf /\
    f_encode 52 1074 (f_decode 52 m1 * (10 ^ 7 * 2 ^ 1074)) = m2 /\ 0 <= m2 < f64_inf /\
    f_decode 52 m2 = d /\ 2 * Z.abs (d - X * 2 ^ 1074) < 2 ^ 1074.
Proof.
  intros HX. remember (f_decode 52 DBL_1e_7) as c eqn:Ec. remember (2 ^ 1074) as U eqn:EU.
  assert (Hc : 2 ^ 53 * Z.abs (c * 10 ^ 7 - U) <= U /\ 2 ^ 1050 <= c < 2 ^ 1051).
  { subst. split_and!; [apply Z.leb_le|apply Z.leb_le|apply Z.ltb_lt]; vm_compute; reflexivity. }
  destruct Hc as [Hce Hcr]. assert (HU : 2 ^ 1074 <= U <= 2 ^ 1074) by lia. assert (0 < 2 ^ 1050) by done.
  assert (0 < 2 ^ 1074) by done. assert (0 < c) by lia. assert (0 < U) by lia.
  assert (Hl1 : 1126 <= Z.log2 (X * U * c) <= 2200).
  { apply log2_between; [nia| |lia]. split.
    - transitivity (1 * 2 ^ 1074 * 2 ^ 1050); [apply Z.leb_le; vm_compute; reflexivity|]. repeat apply Z.mul_le_mono_nonneg; lia.
    - eapply (Z.le_lt_trans _ (2 ^ 31 * 2 ^ 1074 * 2 ^ 1051)); [|apply Z.ltb_lt; vm_compute; reflexivity].
      repeat apply Z.mul_le_mono_nonneg; lia. }
  pose proof (encode_product_error (X * c) U (X * U * c) EU ltac:(ring) ltac:(nia) ltac:(lia)) as Hb.
  pose proof (encode_below_inf (X * U * c) ltac:(nia) ltac:(lia)) as Hm1.
  set (m1 := f_encode 52 1074 (X * U * c)) in *. set (b := f_decode 52 m1) in *.
  assert (Hbr : 2 ^ 1049 <= b <= 2 ^ 1084).
  { assert (HP : 2 ^ 1050 <= X * c <= 2 ^ 31 * 2 ^ 1051) by (clear Hb; nia).
    assert (Hp : 2 ^ 1050 = 2 * 2 ^ 1049 /\ 2 ^ 31 * 2 ^ 1051 * 4 = 2 ^ 1084) by (split; vm_compute; reflexivity).
    destruct Hp as [Hp Hp']. rewrite Hp in HP. rewrite <- Hp'. assert (Hpos : 0 < 2 ^ 1049) by done.
    clear - Hb HP Hpos. generalize dependent (2 ^ 1049). generalize dependent (2 ^ 31 * 2 ^ 1051).
    generalize dependent (X * c). clearbody b. intros. lia. }
  assert (Hl2 : 1126 <= Z.log2 (b * (10 ^ 7 * U)) <= 2200).
  { apply log2_between; [nia| |lia]. split.
    - transitivity (2 ^ 1049 * (10 ^ 7 * 2 ^ 1074)); [apply Z.leb_le; vm_compute; reflexivity|].
      repeat apply Z.mul_le_mono_nonneg; lia.
    - eapply (Z.le_lt_trans _ (2 ^ 1084 * (10 ^ 7 * 2 ^ 1074))); [|apply Z.ltb_lt; vm_compute; reflexivity].
      repeat apply Z.mul_le_mono_nonneg; lia. }
  pose proof (encode_product_error (b * 10 ^ 7) U (b * (10 ^ 7 * U)) EU ltac:(ring) ltac:(nia) ltac:(lia)) as Hd.
  pose proof (encode_below_inf (b * (10 ^ 7 * U)) ltac:(nia) ltac:(lia)) as Hm2.
  exists m1, (f_encode 52 1074 (b * (10 ^ 7 * U))), (f_decode 52 (f_encode 52 1074 (b * (10 ^ 7 * U)))).
  split_and!; [reflexivity|apply Hm1|apply Hm1|reflexivity|apply Hm2|apply Hm2|reflexivity|].
  apply (e7_error X c U b); assumption.
Qed.

Lemma f64_of_int_mag n : 0 < Z.abs n <= 2 ^ 31 ->
  exists m, f64_of_int n = (if n <? 0 then 1 else 0) * 2 ^ 63 + m /\ 0 <= m < f64_inf /\ f_decode 52 m = Z.abs n * 2 ^ 1074.
Proof.
  intros Hn. exists (f_encode 52 0 (Z.abs n * 2 ^ 1074)).
  assert (Hm : 0 <= f_encode 52 0 (Z.abs n * 2 ^ 1074) < f64_inf).
  { split; [apply encode_nonneg; lia|]. eapply Z.le_lt_trans; [apply (encode_upper 52 0 _ 1054); try lia|done].
    rewrite Z.log2_mul_pow2 by lia. assert (Z.log2 (Z.abs n) < 32) by (apply Z.log2_lt_pow2; lia). lia. }
  split; [|split; [done|apply encode_int; lia]]. unfold f64_of_int, f64_pack. by rewrite Z.min_r by lia.
Qed.

Lemma f64_pack_finite s m : m < f64_inf -> f64_pack s m = s * 2 ^ 63 + m.
Proof. intros. unfold f64_pack. by rewrite Z.min_r by lia. Qed.

(** An integer number of ten millionths of a degree survives the conversion to degrees
    and back. *)
Lemma e7_roundtrip x : - 2 ^ 31 <= x < 2 ^ 31 -> e7_of_deg (deg_of_e7 x) = x.
Proof.
  intros Hx. destruct (Z.eq_dec x 0) as [-> | Hnz]; [vm_compute; reflexivity|].
  destruct (e7_magnitudes (Z.abs x) ltac:(lia)) as (m1 & m2 & d & E1 & H1 & E2 & H2 & Ed & Herr).
  destruct (f64_of_int_mag x ltac:(lia)) as (m0 & E0 & H0 & D0).
  assert (Hc : 0 <= DBL_1e_7 < f64_inf) by (split; [apply Z.leb_le|apply Z.ltb_lt]; vm_compute; reflexivity).
  assert (Ht : exists mt, DBL_1e7 = 0 * 2 ^ 63 + mt /\ 0 <= mt < f64_inf /\ f_decode 52 mt = 10 ^ 7 * 2 ^ 1074) by
    apply (f64_of_int_mag (10 ^ 7) ltac:(lia)).
  destruct Ht as (mt & Et & Ht & Dt). set (s := if x <? 0 then 1 else 0) in *.
  assert (Hs : xor_sign s 0 = s) by (unfold s; by case_if).
  assert (Hd : deg_of_e7 x = s * 2 ^ 63 + m1).
  { unfold deg_of_e7. rewrite E0. rewrite <- (Z.add_0_l DBL_1e_7), <- (Z.mul_0_l (2 ^ 63)).
    rewrite f64_mul_finite, Hs, D0, E1 by done. apply f64_pack_finite. lia. }
  unfold e7_of_deg. rewrite Hd, Et, f64_mul_finite, Hs, Dt, E2 by done. rewrite f64_pack_finite by lia.
  assert (f64_inf < 2 ^ 63) by done. destruct (f64_fields s m2 ltac:(lia)) as [Fs Fm].
  unfold f64_round_int32, f64_is_nan, f64_is_inf. rewrite Fs, Fm, Ed, (proj2 (Z.ltb_ge _ _)), (proj2 (Z.eqb_neq m2 _)) by lia.
  assert (Hq : (2 * d + 2 ^ 1074) / 2 ^ 1075 = Z.abs x).
  { symmetry. change (2 ^ 1075) with (2 * 2 ^ 1074). clear - Herr Hx.
    apply (Z.div_unique _ _ _ (2 * (d - Z.abs x * 2 ^ 1074) + 2 ^ 1074)); [|ring]. left.
    generalize dependent (2 ^ 1074). intros. lia. }
  rewrite Hq. unfold s. clear - Hx Hnz.
  destruct (Z.ltb_spec x 0); [change (1 =? 0) with false|change (0 =? 0) with true]; cbv iota; lia.
Qed.

(** ** Results are patterns of their width *)
Definition f32_ok (b : Z) : Prop := 0 <= b < 2 ^ 32.

Lemma xor_sign_bit a b : xor_sign a b = 0 \/ xor_sign a b = 1.
Proof. unfold xor_sign. case_if; lia. Qed.

Lemma f32_pack_ok s m : s = 0 \/ s = 1 -> 0 <= m -> f32_ok (f32_pack s m).
Proof. assert (0 < f32_inf < 2 ^ 31) by done. unfold f32_ok, f32_pack. intros [-> | ->] Hm; lia. Qed.

Lemma sign_of_ok (b : bool) : (if b then 1 else 0) = 0 \/ (if b then 1 else 0) = 1.
Proof. destruct b; lia. Qed.

Lemma mag_decode_nonneg b : 0 <= f_decode 23 (f32_mag b).
Proof. apply decode_nonneg; [lia|]. apply f32_split. Qed.

Lemma f32_mul_ok a b : f32_ok (f32_mul a b).
Proof.
  unfold f32_mul. case_if; [done|]. case_if; [case_if; [done|]; apply f32_pack_ok; [apply xor_sign_bit|done]|].
  apply f32_pack_ok; [apply xor_sign_bit|]. apply encode_nonneg; [lia..|].
  pose proof (mag_decode_nonneg a). pose proof (mag_decode_nonneg b). nia.
Qed.

Lemma f32_add_ok a b : f32_ok a -> f32_ok b -> f32_ok (f32_add a b).
Proof.
  intros Ha Hb. unfold f32_add. case_if; [done|]. case_if; [by case_if|]. case_if; [done|]. cbv zeta.
  case_if; [by case_if|]. apply f32_pack_ok; [apply sign_of_ok|]. apply encode_nonneg; lia.
Qed.

Lemma f32_neg_ok b : f32_ok b -> f32_ok (f32_neg b).
Proof.
  intros Hb. destruct (f32_split b) as [_ Hm]. unfold f32_ok, f32_neg. destruct (f32_sign_bit b Hb) as [-> | ->]; lia.
Qed.

Lemma f32_of_int_ok n : f32_ok (f32_of_int n).
Proof. apply f32_pack_ok; [apply sign_of_ok|]. apply encode_nonneg; lia. Qed.

Lemma f32_to_uint16_range b : 0 <= f32_to_uint16 b < 2 ^ 16.
Proof. apply uwrap_range. lia. Qed.
Lemma f32_to_int16_range b : - 2 ^ 15 <= f32_to_int16 b < 2 ^ 15.
Proof. apply (swrap_range 16). lia. Qed.

Lemma f64_pack_ok s m : s = 0 \/ s = 1 -> 0 <= m -> 0 <= f64_pack s m < 2 ^ 64.
Proof. assert (0 < f64_inf < 2 ^ 63) by done. unfold f64_pack. intros [-> | ->] Hm; lia. Qed.

Lemma f64_mul_ok a b : 0 <= f64_mul a b < 2 ^ 64.
Proof.
  assert (Hd : forall x, 0 <= f_decode 52 (f64_mag x))
    by (intros x; apply decode_nonneg; [lia|unfold f64_mag; apply Z.mod_pos_bound; lia]).
  unfold f64_mul. case_if; [done|]. case_if; [case_if; [done|]; apply f64_pack_ok; [apply xor_sign_bit|done]|].
  apply f64_pack_ok; [apply xor_sign_bit|]. apply encode_nonneg; [lia..|]. pose proof (Hd a). pose proof (Hd b). nia.
Qed.

(** An integer of at most 24 bits survives being stored as a single. *)
Lemma f32_int_mag X : 0 < X < 2 ^ 24 ->
  let m := f_encode 23 925 (X * 2 ^ 1074) in 0 <= m < f32_inf /\ f_decode 23 m = X * 2 ^ 149.
Proof.
  intros HX m. split; [|apply (encode_exact 23 925 149); lia]. split; [apply encode_nonneg; lia|].
  eapply Z.le_lt_trans; [apply (encode_upper 23 925 _ 150); try lia|done].
  rewrite Z.log2_mul_pow2 by lia. assert (Z.log2 X < 24) by (apply Z.log2_lt_pow2; lia). lia.
Qed.

Lemma int24_roundtrip x : - 2 ^ 24 < x < 2 ^ 24 -> f64_round_int32 (f64_of_f32 (f32_of_f64 (f64_of_int x))) = x.
Proof.
  intros Hx. destruct (Z.eq_dec x 0) as [-> | Hnz]; [vm_compute; reflexivity|].
  destruct (f64_of_int_mag x ltac:(lia)) as (m0 & -> & H0 & D0). set (s := if x <? 0 then 1 else 0).
  assert (f64_inf < 2 ^ 63 /\ f32_inf < 2 ^ 31) as [? ?] by done.
  destruct (f64_fields s m0 ltac:(lia)) as [Fs Fm].
  destruct (f32_int_mag (Z.abs x) ltac:(lia)) as [Hm Dm]. set (m := f_encode 23 925 (Z.abs x * 2 ^ 1074)) in *.
  assert (E : f32_of_f64 (s * 2 ^ 63 + m0) = s * 2 ^ 31 + m).
  { unfold f32_of_f64, f64_is_nan, f64_is_inf. rewrite Fs, Fm, (proj2 (Z.ltb_ge _ _)), (proj2 (Z.eqb_neq m0 _)) by lia.
    rewrite D0. fold m. rewrite Z.min_r by lia. reflexivity. }
  assert (F32 : f32_sign (s * 2 ^ 31 + m) = s /\ f32_mag (s * 2 ^ 31 + m) = m).
  { unfold f32_sign, f32_mag. split; symmetry; [apply (Z.div_unique _ _ _ m)|apply (Z.mod_unique _ _ s)]; lia. }
  rewrite E. unfold f64_of_f32, f32_is_nan, f32_is_inf. destruct F32 as [-> ->].
  rewrite (proj2 (Z.ltb_ge _ _)), (proj2 (Z.eqb_neq m _)), Dm by lia. rewrite <- Z.mul_assoc, <- Z.pow_add_r by lia.
  change (149 + 925) with 1074. pose proof (encode_int (Z.abs x) ltac:(lia)) as Di.
  set (m2 := f_encode 52 0 (Z.abs x * 2 ^ 1074)) in *.
  assert (H2 : 0 <= m2 < f64_inf).
  { unfold m2. rewrite <- D0, <- (Z.mul_1_r (f_decode 52 m0)). change 1 with (2 ^ 0). rewrite encode_decode by lia. done. }
  destruct (f64_fields s m2 ltac:(lia)) as [Gs Gm]. unfold f64_round_int32, f64_is_nan, f64_is_inf.
  rewrite Gs, Gm, Di, (proj2 (Z.ltb_ge _ _)), (proj2 (Z.eqb_neq m2 _)) by lia.
  assert (Hq : (2 * (Z.abs x * 2 ^ 1074) + 2 ^ 1074) / 2 ^ 1075 = Z.abs x).
  { symmetry. change (2 ^ 1075) with (2 * 2 ^ 1074). apply (Z.div_unique _ _ _ (2 ^ 1074)); [|ring]. left. done. }
  rewrite Hq. unfold s. clear - Hx Hnz.
  destruct (Z.ltb_spec x 0); [change (1 =? 0) with false|change (0 =? 0) with true]; cbv iota; lia.
Qed.
