(* ===== verification/FloatBounds.v ===== *)
(** * Rounding and order of single-precision arithmetic

    The operations of [FloatOps] round the exact result once. This file shows that rounding
    respects order: a result whose exact value is at most a representable number is at most
    that number, and an exact value that is representable is not rounded. It adds the
    operations that the motor outputs use: division in full, the square root and [lroundf]. *)
From stdpp Require Import base tactics.
From Stdlib Require Import ZArith Lia.
From S2P Require Import Prelude Float32 FloatOps.

(** ** Operations *)

(** [a / b] *)
Definition f32_divide (a b : Z) : Z :=
  let s := xor_sign (f32_sign a) (f32_sign b) in
  if f32_is_nan a || f32_is_nan b then f32_nan
  else if f32_is_inf a then (if f32_is_inf b then f32_nan else f32_pack s f32_inf)
  else if f32_is_inf b then f32_pack s 0
  else if f32_mag b =? 0 then (if f32_mag a =? 0 then f32_nan else f32_pack s f32_inf)
  else f32_div a b.

(** [sqrtf(b)]: the integer root with enough digits and a last digit that tells whether it is
    exact, so that rounding it gives the rounded root. *)
Definition f32_sqrt (b : Z) : Z :=
  if f32_is_nan b then f32_nan
  else if f32_mag b =? 0 then b
  else if f32_sign b =? 1 then f32_nan
  else if f32_is_inf b then b
  else
    let n := f_decode 23 (f32_mag b) * 2 ^ 249 in
    let r := Z.sqrt n in
    f32_pack 0 (f_encode 23 51 (2 * r + (if r * r =? n then 0 else 1))).

(** [lroundf(b)]: halves are rounded away from zero. The result is not specified for a NaN and
    for values that a 32-bit [long] does not hold. *)
Definition f32_lround (b : Z) : Z :=
  if f32_is_nan b then 0
  else if f32_is_inf b then (if f32_sign b =? 0 then 2 ^ 31 - 1 else - 2 ^ 31)
  else (if f32_sign b =? 0 then 1 else -1) * ((2 * f_decode 23 (f32_mag b) + 2 ^ 149) / 2 ^ 150).

(** The sum of doubles. *)
Definition f64_units (b : Z) : Z := (if f64_sign b =? 0 then 1 else -1) * f_decode 52 (f64_mag b).
Definition f64_add (a b : Z) : Z :=
  if f64_is_nan a || f64_is_nan b then f64_nan
  else if f64_is_inf a then (if f64_is_inf b && negb (f64_sign a =? f64_sign b) then f64_nan else a)
  else if f64_is_inf b then b
  else
    let n := f64_units a + f64_units b in
    if n =? 0 then (if (f64_sign a =? 1) && (f64_sign b =? 1) then 2 ^ 63 else 0)
    else f64_pack (if n <? 0 then 1 else 0) (f_encode 52 0 (Z.abs n)).

Definition f32_eq (a b : Z) : bool := negb (f32_is_nan a) && negb (f32_is_nan b) && (f32_order a =? f32_order b).

(** ** Rounding is monotonic *)
Lemma div_rne_bounds a b : 0 < b -> a / b <= div_rne a b <= a / b + 1.
Proof. intros Hb. unfold div_rne. cbv zeta. repeat case_if; lia. Qed.

Lemma div_rne_mono a1 a2 b : 0 < b -> a1 <= a2 -> div_rne a1 b <= div_rne a2 b.
Proof.
  intros Hb Ha. pose proof (Z.div_le_mono a1 a2 b Hb Ha) as Hq.
  destruct (Z.eq_dec (a1 / b) (a2 / b)) as [E|E].
  - unfold div_rne. cbv zeta. rewrite E. pose proof (Z.div_mod a1 b ltac:(lia)). pose proof (Z.div_mod a2 b ltac:(lia)).
    assert (a1 mod b <= a2 mod b) by nia. repeat case_if; lia.
  - pose proof (div_rne_bounds a1 b Hb). pose proof (div_rne_bounds a2 b Hb). lia.
Qed.

Lemma div_rne_ge a b q : 0 < b -> q * b <= a -> q <= div_rne a b.
Proof. intros Hb Ha. pose proof (div_rne_bounds a b Hb). pose proof (Z.div_le_lower_bound a b q Hb ltac:(lia)). lia. Qed.

Lemma div_rne_le a b q : 0 < b -> a <= q * b -> div_rne a b <= q.
Proof. intros Hb Ha. rewrite <- (div_rne_exact q b Hb). by apply div_rne_mono. Qed.

Lemma encode_mono p s n1 n2 : 0 <= p -> 0 <= s -> 0 <= n1 <= n2 -> f_encode p s n1 <= f_encode p s n2.
Proof.
  intros Hp Hs Hn. unfold f_encode. pose proof (Z.log2_le_mono n1 n2 ltac:(lia)) as Hl.
  remember (Z.max 0 (Z.log2 n1 - s - p)) as e1 eqn:E1. remember (Z.max 0 (Z.log2 n2 - s - p)) as e2 eqn:E2.
  destruct (Z.eq_dec e1 e2) as [->|Hne]; [pose proof (div_rne_mono n1 n2 (2 ^ (s + e2)) ltac:(lia) ltac:(lia)); lia|].
  assert (H1 : div_rne n1 (2 ^ (s + e1)) <= 2 * 2 ^ p).
  { apply div_rne_le; [lia|]. destruct (Z.eq_dec n1 0) as [->|]; [nia|]. rewrite <- Z.pow_succ_r, <- Z.pow_add_r by lia.
    pose proof (Z.log2_spec n1 ltac:(lia)) as [_ Hhi]. apply Z.lt_le_incl. eapply Z.lt_le_trans; [exact Hhi|]. apply Z.pow_le_mono_r; lia. }
  assert (H2 : 2 ^ p <= div_rne n2 (2 ^ (s + e2))).
  { apply div_rne_ge; [lia|]. rewrite <- Z.pow_add_r by lia. destruct (Z.eq_dec n2 0) as [->|]; [exfalso; assert (n1 = 0) by lia; subst; lia|].
    pose proof (Z.log2_spec n2 ltac:(lia)) as [Hlo _]. eapply Z.le_trans; [|exact Hlo]. apply Z.pow_le_mono_r; lia. }
  assert ((e1 + 1) * 2 ^ p <= e2 * 2 ^ p) by (apply Z.mul_le_mono_nonneg_r; lia). lia.
Qed.

Lemma round_le p s n m : 0 <= p -> 0 <= s -> 0 <= m -> 0 <= n <= f_decode p m * 2 ^ s -> f_encode p s n <= m.
Proof. intros Hp Hs Hm Hn. rewrite <- (encode_decode p s m Hp Hs Hm). by apply encode_mono. Qed.

Lemma round_ge p s n m : 0 <= p -> 0 <= s -> 0 <= m -> f_decode p m * 2 ^ s <= n -> m <= f_encode p s n.
Proof.
  intros Hp Hs Hm Hn. rewrite <- (encode_decode p s m Hp Hs Hm) at 1. apply encode_mono; [done..|].
  pose proof (decode_nonneg p m Hp Hm). nia.
Qed.

Lemma decode_mono p m1 m2 : 0 <= p -> 0 <= m1 -> 0 <= m2 -> f_decode p m1 <= f_decode p m2 <-> m1 <= m2.
Proof.
  intros Hp H1 H2. assert (H : forall a b, 0 <= a -> 0 <= b -> f_decode p a <= f_decode p b -> a <= b).
  { intros a b Ha Hb Hd. rewrite <- (encode_decode p 0 a Hp ltac:(lia) Ha). apply round_le; [done..|]. pose proof (decode_nonneg p a Hp Ha). lia. }
  split; [by apply H|]. intros Hm. destruct (Z.le_gt_cases (f_decode p m1) (f_decode p m2)) as [|Hgt]; [done|].
  pose proof (H m2 m1 H2 H1 ltac:(lia)). assert (m1 = m2) as -> by lia. lia.
Qed.

(** ** Order and value of finite patterns *)
Ltac sign_if := repeat (change (0 =? 0) with true in * || change (1 =? 0) with false in *); cbv iota in *.

Definition f32_fin (b : Z) : Prop := f32_ok b /\ f32_mag b < f32_inf.

Lemma fin_not_nan b : f32_fin b -> f32_is_nan b = false /\ f32_is_inf b = false.
Proof. intros [_ Hb]. unfold f32_is_nan, f32_is_inf. split; [apply Z.ltb_ge|apply Z.eqb_neq]; lia. Qed.

Lemma is_finite_fin b : f32_ok b -> f32_is_finite b = true -> f32_fin b.
Proof. intros Hb Hf. split; [done|]. by apply Z.ltb_lt. Qed.

Lemma units_order a b : f32_fin a -> f32_fin b -> f32_units a <= f32_units b <-> f32_order a <= f32_order b.
Proof.
  intros [Ha Fa] [Hb Fb]. unfold f32_units, f32_order. destruct (f32_split a) as [_ Ma]. destruct (f32_split b) as [_ Mb].
  pose proof (decode_mono 23 (f32_mag a) (f32_mag b) ltac:(lia) ltac:(lia) ltac:(lia)) as Hab.
  pose proof (decode_mono 23 (f32_mag b) (f32_mag a) ltac:(lia) ltac:(lia) ltac:(lia)) as Hba.
  pose proof (decode_mono 23 (f32_mag a) 0 ltac:(lia) ltac:(lia) ltac:(lia)) as Ha0. pose proof (decode_mono 23 (f32_mag b) 0 ltac:(lia) ltac:(lia) ltac:(lia)) as Hb0.
  rewrite (decode_subnormal 23 0) in Ha0, Hb0 by lia. pose proof (mag_decode_nonneg a). pose proof (mag_decode_nonneg b).
  destruct (f32_sign_bit a Ha) as [-> | ->], (f32_sign_bit b Hb) as [-> | ->]; sign_if; lia.
Qed.

(** ** One rounding *)

(** The pattern nearest to [n / 2 ^ s] units. *)
Definition f32_round (s n : Z) : Z := f32_pack (if n <? 0 then 1 else 0) (f_encode 23 s (Z.abs n)).

Lemma f32_pack_fields s m : s = 0 \/ s = 1 -> 0 <= m -> f32_sign (f32_pack s m) = s /\ f32_mag (f32_pack s m) = Z.min f32_inf m.
Proof.
  assert (0 < f32_inf < 2 ^ 31) by done. intros Hs Hm. unfold f32_pack, f32_sign, f32_mag.
  split; symmetry; [apply (Z.div_unique _ _ _ (Z.min f32_inf m))|apply (Z.mod_unique _ _ s)]; lia.
Qed.

Lemma pack_order s m : s = 0 \/ s = 1 -> 0 <= m -> f32_order (f32_pack s m) = (if s =? 0 then 1 else -1) * Z.min f32_inf m.
Proof. intros Hs Hm. unfold f32_order. destruct (f32_pack_fields s m Hs Hm) as [-> ->]. case_if; lia. Qed.

Lemma f32_round_ok s n : 0 <= s -> f32_ok (f32_round s n).
Proof. intros Hs. apply f32_pack_ok; [apply sign_of_ok|]. apply encode_nonneg; lia. Qed.

Lemma f32_round_not_nan s n : 0 <= s -> f32_is_nan (f32_round s n) = false.
Proof.
  intros Hs. unfold f32_is_nan, f32_round. pose proof (encode_nonneg 23 s (Z.abs n) ltac:(lia) Hs ltac:(lia)).
  rewrite (proj2 (f32_pack_fields _ _ (sign_of_ok _) ltac:(done))). apply Z.ltb_ge. lia.
Qed.

Lemma round_order s n : 0 <= s -> f32_order (f32_round s n) = (if n <? 0 then -1 else 1) * Z.min f32_inf (f_encode 23 s (Z.abs n)).
Proof. intros Hs. unfold f32_round. rewrite pack_order; [by destruct (n <? 0)|apply sign_of_ok|]. apply encode_nonneg; lia. Qed.

(** The sign of the encoding does not matter for zero. *)
Lemma encode_zero s : 0 <= s -> f_encode 23 s 0 = 0.
Proof. intros Hs. apply (encode_subnormal 23 s 0); lia. Qed.

Lemma round_order_le s n c : 0 <= s -> f32_fin c -> n <= f32_units c * 2 ^ s -> f32_order (f32_round s n) <= f32_order c.
Proof.
  intros Hs [Hc Fc] Hn. rewrite round_order by done. unfold f32_units, f32_order in *. destruct (f32_split c) as [_ Mc].
  pose proof (mag_decode_nonneg c) as Hd. pose proof (encode_nonneg 23 s (Z.abs n) ltac:(lia) Hs ltac:(lia)) as He.
  assert (0 < 2 ^ s) by (apply Z.pow_pos_nonneg; lia).
  destruct (f32_sign_bit c Hc) as [Hsc | Hsc]; rewrite Hsc in *; sign_if.
  - destruct (Z.ltb_spec n 0); [lia|]. pose proof (round_le 23 s n (f32_mag c) ltac:(lia) Hs ltac:(lia) ltac:(lia)). rewrite Z.abs_eq in * by lia. lia.
  - assert (Hle : f_decode 23 (f32_mag c) * 2 ^ s <= Z.abs n \/ f_decode 23 (f32_mag c) = 0) by nia. destruct Hle as [Hle|Hz].
    + pose proof (round_ge 23 s (Z.abs n) (f32_mag c) ltac:(lia) Hs ltac:(lia) Hle) as Hg. destruct (Z.ltb_spec n 0); [lia|].
      assert (n = 0) as -> by nia. rewrite encode_zero in * by done. lia.
    + pose proof (decode_mono 23 (f32_mag c) 0 ltac:(lia) ltac:(lia) ltac:(lia)) as Hm0. rewrite (decode_subnormal 23 0) in Hm0 by lia.
      destruct (Z.ltb_spec n 0); [lia|]. assert (n = 0) as -> by nia. rewrite encode_zero by done. lia.
Qed.

Lemma order_neg b : f32_ok b -> f32_order (f32_neg b) = - f32_order b /\ f32_units (f32_neg b) = - f32_units b /\ f32_mag (f32_neg b) = f32_mag b.
Proof.
  intros Hb. destruct (f32_split b) as [_ Hm]. unfold f32_order, f32_units, f32_neg.
  assert (Hf : forall s, f32_sign (s * 2 ^ 31 + f32_mag b) = s /\ f32_mag (s * 2 ^ 31 + f32_mag b) = f32_mag b).
  { intros s. unfold f32_sign at 1, f32_mag at 2. split; symmetry; [apply (Z.div_unique _ _ _ (f32_mag b))|apply (Z.mod_unique _ _ s)]; lia. }
  destruct (Hf (1 - f32_sign b)) as [-> ->]. destruct (f32_sign_bit b Hb) as [-> | ->]; change (1 - 0) with 1; change (1 - 1) with 0; sign_if; lia.
Qed.

Lemma neg_fin b : f32_fin b -> f32_fin (f32_neg b).
Proof. intros [Hb Hm]. split; [by apply f32_neg_ok|]. by rewrite (proj2 (proj2 (order_neg b Hb))). Qed.

Lemma round_neg_order s n : 0 <= s -> f32_order (f32_round s (- n)) = - f32_order (f32_round s n).
Proof.
  intros Hs. rewrite !round_order by done. rewrite Z.abs_opp. destruct (Z.ltb_spec n 0), (Z.ltb_spec (- n) 0); try lia.
  assert (0 < f32_inf) by done. assert (n = 0) as -> by lia. cbn [Z.abs]. rewrite encode_zero by done. lia.
Qed.

Lemma round_order_ge s n c : 0 <= s -> f32_fin c -> f32_units c * 2 ^ s <= n -> f32_order c <= f32_order (f32_round s n).
Proof.
  intros Hs Hc Hn. pose proof (round_order_le s (- n) (f32_neg c) Hs (neg_fin c Hc)) as H.
  destruct (order_neg c (proj1 Hc)) as (Ho & Hu & _). rewrite Ho, Hu, round_neg_order in H by done. lia.
Qed.

(** Between two numbers a result is finite. *)
Lemma order_fin lo b hi : f32_ok b -> f32_is_nan b = false -> f32_fin lo -> f32_fin hi -> f32_order lo <= f32_order b <= f32_order hi -> f32_fin b.
Proof.
  intros Hb Hn [Hlo Flo] [Hhi Fhi] Ho. split; [done|]. unfold f32_order in Ho. destruct (f32_split lo) as [_ ?]. destruct (f32_split hi) as [_ ?]. destruct (f32_split b) as [_ ?].
  destruct (f32_sign_bit b Hb) as [Es | Es], (f32_sign_bit lo Hlo) as [El | El], (f32_sign_bit hi Hhi) as [Eh | Eh];
    rewrite Es, El, Eh in Ho; sign_if; lia.
Qed.

(** An exact value that is a pattern is not rounded. *)
Lemma round_exact s n c : 0 <= s -> f32_fin c -> n = f32_units c * 2 ^ s -> f32_fin (f32_round s n) /\ f32_units (f32_round s n) = f32_units c.
Proof.
  intros Hs Hc ->. pose proof (round_order_le s _ c Hs Hc (Z.le_refl _)) as Hle. pose proof (round_order_ge s _ c Hs Hc (Z.le_refl _)) as Hge.
  assert (Hf : f32_fin (f32_round s (f32_units c * 2 ^ s))).
  { apply (order_fin c _ c); [by apply f32_round_ok|by apply f32_round_not_nan|done|done|lia]. }
  split; [done|]. pose proof (proj2 (units_order _ _ Hf Hc)). pose proof (proj2 (units_order _ _ Hc Hf)). lia.
Qed.

(** Half integers below [2 ^ 23] are patterns. *)
Definition f32_of_half (k : Z) : Z := f32_round 0 (k * 2 ^ 148).

Lemma of_half_spec k : Z.abs k < 2 ^ 24 -> f32_fin (f32_of_half k) /\ f32_units (f32_of_half k) = k * 2 ^ 148.
Proof.
  intros Hk. unfold f32_of_half, f32_round. rewrite Z.abs_mul, (Z.abs_eq (2 ^ 148)) by lia.
  pose proof (encode_exact 23 0 148 (Z.abs k) ltac:(lia) ltac:(lia) ltac:(lia)) as He. rewrite Z.add_0_r in He.
  set (m := f_encode 23 0 (Z.abs k * 2 ^ 148)) in *. assert (Hm : 0 <= m < f32_inf).
  { split; [apply encode_nonneg; lia|]. eapply Z.le_lt_trans; [apply (encode_upper 23 0 _ 150); try lia|done].
    destruct (Z.eq_dec k 0) as [->|]; [change (Z.log2 (Z.abs 0 * 2 ^ 148)) with 0; lia|]. rewrite Z.log2_mul_pow2 by lia. assert (Z.log2 (Z.abs k) < 24) by (apply Z.log2_lt_pow2; lia). lia. }
  destruct (f32_pack_fields (if k * 2 ^ 148 <? 0 then 1 else 0) m (sign_of_ok _) ltac:(lia)) as [Es Em].
  split; [split; [apply f32_pack_ok; [apply sign_of_ok|lia]|rewrite Em; lia]|].
  unfold f32_units. rewrite Es, Em, Z.min_r, He by lia. destruct (Z.ltb_spec (k * 2 ^ 148) 0); sign_if; lia.
Qed.

Lemma of_int_half n : f32_of_int n = f32_of_half (2 * n).
Proof.
  unfold f32_of_int, f32_of_half, f32_round. replace (2 * n * 2 ^ 148) with (n * 2 ^ 149) by (change (2 ^ 149) with (2 * 2 ^ 148); ring).
  rewrite Z.abs_mul, (Z.abs_eq (2 ^ 149)) by lia. f_equal. destruct (Z.ltb_spec n 0), (Z.ltb_spec (n * 2 ^ 149) 0); lia || reflexivity.
Qed.

Lemma of_int_spec n : Z.abs n < 2 ^ 23 -> f32_fin (f32_of_int n) /\ f32_units (f32_of_int n) = n * 2 ^ 149.
Proof. intros Hn. rewrite of_int_half. destruct (of_half_spec (2 * n) ltac:(lia)) as [Hf ->]. split; [done|]. change (2 ^ 149) with (2 * 2 ^ 148). ring. Qed.

(** ** The operations *)
Lemma f32_add_round a b : f32_fin a -> f32_fin b ->
  f32_order (f32_add a b) = f32_order (f32_round 0 (f32_units a + f32_units b)) /\ f32_ok (f32_add a b) /\ f32_is_nan (f32_add a b) = false.
Proof.
  intros Ha Hb. pose proof (f32_add_ok a b (proj1 Ha) (proj1 Hb)) as Hok. destruct (fin_not_nan a Ha) as [Na Ia]. destruct (fin_not_nan b Hb) as [Nb Ib].
  unfold f32_add in *. rewrite Na, Nb, Ia, Ib in *. cbn [orb] in *. cbv zeta in *. destruct (Z.eqb_spec (f32_units a + f32_units b) 0) as [E|E].
  - rewrite E. split; [|split; [done|by case_if]]. rewrite round_order by lia. change (Z.abs 0) with 0. change (0 <? 0) with false.
    rewrite encode_zero by lia. by case_if.
  - split; [done|]. split; [done|]. by apply (f32_round_not_nan 0).
Qed.

Lemma f32_mul_round a b : f32_fin a -> f32_fin b ->
  f32_order (f32_mul a b) = f32_order (f32_round 149 (f32_units a * f32_units b)) /\ f32_ok (f32_mul a b) /\ f32_is_nan (f32_mul a b) = false.
Proof.
  intros Ha Hb. pose proof (f32_mul_ok a b) as Hok. destruct (fin_not_nan a Ha) as [Na Ia]. destruct (fin_not_nan b Hb) as [Nb Ib].
  unfold f32_mul in *. cbv zeta in *. rewrite Na, Nb, Ia, Ib in *. cbn [orb] in *.
  pose proof (mag_decode_nonneg a) as Da. pose proof (mag_decode_nonneg b) as Db. set (x := f_decode 23 (f32_mag a)) in *. set (y := f_decode 23 (f32_mag b)) in *.
  pose proof (encode_nonneg 23 149 (x * y) ltac:(lia) ltac:(lia) ltac:(nia)) as He.
  assert (Hu : f32_units a * f32_units b = (if xor_sign (f32_sign a) (f32_sign b) =? 0 then 1 else -1) * (x * y)).
  { unfold f32_units. fold x y. unfold xor_sign. destruct (f32_sign_bit a (proj1 Ha)) as [-> | ->], (f32_sign_bit b (proj1 Hb)) as [-> | ->];
      change (1 =? 1) with true; change (0 =? 1) with false; sign_if; sign_if; ring. }
  split; [|split; [done|]].
  - rewrite pack_order, round_order by (lia || apply xor_sign_bit). rewrite Hu. destruct (xor_sign_bit (f32_sign a) (f32_sign b)) as [-> | ->]; sign_if.
    + rewrite (proj2 (Z.ltb_ge _ _)), Z.abs_eq by nia. f_equal. f_equal. f_equal. lia.
    + destruct (Z.eq_dec (x * y) 0) as [Hz|Hz]; [rewrite Hz; change (-1 * 0) with 0; change (Z.abs 0) with 0; rewrite encode_zero by lia; reflexivity|].
      rewrite (proj2 (Z.ltb_lt _ _)) by nia. replace (Z.abs (-1 * (x * y))) with (x * y) by nia. lia.
  - unfold f32_is_nan. rewrite (proj2 (f32_pack_fields _ _ (xor_sign_bit _ _) He)). apply Z.ltb_ge. lia.
Qed.

Lemma f32_add_between lo a b hi : f32_fin lo -> f32_fin a -> f32_fin b -> f32_fin hi ->
  f32_units lo <= f32_units a + f32_units b <= f32_units hi ->
  f32_fin (f32_add a b) /\ f32_units lo <= f32_units (f32_add a b) <= f32_units hi.
Proof.
  intros Hlo Ha Hb Hhi Hu. destruct (f32_add_round a b Ha Hb) as (Ho & Hok & Hn).
  pose proof (round_order_le 0 (f32_units a + f32_units b) hi ltac:(lia) Hhi ltac:(lia)). pose proof (round_order_ge 0 (f32_units a + f32_units b) lo ltac:(lia) Hlo ltac:(lia)).
  assert (Hf : f32_fin (f32_add a b)) by (apply (order_fin lo _ hi); (done || lia)). split; [done|].
  rewrite <- Ho in *. split; [by apply units_order|by apply units_order].
Qed.

Lemma f32_mul_between lo a b hi : f32_fin lo -> f32_fin a -> f32_fin b -> f32_fin hi ->
  f32_units lo * 2 ^ 149 <= f32_units a * f32_units b <= f32_units hi * 2 ^ 149 ->
  f32_fin (f32_mul a b) /\ f32_units lo <= f32_units (f32_mul a b) <= f32_units hi.
Proof.
  intros Hlo Ha Hb Hhi Hu. destruct (f32_mul_round a b Ha Hb) as (Ho & Hok & Hn).
  pose proof (round_order_le 149 (f32_units a * f32_units b) hi ltac:(lia) Hhi ltac:(lia)). pose proof (round_order_ge 149 (f32_units a * f32_units b) lo ltac:(lia) Hlo ltac:(lia)).
  assert (Hf : f32_fin (f32_mul a b)) by (apply (order_fin lo _ hi); (done || lia)). split; [done|].
  rewrite <- Ho in *. split; [by apply units_order|by apply units_order].
Qed.

Lemma f32_add_exact a b c : f32_fin a -> f32_fin b -> f32_fin c -> f32_units a + f32_units b = f32_units c ->
  f32_fin (f32_add a b) /\ f32_units (f32_add a b) = f32_units c.
Proof. intros Ha Hb Hc E. destruct (f32_add_between c a b c Hc Ha Hb Hc ltac:(lia)) as [Hf Hu]. split; [done|lia]. Qed.

Lemma f32_sub_exact a b c : f32_fin a -> f32_fin b -> f32_fin c -> f32_units a - f32_units b = f32_units c ->
  f32_fin (f32_sub a b) /\ f32_units (f32_sub a b) = f32_units c.
Proof. intros Ha Hb Hc E. destruct (order_neg b (proj1 Hb)) as (_ & Hu & _). apply f32_add_exact; [done|by apply neg_fin|done|lia]. Qed.

Lemma encode_q_pow2 p s n : 0 <= p -> 0 <= s -> 0 <= n -> f_encode_q p n (2 ^ s) = f_encode p s n.
Proof.
  intros Hp Hs Hn. unfold f_encode_q, f_encode. assert (E : Z.max 0 (Z.log2 (n / 2 ^ s) - p) = Z.max 0 (Z.log2 n - s - p)).
  { rewrite <- Z.shiftr_div_pow2 by lia. destruct (Z.eq_dec n 0) as [->|Hz]; [rewrite Z.shiftr_0_l; cbn; lia|]. rewrite Z.log2_shiftr by lia. lia. }
  cbv zeta. rewrite E, Z.pow_add_r by lia. done.
Qed.

(** Halving an integer is exact. *)
Lemma f32_half_exact a k : f32_fin a -> f32_units a = k * 2 ^ 149 -> Z.abs k < 2 ^ 23 ->
  f32_fin (f32_div a (f32_of_int 2)) /\ f32_units (f32_div a (f32_of_int 2)) = k * 2 ^ 148.
Proof.
  intros Ha Hu Hk. destruct (of_half_spec k ltac:(lia)) as [Hc Uc].
  assert (f32_order (f32_div a (f32_of_int 2)) = f32_order (f32_round 150 (f32_units a * 2 ^ 149)) ∧ f32_ok (f32_div a (f32_of_int 2)) ∧ f32_is_nan (f32_div a (f32_of_int 2)) = false) as (Ho & Hok & Hn).
  { unfold f32_div. change (f32_sign (f32_of_int 2)) with 0. change (f_decode 23 (f32_mag (f32_of_int 2))) with (2 ^ 150).
    pose proof (mag_decode_nonneg a) as Hd. rewrite encode_q_pow2 by lia. set (x := f_decode 23 (f32_mag a)) in *.
    pose proof (encode_nonneg 23 150 (x * 2 ^ 149) ltac:(lia) ltac:(lia) ltac:(lia)) as He. pose proof (xor_sign_bit (f32_sign a) 0) as Hx. split; [|split].
    - rewrite pack_order, round_order by lia. unfold f32_units. fold x. unfold xor_sign. destruct (f32_sign_bit a (proj1 Ha)) as [-> | ->]; sign_if; sign_if.
      + rewrite (proj2 (Z.ltb_ge _ _)), Z.abs_eq by lia. by rewrite !Z.mul_1_l.
      + destruct (Z.eq_dec x 0) as [-> | Hz]; [reflexivity|]. rewrite (proj2 (Z.ltb_lt _ _)) by lia. by replace (Z.abs (-1 * x * 2 ^ 149)) with (x * 2 ^ 149) by lia.
    - by apply f32_pack_ok.
    - unfold f32_is_nan. rewrite (proj2 (f32_pack_fields _ _ Hx He)). apply Z.ltb_ge. lia. }
  assert (Hr : f32_units a * 2 ^ 149 = f32_units (f32_of_half k) * 2 ^ 150) by (rewrite Hu, Uc; change (2 ^ 150) with (2 * 2 ^ 149); change (2 ^ 149) with (2 * 2 ^ 148); ring).
  pose proof (round_order_le 150 _ _ ltac:(lia) Hc (Z.eq_le_incl _ _ Hr)). pose proof (round_order_ge 150 _ _ ltac:(lia) Hc (Z.eq_le_incl _ _ (eq_sym Hr))).
  assert (Hf : f32_fin (f32_div a (f32_of_int 2))) by (apply (order_fin (f32_of_half k) _ (f32_of_half k)); (done || lia)).
  split; [done|]. pose proof (proj2 (units_order _ _ Hf Hc)). pose proof (proj2 (units_order _ _ Hc Hf)). lia.
Qed.

(** ** Conversion to an integer *)
Lemma f32_lround_between b lo hi : f32_fin b -> 0 <= lo -> lo * 2 ^ 149 <= f32_units b <= hi * 2 ^ 149 -> lo <= f32_lround b <= hi.
Proof.
  intros Hb Hlo Hu. destruct (fin_not_nan b Hb) as [Nb Ib]. unfold f32_lround. rewrite Nb, Ib. pose proof (mag_decode_nonneg b) as Hd.
  unfold f32_units in Hu. set (x := f_decode 23 (f32_mag b)) in *. change (2 ^ 150) with (2 * 2 ^ 149). set (U := 2 ^ 149) in *. assert (0 < U) by done. clearbody U.
  destruct (f32_sign_bit b (proj1 Hb)) as [Es | Es]; rewrite Es in *; sign_if.
  - assert (lo <= (2 * x + U) / (2 * U)) by (apply Z.div_le_lower_bound; nia). assert ((2 * x + U) / (2 * U) < hi + 1) by (apply Z.div_lt_upper_bound; nia). lia.
  - assert (x = 0) as -> by nia. assert (lo = 0) as -> by nia. rewrite (Z.div_small (2 * 0 + U)) by lia. nia.
Qed.

Lemma f32_lround_int n : 0 <= n < 2 ^ 23 -> f32_lround (f32_of_int n) = n.
Proof.
  intros Hn. destruct (of_int_spec n ltac:(lia)) as [Hf Hu]. pose proof (f32_lround_between (f32_of_int n) n n Hf ltac:(lia) ltac:(lia)). lia.
Qed.

(** ** Operations are monotone *)
Lemma round_order_mono s n1 n2 : 0 <= s -> n1 <= n2 -> f32_order (f32_round s n1) <= f32_order (f32_round s n2).
Proof.
  intros Hs Hn. rewrite !round_order by done. pose proof (encode_mono 23 s) as Hm. assert (Hz : ∀ n, 0 <= f_encode 23 s (Z.abs n)).
  { intros n. rewrite <- (encode_zero s Hs). apply Hm; lia. } pose proof (Hz n1). pose proof (Hz n2). assert (0 < f32_inf) by done.
  destruct (Z.ltb_spec n1 0), (Z.ltb_spec n2 0); [|lia..|].
  - specialize (Hm (Z.abs n2) (Z.abs n1) ltac:(lia) Hs ltac:(lia)). lia.
  - specialize (Hm (Z.abs n1) (Z.abs n2) ltac:(lia) Hs ltac:(lia)). lia.
Qed.

Lemma f32_mul_mono a x y : f32_fin a -> f32_fin x -> f32_fin y -> 0 <= f32_units a -> f32_units x <= f32_units y -> f32_fin (f32_mul a x) -> f32_fin (f32_mul a y) ->
  f32_units (f32_mul a x) <= f32_units (f32_mul a y).
Proof.
  intros Ha Hx Hy Hn Hxy Fx Fy. apply units_order; [done..|]. rewrite (proj1 (f32_mul_round a x Ha Hx)), (proj1 (f32_mul_round a y Ha Hy)). apply round_order_mono; [done|]. by apply Z.mul_le_mono_nonneg_l.
Qed.

Lemma f32_add_mono x y b : f32_fin x -> f32_fin y -> f32_fin b -> f32_units x <= f32_units y -> f32_fin (f32_add x b) -> f32_fin (f32_add y b) ->
  f32_units (f32_add x b) <= f32_units (f32_add y b).
Proof.
  intros Hx Hy Hb Hxy Fx Fy. apply units_order; [done..|]. rewrite (proj1 (f32_add_round x b Hx Hb)), (proj1 (f32_add_round y b Hy Hb)). apply round_order_mono; [done|]. lia.
Qed.

Lemma f32_lround_mono x y : f32_fin x -> f32_fin y -> 0 <= f32_units x <= f32_units y -> f32_lround x <= f32_lround y.
Proof.
  intros Hx Hy Hu. unfold f32_lround. destruct (fin_not_nan x Hx) as [-> ->], (fin_not_nan y Hy) as [-> ->]. unfold f32_units in Hu.
  pose proof (mag_decode_nonneg x) as Dx. pose proof (mag_decode_nonneg y) as Dy. set (dx := f_decode 23 (f32_mag x)) in *. set (dy := f_decode 23 (f32_mag y)) in *.
  assert (Hm : ∀ u v, u <= v -> (2 * u + 2 ^ 149) / 2 ^ 150 <= (2 * v + 2 ^ 149) / 2 ^ 150) by (intros; apply Z.div_le_mono; lia).
  destruct (f32_sign_bit x (proj1 Hx)) as [Ex|Ex], (f32_sign_bit y (proj1 Hy)) as [Ey|Ey]; rewrite Ex, Ey in *; sign_if.
  - specialize (Hm dx dy ltac:(lia)). lia.
  - assert (dx = 0) as -> by lia. assert (dy = 0) as -> by lia. change ((2 * 0 + 2 ^ 149) / 2 ^ 150) with 0. lia.
  - assert (dx = 0) as -> by lia. specialize (Hm 0 dy ltac:(lia)). change ((2 * 0 + 2 ^ 149) / 2 ^ 150) with 0 in *. lia.
  - assert (dx = 0) as -> by lia. assert (dy = 0) as -> by lia. change ((2 * 0 + 2 ^ 149) / 2 ^ 150) with 0. lia.
Qed.

(** ** Division *)
Lemma encode_q_mono p den n1 n2 : 0 <= p -> 0 < den -> 0 <= n1 <= n2 -> f_encode_q p n1 den <= f_encode_q p n2 den.
Proof.
  intros Hp Hd Hn. unfold f_encode_q. pose proof (Z.div_le_mono n1 n2 den Hd ltac:(lia)) as Hq. pose proof (Z.div_pos n1 den ltac:(lia) Hd) as Hq0.
  pose proof (Z.log2_le_mono _ _ Hq) as Hl. pose proof (Z.div_mod n1 den ltac:(lia)) as D1. pose proof (Z.mod_pos_bound n1 den Hd) as R1. pose proof (Z.mul_div_le n2 den Hd) as D2.
  remember (Z.max 0 (Z.log2 (n1 / den) - p)) as e1 eqn:E1. remember (Z.max 0 (Z.log2 (n2 / den) - p)) as e2 eqn:E2. set (q1 := n1 / den) in *. set (q2 := n2 / den) in *.
  cbv zeta. assert (0 < 2 ^ e1) by (apply Z.pow_pos_nonneg; lia). assert (0 < 2 ^ e2) by (apply Z.pow_pos_nonneg; lia).
  destruct (Z.eq_dec e1 e2) as [->|Hne]; [pose proof (div_rne_mono n1 n2 (den * 2 ^ e2) ltac:(nia) ltac:(lia)); lia|].
  assert (H1 : div_rne n1 (den * 2 ^ e1) <= 2 * 2 ^ p).
  { apply div_rne_le; [nia|]. assert (q1 + 1 <= 2 * 2 ^ p * 2 ^ e1).
    { rewrite <- Z.pow_succ_r, <- Z.pow_add_r by lia. destruct (Z.eq_dec q1 0) as [->|]; [pose proof (Z.pow_pos_nonneg 2 (Z.succ p + e1)); lia|].
      pose proof (Z.log2_spec q1 ltac:(lia)) as [_ Hhi]. pose proof (Z.pow_le_mono_r 2 (Z.succ (Z.log2 q1)) (Z.succ p + e1)). lia. }
    nia. }
  assert (H2 : 2 ^ p <= div_rne n2 (den * 2 ^ e2)).
  { apply div_rne_ge; [nia|]. assert (2 ^ p * 2 ^ e2 <= q2).
    { rewrite <- Z.pow_add_r by lia. destruct (Z.eq_dec q2 0) as [Hz|]; [rewrite Hz in *; change (Z.log2 0) with 0 in *; lia|].
      pose proof (Z.log2_spec q2 ltac:(lia)) as [Hlo _]. pose proof (Z.pow_le_mono_r 2 (p + e2) (Z.log2 q2)). lia. }
    nia. }
  assert ((e1 + 1) * 2 ^ p <= e2 * 2 ^ p) by (apply Z.mul_le_mono_nonneg_r; lia). lia.
Qed.

Lemma encode_q_decode p den m : 0 <= p -> 0 < den -> 0 <= m -> f_encode_q p (f_decode p m * den) den = m.
Proof.
  intros Hp Hd Hm. rewrite <- (encode_decode p 0 m Hp ltac:(lia) Hm) at 2. unfold f_encode_q, f_encode. cbv zeta. rewrite Z.div_mul, Z.pow_0_r, Z.mul_1_r, Z.sub_0_r, Z.add_0_l by lia.
  set (e := Z.max 0 _). f_equal. assert (0 < 2 ^ e) by (apply Z.pow_pos_nonneg; lia). set (n := f_decode p m). unfold div_rne. rewrite !(Z.mul_comm _ den), Z.div_mul_cancel_l, Z.mul_mod_distr_l by lia.
  cbv zeta. set (r := n mod 2 ^ e). assert (E1 : (2 * (den * r) <? den * 2 ^ e) = (2 * r <? 2 ^ e)) by (destruct (Z.ltb_spec (2 * r) (2 ^ e)); [apply Z.ltb_lt|apply Z.ltb_ge]; nia).
  assert (E2 : (den * 2 ^ e <? 2 * (den * r)) = (2 ^ e <? 2 * r)) by (destruct (Z.ltb_spec (2 ^ e) (2 * r)); [apply Z.ltb_lt|apply Z.ltb_ge]; nia). by rewrite E1, E2.
Qed.

Lemma f32_div_between lo a b hi : f32_fin lo -> f32_fin a -> f32_fin b -> f32_fin hi -> 0 <= f32_units lo -> 0 <= f32_units a -> 0 < f32_units b ->
  f32_units lo * f32_units b <= f32_units a * 2 ^ 149 <= f32_units hi * f32_units b ->
  f32_fin (f32_divide a b) /\ f32_units lo <= f32_units (f32_divide a b) <= f32_units hi.
Proof.
  intros Hlo Ha Hb Hhi L0 A0 B0 Hu. destruct (fin_not_nan a Ha) as [Na Ia]. destruct (fin_not_nan b Hb) as [Nb Ib]. pose proof (mag_decode_nonneg a) as Da. pose proof (mag_decode_nonneg b) as Db.
  assert (Hmag : forall c, f32_fin c -> 0 <= f32_units c -> f32_units c = f_decode 23 (f32_mag c) /\ f32_order c = f32_mag c).
  { intros c [Hc _] H0. unfold f32_units, f32_order in *. pose proof (mag_decode_nonneg c). destruct (f32_sign_bit c Hc) as [E|E]; rewrite E in *; sign_if; [lia|].
    assert (Hz : f_decode 23 (f32_mag c) = 0) by lia. split; [lia|]. destruct (f32_split c) as [_ Hm]. pose proof (proj1 (decode_mono 23 (f32_mag c) 0 ltac:(lia) ltac:(lia) ltac:(lia))) as Hd.
    change (f_decode 23 0) with 0 in Hd. lia. }
  destruct (Hmag a Ha A0) as [Ua _]. destruct (Hmag b Hb ltac:(lia)) as [Ub _]. destruct (Hmag lo Hlo L0) as [Ul Ol].
  assert (H0 : 0 <= f32_units hi) by nia. destruct (Hmag hi Hhi H0) as [Uh Oh]. rewrite Ua, Ub, Ul, Uh in Hu.
  set (x := f_decode 23 (f32_mag a)) in *. set (y := f_decode 23 (f32_mag b)) in *. destruct (f32_split lo) as [_ Ml]. destruct (f32_split hi) as [_ Mh]. set (q := f_encode_q 23 (x * 2 ^ 149) y).
  assert (Hq : f32_mag lo <= q <= f32_mag hi).
  { pose proof (mag_decode_nonneg lo). split; [rewrite <- (encode_q_decode 23 y (f32_mag lo)) by lia|rewrite <- (encode_q_decode 23 y (f32_mag hi)) by lia]; apply encode_q_mono; (lia || nia). }
  assert (Ed : f32_divide a b = f32_pack (xor_sign (f32_sign a) (f32_sign b)) q).
  { unfold f32_divide. rewrite Na, Nb, Ia, Ib. cbn [orb]. cbv zeta. destruct (Z.eqb_spec (f32_mag b) 0) as [E|]; [exfalso; unfold y in Ub; rewrite E in Ub; change (f_decode 23 0) with 0 in Ub; lia|done]. }
  assert (Hs : f32_sign b = 0). { destruct (f32_sign_bit b (proj1 Hb)) as [E|E]; [done|]. unfold f32_units in B0. rewrite E in B0. sign_if. lia. }
  assert (Hx : xor_sign (f32_sign a) (f32_sign b) = 0 \/ q = 0).
  { destruct (f32_sign_bit a (proj1 Ha)) as [E|E]; [left; by rewrite E, Hs|]. right. unfold f32_units in A0. rewrite E in A0. sign_if. fold x in A0. unfold q.
    assert (x = 0) as -> by lia. rewrite Z.mul_0_l. pose proof (encode_q_decode 23 y 0 ltac:(lia) ltac:(lia) ltac:(lia)) as Hz. change (f_decode 23 0 * y) with 0 in Hz. done. }
  pose proof (proj2 Hhi) as Fh. destruct (f32_pack_fields _ q (xor_sign_bit (f32_sign a) (f32_sign b)) ltac:(lia)) as [_ Em]. pose proof (pack_order _ q (xor_sign_bit (f32_sign a) (f32_sign b)) ltac:(lia)) as Eo. rewrite <- Ed in Em, Eo.
  assert (Hf : f32_fin (f32_divide a b)) by (split; [rewrite Ed; apply f32_pack_ok; [apply xor_sign_bit|lia]|rewrite Em; lia]).
  assert (Ho : f32_order (f32_divide a b) = q) by (rewrite Eo; destruct Hx as [-> | ->]; sign_if; lia).
  split; [done|]. split; apply units_order; (done || lia).
Qed.

(** ** Errors

    A number is rounded to at most the distance of the multiples of a power of two that have
    24 bits. *)
Lemma round_spec k e : Z.abs k < 2 ^ 24 -> 23 <= e <= 200 -> f32_fin (f32_round 0 (k * 2 ^ e)) /\ f32_units (f32_round 0 (k * 2 ^ e)) = k * 2 ^ e.
Proof.
  intros Hk He. assert (0 < 2 ^ e) by (apply Z.pow_pos_nonneg; lia). unfold f32_round. rewrite Z.abs_mul, (Z.abs_eq (2 ^ e)) by lia.
  pose proof (encode_exact 23 0 e (Z.abs k) ltac:(lia) ltac:(lia) ltac:(lia)) as Hx. rewrite Z.add_0_r in Hx.
  set (m := f_encode 23 0 (Z.abs k * 2 ^ e)) in *. assert (Hm : 0 <= m < f32_inf).
  { split; [apply encode_nonneg; lia|]. eapply Z.le_lt_trans; [apply (encode_upper 23 0 _ 202); try lia|done].
    destruct (Z.eq_dec k 0) as [->|]; [change (Z.abs 0 * 2 ^ e) with 0; change (Z.log2 0) with 0; lia|]. rewrite Z.log2_mul_pow2 by lia. assert (Z.log2 (Z.abs k) < 24) by (apply Z.log2_lt_pow2; lia). lia. }
  destruct (f32_pack_fields (if k * 2 ^ e <? 0 then 1 else 0) m (sign_of_ok _) ltac:(lia)) as [Es Em].
  split; [split; [apply f32_pack_ok; [apply sign_of_ok|lia]|rewrite Em; lia]|].
  unfold f32_units. rewrite Es, Em, Z.min_r, Hx by lia. destruct (Z.ltb_spec (k * 2 ^ e) 0); sign_if; nia.
Qed.

Lemma multiples_around n e : 0 <= e -> Z.abs n <= 2 ^ (23 + e) -> exists k1 k2, Z.abs k1 < 2 ^ 24 /\ Z.abs k2 < 2 ^ 24 /\ k1 * 2 ^ e <= n <= k2 * 2 ^ e /\ k2 * 2 ^ e - 2 ^ e <= n <= k1 * 2 ^ e + 2 ^ e /\ (0 <= n -> 0 <= k1).
Proof.
  intros He Hn. assert (0 < 2 ^ e) by (apply Z.pow_pos_nonneg; lia). rewrite Z.pow_add_r in Hn by lia. set (P := 2 ^ e) in *.
  exists (n / P), (- (- n / P)). pose proof (Z.div_mod n P ltac:(lia)). pose proof (Z.mod_pos_bound n P ltac:(lia)). pose proof (Z.div_mod (- n) P ltac:(lia)). pose proof (Z.mod_pos_bound (- n) P ltac:(lia)).
  change (2 ^ 24) with (2 * 2 ^ 23). set (T := 2 ^ 23) in *. assert (2 <= T) by done. clearbody T P. repeat split; nia.
Qed.

Lemma f32_add_near e a b : f32_fin a -> f32_fin b -> 23 <= e <= 200 -> Z.abs (f32_units a + f32_units b) <= 2 ^ (23 + e) ->
  f32_fin (f32_add a b) /\ Z.abs (f32_units (f32_add a b) - (f32_units a + f32_units b)) <= 2 ^ e /\ (0 <= f32_units a + f32_units b -> 0 <= f32_units (f32_add a b)).
Proof.
  intros Ha Hb He Hn. destruct (multiples_around _ e ltac:(lia) Hn) as (k1 & k2 & K1 & K2 & Hk & Hd & Hz). destruct (round_spec k1 e K1 He) as [F1 U1]. destruct (round_spec k2 e K2 He) as [F2 U2].
  destruct (f32_add_between _ a b _ F1 Ha Hb F2) as [Hf Hu]; [lia|]. split; [done|]. split; [lia|]. intros H0. specialize (Hz H0). assert (0 < 2 ^ e) by (apply Z.pow_pos_nonneg; lia). nia.
Qed.

Lemma f32_sub_near e a b : f32_fin a -> f32_fin b -> 23 <= e <= 200 -> Z.abs (f32_units a - f32_units b) <= 2 ^ (23 + e) ->
  f32_fin (f32_sub a b) /\ Z.abs (f32_units (f32_sub a b) - (f32_units a - f32_units b)) <= 2 ^ e /\ (0 <= f32_units a - f32_units b -> 0 <= f32_units (f32_sub a b)).
Proof.
  intros Ha Hb He Hn. destruct (order_neg b (proj1 Hb)) as (_ & Hu & _). pose proof (f32_add_near e a (f32_neg b) Ha (neg_fin b Hb) He) as Hx. rewrite Hu in Hx. exact (Hx Hn).
Qed.

Lemma f32_mul_near e a b : f32_fin a -> f32_fin b -> 23 <= e <= 200 -> Z.abs (f32_units a * f32_units b) <= 2 ^ (23 + e) * 2 ^ 149 ->
  f32_fin (f32_mul a b) /\ Z.abs (f32_units (f32_mul a b) * 2 ^ 149 - f32_units a * f32_units b) <= 2 ^ e * 2 ^ 149.
Proof.
  intros Ha Hb He Hn. rewrite <- !Z.pow_add_r in * by lia. replace (23 + e + 149) with (23 + (e + 149)) in Hn by lia.
  destruct (multiples_around _ (e + 149) ltac:(lia) Hn) as (k1 & k2 & K1 & K2 & Hk & Hd & _). destruct (round_spec k1 e K1 He) as [F1 U1]. destruct (round_spec k2 e K2 He) as [F2 U2].
  rewrite Z.pow_add_r in * by lia. destruct (f32_mul_between _ a b _ F1 Ha Hb F2) as [Hf Hu]; [lia|]. split; [done|]. nia.
Qed.

Lemma f32_div_near e a b : f32_fin a -> f32_fin b -> 23 <= e <= 200 -> 0 <= f32_units a -> 0 < f32_units b -> f32_units a * 2 ^ 149 <= 2 ^ (23 + e) * f32_units b ->
  f32_fin (f32_divide a b) /\ Z.abs (f32_units (f32_divide a b) * f32_units b - f32_units a * 2 ^ 149) <= 2 ^ e * f32_units b /\ 0 <= f32_units (f32_divide a b).
Proof.
  intros Ha Hb He A0 B0 Hn. rewrite Z.pow_add_r in Hn by lia. set (n := f32_units a * 2 ^ 149) in *. set (y := f32_units b) in *. assert (Hp : 0 < 2 ^ e) by (apply Z.pow_pos_nonneg; lia). set (D := y * 2 ^ e).
  assert (HD : 0 < D) by (unfold D; nia). pose proof (Z.div_mod n D ltac:(lia)) as Dm. pose proof (Z.mod_pos_bound n D HD) as Mb. pose proof (Z.div_pos n D ltac:(unfold n; nia) HD) as K0. set (k := n / D) in *.
  assert (Hk : k <= 2 ^ 23) by (unfold D in *; nia). destruct (round_spec k e ltac:(lia) He) as [F1 U1]. destruct (round_spec (k + 1) e ltac:(lia) He) as [F2 U2].
  destruct (f32_div_between (f32_round 0 (k * 2 ^ e)) a b (f32_round 0 ((k + 1) * 2 ^ e)) F1 Ha Hb F2) as [Hf Hu]; [rewrite U1; nia|done..|fold n y; rewrite U1, U2; unfold D in *; nia|].
  rewrite U1, U2 in Hu. set (q := f32_units (f32_divide a b)) in *. split; [done|]. unfold D in *. clearbody q n y k. split; [|nia]. apply Z.abs_le. split; nia.
Qed.
