(* ===== verification/Crc.v ===== *)
(** * Checksums

    Models src/lib/crc/crc.c (CRC-16-CCITT, bitwise CRC-32, CRC-64-WE) and the table-driven
    [crc32part] of NuttX libs/libc/misc/lib_crc32.c, which the parameter hash, the geofence and
    the file transfer use. One step of a checksum is a linear map over the bits without kernel;
    from this follow the equivalence of the two CRC-32 routines and the error bursts that are
    always detected. *)
From stdpp Require Import base tactics list.
From Stdlib Require Import ZArith Lia.
From S2P Require Import Prelude.

(** ** Definitions *)

(** One bit, most significant bit first, in [w] bits. *)
Definition crc_bit_msb (w poly crc : Z) : Z :=
  if negb (Z.land crc (Z.shiftl 1 (w - 1)) =? 0) then Z.lxor (uwrap w (Z.shiftl crc 1)) poly
  else uwrap w (Z.shiftl crc 1).

Definition CRC16_OUTPUT_XOR : Z := 0.

Definition crc16_add (crc value : Z) : Z :=
  let poly := 0x1021 in
  let crc := Z.lxor crc (u16 (Z.shiftl value 8)) in
  Nat.iter 8 (crc_bit_msb 16 poly) crc.

Definition crc16_signature (initial : Z) (bytes : list Z) : Z :=
  Z.lxor (foldl crc16_add initial bytes) CRC16_OUTPUT_XOR.

(** One bit, least significant bit first. *)
Definition crc32_bit (acc : Z) : Z :=
  let poly := 0xedb88320 in
  let xor := u32 (- Z.land acc 1) in
  let acc := Z.shiftr acc 1 in
  Z.lxor acc (Z.land poly xor).

Definition crc32_byte (acc byte : Z) : Z := Nat.iter 8 crc32_bit (Z.lxor acc byte).

Definition crc32_signature (acc : Z) (bytes : list Z) : Z := foldl crc32_byte acc bytes.

Definition crc64_add_word (crc value : Z) : Z :=
  let poly := 0x42F0E1EBA9EA3693 in
  foldl (fun crc byte => Nat.iter 8 (crc_bit_msb 64 poly) (Z.lxor crc (Z.shiftl byte 56))) crc (le_bytes 4 value).

Definition crc32_tab : list Z := [
  0x00000000; 0x77073096; 0xee0e612c; 0x990951ba; 0x076dc419; 0x706af48f; 0xe963a535; 0x9e6495a3;
  0x0edb8832; 0x79dcb8a4; 0xe0d5e91e; 0x97d2d988; 0x09b64c2b; 0x7eb17cbd; 0xe7b82d07; 0x90bf1d91;
  0x1db71064; 0x6ab020f2; 0xf3b97148; 0x84be41de; 0x1adad47d; 0x6ddde4eb; 0xf4d4b551; 0x83d385c7;
  0x136c9856; 0x646ba8c0; 0xfd62f97a; 0x8a65c9ec; 0x14015c4f; 0x63066cd9; 0xfa0f3d63; 0x8d080df5;
  0x3b6e20c8; 0x4c69105e; 0xd56041e4; 0xa2677172; 0x3c03e4d1; 0x4b04d447; 0xd20d85fd; 0xa50ab56b;
  0x35b5a8fa; 0x42b2986c; 0xdbbbc9d6; 0xacbcf940; 0x32d86ce3; 0x45df5c75; 0xdcd60dcf; 0xabd13d59;
  0x26d930ac; 0x51de003a; 0xc8d75180; 0xbfd06116; 0x21b4f4b5; 0x56b3c423; 0xcfba9599; 0xb8bda50f;
  0x2802b89e; 0x5f058808; 0xc60cd9b2; 0xb10be924; 0x2f6f7c87; 0x58684c11; 0xc1611dab; 0xb6662d3d;
  0x76dc4190; 0x01db7106; 0x98d220bc; 0xefd5102a; 0x71b18589; 0x06b6b51f; 0x9fbfe4a5; 0xe8b8d433;
  0x7807c9a2; 0x0f00f934; 0x9609a88e; 0xe10e9818; 0x7f6a0dbb; 0x086d3d2d; 0x91646c97; 0xe6635c01;
  0x6b6b51f4; 0x1c6c6162; 0x856530d8; 0xf262004e; 0x6c0695ed; 0x1b01a57b; 0x8208f4c1; 0xf50fc457;
  0x65b0d9c6; 0x12b7e950; 0x8bbeb8ea; 0xfcb9887c; 0x62dd1ddf; 0x15da2d49; 0x8cd37cf3; 0xfbd44c65;
  0x4db26158; 0x3ab551ce; 0xa3bc0074; 0xd4bb30e2; 0x4adfa541; 0x3dd895d7; 0xa4d1c46d; 0xd3d6f4fb;
  0x4369e96a; 0x346ed9fc; 0xad678846; 0xda60b8d0; 0x44042d73; 0x33031de5; 0xaa0a4c5f; 0xdd0d7cc9;
  0x5005713c; 0x270241aa; 0xbe0b1010; 0xc90c2086; 0x5768b525; 0x206f85b3; 0xb966d409; 0xce61e49f;
  0x5edef90e; 0x29d9c998; 0xb0d09822; 0xc7d7a8b4; 0x59b33d17; 0x2eb40d81; 0xb7bd5c3b; 0xc0ba6cad;
  0xedb88320; 0x9abfb3b6; 0x03b6e20c; 0x74b1d29a; 0xead54739; 0x9dd277af; 0x04db2615; 0x73dc1683;
  0xe3630b12; 0x94643b84; 0x0d6d6a3e; 0x7a6a5aa8; 0xe40ecf0b; 0x9309ff9d; 0x0a00ae27; 0x7d079eb1;
  0xf00f9344; 0x8708a3d2; 0x1e01f268; 0x6906c2fe; 0xf762575d; 0x806567cb; 0x196c3671; 0x6e6b06e7;
  0xfed41b76; 0x89d32be0; 0x10da7a5a; 0x67dd4acc; 0xf9b9df6f; 0x8ebeeff9; 0x17b7be43; 0x60b08ed5;
  0xd6d6a3e8; 0xa1d1937e; 0x38d8c2c4; 0x4fdff252; 0xd1bb67f1; 0xa6bc5767; 0x3fb506dd; 0x48b2364b;
  0xd80d2bda; 0xaf0a1b4c; 0x36034af6; 0x41047a60; 0xdf60efc3; 0xa867df55; 0x316e8eef; 0x4669be79;
  0xcb61b38c; 0xbc66831a; 0x256fd2a0; 0x5268e236; 0xcc0c7795; 0xbb0b4703; 0x220216b9; 0x5505262f;
  0xc5ba3bbe; 0xb2bd0b28; 0x2bb45a92; 0x5cb36a04; 0xc2d7ffa7; 0xb5d0cf31; 0x2cd99e8b; 0x5bdeae1d;
  0x9b64c2b0; 0xec63f226; 0x756aa39c; 0x026d930a; 0x9c0906a9; 0xeb0e363f; 0x72076785; 0x05005713;
  0x95bf4a82; 0xe2b87a14; 0x7bb12bae; 0x0cb61b38; 0x92d28e9b; 0xe5d5be0d; 0x7cdcefb7; 0x0bdbdf21;
  0x86d3d2d4; 0xf1d4e242; 0x68ddb3f8; 0x1fda836e; 0x81be16cd; 0xf6b9265b; 0x6fb077e1; 0x18b74777;
  0x88085ae6; 0xff0f6a70; 0x66063bca; 0x11010b5c; 0x8f659eff; 0xf862ae69; 0x616bffd3; 0x166ccf45;
  0xa00ae278; 0xd70dd2ee; 0x4e048354; 0x3903b3c2; 0xa7672661; 0xd06016f7; 0x4969474d; 0x3e6e77db;
  0xaed16a4a; 0xd9d65adc; 0x40df0b66; 0x37d83bf0; 0xa9bcae53; 0xdebb9ec5; 0x47b2cf7f; 0x30b5ffe9;
  0xbdbdf21c; 0xcabac28a; 0x53b39330; 0x24b4a3a6; 0xbad03605; 0xcdd70693; 0x54de5729; 0x23d967bf;
  0xb3667a2e; 0xc4614ab8; 0x5d681b02; 0x2a6f2b94; 0xb40bbe37; 0xc30c8ea1; 0x5a05df1b; 0x2d02ef8d
].

(** [None] is an index outside the table. *)
Definition crc32part (src : list Z) (crc32val : Z) : option Z :=
  foldl (fun crc byte =>
    crc ← crc;
    t ← zlookup crc32_tab (Z.lxor (Z.land crc 0xff) byte);
    Some (Z.lxor t (Z.shiftr crc 8))) (Some crc32val) src.

Definition crc32 (src : list Z) : option Z := crc32part src 0.

(** ** Linear steps *)

Record linear_step (w : Z) (f : Z -> Z) : Prop := {
  ls_range x : 0 <= x < 2 ^ w -> 0 <= f x < 2 ^ w;
  ls_xor x y : 0 <= x < 2 ^ w -> 0 <= y < 2 ^ w -> f (Z.lxor x y) = Z.lxor (f x) (f y);
  ls_kernel x : 0 <= x < 2 ^ w -> f x = 0 -> x = 0;
}.

Lemma lxor_range w x y : 0 <= w -> 0 <= x < 2 ^ w -> 0 <= y < 2 ^ w -> 0 <= Z.lxor x y < 2 ^ w.
Proof.
  intros Hw Hx Hy. assert (0 <= Z.lxor x y) as H0 by (apply Z.lxor_nonneg; lia). split; [done|].
  destruct (Z.eq_dec (Z.lxor x y) 0) as [->|]; [lia|]. apply Z.log2_lt_pow2; [lia|].
  eapply Z.le_lt_trans; [apply Z.log2_lxor; lia|]. assert (0 < w \/ w = 0) as [H| ->] by lia.
  2:{ replace x with 0 in * by lia. replace y with 0 in * by lia. done. }
  apply Z.max_lub_lt; [destruct (Z.eq_dec x 0) as [->|]|destruct (Z.eq_dec y 0) as [->|]]; try done;
    apply Z.log2_lt_pow2; lia.
Qed.

Lemma iter_linear w f n : 0 <= w -> linear_step w f -> linear_step w (Nat.iter n f).
Proof.
  intros Hw [Hr Hx Hk]. induction n as [|n [IHr IHx IHk]]; split; simpl; try done; intros.
  - by apply Hr, IHr.
  - rewrite IHx by done. apply Hx; by apply IHr.
  - apply IHk; [done|]. apply Hk; [by apply IHr|done].
Qed.

Lemma linear_inj w f x y :
  0 <= w -> linear_step w f -> 0 <= x < 2 ^ w -> 0 <= y < 2 ^ w -> f x = f y -> x = y.
Proof.
  intros Hw Hf Hx Hy E. apply Z.lxor_eq. apply (ls_kernel _ _ Hf); [by apply lxor_range|].
  rewrite (ls_xor _ _ Hf) by done. by rewrite E, Z.lxor_nilpotent.
Qed.

(** ** The steps of the checksums are linear *)

Lemma crc32_bit_alt acc : crc32_bit acc = Z.lxor (Z.shiftr acc 1) (if Z.odd acc then 0xedb88320 else 0).
Proof.
  unfold crc32_bit. f_equal. change 1 with (Z.ones 1) at 1. rewrite Z.land_ones by lia.
  change (2 ^ 1) with 2. rewrite Zmod_odd. by destruct (Z.odd acc).
Qed.

Lemma shiftr_1 x : 0 <= x -> Z.shiftr x 1 = x / 2.
Proof. intros. by rewrite Z.shiftr_div_pow2. Qed.

Lemma odd_lxor x y : Z.odd (Z.lxor x y) = xorb (Z.odd x) (Z.odd y).
Proof. rewrite <- !Z.bit0_odd. apply Z.lxor_spec. Qed.

Lemma lxor_feedback x y p a b :
  Z.lxor (Z.lxor x y) (if xorb a b then p else 0)
  = Z.lxor (Z.lxor x (if a then p else 0)) (Z.lxor y (if b : bool then p else 0)).
Proof.
  apply Z.bits_inj. intros i. rewrite !Z.lxor_spec.
  destruct a, b; simpl; rewrite ?Z.bits_0; by destruct (Z.testbit x i), (Z.testbit y i), (Z.testbit p i).
Qed.

Lemma crc32_bit_linear : linear_step 32 crc32_bit.
Proof.
  split.
  - intros x Hx. rewrite crc32_bit_alt, shiftr_1 by lia. apply lxor_range; [lia| |by destruct (Z.odd x)].
    split; [apply Z.div_pos; lia|]. apply Z.div_lt_upper_bound; lia.
  - intros x y _ _. rewrite !crc32_bit_alt, Z.shiftr_lxor, odd_lxor. apply lxor_feedback.
  - intros x Hx E. rewrite crc32_bit_alt, shiftr_1 in E by lia. apply Z.lxor_eq in E.
    pose proof (Z.div_mod x 2 ltac:(lia)) as Hd. rewrite Zmod_odd in Hd. destruct (Z.odd x); lia.
Qed.

Lemma uwrap_lxor w x y : 0 <= w -> uwrap w (Z.lxor x y) = Z.lxor (uwrap w x) (uwrap w y).
Proof.
  intros Hw. unfold uwrap. rewrite <- !Z.land_ones by lia. apply Z.bits_inj. intros i.
  rewrite !Z.lxor_spec, !Z.land_spec, Z.lxor_spec. by destruct (Z.testbit x i), (Z.testbit y i), (Z.testbit _ i).
Qed.

Lemma crc_bit_msb_alt w poly crc : 1 <= w ->
  crc_bit_msb w poly crc = Z.lxor (uwrap w (Z.shiftl crc 1)) (if Z.testbit crc (w - 1) then poly else 0).
Proof.
  intros Hw. unfold crc_bit_msb. rewrite Z.shiftl_1_l.
  assert ((Z.land crc (2 ^ (w - 1)) =? 0) = negb (Z.testbit crc (w - 1))) as ->.
  { destruct (Z.testbit crc (w - 1)) eqn:Hb; simpl.
    - apply Z.eqb_neq. intros E. assert (Z.testbit (Z.land crc (2 ^ (w - 1))) (w - 1) = false) as H by (by rewrite E, Z.bits_0).
      rewrite Z.land_spec, Hb, Z.pow2_bits_true in H by lia. done.
    - apply Z.eqb_eq, Z.bits_inj_0. intros i. rewrite Z.land_spec, Z.pow2_bits_eqb by lia.
      destruct (Z.eqb_spec (w - 1) i) as [<-|]; [by rewrite Hb|apply andb_false_r]. }
  destruct (Z.testbit crc (w - 1)); simpl; [done|]. by rewrite Z.lxor_0_r.
Qed.

Lemma crc_bit_msb_linear w poly : 1 <= w -> 0 <= poly < 2 ^ w -> Z.odd poly = true -> linear_step w (crc_bit_msb w poly).
Proof.
  intros Hw Hp Ho. split.
  - intros x Hx. rewrite crc_bit_msb_alt by done.
    apply lxor_range; [lia|unfold uwrap; apply Z.mod_pos_bound; lia|destruct (Z.testbit x (w - 1)); lia].
  - intros x y _ _. rewrite !crc_bit_msb_alt by done. rewrite Z.shiftl_lxor, uwrap_lxor, Z.lxor_spec by lia.
    apply lxor_feedback.
  - intros x Hx E. rewrite crc_bit_msb_alt in E by done. apply Z.lxor_eq in E.
    rewrite Z.shiftl_mul_pow2 in E by lia. change (2 ^ 1) with 2 in E. unfold uwrap in E.
    assert (2 ^ w = 2 * 2 ^ (w - 1)) as Ew by (rewrite <- Z.pow_succ_r by lia; f_equal; lia).
    rewrite Z.mul_comm, Ew, Z.mul_mod_distr_l in E by lia.
    destruct (Z.testbit x (w - 1)) eqn:Hb.
    + rewrite <- E, Z.odd_mul in Ho. done.
    + rewrite Z.mod_small in E; [lia|]. split; [lia|]. apply Z.nle_gt. intros Hle.
      assert (Z.log2 x = w - 1) as Hl by (apply Z.log2_unique; rewrite ?Z.pow_succ_r by lia; lia).
      rewrite <- Hl, Z.bit_log2 in Hb by lia. done.
Qed.

(** ** Bytes

    Eight least-significant-first steps move a byte out; a byte that is still to come can be
    added before them. *)

Lemma crc32_bit_even x : 0 <= x -> crc32_bit (2 * x) = x.
Proof.
  intros. rewrite crc32_bit_alt, shiftr_1 by lia. rewrite Z.mul_comm, Z.div_mul, Z.odd_mul by lia.
  rewrite andb_false_r. apply Z.lxor_0_r.
Qed.

Lemma iter_crc32_shift n : forall x, 0 <= x -> Nat.iter n crc32_bit (2 ^ Z.of_nat n * x) = x.
Proof.
  induction n as [|n IH]; intros x Hx; [simpl; lia|].
  rewrite Nat2Z.inj_succ, Z.pow_succ_r, <- Z.mul_assoc by lia. rewrite Nat.iter_succ_r. rewrite crc32_bit_even by lia. by apply IH.
Qed.

Lemma crc32_table i : 0 <= i < 256 -> zlookup crc32_tab i = Some (Nat.iter 8 crc32_bit i).
Proof.
  intros Hi.
  assert (forallb (fun i => bool_decide (zlookup crc32_tab i = Some (Nat.iter 8 crc32_bit i))) (seqZ 0 256) = true) as H
    by (vm_compute; reflexivity).
  rewrite forallb_forall in H. specialize (H i). apply bool_decide_eq_true in H; [done|].
  apply list_elem_of_In, elem_of_seqZ. lia.
Qed.

(** A word is its low byte and the rest. *)
Lemma split_byte x : 0 <= x -> x = Z.lxor (Z.land x 255) (2 ^ 8 * Z.shiftr x 8).
Proof.
  intros Hx. rewrite Z.mul_comm, <- Z.shiftl_mul_pow2 by lia. apply Z.bits_inj'. intros i Hi.
  rewrite Z.lxor_spec, Z.land_spec, Z.shiftl_spec by lia. change 255 with (Z.ones 8).
  destruct (Z.lt_ge_cases i 8).
  - rewrite Z.ones_spec_low, andb_true_r, (Z.testbit_neg_r _ (i - 8)) by lia. by rewrite xorb_false_r.
  - rewrite Z.ones_spec_high, andb_false_r, Z.shiftr_spec by lia. simpl. f_equal. lia.
Qed.

Lemma shiftr_byte b : byte_ok b -> Z.shiftr b 8 = 0.
Proof. intros Hb. rewrite Z.shiftr_div_pow2 by lia. apply Z.div_small. exact Hb. Qed.

Lemma land_byte b : byte_ok b -> Z.land b 255 = b.
Proof. intros Hb. change 255 with (Z.ones 8). rewrite Z.land_ones by lia. apply Z.mod_small. exact Hb. Qed.

Lemma land_lxor_255 x y : Z.land (Z.lxor x y) 255 = Z.lxor (Z.land x 255) (Z.land y 255).
Proof.
  apply Z.bits_inj. intros i. rewrite !Z.lxor_spec, !Z.land_spec, Z.lxor_spec.
  by destruct (Z.testbit x i), (Z.testbit y i), (Z.testbit 255 i).
Qed.

Lemma crc32_byte_table crc b : 0 <= crc < 2 ^ 32 -> byte_ok b ->
  (t ← zlookup crc32_tab (Z.lxor (Z.land crc 255) b); Some (Z.lxor t (Z.shiftr crc 8))) = Some (crc32_byte crc b).
Proof.
  intros Hc Hb. assert (0 <= Z.lxor (Z.land crc 255) b < 2 ^ 8) as Hi.
  { apply lxor_range; [lia| |exact Hb]. change 255 with (Z.ones 8). rewrite Z.land_ones by lia.
    apply Z.mod_pos_bound. lia. }
  rewrite crc32_table by exact Hi. cbn [mbind option_bind]. apply (f_equal Some). unfold crc32_byte.
  assert (0 <= b < 2 ^ 32) as Hb' by (unfold byte_ok in Hb; lia).
  pose proof (lxor_range 32 crc b ltac:(lia) Hc Hb') as Hx.
  rewrite (split_byte (Z.lxor crc b)) by lia.
  rewrite Z.shiftr_lxor, (shiftr_byte b), Z.lxor_0_r, land_lxor_255, (land_byte b) by done.
  assert (0 <= Z.shiftr crc 8 < 2 ^ 24) as Hs.
  { rewrite Z.shiftr_div_pow2 by lia. split; [apply Z.div_pos; lia|apply Z.div_lt_upper_bound; lia]. }
  rewrite (ls_xor 32 _ (iter_linear 32 _ 8 ltac:(lia) crc32_bit_linear) _ (2 ^ 8 * Z.shiftr crc 8)) by lia.
  pose proof (iter_crc32_shift 8 (Z.shiftr crc 8) ltac:(lia)) as E. change (2 ^ Z.of_nat 8) with (2 ^ 8) in E.
  by rewrite E.
Qed.

Lemma crc32_byte_range crc b : 0 <= crc < 2 ^ 32 -> byte_ok b -> 0 <= crc32_byte crc b < 2 ^ 32.
Proof.
  intros Hc Hb. unfold crc32_byte. apply (ls_range 32 (Nat.iter 8 crc32_bit)); [apply iter_linear; [lia|apply crc32_bit_linear]|].
  unfold byte_ok in Hb. apply lxor_range; lia.
Qed.

(** ** Blocks of bytes *)

Lemma lxor_disjoint a b k : 0 <= k -> 0 <= a -> 0 <= b < 2 ^ k -> Z.lxor (a * 2 ^ k) b = a * 2 ^ k + b.
Proof.
  intros Hk Ha Hb. symmetry. apply Z.add_nocarry_lxor. rewrite <- Z.shiftl_mul_pow2 by lia.
  apply Z.bits_inj_0. intros i. rewrite Z.land_spec. destruct (Z.lt_ge_cases i k).
  - by rewrite Z.shiftl_spec_low.
  - rewrite (proj2 (Z.testbit_false b i ltac:(lia))); [apply andb_false_r|]. rewrite Z.div_small; [done|].
    split; [lia|]. eapply Z.lt_le_trans; [apply Hb|]. apply Z.pow_le_mono_r; lia.
Qed.

Lemma le_value_inj bs1 bs2 : Forall byte_ok bs1 -> Forall byte_ok bs2 -> length bs1 = length bs2 ->
  le_value bs1 = le_value bs2 -> bs1 = bs2.
Proof. intros H1 H2 Hl E. by rewrite <- (le_bytes_le_value bs1), <- (le_bytes_le_value bs2), Hl, E. Qed.

(** A block of up to four bytes is added as one number. *)
Lemma crc32_block bs : forall acc, Forall byte_ok bs -> zlen bs <= 4 -> 0 <= acc < 2 ^ 32 ->
  foldl crc32_byte acc bs = Nat.iter (8 * length bs) crc32_bit (Z.lxor acc (le_value bs)).
Proof.
  induction bs as [|b bs IH]; intros acc Hbs Hl Ha.
  - cbn [foldl le_value length Nat.mul Nat.iter nat_rect]. by rewrite Z.lxor_0_r.
  - apply Forall_cons in Hbs as [Hb Hbs]. change (zlen (b :: bs)) with (Z.of_nat (S (length bs))) in Hl.
    assert (zlen bs <= 3) by (unfold zlen; lia). cbn [foldl].
    rewrite IH by (try apply crc32_byte_range; try done; lia).
    pose proof (le_value_range bs Hbs) as Hv.
    assert (256 ^ zlen bs <= 256 ^ 3) as Hp by (apply Z.pow_le_mono_r; lia).
    replace (8 * length (b :: bs))%nat with (8 * length bs + 8)%nat by (simpl; lia).
    rewrite Nat.iter_add. apply (f_equal (Nat.iter _ crc32_bit)). unfold crc32_byte.
    rewrite <- (iter_crc32_shift 8 (le_value bs)) at 1 by lia. unfold byte_ok in Hb.
    rewrite <- (ls_xor 32 (Nat.iter 8 crc32_bit)); [|apply iter_linear; [lia|apply crc32_bit_linear]|apply lxor_range; lia|lia].
    apply (f_equal (Nat.iter 8 crc32_bit)). rewrite Z.lxor_assoc. apply (f_equal (Z.lxor acc)). cbn [le_value]. change (2 ^ Z.of_nat 8) with (2 ^ 8).
    rewrite Z.lxor_comm, Z.mul_comm, lxor_disjoint by lia. lia.
Qed.

(** The same, most significant bit first: the first byte is the most significant. *)
Fixpoint be_value (bs : list Z) : Z :=
  match bs with [] => 0 | b :: bs => b * 256 ^ zlen bs + be_value bs end.

Lemma be_value_range bs : Forall byte_ok bs -> 0 <= be_value bs < 256 ^ zlen bs.
Proof.
  induction 1 as [|b bs Hb _ IH]; [done|]. unfold byte_ok in Hb. cbn [be_value]. rewrite zlen_cons.
  pose proof (zlen_nonneg bs). rewrite Z.pow_add_r by lia. nia.
Qed.

Lemma be_value_inj bs1 : forall bs2, Forall byte_ok bs1 -> Forall byte_ok bs2 -> length bs1 = length bs2 ->
  be_value bs1 = be_value bs2 -> bs1 = bs2.
Proof.
  induction bs1 as [|b1 bs1 IH]; intros [|b2 bs2] H1 H2 Hl E; try done.
  apply Forall_cons in H1 as [Hb1 H1], H2 as [Hb2 H2]. injection Hl as Hl. cbn [be_value] in E.
  pose proof (be_value_range bs1 H1) as Hr1. pose proof (be_value_range bs2 H2) as Hr2.
  assert (zlen bs1 = zlen bs2) as Hz by (unfold zlen; lia). rewrite Hz in *.
  assert (b1 = b2) as -> by nia. f_equal. apply IH; [done..|lia].
Qed.

Section msb.
Context (w poly : Z) (w_ok : 8 <= w) (poly_ok : 0 <= poly < 2 ^ w) (poly_odd : Z.odd poly = true).

Definition msb_byte (crc b : Z) : Z := Nat.iter 8 (crc_bit_msb w poly) (Z.lxor crc (Z.shiftl b (w - 8))).

Lemma msb_linear n : linear_step w (Nat.iter n (crc_bit_msb w poly)).
Proof. apply iter_linear; [lia|]. apply crc_bit_msb_linear; [lia|done..]. Qed.

Lemma msb_bit_small x : 0 <= x -> 2 * x < 2 ^ w -> crc_bit_msb w poly x = 2 * x.
Proof.
  intros Hx Hlt. rewrite crc_bit_msb_alt by lia. rewrite Z.shiftl_mul_pow2 by lia. change (2 ^ 1) with 2.
  assert (2 ^ w = 2 * 2 ^ (w - 1)) as Ew by (rewrite <- Z.pow_succ_r by lia; f_equal; lia).
  rewrite (proj2 (Z.testbit_false x (w - 1) ltac:(lia))) by (rewrite Z.div_small; [done|lia]).
  rewrite Z.lxor_0_r. unfold uwrap. rewrite Z.mod_small; lia.
Qed.

Lemma iter_msb_shift n : forall x, 0 <= x -> x * 2 ^ Z.of_nat n < 2 ^ w ->
  Nat.iter n (crc_bit_msb w poly) x = x * 2 ^ Z.of_nat n.
Proof.
  induction n as [|n IH]; intros x Hx Hlt; [simpl; lia|].
  rewrite Nat2Z.inj_succ, Z.pow_succ_r in * by lia. rewrite Nat.iter_succ_r.
  rewrite msb_bit_small by nia. rewrite IH by nia. lia.
Qed.

Lemma msb_byte_range crc b : 0 <= crc < 2 ^ w -> byte_ok b -> 0 <= msb_byte crc b < 2 ^ w.
Proof.
  intros Hc Hb. unfold msb_byte. apply (ls_range _ _ (msb_linear 8)). apply lxor_range; [lia|done|].
  rewrite Z.shiftl_mul_pow2 by lia. unfold byte_ok in Hb. replace (2 ^ w) with (2 ^ 8 * 2 ^ (w - 8)).
  - nia.
  - rewrite <- Z.pow_add_r by lia. f_equal. lia.
Qed.

Lemma msb_block bs : forall crc, Forall byte_ok bs -> 8 * zlen bs <= w -> 0 <= crc < 2 ^ w ->
  foldl msb_byte crc bs
  = Nat.iter (8 * length bs) (crc_bit_msb w poly) (Z.lxor crc (be_value bs * 2 ^ (w - 8 * zlen bs))).
Proof.
  induction bs as [|b bs IH]; intros crc Hbs Hl Hc.
  - cbn [foldl be_value length Nat.mul Nat.iter nat_rect]. by rewrite Z.mul_0_l, Z.lxor_0_r.
  - apply Forall_cons in Hbs as [Hb Hbs]. rewrite zlen_cons in Hl. cbn [foldl]. pose proof (zlen_nonneg bs).
    rewrite IH by (try apply msb_byte_range; try done; lia). pose proof (be_value_range bs Hbs) as Hv.
    replace (8 * length (b :: bs))%nat with (8 * length bs + 8)%nat by (simpl; lia).
    rewrite Nat.iter_add. apply (f_equal (Nat.iter _ _)). unfold msb_byte.
    set (k := w - 8 * zlen (b :: bs)). assert (k = w - 8 - 8 * zlen bs) as Ek by (unfold k; rewrite zlen_cons; lia).
    assert (256 ^ zlen bs * 2 ^ k = 2 ^ (w - 8)) as Ep.
    { change 256 with (2 ^ 8). rewrite <- Z.pow_mul_r, <- Z.pow_add_r by lia. f_equal. lia. }
    assert (2 ^ w = 2 ^ 8 * 2 ^ (w - 8)) as Ew by (rewrite <- Z.pow_add_r by lia; f_equal; lia).
    assert (be_value bs * 2 ^ (w - 8 * zlen bs) = Nat.iter 8 (crc_bit_msb w poly) (be_value bs * 2 ^ k)) as ->.
    { assert (2 ^ (w - 8 * zlen bs) = 2 ^ k * 2 ^ 8) as -> by (rewrite <- Z.pow_add_r by lia; f_equal; lia).
      rewrite (iter_msb_shift 8); change (2 ^ Z.of_nat 8) with (2 ^ 8); nia. }
    unfold byte_ok in Hb. rewrite Z.shiftl_mul_pow2 by lia.
    rewrite <- (ls_xor _ _ (msb_linear 8)); [|apply lxor_range; nia|nia].
    apply (f_equal (Nat.iter 8 _)). rewrite Z.lxor_assoc. apply (f_equal (Z.lxor crc)).
    rewrite lxor_disjoint by nia. cbn [be_value]. fold k. rewrite <- Ep. ring.
Qed.
End msb.

(** ** Error bursts: a change confined to a block that is not longer than the checksum *)

Lemma foldl_inj w (f : Z -> Z -> Z) bs : forall x y,
  (forall x b, 0 <= x < 2 ^ w -> byte_ok b -> 0 <= f x b < 2 ^ w) ->
  (forall x y b, 0 <= x < 2 ^ w -> 0 <= y < 2 ^ w -> byte_ok b -> f x b = f y b -> x = y) ->
  Forall byte_ok bs -> 0 <= x < 2 ^ w -> 0 <= y < 2 ^ w -> foldl f x bs = foldl f y bs -> x = y.
Proof.
  induction bs as [|b bs IH]; intros x y Hr Hi Hbs Hx Hy E; [done|].
  apply Forall_cons in Hbs as [Hb Hbs]. apply (Hi x y b); [done..|]. apply IH; [done..|by apply Hr|by apply Hr|done].
Qed.

Lemma foldl_range w (f : Z -> Z -> Z) bs : forall x,
  (forall x b, 0 <= x < 2 ^ w -> byte_ok b -> 0 <= f x b < 2 ^ w) ->
  Forall byte_ok bs -> 0 <= x < 2 ^ w -> 0 <= foldl f x bs < 2 ^ w.
Proof.
  induction bs as [|b bs IH]; intros x Hr Hbs Hx; [done|]. apply Forall_cons in Hbs as [Hb Hbs]. apply IH; auto.
Qed.

Lemma lxor_cancel a x y : Z.lxor a x = Z.lxor a y -> x = y.
Proof.
  intros E. by rewrite <- (Z.lxor_0_l x), <- (Z.lxor_0_l y), <- (Z.lxor_nilpotent a), !Z.lxor_assoc, E.
Qed.

Lemma crc32_byte_inj x y b :
  0 <= x < 2 ^ 32 -> 0 <= y < 2 ^ 32 -> byte_ok b -> crc32_byte x b = crc32_byte y b -> x = y.
Proof.
  unfold byte_ok, crc32_byte. intros Hx Hy Hb E. apply (lxor_cancel b). rewrite !(Z.lxor_comm b).
  by apply (linear_inj 32 _ _ _ ltac:(lia) (iter_linear 32 _ 8 ltac:(lia) crc32_bit_linear)); [apply lxor_range; lia..|].
Qed.

Lemma crc32_burst acc pre e1 e2 post :
  0 <= acc < 2 ^ 32 -> Forall byte_ok (pre ++ e1 ++ post) -> Forall byte_ok e2 ->
  length e1 = length e2 -> zlen e1 <= 4 ->
  crc32_signature acc (pre ++ e1 ++ post) = crc32_signature acc (pre ++ e2 ++ post) -> e1 = e2.
Proof.
  unfold crc32_signature. rewrite !Forall_app, !foldl_app. intros Ha (Hpre & H1 & Hpost) H2 Hl H4 E.
  pose proof (foldl_range 32 _ pre acc crc32_byte_range Hpre Ha) as Hr.
  assert (zlen e2 <= 4) as H4' by (unfold zlen in *; lia).
  apply (foldl_inj 32 _ _ _ _ crc32_byte_range crc32_byte_inj Hpost) in E;
    [|by apply (foldl_range 32 _ _ _ crc32_byte_range)..].
  rewrite (crc32_block e1), (crc32_block e2), Hl in E by done.
  assert (256 ^ zlen e1 <= 256 ^ 4) as Hp by (apply Z.pow_le_mono_r; lia).
  assert (zlen e2 = zlen e1) as Hz by (unfold zlen; lia).
  pose proof (le_value_range e1 H1). pose proof (le_value_range e2 H2). rewrite Hz in *.
  apply (linear_inj 32 _ _ _ ltac:(lia) (iter_linear 32 _ _ ltac:(lia) crc32_bit_linear)) in E; [|apply lxor_range; lia..].
  apply lxor_cancel in E. by apply le_value_inj.
Qed.

Lemma msb_burst w poly crc pre e1 e2 post :
  8 <= w -> 0 <= poly < 2 ^ w -> Z.odd poly = true ->
  0 <= crc < 2 ^ w -> Forall byte_ok (pre ++ e1 ++ post) -> Forall byte_ok e2 ->
  length e1 = length e2 -> 8 * zlen e1 <= w ->
  foldl (msb_byte w poly) crc (pre ++ e1 ++ post) = foldl (msb_byte w poly) crc (pre ++ e2 ++ post) -> e1 = e2.
Proof.
  intros Hw Hp Ho. rewrite !Forall_app, !foldl_app. intros Hc (Hpre & H1 & Hpost) H2 Hl Hs E.
  pose proof (msb_byte_range w poly Hw Hp Ho) as Hrange.
  pose proof (foldl_range w _ pre crc Hrange Hpre Hc) as Hr.
  assert (zlen e2 = zlen e1) as Hz by (unfold zlen; lia).
  assert (forall e, Forall byte_ok e -> zlen e = zlen e1 -> 0 <= be_value e * 2 ^ (w - 8 * zlen e1) < 2 ^ w) as Hv.
  { intros e He Hze. pose proof (be_value_range e He) as Hb. rewrite Hze in Hb. pose proof (zlen_nonneg e1).
    replace (2 ^ w) with (256 ^ zlen e1 * 2 ^ (w - 8 * zlen e1)); [nia|].
    change 256 with (2 ^ 8). rewrite <- Z.pow_mul_r, <- Z.pow_add_r by lia. f_equal. lia. }
  assert (forall x y b, 0 <= x < 2 ^ w -> 0 <= y < 2 ^ w -> byte_ok b -> msb_byte w poly x b = msb_byte w poly y b -> x = y) as Hinj.
  { intros x y b Hx Hy Hb E'. unfold msb_byte in E'. apply (lxor_cancel (Z.shiftl b (w - 8))).
    rewrite !(Z.lxor_comm (Z.shiftl b (w - 8))).
    assert (0 <= Z.shiftl b (w - 8) < 2 ^ w).
    { rewrite Z.shiftl_mul_pow2 by lia. unfold byte_ok in Hb.
      replace (2 ^ w) with (2 ^ 8 * 2 ^ (w - 8)) by (rewrite <- Z.pow_add_r by lia; f_equal; lia). nia. }
    by apply (linear_inj w _ _ _ ltac:(lia) (msb_linear w poly Hw Hp Ho 8)); [apply lxor_range; lia..|]. }
  apply (foldl_inj w _ _ _ _ Hrange Hinj Hpost) in E; [|by apply (foldl_range w _ _ _ Hrange)..].
  rewrite (msb_block w poly Hw Hp Ho e1), (msb_block w poly Hw Hp Ho e2), Hl, Hz in E by (rewrite ?Hz; done).
  apply (linear_inj w _ _ _ ltac:(lia) (msb_linear w poly Hw Hp Ho _)) in E; [|apply lxor_range; [lia|done|auto]..].
  apply lxor_cancel, Z.mul_cancel_r in E; [by apply be_value_inj|]. pose proof (Z.pow_pos_nonneg 2 (w - 8 * zlen e1)). lia.
Qed.

Lemma crc16_add_msb crc v : byte_ok v -> crc16_add crc v = msb_byte 16 0x1021 crc v.
Proof.
  unfold byte_ok. intros Hv. unfold crc16_add, msb_byte. change (16 - 8) with 8.
  replace (u16 (Z.shiftl v 8)) with (Z.shiftl v 8); [done|].
  rewrite Z.shiftl_mul_pow2 by lia. unfold uwrap. rewrite Z.mod_small; lia.
Qed.

Lemma crc16_fold bs : forall crc, Forall byte_ok bs -> foldl crc16_add crc bs = foldl (msb_byte 16 0x1021) crc bs.
Proof.
  induction bs as [|b bs IH]; intros crc Hbs; cbn [foldl]; [reflexivity|]. apply Forall_cons in Hbs as [Hb Hbs].
  rewrite crc16_add_msb by done. apply IH. exact Hbs.
Qed.

Lemma crc64_fold ws : forall crc,
  foldl crc64_add_word crc ws = foldl (msb_byte 64 0x42F0E1EBA9EA3693) crc (concat (map (le_bytes 4) ws)).
Proof.
  induction ws as [|x ws IH]; intros crc; [done|]. cbn [foldl map concat]. rewrite foldl_app, IH. done.
Qed.

(** ** Properties *)

Lemma crc32part_eq bytes : forall crc,
  Forall byte_ok bytes -> 0 <= crc < 2 ^ 32 -> crc32part bytes crc = Some (crc32_signature crc bytes).
Proof.
  unfold crc32part, crc32_signature.
  induction bytes as [|b bs IH]; intros crc Hbs Hc; [done|]. apply Forall_cons in Hbs as [Hb Hbs].
  cbn [foldl]. rewrite (crc32_byte_table crc b Hc Hb : (Some crc ≫= _) = _). apply IH; [done|].
  by apply crc32_byte_range.
Qed.

Lemma crc32_signature_range bytes crc :
  Forall byte_ok bytes -> 0 <= crc < 2 ^ 32 -> 0 <= crc32_signature crc bytes < 2 ^ 32.
Proof. intros Hbs Hc. by apply (foldl_range 32 _ _ _ crc32_byte_range). Qed.

(** C30: the table-driven [crc32part] of the operating system and the bitwise [crc32_signature]
    of lib/crc are the same function, for every message and every running value. *)
Theorem crc32part_is_crc32_signature bytes crc :
  Forall byte_ok bytes -> 0 <= crc < 2 ^ 32 -> crc32part bytes crc = Some (crc32_signature crc bytes).
Proof. apply crc32part_eq. Qed.

Lemma crc32part_is_crc32_signature_witness :
  crc32part [49; 50; 51; 52; 53; 54; 55; 56; 57] 0xffffffff
    = Some (crc32_signature 0xffffffff [49; 50; 51; 52; 53; 54; 55; 56; 57]) /\
  crc32_signature 0xffffffff [49; 50; 51; 52; 53; 54; 55; 56; 57] = Z.lxor 0xCBF43926 0xffffffff.
Proof.
  split; [|vm_compute; reflexivity]. apply crc32part_is_crc32_signature; [|lia].
  repeat constructor; unfold byte_ok; lia.
Defined.

Lemma le_bytes_words_inj ws1 : forall ws2,
  Forall (fun x => 0 <= x < 2 ^ 32) ws1 -> Forall (fun x => 0 <= x < 2 ^ 32) ws2 -> length ws1 = length ws2 ->
  concat (map (le_bytes 4) ws1) = concat (map (le_bytes 4) ws2) -> ws1 = ws2.
Proof.
  induction ws1 as [|x1 ws1 IH]; intros [|x2 ws2] H1 H2 Hl E; try done.
  apply Forall_cons in H1 as [Hx1 H1], H2 as [Hx2 H2]. injection Hl as Hl. cbn [map concat] in E.
  apply app_inj_1 in E as [E1 E2]; [|by rewrite !length_le_bytes]. f_equal; [|by apply IH].
  apply (f_equal le_value) in E1. rewrite !le_value_le_bytes in E1. unfold uwrap in E1.
  rewrite !Z.mod_small in E1; lia.
Qed.

Lemma words_bytes ws : Forall byte_ok (concat (map (le_bytes 4) ws)) /\ length (concat (map (le_bytes 4) ws)) = (4 * length ws)%nat.
Proof.
  induction ws as [|x ws [IH1 IH2]]; [by split; [constructor|]|]. cbn [map concat]. rewrite Forall_app, length_app, length_le_bytes, IH2.
  split; [split; [apply le_bytes_ok|done]|simpl; lia].
Qed.

(** Error detection. Two messages that differ only within a block not longer than the
    checksum (four bytes for CRC-32, two for CRC-16, two words for CRC-64) have different
    checksums, whatever surrounds the block and whatever the initial value. *)
Theorem crc_detects_bursts :
  (forall acc pre e1 e2 post, 0 <= acc < 2 ^ 32 -> Forall byte_ok (pre ++ e1 ++ post) -> Forall byte_ok e2 ->
    length e1 = length e2 -> zlen e1 <= 4 -> e1 <> e2 ->
    crc32_signature acc (pre ++ e1 ++ post) <> crc32_signature acc (pre ++ e2 ++ post)) /\
  (forall crc pre e1 e2 post, 0 <= crc < 2 ^ 16 -> Forall byte_ok (pre ++ e1 ++ post) -> Forall byte_ok e2 ->
    length e1 = length e2 -> zlen e1 <= 2 -> e1 <> e2 ->
    crc16_signature crc (pre ++ e1 ++ post) <> crc16_signature crc (pre ++ e2 ++ post)) /\
  (forall crc pre e1 e2 post, 0 <= crc < 2 ^ 64 -> Forall (fun x => 0 <= x < 2 ^ 32) e1 -> Forall (fun x => 0 <= x < 2 ^ 32) e2 ->
    length e1 = length e2 -> zlen e1 <= 2 -> e1 <> e2 ->
    foldl crc64_add_word crc (pre ++ e1 ++ post) <> foldl crc64_add_word crc (pre ++ e2 ++ post)).
Proof.
  split_and!.
  - intros acc pre e1 e2 post Ha H1 H2 Hl H4 Hne E. by apply crc32_burst in E.
  - intros crc pre e1 e2 post Hc H1 H2 Hl Hs Hne E. unfold crc16_signature in E. rewrite !Z.lxor_0_r in E.
    pose proof H1 as H1'. rewrite !Forall_app in H1'. destruct H1' as (Hpre & He1 & Hpost).
    assert (Forall byte_ok (pre ++ e2 ++ post)) as H1' by (rewrite !Forall_app; done).
    rewrite (crc16_fold _ crc H1), (crc16_fold _ crc H1') in E.
    apply (msb_burst 16 0x1021) in E; [done|lia|lia|done|done|done|done|done|lia].
  - intros crc pre e1 e2 post Hc H1 H2 Hl Hs Hne E. apply Hne. rewrite !crc64_fold, !map_app, !concat_app in E.
    apply le_bytes_words_inj; [done..|].
    apply (msb_burst 64 0x42F0E1EBA9EA3693) in E; [done|lia|lia|done|done| |apply words_bytes| |].
    + rewrite !Forall_app. split_and!; apply words_bytes.
    + by rewrite !(proj2 (words_bytes _)), Hl.
    + unfold zlen in *. rewrite (proj2 (words_bytes _)). lia.
Qed.

Lemma crc_detects_bursts_witness : crc32_signature 0 ([1; 2] ++ [3; 4] ++ [5]) <> crc32_signature 0 ([1; 2] ++ [3; 5] ++ [5]).
Proof.
  apply (proj1 crc_detects_bursts); [lia| | |done|unfold zlen; simpl; lia|done]; repeat constructor; unfold byte_ok; lia.
Defined.
