(* ===== verification/Parameters.v ===== *)
(** * The parameter store

    Models src/lib/parameters/parameters_common.cpp, autosave.{h,cpp} (requests) and the part of
    parameters.cpp that works in memory: finding, getting, setting and resetting parameters,
    custom defaults, used parameters, change notifications. Files are in ParamStorage.

    The table [px4::parameters] is generated at build time: it is an argument, sorted by name as
    px_generate_params.py emits it. The two sparse layers are used through the interface
    [ParamLayer], so that the theorems hold for every implementation that meets its laws. Values
    are 32-bit patterns. The build is the flat one without a parameter server
    (CONFIG_PARAM_PRIMARY and CONFIG_PARAM_REMOTE undefined) and with a parameter file
    (FLASH_BASED_PARAMS undefined); the performance counters are left out. [None] is undefined
    behaviour. *)
From stdpp Require Import base tactics strings list gmap.
From Stdlib Require Import ZArith Lia.
From S2P Require Import Prelude.
From S2P Require Import Containers.
From S2P Require Import ParamLayers.
From S2P Require Import Float32.
From S2P Require Import Crc.

(** ** C strings: lists of characters without the terminator *)

(** The characters of a literal. *)
Definition cstr (s : string) : list Z := map (fun c => Z.of_N (Ascii.N_of_ascii c)) (String.list_ascii_of_string s).

Fixpoint strcmp (a b : list Z) : Z :=
  match a, b with
  | [], [] => 0
  | [], y :: _ => 0 - y
  | x :: _, [] => x
  | x :: a, y :: b => if x =? y then strcmp a b else x - y
  end.

Definition strncmp (a b : list Z) (n : Z) : Z := strcmp (take (Z.to_nat n) a) (take (Z.to_nat n) b).

Definition PX4_OK : Z := 0.
Definition PX4_ERROR : Z := -1.
Definition PARAM_INVALID : Z := 65535.
Definition PARAM_TYPE_UNKNOWN : Z := 0.
Definition PARAM_TYPE_INT32 : Z := 1.
Definition PARAM_TYPE_FLOAT : Z := 2.

Record param_info := mkInfo { name : list Z; val : Z; type : Z }.

(** ** Autosave requests *)

(** [as_deadline] is the time at which the work item runs, when it is scheduled. *)
Record ParamAutosave := mkAutosave {
  _last_timestamp : Z;
  _scheduled : bool;
  _retry_count : Z;
  _disabled : bool;
  as_deadline : option Z;
}.

Definition ParamAutosave_new : ParamAutosave := mkAutosave 0 false 0 false None.

Definition autosave_request (now : Z) (a : ParamAutosave) : ParamAutosave :=
  if a.(_scheduled) || a.(_disabled) then a
  else
    let delay := 300000 in
    let rate_limit := 2000000 in
    let last_save_elapsed := hrt_elapsed_time now a.(_last_timestamp) in
    let delay :=
      if (last_save_elapsed <? rate_limit) && (last_save_elapsed + delay <? rate_limit)
      then rate_limit - last_save_elapsed else delay in
    mkAutosave a.(_last_timestamp) true a.(_retry_count) a.(_disabled) (Some (now + delay)).

Definition autosave_enable (enable : bool) (a : ParamAutosave) : ParamAutosave :=
  if negb enable && a.(_scheduled)
  then mkAutosave a.(_last_timestamp) false a.(_retry_count) (negb enable) None
  else mkAutosave a.(_last_timestamp) a.(_scheduled) a.(_retry_count) (negb enable) a.(as_deadline).

(** ** The store *)

(** The message [parameter_update_s] without the performance counts. *)
Record parameter_update := mkUpdate {
  pup_instance : Z;
  pup_active : Z;
  pup_changed : Z;
  pup_custom_default : Z;
  pup_timestamp : Z;
}.

(** [p_topic] are the published updates, the latest last; [p_now] is the time. *)
Record params (L : Type) := mkParams {
  params_active : list Z;
  params_unsaved : list Z;
  runtime_defaults : L;
  user_config : L;
  params_locked : bool;
  param_instance : Z;
  p_topic : list parameter_update;
  autosave_instance : option ParamAutosave;
  p_now : Z;
}.
Arguments mkParams {_}.
Arguments params_active {_}.
Arguments params_unsaved {_}.
Arguments runtime_defaults {_}.
Arguments user_config {_}.
Arguments params_locked {_}.
Arguments param_instance {_}.
Arguments p_topic {_}.
Arguments autosave_instance {_}.
Arguments p_now {_}.

Section store.
Context (parameters : list param_info) (parameters_volatile parameters_readonly : list Z).
Context {L : Type} `{ParamLayer L}.

Definition set_active (st : params L) (x : list Z) : params L :=
  mkParams x st.(params_unsaved) st.(runtime_defaults) st.(user_config) st.(params_locked) st.(param_instance)
    st.(p_topic) st.(autosave_instance) st.(p_now).
Definition set_unsaved (st : params L) (x : list Z) : params L :=
  mkParams st.(params_active) x st.(runtime_defaults) st.(user_config) st.(params_locked) st.(param_instance)
    st.(p_topic) st.(autosave_instance) st.(p_now).
Definition set_defaults (st : params L) (x : L) : params L :=
  mkParams st.(params_active) st.(params_unsaved) x st.(user_config) st.(params_locked) st.(param_instance)
    st.(p_topic) st.(autosave_instance) st.(p_now).
Definition set_user (st : params L) (x : L) : params L :=
  mkParams st.(params_active) st.(params_unsaved) st.(runtime_defaults) x st.(params_locked) st.(param_instance)
    st.(p_topic) st.(autosave_instance) st.(p_now).
Definition set_autosave (st : params L) (x : option ParamAutosave) : params L :=
  mkParams st.(params_active) st.(params_unsaved) st.(runtime_defaults) st.(user_config) st.(params_locked)
    st.(param_instance) st.(p_topic) x st.(p_now).

(** *** parameters_common.cpp *)

Definition param_info_count : Z := zlen parameters.

Definition handle_in_range (p : Z) : bool := p <? param_info_count.

Definition param_count : Z := param_info_count.

Definition param_get_index (p : Z) : Z := if handle_in_range p then p else -1.

Definition param_for_index (index : Z) : Z := if index <? param_info_count then u16 index else PARAM_INVALID.

(** [None] is [nullptr]. *)
Definition param_name (p : Z) : option (list Z) :=
  if handle_in_range p then name <$> zlookup parameters p else None.

Definition param_type (p : Z) : Z :=
  if handle_in_range p then default PARAM_TYPE_UNKNOWN (type <$> zlookup parameters p) else PARAM_TYPE_UNKNOWN.

Definition param_is_volatile (p : Z) : bool :=
  if handle_in_range p then existsb (fun q => p =? q) parameters_volatile else false.

Definition param_is_readonly (st : params L) (p : Z) : bool :=
  if st.(params_locked) && handle_in_range p then existsb (fun q => p =? q) parameters_readonly else false.

Definition param_lock_readonly (st : params L) : params L :=
  mkParams st.(params_active) st.(params_unsaved) st.(runtime_defaults) st.(user_config) true
    st.(param_instance) st.(p_topic) st.(autosave_instance) st.(p_now).

Definition param_size (p : Z) : Z :=
  if handle_in_range p then
    (if (param_type p =? PARAM_TYPE_INT32) || (param_type p =? PARAM_TYPE_FLOAT) then 4 else 0)
  else 0.

(** A getter returns its result and what it stores to [*val]. *)
Definition param_get_system_default_value (p : Z) : Z * option Z :=
  if negb (handle_in_range p) then (PX4_ERROR, None)
  else if (param_type p =? PARAM_TYPE_INT32) || (param_type p =? PARAM_TYPE_FLOAT) then
    (PX4_OK, val <$> zlookup parameters p)
  else (PX4_ERROR, None).

(** *** The three layers *)

Definition firmware_defaults_get (p : Z) : option Z := Some (Const_get (map val parameters) p).
Definition runtime_defaults_get (st : params L) (p : Z) : option Z :=
  layer_get firmware_defaults_get st.(runtime_defaults) p.
Definition user_config_get (st : params L) (p : Z) : option Z :=
  layer_get (runtime_defaults_get st) st.(user_config) p.

(** *** parameters.cpp *)

Definition param_notify_changes (st : params L) : params L :=
  let pup := mkUpdate st.(param_instance) (AtomicBitset_count st.(params_active)) (layer_size st.(user_config))
               (layer_size st.(runtime_defaults)) st.(p_now) in
  mkParams st.(params_active) st.(params_unsaved) st.(runtime_defaults) st.(user_config) st.(params_locked)
    (u32 (st.(param_instance) + 1)) (st.(p_topic) ++ [pup]) st.(autosave_instance) st.(p_now).

Definition param_used (st : params L) (p : Z) : option bool :=
  if handle_in_range p then AtomicBitset_get st.(params_active) p else Some false.

Definition param_set_used (st : params L) (p : Z) : option (params L) :=
  if handle_in_range p then active ← AtomicBitset_set st.(params_active) p true; Some (set_active st active)
  else Some st.

(** The loop of [param_find_internal]: the handle. *)
Fixpoint find_loop (fuel : nat) (nm : list Z) (front last : Z) : option Z :=
  if negb (front <=? last) then Some PARAM_INVALID
  else
    match fuel with
    | O => None
    | S fuel =>
      let middle := front + (last - front) / 2 in
      m ← param_name middle;
      let ret := strcmp nm m in
      if ret =? 0 then Some middle
      else if middle =? front then Some PARAM_INVALID
      else if ret <? 0 then find_loop fuel nm front middle
      else find_loop fuel nm middle last
    end.

Definition param_find_internal (st : params L) (nm : list Z) (notification : bool) : option (Z * params L) :=
  p ← find_loop (S (Z.to_nat param_info_count)) nm 0 param_info_count;
  if negb (p =? PARAM_INVALID) && notification then st ← param_set_used st p; Some (p, st) else Some (p, st).

Definition param_find (st : params L) (nm : list Z) : option (Z * params L) := param_find_internal st nm true.
Definition param_find_no_notification (st : params L) (nm : list Z) : option Z :=
  fst <$> param_find_internal st nm false.

Definition param_count_used (st : params L) : Z := AtomicBitset_count st.(params_active).

(** [for (i = 0; i < params_active.size(); i++)]: the position of the used parameter [index]. *)
Fixpoint for_used_loop (st : params L) (index used_count : Z) (idx : list Z) : option Z :=
  match idx with
  | [] => Some PARAM_INVALID
  | i :: idx =>
    b ← AtomicBitset_get st.(params_active) i;
    if b : bool then
      if index =? used_count then Some (u16 i) else for_used_loop st index (used_count + 1) idx
    else for_used_loop st index used_count idx
  end.

Definition param_for_used_index (st : params L) (index : Z) : option Z :=
  if index <? param_info_count then for_used_loop st index 0 (seqZ 0 param_info_count) else Some PARAM_INVALID.

Fixpoint used_index_loop (st : params L) (p used_count : Z) (idx : list Z) : option Z :=
  match idx with
  | [] => Some (-1)
  | i :: idx =>
    b ← AtomicBitset_get st.(params_active) i;
    if b : bool then
      if p =? i then Some used_count else used_index_loop st p (used_count + 1) idx
    else used_index_loop st p used_count idx
  end.

Definition param_get_used_index (st : params L) (p : Z) : option Z :=
  used ← param_used st p;
  if negb used then Some (-1) else used_index_loop st p 0 (seqZ 0 param_info_count).

Definition param_value_unsaved (st : params L) (p : Z) : option bool :=
  if handle_in_range p then AtomicBitset_get st.(params_unsaved) p else Some false.

(** [v] is whether the pointer [val] is not null. *)
Definition param_get (st : params L) (p : Z) (v : bool) : option (Z * option Z) :=
  if negb (handle_in_range p) then Some (PX4_ERROR, None)
  else if negb v then Some (PX4_ERROR, None)
  else
    retrieve_value ← user_config_get st p;
    if (param_type p =? PARAM_TYPE_INT32) || (param_type p =? PARAM_TYPE_FLOAT) then Some (PX4_OK, Some retrieve_value)
    else Some (PX4_ERROR, None).

Definition param_get_default_value_internal (st : params L) (p : Z) (v : bool) : option (Z * option Z) :=
  if negb (handle_in_range p) then Some (PX4_ERROR, None)
  else if v && ((param_type p =? PARAM_TYPE_INT32) || (param_type p =? PARAM_TYPE_FLOAT)) then
    x ← runtime_defaults_get st p; Some (PX4_OK, Some x)
  else Some (PX4_ERROR, None).

Definition param_get_default_value (st : params L) (p : Z) (v : bool) : option (Z * option Z) :=
  if negb (handle_in_range p) then Some (PX4_ERROR, None) else param_get_default_value_internal st p v.

Definition param_value_is_default (st : params L) (p : Z) : option bool :=
  if negb (handle_in_range p) then Some true
  else
    c ← layer_contains st.(user_config) p;
    if negb c then Some true
    else
      user_config_value ← user_config_get st p;
      runtime_default_value ← runtime_defaults_get st p;
      Some (if param_type p =? PARAM_TYPE_INT32 then user_config_value =? runtime_default_value
            else if param_type p =? PARAM_TYPE_FLOAT then differ_lt_eps user_config_value runtime_default_value
            else true).

Definition param_autosave (st : params L) : params L :=
  match st.(autosave_instance) with
  | Some a => set_autosave st (Some (autosave_request st.(p_now) a))
  | None => st
  end.

Definition param_control_autosave (st : params L) (enable : bool) : params L :=
  match st.(autosave_instance) with
  | Some a => set_autosave st (Some (autosave_enable enable a))
  | None => st
  end.

(** [v] is what the pointer [val] points to, [None] for [nullptr]. *)
Definition param_set_internal (st : params L) (p : Z) (v : option Z) (mark_saved notify_changes : bool)
  : option (Z * params L) :=
  if negb (handle_in_range p) then Some (PX4_ERROR, st)
  else
    match v with
    | None => Some (PX4_ERROR, st)
    | Some v =>
      if param_is_readonly st p then Some (PX4_ERROR, st)
      else
        user_config_value ← user_config_get st p;
        let '(new_value, param_changed) :=
          if param_type p =? PARAM_TYPE_INT32 then (v, negb (user_config_value =? v))
          else if param_type p =? PARAM_TYPE_FLOAT then (v, differ_gt_eps user_config_value v)
          else (0, false) in
        '(ok, user) ← layer_store st.(user_config) p new_value;
        let st := set_user st user in
        '(result, st) ←
          (if ok : bool then
             unsaved ← AtomicBitset_set st.(params_unsaved) p (negb mark_saved && param_changed);
             Some (PX4_OK, set_unsaved st unsaved)
           else Some (PX4_ERROR, st));
        let st := if (result =? PX4_OK) && param_changed && negb mark_saved then param_autosave st else st in
        let st := if (result =? PX4_OK) && param_changed && notify_changes then param_notify_changes st else st in
        Some (result, st)
    end.

Definition param_set (st : params L) (p : Z) (v : option Z) := param_set_internal st p v false true.
Definition param_set_no_notification (st : params L) (p : Z) (v : option Z) := param_set_internal st p v false false.
Definition param_set_no_remote_update (st : params L) (p : Z) (v : option Z) (notify : bool) :=
  param_set_internal st p v false notify.

Definition param_set_default_value (st : params L) (p : Z) (v : option Z) : option (Z * params L) :=
  if negb (handle_in_range p) then Some (PX4_ERROR, st)
  else
    match v with
    | None => Some (PX4_ERROR, st)
    | Some v =>
      if param_is_readonly st p then Some (PX4_ERROR, st)
      else
        firmware_default_value ← firmware_defaults_get p;
        let setting_to_static_default :=
          if param_type p =? PARAM_TYPE_INT32 then firmware_default_value =? v
          else if param_type p =? PARAM_TYPE_FLOAT then differ_le_eps firmware_default_value v
          else false in
        '(result, st) ←
          (if setting_to_static_default then
             d ← layer_reset st.(runtime_defaults) p; Some (PX4_OK, set_defaults st d)
           else
             let new_value :=
               if (param_type p =? PARAM_TYPE_INT32) || (param_type p =? PARAM_TYPE_FLOAT) then v else 0 in
             '(ok, d) ← layer_store st.(runtime_defaults) p new_value;
             Some (if ok : bool then PX4_OK else PX4_ERROR, set_defaults st d));
        used ← param_used st p;
        Some (result, if (result =? PX4_OK) && used then param_notify_changes st else st)
    end.

Definition param_reset_internal (st : params L) (p : Z) (notify autosave : bool) : option (Z * params L) :=
  if param_is_readonly st p then Some (0, st)
  else
    param_found ← layer_contains st.(user_config) p;
    st ← (if handle_in_range p then u ← layer_reset st.(user_config) p; Some (set_user st u) else Some st);
    let st := if autosave : bool then param_autosave st else st in
    let st := if param_found && notify then param_notify_changes st else st in
    Some (b2z param_found, st).

Definition param_reset (st : params L) (p : Z) := param_reset_internal st p true true.
Definition param_reset_no_notification (st : params L) (p : Z) := param_reset_internal st p false true.

(** [for (param = 0; handle_in_range(param); param++)]. *)
Fixpoint for_params (f : params L -> Z -> option (params L)) (st : params L) (ps : list Z) : option (params L) :=
  match ps with
  | [] => Some st
  | p :: ps => st ← f st p; for_params f st ps
  end.

Definition all_params : list Z := seqZ 0 param_info_count.

Definition param_reset_all_internal (st : params L) (auto_save : bool) : option (params L) :=
  st ← for_params (fun st p => '(_, st) ← param_reset_internal st p false false; Some st) st all_params;
  let st := if auto_save then param_autosave st else st in
  Some (param_notify_changes st).

Definition param_reset_all (st : params L) : option (params L) := param_reset_all_internal st true.

(** A pattern is a name or a prefix followed by an asterisk; [None]: it is empty, and the
    character before the string is read. *)
Definition matches (nm pattern : list Z) : option bool :=
  let len := zlen pattern in
  c ← zlookup pattern (len - 1);
  Some (((c =? 42) && (strncmp nm pattern (len - 1) =? 0)) || (strcmp nm pattern =? 0)).

Fixpoint matches_any (nm : list Z) (patterns : list (list Z)) : option bool :=
  match patterns with
  | [] => Some false
  | p :: ps => b ← matches nm p; if b : bool then Some true else matches_any nm ps
  end.

Definition param_reset_excludes (st : params L) (excludes : list (list Z)) : option (params L) :=
  for_params (fun st p =>
    nm ← param_name p;
    exclude ← matches_any nm excludes;
    if negb exclude then '(_, st) ← param_reset st p; Some st else Some st) st all_params.

Definition param_reset_specific (st : params L) (resets : list (list Z)) : option (params L) :=
  for_params (fun st p =>
    nm ← param_name p;
    reset ← matches_any nm resets;
    if reset : bool then '(_, st) ← param_reset st p; Some st else Some st) st all_params.

(** [func] works on its own data and on the store. *)
Definition param_foreach {A} (func : A * params L -> Z -> option (A * params L)) (arg : A * params L)
  (only_changed only_used : bool) : option (A * params L) :=
  foldl (fun acc p =>
    a ← acc;
    changed ← (if only_changed then layer_contains a.2.(user_config) p else Some true);
    if negb changed then Some a
    else
      used ← (if only_used then param_used a.2 p else Some true);
      if negb used then Some a else func a p) (Some arg) all_params.

(** The body of the loop of [param_hash_check]. *)
Definition hash_param (st : params L) (param_hash p : Z) : option Z :=
  used ← param_used st p;
  if negb used || param_is_volatile p then Some param_hash
  else
    nm ← param_name p;
    value ← user_config_get st p;
    param_hash ← crc32part nm param_hash;
    crc32part (take (Z.to_nat (param_size p)) (le_bytes 4 value)) param_hash.

Definition param_hash_check (st : params L) : option Z :=
  foldl (fun acc p => param_hash ← acc; hash_param st param_hash p) (Some 0) all_params.

(** ** Well-formed stores *)

Definition name_ok (nm : list Z) : Prop := Forall (fun c => 0 < c < 256) nm.
Definition value_ok (v : Z) : Prop := 0 <= v < 2 ^ 32.

(** What px_generate_params.py emits: sorted names, two types. *)
Record table_ok : Prop := {
  t_count : 0 < param_info_count < PARAM_INVALID;
  t_names : Forall (fun i => name_ok i.(name)) parameters;
  t_vals : Forall (fun i => value_ok i.(val)) parameters;
  t_types : Forall (fun i => i.(type) = PARAM_TYPE_INT32 \/ i.(type) = PARAM_TYPE_FLOAT) parameters;
  t_sorted i j a b : zlookup parameters i = Some a -> zlookup parameters j = Some b -> i < j ->
    strcmp a.(name) b.(name) < 0;
}.

Context `{PLL : !ParamLayerLaws param_info_count L}.

Record params_ok (st : params L) : Prop := {
  pk_active : bitset_wf 32 param_info_count st.(params_active);
  pk_unsaved : bitset_wf 32 param_info_count st.(params_unsaved);
  pk_defaults : layer_ok st.(runtime_defaults);
  pk_user : layer_ok st.(user_config);
  pk_dvals : map_Forall (fun p v => 0 <= p < param_info_count /\ value_ok v) (layer_map st.(runtime_defaults));
  pk_uvals : map_Forall (fun p v => 0 <= p < param_info_count /\ value_ok v) (layer_map st.(user_config));
}.

(** The value of a parameter: the user's, else the custom default, else the firmware's. *)
Definition firmware_default (p : Z) : Z := Const_get (map val parameters) p.
Definition default_value (dm : gmap Z Z) (p : Z) : Z := default (firmware_default p) (dm !! p).
Definition current_value (dm um : gmap Z Z) (p : Z) : Z := default (default_value dm p) (um !! p).

Lemma strcmp_antisym a : forall b, strcmp b a = - strcmp a b.
Proof.
  induction a as [|x a IH]; intros [|y b]; simpl; try lia. rewrite Z.eqb_sym. case_if; [apply IH|lia].
Qed.

Lemma strcmp_refl a : strcmp a a = 0.
Proof. induction a as [|x a IH]; simpl; [done|]. by rewrite Z.eqb_refl. Qed.

Lemma strcmp_eq a : forall b, name_ok a -> name_ok b -> strcmp a b = 0 -> a = b.
Proof.
  induction a as [|x a IH]; intros [|y b] Ha Hb; simpl; [done| | |].
  - apply Forall_cons in Hb as [Hy _]. lia.
  - apply Forall_cons in Ha as [Hx _]. lia.
  - apply Forall_cons in Ha as [_ Ha], Hb as [_ Hb]. case_if; [|lia]. intros E. f_equal; [done|by apply IH].
Qed.

Lemma strcmp_trans a : forall b c, name_ok a -> name_ok b -> name_ok c ->
  strcmp a b < 0 -> strcmp b c < 0 -> strcmp a c < 0.
Proof.
  induction a as [|x a IH]; intros [|y b] [|z c] Ha Hb Hc; simpl; try lia.
  - apply Forall_cons in Hc as [Hz _]. lia.
  - apply Forall_cons in Ha as [Hx _]. lia.
  - apply Forall_cons in Hb as [Hy _]. lia.
  - apply Forall_cons in Ha as [Hx Ha], Hb as [Hy Hb], Hc as [Hz Hc].
    repeat case_if; subst; try lia. by apply IH.
Qed.

Lemma param_name_lookup p i : zlookup parameters p = Some i -> param_name p = Some i.(name).
Proof.
  intros Hi. unfold param_name, handle_in_range, param_info_count. pose proof (zlookup_Some_lt _ _ _ Hi).
  rewrite (proj2 (Z.ltb_lt _ _)) by lia. by rewrite Hi.
Qed.

Lemma table_name i a : table_ok -> zlookup parameters i = Some a -> name_ok a.(name).
Proof. intros Ht Ha. pose proof (t_names Ht) as Hn. rewrite Forall_forall in Hn. apply Hn. by eapply zlookup_elem. Qed.

Section find.
Context (Ht : table_ok) (nm : list Z) (nm_ok : name_ok nm).

Lemma find_loop_ok fuel : forall front last,
  0 <= front < param_info_count -> front <= last <= param_info_count -> (Z.to_nat (last - front) < fuel)%nat ->
  (forall i a, zlookup parameters i = Some a -> i < front -> strcmp nm a.(name) > 0) ->
  (forall i a, zlookup parameters i = Some a -> last <= i -> strcmp nm a.(name) < 0) ->
  exists p, find_loop fuel nm front last = Some p /\
    ((exists a, zlookup parameters p = Some a /\ a.(name) = nm) \/
     (p = PARAM_INVALID /\ forall i a, zlookup parameters i = Some a -> a.(name) <> nm)).
Proof.
  induction fuel as [|fuel IH]; intros front last Hf Hl Hfuel Hlo Hhi; [lia|]. cbn [find_loop]. decide_if.
  pose proof (Z.div_mod (last - front) 2 ltac:(lia)). pose proof (Z.mod_pos_bound (last - front) 2 ltac:(lia)).
  set (middle := front + (last - front) / 2). assert (front <= middle /\ (front < last -> middle < last)) as [Hm1 Hm2] by lia.
  destruct (zlookup_lt parameters middle) as [a Ha]; [unfold param_info_count in *; lia|].
  rewrite (param_name_lookup _ _ Ha). cbn [mbind option_bind]. pose proof (table_name _ _ Ht Ha) as Hna.
  case_if.
  { exists middle. split; [done|]. left. exists a. split; [done|]. symmetry. by apply strcmp_eq. }
  case_if.
  { exists PARAM_INVALID. split; [done|]. right. split; [done|]. intros i b Hb E.
    assert (strcmp nm (name b) = 0) as E0 by (rewrite E; apply strcmp_refl).
    destruct (Z.lt_ge_cases i front); [pose proof (Hlo i b Hb ltac:(lia)); lia|].
    destruct (Z.eq_dec i front) as [->|]; [|pose proof (Hhi i b Hb ltac:(lia)); lia].
    replace middle with front in Ha by lia. rewrite Hb in Ha. by simplify_eq. }
  case_if.
  - apply IH; try lia; [done|]. intros i b Hb Hi. destruct (Z.eq_dec i middle) as [->|].
    + rewrite Ha in Hb. by simplify_eq.
    + pose proof (t_sorted Ht middle i a b Ha Hb ltac:(lia)).
      apply (strcmp_trans nm (name a) (name b)); try done. by eapply table_name.
  - apply IH; try lia; [|done]. intros i b Hb Hi.
    pose proof (t_sorted Ht i middle b a Hb Ha ltac:(lia)) as Hba. pose proof (strcmp_antisym nm (name a)).
    pose proof (table_name _ _ Ht Hb). pose proof (strcmp_trans (name b) (name a) nm ltac:(done) Hna nm_ok Hba ltac:(lia)).
    rewrite strcmp_antisym. lia.
Qed.

Lemma find_loop_table :
  exists p, find_loop (S (Z.to_nat param_info_count)) nm 0 param_info_count = Some p /\
    ((0 <= p < param_info_count /\ param_name p = Some nm) \/
     (p = PARAM_INVALID /\ forall i, param_name i <> Some nm)).
Proof.
  pose proof (t_count Ht). destruct (find_loop_ok (S (Z.to_nat param_info_count)) 0 param_info_count) as (p & E & Hp);
    [lia|lia|lia|intros i a Ha Hi; pose proof (zlookup_Some_lt _ _ _ Ha); lia
    |intros i a Ha Hi; pose proof (zlookup_Some_lt _ _ _ Ha); unfold param_info_count in *; lia|].
  exists p. split; [done|]. destruct Hp as [(a & Ha & <-)|[-> Hn]].
  - left. rewrite (param_name_lookup _ _ Ha). pose proof (zlookup_Some_lt _ _ _ Ha). by unfold param_info_count.
  - right. split; [done|]. intros i Hi. unfold param_name in Hi. case_if_in Hi; [|done].
    destruct (zlookup parameters i) as [a|] eqn:Ha; simplify_eq/=. by apply (Hn i a).
Qed.
End find.

(** ** The operations on well-formed stores *)

Lemma runtime_defaults_get_ok st p : params_ok st ->
  runtime_defaults_get st p = Some (default_value (layer_map st.(runtime_defaults)) p).
Proof.
  intros Hst. unfold runtime_defaults_get. rewrite layer_get_spec by apply Hst. unfold default_value.
  by destruct (layer_map _ !! p).
Qed.

Lemma user_config_get_ok st p : params_ok st ->
  user_config_get st p = Some (current_value (layer_map st.(runtime_defaults)) (layer_map st.(user_config)) p).
Proof.
  intros Hst. unfold user_config_get. rewrite layer_get_spec by apply Hst.
  rewrite runtime_defaults_get_ok by done. unfold current_value. by destruct (layer_map _ !! p).
Qed.

Lemma in_range p : 0 <= p < param_info_count -> handle_in_range p = true.
Proof. unfold handle_in_range. lia. Qed.

Lemma type_cases p : table_ok -> 0 <= p < param_info_count ->
  param_type p = PARAM_TYPE_INT32 \/ param_type p = PARAM_TYPE_FLOAT.
Proof.
  intros Ht Hp. unfold param_type. rewrite in_range by done. destruct (zlookup_lt parameters p Hp) as [i Hi].
  rewrite Hi. simpl. pose proof (t_types Ht) as Hty. rewrite Forall_forall in Hty. apply Hty. by eapply zlookup_elem.
Qed.

(** Whether [param_set_internal] sees a change. *)
Definition value_changed (p old new : Z) : bool :=
  if param_type p =? PARAM_TYPE_INT32 then negb (old =? new) else differ_gt_eps old new.

(** What a change of one layer keeps. *)
Record same_rest (st st' : params L) : Prop := {
  sr_active : st'.(params_active) = st.(params_active);
  sr_locked : st'.(params_locked) = st.(params_locked);
  sr_now : st'.(p_now) = st.(p_now);
  sr_dcap : layer_cap st'.(runtime_defaults) = layer_cap st.(runtime_defaults);
  sr_ucap : layer_cap st'.(user_config) = layer_cap st.(user_config);
}.

(** A step after the stores that does not touch the layers. *)
Record same_layers (st st' : params L) : Prop := {
  sl_rest : same_rest st st';
  sl_unsaved : st'.(params_unsaved) = st.(params_unsaved);
  sl_defaults : st'.(runtime_defaults) = st.(runtime_defaults);
  sl_user : st'.(user_config) = st.(user_config);
}.

Lemma same_layers_refl st : same_layers st st.
Proof. by repeat split. Qed.

Lemma same_layers_trans st1 st2 st3 : same_layers st1 st2 -> same_layers st2 st3 -> same_layers st1 st3.
Proof. intros [[] ? ? ?] [[] ? ? ?]. repeat split; congruence. Qed.

Lemma same_layers_notify st : same_layers st (param_notify_changes st).
Proof. by repeat split. Qed.

Lemma same_layers_autosave st : same_layers st (param_autosave st).
Proof. unfold param_autosave. destruct (autosave_instance st); by repeat split. Qed.

Lemma same_layers_ok st st' : same_layers st st' -> params_ok st -> params_ok st'.
Proof. intros [[Ha _ _ _ _] Hu Hd Hus] []. split; by rewrite ?Ha, ?Hu, ?Hd, ?Hus. Qed.

Lemma same_rest_trans st1 st2 st3 : same_rest st1 st2 -> same_rest st2 st3 -> same_rest st1 st3.
Proof. intros [] []. split; congruence. Qed.

(** Autosave and notification at the end of an operation. *)
Definition finish (autosave notify : bool) (st : params L) : params L :=
  let st := if autosave then param_autosave st else st in
  if notify then param_notify_changes st else st.

Lemma same_layers_finish a n st : same_layers st (finish a n st).
Proof.
  unfold finish. destruct a, n; eauto using same_layers_trans, same_layers_autosave, same_layers_notify, same_layers_refl.
Qed.

Lemma set_internal_ok st p v mark_saved notify :
  table_ok -> params_ok st -> 0 <= p < param_info_count -> value_ok v -> param_is_readonly st p = false ->
  let dm := layer_map st.(runtime_defaults) in
  let um := layer_map st.(user_config) in
  let fits := map_fits (layer_cap st.(user_config)) um p in
  let changed := value_changed p (current_value dm um p) v in
  exists st1, param_set_internal st p (Some v) mark_saved notify
      = Some (if fits then PX4_OK else PX4_ERROR,
              finish (fits && changed && negb mark_saved) (fits && changed && notify) st1) /\
    params_ok st1 /\ same_rest st st1 /\ st1.(runtime_defaults) = st.(runtime_defaults) /\
    st1.(autosave_instance) = st.(autosave_instance) /\ st1.(p_topic) = st.(p_topic) /\
    st1.(param_instance) = st.(param_instance) /\
    layer_map st1.(user_config) = (if fits then <[p := v]> um else um) /\
    forall q, 0 <= q < param_info_count ->
      bit 32 st1.(params_unsaved) q
      = if fits && (q =? p) then negb mark_saved && changed else bit 32 st.(params_unsaved) q.
Proof.
  intros Ht Hst Hp Hv Hro dm um fits changed. unfold param_set_internal.
  rewrite in_range by done. cbn [negb]. rewrite Hro, user_config_get_ok by done. cbn [mbind option_bind].
  fold dm um.
  assert ((if param_type p =? PARAM_TYPE_INT32 then (v, negb (current_value dm um p =? v))
           else if param_type p =? PARAM_TYPE_FLOAT then (v, differ_gt_eps (current_value dm um p) v)
           else (0, false)) = (v, changed)) as ->.
  { unfold changed, value_changed. by destruct (type_cases p Ht Hp) as [-> | ->]. }
  destruct (layer_store_spec (user_config st) p v (pk_user _ Hst) Hp) as (user & E & Hok & Hcap & Hmap).
  fold um fits in E, Hmap. rewrite E. cbn [mbind option_bind].
  assert (map_Forall (fun p v => 0 <= p < param_info_count /\ value_ok v) (layer_map user)) as Huv.
  { rewrite Hmap. destruct fits; [apply map_Forall_insert_2; [done|]|]; apply Hst. }
  destruct fits; cbn [andb].
  - destruct (bitset_set_ok 32 ltac:(lia) _ _ p (negb mark_saved && changed) (pk_unsaved _ Hst) Hp) as (uns & E2 & Hw & Hb).
    unfold AtomicBitset_set. simpl params_unsaved. rewrite E2. cbn [mbind option_bind].
    exists (set_unsaved (set_user st user) uns). split; [done|]. split; [by destruct Hst; split|]. by repeat split.
  - exists (set_user st user). split; [done|]. split; [by destruct Hst; split|]. by repeat split.
Qed.

Lemma param_used_ok st p : params_ok st -> 0 <= p < param_info_count ->
  param_used st p = Some (bit 32 st.(params_active) p).
Proof.
  intros Hst Hp. unfold param_used. rewrite in_range by done.
  exact (bitset_get_bit 32 ltac:(lia) _ _ _ (pk_active _ Hst) Hp).
Qed.

(** Setting to the firmware default removes the custom default. *)
Definition is_firmware_default (p v : Z) : bool :=
  if param_type p =? PARAM_TYPE_INT32 then firmware_default p =? v else differ_le_eps (firmware_default p) v.

Lemma set_default_ok st p v :
  table_ok -> params_ok st -> 0 <= p < param_info_count -> value_ok v -> param_is_readonly st p = false ->
  let dm := layer_map st.(runtime_defaults) in
  let fits := is_firmware_default p v || map_fits (layer_cap st.(runtime_defaults)) dm p in
  exists st1, param_set_default_value st p (Some v)
      = Some (if fits then PX4_OK else PX4_ERROR, finish false (fits && bit 32 st.(params_active) p) st1) /\
    params_ok st1 /\ same_rest st st1 /\ st1.(user_config) = st.(user_config) /\
    st1.(params_unsaved) = st.(params_unsaved) /\
    layer_map st1.(runtime_defaults)
    = (if is_firmware_default p v then delete p dm else if fits then <[p := v]> dm else dm).
Proof.
  intros Ht Hst Hp Hv Hro dm fits. unfold param_set_default_value. rewrite in_range by done. cbn [negb].
  rewrite Hro. cbn [mbind option_bind firmware_defaults_get].
  assert ((if param_type p =? PARAM_TYPE_INT32 then Const_get (map val parameters) p =? v
           else if param_type p =? PARAM_TYPE_FLOAT then differ_le_eps (Const_get (map val parameters) p) v
           else false) = is_firmware_default p v) as ->.
  { unfold is_firmware_default. by destruct (type_cases p Ht Hp) as [-> | ->]. }
  assert ((if (param_type p =? PARAM_TYPE_INT32) || (param_type p =? PARAM_TYPE_FLOAT) then v else 0) = v) as ->.
  { by destruct (type_cases p Ht Hp) as [-> | ->]. }
  assert (forall d, param_used (set_defaults st d) p = Some (bit 32 st.(params_active) p)) as Hused.
  { intros d. exact (param_used_ok st p Hst Hp). }
  unfold fits. destruct (is_firmware_default p v); cbn [orb].
  - destruct (layer_reset_spec (runtime_defaults st) p (pk_defaults _ Hst)) as (d & E & Hok & Hcap & Hmap).
    rewrite E. cbn [mbind option_bind]. rewrite Hused. cbn [mbind option_bind].
    exists (set_defaults st d). split; [done|]. split; [|by repeat split].
    destruct Hst; split; try done. simpl. rewrite Hmap. by apply map_Forall_delete.
  - destruct (layer_store_spec (runtime_defaults st) p v (pk_defaults _ Hst) Hp) as (d & E & Hok & Hcap & Hmap).
    fold dm in E, Hmap. rewrite E. cbn [mbind option_bind]. rewrite Hused. cbn [mbind option_bind].
    exists (set_defaults st d). split; [by destruct (map_fits _ _ _)|]. split; [|by repeat split].
    destruct Hst; split; try done. simpl. rewrite Hmap. case_if; [by apply map_Forall_insert_2|done].
Qed.

Lemma reset_internal_ok st p notify autosave :
  params_ok st -> 0 <= p < param_info_count -> param_is_readonly st p = false ->
  let found := bool_decide (is_Some (layer_map st.(user_config) !! p)) in
  exists st1, param_reset_internal st p notify autosave = Some (b2z found, finish autosave (found && notify) st1) /\
    params_ok st1 /\ same_rest st st1 /\ st1.(runtime_defaults) = st.(runtime_defaults) /\
    st1.(params_unsaved) = st.(params_unsaved) /\
    layer_map st1.(user_config) = delete p (layer_map st.(user_config)).
Proof.
  intros Hst Hp Hro found. unfold param_reset_internal. rewrite Hro, layer_contains_spec by apply Hst.
  cbn [mbind option_bind]. rewrite in_range by done.
  destruct (layer_reset_spec (user_config st) p (pk_user _ Hst)) as (u & E & Hok & Hcap & Hmap).
  rewrite E. cbn [mbind option_bind]. exists (set_user st u). split; [done|]. split; [|by repeat split].
  destruct Hst; split; try done. simpl. rewrite Hmap. by apply map_Forall_delete.
Qed.

Definition readonly (locked : bool) (p : Z) : bool :=
  locked && (p <? param_info_count) && existsb (fun q => p =? q) parameters_readonly.

Lemma is_readonly_eq st p : param_is_readonly st p = readonly st.(params_locked) p.
Proof. unfold param_is_readonly, readonly, handle_in_range. by destruct (params_locked st), (p <? param_info_count). Qed.

(** What a loop that resets some parameters leaves. *)
Definition reset_where (sel : Z -> bool) (um : gmap Z Z) (ps : list Z) : gmap Z Z :=
  foldl (fun um p => if sel p then delete p um else um) um ps.

Lemma reset_where_lookup sel ps : forall um q,
  reset_where sel um ps !! q = if sel q && bool_decide (q ∈ ps) then None else um !! q.
Proof.
  induction ps as [|p ps IH]; intros um q; cbn [reset_where foldl].
  - rewrite bool_decide_false by set_solver. by rewrite andb_false_r.
  - unfold reset_where in IH. rewrite IH. destruct (decide (q = p)) as [->|Hne].
    + rewrite (bool_decide_true (p ∈ p :: ps)) by set_solver. rewrite andb_true_r.
      destruct (sel p) eqn:Hs; simpl; [|done]. case_if; [done|]. by rewrite lookup_delete_eq.
    + assert (bool_decide (q ∈ p :: ps) = bool_decide (q ∈ ps)) as -> by (apply bool_decide_ext; set_solver).
      case_if; [done|]. case_if; [by rewrite lookup_delete_ne|done].
Qed.

Lemma for_params_reset (sel : bool -> Z -> bool) (f : params L -> Z -> option (params L)) ps : forall st,
  (forall st p, params_ok st -> 0 <= p < param_info_count -> exists st', f st p = Some st' /\
    params_ok st' /\ same_rest st st' /\ st'.(runtime_defaults) = st.(runtime_defaults) /\
    st'.(params_unsaved) = st.(params_unsaved) /\
    layer_map st'.(user_config) = (if sel st.(params_locked) p then delete p (layer_map st.(user_config))
                                   else layer_map st.(user_config))) ->
  params_ok st -> Forall (fun p => 0 <= p < param_info_count) ps ->
  exists st', for_params f st ps = Some st' /\ params_ok st' /\ same_rest st st' /\
    st'.(runtime_defaults) = st.(runtime_defaults) /\ st'.(params_unsaved) = st.(params_unsaved) /\
    layer_map st'.(user_config) = reset_where (sel st.(params_locked)) (layer_map st.(user_config)) ps.
Proof.
  induction ps as [|p ps IH]; intros st Hf Hst Hps; cbn [for_params].
  - exists st. split; [done|]. split; [done|]. by repeat split.
  - apply Forall_cons in Hps as [Hp Hps]. destruct (Hf st p Hst Hp) as (st1 & E & Hst1 & Hr1 & Hd1 & Hu1 & Hm1).
    rewrite E. cbn [mbind option_bind]. destruct (IH st1 Hf Hst1 Hps) as (st2 & E2 & Hst2 & Hr2 & Hd2 & Hu2 & Hm2).
    exists st2. split; [done|]. split; [done|]. split; [by eapply same_rest_trans|]. split; [congruence|].
    split; [congruence|]. rewrite Hm2, (sr_locked _ _ Hr1), Hm1. done.
Qed.

Lemma all_params_range : Forall (fun p => 0 <= p < param_info_count) all_params.
Proof. apply Forall_forall. intros p Hp%elem_of_seqZ. lia. Qed.

(** One reset of a loop. *)
Lemma reset_step st p notify autosave :
  params_ok st -> 0 <= p < param_info_count -> exists r st',
    param_reset_internal st p notify autosave = Some (r, st') /\ params_ok st' /\ same_rest st st' /\
    st'.(runtime_defaults) = st.(runtime_defaults) /\ st'.(params_unsaved) = st.(params_unsaved) /\
    layer_map st'.(user_config) = (if negb (readonly st.(params_locked) p) then delete p (layer_map st.(user_config))
                                   else layer_map st.(user_config)).
Proof.
  intros Hst Hp. destruct (readonly (params_locked st) p) eqn:Hro; cbn [negb].
  - exists 0, st. unfold param_reset_internal. rewrite is_readonly_eq, Hro.
    split; [done|]. split; [done|]. by repeat split.
  - rewrite <- is_readonly_eq in Hro.
    destruct (reset_internal_ok st p notify autosave Hst Hp Hro) as (st1 & E & Hst1 & Hr & Hd & Hu & Hm).
    eexists _, _. split; [exact E|]. set (n := _ && notify).
    pose proof (same_layers_finish autosave n st1) as Hs. pose proof Hs as [Hr2 Hu2 Hd2 Hus2].
    split; [by eapply same_layers_ok|]. split; [by eapply same_rest_trans|]. rewrite Hd2, Hu2, Hus2. done.
Qed.

(** ** Runs of operations against two finite maps

    The abstract store has the custom defaults and the user's values. *)

Record layers := mkLayers { a_defaults : gmap Z Z; a_user : gmap Z Z; a_locked : bool }.

Inductive param_op :=
  | OpSet (p v : Z)
  | OpSetDefault (p v : Z)
  | OpReset (p : Z)
  | OpResetAll
  | OpLock
  | OpGet (p : Z)
  | OpGetDefault (p : Z)
  | OpIsDefault (p : Z).

Definition op_ok (o : param_op) : Prop :=
  match o with
  | OpSet p v | OpSetDefault p v => 0 <= p /\ value_ok v
  | OpReset p | OpGet p | OpGetDefault p | OpIsDefault p => 0 <= p
  | OpResetAll | OpLock => True
  end.

Definition param_step (st : params L) (o : param_op) : option (Z * option Z * params L) :=
  match o with
  | OpSet p v => '(r, st) ← param_set st p (Some v); Some (r, None, st)
  | OpSetDefault p v => '(r, st) ← param_set_default_value st p (Some v); Some (r, None, st)
  | OpReset p => '(r, st) ← param_reset st p; Some (r, None, st)
  | OpResetAll => st ← param_reset_all st; Some (0, None, st)
  | OpLock => Some (0, None, param_lock_readonly st)
  | OpGet p => '(r, x) ← param_get st p true; Some (r, x, st)
  | OpGetDefault p => '(r, x) ← param_get_default_value st p true; Some (r, x, st)
  | OpIsDefault p => b ← param_value_is_default st p; Some (b2z b, None, st)
  end.

Definition spec_is_default (a : layers) (p : Z) : bool :=
  match a.(a_user) !! p with
  | None => true
  | Some v =>
    if param_type p =? PARAM_TYPE_INT32 then v =? default_value a.(a_defaults) p
    else differ_lt_eps v (default_value a.(a_defaults) p)
  end.

Definition spec_step (dcap ucap : option Z) (a : layers) (o : param_op) : Z * option Z * layers :=
  let known p := p <? param_info_count in
  let writable p := known p && negb (readonly a.(a_locked) p) in
  match o with
  | OpSet p v =>
    if writable p && map_fits ucap a.(a_user) p
    then (PX4_OK, None, mkLayers a.(a_defaults) (<[p := v]> a.(a_user)) a.(a_locked))
    else (PX4_ERROR, None, a)
  | OpSetDefault p v =>
    if writable p && is_firmware_default p v
    then (PX4_OK, None, mkLayers (delete p a.(a_defaults)) a.(a_user) a.(a_locked))
    else if writable p && map_fits dcap a.(a_defaults) p
    then (PX4_OK, None, mkLayers (<[p := v]> a.(a_defaults)) a.(a_user) a.(a_locked))
    else (PX4_ERROR, None, a)
  | OpReset p =>
    if readonly a.(a_locked) p then (0, None, a)
    else (b2z (bool_decide (is_Some (a.(a_user) !! p))), None, mkLayers a.(a_defaults) (delete p a.(a_user)) a.(a_locked))
  | OpResetAll =>
    (0, None, mkLayers a.(a_defaults) (filter (fun kv => readonly a.(a_locked) kv.1 = true) a.(a_user)) a.(a_locked))
  | OpLock => (0, None, mkLayers a.(a_defaults) a.(a_user) true)
  | OpGet p => (if known p then PX4_OK else PX4_ERROR,
                if known p then Some (current_value a.(a_defaults) a.(a_user) p) else None, a)
  | OpGetDefault p => (if known p then PX4_OK else PX4_ERROR,
                       if known p then Some (default_value a.(a_defaults) p) else None, a)
  | OpIsDefault p => (b2z (negb (known p) || spec_is_default a p), None, a)
  end.

Fixpoint param_run (st : params L) (os : list param_op) : option (list (Z * option Z) * params L) :=
  match os with
  | [] => Some ([], st)
  | o :: os => '(r, x, st) ← param_step st o; '(rs, st) ← param_run st os; Some ((r, x) :: rs, st)
  end.

Fixpoint spec_run (dcap ucap : option Z) (a : layers) (os : list param_op) : list (Z * option Z) * layers :=
  match os with
  | [] => ([], a)
  | o :: os =>
    let '(r, x, a) := spec_step dcap ucap a o in
    let '(rs, a) := spec_run dcap ucap a os in ((r, x) :: rs, a)
  end.

(** The abstract store of a store. *)
Definition layers_of (st : params L) : layers :=
  mkLayers (layer_map st.(runtime_defaults)) (layer_map st.(user_config)) st.(params_locked).

Definition same_caps (st st' : params L) : Prop :=
  layer_cap st'.(runtime_defaults) = layer_cap st.(runtime_defaults) /\
  layer_cap st'.(user_config) = layer_cap st.(user_config).

Definition step_refines (st : params L) (o : param_op) : Prop :=
  let spec := spec_step (layer_cap st.(runtime_defaults)) (layer_cap st.(user_config)) (layers_of st) o in
  exists st', param_step st o = Some (spec.1, st') /\ params_ok st' /\ layers_of st' = spec.2 /\ same_caps st st'.

Lemma out_of_range p : param_info_count <= p -> handle_in_range p = false.
Proof. unfold handle_in_range. lia. Qed.

Lemma same_rest_caps st st' : same_rest st st' -> same_caps st st'.
Proof. by intros []. Qed.

(** After the layers changed, autosave and notification do not matter. *)
Lemma finish_refines st st1 a n :
  params_ok st1 -> same_rest st st1 ->
  params_ok (finish a n st1) /\ same_caps st (finish a n st1) /\ layers_of (finish a n st1) = layers_of st1.
Proof.
  intros Hst1 Hr. pose proof (same_layers_finish a n st1) as Hs. pose proof Hs as [Hr2 Hu Hd Hus].
  split; [by eapply same_layers_ok|]. split; [by eapply same_rest_caps, same_rest_trans|].
  unfold layers_of. by rewrite Hd, Hus, (sr_locked _ _ Hr2).
Qed.

(** The final state of an operation. *)
Ltac exists_finish := match goal with |- context [finish ?a ?n ?st] => exists (finish a n st) end.

Lemma step_set st p v : table_ok -> params_ok st -> 0 <= p -> value_ok v -> step_refines st (OpSet p v).
Proof.
  intros Ht Hst Hp Hv. unfold step_refines. cbn [param_step spec_step layers_of a_locked a_user a_defaults]. unfold param_set.
  destruct (Z.lt_ge_cases p param_info_count) as [Hlt|Hge].
  2:{ unfold param_set_internal. rewrite out_of_range, (proj2 (Z.ltb_ge _ _)) by lia. by exists st. }
  rewrite (proj2 (Z.ltb_lt _ _)) by lia. cbn [andb].
  destruct (readonly (params_locked st) p) eqn:Hro; cbn [negb andb].
  { unfold param_set_internal. rewrite in_range, is_readonly_eq, Hro by lia. by exists st. }
  rewrite <- is_readonly_eq in Hro.
  destruct (set_internal_ok st p v false true Ht Hst ltac:(lia) Hv Hro) as (st1 & E & Hst1 & Hr & Hd & _ & _ & _ & Hm & _).
  rewrite E. cbn [mbind option_bind]. pose proof (fun a n => finish_refines st st1 a n Hst1 Hr) as Hfin.
  exists_finish. split; [by destruct (map_fits _ _ _)|]. split; [apply Hfin|]. split; [|apply Hfin].
  rewrite (proj2 (proj2 (Hfin _ _))). unfold layers_of. rewrite Hd, Hm, (sr_locked _ _ Hr). by destruct (map_fits _ _ _).
Qed.

Lemma step_set_default st p v : table_ok -> params_ok st -> 0 <= p -> value_ok v -> step_refines st (OpSetDefault p v).
Proof.
  intros Ht Hst Hp Hv. unfold step_refines. cbn [param_step spec_step layers_of a_locked a_user a_defaults].
  destruct (Z.lt_ge_cases p param_info_count) as [Hlt|Hge].
  2:{ unfold param_set_default_value. rewrite out_of_range, (proj2 (Z.ltb_ge _ _)) by lia. by exists st. }
  rewrite (proj2 (Z.ltb_lt _ _)) by lia. cbn [andb].
  destruct (readonly (params_locked st) p) eqn:Hro; cbn [negb andb].
  { unfold param_set_default_value. rewrite in_range, is_readonly_eq, Hro by lia. by exists st. }
  rewrite <- is_readonly_eq in Hro.
  destruct (set_default_ok st p v Ht Hst ltac:(lia) Hv Hro) as (st1 & E & Hst1 & Hr & Hus & _ & Hm).
  rewrite E. cbn [mbind option_bind]. pose proof (fun a n => finish_refines st st1 a n Hst1 Hr) as Hfin.
  exists_finish. split; [|split; [apply Hfin|split; [|apply Hfin]]].
  - by destruct (is_firmware_default p v), (map_fits _ _ _).
  - rewrite (proj2 (proj2 (Hfin _ _))). unfold layers_of. rewrite Hus, Hm, (sr_locked _ _ Hr).
    by destruct (is_firmware_default p v), (map_fits _ _ _).
Qed.

Lemma user_lookup_range st p : params_ok st -> param_info_count <= p -> layer_map st.(user_config) !! p = None.
Proof.
  intros Hst Hp. destruct (_ !! p) as [v|] eqn:Hv; [|done]. pose proof (pk_uvals _ Hst p v Hv) as [? ?]. lia.
Qed.

Lemma step_reset st p : params_ok st -> 0 <= p -> step_refines st (OpReset p).
Proof.
  intros Hst Hp. unfold step_refines. cbn [param_step spec_step layers_of a_locked a_user a_defaults]. unfold param_reset.
  destruct (Z.lt_ge_cases p param_info_count) as [Hlt|Hge].
  - destruct (readonly (params_locked st) p) eqn:Hro.
    { unfold param_reset_internal. rewrite is_readonly_eq, Hro. by exists st. }
    rewrite <- is_readonly_eq in Hro.
    destruct (reset_internal_ok st p true true Hst ltac:(lia) Hro) as (st1 & E & Hst1 & Hr & Hd & _ & Hm).
    rewrite E. cbn [mbind option_bind]. pose proof (fun a n => finish_refines st st1 a n Hst1 Hr) as Hfin.
    exists_finish. split; [done|]. split; [apply Hfin|]. split; [|apply Hfin].
    rewrite (proj2 (proj2 (Hfin _ _))). unfold layers_of. by rewrite Hd, Hm, (sr_locked _ _ Hr).
  - assert (readonly (params_locked st) p = false) as Hro.
    { unfold readonly. rewrite (proj2 (Z.ltb_ge _ _)), andb_false_r by lia. done. }
    unfold param_reset_internal. rewrite is_readonly_eq, Hro, layer_contains_spec, out_of_range by (done || apply Hst).
    rewrite user_lookup_range by done. cbn [mbind option_bind].
    destruct (finish_refines st st true false Hst) as (Hok & Hc & El); [by split|].
    exists (finish true false st). split; [done|]. split; [done|]. split; [|done].
    rewrite El. unfold layers_of. by rewrite (delete_id (layer_map (user_config st))) by (by apply user_lookup_range).
Qed.

Lemma reset_all_ok st save : params_ok st ->
  exists st', param_reset_all_internal st save = Some st' /\ params_ok st' /\ same_rest st st' /\
    st'.(runtime_defaults) = st.(runtime_defaults) /\
    layer_map st'.(user_config) = filter (fun kv => readonly st.(params_locked) kv.1 = true) (layer_map st.(user_config)).
Proof.
  intros Hst. unfold param_reset_all_internal.
  destruct (for_params_reset (fun locked p => negb (readonly locked p))
    (fun st p => '(_, st) ← param_reset_internal st p false false; Some st) all_params st)
    as (st1 & E & Hst1 & Hr1 & Hd1 & Hu1 & Hm1); [|done|apply all_params_range|].
  { intros st0 p Hst0 Hp. destruct (reset_step st0 p false false Hst0 Hp) as (r & st' & E & H1). rewrite E. by exists st'. }
  rewrite E. cbn [mbind option_bind]. pose proof (same_layers_finish save true st1) as Hs.
  exists (finish save true st1). split; [done|]. pose proof Hs as [Hr2 Hu2 Hd2 Hus2].
  split; [by eapply same_layers_ok|]. split; [by eapply same_rest_trans|]. split; [congruence|].
  rewrite Hus2, Hm1. apply map_eq. intros p. rewrite reset_where_lookup.
  destruct (layer_map (user_config st) !! p) as [v|] eqn:Hv.
  - pose proof (pk_uvals _ Hst p v Hv) as [Hp _].
    rewrite (bool_decide_true (p ∈ all_params)) by (apply elem_of_seqZ; lia). rewrite andb_true_r.
    destruct (readonly (params_locked st) p) eqn:Hro; simpl; symmetry.
    + by apply map_lookup_filter_Some.
    + apply map_lookup_filter_None. right. intros x _. simpl. congruence.
  - rewrite (proj2 (map_lookup_filter_None _ _ _)) by (by left). by case_if.
Qed.

Lemma step_reads st o : table_ok -> params_ok st -> op_ok o ->
  match o with OpGet _ | OpGetDefault _ | OpIsDefault _ => True | _ => False end -> step_refines st o.
Proof.
  intros Ht Hst Ho Hread. unfold step_refines. destruct o as [| | | | |p|p|p]; try done;
    cbn [op_ok] in Ho; cbn [param_step spec_step layers_of a_locked a_user a_defaults fst snd].
  all: exists st; split; [|by split].
  all: destruct (Z.lt_ge_cases p param_info_count) as [Hlt|Hge].
  - unfold param_get. rewrite in_range, (proj2 (Z.ltb_lt _ _)), user_config_get_ok by (done || lia). cbn [negb mbind option_bind].
    by destruct (type_cases p Ht ltac:(lia)) as [-> | ->].
  - unfold param_get. by rewrite out_of_range, (proj2 (Z.ltb_ge _ _)) by lia.
  - unfold param_get_default_value, param_get_default_value_internal.
    rewrite in_range, (proj2 (Z.ltb_lt _ _)), runtime_defaults_get_ok by (done || lia). cbn [negb andb mbind option_bind].
    by destruct (type_cases p Ht ltac:(lia)) as [-> | ->].
  - unfold param_get_default_value. by rewrite out_of_range, (proj2 (Z.ltb_ge _ _)) by lia.
  - unfold param_value_is_default, spec_is_default. rewrite in_range, (proj2 (Z.ltb_lt _ _)), layer_contains_spec by (apply Hst || lia).
    cbn [negb orb layers_of a_user a_defaults mbind option_bind]. rewrite user_config_get_ok, runtime_defaults_get_ok by done.
    unfold current_value. destruct (layer_map (user_config st) !! p) as [v|]; cbn [default]; [|by rewrite bool_decide_false by (by intros [? ?])].
    rewrite bool_decide_true by eauto. cbn [negb mbind option_bind]. by destruct (type_cases p Ht ltac:(lia)) as [-> | ->].
  - unfold param_value_is_default. by rewrite out_of_range, (proj2 (Z.ltb_ge _ _)) by lia.
Qed.

Lemma param_step_refines st o : table_ok -> params_ok st -> op_ok o -> step_refines st o.
Proof.
  intros Ht Hst Ho. destruct o as [p v|p v|p| | |p|p|p]; try by apply step_reads.
  - destruct Ho. by apply step_set.
  - destruct Ho. by apply step_set_default.
  - by apply step_reset.
  - unfold step_refines. cbn [param_step spec_step layers_of a_locked a_user a_defaults]. unfold param_reset_all.
    destruct (reset_all_ok st true Hst) as (st' & E & Hst' & Hr & Hd & Hm). rewrite E. cbn [mbind option_bind].
    exists st'. split; [done|]. split; [done|]. split; [|by apply same_rest_caps].
    unfold layers_of. by rewrite Hd, Hm, (sr_locked _ _ Hr).
  - exists (param_lock_readonly st). split; [done|]. split; [by destruct Hst; split|by repeat split].
Qed.

Lemma param_run_refines os : forall st, table_ok -> params_ok st -> Forall op_ok os ->
  let spec := spec_run (layer_cap st.(runtime_defaults)) (layer_cap st.(user_config)) (layers_of st) os in
  exists st', param_run st os = Some (spec.1, st') /\ params_ok st' /\ layers_of st' = spec.2 /\ same_caps st st'.
Proof.
  induction os as [|o os IH]; intros st Ht Hst Hos; [by exists st|].
  apply Forall_cons in Hos as [Ho Hos]. cbn [param_run spec_run].
  destruct (param_step_refines st o Ht Hst Ho) as (st1 & E1 & Hst1 & El1 & Hc1). rewrite E1. cbn [mbind option_bind].
  destruct (spec_step _ _ (layers_of st) o) as [[r x] a1]. cbn [fst snd] in *.
  destruct (IH st1 Ht Hst1 Hos) as (st2 & E2 & Hst2 & El2 & Hc2). destruct Hc1 as [Hd1 Hu1]. rewrite Hd1, Hu1, El1 in *.
  rewrite E2. cbn [mbind option_bind]. destruct (spec_run _ _ a1 os) as [rs a2]. cbn [fst snd] in *.
  exists st2. split; [done|]. split; [done|]. split; [done|]. destruct Hc2. split; congruence.
Qed.

(** ** Read-only parameters *)

Lemma spec_step_readonly dcap ucap a o p :
  a.(a_locked) = true -> 0 <= p < param_info_count -> p ∈ parameters_readonly ->
  let a' := (spec_step dcap ucap a o).2 in
  a'.(a_locked) = true /\ a'.(a_defaults) !! p = a.(a_defaults) !! p /\ a'.(a_user) !! p = a.(a_user) !! p.
Proof.
  intros Hl Hp Hin. assert (readonly true p = true) as Hro.
  { unfold readonly. rewrite (proj2 (Z.ltb_lt _ _)) by lia. simpl. apply existsb_exists. exists p.
    split; [by apply list_elem_of_In|apply Z.eqb_refl]. }
  assert (forall q, readonly true q = false -> q <> p) as Hne by (intros q Hq ->; congruence).
  destruct o as [q v|q v|q| | |q|q|q]; cbn [spec_step]; rewrite ?Hl; try done.
  - destruct (readonly true q) eqn:Hq; rewrite ?andb_false_r; simpl; [done|].
    case_if; simpl; [|done]. by rewrite lookup_insert_ne by (by apply Hne).
  - destruct (readonly true q) eqn:Hq; rewrite ?andb_false_r; simpl; [done|].
    case_if; simpl; [by rewrite lookup_delete_ne by (by apply Hne)|].
    case_if; simpl; [by rewrite lookup_insert_ne by (by apply Hne)|done].
  - destruct (readonly true q) eqn:Hq; simpl; [done|]. by rewrite lookup_delete_ne by (by apply Hne).
  - simpl. split; [done|]. split; [done|]. destruct (a_user a !! p) as [v|] eqn:Hv.
    + by apply map_lookup_filter_Some.
    + apply map_lookup_filter_None. by left.
Qed.

Lemma spec_run_readonly dcap ucap os p : forall a,
  a.(a_locked) = true -> 0 <= p < param_info_count -> p ∈ parameters_readonly ->
  let a' := (spec_run dcap ucap a os).2 in
  a'.(a_defaults) !! p = a.(a_defaults) !! p /\ a'.(a_user) !! p = a.(a_user) !! p.
Proof.
  induction os as [|o os IH]; intros a Hl Hp Hin; [done|]. cbn [spec_run].
  pose proof (spec_step_readonly dcap ucap a o p Hl Hp Hin) as (Hl1 & Hd & Hu).
  destruct (spec_step dcap ucap a o) as [[r x] a1]. cbn [fst snd] in *. specialize (IH a1 Hl1 Hp Hin).
  destruct (spec_run dcap ucap a1 os) as [rs a2]. cbn [fst snd] in *. destruct IH. split; congruence.
Qed.

(** ** Used parameters *)

Definition used (st : params L) (p : Z) : bool := bit 32 st.(params_active) p.

Lemma active_get st p : params_ok st -> 0 <= p < param_info_count ->
  AtomicBitset_get st.(params_active) p = Some (used st p).
Proof. intros Hst Hp. exact (bitset_get_bit 32 ltac:(lia) _ _ _ (pk_active _ Hst) Hp). Qed.

Lemma u16_param p : table_ok -> 0 <= p < param_info_count -> u16 p = p.
Proof. intros [Hc _ _ _ _] Hp. unfold PARAM_INVALID in Hc. unfold uwrap. apply Z.mod_small. lia. Qed.

Lemma used_index_for_used st p : table_ok -> params_ok st -> forall idx c,
  Forall (fun p => 0 <= p < param_info_count) idx -> p ∈ idx -> used st p = true ->
  exists k, used_index_loop st p c idx = Some k /\ c <= k < c + zlen idx /\ for_used_loop st k c idx = Some p.
Proof.
  intros Ht Hst. induction idx as [|i idx IH]; intros c Hr Hin Hu; [by apply elem_of_nil in Hin|].
  apply Forall_cons in Hr as [Hi Hr]. cbn [used_index_loop for_used_loop]. rewrite active_get by done.
  cbn [mbind option_bind]. rewrite zlen_cons. pose proof (zlen_nonneg idx).
  destruct (used st i) eqn:Hui.
  - case_if.
    + subst i. exists c. split; [done|]. split; [lia|]. by rewrite Z.eqb_refl, u16_param.
    + destruct (IH (c + 1)) as (k & E & Hk & E2); [done|set_solver|done|]. exists k. split; [done|]. split; [lia|].
      by rewrite (proj2 (Z.eqb_neq _ _)) by lia.
  - destruct (IH c) as (k & E & Hk & E2); [done| |done|].
    + apply elem_of_cons in Hin as [->|Hin]; [congruence|done].
    + exists k. split; [done|]. split; [lia|done].
Qed.

Lemma for_used_used_index st k : table_ok -> params_ok st -> forall idx c,
  Forall (fun p => 0 <= p < param_info_count) idx -> NoDup idx -> c <= k ->
  exists p, for_used_loop st k c idx = Some p /\
    (p = PARAM_INVALID \/ (p ∈ idx /\ used st p = true /\ used_index_loop st p c idx = Some k)).
Proof.
  intros Ht Hst. induction idx as [|i idx IH]; intros c Hr Hnd Hk.
  { exists PARAM_INVALID. split; [done|by left]. }
  apply Forall_cons in Hr as [Hi Hr]. apply NoDup_cons in Hnd as [Hni Hnd].
  cbn [used_index_loop for_used_loop]. rewrite active_get by done. cbn [mbind option_bind].
  destruct (used st i) eqn:Hui.
  - case_if.
    + subst k. exists i. rewrite u16_param by done. split; [done|]. right. split; [set_solver|]. split; [done|].
      by rewrite Z.eqb_refl.
    + destruct (IH (c + 1)) as (p & E & Hp); [done|done|lia|]. exists p. split; [done|].
      destruct Hp as [->|(Hin & Hu & E2)]; [by left|]. right. split; [set_solver|]. split; [done|].
      rewrite (proj2 (Z.eqb_neq p i)); [done|]. intros ->. done.
  - destruct (IH c) as (p & E & Hp); [done|done|done|]. exists p. split; [done|].
    destruct Hp as [->|(Hin & Hu & E2)]; [by left|]. right. split; [set_solver|done].
Qed.

(** ** The hash *)

Definition hash_bytes (st : params L) (p : Z) : list Z :=
  if used st p && negb (param_is_volatile p) then
    default [] (param_name p) ++
    le_bytes 4 (current_value (layer_map st.(runtime_defaults)) (layer_map st.(user_config)) p)
  else [].

Lemma name_bytes_ok p : table_ok -> Forall byte_ok (default [] (param_name p)).
Proof.
  intros Ht. unfold param_name. case_if; [|constructor].
  destruct (zlookup parameters p) as [i|] eqn:Hi; [|constructor]. simpl.
  eapply Forall_impl; [by eapply table_name|]. intros c Hc. simpl in Hc. unfold byte_ok. lia.
Qed.

Lemma firmware_default_ok p : table_ok -> value_ok (firmware_default p).
Proof.
  intros Ht. unfold firmware_default, Const_get. destruct (zlookup (map val parameters) p) as [v|] eqn:Hv; [|by unfold value_ok].
  apply zlookup_elem, list_elem_of_fmap in Hv as (i & -> & Hi). pose proof (t_vals Ht) as Hvs.
  rewrite Forall_forall in Hvs. by apply Hvs.
Qed.

Lemma default_value_ok st p : table_ok -> params_ok st -> value_ok (default_value (layer_map st.(runtime_defaults)) p).
Proof.
  intros Ht Hst. unfold default_value. destruct (_ !! p) as [v|] eqn:Hv; [|by apply firmware_default_ok].
  by apply (pk_dvals _ Hst p v).
Qed.

Lemma current_value_ok st p : table_ok -> params_ok st ->
  value_ok (current_value (layer_map st.(runtime_defaults)) (layer_map st.(user_config)) p).
Proof.
  intros Ht Hst. unfold current_value. destruct (_ !! p) as [v|] eqn:Hv; [|by apply default_value_ok].
  by apply (pk_uvals _ Hst p v).
Qed.

Lemma hash_bytes_ok st p : table_ok -> Forall byte_ok (hash_bytes st p).
Proof.
  intros Ht. unfold hash_bytes. case_if; [|constructor]. apply Forall_app. split; [by apply name_bytes_ok|apply le_bytes_ok].
Qed.

Lemma param_size_ok p : table_ok -> 0 <= p < param_info_count -> param_size p = 4.
Proof.
  intros Ht Hp. unfold param_size. rewrite in_range by done. by destruct (type_cases p Ht Hp) as [-> | ->].
Qed.

(** One parameter's contribution. *)
Lemma hash_step st p h : table_ok -> params_ok st -> 0 <= p < param_info_count -> 0 <= h < 2 ^ 32 ->
  hash_param st h p = Some (crc32_signature h (hash_bytes st p)).
Proof.
  unfold hash_param.
  intros Ht Hst Hp Hh. rewrite param_used_ok by done. cbn [mbind option_bind]. fold (used st p). unfold hash_bytes.
  destruct (used st p); cbn [negb orb andb]; [|done]. destruct (param_is_volatile p); cbn [negb]; [done|].
  destruct (zlookup_lt parameters p Hp) as [i Hi]. rewrite (param_name_lookup _ _ Hi), user_config_get_ok, param_size_ok by done.
  cbn [mbind option_bind default]. pose proof (table_name _ _ Ht Hi) as Hn.
  assert (Forall byte_ok (name i)) as Hb.
  { eapply Forall_impl; [exact Hn|]. intros c Hc. simpl in Hc. unfold byte_ok. lia. }
  rewrite crc32part_eq by done. cbn [mbind option_bind]. rewrite take_ge by (by rewrite length_le_bytes).
  rewrite crc32part_eq by (apply le_bytes_ok || by apply crc32_signature_range).
  unfold crc32_signature. by rewrite foldl_app.
Qed.

Lemma hash_fold st ps : forall h, table_ok -> params_ok st -> Forall (fun p => 0 <= p < param_info_count) ps -> 0 <= h < 2 ^ 32 ->
  foldl (fun acc p => param_hash ← acc; hash_param st param_hash p) (Some h) ps
  = Some (crc32_signature h (concat (map (hash_bytes st) ps))).
Proof.
  induction ps as [|p ps IH]; intros h Ht Hst Hr Hh; [done|]. apply Forall_cons in Hr as [Hp Hr].
  cbn [foldl map concat mbind option_bind]. rewrite hash_step by done.
  rewrite IH by (done || (apply crc32_signature_range; [by apply hash_bytes_ok|done])).
  unfold crc32_signature. by rewrite foldl_app.
Qed.

Lemma hash_ok st : table_ok -> params_ok st ->
  param_hash_check st = Some (crc32_signature 0 (concat (map (hash_bytes st) all_params))).
Proof. intros Ht Hst. apply hash_fold; [done|done|apply all_params_range|lia]. Qed.

(** ** Patterns *)

(** A pattern selects its own name, or, if it ends in an asterisk, the names with that prefix. *)
Definition selects (nm pattern : list Z) : Prop :=
  pattern = nm \/ exists pre, pattern = pre ++ [42] /\ pre `prefix_of` nm.

Lemma strncmp_prefix nm pre : name_ok nm -> name_ok pre ->
  strncmp nm (pre ++ [42]) (zlen pre) = 0 <-> pre `prefix_of` nm.
Proof.
  intros Hn Hp. unfold strncmp, zlen. rewrite Nat2Z.id, take_app_length. split.
  - intros E. apply strcmp_eq in E; [|by apply Forall_take|done]. rewrite <- E. by apply prefix_take.
  - intros [suf ->]. by rewrite take_app_length, strcmp_refl.
Qed.

Lemma matches_ok nm pattern : name_ok nm -> name_ok pattern -> pattern <> [] ->
  exists b, matches nm pattern = Some b /\ (b = true <-> selects nm pattern).
Proof.
  intros Hn Hp Hne. destruct pattern as [|c pre _] using rev_ind; [done|].
  apply Forall_app in Hp as [Hpre Hc]. unfold matches. rewrite zlen_app. change (zlen [c]) with 1.
  replace (zlen pre + 1 - 1) with (zlen pre) by lia.
  assert (zlookup (pre ++ [c]) (zlen pre) = Some c) as ->.
  { unfold zlookup, zlen. case_if; [|lia]. rewrite Nat2Z.id. by rewrite lookup_app_r, Nat.sub_diag. }
  cbn [mbind option_bind]. eexists; split; [done|]. rewrite orb_true_iff, andb_true_iff, !Z.eqb_eq.
  assert (strcmp nm (pre ++ [c]) = 0 <-> pre ++ [c] = nm) as ->.
  { split; [|intros <-; apply strcmp_refl]. intros E. symmetry. apply strcmp_eq; [done|by apply Forall_app|done]. }
  unfold selects. split.
  - intros [[-> E]|E]; [right|by left]. exists pre. split; [done|]. by apply strncmp_prefix.
  - intros [E|(pre' & E & Hpre')]; [by right|]. apply app_inj_tail in E as [-> ->]. left. split; [done|].
    by apply strncmp_prefix.
Qed.

Lemma matches_any_ok nm patterns : name_ok nm -> Forall (fun pat => name_ok pat /\ pat <> []) patterns ->
  exists b, matches_any nm patterns = Some b /\ (b = true <-> Exists (selects nm) patterns).
Proof.
  intros Hn. induction patterns as [|pat patterns IH]; intros Hp; cbn [matches_any].
  - eexists; split; [done|]. by rewrite Exists_nil.
  - apply Forall_cons in Hp as [[Hpat Hne] Hp]. destruct (matches_ok nm pat Hn Hpat Hne) as (b & E & Hb).
    destruct (IH Hp) as (b2 & E2 & Hb2). rewrite E. cbn [mbind option_bind].
    destruct b; [exists true|exists b2]; (split; [done|]); rewrite Exists_cons; naive_solver.
Qed.

(** ** Fresh stores *)

Definition params_new (defaults user : L) (now : Z) : params L :=
  let zeros := replicate (Z.to_nat (ARRAY_SIZE 32 param_info_count)) 0 in
  mkParams zeros zeros defaults user false 0 [] (Some ParamAutosave_new) now.

Lemma params_new_ok defaults user now : table_ok ->
  layer_ok defaults -> layer_map defaults = ∅ -> layer_ok user -> layer_map user = ∅ ->
  params_ok (params_new defaults user now).
Proof.
  intros Ht Hd Ed Hu Eu. pose proof (t_count Ht). split; simpl; try done.
  - apply zeros_wf. lia.
  - apply zeros_wf. lia.
  - rewrite Ed. apply map_Forall_empty.
  - rewrite Eu. apply map_Forall_empty.
Qed.

(** ** Properties *)

(** C31: the parameter store refines two finite maps. Every run of [param_set],
    [param_set_default_value], [param_reset], [param_reset_all], [param_lock_readonly] and the
    getters returns the results of the same run on the maps of custom defaults and of the user's
    values: the user's value hides the custom default, which hides the firmware's; setting a
    default to the firmware's value removes it; only unknown, locked or unstorable parameters
    are refused. *)
Theorem param_store_refines_layers st os :
  table_ok -> params_ok st -> Forall op_ok os ->
  exists st', param_run st os
      = Some ((spec_run (layer_cap st.(runtime_defaults)) (layer_cap st.(user_config)) (layers_of st) os).1, st') /\
    params_ok st' /\
    layers_of st' = (spec_run (layer_cap st.(runtime_defaults)) (layer_cap st.(user_config)) (layers_of st) os).2.
Proof.
  intros Ht Hst Hos. destruct (param_run_refines os st Ht Hst Hos) as (st' & E & Hst' & El & _). by exists st'.
Qed.

(** Read-only parameters. Once [param_lock_readonly] was called, no sequence of operations
    on the store changes the value or the default of a read-only parameter. *)
Theorem readonly_params_immutable st os p :
  table_ok -> params_ok st -> Forall op_ok os -> st.(params_locked) = true ->
  0 <= p < param_info_count -> p ∈ parameters_readonly ->
  exists rs st', param_run st os = Some (rs, st') /\
    user_config_get st' p = user_config_get st p /\ runtime_defaults_get st' p = runtime_defaults_get st p.
Proof.
  intros Ht Hst Hos Hl Hp Hin. destruct (param_run_refines os st Ht Hst Hos) as (st' & E & Hst' & El & _).
  eexists _, st'. split; [exact E|].
  pose proof (spec_run_readonly (layer_cap (runtime_defaults st)) (layer_cap (user_config st)) os p (layers_of st) Hl Hp Hin)
    as [Hd Hu]. rewrite <- El in Hd, Hu. unfold layers_of in Hd, Hu. cbn [a_defaults a_user] in Hd, Hu.
  rewrite !user_config_get_ok, !runtime_defaults_get_ok by done. unfold current_value, default_value. by rewrite Hd, Hu.
Qed.

Lemma param_find_ok st nm :
  table_ok -> params_ok st -> name_ok nm ->
  exists p st', param_find st nm = Some (p, st') /\ param_find_no_notification st nm = Some p /\
    params_ok st' /\ layers_of st' = layers_of st /\ same_caps st st' /\
    ((0 <= p < param_info_count /\ param_name p = Some nm /\
      forall q, 0 <= q < param_info_count -> used st' q = (q =? p) || used st q) \/
     (p = PARAM_INVALID /\ st' = st /\ forall q, param_name q <> Some nm)).
Proof.
  intros Ht Hst Hn. destruct (find_loop_table Ht nm Hn) as (p & E & Hp).
  unfold param_find, param_find_no_notification, param_find_internal. rewrite E. cbn [mbind option_bind].
  rewrite !andb_false_r, andb_true_r. pose proof (t_count Ht). destruct Hp as [[Hr Hpn]|[-> Hno]].
  - rewrite (proj2 (Z.eqb_neq p PARAM_INVALID)) by lia. cbn [negb]. unfold param_set_used. rewrite in_range by done.
    destruct (bitset_set_ok 32 ltac:(lia) _ _ p true (pk_active _ Hst) Hr) as (a & E2 & Hw & Hb).
    unfold AtomicBitset_set. rewrite E2. cbn [mbind option_bind]. exists p, (set_active st a).
    split; [done|]. split; [done|]. split; [by destruct Hst; split|]. split; [done|]. split; [done|]. left. split; [done|].
    split; [done|]. intros q Hq. unfold used. simpl. rewrite Hb by done. by case_if.
  - exists PARAM_INVALID, st. split; [done|]. split; [done|]. split; [done|]. split; [done|]. split; [done|]. by right.
Qed.

Lemma param_name_inj p q nm : table_ok -> 0 <= p -> 0 <= q ->
  param_name p = Some nm -> param_name q = Some nm -> p = q.
Proof.
  intros Ht Hp Hq Ep Eq. unfold param_name in *. case_if_in Ep; [|done]. case_if_in Eq; [|done].
  destruct (zlookup parameters p) as [a|] eqn:Ha; simplify_eq/=. destruct (zlookup parameters q) as [b|] eqn:Hb; simplify_eq/=.
  destruct (Z.lt_trichotomy p q) as [Hlt|[?|Hlt]]; [|done|].
  - pose proof (t_sorted Ht p q a b Ha Hb Hlt) as Hc. rewrite Eq, strcmp_refl in Hc. lia.
  - pose proof (t_sorted Ht q p b a Hb Ha Hlt) as Hc. rewrite Eq, strcmp_refl in Hc. lia.
Qed.

(** [param_find] is sound and complete. Its binary search ends, stays inside the table,
    returns the handle of the parameter with the given name if there is one and PARAM_INVALID
    otherwise, and marks exactly the found parameter as used. *)
Theorem param_find_correct st nm :
  table_ok -> params_ok st -> name_ok nm ->
  exists p st', param_find st nm = Some (p, st') /\ param_find_no_notification st nm = Some p /\
    params_ok st' /\ layers_of st' = layers_of st /\
    ((0 <= p < param_info_count /\ param_name p = Some nm /\
      forall q, 0 <= q < param_info_count -> used st' q = (q =? p) || used st q) \/
     (p = PARAM_INVALID /\ st' = st /\ forall q, param_name q <> Some nm)).
Proof.
  intros Ht Hst Hn. destruct (param_find_ok st nm Ht Hst Hn) as (p & st' & ? & ? & ? & ? & _ & ?). by exists p, st'.
Qed.

(** what [param_set] reports. Where the value can be stored, [param_set] returns PX4_OK and
    [param_get] gives the new value; the parameter counts as unsaved, an autosave is requested
    and exactly one update, with the new number of user values, is published if the value
    changed (for floats by more than FLT_EPSILON), and none of this happens otherwise. All other
    values and flags stay. *)
Theorem param_set_reports_changes st p v :
  table_ok -> params_ok st -> 0 <= p < param_info_count -> value_ok v -> param_is_readonly st p = false ->
  map_fits (layer_cap st.(user_config)) (layer_map st.(user_config)) p = true ->
  let old := current_value (layer_map st.(runtime_defaults)) (layer_map st.(user_config)) p in
  let changed := value_changed p old v in
  exists st', param_set st p (Some v) = Some (PX4_OK, st') /\ param_get st' p true = Some (PX4_OK, Some v) /\
    param_value_unsaved st' p = Some changed /\
    st'.(autosave_instance) = (if changed then autosave_request st.(p_now) <$> st.(autosave_instance) else st.(autosave_instance)) /\
    st'.(p_topic) = st.(p_topic) ++
      (if changed then [mkUpdate st.(param_instance) (param_count_used st) (layer_size st'.(user_config))
                          (layer_size st.(runtime_defaults)) st.(p_now)] else []) /\
    forall q, 0 <= q < param_info_count -> q <> p ->
      user_config_get st' q = user_config_get st q /\ param_value_unsaved st' q = param_value_unsaved st q.
Proof.
  intros Ht Hst Hp Hv Hro Hfits old changed.
  destruct (set_internal_ok st p v false true Ht Hst Hp Hv Hro) as (st1 & E & Hst1 & Hr & Hd & Ha & Htop & Hin & Hm & Hb).
  fold old changed in E, Hb. rewrite Hfits in E, Hm, Hb. cbn [andb negb] in E, Hm, Hb. rewrite andb_true_r in E.
  unfold param_set. rewrite E. exists (finish changed changed st1). split; [done|].
  pose proof (same_layers_finish changed changed st1) as Hs. pose proof (same_layers_ok _ _ Hs Hst1) as Hst2.
  destruct Hs as [Hr2 Hu2 Hd2 Hus2].
  assert (forall q, 0 <= q < param_info_count -> param_value_unsaved (finish changed changed st1) q
                    = Some (if q =? p then changed else bit 32 (params_unsaved st) q)) as Huns.
  { intros q Hq. unfold param_value_unsaved. rewrite in_range, Hu2 by done. rewrite <- Hb by done.
    exact (bitset_get_bit 32 ltac:(lia) _ _ _ (pk_unsaved _ Hst1) Hq). }
  split; [|split; [|split; [|split]]].
  - unfold param_get. rewrite in_range, user_config_get_ok, Hus2, Hm by done. cbn [negb mbind option_bind].
    unfold current_value. rewrite lookup_insert_eq. by destruct (type_cases p Ht Hp) as [-> | ->].
  - by rewrite Huns, Z.eqb_refl.
  - unfold finish. destruct changed; simpl; [|done]. unfold param_autosave. rewrite Ha, (sr_now _ _ Hr).
    by destruct (autosave_instance st).
  - destruct changed; [|by rewrite app_nil_r]. unfold finish, param_notify_changes.
    assert (p_topic (param_autosave st1) = p_topic st /\ param_instance (param_autosave st1) = param_instance st) as [E3 E4].
    { unfold param_autosave. by destruct (autosave_instance st1). }
    pose proof (same_layers_autosave st1) as [Hr3 _ Hd3 Hus3]. cbn [p_topic user_config]. unfold param_count_used.
    by rewrite E3, E4, Hd3, Hd, (sr_active _ _ Hr3), (sr_active _ _ Hr), (sr_now _ _ Hr3), (sr_now _ _ Hr).
  - intros q Hq Hne. rewrite !user_config_get_ok, Hus2, Hd2, Hm, Hd by done. unfold current_value.
    rewrite lookup_insert_ne by done. split; [done|]. rewrite Huns by done. rewrite (proj2 (Z.eqb_neq q p)) by done.
    unfold param_value_unsaved. rewrite in_range by done. symmetry.
    exact (bitset_get_bit 32 ltac:(lia) _ _ _ (pk_unsaved _ Hst) Hq).
Qed.

(** Numbering of the used parameters. [param_get_used_index] and [param_for_used_index] are
    inverse to each other: a used parameter has an index, from which it is found again, and the
    parameter found for an index is used and has that index. *)
Theorem used_index_roundtrip st p k :
  table_ok -> params_ok st -> 0 <= p < param_info_count -> 0 <= k < param_info_count ->
  (used st p = true -> exists i, param_get_used_index st p = Some i /\ 0 <= i /\ param_for_used_index st i = Some p) /\
  (exists q, param_for_used_index st k = Some q /\
    (q = PARAM_INVALID \/
     (0 <= q < param_info_count /\ param_used st q = Some true /\ param_get_used_index st q = Some k))).
Proof.
  intros Ht Hst Hp Hk. assert (forall q, 0 <= q < param_info_count -> q ∈ seqZ 0 param_info_count) as Hall.
  { intros q Hq. apply elem_of_seqZ. lia. }
  assert (zlen (seqZ 0 param_info_count) = param_info_count) as Hz by (unfold zlen; rewrite length_seqZ; lia).
  split.
  - intros Hu. destruct (used_index_for_used st p Ht Hst _ 0 all_params_range (Hall p Hp) Hu) as (i & E & Hi & E2).
    unfold all_params in Hi. rewrite Hz in Hi. exists i. unfold param_get_used_index, param_for_used_index.
    rewrite param_used_ok by done. fold (used st p). rewrite Hu, (proj2 (Z.ltb_lt i _)) by lia.
    split; [done|]. by split; [lia|].
  - destruct (for_used_used_index st k Ht Hst _ 0 all_params_range (NoDup_seqZ _ _) ltac:(lia)) as (q & E & Hq).
    exists q. unfold param_for_used_index. rewrite (proj2 (Z.ltb_lt k _)) by lia. split; [done|].
    destruct Hq as [->|(Hin & Hu & E2)]; [by left|right]. apply elem_of_seqZ in Hin.
    assert (0 <= q < param_info_count) as Hq by lia. split; [done|].
    unfold param_get_used_index. rewrite param_used_ok by done. fold (used st q). by rewrite Hu.
Qed.

Lemma param_set_layers st p v st' :
  table_ok -> params_ok st -> 0 <= p < param_info_count -> value_ok v -> param_set st p (Some v) = Some (PX4_OK, st') ->
  params_ok st' /\ st'.(runtime_defaults) = st.(runtime_defaults) /\ st'.(params_active) = st.(params_active) /\
  layer_map st'.(user_config) = <[p := v]> (layer_map st.(user_config)).
Proof.
  intros Ht Hst Hp Hv Hset. unfold param_set in Hset. destruct (param_is_readonly st p) eqn:Hro.
  { unfold param_set_internal in Hset. by rewrite in_range, Hro in Hset. }
  destruct (set_internal_ok st p v false true Ht Hst Hp Hv Hro) as (st1 & E & Hst1 & Hr & Hd & _ & _ & _ & Hm & _).
  rewrite E in Hset. destruct (map_fits _ _ p); [|done]. injection Hset as <-.
  match goal with |- context [finish ?a ?n st1] => pose proof (same_layers_finish a n st1) as Hs end.
  pose proof (same_layers_ok _ _ Hs Hst1). destruct Hs as [Hr2 _ Hd2 Hus2]. split; [done|].
  rewrite Hd2, Hus2, (sr_active _ _ Hr2), (sr_active _ _ Hr). done.
Qed.

Lemma all_params_split p : 0 <= p < param_info_count ->
  all_params = seqZ 0 p ++ p :: seqZ (p + 1) (param_info_count - p - 1).
Proof.
  intros Hp. unfold all_params. replace param_info_count with (p + (param_info_count - p)) at 1 by lia.
  rewrite seqZ_app by lia. f_equal. rewrite Z.add_0_l, seqZ_cons by lia. do 2 f_equal; lia.
Qed.

(** the parameter hash. After a successful [param_set] that gives a used parameter which is
    not volatile another value, [param_hash_check] returns another hash: a change of a single
    parameter is never missed. *)
Theorem param_hash_detects_change st p v st' :
  table_ok -> params_ok st -> 0 <= p < param_info_count -> value_ok v ->
  used st p = true -> param_is_volatile p = false -> user_config_get st p <> Some v ->
  param_set st p (Some v) = Some (PX4_OK, st') ->
  exists h h', param_hash_check st = Some h /\ param_hash_check st' = Some h' /\ h <> h'.
Proof.
  intros Ht Hst Hp Hv Hu Hvol Hne Hset.
  destruct (param_set_layers st p v st' Ht Hst Hp Hv Hset) as (Hst' & Hd & Ha & Hm).
  rewrite user_config_get_ok in Hne by done. set (old := current_value _ _ p) in Hne.
  rewrite !hash_ok by done. do 2 eexists. split; [done|]. split; [done|]. intros E.
  assert (forall q, q <> p -> hash_bytes st' q = hash_bytes st q) as Hsame.
  { intros q Hq. unfold hash_bytes, used, current_value. rewrite Ha, Hd, Hm. by rewrite lookup_insert_ne. }
  assert (forall ps, p ∉ ps -> map (hash_bytes st') ps = map (hash_bytes st) ps) as Hmap.
  { intros ps Hps. apply map_ext_in. intros q Hq%list_elem_of_In. apply Hsame. by intros ->. }
  rewrite (all_params_split p Hp), !map_app, !concat_app in E. cbn [map concat] in E.
  rewrite !(Hmap _) in E by (rewrite elem_of_seqZ; lia).
  unfold hash_bytes at 2 5, used in E. rewrite Ha in E. fold (used st p) in E. rewrite Hu, Hvol in E. cbn [negb andb] in E.
  rewrite Hd, Hm in E. unfold current_value at 2 in E. rewrite lookup_insert_eq in E. cbn [default] in E. fold old in E.
  rewrite <- !app_assoc in E. rewrite !(app_assoc (concat _) (default [] (param_name p))) in E.
  apply crc32_burst in E; [|lia| |apply le_bytes_ok|by rewrite !length_le_bytes|by rewrite zlen_le_bytes].
  - apply Hne. f_equal. apply (f_equal le_value) in E. rewrite !le_value_le_bytes in E. unfold uwrap in E.
    pose proof (current_value_ok st p Ht Hst) as Ho. fold old in Ho. unfold value_ok in *. cbn [id] in E.
    rewrite !Z.mod_small in E; [done|exact Hv|exact Ho].
  - rewrite !Forall_app. split_and!; try apply le_bytes_ok; try apply name_bytes_ok; try done;
      apply Forall_concat, Forall_map, Forall_true; intros q; by apply hash_bytes_ok.
Qed.

Lemma reset_loop_ok st patterns (keep : bool) :
  table_ok -> params_ok st -> Forall (fun pat => name_ok pat /\ pat <> []) patterns ->
  let sel nm := default false (matches_any nm patterns) in
  exists st', for_params (fun st p =>
      nm ← param_name p;
      b ← matches_any nm patterns;
      if xorb keep b then '(_, st) ← param_reset st p; Some st else Some st) st all_params = Some st' /\
    params_ok st' /\ st'.(runtime_defaults) = st.(runtime_defaults) /\
    layer_map st'.(user_config)
    = reset_where (fun p => xorb keep (sel (default [] (param_name p))) && negb (readonly st.(params_locked) p))
        (layer_map st.(user_config)) all_params.
Proof.
  intros Ht Hst Hpat sel.
  destruct (for_params_reset (fun locked p => xorb keep (sel (default [] (param_name p))) && negb (readonly locked p))
    (fun st p => nm ← param_name p; b ← matches_any nm patterns;
       if xorb keep b then '(_, st) ← param_reset st p; Some st else Some st) all_params st)
    as (st1 & E & Hst1 & Hr1 & Hd1 & Hu1 & Hm1); [|done|apply all_params_range|by exists st1].
  intros st0 p Hst0 Hp. destruct (zlookup_lt parameters p Hp) as [i Hi]. rewrite (param_name_lookup _ _ Hi).
  cbn [mbind option_bind default id]. destruct (matches_any_ok (name i) patterns (table_name _ _ Ht Hi) Hpat) as (b & Eb & _).
  unfold sel. rewrite Eb. cbn [mbind option_bind default id]. destruct (xorb keep b); cbn [andb].
  - destruct (reset_step st0 p true true Hst0 Hp) as (r & st' & E & H1). unfold param_reset. rewrite E. by exists st'.
  - exists st0. split; [done|]. split; [done|]. by repeat split.
Qed.

(** Selective resets. With patterns that are names or prefixes followed by an asterisk,
    [param_reset_specific] removes the user's values of exactly the selected parameters and
    [param_reset_excludes] those of exactly the others, read-only parameters excepted; custom
    defaults stay. *)
Theorem selective_resets st patterns :
  table_ok -> params_ok st -> Forall (fun pat => name_ok pat /\ pat <> []) patterns ->
  exists st1 st2, param_reset_specific st patterns = Some st1 /\ param_reset_excludes st patterns = Some st2 /\
    st1.(runtime_defaults) = st.(runtime_defaults) /\ st2.(runtime_defaults) = st.(runtime_defaults) /\
    forall p nm, param_name p = Some nm -> 0 <= p -> readonly st.(params_locked) p = false ->
      let um := layer_map st.(user_config) in
      (Exists (selects nm) patterns ->
        layer_map st1.(user_config) !! p = None /\ layer_map st2.(user_config) !! p = um !! p) /\
      (~ Exists (selects nm) patterns ->
        layer_map st1.(user_config) !! p = um !! p /\ layer_map st2.(user_config) !! p = None).
Proof.
  intros Ht Hst Hpat. destruct (reset_loop_ok st patterns false Ht Hst Hpat) as (st1 & E1 & _ & Hd1 & Hm1).
  destruct (reset_loop_ok st patterns true Ht Hst Hpat) as (st2 & E2 & _ & Hd2 & Hm2).
  exists st1, st2. split; [exact E1|]. split; [exact E2|]. split; [done|]. split; [done|].
  intros p nm Hnm Hp Hro um. rewrite Hm1, Hm2, !reset_where_lookup, Hnm, Hro. cbn [default id negb].
  assert (p < param_info_count) as Hlt.
  { unfold param_name in Hnm. case_if_in Hnm; [|done]. unfold handle_in_range in Hif. lia. }
  rewrite (bool_decide_true (p ∈ all_params)) by (apply elem_of_seqZ; lia). rewrite !andb_true_r.
  assert (name_ok nm) as Hn.
  { destruct (zlookup_lt parameters p ltac:(unfold param_info_count in *; lia)) as [i Hi].
    rewrite (param_name_lookup _ _ Hi) in Hnm. simplify_eq. by eapply table_name. }
  destruct (matches_any_ok nm patterns Hn Hpat) as (b & Eb & Hb). rewrite Eb. cbn [default id].
  destruct b; split; intros Hs; naive_solver.
Qed.
End store.

(** ** A small table for the witnesses *)

Definition sample_table : list param_info :=
  [mkInfo (cstr "GAIN_P") 0x3f800000 PARAM_TYPE_FLOAT;
   mkInfo (cstr "GAIN_X") 0x40000000 PARAM_TYPE_FLOAT;
   mkInfo (cstr "SYS_ID") 1 PARAM_TYPE_INT32;
   mkInfo (cstr "SYS_LOCK") 7 PARAM_TYPE_INT32].

Lemma sample_table_ok : table_ok sample_table.
Proof.
  split.
  - unfold param_info_count, PARAM_INVALID, zlen. simpl. lia.
  - repeat constructor; vm_compute; intuition discriminate.
  - repeat constructor; vm_compute; intuition discriminate.
  - repeat constructor; by (left; vm_compute) || (right; vm_compute).
  - intros i j a b Ha Hb Hij. pose proof (zlookup_Some_lt _ _ _ Ha) as Hi. pose proof (zlookup_Some_lt _ _ _ Hb) as Hj.
    unfold zlen in *. simpl in Hi, Hj.
    assert (i = 0 \/ i = 1 \/ i = 2) as [-> |[-> | ->]] by lia;
    assert (j = 1 \/ j = 2 \/ j = 3) as [-> |[-> | ->]] by lia; try lia;
    vm_compute in Ha, Hb; simplify_eq; by vm_compute.
Qed.

#[local] Instance sample_layer : ParamLayer DynamicSparseLayer := Dynamic_layer true.

Lemma sample_count : 0 < param_info_count sample_table <= UINT16_MAX.
Proof. vm_compute. intuition discriminate. Qed.

#[local] Instance sample_laws : ParamLayerLaws (param_info_count sample_table) DynamicSparseLayer :=
  Dynamic_laws (param_info_count sample_table) sample_count true.

(** A store in which SYS_LOCK is read-only and nothing was set. *)
Definition sample_store : params DynamicSparseLayer :=
  params_new sample_table (Dynamic_init true 1 1) (Dynamic_init true 1 1) 5000000.

Lemma sample_store_ok : params_ok sample_table sample_store.
Proof. apply params_new_ok; try apply sample_table_ok; by apply (Dynamic_init_ok (param_info_count sample_table)). Qed.

Definition sample_ops : list param_op :=
  [OpSet 2 42; OpSetDefault 3 9; OpLock; OpSet 3 8; OpGet 3; OpGet 2; OpSet 0 0x3f800000; OpIsDefault 0;
   OpResetAll; OpGet 2; OpGet 7].

Lemma sample_ops_ok : Forall op_ok sample_ops.
Proof. repeat constructor; vm_compute; intuition discriminate. Qed.

Lemma param_store_refines_layers_witness :
  (exists st', param_run sample_table [3] sample_store sample_ops
      = Some ((spec_run sample_table [3] None None (layers_of sample_table sample_store) sample_ops).1, st') /\
    params_ok sample_table st' /\
    layers_of sample_table st' = (spec_run sample_table [3] None None (layers_of sample_table sample_store) sample_ops).2) /\
  fst <$> param_run sample_table [3] sample_store sample_ops
    = Some [(0, None); (0, None); (0, None); (-1, None); (0, Some 9); (0, Some 42); (0, None); (1, None);
            (0, None); (0, Some 1); (-1, None)].
Proof.
  split; [|vm_compute; reflexivity].
  exact (param_store_refines_layers sample_table [3] sample_store sample_ops sample_table_ok sample_store_ok sample_ops_ok).
Defined.

Definition locked_store : params DynamicSparseLayer := param_lock_readonly sample_store.

Lemma locked_store_ok : params_ok sample_table locked_store.
Proof. destruct sample_store_ok. by split. Qed.

Lemma readonly_params_immutable_witness :
  exists rs st', param_run sample_table [3] locked_store sample_ops = Some (rs, st') /\
    user_config_get sample_table st' 3 = Some 7 /\ runtime_defaults_get sample_table st' 3 = Some 7.
Proof.
  apply (readonly_params_immutable sample_table [3] locked_store sample_ops 3 sample_table_ok locked_store_ok sample_ops_ok);
    [done|vm_compute; intuition discriminate|set_solver].
Defined.

Lemma param_find_correct_witness :
  exists p st', param_find sample_table sample_store (cstr "SYS_ID") = Some (p, st') /\
    param_find_no_notification sample_table sample_store (cstr "SYS_ID") = Some p /\
    params_ok sample_table st' /\ layers_of sample_table st' = layers_of sample_table sample_store /\
    ((0 <= p < param_info_count sample_table /\ param_name sample_table p = Some (cstr "SYS_ID") /\
      forall q, 0 <= q < param_info_count sample_table -> used st' q = (q =? p) || used sample_store q) \/
     (p = PARAM_INVALID /\ st' = sample_store /\ forall q, param_name sample_table q <> Some (cstr "SYS_ID"))).
Proof.
  apply (param_find_correct sample_table sample_store (cstr "SYS_ID") sample_table_ok sample_store_ok).
  repeat constructor; vm_compute; intuition discriminate.
Defined.

Lemma param_set_reports_changes_witness :
  exists st', param_set sample_table [3] sample_store 0 (Some 0x3fc00000) = Some (PX4_OK, st') /\
    param_get sample_table st' 0 true = Some (PX4_OK, Some 0x3fc00000) /\
    param_value_unsaved sample_table st' 0 = Some true /\
    st'.(autosave_instance) = Some (mkAutosave 0 true 0 false (Some 5300000)) /\
    st'.(p_topic) = [] ++ [mkUpdate 0 0 (layer_size st'.(user_config)) 0 5000000] /\
    forall q, 0 <= q < param_info_count sample_table -> q <> 0 ->
      user_config_get sample_table st' q = user_config_get sample_table sample_store q /\
      param_value_unsaved sample_table st' q = param_value_unsaved sample_table sample_store q.
Proof.
  apply (param_set_reports_changes sample_table [3] sample_store 0 0x3fc00000 sample_table_ok sample_store_ok);
    [vm_compute; intuition discriminate|vm_compute; intuition discriminate|done|vm_compute; reflexivity].
Defined.

(** The store after two parameters were looked up. *)
Definition used_store : params DynamicSparseLayer := set_active sample_store [10].

Lemma used_store_ok : params_ok sample_table used_store.
Proof. destruct sample_store_ok. split; try done. split; [done|]. repeat constructor; vm_compute; intuition discriminate. Qed.

Lemma used_index_roundtrip_witness :
  (used used_store 3 = true -> exists i, param_get_used_index sample_table used_store 3 = Some i /\ 0 <= i /\
     param_for_used_index sample_table used_store i = Some 3) /\
  (exists q, param_for_used_index sample_table used_store 0 = Some q /\
    (q = PARAM_INVALID \/
     (0 <= q < param_info_count sample_table /\ param_used sample_table used_store q = Some true /\
      param_get_used_index sample_table used_store q = Some 0))).
Proof.
  apply (used_index_roundtrip sample_table used_store 3 0 sample_table_ok used_store_ok);
    vm_compute; intuition discriminate.
Defined.

Definition hash_store : params DynamicSparseLayer :=
  match param_set sample_table [] used_store 3 (Some 8) with Some (_, st) => st | None => used_store end.

Lemma param_hash_detects_change_witness :
  exists h h', param_hash_check sample_table [] used_store = Some h /\
    param_hash_check sample_table [] hash_store = Some h' /\ h <> h'.
Proof.
  apply (param_hash_detects_change sample_table [] [] used_store 3 8 hash_store sample_table_ok used_store_ok);
    [vm_compute; intuition discriminate|vm_compute; intuition discriminate|done|done|vm_compute; discriminate
    |vm_compute; reflexivity].
Defined.

Lemma selective_resets_witness :
  exists st1 st2, param_reset_specific sample_table [] hash_store [cstr "SYS_*"] = Some st1 /\
    param_reset_excludes sample_table [] hash_store [cstr "SYS_*"] = Some st2 /\
    user_config_get sample_table st1 3 = Some 7 /\ user_config_get sample_table st2 3 = Some 8.
Proof.
  assert (params_ok sample_table hash_store) as Hok.
  { apply (param_set_layers sample_table [] used_store 3 8 hash_store sample_table_ok used_store_ok);
      vm_compute; try reflexivity; intuition discriminate. }
  destruct (selective_resets sample_table [] hash_store [cstr "SYS_*"] sample_table_ok Hok) as (st1 & st2 & E1 & E2 & _).
  { repeat constructor; vm_compute; intuition discriminate. }
  exists st1, st2. split; [exact E1|]. split; [exact E2|].
  vm_compute in E1, E2. injection E1 as <-. injection E2 as <-. vm_compute. done.
Defined.
