(* ===== verification/ParamTranslation.v ===== *)
(** * Translation of parameters on import

    Models src/lib/parameters/param_translation.{h,cpp}: [param_modify_on_import] rewrites a
    node of a parameter file that names a parameter of an older firmware, and sets the
    parameters that replace it. Each block of the function is a definition that either returns
    or passes the node and the store on to the next block. The union of a node keeps the bytes
    that a shorter member does not cover. *)
From stdpp Require Import base tactics strings list gmap.
From Stdlib Require Import ZArith Lia.
From S2P Require Import Prelude.
From S2P Require Import Containers.
From S2P Require Import Bson.
From S2P Require Import ParamLayers.
From S2P Require Import Float32.
From S2P Require Import Parameters.

Inductive param_modify_on_import_ret := PARAM_SKIP_IMPORT | PARAM_NOT_MODIFIED | PARAM_MODIFIED.

(** ** Nodes *)

Definition set_i32 (n : bson_node) (i : Z) : bson_node :=
  mkBNode n.(n_name) n.(n_type) n.(n_subtype) (le_bytes 4 (u32 i) ++ drop 4 n.(n_value)).
Definition set_d (n : bson_node) (d : Z) : bson_node := mkBNode n.(n_name) n.(n_type) n.(n_subtype) (le_bytes 8 d).
Definition set_type (n : bson_node) (t : Z) : bson_node := mkBNode n.(n_name) t n.(n_subtype) n.(n_value).
(** [strcpy(node->name, ...)]: all names fit BSON_MAXNAME. *)
Definition set_name (n : bson_node) (nm : list Z) : bson_node := mkBNode nm n.(n_type) n.(n_subtype) n.(n_value).

Definition named (n : bson_node) (s : string) : bool := strcmp (cstr s) n.(n_name) =? 0.

(** [strstr(hay, needle) != nullptr]. *)
Fixpoint strstr (hay needle : list Z) : bool :=
  bool_decide (take (length needle) hay = needle) || match hay with [] => false | _ :: hay => strstr hay needle end.

Section translation.
Context (parameters : list param_info) (parameters_readonly : list Z) {L : Type} `{ParamLayer L}.

(** The outcome of a block. *)
Inductive flow :=
  | Return (r : param_modify_on_import_ret) (n : bson_node) (st : params L)
  | Next (n : bson_node) (st : params L).

(** [param_set(param_find(name), &value)]. *)
Definition set_by_name (st : params L) (nm : list Z) (v : Z) : option (Z * params L) :=
  '(p, st) ← param_find parameters st nm; param_set parameters parameters_readonly st p (Some v).

(** A sequence of such calls whose results are not used. *)
Fixpoint set_all (st : params L) (sets : list (list Z * Z)) : option (params L) :=
  match sets with
  | [] => Some st
  | (nm, v) :: sets => '(_, st) ← set_by_name st nm v; set_all st sets
  end.

Definition fw_arsp_mode (n : bson_node) (st : params L) : option flow :=
  if named n "FW_ARSP_MODE" then
    let n := set_i32 n (if node_i32 n =? 0 then 1 else 0) in
    Some (Return PARAM_MODIFIED (set_name n (cstr "FW_USE_AIRSPD")) st)
  else Some (Next n st).

Definition cbrk_airspd_chk (n : bson_node) (st : params L) : option flow :=
  if named n "CBRK_AIRSPD_CHK" then
    let n := if node_i32 n =? 162128 then set_name (set_i32 n 0) (cstr "SYS_HAS_NUM_ASPD") else n in
    Some (Return PARAM_MODIFIED n st)
  else Some (Next n st).

Definition sys_mc_est_group (n : bson_node) (st : params L) : option flow :=
  if (n.(n_type) =? BSON_INT32) && named n "SYS_MC_EST_GROUP" then
    let value := node_i32 n in
    if value =? 1 then
      '(lpe_en_ret, st) ← set_by_name st (cstr "LPE_EN") 1;
      '(att_en_ret, st) ← set_by_name st (cstr "ATT_EN") 1;
      '(_, st) ← set_by_name st (cstr "EKF2_EN") (if (lpe_en_ret =? PX4_OK) && (att_en_ret =? PX4_OK) then 0 else 1);
      Some (Return PARAM_MODIFIED n st)
    else if value =? 2 then
      st ← set_all st [(cstr "LPE_EN", 0); (cstr "ATT_EN", 0); (cstr "EKF2_EN", 1)];
      Some (Return PARAM_MODIFIED n st)
    else if value =? 3 then
      '(_, st) ← set_by_name st (cstr "LPE_EN") 0;
      '(att_en_ret, st) ← set_by_name st (cstr "ATT_EN") 1;
      '(_, st) ← set_by_name st (cstr "EKF2_EN") (if att_en_ret =? PX4_OK then 0 else 1);
      Some (Return PARAM_MODIFIED n st)
    else Some (Next n st)
  else Some (Next n st).

Definition aspd_fallback_gw (n : bson_node) (st : params L) : option flow :=
  if named n "ASPD_FALLBACK_GW" then Some (Next (set_name n (cstr "ASPD_FALLBACK")) st) else Some (Next n st).

Definition sdlog_mode (n : bson_node) (st : params L) : option flow :=
  if named n "SDLOG_MODE" then
    if node_i32 n =? -1 then
      st ← set_all st [(cstr "SDLOG_BACKEND", 0)]; Some (Next (set_i32 n 0) st)
    else Some (Next n st)
  else Some (Next n st).

Definition mnt_range_pitch (n : bson_node) (st : params L) : option flow :=
  if named n "MNT_RANGE_PITCH" then
    if f64_gt_eps (node_d n) then
      let mnt_max_pitch := f32_half (f32_of_f64 (node_d n)) in
      let mnt_min_pitch := f32_half (f32_of_f64 (f64_neg (node_d n))) in
      st ← set_all st [(cstr "MNT_MAX_PITCH", mnt_max_pitch); (cstr "MNT_MIN_PITCH", mnt_min_pitch)];
      Some (Next n st)
    else Some (Next n st)
  else Some (Next n st).

Definition ekf2_gps_pos (n : bson_node) (st : params L) : option flow :=
  if named n "EKF2_GPS_POS_X" then Some (Return PARAM_MODIFIED (set_name n (cstr "SENS_GPS0_OFFX")) st)
  else if named n "EKF2_GPS_POS_Y" then Some (Return PARAM_MODIFIED (set_name n (cstr "SENS_GPS0_OFFY")) st)
  else if named n "EKF2_GPS_POS_Z" then Some (Return PARAM_MODIFIED (set_name n (cstr "SENS_GPS0_OFFZ")) st)
  else Some (Next n st).

Definition ekf2_gps_delay (n : bson_node) (st : params L) : option flow :=
  if named n "EKF2_GPS_DELAY" then
    let delay_ms := u32 (f64_to_int32 (node_d n)) in
    st ← set_all st [(cstr "SENS_GPS0_DELAY", delay_ms); (cstr "SENS_GPS1_DELAY", delay_ms)];
    Some (Next n st)
  else Some (Next n st).

(** [snprintf(name, sizeof(name), "DSHOT_MOT_POL%d", i)] for one or two digits. *)
Definition dshot_mot_pol (i : Z) : list Z :=
  cstr "DSHOT_MOT_POL" ++ (if i <? 10 then [48 + i] else [48 + i / 10; 48 + i mod 10]).

Definition mot_pole_count (n : bson_node) (st : params L) : option flow :=
  if (n.(n_type) =? BSON_INT32) && named n "MOT_POLE_COUNT" then
    st ← set_all st (map (fun i => (dshot_mot_pol i, u32 (node_i32 n))) (seqZ 1 12));
    Some (Return PARAM_SKIP_IMPORT n st)
  else Some (Next n st).

Definition ekf2_engine_wrm (n : bson_node) (st : params L) : option flow :=
  if named n "EKF2_ENGINE_WRM" then
    let delay_ms := u32 (f64_to_int32 (node_d n)) in
    st ← set_all st [(cstr "EKF2_POS_LOCK", delay_ms)];
    Some (Return PARAM_SKIP_IMPORT n st)
  else Some (Next n st).

Definition rc_rev (n : bson_node) (st : params L) : option flow :=
  if (n.(n_type) =? BSON_DOUBLE) && (strncmp (cstr "RC") n.(n_name) 2 =? 0) && strstr n.(n_name) (cstr "_REV") then
    let n := set_i32 n (if f64_lt_0 (node_d n) then -1 else 1) in
    Some (Return PARAM_MODIFIED (set_type n BSON_INT32) st)
  else Some (Next n st).

(** The double -1.0. *)
Definition f64_minus_one : Z := 0xbff0000000000000.

Definition com_rc_override (n : bson_node) (st : params L) : option flow :=
  if (n.(n_type) =? BSON_INT32) && named n "COM_RC_OVERRIDE" && (node_i32 n =? 0) then
    Some (Return PARAM_MODIFIED (set_name (set_type (set_d n f64_minus_one) BSON_DOUBLE) (cstr "MAN_OVERRIDE_SPD")) st)
  else Some (Next n st).

Definition heater_imu_id (n : bson_node) (st : params L) : option flow :=
  if (n.(n_type) =? BSON_INT32) && (strncmp (cstr "HEATER") n.(n_name) 6 =? 0) && strstr n.(n_name) (cstr "_IMU_ID") then
    c ← zlookup (n.(n_name) ++ [0]) 6;
    let new_name := cstr "HEATER" ++ [c] ++ cstr "_SENS_ID" in
    Some (Return PARAM_MODIFIED (set_name n new_name) st)
  else Some (Next n st).

Definition mpc_land_rc_help (n : bson_node) (st : params L) : option flow :=
  if (n.(n_type) =? BSON_INT32) && named n "MPC_LAND_RC_HELP" then
    st ← (if negb (node_i32 n =? 0) then
            '(p, st) ← param_find parameters st (cstr "MPC_AUTO_NUDGING");
            '(_, x) ← param_get parameters st p true;
            let nudging := Z.lor (default 0 x) 2 in
            set_all st [(cstr "MPC_AUTO_NUDGING", nudging)]
          else Some st);
    Some (Return PARAM_SKIP_IMPORT n st)
  else Some (Next n st).

Definition com_arm_traff (n : bson_node) (st : params L) : option flow :=
  if (n.(n_type) =? BSON_INT32) && named n "COM_ARM_TRAFF" then
    let n := if node_i32 n =? 1 then set_i32 n 1 else if 2 <=? node_i32 n then set_i32 n 2 else n in
    Some (Return PARAM_MODIFIED (set_name n (cstr "COM_TRAFF_AVOID")) st)
  else Some (Next n st).

Definition blocks : list (bson_node -> params L -> option flow) :=
  [fw_arsp_mode; cbrk_airspd_chk; sys_mc_est_group; aspd_fallback_gw; sdlog_mode; mnt_range_pitch; ekf2_gps_pos;
   ekf2_gps_delay; mot_pole_count; ekf2_engine_wrm; rc_rev; com_rc_override; heater_imu_id; mpc_land_rc_help;
   com_arm_traff].

Fixpoint run_blocks (bs : list (bson_node -> params L -> option flow)) (n : bson_node) (st : params L)
  : option (param_modify_on_import_ret * bson_node * params L) :=
  match bs with
  | [] => Some (PARAM_NOT_MODIFIED, n, st)
  | b :: bs =>
    f ← b n st;
    match f with Return r n st => Some (r, n, st) | Next n st => run_blocks bs n st end
  end.

Definition param_modify_on_import (n : bson_node) (st : params L)
  : option (param_modify_on_import_ret * bson_node * params L) := run_blocks blocks n st.

Context `{PLL : !ParamLayerLaws (param_info_count parameters) L}.
Context (Ht : table_ok parameters).

(** ** The store stays well formed, and every block returns *)

(** What a step of the translation keeps. *)
Record kept (st st' : params L) : Prop := {
  k_ok : params_ok parameters st';
  k_defaults : layer_map st'.(runtime_defaults) = layer_map st.(runtime_defaults);
  k_locked : st'.(params_locked) = st.(params_locked);
}.

Lemma kept_trans st1 st2 st3 : kept st1 st2 -> kept st2 st3 -> kept st1 st3.
Proof. intros [] []. split; [done|congruence|congruence]. Qed.

Lemma set_by_name_ok st nm v : params_ok parameters st -> name_ok nm -> value_ok v ->
  exists r st', set_by_name st nm v = Some (r, st') /\ kept st st'.
Proof.
  intros Hst Hn Hv. unfold set_by_name.
  destruct (param_find_ok parameters st nm Ht Hst Hn) as (p & st1 & E & _ & Hst1 & El & Hc & Hp). rewrite E.
  cbn [mbind option_bind]. assert (0 <= p) as Hp0 by (destruct Hp as [[? _]|[-> _]]; [lia|done]).
  destruct (step_set parameters parameters_readonly st1 p v Ht Hst1 Hp0 Hv) as (st2 & E2 & Hst2 & El2 & _).
  cbn [param_step] in E2. destruct (param_set parameters parameters_readonly st1 p (Some v)) as [[r st3]|]; [|done].
  cbn [mbind option_bind] in E2. assert (st3 = st2) as -> by congruence. exists r, st2. split; [done|]. split; [done| |].
  - apply (f_equal a_defaults) in El, El2. cbn [layers_of a_defaults] in El, El2. rewrite El2, <- El.
    cbn [spec_step]. by case_if.
  - apply (f_equal a_locked) in El, El2. cbn [layers_of a_locked] in El, El2. rewrite El2, <- El.
    cbn [spec_step]. by case_if.
Qed.

Lemma set_all_ok sets : forall st, params_ok parameters st -> Forall (fun nv => name_ok nv.1 /\ value_ok nv.2) sets ->
  exists st', set_all st sets = Some st' /\ kept st st'.
Proof.
  induction sets as [|[nm v] sets IH]; intros st Hst Hs; [by exists st|]. apply Forall_cons in Hs as [[Hn Hv] Hs].
  cbn [set_all]. destruct (set_by_name_ok st nm v Hst Hn Hv) as (r & st1 & E & Hk). rewrite E. cbn [mbind option_bind].
  destruct (IH st1 (k_ok _ _ Hk) Hs) as (st2 & E2 & Hk2). exists st2. split; [done|]. by eapply kept_trans.
Qed.

Lemma node_d_range n : node_wf n -> 0 <= node_d n < 2 ^ 64.
Proof.
  intros Hn. unfold node_d. pose proof (le_value_range _ (nw_bytes _ Hn)) as Hr. unfold zlen in Hr.
  rewrite (nw_len _ Hn) in Hr. exact Hr.
Qed.

Lemma set_i32_wf n i : node_wf n -> node_wf (set_i32 n i).
Proof.
  intros [Hn Hl Hb]. split; cbn [set_i32 n_name n_value]; [done| |].
  - rewrite length_app, length_le_bytes, length_drop, Hl. done.
  - apply Forall_app. split; [apply le_bytes_ok|by apply Forall_drop].
Qed.

Lemma set_d_wf n d : node_wf n -> node_wf (set_d n d).
Proof. intros [Hn Hl Hb]. split; cbn [set_d n_name n_value]; [done|apply length_le_bytes|apply le_bytes_ok]. Qed.

Lemma set_name_wf n nm : node_wf n -> name_ok nm -> node_wf (set_name n nm).
Proof. intros [] ?. by split. Qed.

Lemma set_type_wf n t : node_wf n -> node_wf (set_type n t).
Proof. intros []. by split. Qed.

Lemma u32_value_ok x : value_ok (u32 x).
Proof. unfold value_ok, uwrap. apply Z.mod_pos_bound. lia. Qed.

(** The store and the node of an outcome. *)
Definition flow_ok (st : params L) (f : flow) : Prop :=
  match f with Return _ n' st' | Next n' st' => node_wf n' /\ kept st st' end.

Definition block_ok (b : bson_node -> params L -> option flow) : Prop :=
  forall n st, node_wf n -> params_ok parameters st -> exists f, b n st = Some f /\ flow_ok st f.

Ltac name_lit := repeat (constructor; [vm_compute; intuition discriminate|]); constructor.
Ltac keep := match goal with H : params_ok _ ?st |- kept ?st ?st => by split end.

Lemma next_ok n st : node_wf n -> params_ok parameters st -> flow_ok st (Next n st).
Proof. by split. Qed.

Lemma rename_ok r n nm st : node_wf n -> name_ok nm -> params_ok parameters st -> flow_ok st (Return r (set_name n nm) st).
Proof. intros Hn Hnm Hst. split; [by apply set_name_wf|by split]. Qed.

(** A block that sets parameters and goes on, or returns, with the same node. *)
Lemma sets_ok sets (k : params L -> flow) st :
  params_ok parameters st -> Forall (fun nv => name_ok nv.1 /\ value_ok nv.2) sets ->
  (forall st', kept st st' -> flow_ok st (k st')) ->
  exists f, (st ← set_all st sets; Some (k st)) = Some f /\ flow_ok st f.
Proof.
  intros Hst Hs Hk. destruct (set_all_ok sets st Hst Hs) as (st' & E & Hk'). rewrite E. eexists; split; [done|]. by apply Hk.
Qed.

Lemma renames_ok n st : node_wf n -> params_ok parameters st ->
  (exists f, fw_arsp_mode n st = Some f /\ flow_ok st f) /\ (exists f, cbrk_airspd_chk n st = Some f /\ flow_ok st f) /\
  (exists f, aspd_fallback_gw n st = Some f /\ flow_ok st f) /\ (exists f, ekf2_gps_pos n st = Some f /\ flow_ok st f) /\
  (exists f, com_rc_override n st = Some f /\ flow_ok st f) /\ (exists f, com_arm_traff n st = Some f /\ flow_ok st f) /\
  (exists f, rc_rev n st = Some f /\ flow_ok st f).
Proof.
  intros Hn Hst. unfold fw_arsp_mode, cbrk_airspd_chk, aspd_fallback_gw, ekf2_gps_pos, com_rc_override, com_arm_traff, rc_rev.
  split_and!; repeat case_if; eexists; (split; [reflexivity|]); try by apply next_ok.
  all: try (apply rename_ok; [|name_lit|done]; repeat (apply set_i32_wf || apply set_d_wf || apply set_type_wf); done).
  all: split; [|by split]; repeat (apply set_type_wf || apply set_i32_wf); try done.
  apply set_name_wf; [done|name_lit].
Qed.

Lemma mot_names_ok v : value_ok v ->
  Forall (fun nv => name_ok nv.1 /\ value_ok nv.2) (map (fun i => (dshot_mot_pol i, v)) (seqZ 1 12)).
Proof.
  intros Hv. apply Forall_map, Forall_forall. intros i Hi%elem_of_seqZ. split; [|done]. unfold dshot_mot_pol. cbn [fst].
  apply Forall_app. split; [name_lit|]. assert (0 <= i / 10 < 10) by (split; [apply Z.div_pos|apply Z.div_lt_upper_bound]; lia).
  pose proof (Z.mod_pos_bound i 10 ltac:(lia)). case_if; repeat constructor; lia.
Qed.

Lemma setters_ok n st : node_wf n -> params_ok parameters st ->
  (exists f, sdlog_mode n st = Some f /\ flow_ok st f) /\ (exists f, mnt_range_pitch n st = Some f /\ flow_ok st f) /\
  (exists f, ekf2_gps_delay n st = Some f /\ flow_ok st f) /\ (exists f, mot_pole_count n st = Some f /\ flow_ok st f) /\
  (exists f, ekf2_engine_wrm n st = Some f /\ flow_ok st f).
Proof.
  intros Hn Hst. unfold sdlog_mode, mnt_range_pitch, ekf2_gps_delay, mot_pole_count, ekf2_engine_wrm.
  pose proof (node_d_range n Hn) as Hd.
  assert (value_ok 0) as H0 by (unfold value_ok; lia).
  assert (forall d, 0 <= d < 2 ^ 64 -> value_ok (f32_half (f32_of_f64 d))) as Hh.
  { intros d Hdd. apply f32_half_range. by apply f32_of_f64_range. }
  split_and!; repeat case_if; try (eexists; split; [reflexivity|]; by apply next_ok).
  all: match goal with |- context [set_all _ ?sets] => apply (sets_ok sets) end; [done| |].
  all: try (intros st' Hk; split; [try by apply set_i32_wf|]; done).
  all: try apply mot_names_ok, u32_value_ok.
  all: repeat (apply Forall_cons; split; [split; [name_lit|]|]); try apply Forall_nil; try done; try apply u32_value_ok.
  all: apply Hh; try done. by apply f64_neg_range.
Qed.

(** The character after the prefix of a HEATER*_IMU_ID name. *)
Lemma heater_char nm : name_ok nm -> strncmp (cstr "HEATER") nm 6 = 0 -> strstr nm (cstr "_IMU_ID") = true ->
  exists c, zlookup (nm ++ [0]) 6 = Some c /\ 0 < c < 256.
Proof.
  intros Hn Hp Hs. apply strcmp_eq in Hp; [|name_lit|by apply Forall_take]. change (Z.to_nat 6) with 6%nat in Hp.
  assert (nm = cstr "HEATER" ++ drop 6 nm) as E.
  { rewrite <- (take_drop 6 nm) at 1. f_equal. rewrite <- Hp. reflexivity. }
  destruct (drop 6 nm) as [|c rest] eqn:Hd.
  { rewrite E in Hs. vm_compute in Hs. done. }
  exists c. rewrite E. split; [reflexivity|]. rewrite E in Hn. apply Forall_app in Hn as [_ Hn].
  by apply Forall_cons in Hn as [? _].
Qed.

Lemma heater_ok n st : node_wf n -> params_ok parameters st -> exists f, heater_imu_id n st = Some f /\ flow_ok st f.
Proof.
  intros Hn Hst. unfold heater_imu_id. case_if; [|eexists; split; [done|]; by apply next_ok].
  destruct (heater_char (n_name n)) as (c & E & Hc); [apply Hn|tauto|tauto|]. rewrite E. cbn [mbind option_bind].
  eexists; split; [reflexivity|]. apply rename_ok; [done| |done].
  apply Forall_app. split; [name_lit|]. apply Forall_app. split; [by apply Forall_singleton|name_lit].
Qed.

Lemma est_group_ok n st : node_wf n -> params_ok parameters st -> exists f, sys_mc_est_group n st = Some f /\ flow_ok st f.
Proof.
  intros Hn Hst. unfold sys_mc_est_group.
  assert (forall (b : bool), value_ok (if b then 0 else 1)) as Hb by (intros []; unfold value_ok; lia).
  assert (value_ok 0 /\ value_ok 1) as [H0 H1] by (unfold value_ok; lia).
  case_if; [|eexists; split; [done|]; by apply next_ok]. case_if; [|case_if; [|case_if]].
  - destruct (set_by_name_ok st (cstr "LPE_EN") 1 Hst ltac:(name_lit) H1) as (r1 & st1 & E1 & K1). rewrite E1. cbn [mbind option_bind].
    destruct (set_by_name_ok st1 (cstr "ATT_EN") 1 (k_ok _ _ K1) ltac:(name_lit) H1) as (r2 & st2 & E2 & K2). rewrite E2. cbn [mbind option_bind].
    destruct (set_by_name_ok st2 (cstr "EKF2_EN") (if (r1 =? PX4_OK) && (r2 =? PX4_OK) then 0 else 1) (k_ok _ _ K2) ltac:(name_lit) (Hb _))
      as (r3 & st3 & E3 & K3). rewrite E3. eexists; split; [reflexivity|]. split; [done|]. eauto using kept_trans.
  - apply (sets_ok [(cstr "LPE_EN", 0); (cstr "ATT_EN", 0); (cstr "EKF2_EN", 1)]); [done| |by intros st' Hk].
    repeat (apply Forall_cons; split; [split; [name_lit|done]|]). apply Forall_nil. done.
  - destruct (set_by_name_ok st (cstr "LPE_EN") 0 Hst ltac:(name_lit) H0) as (r1 & st1 & E1 & K1). rewrite E1. cbn [mbind option_bind].
    destruct (set_by_name_ok st1 (cstr "ATT_EN") 1 (k_ok _ _ K1) ltac:(name_lit) H1) as (r2 & st2 & E2 & K2). rewrite E2. cbn [mbind option_bind].
    destruct (set_by_name_ok st2 (cstr "EKF2_EN") (if r2 =? PX4_OK then 0 else 1) (k_ok _ _ K2) ltac:(name_lit) (Hb _))
      as (r3 & st3 & E3 & K3). rewrite E3. eexists; split; [reflexivity|]. split; [done|]. eauto using kept_trans.
  - eexists; split; [done|]. by apply next_ok.
Qed.

Lemma nudging_ok n st : node_wf n -> params_ok parameters st -> exists f, mpc_land_rc_help n st = Some f /\ flow_ok st f.
Proof.
  intros Hn Hst. unfold mpc_land_rc_help. case_if; [|eexists; split; [done|]; by apply next_ok].
  destruct (node_i32 n =? 0); cbn [negb mbind option_bind]; [by eexists|].
  destruct (param_find_ok parameters st (cstr "MPC_AUTO_NUDGING") Ht Hst ltac:(name_lit)) as (p & st1 & E & _ & Hst1 & El & Hc & Hp).
  rewrite E. cbn [mbind option_bind]. assert (0 <= p) as Hp0 by (destruct Hp as [[? _]|[-> _]]; [lia|done]).
  assert (exists r x, param_get parameters st1 p true = Some (r, x) /\ value_ok (default 0 x)) as (r & x & E2 & Hx).
  { unfold param_get. case_if; [do 2 eexists; split; [done|by unfold value_ok]|]. cbn [negb].
    rewrite (user_config_get_ok parameters st1 p Hst1). cbn [mbind option_bind]. case_if; do 2 eexists; (split; [done|]); [|by unfold value_ok].
    by apply current_value_ok. }
  rewrite E2. cbn [mbind option_bind]. destruct (set_all_ok [(cstr "MPC_AUTO_NUDGING", Z.lor (default 0 x) 2)] st1 Hst1) as (st2 & E3 & K).
  { apply Forall_cons. split; [split; [name_lit|]|by apply Forall_nil]. apply lor_range; [lia|done|lia]. }
  rewrite E3. eexists; split; [reflexivity|]. split; [done|]. destruct K as [K1 K2 K3]. split; [done| |].
  - rewrite K2. exact (f_equal a_defaults El).
  - rewrite K3. exact (f_equal a_locked El).
Qed.

Lemma blocks_ok : Forall block_ok blocks.
Proof.
  unfold blocks. repeat (apply Forall_cons; split; [intros n st Hn Hst|]); try (by apply Forall_nil).
  all: first [by apply est_group_ok|by apply heater_ok|by apply nudging_ok|
    pose proof (renames_ok n st Hn Hst); pose proof (setters_ok n st Hn Hst); tauto].
Qed.

Lemma run_blocks_ok bs : Forall block_ok bs -> forall n st, node_wf n -> params_ok parameters st ->
  exists r n' st', run_blocks bs n st = Some (r, n', st') /\ node_wf n' /\ kept st st'.
Proof.
  induction 1 as [|b bs Hb _ IH]; intros n st Hn Hst; cbn [run_blocks].
  - do 3 eexists; split; [done|]. by split.
  - destruct (Hb n st Hn Hst) as (f & E & Hf). rewrite E. cbn [mbind option_bind].
    destruct f as [r n' st'|n' st']; destruct Hf as [Hn' Hk]; [by do 3 eexists|].
    destruct (IH n' st' Hn' (k_ok _ _ Hk)) as (r & n2 & st2 & E2 & Hn2 & Hk2).
    exists r, n2, st2. split; [done|]. split; [done|]. by eapply kept_trans.
Qed.

Lemma param_modify_on_import_ok n st : node_wf n -> params_ok parameters st ->
  exists r n' st', param_modify_on_import n st = Some (r, n', st') /\ node_wf n' /\ kept st st'.
Proof. apply run_blocks_ok, blocks_ok. Qed.

(** ** Which nodes are translated *)

Definition old_names : list string :=
  ["FW_ARSP_MODE"; "CBRK_AIRSPD_CHK"; "SYS_MC_EST_GROUP"; "ASPD_FALLBACK_GW"; "MNT_RANGE_PITCH"; "EKF2_GPS_POS_X";
   "EKF2_GPS_POS_Y"; "EKF2_GPS_POS_Z"; "EKF2_GPS_DELAY"; "MOT_POLE_COUNT"; "EKF2_ENGINE_WRM"; "COM_RC_OVERRIDE";
   "MPC_LAND_RC_HELP"; "COM_ARM_TRAFF"]%string.

Definition is_rc_rev (nm : list Z) : bool := (strncmp (cstr "RC") nm 2 =? 0) && strstr nm (cstr "_REV").
Definition is_heater_imu (nm : list Z) : bool := (strncmp (cstr "HEATER") nm 6 =? 0) && strstr nm (cstr "_IMU_ID").

(** The nodes of older firmware. SDLOG_MODE is still in use, with other values. *)
Definition old_node (n : bson_node) : bool :=
  existsb (named n) old_names || (named n "SDLOG_MODE" && (node_i32 n =? -1)) ||
  ((n.(n_type) =? BSON_DOUBLE) && is_rc_rev n.(n_name)) || ((n.(n_type) =? BSON_INT32) && is_heater_imu n.(n_name)).

Definition old_name (nm : list Z) : bool :=
  existsb (fun s => strcmp (cstr s) nm =? 0) ("SDLOG_MODE"%string :: old_names) || is_rc_rev nm || is_heater_imu nm.

Lemma old_node_name n : old_name n.(n_name) = false -> old_node n = false.
Proof.
  unfold old_name, old_node. cbn [existsb]. fold (named n "SDLOG_MODE"). rewrite !orb_false_iff.
  intros [[[E1 E2] E3] E4]. change (fun s => strcmp (cstr s) (n_name n) =? 0) with (named n) in E2.
  by rewrite E1, E2, E3, E4, !andb_false_r.
Qed.

(** A block does nothing to current nodes, and a node it renames is a current one. *)
Definition block_quiet (b : bson_node -> params L -> option flow) : Prop :=
  forall n st, old_node n = false -> b n st = Some (Next n st).

Definition renames_to_current (b : bson_node -> params L -> option flow) : Prop :=
  forall n st f, name_ok n.(n_name) -> b n st = Some f ->
    match f with Return _ n' _ | Next n' _ => n'.(n_name) = n.(n_name) \/ old_node n' = false end.

Lemma current_named n s : old_node n = false -> existsb (String.eqb s) old_names = true -> named n s = false.
Proof.
  unfold old_node. rewrite !orb_false_iff. intros [[[E1 _] _] _] (s' & Hs & <-%String.eqb_eq)%existsb_exists.
  destruct (named n s) eqn:En; [|done]. rewrite <- E1. symmetry. apply existsb_exists. by exists s.
Qed.

Lemma blocks_quiet : Forall block_quiet blocks.
Proof.
  unfold blocks. repeat (apply Forall_cons; split; [intros n st Hn|]); [..|by apply Forall_nil].
  - unfold fw_arsp_mode. by rewrite current_named.
  - unfold cbrk_airspd_chk. by rewrite current_named.
  - unfold sys_mc_est_group. by rewrite current_named, andb_false_r.
  - unfold aspd_fallback_gw. by rewrite current_named.
  - unfold sdlog_mode, old_node in *. rewrite !orb_false_iff in Hn. destruct Hn as [[[_ Hsd] _] _].
    destruct (named n "SDLOG_MODE"); [|done]. cbn [andb] in Hsd. by rewrite Hsd.
  - unfold mnt_range_pitch. by rewrite current_named.
  - unfold ekf2_gps_pos. by rewrite !current_named.
  - unfold ekf2_gps_delay. by rewrite current_named.
  - unfold mot_pole_count. by rewrite current_named, andb_false_r.
  - unfold ekf2_engine_wrm. by rewrite current_named.
  - unfold rc_rev. rewrite <- andb_assoc. fold (is_rc_rev (n_name n)).
    unfold old_node in Hn. rewrite !orb_false_iff in Hn. destruct Hn as [[_ ->] _]. done.
  - unfold com_rc_override. by rewrite current_named, andb_false_r.
  - unfold heater_imu_id. rewrite <- andb_assoc. fold (is_heater_imu (n_name n)).
    unfold old_node in Hn. rewrite !orb_false_iff in Hn. destruct Hn as [_ ->]. done.
  - unfold mpc_land_rc_help. by rewrite current_named, andb_false_r.
  - unfold com_arm_traff. by rewrite current_named, andb_false_r.
Qed.

Lemma heater_current c : old_name (cstr "HEATER" ++ [c] ++ cstr "_SENS_ID") = false.
Proof.
  unfold old_name. apply orb_false_iff. split; [apply orb_false_iff; split; reflexivity|].
  unfold is_heater_imu. apply andb_false_iff. right.
  change (cstr "HEATER" ++ [c] ++ cstr "_SENS_ID") with [72; 69; 65; 84; 69; 82; c; 95; 83; 69; 78; 83; 95; 73; 68].
  change (cstr "_IMU_ID") with [95; 73; 77; 85; 95; 73; 68].
  cbn [strstr length take]. by repeat (rewrite bool_decide_false by (by intros [=]); cbn [orb]).
Qed.

Lemma heater_rename : renames_to_current heater_imu_id.
Proof.
  intros n st f Hname E. unfold heater_imu_id in E. case_if_in E; [|injection E as <-; by left].
  destruct (zlookup (n_name n ++ [0]) 6) as [c|]; [|done]. injection E as <-. right. apply old_node_name, heater_current.
Qed.

(** The blocks that only set parameters keep the node. *)
Lemma set_all_bind st sets (k : params L -> option flow) f :
  (st ← set_all st sets; k st) = Some f -> exists st', k st' = Some f.
Proof. destruct (set_all st sets) as [st'|]; [|done]. intros E. by exists st'. Qed.

Lemma sets_rename :
  renames_to_current sys_mc_est_group /\ renames_to_current mnt_range_pitch /\ renames_to_current ekf2_gps_delay /\
  renames_to_current mot_pole_count /\ renames_to_current ekf2_engine_wrm /\ renames_to_current mpc_land_rc_help.
Proof.
  unfold sys_mc_est_group, mnt_range_pitch, ekf2_gps_delay, mot_pole_count, ekf2_engine_wrm, mpc_land_rc_help.
  split_and!; intros n st f _ E; repeat (case_if_in E).
  all: try (injection E as <-; by left).
  all: try (apply set_all_bind in E as [st' E]; injection E as <-; by left).
  all: repeat match type of E with (?x ≫= _) = _ => destruct x as [[? ?]|] || destruct x; cbn [mbind option_bind] in E; [|done] end.
  all: injection E as <-; by left.
Qed.

Lemma blocks_rename : Forall renames_to_current blocks.
Proof.
  unfold blocks. repeat (apply Forall_cons; split); try apply Forall_nil; try apply heater_rename; try apply sets_rename; try done.
  all: intros n st f Hname E.
  1: unfold fw_arsp_mode in E. 2: unfold cbrk_airspd_chk in E. 3: unfold aspd_fallback_gw in E. 4: unfold sdlog_mode in E.
  5: unfold ekf2_gps_pos in E. 6: unfold rc_rev in E. 7: unfold com_rc_override in E. 8: unfold com_arm_traff in E.
  all: repeat (case_if_in E).
  all: try (apply set_all_bind in E as [st' E]); injection E as <-; try (by left).
  all: right; apply old_node_name; reflexivity.
Qed.

Lemma run_quiet bs n st : Forall block_quiet bs -> old_node n = false -> run_blocks bs n st = Some (PARAM_NOT_MODIFIED, n, st).
Proof. intros Hbs Hn. induction Hbs as [|b bs Hb _ IH]; [done|]. cbn [run_blocks]. by rewrite Hb. Qed.

Lemma current_unchanged n st : old_node n = false -> param_modify_on_import n st = Some (PARAM_NOT_MODIFIED, n, st).
Proof. apply run_quiet, blocks_quiet. Qed.

Lemma run_renames bs : Forall block_quiet bs -> Forall renames_to_current bs -> Forall block_ok bs ->
  forall n st r n' st', node_wf n -> params_ok parameters st -> run_blocks bs n st = Some (r, n', st') ->
    n'.(n_name) = n.(n_name) \/ old_node n' = false.
Proof.
  induction bs as [|b bs IH]; intros Hq Hr Hok n st r n' st' Hn Hst E; cbn [run_blocks] in E; [simplify_eq; by left|].
  apply Forall_cons in Hq as [Hqb Hq], Hr as [Hrb Hr], Hok as [Hokb Hok].
  destruct (Hokb n st Hn Hst) as (f & Ef & Hf). specialize (Hrb n st f (nw_name _ Hn) Ef). rewrite Ef in E. cbn [mbind option_bind] in E.
  destruct f as [r0 n0 st0|n0 st0]; [by simplify_eq|]. destruct Hf as [Hn0 Hk0].
  destruct Hrb as [Hname|Hcur].
  - rewrite <- Hname. eapply IH; [done|done|done|exact Hn0|apply Hk0|exact E].
  - rewrite (run_quiet bs n0 st0 Hq Hcur) in E. simplify_eq. by right.
Qed.

(** ** Properties *)

(** Translations do not chain. [param_modify_on_import] returns for every node, keeps the
    store well formed and the custom defaults; and a node that it renames carries the name of a
    current parameter: translating the result again changes neither it nor the store. *)
Theorem translation_is_final n st :
  node_wf n -> params_ok parameters st ->
  exists r n' st', param_modify_on_import n st = Some (r, n', st') /\ node_wf n' /\ kept st st' /\
    (n'.(n_name) <> n.(n_name) -> param_modify_on_import n' st' = Some (PARAM_NOT_MODIFIED, n', st')).
Proof.
  intros Hn Hst. destruct (param_modify_on_import_ok n st Hn Hst) as (r & n' & st' & E & Hn' & Hk).
  exists r, n', st'. split; [done|]. split; [done|]. split; [done|]. intros Hne. apply current_unchanged.
  by destruct (run_renames blocks blocks_quiet blocks_rename blocks_ok n st r n' st' Hn Hst E).
Qed.

Lemma le_value_app a b : le_value (a ++ b) = le_value a + 256 ^ zlen a * le_value b.
Proof.
  induction a as [|x a IH]; [change (256 ^ zlen []) with 1; simpl; lia|]. cbn [app le_value]. rewrite IH, zlen_cons, Z.pow_add_r by (auto with px4; lia). ring.
Qed.

(** A union whose upper half is zero is less than [2 ^ -1000] as a double. *)
Lemma small_double n : node_wf n -> drop 4 n.(n_value) = replicate 4 0 -> f64_to_int32 (node_d n) = 0.
Proof.
  intros Hn Hz. unfold node_d. rewrite <- (take_drop 4 (n_value n)), Hz, le_value_app.
  change (le_value (replicate 4 0)) with 0. rewrite Z.mul_0_r, Z.add_0_r.
  pose proof (le_value_range (take 4 (n_value n)) ltac:(apply Forall_take, Hn)) as Hr. unfold zlen in Hr.
  rewrite length_take, (nw_len _ Hn) in Hr. change (256 ^ Z.of_nat (4 `min` 8)) with (2 ^ 32) in Hr.
  set (x := le_value _) in *. unfold f64_to_int32, f64_is_nan, f64_mag, f64_sign.
  rewrite Z.mod_small, Z.div_small by lia. rewrite (proj2 (Z.ltb_ge _ _)) by (unfold f64_inf; lia).
  rewrite decode_subnormal by lia. rewrite Z.div_small; [done|].
  split; [lia|]. eapply Z.lt_trans; [apply Hr|]. apply Z.pow_lt_mono_r; lia.
Qed.

(** EKF2_ENGINE_WRM is read as a double whatever its type. For a node of type INT32 whose
    union was zero before, as in a file without earlier doubles, every value, also 1, becomes 0
    in EKF2_POS_LOCK. *)
Theorem engine_wrm_loses_int32 n st p :
  node_wf n -> params_ok parameters st -> n.(n_name) = cstr "EKF2_ENGINE_WRM" -> n.(n_type) = BSON_INT32 ->
  drop 4 n.(n_value) = replicate 4 0 ->
  0 <= p < param_info_count parameters -> param_name parameters p = Some (cstr "EKF2_POS_LOCK") ->
  readonly parameters parameters_readonly st.(params_locked) p = false ->
  map_fits (layer_cap st.(user_config)) (layer_map st.(user_config)) p = true ->
  exists st', param_modify_on_import n st = Some (PARAM_SKIP_IMPORT, n, st') /\ user_config_get parameters st' p = Some 0.
Proof.
  intros Hn Hst Hname Hty Hz Hp Hpn Hro Hfits. unfold param_modify_on_import, blocks. cbn [run_blocks].
  assert (forall s, strcmp (cstr s) (cstr "EKF2_ENGINE_WRM") <> 0 -> named n s = false) as Hno.
  { intros s Hs. unfold named. rewrite Hname. by apply Z.eqb_neq. }
  unfold fw_arsp_mode. rewrite Hno by done. cbn [mbind option_bind].
  unfold cbrk_airspd_chk. rewrite Hno by done. cbn [mbind option_bind].
  unfold sys_mc_est_group. rewrite Hno, andb_false_r by done. cbn [mbind option_bind].
  unfold aspd_fallback_gw. rewrite Hno by done. cbn [mbind option_bind].
  unfold sdlog_mode. rewrite Hno by done. cbn [mbind option_bind].
  unfold mnt_range_pitch. rewrite Hno by done. cbn [mbind option_bind].
  unfold ekf2_gps_pos. rewrite !Hno by done. cbn [mbind option_bind].
  unfold ekf2_gps_delay. rewrite Hno by done. cbn [mbind option_bind].
  unfold mot_pole_count. rewrite Hno, andb_false_r by done. cbn [mbind option_bind].
  assert (named n "EKF2_ENGINE_WRM" = true) as Hyes by (unfold named; by rewrite Hname).
  unfold ekf2_engine_wrm. rewrite Hyes, small_double by done. cbn [set_all].
  unfold set_by_name.
  destruct (param_find_ok parameters st (cstr "EKF2_POS_LOCK") Ht Hst ltac:(name_lit)) as (q & st1 & E & _ & Hst1 & El & Hc & Hq).
  rewrite E. cbn [mbind option_bind]. destruct Hq as [(Hq & Hqn & _)|(_ & _ & Hno0)]; [|by destruct (Hno0 p)].
  assert (q = p) as -> by (apply (param_name_inj parameters q p _ Ht ltac:(lia) ltac:(lia) Hqn Hpn)).
  destruct (step_set parameters parameters_readonly st1 p 0 Ht Hst1 ltac:(lia) ltac:(unfold value_ok; lia)) as (st2 & E2 & Hst2 & El2 & _).
  rewrite El in *. destruct Hc as [_ Hcu]. rewrite Hcu in *.
  cbn [param_step spec_step layers_of a_locked a_user a_defaults] in E2, El2.
  rewrite (proj2 (Z.ltb_lt _ _)), Hro, Hfits in E2, El2 by lia. cbn [andb negb fst snd] in E2, El2.
  destruct (param_set parameters parameters_readonly st1 p (Some 0)) as [[r st3]|] eqn:E3; [|done]. cbn [mbind option_bind] in E2.
  assert (st3 = st2) as -> by congruence. change (u32 0) with 0. rewrite E3. cbn [mbind option_bind].
  exists st2. split; [done|]. rewrite (user_config_get_ok parameters st2 p Hst2). unfold current_value.
  rewrite (f_equal a_user El2 : layer_map (user_config st2) = _). cbn [a_user]. by rewrite lookup_insert_eq.
Qed.
End translation.

(** ** A small table for the witnesses *)

Definition old_table : list param_info :=
  [mkInfo (cstr "EKF2_POS_LOCK") 0 PARAM_TYPE_INT32; mkInfo (cstr "SENS_GPS0_OFFX") 0 PARAM_TYPE_FLOAT].

Lemma old_table_ok : table_ok old_table.
Proof.
  split.
  - unfold param_info_count, PARAM_INVALID, zlen. simpl. lia.
  - repeat constructor; vm_compute; intuition discriminate.
  - repeat constructor; vm_compute; intuition discriminate.
  - repeat constructor; by (left; vm_compute) || (right; vm_compute).
  - intros i j a b Ha Hb Hij. pose proof (zlookup_Some_lt _ _ _ Ha) as Hi. pose proof (zlookup_Some_lt _ _ _ Hb) as Hj.
    unfold zlen in *. simpl in Hi, Hj. assert (i = 0) as -> by lia. assert (j = 1) as -> by lia.
    vm_compute in Ha, Hb. simplify_eq. by vm_compute.
Qed.

#[local] Instance old_layer : ParamLayer DynamicSparseLayer := Dynamic_layer true.

Lemma old_count : 0 < param_info_count old_table <= UINT16_MAX.
Proof. vm_compute. intuition discriminate. Qed.

#[local] Instance old_laws : ParamLayerLaws (param_info_count old_table) DynamicSparseLayer :=
  Dynamic_laws (param_info_count old_table) old_count true.

Definition old_store : params DynamicSparseLayer :=
  params_new old_table (Dynamic_init true 1 1) (Dynamic_init true 1 1) 5000000.

Lemma old_store_ok : params_ok old_table old_store.
Proof. apply params_new_ok; try apply old_table_ok; by apply (Dynamic_init_ok (param_info_count old_table)). Qed.

(** A GPS offset as a double, and an engine warm-up switch as an integer. *)
Definition gps_node : bson_node := mkBNode (cstr "EKF2_GPS_POS_X") BSON_DOUBLE 0 (le_bytes 8 0x3ff0000000000000).
Definition wrm_node : bson_node := mkBNode (cstr "EKF2_ENGINE_WRM") BSON_INT32 0 (le_bytes 8 1).

Lemma old_nodes_wf : node_wf gps_node /\ node_wf wrm_node.
Proof. split; split; first [reflexivity | repeat constructor; vm_compute; intuition discriminate]. Qed.

Lemma translation_is_final_witness :
  exists r n' st', param_modify_on_import old_table [] gps_node old_store = Some (r, n', st') /\ r = PARAM_MODIFIED /\
    n'.(n_name) = cstr "SENS_GPS0_OFFX" /\
    param_modify_on_import old_table [] n' st' = Some (PARAM_NOT_MODIFIED, n', st').
Proof.
  destruct (translation_is_final old_table [] old_table_ok gps_node old_store (proj1 old_nodes_wf) old_store_ok)
    as (r & n' & st' & E & _ & _ & Hfinal).
  exists r, n', st'. split; [exact E|]. vm_compute in E. injection E as <- <- <-.
  split; [reflexivity|]. split; [reflexivity|]. apply Hfinal. vm_compute. discriminate.
Defined.

Lemma engine_wrm_loses_int32_witness :
  exists st', param_modify_on_import old_table [] wrm_node old_store = Some (PARAM_SKIP_IMPORT, wrm_node, st') /\
    user_config_get old_table st' 0 = Some 0.
Proof.
  apply (engine_wrm_loses_int32 old_table [] old_table_ok wrm_node old_store 0 (proj2 old_nodes_wf) old_store_ok);
    try reflexivity; vm_compute; intuition discriminate.
Defined.
