(* ===== verification/ParamStorage.v ===== *)
(** * Saving and loading parameters

    Models the part of src/lib/parameters/parameters.cpp that works on files (save, verify,
    export, import, load, the names of the default and the backup file), autosave.cpp ([Run]),
    and the shutdown lock of platforms/common/shutdown.cpp that a save holds.

    The file system maps names to contents. Every [open] meets the next of a list of faults:
    it may fail, or give a file that takes only so many bytes; after the list there are no
    faults. A device keeps its size when it is opened for writing. The results of [close],
    [px4_usleep] and of taking a mutex that is free are not modelled. *)
From stdpp Require Import base tactics strings list gmap.
From Stdlib Require Import ZArith Lia.
From S2P Require Import Prelude.
From S2P Require Import Containers.
From S2P Require Import Bson.
From S2P Require Import ParamLayers.
From S2P Require Import Float32.
From S2P Require Import Parameters.
From S2P Require Import ParamTranslation.

Definition EWOULDBLOCK : Z := 11.
Definition ENOENT : Z := 2.
Definition EIO : Z := 5.

(** ** The shutdown lock *)

Record shutdown_state := mkShutdown {
  shutdown_lock_counter : Z;
  shutdown_lock_watchdog_cb_triggered : bool;
  watchdog_scheduled : bool;
}.

(** [queued] is whether [work_queue] accepts the watchdog. *)
Definition px4_shutdown_lock (queued : bool) (s : shutdown_state) : Z * shutdown_state :=
  if (s.(shutdown_lock_counter) =? 0) && negb queued then (-1, s)
  else (0, mkShutdown (u8 (s.(shutdown_lock_counter) + 1)) false
             (if s.(shutdown_lock_counter) =? 0 then true else s.(watchdog_scheduled))).

Definition px4_shutdown_unlock (s : shutdown_state) : shutdown_state :=
  if 0 <? s.(shutdown_lock_counter) then
    let counter := s.(shutdown_lock_counter) - 1 in
    mkShutdown counter s.(shutdown_lock_watchdog_cb_triggered)
      (if counter =? 0 then false else s.(watchdog_scheduled))
  else s.

Definition shutdown_lock_watchdog_cb (s : shutdown_state) : shutdown_state :=
  if negb (s.(shutdown_lock_counter) =? 0) then mkShutdown 0 true false
  else mkShutdown 0 s.(shutdown_lock_watchdog_cb_triggered) false.

(** ** The file system *)

Inductive fault := No_fault | Open_fails | Space (n : Z).

Record storage (L : Type) := mkStorage {
  s_params : params L;
  s_files : gmap (list Z) (list Z);
  param_default_file : option (list Z);
  param_backup_file : option (list Z);
  file_mutex : bool;
  s_shutdown : shutdown_state;
  s_open_fds : Z;
  s_faults : list fault;
}.
Arguments mkStorage {_}.
Arguments s_params {_}.
Arguments s_files {_}.
Arguments param_default_file {_}.
Arguments param_backup_file {_}.
Arguments file_mutex {_}.
Arguments s_shutdown {_}.
Arguments s_open_fds {_}.
Arguments s_faults {_}.

Section storage.
Context (parameters : list param_info) (parameters_readonly : list Z) {L : Type} `{ParamLayer L}.
(** Which names are devices, how much space the medium has, whether work is queued. *)
Context (is_device : list Z -> bool) (space : Z) (queued : bool).

Definition with_params (s : storage L) (st : params L) : storage L :=
  mkStorage st s.(s_files) s.(param_default_file) s.(param_backup_file) s.(file_mutex) s.(s_shutdown) s.(s_open_fds)
    s.(s_faults).
Definition with_mutex (s : storage L) (b : bool) : storage L :=
  mkStorage s.(s_params) s.(s_files) s.(param_default_file) s.(param_backup_file) b s.(s_shutdown) s.(s_open_fds)
    s.(s_faults).
Definition with_shutdown (s : storage L) (x : shutdown_state) : storage L :=
  mkStorage s.(s_params) s.(s_files) s.(param_default_file) s.(param_backup_file) s.(file_mutex) x s.(s_open_fds)
    s.(s_faults).
(** The file system after an access: contents, descriptors, faults that are left. *)
Definition with_fs (s : storage L) (files : gmap (list Z) (list Z)) (fds : Z) (faults : list fault) : storage L :=
  mkStorage s.(s_params) files s.(param_default_file) s.(param_backup_file) s.(file_mutex) s.(s_shutdown) fds faults.

(** [open]: the file or [inl errno]. *)
Definition open (s : storage L) (fname : list Z) (creat trunc : bool) : (Z + file) * storage L :=
  let faults := tail s.(s_faults) in
  let failed e := (inl e, with_fs s s.(s_files) s.(s_open_fds) faults) in
  let opened data cap :=
    let data := if trunc && negb (is_device fname) then [] else data in
    (inr (mkFile data 0 cap), with_fs s (<[fname := data]> s.(s_files)) (s.(s_open_fds) + 1) faults) in
  match default No_fault (head s.(s_faults)) with
  | Open_fails => failed EIO
  | f =>
    let cap := match f with Space n => n | _ => space end in
    match s.(s_files) !! fname with
    | Some data => opened data cap
    | None => if creat then opened [] cap else failed ENOENT
    end
  end.

(** What was written through a descriptor is in the file. *)
Definition written (s : storage L) (fname : list Z) (f : file) : storage L :=
  with_fs s (<[fname := f.(f_data)]> s.(s_files)) s.(s_open_fds) s.(s_faults).

Definition close (s : storage L) : storage L := with_fs s s.(s_files) (s.(s_open_fds) - 1) s.(s_faults).

(** [filename] is [None] for [nullptr]; [None] as a result: [strcmp] gets a null pointer. *)
Definition param_set_default_file (s : storage L) (filename : option (list Z)) : option (Z * storage L) :=
  same ← match s.(param_backup_file) with
         | Some b => f ← filename; Some (strcmp f b =? 0)
         | None => Some false
         end;
  if same : bool then Some (PX4_ERROR, s)
  else Some (0, mkStorage s.(s_params) s.(s_files) filename s.(param_backup_file) s.(file_mutex) s.(s_shutdown)
                  s.(s_open_fds) s.(s_faults)).

Definition param_set_backup_file (s : storage L) (filename : option (list Z)) : option (Z * storage L) :=
  same ← match s.(param_default_file) with
         | Some d => f ← filename; Some (strcmp f d =? 0)
         | None => Some false
         end;
  if same : bool then Some (PX4_ERROR, s)
  else Some (0, mkStorage s.(s_params) s.(s_files) s.(param_default_file) filename s.(file_mutex) s.(s_shutdown)
                  s.(s_open_fds) s.(s_faults)).

Definition param_get_default_file (s : storage L) : option (list Z) := s.(param_default_file).
Definition param_get_backup_file (s : storage L) : option (list Z) := s.(param_backup_file).

(** *** Export *)

(** One pass of the loop: [inl] continues with the encoder, [inr] is [goto out]. *)
Definition export_param (st : params L) (filter : option (Z -> bool)) (changed : list Z) (e : bson_encoder) (p : Z)
  : option (bson_encoder + bson_encoder) :=
  c ← AtomicBitset_get changed p;
  if negb c || match filter with Some f => negb (f p) | None => false end then Some (inl e)
  else
    runtime_default_value ← runtime_defaults_get parameters st p;
    user_config_value ← user_config_get parameters st p;
    let skip :=
      if param_type parameters p =? PARAM_TYPE_INT32 then user_config_value =? runtime_default_value
      else if param_type parameters p =? PARAM_TYPE_FLOAT then differ_le_eps user_config_value runtime_default_value
      else false in
    if skip then Some (inl e)
    else
      nm ← param_name parameters p;
      if param_type parameters p =? PARAM_TYPE_INT32 then
        '(r, e) ← bson_encoder_append_int32 true e nm (s32 user_config_value);
        Some (if negb (r =? 0) then inr e else inl e)
      else if param_type parameters p =? PARAM_TYPE_FLOAT then
        '(r, e) ← bson_encoder_append_double true e nm (f64_of_f32 user_config_value);
        Some (if negb (r =? 0) then inr e else inl e)
      else Some (inl e).

Fixpoint export_loop (st : params L) (filter : option (Z -> bool)) (changed : list Z) (e : bson_encoder) (ps : list Z)
  : option (bson_encoder + bson_encoder) :=
  match ps with
  | [] => Some (inl e)
  | p :: ps =>
    r ← export_param st filter changed e p;
    match r with inl e => export_loop st filter changed e ps | inr e => Some (inr e) end
  end.

(** The result and the file. *)
Definition param_export_internal (st : params L) (fd : file) (filter : option (Z -> bool)) : option (Z * file) :=
  let file_of (e : bson_encoder) := default fd e.(e_fd) in
  changed_params ← layer_contained (param_info_count parameters) st.(user_config);
  let bson_buffer := replicate 256 0 in
  '(r, e) ← bson_encoder_init_buf_file true (file_rewind fd) bson_buffer 256;
  if negb (r =? 0) then Some (-1, file_of e)
  else
    r ← export_loop st filter changed_params e (all_params parameters);
    match r with
    | inr e => Some (-1, file_of e)
    | inl e => '(r, e) ← bson_encoder_fini true e; Some (if negb (r =? PX4_OK) then -1 else 0, file_of e)
    end.

(** *** Verification *)

(** A valid node gives 1; the end of the document 0. *)
Definition param_verify_callback (st : params L) (d : bson_decoder) (_ : unit) : option (Z * bson_decoder * unit) :=
  let node := d.(d_node) in
  if node.(n_type) =? BSON_EOO then Some (0, d, ())
  else
    p ← param_find_no_notification parameters st node.(n_name);
    if p =? PARAM_INVALID then Some (-1, d, ())
    else if node.(n_type) =? BSON_INT32 then
      if negb (param_type parameters p =? PARAM_TYPE_INT32) then Some (-1, d, ())
      else
        '(r, value) ← param_get parameters st p true;
        Some (if (r =? 0) && (s32 (default 0 value) =? node_i32 node) then 1 else -1, d, ())
    else if node.(n_type) =? BSON_DOUBLE then
      if negb (param_type parameters p =? PARAM_TYPE_FLOAT) then Some (-1, d, ())
      else
        '(r, value) ← param_get parameters st p true;
        Some (if (r =? 0) && differ_le_eps (default 0 value) (f32_of_f64 (node_d node)) then 1 else -1, d, ())
    else Some (-1, d, ()).

(** Decoding calls at most once per byte and once more. *)
Definition decode_fuel (fd : file) : nat := S (S (length fd.(f_data))).

(** [fd] is [None] for a negative descriptor. *)
Definition param_verify (st : params L) (fd : option file) : option Z :=
  match fd with
  | None => Some (-1)
  | Some fd =>
    let fd := file_rewind fd in
    '(r, decoder) ← bson_decoder_init_file fd;
    if negb (r =? 0) then Some (-1)
    else
      '(result, decoder, _) ← decode_loop (param_verify_callback st) (decode_fuel fd) decoder ();
      Some (if result =? 0 then
              (if negb (decoder.(d_total_document_size) =? decoder.(d_total_decoded_size)) then -1 else 0)
            else -1)
  end.

(** *** Save *)

(** The part of an attempt after a successful export: the file is read back twice. *)
Definition save_verify (s : storage L) (filename : list Z) : option (Z * storage L) :=
  let '(fd, s) := open s filename false false in
  let fd := match fd with inr f => Some f | inl _ => None end in
  v1 ← param_verify s.(s_params) fd;
  v2 ← (if v1 =? 0 then param_verify s.(s_params) fd else Some v1);
  let s := match fd with Some _ => close s | None => s end in
  Some (b2z (negb (v1 =? 0) || negb (v2 =? 0)), s).

Definition save_attempt (s : storage L) (filename : list Z) (res : Z) : option (Z * storage L) :=
  let '(fd, s) := open s filename true true in
  match fd with
  | inl _ => Some (res, s)
  | inr fd =>
    '(res, fd) ← param_export_internal s.(s_params) fd None;
    let s := close (written s filename fd) in
    if res =? PX4_OK then save_verify s filename else Some (res, s)
  end.

Fixpoint save_attempts (n : nat) (s : storage L) (filename : list Z) (res : Z) : option (Z * storage L) :=
  match n with
  | O => Some (res, s)
  | S n =>
    '(res, s) ← save_attempt s filename res;
    if res =? PX4_OK then Some (res, s) else save_attempts n s filename res
  end.

Definition save_backup (s : storage L) : option (storage L) :=
  match s.(param_backup_file) with
  | None => Some s
  | Some backup =>
    let '(fd, s) := open s backup true true in
    match fd with
    | inl _ => Some s
    | inr fd =>
      '(backup_export_ret, fd) ← param_export_internal s.(s_params) fd None;
      let s := close (written s backup fd) in
      if negb (backup_export_ret =? 0) then Some s
      else
        let '(fd, s) := open s backup false false in
        let fd := match fd with inr f => Some f | inl _ => None end in
        _ ← param_verify s.(s_params) fd;
        Some (match fd with Some _ => close s | None => s end)
    end
  end.

Definition flash_param_save : Z := -1.
Definition flash_param_load : Z := -1.
Definition flash_param_import : Z := -1.

(** [params_unsaved.reset()]. *)
Definition clear_unsaved (st : params L) : params L := set_unsaved st (map (fun _ => 0) st.(params_unsaved)).

Definition param_save_default (s : storage L) (blocking : bool) : option (Z * storage L) :=
  if negb blocking && s.(file_mutex) then Some (- EWOULDBLOCK, s)
  else
    let s := with_mutex s true in
    let '(shutdown_lock_ret, sd) := px4_shutdown_lock queued s.(s_shutdown) in
    let s := with_shutdown s sd in
    '(res, s) ←
      match param_get_default_file s with
      | Some filename => save_attempts 3 s filename PX4_ERROR
      | None => Some (flash_param_save, s)
      end;
    s ← (if negb (res =? PX4_OK) then Some s
         else save_backup (with_params s (clear_unsaved s.(s_params))));
    let s := with_mutex s false in
    let s := if shutdown_lock_ret =? 0 then with_shutdown s (px4_shutdown_unlock s.(s_shutdown)) else s in
    Some (res, s).

Definition param_export (s : storage L) (filename : list Z) (filter : option (Z -> bool)) : option (Z * storage L) :=
  let '(shutdown_lock_ret, sd) := px4_shutdown_lock queued s.(s_shutdown) in
  let s := with_shutdown s sd in
  if s.(file_mutex) then Some (PX4_ERROR, s)
  else
    let s := with_mutex s true in
    let '(fd, s) := open s filename true false in
    '(result, s) ←
      match fd with
      | inr fd => '(r, fd) ← param_export_internal s.(s_params) fd filter; Some (r, written s filename fd)
      | inl _ => Some (flash_param_save, s)
      end;
    let s := with_mutex s false in
    let s := if shutdown_lock_ret =? 0 then with_shutdown s (px4_shutdown_unlock s.(s_shutdown)) else s in
    Some (result, s).

(** *** Import *)

Definition param_import_callback (d : bson_decoder) (st : params L) : option (Z * bson_decoder * params L) :=
  let node := d.(d_node) in
  if node.(n_type) =? BSON_EOO then Some (0, d, st)
  else
    '(r, node, st) ← param_modify_on_import parameters parameters_readonly node st;
    let d := with_node d node in
    match r with
    | PARAM_SKIP_IMPORT => Some (1, d, st)
    | _ =>
      p ← param_find_no_notification parameters st node.(n_name);
      if p =? PARAM_INVALID then Some (1, d, st)
      else if node.(n_type) =? BSON_INT32 then
        if param_type parameters p =? PARAM_TYPE_INT32 then
          '(_, st) ← param_set_internal parameters parameters_readonly st p (Some (u32 (node_i32 node))) true true;
          Some (1, d, st)
        else Some (1, d, st)
      else if node.(n_type) =? BSON_DOUBLE then
        if param_type parameters p =? PARAM_TYPE_FLOAT then
          '(_, st) ← param_set_internal parameters parameters_readonly st p (Some (f32_of_f64 (node_d node))) true true;
          Some (1, d, st)
        else Some (1, d, st)
      else Some (1, d, st)
    end.

(** The attempts that are left: [last] is [attempt == MAX_ATTEMPTS]. *)
Fixpoint import_attempts (n : nat) (fd : file) (st : params L) : option (Z * params L) :=
  match n with
  | O => Some (-1, st)
  | S n =>
    let last := match n with O => true | _ => false end in
    '(r, decoder) ← bson_decoder_init_file fd;
    '(ret, st) ←
      (if r =? 0 then
         '(result, decoder, st) ← decode_loop param_import_callback (decode_fuel fd) decoder st;
         Some (if (result =? 0) && (decoder.(d_total_document_size) =? decoder.(d_total_decoded_size)) then Some 0
               else if (result =? - ENODATA) && last then Some 0
               else None, st)
       else Some (None, st));
    match ret with
    | Some r => Some (r, st)
    | None => import_attempts n (if last then fd else file_rewind fd) st
    end
  end.

(** [regular]: [fstat] succeeds and finds a regular file. *)
Definition param_import_internal (regular : bool) (fd : file) (st : params L) : option (Z * params L) :=
  if regular && (zlen fd.(f_data) =? 0) then Some (1, st)
  else
    let '(bytes, fd) := file_read fd 4 in
    let len := zlen bytes in
    let doc_size := s32 (le_value bytes) in
    if (len =? 0) || ((len =? 4) && ((doc_size =? 0) || (doc_size =? -1))) then Some (1, st)
    else import_attempts 3 (file_rewind fd) st.

(** [fd] is the descriptor with whether it is a regular file. *)
Definition param_import (fd : option (bool * file)) (st : params L) : option (Z * params L) :=
  match fd with
  | None => Some (flash_param_import, st)
  | Some (regular, fd) => param_import_internal regular fd st
  end.

Definition param_load (fd : option (bool * file)) (st : params L) : option (Z * params L) :=
  match fd with
  | None => Some (flash_param_load, st)
  | Some (regular, fd) =>
    st ← param_reset_all_internal parameters parameters_readonly st false;
    param_import_internal regular fd st
  end.

Definition param_load_default (s : storage L) : option (Z * storage L) :=
  match param_get_default_file s with
  | None => Some (flash_param_load, s)
  | Some filename =>
    let '(fd_load, s) := open s filename false false in
    match fd_load with
    | inl errno => Some (if negb (errno =? ENOENT) then -1 else 1, s)
    | inr fd =>
      '(result, st) ← param_load (Some (negb (is_device filename), fd)) s.(s_params);
      let s := close (with_params s st) in
      Some (if result =? 1 then 1 else if negb (result =? 0) then -2 else 0, s)
    end
  end.

(** *** The work item of the autosave *)

(** [armed] is the state of actuator_armed, [a] the item. *)
Definition ParamAutosave_Run (armed : bool) (a : ParamAutosave) (s : storage L) : option (ParamAutosave * storage L) :=
  let now := s.(s_params).(p_now) in
  match param_get_default_file s, armed with
  | None, true =>
    Some (mkAutosave a.(_last_timestamp) a.(_scheduled) a.(_retry_count) a.(_disabled) (Some (now + 1000000)), s)
  | _, _ =>
    let a := mkAutosave now false a.(_retry_count) a.(_disabled) None in
    if a.(_disabled) then Some (a, s)
    else
      '(ret, s) ← param_save_default s false;
      let with_retry a n := mkAutosave a.(_last_timestamp) a.(_scheduled) n a.(_disabled) a.(as_deadline) in
      Some (if negb (ret =? PX4_OK) then
              (if a.(_retry_count) <? 3 then autosave_request now (with_retry a (a.(_retry_count) + 1))
               else with_retry a 0)
            else with_retry a 0, s)
  end.
End storage.
