(* ===== verification/ParamPersistence.v ===== *)
(** * Parameters survive a save and a load

    Theorems on ParamStorage: what [param_export_internal] writes, what [param_verify] accepts,
    that [param_save_default] and [param_load_default] return whatever the faults and the
    contents of the file, and that a load restores what a save stored. *)
From stdpp Require Import base tactics strings list gmap.
From Stdlib Require Import ZArith Lia.
From S2P Require Import Prelude.
From S2P Require Import Containers.
From S2P Require Import Bson.
From S2P Require Import ParamLayers.
From S2P Require Import Float32.
From S2P Require Import Parameters.
From S2P Require Import ParamTranslation.
From S2P Require Import ParamStorage.

(** Comparisons of the two parameter types. *)
Ltac type_eqb :=
  change (PARAM_TYPE_INT32 =? PARAM_TYPE_INT32) with true in *; change (PARAM_TYPE_FLOAT =? PARAM_TYPE_INT32) with false in *;
  change (PARAM_TYPE_FLOAT =? PARAM_TYPE_FLOAT) with true in *; change (PARAM_TYPE_INT32 =? PARAM_TYPE_FLOAT) with false in *;
  cbn iota in *.

Lemma length_omap_le {A B} (f : A -> option B) l : (length (omap f l) <= length l)%nat.
Proof. induction l as [|x l IH]; [done|]. cbn [omap list_omap length]. destruct (f x); simpl in *; unfold omap in *; lia. Qed.

Section persistence.
Context (parameters : list param_info) (parameters_readonly : list Z) {L : Type} `{ParamLayer L}.
Context `{PLL : !ParamLayerLaws (param_info_count parameters) L}.
Context (Ht : table_ok parameters).
(** Names are shorter than BSON_MAXNAME (px_generate_params.py allows 16 characters). *)
Context (Hshort : Forall (fun i => zlen i.(name) <= 31) parameters).

Notation count := (param_info_count parameters).
Notation ptype := (param_type parameters).

(** ** What is exported *)

(** Whether a value is left out because it is the default. *)
Definition is_default_value (p v d : Z) : bool :=
  if ptype p =? PARAM_TYPE_INT32 then v =? d else differ_le_eps v d.

Definition node_value (p v : Z) : bvalue :=
  if ptype p =? PARAM_TYPE_INT32 then VInt32 (s32 v) else VDouble (f64_of_f32 v).

(** The user's value of [p], if it is exported. *)
Definition exported_value (dm um : gmap Z Z) (filter : option (Z -> bool)) (p : Z) : option Z :=
  v ← um !! p;
  if match filter with Some f => negb (f p) | None => false end then None
  else if is_default_value p v (default_value parameters dm p) then None
  else Some v.

Definition param_node (dm um : gmap Z Z) (filter : option (Z -> bool)) (p : Z) : option (list Z * bvalue) :=
  v ← exported_value dm um filter p; nm ← param_name parameters p; Some (nm, node_value p v).

Definition export_nodes (dm um : gmap Z Z) (filter : option (Z -> bool)) (ps : list Z) : list (list Z * bvalue) :=
  omap (param_node dm um filter) ps.

Definition maps_of (st : params L) : gmap Z Z * gmap Z Z := (layer_map st.(runtime_defaults), layer_map st.(user_config)).

Definition nodes_of (st : params L) (filter : option (Z -> bool)) : list (list Z * bvalue) :=
  export_nodes (maps_of st).1 (maps_of st).2 filter (all_params parameters).

Lemma export_loop_append st filter changed ps : params_ok parameters st ->
  bitset_wf 32 count changed ->
  (forall p, 0 <= p < count -> bit 32 changed p = bool_decide (is_Some (layer_map st.(user_config) !! p))) ->
  Forall (fun p => 0 <= p < count) ps ->
  forall e, export_loop parameters st filter changed e ps =
    '(r, e) ← append_all e (export_nodes (maps_of st).1 (maps_of st).2 filter ps); Some (if r =? 0 then inl e else inr e).
Proof.
  intros Hst Hwf Hbit. induction 1 as [|p ps Hp _ IH]; intros e; [done|]. cbn [export_loop]. unfold export_param.
  unfold AtomicBitset_get. rewrite (bitset_get_bit 32 ltac:(lia) _ _ _ Hwf Hp), Hbit by done. cbn [mbind option_bind].
  unfold export_nodes. cbn [omap list_omap]. unfold param_node at 1. unfold exported_value. cbn [maps_of fst snd].
  destruct (layer_map (user_config st) !! p) as [v|] eqn:Hv; cbn [mbind option_bind].
  2:{ rewrite bool_decide_false by (by intros [? ?]). cbn [negb orb]. apply IH. }
  rewrite bool_decide_true by done. cbn [negb orb].
  destruct (match filter with Some f => negb (f p) | None => false end); cbn [mbind option_bind]; [apply IH|].
  rewrite (runtime_defaults_get_ok parameters st p Hst), (user_config_get_ok parameters st p Hst). cbn [mbind option_bind].
  unfold current_value. rewrite Hv. cbn [default id]. destruct (zlookup_lt parameters p Hp) as [i Hi].
  rewrite (param_name_lookup _ _ _ Hi). cbn [mbind option_bind]. unfold is_default_value, node_value.
  destruct (type_cases parameters p Ht Hp) as [-> | ->]; type_eqb.
  - case_if; cbn [mbind option_bind]; [apply IH|]. cbn [append_all append].
    destruct (bson_encoder_append_int32 _ _ _ _) as [[r e']|]; cbn [mbind option_bind]; [|done].
    destruct (r =? 0) eqn:Er; cbn [negb]; [apply IH|]. cbn [mbind option_bind]. by rewrite Er.
  - case_if; cbn [mbind option_bind]; [apply IH|]. cbn [append_all append].
    destruct (bson_encoder_append_double _ _ _ _) as [[r e']|]; cbn [mbind option_bind]; [|done].
    destruct (r =? 0) eqn:Er; cbn [negb]; [apply IH|]. cbn [mbind option_bind]. by rewrite Er.
Qed.

(** An export is the document of the exported nodes. *)
Lemma export_encode st fd filter : params_ok parameters st ->
  param_export_internal parameters st fd filter =
    '(r, e) ← encode_file (file_rewind fd) (replicate 256 0) (nodes_of st filter);
    Some (if r =? 0 then 0 else -1, default fd e.(e_fd)).
Proof.
  intros Hst. unfold param_export_internal, encode_file.
  destruct (layer_contained_spec (user_config st) (pk_user _ _ Hst)) as (bits & E & Hwf & Hbit). rewrite E.
  cbn [mbind option_bind]. change (zlen (replicate 256 0)) with 256.
  destruct (bson_encoder_init_buf_file _ _ _ _) as [[r e]|]; cbn [mbind option_bind]; [|done].
  destruct (r =? 0) eqn:Er; cbn [negb mbind option_bind]; [|by rewrite Er].
  rewrite (export_loop_append st filter bits (all_params parameters) Hst Hwf Hbit (all_params_range parameters)).
  fold (nodes_of st filter). destruct (append_all e _) as [[r1 e1]|]; cbn [mbind option_bind]; [|done].
  destruct (r1 =? 0) eqn:Er1; cbn [negb mbind option_bind]; [|by rewrite Er1].
  destruct (bson_encoder_fini true e1) as [[r2 e2]|]; cbn [mbind option_bind]; [|done].
  change PX4_OK with 0. by destruct (r2 =? 0).
Qed.

Lemma param_node_ok dm um filter p nv :
  map_Forall (fun p v => 0 <= p < count /\ value_ok v) um -> param_node dm um filter p = Some nv -> node_ok 31 256 nv.
Proof.
  intros Hum E. unfold param_node, exported_value in E. destruct (um !! p) as [v|] eqn:Hv; [|done]. cbn [mbind option_bind] in E.
  destruct (Hum p v Hv) as [Hp Hvok]. destruct (match filter with Some f => negb (f p) | None => false end); [done|].
  destruct (is_default_value p v _); [done|]. cbn [mbind option_bind] in E. destruct (zlookup_lt parameters p Hp) as [i Hi].
  rewrite (param_name_lookup _ _ _ Hi) in E. cbn [mbind option_bind] in E. injection E as <-. split; [|split]; cbn [fst snd].
  - exact (table_name parameters p i Ht Hi).
  - rewrite Forall_forall in Hshort. apply Hshort. by eapply zlookup_elem.
  - unfold node_value. case_if; [by apply (swrap_range 32)|by apply f64_of_f32_range].
Qed.

Lemma export_nodes_ok dm um filter ps :
  map_Forall (fun p v => 0 <= p < count /\ value_ok v) um -> Forall (node_ok 31 256) (export_nodes dm um filter ps).
Proof.
  intros Hum. apply Forall_forall. intros nv (p & _ & E)%list_elem_of_omap. by eapply param_node_ok.
Qed.

Lemma node_ok_31_32 nv : node_ok 31 256 nv -> node_ok 32 256 nv.
Proof. intros (? & ? & ?). split_and!; [done|lia|done]. Qed.

(** A node takes at most 41 bytes: all parameters together fit an [int32_t]. *)
Lemma nodes_size nodes :
  Forall (fun nv : list Z * bvalue => zlen nv.1 <= 31 /\ zlen (value_bytes nv.2) <= 8) nodes ->
  zlen (concat (map node_bytes nodes)) <= 41 * zlen nodes.
Proof.
  induction 1 as [|nv nodes [Hn Hv] _ IH]; [done|]. cbn [map concat]. rewrite zlen_app, zlen_cons.
  unfold node_bytes at 1. rewrite !zlen_app. change (zlen [value_type nv.2]) with 1. change (zlen [0]) with 1. lia.
Qed.

Lemma export_size dm um filter :
  map_Forall (fun p v => 0 <= p < count /\ value_ok v) um ->
  zlen (document (export_nodes dm um filter (all_params parameters))) < 2 ^ 31.
Proof.
  intros Hum. set (nodes := export_nodes _ _ _ _). unfold document, body. rewrite !zlen_app, zlen_le_bytes. change (zlen [BSON_EOO]) with 1.
  pose proof (nodes_size nodes) as Hs. assert (zlen nodes <= count) as Hc.
  { unfold nodes, export_nodes, zlen. etrans; [apply inj_le, length_omap_le|]. unfold all_params. rewrite length_seqZ.
    pose proof (t_count _ Ht). lia. }
  pose proof (t_count _ Ht). unfold PARAM_INVALID in *. rewrite Z.add_comm. enough (zlen (concat (map node_bytes nodes)) <= 41 * zlen nodes) by lia.
  apply Hs. apply Forall_forall. intros nv (p & _ & E)%list_elem_of_omap. split; [by eapply param_node_ok|].
  unfold param_node in E. destruct (exported_value _ _ _ _) as [v|]; [|done]. cbn [mbind option_bind] in E.
  destruct (param_name _ _); [|done]. injection E as <-. cbn [snd]. unfold node_value. case_if; cbn [value_bytes]; by rewrite zlen_le_bytes.
Qed.

(** An export succeeds exactly if the document fits the file. *)
Lemma export_cases st fd filter : params_ok parameters st -> Forall byte_ok fd.(f_data) ->
  let doc := document (nodes_of st filter) in
  exists r f, param_export_internal parameters st fd filter = Some (r, f) /\ Forall byte_ok f.(f_data) /\
    ((r = 0 /\ zlen doc <= fd.(f_capacity) /\ f.(f_data) = doc ++ drop (length doc) fd.(f_data)) \/
     (r = -1 /\ fd.(f_capacity) < zlen doc)).
Proof.
  intros Hst Hfd doc. rewrite export_encode by done. unfold file_rewind.
  assert (Forall (node_ok 31 256) (nodes_of st filter)) as Hn by (apply export_nodes_ok, Hst).
  destruct (encode_file_cases byte_ok ltac:(done) (f_data fd) (f_capacity fd) (replicate 256 0) (nodes_of st filter))
    as (r & e & E & H1); [done|eapply Forall_impl; [exact Hn|apply node_ok_31_32]|apply export_size, Hst|done|].
  rewrite E. cbn [mbind option_bind]. destruct H1 as [(-> & Hc & Hf)|(-> & Hc & _ & f & Hf & Hb)]; rewrite Hf; cbn [default id].
  - eexists _, _. split; [done|]. cbn [f_data]. split; [|by left]. apply Forall_app. split; [|by apply Forall_drop].
    unfold document, body. rewrite !Forall_app. split_and!; [apply le_bytes_ok| |by apply Forall_singleton].
    apply Forall_concat, Forall_map. eapply Forall_impl; [exact Hn|]. intros nv Hnv. by apply (node_bytes_ok 256), node_ok_31_32.
  - exists (-1), f. split; [done|]. split; [done|]. by right.
Qed.
(** ** Verification *)

Lemma find_quiet_ok st nm : params_ok parameters st -> name_ok nm ->
  exists p, param_find_no_notification parameters st nm = Some p /\
    ((0 <= p < count /\ param_name parameters p = Some nm) \/ (p = PARAM_INVALID /\ forall q, param_name parameters q <> Some nm)).
Proof.
  intros Hst Hnm. destruct (param_find_ok parameters st nm Ht Hst Hnm) as (p & st' & _ & E & _ & _ & _ & Hp).
  exists p. split; [done|]. destruct Hp as [(? & ? & _)|(? & _ & ?)]; [by left|by right].
Qed.

Lemma find_quiet_name st p nm : params_ok parameters st -> 0 <= p < count -> param_name parameters p = Some nm ->
  param_find_no_notification parameters st nm = Some p.
Proof.
  intros Hst Hp Hnm. destruct (zlookup_lt parameters p Hp) as [i Hi]. rewrite (param_name_lookup _ _ _ Hi) in Hnm.
  injection Hnm as <-. destruct (find_quiet_ok st (name i) Hst (table_name _ _ _ Ht Hi)) as (q & E & [[Hq Hqn]|[_ Hno]]).
  - rewrite E. f_equal. eapply (param_name_inj parameters q p); [done|lia|lia|exact Hqn|]. by apply param_name_lookup.
  - exfalso. apply (Hno p). by apply param_name_lookup.
Qed.

Lemma param_get_ok st p : params_ok parameters st -> 0 <= p < count ->
  param_get parameters st p true = Some (PX4_OK, Some (current_value parameters (maps_of st).1 (maps_of st).2 p)).
Proof.
  intros Hst Hp. unfold param_get. rewrite (in_range parameters p Hp), (user_config_get_ok parameters st p Hst). cbn [negb mbind option_bind].
  by destruct (type_cases parameters p Ht Hp) as [-> | ->].
Qed.

(** On any node the callback returns. *)
Lemma verify_callback_ok st : params_ok parameters st -> callback_ok (fun _ => True) (param_verify_callback parameters st).
Proof.
  intros Hst d f u Hm _. pose proof (advances_same d f Hm) as Ha. unfold param_verify_callback.
  case_if; [by do 3 eexists|].
  destruct (find_quiet_ok st (n_name (d_node d)) Hst (nw_name _ (fm_node _ _ Hm))) as (p & E & Hp). rewrite E.
  cbn [mbind option_bind]. case_if; [by do 3 eexists|]. destruct Hp as [[Hp _]|[? _]]; [|done].
  repeat (case_if; [try (by do 3 eexists)|]); try (by do 3 eexists).
  all: rewrite param_get_ok by done; cbn [mbind option_bind]; by do 3 eexists.
Qed.

Lemma verify_total st fd : params_ok parameters st -> Forall byte_ok fd.(f_data) ->
  exists r, param_verify parameters st (Some fd) = Some r /\ (r = 0 \/ r = -1).
Proof.
  intros Hst Hb. unfold param_verify.
  destruct (decode_total (fun _ => True) (param_verify_callback parameters st) (file_rewind fd) () (decode_fuel (file_rewind fd)))
    as (ret & d & E & Hd); [by apply verify_callback_ok|done|cbn; auto with px4; pose proof (zlen_nonneg (f_data fd)); lia|done
    |unfold decode_fuel; cbn; lia|].
  rewrite E. cbn [mbind option_bind]. destruct (ret =? 0) eqn:Er; cbn [negb]; [|exists (-1); split; [done|by right]].
  destruct Hd as (r & d' & st' & E2 & _); [lia|]. rewrite E2. cbn [mbind option_bind]. eexists; split; [done|].
  repeat case_if; by (left + right).
Qed.

(** A node that agrees with the store is accepted; a float must be finite. *)
Definition value_finite (p v : Z) : bool := (ptype p =? PARAM_TYPE_INT32) || f32_is_finite v.

Definition finite_node (nv : list Z * bvalue) : bool := match nv.2 with VDouble d => f32_is_finite (f32_of_f64 d) | _ => true end.

Lemma finite_roundtrip v : value_ok v -> f32_is_finite (f32_of_f64 (f64_of_f32 v)) = f32_is_finite v.
Proof.
  intros Hv. destruct (f32_is_nan v) eqn:Hn.
  - pose proof (nan_of_f64_of_f32 v Hv Hn) as Hn2. unfold f32_is_nan, f32_is_finite in *. lia.
  - by rewrite f32_of_f64_of_f32.
Qed.

Lemma verify_accepts st p v nm : params_ok parameters st -> (maps_of st).2 !! p = Some v -> param_name parameters p = Some nm ->
  accepts (param_verify_callback parameters st) (fun _ _ => True) finite_node (nm, node_value p v).
Proof.
  intros Hst Hv Hnm seen d u _ [Hname Htype _ Hval]. cbn [maps_of snd fst] in *. destruct (pk_uvals _ _ Hst p v Hv) as [Hp Hvok].
  unfold param_verify_callback. rewrite Hname, Htype. unfold node_value in *.
  assert (value_type (if ptype p =? PARAM_TYPE_INT32 then VInt32 (s32 v) else VDouble (f64_of_f32 v)) =? BSON_EOO = false) as ->
    by (by case_if).
  rewrite (find_quiet_name st p nm Hst Hp Hnm). cbn [mbind option_bind]. pose proof (t_count _ Ht).
  rewrite (proj2 (Z.eqb_neq p PARAM_INVALID)), param_get_ok by (done || lia). cbn [mbind option_bind default id].
  unfold current_value. cbn [maps_of fst snd]. rewrite Hv. cbn [default id].
  destruct (type_cases parameters p Ht Hp) as [E|E]; rewrite E in *; type_eqb; cbn [value_type] in *.
  - change (BSON_INT32 =? BSON_INT32) with true. cbn [negb finite_node snd] in *. rewrite Hval, (Z.eqb_refl (s32 v)). do 2 eexists; split; [reflexivity|]. by split.
  - change (BSON_DOUBLE =? BSON_INT32) with false. change (BSON_DOUBLE =? BSON_DOUBLE) with true. cbn [negb finite_node snd] in *.
    rewrite Hval. do 2 eexists; split; [done|]. change (PX4_OK =? 0) with true. cbn [andb].
    rewrite finite_roundtrip by done. destruct (f32_is_finite v) eqn:Hf.
    + assert (f32_is_nan v = false) as Hn by (unfold f32_is_nan, f32_is_finite in *; lia).
      by rewrite f32_of_f64_of_f32, differ_le_eps_self, Hf.
    + case_if; [|done]. apply differ_le_eps_finite in Hif as [Hif _]. congruence.
Qed.

Lemma exported_inv dm um filter p v : exported_value dm um filter p = Some v -> um !! p = Some v.
Proof.
  unfold exported_value. destruct (um !! p) as [x|]; [|done]. cbn [mbind option_bind].
  by repeat (case_match; try done).
Qed.

Lemma export_node_inv dm um filter ps nv : nv ∈ export_nodes dm um filter ps ->
  exists p v nm, p ∈ ps /\ exported_value dm um filter p = Some v /\ param_name parameters p = Some nm /\ nv = (nm, node_value p v).
Proof.
  intros (p & Hp & E)%list_elem_of_omap. unfold param_node in E.
  destruct (exported_value dm um filter p) as [v|] eqn:Ev; [|done]. cbn [mbind option_bind] in E.
  destruct (param_name parameters p) as [nm|] eqn:Enm; [|done]. injection E as <-. by exists p, v, nm.
Qed.

Lemma node_value_scalar p v : is_scalar (node_value p v) = true.
Proof. unfold node_value. by case_if. Qed.

Lemma nodes_scalar dm um filter ps : map_Forall (fun p v => 0 <= p < count /\ value_ok v) um ->
  Forall (fun nv => node_ok 31 256 nv /\ is_scalar nv.2 = true) (export_nodes dm um filter ps).
Proof.
  intros Hum. apply Forall_forall. intros nv Hin. split.
  - pose proof (export_nodes_ok dm um filter ps Hum) as Hok. rewrite Forall_forall in Hok. by apply Hok.
  - apply export_node_inv in Hin as (p & v & nm & _ & _ & _ & ->). apply node_value_scalar.
Qed.

(** The start of a decoding loop on a document, for its fuel. *)
Lemma document_fuel nodes post cap : (length nodes < decode_fuel (mkFile (document nodes ++ post) 0 cap))%nat.
Proof. pose proof (length_nodes_body nodes). unfold decode_fuel, document. cbn [f_data]. rewrite !length_app. lia. Qed.

Lemma zlen_document nodes : zlen (document nodes) = 4 + zlen (body nodes).
Proof. unfold document. rewrite zlen_app, zlen_le_bytes. done. Qed.

Lemma verify_document st filter fd post : params_ok parameters st ->
  fd.(f_data) = document (nodes_of st filter) ++ post ->
  param_verify parameters st (Some fd) = Some (if forallb finite_node (nodes_of st filter) then 0 else -1).
Proof.
  intros Hst Hfd. set (nodes := nodes_of st filter) in *. unfold param_verify, file_rewind. rewrite Hfd.
  pose proof (export_size (maps_of st).1 (maps_of st).2 filter (pk_uvals _ _ Hst)) as H31. fold (nodes_of st filter) nodes in H31.
  rewrite init_file_document by done. cbn [mbind option_bind]. change (negb (0 =? 0)) with false. cbn iota.
  rewrite zlen_document in *.
  destruct (scalar_loop (param_verify_callback parameters st) 256 (fun _ _ => True) finite_node nodes
    (decode_fuel (mkFile (document nodes ++ post) 0 (f_capacity fd))) (le_bytes 4 (u32 (4 + zlen (body nodes)))) post (f_capacity fd)
    (mkBNode [] BSON_UNDEFINED 0 (replicate 8 0)) (4 + zlen (body nodes)) counts0 [] ()) as (r & d' & st' & E & Hr).
  - intros d [] He. unfold param_verify_callback. by rewrite He.
  - apply Forall_forall. intros nv (p & v & nm & _ & Hv & Hnm & ->)%export_node_inv. apply verify_accepts; [done| |done].
    by eapply exported_inv.
  - done.
  - done.
  - apply nodes_scalar, Hst.
  - done.
  - apply document_fuel.
  - rewrite zlen_le_bytes. lia.
  - rewrite E. cbn [mbind option_bind]. destruct (forallb finite_node nodes); [|by subst r].
    destruct Hr as (-> & _ & -> & ->). rewrite zlen_le_bytes. change (Z.of_nat 4) with 4. by rewrite !Z.eqb_refl.
Qed.

Lemma nodes_finite dm um filter : map_Forall (fun p v => 0 <= p < count /\ value_ok v) um ->
  forallb finite_node (export_nodes dm um filter (all_params parameters)) = true <->
  forall p v, exported_value dm um filter p = Some v -> value_finite p v = true.
Proof.
  intros Hum. assert (forall p v, value_ok v -> finite_node ([], node_value p v) = value_finite p v) as Hfin.
  { intros p v Hv. unfold finite_node, node_value, value_finite. cbn [snd]. case_if; [done|]. by rewrite finite_roundtrip. }
  rewrite forallb_forall. split.
  - intros Hall p v Hv. pose proof (exported_inv _ _ _ _ _ Hv) as Hu. destruct (Hum p v Hu) as [Hp Hvok].
    rewrite <- Hfin by done. destruct (zlookup_lt parameters p Hp) as [i Hi].
    apply (Hall (name i, node_value p v)), list_elem_of_In, list_elem_of_omap. exists p. split; [apply elem_of_seqZ; lia|].
    unfold param_node. rewrite Hv, (param_name_lookup _ _ _ Hi). done.
  - intros Hall nv (p & v & nm & _ & Hv & _ & ->)%list_elem_of_In%export_node_inv.
    pose proof (exported_inv _ _ _ _ _ Hv) as Hu. destruct (Hum p v Hu) as [_ Hvok].
    change (finite_node ([], node_value p v) = true). rewrite Hfin by done. by apply Hall.
Qed.

(** ** Saving *)

Context (is_device : list Z -> bool) (space : Z) (queued : bool).

Record storage_ok (s : storage L) : Prop := {
  so_params : params_ok parameters s.(s_params);
  so_files : map_Forall (fun _ data => Forall byte_ok data) s.(s_files);
}.

(** What an access to the file [fname] keeps. *)
Record touches (fname : list Z) (s s' : storage L) : Prop := {
  to_ok : storage_ok s';
  to_params : s'.(s_params) = s.(s_params);
  to_default : s'.(param_default_file) = s.(param_default_file);
  to_backup : s'.(param_backup_file) = s.(param_backup_file);
  to_mutex : s'.(file_mutex) = s.(file_mutex);
  to_shutdown : s'.(s_shutdown) = s.(s_shutdown);
  to_files g : g <> fname -> s'.(s_files) !! g = s.(s_files) !! g;
  to_faults : (length s'.(s_faults) <= length s.(s_faults))%nat;
}.

Lemma touches_refl fname s : storage_ok s -> touches fname s s.
Proof. by split. Qed.

Lemma touches_trans fname s1 s2 s3 : touches fname s1 s2 -> touches fname s2 s3 -> touches fname s1 s3.
Proof. intros [] []. split; [done|congruence..|intros g Hg; rewrite to_files1, to_files0; done|lia]. Qed.

(** An access that changes only the file system. *)
Lemma with_fs_touches fname s files fds faults : storage_ok s ->
  map_Forall (fun _ data => Forall byte_ok data) files -> (forall g, g <> fname -> files !! g = s.(s_files) !! g) ->
  (length faults <= length s.(s_faults))%nat -> touches fname s (with_fs s files fds faults).
Proof. intros [Hp Hf] Hfiles Hg Hl. by split. Qed.

Lemma insert_file_touches fname s data fds faults : storage_ok s -> Forall byte_ok data ->
  (length faults <= length s.(s_faults))%nat -> touches fname s (with_fs s (<[fname := data]> s.(s_files)) fds faults).
Proof.
  intros Hs Hd Hl. apply with_fs_touches; [done|apply map_Forall_insert_2; [done|apply Hs]| |done].
  intros g Hg. by rewrite lookup_insert_ne.
Qed.

Lemma tail_le {A} (l : list A) : (length (tail l) <= length l)%nat.
Proof. destruct l; simpl; lia. Qed.

Lemma open_ok s fname creat trunc : storage_ok s ->
  let '(r, s') := open is_device space s fname creat trunc in
  touches fname s s' /\ s'.(s_faults) = tail s.(s_faults) /\
  match r with
  | inl _ => s'.(s_open_fds) = s.(s_open_fds) /\ s'.(s_files) = s.(s_files) /\
      (s.(s_faults) = [] -> creat = true \/ is_Some (s.(s_files) !! fname) -> False)
  | inr f => s'.(s_open_fds) = s.(s_open_fds) + 1 /\ Forall byte_ok f.(f_data) /\
      s'.(s_files) !! fname = Some f.(f_data) /\ (s.(s_faults) = [] -> f.(f_capacity) = space) /\
      (trunc = false -> f.(f_data) = default [] (s.(s_files) !! fname)) /\ (creat = false -> is_Some (s.(s_files) !! fname))
  end.
Proof.
  intros Hs. unfold open. pose proof (tail_le (s_faults s)) as Htl.
  assert (touches fname s (with_fs s (s_files s) (s_open_fds s) (tail (s_faults s)))) as Hfail
    by (apply with_fs_touches; [done|apply Hs|done|done]).
  assert (forall data, Forall byte_ok data -> let data' := if trunc && negb (is_device fname) then [] else data in
    touches fname s (with_fs s (<[fname := data']> (s_files s)) (s_open_fds s + 1) (tail (s_faults s))) /\ Forall byte_ok data') as Hopen.
  { intros data Hd data'. assert (Forall byte_ok data') as Hd' by (unfold data'; by case_if).
    split; [|done]. by apply insert_file_touches. }
  assert (Forall byte_ok (default [] (s_files s !! fname))) as Hold.
  { destruct (s_files s !! fname) as [data|] eqn:E; [|done]. exact (so_files _ Hs fname data E). }
  destruct (default No_fault (head (s_faults s))) as [| |n] eqn:Ef.
  - destruct (s_files s !! fname) as [data|] eqn:E; cbn [default id] in *; [|destruct creat].
    + destruct (Hopen data Hold) as [Ht1 Hb]. split_and!; [exact Ht1|done|done|exact Hb|apply lookup_insert_eq|done|by intros ->|by eauto].
    + destruct (Hopen [] Hold) as [Ht1 Hb]. split_and!; [exact Ht1|done|done|exact Hb|apply lookup_insert_eq|done|by intros ->|by eauto].
    + split_and!; [exact Hfail|done|done|done|]. intros _ [?|[? ?]]; done.
  - split_and!; [exact Hfail|done|done|done|]. intros E. by rewrite E in Ef.
  - destruct (s_files s !! fname) as [data|] eqn:E; cbn [default id] in *; [|destruct creat].
    + destruct (Hopen data Hold) as [Ht1 Hb]. split_and!; [exact Ht1|done|done|exact Hb|apply lookup_insert_eq| |by intros ->|by eauto].
      intros E0. by rewrite E0 in Ef.
    + destruct (Hopen [] Hold) as [Ht1 Hb]. split_and!; [exact Ht1|done|done|exact Hb|apply lookup_insert_eq| |by intros ->|by eauto].
      intros E0. by rewrite E0 in Ef.
    + split_and!; [exact Hfail|done|done|done|]. intros _ [?|[? ?]]; done.
Qed.

Notation doc_of s := (document (nodes_of (s_params s) None)).
Notation finite_of s := (forallb finite_node (nodes_of (s_params s) None)).

(** The file holds the exported parameters, and reading them back succeeded. *)
Definition saved (fname : list Z) (s : storage L) : Prop :=
  finite_of s = true /\ exists post, s.(s_files) !! fname = Some (doc_of s ++ post).

(** What a run of accesses to one file guarantees. *)
Record accesses (fname : list Z) (s s' : storage L) : Prop := {
  ac_touches : touches fname s s';
  ac_fds : s'.(s_open_fds) = s.(s_open_fds);
  ac_faults : (length s'.(s_faults) <= length (tail s.(s_faults)))%nat;
}.

Lemma close_touches fname s : storage_ok s -> touches fname s (close s).
Proof. intros Hs. by apply with_fs_touches; [done|apply Hs|..]. Qed.

Lemma save_verify_ok s fname : storage_ok s -> is_Some (s.(s_files) !! fname) ->
  exists r s', save_verify parameters is_device space s fname = Some (r, s') /\ accesses fname s s' /\
    s'.(s_files) = s.(s_files) /\
    (forall post, s.(s_files) !! fname = Some (doc_of s ++ post) ->
      (r = 0 -> finite_of s = true) /\ (s.(s_faults) = [] -> finite_of s = true -> r = 0)).
Proof.
  intros Hs [data Hdata]. unfold save_verify. pose proof (open_ok s fname false false Hs) as Ho.
  destruct (open is_device space s fname false false) as [[e|f] s1]; destruct Ho as (Ht1 & Hf1 & Ho).
  - destruct Ho as (Hfd1 & Hfiles1 & Hno). cbn [param_verify mbind option_bind]. eexists _, s1. split; [reflexivity|].
    split; [split; [done|done|by rewrite Hf1]|]. split; [done|]. intros post _. split; [done|].
    intros H0 _. exfalso. apply Hno; [done|]. right. by exists data.
  - destruct Ho as (Hfd1 & Hb1 & Hl1 & _ & Hd1 & _). specialize (Hd1 eq_refl). rewrite Hdata in Hd1. cbn [default id] in Hd1.
    pose proof (to_ok _ _ _ Ht1) as Hs1. assert (s_files s1 = s_files s) as Hsame.
    { apply map_eq. intros g. destruct (decide (g = fname)) as [->|Hne]; [|by apply (to_files _ _ _ Ht1)]. congruence. }
    destruct (verify_total (s_params s1) f (so_params _ Hs1) Hb1) as (v1 & E1 & Hv1). rewrite E1. cbn [mbind option_bind].
    assert ((if v1 =? 0 then Some v1 else Some v1) = Some v1) as E2 by (by case_if).
    rewrite E2. cbn [mbind option_bind]. eexists _, (close s1). split; [reflexivity|]. split; [split|split; [exact Hsame|]].
    + eapply touches_trans; [exact Ht1|]. by apply close_touches.
    + cbn. lia.
    + cbn. by rewrite Hf1.
    + intros post Hpost. rewrite Hdata in Hpost. injection Hpost as ->.
      assert (param_verify parameters (s_params s1) (Some f) = Some (if finite_of s then 0 else -1)) as E3.
      { rewrite <- (to_params _ _ _ Ht1) in *. by apply (verify_document _ None f post (so_params _ Hs1)). }
      rewrite E1 in E3. injection E3 as ->. by destruct (finite_of s).
Qed.

Lemma save_attempt_ok s fname res : storage_ok s -> res <> 0 ->
  exists r s', save_attempt parameters is_device space s fname res = Some (r, s') /\ accesses fname s s' /\
    (r = 0 -> saved fname s') /\
    (s.(s_faults) = [] -> zlen (doc_of s) <= space -> finite_of s = true -> r = 0).
Proof.
  intros Hs Hres. unfold save_attempt. pose proof (open_ok s fname true true Hs) as Ho.
  destruct (open is_device space s fname true true) as [[e|fd] s1]; destruct Ho as (Ht1 & Hf1 & Ho).
  { destruct Ho as (Hfd1 & Hfiles1 & Hno). exists res, s1. split; [done|]. split; [split; [done|done|by rewrite Hf1]|].
    split; [done|]. intros H0 _ _. exfalso. apply Hno; [done|by left]. }
  destruct Ho as (Hfd1 & Hb1 & Hl1 & Hcap1 & _). pose proof (to_ok _ _ _ Ht1) as Hs1.
  destruct (export_cases (s_params s1) fd None (so_params _ Hs1) Hb1) as (r & f & E & Hbf & Hr). rewrite E. cbn [mbind option_bind].
  set (s2 := close (written s1 fname f)).
  assert (touches fname s1 s2) as Ht2.
  { unfold s2, close, written. apply (insert_file_touches fname s1 (f_data f) (s_open_fds s1 - 1) (s_faults s1)); done. }
  assert (touches fname s s2) as Ht12 by (by eapply touches_trans).
  assert (s_open_fds s2 = s_open_fds s) as Hfd2 by (cbn; lia).
  assert (s_files s2 !! fname = Some (f_data f)) as Hl2 by apply lookup_insert_eq.
  rewrite (to_params _ _ _ Ht1) in *. destruct Hr as [(-> & Hfits & Hdata)|(-> & Hnofit)]; cbn [Z.eqb PX4_OK].
  2:{ exists (-1), s2. split; [done|]. split; [split; [done|done|cbn; by rewrite Hf1]|]. split; [done|].
      intros H0 Hsp _. rewrite Hcap1 in Hnofit by done. lia. }
  destruct (save_verify_ok s2 fname (to_ok _ _ _ Ht12) ltac:(by eexists)) as (r & s3 & E3 & [Ht3 Hfd3 Hf3] & Hfiles3 & Hr3).
  assert (s_params s2 = s_params s) as Hps2 by apply (to_params _ _ _ Ht12). rewrite Hps2 in Hr3.
  destruct (Hr3 (drop (length (doc_of s)) (f_data fd))) as [Hfin Hok]; [by rewrite Hl2, Hdata|].
  exists r, s3. split; [exact E3|]. assert (touches fname s s3) as Ht13 by (by eapply touches_trans).
  split; [split; [done|congruence|etrans; [exact Hf3|]; etrans; [apply tail_le|]; cbn; by rewrite Hf1]|]. split.
  - intros Hr0. split; rewrite (to_params _ _ _ Ht13); [by apply Hfin|]. eexists. rewrite Hfiles3, Hl2, Hdata. done.
  - intros H0 _ Hf. apply Hok; [|done]. cbn. by rewrite Hf1, H0.
Qed.

(** Every attempt that fails has met a fault, or can never succeed. *)
Lemma save_attempts_ok n : forall s fname res, storage_ok s -> res <> 0 ->
  exists r s', save_attempts parameters is_device space n s fname res = Some (r, s') /\
    touches fname s s' /\ s'.(s_open_fds) = s.(s_open_fds) /\ (r = 0 -> saved fname s') /\
    (zlen (doc_of s) <= space -> finite_of s = true -> r = 0 \/ (length s'.(s_faults) + n <= length s.(s_faults))%nat).
Proof.
  induction n as [|n IH]; intros s fname res Hs Hres; cbn [save_attempts].
  { exists res, s. split; [done|]. split; [by apply touches_refl|]. split; [done|]. split; [done|]. intros; right; lia. }
  destruct (save_attempt_ok s fname res Hs Hres) as (r & s1 & E & [Ht1 Hfd1 Hf1] & Hsaved & Hok). rewrite E. cbn [mbind option_bind].
  change PX4_OK with 0. destruct (Z.eqb_spec r 0) as [->|Hr].
  { exists 0, s1. split; [done|]. split; [done|]. split; [done|]. split; [done|]. by left. }
  destruct (IH s1 fname r (to_ok _ _ _ Ht1) Hr) as (r2 & s2 & E2 & Ht2 & Hfd2 & Hsaved2 & Hok2).
  exists r2, s2. split; [done|]. split; [by eapply touches_trans|]. split; [congruence|]. split; [done|].
  rewrite (to_params _ _ _ Ht1) in Hok2. intros Hsp Hfin. destruct (Hok2 Hsp Hfin) as [?|Hl]; [by left|right].
  destruct (s_faults s) as [|x fs] eqn:Efs; [by destruct Hr; apply Hok|]. cbn [tail length] in *. lia.
Qed.

Lemma save_backup_ok s : storage_ok s ->
  exists s', save_backup parameters is_device space s = Some s' /\ s'.(s_open_fds) = s.(s_open_fds) /\
    match s.(param_backup_file) with Some b => touches b s s' | None => s' = s end.
Proof.
  intros Hs. unfold save_backup. destruct (param_backup_file s) as [b|]; [|by exists s].
  pose proof (open_ok s b true true Hs) as Ho.
  destruct (open is_device space s b true true) as [[e|fd] s1]; destruct Ho as (Ht1 & _ & Ho); [exists s1; tauto|].
  destruct Ho as (Hfd1 & Hb1 & _). pose proof (to_ok _ _ _ Ht1) as Hs1.
  destruct (export_cases (s_params s1) fd None (so_params _ Hs1) Hb1) as (r & f & E & Hbf & Hr). rewrite E. cbn [mbind option_bind].
  set (s2 := close (written s1 b f)).
  assert (touches b s1 s2) as Ht2.
  { unfold s2, close, written. apply (insert_file_touches b s1 (f_data f) (s_open_fds s1 - 1) (s_faults s1)); done. }
  assert (touches b s s2) as Ht12 by (by eapply touches_trans).
  assert (s_open_fds s2 = s_open_fds s) as Hfd2 by (cbn; lia). destruct (negb (r =? 0)); [by exists s2|].
  pose proof (open_ok s2 b false false (to_ok _ _ _ Ht12)) as Ho.
  destruct (open is_device space s2 b false false) as [[e|f3] s3]; destruct Ho as (Ht3 & _ & Ho).
  - cbn [param_verify mbind option_bind]. exists s3. split; [done|]. split; [destruct Ho as [? _]; congruence|]. by eapply touches_trans.
  - destruct Ho as (Hfd3 & Hb3 & _). pose proof (to_ok _ _ _ Ht3) as Hs3.
    destruct (verify_total (s_params s3) f3 (so_params _ Hs3) Hb3) as (v & Ev & _). rewrite Ev. cbn [mbind option_bind].
    exists (close s3). split; [done|]. split; [cbn; lia|]. eapply touches_trans; [exact Ht12|]. eapply touches_trans; [exact Ht3|].
    by apply close_touches.
Qed.

(** Every lock is released again. *)
Lemma shutdown_lock_unlock sd : 0 <= sd.(shutdown_lock_counter) < 255 ->
  let '(r, sd1) := px4_shutdown_lock queued sd in
  (if r =? 0 then px4_shutdown_unlock sd1 else sd1).(shutdown_lock_counter) = sd.(shutdown_lock_counter).
Proof.
  intros Hc. unfold px4_shutdown_lock, px4_shutdown_unlock. case_if; [done|]. cbn. rewrite uwrap_small by lia.
  change (0 =? 0) with true. rewrite (proj2 (Z.ltb_lt 0 (shutdown_lock_counter sd + 1))) by lia. cbn [shutdown_lock_counter]. lia.
Qed.

Lemma clear_unsaved_ok st : params_ok parameters st ->
  params_ok parameters (clear_unsaved st) /\ forall p, bit 32 (clear_unsaved st).(params_unsaved) p = false.
Proof.
  intros Hst. unfold clear_unsaved. assert (map (fun _ => 0) (params_unsaved st) = replicate (length (params_unsaved st)) 0) as E.
  { generalize (params_unsaved st) as l. intros l. clear. induction l as [|x l IH]; simpl; congruence. }
  rewrite E. split; [|apply zeros_bit]. pose proof (pk_unsaved _ _ Hst) as [Hl _]. destruct Hst. split; try done. split.
  - cbn [set_unsaved params_unsaved]. unfold zlen in *. rewrite length_replicate. done.
  - apply Forall_replicate. lia.
Qed.

Lemma layers_nodes st st' : (maps_of st') = (maps_of st) -> nodes_of st' None = nodes_of st None.
Proof. unfold nodes_of. by intros ->. Qed.

(** A storage between two calls: nobody holds the file lock, and the backup is another file. *)
Record idle (fname : list Z) (s : storage L) : Prop := {
  id_ok : storage_ok s;
  id_mutex : s.(file_mutex) = false;
  id_counter : 0 <= s.(s_shutdown).(shutdown_lock_counter) < 255;
  id_default : s.(param_default_file) = Some fname;
  id_backup : s.(param_backup_file) <> Some fname;
}.

(** The end of a save: the file lock and the shutdown lock are given back. *)
Lemma release_ok fname (s x : storage L) rl sd :
  0 <= s.(s_shutdown).(shutdown_lock_counter) < 255 -> px4_shutdown_lock queued s.(s_shutdown) = (rl, sd) ->
  storage_ok x -> x.(s_shutdown) = sd -> x.(param_default_file) = Some fname -> x.(param_backup_file) <> Some fname ->
  let x1 := with_mutex x false in
  let x' := if rl =? 0 then with_shutdown x1 (px4_shutdown_unlock x1.(s_shutdown)) else x1 in
  idle fname x' /\ x'.(s_open_fds) = x.(s_open_fds) /\
  x'.(s_shutdown).(shutdown_lock_counter) = s.(s_shutdown).(shutdown_lock_counter) /\
  x'.(s_params) = x.(s_params) /\ x'.(s_files) = x.(s_files).
Proof.
  intros Hc Hl Hx Hsd Hd Hb x1 x'. pose proof (shutdown_lock_unlock (s_shutdown s) Hc) as Hlock. rewrite Hl in Hlock.
  assert (s_shutdown x' = (if rl =? 0 then px4_shutdown_unlock sd else sd)) as Esd.
  { unfold x', x1. cbn [with_mutex s_shutdown]. rewrite Hsd. case_if; cbn; [done|]. exact Hsd. }
  assert (storage_ok x') by (destruct Hx; unfold x', x1; by case_if).
  split; [|rewrite Esd, Hlock; unfold x', x1; by case_if].
  split; [done|unfold x', x1; by case_if|by rewrite Esd, Hlock|unfold x', x1; by case_if..].
Qed.

(** The backup leaves the default file alone. *)
Lemma backup_keeps fname s1 : storage_ok s1 -> s1.(param_backup_file) <> Some fname ->
  let s2 := with_params s1 (clear_unsaved s1.(s_params)) in
  exists s', save_backup parameters is_device space s2 = Some s' /\ storage_ok s' /\ s'.(s_open_fds) = s1.(s_open_fds) /\
    s'.(s_shutdown) = s1.(s_shutdown) /\ s'.(param_default_file) = s1.(param_default_file) /\
    s'.(param_backup_file) = s1.(param_backup_file) /\ s'.(s_params) = clear_unsaved s1.(s_params) /\
    s'.(s_files) !! fname = s1.(s_files) !! fname.
Proof.
  intros Hs1 Hb s2. destruct (clear_unsaved_ok (s_params s1) (so_params _ Hs1)) as [Hcl _].
  assert (storage_ok s2) as Hs2 by (by split; [|apply Hs1]).
  destruct (save_backup_ok _ Hs2) as (s' & E & Hfd & Hbk). exists s'. split; [exact E|].
  change (param_backup_file s2) with (param_backup_file s1) in Hbk. destruct (param_backup_file s1) as [b|] eqn:Eb; [|by subst s'].
  destruct Hbk as [? ? ? Hbb ? ? Hf ?]. rewrite Hf by congruence. change (param_backup_file s2) with (param_backup_file s1) in Hbb. split_and!; try done; congruence.
Qed.

Lemma save_default_ok s blocking fname : idle fname s ->
  exists r s', param_save_default parameters is_device space queued s blocking = Some (r, s') /\ idle fname s' /\
    s'.(s_open_fds) = s.(s_open_fds) /\ s'.(s_shutdown).(shutdown_lock_counter) = s.(s_shutdown).(shutdown_lock_counter) /\
    s'.(s_params) = (if r =? 0 then clear_unsaved s.(s_params) else s.(s_params)) /\ (r = 0 -> saved fname s') /\
    (zlen (doc_of s) <= space -> finite_of s = true -> r = 0 \/ (length s'.(s_faults) + 3 <= length s.(s_faults))%nat).
Proof.
  intros [Hs Hm Hc Hd Hb]. unfold param_save_default. rewrite Hm, andb_false_r. cbn [with_mutex s_shutdown].
  destruct (px4_shutdown_lock queued (s_shutdown s)) as [rl sd] eqn:Hlock.
  set (s0 := with_shutdown (with_mutex s true) sd). assert (storage_ok s0) as Hs0 by (by destruct Hs).
  unfold param_get_default_file. change (param_default_file s0) with (param_default_file s). rewrite Hd.
  destruct (save_attempts_ok 3 s0 fname PX4_ERROR Hs0 ltac:(done)) as (r & s1 & E & Ht1 & Hfd1 & Hsaved & Hok).
  rewrite E. cbn [mbind option_bind]. change PX4_OK with 0. destruct Ht1 as [Hs1 Hp1 Hd1 Hb1 _ Hsd1 _ _].
  change (param_backup_file s0) with (param_backup_file s) in Hb1. change (param_default_file s0) with (param_default_file s) in Hd1. rewrite Hd in Hd1.
  destruct (Z.eqb_spec r 0) as [->|Hr]; cbn [negb].
  - destruct (backup_keeps fname s1 Hs1) as (s2 & E2 & Hs2 & Hfd2 & Hsd2 & Hd2 & Hb2 & Hp2 & Hf2); [by rewrite Hb1|].
    rewrite E2. cbn [mbind option_bind].
    destruct (release_ok fname s s2 rl sd Hc Hlock Hs2) as (Hidle & Hfd & Hctr & Hpar & Hfiles); [rewrite Hsd2; exact Hsd1|congruence|by rewrite Hb2, Hb1|].
    match type of Hidle with idle _ ?x => exists 0, x end. split; [done|]. split; [done|]. split; [rewrite Hfd, Hfd2; exact Hfd1|]. split; [done|].
    split; [by rewrite Hpar, Hp2, Hp1|]. split; [|by left].
    intros _. destruct (Hsaved eq_refl) as [Hfi [post Hpost]]. unfold saved. rewrite Hpar, Hp2, Hfiles, Hf2.
    rewrite (layers_nodes (s_params s1) (clear_unsaved (s_params s1)) eq_refl). split; [done|]. by exists post.
  - cbn [mbind option_bind].
    destruct (release_ok fname s s1 rl sd Hc Hlock Hs1) as (Hidle & Hfd & Hctr & Hpar & Hfiles); [done|done|by rewrite Hb1|].
    match type of Hidle with idle _ ?x => exists r, x end. split; [done|]. split; [done|]. split; [by rewrite Hfd|]. split; [done|]. split; [by rewrite Hpar, Hp1, (proj2 (Z.eqb_neq r 0))|]. split; [done|].
    intros Hsp Hfi. destruct (Hok Hsp Hfi) as [?|Hl]; [done|right]. case_if; exact Hl.
Qed.

(** ** Loading *)

Lemma set_internal_kept st p v mark_saved notify : params_ok parameters st -> 0 <= p -> value_ok v ->
  exists r st', param_set_internal parameters parameters_readonly st p (Some v) mark_saved notify = Some (r, st') /\ kept parameters st st'.
Proof.
  intros Hst Hp Hv. assert (kept parameters st st) as Hk by (by split).
  destruct (Z.lt_ge_cases p count) as [Hlt|Hge].
  2:{ unfold param_set_internal. rewrite (out_of_range parameters p) by lia. by do 2 eexists. }
  destruct (param_is_readonly parameters parameters_readonly st p) eqn:Hro.
  { unfold param_set_internal. rewrite (in_range parameters p), Hro by lia. by do 2 eexists. }
  destruct (set_internal_ok parameters parameters_readonly st p v mark_saved notify Ht Hst ltac:(lia) Hv Hro)
    as (st1 & E & Hst1 & Hr & Hd & _). do 2 eexists. split; [exact E|].
  match goal with |- context [finish ?a ?n st1] => pose proof (same_layers_finish parameters a n st1) as Hs end.
  pose proof (same_layers_ok _ _ _ Hs Hst1). destruct Hs as [Hr2 _ Hd2 _]. split; [done|by rewrite Hd2, Hd|].
  by rewrite (sr_locked _ _ _ Hr2), (sr_locked _ _ _ Hr).
Qed.

(** On any node the import callback returns and keeps the store well formed. *)
Lemma import_callback_ok st0 :
  callback_ok (kept parameters st0) (param_import_callback parameters parameters_readonly).
Proof.
  intros d f st Hm Hk. pose proof (k_ok _ _ _ Hk) as Hst. pose proof (fm_node _ _ Hm) as Hn. unfold param_import_callback.
  case_if; [do 3 eexists; split; [done|]; split; [by apply advances_same|done]|].
  destruct (param_modify_on_import_ok parameters parameters_readonly Ht (d_node d) st Hn Hst) as (r & n' & st1 & E & Hn' & Hk1).
  rewrite E. cbn [mbind option_bind]. pose proof (kept_trans _ _ _ _ Hk Hk1) as Hk01.
  assert (advances f 0 (with_node d n')) as Ha by (by apply (advances_fields f 0 d); [apply advances_same|..]).
  assert (forall st2, kept parameters st1 st2 -> exists r0 d' st', Some (1, with_node d n', st2) = Some (r0, d', st') /\
    advances f 0 d' /\ kept parameters st0 st') as Hret.
  { intros st2 Hk2. do 3 eexists; split; [done|]. split; [done|]. by eapply kept_trans. }
  assert (kept parameters st1 st1) as Hrefl by (split; [apply Hk1|done|done]).
  destruct r; [by apply Hret|..].
  all: destruct (find_quiet_ok st1 (n_name n') (k_ok _ _ _ Hk1) (nw_name _ Hn')) as (p & Ef & Hp); rewrite Ef; cbn [mbind option_bind].
  all: case_if; [by apply Hret|]; destruct Hp as [[Hp _]|[? _]]; [|done].
  all: repeat (case_if; [try by apply Hret|]); try by apply Hret.
  all: match goal with |- context [param_set_internal _ _ ?s ?q (Some ?v) true true] =>
         destruct (set_internal_kept s q v true true (k_ok _ _ _ Hk1) (proj1 Hp)) as (r & st2 & Es & Hk2);
         [|rewrite Es; cbn [mbind option_bind]; by apply Hret] end.
  all: first [apply u32_value_ok | apply f32_of_f64_range; by apply node_d_range].
Qed.

Lemma import_attempts_ok n : forall fd st, params_ok parameters st -> Forall byte_ok fd.(f_data) ->
  0 <= fd.(f_pos) <= zlen fd.(f_data) ->
  exists r st', import_attempts parameters parameters_readonly n fd st = Some (r, st') /\ (r = 0 \/ r = -1) /\ kept parameters st st'.
Proof.
  induction n as [|n IH]; intros fd st Hst Hb Hp; cbn [import_attempts].
  { exists (-1), st. split; [done|]. split; [by right|by split]. }
  set (last := match n with O => true | S _ => false end).
  assert (forall st1, kept parameters st st1 -> exists r st',
    import_attempts parameters parameters_readonly n (if last then fd else file_rewind fd) st1 = Some (r, st') /\ (r = 0 \/ r = -1) /\
    kept parameters st st') as Hnext.
  { intros st1 Hk. destruct (IH (if last then fd else file_rewind fd) st1) as (r & st' & E & Hr & Hk'); [apply Hk|by destruct last| |].
    - destruct last; [done|]. cbn. pose proof (zlen_nonneg (f_data fd)). lia.
    - exists r, st'. split; [done|]. split; [done|]. by eapply kept_trans. }
  destruct (decode_total (kept parameters st) (param_import_callback parameters parameters_readonly) fd st (decode_fuel fd))
    as (ret & d & E & Hd); [apply import_callback_ok|by split|done|done|unfold decode_fuel; lia|].
  rewrite E. cbn [mbind option_bind]. destruct (ret =? 0) eqn:Er; cbn [mbind option_bind]; [|by apply Hnext].
  destruct Hd as (r & d' & st1 & E2 & _ & Hk1); [lia|]. rewrite E2. cbn [mbind option_bind].
  case_if; [exists 0, st1; split; [done|]; split; [by left|done]|].
  case_if; [exists 0, st1; split; [done|]; split; [by left|done]|]. by apply Hnext.
Qed.

Lemma import_internal_ok regular fd st : params_ok parameters st -> Forall byte_ok fd.(f_data) -> fd.(f_pos) = 0 ->
  exists r st', param_import_internal parameters parameters_readonly regular fd st = Some (r, st') /\ -1 <= r <= 1 /\
    kept parameters st st'.
Proof.
  intros Hst Hb Hp. unfold param_import_internal. assert (kept parameters st st) as Hk by (by split).
  case_if; [by do 2 eexists|]. destruct (file_read fd 4) as [bytes f] eqn:Er. injection Er as <- <-.
  case_if; [by do 2 eexists|]. unfold file_rewind. cbn [f_data f_capacity].
  destruct (import_attempts_ok 3 (mkFile (f_data fd) 0 (f_capacity fd)) st Hst) as (r & st' & E & Hr & Hk').
  - done.
  - cbn. pose proof (zlen_nonneg (f_data fd)). lia.
  - exists r, st'. split; [done|]. split; [lia|done].
Qed.

Lemma load_ok regular fd st : params_ok parameters st -> Forall byte_ok fd.(f_data) -> fd.(f_pos) = 0 ->
  exists r st', param_load parameters parameters_readonly (Some (regular, fd)) st = Some (r, st') /\ -1 <= r <= 1 /\
    kept parameters st st'.
Proof.
  intros Hst Hb Hp. unfold param_load.
  destruct (reset_all_ok parameters parameters_readonly st false Hst) as (st1 & E & Hst1 & Hr1 & Hd1 & _). rewrite E.
  cbn [mbind option_bind]. destruct (import_internal_ok regular fd st1 Hst1 Hb Hp) as (r & st' & E2 & Hr & Hk).
  exists r, st'. split; [done|]. split; [done|]. eapply kept_trans; [|exact Hk]. split; [done|by rewrite Hd1|apply Hr1].
Qed.

Lemma open_pos (s s' : storage L) fname creat trunc f : open is_device space s fname creat trunc = (inr f, s') -> f.(f_pos) = 0.
Proof.
  unfold open. destruct (default No_fault (head (s_faults s))); [| |];
    (destruct (s_files s !! fname); [|destruct creat]); by intros [= <- _].
Qed.

(** *** A document *)

(** Not a value that the translation of older parameters changes. *)
Definition importable (p v : Z) : bool :=
  let nm := default [] (param_name parameters p) in
  let int := ptype p =? PARAM_TYPE_INT32 in
  negb (existsb (fun s => strcmp (cstr s) nm =? 0) old_names) &&
  negb ((strcmp (cstr "SDLOG_MODE") nm =? 0) && (negb int || (s32 v =? -1))) &&
  negb (negb int && is_rc_rev nm) && negb (int && is_heater_imu nm).

Lemma importable_node p v nm n : importable p v = true -> param_name parameters p = Some nm ->
  holds_node n (nm, node_value p v) -> old_node n = false.
Proof.
  intros Hi Hnm [Hname Htype _ Hval]. cbn [fst snd] in *. unfold importable in Hi. rewrite Hnm in Hi. cbn [default id] in Hi.
  unfold old_node, named. rewrite Hname, Htype. unfold node_value in *. rewrite !andb_true_iff, !negb_true_iff in Hi.
  destruct Hi as [[[H1 H2] H3] H4]. rewrite H1. cbn [orb]. destruct (ptype p =? PARAM_TYPE_INT32); cbn [negb value_type andb orb] in *.
  - rewrite Hval. change (BSON_INT32 =? BSON_DOUBLE) with false. change (BSON_INT32 =? BSON_INT32) with true. cbn [andb orb].
    rewrite H4, orb_false_r. by rewrite H2.
  - change (BSON_DOUBLE =? BSON_DOUBLE) with true. change (BSON_DOUBLE =? BSON_INT32) with false. cbn [andb]. rewrite H3, !orb_false_r.
    rewrite andb_true_r in H2. by rewrite H2.
Qed.

(** The store after some nodes: exactly their parameters are set. *)
Record imported (dm um : gmap Z Z) (seen : list (list Z * bvalue)) (st : params L) : Prop := {
  im_ok : params_ok parameters st;
  im_defaults : layer_map st.(runtime_defaults) = dm;
  im_locked : st.(params_locked) = false;
  im_cap : layer_cap st.(user_config) = None;
  im_user p nm : 0 <= p < count -> param_name parameters p = Some nm ->
    layer_map st.(user_config) !! p = if bool_decide (nm ∈ seen.*1) then exported_value dm um None p else None;
}.

Lemma node_restored p v n nm : value_ok v -> value_finite p v = true -> holds_node n (nm, node_value p v) ->
  (if ptype p =? PARAM_TYPE_INT32 then u32 (node_i32 n) else f32_of_f64 (node_d n)) = v.
Proof.
  intros Hv Hf [_ _ _ Hval]. cbn [snd] in Hval. unfold node_value, value_finite in *.
  destruct (ptype p =? PARAM_TYPE_INT32); cbn [orb] in *.
  - rewrite Hval, uwrap_swrap by lia. apply uwrap_small. exact Hv.
  - rewrite Hval. apply f32_of_f64_of_f32; [exact Hv|]. unfold f32_is_nan, f32_is_finite in *. lia.
Qed.

Lemma import_accepts dm um p v nm :
  (forall p v, exported_value dm um None p = Some v -> value_finite p v = true /\ importable p v = true /\ value_ok v) ->
  0 <= p < count -> exported_value dm um None p = Some v -> param_name parameters p = Some nm ->
  accepts (param_import_callback parameters parameters_readonly) (imported dm um) (fun _ => true) (nm, node_value p v).
Proof.
  intros Hall Hp Hv Hnm seen d st [Hst Hd Hl Hc Hu] Hh. destruct (Hall p v Hv) as (Hfin & Him & Hvok).
  pose proof (node_restored p v _ _ Hvok Hfin Hh) as Hres. pose proof (importable_node p v nm _ Him Hnm Hh) as Hold.
  destruct Hh as [Hname Htype _ _]. cbn [fst snd] in *. unfold param_import_callback. rewrite Htype.
  assert (value_type (node_value p v) =? BSON_EOO = false) as -> by (unfold node_value; by case_if).
  rewrite (current_unchanged parameters parameters_readonly (d_node d) st Hold). cbn [mbind option_bind].
  replace (with_node d (d_node d)) with d by (by destruct d). rewrite Hname, (find_quiet_name st p nm Hst Hp Hnm). cbn [mbind option_bind].
  pose proof (t_count _ Ht). rewrite (proj2 (Z.eqb_neq p PARAM_INVALID)) by lia.
  assert (param_is_readonly parameters parameters_readonly st p = false) as Hro by (unfold param_is_readonly; by rewrite Hl).
  destruct (set_internal_ok parameters parameters_readonly st p v true true Ht Hst Hp Hvok Hro) as (st1 & E & Hst1 & Hr & Hd1 & _ & _ & _ & Hm & _).
  unfold map_fits in Hm, E. rewrite Hc, orb_true_r in Hm, E. cbn [andb] in E.
  match type of E with _ = Some (_, ?x) => exists 1, x; split end.
  { unfold node_value. rewrite Htype. unfold node_value.
    destruct (type_cases parameters p Ht Hp) as [Et|Et]; rewrite Et in *; type_eqb; cbn [value_type].
    - change (BSON_INT32 =? BSON_INT32) with true. cbn iota. rewrite Hres, E. done.
    - change (BSON_DOUBLE =? BSON_INT32) with false. change (BSON_DOUBLE =? BSON_DOUBLE) with true. cbn iota. rewrite Hres, E. done. }
  split; [done|]. match goal with |- context [finish ?a ?n st1] => pose proof (same_layers_finish parameters a n st1) as Hs end.
  pose proof (same_layers_ok _ _ _ Hs Hst1). destruct Hs as [Hr2 _ Hd2 Hu2]. split; [done|by rewrite Hd2, Hd1|..].
  - by rewrite (sr_locked _ _ _ Hr2), (sr_locked _ _ _ Hr).
  - by rewrite (sr_ucap _ _ _ Hr2), (sr_ucap _ _ _ Hr).
  - intros q nm' Hq Hnm'. rewrite Hu2, Hm, fmap_app. cbn [fmap list_fmap fst]. destruct (decide (q = p)) as [->|Hne].
    + rewrite lookup_insert_eq, bool_decide_true by (replace nm' with nm by congruence; set_solver). done.
    + rewrite lookup_insert_ne, (Hu q nm') by done. assert (nm' <> nm).
      { intros ->. apply Hne. eapply (param_name_inj parameters q p); [done|lia|lia|done|done]. }
      rewrite (bool_decide_ext (nm' ∈ seen.*1 ++ [nm]) (nm' ∈ seen.*1)); [done|]. set_solver.
Qed.

Lemma import_document regular fd st dm um post :
  map_Forall (fun p v => 0 <= p < count /\ value_ok v) um ->
  (forall p v, exported_value dm um None p = Some v -> value_finite p v = true /\ importable p v = true) ->
  let nodes := export_nodes dm um None (all_params parameters) in
  fd.(f_data) = document nodes ++ post -> fd.(f_pos) = 0 -> imported dm um [] st ->
  exists st', param_import_internal parameters parameters_readonly regular fd st = Some (0, st') /\ imported dm um nodes st'.
Proof.
  intros Hum Hall nodes Hfd Hp Hst. pose proof (export_size dm um None Hum) as H31. fold nodes in H31.
  pose proof (zlen_document nodes) as Hlen. pose proof (zlen_nonneg (body nodes)). unfold param_import_internal.
  assert (zlen (f_data fd) =? 0 = false) as ->.
  { rewrite Hfd, zlen_app. pose proof (zlen_nonneg post). lia. }
  rewrite andb_false_r. unfold file_read. rewrite Hp, Hfd.
  assert (slice 0 4 (document nodes ++ post) = le_bytes 4 (u32 (zlen (document nodes)))) as ->.
  { rewrite Hlen. unfold document. rewrite <- app_assoc, slice_app_l by (rewrite ?zlen_le_bytes; lia). apply slice_full. by rewrite zlen_le_bytes. }
  rewrite zlen_le_bytes, le_value_le_bytes, uwrap_idemp, swrap_uwrap, swrap_small by lia.
  rewrite (proj2 (Z.eqb_neq (zlen (document nodes)) 0)), (proj2 (Z.eqb_neq (zlen (document nodes)) (-1))) by lia. cbn [orb andb Z.eqb].
  change (Z.of_nat 4 =? 0) with false. rewrite andb_false_r. cbn [orb].
  unfold file_rewind. cbn [f_data f_capacity import_attempts].
  rewrite init_file_document by done. cbn [mbind option_bind]. change (0 =? 0) with true. cbn iota. rewrite Hlen in *.
  destruct (scalar_loop (param_import_callback parameters parameters_readonly) 256 (imported dm um) (fun _ => true) nodes
    (decode_fuel (mkFile (document nodes ++ post) 0 (f_capacity fd))) (le_bytes 4 (u32 (4 + zlen (body nodes)))) post (f_capacity fd)
    (mkBNode [] BSON_UNDEFINED 0 (replicate 8 0)) (4 + zlen (body nodes)) counts0 [] st) as (r & d' & st' & E & Hr).
  - intros d st1 He. unfold param_import_callback. by rewrite He.
  - apply Forall_forall. intros nv (p & v & nm & Hin & Hv & Hnm & ->)%export_node_inv. apply elem_of_seqZ in Hin.
    apply import_accepts; [|lia|done|done]. intros q w Hw. destruct (Hall q w Hw). split_and!; [done|done|].
    by destruct (Hum q w (exported_inv _ _ _ _ _ Hw)).
  - done.
  - done.
  - by apply nodes_scalar.
  - done.
  - apply document_fuel.
  - rewrite zlen_le_bytes. lia.
  - rewrite E. cbn [mbind option_bind]. assert (forallb (fun _ : list Z * bvalue => true) nodes = true) as Hg by (by apply forallb_forall).
    rewrite Hg in Hr. destruct Hr as (-> & Him & -> & ->). rewrite zlen_le_bytes. change (Z.of_nat 4) with 4.
    rewrite !Z.eqb_refl. cbn [andb mbind option_bind]. exists st'. split; [done|]. exact Him.
Qed.

(** After all nodes, the user's values are the exported ones. *)
Lemma imported_all dm um st p : map_Forall (fun p v => 0 <= p < count /\ value_ok v) um -> 0 <= p < count ->
  imported dm um (export_nodes dm um None (all_params parameters)) st ->
  layer_map st.(user_config) !! p = exported_value dm um None p.
Proof.
  intros Hum Hp Him. destruct (zlookup_lt parameters p Hp) as [i Hi]. pose proof (param_name_lookup _ _ _ Hi) as Hnm.
  rewrite (im_user _ _ _ _ Him p (name i) Hp Hnm). case_bool_decide as Hin; [done|].
  destruct (exported_value dm um None p) as [v|] eqn:Hv; [|done]. exfalso. apply Hin.
  apply list_elem_of_fmap. exists (name i, node_value p v). split; [done|]. apply list_elem_of_omap. exists p.
  split; [apply elem_of_seqZ; lia|]. unfold param_node. by rewrite Hv, Hnm.
Qed.

(** A store into which parameters can be loaded: nothing is locked, there is room. *)
Record loadable (dm : gmap Z Z) (fname : list Z) (s : storage L) : Prop := {
  lo_ok : storage_ok s;
  lo_default : s.(param_default_file) = Some fname;
  lo_faults : s.(s_faults) = [];
  lo_locked : s.(s_params).(params_locked) = false;
  lo_cap : layer_cap s.(s_params).(user_config) = None;
  lo_defaults : layer_map s.(s_params).(runtime_defaults) = dm;
}.

Lemma load_document s fname dm um post : loadable dm fname s ->
  map_Forall (fun p v => 0 <= p < count /\ value_ok v) um ->
  (forall p v, exported_value dm um None p = Some v -> value_finite p v = true /\ importable p v = true) ->
  s.(s_files) !! fname = Some (document (export_nodes dm um None (all_params parameters)) ++ post) ->
  exists s', param_load_default parameters parameters_readonly is_device space s = Some (0, s') /\ storage_ok s' /\
    s'.(s_open_fds) = s.(s_open_fds) /\ imported dm um (export_nodes dm um None (all_params parameters)) s'.(s_params).
Proof.
  intros [Hs Hd Hf Hl Hc Hdm] Hum Hall Hfile. unfold param_load_default, param_get_default_file. rewrite Hd.
  pose proof (open_ok s fname false false Hs) as Ho. destruct (open is_device space s fname false false) as [[e|fd] s1] eqn:Eo.
  { destruct Ho as (_ & _ & _ & _ & Hno). exfalso. apply Hno; [done|]. right. by eexists. }
  destruct Ho as (Ht1 & Hf1 & Hfd1 & Hb1 & _ & _ & Hdata & _). specialize (Hdata eq_refl). rewrite Hfile in Hdata. cbn [default id] in Hdata.
  destruct Ht1 as [Hs1 Hp1 _ _ _ _ _ _]. unfold param_load. rewrite Hp1.
  destruct (reset_all_ok parameters parameters_readonly (s_params s) false (so_params _ Hs)) as (st1 & E & Hst1 & Hr1 & Hd1 & Hm1).
  rewrite E. cbn [mbind option_bind].
  destruct (import_document (negb (is_device fname)) fd st1 dm um post Hum Hall) as (st2 & E2 & Him); [done|by eapply open_pos| |].
  { split; [done|by rewrite Hd1|by rewrite (sr_locked _ _ _ Hr1)|by rewrite (sr_ucap _ _ _ Hr1)|].
    intros p nm _ _. rewrite Hm1. cbn [fmap list_fmap]. rewrite bool_decide_false by set_solver.
    apply map_lookup_filter_None. right. intros v _ Hro. cbn in Hro. rewrite Hl in Hro. done. }
  rewrite E2. cbn [mbind option_bind]. eexists. split; [reflexivity|]. split; [|split; [cbn; lia|exact Him]].
  split; [apply Him|]. cbn. apply Hs1.
Qed.

(** ** Properties *)



(** C40: one value that is not finite stops saving. While a float parameter has the user's value
    NaN or infinity, [param_save_default] fails, with or without faults, on every call, and all
    unsaved parameters stay unsaved: [param_verify] compares with [fabsf(a - b) <= FLT_EPSILON]. *)
Theorem nonfinite_blocks_saving s blocking fname p v : idle fname s ->
  (maps_of s.(s_params)).2 !! p = Some v -> ptype p = PARAM_TYPE_FLOAT -> f32_is_finite v = false ->
  exists r s', param_save_default parameters is_device space queued s blocking = Some (r, s') /\ r <> 0 /\ s'.(s_params) = s.(s_params).
Proof.
  intros Hs Hv Hty Hnf. destruct (save_default_ok s blocking fname Hs) as (r & s' & E & Hi & _ & _ & Hp & Hsaved & _).
  exists r, s'. split; [done|]. assert (r <> 0) as Hr; [|split; [done|by rewrite Hp, (proj2 (Z.eqb_neq r 0))]].
  intros ->. destruct (Hsaved eq_refl) as [Hfin _]. pose proof (so_params _ (id_ok _ _ Hi)) as Hst.
  pose proof (proj1 (nodes_finite (maps_of (s_params s')).1 (maps_of (s_params s')).2 None (pk_uvals _ _ Hst)) Hfin) as Hall.
  assert (value_finite p v = true) as Hvf; [|unfold value_finite in Hvf; by rewrite Hty, Hnf in Hvf].
  apply Hall. rewrite Hp. change (0 =? 0) with true. cbn iota. unfold exported_value.
  change (maps_of (clear_unsaved (s_params s))) with (maps_of (s_params s)). rewrite Hv. cbn [mbind option_bind].
  unfold is_default_value. rewrite Hty. type_eqb. case_if; [|done]. apply differ_le_eps_finite in Hif as [Hif _]. congruence.
Qed.

(** Loading is safe on any file. Whatever bytes the default file holds and whatever faults
    occur, [param_load_default] returns one of its four results, the store stays well formed
    with the same custom defaults, no file changes and no descriptor is left open. *)
Theorem load_default_total s fname : storage_ok s -> s.(param_default_file) = Some fname ->
  exists r s', param_load_default parameters parameters_readonly is_device space s = Some (r, s') /\ -2 <= r <= 1 /\
    storage_ok s' /\ kept parameters s.(s_params) s'.(s_params) /\ s'.(s_open_fds) = s.(s_open_fds) /\
    s'.(s_files) = s.(s_files).
Proof.
  intros Hs Hd. unfold param_load_default, param_get_default_file. rewrite Hd. pose proof (open_ok s fname false false Hs) as Ho.
  destruct (open is_device space s fname false false) as [[e|fd] s1] eqn:Eo; destruct Ho as (Ht1 & Hf1 & Ho).
  - destruct Ho as (Hfd1 & Hfiles & _). eexists _, s1. split; [reflexivity|]. split; [by case_if|]. split; [apply Ht1|].
    split; [|by split]. rewrite (to_params _ _ _ Ht1). by split; [apply Hs|..].
  - destruct Ho as (Hfd1 & Hb1 & Hl1 & _ & Hdata & Hex). specialize (Hdata eq_refl). destruct Ht1 as [Hs1 Hp1 _ _ _ _ Hfiles1 _].
    destruct (load_ok (negb (is_device fname)) fd (s_params s1) (so_params _ Hs1) Hb1) as (r & st' & E & Hr & Hk); [by eapply open_pos|].
    rewrite E. cbn [mbind option_bind]. eexists _, _. split; [reflexivity|]. split; [repeat case_if; lia|].
    split; [split; [apply Hk|apply Hs1]|]. split; [cbn; rewrite <- Hp1; exact Hk|]. split; [cbn; lia|]. apply map_eq. intros g. cbn.
    destruct (decide (g = fname)) as [->|Hne]; [|by apply Hfiles1]. rewrite Hl1. destruct (Hex eq_refl) as [data Hx].
    rewrite Hx in *. by rewrite Hdata.
Qed.

(** What [param_export] does not give back. Without faults every call leaves one more
    descriptor open; and a call that finds the file lock taken returns PX4_ERROR without
    releasing the shutdown lock that it has taken. *)
Theorem param_export_leaks s fname filter : storage_ok s -> 0 <= s.(s_shutdown).(shutdown_lock_counter) < 255 -> s.(s_faults) = [] ->
  (s.(file_mutex) = false ->
    exists r s', param_export parameters is_device space queued s fname filter = Some (r, s') /\ storage_ok s' /\
      s'.(s_open_fds) = s.(s_open_fds) + 1 /\ s'.(file_mutex) = false /\
      s'.(s_shutdown).(shutdown_lock_counter) = s.(s_shutdown).(shutdown_lock_counter)) /\
  (s.(file_mutex) = true -> queued = true ->
    exists s', param_export parameters is_device space queued s fname filter = Some (PX4_ERROR, s') /\
      s'.(s_shutdown).(shutdown_lock_counter) = s.(s_shutdown).(shutdown_lock_counter) + 1).
Proof.
  intros Hs Hc Hf. unfold param_export. split.
  - intros Hm. pose proof (shutdown_lock_unlock (s_shutdown s) Hc) as Hlock.
    destruct (px4_shutdown_lock queued (s_shutdown s)) as [rl sd]. cbn [with_shutdown file_mutex]. rewrite Hm.
    set (s0 := with_mutex (with_shutdown s sd) true). assert (storage_ok s0) as Hs0 by (by destruct Hs).
    pose proof (open_ok s0 fname true false Hs0) as Ho.
    destruct (open is_device space s0 fname true false) as [[e|fd] s1]; destruct Ho as (Ht1 & _ & Ho).
    { destruct Ho as (_ & _ & Hno). exfalso. apply Hno; [done|by left]. }
    destruct Ho as (Hfd1 & Hb1 & _). destruct Ht1 as [Hs1 Hp1 _ _ _ Hsd1 _ _].
    destruct (export_cases (s_params s1) fd filter (so_params _ Hs1) Hb1) as (r & f & E & Hbf & _). rewrite E. cbn [mbind option_bind].
    assert (storage_ok (written s1 fname f)) as Hs2 by (split; [apply Hs1|apply map_Forall_insert_2; [done|apply Hs1]]).
    cbn [with_mutex s_shutdown written with_fs]. rewrite Hsd1. eexists r, _. split; [reflexivity|].
    change (s_shutdown s0) with sd. destruct Hs2. split; [by case_if|]. split; [case_if; exact Hfd1|]. split; [by case_if|].
    revert Hlock. case_if; [done|]. cbn. intros <-. f_equal. exact Hsd1.
  - intros Hm Hq. unfold px4_shutdown_lock. rewrite Hq, andb_false_r. cbn [with_shutdown file_mutex]. rewrite Hm.
    eexists. split; [reflexivity|]. cbn. rewrite uwrap_small by lia. done.
Qed.
End persistence.

(** ** A small storage for the witnesses *)

#[local] Instance stored_layer : ParamLayer DynamicSparseLayer := Dynamic_layer true.

#[local] Instance stored_laws : ParamLayerLaws (param_info_count sample_table) DynamicSparseLayer :=
  Dynamic_laws (param_info_count sample_table) sample_count true.

Definition set_or_same (st : params DynamicSparseLayer) (p v : Z) : params DynamicSparseLayer :=
  match param_set sample_table [] st p (Some v) with Some (_, st) => st | None => st end.

(** SYS_ID is 42 and GAIN_P is 1.5; or GAIN_P is NaN. *)
Definition tuned_store : params DynamicSparseLayer := set_or_same (set_or_same sample_store 2 42) 0 0x3fc00000.
Definition nan_store : params DynamicSparseLayer := set_or_same sample_store 0 0x7fc00000.

Lemma tuned_stores_ok : params_ok sample_table tuned_store /\ params_ok sample_table nan_store.
Proof.
  assert (forall st p v, params_ok sample_table st -> 0 <= p < 4 -> value_ok v ->
    (exists st', param_set sample_table [] st p (Some v) = Some (PX4_OK, st')) -> params_ok sample_table (set_or_same st p v)) as Hset.
  { intros st p v Hst Hp Hv [st' E]. unfold set_or_same. rewrite E.
    by apply (param_set_layers sample_table [] st p v st' sample_table_ok Hst). }
  split; [apply Hset; [apply Hset; [apply sample_store_ok|..]|..]|apply Hset; [apply sample_store_ok|..]];
    first [lia | unfold value_ok; lia | eexists; vm_compute; reflexivity].
Qed.

Definition sample_storage (st : params DynamicSparseLayer) (faults : list fault) : storage DynamicSparseLayer :=
  mkStorage st ∅ (Some (cstr "/fs/params")) (Some (cstr "/fs/backup")) false (mkShutdown 0 false false) 3 faults.

Lemma sample_storage_idle st faults : params_ok sample_table st -> idle sample_table (cstr "/fs/params") (sample_storage st faults).
Proof. intros Hst. by split. Qed.

Lemma sample_short : Forall (fun i => zlen i.(name) <= 31) sample_table.
Proof. repeat constructor; vm_compute; discriminate. Qed.

(** The exported values can be enumerated. *)
Lemma tuned_exported p v :
  exported_value sample_table (maps_of sample_table tuned_store).1 (maps_of sample_table tuned_store).2 None p = Some v ->
  value_finite sample_table p v = true /\ importable sample_table p v = true.
Proof.
  intros Hv. pose proof (exported_inv _ _ _ _ _ _ Hv) as Hu. destruct (pk_uvals _ _ (proj1 tuned_stores_ok) p v Hu) as [Hp _].
  change (param_info_count sample_table) with 4 in Hp. assert (p = 0 \/ p = 1 \/ p = 2 \/ p = 3) as [-> |[-> |[-> | ->]]] by lia.
  all: clear Hu; vm_compute in Hv; first [discriminate Hv | injection Hv as <-; vm_compute; by split].
Qed.

Definition tuned_storage : storage DynamicSparseLayer := sample_storage tuned_store [Open_fails; Space 20].


(** After a restart: the files that the save left, and a store in which something else is set. *)
Definition restarted (files : gmap (list Z) (list Z)) : storage DynamicSparseLayer :=
  mkStorage nan_store files (Some (cstr "/fs/params")) None false (mkShutdown 0 false false) 0 [].


Lemma nonfinite_blocks_saving_witness :
  exists r s', param_save_default sample_table (fun _ => false) 1000 true (sample_storage nan_store []) true = Some (r, s') /\
    r <> 0 /\ s'.(s_params) = nan_store.
Proof.
  apply (nonfinite_blocks_saving sample_table [] sample_table_ok sample_short (fun _ => false) 1000 true (sample_storage nan_store []) true
    (cstr "/fs/params") 0 0x7fc00000 (sample_storage_idle _ _ (proj2 tuned_stores_ok))); vm_compute; reflexivity.
Defined.

(** A file of garbage. *)
Definition garbage_storage : storage DynamicSparseLayer :=
  mkStorage tuned_store {[cstr "/fs/params" := [9; 0; 0; 0; 16; 83; 0; 1; 2]]} (Some (cstr "/fs/params")) None false
    (mkShutdown 0 false false) 0 [].

Lemma load_default_total_witness :
  exists s', param_load_default sample_table [] (fun _ => false) 1000 garbage_storage = Some (-2, s') /\ s'.(s_files) = garbage_storage.(s_files).
Proof.
  assert (storage_ok sample_table garbage_storage) as Hok.
  { split; [apply tuned_stores_ok|]. apply map_Forall_singleton. repeat constructor; lia. }
  destruct (load_default_total sample_table [] sample_table_ok (fun _ => false) 1000 garbage_storage (cstr "/fs/params") Hok eq_refl)
    as (r & s' & E & _ & _ & _ & _ & Hf).
  exists s'. split; [|exact Hf]. rewrite E. vm_compute in E. injection E as <- _. reflexivity.
Defined.

Lemma param_export_leaks_witness :
  exists r s', param_export sample_table (fun _ => false) 1000 true (sample_storage tuned_store []) (cstr "/fs/cal") None = Some (r, s') /\
    s'.(s_open_fds) = 3 + 1.
Proof.
  assert (storage_ok sample_table (sample_storage tuned_store [])) as Hok.
  { split; [apply tuned_stores_ok|]. apply map_Forall_empty. }
  destruct (param_export_leaks sample_table sample_table_ok sample_short (fun _ => false) 1000 true (sample_storage tuned_store [])
    (cstr "/fs/cal") None Hok ltac:(simpl; lia) eq_refl) as [Hfree _].
  destruct (Hfree eq_refl) as (r & s' & E & _ & Hfd & _). exists r, s'. split; [exact E|exact Hfd].
Defined.
