(* ===== verification/AutosaveSchedule.v ===== *)
(** * The schedule of the autosave

    Theorems on [autosave_request] and [autosave_enable] (Parameters) and [ParamAutosave_Run]
    (ParamStorage), the work item of src/lib/parameters/autosave.{h,cpp}: when it runs, how
    often it saves, and that it saves in the end. The work queue runs the item at or after the
    time for which it is scheduled. *)
From stdpp Require Import base tactics strings list gmap.
From Stdlib Require Import ZArith Lia.
From S2P Require Import Prelude.
From S2P Require Import Containers.
From S2P Require Import Bson.
From S2P Require Import ParamLayers.
From S2P Require Import Float32.
From S2P Require Import Parameters.
From S2P Require Import ParamTranslation.
From S2P Require Import ParamStorage.
From S2P Require Import ParamPersistence.

Section autosave.
Context (parameters : list param_info) (parameters_readonly : list Z) {L : Type} `{ParamLayer L}.
Context `{PLL : !ParamLayerLaws (param_info_count parameters) L}.
Context (Ht : table_ok parameters).
Context (Hshort : Forall (fun i => zlen i.(name) <= 31) parameters).
Context (is_device : list Z -> bool) (space : Z) (queued : bool).

(** What happens to the item: a change requests a save, autosave is switched, the work queue
    finds the item due (with the storage, whose clock shows the time, and the arming state). *)
Inductive autosave_event :=
  | ARequest (now : Z)
  | AEnable (b : bool)
  | ARun (armed : bool) (s : storage L).

(** Whether [Run] calls [param_save_default]. *)
Definition run_saves (armed : bool) (a : ParamAutosave) (s : storage L) : bool :=
  negb (match s.(param_default_file) with None => armed | Some _ => false end) && negb a.(_disabled).

(** The item is run when it is due; the log has the times of the saves. *)
Fixpoint autosave_run (a : ParamAutosave) (es : list autosave_event) : option (list Z * ParamAutosave) :=
  match es with
  | [] => Some ([], a)
  | ARequest now :: es => autosave_run (autosave_request now a) es
  | AEnable b :: es => autosave_run (autosave_enable b a) es
  | ARun armed s :: es =>
    let now := s.(s_params).(p_now) in
    match a.(as_deadline) with
    | Some d =>
      if d <=? now then
        '(a', _) ← ParamAutosave_Run parameters is_device space queued armed a s;
        '(log, a'') ← autosave_run a' es;
        Some (if run_saves armed a s then now :: log else log, a'')
      else autosave_run a es
    | None => autosave_run a es
    end
  end.

(** Times do not decrease; saving is possible whenever the item runs. *)
Fixpoint events_ok (fname : list Z) (t : Z) (es : list autosave_event) : Prop :=
  match es with
  | [] => True
  | ARequest now :: es => t <= now /\ events_ok fname now es
  | AEnable _ :: es => events_ok fname t es
  | ARun _ s :: es =>
    let now := s.(s_params).(p_now) in
    t <= now /\ (s.(param_default_file) = None \/ idle parameters fname s) /\ events_ok fname now es
  end.

(** Consecutive saves, the first after [t], are [gap] apart. *)
Fixpoint spaced (gap t : Z) (log : list Z) : Prop :=
  match log with [] => True | x :: log => t + gap <= x /\ spaced gap x log end.

Definition rate_limit : Z := 2000000.

(** The item is due no earlier than [rate_limit] after its last run. *)
Record autosave_ok (t : Z) (a : ParamAutosave) : Prop := {
  ao_last : 0 <= a.(_last_timestamp) <= t;
  ao_due d : a.(as_deadline) = Some d -> a.(_last_timestamp) + rate_limit <= d;
}.

Lemma elapsed_ok now t : 0 <= t <= now -> hrt_elapsed_time now t = now - t.
Proof. intros Ht0. unfold hrt_elapsed_time. case_if; lia. Qed.

Lemma request_ok t now a : autosave_ok t a -> t <= now -> autosave_ok now (autosave_request now a).
Proof.
  intros [Hl Hd] Hn. unfold autosave_request. case_if; [split; [lia|done]|].
  rewrite elapsed_ok by lia. cbv zeta. split; cbn [_last_timestamp as_deadline]; [lia|]. intros d [= <-]. unfold rate_limit. case_if; lia.
Qed.

Lemma enable_ok t b a : autosave_ok t a -> autosave_ok t (autosave_enable b a).
Proof. intros [Hl Hd]. unfold autosave_enable. case_if; split; try done. Qed.

Lemma autosave_ok_mono t t' a : autosave_ok t a -> t <= t' -> autosave_ok t' a.
Proof. intros [Hl Hd] ?. split; [lia|done]. Qed.

Lemma save_none s blocking : s.(param_default_file) = None -> s.(file_mutex) = false \/ blocking = false ->
  exists r s', param_save_default parameters is_device space queued s blocking = Some (r, s').
Proof.
  intros Hd Hm. unfold param_save_default. case_if; [by do 2 eexists|].
  destruct (px4_shutdown_lock queued _) as [rl sd]. unfold param_get_default_file. cbn [with_shutdown with_mutex param_default_file].
  rewrite Hd. cbn [mbind option_bind]. by do 2 eexists.
Qed.

Lemma Run_ok fname t armed a s d : autosave_ok t a -> a.(as_deadline) = Some d -> d <= s.(s_params).(p_now) ->
  t <= s.(s_params).(p_now) -> s.(param_default_file) = None \/ idle parameters fname s ->
  exists a' s', ParamAutosave_Run parameters is_device space queued armed a s = Some (a', s') /\
    autosave_ok s.(s_params).(p_now) a' /\
    (run_saves armed a s = true -> a'.(_last_timestamp) = s.(s_params).(p_now)) /\
    a.(_last_timestamp) <= a'.(_last_timestamp).
Proof.
  intros [Hl Hd] Hdl Hdue Hn Hs. pose proof (Hd d Hdl) as Hgap. unfold ParamAutosave_Run, param_get_default_file, run_saves.
  set (now := p_now (s_params s)) in *.
  assert (exists r s', param_save_default parameters is_device space queued s false = Some (r, s')) as (r & s' & E).
  { destruct Hs as [Hs|Hs]; [by apply save_none; [|right]|].
    destruct (save_default_ok parameters parameters_readonly Ht Hshort is_device space queued s false fname Hs) as (r & s' & E & _). by exists r, s'. }
  assert (autosave_ok now (mkAutosave now false (_retry_count a) (_disabled a) None)) as Hbase by (split; [cbn; lia|done]).
  assert (forall n, autosave_ok now (mkAutosave now false n (_disabled a) None)) as Hn0 by (intros n; split; [cbn; lia|done]).
  destruct (param_default_file s) as [f|] eqn:Hf; [|destruct armed].
  2:{ eexists _, s. split; [reflexivity|]. split; [split; cbn; [lia|]; intros x [= <-]; unfold rate_limit in *; lia|]. by split; [|cbn; lia]. }
  all: cbn [_disabled]; destruct (_disabled a) eqn:Edis;
    [eexists _, s; split; [reflexivity|]; split; [done|]; split; [done|cbn; lia]|].
  all: rewrite E; cbn [mbind option_bind]; eexists _, s'; split; [reflexivity|].
  all: match goal with |- autosave_ok ?n ?x /\ _ => assert (autosave_ok n x /\ _last_timestamp x = n) as [Hx Ex] end;
    [cbn [_last_timestamp _scheduled _disabled as_deadline _retry_count]; repeat case_if; try (by split; [apply Hn0|]);
     (split; [by apply (request_ok now); [apply Hn0|]|done])|].
  all: split; [exact Hx|]; rewrite Ex; split; [done|lia].
Qed.

Lemma autosave_run_ok fname es : forall t a, autosave_ok t a -> events_ok fname t es ->
  exists log a', autosave_run a es = Some (log, a') /\ spaced rate_limit a.(_last_timestamp) log.
Proof.
  induction es as [|e es IH]; intros t a Ha He; [by exists [], a|]. destruct e as [now|b|armed s]; cbn [autosave_run events_ok] in *.
  - destruct He as [Hn He]. destruct (IH now (autosave_request now a) (request_ok t now a Ha Hn) He) as (log & a' & E & Hsp).
    exists log, a'. split; [done|]. revert Hsp. unfold autosave_request. by case_if.
  - destruct (IH t (autosave_enable b a) (enable_ok t b a Ha) He) as (log & a' & E & Hsp).
    exists log, a'. split; [done|]. revert Hsp. unfold autosave_enable. by case_if.
  - destruct He as (Hn & Hs & He). pose proof (autosave_ok_mono _ _ _ Ha Hn) as Ha'.
    destruct (as_deadline a) as [d|] eqn:Ed; [|by eapply IH]. case_if; [|by eapply IH].
    destruct (Run_ok fname t armed a s d Ha Ed ltac:(lia) Hn Hs) as (a1 & s1 & E1 & Ha1 & Hlast & Hmono).
    rewrite E1. cbn [mbind option_bind]. destruct (IH _ a1 Ha1 He) as (log & a2 & E2 & Hsp). rewrite E2. cbn [mbind option_bind].
    eexists _, a2. split; [reflexivity|]. pose proof (ao_due _ _ Ha d Ed). destruct (run_saves armed a s).
    + rewrite Hlast in Hsp by done. split; [lia|done].
    + clear - Hsp Hmono. destruct log as [|x log]; [done|]. destruct Hsp as [? ?]. split; [lia|done].
Qed.

(** ** Retries *)

(** The work queue runs the item, armed or not, at the times for which it is scheduled. *)
Definition at_time (now : Z) (s : storage L) : storage L :=
  let st := s.(s_params) in
  with_params s (mkParams st.(params_active) st.(params_unsaved) st.(runtime_defaults) st.(user_config) st.(params_locked)
    st.(param_instance) st.(p_topic) st.(autosave_instance) now).

Fixpoint run_when_due (n : nat) (armed : bool) (a : ParamAutosave) (s : storage L) : option (ParamAutosave * storage L) :=
  match n with
  | O => Some (a, s)
  | S n =>
    match a.(as_deadline) with
    | None => Some (a, s)
    | Some d => '(a, s) ← ParamAutosave_Run parameters is_device space queued armed a (at_time d s); run_when_due n armed a s
    end
  end.

Lemma at_time_idle fname now s : idle parameters fname s -> idle parameters fname (at_time now s).
Proof. intros [[[] ?] ? ? ? ?]. split; [|done..]. split; [|done]. by split. Qed.

Notation doc_of s := (document (nodes_of parameters (s_params s) None)).
Notation finite_of s := (forallb finite_node (nodes_of parameters (s_params s) None)).

Definition all_saved (s : storage L) : Prop :=
  forall p, 0 <= p < param_info_count parameters -> param_value_unsaved parameters s.(s_params) p = Some false.

Lemma run_when_due_ok fname armed n : forall a s d,
  idle parameters fname s -> a.(as_deadline) = Some d -> a.(_disabled) = false -> Z.of_nat n + a.(_retry_count) = 4 ->
  0 <= a.(_retry_count) -> (length s.(s_faults) < 3 * n)%nat -> zlen (doc_of s) <= space -> finite_of s = true ->
  exists a' s', run_when_due n armed a s = Some (a', s') /\ saved parameters fname s' /\ all_saved s' /\
    a'.(as_deadline) = None /\ a'.(_retry_count) = 0.
Proof.
  induction n as [|n IH]; intros a s d Hi Hd Hdis Hn Hr0 Hf Hsp Hfin; [lia|]. cbn [run_when_due]. rewrite Hd.
  pose proof (at_time_idle fname d s Hi) as Hi'. unfold ParamAutosave_Run, param_get_default_file. rewrite (id_default _ _ _ Hi').
  cbn [_disabled]. rewrite Hdis.
  destruct (save_default_ok parameters parameters_readonly Ht Hshort is_device space queued (at_time d s) false fname Hi')
    as (r & s1 & E & Hi1 & _ & _ & Hp1 & Hsaved & Hok). rewrite E. cbn [mbind option_bind]. change PX4_OK with 0.
  destruct (Z.eqb_spec r 0) as [->|Hr].
  - change (negb (0 =? 0)) with false. cbn iota. exists (mkAutosave d false 0 false None), s1.
    split; [by destruct n|]. split; [by apply Hsaved|]. split; [|done]. intros p Hp. rewrite Hp1. change (0 =? 0) with true. cbn iota.
    unfold param_value_unsaved. rewrite (in_range parameters p Hp).
    destruct (clear_unsaved_ok parameters (s_params (at_time d s)) (so_params _ _ (id_ok _ _ _ Hi'))) as [Hcl Hbits].
    unfold AtomicBitset_get. rewrite (bitset_get_bit 32 ltac:(lia) (param_info_count parameters) _ _ (pk_unsaved _ _ Hcl) Hp). by rewrite Hbits.
  - destruct (Hok Hsp Hfin) as [?|Hless]; [done|]. change (s_faults (at_time d s)) with (s_faults s) in Hless.
    cbn [negb _retry_count _last_timestamp _scheduled as_deadline].
    rewrite (proj2 (Z.ltb_lt _ _)) by lia.
    assert (maps_of parameters (s_params s1) = maps_of parameters (s_params s)) as Hmaps by (by rewrite Hp1).
    assert (nodes_of parameters (s_params s1) None = nodes_of parameters (s_params s) None) as Hnodes by (by apply layers_nodes).
    match goal with |- context [autosave_request ?x ?y] => set (a2 := autosave_request x y) end.
    assert (as_deadline a2 = Some (d + 2000000)) as Hd2.
    { unfold a2, autosave_request. cbn [_scheduled _disabled orb _last_timestamp as_deadline].
      change (p_now (s_params (at_time d s))) with d. unfold hrt_elapsed_time. rewrite Z.ltb_irrefl, Z.sub_diag. reflexivity. }
    assert (_disabled a2 = false /\ _retry_count a2 = _retry_count a + 1) as [Hdis2 Hr2] by done.
    apply (IH a2 s1 (d + 2000000) Hi1 Hd2 Hdis2); [lia|lia|lia|by rewrite Hnodes|by rewrite Hnodes].
Qed.

(** ** Properties *)

(** The rate limit. In any sequence of save requests, switches of the autosave and runs of
    the work item when it is due, two saves are at least two seconds apart, also when saves fail
    and are retried, and no step is undefined. *)
Theorem autosave_rate_limited fname es : events_ok fname 0 es ->
  exists log a', autosave_run ParamAutosave_new es = Some (log, a') /\ spaced rate_limit 0 log.
Proof. intros He. by apply (autosave_run_ok fname es 0 ParamAutosave_new). Qed.

End autosave.

(** ** Witnesses, on the small storage of ParamPersistence *)

#[local] Instance scheduled_layer : ParamLayer DynamicSparseLayer := Dynamic_layer true.

#[local] Instance scheduled_laws : ParamLayerLaws (param_info_count sample_table) DynamicSparseLayer :=
  Dynamic_laws (param_info_count sample_table) sample_count true.

Definition stored_at (now : Z) (faults : list fault) : storage DynamicSparseLayer := at_time now (sample_storage tuned_store faults).

Lemma stored_at_idle now faults : idle sample_table (cstr "/fs/params") (stored_at now faults).
Proof. apply at_time_idle, sample_storage_idle, tuned_stores_ok. Qed.

(** Two changes and a run that is not yet due, one that saves but meets faults, and the retry. *)
Definition busy_events : list (autosave_event (L := DynamicSparseLayer)) :=
  [ARequest 5000000; ARequest 5100000; ARun false (stored_at 5200000 []); ARun true (stored_at 5300000 [Open_fails; Open_fails; Open_fails]);
   AEnable true; ARequest 5400000; ARun true (stored_at 7300000 [])].

Lemma autosave_rate_limited_witness :
  exists log a', autosave_run sample_table (fun _ => false) 1000 true ParamAutosave_new busy_events = Some (log, a') /\
    spaced rate_limit 0 log /\ log = [5300000; 7300000].
Proof.
  destruct (autosave_rate_limited sample_table [] sample_table_ok sample_short (fun _ => false) 1000 true (cstr "/fs/params") busy_events)
    as (log & a' & E & Hsp).
  { cbn [events_ok busy_events]. repeat split; try (right; apply stored_at_idle); vm_compute; intros X; discriminate X. }
  exists log, a'. split; [exact E|]. split; [exact Hsp|]. vm_compute in E. injection E as <- _. reflexivity.
Defined.

Definition many_faults : list fault := [Open_fails; Space 3; Open_fails; Open_fails; Space 0; Open_fails; Open_fails].

