(* ===== verification/FailsafeFramework.v ===== *)
(** * The failsafe framework of the commander

    The class [FailsafeBase] of src/modules/commander/failsafe/framework.{h,cpp}: the table of
    active actions, the selection of the action to take, delays, user takeover and deferral.
    The virtual methods are a type class; its laws say that a derived class changes the table
    through [checkFailsafe] only. The class [Failsafe] implements it in the file Failsafe. *)
From stdpp Require Import base tactics list.
From Stdlib Require Import ZArith Lia.
From S2P Require Import Prelude.
From S2P Require Import Float32.

(** ** Navigation states (msg/versioned/VehicleStatus.msg) *)

Definition NAVIGATION_STATE_ALTCTL : Z := 1.
Definition NAVIGATION_STATE_POSCTL : Z := 2.
Definition NAVIGATION_STATE_AUTO_MISSION : Z := 3.
Definition NAVIGATION_STATE_AUTO_LOITER : Z := 4.
Definition NAVIGATION_STATE_AUTO_RTL : Z := 5.
Definition NAVIGATION_STATE_POSITION_SLOW : Z := 6.
Definition NAVIGATION_STATE_GUIDED_COURSE : Z := 7.
Definition NAVIGATION_STATE_ALTITUDE_CRUISE : Z := 8.
Definition NAVIGATION_STATE_DESCEND : Z := 12.
Definition NAVIGATION_STATE_TERMINATION : Z := 13.
Definition NAVIGATION_STATE_OFFBOARD : Z := 14.
Definition NAVIGATION_STATE_STAB : Z := 15.
Definition NAVIGATION_STATE_AUTO_TAKEOFF : Z := 17.
Definition NAVIGATION_STATE_AUTO_LAND : Z := 18.
Definition NAVIGATION_STATE_AUTO_FOLLOW_TARGET : Z := 19.
Definition NAVIGATION_STATE_AUTO_PRECLAND : Z := 20.
Definition NAVIGATION_STATE_ORBIT : Z := 21.
Definition NAVIGATION_STATE_AUTO_VTOL_TAKEOFF : Z := 22.
Definition NAVIGATION_STATE_EXTERNAL1 : Z := 23.
Definition NAVIGATION_STATE_EXTERNAL8 : Z := 30.

(** ** The condition flags (msg/FailsafeFlags.msg) *)

(** The boolean flags, by name. *)
Inductive flag :=
  | angular_velocity_invalid | attitude_invalid | local_altitude_invalid | local_position_invalid
  | local_position_invalid_relaxed | local_velocity_invalid | global_position_invalid
  | global_position_invalid_relaxed | auto_mission_missing | offboard_control_signal_lost
  | home_position_invalid
  | manual_control_signal_lost | gcs_connection_lost
  | battery_low_remaining_time | battery_unhealthy
  | fd_critical_failure | fd_esc_arming_failure | fd_imbalanced_prop | fd_motor_failure | fd_alt_loss
  | geofence_breached | mission_failure | vtol_fixed_wing_system_failure | wind_limit_exceeded
  | flight_time_limit_exceeded | position_accuracy_low | navigator_failure | parachute_unhealthy
  | traffic_avoidance_unhealthy | remote_id_unhealthy | gnss_lost.

#[global] Instance flag_eq_dec : EqDecision flag.
Proof. solve_decision. Defined.

Record failsafe_flags := mkFlags {
  mode_req_angular_velocity : Z;
  mode_req_attitude : Z;
  mode_req_local_alt : Z;
  mode_req_local_position : Z;
  mode_req_local_position_relaxed : Z;
  mode_req_global_position : Z;
  mode_req_global_position_relaxed : Z;
  mode_req_mission : Z;
  mode_req_offboard_signal : Z;
  mode_req_home_position : Z;
  mode_req_wind_and_flight_time_compliance : Z;
  mode_req_prevent_arming : Z;
  mode_req_manual_control : Z;
  mode_req_other : Z;
  battery_warning : Z;
  flag_set : flag -> bool;
}.

(** A zero-initialised [failsafe_flags_s]. *)
Definition no_flags : failsafe_flags := mkFlags 0 0 0 0 0 0 0 0 0 0 0 0 0 0 0 (fun _ => false).

(** ** Types *)

Inductive Action :=
  | Action_None | Action_Warn
  | FallbackPosCtrl | FallbackAltCtrl | FallbackStab
  | Hold | RTL | Land | Descend | Disarm | Terminate.

Inductive ClearCondition := WhenConditionClears | OnModeChangeOrDisarm | OnDisarm | Clear_Never.

(** [Cause_Count] is the value of [_pending_notification_cause] when nothing is pending. *)
Inductive Cause :=
  | Generic | ManualControlLoss | GCSConnectionLoss | BatteryLow | BatteryCritical | BatteryEmergency
  | RemainingFlightTimeLow | Cause_Count.

Inductive UserTakeoverAllowed := Always | AlwaysModeSwitchOnly | Auto | Takeover_Never.

#[global] Instance Action_eq_dec : EqDecision Action.
Proof. solve_decision. Defined.
#[global] Instance ClearCondition_eq_dec : EqDecision ClearCondition.
Proof. solve_decision. Defined.
#[global] Instance Cause_eq_dec : EqDecision Cause.
Proof. solve_decision. Defined.
#[global] Instance UserTakeoverAllowed_eq_dec : EqDecision UserTakeoverAllowed.
Proof. solve_decision. Defined.

(** The values of the enumerations, which the code compares. *)
Definition severity (a : Action) : Z :=
  match a with
  | Action_None => 0 | Action_Warn => 1 | FallbackPosCtrl => 2 | FallbackAltCtrl => 3 | FallbackStab => 4
  | Hold => 5 | RTL => 6 | Land => 7 | Descend => 8 | Disarm => 9 | Terminate => 10
  end.

Definition strictness (u : UserTakeoverAllowed) : Z :=
  match u with Always => 0 | AlwaysModeSwitchOnly => 1 | Auto => 2 | Takeover_Never => 3 end.

Notation "a >a b" := (severity b <? severity a) (at level 70).
Notation "a ≥a b" := (severity b <=? severity a) (at level 70).
Notation "a ==a b" := (bool_decide (a = b)) (at level 70).

Record State := mkState {
  armed : bool;
  user_intended_mode : Z;
  vehicle_type : Z;
  vtol_in_transition_mode : bool;
  mission_finished : bool;
}.

Record ActionOptions := mkOptions {
  action : Action;
  clear_condition : ClearCondition;
  cause : Cause;
  allow_user_takeover : UserTakeoverAllowed;
  can_be_deferred : bool;
  state_failure : bool;
  activated : bool;
  id : Z;
}.

(** [ActionOptions(action)] and its setters. *)
Definition ActionOptions_new (a : Action) : ActionOptions :=
  mkOptions a WhenConditionClears Generic Auto true false false (-1).
Definition allowUserTakeover (allow : UserTakeoverAllowed) (o : ActionOptions) : ActionOptions :=
  mkOptions o.(action) o.(clear_condition) o.(cause) allow o.(can_be_deferred) o.(state_failure) o.(activated) o.(id).
Definition clearOn (c : ClearCondition) (o : ActionOptions) : ActionOptions :=
  mkOptions o.(action) c o.(cause) o.(allow_user_takeover) o.(can_be_deferred) o.(state_failure) o.(activated) o.(id).
Definition causedBy (c : Cause) (o : ActionOptions) : ActionOptions :=
  mkOptions o.(action) o.(clear_condition) c o.(allow_user_takeover) o.(can_be_deferred) o.(state_failure) o.(activated) o.(id).
Definition cannotBeDeferred (o : ActionOptions) : ActionOptions :=
  mkOptions o.(action) o.(clear_condition) o.(cause) o.(allow_user_takeover) false o.(state_failure) o.(activated) o.(id).
Definition valid (o : ActionOptions) : bool := negb (o.(id) =? -1).
Definition setInvalid (o : ActionOptions) : ActionOptions :=
  mkOptions o.(action) o.(clear_condition) o.(cause) o.(allow_user_takeover) o.(can_be_deferred) o.(state_failure) o.(activated) (-1).

Definition set_action (a : Action) (o : ActionOptions) : ActionOptions :=
  mkOptions a o.(clear_condition) o.(cause) o.(allow_user_takeover) o.(can_be_deferred) o.(state_failure) o.(activated) o.(id).
Definition set_failure (b : bool) (o : ActionOptions) : ActionOptions :=
  mkOptions o.(action) o.(clear_condition) o.(cause) o.(allow_user_takeover) o.(can_be_deferred) b o.(activated) o.(id).
Definition set_activated (b : bool) (o : ActionOptions) : ActionOptions :=
  mkOptions o.(action) o.(clear_condition) o.(cause) o.(allow_user_takeover) o.(can_be_deferred) o.(state_failure) b o.(id).
Definition set_id (i : Z) (o : ActionOptions) : ActionOptions :=
  mkOptions o.(action) o.(clear_condition) o.(cause) o.(allow_user_takeover) o.(can_be_deferred) o.(state_failure) o.(activated) i.

Record SelectedActionState := mkSelected {
  sel_action : Action;
  sel_delayed_action : Action;
  sel_cause : Cause;
  updated_user_intended_mode : Z;
  user_takeover : bool;
  failsafe_deferred : bool;
}.

(** What [checkFailsafe] changes. *)
Record Actives := mkActives {
  _actions : list ActionOptions;
  _current_delay : Z;
  _user_takeover_active : bool;
  _pending_notification_cause : Cause;
  _duplicate_reported_once : bool;
}.

(** The parameter COM_FAIL_ACT_T is a member, as in the class. *)
Record FailsafeBase := mkBase {
  actives : Actives;
  _last_update : Z;
  _last_armed : bool;
  _last_user_intended_mode : Z;
  _last_status_flags : failsafe_flags;
  _selected_action : Action;
  _defer_failsafes : bool;
  _defer_timeout : Z;
  _failsafe_defer_started : Z;
  _current_start_delay : Z;
  _param_com_fail_act_t : Z;
}.

Definition with_actives (b : FailsafeBase) (a : Actives) : FailsafeBase :=
  mkBase a b.(_last_update) b.(_last_armed) b.(_last_user_intended_mode) b.(_last_status_flags) b.(_selected_action)
    b.(_defer_failsafes) b.(_defer_timeout) b.(_failsafe_defer_started) b.(_current_start_delay) b.(_param_com_fail_act_t).

Definition with_table (a : Actives) (l : list ActionOptions) : Actives :=
  mkActives l a.(_current_delay) a.(_user_takeover_active) a.(_pending_notification_cause) a.(_duplicate_reported_once).

Definition with_delay (a : Actives) (d : Z) : Actives :=
  mkActives a.(_actions) d a.(_user_takeover_active) a.(_pending_notification_cause) a.(_duplicate_reported_once).

Definition with_takeover (a : Actives) (t : bool) : Actives :=
  mkActives a.(_actions) a.(_current_delay) t a.(_pending_notification_cause) a.(_duplicate_reported_once).

Definition with_pending (a : Actives) (c : Cause) : Actives :=
  mkActives a.(_actions) a.(_current_delay) a.(_user_takeover_active) c a.(_duplicate_reported_once).

Definition with_defer (b : FailsafeBase) (enabled : bool) (timeout : Z) : FailsafeBase :=
  mkBase b.(actives) b.(_last_update) b.(_last_armed) b.(_last_user_intended_mode) b.(_last_status_flags) b.(_selected_action)
    enabled timeout b.(_failsafe_defer_started) b.(_current_start_delay) b.(_param_com_fail_act_t).

(** ** Operations *)

Definition max_num_actions : nat := 8.
Definition DEFAULT_DEFER_TIMEOUT : Z := 30 * 1000000.

(** [a > b] on floats. *)
Definition f32_gt (a b : Z) : bool := negb (f32_is_nan a) && negb (f32_is_nan b) && (f32_units b <? f32_units a).

(** [static_cast<hrt_abstime>(t * 1_s)] for a float [t]: the product is rounded to a float, then
    truncated. C leaves the conversion of negative and huge values undefined; the parameters of
    the failsafe are limited to a few seconds. *)
Definition seconds_us (t : Z) : Z :=
  if f32_sign t =? 0 then f_decode 23 (f_encode 23 0 (f_decode 23 (f32_mag t) * 1000000)) / 2 ^ 149 else 0.

(** 0.1f *)
Definition f32_0_1 : Z := 0x3DCCCCCD.

Definition modeCanRun (fl : failsafe_flags) (mode : Z) : bool :=
  let mode_mask := u32 (Z.shiftl 1 mode) in
  let fine f req := negb (fl.(flag_set) f) || (Z.land req mode_mask =? 0) in
  fine angular_velocity_invalid fl.(mode_req_angular_velocity) &&
  fine attitude_invalid fl.(mode_req_attitude) &&
  fine local_position_invalid fl.(mode_req_local_position) &&
  fine local_position_invalid_relaxed fl.(mode_req_local_position_relaxed) &&
  fine global_position_invalid fl.(mode_req_global_position) &&
  fine global_position_invalid_relaxed fl.(mode_req_global_position_relaxed) &&
  fine local_altitude_invalid fl.(mode_req_local_alt) &&
  fine auto_mission_missing fl.(mode_req_mission) &&
  fine offboard_control_signal_lost fl.(mode_req_offboard_signal) &&
  fine home_position_invalid fl.(mode_req_home_position) &&
  (Z.land fl.(mode_req_other) mode_mask =? 0).

Definition modeFromAction (a : Action) (user_intended_mode : Z) : Z :=
  match a with
  | FallbackPosCtrl => NAVIGATION_STATE_POSCTL
  | FallbackAltCtrl => NAVIGATION_STATE_ALTCTL
  | FallbackStab => NAVIGATION_STATE_STAB
  | Hold => NAVIGATION_STATE_AUTO_LOITER
  | RTL => NAVIGATION_STATE_AUTO_RTL
  | Land => NAVIGATION_STATE_AUTO_LAND
  | Descend => NAVIGATION_STATE_DESCEND
  | Terminate | Disarm | Action_None | Action_Warn => user_intended_mode
  end.

Definition actionAllowsUserTakeover (a : Action) : bool :=
  (a ==a Hold) || (a ==a RTL) || (a ==a Land) || (a ==a Descend).

Definition inFailsafe (b : FailsafeBase) : bool :=
  negb (b.(_selected_action) ==a Action_None) && negb (b.(_selected_action) ==a Action_Warn).

Definition failsafeDeferred (b : FailsafeBase) : bool := negb (b.(_failsafe_defer_started) =? 0).

(** *** The table of actions *)

Definition removeActions (condition : ClearCondition) (l : list ActionOptions) : list ActionOptions :=
  map (fun cur_action =>
    if valid cur_action && negb cur_action.(state_failure) && bool_decide (cur_action.(clear_condition) = condition)
    then setInvalid cur_action else cur_action) l.

Definition removeAction (defer_failsafes : bool) (a : ActionOptions) : ActionOptions :=
  let remove_while_deferring := defer_failsafes && a.(can_be_deferred) in
  if bool_decide (a.(clear_condition) = WhenConditionClears) || remove_while_deferring then setInvalid a
  else set_failure false a.

Definition removeNonActivatedActions (defer_failsafes : bool) (l : list ActionOptions) : list ActionOptions :=
  map (fun cur_action =>
    set_activated false
      (if valid cur_action && negb cur_action.(activated) then removeAction defer_failsafes cur_action else cur_action)) l.

(** The first loop of [checkFailsafe]: the last free slot before the slot of the caller, and the
    slot of the caller; -1 for none. *)
Fixpoint find_slot (caller_id : Z) (l : list ActionOptions) (i free_idx : Z) : Z * Z :=
  match l with
  | [] => (free_idx, -1)
  | a :: l =>
    if negb (valid a) then find_slot caller_id l (i + 1) i
    else if a.(id) =? caller_id then (free_idx, i)
    else find_slot caller_id l (i + 1) free_idx
  end.

(** The second loop: the last slot with a less severe action. *)
Fixpoint replace_slot (new : Action) (l : list ActionOptions) (i free_idx : Z) : Z :=
  match l with
  | [] => free_idx
  | a :: l => replace_slot new l (i + 1) (if new >a a.(action) then i else free_idx)
  end.

(** The body of the branch that puts the options in the slot [free_idx]. *)
Definition add_action (b : FailsafeBase) (a : Actives) (free_idx : Z) (caller_id : Z) (options : ActionOptions) : Actives :=
  let slot := set_activated true (set_failure true (set_id caller_id options)) in
  let '(slot, a) :=
    if bool_decide (options.(allow_user_takeover) = Auto) then
      if f32_gt b.(_param_com_fail_act_t) f32_0_1 then
        (allowUserTakeover Always slot,
         if negb (options.(action) ==a Action_Warn) && (a.(_current_delay) =? 0)
         then with_delay a b.(_current_start_delay) else a)
      else (allowUserTakeover AlwaysModeSwitchOnly slot, a)
    else (slot, a) in
  let a := with_table a (<[Z.to_nat free_idx := slot]> a.(_actions)) in
  let a := if negb (options.(action) ==a Action_None) then with_pending a options.(cause) else a in
  if options.(action) ≥a Hold then with_takeover a false else a.

Definition checkFailsafe (b : FailsafeBase) (caller_id : Z) (last_state_failure cur_state_failure : bool)
    (options : ActionOptions) : bool * FailsafeBase :=
  let a := b.(actives) in
  let l := a.(_actions) in
  let a' :=
    if cur_state_failure then
      let '(free_idx, found_idx) := find_slot caller_id l 0 (-1) in
      if negb (found_idx =? -1) then
        let i := Z.to_nat found_idx in
        match l !! i with
        | Some slot =>
          let dup := if slot.(activated) && negb a.(_duplicate_reported_once) then true else a.(_duplicate_reported_once) in
          let slot := set_action options.(action) (set_activated true (set_failure true slot)) in
          mkActives (<[i := slot]> l) a.(_current_delay) a.(_user_takeover_active) a.(_pending_notification_cause) dup
        | None => a
        end
      else
        let free_idx := if free_idx =? -1 then replace_slot options.(action) l 0 (-1) else free_idx in
        if negb (free_idx =? -1) then add_action b a free_idx caller_id options else a
    else if last_state_failure then
      with_table a (map (fun x => if x.(id) =? caller_id then removeAction b.(_defer_failsafes) x else x) l)
    else a in
  (cur_state_failure, with_actives b a').

(** *** The selection *)

Record selection := mkSelection {
  s_allow_user_takeover : UserTakeoverAllowed;
  s_selected_action : Action;
  s_cause : Cause;
  s_allow_deferral : bool;
}.

(** The loop that selects the worst action. *)
Definition select_step (s : selection) (cur_action : ActionOptions) : selection :=
  if valid cur_action && negb (cur_action.(action) ==a Action_None) then
    mkSelection
      (if strictness s.(s_allow_user_takeover) <? strictness cur_action.(allow_user_takeover)
       then cur_action.(allow_user_takeover) else s.(s_allow_user_takeover))
      (if cur_action.(action) >a s.(s_selected_action) then cur_action.(action) else s.(s_selected_action))
      (if cur_action.(action) >a s.(s_selected_action) then cur_action.(cause) else s.(s_cause))
      (if negb cur_action.(can_be_deferred) then false else s.(s_allow_deferral))
  else s.

Definition select_worst (l : list ActionOptions) : selection :=
  foldl select_step (mkSelection Always Action_None Generic true) l.

(** The switch that falls back to an action that is possible, with the cause; a case of the
    switch falls through to the next definition up. *)
Definition possible_Descend (fl : failsafe_flags) (c : Cause) : Action * Cause :=
  if modeCanRun fl NAVIGATION_STATE_DESCEND then (Descend, c) else (Terminate, Generic).
Definition possible_Land (fl : failsafe_flags) (c : Cause) : Action * Cause :=
  if modeCanRun fl NAVIGATION_STATE_AUTO_LAND then (Land, c) else possible_Descend fl Generic.
Definition possible_RTL (fl : failsafe_flags) (c : Cause) : Action * Cause :=
  if modeCanRun fl NAVIGATION_STATE_AUTO_RTL then (RTL, c) else possible_Land fl Generic.
Definition possible_Hold (fl : failsafe_flags) (c : Cause) : Action * Cause :=
  if modeCanRun fl NAVIGATION_STATE_AUTO_LOITER then (Hold, c) else possible_RTL fl Generic.
Definition possible_Stab (fl : failsafe_flags) (c : Cause) : Action * Cause :=
  if modeCanRun fl NAVIGATION_STATE_STAB then (FallbackStab, c) else possible_Hold fl Generic.
Definition possible_AltCtrl (fl : failsafe_flags) (c : Cause) : Action * Cause :=
  if modeCanRun fl NAVIGATION_STATE_ALTCTL then (FallbackAltCtrl, c) else possible_Stab fl Generic.
Definition possible_PosCtrl (fl : failsafe_flags) (c : Cause) : Action * Cause :=
  if modeCanRun fl NAVIGATION_STATE_POSCTL then (FallbackPosCtrl, c) else possible_AltCtrl fl Generic.

Definition possible_action (fl : failsafe_flags) (a : Action) (c : Cause) : Action * Cause :=
  match a with
  | FallbackPosCtrl => possible_PosCtrl fl c
  | FallbackAltCtrl => possible_AltCtrl fl c
  | FallbackStab => possible_Stab fl c
  | Hold => possible_Hold fl c
  | RTL => possible_RTL fl c
  | Land => possible_Land fl c
  | Descend => possible_Descend fl c
  | Terminate => (Terminate, c)
  | Disarm => (Disarm, c)
  | Action_None => (Action_None, c)
  | Action_Warn => (Action_Warn, c)
  end.

(** One of the blocks at the end: in the mode [mode] the actions of [covered] are replaced by a
    warning. *)
Definition already_in (fl : failsafe_flags) (mode : Z) (covered : Action -> bool) (s : SelectedActionState) : SelectedActionState :=
  if (s.(updated_user_intended_mode) =? mode)
     && (covered s.(sel_action) || covered s.(sel_delayed_action)) && modeCanRun fl mode
  then mkSelected Action_Warn Action_None s.(sel_cause) s.(updated_user_intended_mode) s.(user_takeover) s.(failsafe_deferred)
  else s.

Definition action_can_be_delayed (a : Action) : bool :=
  negb (a ==a Action_None) && negb (a ==a Action_Warn) && negb (a ==a Disarm) && negb (a ==a Terminate) && negb (a ==a Hold).

(** [checkModeFallback] is virtual: the argument [fallback] is the method with the flags. The
    second result is whether the takeover event is sent. *)
Definition getSelectedAction (fallback : Z -> Action) (b : FailsafeBase) (state : State) (fl : failsafe_flags)
    (user_intended_mode_updated rc_sticks_takeover_request : bool) : SelectedActionState * bool :=
  let mode := state.(user_intended_mode) in
  if (mode =? NAVIGATION_STATE_TERMINATION) || (b.(_selected_action) ==a Terminate) then
    (mkSelected Terminate Action_None Generic mode false false, false)
  else if negb state.(armed) then
    (mkSelected Action_None Action_None Generic mode false false, false)
  else
    let s := select_worst b.(actives).(_actions) in
    let selected_action := s.(s_selected_action) in
    if b.(_defer_failsafes) && s.(s_allow_deferral) && negb (selected_action ==a Action_None) then
      (mkSelected Action_None Action_None s.(s_cause) mode false (selected_action >a Action_Warn), false)
    else
      let takeover_active := b.(actives).(_user_takeover_active) in
      let delayed :=
        (0 <? b.(actives).(_current_delay)) && negb takeover_active
        && (strictness s.(s_allow_user_takeover) <=? strictness AlwaysModeSwitchOnly)
        && action_can_be_delayed selected_action in
      let delayed_action := if delayed then selected_action else Action_None in
      let selected_action := if delayed then Hold else selected_action in
      let allow_user_takeover := if delayed then AlwaysModeSwitchOnly else s.(s_allow_user_takeover) in
      let want_user_takeover_mode_switch := user_intended_mode_updated && (b.(_selected_action) >a Action_Warn) in
      let want_user_takeover := want_user_takeover_mode_switch || rc_sticks_takeover_request in
      let takeover_allowed :=
        (bool_decide (allow_user_takeover = Always) && (takeover_active || want_user_takeover))
        || (bool_decide (allow_user_takeover = AlwaysModeSwitchOnly) && (takeover_active || want_user_takeover_mode_switch)) in
      let takeover := actionAllowsUserTakeover selected_action && takeover_allowed in
      let mode := if takeover && negb takeover_active && rc_sticks_takeover_request then NAVIGATION_STATE_POSCTL else mode in
      let delayed_action := if takeover then Action_None else delayed_action in
      let selected_action :=
        if takeover then
          let mode_fallback := fallback (modeFromAction Action_Warn mode) in
          if mode_fallback >a Action_Warn then mode_fallback else Action_Warn
        else selected_action in
      let '(selected_action, cause) := possible_action fl selected_action s.(s_cause) in
      let r := mkSelected selected_action delayed_action cause mode takeover false in
      let r := already_in fl NAVIGATION_STATE_AUTO_LAND (fun a => a ==a RTL) r in
      let r := already_in fl NAVIGATION_STATE_AUTO_RTL (fun a => a ==a RTL) r in
      let r := already_in fl NAVIGATION_STATE_AUTO_PRECLAND (fun a => (a ==a RTL) || (a ==a Land)) r in
      (r, takeover && negb takeover_active).

(** *** Notifications *)

Inductive event :=
  | commander_failsafe_enter_generic_hold | commander_failsafe_enter_hold
  | commander_failsafe_enter_generic_warn | commander_failsafe_enter_autopilot_disengaged
  | commander_failsafe_enter_generic
  | commander_failsafe_enter_low_bat | commander_failsafe_enter_crit_bat_warn
  | commander_failsafe_enter_crit_low_bat_warn | commander_failsafe_enter_low_flight_time_warn
  | commander_failsafe_enter_warn | commander_failsafe_enter
  | failsafe_rc_override.

(** An event with what it can tell: the mode, the action, the seconds until the action and the
    cause; and whether a critical log message is sent, too. *)
Record notification := mkNotification {
  n_event : event;
  n_mode : Z;
  n_action : Action;
  n_delay_s : Z;
  n_cause : Cause;
  n_log_critical : bool;
}.

Definition notifyUser (current_delay user_intended_mode : Z) (a delayed_action : Action) (c : Cause) : notification :=
  let delay_s := u64 (current_delay + 500000) / 1000000 in
  if (a ==a Hold) && negb (delayed_action ==a Action_None) then
    mkNotification (if bool_decide (c = Generic) then commander_failsafe_enter_generic_hold else commander_failsafe_enter_hold)
      user_intended_mode delayed_action (u16 delay_s) c true
  else
    let e :=
      if bool_decide (c = Generic) then
        if a ==a Action_Warn then commander_failsafe_enter_generic_warn
        else if (a ==a Descend) || (a ==a FallbackAltCtrl) || (a ==a FallbackStab)
        then commander_failsafe_enter_autopilot_disengaged
        else commander_failsafe_enter_generic
      else if a ==a Action_Warn then
        match c with
        | BatteryLow => commander_failsafe_enter_low_bat
        | BatteryCritical => commander_failsafe_enter_crit_bat_warn
        | BatteryEmergency => commander_failsafe_enter_crit_low_bat_warn
        | RemainingFlightTimeLow => commander_failsafe_enter_low_flight_time_warn
        | _ => commander_failsafe_enter_warn
        end
      else commander_failsafe_enter in
    mkNotification e user_intended_mode a 0 c (negb (a ==a Action_Warn)).

(** *** Delays and deferral *)

Definition updateDelay (elapsed_us : Z) (current_delay : Z) : Z :=
  if current_delay <? elapsed_us then 0 else current_delay - elapsed_us.

Definition updateStartDelay (dt : Z) (delay_active : bool) (param_com_fail_act_t : Z) (current_start_delay : Z) : Z :=
  if delay_active then
    if dt <? current_start_delay then current_start_delay - dt else 0
  else
    let current_start_delay := u64 (current_start_delay + dt / 4) in
    let configured_delay := seconds_us param_com_fail_act_t in
    if configured_delay <? current_start_delay then configured_delay else current_start_delay.

Definition updateFailsafeDeferState (time_us : Z) (defer : bool) (failsafe_defer_started : Z) : Z :=
  if defer then if failsafe_defer_started =? 0 then time_us else failsafe_defer_started else 0.

Definition clearDelayIfNeeded (b : FailsafeBase) (fl : failsafe_flags) : FailsafeBase :=
  if (b.(_selected_action) >a Hold) || negb (modeCanRun fl NAVIGATION_STATE_AUTO_LOITER) || b.(actives).(_user_takeover_active)
  then with_actives b (with_delay b.(actives) 0) else b.

Definition deferFailsafes (b : FailsafeBase) (enabled : bool) (timeout_s : Z) : bool * FailsafeBase :=
  if enabled && (b.(_selected_action) >a Action_Warn) then (false, b)
  else
    let b :=
      if negb enabled && b.(_defer_failsafes) && (b.(_failsafe_defer_started) =? 0)
      then with_actives b (with_delay b.(actives) 0) else b in
    let timeout := if timeout_s =? 0 then DEFAULT_DEFER_TIMEOUT else if timeout_s <? 0 then 0 else u64 (timeout_s * 1000000) in
    (true, with_defer b enabled timeout).

(** [updateParams], with the new value of COM_FAIL_ACT_T. *)
Definition updateParams (b : FailsafeBase) (com_fail_act_t : Z) : FailsafeBase :=
  mkBase b.(actives) b.(_last_update) b.(_last_armed) b.(_last_user_intended_mode) b.(_last_status_flags) b.(_selected_action)
    b.(_defer_failsafes) b.(_defer_timeout) b.(_failsafe_defer_started) (seconds_us com_fail_act_t) com_fail_act_t.

Definition FailsafeBase_new (com_fail_act_t : Z) : FailsafeBase :=
  mkBase (mkActives (replicate max_num_actions (ActionOptions_new Action_None)) 0 false Cause_Count false)
    0 false 0 no_flags Action_None false 0 0 (seconds_us com_fail_act_t) com_fail_act_t.

(** *** The update *)

(** The virtual methods, over the members [D] of the derived class. *)
Class FailsafeMethods (D : Type) := {
  checkStateAndMode : Z -> State -> failsafe_flags -> FailsafeBase * D -> FailsafeBase * D;
  checkModeFallback : D -> failsafe_flags -> Z -> Action;
  modifyUserIntendedMode : D -> Action -> Action -> Z -> Z;
}.

(** The part of [update] before the checks, with the new value of [user_intended_mode_updated]. *)
Definition update_begin (b : FailsafeBase) (time_us : Z) (state : State) (user_intended_mode_updated : bool) : bool * FailsafeBase :=
  let last_update := if b.(_last_update) =? 0 then time_us else b.(_last_update) in
  let a := b.(actives) in
  let a :=
    if (b.(_last_armed) && negb state.(armed)) || (negb b.(_last_armed) && state.(armed))
    then with_takeover (with_table a (removeActions OnModeChangeOrDisarm (removeActions OnDisarm a.(_actions)))) false
    else a in
  let updated := user_intended_mode_updated || negb (b.(_last_user_intended_mode) =? state.(user_intended_mode)) in
  let a :=
    if updated || a.(_user_takeover_active)
    then with_table a (removeActions OnModeChangeOrDisarm a.(_actions)) else a in
  let defer_failsafes :=
    if b.(_defer_failsafes) && negb (b.(_failsafe_defer_started) =? 0) && (0 <? b.(_defer_timeout))
       && (u64 (b.(_failsafe_defer_started) + b.(_defer_timeout)) <? time_us)
    then false else b.(_defer_failsafes) in
  let a :=
    if b.(_failsafe_defer_started) =? 0
    then with_delay a (updateDelay (u64 (time_us - last_update)) a.(_current_delay)) else a in
  (updated,
   mkBase a last_update b.(_last_armed) b.(_last_user_intended_mode) b.(_last_status_flags) b.(_selected_action)
     defer_failsafes b.(_defer_timeout) b.(_failsafe_defer_started) b.(_current_start_delay) b.(_param_com_fail_act_t)).

(** After the checks. *)
Definition update_table (b : FailsafeBase) (fl : failsafe_flags) : FailsafeBase :=
  let a := b.(actives) in
  clearDelayIfNeeded (with_actives b (with_table a (removeNonActivatedActions b.(_defer_failsafes) a.(_actions)))) fl.

Section update.
Context {D : Type} `{FailsafeMethods D}.

(** The end of [update], from the selected action. *)
Definition update_finish (b : FailsafeBase) (d : D) (time_us : Z) (state : State) (fl : failsafe_flags) (s : SelectedActionState)
    : Z * list notification * FailsafeBase :=
  let dt := u64 (time_us - b.(_last_update)) in
  let a := b.(actives) in
  let start_delay :=
    updateStartDelay dt (negb (s.(sel_delayed_action) ==a Action_None)) b.(_param_com_fail_act_t) b.(_current_start_delay) in
  let defer_started := updateFailsafeDeferState time_us s.(failsafe_deferred) b.(_failsafe_defer_started) in
  let notify := notifyUser a.(_current_delay) state.(user_intended_mode) in
  let notifications :=
    if s.(sel_action) >a b.(_selected_action) then [notify s.(sel_action) s.(sel_delayed_action) s.(sel_cause)]
    else if negb (bool_decide (a.(_pending_notification_cause) = Cause_Count))
    then [notify Action_Warn Action_None a.(_pending_notification_cause)]
    else [] in
  let mode := modifyUserIntendedMode d b.(_selected_action) s.(sel_action) s.(updated_user_intended_mode) in
  (mode, notifications,
   mkBase (with_takeover (with_pending a Cause_Count) s.(user_takeover)) time_us state.(armed) mode fl s.(sel_action)
     b.(_defer_failsafes) b.(_defer_timeout) defer_started start_delay b.(_param_com_fail_act_t)).

Definition update (bd : FailsafeBase * D) (time_us : Z) (state : State) (user_intended_mode_updated rc_sticks_takeover_request : bool)
    (fl : failsafe_flags) : Z * list notification * (FailsafeBase * D) :=
  let '(b, d) := bd in
  let '(user_intended_mode_updated, b) := update_begin b time_us state user_intended_mode_updated in
  let '(b, d) := checkStateAndMode time_us state fl (b, d) in
  let b := update_table b fl in
  let '(s, took_over) :=
    getSelectedAction (checkModeFallback d fl) b state fl user_intended_mode_updated rc_sticks_takeover_request in
  let override := mkNotification failsafe_rc_override state.(user_intended_mode) Action_None 0 Generic false in
  let '(mode, notifications, b) := update_finish b d time_us state fl s in
  (mode, (if took_over then [override] else []) ++ notifications, (b, d)).
End update.

(** ** The table of actions: invariant and lemmas *)

(** A call of [checkFailsafe]. *)
Record check := mkCheck { chk_id : Z; chk_last : bool; chk_cur : bool; chk_options : ActionOptions }.

Definition run_check (b : FailsafeBase) (c : check) : FailsafeBase :=
  (checkFailsafe b c.(chk_id) c.(chk_last) c.(chk_cur) c.(chk_options)).2.

(** At most one slot per caller; a valid slot says who may take over. *)
Record table_wf (l : list ActionOptions) : Prop := {
  tw_length : length l = max_num_actions;
  tw_ids i j a b : l !! i = Some a -> l !! j = Some b -> valid a = true -> valid b = true -> a.(id) = b.(id) -> i = j;
  tw_takeover i a : l !! i = Some a -> valid a = true -> a.(allow_user_takeover) <> Auto;
}.

Lemma severity_le_Terminate a : severity a <= severity Terminate.
Proof. destruct a; cbn; lia. Qed.

Lemma severity_nonneg a : 0 <= severity a.
Proof. destruct a; cbn; lia. Qed.

Lemma severity_inj a b : severity a = severity b -> a = b.
Proof. by destruct a, b. Qed.

Lemma valid_setInvalid a : valid (setInvalid a) = false.
Proof. done. Qed.

(** Replacing slots one by one keeps the invariant if a slot keeps its identity or becomes invalid. *)
Lemma table_wf_map f l : table_wf l ->
  (forall a, valid (f a) = true -> valid a = true /\ (f a).(id) = a.(id) /\ (f a).(allow_user_takeover) = a.(allow_user_takeover)) ->
  table_wf (map f l).
Proof.
  intros [Hl Hi Ht] Hf. split.
  - by rewrite length_map.
  - intros i j a b Ha Hb Va Vb E. apply list_lookup_fmap_Some in Ha as (a0 & -> & Ha), Hb as (b0 & -> & Hb).
    destruct (Hf _ Va) as (? & Ea & _), (Hf _ Vb) as (? & Eb & _). apply (Hi i j a0 b0); congruence.
  - intros i a Ha Va. apply list_lookup_fmap_Some in Ha as (a0 & -> & Ha). destruct (Hf _ Va) as (? & _ & ->). by apply (Ht i).
Qed.

Lemma table_wf_insert l i x y : table_wf l -> l !! i = Some y ->
  (valid x = true -> x.(allow_user_takeover) <> Auto /\
    forall j a, j <> i -> l !! j = Some a -> valid a = true -> a.(id) <> x.(id)) ->
  table_wf (<[i := x]> l).
Proof.
  intros [Hl Hi Ht] Hy Hx. pose proof (lookup_lt_Some _ _ _ Hy) as Hlt. split.
  - by rewrite length_insert.
  - intros j k a b Ha Hb Va Vb E. rewrite list_lookup_insert in Ha, Hb.
    repeat case_decide; destruct_and?; simplify_eq; try done; [exfalso; naive_solver..|by apply (Hi j k a b)].
  - intros j a Ha Va. rewrite list_lookup_insert in Ha. case_decide.
    + injection Ha as ->. by apply Hx.
    + by apply (Ht j).
Qed.

Lemma find_slot_ok c l : forall i free,
  -1 <= free -> 0 <= i ->
  match find_slot c l i free with
  | (f, r) =>
    (r = -1 /\ (forall k a, l !! k = Some a -> valid a = true -> a.(id) <> c) /\
      ((f = free /\ forall k a, l !! k = Some a -> valid a = true) \/
       (exists a, i <= f /\ l !! Z.to_nat (f - i) = Some a /\ valid a = false))) \/
    (i <= r /\ exists a, l !! Z.to_nat (r - i) = Some a /\ valid a = true /\ a.(id) = c)
  end.
Proof.
  induction l as [|x l IH]; intros i free Hf Hi; cbn [find_slot]; [left; by split; [|split; [|left]]|].
  assert (forall r (P : ActionOptions -> Prop), i + 1 <= r -> (exists a, l !! Z.to_nat (r - (i + 1)) = Some a /\ P a) ->
    exists a, (x :: l) !! Z.to_nat (r - i) = Some a /\ P a) as Hshift.
  { intros r P Hr [a [Ha HP]]. exists a. split; [|done]. replace (Z.to_nat (r - i)) with (S (Z.to_nat (r - (i + 1)))) by lia. done. }
  destruct (valid x) eqn:Vx; cbn [negb].
  - destruct (Z.eqb_spec (id x) c) as [E|Hne].
    + right. split; [lia|]. exists x. by rewrite Z.sub_diag.
    + specialize (IH (i + 1) free Hf ltac:(lia)). destruct (find_slot c l (i + 1) free) as [f r].
      destruct IH as [(Hr & Hno & Hfree)|(Hr & Hex)]; [left|right; split; [lia|by apply Hshift]].
      split; [done|]. split; [intros [|k] a Ha; [by injection Ha as <-|by apply (Hno k)]|].
      destruct Hfree as [[? Hall]|(a & Hle & Ha & Va)]; [left; split; [done|]|right; destruct (Hshift f (fun a => valid a = false)) as (a' & ? & ?);
        [lia|by exists a|exists a'; split; [lia|done]]]. intros [|k] a Ha; [by injection Ha as <-|by apply (Hall k)].
  - specialize (IH (i + 1) i ltac:(lia) ltac:(lia)). destruct (find_slot c l (i + 1) i) as [f r].
    destruct IH as [(Hr & Hno & Hfree)|(Hr & Hex)]; [left|right; split; [lia|by apply Hshift]].
    split; [done|]. split; [intros [|k] a Ha; [injection Ha as <-; congruence|by apply (Hno k)]|].
    right. destruct Hfree as [[-> Hall]|(a & Hle & Ha & Va)]; [exists x; by rewrite Z.sub_diag|].
    destruct (Hshift f (fun a => valid a = false)) as (a' & ? & ?); [lia|by exists a|exists a'; split; [lia|done]].
Qed.

Lemma replace_slot_ok new l : forall i free,
  let r := replace_slot new l i free in
  (r = free /\ forall k a, l !! k = Some a -> severity new <= severity a.(action)) \/
  (i <= r /\ exists a, l !! Z.to_nat (r - i) = Some a /\ severity a.(action) < severity new) .
Proof.
  induction l as [|x l IH]; intros i free; cbn [replace_slot]; [by left|].
  destruct (IH (i + 1) (if new >a action x then i else free)) as [[Hr Hall]|(Hr & a & Ha & Hlt)].
  - rewrite Hr. case_if; [right; split; [lia|]; exists x; by rewrite Z.sub_diag|].
    left. split; [done|]. intros [|k] a Ha; [injection Ha as <-; lia|by apply (Hall k)].
  - right. split; [lia|]. exists a. split; [|done].
    replace (Z.to_nat (replace_slot new l (i + 1) (if new >a action x then i else free) - i))
      with (S (Z.to_nat (replace_slot new l (i + 1) (if new >a action x then i else free) - (i + 1)))) by lia. done.
Qed.

(** What a check does, by cases. *)
Inductive check_result (b : FailsafeBase) (c : check) : Actives -> Prop :=
  | result_idle : c.(chk_cur) = false -> c.(chk_last) = false -> check_result b c b.(actives)
  | result_cleared : c.(chk_cur) = false -> c.(chk_last) = true ->
      check_result b c (with_table b.(actives)
        (map (fun x => if x.(id) =? c.(chk_id) then removeAction b.(_defer_failsafes) x else x) b.(actives).(_actions)))
  | result_found i slot : c.(chk_cur) = true -> b.(actives).(_actions) !! i = Some slot -> valid slot = true -> slot.(id) = c.(chk_id) ->
      check_result b c
        (let a := b.(actives) in
         mkActives (<[i := set_action c.(chk_options).(action) (set_activated true (set_failure true slot))]> a.(_actions))
           a.(_current_delay) a.(_user_takeover_active) a.(_pending_notification_cause) (slot.(activated) || a.(_duplicate_reported_once)))
  | result_added i old : c.(chk_cur) = true ->
      (forall k x, b.(actives).(_actions) !! k = Some x -> valid x = true -> x.(id) <> c.(chk_id)) ->
      b.(actives).(_actions) !! i = Some old ->
      (valid old = false \/ ((forall k x, b.(actives).(_actions) !! k = Some x -> valid x = true) /\
                             severity old.(action) < severity c.(chk_options).(action))) ->
      check_result b c (add_action b b.(actives) (Z.of_nat i) c.(chk_id) c.(chk_options))
  | result_dropped : c.(chk_cur) = true ->
      (forall k x, b.(actives).(_actions) !! k = Some x ->
        valid x = true /\ x.(id) <> c.(chk_id) /\ severity c.(chk_options).(action) <= severity x.(action)) ->
      check_result b c b.(actives).

Lemma run_check_result b c : exists a, run_check b c = with_actives b a /\ check_result b c a.
Proof.
  unfold run_check, checkFailsafe. destruct c as [i last [] o]; cbn [chk_id chk_last chk_cur chk_options snd].
  2:{ destruct last; eexists; split; try reflexivity; by constructor. }
  pose proof (find_slot_ok i b.(actives).(_actions) 0 (-1) ltac:(lia) ltac:(lia)) as Hf.
  destruct (find_slot i (_actions (actives b)) 0 (-1)) as [f r].
  destruct Hf as [(-> & Hno & Hfree)|(Hr & a & Ha & Va & Ea)]; rewrite ?Z.sub_0_r in *.
  - change (negb (-1 =? -1)) with false. cbn iota. eexists. split; [reflexivity|].
    destruct Hfree as [(-> & Hall)|(a & Hle & Ha & Va)]; rewrite ?Z.sub_0_r in *.
    + change (-1 =? -1) with true. cbn iota. destruct (replace_slot_ok o.(action) (_actions (actives b)) 0 (-1)) as [[-> Hsev]|(Hr & a & Ha & Hlt)].
      * change (negb (-1 =? -1)) with false. cbn iota. apply result_dropped; [done|]. intros k x Hx. pose proof (Hall k x Hx). split; [done|]. split; [by apply (Hno k)|by apply (Hsev k)].
      * rewrite (proj2 (Z.eqb_neq _ (-1))) by lia. cbn [negb]. rewrite Z.sub_0_r in Ha. rewrite <- (Z2Nat.id (replace_slot _ _ _ _)) by lia.
        eapply result_added; [done|done|exact Ha|]. by right.
    + rewrite (proj2 (Z.eqb_neq f (-1))) by lia. cbn iota. rewrite (proj2 (Z.eqb_neq f (-1))) by lia. cbn [negb].
      rewrite <- (Z2Nat.id f) by lia. eapply result_added; [done|done|exact Ha|]. by left.
  - rewrite (proj2 (Z.eqb_neq r (-1))) by lia. cbn [negb]. rewrite Ha. eexists. split; [reflexivity|].
    replace (if activated a && negb (_duplicate_reported_once (actives b)) then true else _duplicate_reported_once (actives b))
      with (activated a || _duplicate_reported_once (actives b)) by (by destruct (activated a), (_duplicate_reported_once (actives b))).
    by apply (result_found b (mkCheck i last true o) (Z.to_nat r) a).
Qed.

(** The slot that a check adds. *)
Record new_slot (c : check) (slot : ActionOptions) : Prop := {
  ns_id : slot.(id) = c.(chk_id);
  ns_action : slot.(action) = c.(chk_options).(action);
  ns_clear : slot.(clear_condition) = c.(chk_options).(clear_condition);
  ns_cause : slot.(cause) = c.(chk_options).(cause);
  ns_defer : slot.(can_be_deferred) = c.(chk_options).(can_be_deferred);
  ns_takeover : slot.(allow_user_takeover) <> Auto;
  ns_takeover_same : c.(chk_options).(allow_user_takeover) <> Auto -> slot.(allow_user_takeover) = c.(chk_options).(allow_user_takeover);
  ns_flags : slot.(activated) = true /\ slot.(state_failure) = true;
}.

Lemma new_slot_valid c slot : new_slot c slot -> 0 <= c.(chk_id) -> valid slot = true.
Proof. intros Hn Hc. unfold valid. rewrite (ns_id _ _ Hn), (proj2 (Z.eqb_neq _ _)) by lia. done. Qed.

Lemma add_action_ok b a i c : exists slot, new_slot c slot /\
  let a' := add_action b a (Z.of_nat i) c.(chk_id) c.(chk_options) in
  a'.(_actions) = <[i := slot]> a.(_actions) /\
  (a'.(_current_delay) = a.(_current_delay) \/ (a.(_current_delay) = 0 /\ a'.(_current_delay) = b.(_current_start_delay))) /\
  a'.(_duplicate_reported_once) = a.(_duplicate_reported_once) /\
  (a'.(_user_takeover_active) = true -> a.(_user_takeover_active) = true).
Proof.
  destruct c as [ci last cur o]. unfold add_action. cbn [chk_id chk_options].
  set (s0 := set_activated true (set_failure true (set_id ci o))).
  destruct (decide (allow_user_takeover o = Auto)) as [E|E]; [rewrite bool_decide_true by done|rewrite bool_decide_false by done].
  - destruct (f32_gt _ _); [exists (allowUserTakeover Always s0)|exists (allowUserTakeover AlwaysModeSwitchOnly s0)];
      (split; [by split|]); rewrite Nat2Z.id; cbn zeta; repeat case_if; cbn;
      (split; [done|]); (split; [first [by left|right; split; [lia|done]]|]); done.
  - exists s0. split; [by split|]. rewrite Nat2Z.id. cbn zeta. repeat case_if; cbn; (split; [done|]); (split; [by left|]); done.
Qed.

Notation table b := (b.(actives).(_actions)).

Lemma run_check_wf b c : table_wf (table b) -> table_wf (table (run_check b c)).
Proof.
  intros Hw. destruct (run_check_result b c) as (a & -> & Hr). cbn [actives with_actives].
  destruct Hr as [| |i slot Hc Hs Vs Es|i old Hc Hno Ho Hold|]; try done.
  - apply table_wf_map; [done|]. intros x. case_if; [|done]. unfold removeAction. by case_if.
  - cbn. apply (table_wf_insert _ i _ slot); [done|done|]. intros _. split; [exact (tw_takeover _ Hw i slot Hs Vs)|].
    intros j x Hj Hx Vx E. apply Hj. by apply (tw_ids _ Hw j i x slot).
  - destruct (add_action_ok b b.(actives) i c) as (slot & Hn & E & _). cbn zeta in E. rewrite E.
    apply (table_wf_insert _ i _ old); [done|done|]. intros _. split; [apply Hn|]. intros j x _ Hx Vx. rewrite (ns_id _ _ Hn). by apply (Hno j).
Qed.

(** ** Sequences of checks *)

Definition run_checks (b : FailsafeBase) (cs : list check) : FailsafeBase := foldl run_check b cs.

(** A failing check finds eight other callers, all with actions at least as severe. *)
Definition dropped (b : FailsafeBase) (c : check) : bool :=
  c.(chk_cur) && forallb (fun x => valid x && negb (x.(id) =? c.(chk_id)) && (x.(action) ≥a c.(chk_options).(action))) (table b).

Fixpoint overflow (b : FailsafeBase) (cs : list check) : bool :=
  match cs with [] => false | c :: cs => dropped b c || overflow (run_check b c) cs end.

Lemma dropped_intro b c : c.(chk_cur) = true ->
  (forall k x, table b !! k = Some x -> valid x = true /\ x.(id) <> c.(chk_id) /\ severity c.(chk_options).(action) <= severity x.(action)) ->
  dropped b c = true.
Proof.
  intros Hc Hall. unfold dropped. rewrite Hc. cbn [andb]. apply List.forallb_forall. intros x [k Hx]%list_elem_of_In%list_elem_of_lookup.
  destruct (Hall k x Hx) as (-> & Hid & Hs). rewrite (proj2 (Z.eqb_neq _ _)) by done. cbn [negb andb]. lia.
Qed.

(** The state between two checks of an update: [seen] are the callers so far. *)
Record checking (seen : list Z) (b : FailsafeBase) : Prop := {
  ck_wf : table_wf (table b);
  ck_activated i x : table b !! i = Some x -> valid x = true -> x.(activated) = true -> x.(id) ∈ seen;
  ck_dup : b.(actives).(_duplicate_reported_once) = false;
}.

(** An activated slot of one of the callers so far with an action at least as severe as [a]. *)
Definition covered (seen : list Z) (l : list ActionOptions) (a : Action) : Prop :=
  exists i x, l !! i = Some x /\ valid x = true /\ x.(activated) = true /\ x.(id) ∈ seen /\ severity a <= severity x.(action).

Lemma insert_lookup_ne_or {A} (l : list A) i j x y : l !! i = Some x -> <[j := y]> l !! i = Some (if decide (i = j) then y else x).
Proof.
  intros Hx. case_decide as E; [subst; apply list_lookup_insert_eq; by eapply lookup_lt_Some|].
  by rewrite list_lookup_insert_ne by done.
Qed.

Lemma run_check_checking seen b c : checking seen b -> c.(chk_id) ∉ seen -> 0 <= c.(chk_id) -> checking (c.(chk_id) :: seen) (run_check b c).
Proof.
  intros [Hw Ha Hd] Hc Hpos. split; [by apply run_check_wf|..]; destruct (run_check_result b c) as (a & -> & Hr); cbn [actives with_actives].
  - intros i x. destruct Hr as [| |j slot _ Hs Vs Es|j old _ Hno Ho _|]; try (intros; apply elem_of_cons; right; by eapply Ha).
    + intros Hx Vx Ax. apply list_lookup_fmap_Some in Hx as (y & -> & Hy). revert Vx Ax.
      case_if; [unfold removeAction; case_if; [done|]; cbn; intros; apply elem_of_cons; left; lia|]. intros. apply elem_of_cons. right. by eapply Ha.
    + cbn. rewrite list_lookup_insert. case_decide; [intros [= <-]; cbn; intros; apply elem_of_cons; by left|intros; apply elem_of_cons; right; by eapply Ha].
    + destruct (add_action_ok b b.(actives) j c) as (slot & Hn & E & _). cbn zeta in E. rewrite E, list_lookup_insert.
      case_decide; [intros [= <-] _ _; apply elem_of_cons; left; apply Hn|intros; apply elem_of_cons; right; by eapply Ha].
  - destruct Hr as [| |j slot _ Hs Vs Es|j old _ Hno Ho _|]; try done.
    + cbn. rewrite Hd, orb_false_r. destruct (activated slot) eqn:As; [|done]. exfalso. apply Hc. rewrite <- Es. by eapply Ha.
    + destruct (add_action_ok b b.(actives) j c) as (slot & Hn & _ & _ & E & _). cbn zeta in E. by rewrite E.
Qed.

Lemma covered_kept seen b c a : checking seen b -> c.(chk_id) ∉ seen -> 0 <= c.(chk_id) ->
  covered seen (table b) a -> covered (c.(chk_id) :: seen) (table (run_check b c)) a.
Proof.
  intros Hck Hc Hpos (i & x & Hx & Vx & Ax & Ix & Sx). destruct (run_check_result b c) as (a' & -> & Hr); cbn [actives with_actives].
  assert (id x <> chk_id c) as Hne by congruence. destruct Hr as [| |j slot _ Hs Vs Es|j old _ Hno Ho Hold|].
  - exists i, x. by repeat (split; [done|]); split; [right|].
  - exists i, x. split; [|by repeat (split; [done|]); split; [right|]]. cbn. rewrite list_lookup_fmap, Hx. cbn.
    by rewrite (proj2 (Z.eqb_neq _ _)).
  - exists i, x. split; [|by repeat (split; [done|]); split; [right|]]. cbn. rewrite list_lookup_insert_ne; [done|]. intros ->. congruence.
  - destruct (add_action_ok b b.(actives) j c) as (slot & Hn & E & _). cbn zeta in E. rewrite E.
    pose proof (insert_lookup_ne_or _ _ j _ slot Hx) as Hi. exists i. case_decide as Eij; [subst j|].
    + exists slot. rewrite Hx in Ho. injection Ho as <-. destruct Hold as [Hold|[_ Hlt]]; [congruence|].
      rewrite (ns_action _ _ Hn), (ns_id _ _ Hn). split; [done|]. split; [by apply (new_slot_valid c)|].
      split; [apply Hn|]. split; [left|lia].
    + exists x. by repeat (split; [done|]); split; [right|].
  - exists i, x. by repeat (split; [done|]); split; [right|].
Qed.

Lemma own_slot b c : 0 <= c.(chk_id) -> c.(chk_cur) = true -> dropped b c = false ->
  exists i x, table (run_check b c) !! i = Some x /\ valid x = true /\ x.(activated) = true /\ x.(id) = c.(chk_id) /\
    x.(action) = c.(chk_options).(action).
Proof.
  intros Hpos Hcur Hd. destruct (run_check_result b c) as (a' & -> & Hr); cbn [actives with_actives].
  destruct Hr as [?|?|j slot _ Hs Vs Es|j old _ Hno Ho Hold|_ Hall]; try congruence.
  - eexists j, _. split; [cbn; apply list_lookup_insert_eq; by eapply lookup_lt_Some|]. done.
  - destruct (add_action_ok b b.(actives) j c) as (slot & Hn & E & _). cbn zeta in E. rewrite E.
    exists j, slot. split; [apply list_lookup_insert_eq; by eapply lookup_lt_Some|]. split; [by apply (new_slot_valid c)|]. by destruct Hn as [? ? _ _ _ _ _ [? _]].
  - rewrite (dropped_intro b c) in Hd by done. done.
Qed.

Lemma covered_new seen b c : 0 <= c.(chk_id) -> c.(chk_cur) = true -> dropped b c = false ->
  covered (c.(chk_id) :: seen) (table (run_check b c)) c.(chk_options).(action).
Proof.
  intros Hpos Hcur Hd. destruct (own_slot b c Hpos Hcur Hd) as (i & x & Hx & Vx & Ax & Ix & Ex). exists i, x.
  do 3 (split; [done|]). rewrite Ix, Ex. split; [left|lia].
Qed.

(** What checks leave alone, and what they may do to delay and takeover. *)
Record checked (b b' : FailsafeBase) : Prop := {
  cd_frame : b' = with_actives b b'.(actives);
  cd_delay : b'.(actives).(_current_delay) = b.(actives).(_current_delay) \/
    (b.(actives).(_current_delay) = 0 /\ b'.(actives).(_current_delay) = b.(_current_start_delay));
  cd_takeover : b'.(actives).(_user_takeover_active) = true -> b.(actives).(_user_takeover_active) = true;
}.

Lemma run_check_checked b c : checked b (run_check b c).
Proof.
  destruct (run_check_result b c) as (a' & -> & Hr). split; [done|..]; cbn [actives with_actives].
  - destruct Hr as [| | |j old _ _ _ _|]; try (by left).
    destruct (add_action_ok b b.(actives) j c) as (slot & _ & _ & E & _). exact E.
  - destruct Hr as [| | |j old _ _ _ _|]; try done.
    destruct (add_action_ok b b.(actives) j c) as (slot & _ & _ & _ & _ & E). exact E.
Qed.

Lemma checked_trans b1 b2 b3 : checked b1 b2 -> checked b2 b3 -> checked b1 b3.
Proof.
  intros [F1 D1 T1] [F2 D2 T2]. split; [by rewrite F2, F1|..|auto].
  assert (_current_start_delay b2 = _current_start_delay b1) as Es by (by rewrite F1).
  destruct D1 as [?|[? ?]], D2 as [?|[? ?]]; try (left; congruence); right; split; congruence.
Qed.

Lemma run_checks_checked cs : forall b, checked b (run_checks b cs).
Proof.
  induction cs as [|c cs IH]; intros b; [by split; [destruct b|left|]|]. eapply checked_trans; [apply run_check_checked|apply (IH (run_check b c))].
Qed.

Lemma run_checks_ok cs : forall seen b, checking seen b -> NoDup (map chk_id cs ++ seen) -> Forall (fun c => 0 <= c.(chk_id)) cs ->
  exists seen', checking seen' (run_checks b cs) /\ checked b (run_checks b cs) /\
    (forall a, covered seen (table b) a -> covered seen' (table (run_checks b cs)) a) /\
    (overflow b cs = false -> forall c, c ∈ cs -> c.(chk_cur) = true -> covered seen' (table (run_checks b cs)) c.(chk_options).(action)).
Proof.
  induction cs as [|c cs IH]; intros seen b Hck Hnd Hpos; cbn [run_checks foldl map app overflow] in *.
  { exists seen. split; [done|]. split; [by split; [destruct b|left|]|]. split; [done|]. by intros _ c Hc%elem_of_nil. }
  apply NoDup_cons in Hnd as [Hni Hnd]. apply Forall_cons in Hpos as [Hp Hpos]. apply not_elem_of_app in Hni as [Hni1 Hni2].
  destruct (IH (chk_id c :: seen) (run_check b c)) as (seen' & Hck' & Hcd & Hkeep & Hcov).
  { by apply run_check_checking. }
  { rewrite <- Permutation_middle. apply NoDup_cons. split; [|done]. by apply not_elem_of_app. }
  { done. }
  exists seen'. split; [done|]. split; [by eapply checked_trans; [apply run_check_checked|]|]. split.
  - intros a Ha. apply Hkeep. by apply covered_kept.
  - intros [Hd Ho]%orb_false_elim c' Hc' Hcur. apply elem_of_cons in Hc' as [->|Hc']; [|by apply Hcov].
    apply Hkeep. by apply covered_new.
Qed.

(** A failing check of a new caller finds no free slot. *)
Definition crowded (b : FailsafeBase) (c : check) : bool :=
  c.(chk_cur) && forallb (fun x => valid x && negb (x.(id) =? c.(chk_id))) (table b).

Fixpoint crowds (b : FailsafeBase) (cs : list check) : bool :=
  match cs with [] => false | c :: cs => crowded b c || crowds (run_check b c) cs end.

Lemma crowded_intro b c : c.(chk_cur) = true ->
  (forall k x, table b !! k = Some x -> valid x = true /\ x.(id) <> c.(chk_id)) -> crowded b c = true.
Proof.
  intros Hc Hall. unfold crowded. rewrite Hc. cbn [andb]. apply List.forallb_forall. intros x [k Hx]%list_elem_of_In%list_elem_of_lookup.
  destruct (Hall k x Hx) as (-> & Hid). by rewrite (proj2 (Z.eqb_neq _ _)).
Qed.

Lemma not_crowded_not_dropped b c : crowded b c = false -> dropped b c = false.
Proof.
  unfold crowded, dropped. destruct (chk_cur c); [|done]. cbn [andb]. intros Hc. apply not_true_is_false. intros Hd.
  apply not_true_iff_false in Hc. apply Hc. apply List.forallb_forall. intros x Hx. pose proof (proj1 (List.forallb_forall _ _) Hd x Hx) as H0.
  by apply andb_prop in H0 as [? _].
Qed.

(** Without crowding a slot is left alone by the checks of other callers. *)
Lemma slot_kept b c i x : table b !! i = Some x -> valid x = true -> x.(id) <> c.(chk_id) -> crowded b c = false ->
  table (run_check b c) !! i = Some x.
Proof.
  intros Hx Vx Ix Hcr. destruct (run_check_result b c) as (a & -> & Hr); cbn [actives with_actives].
  destruct Hr as [| |j slot _ Hs Vs Es|j old Hcur Hno Ho Hold|]; try done.
  - cbn. rewrite list_lookup_fmap, Hx. cbn. by rewrite (proj2 (Z.eqb_neq _ _)).
  - cbn. rewrite list_lookup_insert_ne; [done|]. intros ->. congruence.
  - destruct (add_action_ok b b.(actives) j c) as (slot & Hn & E & _). cbn zeta in E. rewrite E.
    rewrite list_lookup_insert_ne; [done|]. intros ->. destruct Hold as [Hold|[Hall _]]; [congruence|].
    rewrite crowded_intro in Hcr; [done|done|]. intros k y Hy. split; [by apply (Hall k)|]. by apply (Hno k); [|apply (Hall k)].
Qed.

Lemma slot_kept_all cs : forall b i x, table b !! i = Some x -> valid x = true -> x.(id) ∉ map chk_id cs -> crowds b cs = false ->
  table (run_checks b cs) !! i = Some x.
Proof.
  induction cs as [|c cs IH]; intros b i x Hx Vx Ix; cbn [crowds]; [done|]. intros [H1 H2]%orb_false_elim.
  cbn [map] in Ix. apply not_elem_of_cons in Ix as [I1 I2]. apply (IH (run_check b c)); try done. by apply slot_kept.
Qed.

(** Without crowding every failing check has its slot in the end. *)
Lemma own_slot_all cs : forall b c, NoDup (map chk_id cs) -> Forall (fun c => 0 <= c.(chk_id)) cs -> crowds b cs = false ->
  c ∈ cs -> c.(chk_cur) = true ->
  exists i x, table (run_checks b cs) !! i = Some x /\ valid x = true /\ x.(activated) = true /\ x.(id) = c.(chk_id) /\
    x.(action) = c.(chk_options).(action).
Proof.
  induction cs as [|c' cs IH]; intros b c Hnd Hpos; cbn [crowds]; [by intros _ Hc%elem_of_nil|]. intros [H1 H2]%orb_false_elim Hc Hcur.
  cbn [map] in Hnd. apply NoDup_cons in Hnd as [Hni Hnd]. apply Forall_cons in Hpos as [Hp Hpos].
  apply elem_of_cons in Hc as [->|Hc]; [|by apply (IH (run_check b c'))].
  destruct (own_slot b c' Hp Hcur (not_crowded_not_dropped _ _ H1)) as (i & x & Hx & Vx & Ax & Ix & Ex). exists i, x. split; [|done].
  apply (slot_kept_all cs (run_check b c')); try done. by rewrite Ix.
Qed.

(** ** After the checks *)

Definition not_activated (l : list ActionOptions) : Prop := Forall (fun x => x.(activated) = false) l.

Lemma removeAction_ok d x : valid (removeAction d x) = true ->
  valid x = true /\ (removeAction d x).(id) = x.(id) /\ (removeAction d x).(allow_user_takeover) = x.(allow_user_takeover) /\
  (removeAction d x).(action) = x.(action) /\ (removeAction d x).(can_be_deferred) = x.(can_be_deferred).
Proof. unfold removeAction. by case_if. Qed.

Lemma removeNonActivated_wf d l : table_wf l -> table_wf (removeNonActivatedActions d l).
Proof.
  intros Hw. apply table_wf_map; [done|]. intros x. case_if; [|done]. intros V. destruct (removeAction_ok d x) as (? & ? & ? & _); [exact V|].
  done.
Qed.

Lemma removeNonActivated_not_activated d l : not_activated (removeNonActivatedActions d l).
Proof. apply Forall_forall. intros x (y & -> & _)%list_elem_of_fmap. done. Qed.

(** An active action at least as severe as [a]. *)
Definition active (l : list ActionOptions) (a : Action) : Prop :=
  exists x, x ∈ l /\ valid x = true /\ severity a <= severity x.(action).

Lemma covered_active d seen l a : covered seen l a -> active (removeNonActivatedActions d l) a.
Proof.
  intros (i & x & Hx & Vx & Ax & _ & Sx). exists (set_activated false x). split; [|done]. apply list_elem_of_fmap. exists x.
  split; [|by eapply list_elem_of_lookup_2]. by rewrite Vx, Ax.
Qed.

Lemma removeActions_wf c l : table_wf l -> table_wf (removeActions c l).
Proof. intros Hw. apply table_wf_map; [done|]. intros x. by case_if. Qed.

Lemma removeActions_not_activated c l : not_activated l -> not_activated (removeActions c l).
Proof. intros Hn. apply Forall_map. eapply Forall_impl; [exact Hn|]. intros x Hx. cbn. by case_if. Qed.

(** ** The selected action *)

(** The selection is as severe and as strict as every active action, and deferrable only if they all are. *)
Record selection_ok (l : list ActionOptions) (s : selection) : Prop := {
  so_worst a : active l a -> severity a <= severity s.(s_selected_action);
  so_strict x : x ∈ l -> valid x = true -> x.(action) <> Action_None -> strictness x.(allow_user_takeover) <= strictness s.(s_allow_user_takeover);
  so_defer x : s.(s_allow_deferral) = true -> x ∈ l -> valid x = true -> x.(action) <> Action_None -> x.(can_be_deferred) = true;
  so_active : s.(s_selected_action) <> Action_None -> active l s.(s_selected_action);
}.

Lemma select_worst_ok l : selection_ok l (select_worst l).
Proof.
  unfold select_worst. induction l as [|x l IH] using rev_ind.
  { split; try (by intros ? ?%elem_of_nil); try done; [by intros a (x & Hx%elem_of_nil & _)|by intros x _ Hx%elem_of_nil]. }
  rewrite foldl_app. cbn [foldl]. set (s := foldl select_step _ l) in *. destruct IH as [Hw Hs Hd Ha].
  assert (forall a, active l a -> active (l ++ [x]) a) as Hmono.
  { intros a (y & Hy & HP). exists y. split; [|done]. apply elem_of_app. by left. }
  unfold select_step. destruct (valid x && negb (action x ==a Action_None)) eqn:E.
  - apply andb_prop in E as [Vx Nx%negb_true_iff%bool_decide_eq_false]. split.
    + intros a (y & Hy & Vy & Sy). cbn. apply elem_of_app in Hy as [Hy| ->%list_elem_of_singleton].
      * specialize (Hw a (ex_intro _ y (conj Hy (conj Vy Sy)))). case_if; lia.
      * case_if; lia.
    + intros y Hy Vy Ny. cbn. apply elem_of_app in Hy as [Hy| ->%list_elem_of_singleton].
      * specialize (Hs y Hy Vy Ny). case_if; lia.
      * case_if; lia.
    + intros y Hdef Hy Vy Ny. cbn in Hdef. apply elem_of_app in Hy as [Hy| ->%list_elem_of_singleton].
      * apply Hd; try done. by case_if_in Hdef.
      * by case_if_in Hdef.
    + cbn. case_if; [|intros Hn; by apply Hmono, Ha]. intros _. exists x. split; [apply elem_of_app; right; by apply list_elem_of_singleton|]. by split.
  - assert (forall y, y ∈ l ++ [x] -> valid y = true -> action y <> Action_None -> y ∈ l) as Hin.
    { intros y Hy Vy Ny. apply elem_of_app in Hy as [Hy| ->%list_elem_of_singleton]; [done|]. rewrite Vy in E. cbn [andb] in E.
      apply negb_false_iff, bool_decide_eq_true in E. done. }
    split; [|by eauto..|intros; by apply Hmono, Ha].
    intros a (y & Hy & Vy & Sy). destruct (decide (action y = Action_None)) as [Ey|Ny]; [rewrite Ey in Sy; pose proof (severity_nonneg (s_selected_action s)); cbn in Sy; lia|].
    apply Hw. exists y. split; [by apply Hin|done].
Qed.

(** The action that is taken can run, and is not less severe. *)
Lemma possible_action_ok fl a c m :
  let r := (possible_action fl a c).1 in
  severity a <= severity r /\
  (severity a <= severity Action_Warn -> r = a) /\
  (r = Disarm \/ r = Terminate \/ severity r <= severity Action_Warn \/ modeCanRun fl (modeFromAction r m) = true) /\
  (modeCanRun fl (modeFromAction a m) = true -> r = a).
Proof.
  unfold possible_action, possible_PosCtrl, possible_AltCtrl, possible_Stab, possible_Hold, possible_RTL, possible_Land, possible_Descend.
  destruct a; cbn zeta; repeat (case_if; try (cbn; split; [lia|]; split; [lia|]; split; [by auto|congruence])); cbn;
    (split; [lia|]); (split; [first [done|lia]|]); (split; [first [by auto|right; right; left; lia]|done]).
Qed.

(** The modes in which RTL, or RTL and Land, are replaced by a warning. *)
Definition exempt (fl : failsafe_flags) (mode : Z) : Prop :=
  (mode = NAVIGATION_STATE_AUTO_LAND \/ mode = NAVIGATION_STATE_AUTO_RTL \/ mode = NAVIGATION_STATE_AUTO_PRECLAND) /\
  modeCanRun fl mode = true.

Definition already_in_all (fl : failsafe_flags) (r : SelectedActionState) : SelectedActionState :=
  already_in fl NAVIGATION_STATE_AUTO_PRECLAND (fun a => (a ==a RTL) || (a ==a Land))
    (already_in fl NAVIGATION_STATE_AUTO_RTL (fun a => a ==a RTL)
      (already_in fl NAVIGATION_STATE_AUTO_LAND (fun a => a ==a RTL) r)).

Lemma already_in_cases fl m covered r :
  (already_in fl m covered r = r) \/
  (r.(updated_user_intended_mode) = m /\ (covered r.(sel_action) = true \/ covered r.(sel_delayed_action) = true) /\ modeCanRun fl m = true /\
   already_in fl m covered r =
     mkSelected Action_Warn Action_None r.(sel_cause) r.(updated_user_intended_mode) r.(user_takeover) r.(failsafe_deferred)).
Proof.
  unfold already_in. case_if; [|by left]. right. repeat split; try done.
  match goal with H : (_ || _)%bool = true |- _ => by apply orb_true_iff in H end.
Qed.

Lemma already_in_all_cases fl r :
  (already_in_all fl r = r) \/
  (exempt fl r.(updated_user_intended_mode) /\
   (r.(sel_action) = RTL \/ r.(sel_action) = Land \/ r.(sel_delayed_action) = RTL \/ r.(sel_delayed_action) = Land) /\
   already_in_all fl r =
     mkSelected Action_Warn Action_None r.(sel_cause) r.(updated_user_intended_mode) r.(user_takeover) r.(failsafe_deferred)).
Proof.
  unfold already_in_all, exempt.
  destruct (already_in_cases fl NAVIGATION_STATE_AUTO_LAND (fun a => a ==a RTL) r) as [->|(Em & Hc & Hr & ->)].
  2:{ unfold already_in. cbn. right. rewrite Em. split; [by split; [left|]|]. split; [|done].
      destruct Hc as [Hc%bool_decide_eq_true|Hc%bool_decide_eq_true]; auto. }
  destruct (already_in_cases fl NAVIGATION_STATE_AUTO_RTL (fun a => a ==a RTL) r) as [->|(Em & Hc & Hr & ->)].
  2:{ unfold already_in. cbn. right. rewrite Em. split; [by split; [right; left|]|]. split; [|done].
      destruct Hc as [Hc%bool_decide_eq_true|Hc%bool_decide_eq_true]; auto. }
  destruct (already_in_cases fl NAVIGATION_STATE_AUTO_PRECLAND (fun a => (a ==a RTL) || (a ==a Land)) r) as [->|(Em & Hc & Hr & ->)]; [by left|].
  right. rewrite Em. split; [by split; [right; right|]|]. split; [|done].
  destruct Hc as [[Hc%bool_decide_eq_true|Hc%bool_decide_eq_true]%orb_true_iff|[Hc%bool_decide_eq_true|Hc%bool_decide_eq_true]%orb_true_iff]; auto.
Qed.

(** Why the action of the table [l] may be answered by a less severe one: it is deferred; or it
    is not Disarm or Terminate, and it is delayed with a Hold, or the pilot took over and every
    active action permits that, or the vehicle is already landing or returning. *)
Definition answered (fl : failsafe_flags) (b : FailsafeBase) (a : Action) (s : SelectedActionState) : Prop :=
  severity a <= severity s.(sel_action) \/
  (b.(_defer_failsafes) = true /\ s.(sel_action) = Action_None /\
   forall x, x ∈ table b -> valid x = true -> x.(action) <> Action_None -> x.(can_be_deferred) = true) \/
  (severity a < severity Disarm /\
   ((0 < b.(actives).(_current_delay) /\ severity Hold <= severity s.(sel_action) /\ severity a <= severity s.(sel_delayed_action)) \/
    (s.(user_takeover) = true /\
     forall x, x ∈ table b -> valid x = true -> x.(action) <> Action_None -> x.(allow_user_takeover) <> Takeover_Never) \/
    (s.(sel_action) = Action_Warn /\ exempt fl s.(updated_user_intended_mode)))).

(** [getSelectedAction] before the last blocks, without deferral, as a definition. *)
Definition select_possible (fallback : Z -> Action) (b : FailsafeBase) (state : State) (fl : failsafe_flags)
    (updated rc : bool) : SelectedActionState * bool :=
  let mode := state.(user_intended_mode) in
  let s := select_worst (table b) in
  let takeover_active := b.(actives).(_user_takeover_active) in
  let delayed :=
    (0 <? b.(actives).(_current_delay)) && negb takeover_active
    && (strictness s.(s_allow_user_takeover) <=? strictness AlwaysModeSwitchOnly) && action_can_be_delayed s.(s_selected_action) in
  let allow := if delayed then AlwaysModeSwitchOnly else s.(s_allow_user_takeover) in
  let want_switch := updated && (b.(_selected_action) >a Action_Warn) in
  let allowed :=
    (bool_decide (allow = Always) && (takeover_active || (want_switch || rc)))
    || (bool_decide (allow = AlwaysModeSwitchOnly) && (takeover_active || want_switch)) in
  let takeover := actionAllowsUserTakeover (if delayed then Hold else s.(s_selected_action)) && allowed in
  let mode := if takeover && negb takeover_active && rc then NAVIGATION_STATE_POSCTL else mode in
  let a :=
    if takeover then if fallback mode >a Action_Warn then fallback mode else Action_Warn
    else if delayed then Hold else s.(s_selected_action) in
  (mkSelected (possible_action fl a s.(s_cause)).1
     (if takeover then Action_None else if delayed then s.(s_selected_action) else Action_None)
     (possible_action fl a s.(s_cause)).2 mode takeover false, takeover && negb takeover_active).

Lemma getSelectedAction_unfold fallback b state fl updated rc :
  getSelectedAction fallback b state fl updated rc =
  if (state.(user_intended_mode) =? NAVIGATION_STATE_TERMINATION) || (b.(_selected_action) ==a Terminate) then
    (mkSelected Terminate Action_None Generic state.(user_intended_mode) false false, false)
  else if negb state.(armed) then
    (mkSelected Action_None Action_None Generic state.(user_intended_mode) false false, false)
  else
    let s := select_worst (table b) in
    if b.(_defer_failsafes) && s.(s_allow_deferral) && negb (s.(s_selected_action) ==a Action_None) then
      (mkSelected Action_None Action_None s.(s_cause) state.(user_intended_mode) false (s.(s_selected_action) >a Action_Warn), false)
    else
      let '(r, ev) := select_possible fallback b state fl updated rc in (already_in_all fl r, ev).
Proof.
  unfold getSelectedAction, select_possible. cbn zeta. repeat (case_if; [reflexivity|]). cbn [modeFromAction].
  match goal with |- (let '(_, _) := possible_action fl ?a ?c in _) = _ => destruct (possible_action fl a c) as [pa pc] end. reflexivity.
Qed.

Lemma delayable_severity a : action_can_be_delayed a = true -> severity a < severity Disarm.
Proof. by destruct a. Qed.

Lemma takeover_severity a : actionAllowsUserTakeover a = true -> severity a < severity Disarm.
Proof. by destruct a. Qed.

Lemma strict_not_never l s x : selection_ok l s -> strictness s.(s_allow_user_takeover) <= strictness AlwaysModeSwitchOnly ->
  x ∈ l -> valid x = true -> x.(action) <> Action_None -> x.(allow_user_takeover) <> Takeover_Never.
Proof. intros Hs Hle Hx Vx Nx E. pose proof (so_strict _ _ Hs x Hx Vx Nx) as Hst. rewrite E in Hst. cbn in *. lia. Qed.

Lemma select_possible_answered fallback b state fl updated rc a :
  let r := (select_possible fallback b state fl updated rc).1 in
  active (table b) a ->
  answered fl b a r /\
  ((r.(sel_action) = RTL \/ r.(sel_action) = Land \/ r.(sel_delayed_action) = RTL \/ r.(sel_delayed_action) = Land) ->
   severity a < severity Disarm).
Proof.
  cbn zeta. intros Ha. pose proof (select_worst_ok (table b)) as Hs. pose proof (so_worst _ _ Hs a Ha) as Hw.
  unfold select_possible, answered. set (s := select_worst (table b)) in *. cbn zeta.
  match goal with |- context [if ?d then Hold else s_selected_action s] => destruct d eqn:Hd end.
  all: match goal with |- context [if ?t && negb _ && _ then _ else _] => destruct t eqn:Ht end; cbn [andb].
  all: cbn [fst sel_action sel_delayed_action user_takeover].
  - bool_hyps. match goal with H : action_can_be_delayed _ = true |- _ => apply delayable_severity in H end. split; [|lia].
    right. right. split; [lia|]. right. left. split; [done|]. intros x. apply strict_not_never with (s := s); [done|]. cbn in *. lia.
  - bool_hyps. match goal with H : action_can_be_delayed _ = true |- _ => apply delayable_severity in H end. split; [|lia].
    right. right. split; [lia|]. left. split; [lia|]. split; [|done].
    apply (possible_action_ok fl Hold (s_cause s) 0).
  - apply andb_prop in Ht as [Hu%takeover_severity Hal]. split; [|lia]. right. right. split; [lia|]. right. left. split; [done|].
    intros x. apply strict_not_never with (s := s); [done|].
    apply orb_true_iff in Hal as [[E%bool_decide_eq_true _]%andb_prop|[E%bool_decide_eq_true _]%andb_prop]; rewrite E; cbn; lia.
  - destruct (possible_action_ok fl (s_selected_action s) (s_cause s) 0) as [Hp _]. split; [left; lia|].
    intros [E|[E|[E|E]]]; try done; rewrite E in Hp; cbn in *; lia.
Qed.

Lemma getSelectedAction_answered fallback b state fl updated rc a :
  let r := (getSelectedAction fallback b state fl updated rc).1 in
  state.(armed) = true -> active (table b) a -> answered fl b a r.
Proof.
  cbn zeta. intros Harm Ha. rewrite getSelectedAction_unfold, Harm. cbn [negb]. case_if.
  { left. apply severity_le_Terminate. }
  pose proof (select_worst_ok (table b)) as Hs. cbn zeta. case_if.
  { right. left. split; [done|]. split; [done|]. intros x. by apply (so_defer _ _ Hs). }
  destruct (select_possible_answered fallback b state fl updated rc a Ha) as [Han Hlt].
  destruct (select_possible fallback b state fl updated rc) as [r ev]. cbn [fst] in *.
  destruct (already_in_all_cases fl r) as [->|(Hex & Hact & ->)]; [done|].
  right. right. split; [by apply Hlt|]. right. right. by split.
Qed.

(** The mode in which the vehicle flies after the selection can run. *)
Definition can_fly (fl : failsafe_flags) (a : Action) (mode : Z) : Prop :=
  a = Disarm \/ a = Terminate \/ modeCanRun fl (modeFromAction a mode) = true.

Lemma modeFromAction_low a m : severity a <= severity Action_Warn -> modeFromAction a m = m.
Proof. destruct a; cbn; try lia; done. Qed.

Lemma select_possible_can_fly fallback b state fl updated rc :
  let r := (select_possible fallback b state fl updated rc).1 in
  (forall m, severity (fallback m) <= severity Action_Warn -> modeCanRun fl m = true) ->
  severity (fallback state.(user_intended_mode)) <= severity (select_worst (table b)).(s_selected_action) ->
  can_fly fl r.(sel_action) r.(updated_user_intended_mode).
Proof.
  cbn zeta. intros Hf Hw.
  unfold select_possible. set (s := select_worst (table b)) in *. cbn zeta.
  match goal with |- context [if ?t && negb _ && _ then _ else _] => destruct t eqn:Ht end; cbn [andb fst sel_action updated_user_intended_mode].
  - match goal with |- can_fly fl (possible_action fl ?a ?c).1 ?m => destruct (possible_action_ok fl a c m) as (Hle & _ & Hrun & _) end.
    destruct Hrun as [?|[?|[Hlow|?]]]; [by left|by right; left| |by right; right].
    right. right. rewrite modeFromAction_low by done. apply Hf.
    revert Hle. match goal with |- context [fallback ?m >a Action_Warn] => destruct (fallback m >a Action_Warn) eqn:E end; bool_hyps; lia.
  - match goal with |- can_fly fl (possible_action fl ?a ?c).1 ?m => destruct (possible_action_ok fl a c m) as (Hle & _ & Hrun & _) end.
    destruct Hrun as [?|[?|[Hlow|?]]]; [by left|by right; left| |by right; right].
    right. right. rewrite modeFromAction_low by done. apply Hf. revert Hle. case_if; [cbn in *; lia|]. lia.
Qed.

Lemma getSelectedAction_can_fly fallback b state fl updated rc :
  let r := (getSelectedAction fallback b state fl updated rc).1 in
  state.(armed) = true ->
  (forall m, severity (fallback m) <= severity Action_Warn -> modeCanRun fl m = true) ->
  (fallback state.(user_intended_mode) <> Action_None ->
   exists x, x ∈ table b /\ valid x = true /\ severity (fallback state.(user_intended_mode)) <= severity x.(action) /\ x.(can_be_deferred) = false) ->
  can_fly fl r.(sel_action) r.(updated_user_intended_mode).
Proof.
  cbn zeta. intros Harm Hf Hslot. rewrite getSelectedAction_unfold, Harm. cbn [negb]. case_if; [by right; left|]. cbn zeta.
  set (f := fallback (user_intended_mode state)) in *. pose proof (select_worst_ok (table b)) as Hs.
  assert (severity f <= severity (s_selected_action (select_worst (table b)))) as Hw.
  { destruct (decide (f = Action_None)) as [E0|Hne]; [rewrite E0; apply severity_nonneg|].
    destruct (Hslot Hne) as (x & Hx & Vx & Sx & Dx). apply (so_worst _ _ Hs). by exists x. }
  case_if.
  { right. right. apply Hf. cbn [fst sel_action updated_user_intended_mode modeFromAction]. fold f. destruct (decide (f = Action_None)) as [E0|Hne]; [rewrite E0; cbn; lia|].
    destruct (Hslot Hne) as (x & Hx & Vx & Sx & Dx). exfalso. assert (can_be_deferred x = true); [|congruence].
    apply (so_defer _ _ Hs); try done. intros E. rewrite E in Sx. apply Hne, severity_inj. pose proof (severity_nonneg f). cbn in *. lia. }
  pose proof (select_possible_can_fly fallback b state fl updated rc Hf Hw) as Hsp.
  destruct (select_possible fallback b state fl updated rc) as [r ev]. cbn [fst] in *.
  destruct (already_in_all_cases fl r) as [->|(Hex & _ & ->)]; [done|]. right. right. apply Hex.
Qed.

(** ** The update *)

(** What the framework relies on: a derived class makes a list of checks with distinct callers,
    the last one for the mode fallback, and modifies the mode only when a failsafe engages. *)
Class FailsafeLaws (D : Type) `{FailsafeMethods D} := {
  checks : Z -> State -> failsafe_flags -> FailsafeBase * D -> list check;
  fallback_id : Z;
  law_checks t st fl b d : (checkStateAndMode t st fl (b, d)).1 = run_checks b (checks t st fl (b, d));
  law_ids t st fl b d : NoDup (map chk_id (checks t st fl (b, d)));
  law_pos t st fl b d : Forall (fun c => 0 <= c.(chk_id)) (checks t st fl (b, d));
  law_fallback t st fl b d : exists cs last,
    let f := checkModeFallback (checkStateAndMode t st fl (b, d)).2 fl st.(user_intended_mode) in
    checks t st fl (b, d) = cs ++ [mkCheck fallback_id last (negb (f ==a Action_None))
      (cannotBeDeferred (allowUserTakeover Always (ActionOptions_new f)))];
  law_modify d prev cur m : severity cur <= severity Action_Warn -> modifyUserIntendedMode d prev cur m = m;
}.

(** The slots of the callers [P] cannot be deferred. *)
Definition never_deferred (P : Z -> Prop) (l : list ActionOptions) : Prop :=
  forall i x, l !! i = Some x -> valid x = true -> P x.(id) -> x.(can_be_deferred) = false.

Lemma never_deferred_map P f l : never_deferred P l ->
  (forall a, valid (f a) = true -> valid a = true /\ (f a).(id) = a.(id) /\ (f a).(can_be_deferred) = a.(can_be_deferred)) ->
  never_deferred P (map f l).
Proof.
  intros Hn Hf i x Hx Vx HP. apply list_lookup_fmap_Some in Hx as (y & -> & Hy). destruct (Hf y Vx) as (? & E & ->).
  apply (Hn i y); [done|done|by rewrite <- E].
Qed.

Lemma run_check_never_deferred P b c : never_deferred P (table b) -> (P c.(chk_id) -> c.(chk_options).(can_be_deferred) = false) ->
  never_deferred P (table (run_check b c)).
Proof.
  intros Hn Hc. destruct (run_check_result b c) as (a' & -> & Hr); cbn [actives with_actives].
  destruct Hr as [| |j slot _ Hs Vs Es|j old _ Hno Ho Hold|]; try done.
  - apply never_deferred_map; [done|]. intros x. case_if; [|done]. intros V. by destruct (removeAction_ok _ x V) as (? & ? & _ & _ & ?).
  - intros i x. cbn. rewrite list_lookup_insert. case_decide; [|by apply Hn]. intros [= <-]. cbn. intros _. by apply (Hn j).
  - destruct (add_action_ok b b.(actives) j c) as (slot & Hsl & E & _). cbn zeta in E. rewrite E. intros i x. rewrite list_lookup_insert.
    case_decide; [|by apply Hn]. intros [= <-] _ HP. rewrite (ns_id _ _ Hsl) in HP. rewrite (ns_defer _ _ Hsl). by apply Hc.
Qed.

Lemma run_checks_never_deferred P cs : forall b, never_deferred P (table b) ->
  (forall c, c ∈ cs -> P c.(chk_id) -> c.(chk_options).(can_be_deferred) = false) -> never_deferred P (table (run_checks b cs)).
Proof.
  induction cs as [|c cs IH]; intros b Hn Hc; [done|]. apply IH.
  - apply run_check_never_deferred; [done|]. apply Hc. left.
  - intros c' Hc'. apply Hc. by right.
Qed.

(** The state between two updates. *)
Record base_ok (b : FailsafeBase) : Prop := {
  bk_wf : table_wf (table b);
  bk_idle : not_activated (table b);
  bk_dup : b.(actives).(_duplicate_reported_once) = false;
  bk_pending : b.(actives).(_pending_notification_cause) = Cause_Count;
  bk_delay : 0 <= b.(actives).(_current_delay);
  bk_start : 0 <= b.(_current_start_delay);
  bk_last : 0 <= b.(_last_update) < 2 ^ 64;
}.

Lemma seconds_us_nonneg t : 0 <= seconds_us t.
Proof.
  unfold seconds_us. case_if; [|lia]. apply Z.div_pos; [|lia]. apply decode_nonneg; [lia|]. apply encode_nonneg; [lia..|].
  assert (0 <= f_decode 23 (f32_mag t)); [|lia]. apply decode_nonneg; [lia|]. apply f32_split.
Qed.

Lemma FailsafeBase_new_ok t : base_ok (FailsafeBase_new t).
Proof.
  split; try done; [|repeat constructor|apply seconds_us_nonneg].
  split; [done| |]; intros i; intros.
  - repeat match goal with H : _ !! _ = Some _ |- _ => apply lookup_replicate_1 in H as [-> _] end. done.
  - match goal with H : _ !! _ = Some _ |- _ => apply lookup_replicate_1 in H as [-> _] end. done.
Qed.

Lemma updateDelay_range e d : 0 <= e -> 0 <= d -> 0 <= updateDelay e d <= d.
Proof. intros. unfold updateDelay. case_if; lia. Qed.

(** What the beginning of an update keeps. *)
Lemma update_begin_ok b t st u : base_ok b -> 0 <= t < 2 ^ 64 -> base_ok (update_begin b t st u).2 /\
  (forall P, never_deferred P (table b) -> never_deferred P (table (update_begin b t st u).2)).
Proof.
  intros [Hw Hi Hd Hp Hdl Hs Hl] Ht. unfold update_begin. cbn zeta. cbn [snd].
  match goal with |- context [if _ || _user_takeover_active ?x then _ else _] => set (a := x) end.
  assert (table_wf (_actions a) /\ not_activated (_actions a) /\ _duplicate_reported_once a = false /\ _pending_notification_cause a = Cause_Count /\
    0 <= _current_delay a /\ (forall P, never_deferred P (table b) -> never_deferred P (_actions a))) as (Hw1 & Hi1 & Hd1 & Hp1 & Hdl1 & Hn1).
  { unfold a. case_if; cbn; [|done]. split; [by do 2 apply removeActions_wf|]. split; [by do 2 apply removeActions_not_activated|].
    do 3 (split; [done|]). intros P HP. do 2 (apply never_deferred_map; [|intros x; by case_if]). done. }
  clearbody a. match goal with |- context [if _ || _user_takeover_active a then ?x else a] => set (a2 := if _ || _ then x else a) end.
  assert (table_wf (_actions a2) /\ not_activated (_actions a2) /\ _duplicate_reported_once a2 = false /\ _pending_notification_cause a2 = Cause_Count /\
    0 <= _current_delay a2 /\ (forall P, never_deferred P (table b) -> never_deferred P (_actions a2))) as (Hw2 & Hi2 & Hd2 & Hp2 & Hdl2 & Hn2).
  { unfold a2. case_if; cbn; [|done]. split; [by apply removeActions_wf|]. split; [by apply removeActions_not_activated|].
    do 3 (split; [done|]). intros P HP. apply never_deferred_map; [by apply Hn1|intros x; by case_if]. }
  clearbody a2. split.
  - split; try done; cbn; case_if; cbn; try done; try lia.
    apply updateDelay_range; [|done]. apply uwrap_range. lia.
  - intros P HP. cbn. case_if; by apply Hn2.
Qed.

Section laws.
Context {D : Type} `{FailsafeLaws D}.

(** The state on which the action is selected, and whether the user's mode was updated. *)
Definition update_checked (bd : FailsafeBase * D) (t : Z) (st : State) (u : bool) (fl : failsafe_flags) : bool * (FailsafeBase * D) :=
  let '(u, b) := update_begin bd.1 t st u in
  let '(b, d) := checkStateAndMode t st fl (b, bd.2) in
  (u, (update_table b fl, d)).

(** The checks that an update makes, on the state after [update_begin]. *)
Definition update_checks (bd : FailsafeBase * D) (t : Z) (st : State) (u : bool) (fl : failsafe_flags) : list check :=
  checks t st fl ((update_begin bd.1 t st u).2, bd.2).

(** Whether one of them is dropped because the table is full. *)
Definition update_overflows (bd : FailsafeBase * D) (t : Z) (st : State) (u : bool) (fl : failsafe_flags) : bool :=
  overflow (update_begin bd.1 t st u).2 (update_checks bd t st u fl).

(** Whether one of them finds no free slot. *)
Definition update_crowded (bd : FailsafeBase * D) (t : Z) (st : State) (u : bool) (fl : failsafe_flags) : bool :=
  crowds (update_begin bd.1 t st u).2 (update_checks bd t st u fl).

(** The selected action of an update. *)
Definition update_selection (bd : FailsafeBase * D) (t : Z) (st : State) (u rc : bool) (fl : failsafe_flags) : SelectedActionState :=
  let '(u, (b, d)) := update_checked bd t st u fl in
  (getSelectedAction (checkModeFallback d fl) b st fl u rc).1.

Lemma update_unfold bd t st u rc fl :
  let s := update_selection bd t st u rc fl in
  let '(_, (b, d)) := update_checked bd t st u fl in
  exists notes, update bd t st u rc fl = ((update_finish b d t st fl s).1.1, notes, ((update_finish b d t st fl s).2, d)).
Proof.
  destruct bd as [b d]. unfold update, update_selection, update_checked. cbn [fst snd].
  destruct (update_begin b t st u) as [u' b1]. destruct (checkStateAndMode t st fl (b1, d)) as [b2 d2].
  destruct (getSelectedAction _ _ _ _ _ _) as [s ev]. cbn [fst]. unfold update_finish. cbn [fst snd]. by eexists.
Qed.

Lemma update_checked_selected bd t st u fl : (update_checked bd t st u fl).2.1.(_selected_action) = bd.1.(_selected_action).
Proof.
  unfold update_checked. destruct (update_begin bd.1 t st u) as [u' b1] eqn:Eb.
  assert (_selected_action b1 = _selected_action bd.1) as E1 by (unfold update_begin in Eb; cbn zeta in Eb; by injection Eb as _ <-).
  pose proof (law_checks t st fl b1 bd.2) as Hl. destruct (checkStateAndMode t st fl (b1, bd.2)) as [b2 d2]. cbn [fst snd] in *.
  assert (_selected_action b2 = _selected_action b1) as E2 by (rewrite Hl, (cd_frame _ _ (run_checks_checked _ _)); done).
  unfold update_table, clearDelayIfNeeded. case_if; cbn; congruence.
Qed.

Lemma clearDelay_table b fl : table (clearDelayIfNeeded b fl) = table b.
Proof. unfold clearDelayIfNeeded. by case_if. Qed.

Lemma not_activated_checking b : base_ok b -> checking [] b.
Proof.
  intros Hb. split; [apply Hb| |apply Hb]. intros i x Hx _ Ax. pose proof (Forall_lookup_1 _ _ _ _ (bk_idle _ Hb) Hx). congruence.
Qed.

Lemma checks_ok bd t st u fl : base_ok bd.1 -> 0 <= t < 2 ^ 64 ->
  let b1 := (update_begin bd.1 t st u).2 in
  let b2 := (checkStateAndMode t st fl (b1, bd.2)).1 in
  exists seen, checking seen b2 /\ checked b1 b2 /\
    (update_overflows bd t st u fl = false ->
     forall c, c ∈ update_checks bd t st u fl -> c.(chk_cur) = true -> covered seen (table b2) c.(chk_options).(action)).
Proof.
  intros Hb Ht b1 b2. destruct (update_begin_ok bd.1 t st u Hb Ht) as [Hb1 _]. fold b1 in Hb1. unfold b2. rewrite law_checks.
  destruct (run_checks_ok (checks t st fl (b1, bd.2)) [] b1 (not_activated_checking _ Hb1)) as (seen & Hck & Hcd & _ & Hcov).
  { rewrite app_nil_r. apply law_ids. }
  { apply law_pos. }
  exists seen. done.
Qed.

(** The selected state after an update, in terms of the selection. *)
Lemma update_state bd t st u rc fl :
  let s := update_selection bd t st u rc fl in
  let '(mode, _, (b', d')) := update bd t st u rc fl in
  let '(_, (b, d)) := update_checked bd t st u fl in
  d' = d /\ b'.(_selected_action) = s.(sel_action) /\ b'.(actives).(_user_takeover_active) = s.(user_takeover) /\
  mode = modifyUserIntendedMode d b.(_selected_action) s.(sel_action) s.(updated_user_intended_mode) /\
  table b' = table b /\ b'.(actives).(_current_delay) = b.(actives).(_current_delay) /\ b'.(_defer_failsafes) = b.(_defer_failsafes).
Proof.
  pose proof (update_unfold bd t st u rc fl) as Hu. cbn zeta in *. destruct (update_checked bd t st u fl) as [u' [b d]].
  destruct Hu as [notes ->]. done.
Qed.

(** Every failing check is answered. *)
Lemma update_answered bd t st u rc fl c :
  base_ok bd.1 -> 0 <= t < 2 ^ 64 -> st.(armed) = true -> update_overflows bd t st u fl = false ->
  c ∈ update_checks bd t st u fl -> c.(chk_cur) = true ->
  answered fl (update_checked bd t st u fl).2.1 c.(chk_options).(action) (update_selection bd t st u rc fl).
Proof.
  intros Hb Ht Harm Hof Hc Hcur. destruct (checks_ok bd t st u fl Hb Ht) as (seen & Hck & _ & Hcov). specialize (Hcov Hof c Hc Hcur).
  unfold update_selection, update_checked. destruct (update_begin bd.1 t st u) as [u' b1]. cbn [snd] in *.
  destruct (checkStateAndMode t st fl (b1, bd.2)) as [b2 d2]. cbn [fst snd] in *.
  apply getSelectedAction_answered; [done|]. unfold update_table. rewrite clearDelay_table. cbn. by eapply covered_active.
Qed.

Lemma overflow_snoc cs c : forall b, overflow b (cs ++ [c]) = false -> dropped (run_checks b cs) c = false.
Proof.
  induction cs as [|c' cs IH]; intros b; cbn [overflow app]; [by intros [? _]%orb_false_elim|].
  intros [_ Ho]%orb_false_elim. by apply IH.
Qed.

(** The mode fallback has its slot. *)
Lemma update_fallback_slot bd t st u fl :
  base_ok bd.1 -> never_deferred (fun i => i = fallback_id) (table bd.1) -> 0 <= t < 2 ^ 64 -> update_overflows bd t st u fl = false ->
  let '(_, (b, d)) := update_checked bd t st u fl in
  let f := checkModeFallback d fl st.(user_intended_mode) in
  f <> Action_None ->
  exists x, x ∈ table b /\ valid x = true /\ severity f <= severity x.(action) /\ x.(can_be_deferred) = false.
Proof.
  intros Hb Hnd Ht Hof. destruct (update_begin_ok bd.1 t st u Hb Ht) as [_ Hnd1]. specialize (Hnd1 _ Hnd).
  unfold update_overflows, update_checks, update_checked in *. destruct (update_begin bd.1 t st u) as [u' b1]. cbn [snd fst] in *.
  pose proof (law_fallback t st fl b1 bd.2) as (cs & last & E). pose proof (law_ids t st fl b1 bd.2) as Hids. pose proof (law_pos t st fl b1 bd.2) as Hpos.
  pose proof (law_checks t st fl b1 bd.2) as Hck. destruct (checkStateAndMode t st fl (b1, bd.2)) as [b2 d2]. cbn [fst snd] in *.
  intros Hf. cbn zeta in E. set (f := checkModeFallback d2 fl (user_intended_mode st)) in *. rewrite E in *.
  set (c := mkCheck fallback_id last _ _) in *. apply Forall_app in Hpos as [_ Hpos]. apply Forall_cons in Hpos as [Hpos _]. apply overflow_snoc in Hof.
  destruct (own_slot (run_checks b1 cs) c Hpos) as (i & x & Hx & Vx & Ax & Ix & Ex); [cbn; by rewrite bool_decide_false|done|].
  assert (never_deferred (fun i => i = fallback_id) (table b2)) as Hnd2.
  { rewrite Hck. apply run_checks_never_deferred; [done|]. intros c' [Hc'| ->%list_elem_of_singleton]%elem_of_app Hid; [|done].
    rewrite map_app in Hids. apply NoDup_app in Hids as (_ & Hdis & _). exfalso. apply (Hdis (chk_id c')).
    - by apply list_elem_of_fmap_2.
    - rewrite Hid. left. }
  assert (table b2 !! i = Some x) as Hx2 by (rewrite Hck; unfold run_checks in *; by rewrite foldl_app).
  exists (set_activated false x). split; [|split; [done|]; split; [cbn; rewrite Ex; cbn; lia|exact (Hnd2 i x Hx2 Vx Ix)]].
  unfold update_table. rewrite clearDelay_table. cbn. apply list_elem_of_fmap. exists x. split; [by rewrite Vx, Ax|]. by eapply list_elem_of_lookup_2.
Qed.

(** Without crowding the selection is made with a slot for every failing check. *)
Lemma update_slot bd t st u fl c : update_crowded bd t st u fl = false -> c ∈ update_checks bd t st u fl -> c.(chk_cur) = true ->
  exists x, x ∈ table (update_checked bd t st u fl).2.1 /\ valid x = true /\ x.(id) = c.(chk_id) /\ x.(action) = c.(chk_options).(action).
Proof.
  unfold update_crowded, update_checks, update_checked. destruct (update_begin bd.1 t st u) as [u' b1]. cbn [fst snd]. intros Hcr Hc Hcur.
  destruct (own_slot_all _ b1 c (law_ids t st fl b1 bd.2) (law_pos t st fl b1 bd.2) Hcr Hc Hcur) as (i & x & Hx & Vx & Ax & Ix & Ex).
  rewrite <- law_checks in Hx. destruct (checkStateAndMode t st fl (b1, bd.2)) as [b2 d2]. cbn [fst snd] in *.
  exists (set_activated false x). split; [|done]. unfold update_table. rewrite clearDelay_table. cbn. apply list_elem_of_fmap. exists x.
  split; [by rewrite Vx, Ax|]. by eapply list_elem_of_lookup_2.
Qed.

(** The mode in which the vehicle flies can run, if the mode fallback of the derived class is
    complete and its slot cannot be deferred. *)
Lemma update_can_fly bd t st u rc fl :
  base_ok bd.1 -> never_deferred (fun i => i = fallback_id) (table bd.1) -> 0 <= t < 2 ^ 64 -> st.(armed) = true ->
  update_overflows bd t st u fl = false ->
  (forall m, severity (checkModeFallback (update_checked bd t st u fl).2.2 fl m) <= severity Action_Warn -> modeCanRun fl m = true) ->
  let '(mode, _, (b', _)) := update bd t st u rc fl in can_fly fl b'.(_selected_action) mode.
Proof.
  intros Hb Hnd Ht Harm Hof Hf. pose proof (update_fallback_slot bd t st u fl Hb Hnd Ht Hof) as Hslot.
  pose proof (update_state bd t st u rc fl) as Hs. cbn zeta in Hs.
  destruct (update bd t st u rc fl) as [[mode notes] [b' d']]. unfold update_selection in Hs.
  destruct (update_checked bd t st u fl) as [u' [b d]]. cbn [fst snd] in *.
  pose proof (getSelectedAction_can_fly (checkModeFallback d fl) b st fl u' rc Harm Hf Hslot) as Hfly. cbn zeta in Hfly.
  set (s := (getSelectedAction _ _ _ _ _ _).1) in *. destruct Hs as (_ & -> & _ & -> & _).
  destruct (decide (severity (sel_action s) <= severity Action_Warn)) as [Hlow|Hhigh]; [by rewrite law_modify|].
  revert Hfly Hhigh. unfold can_fly. destruct (sel_action s); cbn; naive_solver lia.
Qed.

(** *** Invariants of an update *)

Lemma update_table_ok b fl : b = with_actives b b.(actives) ->
  let b' := update_table b fl in
  b' = with_actives b b'.(actives) /\ table b' = removeNonActivatedActions b.(_defer_failsafes) (table b) /\
  b'.(actives).(_duplicate_reported_once) = b.(actives).(_duplicate_reported_once) /\
  (b'.(actives).(_current_delay) = b.(actives).(_current_delay) \/ b'.(actives).(_current_delay) = 0).
Proof.
  intros _. unfold update_table, clearDelayIfNeeded. cbn zeta. case_if; cbn; (split; [done|]); (split; [done|]); (split; [done|]); auto.
Qed.

(** The state on which the action is selected. *)
Lemma update_checked_ok bd t st u fl : base_ok bd.1 -> 0 <= t < 2 ^ 64 ->
  let b0 := (update_begin bd.1 t st u).2 in
  let b := (update_checked bd t st u fl).2.1 in
  b = with_actives b0 b.(actives) /\ table_wf (table b) /\ not_activated (table b) /\ b.(actives).(_duplicate_reported_once) = false /\
  (b.(actives).(_current_delay) = b0.(actives).(_current_delay) \/
   (b0.(actives).(_current_delay) = 0 /\ b.(actives).(_current_delay) = b0.(_current_start_delay)) \/ b.(actives).(_current_delay) = 0) /\
  (forall P, never_deferred P (table bd.1) ->
    (forall c, c ∈ update_checks bd t st u fl -> P c.(chk_id) -> c.(chk_options).(can_be_deferred) = false) -> never_deferred P (table b)).
Proof.
  intros Hb Ht. destruct (checks_ok bd t st u fl Hb Ht) as (seen & Hck & Hcd & _).
  destruct (update_begin_ok bd.1 t st u Hb Ht) as [Hb1 Hnd]. unfold update_checked, update_checks in *.
  destruct (update_begin bd.1 t st u) as [u' b1]. cbn [snd fst] in *.
  pose proof (law_checks t st fl b1 bd.2) as Hlc. destruct (checkStateAndMode t st fl (b1, bd.2)) as [b2 d2]. cbn [fst snd] in *.
  destruct Hck as [Hw _ Hdup]. destruct Hcd as [Hfr Hdl _].
  destruct (update_table_ok b2 fl) as (Hf & Htab & Hd & Hdelay); [by destruct b2|]. split; [rewrite Hf, Hfr; done|].
  rewrite Htab, Hd. split; [by apply removeNonActivated_wf|]. split; [apply removeNonActivated_not_activated|]. split; [done|].
  split; [destruct Hdelay as [->|?], Hdl as [?|?]; auto|]. intros P HP Hc. apply never_deferred_map.
  - rewrite Hlc. apply run_checks_never_deferred; [by apply Hnd|done].
  - intros x. case_if; [|done]. intros V. by destruct (removeAction_ok _ x V) as (? & ? & _ & _ & ?).
Qed.

Lemma updateStartDelay_range dt a p s : 0 <= dt -> 0 <= s -> 0 <= updateStartDelay dt a p s.
Proof.
  intros. unfold updateStartDelay. pose proof (seconds_us_nonneg p). cbn zeta. pose proof (uwrap_range 64 (s + dt / 4) ltac:(lia)). repeat case_if; lia.
Qed.

Lemma update_ok bd t st u rc fl : base_ok bd.1 -> 0 <= t < 2 ^ 64 -> base_ok (update bd t st u rc fl).2.1.
Proof.
  intros Hb Ht. destruct (update_checked_ok bd t st u fl Hb Ht) as (Hf & Hw & Hn & Hdup & Hdl & _).
  destruct (update_begin_ok bd.1 t st u Hb Ht) as [Hb1 _]. pose proof (update_unfold bd t st u rc fl) as Hu. cbn zeta in *.
  destruct (update_checked bd t st u fl) as [u' [b d]]. cbn [fst snd] in *. destruct Hu as [notes ->]. cbn [fst snd]. set (b0 := (update_begin bd.1 t st u).2) in *.
  assert (0 <= _current_start_delay b) as Hs by (rewrite Hf; apply Hb1).
  split; cbn; try done.
  - pose proof (bk_delay _ Hb1). pose proof (bk_start _ Hb1). destruct Hdl as [?|[[? ?]|?]]; lia.
  - apply updateStartDelay_range; [apply uwrap_range; lia|done].
Qed.

Lemma deferFailsafes_ok b e t : base_ok b -> base_ok (deferFailsafes b e t).2 /\ table (deferFailsafes b e t).2 = table b.
Proof. intros []. unfold deferFailsafes. case_if; [by split|]. cbn zeta. split; [split; cbn; case_if; cbn; done|]. cbn. by case_if. Qed.

Lemma updateParams_ok b p : base_ok b -> base_ok (updateParams b p).
Proof. intros []. split; cbn; try done. apply seconds_us_nonneg. Qed.

(** *** Delays *)

Lemma selection_delayed fallback b st fl u rc :
  let s := (getSelectedAction fallback b st fl u rc).1 in
  s.(sel_delayed_action) <> Action_None -> 0 < b.(actives).(_current_delay) /\ s.(failsafe_deferred) = false.
Proof.
  cbn zeta. rewrite getSelectedAction_unfold. case_if; [done|]. case_if; [done|]. cbn zeta. case_if; [done|].
  destruct (select_possible fallback b st fl u rc) as [r ev] eqn:E. unfold select_possible in E. cbn zeta in E. injection E as <- _.
  match goal with |- context [already_in_all fl ?r] => destruct (already_in_all_cases fl r) as [->|(_ & _ & ->)] end; [|done].
  cbn [fst sel_delayed_action failsafe_deferred]. case_if; [done|]. case_if; [|done]. intros _. split; [lia|done].
Qed.

(** The configured delay bounds both counters. *)
Definition delays_ok (b : FailsafeBase) : Prop :=
  b.(actives).(_current_delay) <= seconds_us b.(_param_com_fail_act_t) /\ b.(_current_start_delay) <= seconds_us b.(_param_com_fail_act_t).

(** A number of updates, at most [step] apart, all of which delay an action, with calls of
    [deferFailsafes] between them; [span] is the time from the first state to the last one. *)
Inductive delayed_run (step : Z) (bd : FailsafeBase * D) : Z -> FailsafeBase * D -> Prop :=
  | delayed_start : delayed_run step bd 0 bd
  | delayed_defer span b d enabled timeout :
      delayed_run step bd span (b, d) -> delayed_run step bd span ((deferFailsafes b enabled timeout).2, d)
  | delayed_update span b d t st u rc fl :
      delayed_run step bd span (b, d) -> b.(_last_update) < t <= b.(_last_update) + step -> t < 2 ^ 64 ->
      (update_selection (b, d) t st u rc fl).(sel_delayed_action) <> Action_None ->
      delayed_run step bd (span + (t - b.(_last_update))) (update (b, d) t st u rc fl).2.

(** What holds after a delayed run of length [span], with the delay [T]. *)
Record delayed_inv (T step span : Z) (b : FailsafeBase) : Prop := {
  di_base : base_ok b;
  di_last : 0 < b.(_last_update);
  di_defer : b.(_failsafe_defer_started) = 0;
  di_param : seconds_us b.(_param_com_fail_act_t) = T;
  di_current : b.(actives).(_current_delay) = 0 \/ b.(actives).(_current_delay) + span <= T + step;
  di_start : b.(_current_start_delay) = 0 \/ b.(_current_start_delay) + span <= T;
  di_span : span = 0 \/ span < T + step;
}.

Lemma delayed_inv_defer T step span b e t : delayed_inv T step span b -> delayed_inv T step span (deferFailsafes b e t).2.
Proof.
  intros [Hb Hl Hd Hp Hc Hs Hsp]. pose proof (proj1 (deferFailsafes_ok b e t Hb)) as Hb'. revert Hb'. unfold deferFailsafes.
  case_if; [done|]. cbn zeta. intros Hb'. split; cbn; try case_if; cbn; auto.
Qed.

Lemma update_begin_delay b t st u : 0 < b.(_last_update) < t -> t < 2 ^ 64 -> b.(_failsafe_defer_started) = 0 ->
  let b0 := (update_begin b t st u).2 in
  b0.(actives).(_current_delay) = updateDelay (t - b.(_last_update)) b.(actives).(_current_delay) /\
  b0.(_current_start_delay) = b.(_current_start_delay) /\ b0.(_param_com_fail_act_t) = b.(_param_com_fail_act_t) /\
  b0.(_last_update) = b.(_last_update) /\ b0.(_failsafe_defer_started) = 0.
Proof.
  intros Hl Ht Hd. unfold update_begin. cbn zeta. cbn [snd]. rewrite Hd. change (0 =? 0) with true. rewrite (proj2 (Z.eqb_neq (_last_update b) 0)) by lia.
  cbn iota. cbn [actives _current_start_delay _param_com_fail_act_t _last_update _failsafe_defer_started]. split; [|done].
  cbn [with_delay _current_delay]. rewrite uwrap_small by lia. f_equal. repeat (case_if; cbn [with_table with_takeover _current_delay]); done.
Qed.

Lemma delayed_inv_update T step span b d t st u rc fl : delayed_inv T step span b ->
  b.(_last_update) < t <= b.(_last_update) + step -> t < 2 ^ 64 ->
  (update_selection (b, d) t st u rc fl).(sel_delayed_action) <> Action_None -> 0 <= span ->
  delayed_inv T step (span + (t - b.(_last_update))) (update (b, d) t st u rc fl).2.1.
Proof.
  intros [Hb Hl Hd Hp Hc Hs Hsp] Ht Ht64 Hsel Hspan. pose proof (bk_start _ Hb) as Hs0. pose proof (bk_delay _ Hb) as Hc0.
  destruct (update_begin_delay b t st u ltac:(lia) Ht64 Hd) as (Ec & Es & Ep & El & Ed).
  destruct (update_checked_ok (b, d) t st u fl Hb ltac:(lia)) as (Hf & _ & _ & _ & Hdl & _).
  pose proof (update_ok (b, d) t st u rc fl Hb ltac:(lia)) as Hb'. pose proof (update_unfold (b, d) t st u rc fl) as Hu.
  cbn zeta in *. cbn [fst] in *. set (b0 := (update_begin b t st u).2) in *. unfold update_selection in *.
  destruct (update_checked (b, d) t st u fl) as [u' [b1 d1]]. cbn [fst snd] in *.
  destruct (selection_delayed (checkModeFallback d1 fl) b1 st fl u' rc Hsel) as [Hpos Hnd].
  set (s := (getSelectedAction _ _ _ _ _ _).1) in *. destruct Hu as [notes Hu]. rewrite Hu in *. cbn [fst snd] in *.
  assert (_current_start_delay b1 = _current_start_delay b /\ _param_com_fail_act_t b1 = _param_com_fail_act_t b /\ _last_update b1 = _last_update b)
    as (Es1 & Ep1 & El1) by (rewrite Hf; cbn; auto).
  assert (_current_delay (actives b1) + (span + (t - _last_update b)) <= T + step) as Hcur.
  { rewrite Ec, Es in Hdl. unfold updateDelay in Hdl. revert Hdl. case_if; intros [?|[[? ?]|?]]; lia. }
  split; cbn; try done; try lia.
  - by rewrite Hnd.
  - by rewrite Ep1.
  - rewrite Es1, El1, bool_decide_false by done. cbn [negb]. rewrite uwrap_small by lia. unfold updateStartDelay. case_if; lia.
Qed.

(** An uninterrupted delay is bounded, whatever is added in the meantime. *)
Lemma delayed_run_bounded step bd span bd' : 0 <= step -> base_ok bd.1 -> delays_ok bd.1 -> 0 < bd.1.(_last_update) ->
  bd.1.(_failsafe_defer_started) = 0 -> delayed_run step bd span bd' ->
  span = 0 \/ span < seconds_us bd.1.(_param_com_fail_act_t) + step.
Proof.
  intros Hstep Hb [Hc Hs] Hl Hd Hrun. set (T := seconds_us _).
  assert (0 <= span /\ delayed_inv T step span bd'.1) as [_ Hi]; [|apply Hi].
  induction Hrun as [|span b d e t _ [Hsp IH]|span b d t st u rc fl _ [Hsp IH] Ht Ht64 Hsel]; cbn [fst] in *.
  - split; [lia|]. split; try done; [right|right|left]; fold T in Hc, Hs |- *; lia.
  - split; [done|]. by apply delayed_inv_defer.
  - split; [lia|]. by apply delayed_inv_update.
Qed.

Lemma delays_ok_update bd t st u rc fl : base_ok bd.1 -> delays_ok bd.1 -> 0 <= t < 2 ^ 64 -> delays_ok (update bd t st u rc fl).2.1.
Proof.
  intros Hb [Hc Hs] Ht. destruct (update_checked_ok bd t st u fl Hb Ht) as (Hf & _ & _ & _ & Hdl & _).
  assert (let b0 := (update_begin bd.1 t st u).2 in 0 <= b0.(actives).(_current_delay) <= bd.1.(actives).(_current_delay) /\
    b0.(_current_start_delay) = bd.1.(_current_start_delay) /\ b0.(_param_com_fail_act_t) = bd.1.(_param_com_fail_act_t)) as (Hc0 & Es & Ep).
  { pose proof (bk_delay _ Hb). unfold update_begin. cbn. split; [|done]. repeat case_if; cbn; try lia; apply updateDelay_range; try done; apply uwrap_range; lia. }
  pose proof (update_unfold bd t st u rc fl) as Hu. cbn zeta in *. destruct (update_checked bd t st u fl) as [u' [b1 d1]]. cbn [fst snd] in *.
  destruct Hu as [notes ->]. cbn [fst snd]. pose proof (seconds_us_nonneg (_param_com_fail_act_t bd.1)).
  assert (_current_start_delay b1 = _current_start_delay bd.1 /\ _param_com_fail_act_t b1 = _param_com_fail_act_t bd.1) as (Es1 & Ep1)
    by (rewrite Hf; cbn; auto).
  split; cbn; rewrite Ep1.
  - destruct Hdl as [->|[[? ->]| ->]]; lia.
  - rewrite Es1. unfold updateStartDelay. pose proof (uwrap_range 64 (t - _last_update b1) ltac:(lia)). cbn zeta. repeat case_if; lia.
Qed.

(** *** Deferral *)

(** A failsafe that is still deferred after an update has been so for at most the timeout. *)
Lemma update_deferral_bounded bd t st u rc fl : base_ok bd.1 -> 0 <= t < 2 ^ 64 -> 0 <= bd.1.(_failsafe_defer_started) <= t ->
  0 < bd.1.(_defer_timeout) -> bd.1.(_failsafe_defer_started) + bd.1.(_defer_timeout) < 2 ^ 64 ->
  let b' := (update bd t st u rc fl).2.1 in
  failsafeDeferred b' = true -> t <= b'.(_failsafe_defer_started) + bd.1.(_defer_timeout).
Proof.
  intros Hb Ht Hd0 Hto Hov. pose proof (update_unfold bd t st u rc fl) as Hu.
  destruct (update_checked_ok bd t st u fl Hb Ht) as (Hf & _). cbn zeta in *. unfold update_selection in Hu.
  destruct (update_checked bd t st u fl) as [u' [b1 d1]]. cbn [fst snd] in *. destruct Hu as [notes ->]. cbn [fst snd].
  unfold failsafeDeferred. cbn. unfold updateFailsafeDeferState.
  destruct (failsafe_deferred _) eqn:Efd; [|intros X; discriminate X]. intros _.
  assert (_defer_failsafes b1 = true) as Hdf1.
  { revert Efd. rewrite getSelectedAction_unfold. case_if; [done|]. case_if; [done|]. cbn zeta. case_if; [done|].
    destruct (select_possible _ _ _ _ _ _) as [r ev] eqn:E. unfold select_possible in E. cbn zeta in E. injection E as <- _.
    match goal with |- context [already_in_all fl ?r] => destruct (already_in_all_cases fl r) as [->|(_ & _ & ->)] end; done. }
  assert (_failsafe_defer_started b1 = _failsafe_defer_started bd.1) as Es by (rewrite Hf; done).
  assert (_defer_failsafes b1 = _defer_failsafes (update_begin bd.1 t st u).2) as Edf by (rewrite Hf; done).
  rewrite Es. case_if; [lia|]. rewrite Edf in Hdf1. unfold update_begin in Hdf1. cbn in Hdf1. revert Hdf1.
  rewrite (proj2 (Z.eqb_neq _ 0)), (proj2 (Z.ltb_lt 0 _)), uwrap_small by lia. cbn [negb]. rewrite !andb_true_r.
  destruct (_ <? t) eqn:Elt; [|bool_hyps; lia]. destruct (_defer_failsafes bd.1); discriminate.
Qed.
End laws.
