(* ===== verification/Failsafe.v ===== *)
(** * The failsafes of the commander

    The class [Failsafe] of src/modules/commander/failsafe/failsafe.{h,cpp}, which derives from
    [FailsafeBase] (FailsafeFramework): which condition leads to which action. The offsets of the
    flags in the generated struct [failsafe_flags_s], which identify the callers of
    [checkFailsafe], are a parameter. *)
From stdpp Require Import base tactics list relations.
From Stdlib Require Import ZArith Lia.
From S2P Require Import Prelude.
From S2P Require Import Float32.
From S2P Require Import FailsafeFramework.

Definition WARNING_NONE : Z := 0.
Definition WARNING_LOW : Z := 1.
Definition WARNING_CRITICAL : Z := 2.
Definition WARNING_EMERGENCY : Z := 3.
Definition VEHICLE_TYPE_FIXED_WING : Z := 2.

(** ** Parameters and members *)

Record FailsafeParams := mkParams {
  _param_nav_dll_act : Z;
  _param_nav_rcl_act : Z;
  _param_com_rcl_except : Z;
  _param_com_dll_except : Z;
  _param_com_rc_in_mode : Z;
  _param_gf_action : Z;
  _param_com_spoolup_time : Z;
  _param_cbrk_flightterm : Z;
  _param_com_actuator_failure_act : Z;
  _param_com_low_bat_act : Z;
  _param_com_obl_rc_act : Z;
  _param_com_qc_act : Z;
  _param_com_wind_max_act : Z;
  _param_com_fltt_low_act : Z;
  _param_com_pos_low_act : Z;
  _param_com_arm_odid : Z;
  _param_com_parachute : Z;
  _param_com_traff_avoid : Z;
  _param_com_gnssloss_act : Z;
}.

Record Failsafe := mkFailsafe {
  _last_state_mode_fallback : bool;
  _last_state_mission_control_lost : bool;
  _last_state_battery_warning_low : bool;
  _last_state_battery_warning_critical : bool;
  _last_state_battery_warning_emergency : bool;
  _last_state_fd_esc_arming : bool;
  _last_state_battery_unhealthy_spoolup : bool;
  _armed_time : Z;
  _was_armed : bool;
  _manual_control_lost_at_arming : bool;
  _battery_warning_at_arming : Z;
  prm : FailsafeParams;
}.

Definition Failsafe_new (p : FailsafeParams) : Failsafe :=
  mkFailsafe false false false false false false false 0 false false 0 p.

(** ** Actions from parameters *)

Definition manualControlFallbackAction (a : Action) : bool :=
  (a ==a FallbackPosCtrl) || (a ==a FallbackAltCtrl) || (a ==a FallbackStab).

Definition on_mode_change (a : Action) : ActionOptions := clearOn OnModeChangeOrDisarm (ActionOptions_new a).
Definition terminate_for_good : ActionOptions := clearOn Clear_Never (allowUserTakeover Takeover_Never (ActionOptions_new Terminate)).

Definition fromNavDllOrRclActParam (param_value : Z) : ActionOptions :=
  match param_value with
  | 1 => on_mode_change Hold
  | 2 => on_mode_change RTL
  | 3 => on_mode_change Land
  | 5 => terminate_for_good
  | 6 => allowUserTakeover Takeover_Never (ActionOptions_new Disarm)
  | _ => ActionOptions_new Action_None
  end.

Definition fromGfActParam (param_value : Z) : ActionOptions :=
  match param_value with
  | 0 => ActionOptions_new Action_None
  | 2 => allowUserTakeover AlwaysModeSwitchOnly (on_mode_change Hold)
  | 3 => on_mode_change RTL
  | 4 => terminate_for_good
  | 5 => on_mode_change Land
  | _ => ActionOptions_new Action_Warn
  end.

Definition fromActuatorFailureActParam (param_value : Z) : ActionOptions :=
  match param_value with
  | 1 => ActionOptions_new Hold
  | 2 => on_mode_change Land
  | 3 => on_mode_change RTL
  | 4 => clearOn Clear_Never (ActionOptions_new Terminate)
  | _ => ActionOptions_new Action_Warn
  end.

Definition fromBatteryWarningActParam (param_value battery_warning : Z) : ActionOptions :=
  if battery_warning =? WARNING_LOW then causedBy BatteryLow (ActionOptions_new Action_Warn)
  else if battery_warning =? WARNING_CRITICAL then
    causedBy BatteryCritical
      (ActionOptions_new (match param_value with 1 | 3 => RTL | 2 => Land | _ => Action_Warn end))
  else if battery_warning =? WARNING_EMERGENCY then
    causedBy BatteryEmergency
      (ActionOptions_new (match param_value with 1 => RTL | 2 | 3 => Land | _ => Action_Warn end))
  else ActionOptions_new Action_None.

Definition fromQuadchuteActParam (param_value : Z) : ActionOptions :=
  match param_value with
  | 0 => on_mode_change RTL
  | 1 => on_mode_change Land
  | 2 => on_mode_change Hold
  | _ => ActionOptions_new Action_Warn
  end.

(** The action and the new [user_intended_mode]. *)
Definition fromOffboardLossActParam (param_value user_intended_mode : Z) : Action * Z :=
  match param_value with
  | 1 => (FallbackAltCtrl, NAVIGATION_STATE_ALTCTL)
  | 2 => (FallbackStab, NAVIGATION_STATE_STAB)
  | 3 => (RTL, NAVIGATION_STATE_AUTO_RTL)
  | 4 => (Land, NAVIGATION_STATE_AUTO_LAND)
  | 5 => (Hold, NAVIGATION_STATE_AUTO_LOITER)
  | 6 => (Terminate, NAVIGATION_STATE_TERMINATION)
  | 7 => (Disarm, user_intended_mode)
  | _ => (FallbackPosCtrl, NAVIGATION_STATE_POSCTL)
  end.

Definition fromHighWindLimitActParam (param_value : Z) : ActionOptions :=
  match param_value with
  | 0 => ActionOptions_new Action_None
  | 2 => allowUserTakeover AlwaysModeSwitchOnly (on_mode_change Hold)
  | 3 => on_mode_change RTL
  | 4 => terminate_for_good
  | 5 => on_mode_change Land
  | _ => ActionOptions_new Action_Warn
  end.

Definition fromPosLowActParam (param_value : Z) : ActionOptions :=
  let options a := allowUserTakeover AlwaysModeSwitchOnly (ActionOptions_new a) in
  match param_value with
  | 0 => options Action_None
  | 2 => options Hold
  | 3 => options RTL
  | 4 => terminate_for_good
  | 5 => options Land
  | _ => options Action_Warn
  end.

Definition fromGnssLossActParam (param_value : Z) : ActionOptions :=
  match param_value with
  | 1 => on_mode_change RTL
  | 2 => on_mode_change Land
  | 3 => terminate_for_good
  | _ => ActionOptions_new Action_Warn
  end.

Definition fromParachuteActParam (param_value : Z) : ActionOptions :=
  match param_value with
  | 1 | 2 => ActionOptions_new Action_Warn
  | 3 => on_mode_change RTL
  | 4 => on_mode_change Land
  | _ => ActionOptions_new Action_None
  end.

Definition fromTrafficAvoidanceActParam (param_value : Z) : ActionOptions :=
  match param_value with
  | 1 | 2 => ActionOptions_new Action_Warn
  | 3 => on_mode_change RTL
  | 4 => on_mode_change Land
  | _ => ActionOptions_new Action_None
  end.

Definition fromRemainingFlightTimeLowActParam (param_value : Z) : ActionOptions :=
  causedBy RemainingFlightTimeLow
    match param_value with
    | 1 => ActionOptions_new Action_Warn
    | 3 => on_mode_change RTL
    | _ => ActionOptions_new Action_None
    end.

Definition fromOdidFailActParam (param_value : Z) : ActionOptions :=
  match param_value with
  | 3 => on_mode_change RTL
  | 4 => on_mode_change Land
  | 5 => terminate_for_good
  | _ => ActionOptions_new Action_None
  end.

(** [exception_mask_parameter & bit] as a boolean. *)
Definition isFailsafeIgnored (user_intended_mode exception_mask_parameter : Z) : bool :=
  let masked bit := negb (Z.land exception_mask_parameter bit =? 0) in
  let m := user_intended_mode in
  if m =? NAVIGATION_STATE_AUTO_MISSION then masked 1
  else if (m =? NAVIGATION_STATE_AUTO_LOITER) || (m =? NAVIGATION_STATE_AUTO_TAKEOFF) || (m =? NAVIGATION_STATE_AUTO_VTOL_TAKEOFF)
       || (m =? NAVIGATION_STATE_AUTO_LAND) || (m =? NAVIGATION_STATE_AUTO_RTL) || (m =? NAVIGATION_STATE_DESCEND)
       || (m =? NAVIGATION_STATE_AUTO_FOLLOW_TARGET) || (m =? NAVIGATION_STATE_AUTO_PRECLAND) || (m =? NAVIGATION_STATE_ORBIT)
       || (m =? NAVIGATION_STATE_GUIDED_COURSE) then masked 2
  else if m =? NAVIGATION_STATE_OFFBOARD then masked 4
  else if (NAVIGATION_STATE_EXTERNAL1 <=? m) && (m <=? NAVIGATION_STATE_EXTERNAL8) then masked 8
  else if m =? NAVIGATION_STATE_ALTITUDE_CRUISE then masked 16
  else false.

(** ** The methods *)

Definition updateArmingState (time_us : Z) (is_armed : bool) (fl : failsafe_flags) (d : Failsafe) : Failsafe :=
  let with_arming armed_time lost warning :=
    mkFailsafe d.(_last_state_mode_fallback) d.(_last_state_mission_control_lost) d.(_last_state_battery_warning_low)
      d.(_last_state_battery_warning_critical) d.(_last_state_battery_warning_emergency) d.(_last_state_fd_esc_arming)
      d.(_last_state_battery_unhealthy_spoolup) armed_time is_armed lost warning d.(prm) in
  if negb d.(_was_armed) && is_armed then
    with_arming time_us (fl.(flag_set) manual_control_signal_lost) fl.(battery_warning)
  else if negb is_armed then
    with_arming 0 (fl.(flag_set) manual_control_signal_lost) d.(_battery_warning_at_arming)
  else with_arming d.(_armed_time) d.(_manual_control_lost_at_arming) d.(_battery_warning_at_arming).

Definition manualControlLossFallbackAction (p : FailsafeParams) : Action := (fromNavDllOrRclActParam p.(_param_nav_rcl_act)).(action).

Definition Failsafe_checkModeFallback (d : Failsafe) (fl : failsafe_flags) (user_intended_mode : Z) : Action :=
  let lost := fl.(flag_set) offboard_control_signal_lost
              && negb (Z.land fl.(mode_req_offboard_signal) (u32 (Z.shiftl 1 user_intended_mode)) =? 0) in
  let '(action, mode) :=
    if lost then fromOffboardLossActParam d.(prm).(_param_com_obl_rc_act) user_intended_mode
    else (Action_None, user_intended_mode) in
  if lost && (action ==a Disarm) then action
  else
    let '(action, mode) :=
      if ((mode =? NAVIGATION_STATE_POSCTL) || (mode =? NAVIGATION_STATE_POSITION_SLOW)) && negb (modeCanRun fl mode)
      then (FallbackAltCtrl, NAVIGATION_STATE_ALTCTL) else (action, mode) in
    let '(action, mode) :=
      if (mode =? NAVIGATION_STATE_ALTCTL) && negb (modeCanRun fl mode)
      then (FallbackStab, NAVIGATION_STATE_STAB) else (action, mode) in
    let action :=
      if fl.(flag_set) manual_control_signal_lost && manualControlFallbackAction action
      then manualControlLossFallbackAction d.(prm) else action in
    if negb (modeCanRun fl mode) then RTL else action.

Definition Failsafe_modifyUserIntendedMode (previous_action current_action : Action) (user_intended_mode : Z) : Z :=
  if (severity previous_action <=? severity Action_Warn) && (current_action >a Action_Warn) && (user_intended_mode =? NAVIGATION_STATE_ORBIT)
  then NAVIGATION_STATE_AUTO_LOITER else user_intended_mode.

Definition CBRK_FLIGHTTERM_KEY : Z := 121212.
Definition circuit_breaker_enabled_by_val (breaker_val magic : Z) : bool := breaker_val =? magic.

Section failsafe.
(** The layout of [failsafe_flags_s]. *)
Context (offset : flag -> Z) (sizeof_flags : Z).

(** The identifiers from [genCallerId], in the order of the members. *)
Definition caller_id_mode_fallback : Z := sizeof_flags + 2.
Definition caller_id_mission_control_lost : Z := sizeof_flags + 3.
Definition caller_id_battery_warning_low : Z := sizeof_flags + 4.
Definition caller_id_battery_warning_critical : Z := sizeof_flags + 5.
Definition caller_id_battery_warning_emergency : Z := sizeof_flags + 6.
Definition caller_id_fd_esc_arming : Z := sizeof_flags + 7.
Definition caller_id_battery_unhealthy_spoolup : Z := sizeof_flags + 8.

(** The macro. *)
Definition CHECK_FAILSAFE (fl : failsafe_flags) (f : flag) (options : ActionOptions) (b : FailsafeBase) : FailsafeBase :=
  (checkFailsafe b (offset f) (b.(_last_status_flags).(flag_set) f) (fl.(flag_set) f) options).2.

(** [checkStateAndMode] block by block, on the members after [updateArmingState]. *)

(** Whether manual control was lost at arming, after the first block. *)
Definition lost_at_arming (fl : failsafe_flags) (d : Failsafe) : bool :=
  if negb (fl.(flag_set) manual_control_signal_lost) then false else d.(_manual_control_lost_at_arming).

(** [ignore_any_link_loss_vtol_takeoff_fixedwing] *)
Definition ignore_any_link_loss (state : State) : bool :=
  let in_forward_flight := (state.(vehicle_type) =? VEHICLE_TYPE_FIXED_WING) || state.(vtol_in_transition_mode) in
  (state.(user_intended_mode) =? NAVIGATION_STATE_AUTO_VTOL_TAKEOFF) && in_forward_flight && negb state.(mission_finished).

Definition rc_loss_checked (state : State) (fl : failsafe_flags) (d : Failsafe) : bool :=
  let rc_loss_ignored :=
    isFailsafeIgnored state.(user_intended_mode) d.(prm).(_param_com_rcl_except) || ignore_any_link_loss state || lost_at_arming fl d in
  negb (d.(prm).(_param_com_rc_in_mode) =? 4) && negb rc_loss_ignored.

Definition dll_loss_checked (state : State) (d : Failsafe) : bool :=
  let mode := state.(user_intended_mode) in
  let dll_loss_ignored_land := (mode =? NAVIGATION_STATE_AUTO_LAND) || (mode =? NAVIGATION_STATE_AUTO_PRECLAND) in
  let dll_loss_ignored :=
    isFailsafeIgnored mode d.(prm).(_param_com_dll_except) || ignore_any_link_loss state || dll_loss_ignored_land || negb state.(armed) in
  negb (d.(prm).(_param_nav_dll_act) =? 0) && negb dll_loss_ignored.

Definition check_links (state : State) (fl : failsafe_flags) (d : Failsafe) (b : FailsafeBase) : FailsafeBase :=
  let b :=
    if rc_loss_checked state fl d
    then CHECK_FAILSAFE fl manual_control_signal_lost
           (causedBy ManualControlLoss (fromNavDllOrRclActParam d.(prm).(_param_nav_rcl_act))) b else b in
  if dll_loss_checked state d
  then CHECK_FAILSAFE fl gcs_connection_lost
         (causedBy GCSConnectionLoss (fromNavDllOrRclActParam d.(prm).(_param_nav_dll_act))) b else b.

(** VTOL transition failure and mission; also the new [_last_state_mission_control_lost]. *)
Definition check_mission (state : State) (fl : failsafe_flags) (d : Failsafe) (b : FailsafeBase) : bool * FailsafeBase :=
  let mode := state.(user_intended_mode) in
  let p := d.(prm) in
  let b :=
    if (mode =? NAVIGATION_STATE_AUTO_MISSION) || (mode =? NAVIGATION_STATE_AUTO_LOITER) || (mode =? NAVIGATION_STATE_AUTO_TAKEOFF)
       || (mode =? NAVIGATION_STATE_AUTO_VTOL_TAKEOFF)
    then CHECK_FAILSAFE fl vtol_fixed_wing_system_failure (fromQuadchuteActParam p.(_param_com_qc_act)) b else b in
  if mode =? NAVIGATION_STATE_AUTO_MISSION then
    let b := CHECK_FAILSAFE fl mission_failure (ActionOptions_new RTL) b in
    if ((p.(_param_com_rc_in_mode) =? 4) || isFailsafeIgnored mode p.(_param_com_rcl_except))
       && (p.(_param_nav_dll_act) =? 0) && state.(mission_finished)
    then checkFailsafe b caller_id_mission_control_lost d.(_last_state_mission_control_lost)
           (fl.(flag_set) gcs_connection_lost) (ActionOptions_new RTL)
    else (d.(_last_state_mission_control_lost), b)
  else (d.(_last_state_mission_control_lost), b).

(** Wind, flight time, position accuracy, navigator, geofence and remaining flight time. *)
Definition check_limits (state : State) (fl : failsafe_flags) (d : Failsafe) (b : FailsafeBase) : FailsafeBase :=
  let mode := state.(user_intended_mode) in
  let p := d.(prm) in
  let b := CHECK_FAILSAFE fl wind_limit_exceeded (cannotBeDeferred (fromHighWindLimitActParam p.(_param_com_wind_max_act))) b in
  let b := CHECK_FAILSAFE fl flight_time_limit_exceeded (cannotBeDeferred (ActionOptions_new RTL)) b in
  let b :=
    if (mode =? NAVIGATION_STATE_AUTO_MISSION) || (mode =? NAVIGATION_STATE_AUTO_LOITER)
    then CHECK_FAILSAFE fl position_accuracy_low (fromPosLowActParam p.(_param_com_pos_low_act)) b else b in
  let b :=
    if (mode =? NAVIGATION_STATE_AUTO_TAKEOFF) || (mode =? NAVIGATION_STATE_AUTO_RTL)
    then CHECK_FAILSAFE fl navigator_failure (clearOn OnModeChangeOrDisarm (ActionOptions_new Land)) b
    else CHECK_FAILSAFE fl navigator_failure (clearOn OnModeChangeOrDisarm (ActionOptions_new Hold)) b in
  let b := CHECK_FAILSAFE fl geofence_breached (cannotBeDeferred (fromGfActParam p.(_param_gf_action))) b in
  CHECK_FAILSAFE fl battery_low_remaining_time (fromRemainingFlightTimeLowActParam p.(_param_com_fltt_low_act)) b.

(** [(_armed_time != 0) && (time_us < _armed_time + spoolup + extra)] *)
Definition armed_within (time_us extra : Z) (d : Failsafe) : bool :=
  let spoolup := seconds_us d.(prm).(_param_com_spoolup_time) in
  negb (d.(_armed_time) =? 0) && (time_us <? u64 (d.(_armed_time) + spoolup + extra)).

(** Battery health, parachute, traffic avoidance and Remote ID. *)
Definition check_equipment (time_us : Z) (state : State) (fl : failsafe_flags) (d : Failsafe) (b : FailsafeBase) : FailsafeBase :=
  let p := d.(prm) in
  let b :=
    if armed_within time_us 0 d
    then CHECK_FAILSAFE fl battery_unhealthy (cannotBeDeferred (ActionOptions_new Disarm)) b
    else CHECK_FAILSAFE fl battery_unhealthy (ActionOptions_new Action_Warn) b in
  let b := CHECK_FAILSAFE fl parachute_unhealthy (fromParachuteActParam p.(_param_com_parachute)) b in
  let b := CHECK_FAILSAFE fl traffic_avoidance_unhealthy (fromTrafficAvoidanceActParam p.(_param_com_traff_avoid)) b in
  if state.(armed) && (3 <=? p.(_param_com_arm_odid))
  then CHECK_FAILSAFE fl remote_id_unhealthy (fromOdidFailActParam p.(_param_com_arm_odid)) b else b.

(** The battery warning; also the new members [_last_state_battery_warning_*]. *)
Definition check_battery (fl : failsafe_flags) (d : Failsafe) (b : FailsafeBase) : bool * bool * bool * FailsafeBase :=
  let w := fl.(battery_warning) in
  let warning_worse_than_at_arming := d.(_battery_warning_at_arming) <? w in
  let low_battery_action := if warning_worse_than_at_arming then d.(prm).(_param_com_low_bat_act) else 0 in
  let '(low, critical, emergency) :=
    (d.(_last_state_battery_warning_low), d.(_last_state_battery_warning_critical), d.(_last_state_battery_warning_emergency)) in
  if w =? WARNING_LOW then
    let '(low, b) := checkFailsafe b caller_id_battery_warning_low low true (fromBatteryWarningActParam low_battery_action WARNING_LOW) in
    (low, critical, emergency, b)
  else if w =? WARNING_CRITICAL then
    let '(critical, b) :=
      checkFailsafe b caller_id_battery_warning_critical critical true (fromBatteryWarningActParam low_battery_action WARNING_CRITICAL) in
    (low, critical, emergency, b)
  else if w =? WARNING_EMERGENCY then
    let '(emergency, b) :=
      checkFailsafe b caller_id_battery_warning_emergency emergency true (fromBatteryWarningActParam low_battery_action WARNING_EMERGENCY) in
    (low, critical, emergency, b)
  else (low, critical, emergency, b).

(** Failures during spoolup; also the new [_last_state_fd_esc_arming] and
    [_last_state_battery_unhealthy_spoolup]. *)
Definition check_spoolup (time_us : Z) (fl : failsafe_flags) (d : Failsafe) (b : FailsafeBase) : bool * bool * FailsafeBase :=
  if armed_within time_us 0 d then
    let '(fd_esc, b) :=
      checkFailsafe b caller_id_fd_esc_arming d.(_last_state_fd_esc_arming) (fl.(flag_set) fd_esc_arming_failure)
        (cannotBeDeferred (ActionOptions_new Disarm)) in
    let '(unhealthy, b) :=
      checkFailsafe b caller_id_battery_unhealthy_spoolup d.(_last_state_battery_unhealthy_spoolup) (fl.(flag_set) battery_unhealthy)
        (cannotBeDeferred (ActionOptions_new Disarm)) in
    (fd_esc, unhealthy, b)
  else (d.(_last_state_fd_esc_arming), d.(_last_state_battery_unhealthy_spoolup), b).

(** The failure detector and GNSS. *)
Definition check_failure_detector (time_us : Z) (fl : failsafe_flags) (d : Failsafe) (b : FailsafeBase) : FailsafeBase :=
  let p := d.(prm) in
  let both o b := CHECK_FAILSAFE fl fd_alt_loss o (CHECK_FAILSAFE fl fd_critical_failure o b) in
  let b :=
    if armed_within time_us 3000000 d then both (cannotBeDeferred (ActionOptions_new Disarm)) b
    else if negb (circuit_breaker_enabled_by_val p.(_param_cbrk_flightterm) CBRK_FLIGHTTERM_KEY)
    then both (cannotBeDeferred (ActionOptions_new Terminate)) b
    else both (ActionOptions_new Action_Warn) b in
  let b := CHECK_FAILSAFE fl fd_imbalanced_prop (ActionOptions_new Action_Warn) b in
  let b := CHECK_FAILSAFE fl fd_motor_failure (fromActuatorFailureActParam p.(_param_com_actuator_failure_act)) b in
  CHECK_FAILSAFE fl gnss_lost (fromGnssLossActParam p.(_param_com_gnssloss_act)) b.

Definition Failsafe_checkStateAndMode (time_us : Z) (state : State) (fl : failsafe_flags) (bd : FailsafeBase * Failsafe)
    : FailsafeBase * Failsafe :=
  let '(b, d) := bd in
  let d := updateArmingState time_us state.(armed) fl d in
  let b := check_links state fl d b in
  let '(mission_control_lost, b) := check_mission state fl d b in
  let b := check_limits state fl d b in
  let b := check_equipment time_us state fl d b in
  let '(low, critical, emergency, b) := check_battery fl d b in
  let '(fd_esc_arming, unhealthy_spoolup, b) := check_spoolup time_us fl d b in
  let b := check_failure_detector time_us fl d b in
  let mode_fallback_action := Failsafe_checkModeFallback d fl state.(user_intended_mode) in
  let '(mode_fallback, b) :=
    checkFailsafe b caller_id_mode_fallback d.(_last_state_mode_fallback) (negb (mode_fallback_action ==a Action_None))
      (cannotBeDeferred (allowUserTakeover Always (ActionOptions_new mode_fallback_action))) in
  (b, mkFailsafe mode_fallback mission_control_lost low critical emergency fd_esc_arming unhealthy_spoolup
        d.(_armed_time) d.(_was_armed) (lost_at_arming fl d) d.(_battery_warning_at_arming) d.(prm)).

#[local] Instance Failsafe_methods : FailsafeMethods Failsafe := {
  checkStateAndMode := Failsafe_checkStateAndMode;
  checkModeFallback := Failsafe_checkModeFallback;
  modifyUserIntendedMode := fun _ => Failsafe_modifyUserIntendedMode;
}.

(** ** The checks as a list *)

Definition when {A} (c : bool) (x : A) : list A := if c then [x] else [].

(** The checks of each block; [last] are the flags of the last update. *)
Section lists.
Context (time_us : Z) (state : State) (fl : failsafe_flags) (last : failsafe_flags) (d : Failsafe).

Definition flag_check (f : flag) (o : ActionOptions) : check := mkCheck (offset f) (last.(flag_set) f) (fl.(flag_set) f) o.

Definition list_links : list check :=
  when (rc_loss_checked state fl d)
    (flag_check manual_control_signal_lost (causedBy ManualControlLoss (fromNavDllOrRclActParam d.(prm).(_param_nav_rcl_act)))) ++
  when (dll_loss_checked state d)
    (flag_check gcs_connection_lost (causedBy GCSConnectionLoss (fromNavDllOrRclActParam d.(prm).(_param_nav_dll_act)))).

Definition list_mission : list check :=
  let mode := state.(user_intended_mode) in
  when ((mode =? NAVIGATION_STATE_AUTO_MISSION) || (mode =? NAVIGATION_STATE_AUTO_LOITER) || (mode =? NAVIGATION_STATE_AUTO_TAKEOFF)
        || (mode =? NAVIGATION_STATE_AUTO_VTOL_TAKEOFF))
    (flag_check vtol_fixed_wing_system_failure (fromQuadchuteActParam d.(prm).(_param_com_qc_act))) ++
  when (mode =? NAVIGATION_STATE_AUTO_MISSION) (flag_check mission_failure (ActionOptions_new RTL)) ++
  when ((mode =? NAVIGATION_STATE_AUTO_MISSION)
        && (((d.(prm).(_param_com_rc_in_mode) =? 4) || isFailsafeIgnored mode d.(prm).(_param_com_rcl_except))
            && (d.(prm).(_param_nav_dll_act) =? 0) && state.(mission_finished)))
    (mkCheck caller_id_mission_control_lost d.(_last_state_mission_control_lost) (fl.(flag_set) gcs_connection_lost) (ActionOptions_new RTL)).

Definition list_limits : list check :=
  let mode := state.(user_intended_mode) in
  [flag_check wind_limit_exceeded (cannotBeDeferred (fromHighWindLimitActParam d.(prm).(_param_com_wind_max_act)));
   flag_check flight_time_limit_exceeded (cannotBeDeferred (ActionOptions_new RTL))] ++
  when ((mode =? NAVIGATION_STATE_AUTO_MISSION) || (mode =? NAVIGATION_STATE_AUTO_LOITER))
    (flag_check position_accuracy_low (fromPosLowActParam d.(prm).(_param_com_pos_low_act))) ++
  [flag_check navigator_failure (clearOn OnModeChangeOrDisarm (ActionOptions_new
     (if (mode =? NAVIGATION_STATE_AUTO_TAKEOFF) || (mode =? NAVIGATION_STATE_AUTO_RTL) then Land else Hold)));
   flag_check geofence_breached (cannotBeDeferred (fromGfActParam d.(prm).(_param_gf_action)));
   flag_check battery_low_remaining_time (fromRemainingFlightTimeLowActParam d.(prm).(_param_com_fltt_low_act))].

Definition list_equipment : list check :=
  [flag_check battery_unhealthy
     (if armed_within time_us 0 d then cannotBeDeferred (ActionOptions_new Disarm) else ActionOptions_new Action_Warn);
   flag_check parachute_unhealthy (fromParachuteActParam d.(prm).(_param_com_parachute));
   flag_check traffic_avoidance_unhealthy (fromTrafficAvoidanceActParam d.(prm).(_param_com_traff_avoid))] ++
  when (state.(armed) && (3 <=? d.(prm).(_param_com_arm_odid)))
    (flag_check remote_id_unhealthy (fromOdidFailActParam d.(prm).(_param_com_arm_odid))).

Definition list_battery : list check :=
  let w := fl.(battery_warning) in
  let low_battery_action := if d.(_battery_warning_at_arming) <? w then d.(prm).(_param_com_low_bat_act) else 0 in
  if w =? WARNING_LOW then
    [mkCheck caller_id_battery_warning_low d.(_last_state_battery_warning_low) true (fromBatteryWarningActParam low_battery_action WARNING_LOW)]
  else if w =? WARNING_CRITICAL then
    [mkCheck caller_id_battery_warning_critical d.(_last_state_battery_warning_critical) true
       (fromBatteryWarningActParam low_battery_action WARNING_CRITICAL)]
  else if w =? WARNING_EMERGENCY then
    [mkCheck caller_id_battery_warning_emergency d.(_last_state_battery_warning_emergency) true
       (fromBatteryWarningActParam low_battery_action WARNING_EMERGENCY)]
  else [].

Definition list_spoolup : list check :=
  when (armed_within time_us 0 d)
    (mkCheck caller_id_fd_esc_arming d.(_last_state_fd_esc_arming) (fl.(flag_set) fd_esc_arming_failure)
       (cannotBeDeferred (ActionOptions_new Disarm))) ++
  when (armed_within time_us 0 d)
    (mkCheck caller_id_battery_unhealthy_spoolup d.(_last_state_battery_unhealthy_spoolup) (fl.(flag_set) battery_unhealthy)
       (cannotBeDeferred (ActionOptions_new Disarm))).

(** The answer to a failure that the failure detector reports. *)
Definition fd_options : ActionOptions :=
  if armed_within time_us 3000000 d then cannotBeDeferred (ActionOptions_new Disarm)
  else if negb (circuit_breaker_enabled_by_val d.(prm).(_param_cbrk_flightterm) CBRK_FLIGHTTERM_KEY)
  then cannotBeDeferred (ActionOptions_new Terminate) else ActionOptions_new Action_Warn.

Definition list_failure_detector : list check :=
  [flag_check fd_critical_failure fd_options; flag_check fd_alt_loss fd_options;
   flag_check fd_imbalanced_prop (ActionOptions_new Action_Warn);
   flag_check fd_motor_failure (fromActuatorFailureActParam d.(prm).(_param_com_actuator_failure_act));
   flag_check gnss_lost (fromGnssLossActParam d.(prm).(_param_com_gnssloss_act))].

Definition check_fallback : check :=
  let f := Failsafe_checkModeFallback d fl state.(user_intended_mode) in
  mkCheck caller_id_mode_fallback d.(_last_state_mode_fallback) (negb (f ==a Action_None))
    (cannotBeDeferred (allowUserTakeover Always (ActionOptions_new f))).
End lists.

Definition Failsafe_checks (t : Z) (state : State) (fl : failsafe_flags) (bd : FailsafeBase * Failsafe) : list check :=
  let last := bd.1.(_last_status_flags) in
  let d := updateArmingState t state.(armed) fl bd.2 in
  (list_links state fl last d ++ list_mission state fl last d ++ list_limits state fl last d ++ list_equipment t state fl last d ++
   list_battery fl d ++ list_spoolup t fl d ++ list_failure_detector t fl last d) ++ [check_fallback state fl d].

Lemma run_checks_app b cs1 cs2 : run_checks b (cs1 ++ cs2) = run_checks (run_checks b cs1) cs2.
Proof. apply foldl_app. Qed.

Lemma run_checks_when b c x : run_checks b (when c x) = if c then run_check b x else b.
Proof. by destruct c. Qed.

Lemma run_check_last c x : (run_check x c).(_last_status_flags) = x.(_last_status_flags).
Proof. by destruct (run_check_result x c) as (a & -> & _). Qed.

Lemma run_checks_last cs : forall b, (run_checks b cs).(_last_status_flags) = b.(_last_status_flags).
Proof.
  induction cs as [|c cs IH]; intros b; [done|]. change (run_checks b (c :: cs)) with (run_checks (run_check b c) cs).
  by rewrite IH, run_check_last.
Qed.

(** [CHECK_FAILSAFE] after other checks. *)
Lemma CHECK_FAILSAFE_ok fl f o b : CHECK_FAILSAFE fl f o b = run_check b (flag_check fl b.(_last_status_flags) f o).
Proof. done. Qed.

Section blocks.
Context (t : Z) (st : State) (fl : failsafe_flags) (d : Failsafe) (b : FailsafeBase).
Notation last := b.(_last_status_flags).

(** Turns [CHECK_FAILSAFE]s into [run_check]s with the flags of [b]. *)
Ltac to_checks :=
  repeat rewrite ?CHECK_FAILSAFE_ok, ?run_check_last;
  cbn [run_checks foldl app when].

Lemma check_links_ok : check_links st fl d b = run_checks b (list_links st fl last d).
Proof. unfold check_links, list_links. repeat case_if; to_checks; done. Qed.

Lemma check_mission_ok : (check_mission st fl d b).2 = run_checks b (list_mission st fl last d).
Proof.
  unfold check_mission, list_mission. cbn zeta. destruct (user_intended_mode st =? NAVIGATION_STATE_AUTO_MISSION); cbn [orb andb].
  - destruct (_ && _ && _); cbn [snd]; to_checks; done.
  - case_if; cbn [snd]; to_checks; done.
Qed.

Lemma check_limits_ok : check_limits st fl d b = run_checks b (list_limits st fl last d).
Proof. unfold check_limits, list_limits. cbn zeta. repeat case_if; to_checks; done. Qed.

Lemma check_equipment_ok : check_equipment t st fl d b = run_checks b (list_equipment t st fl last d).
Proof. unfold check_equipment, list_equipment. cbn zeta. repeat case_if; to_checks; done. Qed.

Lemma check_battery_ok : (check_battery fl d b).2 = run_checks b (list_battery fl d).
Proof. unfold check_battery, list_battery. cbn zeta. by repeat case_if. Qed.

Lemma check_spoolup_ok : (check_spoolup t fl d b).2 = run_checks b (list_spoolup t fl d).
Proof. unfold check_spoolup, list_spoolup. by case_if. Qed.

Lemma check_failure_detector_ok : check_failure_detector t fl d b = run_checks b (list_failure_detector t fl last d).
Proof. unfold check_failure_detector, list_failure_detector, fd_options. cbn zeta. repeat case_if; to_checks; done. Qed.
End blocks.

Lemma Failsafe_law_checks t st fl b d :
  (Failsafe_checkStateAndMode t st fl (b, d)).1 = run_checks b (Failsafe_checks t st fl (b, d)).
Proof.
  unfold Failsafe_checkStateAndMode, Failsafe_checks. cbn [fst snd]. set (d1 := updateArmingState t (armed st) fl d).
  rewrite !run_checks_app, check_links_ok. set (b1 := run_checks b (list_links _ _ _ _)).
  assert (_last_status_flags b1 = _last_status_flags b) as E1 by apply run_checks_last.
  pose proof (check_mission_ok st fl d1 b1) as H2. destruct (check_mission st fl d1 b1) as [r2 b2]. cbn [snd] in H2. rewrite E1 in H2. rewrite <- H2.
  assert (_last_status_flags b2 = _last_status_flags b) as E2 by (by rewrite H2, run_checks_last).
  rewrite check_limits_ok, E2. set (b3 := run_checks b2 _). assert (_last_status_flags b3 = _last_status_flags b) as E3 by (by unfold b3; rewrite run_checks_last).
  rewrite check_equipment_ok, E3. set (b4 := run_checks b3 _).
  assert (_last_status_flags b4 = _last_status_flags b) as E4 by (by unfold b4; rewrite run_checks_last).
  pose proof (check_battery_ok fl d1 b4) as H5. destruct (check_battery fl d1 b4) as [[[r5 r6] r7] b5]. cbn [snd] in H5. rewrite <- H5.
  assert (_last_status_flags b5 = _last_status_flags b) as E5 by (by rewrite H5, run_checks_last).
  pose proof (check_spoolup_ok t fl d1 b5) as H6. destruct (check_spoolup t fl d1 b5) as [[r8 r9] b6]. cbn [snd] in H6. rewrite <- H6.
  assert (_last_status_flags b6 = _last_status_flags b) as E6 by (by rewrite H6, run_checks_last).
  rewrite check_failure_detector_ok, E6. done.
Qed.

(** ** The callers *)

Context (offset_inj : forall f g, offset f = offset g -> f = g).
Context (offset_range : forall f, 0 <= offset f < sizeof_flags).

Inductive caller := Flag (f : flag) | Own (k : nat).

#[local] Instance caller_eq_dec : EqDecision caller.
Proof. solve_decision. Defined.

Definition caller_id (c : caller) : Z := match c with Flag f => offset f | Own k => sizeof_flags + 2 + Z.of_nat k end.

#[local] Instance caller_id_inj : Inj (=) (=) caller_id.
Proof.
  intros [f|k] [g|l]; cbn; intros E; [by rewrite (offset_inj f g)| | |f_equal; lia].
  - pose proof (offset_range f). lia.
  - pose proof (offset_range g). lia.
Qed.

(** All callers, in the order of the checks. *)
Definition callers : list (list caller) :=
  [[Flag manual_control_signal_lost; Flag gcs_connection_lost];
   [Flag vtol_fixed_wing_system_failure; Flag mission_failure; Own 1];
   [Flag wind_limit_exceeded; Flag flight_time_limit_exceeded; Flag position_accuracy_low; Flag navigator_failure; Flag geofence_breached;
    Flag battery_low_remaining_time];
   [Flag battery_unhealthy; Flag parachute_unhealthy; Flag traffic_avoidance_unhealthy; Flag remote_id_unhealthy];
   [Own 2; Own 3; Own 4];
   [Own 5; Own 6];
   [Flag fd_critical_failure; Flag fd_alt_loss; Flag fd_imbalanced_prop; Flag fd_motor_failure; Flag gnss_lost];
   [Own 0]]%nat.

Lemma callers_NoDup : NoDup (concat callers).
Proof. apply (bool_decide_unpack _). vm_compute. done. Qed.

(** The checks of a block are among its callers, in order. *)
Lemma blocks_callers t st fl last d :
  Forall2 (fun cs l => sublist (map chk_id cs) (map caller_id l))
    [list_links st fl last d; list_mission st fl last d; list_limits st fl last d; list_equipment t st fl last d;
     list_battery fl d; list_spoolup t fl d; list_failure_detector t fl last d; [check_fallback st fl d]] callers.
Proof.
  unfold list_links, list_mission, list_limits, list_equipment, list_battery, list_spoolup, list_failure_detector, check_fallback, when.
  repeat (apply Forall2_cons; split); [..|by constructor]; cbn zeta; rewrite ?map_app; repeat case_if; cbn [map app chk_id flag_check caller_id];
    unfold caller_id_mode_fallback, caller_id_mission_control_lost, caller_id_battery_warning_low, caller_id_battery_warning_critical,
      caller_id_battery_warning_emergency, caller_id_fd_esc_arming, caller_id_battery_unhealthy_spoolup;
    repeat match goal with |- context [sizeof_flags + 2 + Z.of_nat ?k] =>
      let z := eval vm_compute in (2 + Z.of_nat k) in replace (sizeof_flags + 2 + Z.of_nat k) with (sizeof_flags + z) by lia end;
    repeat first [apply sublist_nil_l | apply sublist_skip | apply sublist_cons].
Qed.

Lemma checks_callers t st fl bd : sublist (map chk_id (Failsafe_checks t st fl bd)) (map caller_id (concat callers)).
Proof.
  unfold Failsafe_checks. cbn zeta. pose proof (blocks_callers t st fl bd.1.(_last_status_flags) (updateArmingState t (armed st) fl bd.2)) as Hb.
  revert Hb. unfold callers. generalize (updateArmingState t (armed st) fl bd.2) as d. intros d Hb.
  repeat match goal with H : Forall2 _ (_ :: _) (_ :: _) |- _ => apply Forall2_cons in H as [? H] end.
  rewrite <- !app_assoc. change (concat (?a :: ?l)) with (a ++ concat l). cbn [concat]. rewrite ?app_nil_r, !map_app. by repeat apply sublist_app.
Qed.

Lemma updateArmingState_prm t a fl d : (updateArmingState t a fl d).(prm) = d.(prm).
Proof. unfold updateArmingState. cbn zeta. by repeat case_if. Qed.

Lemma checkStateAndMode_prm t st fl b d : (Failsafe_checkStateAndMode t st fl (b, d)).2.(prm) = d.(prm).
Proof.
  unfold Failsafe_checkStateAndMode. destruct (check_mission _ _ _ _). destruct (check_battery _ _ _) as [[[? ?] ?] ?].
  destruct (check_spoolup _ _ _ _) as [[? ?] ?]. cbn. apply updateArmingState_prm.
Qed.

Lemma fallback_prm d d' fl m : d.(prm) = d'.(prm) -> Failsafe_checkModeFallback d fl m = Failsafe_checkModeFallback d' fl m.
Proof. intros E. unfold Failsafe_checkModeFallback. by rewrite E. Qed.

#[local] Program Instance Failsafe_laws : FailsafeLaws Failsafe := {
  checks := Failsafe_checks;
  fallback_id := caller_id_mode_fallback;
  law_checks := Failsafe_law_checks;
}.
Next Obligation.
  intros t st fl b d. eapply sublist_NoDup; [|apply checks_callers]. apply NoDup_fmap_2; [apply _|apply callers_NoDup].
Qed.
Next Obligation.
  intros t st fl b d. apply Forall_forall. intros c Hc. pose proof (list_elem_of_fmap_2 chk_id _ _ Hc) as Hid.
  pose proof (sublist_submseteq _ _ (checks_callers t st fl (b, d))) as Hsub. apply (elem_of_submseteq _ _ _ Hid) in Hsub.
  apply list_elem_of_fmap in Hsub as (x & -> & _). destruct x as [f|k]; cbn; [apply offset_range|].
  pose proof (offset_range gnss_lost). lia.
Qed.
Next Obligation.
  intros t st fl b d. do 2 eexists. cbn zeta. unfold Failsafe_checks. cbn [fst snd checkStateAndMode checkModeFallback Failsafe_methods].
  rewrite (fallback_prm _ (updateArmingState t (armed st) fl d)); [reflexivity|]. by rewrite checkStateAndMode_prm, updateArmingState_prm.
Qed.
Next Obligation.
  intros d prev cur m Hc. cbn. unfold Failsafe_modifyUserIntendedMode. case_if; [lia|done].
Qed.

(** ** Reachable states *)

(** The commander calls [update], with the time since boot, and [deferFailsafes]. *)
Inductive step : FailsafeBase * Failsafe -> FailsafeBase * Failsafe -> Prop :=
  | step_update b d t st u rc fl : 0 < t < 2 ^ 64 -> b.(_last_update) <= t -> step (b, d) (update (b, d) t st u rc fl).2
  | step_defer b d enabled timeout : step (b, d) ((deferFailsafes b enabled timeout).2, d).

Definition initial (com_fail_act_t : Z) (p : FailsafeParams) : FailsafeBase * Failsafe :=
  (FailsafeBase_new com_fail_act_t, Failsafe_new p).

Definition reachable (com_fail_act_t : Z) (p : FailsafeParams) : FailsafeBase * Failsafe -> Prop := rtc step (initial com_fail_act_t p).

(** The callers whose actions are never deferred. *)
Definition urgent_callers (p : FailsafeParams) : list caller :=
  [Own 0; Flag flight_time_limit_exceeded; Flag wind_limit_exceeded; Flag geofence_breached; Own 5] ++
  (if circuit_breaker_enabled_by_val p.(_param_cbrk_flightterm) CBRK_FLIGHTTERM_KEY then []
   else [Flag fd_critical_failure; Flag fd_alt_loss]).

Definition urgent (p : FailsafeParams) (i : Z) : Prop := exists x, x ∈ urgent_callers p /\ i = caller_id x.

Record state_ok (T : Z) (p : FailsafeParams) (bd : FailsafeBase * Failsafe) : Prop := {
  st_base : base_ok bd.1;
  st_delays : delays_ok bd.1;
  st_param : bd.1.(_param_com_fail_act_t) = T;
  st_prm : bd.2.(prm) = p;
  st_urgent : never_deferred (urgent p) (table bd.1);
  st_defer : 0 <= bd.1.(_failsafe_defer_started) <= bd.1.(_last_update);
}.

Lemma Forall_when {A} (P : A -> Prop) c x : P x -> Forall P (when c x).
Proof. intros Hx. destruct c; by repeat constructor. Qed.

(** A check is not deferrable, or its caller is not urgent. *)
Definition urgency_ok (p : FailsafeParams) (c : check) : Prop :=
  c.(chk_options).(can_be_deferred) = false \/ exists x, x ∉ urgent_callers p /\ c.(chk_id) = caller_id x.

Lemma not_urgent_flag p f last fl o : f ∉ [flight_time_limit_exceeded; wind_limit_exceeded; geofence_breached; fd_critical_failure; fd_alt_loss] ->
  urgency_ok p (flag_check fl last f o).
Proof.
  intros Hf. right. exists (Flag f). split; [|done]. unfold urgent_callers. case_if; set_unfold; naive_solver.
Qed.

Lemma not_urgent_own p k last cur o i : k ∉ [0; 5]%nat -> i = sizeof_flags + 2 + Z.of_nat k -> urgency_ok p (mkCheck i last cur o).
Proof.
  intros Hk ->. right. exists (Own k). split; [|done]. unfold urgent_callers. case_if; set_unfold; naive_solver.
Qed.

Lemma fd_urgent t fl last d f : f = fd_critical_failure \/ f = fd_alt_loss -> urgency_ok (prm d) (flag_check fl last f (fd_options t d)).
Proof.
  intros Hf. unfold fd_options, urgency_ok. case_if; [by left|]. case_if; [by left|]. right. exists (Flag f). split; [|done].
  unfold urgent_callers. match goal with H : _ = true |- _ => rewrite H end. destruct Hf as [-> | ->]; set_unfold; naive_solver.
Qed.

Lemma checks_urgent t st fl bd : Forall (urgency_ok bd.2.(prm)) (Failsafe_checks t st fl bd).
Proof.
  unfold Failsafe_checks. cbn zeta. rewrite <- (updateArmingState_prm t (armed st) fl bd.2).
  generalize (updateArmingState t (armed st) fl bd.2) as d. generalize (_last_status_flags bd.1) as last. intros last d.
  unfold list_links, list_mission, list_limits, list_equipment, list_battery, list_spoolup, list_failure_detector, check_fallback. cbn zeta.
  rewrite !Forall_app. repeat apply conj.
  all: repeat first [apply Forall_when | apply Forall_cons; split | apply Forall_nil; exact I | case_if].
  all: try (by left); try (by apply fd_urgent; auto); try (apply not_urgent_flag; set_unfold; naive_solver).
  all: first [apply (not_urgent_own _ 1); [set_unfold; lia|unfold caller_id_mission_control_lost; lia]
    | apply (not_urgent_own _ 2); [set_unfold; lia|unfold caller_id_battery_warning_low; lia]
    | apply (not_urgent_own _ 3); [set_unfold; lia|unfold caller_id_battery_warning_critical; lia]
    | apply (not_urgent_own _ 4); [set_unfold; lia|unfold caller_id_battery_warning_emergency; lia]].
Qed.

(** ** Invariants *)

Lemma update_checked_prm (bd : FailsafeBase * Failsafe) t st u fl : (update_checked bd t st u fl).2.2.(prm) = bd.2.(prm).
Proof.
  unfold update_checked. destruct (update_begin bd.1 t st u) as [u' b1]. pose proof (checkStateAndMode_prm t st fl b1 bd.2) as Hp.
  change (checkStateAndMode t st fl (b1, bd.2)) with (Failsafe_checkStateAndMode t st fl (b1, bd.2)).
  by destruct (Failsafe_checkStateAndMode t st fl (b1, bd.2)).
Qed.

Lemma update_param (bd : FailsafeBase * Failsafe) t st u rc fl : base_ok bd.1 -> 0 <= t < 2 ^ 64 ->
  (update bd t st u rc fl).2.1.(_param_com_fail_act_t) = bd.1.(_param_com_fail_act_t) /\ (update bd t st u rc fl).2.2.(prm) = bd.2.(prm).
Proof.
  intros Hb Ht. destruct (update_checked_ok bd t st u fl Hb Ht) as (Hf & _). pose proof (update_unfold bd t st u rc fl) as Hu. cbn zeta in *.
  pose proof (update_checked_prm bd t st u fl) as Hp.
  destruct (update_checked bd t st u fl) as [u' [b1 d1]]. cbn [fst snd] in *. destruct Hu as [notes ->]. cbn. split; [|done].
  by rewrite Hf.
Qed.

Lemma update_urgent (bd : FailsafeBase * Failsafe) t st u rc fl : base_ok bd.1 -> 0 <= t < 2 ^ 64 ->
  never_deferred (urgent bd.2.(prm)) (table bd.1) ->
  never_deferred (urgent bd.2.(prm)) (table (update_checked bd t st u fl).2.1) /\
  never_deferred (urgent bd.2.(prm)) (table (update bd t st u rc fl).2.1).
Proof.
  intros Hb Ht Hn. destruct (update_checked_ok bd t st u fl Hb Ht) as (_ & _ & _ & _ & _ & Hnd).
  assert (never_deferred (urgent bd.2.(prm)) (table (update_checked bd t st u fl).2.1)) as H1.
  { apply Hnd; [done|]. intros c Hc (x & Hx & E). pose proof (proj1 (Forall_forall _ _) (checks_urgent t st fl _) c Hc) as [?|(y & Hy & Ey)]; [done|].
    exfalso. apply Hy. rewrite E in Ey. apply (inj caller_id) in Ey as <-. done. }
  split; [done|]. pose proof (update_state bd t st u rc fl) as Hs. cbn zeta in Hs. destruct (update bd t st u rc fl) as [[m notes] [b' d']].
  destruct (update_checked bd t st u fl) as [u' [b1 d1]]. cbn [fst snd] in *. destruct Hs as (_ & _ & _ & _ & -> & _). done.
Qed.

Lemma update_defer (bd : FailsafeBase * Failsafe) t st u rc fl : base_ok bd.1 -> 0 <= t < 2 ^ 64 ->
  let b' := (update bd t st u rc fl).2.1 in
  b'.(_last_update) = t /\ (b'.(_failsafe_defer_started) = 0 \/ b'.(_failsafe_defer_started) = t \/
    b'.(_failsafe_defer_started) = bd.1.(_failsafe_defer_started)).
Proof.
  intros Hb Ht. destruct (update_checked_ok bd t st u fl Hb Ht) as (Hf & _). pose proof (update_unfold bd t st u rc fl) as Hu. cbn zeta in *.
  destruct (update_checked bd t st u fl) as [u' [b1 d1]]. cbn [fst snd] in *. destruct Hu as [notes ->]. cbn. split; [done|].
  unfold updateFailsafeDeferState. repeat case_if; auto. right. right. by rewrite Hf.
Qed.

Lemma state_ok_update T p b d t st u rc fl : 0 < t < 2 ^ 64 -> b.(_last_update) <= t -> state_ok T p (b, d) -> state_ok T p (update (b, d) t st u rc fl).2.
Proof.
  intros Ht Hl [Hb Hd Hp Hprm Hu Hdf]. destruct (update_param (b, d) t st u rc fl Hb ltac:(lia)) as [E1 E2].
  destruct (update_defer (b, d) t st u rc fl Hb ltac:(lia)) as [E3 E4].
  destruct (update_urgent (b, d) t st u rc fl Hb ltac:(lia)) as [_ Hu']; [by rewrite Hprm|]. cbn [fst snd] in *. split.
  - apply update_ok; [done|lia].
  - apply delays_ok_update; [done|done|lia].
  - congruence.
  - congruence.
  - by rewrite <- Hprm.
  - lia.
Qed.

Lemma state_ok_step T p bd bd' : state_ok T p bd -> step bd bd' -> state_ok T p bd'.
Proof.
  intros Hok Hs. destruct Hs as [b d t st u rc fl Ht Hl|b d e t]; [by apply state_ok_update|].
  destruct Hok as [Hb [Hd1 Hd2] Hp Hprm Hu Hdf]. destruct (deferFailsafes_ok b e t Hb) as [Hb' Ht]. cbn [fst snd] in *.
  split; cbn [fst snd]; [done| | |done|by rewrite Ht|]; unfold deferFailsafes; case_if; cbn zeta; try done; cbn.
  - split; cbn; case_if; cbn; try done. apply seconds_us_nonneg.
  - by case_if.
  - by case_if.
Qed.

Lemma initial_ok T p : state_ok T p (initial T p).
Proof.
  split; cbn; try done; [apply FailsafeBase_new_ok|split; cbn; [apply seconds_us_nonneg|lia]|..].
  intros i x Hx Vx. exfalso. by apply (lookup_replicate_1 max_num_actions) in Hx as [-> _].
Qed.

Lemma reachable_ok T p bd : reachable T p bd -> state_ok T p bd.
Proof.
  unfold reachable. intros Hr. pose proof (initial_ok T p) as H0. revert H0. induction Hr as [|x y z Hs _ IH]; [done|].
  intros H0. apply IH. by eapply state_ok_step.
Qed.

(** ** The mode fallback *)

(** NAV_RCL_ACT names an action. *)
Definition rcl_action (p : FailsafeParams) : Prop := p.(_param_nav_rcl_act) ∈ [1; 2; 3; 5; 6].

Lemma rcl_action_severe p : rcl_action p -> severity Action_Warn < severity (manualControlLossFallbackAction p).
Proof.
  unfold rcl_action, manualControlLossFallbackAction. intros Hp. set_unfold.
  repeat (destruct Hp as [Hp|Hp]; [rewrite Hp; cbn; lia|]). done.
Qed.

Lemma offboard_severe v m : severity Action_Warn < severity (fromOffboardLossActParam v m).1.
Proof. unfold fromOffboardLossActParam. repeat case_match; cbn; lia. Qed.

(** If the fallback gives no action, then the mode can run. *)
Lemma fallback_complete d fl m : rcl_action d.(prm) ->
  severity (Failsafe_checkModeFallback d fl m) <= severity Action_Warn -> modeCanRun fl m = true.
Proof.
  intros Hp%rcl_action_severe. unfold Failsafe_checkModeFallback. cbn zeta.
  set (lost := flag_set fl offboard_control_signal_lost && _). pose proof (offboard_severe (_param_com_obl_rc_act (prm d)) m) as Ho.
  destruct lost.
  - destruct (fromOffboardLossActParam _ m) as [a m']. cbn [fst] in Ho. cbn [andb]. case_if; [lia|].
    destruct (_ && negb (modeCanRun fl m')); destruct (_ && negb (modeCanRun fl _)); repeat case_if; cbn in *; try lia; try (by destruct a; cbn in *; lia).
  - cbn [andb].
    destruct (_ && negb (modeCanRun fl m)) eqn:E1; destruct (_ && negb (modeCanRun fl _)) eqn:E2; repeat case_if; cbn in *; try lia; try done;
      intros _; apply negb_false_iff; done.
Qed.

(** ** The failure detector *)

Lemma update_checked_armed (bd : FailsafeBase * Failsafe) t st u fl x :
  armed_within t x (update_checked bd t st u fl).2.2 = armed_within t x (updateArmingState t st.(armed) fl bd.2).
Proof.
  unfold update_checked. destruct (update_begin bd.1 t st u) as [u' b1].
  change (checkStateAndMode t st fl (b1, bd.2)) with (Failsafe_checkStateAndMode t st fl (b1, bd.2)). unfold Failsafe_checkStateAndMode.
  destruct (check_mission _ _ _ _). destruct (check_battery _ _ _) as [[[? ?] ?] ?]. destruct (check_spoolup _ _ _ _) as [[? ?] ?]. done.
Qed.

Lemma fd_check_made (bd : FailsafeBase * Failsafe) t st u fl f : f = fd_critical_failure \/ f = fd_alt_loss ->
  flag_check fl (update_begin bd.1 t st u).2.(_last_status_flags) f (fd_options t (updateArmingState t st.(armed) fl bd.2))
    ∈ update_checks bd t st u fl.
Proof.
  intros Hf. unfold update_checks. cbn [checks Failsafe_laws]. unfold Failsafe_checks. cbn [fst snd]. rewrite !elem_of_app. left.
  do 6 right. unfold list_failure_detector. destruct Hf as [-> | ->]; [left|right; left].
Qed.

(** ** Properties *)

(** C19: the state of the failsafe. In every state that updates and deferrals reach, the table has
    eight slots, at most one for each caller, and every slot in use says who may take over; no
    slot is left activated, no check was made twice in an update, the delays are within
    COM_FAIL_ACT_T, and the mode fallback, the wind, flight time and geofence limits and the
    failure detector have slots that cannot be deferred. *)
Theorem failsafe_state_invariant T p bd : reachable T p bd -> state_ok T p bd.
Proof. apply reachable_ok. Qed.




(** C18: a delay ends. While a Hold delays an action update after update, at most [gap] apart, the
    time that passes stays below COM_FAIL_ACT_T plus [gap], whatever other failures appear,
    disappear or are added in the meantime, and whatever deferrals are requested. *)
Theorem delayed_hold_bounded T p bd gap span bd' :
  reachable T p bd -> 0 < bd.1.(_last_update) -> bd.1.(_failsafe_defer_started) = 0 -> 0 <= gap ->
  delayed_run gap bd span bd' -> span = 0 \/ span < seconds_us T + gap.
Proof.
  intros [Hb Hd Hp _ _ _]%reachable_ok Hl Hdf Hg Hrun. rewrite <- Hp. by apply (delayed_run_bounded gap bd span bd').
Qed.

(** a deferral ends. A failsafe that an update leaves deferred has been deferred for no
    longer than the timeout of the deferral, if it has one. *)
Theorem deferral_bounded T p bd t st u rc fl :
  reachable T p bd -> bd.1.(_last_update) <= t < 2 ^ 64 -> 0 < bd.1.(_defer_timeout) -> t + bd.1.(_defer_timeout) < 2 ^ 64 ->
  let '(_, _, (b', _)) := update bd t st u rc fl in
  failsafeDeferred b' = true -> t - b'.(_failsafe_defer_started) <= bd.1.(_defer_timeout).
Proof.
  intros [Hb _ _ _ _ Hdf]%reachable_ok Ht Hto Hov. pose proof (bk_last _ Hb).
  pose proof (update_deferral_bounded bd t st u rc fl Hb ltac:(lia) ltac:(lia) Hto ltac:(lia)) as H1. cbn zeta in H1.
  destruct (update bd t st u rc fl) as [[m notes] [b' d']]. cbn [fst snd] in H1. intros Hd. specialize (H1 Hd). lia.
Qed.

(** C32: termination is final. Once Terminate is selected, every sequence of updates, armed or not
    and with any flags, and of deferrals keeps it selected. *)
Theorem terminate_is_final bd bd' :
  bd.1.(_selected_action) = Terminate -> rtc step bd bd' -> bd'.1.(_selected_action) = Terminate.
Proof.
  intros Ht Hr. induction Hr as [|x y z Hs _ IH]; [done|]. apply IH. clear IH. destruct Hs as [b d t st u rc fl _ _|b d e t]; cbn [fst] in *.
  - pose proof (update_state (b, d) t st u rc fl) as Hs. pose proof (update_checked_selected (b, d) t st u fl) as Hsel.
    cbn zeta in Hs. unfold update_selection in Hs. destruct (update (b, d) t st u rc fl) as [[m notes] [b' d']].
    destruct (update_checked (b, d) t st u fl) as [u' [b1 d1]]. cbn [fst snd] in *. destruct Hs as (_ & -> & _).
    rewrite getSelectedAction_unfold, Hsel, Ht. by rewrite (bool_decide_true (Terminate = Terminate)), orb_true_r.
  - unfold deferFailsafes. case_if; [done|]. cbn. by case_if.
Qed.

(** C38: the loss of the offboard signal can go unanswered. With COM_OBL_RC_ACT at Position mode and a
    NAV_RCL_ACT without an action (7, Hold without failsafe), losing the offboard signal and
    manual control gives no mode fallback if Position mode could run, although the mode in use,
    which needs the offboard signal, cannot. *)
Theorem offboard_loss_unanswered d fl m :
  (fromNavDllOrRclActParam d.(prm).(_param_nav_rcl_act)).(action) = Action_None -> d.(prm).(_param_com_obl_rc_act) = 0 ->
  fl.(flag_set) offboard_control_signal_lost = true -> fl.(flag_set) manual_control_signal_lost = true ->
  Z.land fl.(mode_req_offboard_signal) (u32 (Z.shiftl 1 m)) <> 0 -> modeCanRun fl NAVIGATION_STATE_POSCTL = true ->
  Failsafe_checkModeFallback d fl m = Action_None /\ modeCanRun fl m = false.
Proof.
  intros Hn Ho Hl Hm Hreq Hp. split.
  - unfold Failsafe_checkModeFallback. rewrite Hl, (proj2 (Z.eqb_neq _ 0)) by done. cbn [negb andb]. rewrite Ho. cbn.
    rewrite Hp, andb_false_r. change (FallbackPosCtrl ==a Disarm) with false. cbn iota.
    change (NAVIGATION_STATE_POSCTL =? NAVIGATION_STATE_ALTCTL) with false. cbn [andb]. rewrite Hm, Hp. exact Hn.
  - unfold modeCanRun. rewrite Hl, (proj2 (Z.eqb_neq (Z.land (mode_req_offboard_signal fl) _) 0)) by done. cbn [negb orb]. by rewrite andb_false_r.
Qed.
End failsafe.

(** ** Witnesses *)

(** The layout that the message generator gives [failsafe_flags_s]: the timestamp, the masks, then
    the bytes in the order of the message. *)
Definition flags_offset (f : flag) : Z :=
  64 + match f with
  | angular_velocity_invalid => 0 | attitude_invalid => 1 | local_altitude_invalid => 2 | local_position_invalid => 3
  | local_position_invalid_relaxed => 4 | local_velocity_invalid => 5 | global_position_invalid => 6
  | global_position_invalid_relaxed => 7 | auto_mission_missing => 8 | offboard_control_signal_lost => 9
  | home_position_invalid => 10 | manual_control_signal_lost => 11 | gcs_connection_lost => 12
  | battery_low_remaining_time => 14 | battery_unhealthy => 15
  | fd_critical_failure => 16 | fd_esc_arming_failure => 17 | fd_imbalanced_prop => 18 | fd_motor_failure => 19 | fd_alt_loss => 20
  | geofence_breached => 21 | mission_failure => 22 | vtol_fixed_wing_system_failure => 23 | wind_limit_exceeded => 24
  | flight_time_limit_exceeded => 25 | position_accuracy_low => 26 | navigator_failure => 27 | parachute_unhealthy => 28
  | traffic_avoidance_unhealthy => 29 | remote_id_unhealthy => 30 | gnss_lost => 31
  end.

Lemma flags_offset_inj f g : flags_offset f = flags_offset g -> f = g.
Proof. by destruct f, g. Qed.

Lemma flags_offset_range f : 0 <= flags_offset f < 96.
Proof. unfold flags_offset. destruct f; lia. Qed.

#[local] Instance sample_methods : FailsafeMethods Failsafe := Failsafe_methods flags_offset 96.
#[local] Instance sample_laws : FailsafeLaws Failsafe := Failsafe_laws flags_offset 96 flags_offset_inj flags_offset_range.

(** COM_FAIL_ACT_T is 5 s, links lost lead to RTL, so does the geofence; a mission is flown. *)
Definition five_seconds : Z := 0x40A00000.
Definition sample_params : FailsafeParams := mkParams 2 2 0 0 0 3 0x3f800000 0 0 3 0 0 0 1 1 0 0 0 0.
Definition flags_with (fs : list flag) : failsafe_flags :=
  mkFlags 0 0 0 0 0 0 0 0 (2 ^ 14) 0 0 0 0 0 0 (fun f => bool_decide (f ∈ fs)).
Definition in_mode (mode : Z) : State := mkState true mode 1 false false.

Notation sample_step := (step flags_offset 96).
Notation sample_reachable := (reachable flags_offset 96 five_seconds sample_params).

(** Armed for ten seconds, no failure. *)
Definition flying : FailsafeBase * Failsafe :=
  (update (update (initial five_seconds sample_params) 1000000 (in_mode 3) false false (flags_with [])).2
     11000000 (in_mode 3) false false (flags_with [])).2.

Lemma sample_update bd t st u rc fl : sample_reachable bd -> (0 <? t) && (t <? 2 ^ 64) && (bd.1.(_last_update) <=? t) = true ->
  sample_reachable (update bd t st u rc fl).2.
Proof.
  intros Hr Ht. bool_hyps. eapply rtc_r; [exact Hr|]. destruct bd as [b d]. by apply step_update.
Qed.

Lemma flying_reachable : sample_reachable flying.
Proof. apply sample_update; [apply sample_update; [apply rtc_refl|]|]; vm_compute; reflexivity. Qed.

Lemma failsafe_state_invariant_witness : state_ok flags_offset 96 five_seconds sample_params flying.
Proof. exact (failsafe_state_invariant flags_offset 96 flags_offset_inj flags_offset_range five_seconds sample_params flying flying_reachable). Defined.

(** The geofence is breached and the ground station is lost: Hold first, for five seconds. *)
Definition breach : failsafe_flags := flags_with [geofence_breached; gcs_connection_lost].
Definition breached : FailsafeBase * Failsafe := (update flying 12000000 (in_mode 3) false false breach).2.

Definition geofence_check : check :=
  mkCheck (flags_offset geofence_breached) false true (cannotBeDeferred (fromGfActParam 3)).




Lemma breached_reachable : sample_reachable breached.
Proof. apply sample_update; [apply flying_reachable|]. vm_compute. reflexivity. Qed.

(** One more second of the Hold, in which the flight time limit is exceeded, too. *)
Definition still_breached : FailsafeBase * Failsafe :=
  (update breached 13000000 (in_mode 3) false false (flags_with [geofence_breached; flight_time_limit_exceeded])).2.

Lemma delayed_hold_bounded_witness : delayed_run 1000000 breached 1000000 still_breached /\ (1000000 = 0 \/ 1000000 < seconds_us five_seconds + 1000000).
Proof.
  assert (delayed_run 1000000 breached 1000000 still_breached) as Hrun.
  { unfold still_breached. destruct breached as [b d] eqn:E. replace 1000000 with (0 + (13000000 - b.(_last_update))) at 2.
    - apply delayed_update; [apply delayed_start| |lia|]; vm_compute in E; injection E as <- <-; [cbn; lia|vm_compute; discriminate].
    - vm_compute in E. injection E as <- <-. reflexivity. }
  split; [exact Hrun|].
  refine (delayed_hold_bounded flags_offset 96 flags_offset_inj flags_offset_range five_seconds sample_params breached 1000000 1000000 still_breached
    breached_reachable _ _ _ Hrun); [vm_compute; reflexivity|vm_compute; reflexivity|lia].
Defined.

(** Failsafes are deferred for ten seconds; the ground station is lost. *)
Definition deferring : FailsafeBase * Failsafe :=
  (update ((deferFailsafes flying.1 true 10).2, flying.2) 12000000 (in_mode 3) false false (flags_with [gcs_connection_lost])).2.

Lemma deferring_reachable : sample_reachable deferring.
Proof.
  apply sample_update; [|vm_compute; reflexivity]. eapply rtc_r; [apply flying_reachable|]. destruct flying as [b d]. apply step_defer.
Qed.

Lemma deferral_bounded_witness :
  let '(_, _, (b', _)) := update deferring 20000000 (in_mode 3) false false (flags_with [gcs_connection_lost]) in
  failsafeDeferred b' = true /\ 20000000 - b'.(_failsafe_defer_started) <= 10000000.
Proof.
  pose proof (deferral_bounded flags_offset 96 flags_offset_inj flags_offset_range five_seconds sample_params deferring 20000000 (in_mode 3) false false
    (flags_with [gcs_connection_lost]) deferring_reachable) as Hx.
  assert (deferring.1.(_defer_timeout) = 10000000 /\ deferring.1.(_last_update) = 12000000) as [E1 E2] by (vm_compute; by split).
  rewrite E1, E2 in Hx. specialize (Hx ltac:(lia) ltac:(lia) ltac:(lia)).
  assert (failsafeDeferred (update deferring 20000000 (in_mode 3) false false (flags_with [gcs_connection_lost])).2.1 = true) as Hd by (vm_compute; reflexivity).
  destruct (update deferring 20000000 (in_mode 3) false false (flags_with [gcs_connection_lost])) as [[m notes] [b' d']].
  split; [exact Hd|exact (Hx Hd)].
Defined.

Definition terminated : FailsafeBase * Failsafe := (update flying 12000000 (in_mode 3) false true (flags_with [fd_critical_failure])).2.

Lemma terminate_is_final_witness :
  (update terminated 13000000 (mkState false 2 1 false false) true true (flags_with [])).2.1.(_selected_action) = Terminate.
Proof.
  apply (terminate_is_final flags_offset 96 flags_offset_inj flags_offset_range terminated); [vm_compute; reflexivity|].
  apply rtc_once. destruct terminated as [b d] eqn:E. apply step_update; [lia|]. vm_compute in E. injection E as <- <-. cbn. lia.
Defined.

(** NAV_RCL_ACT is 7. *)
Definition hold_no_failsafe : Failsafe := Failsafe_new (mkParams 2 7 0 0 0 3 0x3f800000 0 0 3 0 0 0 1 1 0 0 0 0).
Definition both_lost : failsafe_flags := flags_with [offboard_control_signal_lost; manual_control_signal_lost].

Lemma offboard_loss_unanswered_witness :
  Failsafe_checkModeFallback hold_no_failsafe both_lost NAVIGATION_STATE_OFFBOARD = Action_None /\
  modeCanRun both_lost NAVIGATION_STATE_OFFBOARD = false.
Proof.
  apply (offboard_loss_unanswered hold_no_failsafe both_lost NAVIGATION_STATE_OFFBOARD); vm_compute; first [reflexivity|discriminate].
Defined.
