(* ===== verification/Dataman.v ===== *)
(** * Dataman: the mission and geofence storage server

    [src/modules/dataman/dataman.{h,cpp}] stores items (way points, safe points,
    geofence vertices and their state records) in fixed slots of a RAM block or
    of a file, and serves the requests of its clients. This file holds the slot
    layout, the two backends behind the table of operations [dm_operations_t]
    (class [DmBackend]), the initialisation of the storage, the request handling
    of [task_main], and an abstract map of items which both backends refine. The
    file is read and written through system calls that may fail, transfer less
    than requested or stop at a power loss. *)
From stdpp Require Import base list gmap.
From Stdlib Require Import ZArith Lia.
From S2P Require Import Prelude.

(** ** Items and layout (dataman.h) *)
Definition DM_KEY_SAFE_POINTS_0 : Z := 0.
Definition DM_KEY_SAFE_POINTS_1 : Z := 1.
Definition DM_KEY_SAFE_POINTS_STATE : Z := 2.
Definition DM_KEY_FENCE_POINTS_0 : Z := 3.
Definition DM_KEY_FENCE_POINTS_1 : Z := 4.
Definition DM_KEY_FENCE_POINTS_STATE : Z := 5.
Definition DM_KEY_WAYPOINTS_OFFBOARD_0 : Z := 6.
Definition DM_KEY_WAYPOINTS_OFFBOARD_1 : Z := 7.
Definition DM_KEY_MISSION_STATE : Z := 8.
Definition DM_KEY_COMPAT : Z := 9.
Definition DM_KEY_NUM_KEYS : Z := 10.

Definition DM_GET_ID : Z := 0.
Definition DM_WRITE : Z := 1.
Definition DM_READ : Z := 2.
Definition DM_CLEAR : Z := 3.
Definition DM_NUMBER_OF_FUNCS : Z := 4.

Definition DM_KEY_SAFE_POINTS_MAX : Z := 32.
Definition DM_KEY_SAFE_POINTS_STATE_MAX : Z := 1.
Definition DM_KEY_FENCE_POINTS_MAX : Z := 64.
Definition DM_KEY_FENCE_POINTS_STATE_MAX : Z := 1.
Definition DM_KEY_MISSION_STATE_MAX : Z := 1.
Definition DM_KEY_COMPAT_MAX : Z := 1.

Definition DM_SECTOR_HDR_SIZE : Z := 4.
Definition E2BIG : Z := 7.

(** The sizes of the structs of navigation.h, which declare their padding. *)
Definition sizeof_mission_item_s : Z := 56.
Definition sizeof_mission_stats_entry_s : Z := 8.
Definition sizeof_mission_fence_point_s : Z := 32.
Definition sizeof_dataman_compat_s : Z := 8.
(** The size of [dataman_request_s::data] and [dataman_response_s::data]. *)
Definition sizeof_data : Z := 56.

Definition STATUS_SUCCESS : Z := 0.
Definition STATUS_FAILURE_ID_ERR : Z := 1.
Definition STATUS_FAILURE_NO_DATA : Z := 2.
Definition STATUS_FAILURE_READ_FAILED : Z := 3.
Definition STATUS_FAILURE_WRITE_FAILED : Z := 4.
Definition STATUS_FAILURE_CLEAR_FAILED : Z := 5.

Definition zeros (n : Z) : list Z := replicate (Z.to_nat n) 0.

(** ** The file and its system calls

    What the next system calls do: [Fine] is also what happens when the list is
    exhausted, [Short n] transfers [n] bytes at most, [Off] is a power loss, from
    which on every call fails. *)
Inductive io := Fine | Failed | Short (n : Z) | Off.

(** The file on the medium ([df_exists] and its bytes), the descriptor ([df_open]
    and its position), and the flags of [dm_operations_data]. *)
Record dm_file := mkDmFile {
  df_exists : bool;
  df_data : list Z;
  df_pos : Z;
  df_io : list io;
  df_open : bool;
  df_running : bool;
  df_silence : bool;
}.

Definition df_set (f : dm_file) (data : list Z) (pos : Z) : dm_file :=
  mkDmFile f.(df_exists) data pos f.(df_io) f.(df_open) f.(df_running) f.(df_silence).
Definition df_set_io (f : dm_file) (l : list io) : dm_file :=
  mkDmFile f.(df_exists) f.(df_data) f.(df_pos) l f.(df_open) f.(df_running) f.(df_silence).
Definition df_set_silence (f : dm_file) (b : bool) : dm_file :=
  mkDmFile f.(df_exists) f.(df_data) f.(df_pos) f.(df_io) f.(df_open) f.(df_running) b.
Definition df_set_running (f : dm_file) (b : bool) : dm_file :=
  mkDmFile f.(df_exists) f.(df_data) f.(df_pos) f.(df_io) f.(df_open) b f.(df_silence).
Definition df_set_open (f : dm_file) (ex b : bool) : dm_file :=
  mkDmFile ex f.(df_data) f.(df_pos) f.(df_io) b f.(df_running) f.(df_silence).

(** The outcome of the next call on the descriptor; it fails when closed. *)
Definition next_io (f : dm_file) : io * dm_file :=
  match f.(df_io) with
  | [] => (if f.(df_open) then Fine else Failed, f)
  | Off :: _ => (Off, f)
  | x :: r => (if f.(df_open) then x else Failed, df_set_io f r)
  end.

(** The file after [src] is written at [pos]: a gap after the end is zero-filled. *)
Definition file_put (pos : Z) (src data : list Z) : list Z :=
  splice pos src (data ++ zeros (pos + zlen src - zlen data)).

Definition sys_lseek (f : dm_file) (off : Z) : Z * dm_file :=
  match next_io f with
  | (Fine, f') => (off, df_set f' f'.(df_data) off)
  | (_, f') => (-1, f')
  end.

Definition sys_write (f : dm_file) (src : list Z) : Z * dm_file :=
  match next_io f with
  | (Fine, f') => (zlen src, df_set f' (file_put f'.(df_pos) src f'.(df_data)) (f'.(df_pos) + zlen src))
  | (Short n, f') =>
      let part := take (Z.to_nat n) src in
      (zlen part, df_set f' (if zlen part =? 0 then f'.(df_data) else file_put f'.(df_pos) part f'.(df_data))
                         (f'.(df_pos) + zlen part))
  | (_, f') => (-1, f')
  end.

(** The number of bytes read (-1 on an error) and the bytes. *)
Definition sys_read (f : dm_file) (n : Z) : Z * list Z * dm_file :=
  let got k f' :=
    let bytes := slice f'.(df_pos) (Z.min k n) f'.(df_data) in
    (zlen bytes, bytes, df_set f' f'.(df_data) (f'.(df_pos) + zlen bytes)) in
  match next_io f with
  | (Fine, f') => got n f'
  | (Short k, f') => got k f'
  | (_, f') => (-1, [], f')
  end.

(** ** The table of backend operations, [dm_operations_t]

    [None] is undefined behaviour. [read] returns the result and the caller's
    buffer; [initialize] returns non-zero when the backend cannot start. *)
Class DmBackend (B : Type) := {
  dm_write : Z -> Z -> list Z -> Z -> B -> option (Z * B);
  dm_read : Z -> Z -> list Z -> Z -> B -> option (Z * list Z * B);
  dm_clear : Z -> B -> option (Z * B);
  dm_initialize : Z -> B -> option (Z * B);
  dm_shutdown : B -> B;
}.

Section dataman.
(** [sizeof(mission_s)] comes from a generated header, the number of mission
    items from the board configuration; [uninit i] is byte [i] of an
    uninitialised stack buffer; [malloc_ok] says whether the heap has the room
    the RAM backend asks for. *)
Context (sizeof_mission_s NUM_MISSION_ITEMS : Z) (uninit : nat -> Z) (malloc_ok : bool).
(** The bytes of the [mission_s] and [mission_stats_entry_s] written to a new
    file: their layout is the compiler's, and the first carries the time. *)
Context (default_mission default_stats : list Z).

Definition g_per_item_max_index : list Z :=
  [DM_KEY_SAFE_POINTS_MAX; DM_KEY_SAFE_POINTS_MAX; DM_KEY_SAFE_POINTS_STATE_MAX;
   DM_KEY_FENCE_POINTS_MAX; DM_KEY_FENCE_POINTS_MAX; DM_KEY_FENCE_POINTS_STATE_MAX;
   NUM_MISSION_ITEMS; NUM_MISSION_ITEMS; DM_KEY_MISSION_STATE_MAX; DM_KEY_COMPAT_MAX].

Definition g_per_item_size : list Z :=
  [sizeof_mission_item_s; sizeof_mission_item_s; sizeof_mission_stats_entry_s;
   sizeof_mission_fence_point_s; sizeof_mission_fence_point_s; sizeof_mission_stats_entry_s;
   sizeof_mission_item_s; sizeof_mission_item_s; sizeof_mission_s; sizeof_dataman_compat_s].

Definition g_per_item_size_with_hdr : list Z := map (fun n => n + DM_SECTOR_HDR_SIZE) g_per_item_size.

(** Indexing these tables with [item < DM_KEY_NUM_KEYS]. *)
Definition at_item (table : list Z) (item : Z) : Z := nth (Z.to_nat item) table 0.

Definition DM_COMPAT_KEY : Z :=
  u64 (Z.shiftl 5 32 + Z.shiftl sizeof_mission_item_s 24 + Z.shiftl sizeof_mission_s 16
       + Z.shiftl sizeof_mission_stats_entry_s 12 + Z.shiftl sizeof_mission_fence_point_s 8
       + Z.shiftl sizeof_mission_item_s 4 + sizeof_dataman_compat_s).

(** The loop of [task_main] that fills [g_key_offsets]: the offsets from [acc] on. *)
Fixpoint key_offsets (acc : Z) (maxs sizes : list Z) : list Z :=
  match maxs, sizes with
  | m :: ms, s :: ss => acc :: key_offsets (u32 (acc + m * s)) ms ss
  | _, _ => []
  end.

Definition g_key_offsets : list Z := key_offsets 0 g_per_item_max_index g_per_item_size_with_hdr.

Definition max_offset : Z :=
  u32 (at_item g_key_offsets (DM_KEY_NUM_KEYS - 1)
       + at_item g_per_item_max_index (DM_KEY_NUM_KEYS - 1) * at_item g_per_item_size_with_hdr (DM_KEY_NUM_KEYS - 1)).

Definition calculate_offset (item index : Z) : Z :=
  if DM_KEY_NUM_KEYS <=? item then -1
  else if at_item g_per_item_max_index item <=? index then -1
  else s32 (at_item g_key_offsets item + index * at_item g_per_item_size_with_hdr item).

(** ** The RAM backend *)
Record dm_ram := mkDmRam {
  ram_data : option (list Z);
  ram_data_end : Z;
  ram_running : bool;
}.

Definition _ram_write (item index : Z) (buf : list Z) (count : Z) (r : dm_ram) : option (Z * dm_ram) :=
  if DM_KEY_NUM_KEYS <=? item then Some (-1, r)
  else
    let offset := calculate_offset item index in
    if offset <? 0 then Some (-1, r)
    else if at_item g_per_item_size_with_hdr item - DM_SECTOR_HDR_SIZE <? count then Some (- E2BIG, r)
    else if r.(ram_data_end) <? offset then Some (-1, r)
    else
      data ← r.(ram_data);
      data1 ← mem_write data offset [u8 count; 0; 0; 0];
      data2 ← (if 0 <? count
               then src ← mem_read buf 0 count; mem_write data1 (offset + DM_SECTOR_HDR_SIZE) src
               else Some data1);
      Some (count, mkDmRam (Some data2) r.(ram_data_end) r.(ram_running)).

Definition _ram_read (item index : Z) (buf : list Z) (count : Z) (r : dm_ram) : option (Z * list Z * dm_ram) :=
  if DM_KEY_NUM_KEYS <=? item then Some (-1, buf, r)
  else
    let offset := calculate_offset item index in
    if offset <? 0 then Some (-1, buf, r)
    else if at_item g_per_item_size_with_hdr item - DM_SECTOR_HDR_SIZE <? count then Some (- E2BIG, buf, r)
    else if r.(ram_data_end) <? offset then Some (-1, buf, r)
    else
      data ← r.(ram_data);
      len ← zlookup data offset;
      if 0 <? len then
        if count <? len then Some (-1, buf, r)
        else
          src ← mem_read data (offset + DM_SECTOR_HDR_SIZE) len;
          buf' ← mem_write buf 0 src;
          Some (len, buf', r)
      else Some (len, buf, r).

(** The loop of [_ram_clear]: [n] items left, the next at [offset]. *)
Fixpoint ram_clear_loop (n : nat) (item offset : Z) (r : dm_ram) : option (Z * dm_ram) :=
  match n with
  | O => Some (0, r)
  | S n =>
      if r.(ram_data_end) <? offset then Some (-1, r)
      else
        data ← r.(ram_data);
        data' ← zstore data offset 0;
        ram_clear_loop n item (s32 (offset + at_item g_per_item_size_with_hdr item))
          (mkDmRam (Some data') r.(ram_data_end) r.(ram_running))
  end.

Definition _ram_clear (item : Z) (r : dm_ram) : option (Z * dm_ram) :=
  if DM_KEY_NUM_KEYS <=? item then Some (-1, r)
  else
    let offset := calculate_offset item 0 in
    if offset <? 0 then Some (-1, r)
    else ram_clear_loop (Z.to_nat (at_item g_per_item_max_index item)) item offset r.

Definition _ram_initialize (max : Z) (r : dm_ram) : option (Z * dm_ram) :=
  if negb malloc_ok then Some (-1, mkDmRam None r.(ram_data_end) r.(ram_running))
  else Some (0, mkDmRam (Some (zeros max)) (max - 1) true).

Definition _ram_shutdown (r : dm_ram) : dm_ram := mkDmRam None r.(ram_data_end) false.

Instance dm_ram_operations : DmBackend dm_ram := {|
  dm_write := _ram_write;
  dm_read := _ram_read;
  dm_clear := _ram_clear;
  dm_initialize := _ram_initialize;
  dm_shutdown := _ram_shutdown;
|}.

(** ** The file backend *)

(** The two attempts of [_file_write]. *)
Fixpoint file_write_loop (n : nat) (offset : Z) (bytes : list Z) (f : dm_file) : bool * dm_file :=
  match n with
  | O => (false, f)
  | S n =>
      let '(ret_seek, f1) := sys_lseek f offset in
      if ret_seek <? 0 then file_write_loop n offset bytes f1
      else if negb (ret_seek =? offset) then file_write_loop n offset bytes f1
      else
        let '(ret_write, f2) := sys_write f1 bytes in
        if ret_write <? 0 then file_write_loop n offset bytes f2
        else if negb (ret_write =? zlen bytes) then file_write_loop n offset bytes f2
        else (true, f2)
  end.

(** The buffer is the item's size with its header; only the first [count + 4]
    bytes, all initialised, are written. *)
Definition _file_write (item index : Z) (buf : list Z) (count : Z) (f : dm_file) : option (Z * dm_file) :=
  if DM_KEY_NUM_KEYS <=? item then Some (-1, f)
  else
    let offset := calculate_offset item index in
    if offset <? 0 then Some (-1, f)
    else if at_item g_per_item_size_with_hdr item - DM_SECTOR_HDR_SIZE <? count then Some (- E2BIG, f)
    else
      src ← mem_read buf 0 count;
      let '(write_success, f') := file_write_loop 2 offset ([u8 count; 0; 0; 0] ++ src) f in
      if negb write_success then Some (-1, f')
      else Some (count, f').

(** The two attempts of [_file_read]: the length read and the bytes; [None] when
    neither succeeds. *)
Fixpoint file_read_loop (n : nat) (offset count : Z) (f : dm_file) : option (Z * list Z) * dm_file :=
  match n with
  | O => (None, f)
  | S n =>
      let '(ret_seek, f1) := sys_lseek f offset in
      if (ret_seek <? 0) && negb f1.(df_silence) then file_read_loop n offset count f1
      else if negb (ret_seek =? offset) && negb f1.(df_silence) then file_read_loop n offset count f1
      else
        let '(len, bytes, f2) := sys_read f1 (count + DM_SECTOR_HDR_SIZE) in
        if 0 <=? len then (Some (len, bytes), f2) else file_read_loop n offset count f2
  end.

Definition _file_read (item index : Z) (buf : list Z) (count : Z) (f : dm_file) : option (Z * list Z * dm_file) :=
  if DM_KEY_NUM_KEYS <=? item then Some (-1, buf, f)
  else
    let buffer := map uninit (seq 0 (Z.to_nat (at_item g_per_item_size_with_hdr item))) in
    let offset := calculate_offset item index in
    if offset <? 0 then Some (-1, buf, f)
    else if at_item g_per_item_size_with_hdr item - DM_SECTOR_HDR_SIZE <? count then Some (- E2BIG, buf, f)
    else
      match file_read_loop 2 offset count f with
      | (None, f') => Some (-1, buf, f')
      | (Some (len, bytes), f') =>
          buffer1 ← mem_write buffer 0 bytes;
          buffer2 ← (if len =? 0 then zstore buffer1 0 0 else Some buffer1);
          b0 ← zlookup buffer2 0;
          if 0 <? b0 then
            if count <? b0 then Some (-1, buf, f')
            else
              src ← mem_read buffer2 DM_SECTOR_HDR_SIZE b0;
              buf' ← mem_write buf 0 src;
              Some (b0, buf', f')
          else
            buf' ← mem_write buf 0 (zeros count);
            Some (b0, buf', f')
      end.

Fixpoint file_clear_loop (n : nat) (item offset : Z) (f : dm_file) : Z * dm_file :=
  match n with
  | O => (0, f)
  | S n =>
      let '(ret, f1) := sys_lseek f offset in
      if negb (ret =? offset) then (-1, f1)
      else
        let '(len, bytes, f2) := sys_read f1 1 in
        if len <? 1 then (0, f2)
        else
          let next f' := file_clear_loop n item (s32 (offset + at_item g_per_item_size_with_hdr item)) f' in
          if negb (default 0 (zlookup bytes 0) =? 0) then
            let '(ret, f3) := sys_lseek f2 offset in
            if negb (ret =? offset) then (-1, f3)
            else
              let '(w, f4) := sys_write f3 [0] in
              if negb (w =? 1) then (-1, f4) else next f4
          else next f2
  end.

Definition _file_clear (item : Z) (f : dm_file) : option (Z * dm_file) :=
  if DM_KEY_NUM_KEYS <=? item then Some (-1, f)
  else
    let offset := calculate_offset item 0 in
    if offset <? 0 then Some (-1, f)
    else Some (file_clear_loop (Z.to_nat (at_item g_per_item_max_index item)) item offset f).

(** [open(..., O_RDWR | O_CREAT)]: the descriptor is valid unless the call fails. *)
Definition sys_open (f : dm_file) : bool * dm_file :=
  match f.(df_io) with
  | Off :: _ => (false, f)
  | Failed :: r => (false, df_set_io f r)
  | _ :: r => (true, df_set (df_set_open (df_set_io f r) true true) f.(df_data) 0)
  | [] => (true, df_set (df_set_open f true true) f.(df_data) 0)
  end.

Definition sys_close (f : dm_file) : dm_file := df_set_open f f.(df_exists) false.

(** The loop over the items to clear, [n] of them from [item] on. *)
Fixpoint clear_items (n : nat) (item : Z) (f : dm_file) : option dm_file :=
  match n with
  | O => Some f
  | S n => '(_, f') ← _file_clear item f; clear_items n (item + 1) f'
  end.

(** The new content of a file that does not exist or has another format. *)
Definition file_format (f : dm_file) : option dm_file :=
  '(_, f1) ← _file_write DM_KEY_COMPAT 0 (le_bytes 8 DM_COMPAT_KEY) sizeof_dataman_compat_s f;
  f2 ← clear_items (Z.to_nat (DM_KEY_MISSION_STATE - DM_KEY_SAFE_POINTS_0 + 1)) DM_KEY_SAFE_POINTS_0 f1;
  '(_, f3) ← _file_write DM_KEY_MISSION_STATE 0 default_mission sizeof_mission_s f2;
  '(_, f4) ← _file_write DM_KEY_FENCE_POINTS_STATE 0 default_stats sizeof_mission_stats_entry_s f3;
  '(_, f5) ← _file_write DM_KEY_SAFE_POINTS_STATE 0 default_stats sizeof_mission_stats_entry_s f4;
  Some f5.

Definition _file_initialize (max : Z) (f : dm_file) : option (Z * dm_file) :=
  let file_existed := f.(df_exists) in
  let '(opened, f1) := sys_open f in
  if negb opened then Some (-1, f1)
  else
    let '(ret, f2) := sys_lseek f1 max in
    if negb (u32 ret =? max) then Some (-1, sys_close f2)
    else
      '(_, compat_state, f3) ← _file_read DM_KEY_COMPAT 0 (zeros sizeof_dataman_compat_s)
                                 sizeof_dataman_compat_s (df_set_silence f2 true);
      let f4 := df_set_silence f3 false in
      f5 ← (if negb file_existed || negb (le_value compat_state =? DM_COMPAT_KEY)
            then file_format f4 else Some f4);
      Some (0, df_set_running f5 true).

Definition _file_shutdown (f : dm_file) : dm_file := df_set_running (sys_close f) false.

Instance dm_file_operations : DmBackend dm_file := {|
  dm_write := _file_write;
  dm_read := _file_read;
  dm_clear := _file_clear;
  dm_initialize := _file_initialize;
  dm_shutdown := _file_shutdown;
|}.

(** ** The server task *)
Record dataman_request_s := mkRequest {
  rq_timestamp : Z;
  rq_client_id : Z;
  rq_request_type : Z;
  rq_item : Z;
  rq_index : Z;
  rq_data : list Z;
  rq_data_length : Z;
}.

Record dataman_response_s := mkResponse {
  rs_client_id : Z;
  rs_request_type : Z;
  rs_item : Z;
  rs_index : Z;
  rs_data : list Z;
  rs_status : Z;
}.

Record dataman (B : Type) := mkDataman {
  g_dm_ops : B;
  dataman_clients_count : Z;
  g_func_counts : list Z;
}.
Arguments mkDataman {B}.
Arguments g_dm_ops {B}.
Arguments dataman_clients_count {B}.
Arguments g_func_counts {B}.

Section server.
Context {B : Type} `{DmBackend B}.

Definition count_call (func : Z) (counts : list Z) : list Z :=
  alter (fun n => u32 (n + 1)) (Z.to_nat func) counts.

(** One pass of the loop of [task_main] with a request. *)
Definition handle_request (request : dataman_request_s) (d : dataman B)
    : option (dataman_response_s * dataman B) :=
  let response client data status :=
    mkResponse client request.(rq_request_type) request.(rq_item) request.(rq_index) data status in
  let failed := response request.(rq_client_id) (zeros sizeof_data) in
  let counts := count_call request.(rq_request_type) d.(g_func_counts) in
  if request.(rq_request_type) =? DM_GET_ID then
    if d.(dataman_clients_count) <? 255 then
      data ← mem_write (zeros sizeof_data) 0 (le_bytes 8 request.(rq_timestamp));
      Some (response d.(dataman_clients_count) data STATUS_FAILURE_NO_DATA,
            mkDataman d.(g_dm_ops) (u8 (d.(dataman_clients_count) + 1)) d.(g_func_counts))
    else Some (failed STATUS_FAILURE_NO_DATA, d)
  else if request.(rq_request_type) =? DM_WRITE then
    '(result, b) ← dm_write request.(rq_item) request.(rq_index) request.(rq_data) request.(rq_data_length) d.(g_dm_ops);
    Some (failed (if 0 <? result then STATUS_SUCCESS else STATUS_FAILURE_WRITE_FAILED),
          mkDataman b d.(dataman_clients_count) counts)
  else if request.(rq_request_type) =? DM_READ then
    '(result, data, b) ← dm_read request.(rq_item) request.(rq_index) (zeros sizeof_data) request.(rq_data_length)
                           d.(g_dm_ops);
    Some (response request.(rq_client_id) data (if 0 <=? result then STATUS_SUCCESS else STATUS_FAILURE_READ_FAILED),
          mkDataman b d.(dataman_clients_count) counts)
  else if request.(rq_request_type) =? DM_CLEAR then
    '(result, b) ← dm_clear request.(rq_item) d.(g_dm_ops);
    Some (failed (if result =? 0 then STATUS_SUCCESS else STATUS_FAILURE_CLEAR_FAILED),
          mkDataman b d.(dataman_clients_count) counts)
  else Some (failed STATUS_FAILURE_NO_DATA, d).

(** The start of [task_main]: the initialised server, or the result of a backend
    that does not start. [clients] keeps its value over a restart. *)
Definition task_start (clients : Z) (b : B) : option (Z + dataman B) :=
  '(ret, b') ← dm_initialize max_offset b;
  Some (if negb (ret =? 0) then inl ret else inr (mkDataman b' clients (zeros DM_NUMBER_OF_FUNCS))).

Fixpoint serve (requests : list dataman_request_s) (d : dataman B)
    : option (list dataman_response_s * dataman B) :=
  match requests with
  | [] => Some ([], d)
  | rq :: rest =>
      '(rs, d1) ← handle_request rq d;
      '(rss, d2) ← serve rest d1;
      Some (rs :: rss, d2)
  end.
End server.

(** ** The abstract store

    What the server promises: a map from item and index to the bytes last
    written, where an item without bytes is empty. *)
Notation store := (gmap (Z * Z) (list Z)).
Definition contents (st : store) (item index : Z) : list Z := default [] (st !! (item, index)).

Definition slot_size (item : Z) : Z := at_item g_per_item_size item.
Definition dm_valid (item index : Z) : bool :=
  (item <? DM_KEY_NUM_KEYS) && (index <? at_item g_per_item_max_index item).

Definition spec_write (item index : Z) (buf : list Z) (count : Z) (st : store) : Z * store :=
  if negb (dm_valid item index) then (-1, st)
  else if slot_size item <? count then (- E2BIG, st)
  else (count, <[(item, index) := take (Z.to_nat count) buf]> st).

(** Reading into a zeroed buffer of [n] bytes. *)
Definition spec_read (item index n count : Z) (st : store) : Z * list Z :=
  let v := contents st item index in
  if negb (dm_valid item index) then (-1, zeros n)
  else if slot_size item <? count then (- E2BIG, zeros n)
  else if count <? zlen v then (-1, zeros n)
  else (zlen v, v ++ zeros (n - zlen v)).

Definition spec_clear (item : Z) (st : store) : Z * store :=
  if negb (dm_valid item 0) then (-1, st)
  else (0, filter (fun kv => kv.1.1 <> item) st).

(** The server over the abstract store and the number of the next client. *)
Definition spec_request (request : dataman_request_s) (st : store * Z) : dataman_response_s * (store * Z) :=
  let '(m, clients) := st in
  let response client data status :=
    mkResponse client request.(rq_request_type) request.(rq_item) request.(rq_index) data status in
  let '(item, index, client) := (request.(rq_item), request.(rq_index), request.(rq_client_id)) in
  if request.(rq_request_type) =? DM_GET_ID then
    if clients <? 255
    then (response clients (le_bytes 8 request.(rq_timestamp) ++ zeros (sizeof_data - 8)) STATUS_FAILURE_NO_DATA,
          (m, clients + 1))
    else (response client (zeros sizeof_data) STATUS_FAILURE_NO_DATA, st)
  else if request.(rq_request_type) =? DM_WRITE then
    let '(result, m') := spec_write item index request.(rq_data) request.(rq_data_length) m in
    (response client (zeros sizeof_data) (if 0 <? result then STATUS_SUCCESS else STATUS_FAILURE_WRITE_FAILED),
     (m', clients))
  else if request.(rq_request_type) =? DM_READ then
    let '(result, data) := spec_read item index sizeof_data request.(rq_data_length) m in
    (response client data (if 0 <=? result then STATUS_SUCCESS else STATUS_FAILURE_READ_FAILED), (m, clients))
  else if request.(rq_request_type) =? DM_CLEAR then
    let '(result, m') := spec_clear item m in
    (response client (zeros sizeof_data) (if result =? 0 then STATUS_SUCCESS else STATUS_FAILURE_CLEAR_FAILED),
     (m', clients))
  else (response client (zeros sizeof_data) STATUS_FAILURE_NO_DATA, st).

Fixpoint spec_serve (requests : list dataman_request_s) (st : store * Z) : list dataman_response_s * (store * Z) :=
  match requests with
  | [] => ([], st)
  | rq :: rest =>
      let '(rs, st1) := spec_request rq st in
      let '(rss, st2) := spec_serve rest st1 in
      (rs :: rss, st2)
  end.

(** A request as a client sends it: the fields of the message in their ranges. *)
Definition request_ok (rq : dataman_request_s) : Prop :=
  0 <= rq.(rq_item) < 256 /\ 0 <= rq.(rq_index) < 2 ^ 32 /\ 0 <= rq.(rq_data_length) < 2 ^ 32 /\
  zlen rq.(rq_data) = sizeof_data /\ 0 <= rq.(rq_request_type).

(** ** The layout: slots lie in the storage and do not overlap *)
Context (mission_fits : 0 < sizeof_mission_s <= sizeof_data).
Context (items_fit : 0 < NUM_MISSION_ITEMS <= 10000000).

Notation max_index item := (at_item g_per_item_max_index item).
Notation size_hdr item := (at_item g_per_item_size_with_hdr item).
Definition slot_offset (item index : Z) : Z := at_item g_key_offsets item + index * size_hdr item.

Ltac dm_consts :=
  unfold DM_SECTOR_HDR_SIZE, sizeof_mission_item_s, sizeof_mission_stats_entry_s, sizeof_mission_fence_point_s,
    sizeof_dataman_compat_s, sizeof_data, DM_KEY_SAFE_POINTS_MAX, DM_KEY_SAFE_POINTS_STATE_MAX,
    DM_KEY_FENCE_POINTS_MAX, DM_KEY_FENCE_POINTS_STATE_MAX, DM_KEY_MISSION_STATE_MAX, DM_KEY_COMPAT_MAX in *.

Ltac tables :=
  unfold slot_size, at_item;
  repeat match goal with
         | |- context [Z.to_nat ?k] => let n := eval vm_compute in (Z.to_nat k) in change (Z.to_nat k) with n
         end;
  cbn [nth map g_per_item_max_index g_per_item_size g_per_item_size_with_hdr]; dm_consts.

Ltac item_cases i :=
  let H := fresh in
  assert (H : i = 0 \/ i = 1 \/ i = 2 \/ i = 3 \/ i = 4 \/ i = 5 \/ i = 6 \/ i = 7 \/ i = 8 \/ i = 9)
    by (unfold DM_KEY_NUM_KEYS in *; lia);
  repeat destruct H as [H | H]; subst i.

Lemma key_offsets_exact :
  g_key_offsets = [0; 1920; 3840; 3852; 6156; 8460; 8472; 8472 + NUM_MISSION_ITEMS * 60;
                   8472 + NUM_MISSION_ITEMS * 120; 8472 + NUM_MISSION_ITEMS * 120 + (sizeof_mission_s + 4)].
Proof.
  unfold g_key_offsets, g_per_item_max_index, g_per_item_size_with_hdr, g_per_item_size.
  cbn [map key_offsets]. dm_consts.
  repeat match goal with
         | |- context [uwrap 32 ?x] =>
             lazymatch x with context [uwrap] => fail | _ => rewrite (uwrap_small 32 x) by lia end
         end.
  repeat (apply (f_equal2 cons); [lia|]). done.
Qed.

Lemma max_offset_exact : max_offset = 8472 + NUM_MISSION_ITEMS * 120 + (sizeof_mission_s + 4) + 12.
Proof.
  unfold max_offset. change (DM_KEY_NUM_KEYS - 1) with 9. rewrite key_offsets_exact. tables.
  rewrite uwrap_small; lia.
Qed.

Lemma size_hdr_slot item : 0 <= item < DM_KEY_NUM_KEYS -> size_hdr item = slot_size item + DM_SECTOR_HDR_SIZE.
Proof. intros. item_cases item; done. Qed.

Lemma slot_size_range item : 0 <= item < DM_KEY_NUM_KEYS -> 0 < slot_size item <= sizeof_data.
Proof. intros. item_cases item; tables; lia. Qed.

Lemma max_index_range item : 0 <= item < DM_KEY_NUM_KEYS -> 0 < max_index item <= 10000000.
Proof. intros. item_cases item; tables; lia. Qed.

Ltac item_facts Hi :=
  pose proof (slot_size_range _ Hi); pose proof (size_hdr_slot _ Hi); unfold DM_SECTOR_HDR_SIZE in *.

(** The slots of an item end where the next item's begin. *)
Lemma item_before item item' :
  0 <= item -> item < item' < DM_KEY_NUM_KEYS ->
  slot_offset item (max_index item) <= slot_offset item' 0.
Proof.
  intros. unfold slot_offset. rewrite key_offsets_exact.
  item_cases item'; item_cases item; try lia; tables; lia.
Qed.

Lemma item_end item :
  0 <= item < DM_KEY_NUM_KEYS -> 0 <= slot_offset item 0 /\ slot_offset item (max_index item) <= max_offset.
Proof.
  intros. unfold slot_offset. rewrite key_offsets_exact, max_offset_exact. item_cases item; tables; lia.
Qed.

Lemma slot_in_item item index :
  0 <= item < DM_KEY_NUM_KEYS -> 0 <= index < max_index item ->
  slot_offset item 0 <= slot_offset item index /\
  slot_offset item index + size_hdr item <= slot_offset item (max_index item).
Proof.
  intros Hi ?. pose proof (slot_size_range item Hi). pose proof (size_hdr_slot item Hi) as Hs.
  unfold slot_offset, DM_SECTOR_HDR_SIZE in *. nia.
Qed.

Definition slot_ok (item index : Z) : Prop :=
  0 <= item < DM_KEY_NUM_KEYS /\ 0 <= index < max_index item.

Lemma slot_range item index :
  slot_ok item index -> 0 <= slot_offset item index /\ slot_offset item index + size_hdr item <= max_offset.
Proof.
  intros [Hi Hx]. pose proof (slot_in_item item index Hi Hx). pose proof (item_end item Hi). lia.
Qed.

Lemma slots_disjoint i k i' k' :
  slot_ok i k -> slot_ok i' k' -> (i, k) <> (i', k') ->
  slot_offset i k + size_hdr i <= slot_offset i' k' \/ slot_offset i' k' + size_hdr i' <= slot_offset i k.
Proof.
  intros [Hi Hk] [Hi' Hk'] Hne.
  pose proof (slot_in_item i k Hi Hk). pose proof (slot_in_item i' k' Hi' Hk').
  destruct (Z.lt_trichotomy i i') as [Hlt | [-> | Hlt]].
  - pose proof (item_before i i'). lia.
  - pose proof (slot_size_range i' Hi'). pose proof (size_hdr_slot i' Hi').
    assert (k <> k') by (intros ->; done). unfold slot_offset, DM_SECTOR_HDR_SIZE in *.
    destruct (Z.lt_trichotomy k k') as [? | [? | ?]]; [left | lia | right]; nia.
  - pose proof (item_before i' i). lia.
Qed.

Lemma max_offset_range : 0 < max_offset < 2 ^ 31.
Proof. rewrite max_offset_exact. unfold sizeof_data in *. lia. Qed.

Lemma calculate_offset_ok item index :
  slot_ok item index -> calculate_offset item index = slot_offset item index.
Proof.
  intros Hs. pose proof (slot_range _ _ Hs). pose proof max_offset_range. destruct Hs as [? ?].
  pose proof (slot_size_range item). pose proof (size_hdr_slot item). unfold DM_SECTOR_HDR_SIZE in *.
  unfold calculate_offset. decide_if. decide_if. fold (slot_offset item index).
  apply swrap_small; lia.
Qed.

Lemma dm_valid_ok item index : 0 <= item -> 0 <= index -> dm_valid item index = true <-> slot_ok item index.
Proof.
  intros. unfold dm_valid, slot_ok. rewrite andb_true_iff, !Z.ltb_lt. lia.
Qed.

Lemma slot_ok_valid item index : slot_ok item index -> dm_valid item index = true.
Proof. intros Hs. pose proof Hs as [? ?]. apply dm_valid_ok; [lia..|done]. Qed.

Lemma calculate_offset_invalid item index :
  0 <= item -> 0 <= index -> dm_valid item index = false -> calculate_offset item index = -1.
Proof.
  intros ? ? Hv. unfold calculate_offset. case_if; [done|]. case_if; [done|].
  exfalso. unfold dm_valid in Hv. apply andb_false_iff in Hv. rewrite !Z.ltb_ge in Hv. lia.
Qed.

(** ** What a slot of the storage holds *)

(** The slot at [off] holds [v]: the length byte and the bytes, or, for an empty
    item, a zero length byte or the end of the file. *)
Definition slot_holds (data : list Z) (off : Z) (v : list Z) : Prop :=
  match v with
  | [] => zlookup data off = None \/ zlookup data off = Some 0
  | _ => zlookup data off = Some (zlen v) /\
         forall k, 0 <= k < zlen v -> zlookup data (off + DM_SECTOR_HDR_SIZE + k) = zlookup v k
  end.

(** Outside [lo, hi) the file is the same, up to zeros that fill a gap. *)
Definition same_outside (lo hi : Z) (data data' : list Z) : Prop :=
  forall i, ~ (lo <= i < hi) ->
    zlookup data' i = zlookup data i \/ (zlookup data i = None /\ zlookup data' i = Some 0).

#[local] Instance same_outside_preorder lo hi : PreOrder (same_outside lo hi).
Proof.
  split.
  - intros d i _. by left.
  - intros d1 d2 d3 H12 H23 i Hi. destruct (H12 i Hi) as [H1 | [H1 H1']], (H23 i Hi) as [H2 | [H2 H2']].
    + left. congruence.
    + right. split; congruence.
    + right. split; congruence.
    + congruence.
Qed.

Lemma same_outside_weaken lo hi lo' hi' d d' :
  lo' <= lo -> hi <= hi' -> same_outside lo hi d d' -> same_outside lo' hi' d d'.
Proof. intros ? ? H i ?. apply H. lia. Qed.

Lemma slot_frame lo hi data data' off v :
  same_outside lo hi data data' -> hi <= off \/ off + DM_SECTOR_HDR_SIZE + zlen v <= lo ->
  slot_holds data off v -> slot_holds data' off v.
Proof.
  unfold DM_SECTOR_HDR_SIZE. intros Hs Hout Hv. pose proof (zlen_nonneg v) as Hn.
  assert (Hc : forall i, off <= i < off + 4 + zlen v -> ~ (lo <= i < hi)) by lia.
  destruct v as [|b v].
  - destruct (Hs off) as [He | [_ He]]; [apply Hc; lia | unfold slot_holds in *; congruence | by right].
  - destruct Hv as [Hl Hb]. split.
    + destruct (Hs off) as [He | [He _]]; [apply Hc; lia | congruence | congruence].
    + intros k Hk. rewrite <- (Hb k Hk). destruct (zlookup_lt (b :: v) k Hk) as [x Hx].
      specialize (Hb k Hk). unfold DM_SECTOR_HDR_SIZE in *.
      destruct (Hs (off + 4 + k)) as [He | [He _]]; [apply Hc; lia | done | congruence].
Qed.

Lemma zlen_zeros n : zlen (zeros n) = Z.max 0 n.
Proof. unfold zlen, zeros. rewrite length_replicate. lia. Qed.

Lemma zlookup_zeros n i : 0 <= i < n -> zlookup (zeros n) i = Some 0.
Proof. intros. unfold zlookup, zeros. decide_if. apply lookup_replicate_2. lia. Qed.

Lemma zlookup_file_put pos src data i :
  0 <= pos ->
  zlookup (file_put pos src data) i =
  if (pos <=? i) && (i <? pos + zlen src) then zlookup src (i - pos)
  else if (zlen data <=? i) && (i <? pos + zlen src) then Some 0
  else zlookup data i.
Proof.
  intros Hp. pose proof (zlen_nonneg src). pose proof (zlen_nonneg data).
  destruct (Z.lt_ge_cases i 0).
  { unfold zlookup. decide_if. decide_if. decide_if. done. }
  unfold file_put. rewrite zlookup_splice by (rewrite ?zlen_app, ?zlen_zeros; lia).
  case_if; [done|]. case_if.
  - unfold zlookup. decide_if. rewrite lookup_app_r by (unfold zlen in *; lia).
    apply lookup_replicate_2. unfold zlen in *. lia.
  - destruct (Z.lt_ge_cases i (zlen data)).
    + unfold zlookup. decide_if. apply lookup_app_l. unfold zlen in *. lia.
    + rewrite !zlookup_ge; [done | lia | rewrite zlen_app, zlen_zeros; lia].
Qed.

Lemma file_put_same pos src data :
  0 <= pos -> same_outside pos (pos + zlen src) data (file_put pos src data).
Proof.
  intros Hp i Hi. rewrite zlookup_file_put by done. case_if; [lia|]. case_if; [|by left].
  right. split; [apply zlookup_ge; lia | done].
Qed.

Lemma file_put_inside pos src data :
  0 <= pos -> pos + zlen src <= zlen data -> file_put pos src data = splice pos src data.
Proof.
  intros. unfold file_put, zeros.
  replace (Z.to_nat (pos + zlen src - zlen data)) with 0%nat by lia. cbn. by rewrite app_nil_r.
Qed.

(** The bytes [_ram_write] and [_file_write] store for [src]. *)
Definition slot_bytes (src : list Z) : list Z := [u8 (zlen src); 0; 0; 0] ++ src.

Lemma zlen_slot_bytes src : zlen (slot_bytes src) = DM_SECTOR_HDR_SIZE + zlen src.
Proof. unfold slot_bytes. rewrite zlen_app. done. Qed.

Lemma put_slot off src data :
  0 <= off -> zlen src <= sizeof_data -> slot_holds (file_put off (slot_bytes src) data) off src.
Proof.
  unfold sizeof_data. intros Ho Hn. pose proof (zlen_nonneg src) as H0.
  assert (Hat : forall k, 0 <= k < 4 + zlen src ->
            zlookup (file_put off (slot_bytes src) data) (off + k) = zlookup (slot_bytes src) k).
  { intros k Hk. rewrite zlookup_file_put, zlen_slot_bytes by done. unfold DM_SECTOR_HDR_SIZE. decide_if.
    f_equal. lia. }
  assert (Hhd : zlookup (file_put off (slot_bytes src) data) off = Some (zlen src)).
  { rewrite <- (Z.add_0_r off) at 2. rewrite Hat by lia. change (Some (u8 (zlen src)) = Some (zlen src)).
    f_equal. apply uwrap_small. lia. }
  destruct src as [|b src]; [by right|]. split; [done|].
  intros k Hk. rewrite <- Z.add_assoc. unfold DM_SECTOR_HDR_SIZE. rewrite Hat by lia.
  unfold zlookup. decide_if. decide_if. unfold slot_bytes.
  rewrite lookup_app_r by (cbn; lia). f_equal. cbn. lia.
Qed.

Lemma put_empty off data : 0 <= off -> slot_holds (file_put off [0] data) off [].
Proof.
  intros. right. rewrite zlookup_file_put by done. change (zlen [0]) with 1. decide_if.
  by rewrite Z.sub_diag.
Qed.

(** [keeps d d' i k]: slot [k] of item [i] holds in [d'] what it held in [d]. *)
Definition keeps (data data' : list Z) (item index : Z) : Prop :=
  forall v, zlen v <= slot_size item ->
    slot_holds data (slot_offset item index) v -> slot_holds data' (slot_offset item index) v.

Lemma keeps_other data data' i k i' k' n :
  slot_ok i k -> slot_ok i' k' -> (i, k) <> (i', k') -> n <= size_hdr i ->
  same_outside (slot_offset i k) (slot_offset i k + n) data data' -> keeps data data' i' k'.
Proof.
  intros Hs Hs' Hne Hn Hsame v Hv. apply (slot_frame _ _ _ _ _ _ Hsame).
  pose proof (slots_disjoint _ _ _ _ Hs Hs' Hne). destruct Hs' as [Hi' _].
  pose proof (size_hdr_slot i' Hi'). lia.
Qed.

(** The storage holds the items of the abstract store. *)
Definition represents (data : list Z) (st : store) : Prop :=
  forall item index, slot_ok item index ->
    slot_holds data (slot_offset item index) (contents st item index) /\
    zlen (contents st item index) <= slot_size item.

Lemma contents_insert st i k v i' k' :
  contents (<[(i, k) := v]> st) i' k' = if decide ((i, k) = (i', k')) then v else contents st i' k'.
Proof. unfold contents. by rewrite lookup_insert; case_decide. Qed.

Lemma represents_write data data' st i k v :
  represents data st -> slot_ok i k -> zlen v <= slot_size i ->
  slot_holds data' (slot_offset i k) v ->
  same_outside (slot_offset i k) (slot_offset i k + size_hdr i) data data' ->
  represents data' (<[(i, k) := v]> st).
Proof.
  intros Hr Hs Hn Hv Hsame i' k' Hs'. rewrite contents_insert.
  destruct (decide ((i, k) = (i', k'))) as [He | Hne].
  - by simplify_eq.
  - destruct (Hr i' k' Hs') as [Hh Hl]. split; [|done].
    eapply (keeps_other data data' i k); eauto. lia.
Qed.

Lemma contents_clear st item i k :
  contents (filter (fun kv => kv.1.1 <> item) st) i k = if decide (i = item) then [] else contents st i k.
Proof.
  unfold contents. case_decide as Hi.
  - rewrite (proj2 (map_lookup_filter_None _ _ _)); [done|]. right. intros v _ Hn. by apply Hn.
  - rewrite map_lookup_filter. destruct (st !! (i, k)); [|done]. cbn. by case_guard.
Qed.

(** ** The system calls *)
Definition same_flags (f f' : dm_file) : Prop :=
  df_exists f' = df_exists f /\ df_open f' = df_open f /\ df_running f' = df_running f /\
  df_silence f' = df_silence f.

#[local] Instance same_flags_preorder : PreOrder same_flags.
Proof.
  split; [by intros f|]. intros f1 f2 f3 (? & ? & ? & ?) (? & ? & ? & ?). repeat split; congruence.
Qed.

Lemma next_io_same f x f' :
  next_io f = (x, f') -> same_flags f f' /\ df_data f' = df_data f /\ df_pos f' = df_pos f.
Proof. unfold next_io. intros. destruct (df_io f) as [|[]]; simplify_eq; done. Qed.

Lemma sys_lseek_same f off r f' :
  sys_lseek f off = (r, f') ->
  same_flags f f' /\ df_data f' = df_data f /\ (r = -1 \/ r = off /\ df_pos f' = off).
Proof.
  unfold sys_lseek. destruct (next_io f) as [x f1] eqn:Hn. destruct (next_io_same _ _ _ Hn) as (? & ? & ?).
  destruct x; intros; simplify_eq; split_and!; try done; by (left + right).
Qed.

Lemma sys_read_same f n r bytes f' :
  sys_read f n = (r, bytes, f') -> 0 <= n ->
  same_flags f f' /\ df_data f' = df_data f /\
  (r = -1 \/ r = zlen bytes /\ zlen bytes <= n /\ exists k, bytes = slice (df_pos f) k (df_data f)).
Proof.
  unfold sys_read. destruct (next_io f) as [x f1] eqn:Hn. destruct (next_io_same _ _ _ Hn) as (? & Hd & Hp).
  destruct x; intros ? Hn0; simplify_eq; (split; [done|split; [done|]]); try (by left); right; rewrite Hp, Hd;
    (split; [done|]); (split; [unfold zlen, slice; rewrite length_take; lia|by eexists]).
Qed.

Lemma sys_write_same f src r f' :
  sys_write f src = (r, f') -> 0 <= df_pos f -> src <> [] ->
  same_flags f f' /\ same_outside (df_pos f) (df_pos f + zlen src) (df_data f) (df_data f') /\
  (r = zlen src -> df_data f' = file_put (df_pos f) src (df_data f)).
Proof.
  unfold sys_write. destruct (next_io f) as [x f1] eqn:Hn. destruct (next_io_same _ _ _ Hn) as (? & Hd & Hp).
  intros Heq Hpos Hsrc. assert (Hl : 0 < zlen src) by (destruct src; [done|unfold zlen; cbn; lia]).
  destruct x as [| |n|]; cbv zeta in Heq; simplify_eq; (split; [done|]); cbn [df_data df_set].
  - rewrite Hp, Hd. split; [by apply file_put_same|done].
  - rewrite Hd. split; [done|]. lia.
  - rewrite Hp, Hd. set (part := take (Z.to_nat n) src).
    assert (Hle : zlen part <= zlen src) by (unfold zlen, part; rewrite length_take; lia).
    split.
    + case_if; [done|]. eapply same_outside_weaken, file_put_same; lia.
    + intros He. rewrite (proj2 (Z.eqb_neq _ _)) by lia. f_equal.
      apply take_ge. unfold zlen, part in He. rewrite length_take in He. lia.
  - rewrite Hd. split; [done|]. lia.
Qed.

(** Whatever the calls do, [_file_write] changes the bytes of its slot only, and
    reports success only when they are all written. *)
Lemma file_write_loop_same n off bytes f ok f' :
  file_write_loop n off bytes f = (ok, f') -> 0 <= off -> bytes <> [] ->
  same_flags f f' /\ same_outside off (off + zlen bytes) (df_data f) (df_data f') /\
  (ok = true -> exists d, df_data f' = file_put off bytes d).
Proof.
  revert f. induction n as [|n IH]; intros f Heq Hoff Hb; [by simplify_eq/=|]. cbn in Heq.
  destruct (sys_lseek f off) as [r f1] eqn:Hs. destruct (sys_lseek_same _ _ _ _ Hs) as (Hf1 & Hd1 & Hr).
  assert (Hnext : file_write_loop n off bytes f1 = (ok, f') ->
            same_flags f f' /\ same_outside off (off + zlen bytes) (df_data f) (df_data f') /\
            (ok = true -> exists d, df_data f' = file_put off bytes d)).
  { intros E. destruct (IH f1 E Hoff Hb) as (? & ? & ?). rewrite <- Hd1. split_and!; [by etrans|done..]. }
  case_if_in Heq; [by apply Hnext|]. case_if_in Heq; [by apply Hnext|].
  destruct (sys_write f1 bytes) as [w f2] eqn:Hw. destruct Hr as [-> | [_ Hpos]]; [lia|].
  destruct (sys_write_same _ _ _ _ Hw) as (Hf2 & Hd2 & Hok); [lia|done|]. rewrite Hpos, Hd1 in *.
  assert (Hnext2 : file_write_loop n off bytes f2 = (ok, f') ->
            same_flags f f' /\ same_outside off (off + zlen bytes) (df_data f) (df_data f') /\
            (ok = true -> exists d, df_data f' = file_put off bytes d)).
  { intros E. destruct (IH f2 E Hoff Hb) as (? & ? & ?). split_and!; [by do 2 (etrans; [done|])|by etrans|done]. }
  case_if_in Heq; [by apply Hnext2|]. case_if_in Heq; [by apply Hnext2|].
  simplify_eq. split_and!; [by etrans|done|]. intros _. eexists. apply Hok. lia.
Qed.

Lemma file_read_loop_same n off count f res f' :
  file_read_loop n off count f = (res, f') -> 0 <= count ->
  same_flags f f' /\ df_data f' = df_data f /\
  (forall len bytes, res = Some (len, bytes) ->
     len = zlen bytes /\ zlen bytes <= count + DM_SECTOR_HDR_SIZE /\ exists p k, bytes = slice p k (df_data f)).
Proof.
  revert f. induction n as [|n IH]; intros f Heq Hc; [by simplify_eq/=|]. cbn in Heq.
  destruct (sys_lseek f off) as [r f1] eqn:Hs. destruct (sys_lseek_same _ _ _ _ Hs) as (Hf1 & Hd1 & _).
  destruct (sys_read f1 (count + DM_SECTOR_HDR_SIZE)) as [[len bytes] f2] eqn:Hrd.
  destruct (sys_read_same _ _ _ _ _ Hrd) as (Hf2 & Hd2 & Hr); [unfold DM_SECTOR_HDR_SIZE; lia|].
  repeat case_if_in Heq.
  1,2: destruct (IH _ Heq Hc) as (? & ? & ?); rewrite Hd1 in *; split_and!; [by etrans|done|done].
  - simplify_eq. split_and!; [by etrans|congruence|]. intros ? ? [= <- <-].
    destruct Hr as [-> | (-> & ? & k & ->)]; [lia|]. split; [done|]. split; [done|].
    eexists _, _. by rewrite Hd1.
  - destruct (IH _ Heq Hc) as (? & ? & ?). rewrite Hd2, Hd1 in *.
    split_and!; [by do 2 (etrans; [done|])|done|done].
Qed.

Lemma zlen_uninit n : 0 <= n -> zlen (map uninit (seq 0 (Z.to_nat n))) = n.
Proof. intros. unfold zlen. rewrite length_map, length_seq. lia. Qed.

(** The guards shared by the operations of both backends. *)
Ltac refuse := case_if; [done|]; rewrite calculate_offset_invalid by (done || lia); done.

Ltac refuse_big Hv :=
  apply dm_valid_ok in Hv; [|done..]; pose proof (slot_range _ _ Hv);
  rewrite calculate_offset_ok by done; destruct Hv as [Hit _]; rewrite size_hdr_slot by done;
  decide_if; decide_if; by decide_if.

(** Slots out of range and requests that are too long are refused. *)
Lemma file_read_refused item index buf count f :
  0 <= item -> 0 <= index ->
  dm_valid item index = false \/ (dm_valid item index = true /\ slot_size item < count) ->
  _file_read item index buf count f = Some (if dm_valid item index then - E2BIG else -1, buf, f).
Proof.
  intros ? ? [Hv | [Hv Hc]]; rewrite Hv; unfold _file_read.
  - refuse.
  - refuse_big Hv.
Qed.

(** The buffer of [_file_read] after a read of [bytes]. *)
Definition read_buffer (item : Z) (bytes : list Z) : list Z :=
  splice 0 bytes (map uninit (seq 0 (Z.to_nat (size_hdr item)))).

(** What [_file_read] returns once a read succeeded. *)
Definition read_result (item count : Z) (buf bytes : list Z) : Z * list Z :=
  let b0 := default 0 (zlookup bytes 0) in
  if 0 <? b0 then
    if count <? b0 then (-1, buf)
    else (b0, splice 0 (slice DM_SECTOR_HDR_SIZE b0 (read_buffer item bytes)) buf)
  else (b0, splice 0 (zeros count) buf).

Lemma zlen_read_buffer item bytes :
  0 <= item < DM_KEY_NUM_KEYS -> zlen bytes <= size_hdr item -> zlen (read_buffer item bytes) = size_hdr item.
Proof.
  intros Hi ?. pose proof (slot_size_range item Hi). pose proof (size_hdr_slot item Hi).
  pose proof (zlen_nonneg bytes). unfold DM_SECTOR_HDR_SIZE in *.
  unfold read_buffer. rewrite zlen_splice; rewrite ?zlen_uninit; lia.
Qed.

Lemma file_read_eq item index buf count f :
  slot_ok item index -> 0 <= count <= slot_size item -> count <= zlen buf ->
  _file_read item index buf count f =
  match file_read_loop 2 (slot_offset item index) count f with
  | (None, f') => Some (-1, buf, f')
  | (Some (len, bytes), f') => let '(r, buf') := read_result item count buf bytes in Some (r, buf', f')
  end.
Proof.
  intros Hs [Hc0 Hc] Hbuf. pose proof (slot_range _ _ Hs) as Hrange. pose proof Hs as [Hi _].
  pose proof (slot_size_range _ Hi) as Hsz. pose proof (size_hdr_slot _ Hi) as Hhdr.
  unfold _file_read. rewrite calculate_offset_ok by done. decide_if. decide_if. rewrite Hhdr. decide_if.
  destruct (file_read_loop 2 (slot_offset item index) count f) as [[[len bytes]|] f'] eqn:Hloop; [|done].
  destruct (file_read_loop_same _ _ _ _ _ _ Hloop Hc0) as (_ & _ & Hres).
  destruct (Hres _ _ eq_refl) as (-> & Hlen & _). pose proof (zlen_nonneg bytes).
  unfold DM_SECTOR_HDR_SIZE in *.
  rewrite (mem_write_Some (map _ _)) by (rewrite ?zlen_uninit; lia). rewrite <- Hhdr. fold (read_buffer item bytes).
  pose proof (zlen_read_buffer item bytes Hi) as Hrb. cbn [mbind option_bind].
  unfold read_result. destruct bytes as [|b0 bytes].
  { change (zlen [] =? 0) with true. cbn iota. unfold zstore. decide_if. cbn [mbind option_bind].
    rewrite zlookup_insert by lia. decide_if. cbn [mbind option_bind].
    rewrite mem_write_Some by (rewrite ?zlen_zeros; lia). done. }
  rewrite (proj2 (Z.eqb_neq (zlen (b0 :: bytes)) 0)) by (rewrite zlen_cons; pose proof (zlen_nonneg bytes); lia).
  change (default 0 (zlookup (b0 :: bytes) 0)) with b0. cbn [mbind option_bind].
  assert (Hfirst : zlookup (read_buffer item (b0 :: bytes)) 0 = Some b0) by done.
  rewrite Hfirst. cbn [mbind option_bind].
  case_if; [case_if; [done|]|].
  - rewrite mem_read_Some by lia. cbn [mbind option_bind].
    rewrite mem_write_Some by (rewrite ?zlen_slice by lia; lia). done.
  - rewrite mem_write_Some by (rewrite ?zlen_zeros; lia). done.
Qed.

(** *** Calls that succeed *)
Definition ready (f : dm_file) : Prop := df_open f = true /\ df_io f = [] /\ df_exists f = true.

Lemma next_io_ready f : ready f -> next_io f = (Fine, f).
Proof. intros (Ho & Hio & _). unfold next_io. by rewrite Hio, Ho. Qed.

Lemma sys_lseek_ready f off : ready f -> sys_lseek f off = (off, df_set f (df_data f) off).
Proof. intros Hr. unfold sys_lseek. by rewrite next_io_ready. Qed.

Lemma sys_write_ready f src :
  ready f -> sys_write f src = (zlen src, df_set f (file_put (df_pos f) src (df_data f)) (df_pos f + zlen src)).
Proof. intros Hr. unfold sys_write. by rewrite next_io_ready. Qed.

Lemma sys_read_ready f n :
  ready f -> sys_read f n = (zlen (slice (df_pos f) n (df_data f)), slice (df_pos f) n (df_data f),
                             df_set f (df_data f) (df_pos f + zlen (slice (df_pos f) n (df_data f)))).
Proof. intros Hr. unfold sys_read. rewrite next_io_ready by done. by rewrite Z.min_id. Qed.

Lemma file_write_loop_ready n off bytes f :
  ready f -> 0 <= off ->
  file_write_loop (S n) off bytes f = (true, df_set f (file_put off bytes (df_data f)) (off + zlen bytes)).
Proof.
  intros Hr Hoff. cbn. rewrite sys_lseek_ready by done. decide_if. rewrite Z.eqb_refl. cbn [negb].
  rewrite sys_write_ready by done. cbn [df_pos df_set df_data]. pose proof (zlen_nonneg bytes).
  decide_if. by rewrite Z.eqb_refl.
Qed.

Lemma file_read_loop_ready n off count f :
  ready f -> 0 <= off ->
  let bytes := slice off (count + DM_SECTOR_HDR_SIZE) (df_data f) in
  file_read_loop (S n) off count f = (Some (zlen bytes, bytes), df_set f (df_data f) (off + zlen bytes)).
Proof.
  intros Hr Hoff bytes. cbn [file_read_loop]. rewrite sys_lseek_ready by done. rewrite Z.eqb_refl. cbn [negb andb].
  rewrite (proj2 (Z.ltb_ge off 0)) by lia. cbn [andb].
  rewrite sys_read_ready by done. cbn [df_pos df_set df_data]. fold bytes. pose proof (zlen_nonneg bytes).
  by decide_if.
Qed.

Lemma splice_zeros v n : zlen v <= n -> splice 0 v (zeros n) = v ++ zeros (n - zlen v).
Proof.
  intros. unfold splice, zeros, zlen. cbn. rewrite take_0. cbn. f_equal.
  rewrite drop_replicate. f_equal. lia.
Qed.

Lemma zeros_app a b : 0 <= a -> 0 <= b -> zeros a ++ zeros b = zeros (a + b).
Proof. intros. unfold zeros. rewrite <- replicate_add. f_equal. lia. Qed.

(** A slot that holds [v] reads as [v] into a zeroed buffer. *)
Lemma read_result_slot item index data v n count :
  slot_ok item index -> slot_holds data (slot_offset item index) v -> 0 <= count <= slot_size item ->
  zlen v <= slot_size item -> count <= n ->
  read_result item count (zeros n) (slice (slot_offset item index) (count + DM_SECTOR_HDR_SIZE) data) =
  if count <? zlen v then (-1, zeros n) else (zlen v, v ++ zeros (n - zlen v)).
Proof.
  intros Hs Hv Hc Hlen Hn. pose proof (slot_range _ _ Hs) as [Hoff _]. pose proof Hs as [Hi _].
  pose proof (slot_size_range _ Hi) as Hsz. pose proof (size_hdr_slot _ Hi) as Hhdr. unfold DM_SECTOR_HDR_SIZE in *.
  set (off := slot_offset item index) in *. set (bytes := slice off (count + 4) data).
  assert (Hb0 : zlookup bytes 0 = zlookup data off).
  { unfold bytes. rewrite zlookup_slice by lia. decide_if. f_equal. lia. }
  assert (Hblen : zlen bytes <= count + 4) by (unfold bytes, zlen, slice; rewrite length_take; lia).
  unfold read_result. rewrite Hb0. destruct v as [|b v].
  - assert (Hz : default 0 (zlookup data off) = 0) by (destruct Hv as [-> | ->]; done). rewrite Hz.
    decide_if. change (zlen (@nil Z)) with 0. decide_if. rewrite app_nil_l, Z.sub_0_r. f_equal.
    rewrite splice_zeros, zeros_app; rewrite ?zlen_zeros; try lia. f_equal. lia.
  - destruct Hv as [Hl Hb]. rewrite Hl. unfold DM_SECTOR_HDR_SIZE in Hb. set (w := b :: v) in *.
    assert (0 < zlen w) by (unfold w; rewrite zlen_cons; pose proof (zlen_nonneg v); lia).
    change (default 0 (Some (zlen w))) with (zlen w). decide_if. case_if; [done|].
    f_equal. unfold DM_SECTOR_HDR_SIZE. rewrite <- splice_zeros by lia. f_equal.
    assert (Hlb : zlen bytes = Z.min (count + 4) (zlen data - off)).
    { destruct (zlookup_lt w (zlen w - 1)) as [x Hx]; [lia|]. rewrite <- (Hb (zlen w - 1)) in Hx by lia.
      apply zlookup_Some_lt in Hx. unfold bytes, zlen, slice in *. rewrite length_take, length_drop. lia. }
    assert (Hrb : zlen (read_buffer item bytes) = size_hdr item) by (apply zlen_read_buffer; [done|lia]).
    apply zlookup_ext; rewrite zlen_slice by lia; [done|]. intros k Hk.
    rewrite <- (Hb k Hk), zlookup_slice by lia. decide_if.
    destruct (zlookup_lt w k Hk) as [x Hx]. pose proof (Hb k Hk) as Hdk. rewrite Hx in Hdk.
    pose proof (zlookup_Some_lt _ _ _ Hdk).
    unfold read_buffer. rewrite zlookup_splice by (rewrite ?zlen_uninit; lia). decide_if.
    unfold bytes. rewrite zlookup_slice by lia. decide_if. f_equal. lia.
Qed.

(** *** Clearing an item *)
Definition clear_region (item k : Z) (data data' : list Z) : Prop :=
  same_outside (slot_offset item k) (slot_offset item (max_index item)) data data'.

Lemma next_slot item k :
  slot_ok item k -> s32 (slot_offset item k + size_hdr item) = slot_offset item (k + 1).
Proof.
  intros Hs. pose proof (slot_range _ _ Hs). pose proof max_offset_range. destruct Hs as [Hi _].
  item_facts Hi.
  rewrite swrap_small by lia. unfold slot_offset. lia.
Qed.

Lemma put_zero_region item k data :
  slot_ok item k -> clear_region item k data (file_put (slot_offset item k) [0] data).
Proof.
  intros Hs. pose proof (slot_range _ _ Hs). destruct Hs as [Hi Hk].
  pose proof (slot_in_item _ _ Hi Hk). item_facts Hi.
  eapply same_outside_weaken, file_put_same; [done| |lia]. change (zlen [0]) with 1. lia.
Qed.

Lemma clear_region_next item k data data' :
  slot_ok item k -> clear_region item (k + 1) data data' -> clear_region item k data data'.
Proof.
  intros [Hi Hk]. item_facts Hi.
  apply same_outside_weaken; unfold slot_offset; lia.
Qed.

Lemma clear_region_other item data data' item' index' :
  0 <= item < DM_KEY_NUM_KEYS -> slot_ok item' index' -> item' <> item ->
  clear_region item 0 data data' -> keeps data data' item' index'.
Proof.
  intros Hi [Hi' Hk'] Hne Hc v Hv. apply (slot_frame _ _ _ _ _ _ Hc).
  pose proof (slot_in_item _ _ Hi' Hk'). pose proof (size_hdr_slot _ Hi').
  destruct (Z.lt_ge_cases item item').
  - left. pose proof (item_before item item'). lia.
  - right. pose proof (item_before item' item). lia.
Qed.

(** Slot [k] stays empty while the slots after it are cleared. *)
Lemma cleared_slot_stays item k data data' :
  slot_ok item k -> clear_region item (k + 1) data data' ->
  slot_holds data (slot_offset item k) [] -> slot_holds data' (slot_offset item k) [].
Proof.
  intros [Hi Hk] Hc. apply (slot_frame _ _ _ _ _ _ Hc). right.
  pose proof (slot_size_range _ Hi). pose proof (size_hdr_slot _ Hi). unfold slot_offset, DM_SECTOR_HDR_SIZE in *.
  change (zlen (@nil Z)) with 0. lia.
Qed.

Lemma file_clear_loop_same n item k f r f' :
  file_clear_loop n item (slot_offset item k) f = (r, f') ->
  0 <= item < DM_KEY_NUM_KEYS -> 0 <= k -> k + Z.of_nat n = max_index item ->
  same_flags f f' /\ clear_region item k (df_data f) (df_data f').
Proof.
  revert k f. induction n as [|n IH]; intros k f Heq Hi Hk Hn; [by simplify_eq/=|]. cbn in Heq.
  assert (Hs : slot_ok item k) by (split; [done|lia]). pose proof (slot_range _ _ Hs) as [Hoff _].
  destruct (sys_lseek f (slot_offset item k)) as [r1 f1] eqn:H1.
  destruct (sys_lseek_same _ _ _ _ H1) as (Hf1 & Hd1 & Hr1).
  case_if_in Heq; [simplify_eq; by rewrite Hd1|].
  destruct (sys_read f1 1) as [[len bytes] f2] eqn:H2.
  destruct (sys_read_same _ _ _ _ _ H2) as (Hf2 & Hd2 & _); [lia|]. rewrite Hd1 in Hd2.
  assert (Hf12 : same_flags f f2) by (by etrans).
  case_if_in Heq; [simplify_eq; by rewrite Hd2|]. rewrite next_slot in Heq by done.
  case_if_in Heq.
  - destruct (sys_lseek f2 (slot_offset item k)) as [r3 f3] eqn:H3.
    destruct (sys_lseek_same _ _ _ _ H3) as (Hf3 & Hd3 & Hr3). rewrite Hd2 in Hd3.
    assert (same_flags f f3) by (by etrans).
    case_if_in Heq; [simplify_eq; by rewrite Hd3|].
    destruct Hr3 as [-> | [_ Hpos]]; [lia|].
    destruct (sys_write f3 [0]) as [w f4] eqn:H4.
    destruct (sys_write_same _ _ _ _ H4) as (Hf4 & Hd4 & _); [lia|done|]. rewrite Hpos, Hd3 in Hd4.
    assert (Hc4 : clear_region item k (df_data f) (df_data f4)).
    { pose proof (slot_in_item _ _ Hi (proj2 Hs)). item_facts Hi.
      eapply same_outside_weaken, Hd4; [done|]. change (zlen [0]) with 1. lia. }
    case_if_in Heq; [simplify_eq; split; [by etrans|done]|].
    destruct (IH (k + 1) f4 Heq) as [? Hc]; [done|lia..|]. split; [by do 2 (etrans; [done|])|].
    etrans; [done|]. by apply clear_region_next.
  - destruct (IH (k + 1) f2 Heq) as [? Hc]; [done|lia..|]. rewrite Hd2 in Hc.
    split; [by etrans|]. by apply clear_region_next.
Qed.

Lemma file_clear_loop_ready n item k f :
  ready f -> 0 <= item < DM_KEY_NUM_KEYS -> 0 <= k -> k + Z.of_nat n = max_index item ->
  exists f', file_clear_loop n item (slot_offset item k) f = (0, f') /\ ready f' /\
    forall j, k <= j < max_index item -> slot_holds (df_data f') (slot_offset item j) [].
Proof.
  revert k f. induction n as [|n IH]; intros k f Hr Hi Hk Hn.
  { exists f. split; [done|]. split; [done|]. intros j Hj. lia. }
  assert (Hs : slot_ok item k) by (split; [done|lia]). pose proof (slot_range _ _ Hs) as [Hoff _].
  set (off := slot_offset item k) in *. cbn [file_clear_loop].
  assert (Hnext : forall f1, ready f1 -> slot_holds (df_data f1) off [] ->
            exists f', file_clear_loop n item (slot_offset item (k + 1)) f1 = (0, f') /\ ready f' /\
              forall j, k <= j < max_index item -> slot_holds (df_data f') (slot_offset item j) []).
  { intros f1 Hr1 Hz. destruct (IH (k + 1) f1 Hr1) as (f' & Hloop & Hr' & Hall); [done|lia..|].
    exists f'. split; [done|]. split; [done|]. intros j Hj. destruct (decide (j = k)) as [-> | ?]; [|apply Hall; lia].
    destruct (file_clear_loop_same _ _ _ _ _ _ Hloop) as [_ Hc]; [done|lia..|].
    by apply (cleared_slot_stays _ _ _ _ Hs Hc). }
  rewrite sys_lseek_ready, Z.eqb_refl by done. cbn [negb]. rewrite sys_read_ready by done.
  cbn [df_pos df_set df_data]. set (bytes := slice off 1 (df_data f)).
  assert (Hb : zlookup bytes 0 = zlookup (df_data f) off).
  { unfold bytes. rewrite zlookup_slice by lia. decide_if. f_equal. lia. }
  destruct (Z.lt_ge_cases (zlen bytes) 1) as [Heof | Hin]; decide_if.
  - eexists. split; [done|]. split; [done|]. cbn [df_data df_set]. intros j Hj. left. apply zlookup_ge.
    assert (zlen (df_data f) <= off).
    { unfold bytes, slice, zlen in *. rewrite length_take, length_drop in Heof. lia. }
    unfold off, slot_offset in *. item_facts Hi. nia.
  - pose proof (next_slot item k Hs) as Hns. fold off in Hns. rewrite Hns.
    destruct (zlookup_lt bytes 0) as [b Hb0]; [lia|]. rewrite Hb0. change (default 0 (Some b)) with b.
    case_if.
    + rewrite sys_lseek_ready, Z.eqb_refl by done. cbn [negb]. rewrite sys_write_ready by done.
      change (zlen [0] =? 1) with true. cbn [negb]. apply Hnext; [done|]. by apply put_empty.
    + apply Hnext; [done|]. right. cbn [df_data df_set]. rewrite <- Hb, Hb0. f_equal. lia.
Qed.

Lemma represents_clear data data' st item :
  represents data st -> 0 <= item < DM_KEY_NUM_KEYS -> clear_region item 0 data data' ->
  (forall j, 0 <= j < max_index item -> slot_holds data' (slot_offset item j) []) ->
  represents data' (filter (fun kv => kv.1.1 <> item) st).
Proof.
  intros Hr Hi Hc Hz i k Hs. rewrite contents_clear. case_decide as He.
  - subst. item_facts Hi. destruct Hs as [_ Hk]. split; [by apply Hz|]. change (zlen (@nil Z)) with 0. lia.
  - destruct (Hr i k Hs) as [Hh Hl]. split; [|done]. by eapply clear_region_other.
Qed.

(** The class of backends that implement the abstract store. *)
Class DmBackendLaws (B : Type) `{DmBackend B} := {
  dm_rep : B -> store -> Prop;
  dm_write_spec b st item index buf count :
    dm_rep b st -> 0 <= item -> 0 <= index -> 0 <= count -> zlen buf = sizeof_data ->
    exists b', dm_write item index buf count b = Some ((spec_write item index buf count st).1, b') /\
      dm_rep b' (spec_write item index buf count st).2;
  dm_read_spec b st item index n count :
    dm_rep b st -> 0 <= item -> 0 <= index -> 0 <= count -> sizeof_data <= n ->
    exists b', dm_read item index (zeros n) count b =
                 Some ((spec_read item index n count st).1, (spec_read item index n count st).2, b') /\
      dm_rep b' st;
  dm_clear_spec b st item :
    dm_rep b st -> 0 <= item ->
    exists b', dm_clear item b = Some ((spec_clear item st).1, b') /\ dm_rep b' (spec_clear item st).2;
}.

Lemma spec_write_valid item index buf count st :
  slot_ok item index -> 0 <= count <= slot_size item ->
  spec_write item index buf count st = (count, <[(item, index) := take (Z.to_nat count) buf]> st).
Proof.
  intros Hs Hc. unfold spec_write. rewrite slot_ok_valid by done.
  cbn [negb]. by decide_if.
Qed.

Lemma file_write_eq item index buf count f :
  slot_ok item index -> 0 <= count <= slot_size item -> count <= zlen buf ->
  _file_write item index buf count f =
  let '(ok, f') := file_write_loop 2 (slot_offset item index) (slot_bytes (take (Z.to_nat count) buf)) f in
  Some (if ok then count else -1, f').
Proof.
  intros Hs Hc Hb. pose proof (slot_range _ _ Hs) as [Hoff _]. pose proof Hs as [Hi _]. item_facts Hi.
  unfold _file_write. rewrite calculate_offset_ok by done. decide_if. decide_if. unfold DM_SECTOR_HDR_SIZE.
  decide_if. rewrite mem_read_Some by lia. cbn [mbind option_bind].
  replace (slice 0 count buf) with (take (Z.to_nat count) buf) by (unfold slice; by rewrite drop_0).
  unfold slot_bytes. replace (zlen (take (Z.to_nat count) buf)) with count.
  2: { unfold zlen in *. rewrite length_take. lia. }
  destruct (file_write_loop _ _ _ _) as [[] f']; done.
Qed.

Lemma zlen_take_buf count (buf : list Z) : 0 <= count <= zlen buf -> zlen (take (Z.to_nat count) buf) = count.
Proof. unfold zlen. intros. rewrite length_take. lia. Qed.

Lemma slot_write_same item index data src :
  slot_ok item index -> zlen src <= slot_size item ->
  same_outside (slot_offset item index) (slot_offset item index + size_hdr item) data
    (file_put (slot_offset item index) (slot_bytes src) data).
Proof.
  intros Hs Hn. pose proof (slot_range _ _ Hs) as [Hoff _]. destruct Hs as [Hi _]. item_facts Hi.
  eapply same_outside_weaken, file_put_same; [done| |done].
  rewrite zlen_slot_bytes. unfold DM_SECTOR_HDR_SIZE. lia.
Qed.

Definition file_rep (f : dm_file) (st : store) : Prop := ready f /\ represents (df_data f) st.

Lemma file_write_refused item index buf count f :
  0 <= item -> 0 <= index ->
  dm_valid item index = false \/ (dm_valid item index = true /\ slot_size item < count) ->
  _file_write item index buf count f = Some (if dm_valid item index then - E2BIG else -1, f).
Proof.
  intros ? ? [Hv | [Hv Hc]]; rewrite Hv; unfold _file_write.
  - refuse.
  - refuse_big Hv.
Qed.

(** A request is for a slot and fits it, or it is refused. *)
Lemma guard_cases item index count :
  0 <= item -> 0 <= index ->
  (slot_ok item index /\ dm_valid item index = true /\ count <= slot_size item) \/
  (dm_valid item index = false \/ (dm_valid item index = true /\ slot_size item < count)).
Proof.
  intros. destruct (dm_valid item index) eqn:Hv; [|auto].
  destruct (Z.lt_ge_cases (slot_size item) count); [auto|]. left. by rewrite <- dm_valid_ok.
Qed.

Lemma spec_write_refused item index buf count st :
  dm_valid item index = false \/ (dm_valid item index = true /\ slot_size item < count) ->
  spec_write item index buf count st = (if dm_valid item index then - E2BIG else -1, st).
Proof. unfold spec_write. intros [-> | [-> ?]]; cbn [negb]; [done|]. by decide_if. Qed.

Lemma spec_read_refused item index n count st :
  dm_valid item index = false \/ (dm_valid item index = true /\ slot_size item < count) ->
  spec_read item index n count st = (if dm_valid item index then - E2BIG else -1, zeros n).
Proof. unfold spec_read. intros [-> | [-> ?]]; cbn [negb]; [done|]. by decide_if. Qed.

Lemma file_write_ok f st item index buf count :
  file_rep f st -> 0 <= item -> 0 <= index -> 0 <= count -> zlen buf = sizeof_data ->
  exists f', _file_write item index buf count f = Some ((spec_write item index buf count st).1, f') /\
    file_rep f' (spec_write item index buf count st).2.
Proof.
  intros [Hr Hrep] Hi Hx Hc Hb. destruct (guard_cases item index count Hi Hx) as [(Hs & _ & Hfit) | Hbad].
  2: { exists f. by rewrite file_write_refused, spec_write_refused. }
  pose proof (slot_range _ _ Hs) as [Hoff _]. pose proof (proj1 Hs) as Hit. item_facts Hit.
  rewrite spec_write_valid, file_write_eq, file_write_loop_ready by (done || lia).
  eexists. split; [done|]. split; [done|]. cbn [fst snd df_data df_set].
  apply (represents_write (df_data f)); rewrite ?zlen_take_buf by lia; try done.
  - apply put_slot; rewrite ?zlen_take_buf; lia.
  - apply slot_write_same; [done|]. rewrite zlen_take_buf; lia.
Qed.

Lemma file_read_ok f st item index n count :
  file_rep f st -> 0 <= item -> 0 <= index -> 0 <= count -> count <= n \/ sizeof_data <= n ->
  exists f', _file_read item index (zeros n) count f =
               Some ((spec_read item index n count st).1, (spec_read item index n count st).2, f') /\
    file_rep f' st /\ df_data f' = df_data f.
Proof.
  intros [Hr Hrep] Hi Hx Hc Hn. destruct (guard_cases item index count Hi Hx) as [(Hs & Hv & Hfit) | Hbad].
  2: { exists f. by rewrite file_read_refused, spec_read_refused. }
  destruct (Hrep _ _ Hs) as [Hh Hl]. pose proof (slot_range _ _ Hs) as [Hoff _].
  assert (count <= n) by (pose proof (slot_size_range _ (proj1 Hs)); lia).
  rewrite file_read_eq, file_read_loop_ready by (done || rewrite ?zlen_zeros; lia).
  rewrite (read_result_slot item index (df_data f) (contents st item index)) by done.
  eexists. unfold spec_read. rewrite Hv. cbn [negb]. decide_if. case_if; done.
Qed.

Lemma file_clear_ok f st item :
  file_rep f st -> 0 <= item ->
  exists f', _file_clear item f = Some ((spec_clear item st).1, f') /\ file_rep f' (spec_clear item st).2.
Proof.
  intros [Hr Hrep] Hi. unfold _file_clear, spec_clear.
  destruct (dm_valid item 0) eqn:Hv; cbn [negb fst snd].
  2: { exists f. split; [refuse|done]. }
  apply dm_valid_ok in Hv; [|lia..]. pose proof (slot_range _ _ Hv) as [Hoff _].
  rewrite calculate_offset_ok by done. pose proof (proj1 Hv) as Hit. decide_if. decide_if.
  pose proof (max_index_range _ Hit).
  destruct (file_clear_loop_ready (Z.to_nat (max_index item)) item 0 f) as (f' & Hloop & Hr' & Hz); [done..|lia|].
  rewrite Hloop. exists f'. split; [done|]. split; [done|].
  destruct (file_clear_loop_same _ _ _ _ _ _ Hloop) as [_ Hc]; [done|lia..|].
  by apply (represents_clear (df_data f)).
Qed.

#[refine] Instance dm_file_laws : DmBackendLaws dm_file := {| dm_rep := file_rep |}.
Proof.
  - apply file_write_ok.
  - intros f st item index n count ? ? ? ? Hn.
    destruct (file_read_ok f st item index n count) as (f' & ? & ? & _); [by auto..|]. by exists f'.
  - apply file_clear_ok.
Defined.

(** *** The RAM backend *)
Definition ram_rep (r : dm_ram) (st : store) : Prop :=
  exists data, r.(ram_data) = Some data /\ zlen data = max_offset /\ r.(ram_data_end) = max_offset - 1 /\
    represents data st.

Lemma zstore_put (data : list Z) off x :
  0 <= off < zlen data -> zstore data off x = Some (file_put off [x] data).
Proof.
  intros Ho. unfold zstore. decide_if. f_equal. rewrite file_put_inside by (change (zlen [x]) with 1; lia).
  unfold splice. cbn [length app]. rewrite insert_take_drop by (unfold zlen in *; lia).
  do 2 f_equal. f_equal. lia.
Qed.

Lemma zlen_file_put off src data : 0 <= off -> off + zlen src <= zlen data -> zlen (file_put off src data) = zlen data.
Proof. intros. rewrite file_put_inside by done. by apply zlen_splice. Qed.

Lemma ram_write_ok r st item index buf count :
  ram_rep r st -> 0 <= item -> 0 <= index -> 0 <= count -> zlen buf = sizeof_data ->
  exists r', _ram_write item index buf count r = Some ((spec_write item index buf count st).1, r') /\
    ram_rep r' (spec_write item index buf count st).2.
Proof.
  intros Hr Hi Hx Hc Hb. pose proof Hr as (data & Hd & Hlen & Hend & Hrep). unfold _ram_write.
  destruct (guard_cases item index count Hi Hx) as [(Hs & _ & Hfit) | [Hv | [Hv Hbig]]].
  2: { exists r. rewrite spec_write_refused by auto. rewrite Hv. split; [refuse|done]. }
  2: { exists r. rewrite spec_write_refused by auto. rewrite Hv. refuse_big Hv. }
  pose proof (slot_range _ _ Hs) as [Hoff Hmax]. pose proof (proj1 Hs) as Hit. item_facts Hit.
  rewrite spec_write_valid, calculate_offset_ok by done. unfold DM_SECTOR_HDR_SIZE.
  decide_if. decide_if. decide_if. decide_if. rewrite Hd. cbn [mbind option_bind fst snd].
  set (off := slot_offset item index) in *. set (src := take (Z.to_nat count) buf).
  assert (Hsrc : zlen src = count) by (apply zlen_take_buf; lia).
  rewrite (mem_write_Some data) by (change (zlen [u8 count; 0; 0; 0]) with 4; lia). cbn [mbind option_bind].
  exists (mkDmRam (Some (file_put off (slot_bytes src) data)) (ram_data_end r) (ram_running r)).
  assert (Hput : file_put off (slot_bytes src) data = splice (off + 4) src (splice off [u8 count; 0; 0; 0] data)).
  { unfold slot_bytes. rewrite Hsrc, file_put_inside, splice_splice; try done; try rewrite zlen_app;
      change (zlen [u8 count; 0; 0; 0]) with 4; lia. }
  split.
  - case_if.
    + rewrite mem_read_Some by lia. cbn [mbind option_bind].
      replace (slice 0 count buf) with src by (unfold slice; by rewrite drop_0).
      rewrite mem_write_Some by (rewrite ?zlen_splice; change (zlen [u8 count; 0; 0; 0]) with 4; lia).
      cbn [mbind option_bind]. by rewrite Hput.
    + cbn [mbind option_bind]. rewrite Hput. assert (Hnil : src = []) by (apply nil_length_inv; unfold zlen in *; lia).
      by rewrite Hnil, splice_nil.
  - eexists. split; [done|]. cbn [ram_data_end]. split; [|split; [done|]].
    + rewrite zlen_file_put; rewrite ?zlen_slot_bytes; unfold DM_SECTOR_HDR_SIZE; lia.
    + apply (represents_write data); rewrite ?Hsrc; try done.
      * apply put_slot; lia.
      * apply slot_write_same; [done|]. lia.
Qed.

Lemma ram_read_ok r st item index n count :
  ram_rep r st -> 0 <= item -> 0 <= index -> 0 <= count -> sizeof_data <= n ->
  exists r', _ram_read item index (zeros n) count r =
               Some ((spec_read item index n count st).1, (spec_read item index n count st).2, r') /\
    ram_rep r' st.
Proof.
  intros Hr Hi Hx Hc Hn. pose proof Hr as (data & Hd & Hlen & Hend & Hrep). exists r. split; [|done].
  unfold _ram_read. destruct (guard_cases item index count Hi Hx) as [(Hs & Hv & Hfit) | [Hv | [Hv Hbig]]].
  2: { rewrite spec_read_refused by auto. rewrite Hv. refuse. }
  2: { rewrite spec_read_refused by auto. rewrite Hv. refuse_big Hv. }
  destruct (Hrep _ _ Hs) as [Hh Hl]. unfold spec_read. rewrite Hv. cbn [negb].
  pose proof (slot_range _ _ Hs) as [Hoff Hmax]. pose proof (proj1 Hs) as Hit. item_facts Hit.
  rewrite calculate_offset_ok by done. unfold DM_SECTOR_HDR_SIZE.
  decide_if. decide_if. decide_if. decide_if. decide_if. rewrite Hd. cbn [mbind option_bind].
  set (off := slot_offset item index) in *. set (v := contents st item index) in *.
  assert (Hlenb : zlookup data off = Some (zlen v)).
  { destruct v as [|b v]; [|apply Hh]. destruct Hh as [He | He]; [|done].
    destruct (zlookup_lt data off) as [x Hx0]; [lia|congruence]. }
  rewrite Hlenb. cbn [mbind option_bind]. case_if.
  - case_if; [done|]. rewrite mem_read_Some by lia. cbn [mbind option_bind].
    assert (Hsl : slice (off + 4) (zlen v) data = v).
    { apply zlookup_ext; rewrite zlen_slice by lia; [done|]. intros k Hk. rewrite zlookup_slice by lia. decide_if.
      destruct v as [|b v]; [done|]. destruct Hh as [_ Hb]. apply (Hb k Hk). }
    rewrite Hsl, mem_write_Some, splice_zeros by (rewrite ?zlen_zeros; lia). done.
  - assert (Hnil : v = []) by (apply nil_length_inv; unfold zlen in *; lia).
    rewrite Hnil. change (zlen (@nil Z)) with 0. decide_if. by rewrite Z.sub_0_r.
Qed.

Lemma ram_clear_loop_ok n item k r data :
  r.(ram_data) = Some data -> zlen data = max_offset -> r.(ram_data_end) = max_offset - 1 ->
  0 <= item < DM_KEY_NUM_KEYS -> 0 <= k -> k + Z.of_nat n = max_index item ->
  exists data', ram_clear_loop n item (slot_offset item k) r =
                  Some (0, mkDmRam (Some data') (ram_data_end r) (ram_running r)) /\
    zlen data' = max_offset /\ clear_region item k data data' /\
    forall j, k <= j < max_index item -> slot_holds data' (slot_offset item j) [].
Proof.
  revert k r data. induction n as [|n IH]; intros k r data Hd Hlen Hend Hi Hk Hn.
  { exists data. cbn [ram_clear_loop]. rewrite <- Hd. destruct r. split; [done|]. split; [done|]. split; [done|]. intros j Hj. lia. }
  assert (Hs : slot_ok item k) by (split; [done|lia]). pose proof (slot_range _ _ Hs) as [Hoff Hmax].
  item_facts Hi. cbn [ram_clear_loop]. decide_if. rewrite Hd. cbn [mbind option_bind].
  rewrite zstore_put by lia. cbn [mbind option_bind]. rewrite next_slot by done.
  set (d1 := file_put (slot_offset item k) [0] data).
  destruct (IH (k + 1) (mkDmRam (Some d1) (ram_data_end r) (ram_running r)) d1) as (d2 & Hloop & Hl2 & Hc2 & Hz);
    [done| |done|done|lia..|].
  { unfold d1. rewrite zlen_file_put; [done|done|]. change (zlen [0]) with 1. lia. }
  exists d2. rewrite Hloop. split; [done|]. split; [done|]. split.
  - etrans; [by apply put_zero_region|]. by apply clear_region_next.
  - intros j Hj. destruct (decide (j = k)) as [-> | ?]; [|apply Hz; lia].
    apply (cleared_slot_stays _ _ _ _ Hs Hc2). by apply put_empty.
Qed.

Lemma ram_clear_ok r st item :
  ram_rep r st -> 0 <= item ->
  exists r', _ram_clear item r = Some ((spec_clear item st).1, r') /\ ram_rep r' (spec_clear item st).2.
Proof.
  intros (data & Hd & Hlen & Hend & Hrep) Hi. unfold _ram_clear, spec_clear.
  destruct (dm_valid item 0) eqn:Hv; cbn [negb fst snd].
  2: { exists r. split; [refuse|by exists data]. }
  apply dm_valid_ok in Hv; [|lia..]. pose proof (slot_range _ _ Hv) as [Hoff _].
  rewrite calculate_offset_ok by done. pose proof (proj1 Hv) as Hit. decide_if. decide_if.
  pose proof (max_index_range _ Hit).
  destruct (ram_clear_loop_ok (Z.to_nat (max_index item)) item 0 r data) as (d & Hloop & Hl & Hc & Hz); [done..|lia|].
  rewrite Hloop. eexists. split; [done|]. exists d. split; [done|]. split; [done|]. split; [done|].
  by apply (represents_clear data).
Qed.

#[refine] Instance dm_ram_laws : DmBackendLaws dm_ram := {| dm_rep := ram_rep |}.
Proof.
  - apply ram_write_ok.
  - apply ram_read_ok.
  - apply ram_clear_ok.
Defined.

(** ** The server over any backend with the laws *)
Section server_spec.
Context {B : Type} `{DmBackendLaws B}.

Definition server_rep (d : dataman B) (st : store * Z) : Prop :=
  dm_rep d.(g_dm_ops) st.1 /\ d.(dataman_clients_count) = st.2 /\ 0 <= st.2 <= 255.

Lemma spec_clear_result item st : (spec_clear item st).1 = 0 \/ (spec_clear item st).1 = -1.
Proof. unfold spec_clear. case_if; cbn; auto. Qed.

Lemma handle_request_spec rq d st :
  request_ok rq -> server_rep d st ->
  exists d', handle_request rq d = Some ((spec_request rq st).1, d') /\ server_rep d' (spec_request rq st).2.
Proof.
  intros (Hitem & Hindex & Hlen & Hdata & Htype) (Hrep & Hcl & Hrange). destruct st as [m clients]. cbn in *. subst clients.
  unfold handle_request, spec_request. case_if; [|case_if; [|case_if; [|case_if]]].
  - case_if.
    + rewrite mem_write_Some by (rewrite ?zlen_zeros, ?zlen_le_bytes; unfold sizeof_data; lia).
      cbn [mbind option_bind]. eexists. rewrite splice_zeros by (rewrite zlen_le_bytes; done).
      split; [done|]. split; [done|]. cbn. rewrite uwrap_small by lia. lia.
    + by exists d.
  - destruct (dm_write_spec (g_dm_ops d) m (rq_item rq) (rq_index rq) (rq_data rq) (rq_data_length rq)) as (b & -> & Hb);
      [done|lia..|done|].
    destruct (spec_write _ _ _ _ _) as [res m']. eexists. split; [done|]. done.
  - destruct (dm_read_spec (g_dm_ops d) m (rq_item rq) (rq_index rq) sizeof_data (rq_data_length rq)) as (b & -> & Hb);
      [done|lia..|].
    destruct (spec_read _ _ _ _ _) as [res data]. eexists. split; [done|]. done.
  - destruct (dm_clear_spec (g_dm_ops d) m (rq_item rq)) as (b & -> & Hb); [done|lia|].
    destruct (spec_clear _ _) as [res m']. eexists. split; [done|]. done.
  - by exists d.
Qed.

Lemma serve_spec rqs d st :
  Forall request_ok rqs -> server_rep d st ->
  exists d', serve rqs d = Some ((spec_serve rqs st).1, d') /\ server_rep d' (spec_serve rqs st).2.
Proof.
  revert d st. induction rqs as [|rq rqs IH]; intros d st Hok Hr; [by exists d|].
  apply Forall_cons in Hok as [Hrq Hok]. cbn [serve spec_serve].
  destruct (handle_request_spec rq d st Hrq Hr) as (d1 & -> & Hr1). cbn [mbind option_bind].
  destruct (spec_request rq st) as [rs st1]. cbn [fst snd] in *.
  destruct (IH d1 st1 Hok Hr1) as (d2 & -> & Hr2). cbn [mbind option_bind].
  destruct (spec_serve rqs st1) as [rss st2]. by exists d2.
Qed.
End server_spec.

(** ** A write that fails halfway *)

Lemma slot_holds_intro data off v :
  v <> [] -> zlookup data off = Some (zlen v) ->
  (forall k, 0 <= k < zlen v -> zlookup data (off + DM_SECTOR_HDR_SIZE + k) = zlookup v k) -> slot_holds data off v.
Proof. by destruct v. Qed.

(** A slot overwritten in front by a part of a new item of the same length. *)
Lemma put_partial off data old new c :
  0 <= off -> zlen old = zlen new -> 0 < c < zlen new -> zlen new <= sizeof_data -> slot_holds data off old ->
  slot_holds (file_put off (take (Z.to_nat (DM_SECTOR_HDR_SIZE + c)) (slot_bytes new)) data) off
    (take (Z.to_nat c) new ++ drop (Z.to_nat c) old).
Proof.
  unfold DM_SECTOR_HDR_SIZE, sizeof_data. intros Hoff Hlen Hc Hn Hold. set (hdr := [u8 (zlen new); 0; 0; 0]).
  assert (Hpre : take (Z.to_nat (4 + c)) (slot_bytes new) = hdr ++ take (Z.to_nat c) new).
  { unfold slot_bytes. fold hdr. rewrite take_app_ge by (cbn; lia). do 2 f_equal. cbn. lia. }
  rewrite Hpre. assert (Htl : zlen (take (Z.to_nat c) new) = c) by (apply zlen_take_buf; lia).
  assert (Hml : zlen (take (Z.to_nat c) new ++ drop (Z.to_nat c) old) = zlen new).
  { rewrite zlen_app, Htl. unfold zlen in *. rewrite length_drop. lia. }
  assert (Hpl : zlen (hdr ++ take (Z.to_nat c) new) = 4 + c) by (rewrite zlen_app, Htl; done).
  assert (Hb : forall k, 0 <= k < zlen old -> zlookup data (off + 4 + k) = zlookup old k)
    by (destruct old; [intros ? ?; unfold zlen in *; cbn in *; lia|apply Hold]).
  apply slot_holds_intro.
  - intros E. rewrite E in Hml. change (zlen (@nil Z)) with 0 in Hml. lia.
  - rewrite zlookup_file_put, Hpl by done. decide_if. rewrite Hml, Z.sub_diag.
    change (Some (u8 (zlen new)) = Some (zlen new)). f_equal. apply uwrap_small. lia.
  - unfold DM_SECTOR_HDR_SIZE. intros k Hk. rewrite Hml in Hk. rewrite zlookup_file_put, Hpl by done.
    rewrite (zlookup_app (take _ _)), Htl by lia. case_if; case_if; try lia.
    + rewrite zlookup_app by lia. change (zlen hdr) with 4. decide_if. f_equal. lia.
    + rewrite zlookup_drop by lia. case_if; [|rewrite Hb by lia; f_equal; lia].
      exfalso. destruct (zlookup_lt old k) as [x Hx]; [lia|]. rewrite <- Hb in Hx by lia.
      apply zlookup_Some_lt in Hx. lia.
Qed.

(** A write to the file is not atomic. When the system writes a part of the bytes
    and the second attempt fails, the operation reports an error, but the slot has
    become a mixture: it reads as an item with the first bytes of the new value and
    the rest of the old one. *)
Theorem failed_write_tears_item f item index old buf count c :
  slot_ok item index -> df_open f = true -> df_io f = [Fine; Short (DM_SECTOR_HDR_SIZE + c); Failed] ->
  slot_holds (df_data f) (slot_offset item index) old -> zlen old = count ->
  0 < c < count -> count <= slot_size item -> count <= zlen buf ->
  exists f', _file_write item index buf count f = Some (-1, f') /\
    slot_holds (df_data f') (slot_offset item index) (take (Z.to_nat c) buf ++ drop (Z.to_nat c) old).
Proof.
  intros Hs Ho Hio Hold Hlen Hc Hfit Hbuf. pose proof (slot_range _ _ Hs) as [Hoff _].
  pose proof (slot_size_range _ (proj1 Hs)) as Hsz. rewrite file_write_eq by (done || lia).
  set (new := take (Z.to_nat count) buf). assert (Hnew : zlen new = count) by (apply zlen_take_buf; lia).
  assert (Hpart : zlen (take (Z.to_nat (DM_SECTOR_HDR_SIZE + c)) (slot_bytes new)) = DM_SECTOR_HDR_SIZE + c).
  { apply zlen_take_buf. rewrite zlen_slot_bytes. unfold DM_SECTOR_HDR_SIZE. lia. }
  cbn [file_write_loop]. unfold sys_lseek, next_io. rewrite Hio, Ho. decide_if. rewrite Z.eqb_refl. cbn [negb].
  unfold sys_write, next_io. cbn [df_io df_set df_set_io df_open]. rewrite Ho. rewrite Hpart, zlen_slot_bytes, Hnew.
  unfold DM_SECTOR_HDR_SIZE in *. decide_if. decide_if. decide_if.
  cbn [df_data df_set df_set_io df_io df_open df_pos]. rewrite Ho.
  decide_if. eexists. split; [done|]. cbn [df_data df_set df_set_io].
  replace (take (Z.to_nat c) buf) with (take (Z.to_nat c) new) by (unfold new; rewrite take_take; f_equal; lia).
  apply put_partial; try done; lia.
Qed.

(** Clearing reports success when nothing was cleared: [_file_clear] leaves its
    loop with the result 0 when the length of a slot cannot be read, at the end of the
    file as well as on a read error, so a client is told that the items are gone while
    the storage is unchanged. *)
Theorem clear_unreadable_reports_success f item :
  0 <= item < DM_KEY_NUM_KEYS -> df_open f = true -> df_io f = [Fine; Failed] ->
  exists f', _file_clear item f = Some (0, f') /\ df_data f' = df_data f.
Proof.
  intros Hit Ho Hio. pose proof (max_index_range _ Hit). assert (Hs : slot_ok item 0) by (split; lia).
  pose proof (slot_range _ _ Hs) as [Hoff _]. unfold _file_clear. rewrite calculate_offset_ok by done. decide_if. decide_if.
  destruct (Z.to_nat (max_index item)) as [|m] eqn:Hm; [lia|]. cbn [file_clear_loop].
  unfold sys_lseek, next_io. rewrite Hio, Ho, Z.eqb_refl. cbn [negb].
  unfold sys_read, next_io. cbn [df_io df_set df_set_io df_open]. rewrite Ho. decide_if. by eexists.
Qed.

(** ** Initialisation of the file *)
Context (mission_len : zlen default_mission = sizeof_mission_s).
Context (stats_len : zlen default_stats = sizeof_mission_stats_entry_s).

(** The items of a file that has just been formatted. *)
Definition format_store : store :=
  <[(DM_KEY_SAFE_POINTS_STATE, 0) := default_stats]>
    (<[(DM_KEY_FENCE_POINTS_STATE, 0) := default_stats]>
      (<[(DM_KEY_MISSION_STATE, 0) := default_mission]> {[(DM_KEY_COMPAT, 0) := le_bytes 8 DM_COMPAT_KEY]})).

Lemma clear_items_ready n item f :
  ready f -> 0 <= item -> item + Z.of_nat n <= DM_KEY_NUM_KEYS ->
  exists f', clear_items n item f = Some f' /\ ready f' /\ same_flags f f' /\
    (forall i k, slot_ok i k -> item <= i < item + Z.of_nat n -> slot_holds (df_data f') (slot_offset i k) []) /\
    (forall i k, slot_ok i k -> ~ (item <= i < item + Z.of_nat n) -> keeps (df_data f) (df_data f') i k).
Proof.
  revert item f. induction n as [|n IH]; intros item f Hr Hi Hn.
  { exists f. split_and!; try done; [intros; lia | by intros ? ? ? ? ?]. }
  assert (Hit : 0 <= item < DM_KEY_NUM_KEYS) by lia. pose proof (max_index_range _ Hit).
  assert (Hv : slot_ok item 0) by (split; lia). pose proof (slot_range _ _ Hv) as [Hoff _].
  destruct (file_clear_loop_ready (Z.to_nat (max_index item)) item 0 f) as (f1 & Hloop & Hr1 & Hz1); [done..|lia|].
  destruct (file_clear_loop_same _ _ _ _ _ _ Hloop) as [Hf1 Hc]; [done|lia..|].
  destruct (IH (item + 1) f1 Hr1) as (f2 & Hrest & Hr2 & Hf2 & Hz2 & Hk2); [lia..|].
  exists f2. cbn [clear_items]. unfold _file_clear. rewrite calculate_offset_ok by done. decide_if. decide_if.
  rewrite Hloop. cbn [mbind option_bind].
  split_and!; [done|done|by etrans| |].
  - intros i k Hs Hin. destruct (decide (i = item)) as [-> | Hne]; [|apply Hz2; [done|lia]].
    item_facts (proj1 Hs). apply (Hk2 item k Hs); [lia| |].
    + change (zlen (@nil Z)) with 0. lia.
    + apply Hz1. by destruct Hs.
  - intros i k Hs Hout v Hv' Hh. apply (Hk2 i k Hs); [lia|done|].
    apply (clear_region_other item (df_data f) (df_data f1) i k); try done. lia.
Qed.

Lemma file_format_write f item v :
  ready f -> slot_ok item 0 -> zlen v = slot_size item ->
  exists f', _file_write item 0 v (zlen v) f = Some (zlen v, f') /\ ready f' /\ same_flags f f' /\
    df_data f' = file_put (slot_offset item 0) (slot_bytes v) (df_data f).
Proof.
  intros Hr Hs Hv. pose proof (slot_range _ _ Hs) as [Hoff _]. pose proof (proj1 Hs) as Hit. item_facts Hit.
  eexists. rewrite file_write_eq, file_write_loop_ready by (done || lia).
  rewrite take_ge by (unfold zlen; lia). done.
Qed.

Lemma represents_format f st item v :
  represents (df_data f) st -> slot_ok item 0 -> zlen v = slot_size item ->
  represents (file_put (slot_offset item 0) (slot_bytes v) (df_data f)) (<[(item, 0) := v]> st).
Proof.
  intros Hr Hs Hv. pose proof (slot_range _ _ Hs) as [Hoff _]. pose proof (proj1 Hs) as Hit. item_facts Hit.
  apply (represents_write (df_data f)); [done|done|lia| |].
  - apply put_slot; lia.
  - apply slot_write_same; [done|lia].
Qed.

Lemma state_slot_ok item :
  item = DM_KEY_SAFE_POINTS_STATE \/ item = DM_KEY_FENCE_POINTS_STATE \/ item = DM_KEY_MISSION_STATE \/
  item = DM_KEY_COMPAT -> slot_ok item 0.
Proof. intros [-> | [-> | [-> | ->]]]; done. Qed.

Lemma compat_len : zlen (le_bytes 8 DM_COMPAT_KEY) = sizeof_dataman_compat_s.
Proof. apply zlen_le_bytes. Qed.

(** Only the compatibility key is left once the other items are cleared. *)
Lemma represents_compat data :
  (forall i k, slot_ok i k -> 0 <= i < 9 -> slot_holds data (slot_offset i k) []) ->
  slot_holds data (slot_offset DM_KEY_COMPAT 0) (le_bytes 8 DM_COMPAT_KEY) ->
  represents data {[(DM_KEY_COMPAT, 0) := le_bytes 8 DM_COMPAT_KEY]}.
Proof.
  intros Hz Hc i k Hs. pose proof Hs as [Hit Hkk]. item_facts Hit. unfold contents. rewrite lookup_singleton.
  case_decide as He.
  - simplify_eq. change (default [] (Some (le_bytes 8 DM_COMPAT_KEY))) with (le_bytes 8 DM_COMPAT_KEY).
    split; [done|]. by rewrite compat_len.
  - change (default [] None) with (@nil Z). change (zlen (@nil Z)) with 0. split; [|lia]. apply Hz; [done|].
    assert (i <> 9); [|unfold DM_KEY_NUM_KEYS in *; lia].
    intros ->. apply He. unfold DM_KEY_COMPAT. f_equal. change (0 <= k < 1) in Hkk. lia.
Qed.

Lemma file_format_steps f f1 f2 f3 f4 f5 r1 r3 r4 r5 :
  _file_write DM_KEY_COMPAT 0 (le_bytes 8 DM_COMPAT_KEY) sizeof_dataman_compat_s f = Some (r1, f1) ->
  clear_items (Z.to_nat (DM_KEY_MISSION_STATE - DM_KEY_SAFE_POINTS_0 + 1)) DM_KEY_SAFE_POINTS_0 f1 = Some f2 ->
  _file_write DM_KEY_MISSION_STATE 0 default_mission sizeof_mission_s f2 = Some (r3, f3) ->
  _file_write DM_KEY_FENCE_POINTS_STATE 0 default_stats sizeof_mission_stats_entry_s f3 = Some (r4, f4) ->
  _file_write DM_KEY_SAFE_POINTS_STATE 0 default_stats sizeof_mission_stats_entry_s f4 = Some (r5, f5) ->
  file_format f = Some f5.
Proof.
  intros H1 H2 H3 H4 H5. unfold file_format.
  apply (bind_intro _ _ _ _ H1). cbn beta iota. apply (bind_intro _ _ _ _ H2). cbn beta iota.
  apply (bind_intro _ _ _ _ H3). cbn beta iota. apply (bind_intro _ _ _ _ H4). cbn beta iota.
  apply (bind_intro _ _ _ _ H5). reflexivity.
Qed.

Lemma file_format_ok f :
  ready f ->
  exists f', file_format f = Some f' /\ ready f' /\ same_flags f f' /\ represents (df_data f') format_store.
Proof.
  intros Hr.
  destruct (file_format_write f DM_KEY_COMPAT (le_bytes 8 DM_COMPAT_KEY)) as (f1 & Hw1 & Hr1 & Hf1 & Hd1);
    [done|by apply state_slot_ok; auto|by rewrite compat_len|].
  rewrite compat_len in Hw1.
  set (n := Z.to_nat (DM_KEY_MISSION_STATE - DM_KEY_SAFE_POINTS_0 + 1)).
  assert (Hn : Z.of_nat n = 9) by done.
  destruct (clear_items_ready n DM_KEY_SAFE_POINTS_0 f1) as (f2 & Hcl & Hr2 & Hf2 & Hz & Hk); [done..|by rewrite Hn|].
  rewrite Hn in Hz, Hk.
  assert (Hrep2 : represents (df_data f2) {[(DM_KEY_COMPAT, 0) := le_bytes 8 DM_COMPAT_KEY]}).
  { apply represents_compat; [intros i k Hs ?; apply Hz; [exact Hs|unfold DM_KEY_SAFE_POINTS_0; lia]|]. apply Hk; [done|unfold DM_KEY_COMPAT, DM_KEY_SAFE_POINTS_0; lia|done|]. rewrite Hd1.
    apply put_slot; [|by rewrite compat_len]. by apply slot_range. }
  destruct (file_format_write f2 DM_KEY_MISSION_STATE default_mission) as (f3 & Hw3 & Hr3 & Hf3 & Hd3);
    [done|by apply state_slot_ok; auto|done|].
  rewrite mission_len in Hw3.
  destruct (file_format_write f3 DM_KEY_FENCE_POINTS_STATE default_stats) as (f4 & Hw4 & Hr4 & Hf4 & Hd4);
    [done|by apply state_slot_ok; auto|done|].
  rewrite stats_len in Hw4.
  destruct (file_format_write f4 DM_KEY_SAFE_POINTS_STATE default_stats) as (f5 & Hw5 & Hr5 & Hf5 & Hd5);
    [done|by apply state_slot_ok; auto|done|].
  rewrite stats_len in Hw5.
  exists f5. split_and!; [exact (file_format_steps _ _ _ _ _ _ _ _ _ _ Hw1 Hcl Hw3 Hw4 Hw5)|done|by rewrite Hf1, Hf2, Hf3, Hf4|].
  unfold format_store. rewrite Hd5. apply represents_format; [|by apply state_slot_ok; auto|done].
  rewrite Hd4. apply represents_format; [|by apply state_slot_ok; auto|done].
  rewrite Hd3. apply represents_format; [|by apply state_slot_ok; auto|done]. done.
Qed.

(** The read of the compatibility key by [_file_initialize]. *)
Lemma read_compat f :
  ready f ->
  exists r buf f', _file_read DM_KEY_COMPAT 0 (zeros sizeof_dataman_compat_s) sizeof_dataman_compat_s f = Some (r, buf, f') /\
    ready f' /\ same_flags f f' /\ df_data f' = df_data f /\
    (slot_holds (df_data f) (slot_offset DM_KEY_COMPAT 0) (le_bytes 8 DM_COMPAT_KEY) ->
     le_value buf = DM_COMPAT_KEY).
Proof.
  intros Hr. assert (Hs : slot_ok DM_KEY_COMPAT 0) by (apply state_slot_ok; auto).
  pose proof (slot_range _ _ Hs) as [Hoff _]. rewrite file_read_eq, file_read_loop_ready by done.
  set (bytes := slice _ _ _).
  destruct (read_result DM_KEY_COMPAT sizeof_dataman_compat_s (zeros sizeof_dataman_compat_s) bytes) as [r buf] eqn:Hres.
  exists r, buf, (df_set f (df_data f) (slot_offset DM_KEY_COMPAT 0 + zlen bytes)).
  split; [done|]. split; [done|]. split; [done|]. split; [done|]. intros Hk.
  unfold bytes in Hres.
  rewrite (read_result_slot DM_KEY_COMPAT 0 (df_data f) _ sizeof_dataman_compat_s sizeof_dataman_compat_s Hs Hk) in Hres
    by (rewrite ?compat_len; done).
  rewrite compat_len, Z.sub_diag in Hres.
  change (sizeof_dataman_compat_s <? sizeof_dataman_compat_s) with false in Hres. cbn iota in Hres.
  apply (f_equal snd) in Hres. cbn [snd] in Hres. subst buf. change (zeros 0) with (@nil Z).
  rewrite app_nil_r, le_value_le_bytes. apply uwrap_idemp. done.
Qed.

Lemma file_initialize_ok f :
  df_io f = [] ->
  exists f', _file_initialize max_offset f = Some (0, f') /\ ready f' /\ df_running f' = true /\ df_exists f' = true /\
    (df_exists f = true /\ df_data f' = df_data f \/ represents (df_data f') format_store) /\
    (df_exists f = true ->
     slot_holds (df_data f) (slot_offset DM_KEY_COMPAT 0) (le_bytes 8 DM_COMPAT_KEY) -> df_data f' = df_data f) /\
    (df_exists f = false -> represents (df_data f') format_store).
Proof.
  intros Hio. unfold _file_initialize, sys_open. rewrite Hio. cbn [negb].
  set (f1 := df_set (df_set_open f true true) (df_data f) 0). assert (Hr1 : ready f1) by (split; [done|split; [exact Hio|done]]).
  rewrite sys_lseek_ready by done. pose proof max_offset_range. rewrite uwrap_small by lia. rewrite Z.eqb_refl. cbn [negb].
  set (f2 := df_set_silence (df_set f1 (df_data f1) max_offset) true).
  destruct (read_compat f2) as (r & buf & f3 & Hrd & Hr3 & (Hex & _) & Hd3 & Hkey); [exact Hr1|].
  rewrite Hrd. cbn [mbind option_bind]. set (f4 := df_set_silence f3 false).
  assert (Hr4 : ready f4) by exact Hr3. assert (Hd4 : df_data f4 = df_data f) by exact Hd3.
  assert (Hex4 : df_exists f4 = true) by exact Hex.
  destruct (negb (df_exists f) || negb (le_value buf =? DM_COMPAT_KEY)) eqn:Hfmt.
  - destruct (file_format_ok f4 Hr4) as (f5 & Hf5 & Hr5 & (Hex5 & _) & Hrep). rewrite Hf5. cbn [mbind option_bind].
    eexists. split; [done|]. split; [exact Hr5|]. split; [done|]. split; [by rewrite <- Hex4|].
    split; [by right|]. split; [|done]. intros He Hk. exfalso.
    rewrite (Hkey Hk), He, Z.eqb_refl in Hfmt. done.
  - cbn [mbind option_bind]. eexists. split; [done|]. split; [exact Hr4|]. split; [done|]. split; [done|].
    apply orb_false_iff in Hfmt as [He _]. apply negb_false_iff in He.
    split; [by left|]. split; [done|]. intros Hn. congruence.
Qed.

(** ** What clients rely on *)

(** Requests that leave the compatibility key alone keep it. *)
Lemma spec_request_compat rq st :
  rq.(rq_item) <> DM_KEY_COMPAT ->
  contents (spec_request rq st).2.1 DM_KEY_COMPAT 0 = contents st.1 DM_KEY_COMPAT 0.
Proof.
  intros Hne. destruct st as [m clients]. unfold spec_request.
  case_if; [by case_if|]. case_if; [|case_if; [|case_if]]; try done.
  - unfold spec_write. case_if; [done|]. case_if; [done|]. cbn [fst snd]. rewrite contents_insert.
    by rewrite decide_False by congruence.
  - by destruct (spec_read _ _ _ _ _).
  - unfold spec_clear. case_if; [done|]. cbn [fst snd]. rewrite contents_clear. by rewrite decide_False by congruence.
Qed.

Lemma spec_serve_compat rqs st :
  Forall (fun rq => rq.(rq_item) <> DM_KEY_COMPAT) rqs ->
  contents (spec_serve rqs st).2.1 DM_KEY_COMPAT 0 = contents st.1 DM_KEY_COMPAT 0.
Proof.
  revert st. induction rqs as [|rq rqs IH]; intros st Hne; [done|]. apply Forall_cons in Hne as [Hrq Hne].
  cbn [spec_serve]. pose proof (spec_request_compat rq st Hrq) as H1. destruct (spec_request rq st) as [rs st1].
  specialize (IH st1 Hne). destruct (spec_serve rqs st1) as [rss st2]. cbn [fst snd] in *. congruence.
Qed.

Lemma task_start_file f clients :
  df_io f = [] -> 0 <= clients <= 255 ->
  exists f', task_start clients f = Some (inr (mkDataman f' clients (zeros DM_NUMBER_OF_FUNCS))) /\
    _file_initialize max_offset f = Some (0, f').
Proof.
  intros Hio Hc. destruct (file_initialize_ok f Hio) as (f' & Hinit & _). exists f'. split; [|done].
  unfold task_start. cbn [dm_initialize dm_file_operations]. rewrite Hinit. done.
Qed.

(** The first boot, service, a stop and a restart, on a file that did not exist. *)
Lemma file_lifecycle f rqs1 rqs2 :
  df_io f = [] -> df_exists f = false -> Forall request_ok rqs1 -> Forall request_ok rqs2 ->
  Forall (fun rq => rq.(rq_item) <> DM_KEY_COMPAT) rqs1 ->
  let st1 := (spec_serve rqs1 (format_store, 1)).2 in
  exists d1 d2 d3 d4,
    task_start 1 f = Some (inr d1) /\
    serve rqs1 d1 = Some ((spec_serve rqs1 (format_store, 1)).1, d2) /\
    task_start d2.(dataman_clients_count) (dm_shutdown d2.(g_dm_ops)) = Some (inr d3) /\
    serve rqs2 d3 = Some ((spec_serve rqs2 st1).1, d4).
Proof.
  intros Hio Hnew Hok1 Hok2 Hkey st1.
  destruct (task_start_file f 1 Hio) as (f1 & Hstart & Hinit); [lia|].
  destruct (file_initialize_ok f Hio) as (f1' & Hinit' & Hr1 & _ & Hex1 & _ & _ & Hfmt).
  rewrite Hinit in Hinit'. injection Hinit' as <-.
  destruct (serve_spec rqs1 (mkDataman f1 1 (zeros DM_NUMBER_OF_FUNCS)) (format_store, 1) Hok1) as (d2 & Hs1 & Hrep2).
  { split; [|split; [done|cbn; lia]]. split; [done|]. by apply Hfmt. }
  fold st1 in Hrep2. destruct Hrep2 as ([Hr2 Hdata2] & Hcl2 & Hrange2).
  set (f2 := dm_shutdown (g_dm_ops d2)). assert (Hio2 : df_io f2 = []) by apply Hr2.
  destruct (task_start_file f2 (dataman_clients_count d2) Hio2) as (f3 & Hstart3 & Hinit3); [lia|].
  destruct (file_initialize_ok f2 Hio2) as (f3' & Hinit3' & Hr3 & _ & _ & _ & Hsame & Hfresh).
  rewrite Hinit3 in Hinit3'. injection Hinit3' as <-.
  assert (Hcompat : contents st1.1 DM_KEY_COMPAT 0 = le_bytes 8 DM_COMPAT_KEY)
    by (unfold st1; rewrite spec_serve_compat by done; done).
  assert (Hd3 : df_data f3 = df_data (g_dm_ops d2)).
  { apply Hsame; [apply Hr2|]. rewrite <- Hcompat. apply (Hdata2 DM_KEY_COMPAT 0). by apply state_slot_ok; auto. }
  destruct (serve_spec rqs2 (mkDataman f3 (dataman_clients_count d2) (zeros DM_NUMBER_OF_FUNCS)) st1 Hok2) as (d4 & Hs2 & _).
  { split; [|done]. split; [done|]. cbn [g_dm_ops]. by rewrite Hd3. }
  eexists _, d2, _, d4. done.
Qed.

Lemma ram_lifecycle (r : dm_ram) rqs :
  malloc_ok = true -> Forall request_ok rqs ->
  exists d1 d2, task_start 1 r = Some (inr d1) /\ serve rqs d1 = Some ((spec_serve rqs (∅, 1)).1, d2).
Proof.
  intros Hm Hok. unfold task_start. cbn [dm_initialize dm_ram_operations]. unfold _ram_initialize. rewrite Hm. cbn [negb].
  pose proof max_offset_range.
  destruct (serve_spec rqs (mkDataman (mkDmRam (Some (zeros max_offset)) (max_offset - 1) true) 1 (zeros DM_NUMBER_OF_FUNCS))
              (∅, 1) Hok) as (d2 & Hs & _).
  { split; [|split; [done|cbn; lia]]. exists (zeros max_offset). split; [done|]. split; [rewrite zlen_zeros; lia|].
    split; [done|]. intros i k Hsl. cbn [fst]. unfold contents. rewrite lookup_empty.
    change (default [] None) with (@nil Z). change (zlen (@nil Z)) with 0.
    pose proof (slot_range _ _ Hsl). destruct Hsl as [Hi _]. item_facts Hi. split; [|lia].
    right. apply zlookup_zeros. lia. }
  eexists _, d2. split; [reflexivity|done].
Qed.

(** C9: Both backends of the dataman server implement one abstract store. Over a
    file that does not exist yet, the server formats it, answers every sequence of
    requests as the map from items and indices to the bytes last written does, and,
    stopped and started again, goes on from where it was; over RAM it answers as the
    initially empty map does. *)
Theorem dataman_refines_store (f : dm_file) (r : dm_ram) rqs1 rqs2 :
  df_io f = [] -> df_exists f = false -> malloc_ok = true ->
  Forall request_ok rqs1 -> Forall request_ok rqs2 ->
  Forall (fun rq => rq.(rq_item) <> DM_KEY_COMPAT) rqs1 ->
  (exists d1 d2 d3 d4,
    task_start 1 f = Some (inr d1) /\
    serve rqs1 d1 = Some ((spec_serve rqs1 (format_store, 1)).1, d2) /\
    task_start d2.(dataman_clients_count) (dm_shutdown d2.(g_dm_ops)) = Some (inr d3) /\
    serve rqs2 d3 = Some ((spec_serve rqs2 (spec_serve rqs1 (format_store, 1)).2).1, d4)) /\
  (exists d1 d2, task_start 1 r = Some (inr d1) /\ serve rqs1 d1 = Some ((spec_serve rqs1 (∅, 1)).1, d2)).
Proof. intros. split; [by apply file_lifecycle|by apply ram_lifecycle]. Qed.

(** C20: Whatever the file contains, and however its system calls fail, fall short or
    stop at a power loss: a write changes no slot but its own, and when it reports
    success the slot holds the bytes; clearing an item changes no other item; a read
    changes nothing; and none of them leaves its buffers. *)
Theorem dataman_faults_isolated f item index buf count :
  0 <= item -> 0 <= index -> 0 <= count -> zlen buf = sizeof_data ->
  (exists r f', _file_write item index buf count f = Some (r, f') /\
    (forall i k, slot_ok i k -> (i, k) <> (item, index) -> keeps (df_data f) (df_data f') i k) /\
    (0 <= r -> r = count /\ slot_holds (df_data f') (slot_offset item index) (take (Z.to_nat count) buf))) /\
  (exists r f', _file_clear item f = Some (r, f') /\
    forall i k, slot_ok i k -> i <> item -> keeps (df_data f) (df_data f') i k) /\
  (exists r buf' f', _file_read item index (zeros sizeof_data) count f = Some (r, buf', f') /\ df_data f' = df_data f).
Proof.
  intros Hi Hx Hc Hb. split; [|split].
  - destruct (guard_cases item index count Hi Hx) as [(Hs & _ & Hfit) | Hbad].
    + pose proof (slot_range _ _ Hs) as [Hoff _]. pose proof (proj1 Hs) as Hit. item_facts Hit.
      rewrite file_write_eq by (done || lia).
      set (src := take (Z.to_nat count) buf). assert (Hsrc : zlen src = count) by (apply zlen_take_buf; lia).
      destruct (file_write_loop 2 _ _ f) as [ok f'] eqn:Hloop.
      destruct (file_write_loop_same _ _ _ _ _ _ Hloop) as (_ & Hsame & Hok); [done|done|].
      rewrite zlen_slot_bytes, Hsrc in Hsame. unfold DM_SECTOR_HDR_SIZE in Hsame.
      eexists _, f'. split; [done|]. split.
      * intros i k Hs' Hne. apply (keeps_other _ _ item index i k (4 + count)); try done. lia.
      * destruct ok; [|lia]. intros _. split; [done|]. destruct Hok as [d ->]; [done|]. apply put_slot; lia.
    + rewrite file_write_refused by done. eexists _, f. split; [done|]. split; [by intros ? ? ? ? ? ?|].
      destruct (dm_valid item index); unfold E2BIG; lia.
  - unfold _file_clear. destruct (dm_valid item 0) eqn:Hv.
    + apply dm_valid_ok in Hv; [|lia..]. pose proof (slot_range _ _ Hv) as [Hoff _]. pose proof (proj1 Hv) as Hit.
      pose proof (max_index_range _ Hit). rewrite calculate_offset_ok by done. decide_if. decide_if.
      destruct (file_clear_loop _ item (slot_offset item 0) f) as [r f'] eqn:Hloop.
      destruct (file_clear_loop_same _ _ _ _ _ _ Hloop) as [_ Hcl]; [done|lia..|].
      eexists r, f'. split; [done|]. intros i k Hs Hne. by apply (clear_region_other item).
    + eexists (-1), f. split; [refuse|]. by intros ? ? ? ? ? ?.
  - destruct (guard_cases item index count Hi Hx) as [(Hs & _ & Hfit) | Hbad].
    2: { rewrite file_read_refused by done. by eexists _, _, f. }
    pose proof (slot_size_range _ (proj1 Hs)).
    rewrite file_read_eq by (done || rewrite ?zlen_zeros; lia).
    destruct (file_read_loop 2 _ count f) as [res f'] eqn:Hloop.
    destruct (file_read_loop_same _ _ _ _ _ _ Hloop Hc) as (_ & Hd & _).
    destruct res as [[len bytes]|]; [destruct (read_result _ _ _ _) as [r buf']|]; by eexists _, _, f'.
Qed.

(** ** A power loss while the file is formatted *)
Definition dead (f : dm_file) : Prop := exists l, df_io f = Off :: l.

Lemma sys_dead f : dead f ->
  (forall off, sys_lseek f off = (-1, f)) /\ (forall src, sys_write f src = (-1, f)) /\
  (forall n, sys_read f n = (-1, [], f)).
Proof. intros [l Hl]. unfold sys_lseek, sys_write, sys_read, next_io. by rewrite Hl. Qed.

Lemma file_write_dead n off bytes f : dead f -> file_write_loop n off bytes f = (false, f).
Proof.
  intros Hd. induction n as [|n IH]; [done|]. cbn. by rewrite (proj1 (sys_dead f Hd)).
Qed.

Lemma file_format_write_dead item v f :
  dead f -> slot_ok item 0 -> zlen v = slot_size item -> _file_write item 0 v (zlen v) f = Some (-1, f).
Proof.
  intros Hd Hs Hv. pose proof (proj1 Hs) as Hit. item_facts Hit.
  rewrite file_write_eq by (done || lia). by rewrite file_write_dead.
Qed.

Lemma clear_items_dead n item f :
  dead f -> 0 <= item -> item + Z.of_nat n <= DM_KEY_NUM_KEYS -> clear_items n item f = Some f.
Proof.
  intros Hd. revert item. induction n as [|n IH]; intros item Hi Hn; [done|].
  assert (Hit : 0 <= item < DM_KEY_NUM_KEYS) by lia. pose proof (max_index_range _ Hit).
  assert (Hs : slot_ok item 0) by (split; lia). pose proof (slot_range _ _ Hs) as [Hoff _].
  cbn [clear_items]. unfold _file_clear. rewrite calculate_offset_ok by done. decide_if. decide_if.
  destruct (Z.to_nat (max_index item)) as [|m] eqn:Hm; [lia|]. cbn [file_clear_loop].
  rewrite (proj1 (sys_dead f Hd)). rewrite (proj2 (Z.eqb_neq (-1) (slot_offset item 0))) by lia. cbn [negb mbind option_bind].
  apply IH; lia.
Qed.

(** The first write of the format is carried out, then the power is lost. *)
Lemma file_format_power_loss f l :
  df_open f = true -> df_io f = [Fine; Fine; Off] ++ l ->
  exists f', file_format f = Some f' /\ same_flags f f' /\
    df_data f' = file_put (slot_offset DM_KEY_COMPAT 0) (slot_bytes (le_bytes 8 DM_COMPAT_KEY)) (df_data f).
Proof.
  intros Ho Hio. assert (Hs : slot_ok DM_KEY_COMPAT 0) by (apply state_slot_ok; auto).
  pose proof (slot_range _ _ Hs) as [Hoff _].
  set (bytes := slot_bytes (le_bytes 8 DM_COMPAT_KEY)). set (off := slot_offset DM_KEY_COMPAT 0) in *.
  set (f1 := df_set (df_set_io f (Off :: l)) (file_put off bytes (df_data f)) (off + zlen bytes)).
  assert (Hd1 : dead f1) by (by exists l).
  assert (Hw : _file_write DM_KEY_COMPAT 0 (le_bytes 8 DM_COMPAT_KEY) sizeof_dataman_compat_s f = Some (8, f1)).
  { rewrite file_write_eq by (rewrite ?compat_len; done).
    rewrite take_ge by (rewrite length_le_bytes; done). fold bytes off.
    cbn [file_write_loop]. unfold sys_lseek, next_io. rewrite Hio, Ho. cbn [app]. decide_if. rewrite Z.eqb_refl. cbn [negb].
    unfold sys_write, next_io. cbn [df_io df_set df_set_io df_open]. rewrite Ho. cbn [df_pos df_data df_set df_set_io].
    pose proof (zlen_nonneg bytes). decide_if. rewrite Z.eqb_refl. done. }
  exists f1. split; [|done].
  eapply file_format_steps; [exact Hw|apply clear_items_dead; done| | |].
  - rewrite <- mission_len. apply file_format_write_dead; [done|by apply state_slot_ok; auto|done].
  - rewrite <- stats_len. apply file_format_write_dead; [done|by apply state_slot_ok; auto|done].
  - rewrite <- stats_len. apply file_format_write_dead; [done|by apply state_slot_ok; auto|done].
Qed.

Lemma file_read_loop_two_calls n off count f l :
  df_open f = true -> df_io f = Fine :: Fine :: l -> 0 <= off ->
  let bytes := slice off (count + DM_SECTOR_HDR_SIZE) (df_data f) in
  file_read_loop (S n) off count f =
  (Some (zlen bytes, bytes), df_set (df_set_io f l) (df_data f) (off + zlen bytes)).
Proof.
  intros Ho Hio Hoff bytes. cbn [file_read_loop]. unfold sys_lseek, next_io. rewrite Hio, Ho.
  rewrite Z.eqb_refl. cbn [negb andb]. rewrite (proj2 (Z.ltb_ge off 0)) by lia. cbn [andb].
  unfold sys_read, next_io. cbn [df_io df_set df_set_io df_open]. rewrite Ho.
  cbn [df_pos df_set df_data df_set_io]. rewrite Z.min_id. fold bytes. pose proof (zlen_nonneg bytes). by decide_if.
Qed.

(** The medium keeps the file over a loss of power; the descriptor and the flags
    start anew. *)
Definition power_cycle (f : dm_file) : dm_file := mkDmFile f.(df_exists) f.(df_data) 0 [] false false false.

(** A power loss while a file of an older format is reformatted makes the old
    items valid. [_file_initialize] writes the new compatibility key before it clears
    the items: when the power is lost right after this write, the next boot finds the
    current key, does not format the file, and serves every item of the old format. *)
Theorem format_power_loss_accepts_stale f v :
  df_exists f = true -> df_io f = replicate 6 Fine ++ [Off] ->
  slot_holds (df_data f) (slot_offset DM_KEY_COMPAT 0) v -> zlen v <= sizeof_dataman_compat_s ->
  le_value (v ++ zeros (sizeof_dataman_compat_s - zlen v)) <> DM_COMPAT_KEY ->
  exists f1 f2,
    _file_initialize max_offset f = Some (0, f1) /\
    _file_initialize max_offset (power_cycle f1) = Some (0, f2) /\ df_running f2 = true /\
    forall i k, slot_ok i k -> i <> DM_KEY_COMPAT -> keeps (df_data f) (df_data f2) i k.
Proof.
  intros Hex Hio Hv Hvl Hold. assert (Hs : slot_ok DM_KEY_COMPAT 0) by (apply state_slot_ok; auto).
  pose proof (slot_range _ _ Hs) as [Hoff _]. set (off := slot_offset DM_KEY_COMPAT 0) in *.
  set (data1 := file_put off (slot_bytes (le_bytes 8 DM_COMPAT_KEY)) (df_data f)).
  assert (H1 : exists f1, _file_initialize max_offset f = Some (0, f1) /\ df_exists f1 = true /\ df_data f1 = data1).
  { unfold _file_initialize, sys_open. rewrite Hio, Hex. cbn [replicate app negb].
    unfold sys_lseek, next_io. cbn [df_io df_open df_set df_set_io df_set_open].
    pose proof max_offset_range. rewrite uwrap_small by lia. rewrite Z.eqb_refl. cbn [negb].
    rewrite file_read_eq by done. erewrite file_read_loop_two_calls by done. fold off.
    cbn [df_data df_set df_set_silence df_set_io df_set_open]. unfold off.
    rewrite (read_result_slot DM_KEY_COMPAT 0 (df_data f) v) by done. fold off. rewrite (proj2 (Z.ltb_ge _ _)) by lia. cbn [mbind option_bind negb orb].
    rewrite (proj2 (Z.eqb_neq _ _) Hold). cbn [negb].
    match goal with |- context [file_format ?g] => destruct (file_format_power_loss g []) as (f1 & -> & Hfl & Hd) end;
      [done|done|].
    cbn [mbind option_bind]. eexists. split; [done|]. split; [exact (proj1 Hfl)|exact Hd]. }
  destruct H1 as (f1 & Hf1 & Hex1 & Hd1).
  destruct (file_initialize_ok (power_cycle f1)) as (f2 & Hf2 & _ & Hrun & _ & _ & Hsame & _); [done|].
  exists f1, f2. split; [done|]. split; [done|]. split; [done|]. intros i k Hsl Hne.
  rewrite Hsame; [|done|cbn [df_data power_cycle]; rewrite Hd1; apply put_slot; [done|by rewrite compat_len]].
  cbn [df_data power_cycle]. rewrite Hd1.
  apply (keeps_other _ _ DM_KEY_COMPAT 0 i k (size_hdr DM_KEY_COMPAT)); [done|done|congruence|done|].
  apply slot_write_same; [done|]. by rewrite compat_len.
Qed.
End dataman.

(** ** The claims on a small layout: 40 bytes of mission state, two mission items *)
Definition sample_bytes (n : Z) : list Z := map Z.of_nat (seq 1 (Z.to_nat n)).
Definition sample_uninit (_ : nat) : Z := 170.
Definition new_file : dm_file := mkDmFile false [] 0 [] false false false.

Definition sample_requests : list dataman_request_s :=
  [mkRequest 7 0 DM_GET_ID 0 0 (zeros 56) 0;
   mkRequest 8 1 DM_WRITE DM_KEY_WAYPOINTS_OFFBOARD_0 1 (sample_bytes 56) 56;
   mkRequest 9 1 DM_READ DM_KEY_WAYPOINTS_OFFBOARD_0 1 (zeros 56) 56].

Lemma sample_requests_ok : Forall request_ok sample_requests.
Proof. unfold sample_requests. repeat apply Forall_cons_2; try apply Forall_nil_2; split_and!; done. Qed.

Lemma sample_fits : 0 < 40 <= sizeof_data /\ 0 < 2 <= 10000000.
Proof. unfold sizeof_data. lia. Qed.

Lemma dataman_refines_store_witness :
  exists d1 d2 d3 d4,
    @task_start 40 2 dm_file (dm_file_operations 40 2 sample_uninit (sample_bytes 40) (sample_bytes 8)) 1 new_file
      = Some (inr d1) /\
    @serve dm_file (dm_file_operations 40 2 sample_uninit (sample_bytes 40) (sample_bytes 8)) sample_requests d1
      = Some ((spec_serve 40 2 sample_requests (format_store 40 (sample_bytes 40) (sample_bytes 8), 1)).1, d2) /\
    @task_start 40 2 dm_file (dm_file_operations 40 2 sample_uninit (sample_bytes 40) (sample_bytes 8))
      (dataman_clients_count _ d2) (_file_shutdown (g_dm_ops _ d2)) = Some (inr d3) /\
    @serve dm_file (dm_file_operations 40 2 sample_uninit (sample_bytes 40) (sample_bytes 8)) sample_requests d3
      = Some ((spec_serve 40 2 sample_requests
                 (spec_serve 40 2 sample_requests (format_store 40 (sample_bytes 40) (sample_bytes 8), 1)).2).1, d4).
Proof.
  apply (dataman_refines_store 40 2 sample_uninit true (sample_bytes 40) (sample_bytes 8)
           (proj1 sample_fits) (proj2 sample_fits) eq_refl eq_refl new_file (mkDmRam None 0 false)
           sample_requests sample_requests eq_refl eq_refl eq_refl sample_requests_ok sample_requests_ok).
  unfold sample_requests. repeat apply Forall_cons_2; try apply Forall_nil_2; done.
Defined.

Lemma dataman_faults_isolated_witness :
  exists r f', _file_write 40 2 6 1 (sample_bytes 56) 56 (mkDmFile true (zeros 9000) 0 [Failed; Fine; Short 20] true true false)
                 = Some (r, f') /\
    keeps 40 2 (zeros 9000) (df_data f') 6 0.
Proof.
  destruct (dataman_faults_isolated 40 2 sample_uninit (proj1 sample_fits) (proj2 sample_fits)
              (mkDmFile true (zeros 9000) 0 [Failed; Fine; Short 20] true true false) 6 1 (sample_bytes 56) 56)
    as [(r & f' & Hw & Hk & _) _]; [lia..|done|].
  exists r, f'. split; [exact Hw|]. by apply (Hk 6 0).
Defined.

Definition old_key : list Z := le_bytes 8 (Z.shiftl 4 32).
Definition old_file : dm_file :=
  mkDmFile true (file_put (slot_offset 40 2 DM_KEY_COMPAT 0) (slot_bytes old_key) (zeros 8756)) 0
    (replicate 6 Fine ++ [Off]) false false false.

Lemma format_power_loss_accepts_stale_witness :
  exists f1 f2,
    _file_initialize 40 2 sample_uninit (sample_bytes 40) (sample_bytes 8) (max_offset 40 2) old_file = Some (0, f1) /\
    _file_initialize 40 2 sample_uninit (sample_bytes 40) (sample_bytes 8) (max_offset 40 2) (power_cycle f1) = Some (0, f2) /\
    df_running f2 = true /\
    forall i k, slot_ok 2 i k -> i <> DM_KEY_COMPAT -> keeps 40 2 (df_data old_file) (df_data f2) i k.
Proof.
  apply (format_power_loss_accepts_stale 40 2 sample_uninit (sample_bytes 40) (sample_bytes 8)
           (proj1 sample_fits) (proj2 sample_fits) eq_refl eq_refl old_file old_key eq_refl eq_refl).
  - apply put_slot; [vm_compute|]; done.
  - done.
  - vm_compute. congruence.
Defined.

Definition torn_file : dm_file :=
  mkDmFile true (file_put (slot_offset 40 2 DM_KEY_FENCE_POINTS_STATE 0) (slot_bytes (sample_bytes 8)) []) 0
    [Fine; Short (DM_SECTOR_HDR_SIZE + 4); Failed] true true false.

Lemma failed_write_tears_item_witness :
  exists f', _file_write 40 2 DM_KEY_FENCE_POINTS_STATE 0 (zeros 8) 8 torn_file = Some (-1, f') /\
    slot_holds (df_data f') (slot_offset 40 2 DM_KEY_FENCE_POINTS_STATE 0) [0; 0; 0; 0; 5; 6; 7; 8].
Proof.
  apply (failed_write_tears_item 40 2 (proj1 sample_fits) (proj2 sample_fits) torn_file
           DM_KEY_FENCE_POINTS_STATE 0 (sample_bytes 8) (zeros 8) 8 4); try done.
  apply put_slot; [vm_compute|]; done.
Defined.

Lemma clear_unreadable_reports_success_witness :
  exists f', _file_clear 40 2 DM_KEY_WAYPOINTS_OFFBOARD_0 (mkDmFile true (zeros 9000) 0 [Fine; Failed] true true false) = Some (0, f') /\
    df_data f' = zeros 9000.
Proof.
  apply (clear_unreadable_reports_success 40 2 (proj1 sample_fits) (proj2 sample_fits)
           (mkDmFile true (zeros 9000) 0 [Fine; Failed] true true false) DM_KEY_WAYPOINTS_OFFBOARD_0); try done.
Defined.
