(* ===== verification/DatamanClient.v ===== *)
(** * Dataman client and cache

    [src/lib/dataman_client/DatamanClient.{hpp,cpp}]: the client that talks to the
    dataman server over the topics [dataman_request] and [dataman_response], with its
    synchronous and asynchronous operations, and the cache of items that the navigator
    uses. Both topics hold one message, so that a publication replaces one that has
    not been read. The server, the other clients and the time act between the steps
    of the client as a script says; the server is any instance of [DmServer], the
    abstract store of [Dataman] being one. *)
From stdpp Require Import base list gmap.
From Stdlib Require Import ZArith Lia.
From S2P Require Import Prelude Dataman.

Definition CLIENT_ID_NOT_SET : Z := 0.

(** What a server does with a request. *)
Class DmServer (S : Type) := server_handle : dataman_request_s -> S -> dataman_response_s * S.

(** ** The topics and what happens on them while the client waits *)
Inductive happening :=
  | Server_takes                       (* the server copies the request *)
  | Server_answers                     (* it carries it out and publishes the response *)
  | Foreign (rq : dataman_request_s)   (* another client publishes a request *)
  | Tick (dt : Z).                     (* time passes *)

Record wait := mkWait {
  w_events : list happening;
  w_error : bool;                      (* px4_poll returns an error *)
}.

Record bus (S : Type) := mkBus {
  b_srv : S;
  b_in_service : option dataman_request_s;
  b_request : option dataman_request_s;      (* published, not yet taken *)
  b_response : option dataman_response_s;    (* published, not yet read by the client *)
  b_now : Z;
  b_script : list wait;
  b_served : list (dataman_request_s * dataman_response_s);
}.
Arguments mkBus {S}.
Arguments b_srv {S}.
Arguments b_in_service {S}.
Arguments b_request {S}.
Arguments b_response {S}.
Arguments b_now {S}.
Arguments b_script {S}.
Arguments b_served {S}.

Section bus.
Context {S : Type} `{DmServer S}.
Implicit Types b : bus S.

Definition happen (e : happening) (b : bus S) : bus S :=
  match e with
  | Server_takes =>
      match b.(b_in_service), b.(b_request) with
      | None, Some rq => mkBus b.(b_srv) (Some rq) None b.(b_response) b.(b_now) b.(b_script) b.(b_served)
      | _, _ => b
      end
  | Server_answers =>
      match b.(b_in_service) with
      | Some rq =>
          let '(rs, srv) := server_handle rq b.(b_srv) in
          mkBus srv None b.(b_request) (Some rs) b.(b_now) b.(b_script) (b.(b_served) ++ [(rq, rs)])
      | None => b
      end
  | Foreign rq => mkBus b.(b_srv) b.(b_in_service) (Some rq) b.(b_response) b.(b_now) b.(b_script) b.(b_served)
  | Tick dt => mkBus b.(b_srv) b.(b_in_service) b.(b_request) b.(b_response) (b.(b_now) + dt) b.(b_script) b.(b_served)
  end.

(** [_dataman_request_pub.publish(request)] *)
Definition publish (rq : dataman_request_s) (b : bus S) : bus S :=
  mkBus b.(b_srv) b.(b_in_service) (Some rq) b.(b_response) b.(b_now) b.(b_script) b.(b_served).

(** [orb_check] and [orb_copy] on the response topic. *)
Definition take_response (b : bus S) : option dataman_response_s * bus S :=
  (b.(b_response), mkBus b.(b_srv) b.(b_in_service) b.(b_request) None b.(b_now) b.(b_script) b.(b_served)).

(** [px4_poll(&_fds, 1, 100)]: what the script says happens; when it is exhausted,
    the time-out of 100 ms passes. *)
Definition poll (b : bus S) : Z * bus S :=
  let '(w, rest) := match b.(b_script) with [] => (mkWait [Tick 100000] false, []) | w :: r => (w, r) end in
  let b1 := foldl (fun b e => happen e b)
              (mkBus b.(b_srv) b.(b_in_service) b.(b_request) b.(b_response) b.(b_now) rest b.(b_served)) w.(w_events) in
  (if w.(w_error) then -1 else match b1.(b_response) with Some _ => 1 | None => 0 end, b1).

(** ** The client *)
Inductive client_state := Client_Idle | Client_RequestSent | Client_ResponseReceived.

(** [buffer] is the number of the caller's buffer in the memory the operations are
    given. *)
Record Request := mkActive {
  a_timestamp : Z;
  a_request_type : Z;
  a_item : Z;
  a_index : Z;
  a_buffer : nat;
  a_length : Z;
}.

Record DatamanClient := mkClient {
  _state : client_state;
  _active_request : Request;
  _response_status : Z;
  _client_id : Z;
}.

Definition DatamanClient_init : DatamanClient :=
  mkClient Client_Idle (mkActive 0 0 0 0 0 0) 0 CLIENT_ID_NOT_SET.

Definition with_id (c : DatamanClient) (id : Z) : DatamanClient :=
  mkClient c.(_state) c.(_active_request) c.(_response_status) id.
Definition with_state (c : DatamanClient) (s : client_state) : DatamanClient :=
  mkClient s c.(_active_request) c.(_response_status) c.(_client_id).

Definition clearPendingResponse (b : bus S) : bus S := (take_response b).2.

(** The comparison of a response with the request in [syncHandler]. *)
Definition sync_matches (request : dataman_request_s) (response : dataman_response_s) : bool :=
  if response.(rs_client_id) =? request.(rq_client_id) then
    (response.(rs_request_type) =? request.(rq_request_type)) && (response.(rs_item) =? request.(rq_item))
    && (response.(rs_index) =? request.(rq_index))
  else if request.(rq_client_id) =? CLIENT_ID_NOT_SET then
    bool_decide (le_bytes 8 request.(rq_timestamp) = take 8 response.(rs_data))
  else false.

(** The loop of [syncHandler]; [None] when the fuel is spent. *)
Fixpoint sync_loop (fuel : nat) (request : dataman_request_s) (start timeout : Z) (response : dataman_response_s)
    (time_elapsed : Z) (b : bus S) : option (bool * dataman_response_s * bus S) :=
  match fuel with
  | O => None
  | Datatypes.S fuel =>
      if negb (time_elapsed <? timeout) then Some (false, response, b)
      else
        let '(ret, b1) := poll b in
        if ret <? 0 then Some (false, response, b1)
        else if ret =? 0 then
          let b2 := publish request b1 in
          sync_loop fuel request start timeout response (hrt_elapsed_time b2.(b_now) start) b2
        else
          match take_response b1 with
          | (Some rs, b2) =>
              if sync_matches request rs then Some (true, rs, b2)
              else sync_loop fuel request start timeout rs (hrt_elapsed_time b2.(b_now) start) b2
          | (None, b2) => sync_loop fuel request start timeout response (hrt_elapsed_time b2.(b_now) start) b2
          end
  end.

(** One pass per wait of the script, then one per 100 ms of the time-out. *)
Definition sync_fuel (b : bus S) (timeout : Z) : nat := length b.(b_script) + Z.to_nat (timeout / 100000) + 2.

Definition syncHandler (request : dataman_request_s) (response : dataman_response_s) (start timeout : Z) (b : bus S)
    : option (bool * dataman_response_s * bus S) :=
  let time_elapsed := hrt_elapsed_time b.(b_now) start in
  let b1 := publish request (clearPendingResponse b) in
  sync_loop (sync_fuel b1 timeout) request start timeout response time_elapsed b1.

(** [sizeof(mission_s)] comes from a generated header; [junk] holds the fields of a
    [dataman_request_s] on the stack that the code does not set. *)
Context (sizeof_mission_s : Z) (junk : dataman_request_s).

(** [g_per_item_size[item]], undefined outside the table. *)
Definition item_size (item : Z) : option Z := zlookup (g_per_item_size sizeof_mission_s) item.

Definition no_response : dataman_response_s := mkResponse 0 0 0 0 (zeros sizeof_data) 0.

(** The constructor with a valid subscription. *)
Definition DatamanClient_new (b : bus S) : option (DatamanClient * bus S) :=
  let '(copied, b1) := take_response b in
  let response := default no_response copied in
  let timestamp := b1.(b_now) in
  let request := mkRequest timestamp CLIENT_ID_NOT_SET DM_GET_ID junk.(rq_item) junk.(rq_index) junk.(rq_data)
                   junk.(rq_data_length) in
  '(success, response, b2) ← syncHandler request response timestamp 1000000 b1;
  Some (if success && (CLIENT_ID_NOT_SET <? response.(rs_client_id))
        then with_id DatamanClient_init response.(rs_client_id) else DatamanClient_init, b2).

Definition readSync (c : DatamanClient) (item index : Z) (buffer : list Z) (length timeout : Z) (b : bus S)
    : option (bool * list Z * bus S) :=
  if c.(_client_id) =? CLIENT_ID_NOT_SET then Some (false, buffer, b)
  else
    size ← item_size item;
    if size <? length then Some (false, buffer, b)
    else
      let timestamp := b.(b_now) in
      let request := mkRequest timestamp c.(_client_id) DM_READ (u8 item) index junk.(rq_data) length in
      '(success, response, b1) ← syncHandler request no_response timestamp timeout b;
      if negb success then Some (false, buffer, b1)
      else if negb (response.(rs_status) =? STATUS_SUCCESS) then Some (false, buffer, b1)
      else
        src ← mem_read response.(rs_data) 0 length;
        buffer' ← mem_write buffer 0 src;
        Some (true, buffer', b1).

Definition writeSync (c : DatamanClient) (item index : Z) (buffer : list Z) (length timeout : Z) (b : bus S)
    : option (bool * bus S) :=
  if c.(_client_id) =? CLIENT_ID_NOT_SET then Some (false, b)
  else
    size ← item_size item;
    if size <? length then Some (false, b)
    else
      let timestamp := b.(b_now) in
      src ← mem_read buffer 0 length;
      data ← mem_write junk.(rq_data) 0 src;
      let request := mkRequest timestamp c.(_client_id) DM_WRITE (u8 item) index data length in
      '(success, response, b1) ← syncHandler request no_response timestamp timeout b;
      Some (success && (response.(rs_status) =? STATUS_SUCCESS), b1).

Definition clearSync (c : DatamanClient) (item timeout : Z) (b : bus S) : option (bool * bus S) :=
  if c.(_client_id) =? CLIENT_ID_NOT_SET then Some (false, b)
  else
    let timestamp := b.(b_now) in
    let request := mkRequest timestamp c.(_client_id) DM_CLEAR (u8 item) junk.(rq_index) junk.(rq_data)
                     junk.(rq_data_length) in
    '(success, response, b1) ← syncHandler request no_response timestamp timeout b;
    Some (success && (response.(rs_status) =? STATUS_SUCCESS), b1).

(** *** The asynchronous operations *)
Definition readAsync (c : DatamanClient) (item index : Z) (buffer : nat) (length : Z) (b : bus S)
    : option (bool * DatamanClient * bus S) :=
  if c.(_client_id) =? CLIENT_ID_NOT_SET then Some (false, c, b)
  else
    size ← item_size item;
    if size <? length then Some (false, c, b)
    else
      match c.(_state) with
      | Client_Idle =>
          let b1 := clearPendingResponse b in
          let timestamp := b1.(b_now) in
          let request := mkRequest timestamp c.(_client_id) DM_READ (u8 item) index junk.(rq_data) length in
          Some (true,
                mkClient Client_RequestSent (mkActive timestamp DM_READ item index buffer length)
                  c.(_response_status) c.(_client_id),
                publish request b1)
      | _ => Some (false, c, b)
      end.

Definition writeAsync (c : DatamanClient) (item index : Z) (buffer : nat) (length : Z) (mem : list (list Z)) (b : bus S)
    : option (bool * DatamanClient * bus S) :=
  if c.(_client_id) =? CLIENT_ID_NOT_SET then Some (false, c, b)
  else
    size ← item_size item;
    if size <? length then Some (false, c, b)
    else
      match c.(_state) with
      | Client_Idle =>
          let b1 := clearPendingResponse b in
          let timestamp := b1.(b_now) in
          bytes ← mem !! buffer;
          src ← mem_read bytes 0 length;
          data ← mem_write junk.(rq_data) 0 src;
          let request := mkRequest timestamp c.(_client_id) DM_WRITE (u8 item) index data length in
          Some (true,
                mkClient Client_RequestSent (mkActive timestamp DM_WRITE item index buffer length)
                  c.(_response_status) c.(_client_id),
                publish request b1)
      | _ => Some (false, c, b)
      end.

Definition clearAsync (c : DatamanClient) (item : Z) (b : bus S) : bool * DatamanClient * bus S :=
  if c.(_client_id) =? CLIENT_ID_NOT_SET then (false, c, b)
  else
    match c.(_state) with
    | Client_Idle =>
        let b1 := clearPendingResponse b in
        let timestamp := b1.(b_now) in
        let request := mkRequest timestamp c.(_client_id) DM_CLEAR (u8 item) 0 junk.(rq_data) junk.(rq_data_length) in
        (true,
         mkClient Client_RequestSent
           (mkActive timestamp DM_CLEAR item 0 c.(_active_request).(a_buffer) c.(_active_request).(a_length))
           c.(_response_status) c.(_client_id),
         publish request b1)
    | _ => (false, c, b)
    end.

(** The comparison of a response with the active request. *)
Definition async_matches (c : DatamanClient) (rs : dataman_response_s) : bool :=
  let a := c.(_active_request) in
  (rs.(rs_client_id) =? c.(_client_id)) && (rs.(rs_request_type) =? a.(a_request_type))
  && (rs.(rs_item) =? a.(a_item)) && (rs.(rs_index) =? a.(a_index)).

(** The part of [update] that reads a response. *)
Definition update_receive (c : DatamanClient) (mem : list (list Z)) (b : bus S)
    : option (DatamanClient * list (list Z) * bus S) :=
  match take_response b with
  | (None, b1) => Some (c, mem, b1)
  | (Some rs, b1) =>
      if negb (async_matches c rs) then Some (c, mem, b1)
      else
        let a := c.(_active_request) in
        mem' ← (if rs.(rs_request_type) =? DM_READ then
                  bytes ← mem !! a.(a_buffer);
                  src ← mem_read rs.(rs_data) 0 a.(a_length);
                  bytes' ← mem_write bytes 0 src;
                  Some (<[a.(a_buffer) := bytes']> mem)
                else Some mem);
        Some (mkClient Client_ResponseReceived a rs.(rs_status) c.(_client_id), mem', b1)
  end.

(** The part of [update] that sends the request again. *)
Definition update_retry (c : DatamanClient) (mem : list (list Z)) (b : bus S) : option (DatamanClient * bus S) :=
  let a := c.(_active_request) in
  let elapsed := hrt_elapsed_time b.(b_now) a.(a_timestamp) in
  if (negb (a.(a_request_type) =? DM_CLEAR) && (100000 <? elapsed)) || (1000000 <? elapsed) then
    let timestamp := b.(b_now) in
    data ← (if a.(a_request_type) =? DM_WRITE then
              bytes ← mem !! a.(a_buffer);
              src ← mem_read bytes 0 a.(a_length);
              mem_write junk.(rq_data) 0 src
            else Some junk.(rq_data));
    let request := mkRequest timestamp c.(_client_id) a.(a_request_type) (u8 a.(a_item)) a.(a_index) data a.(a_length) in
    Some (mkClient Client_RequestSent
            (mkActive timestamp a.(a_request_type) a.(a_item) a.(a_index) a.(a_buffer) a.(a_length))
            c.(_response_status) c.(_client_id),
          publish request b)
  else Some (c, b).

Definition client_update (c : DatamanClient) (mem : list (list Z)) (b : bus S)
    : option (DatamanClient * list (list Z) * bus S) :=
  match c.(_state) with
  | Client_RequestSent =>
      '(c1, mem1, b1) ← update_receive c mem b;
      match c1.(_state) with
      | Client_RequestSent => '(c2, b2) ← update_retry c1 mem1 b1; Some (c2, mem1, b2)
      | _ => Some (c1, mem1, b1)
      end
  | _ => Some (c, mem, b)
  end.

(** The result is [completed] and [success]. *)
Definition lastOperationCompleted (c : DatamanClient) : bool * bool * DatamanClient :=
  match c.(_state) with
  | Client_ResponseReceived => (true, c.(_response_status) =? STATUS_SUCCESS, with_state c Client_Idle)
  | _ => (false, false, c)
  end.

Definition abortCurrentOperation (c : DatamanClient) : DatamanClient := with_state c Client_Idle.

(** ** The cache *)
Inductive cache_state_t := Cache_Idle | Cache_RequestPrepared | Cache_RequestSent | Cache_ResponseReceived | Cache_Error.
#[global] Instance cache_state_t_eq_dec : EqDecision cache_state_t.
Proof. solve_decision. Defined.

Record Item := mkItem { it_response : dataman_response_s; it_cache_state : cache_state_t }.

Record DatamanCache := mkCache {
  _items : option (list Item);     (* null or an array of _num_items entries *)
  _load_index : Z;
  _update_index : Z;
  _item_counter : Z;
  _num_items : Z;
  _client : DatamanClient;
}.

Definition it_data (it : Item) : list Z := it.(it_response).(rs_data).
Definition it_set_state (it : Item) (s : cache_state_t) : Item := mkItem it.(it_response) s.
Definition it_set_data (it : Item) (data : list Z) : Item :=
  let r := it.(it_response) in
  mkItem (mkResponse r.(rs_client_id) r.(rs_request_type) r.(rs_item) r.(rs_index) data r.(rs_status)) it.(it_cache_state).
Definition it_set_key (it : Item) (item index : Z) : Item :=
  let r := it.(it_response) in
  mkItem (mkResponse r.(rs_client_id) r.(rs_request_type) item index r.(rs_data) r.(rs_status)) it.(it_cache_state).
Definition empty_item : Item := mkItem no_response Cache_Idle.

(** [response.item == item && response.index == index] *)
Definition it_matches (item index : Z) (it : Item) : bool :=
  (it.(it_response).(rs_item) =? item) && (it.(it_response).(rs_index) =? index).
Definition is_state (s : cache_state_t) (it : Item) : bool := bool_decide (it.(it_cache_state) = s).

Definition set_items (k : DatamanCache) (l : list Item) : DatamanCache :=
  mkCache (Some l) k.(_load_index) k.(_update_index) k.(_item_counter) k.(_num_items) k.(_client).
Definition set_client (k : DatamanCache) (c : DatamanClient) : DatamanCache :=
  mkCache k.(_items) k.(_load_index) k.(_update_index) k.(_item_counter) k.(_num_items) c.

(** [alloc_ok] says whether [new] succeeds. *)
Definition DatamanCache_new (alloc_ok : bool) (num_items : Z) (c : DatamanClient) : DatamanCache :=
  if num_items =? 0 then mkCache None 0 0 0 0 c
  else if alloc_ok then mkCache (Some (replicate (Z.to_nat num_items) empty_item)) 0 0 0 num_items c
  else mkCache None 0 0 0 0 c.

Definition resetCacheState (k : DatamanCache) : DatamanCache := mkCache k.(_items) 0 0 0 k.(_num_items) k.(_client).

(** A copied entry whose request was under way is requested again. *)
Definition resized_item (it : Item) : Item :=
  if is_state Cache_RequestSent it then it_set_state it Cache_RequestPrepared else it.

Definition resize (alloc_ok : bool) (num_items : Z) (k : DatamanCache) : option DatamanCache :=
  if num_items =? 0 then
    let k1 := resetCacheState (mkCache None k.(_load_index) k.(_update_index) k.(_item_counter) k.(_num_items)
                                 (abortCurrentOperation k.(_client))) in
    Some (mkCache k1.(_items) k1.(_load_index) k1.(_update_index) k1.(_item_counter) 0 k1.(_client))
  else if negb alloc_ok then Some k
  else
    let num_min := if num_items <? k.(_num_items) then num_items else k.(_num_items) in
    old ← (if 0 <? num_min then l ← k.(_items); mem_read l 0 num_min else Some []);
    let items := map resized_item old ++ replicate (Z.to_nat (num_items - num_min)) empty_item in
    Some (mkCache (Some items)
            (if k.(_load_index) <? num_items then k.(_load_index) else 0)
            (if k.(_update_index) <? num_items then k.(_update_index) else 0)
            (if k.(_item_counter) <? num_items then k.(_item_counter) else num_items)
            num_items (abortCurrentOperation k.(_client))).

(** The entry at [_load_index] is replaced; the index and the counter advance. *)
Definition add_entry (k : DatamanCache) (l : list Item) (f : Item -> Item) : option DatamanCache :=
  it ← zlookup l k.(_load_index);
  l' ← zstore l k.(_load_index) (f it);
  Some (mkCache (Some l') (u32 (k.(_load_index) + 1) mod k.(_num_items)) k.(_update_index)
          (u32 (k.(_item_counter) + 1)) k.(_num_items) k.(_client)).

Definition load (item index : Z) (k : DatamanCache) : option (bool * DatamanCache) :=
  match k.(_items) with
  | None => Some (false, k)
  | Some l =>
      let duplicate :=
        existsb (fun it => negb (is_state Cache_Idle it) && negb (is_state Cache_Error it) && it_matches item index it) l in
      if negb duplicate && (k.(_item_counter) <? k.(_num_items)) then
        k' ← add_entry k l (fun it => it_set_key (it_set_state it Cache_RequestPrepared) item index);
        Some (true, k')
      else Some (false, k)
  end.

Definition loadWait (item index : Z) (buffer : list Z) (length timeout : Z) (k : DatamanCache) (b : bus S)
    : option (bool * list Z * DatamanCache * bus S) :=
  size ← item_size item;
  if size <? length then Some (false, buffer, k, b)
  else
    let l := default [] k.(_items) in
    match List.find (fun it => it_matches item index it && is_state Cache_ResponseReceived it) l with
    | Some it =>
        src ← mem_read (it_data it) 0 length;
        buffer' ← mem_write buffer 0 src;
        Some (true, buffer', k, b)
    | None =>
        let item_found := existsb (it_matches item index) l in
        if 0 <? timeout then
          '(success, buffer', b1) ← readSync k.(_client) item index buffer length timeout b;
          match k.(_items) with
          | Some l =>
              if (success : bool) && negb item_found && (k.(_item_counter) <? k.(_num_items)) then
                it ← zlookup l k.(_load_index);
                src ← mem_read buffer' 0 length;
                data ← mem_write (it_data it) 0 src;
                k' ← add_entry k l (fun it => it_set_data (it_set_key (it_set_state it Cache_ResponseReceived) item index) data);
                Some (success, buffer', k', b1)
              else Some (success, buffer', k, b1)
          | None => Some (success, buffer', k, b1)
          end
        else Some (false, buffer, k, b)
    end.

(** The loop of [writeWait]: the first entry of the item that is cached or still to be
    requested takes the data. *)
Fixpoint write_cached (item index : Z) (src : list Z) (l : list Item) : option (list Item) :=
  match l with
  | [] => Some []
  | it :: r =>
      if it_matches item index it && (is_state Cache_ResponseReceived it || is_state Cache_RequestPrepared it) then
        data ← mem_write (it_data it) 0 src;
        Some (it_set_state (it_set_data it data) Cache_ResponseReceived :: r)
      else r' ← write_cached item index src r; Some (it :: r')
  end.

Definition writeWait (item index : Z) (buffer : list Z) (length timeout : Z) (k : DatamanCache) (b : bus S)
    : option (bool * DatamanCache * bus S) :=
  size ← item_size item;
  if size <? length then Some (false, k, b)
  else
    '(success, b1) ← writeSync k.(_client) item index buffer length timeout b;
    match k.(_items) with
    | Some l =>
        if (success : bool) then
          src ← mem_read buffer 0 length;
          l' ← write_cached item index src l;
          Some (success, set_items k l', b1)
        else Some (success, k, b1)
    | None => Some (success, k, b1)
    end.

Definition changeUpdateIndex (k : DatamanCache) : DatamanCache :=
  if k.(_num_items) =? 0 then mkCache k.(_items) k.(_load_index) 0 0 k.(_num_items) k.(_client)
  else mkCache k.(_items) k.(_load_index) (u32 (k.(_update_index) + 1) mod k.(_num_items))
         (if 0 <? k.(_item_counter) then k.(_item_counter) - 1 else k.(_item_counter)) k.(_num_items) k.(_client).

(** The state of the entry at [_update_index] is set. *)
Definition set_current (k : DatamanCache) (l : list Item) (it : Item) (s : cache_state_t) : option DatamanCache :=
  l' ← zstore l k.(_update_index) (it_set_state it s); Some (set_items k l').

(** The switch of [update] on the current entry. *)
Definition update_entry (k : DatamanCache) (b : bus S) : option (DatamanCache * bus S) :=
  l ← k.(_items);
  it ← zlookup l k.(_update_index);
  match it.(it_cache_state) with
  | Cache_Idle | Cache_Error => Some (k, b)
  | Cache_ResponseReceived => Some (changeUpdateIndex k, b)
  | Cache_RequestPrepared =>
      let r := it.(it_response) in
      size ← item_size r.(rs_item);
      '(success, c, b1) ← readAsync k.(_client) r.(rs_item) r.(rs_index) (Z.to_nat k.(_update_index)) size b;
      k1 ← set_current (set_client k c) l it (if (success : bool) then Cache_RequestSent else Cache_Error);
      Some (k1, b1)
  | Cache_RequestSent =>
      let '(completed, response_success, c) := lastOperationCompleted k.(_client) in
      let k1 := set_client k c in
      if completed then
        if response_success
        then k2 ← set_current k1 l it Cache_ResponseReceived; Some (changeUpdateIndex k2, b)
        else k2 ← set_current k1 l it Cache_Error; Some (k2, b)
      else Some (k1, b)
  end.

(** The client's update writes into the entries' data. *)
Definition client_step (k : DatamanCache) (b : bus S) : option (DatamanCache * bus S) :=
  let l := default [] k.(_items) in
  '(c, mem, b1) ← client_update k.(_client) (map it_data l) b;
  Some (mkCache (match k.(_items) with Some l => Some (zip_with it_set_data l mem) | None => None end)
          k.(_load_index) k.(_update_index) k.(_item_counter) k.(_num_items) c, b1).

Definition cache_update (k : DatamanCache) (b : bus S) : option (DatamanCache * bus S) :=
  if 0 <? k.(_item_counter) then
    '(k1, b1) ← client_step k b;
    '(k2, b2) ← update_entry k1 b1;
    l ← k2.(_items);
    it ← zlookup l k2.(_update_index);
    Some (if is_state Cache_Error it then changeUpdateIndex k2 else k2, b2)
  else Some (k, b).

Definition isLoading (k : DatamanCache) : bool := 0 <? k.(_item_counter).
Definition size (k : DatamanCache) : Z := k.(_num_items).

Definition invalidate (k : DatamanCache) : DatamanCache :=
  let k1 := mkCache (option_map (map (fun it => it_set_state it Cache_Idle)) k.(_items))
              k.(_load_index) k.(_update_index) k.(_item_counter) k.(_num_items) k.(_client) in
  let k2 := resetCacheState k1 in
  set_client k2 (abortCurrentOperation k2.(_client)).

(** ** The synchronous operations return *)
Definition steady (e : happening) : Prop := match e with Tick dt => 0 <= dt | _ => True end.
Definition steady_script (l : list wait) : Prop := Forall (fun w => Forall steady w.(w_events)) l.

Lemma happen_frame e b : b_script (happen e b) = b_script b /\ (steady e -> b_now b <= b_now (happen e b)).
Proof.
  destruct e as [| |rq|dt]; cbn.
  - destruct (b_in_service b); [|destruct (b_request b)]; split; try done; lia.
  - destruct (b_in_service b) as [rq|]; [destruct (server_handle rq _)|]; split; try done; cbn; lia.
  - split; [done|lia].
  - split; [done|lia].
Qed.

Lemma happens_frame l b :
  Forall steady l ->
  b_script (foldl (fun b e => happen e b) b l) = b_script b /\ b_now b <= b_now (foldl (fun b e => happen e b) b l).
Proof.
  revert b. induction l as [|e l IH]; intros b Hl; [split; [done|cbn; lia]|]. apply Forall_cons in Hl as [He Hl].
  cbn [foldl]. destruct (IH (happen e b) Hl) as [Hs Hn]. destruct (happen_frame e b) as [Hs1 Hn1].
  rewrite Hs, Hs1. split; [done|]. specialize (Hn1 He). lia.
Qed.

(** A wait uses an entry of the script, or takes 100 ms. *)
Lemma poll_progress b ret b1 :
  poll b = (ret, b1) -> steady_script (b_script b) ->
  steady_script (b_script b1) /\ b_now b <= b_now b1 /\
  ((length (b_script b1) < length (b_script b))%nat \/
   b_script b1 = [] /\ b_script b = [] /\ b_now b1 = b_now b + 100000).
Proof.
  unfold poll. intros Hp Hs. destruct (b_script b) as [|w r] eqn:Hb.
  - cbn in Hp. simplify_eq. cbn. split; [apply Forall_nil_2|]. split; [lia|]. by right.
  - apply Forall_cons in Hs as [Hw Hr]. simplify_eq.
    destruct (happens_frame (w_events w)
                (mkBus b.(b_srv) b.(b_in_service) b.(b_request) b.(b_response) b.(b_now) r b.(b_served)) Hw) as [E Hn].
    rewrite E. cbn in Hn |- *. split; [done|]. split; [done|]. left. lia.
Qed.

Lemma elapsed_from now start : start <= now -> hrt_elapsed_time now start = now - start.
Proof. intros. unfold hrt_elapsed_time. by decide_if. Qed.

Lemma sync_loop_returns fuel request start timeout response b :
  steady_script (b_script b) -> start <= b_now b ->
  Z.of_nat (length (b_script b)) + Z.max 0 ((timeout - (b_now b - start) + 99999) / 100000) < Z.of_nat fuel ->
  sync_loop fuel request start timeout response (b_now b - start) b <> None.
Proof.
  revert response b. induction fuel as [|fuel IH]; intros response b Hs Hst Hf; [lia|]. cbn [sync_loop].
  case_if; [done|]. destruct (poll b) as [ret b1] eqn:Hp.
  destruct (poll_progress b ret b1 Hp Hs) as (Hs1 & Hn1 & Hless).
  assert (Hnext : forall b2 rs, b_script b2 = b_script b1 -> b_now b2 = b_now b1 ->
            sync_loop fuel request start timeout rs (hrt_elapsed_time (b_now b2) start) b2 <> None).
  { intros b2 rs E1 E2. rewrite elapsed_from by lia. apply IH; [by rewrite E1|lia|]. rewrite E1, E2.
    destruct Hless as [Hl | (E & E' & En)].
    - assert ((timeout - (b_now b1 - start) + 99999) / 100000 <= (timeout - (b_now b - start) + 99999) / 100000)
        by (apply Z.div_le_mono; lia). lia.
    - rewrite E' in Hf. rewrite E, En. cbn [length] in *.
      replace (timeout - (b_now b + 100000 - start) + 99999) with (timeout - (b_now b - start) + 99999 + (-1) * 100000) by lia.
      rewrite Z.div_add by lia.
      assert (1 <= (timeout - (b_now b - start) + 99999) / 100000); [|lia].
      apply Z.div_le_lower_bound; lia. }
  case_if; [done|]. case_if; [by apply Hnext|].
  unfold take_response. destruct (b_response b1) as [rs|]; [|by apply Hnext].
  case_if; [done|]. by apply Hnext.
Qed.

Lemma syncHandler_returns request response timeout b :
  steady_script (b_script b) -> 0 <= timeout -> is_Some (syncHandler request response (b_now b) timeout b).
Proof.
  intros Hs Ht. unfold syncHandler. rewrite elapsed_from by lia.
  apply not_eq_None_Some.
  apply (sync_loop_returns _ request (b_now b) timeout response (publish request (clearPendingResponse b)) Hs); [cbn; lia|].
  cbn. unfold sync_fuel. cbn.
  assert ((timeout - (b_now b - b_now b) + 99999) / 100000 <= timeout / 100000 + 1); [|Z.div_mod_to_equations; lia].
  replace (timeout - (b_now b - b_now b) + 99999) with (timeout + 99999) by lia. Z.div_mod_to_equations; lia.
Qed.

(** ** The response that is accepted answers the request *)

(** The server puts the request's type and key in the response and, except for a new
    client's number, its client. *)
Definition echoes : Prop :=
  forall rq s, let rs := (server_handle rq s).1 in
    rs_request_type rs = rq_request_type rq /\ rs_item rs = rq_item rq /\ rs_index rs = rq_index rq /\
    (rq_request_type rq <> DM_GET_ID -> rs_client_id rs = rq_client_id rq).

(** Requests on the bus are [request] or another client's. *)
Definition ours (request rq : dataman_request_s) : Prop :=
  rq = request \/ rq_client_id rq <> rq_client_id request.

Definition foreign_event (id : Z) (e : happening) : Prop :=
  match e with Foreign rq => rq_client_id rq <> id | _ => True end.
Definition foreign_script (id : Z) (l : list wait) : Prop :=
  Forall (fun w => Forall (foreign_event id) w.(w_events)) l.

Definition exchange (request : dataman_request_s) (b : bus S) : Prop :=
  (forall rq, b_in_service b = Some rq -> ours request rq) /\
  (forall rq, b_request b = Some rq -> ours request rq) /\
  (forall rs, b_response b = Some rs -> exists rq s, server_handle rq s = (rs, b_srv b) /\ ours request rq).

Lemma happen_exchange request e b :
  exchange request b -> foreign_event (rq_client_id request) e -> exchange request (happen e b).
Proof.
  intros Hx He. pose proof Hx as (Hs & Hr & Hp). destruct e as [| |rq|dt]; cbn in He |- *.
  - destruct (b_in_service b) eqn:E1; [exact Hx|]. destruct (b_request b) eqn:E2; [|exact Hx].
    split; [|split]; cbn; [intros ? [= <-]; auto|done|done].
  - destruct (b_in_service b) as [rq|] eqn:E1; [|exact Hx]. destruct (server_handle rq (b_srv b)) as [rs s'] eqn:Eh.
    split; [|split]; cbn; [done|done|]. intros ? [= <-]. exists rq, (b_srv b). auto.
  - split; [|split]; cbn; [done| |done]. intros ? [= <-]. by right.
  - exact Hx.
Qed.

Lemma happens_exchange request l b :
  exchange request b -> Forall (foreign_event (rq_client_id request)) l ->
  exchange request (foldl (fun b e => happen e b) b l).
Proof.
  revert b. induction l as [|e l IH]; intros b Hx Hl; [done|]. apply Forall_cons in Hl as [He Hl].
  cbn [foldl]. apply IH; [|done]. by apply happen_exchange.
Qed.

Lemma poll_exchange request b ret b1 :
  poll b = (ret, b1) -> exchange request b -> foreign_script (rq_client_id request) (b_script b) ->
  steady_script (b_script b) -> exchange request b1 /\ foreign_script (rq_client_id request) (b_script b1).
Proof.
  unfold poll. intros Hp Hx Hf Hs. destruct (b_script b) as [|w r] eqn:Hb.
  - cbn in Hp. simplify_eq. split; [done|apply Forall_nil_2].
  - apply Forall_cons in Hf as [Hw Hr]. apply Forall_cons in Hs as [Hws _]. injection Hp as _ <-. split.
    + by apply happens_exchange.
    + by rewrite (proj1 (happens_frame _ _ Hws)).
Qed.

(** A response that matches a request other than for a client number was produced by it. *)
Lemma matched_is_ours request rq s rs :
  echoes -> (server_handle rq s).1 = rs -> ours request rq -> sync_matches request rs = true ->
  rq_request_type request <> DM_GET_ID -> rq_client_id request <> CLIENT_ID_NOT_SET -> rq = request.
Proof.
  intros He Hh [-> | Hne] Hm Ht Hid; [done|]. exfalso. destruct (He rq s) as (E1 & E2 & E3 & E4). rewrite Hh in *.
  unfold sync_matches in Hm. case_if_in Hm.
  - apply Hne. rewrite <- E4; congruence.
  - rewrite (proj2 (Z.eqb_neq _ _) Hid) in Hm. done.
Qed.

Lemma sync_loop_exact fuel request start timeout response elapsed b rs b' :
  echoes -> rq_request_type request <> DM_GET_ID -> rq_client_id request <> CLIENT_ID_NOT_SET ->
  sync_loop fuel request start timeout response elapsed b = Some (true, rs, b') ->
  exchange request b -> foreign_script (rq_client_id request) (b_script b) -> steady_script (b_script b) ->
  exists s, server_handle request s = (rs, b_srv b').
Proof.
  intros He Ht Hid. revert response elapsed b. induction fuel as [|fuel IH]; intros response elapsed b Hl Hx Hf Hs; [done|].
  cbn [sync_loop] in Hl. case_if_in Hl; [done|]. destruct (poll b) as [ret b1] eqn:Hp.
  destruct (poll_exchange request b ret b1 Hp Hx Hf Hs) as [(Hs1 & Hr1 & Hp1) Hf1].
  destruct (poll_progress b ret b1 Hp Hs) as (Hst1 & _).
  case_if_in Hl; [done|]. case_if_in Hl.
  { eapply IH; [exact Hl| |done|done]. split; [done|]. split; [|done]. intros ? [= <-]. by left. }
  unfold take_response in Hl. destruct (b_response b1) as [rs1|] eqn:Er.
  2: { eapply IH; [exact Hl| |done|done]. split; [done|]. split; [done|]. cbn. done. }
  case_if_in Hl.
  - simplify_eq. destruct (Hp1 rs eq_refl) as (rq & s & Hh & Hours). exists s.
    rewrite <- (matched_is_ours request rq s rs He); try done. by rewrite Hh.
  - eapply IH; [exact Hl| |done|done]. split; [done|]. split; [done|]. cbn. done.
Qed.

(** No request of the client is under way: none in service; one that is only pending is
    replaced by the next publication. *)
Definition quiet (id : Z) (b : bus S) : Prop :=
  (forall rq, b_in_service b = Some rq -> rq_client_id rq <> id) /\
  foreign_script id (b_script b) /\ steady_script (b_script b).

Lemma syncHandler_exact request response start timeout b rs b' :
  echoes -> rq_request_type request <> DM_GET_ID -> rq_client_id request <> CLIENT_ID_NOT_SET ->
  quiet (rq_client_id request) b ->
  syncHandler request response start timeout b = Some (true, rs, b') ->
  exists s, server_handle request s = (rs, b_srv b').
Proof.
  intros He Ht Hid (Hq & Hf & Hs) Hsync. unfold syncHandler in Hsync.
  eapply sync_loop_exact; [done|done|done|exact Hsync| |done|done].
  split; [|split]; cbn; [intros rq Hrq; right; auto|intros ? [= <-]; by left|done].
Qed.
End bus.

Notation store := (gmap (Z * Z) (list Z)).

(** ** The client over the abstract store, which both backends refine *)
Section over_store.
Context (sizeof_mission_s NUM_MISSION_ITEMS : Z) (junk : dataman_request_s).
Context (mission_fits : 0 < sizeof_mission_s <= sizeof_data).
Context (junk_len : zlen junk.(rq_data) = sizeof_data).

#[local] Instance store_server : DmServer (store * Z) := spec_request sizeof_mission_s NUM_MISSION_ITEMS.
Notation contents_of b item index := (contents (b_srv b).1 item index).

Lemma spec_echoes : echoes (S := store * Z).
Proof.
  intros rq [m clients] rs. unfold rs, server_handle, store_server, spec_request. cbn beta iota zeta. clear rs.
  case_if; [case_if; split_and!; try done; cbn; congruence|].
  case_if; [destruct (spec_write _ _ _ _ _ _ _); done|].
  case_if; [destruct (spec_read _ _ _ _ _ _ _); done|].
  case_if; [destruct (spec_clear _ _ _); done|]. done.
Qed.

Lemma item_size_ok item :
  0 <= item < DM_KEY_NUM_KEYS -> item_size sizeof_mission_s item = Some (slot_size sizeof_mission_s item).
Proof.
  intros Hi. unfold item_size, slot_size, at_item, zlookup. decide_if.
  assert (Hl : (Z.to_nat item < length (g_per_item_size sizeof_mission_s))%nat) by (unfold DM_KEY_NUM_KEYS in *; cbn; lia).
  destruct (lookup_lt_is_Some_2 _ _ Hl) as [x Hx]. rewrite Hx. f_equal. symmetry. by apply nth_lookup_Some.
Qed.

(** What a server state says after a request that succeeded. *)
Lemma served_write rq s rs s' :
  server_handle rq s = (rs, s') -> rq_request_type rq = DM_WRITE -> rs_status rs = STATUS_SUCCESS ->
  contents s'.1 (rq_item rq) (rq_index rq) = take (Z.to_nat (rq_data_length rq)) (rq_data rq).
Proof.
  destruct s as [m clients]. unfold server_handle, store_server, spec_request. intros Hh Ht Hst. rewrite Ht in Hh.
  change (DM_WRITE =? DM_GET_ID) with false in Hh. change (DM_WRITE =? DM_WRITE) with true in Hh. cbn iota in Hh.
  unfold spec_write in Hh. case_if_in Hh; [simplify_eq/=|]. case_if_in Hh; simplify_eq/=.
  rewrite contents_insert. by rewrite decide_True.
Qed.

Lemma served_read rq s rs s' :
  server_handle rq s = (rs, s') -> rq_request_type rq = DM_READ -> rs_status rs = STATUS_SUCCESS ->
  let v := contents s'.1 (rq_item rq) (rq_index rq) in
  rs_data rs = v ++ zeros (sizeof_data - zlen v) /\ zlen v <= rq_data_length rq.
Proof.
  destruct s as [m clients]. unfold server_handle, store_server, spec_request. intros Hh Ht Hst. rewrite Ht in Hh.
  change (DM_READ =? DM_GET_ID) with false in Hh. change (DM_READ =? DM_WRITE) with false in Hh.
  change (DM_READ =? DM_READ) with true in Hh. cbn iota in Hh.
  unfold spec_read in Hh. case_if_in Hh; [simplify_eq/=|]. case_if_in Hh; [simplify_eq/=|].
  case_if_in Hh; simplify_eq/=. done.
Qed.

Lemma served_clear rq s rs s' index :
  server_handle rq s = (rs, s') -> rq_request_type rq = DM_CLEAR -> rs_status rs = STATUS_SUCCESS ->
  contents s'.1 (rq_item rq) index = [].
Proof.
  destruct s as [m clients]. unfold server_handle, store_server, spec_request. intros Hh Ht Hst. rewrite Ht in Hh.
  change (DM_CLEAR =? DM_GET_ID) with false in Hh. change (DM_CLEAR =? DM_WRITE) with false in Hh.
  change (DM_CLEAR =? DM_READ) with false in Hh. change (DM_CLEAR =? DM_CLEAR) with true in Hh. cbn iota in Hh.
  unfold spec_clear in Hh. case_if_in Hh; simplify_eq/=. rewrite contents_clear. by rewrite decide_True.
Qed.

(** Any request but the one for a client number, sent when the client is quiet. *)
Lemma sync_from_quiet request timeout b :
  rq_request_type request <> DM_GET_ID -> rq_client_id request <> CLIENT_ID_NOT_SET -> 0 <= timeout ->
  quiet (rq_client_id request) b ->
  exists success rs b', syncHandler request no_response (b_now b) timeout b = Some (success, rs, b') /\
    (success = true -> exists s, server_handle request s = (rs, b_srv b')).
Proof.
  intros Ht Hid Hto Hq. destruct (syncHandler_returns request no_response timeout b) as [[[success rs] b'] Hs];
    [apply Hq|done|].
  exists success, rs, b'. split; [done|]. intros ->. by eapply syncHandler_exact; [apply spec_echoes|..].
Qed.

(** The first bytes of a response to a read. *)
Lemma slice_value v n : zlen v <= n <= sizeof_data -> slice 0 n (v ++ zeros (sizeof_data - zlen v)) = v ++ zeros (n - zlen v).
Proof.
  intros Hn. pose proof (zlen_nonneg v). rewrite <- (slice_full n (v ++ zeros (n - zlen v))) by (rewrite zlen_app, zlen_zeros; lia).
  replace (sizeof_data - zlen v) with ((n - zlen v) + (sizeof_data - n)) by lia.
  rewrite <- zeros_app, app_assoc by lia. apply slice_app_l; [lia..|]. rewrite zlen_app, zlen_zeros. lia.
Qed.

Section operation.
Context (c : DatamanClient) (item index length timeout : Z) (buffer : list Z) (b : bus (store * Z)).
Context (Hid : 0 < _client_id c) (Hitem : 0 <= item < DM_KEY_NUM_KEYS) (Hlen : 0 <= length <= zlen buffer).
Context (Htimeout : 0 <= timeout) (Hquiet : quiet (_client_id c) b).

Lemma item_byte : u8 item = item.
Proof. apply uwrap_small. unfold DM_KEY_NUM_KEYS in *. lia. Qed.

Lemma writeSync_exact :
  exists success b', writeSync sizeof_mission_s junk c item index buffer length timeout b = Some (success, b') /\
    (success = true -> contents_of b' item index = take (Z.to_nat length) buffer).
Proof.
  pose proof (slot_size_range _ mission_fits item Hitem) as Hsz.
  unfold writeSync. rewrite (proj2 (Z.eqb_neq _ _)) by (unfold CLIENT_ID_NOT_SET; lia).
  rewrite item_size_ok by done. cbn [mbind option_bind]. case_if; [by eexists false, b|].
  rewrite mem_read_Some by lia. cbn [mbind option_bind].
  rewrite mem_write_Some by (rewrite ?zlen_slice by lia; lia). cbn [mbind option_bind]. rewrite item_byte.
  set (data := splice 0 (slice 0 length buffer) (rq_data junk)).
  destruct (sync_from_quiet (mkRequest (b_now b) (_client_id c) DM_WRITE item index data length) timeout b)
    as (success & rs & b' & Hs & Hok); [done|cbn; unfold CLIENT_ID_NOT_SET; lia|done|done|].
  rewrite Hs. cbn [mbind option_bind]. eexists _, b'. split; [done|]. intros [-> Hst]%andb_true_iff.
  destruct Hok as [s Hh]; [done|]. rewrite Z.eqb_eq in Hst. pose proof (served_write _ _ _ _ Hh eq_refl Hst) as Hw.
  cbn in Hw. rewrite Hw. unfold data, splice, slice. cbn [take drop Z.to_nat]. rewrite take_0, drop_0. cbn [app].
  rewrite take_app_le by (rewrite length_take; unfold zlen in *; lia). rewrite take_take. f_equal. lia.
Qed.

Lemma readSync_exact :
  exists success buffer' b', readSync sizeof_mission_s junk c item index buffer length timeout b = Some (success, buffer', b') /\
    (success = true ->
     let v := contents_of b' item index in
     take (Z.to_nat length) buffer' = v ++ zeros (length - zlen v) /\ zlen v <= length /\
     drop (Z.to_nat length) buffer' = drop (Z.to_nat length) buffer) /\
    (success = false -> buffer' = buffer).
Proof.
  pose proof (slot_size_range _ mission_fits item Hitem) as Hsz.
  unfold readSync. rewrite (proj2 (Z.eqb_neq _ _)) by (unfold CLIENT_ID_NOT_SET; lia).
  rewrite item_size_ok by done. cbn [mbind option_bind]. case_if; [by eexists false, buffer, b|]. rewrite item_byte.
  destruct (sync_from_quiet (mkRequest (b_now b) (_client_id c) DM_READ item index (rq_data junk) length) timeout b)
    as (success & rs & b' & Hs & Hok); [done|cbn; unfold CLIENT_ID_NOT_SET; lia|done|done|].
  rewrite Hs. cbn [mbind option_bind]. destruct success; cbn [negb]; [|by eexists false, buffer, b'].
  destruct Hok as [s Hh]; [done|]. destruct (rs_status rs =? STATUS_SUCCESS) eqn:Hst; cbn [negb]; [|by eexists false, buffer, b'].
  rewrite Z.eqb_eq in Hst. destruct (served_read _ _ _ _ Hh eq_refl Hst) as [Hd Hv]. cbn [rq_item rq_index rq_data_length] in *.
  set (v := contents_of b' item index) in *. pose proof (zlen_nonneg v).
  assert (Hdl : zlen (rs_data rs) = sizeof_data) by (rewrite Hd, zlen_app, zlen_zeros; lia).
  rewrite mem_read_Some by lia. cbn [mbind option_bind].
  rewrite mem_write_Some by (rewrite ?zlen_slice by lia; lia). cbn [mbind option_bind].
  eexists true, _, b'. split; [done|]. split; [|done]. intros _. cbv zeta.
  assert (Hsl : slice 0 length (rs_data rs) = v ++ zeros (length - zlen v)) by (rewrite Hd; apply slice_value; lia).
  rewrite Hsl. unfold splice. cbn [Z.to_nat]. rewrite take_0. cbn [app].
  assert (Hl : Datatypes.length (v ++ zeros (length - zlen v)) = Z.to_nat length).
  { assert (E : zlen (v ++ zeros (length - zlen v)) = length) by (rewrite zlen_app, zlen_zeros; lia). unfold zlen in *. lia. }
  rewrite Hl. rewrite take_app_length' by done. rewrite drop_app_length' by done. done.
Qed.

Lemma clearSync_exact :
  exists success b', clearSync junk c item timeout b = Some (success, b') /\
    (success = true -> forall k, contents_of b' item k = []).
Proof.
  unfold clearSync. rewrite (proj2 (Z.eqb_neq _ _)) by (unfold CLIENT_ID_NOT_SET; lia). rewrite item_byte.
  destruct (sync_from_quiet (mkRequest (b_now b) (_client_id c) DM_CLEAR item (rq_index junk) (rq_data junk)
                               (rq_data_length junk)) timeout b)
    as (success & rs & b' & Hs & Hok); [done|cbn; unfold CLIENT_ID_NOT_SET; lia|done|done|].
  rewrite Hs. cbn [mbind option_bind]. eexists _, b'. split; [done|]. intros [-> Hst]%andb_true_iff k.
  destruct Hok as [s Hh]; [done|]. rewrite Z.eqb_eq in Hst. by apply (served_clear _ _ _ _ k Hh).
Qed.
End operation.

(** C10: The synchronous operations of the client return, and their answer is the
    server's answer to this request: when no earlier request of the client is in
    service, a write that reports success has been stored, a read returns the item as
    it is stored then and touches no byte behind it, and a clear that reports success
    has emptied the item, whatever other clients ask meanwhile and however often the
    request is repeated. *)
Theorem sync_operations_exact c item index buffer length timeout b :
  0 < _client_id c -> 0 <= item < DM_KEY_NUM_KEYS -> 0 <= length <= zlen buffer -> 0 <= timeout ->
  quiet (_client_id c) b ->
  (exists success b', writeSync sizeof_mission_s junk c item index buffer length timeout b = Some (success, b') /\
    (success = true -> contents_of b' item index = take (Z.to_nat length) buffer)) /\
  (exists success buffer' b', readSync sizeof_mission_s junk c item index buffer length timeout b = Some (success, buffer', b') /\
    (success = true ->
     let v := contents_of b' item index in
     take (Z.to_nat length) buffer' = v ++ zeros (length - zlen v) /\ zlen v <= length /\
     drop (Z.to_nat length) buffer' = drop (Z.to_nat length) buffer) /\
    (success = false -> buffer' = buffer)) /\
  (exists success b', clearSync junk c item timeout b = Some (success, b') /\
    (success = true -> forall k, contents_of b' item k = [])).
Proof.
  intros. split; [by apply writeSync_exact|]. split; [by apply readSync_exact|by apply clearSync_exact].
Qed.

(** A reply to an earlier request can acknowledge the next one. When a write of the
    client is still in service, because it timed out or was repeated, a second write of
    the same item takes the first one's reply for its own: it reports success while the
    store holds the first value, and its own request may have been replaced on the topic
    by another client's, so that it is never carried out. *)
Theorem late_reply_acknowledges_next_write c item index old buffer length timeout t b rest other :
  0 < _client_id c -> slot_ok NUM_MISSION_ITEMS item index -> 0 < length <= slot_size sizeof_mission_s item ->
  length <= zlen buffer -> 0 < timeout ->
  b_in_service b = Some (mkRequest t (_client_id c) DM_WRITE item index old length) ->
  b_script b = mkWait [Server_answers; Foreign other] false :: rest ->
  exists b', writeSync sizeof_mission_s junk c item index buffer length timeout b = Some (true, b') /\
    contents_of b' item index = take (Z.to_nat length) old /\
    b_in_service b' = None /\ b_request b' = Some other.
Proof.
  intros Hid Hs Hlen Hbuf Hto Hserv Hscript. pose proof Hs as [Hitem Hindex].
  pose proof (slot_size_range _ mission_fits item Hitem) as Hsz.
  unfold writeSync. rewrite (proj2 (Z.eqb_neq _ _)) by (unfold CLIENT_ID_NOT_SET; lia).
  rewrite item_size_ok by done. cbn [mbind option_bind]. decide_if.
  rewrite mem_read_Some by lia. cbn [mbind option_bind].
  rewrite mem_write_Some by (rewrite ?zlen_slice by lia; lia). cbn [mbind option_bind].
  rewrite item_byte by done. set (data := splice _ _ _).
  unfold syncHandler, sync_fuel. rewrite elapsed_from by lia. cbn [b_script publish clearPendingResponse take_response snd].
  rewrite Hscript. cbn [Datatypes.length Nat.add sync_loop]. rewrite Z.sub_diag. decide_if. cbn [negb].
  unfold poll. cbn [b_script publish clearPendingResponse take_response snd w_events w_error].
  cbn [w_events w_error foldl happen b_in_service publish clearPendingResponse take_response snd b_srv b_request
       b_response b_now b_script b_served].
  rewrite Hserv. cbn [b_srv]. destruct (b_srv b) as [m clients]. unfold server_handle, store_server, spec_request.
  cbn [rq_request_type rq_item rq_index rq_client_id rq_data rq_data_length].
  change (DM_WRITE =? DM_GET_ID) with false. change (DM_WRITE =? DM_WRITE) with true. cbn iota.
  rewrite spec_write_valid by (done || lia). decide_if.
  cbn [b_response b_srv b_in_service b_request b_now b_script b_served].
  change (1 <? 0) with false. change (1 =? 0) with false. cbn iota.
  cbn [take_response b_response b_srv b_in_service b_request b_now b_script b_served].
  unfold sync_matches. cbn [rs_client_id rq_client_id rs_request_type rq_request_type rs_item rq_item rs_index rq_index].
  rewrite !Z.eqb_refl. cbn [andb mbind option_bind rs_status]. change (STATUS_SUCCESS =? STATUS_SUCCESS) with true.
  eexists. split; [done|]. cbn [b_srv b_in_service b_request fst]. split; [|done].
  rewrite contents_insert. by rewrite decide_True.
Qed.

(** ** The cache loads what it is asked to *)
Implicit Types (k : DatamanCache) (l : list Item) (it : Item).

(** The server takes and answers the pending request, then the cache is updated. *)
Definition serve_pending (b : bus (store * Z)) : bus (store * Z) := happen Server_answers (happen Server_takes b).
Definition round (k : DatamanCache) (b : bus (store * Z)) : option (DatamanCache * bus (store * Z)) :=
  cache_update sizeof_mission_s junk k (serve_pending b).
Fixpoint rounds (n : nat) (k : DatamanCache) (b : bus (store * Z)) : option (DatamanCache * bus (store * Z)) :=
  match n with
  | O => Some (k, b)
  | Datatypes.S n => '(k1, b1) ← round k b; rounds n k1 b1
  end.

(** The items of the store fit their slots. *)
Definition store_ok (m : store) : Prop := forall item index, zlen (contents m item index) <= slot_size sizeof_mission_s item.

(** The bytes of an item, filled up with zeros. *)
Definition item_value (m : store) (item index : Z) : list Z :=
  let v := contents m item index in v ++ zeros (slot_size sizeof_mission_s item - zlen v).

(** An entry that can be loaded. *)
Definition entry_ok (it : Item) : Prop :=
  zlen (it_data it) = sizeof_data /\ it_cache_state it <> Cache_Error /\ it_cache_state it <> Cache_RequestSent /\
  (it_cache_state it = Cache_RequestPrepared -> slot_ok NUM_MISSION_ITEMS (rs_item (it_response it)) (rs_index (it_response it))).

(** [j] lies in the window of [counter] entries from [update] on, of a ring of [num]. *)
Definition in_window (num update counter j : Z) : Prop := (j - update) mod num < counter.

(** The cache between two operations: the entries to process are the ones between
    [_update_index] and [_load_index], and no request is under way. *)
Record cache_ok (k : DatamanCache) (l : list Item) : Prop := {
  ck_items : _items k = Some l;
  ck_num : zlen l = _num_items k /\ 0 < _num_items k < 2 ^ 31;
  ck_update : 0 <= _update_index k < _num_items k;
  ck_counter : 0 <= _item_counter k <= _num_items k;
  ck_load : _load_index k = (_update_index k + _item_counter k) mod _num_items k;
  ck_client : _state (_client k) = Client_Idle /\ 0 < _client_id (_client k);
  ck_entries : Forall entry_ok l;
  ck_window : forall j it, zlookup l j = Some it ->
    (in_window (_num_items k) (_update_index k) (_item_counter k) j -> it_cache_state it <> Cache_Idle) /\
    (it_cache_state it = Cache_RequestPrepared -> in_window (_num_items k) (_update_index k) (_item_counter k) j);
}.

Definition bus_idle (b : bus (store * Z)) : Prop := b_in_service b = None /\ b_request b = None.

Lemma serve_pending_idle b : bus_idle b -> serve_pending b = b.
Proof. intros [Hs Hr]. unfold serve_pending. cbn. rewrite Hs, Hr. cbn. by rewrite Hs. Qed.

Lemma it_set_data_same it : it_set_data it (it_data it) = it.
Proof. by destruct it as [[] ?]. Qed.

Lemma zip_set_data_same (l : list Item) : zip_with it_set_data l (map it_data l) = l.
Proof. induction l as [|it l IH]; [done|]. cbn. by rewrite it_set_data_same, IH. Qed.

Lemma client_step_idle (k : DatamanCache) (l : list Item) (b : bus (store * Z)) :
  _items k = Some l -> _state (_client k) <> Client_RequestSent -> client_step junk k b = Some (k, b).
Proof.
  intros Hi Hc. destruct k as [items li ui ic ni c]. cbn in Hi, Hc. subst items.
  unfold client_step, client_update. cbn [_items _client default].
  destruct (_state c); [|done|]; cbn [mbind option_bind]; change (default [] (Some l)) with l;
    by rewrite zip_set_data_same.
Qed.

(** Moving on to the next entry keeps the ring in order. *)
Lemma window_next num u c j :
  0 < num -> 0 <= u < num -> 0 < c <= num -> 0 <= j < num -> j <> u ->
  in_window num ((u + 1) mod num) (c - 1) j <-> in_window num u c j.
Proof.
  intros Hn Hu Hc Hj Hne. unfold in_window.
  assert (H1 : (j - u) mod num = if j <? u then j - u + num else j - u).
  { case_if.
    - rewrite <- (Z.mod_small (j - u + num) num) by lia. symmetry. rewrite <- (Z_mod_plus_full (j - u) 1 num). f_equal. lia.
    - apply Z.mod_small. lia. }
  assert (H2 : (u + 1) mod num = if u + 1 =? num then 0 else u + 1).
  { case_if; [|apply Z.mod_small; lia]. rewrite Hif. apply Z_mod_same_full. }
  assert (H3 : (j - (u + 1) mod num) mod num = (j - u) mod num - 1).
  { rewrite H1, H2. repeat case_if; try lia.
    - subst. rewrite Z.mod_small; lia.
    - rewrite <- (Z_mod_plus_full _ 1 num). rewrite Z.mod_small; lia.
    - rewrite Z.mod_small; lia. }
  rewrite H3. lia.
Qed.

Lemma zlookup_update (l : list Item) u it' j :
  0 <= u < zlen l -> zlookup (<[Z.to_nat u := it']> l) j = if u =? j then Some it' else zlookup l j.
Proof.
  intros Hu. destruct (Z.lt_ge_cases j 0).
  - unfold zlookup. decide_if. decide_if. done.
  - by apply zlookup_insert.
Qed.

Lemma zlen_update (l : list Item) u it' : zlen (<[Z.to_nat u := it']> l) = zlen l.
Proof. unfold zlen. by rewrite length_insert. Qed.

(** The current entry is done: the next one is current. *)
Lemma advance_ok k l c it' :
  cache_ok k l -> 0 < _item_counter k -> entry_ok it' -> it_cache_state it' = Cache_ResponseReceived ->
  _state c = Client_Idle -> 0 < _client_id c ->
  let l' := <[Z.to_nat (_update_index k) := it']> l in
  let k' := changeUpdateIndex (mkCache (Some l') (_load_index k) (_update_index k) (_item_counter k) (_num_items k) c) in
  cache_ok k' l' /\ _item_counter k' = _item_counter k - 1 /\ _client k' = c /\ _num_items k' = _num_items k.
Proof.
  intros Hk Hc Hit Hst Hci Hcid l' k'. destruct Hk as [Hi [Hn Hn'] Hu Hcnt Hl Hcl He Hw].
  assert (Hk' : k' = mkCache (Some l') (_load_index k) ((_update_index k + 1) mod _num_items k) (_item_counter k - 1)
                       (_num_items k) c).
  { unfold k', changeUpdateIndex. cbn. rewrite (proj2 (Z.eqb_neq _ _)) by lia. decide_if. rewrite uwrap_small by lia. done. }
  rewrite Hk'. clearbody k'. split; [|done].
  assert (Hul : 0 <= _update_index k < zlen l) by lia.
  split; cbn; try done.
  - unfold l'. by rewrite zlen_update.
  - apply Z.mod_pos_bound. lia.
  - lia.
  - rewrite Hl. rewrite Zplus_mod_idemp_l. f_equal. lia.
  - unfold l'. by apply Forall_insert.
  - intros j it Hj. unfold l' in Hj. rewrite zlookup_update in Hj by done. case_if_in Hj.
    + simplify_eq. rewrite Hst. done.
    + pose proof (zlookup_Some_lt _ _ _ Hj). rewrite window_next by lia. by apply Hw.
Qed.

Lemma current_entry k l :
  cache_ok k l -> exists it, zlookup l (_update_index k) = Some it /\ entry_ok it /\ is_state Cache_Error it = false.
Proof.
  intros [Hi [Hn Hn'] Hu Hcnt Hl Hcl He Hw]. destruct (zlookup_lt l (_update_index k)) as [it Hit]; [lia|].
  exists it. split; [done|]. assert (Hok : entry_ok it).
  { unfold zlookup in Hit. case_if_in Hit; [|done]. by eapply Forall_lookup_1. }
  split; [done|]. unfold is_state. apply bool_decide_eq_false. apply Hok.
Qed.

Lemma current_not_idle k l it :
  cache_ok k l -> 0 < _item_counter k -> zlookup l (_update_index k) = Some it -> it_cache_state it <> Cache_Idle.
Proof.
  intros [Hi [Hn Hn'] Hu Hcnt Hl Hcl He Hw] Hc Hit. apply (Hw _ _ Hit). unfold in_window.
  rewrite Z.sub_diag, Zmod_0_l. lia.
Qed.

(** The end of [cache_update]: no entry is in error. *)
Lemma update_tail k l (b : bus (store * Z)) :
  cache_ok k l ->
  (l0 ← _items k; it ← zlookup l0 (_update_index k);
   Some (if is_state Cache_Error it then changeUpdateIndex k else k, b)) = Some (k, b).
Proof.
  intros Hk. destruct (current_entry k l Hk) as (it & Hit & _ & He). rewrite (ck_items _ _ Hk).
  cbn [mbind option_bind]. rewrite Hit. cbn [mbind option_bind]. by rewrite He.
Qed.

(** An entry that is already cached is skipped. *)
Lemma round_cached k l it b :
  cache_ok k l -> bus_idle b -> 0 < _item_counter k -> zlookup l (_update_index k) = Some it ->
  it_cache_state it = Cache_ResponseReceived ->
  exists k', round k b = Some (k', b) /\ cache_ok k' l /\ _item_counter k' = _item_counter k - 1.
Proof.
  intros Hk Hb Hc Hit Hst. pose proof (ck_items _ _ Hk) as Hi. pose proof (ck_client _ _ Hk) as [Hci Hcid].
  destruct (current_entry k l Hk) as (it0 & Hit0 & Hok & _). rewrite Hit in Hit0. injection Hit0 as <-.
  destruct (advance_ok k l (_client k) it Hk Hc Hok Hst Hci Hcid) as (Hk' & Hcnt & _).
  assert (Hsame : <[Z.to_nat (_update_index k) := it]> l = l).
  { apply list_insert_id. unfold zlookup in Hit. by case_if_in Hit. }
  rewrite Hsame in Hk', Hcnt. set (k' := changeUpdateIndex _) in Hk', Hcnt. exists k'. split; [|done].
  unfold round, cache_update. rewrite serve_pending_idle by done. decide_if.
  rewrite (client_step_idle k l) by (done || by rewrite Hci). cbn [mbind option_bind].
  unfold update_entry. rewrite Hi. cbn [mbind option_bind]. rewrite Hit. cbn [mbind option_bind]. rewrite Hst.
  replace (changeUpdateIndex k) with k' by (unfold k'; rewrite <- Hi; by destruct k). by apply (update_tail k' l).
Qed.

Lemma zstore_update (l : list Item) u it' : 0 <= u < zlen l -> zstore l u it' = Some (<[Z.to_nat u := it']> l).
Proof. intros. unfold zstore. by decide_if. Qed.

(** An entry that is to be requested: the request is published. *)
Lemma round_request k l it b :
  cache_ok k l -> bus_idle b -> 0 < _item_counter k -> zlookup l (_update_index k) = Some it ->
  it_cache_state it = Cache_RequestPrepared ->
  let '(item, index) := (rs_item (it_response it), rs_index (it_response it)) in
  let size := slot_size sizeof_mission_s item in
  let '(c, u) := (_client k, _update_index k) in
  round k b =
  Some (mkCache (Some (<[Z.to_nat u := it_set_state it Cache_RequestSent]> l)) (_load_index k) u
          (_item_counter k) (_num_items k)
          (mkClient Client_RequestSent (mkActive (b_now b) DM_READ item index (Z.to_nat u) size)
             (_response_status c) (_client_id c)),
        publish (mkRequest (b_now b) (_client_id c) DM_READ item index (rq_data junk) size) (clearPendingResponse b)).
Proof.
  intros Hk Hb Hc Hit Hst. destruct (current_entry k l Hk) as (it0 & Hit0 & (_ & _ & _ & Hslot) & _).
  rewrite Hit in Hit0. injection Hit0 as <-. specialize (Hslot Hst). pose proof (proj1 Hslot) as Hitem.
  destruct Hk as [Hi [Hn Hn'] Hu Hcnt Hl [Hci Hcid] He Hw].
  unfold round, cache_update. rewrite serve_pending_idle by done. decide_if.
  rewrite (client_step_idle k l) by (done || by rewrite Hci). cbn [mbind option_bind].
  unfold update_entry. rewrite Hi. cbn [mbind option_bind]. rewrite Hit. cbn [mbind option_bind]. rewrite Hst.
  rewrite item_size_ok by done. cbn [mbind option_bind].
  unfold readAsync. rewrite (proj2 (Z.eqb_neq _ _)) by (unfold CLIENT_ID_NOT_SET; lia).
  rewrite item_size_ok by done. cbn [mbind option_bind]. decide_if. rewrite Hci, item_byte by done. cbn [mbind option_bind].
  unfold set_current. cbn [_update_index set_client]. rewrite zstore_update by lia. cbn [mbind option_bind set_items _items].
  cbn [_update_index _items set_items set_client]. rewrite zlookup_update, Z.eqb_refl by lia. cbn [mbind option_bind]. done.
Qed.

(** A matching response is copied to the entry's data by the client's update. *)
Lemma zip_set_data_update l i it d :
  l !! i = Some it -> zip_with it_set_data l (<[i := d]> (map it_data l)) = <[i := it_set_data it d]> l.
Proof.
  revert i. induction l as [|x l IH]; intros i Hi; [done|]. destruct i as [|i]; cbn in *.
  - simplify_eq. by rewrite zip_set_data_same.
  - rewrite it_set_data_same. by rewrite IH.
Qed.

Lemma item_value_len m item index :
  store_ok m -> zlen (item_value m item index) = slot_size sizeof_mission_s item.
Proof. intros Hm. specialize (Hm item index). unfold item_value. rewrite zlen_app, zlen_zeros. lia. Qed.

(** The server answers the request of [round_request]. *)
Lemma serve_read (b : bus (store * Z)) t id item index data :
  bus_idle b -> store_ok (b_srv b).1 -> slot_ok NUM_MISSION_ITEMS item index ->
  let rq := mkRequest t id DM_READ item index data (slot_size sizeof_mission_s item) in
  let v := contents (b_srv b).1 item index in
  let rs := mkResponse id DM_READ item index (v ++ zeros (sizeof_data - zlen v)) STATUS_SUCCESS in
  serve_pending (publish rq (clearPendingResponse b)) =
  mkBus (b_srv b) None None (Some rs) (b_now b) (b_script b) (b_served b ++ [(rq, rs)]).
Proof.
  intros [Hs Hr] Hm Hslot rq v rs. unfold serve_pending, publish, clearPendingResponse, take_response.
  cbn [happen b_in_service b_request snd b_srv b_response b_now b_script b_served]. rewrite Hs.
  cbn [happen b_in_service b_request snd b_srv b_response b_now b_script b_served].
  assert (Hh : server_handle rq (b_srv b) = (rs, b_srv b)); [|by rewrite Hh].
  unfold server_handle, store_server, spec_request, rq. cbn [rq_request_type rq_item rq_index rq_client_id rq_data_length].
  destruct (b_srv b) as [m clients]. cbn [fst] in *.
  change (DM_READ =? DM_GET_ID) with false. change (DM_READ =? DM_WRITE) with false.
  change (DM_READ =? DM_READ) with true. cbn iota. unfold spec_read. rewrite slot_ok_valid by done. cbn [negb].
  pose proof (Hm item index). decide_if. decide_if. pose proof (zlen_nonneg (contents m item index)). decide_if. done.
Qed.

(** The entry after its item was read. *)
Definition loaded (m : store) (it : Item) : Item :=
  it_set_state
    (it_set_data it (splice 0 (item_value m (rs_item (it_response it)) (rs_index (it_response it))) (it_data it)))
    Cache_ResponseReceived.

Lemma loaded_ok m it :
  store_ok m -> entry_ok it -> 0 <= rs_item (it_response it) < DM_KEY_NUM_KEYS -> entry_ok (loaded m it).
Proof.
  intros Hm (Hl & _) Hi. pose proof (slot_size_range _ mission_fits _ Hi). unfold loaded, entry_ok. cbn.
  split; [|done]. rewrite zlen_splice; rewrite ?item_value_len by done; lia.
Qed.

(** What the client's update does with the response to the entry's request. *)
Lemma client_step_receive k l it (b : bus (store * Z)) rs v :
  _items k = Some l -> l !! a_buffer (_active_request (_client k)) = Some it -> zlen (it_data it) = sizeof_data ->
  _state (_client k) = Client_RequestSent -> async_matches (_client k) rs = true -> rs_request_type rs = DM_READ ->
  b_response b = Some rs -> slice 0 (a_length (_active_request (_client k))) (rs_data rs) = v ->
  0 <= a_length (_active_request (_client k)) <= sizeof_data -> zlen (rs_data rs) = sizeof_data ->
  client_step junk k b =
  Some (mkCache (Some (<[a_buffer (_active_request (_client k)) := it_set_data it (splice 0 v (it_data it))]> l))
          (_load_index k) (_update_index k) (_item_counter k) (_num_items k)
          (mkClient Client_ResponseReceived (_active_request (_client k)) (rs_status rs) (_client_id (_client k))),
        (take_response b).2).
Proof.
  intros Hi Hit Hl Hst Hm Ht Hb Hv Hlen Hdl. unfold client_step, client_update. rewrite Hi, Hst.
  change (default [] (Some l)) with l. unfold update_receive, take_response. rewrite Hb, Hm. cbn [negb].
  rewrite Ht. change (DM_READ =? DM_READ) with true. cbn iota.
  rewrite list_lookup_fmap, Hit. cbn [fmap option_fmap option_map mbind option_bind].
  rewrite mem_read_Some by lia. cbn [mbind option_bind]. rewrite Hv.
  rewrite mem_write_Some; [|lia|rewrite <- Hv, zlen_slice; lia]. cbn [mbind option_bind _state snd].
  do 2 f_equal. by erewrite zip_set_data_update.
Qed.

Lemma update_received k l it (b : bus (store * Z)) rs v :
  _items k = Some l -> zlookup l (_update_index k) = Some it -> zlen (it_data it) = sizeof_data ->
  it_cache_state it = Cache_RequestSent -> 0 < _item_counter k ->
  a_buffer (_active_request (_client k)) = Z.to_nat (_update_index k) ->
  _state (_client k) = Client_RequestSent -> async_matches (_client k) rs = true -> rs_request_type rs = DM_READ ->
  rs_status rs = STATUS_SUCCESS ->
  b_response b = Some rs -> slice 0 (a_length (_active_request (_client k))) (rs_data rs) = v ->
  0 <= a_length (_active_request (_client k)) <= sizeof_data -> zlen (rs_data rs) = sizeof_data ->
  let l' := <[Z.to_nat (_update_index k) := it_set_state (it_set_data it (splice 0 v (it_data it))) Cache_ResponseReceived]> l in
  let k' := changeUpdateIndex
              (mkCache (Some l') (_load_index k) (_update_index k) (_item_counter k) (_num_items k)
                 (mkClient Client_Idle (_active_request (_client k)) STATUS_SUCCESS (_client_id (_client k)))) in
  cache_ok k' l' -> cache_update sizeof_mission_s junk k b = Some (k', (take_response b).2).
Proof.
  intros Hi Hit Hdl Hst Hc Hbuf Hcs Hm Ht Hok Hb Hv Hlen Hrl l' k' Hk'. set (u := _update_index k) in *.
  assert (Hlu : l !! Z.to_nat u = Some it) by (unfold zlookup in Hit; by case_if_in Hit).
  assert (Hu : 0 <= u < zlen l) by (by eapply zlookup_Some_lt).
  unfold cache_update. decide_if. rewrite (client_step_receive k l it b rs v) by (by rewrite ?Hbuf). rewrite Hbuf.
  cbn [mbind option_bind]. unfold update_entry. cbn [_items mbind option_bind _update_index]. fold u.
  rewrite zlookup_update, Z.eqb_refl by done. cbn [mbind option_bind it_set_data it_cache_state]. rewrite Hst.
  unfold lastOperationCompleted. cbn [_client _state _response_status]. rewrite Hok.
  change (STATUS_SUCCESS =? STATUS_SUCCESS) with true. cbn iota.
  unfold set_current. cbn [_update_index set_client]. fold u. rewrite zstore_update by (by rewrite zlen_update).
  cbn [mbind option_bind]. rewrite list_insert_insert_eq.
  match goal with |- context [changeUpdateIndex ?x] => change (changeUpdateIndex x) with k' end.
  by apply (update_tail k' l').
Qed.

(** The bytes of a response up to the size of the item. *)
Lemma response_value m item index :
  store_ok m -> 0 <= item < DM_KEY_NUM_KEYS ->
  slice 0 (slot_size sizeof_mission_s item) (contents m item index ++ zeros (sizeof_data - zlen (contents m item index)))
  = item_value m item index.
Proof.
  intros Hm Hi. pose proof (slot_size_range _ mission_fits _ Hi). pose proof (Hm item index).
  rewrite <- (slice_full (slot_size sizeof_mission_s item) (item_value m item index)) by (by rewrite item_value_len).
  unfold item_value. set (v := contents m item index) in *.
  replace (sizeof_data - zlen v)
    with ((slot_size sizeof_mission_s item - zlen v) + (sizeof_data - slot_size sizeof_mission_s item)) by lia.
  rewrite <- zeros_app, app_assoc by lia. apply slice_app_l; [lia..|]. rewrite zlen_app, zlen_zeros. lia.
Qed.

Lemma rounds_load k l it b :
  cache_ok k l -> bus_idle b -> store_ok (b_srv b).1 -> 0 < _item_counter k ->
  zlookup l (_update_index k) = Some it -> it_cache_state it = Cache_RequestPrepared ->
  exists k' b', rounds 2 k b = Some (k', b') /\
    cache_ok k' (<[Z.to_nat (_update_index k) := loaded (b_srv b).1 it]> l) /\
    _item_counter k' = _item_counter k - 1 /\ bus_idle b' /\ b_srv b' = b_srv b.
Proof.
  intros Hk Hb Hm Hc Hit Hst. destruct (current_entry k l Hk) as (it0 & Hit0 & Hok & _).
  rewrite Hit in Hit0. injection Hit0 as <-. pose proof Hok as (Hdl & _ & _ & Hslot). specialize (Hslot Hst).
  pose proof (proj1 Hslot) as Hitem. pose proof (slot_size_range _ mission_fits _ Hitem) as Hsz.
  pose proof (ck_num _ _ Hk) as [Hn Hn']. pose proof (ck_update _ _ Hk) as Hu. pose proof (ck_client _ _ Hk) as [Hci Hcid].
  pose proof (round_request k l it b Hk Hb Hc Hit Hst) as Hr1. cbn iota zeta in Hr1.
  set (k1 := mkCache (Some (<[Z.to_nat _ := it_set_state it Cache_RequestSent]> l)) _ _ _ _ _) in Hr1.
  pose proof (serve_read b (b_now b) (_client_id (_client k)) _ _ (rq_data junk) Hb Hm Hslot) as Hsv. cbn zeta in Hsv.
  pose proof (Hm (rs_item (it_response it)) (rs_index (it_response it))) as Hvl.
  pose proof (zlen_nonneg (contents (b_srv b).1 (rs_item (it_response it)) (rs_index (it_response it)))).
  destruct (advance_ok k l (mkClient Client_Idle (_active_request (_client k1)) STATUS_SUCCESS (_client_id (_client k)))
              (loaded (b_srv b).1 it) Hk Hc) as (Hk' & Hcnt' & _); [by apply loaded_ok|done|done|done|].
  set (l1 := <[Z.to_nat (_update_index k) := it_set_state it Cache_RequestSent]> l) in k1.
  set (rs := mkResponse _ _ _ _ _ _) in Hsv. match type of Hsv with _ = ?x => set (b2 := x) in Hsv end.
  match type of Hk' with cache_ok ?x _ => set (k2 := x) in * end.
  assert (Hcu : cache_update sizeof_mission_s junk k1 b2 = Some (k2, (take_response b2).2)).
  { pose proof (update_received k1 l1 (it_set_state it Cache_RequestSent) b2 rs
                  (item_value (b_srv b).1 (rs_item (it_response it)) (rs_index (it_response it))) eq_refl) as Hur.
    unfold l1 in Hur. cbn zeta in Hur. rewrite list_insert_insert_eq in Hur. apply Hur; try done; clear Hur.
    - cbn [_update_index k1]. rewrite zlookup_update, Z.eqb_refl by lia. done.
    - unfold async_matches. cbn. by rewrite !Z.eqb_refl.
    - unfold rs. cbn [k1 _client _active_request a_length rs_data]. by apply response_value.
    - cbn [k1 _client _active_request a_length]. lia.
    - unfold rs. cbn [rs_data]. rewrite zlen_app, zlen_zeros. lia. }
  exists k2, (take_response b2).2. cbn [rounds]. rewrite Hr1. cbn [mbind option_bind]. unfold round.
  rewrite Hsv, Hcu. done.
Qed.

(** An entry is kept or, when it was to be requested, loaded. *)
Definition processed (m : store) (it it' : Item) : Prop :=
  it' = it \/ (it_cache_state it = Cache_RequestPrepared /\ it' = loaded m it).

Lemma processed_update m l u it :
  l !! u = Some it -> it_cache_state it = Cache_RequestPrepared ->
  Forall2 (processed m) l (<[u := loaded m it]> l).
Proof.
  intros Hu Hst. apply Forall2_same_length_lookup_2; [by rewrite length_insert|]. intros i x y Hx Hy.
  destruct (decide (i = u)) as [-> | Hne].
  - rewrite list_lookup_insert_eq in Hy by (by eapply lookup_lt_Some). rewrite Hu in Hx. simplify_eq. by right.
  - rewrite list_lookup_insert_ne in Hy by done. left. congruence.
Qed.

Lemma processed_trans m l1 l2 l3 :
  Forall2 (processed m) l1 l2 -> Forall2 (processed m) l2 l3 -> Forall2 (processed m) l1 l3.
Proof.
  intros H12 H23. apply Forall2_same_length_lookup_2.
  { by rewrite (Forall2_length _ _ _ H12), (Forall2_length _ _ _ H23). }
  intros i x z Hx Hz. destruct (Forall2_lookup_l _ _ _ _ _ H12 Hx) as (y & Hy & Hxy).
  pose proof (Forall2_lookup_lr _ _ _ _ _ _ H23 Hy Hz) as Hyz.
  destruct Hxy as [-> | [Hp ->]]; [done|]. destruct Hyz as [-> | [Hp' _]]; [by right|done].
Qed.

Lemma rounds_app n1 n2 k b k1 b1 : rounds n1 k b = Some (k1, b1) -> rounds (n1 + n2) k b = rounds n2 k1 b1.
Proof.
  revert k b. induction n1 as [|n1 IH]; intros k b Hr; [by simplify_eq/=|]. cbn [Nat.add rounds] in *.
  destruct (round k b) as [[k0 b0]|]; [|done]. cbn [mbind option_bind] in *. by apply IH.
Qed.

(** Two rounds per entry are enough. *)
Lemma rounds_all c k l b :
  cache_ok k l -> bus_idle b -> store_ok (b_srv b).1 -> _item_counter k = Z.of_nat c ->
  exists n k' l' b', (n <= 2 * c)%nat /\ rounds n k b = Some (k', b') /\ cache_ok k' l' /\ _item_counter k' = 0 /\
    bus_idle b' /\ b_srv b' = b_srv b /\ Forall2 (processed (b_srv b).1) l l'.
Proof.
  revert k l b. induction c as [|c IH]; intros k l b Hk Hb Hm Hc.
  { exists 0%nat, k, l, b. split_and!; try done. apply Forall_Forall2_diag. apply Forall_true. intros x. by left. }
  destruct (current_entry k l Hk) as (it & Hit & Hok & _). pose proof Hok as (_ & Hne & Hns & _).
  pose proof (current_not_idle k l it Hk ltac:(lia) Hit) as Hni.
  assert (Hlu : l !! Z.to_nat (_update_index k) = Some it) by (unfold zlookup in Hit; by case_if_in Hit).
  destruct (it_cache_state it) eqn:Hst; try done.
  - destruct (rounds_load k l it b) as (k1 & b1 & Hr & Hk1 & Hc1 & Hb1 & Hs1); [done..|lia|done|done|].
    destruct (IH k1 _ b1 Hk1 Hb1) as (n & k' & l' & b' & Hn & Hrs & Hk' & Hc' & Hb' & Hs' & Hp); [by rewrite Hs1|lia|].
    exists (2 + n)%nat, k', l', b'. rewrite (rounds_app 2 n k b k1 b1) by done. rewrite Hs1 in *.
    split_and!; try done; [lia|]. eapply processed_trans; [by apply processed_update|done].
  - destruct (round_cached k l it b) as (k1 & Hr & Hk1 & Hc1); [done..|lia|done|done|].
    destruct (IH k1 l b Hk1 Hb) as (n & k' & l' & b' & Hn & Hrs & Hk' & Hc' & Hb' & Hs' & Hp); [done|lia|].
    exists (Datatypes.S n)%nat, k', l', b'. cbn [rounds]. rewrite Hr. cbn [mbind option_bind]. split_and!; try done. lia.
Qed.

(** *** Loading into an empty cache *)
Definition key_of (it : Item) : Z * Z := (rs_item (it_response it), rs_index (it_response it)).

Lemma it_matches_key item index it : it_matches item index it = true <-> key_of it = (item, index).
Proof.
  unfold it_matches, key_of. rewrite andb_true_iff, !Z.eqb_eq. split; [intros [-> ->]; done|intros [= -> ->]; done].
Qed.

Lemma cache_new_ok num c :
  0 < num < 2 ^ 31 -> _state c = Client_Idle -> 0 < _client_id c ->
  cache_ok (DatamanCache_new true num c) (replicate (Z.to_nat num) empty_item).
Proof.
  intros Hn Hs Hid. unfold DatamanCache_new. rewrite (proj2 (Z.eqb_neq _ _)) by lia.
  assert (He : forall j it, zlookup (replicate (Z.to_nat num) empty_item) j = Some it -> it = empty_item).
  { intros j it Hj. unfold zlookup in Hj. case_if_in Hj; [|done]. apply lookup_replicate in Hj. by destruct Hj. }
  split; cbn; try done; try lia.
  - rewrite zlen_replicate; lia.
  - apply Forall_replicate. done.
  - intros j it Hj. rewrite (He j it Hj). split; [|done]. unfold in_window. intros Hw.
    pose proof (Z.mod_pos_bound (j - 0) num). lia.
Qed.

Lemma window_load num u c j :
  0 < num -> 0 <= u < num -> 0 <= c < num -> 0 <= j < num -> j <> (u + c) mod num ->
  in_window num u (c + 1) j <-> in_window num u c j.
Proof.
  intros Hn Hu Hc Hj Hne. unfold in_window. split; [|lia]. intros Hw.
  assert ((j - u) mod num <> c); [|lia]. intros He. apply Hne.
  rewrite <- He, Zplus_mod_idemp_r. replace (u + (j - u)) with j by lia. symmetry. by apply Z.mod_small.
Qed.

(** A new item is put at the end of the window. *)
Lemma cache_load_ok k l item index :
  cache_ok k l -> _item_counter k < _num_items k -> slot_ok NUM_MISSION_ITEMS item index ->
  Forall (fun it => it_cache_state it <> Cache_Idle -> key_of it <> (item, index)) l ->
  exists k' it, load item index k = Some (true, k') /\ zlookup l (_load_index k) = Some it /\
    cache_ok k' (<[Z.to_nat (_load_index k) := it_set_key (it_set_state it Cache_RequestPrepared) item index]> l) /\
    _item_counter k' = _item_counter k + 1 /\ _num_items k' = _num_items k.
Proof.
  intros Hk Hc Hs Hdup. pose proof Hk as [Hi [Hn Hn'] Hu Hcnt Hl Hcl He Hw].
  assert (Hli : 0 <= _load_index k < _num_items k) by (rewrite Hl; apply Z.mod_pos_bound; lia).
  destruct (zlookup_lt l (_load_index k)) as [it Hit]; [lia|].
  set (it' := it_set_key (it_set_state it Cache_RequestPrepared) item index).
  assert (Hok : entry_ok it) by (unfold zlookup in Hit; case_if_in Hit; [by eapply Forall_lookup_1|done]).
  exists (mkCache (Some (<[Z.to_nat (_load_index k) := it']> l)) ((_load_index k + 1) mod _num_items k) (_update_index k)
            (_item_counter k + 1) (_num_items k) (_client k)), it.
  split; [|split; [done|split; [|done]]].
  - unfold load. rewrite Hi. assert (Hex : existsb (fun it => negb (is_state Cache_Idle it) && negb (is_state Cache_Error it)
                                            && it_matches item index it) l = false).
    { apply not_true_iff_false. intros Ht. apply existsb_exists in Ht as (x & Hx & Hm).
      apply andb_true_iff in Hm as [Hm Hkey]. apply andb_true_iff in Hm as [Hid _]. apply it_matches_key in Hkey.
      apply negb_true_iff, bool_decide_eq_false in Hid.
      apply list_elem_of_In in Hx. rewrite Forall_forall in Hdup. by apply (Hdup x Hx). }
    rewrite Hex. cbn [negb andb]. decide_if. unfold add_entry. rewrite Hit. cbn [mbind option_bind].
    rewrite zstore_update by lia. cbn [mbind option_bind]. rewrite !uwrap_small by lia. done.
  - split; cbn; try done.
    + by rewrite zlen_update.
    + lia.
    + rewrite Hl, Zplus_mod_idemp_l. f_equal. lia.
    + apply Forall_insert; [done|]. destruct Hok as (Hd & _). done.
    + intros j x Hj. rewrite zlookup_update in Hj by lia. case_if_in Hj.
      * simplify_eq. split; [done|]. intros _. unfold in_window. rewrite Hl.
        rewrite Zminus_mod_idemp_l. replace (_update_index k + _item_counter k - _update_index k) with (_item_counter k) by lia.
        rewrite Z.mod_small; lia.
      * pose proof (zlookup_Some_lt _ _ _ Hj). rewrite window_load by (lia || congruence). by apply Hw.
Qed.

Fixpoint loads (keys : list (Z * Z)) (k : DatamanCache) : option DatamanCache :=
  match keys with
  | [] => Some k
  | (item, index) :: rest => '(ok, k') ← load item index k; if (ok : bool) then loads rest k' else None
  end.

(** What holds while the keys [done] have been loaded into a new cache. *)
Definition only_loaded (done : list (Z * Z)) (l : list Item) : Prop :=
  Forall (fun it => it_cache_state it = Cache_Idle \/ (it_cache_state it = Cache_RequestPrepared /\ key_of it ∈ done)) l /\
  Forall (fun key => exists it, it ∈ l /\ it_cache_state it = Cache_RequestPrepared /\ key_of it = key) done.

Lemma cache_loads_ok keys done k l :
  cache_ok k l -> only_loaded done l -> _item_counter k = zlen done -> zlen done + zlen keys <= _num_items k ->
  NoDup (keys ++ done) -> Forall (fun key => slot_ok NUM_MISSION_ITEMS key.1 key.2) keys ->
  exists k' l', loads keys k = Some k' /\ cache_ok k' l' /\ only_loaded (reverse keys ++ done) l' /\
    _item_counter k' = zlen done + zlen keys.
Proof.
  revert done k l. induction keys as [|[item index] keys IH]; intros done k l Hk [Ho1 Ho2] Hc Hn Hnd Hs.
  { exists k, l. split; [done|]. split; [done|]. split; [done|]. change (zlen (@nil (Z * Z))) with 0. lia. }
  rewrite zlen_cons in *. pose proof (zlen_nonneg keys). apply Forall_cons in Hs as [Hs1 Hs2].
  apply NoDup_cons in Hnd as [Hni Hnd]. rewrite elem_of_app in Hni.
  destruct (cache_load_ok k l item index Hk) as (k1 & it & Hl & Hit & Hk1 & Hc1 & Hn1); [lia|done| |].
  { eapply Forall_impl; [exact Ho1|]. intros x [Hx | [_ Hx]] Hid; [done|]. intros E. rewrite E in Hx. tauto. }
  set (it' := it_set_key (it_set_state it Cache_RequestPrepared) item index) in *.
  assert (Hli : l !! Z.to_nat (_load_index k) = Some it) by (unfold zlookup in Hit; by case_if_in Hit).
  assert (Hidle : it_cache_state it <> Cache_RequestPrepared).
  { intros Hp. pose proof Hk as [_ [Hn0 Hn'] Hu Hcnt Hload _ _ Hw]. apply (Hw _ _ Hit) in Hp. unfold in_window in Hp.
    rewrite Hload, Zminus_mod_idemp_l in Hp.
    replace (_update_index k + _item_counter k - _update_index k) with (_item_counter k) in Hp by lia.
    rewrite Z.mod_small in Hp; lia. }
  destruct (IH ((item, index) :: done) k1 _ Hk1) as (k' & l' & Hls & Hk' & Ho' & Hc').
  - split.
    + apply Forall_insert.
      * eapply Forall_impl; [exact Ho1|]. intros x [Hx | [Hx Hin]]; [by left|right]. split; [done|]. by apply list_elem_of_further.
      * right. split; [done|]. apply list_elem_of_here.
    + apply Forall_cons; split.
      * exists it'. split; [|done]. apply list_elem_of_lookup. exists (Z.to_nat (_load_index k)).
        apply list_lookup_insert_eq. by eapply lookup_lt_Some.
      * eapply Forall_impl; [exact Ho2|]. intros key (x & Hx & Hp & Hkey). exists x. split; [|done].
        apply list_elem_of_lookup in Hx as [j Hj]. apply list_elem_of_lookup. exists j.
        rewrite list_lookup_insert_ne; [done|]. intros <-. rewrite Hli in Hj. by simplify_eq.
  - rewrite zlen_cons. lia.
  - rewrite zlen_cons, Hn1. lia.
  - apply NoDup_app in Hnd as (Hnd1 & Hdj & Hnd2). apply NoDup_app. split; [done|]. split.
    + intros x Hx Hin. apply elem_of_cons in Hin as [-> | Hin]; [tauto|]. by eapply Hdj.
    + apply NoDup_cons. split; [tauto|done].
  - done.
  - exists k', l'. cbn [loads]. rewrite Hl. cbn [mbind option_bind]. split; [done|]. split; [done|].
    rewrite reverse_cons, <- app_assoc. split; [done|]. rewrite Hc', zlen_cons. lia.
Qed.

Lemma find_exists (f : Item -> bool) l x : x ∈ l -> f x = true -> exists y, List.find f l = Some y.
Proof.
  intros Hx Hf. destruct (List.find f l) as [y|] eqn:E; [by exists y|].
  rewrite (List.find_none f l E x) in Hf; [done|]. by apply list_elem_of_In.
Qed.

(** An entry of the cache once everything has been processed. *)
Lemma loaded_entry m done l1 l2 k2 it :
  only_loaded done l1 -> Forall2 (processed m) l1 l2 -> cache_ok k2 l2 -> _item_counter k2 = 0 -> it ∈ l2 ->
  it_cache_state it = Cache_Idle \/
  (exists it1, it1 ∈ l1 /\ it_cache_state it1 = Cache_RequestPrepared /\ it = loaded m it1).
Proof.
  intros [Ho _] Hp Hk Hc Hin. apply list_elem_of_lookup in Hin as [j Hj].
  destruct (Forall2_lookup_r _ _ _ _ _ Hp Hj) as (it1 & Hj1 & Hpr).
  pose proof (Forall_lookup_1 _ _ _ _ Ho Hj1) as [Hidle | [Hprep _]].
  - destruct Hpr as [-> | [Hp' _]]; [by left|congruence].
  - destruct Hpr as [-> | [_ ->]]; [|right; exists it1; split; [by apply list_elem_of_lookup; exists j|done]].
    exfalso. pose proof Hk as [_ [Hn Hn'] Hu _ _ _ _ Hw].
    assert (Hz : zlookup l2 (Z.of_nat j) = Some it1) by (unfold zlookup; rewrite (proj2 (Z.leb_le 0 (Z.of_nat j))), Nat2Z.id by lia; done).
    apply (Hw _ _ Hz) in Hprep. unfold in_window in Hprep.
    pose proof (Z.mod_pos_bound (Z.of_nat j - _update_index k2) (_num_items k2)). lia.
Qed.

(** C21: What is loaded into a new cache is served from it. For different items that fit
    the cache, [load] accepts them all; with the server answering between the calls, at
    most two updates per item end the loading; and then [loadWait] returns every item
    from the cache, without a request, as it is in the store. *)
Theorem cache_serves_loaded num c keys b :
  0 < num < 2 ^ 31 -> _state c = Client_Idle -> 0 < _client_id c -> bus_idle b -> store_ok (b_srv b).1 ->
  NoDup keys -> zlen keys <= num -> Forall (fun key => slot_ok NUM_MISSION_ITEMS key.1 key.2) keys ->
  exists k1 n k2 b2,
    loads keys (DatamanCache_new true num c) = Some k1 /\ (n <= 2 * length keys)%nat /\
    rounds n k1 b = Some (k2, b2) /\ isLoading k2 = false /\
    forall item index buffer, (item, index) ∈ keys -> slot_size sizeof_mission_s item <= zlen buffer ->
      loadWait sizeof_mission_s junk item index buffer (slot_size sizeof_mission_s item) 0 k2 b2 =
      Some (true, splice 0 (item_value (b_srv b).1 item index) buffer, k2, b2).
Proof.
  intros Hnum Hci Hid Hb Hm Hnd Hfit Hs. pose proof (cache_new_ok num c Hnum Hci Hid) as Hk0.
  destruct (cache_loads_ok keys [] _ _ Hk0) as (k1 & l1 & Hl & Hk1 & Ho & Hc1); try done.
  { split; [|done]. apply Forall_replicate. by left. }
  { unfold DatamanCache_new. by rewrite (proj2 (Z.eqb_neq _ _)) by lia. }
  { unfold DatamanCache_new. rewrite (proj2 (Z.eqb_neq _ _)) by lia. done. }
  { by rewrite app_nil_r. }
  destruct (rounds_all (length keys) k1 l1 b Hk1 Hb Hm) as (n & k2 & l2 & b2 & Hn & Hr & Hk2 & Hc2 & _ & _ & Hp); [done|].
  exists k1, n, k2, b2. split_and!; try done. { unfold isLoading. by rewrite Hc2. }
  rewrite app_nil_r in Ho. intros item index buffer Hin Hbuf.
  destruct (proj1 (Forall_forall _ _) (proj2 Ho) (item, index)) as (it1 & Hit1 & Hp1 & Hkey1); [by apply elem_of_reverse|].
  apply list_elem_of_lookup in Hit1 as [j Hj]. destruct (Forall2_lookup_l _ _ _ _ _ Hp Hj) as (it2 & Hj2 & Hpr).
  assert (Hin2 : it2 ∈ l2) by (apply list_elem_of_lookup; by exists j).
  assert (Hrr : it_cache_state it2 = Cache_ResponseReceived /\ key_of it2 = (item, index)).
  { destruct Hpr as [-> | [_ ->]]; [|done].
    destruct (loaded_entry _ _ _ _ _ it1 Ho Hp Hk2 Hc2 Hin2) as [E | (x & _ & _ & E)]; [congruence|].
    rewrite E in Hp1. done. }
  destruct (find_exists (fun it => it_matches item index it && is_state Cache_ResponseReceived it) l2 it2 Hin2) as [y Hy].
  { apply andb_true_iff. split; [apply it_matches_key, Hrr|apply bool_decide_eq_true, Hrr]. }
  pose proof (List.find_some _ _ Hy) as [Hyin Hym]. apply list_elem_of_In in Hyin. apply andb_true_iff in Hym as [Hykey Hyst].
  apply it_matches_key in Hykey. apply bool_decide_eq_true in Hyst.
  destruct (loaded_entry _ _ _ _ _ y Ho Hp Hk2 Hc2 Hyin) as [E | (x & Hx & Hxp & ->)]; [congruence|].
  assert (Hxk : key_of x = (item, index)) by exact Hykey. injection Hxk as Hxi Hxx.
  pose proof (proj1 (Forall_forall _ _) (ck_entries _ _ Hk1) x Hx) as (Hxl & _ & _ & Hslot). specialize (Hslot Hxp).
  rewrite Hxi in Hslot. pose proof (slot_size_range _ mission_fits _ (proj1 Hslot)) as Hsz.
  unfold loadWait. rewrite item_size_ok by apply Hslot. cbn [mbind option_bind]. decide_if.
  rewrite (ck_items _ _ Hk2). change (default [] (Some l2)) with l2. rewrite Hy.
  change (it_data (loaded (b_srv b).1 x)) with (splice 0 (item_value (b_srv b).1 (rs_item (it_response x)) (rs_index (it_response x))) (it_data x)).
  rewrite Hxi, Hxx. pose proof (item_value_len (b_srv b).1 item index Hm) as Hvl.
  rewrite mem_read_Some by (rewrite ?zlen_splice; lia). cbn [mbind option_bind].
  rewrite slice_splice_same by lia. rewrite mem_write_Some by lia. done.
Qed.

(** *** An entry in error *)

Lemma move_on (items : list Item) (li ui ic num : Z) (c : DatamanClient) :
  0 <= ui < num - 1 -> num < 2 ^ 31 ->
  changeUpdateIndex (mkCache (Some items) li ui ic num c) =
  mkCache (Some items) li (ui + 1) (if 0 <? ic then ic - 1 else ic) num c.
Proof.
  intros Hui Hn. unfold changeUpdateIndex. cbn [_num_items _update_index _item_counter _items _load_index _client].
  rewrite (proj2 (Z.eqb_neq _ _)) by lia. rewrite uwrap_small by lia. by rewrite Z.mod_small by lia.
Qed.

(** [update] over an entry that is cached. *)
Lemma update_over_cached (items : list Item) (li ui ic num : Z) (c : DatamanClient) (b : bus (store * Z)) (it next : Item) :
  zlookup items ui = Some it -> it_cache_state it = Cache_ResponseReceived -> zlookup items (ui + 1) = Some next ->
  0 < ic -> 0 <= ui < num - 1 -> num < 2 ^ 31 -> _state c = Client_Idle ->
  let k' := mkCache (Some items) li (ui + 1) (ic - 1) num c in
  cache_update sizeof_mission_s junk (mkCache (Some items) li ui ic num c) b =
  Some (if is_state Cache_Error next then changeUpdateIndex k' else k', b).
Proof.
  intros Hit Hst Hnext Hic Hui Hn Hc k'. unfold cache_update. cbn [_item_counter]. decide_if.
  rewrite (client_step_idle _ items) by (cbn; congruence). cbn [mbind option_bind]. unfold update_entry.
  cbn [_items _update_index mbind option_bind]. rewrite Hit. cbn [mbind option_bind]. rewrite Hst.
  rewrite move_on by done. decide_if. cbn [mbind option_bind _items _update_index]. rewrite Hnext. done.
Qed.

(** An entry in error makes the cache forget the next item it is asked to load.
    [update] moves over the entry before it and then, since it looks at the entry that
    is current afterwards, over the entry in error too, although it is not in the list
    of entries to process. From then on [_update_index] is ahead of [_load_index]: an
    item that [load] accepts is never requested, the cache reports that it is not
    loading, [load] refuses the item as a duplicate, and [loadWait] does not find it. *)
Theorem error_entry_starves_load (a e r r' : Item) (rest : list Item) (c : DatamanClient) (item index : Z)
    (buffer : list Z) (length : Z) (b : bus (store * Z)) :
  let l := a :: e :: r :: r' :: rest in
  zlen l < 2 ^ 31 -> _state c = Client_Idle -> slot_ok NUM_MISSION_ITEMS item index ->
  it_cache_state a = Cache_ResponseReceived -> it_cache_state e = Cache_Error ->
  it_cache_state r = Cache_ResponseReceived -> it_cache_state r' <> Cache_Error ->
  Forall (fun it => key_of it <> (item, index)) l -> 0 <= length <= slot_size sizeof_mission_s item ->
  let k := mkCache (Some l) 1 0 1 (zlen l) c in
  exists k1 k2 k3,
    cache_update sizeof_mission_s junk k b = Some (k1, b) /\
    load item index k1 = Some (true, k2) /\ isLoading k2 = true /\
    cache_update sizeof_mission_s junk k2 b = Some (k3, b) /\ isLoading k3 = false /\
    load item index k3 = Some (false, k3) /\
    loadWait sizeof_mission_s junk item index buffer length 0 k3 b = Some (false, buffer, k3, b).
Proof.
  intros l Hn Hc Hs Ha He Hr Hr' Hkeys Hlen k.
  assert (Hn4 : 4 <= zlen l) by (unfold l; rewrite !zlen_cons; pose proof (zlen_nonneg rest); lia).
  assert (Hl0 : zlookup l 0 = Some a /\ zlookup l 1 = Some e /\ zlookup l 2 = Some r /\ zlookup l 3 = Some r') by done.
  destruct Hl0 as (H0 & H1 & H2 & H3).
  set (e' := it_set_key (it_set_state e Cache_RequestPrepared) item index).
  set (l2 := <[1%nat := e']> l).
  assert (Hns : _state c <> Client_RequestSent) by congruence.
  assert (Hm : forall x, x ∈ l -> it_matches item index x = false).
  { intros x Hx. apply not_true_iff_false. intros Hk. apply it_matches_key in Hk.
    by apply (proj1 (Forall_forall _ _) Hkeys x Hx). }
  exists (mkCache (Some l) 1 2 0 (zlen l) c), (mkCache (Some l2) 2 2 1 (zlen l) c), (mkCache (Some l2) 2 3 0 (zlen l) c).
  split_and!; try done.
  - unfold k. rewrite (update_over_cached l 1 0 1 (zlen l) c b a e) by (done || lia).
    unfold is_state. rewrite bool_decide_true by done. cbn [Z.add Z.sub Z.opp Z.pos_sub]. by rewrite move_on by lia.
  - unfold load. cbn [_items _item_counter _num_items].
    assert (Hex : existsb (fun it => negb (is_state Cache_Idle it) && negb (is_state Cache_Error it)
                                     && it_matches item index it) l = false).
    { apply not_true_iff_false. intros Ht. apply existsb_exists in Ht as (x & Hx & Hb).
      apply list_elem_of_In in Hx. rewrite (Hm x Hx), andb_false_r in Hb. done. }
    rewrite Hex. cbn [negb andb]. decide_if. unfold add_entry. cbn [_load_index _num_items _item_counter _update_index _client].
    rewrite H1. cbn [mbind option_bind]. rewrite zstore_update by lia. cbn [mbind option_bind].
    rewrite !uwrap_small by lia. by rewrite Z.mod_small by lia.
  - rewrite (update_over_cached l2 2 2 1 (zlen l) c b r r') by (done || lia).
    unfold is_state. by rewrite bool_decide_false.
  - unfold load. cbn [_items _item_counter _num_items].
    assert (Hex : existsb (fun it => negb (is_state Cache_Idle it) && negb (is_state Cache_Error it)
                                     && it_matches item index it) l2 = true).
    { apply existsb_exists. exists e'. split; [by right; left|]. unfold it_matches. cbn. by rewrite !Z.eqb_refl. }
    by rewrite Hex.
  - unfold loadWait. rewrite item_size_ok by apply Hs. cbn [mbind option_bind]. decide_if. cbn [_items].
    change (default [] (Some l2)) with l2.
    assert (Hf : List.find (fun it => it_matches item index it && is_state Cache_ResponseReceived it) l2 = None).
    { destruct (List.find _ l2) as [y|] eqn:E; [|done]. apply List.find_some in E as [Hy Hb].
      apply andb_true_iff in Hb as [Hk Hst]. apply list_elem_of_In, list_elem_of_lookup in Hy as [j Hj].
      unfold l2 in Hj. destruct (decide (j = 1%nat)) as [-> | Hne].
      - rewrite list_lookup_insert_eq in Hj by (cbn; lia). by simplify_eq.
      - rewrite list_lookup_insert_ne in Hj by done. rewrite Hm in Hk; [done|]. apply list_elem_of_lookup. by exists j. }
    rewrite Hf. done.
Qed.
End over_store.

(** ** The claims on the small layout of [Dataman] *)
Definition sample_junk : dataman_request_s := mkRequest 0 0 0 0 0 (zeros 56) 0.
Definition sample_client : DatamanClient := mkClient Client_Idle (mkActive 0 0 0 0 0 0) 0 3.
Definition sample_bus (serving : option dataman_request_s) (script : list wait) : bus (store * Z) :=
  mkBus (∅, 4) serving None None 1000 script [].
Definition foreign_read : dataman_request_s := mkRequest 900 2 DM_READ DM_KEY_MISSION_STATE 0 (zeros 56) 40.

Lemma sync_operations_exact_witness :
  exists success b',
    @writeSync _ (store_server 40 2) 40 sample_junk sample_client DM_KEY_MISSION_STATE 0 (sample_bytes 40) 40 5000000
      (sample_bus (Some foreign_read) [mkWait [Server_answers; Tick 20] false; mkWait [Server_takes; Server_answers; Tick 30] false])
    = Some (success, b') /\
    (success = true -> contents (b_srv b').1 DM_KEY_MISSION_STATE 0 = sample_bytes 40).
Proof.
  apply (sync_operations_exact 40 2 sample_junk (proj1 sample_fits) eq_refl sample_client DM_KEY_MISSION_STATE 0
           (sample_bytes 40) 40 5000000
           (sample_bus (Some foreign_read) [mkWait [Server_answers; Tick 20] false; mkWait [Server_takes; Server_answers; Tick 30] false]));
    try done.
  split; [intros ? [= <-]; done|]. split; repeat constructor; done.
Defined.

Lemma late_reply_acknowledges_next_write_witness :
  exists b',
    @writeSync _ (store_server 40 2) 40 sample_junk sample_client DM_KEY_MISSION_STATE 0 (sample_bytes 40) 40 5000000
      (sample_bus (Some (mkRequest 10 3 DM_WRITE DM_KEY_MISSION_STATE 0 (zeros 56) 40))
         [mkWait [Server_answers; Foreign foreign_read] false]) = Some (true, b') /\
    contents (b_srv b').1 DM_KEY_MISSION_STATE 0 = zeros 40 /\ b_in_service b' = None /\ b_request b' = Some foreign_read.
Proof.
  apply (late_reply_acknowledges_next_write 40 2 sample_junk (proj1 sample_fits) eq_refl sample_client
           DM_KEY_MISSION_STATE 0 (zeros 56) (sample_bytes 40) 40 5000000 10 _ [] foreign_read); done.
Defined.

Lemma cache_serves_loaded_witness :
  exists k1 n k2 b2,
    loads [(DM_KEY_WAYPOINTS_OFFBOARD_0, 0); (DM_KEY_WAYPOINTS_OFFBOARD_0, 1)] (DatamanCache_new true 4 sample_client) = Some k1 /\
    (n <= 4)%nat /\ rounds 40 2 sample_junk n k1 (sample_bus None []) = Some (k2, b2) /\ isLoading k2 = false.
Proof.
  destruct (cache_serves_loaded 40 2 sample_junk (proj1 sample_fits) 4 sample_client
              [(DM_KEY_WAYPOINTS_OFFBOARD_0, 0); (DM_KEY_WAYPOINTS_OFFBOARD_0, 1)] (sample_bus None []))
    as (k1 & n & k2 & b2 & H1 & H2 & H3 & H4 & _); try done.
  - intros i k. cbn. unfold contents. rewrite lookup_empty. unfold slot_size, at_item.
    change (zlen (default [] None)) with 0. destruct (Z.to_nat i) as [|[|[|[|[|[|[|[|[|[|[|]]]]]]]]]]]; done.
  - apply NoDup_cons. split; [|by apply NoDup_singleton]. intros Hin. apply list_elem_of_singleton in Hin. done.
  - repeat (apply Forall_cons; split); done.
  - by exists k1, n, k2, b2.
Defined.

Definition sample_entry (item index : Z) (s : cache_state_t) : Item :=
  mkItem (mkResponse 3 DM_READ item index (zeros 56) 0) s.

Lemma error_entry_starves_load_witness :
  exists k1 k2 k3,
    @cache_update _ 40 sample_junk
      (mkCache (Some [sample_entry 6 0 Cache_ResponseReceived; sample_entry 6 1 Cache_Error;
                      sample_entry 7 0 Cache_ResponseReceived; sample_entry 7 1 Cache_ResponseReceived]) 1 0 1 4 sample_client)
      (sample_bus None []) = Some (k1, sample_bus None []) /\
    load DM_KEY_MISSION_STATE 0 k1 = Some (true, k2) /\ isLoading k2 = true /\
    @cache_update _ 40 sample_junk k2 (sample_bus None []) = Some (k3, sample_bus None []) /\ isLoading k3 = false /\
    load DM_KEY_MISSION_STATE 0 k3 = Some (false, k3) /\
    @loadWait _ (store_server 40 2) 40 sample_junk DM_KEY_MISSION_STATE 0 (zeros 56) 40 0 k3 (sample_bus None []) =
    Some (false, zeros 56, k3, sample_bus None []).
Proof.
  apply (error_entry_starves_load 40 2 sample_junk
           (sample_entry 6 0 Cache_ResponseReceived) (sample_entry 6 1 Cache_Error)
           (sample_entry 7 0 Cache_ResponseReceived) (sample_entry 7 1 Cache_ResponseReceived) []
           sample_client DM_KEY_MISSION_STATE 0 (zeros 56) 40 (sample_bus None [])); try done.
  repeat (apply Forall_cons; split); done.
Defined.
