(* ===== verification/MissionItem.v ===== *)
(** * Mission items on the wire and in storage

    [src/modules/mavlink/mavlink_command_params.hpp] and the translation of mission items in
    [src/modules/mavlink/mavlink_mission.cpp]: which parameters a command may carry, how an
    item of the MAVLink mission protocol becomes a [mission_item_s] and back, the bytes of the
    structures of [src/modules/navigator/navigation.h] that are stored, and the checksum of an
    item. Floats and doubles are bit patterns. *)
From stdpp Require Import base list.
From Stdlib Require Import ZArith Lia.
From S2P Require Import Prelude Float32 FloatOps Crc.

(** ** Which parameters a command supports *)
Record Entry := mkEntry { e_cmd : Z; e_mission : Z; e_command : Z }.

Definition SupportedCommandParams : list Entry := [
  mkEntry 16 0x7B 0x7B; mkEntry 17 0x7C 0x7C; mkEntry 19 0x7F 0x7F; mkEntry 20 0x00 0x00; mkEntry 21 0x7B 0x7B;
  mkEntry 22 0x78 0x78; mkEntry 31 0x7B 0x7B; mkEntry 80 0x77 0x77; mkEntry 84 0x78 0x7C; mkEntry 85 0x7C 0x7F;
  mkEntry 93 0x0F 0x0F; mkEntry 112 0x01 0x01; mkEntry 114 0x01 0x01; mkEntry 176 0x07 0x07; mkEntry 177 0x03 0x03;
  mkEntry 178 0x07 0x07; mkEntry 179 0x7F 0x7F; mkEntry 189 0x70 0x70; mkEntry 195 0x70 0x71; mkEntry 196 0x01 0x01;
  mkEntry 197 0x01 0x01; mkEntry 201 0x07 0x07; mkEntry 206 0x0F 0x0F; mkEntry 211 0x03 0x03; mkEntry 212 0x03 0x03;
  mkEntry 214 0x07 0x07; mkEntry 400 0x03 0x03; mkEntry 420 0x07 0x07; mkEntry 530 0x03 0x03; mkEntry 532 0x07 0x07;
  mkEntry 534 0x07 0x07; mkEntry 611 0x00 0x70; mkEntry 2000 0x0F 0x0F; mkEntry 2001 0x01 0x01;
  mkEntry 2003 0x0F 0x0F; mkEntry 2500 0x07 0x07; mkEntry 2501 0x03 0x03; mkEntry 3000 0x03 0x03;
  mkEntry 4501 0x00 0x00; mkEntry 5000 0x70 0x00; mkEntry 5001 0x31 0x01; mkEntry 5002 0x31 0x01;
  mkEntry 5003 0x31 0x01; mkEntry 5004 0x31 0x01; mkEntry 5100 0x70 0x00; mkEntry 42600 0x0F 0x0F
].

Definition SupportedCommandParamsCount : Z := zlen SupportedCommandParams.

Definition VEHICLE_FW : Z := 1.
Definition VEHICLE_MC : Z := 2.
Definition VEHICLE_VTOL : Z := 4.
Definition VEHICLE_ROVER : Z := 8.
Definition VEHICLE_TYPE_ROTARY_WING : Z := 1.
Definition VEHICLE_TYPE_FIXED_WING : Z := 2.
Definition VEHICLE_TYPE_ROVER : Z := 3.

Definition vehicle_type_bitmask (is_vtol : bool) (vehicle_type : Z) : Z :=
  if is_vtol then VEHICLE_VTOL
  else if vehicle_type =? VEHICLE_TYPE_FIXED_WING then VEHICLE_FW
  else if vehicle_type =? VEHICLE_TYPE_ROTARY_WING then VEHICLE_MC
  else if vehicle_type =? VEHICLE_TYPE_ROVER then VEHICLE_ROVER
  else 0.

Record VehicleOverride := mkOverride { ov_cmd : Z; ov_vehicle_mask : Z; ov_mission : Z; ov_command : Z }.

Definition VehicleParamOverrides : list VehicleOverride :=
  [mkOverride 22 (Z.lor (Z.lor VEHICLE_FW VEHICLE_VTOL) VEHICLE_MC) 0x01 0x01].

Definition param_is_unset (bits : Z) : bool := f32_is_nan bits || (Z.land bits 0x7FFFFFFF =? 0).

Definition INT32_MAX : Z := 2 ^ 31 - 1.
Definition INT32_MIN : Z := - 2 ^ 31.
Definition int_param_is_unset (v : Z) : bool := (v =? INT32_MAX) || (v =? INT32_MIN).

(** The mask of an entry with the additions for the vehicle. *)
Definition override_mask (e : Entry) (cmd : Z) (for_mission : bool) (vehicle_type : Z) : Z :=
  foldl (fun mask ov =>
    if (ov.(ov_cmd) =? cmd) && negb (Z.land ov.(ov_vehicle_mask) vehicle_type =? 0)
    then Z.lor mask (if for_mission then ov.(ov_mission) else ov.(ov_command)) else mask)
    (if for_mission then e.(e_mission) else e.(e_command)) VehicleParamOverrides.

(** The loop of the binary search; [None] is an access outside the table or spent fuel. *)
Fixpoint find_mask_loop (fuel : nat) (lo hi cmd : Z) (for_mission : bool) (vehicle_type : Z) : option Z :=
  match fuel with
  | O => None
  | S fuel =>
      if negb (lo <=? hi) then Some (-1)
      else
        let mid := lo + (hi - lo) / 2 in
        e ← zlookup SupportedCommandParams mid;
        if e.(e_cmd) =? cmd then Some (override_mask e cmd for_mission vehicle_type)
        else if e.(e_cmd) <? cmd then find_mask_loop fuel (mid + 1) hi cmd for_mission vehicle_type
        else if mid =? 0 then Some (-1)
        else find_mask_loop fuel lo (mid - 1) cmd for_mission vehicle_type
  end.

(** [find_mask_total] below: the search ends inside the table, so the default is not used. *)
Definition _find_mask (cmd : Z) (for_mission : bool) (vehicle_type : Z) : Z :=
  default (-1)
    (find_mask_loop (length SupportedCommandParams + 1) 0 (SupportedCommandParamsCount - 1) cmd for_mission vehicle_type).

(** [_scan_params]: the number of the first parameter that is set although it is not
    supported, or 0. The mask of zero sentinels is only printed. *)
Fixpoint scan_params (mask : Z) (ps : list Z) (i : Z) : Z :=
  match ps with
  | [] => 0
  | p :: rest => if negb (Z.testbit mask i) && negb (param_is_unset p) then i + 1 else scan_params mask rest (i + 1)
  end.

Definition check_params_for_vehicle (cmd : Z) (for_mission : bool) (vehicle_type : Z) (ps : list Z) : Z :=
  let mask := _find_mask cmd for_mission vehicle_type in
  if mask <? 0 then -1 else scan_params mask ps 0.

Definition check_params_int_for_vehicle (cmd : Z) (for_mission : bool) (vehicle_type : Z)
    (ps14 : list Z) (p5_int p6_int p7 : Z) : Z :=
  let mask := _find_mask cmd for_mission vehicle_type in
  if mask <? 0 then -1
  else
    let bad := scan_params mask ps14 0 in
    if negb (bad =? 0) then bad
    else if negb (Z.testbit mask 4) && negb (int_param_is_unset p5_int) then 5
    else if negb (Z.testbit mask 5) && negb (int_param_is_unset p6_int) then 6
    else if negb (Z.testbit mask 6) && negb (param_is_unset p7) then 7
    else 0.

(** ** The structures

    A mission item as it is received ([mavlink_mission_item_t]); with MISSION_ITEM_INT the
    same bytes hold integers for [x] and [y]. *)
Record mavlink_mission_item_t := mkWp {
  wp_param1 : Z; wp_param2 : Z; wp_param3 : Z; wp_param4 : Z;
  wp_x : Z; wp_y : Z; wp_z : Z;
  wp_seq : Z; wp_command : Z;
  wp_target_system : Z; wp_target_component : Z;
  wp_frame : Z; wp_current : Z; wp_autocontinue : Z; wp_mission_type : Z;
}.

(** [item_int->x], the pattern as an [int32_t]. *)
Definition int_x (wp : mavlink_mission_item_t) : Z := s32 wp.(wp_x).
Definition int_y (wp : mavlink_mission_item_t) : Z := s32 wp.(wp_y).

(** [mission_item_s]. The named parameters of the union are entries of [mi_params]:
    0 [time_inside], [circle_radius], [land_abort_min_alt]; 1 [acceptance_radius];
    2 [loiter_radius]; 3 [yaw]; 6 [altitude]. [mi_count16] is the union of
    [do_jump_current_count], [vertex_count] and [land_precision]. *)
Record mission_item_s := mkMissionItem {
  mi_lat : Z; mi_lon : Z;
  mi_params : list Z;
  mi_nav_cmd : Z;
  mi_do_jump_mission_index : Z;
  mi_do_jump_repeat_count : Z;
  mi_count16 : Z;
  mi_frame : Z; mi_origin : Z;
  mi_loiter_exit_xtrack : bool; mi_force_heading : bool; mi_altitude_is_relative : bool;
  mi_autocontinue : bool; mi_vtol_back_transition : bool;
}.

Definition mission_item_zero : mission_item_s :=
  mkMissionItem 0 0 [0; 0; 0; 0; 0; 0; 0] 0 0 0 0 0 0 false false false false false.

Definition mi_param (it : mission_item_s) (i : nat) : Z := nth i it.(mi_params) 0.

Definition mi_set_position (lat lon : Z) (rel : bool) (it : mission_item_s) : mission_item_s :=
  mkMissionItem lat lon it.(mi_params) it.(mi_nav_cmd) it.(mi_do_jump_mission_index) it.(mi_do_jump_repeat_count)
    it.(mi_count16) it.(mi_frame) it.(mi_origin) it.(mi_loiter_exit_xtrack) it.(mi_force_heading) rel
    it.(mi_autocontinue) it.(mi_vtol_back_transition).
Definition mi_set_param (i : nat) (v : Z) (it : mission_item_s) : mission_item_s :=
  mkMissionItem it.(mi_lat) it.(mi_lon) (<[i := v]> it.(mi_params)) it.(mi_nav_cmd) it.(mi_do_jump_mission_index)
    it.(mi_do_jump_repeat_count) it.(mi_count16) it.(mi_frame) it.(mi_origin) it.(mi_loiter_exit_xtrack)
    it.(mi_force_heading) it.(mi_altitude_is_relative) it.(mi_autocontinue) it.(mi_vtol_back_transition).
Definition mi_set_cmd (cmd : Z) (it : mission_item_s) : mission_item_s :=
  mkMissionItem it.(mi_lat) it.(mi_lon) it.(mi_params) cmd it.(mi_do_jump_mission_index)
    it.(mi_do_jump_repeat_count) it.(mi_count16) it.(mi_frame) it.(mi_origin) it.(mi_loiter_exit_xtrack)
    it.(mi_force_heading) it.(mi_altitude_is_relative) it.(mi_autocontinue) it.(mi_vtol_back_transition).
Definition mi_set_count16 (v : Z) (it : mission_item_s) : mission_item_s :=
  mkMissionItem it.(mi_lat) it.(mi_lon) it.(mi_params) it.(mi_nav_cmd) it.(mi_do_jump_mission_index)
    it.(mi_do_jump_repeat_count) v it.(mi_frame) it.(mi_origin) it.(mi_loiter_exit_xtrack)
    it.(mi_force_heading) it.(mi_altitude_is_relative) it.(mi_autocontinue) it.(mi_vtol_back_transition).
Definition mi_set_loiter (force_heading exit_xtrack : bool) (it : mission_item_s) : mission_item_s :=
  mkMissionItem it.(mi_lat) it.(mi_lon) it.(mi_params) it.(mi_nav_cmd) it.(mi_do_jump_mission_index)
    it.(mi_do_jump_repeat_count) it.(mi_count16) it.(mi_frame) it.(mi_origin) exit_xtrack
    force_heading it.(mi_altitude_is_relative) it.(mi_autocontinue) it.(mi_vtol_back_transition).
Definition mi_set_jump (index repeat current : Z) (it : mission_item_s) : mission_item_s :=
  mkMissionItem it.(mi_lat) it.(mi_lon) it.(mi_params) it.(mi_nav_cmd) index repeat current it.(mi_frame) it.(mi_origin)
    it.(mi_loiter_exit_xtrack) it.(mi_force_heading) it.(mi_altitude_is_relative) it.(mi_autocontinue)
    it.(mi_vtol_back_transition).
Definition mi_set_frame (frame : Z) (it : mission_item_s) : mission_item_s :=
  mkMissionItem it.(mi_lat) it.(mi_lon) it.(mi_params) it.(mi_nav_cmd) it.(mi_do_jump_mission_index)
    it.(mi_do_jump_repeat_count) it.(mi_count16) frame it.(mi_origin) it.(mi_loiter_exit_xtrack)
    it.(mi_force_heading) it.(mi_altitude_is_relative) it.(mi_autocontinue) it.(mi_vtol_back_transition).
Definition mi_set_end (autocontinue : bool) (origin : Z) (it : mission_item_s) : mission_item_s :=
  mkMissionItem it.(mi_lat) it.(mi_lon) it.(mi_params) it.(mi_nav_cmd) it.(mi_do_jump_mission_index)
    it.(mi_do_jump_repeat_count) it.(mi_count16) it.(mi_frame) origin it.(mi_loiter_exit_xtrack)
    it.(mi_force_heading) it.(mi_altitude_is_relative) autocontinue it.(mi_vtol_back_transition).

(** ** Commands, frames and results of the protocol *)
Definition MAV_FRAME_GLOBAL : Z := 0.
Definition MAV_FRAME_MISSION : Z := 2.
Definition MAV_FRAME_GLOBAL_RELATIVE_ALT : Z := 3.
Definition MAV_FRAME_GLOBAL_INT : Z := 5.
Definition MAV_FRAME_GLOBAL_RELATIVE_ALT_INT : Z := 6.

Definition MAV_MISSION_ACCEPTED : Z := 0.
Definition MAV_MISSION_ERROR : Z := 1.
Definition MAV_MISSION_UNSUPPORTED_FRAME : Z := 2.
Definition MAV_MISSION_UNSUPPORTED : Z := 3.
Definition MAV_MISSION_NO_SPACE : Z := 4.
Definition MAV_MISSION_INVALID : Z := 5.
Definition MAV_MISSION_INVALID_PARAM1 : Z := 6.
Definition MAV_MISSION_OPERATION_CANCELLED : Z := 15.

Definition MAV_ROI_NONE : Z := 0.
Definition MAV_ROI_WPNEXT : Z := 1.
Definition MAV_ROI_WPINDEX : Z := 2.
Definition MAV_ROI_LOCATION : Z := 3.

Definition MAV_CMD_NAV_WAYPOINT : Z := 16.
Definition MAV_CMD_NAV_LOITER_UNLIM : Z := 17.
Definition MAV_CMD_NAV_LOITER_TIME : Z := 19.
Definition MAV_CMD_NAV_RETURN_TO_LAUNCH : Z := 20.
Definition MAV_CMD_NAV_LAND : Z := 21.
Definition MAV_CMD_NAV_TAKEOFF : Z := 22.
Definition MAV_CMD_NAV_LOITER_TO_ALT : Z := 31.
Definition MAV_CMD_NAV_ROI : Z := 80.
Definition MAV_CMD_NAV_VTOL_TAKEOFF : Z := 84.
Definition MAV_CMD_NAV_VTOL_LAND : Z := 85.
Definition MAV_CMD_NAV_DELAY : Z := 93.
Definition MAV_CMD_CONDITION_DELAY : Z := 112.
Definition MAV_CMD_DO_JUMP : Z := 177.
Definition MAV_CMD_DO_CHANGE_SPEED : Z := 178.
Definition MAV_CMD_DO_SET_HOME : Z := 179.
Definition MAV_CMD_DO_SET_ACTUATOR : Z := 187.
Definition MAV_CMD_DO_LAND_START : Z := 189.
Definition MAV_CMD_DO_SET_ROI_LOCATION : Z := 195.
Definition MAV_CMD_DO_SET_ROI_WPNEXT_OFFSET : Z := 196.
Definition MAV_CMD_DO_SET_ROI_NONE : Z := 197.
Definition MAV_CMD_DO_CONTROL_VIDEO : Z := 200.
Definition MAV_CMD_DO_SET_ROI : Z := 201.
Definition MAV_CMD_DO_DIGICAM_CONTROL : Z := 203.
Definition MAV_CMD_DO_MOUNT_CONFIGURE : Z := 204.
Definition MAV_CMD_DO_MOUNT_CONTROL : Z := 205.
Definition MAV_CMD_DO_SET_CAM_TRIGG_DIST : Z := 206.
Definition MAV_CMD_DO_GRIPPER : Z := 211.
Definition MAV_CMD_DO_AUTOTUNE_ENABLE : Z := 212.
Definition MAV_CMD_DO_SET_CAM_TRIGG_INTERVAL : Z := 214.
Definition MAV_CMD_OBLIQUE_SURVEY : Z := 260.
Definition MAV_CMD_COMPONENT_ARM_DISARM : Z := 400.
Definition MAV_CMD_SET_CAMERA_MODE : Z := 530.
Definition NAV_CMD_SET_CAMERA_ZOOM : Z := 531.
Definition NAV_CMD_SET_CAMERA_FOCUS : Z := 532.
Definition MAV_CMD_SET_CAMERA_SOURCE : Z := 534.
Definition NAV_CMD_DO_GIMBAL_MANAGER_PITCHYAW : Z := 1000.
Definition NAV_CMD_DO_GIMBAL_MANAGER_CONFIGURE : Z := 1001.
Definition MAV_CMD_IMAGE_START_CAPTURE : Z := 2000.
Definition MAV_CMD_IMAGE_STOP_CAPTURE : Z := 2001.
Definition MAV_CMD_DO_TRIGGER_CONTROL : Z := 2003.
Definition MAV_CMD_VIDEO_START_CAPTURE : Z := 2500.
Definition MAV_CMD_VIDEO_STOP_CAPTURE : Z := 2501.
Definition MAV_CMD_DO_VTOL_TRANSITION : Z := 3000.
Definition MAV_CMD_CONDITION_GATE : Z := 4501.
Definition MAV_CMD_NAV_FENCE_RETURN_POINT : Z := 5000.
Definition MAV_CMD_NAV_FENCE_POLYGON_VERTEX_INCLUSION : Z := 5001.
Definition MAV_CMD_NAV_FENCE_POLYGON_VERTEX_EXCLUSION : Z := 5002.
Definition MAV_CMD_NAV_FENCE_CIRCLE_INCLUSION : Z := 5003.
Definition MAV_CMD_NAV_FENCE_CIRCLE_EXCLUSION : Z := 5004.
Definition MAV_CMD_NAV_RALLY_POINT : Z := 5100.
Definition MAV_CMD_DO_WINCH : Z := 42600.

Definition ORIGIN_MAVLINK : Z := 0.
Definition FLT_NAN : Z := f32_nan.
Definition FLT_PI : Z := 0x40490fdb.
Definition FLT_2PI : Z := 0x40c90fdb.

(** [wrap_floating], [wrap_2pi], [math::radians], [math::degrees] *)
Definition wrap_floating (x low high : Z) : Z :=
  if f32_le low x && f32_lt x high then x
  else
    let range := f32_sub high low in
    let inv_range := f32_div (f32_of_int 1) range in
    let num_wraps := f32_floor (f32_mul (f32_sub x low) inv_range) in
    f32_sub x (f32_mul range num_wraps).
Definition wrap_2pi (x : Z) : Z := wrap_floating x 0 FLT_2PI.
Definition radians (d : Z) : Z := f32_mul d (f32_div FLT_PI (f32_of_int 180)).
Definition degrees (r : Z) : Z := f32_mul r (f32_div (f32_of_int 180) FLT_PI).

Definition one_of (cmd : Z) (cmds : list Z) : bool := existsb (Z.eqb cmd) cmds.

(** ** From the wire: [parse_mavlink_mission_item] *)
Definition is_global_frame (int_mode : bool) (frame : Z) : bool :=
  (frame =? MAV_FRAME_GLOBAL) || (frame =? MAV_FRAME_GLOBAL_RELATIVE_ALT)
  || (int_mode && ((frame =? MAV_FRAME_GLOBAL_INT) || (frame =? MAV_FRAME_GLOBAL_RELATIVE_ALT_INT))).

Definition wp_yaw (wp : mavlink_mission_item_t) : Z := wrap_2pi (radians wp.(wp_param4)).
Definition f32_positive (b : Z) : bool := f32_lt 0 b.

(** The switch over the commands with a position. *)
Definition parse_global_command (wp : mavlink_mission_item_t) (it : mission_item_s) : Z + mission_item_s :=
  let cmd := wp.(wp_command) in
  let it := mi_set_cmd cmd it in
  if cmd =? MAV_CMD_NAV_WAYPOINT then
    inr (mi_set_param 3 (wp_yaw wp) (mi_set_param 1 wp.(wp_param2) (mi_set_param 0 wp.(wp_param1) it)))
  else if cmd =? MAV_CMD_NAV_LOITER_UNLIM then
    inr (mi_set_param 3 (wp_yaw wp) (mi_set_param 2 wp.(wp_param3) it))
  else if cmd =? MAV_CMD_NAV_LOITER_TIME then
    inr (mi_set_param 3 FLT_NAN (mi_set_param 2 wp.(wp_param3) (mi_set_param 0 wp.(wp_param1)
          (mi_set_loiter (f32_positive wp.(wp_param2)) (f32_positive wp.(wp_param4)) it))))
  else if cmd =? MAV_CMD_NAV_LAND then
    inr (mi_set_count16 (f32_to_uint16 wp.(wp_param2)) (mi_set_param 3 (wp_yaw wp) (mi_set_param 0 wp.(wp_param1) it)))
  else if cmd =? MAV_CMD_NAV_TAKEOFF then inr (mi_set_param 3 (wp_yaw wp) it)
  else if cmd =? MAV_CMD_NAV_LOITER_TO_ALT then
    inr (mi_set_param 3 FLT_NAN (mi_set_param 2 wp.(wp_param2)
          (mi_set_loiter (f32_positive wp.(wp_param1)) (f32_positive wp.(wp_param4)) it)))
  else if one_of cmd [MAV_CMD_NAV_ROI; MAV_CMD_DO_SET_ROI] then
    let mode := f32_to_int32 wp.(wp_param1) in
    if mode =? MAV_ROI_LOCATION then
      inr (mi_set_param 6 wp.(wp_z) (mi_set_param 0 (f32_of_int MAV_ROI_LOCATION) (mi_set_cmd MAV_CMD_DO_SET_ROI it)))
    else if mode =? MAV_ROI_NONE then
      inr (mi_set_param 0 (f32_of_int MAV_ROI_NONE) (mi_set_cmd MAV_CMD_DO_SET_ROI it))
    else inl MAV_MISSION_INVALID_PARAM1
  else if cmd =? MAV_CMD_DO_SET_ROI_LOCATION then inr (mi_set_param 6 wp.(wp_z) it)
  else if one_of cmd [MAV_CMD_NAV_VTOL_TAKEOFF; MAV_CMD_NAV_VTOL_LAND] then inr (mi_set_param 3 (wp_yaw wp) it)
  else if one_of cmd [MAV_CMD_CONDITION_GATE; MAV_CMD_NAV_FENCE_RETURN_POINT] then inr it
  else if one_of cmd [MAV_CMD_NAV_FENCE_POLYGON_VERTEX_INCLUSION; MAV_CMD_NAV_FENCE_POLYGON_VERTEX_EXCLUSION] then
    inr (mi_set_count16 (f32_to_uint16 (f32_add wp.(wp_param1) 0x3f000000)) it)
  else if one_of cmd [MAV_CMD_NAV_FENCE_CIRCLE_INCLUSION; MAV_CMD_NAV_FENCE_CIRCLE_EXCLUSION] then
    inr (mi_set_param 0 wp.(wp_param1) it)
  else if cmd =? MAV_CMD_NAV_RALLY_POINT then inr it
  else if cmd =? MAV_CMD_COMPONENT_ARM_DISARM then inr (mi_set_param 0 (f32_of_int (f32_to_uint16 wp.(wp_param1))) it)
  else if cmd =? MAV_CMD_DO_AUTOTUNE_ENABLE then
    inr (mi_set_param 1 (f32_of_int (f32_to_uint16 wp.(wp_param2)))
          (mi_set_param 0 (f32_of_int (f32_to_uint16 wp.(wp_param1))) it))
  else inl MAV_MISSION_UNSUPPORTED.

Definition parse_global (int_mode : bool) (vehicle_type : Z) (wp : mavlink_mission_item_t) (it : mission_item_s)
    : Z + mission_item_s :=
  let frame := wp.(wp_frame) in
  let int_mode := if (frame =? MAV_FRAME_GLOBAL_INT) || (frame =? MAV_FRAME_GLOBAL_RELATIVE_ALT_INT) then true else int_mode in
  let '(lat, lon) := if int_mode then (deg_of_e7 (int_x wp), deg_of_e7 (int_y wp))
                     else (f64_of_f32 wp.(wp_x), f64_of_f32 wp.(wp_y)) in
  let it := mi_set_param 6 wp.(wp_z)
              (mi_set_position lat lon (negb ((frame =? MAV_FRAME_GLOBAL) || (frame =? MAV_FRAME_GLOBAL_INT))) it) in
  let ps := [wp.(wp_param1); wp.(wp_param2); wp.(wp_param3); wp.(wp_param4)] in
  let bad := if int_mode
             then check_params_int_for_vehicle wp.(wp_command) true vehicle_type ps (int_x wp) (int_y wp) wp.(wp_z)
             else check_params_for_vehicle wp.(wp_command) true vehicle_type (ps ++ [wp.(wp_x); wp.(wp_y); wp.(wp_z)]) in
  if 0 <? bad then inl (MAV_MISSION_INVALID_PARAM1 + (bad - 1))
  else
    match parse_global_command wp it with
    | inl code => inl code
    | inr it => inr (mi_set_frame (uwrap 4 frame) it)
    end.

(** [copy_params_from_mavlink_to_mission_item]; the assignments to [params] of the
    coordinates copy the patterns of [x] and [y] as floats. *)
Definition copy_params (start_idx end_idx : Z) (wp : mavlink_mission_item_t) (it : mission_item_s) : mission_item_s :=
  foldl (fun it '(i, k, v) => if (start_idx <=? k) && (k <=? end_idx) then mi_set_param i v it else it) it
    [(0%nat, 1, wp.(wp_param1)); (1%nat, 2, wp.(wp_param2)); (2%nat, 3, wp.(wp_param3)); (3%nat, 4, wp.(wp_param4));
     (4%nat, 5, wp.(wp_x)); (5%nat, 6, wp.(wp_y)); (6%nat, 7, wp.(wp_z))].

(** The commands without a position that are stored as they are. *)
Definition plain_commands : list Z :=
  [MAV_CMD_DO_CHANGE_SPEED; MAV_CMD_DO_SET_HOME; MAV_CMD_DO_LAND_START; MAV_CMD_DO_TRIGGER_CONTROL;
   MAV_CMD_DO_DIGICAM_CONTROL; MAV_CMD_DO_MOUNT_CONFIGURE; MAV_CMD_DO_MOUNT_CONTROL; NAV_CMD_DO_GIMBAL_MANAGER_PITCHYAW;
   NAV_CMD_SET_CAMERA_FOCUS; NAV_CMD_DO_GIMBAL_MANAGER_CONFIGURE; MAV_CMD_IMAGE_START_CAPTURE; MAV_CMD_IMAGE_STOP_CAPTURE;
   MAV_CMD_VIDEO_START_CAPTURE; MAV_CMD_VIDEO_STOP_CAPTURE; MAV_CMD_DO_CONTROL_VIDEO; MAV_CMD_DO_SET_CAM_TRIGG_DIST;
   MAV_CMD_OBLIQUE_SURVEY; MAV_CMD_DO_SET_CAM_TRIGG_INTERVAL; MAV_CMD_SET_CAMERA_MODE; MAV_CMD_SET_CAMERA_SOURCE;
   MAV_CMD_DO_VTOL_TRANSITION; MAV_CMD_NAV_DELAY; MAV_CMD_NAV_RETURN_TO_LAUNCH; MAV_CMD_DO_SET_ROI_WPNEXT_OFFSET;
   MAV_CMD_DO_SET_ROI_NONE; MAV_CMD_DO_SET_ACTUATOR; MAV_CMD_DO_AUTOTUNE_ENABLE; MAV_CMD_COMPONENT_ARM_DISARM].

Definition parse_mission_command (wp : mavlink_mission_item_t) (it : mission_item_s) : Z + mission_item_s :=
  let cmd := wp.(wp_command) in
  if cmd =? MAV_CMD_DO_JUMP then
    inr (mi_set_jump (f32_to_int16 wp.(wp_param1)) (f32_to_uint16 wp.(wp_param2)) 0 (mi_set_cmd MAV_CMD_DO_JUMP it))
  else if one_of cmd [MAV_CMD_NAV_ROI; MAV_CMD_DO_SET_ROI] then
    if one_of (f32_to_int32 wp.(wp_param1)) [MAV_ROI_NONE; MAV_ROI_WPNEXT; MAV_ROI_WPINDEX]
    then inr (mi_set_cmd MAV_CMD_DO_SET_ROI it) else inl MAV_MISSION_INVALID_PARAM1
  else if one_of cmd [MAV_CMD_DO_WINCH; MAV_CMD_DO_GRIPPER] then inr (copy_params 1 2 wp (mi_set_cmd cmd it))
  else if one_of cmd plain_commands then inr (mi_set_cmd cmd it)
  else if cmd =? MAV_CMD_CONDITION_DELAY then inr (mi_set_cmd MAV_CMD_NAV_DELAY it)
  else inl MAV_MISSION_UNSUPPORTED.

Definition unset_or_float (v : Z) : Z := if int_param_is_unset v then FLT_NAN else f32_of_int v.

Definition parse_mission_frame (int_mode : bool) (vehicle_type : Z) (wp : mavlink_mission_item_t) (it : mission_item_s)
    : Z + mission_item_s :=
  let ps := [wp.(wp_param1); wp.(wp_param2); wp.(wp_param3); wp.(wp_param4)] in
  let p56 := if int_mode then [unset_or_float (int_x wp); unset_or_float (int_y wp)] else [wp.(wp_x); wp.(wp_y)] in
  let bad := check_params_for_vehicle wp.(wp_command) true vehicle_type (ps ++ p56 ++ [wp.(wp_z)]) in
  if 0 <? bad then inl (MAV_MISSION_INVALID_PARAM1 + (bad - 1))
  else
    let '(p5, p6) := if int_mode then (f64_of_int (int_x wp), f64_of_int (int_y wp))
                     else (f64_of_f32 wp.(wp_x), f64_of_f32 wp.(wp_y)) in
    let it := mkMissionItem it.(mi_lat) it.(mi_lon) (ps ++ [f32_of_f64 p5; f32_of_f64 p6; wp.(wp_z)])
                it.(mi_nav_cmd) it.(mi_do_jump_mission_index) it.(mi_do_jump_repeat_count) it.(mi_count16) it.(mi_frame)
                it.(mi_origin) it.(mi_loiter_exit_xtrack) it.(mi_force_heading) it.(mi_altitude_is_relative)
                it.(mi_autocontinue) it.(mi_vtol_back_transition) in
    match parse_mission_command wp it with
    | inl code => inl code
    | inr it => inr (mi_set_frame MAV_FRAME_MISSION it)
    end.

(** The result is an error code or the item. *)
Definition parse_mavlink_mission_item (int_mode : bool) (vehicle_type : Z) (wp : mavlink_mission_item_t) : Z + mission_item_s :=
  let parsed :=
    if is_global_frame int_mode wp.(wp_frame) then parse_global int_mode vehicle_type wp mission_item_zero
    else if wp.(wp_frame) =? MAV_FRAME_MISSION then parse_mission_frame int_mode vehicle_type wp mission_item_zero
    else inl MAV_MISSION_UNSUPPORTED_FRAME in
  match parsed with
  | inl code => inl code
  | inr it => inr (mi_set_end (Z.odd wp.(wp_autocontinue)) ORIGIN_MAVLINK it)
  end.

(** ** To the wire: [format_mavlink_mission_item] *)
Definition wp_zero : mavlink_mission_item_t := mkWp 0 0 0 0 0 0 0 0 0 0 0 0 0 0 0.

(** The fields that the translation sets; the caller fills in the others. *)
Definition wp_set_params (p1 p2 p3 p4 : Z) (wp : mavlink_mission_item_t) : mavlink_mission_item_t :=
  mkWp p1 p2 p3 p4 wp.(wp_x) wp.(wp_y) wp.(wp_z) wp.(wp_seq) wp.(wp_command) wp.(wp_target_system)
    wp.(wp_target_component) wp.(wp_frame) wp.(wp_current) wp.(wp_autocontinue) wp.(wp_mission_type).
Definition wp_set_xyz (x y z : Z) (wp : mavlink_mission_item_t) : mavlink_mission_item_t :=
  mkWp wp.(wp_param1) wp.(wp_param2) wp.(wp_param3) wp.(wp_param4) x y z wp.(wp_seq) wp.(wp_command)
    wp.(wp_target_system) wp.(wp_target_component) wp.(wp_frame) wp.(wp_current) wp.(wp_autocontinue) wp.(wp_mission_type).
Definition wp_set_header (frame command autocontinue mission_type : Z) (wp : mavlink_mission_item_t) : mavlink_mission_item_t :=
  mkWp wp.(wp_param1) wp.(wp_param2) wp.(wp_param3) wp.(wp_param4) wp.(wp_x) wp.(wp_y) wp.(wp_z) wp.(wp_seq) command
    wp.(wp_target_system) wp.(wp_target_component) frame wp.(wp_current) autocontinue mission_type.

(** The commands without a position for which the translation reports PX4_OK. *)
Definition formatted_commands : list Z :=
  [MAV_CMD_DO_CHANGE_SPEED; MAV_CMD_DO_SET_HOME; MAV_CMD_DO_LAND_START; MAV_CMD_DO_TRIGGER_CONTROL;
   MAV_CMD_DO_DIGICAM_CONTROL; MAV_CMD_IMAGE_START_CAPTURE; MAV_CMD_IMAGE_STOP_CAPTURE; MAV_CMD_VIDEO_START_CAPTURE;
   MAV_CMD_VIDEO_STOP_CAPTURE; MAV_CMD_DO_CONTROL_VIDEO; MAV_CMD_DO_MOUNT_CONFIGURE; MAV_CMD_DO_MOUNT_CONTROL;
   NAV_CMD_DO_GIMBAL_MANAGER_PITCHYAW; NAV_CMD_DO_GIMBAL_MANAGER_CONFIGURE; MAV_CMD_DO_SET_ROI;
   MAV_CMD_DO_SET_CAM_TRIGG_DIST; MAV_CMD_OBLIQUE_SURVEY; MAV_CMD_DO_SET_CAM_TRIGG_INTERVAL; MAV_CMD_SET_CAMERA_MODE;
   MAV_CMD_SET_CAMERA_SOURCE; NAV_CMD_SET_CAMERA_ZOOM; NAV_CMD_SET_CAMERA_FOCUS; MAV_CMD_DO_VTOL_TRANSITION].

Definition PX4_OK : Z := 0.
Definition PX4_ERROR : Z := -1.

Definition format_mission_frame (int_mode : bool) (it : mission_item_s) (wp : mavlink_mission_item_t)
    : Z * mavlink_mission_item_t :=
  let p := mi_param it in
  let wp := wp_set_params (p 0%nat) (p 1%nat) (p 2%nat) (p 3%nat) wp in
  let '(x, y) := if int_mode
                 then (u32 (f64_round_int32 (f64_of_f32 (p 4%nat))), u32 (f64_round_int32 (f64_of_f32 (p 5%nat))))
                 else (p 4%nat, p 5%nat) in
  let wp := wp_set_xyz x y (p 6%nat) wp in
  if wp.(wp_command) =? MAV_CMD_DO_JUMP then
    (PX4_OK, wp_set_params (f32_of_int it.(mi_do_jump_mission_index)) (f32_of_int it.(mi_do_jump_repeat_count))
               wp.(wp_param3) wp.(wp_param4) wp)
  else if one_of wp.(wp_command) formatted_commands then (PX4_OK, wp)
  else (PX4_ERROR, wp).

Definition format_global (int_mode : bool) (it : mission_item_s) (wp : mavlink_mission_item_t)
    : Z * mavlink_mission_item_t :=
  let p := mi_param it in
  let cmd := it.(mi_nav_cmd) in
  let '(x, y) := if int_mode then (u32 (e7_of_deg it.(mi_lat)), u32 (e7_of_deg it.(mi_lon)))
                 else (f32_of_f64 it.(mi_lat), f32_of_f64 it.(mi_lon)) in
  let frame := if it.(mi_altitude_is_relative)
               then (if int_mode then MAV_FRAME_GLOBAL_RELATIVE_ALT_INT else MAV_FRAME_GLOBAL_RELATIVE_ALT)
               else (if int_mode then MAV_FRAME_GLOBAL_INT else MAV_FRAME_GLOBAL) in
  let wp := wp_set_header frame wp.(wp_command) wp.(wp_autocontinue) wp.(wp_mission_type)
              (wp_set_xyz x y (p 6%nat) (wp_set_params 0 0 0 0 wp)) in
  if cmd =? MAV_CMD_NAV_WAYPOINT then (PX4_OK, wp_set_params (p 0%nat) (p 1%nat) 0 (degrees (p 3%nat)) wp)
  else if cmd =? MAV_CMD_NAV_LOITER_UNLIM then (PX4_OK, wp_set_params 0 0 (p 2%nat) (degrees (p 3%nat)) wp)
  else if cmd =? MAV_CMD_NAV_LOITER_TIME then
    (PX4_OK, wp_set_params (p 0%nat) (f32_of_int (b2z it.(mi_force_heading))) (p 2%nat)
               (f32_of_int (b2z it.(mi_loiter_exit_xtrack))) wp)
  else if cmd =? MAV_CMD_NAV_LAND then
    (PX4_OK, wp_set_params (p 0%nat) (f32_of_int it.(mi_count16)) 0 (degrees (p 3%nat)) wp)
  else if cmd =? MAV_CMD_NAV_TAKEOFF then (PX4_OK, wp_set_params 0 0 0 (degrees (p 3%nat)) wp)
  else if cmd =? MAV_CMD_NAV_LOITER_TO_ALT then
    (PX4_OK, wp_set_params (f32_of_int (b2z it.(mi_force_heading))) (p 2%nat) 0
               (f32_of_int (b2z it.(mi_loiter_exit_xtrack))) wp)
  else if one_of cmd [MAV_CMD_NAV_VTOL_TAKEOFF; MAV_CMD_NAV_VTOL_LAND] then
    (PX4_OK, wp_set_params 0 0 0 (degrees (p 3%nat)) wp)
  else if cmd =? MAV_CMD_NAV_FENCE_RETURN_POINT then (PX4_OK, wp)
  else if one_of cmd [MAV_CMD_NAV_FENCE_POLYGON_VERTEX_INCLUSION; MAV_CMD_NAV_FENCE_POLYGON_VERTEX_EXCLUSION] then
    (PX4_OK, wp_set_params (f32_of_int it.(mi_count16)) 0 0 0 wp)
  else if one_of cmd [MAV_CMD_NAV_FENCE_CIRCLE_INCLUSION; MAV_CMD_NAV_FENCE_CIRCLE_EXCLUSION] then
    (PX4_OK, wp_set_params (p 0%nat) 0 0 0 wp)
  else if cmd =? MAV_CMD_NAV_RALLY_POINT then (PX4_OK, wp)
  else (PX4_ERROR, wp).

Definition format_mavlink_mission_item (int_mode : bool) (mission_type : Z) (it : mission_item_s)
    (wp : mavlink_mission_item_t) : Z * mavlink_mission_item_t :=
  let wp := wp_set_header it.(mi_frame) it.(mi_nav_cmd) (b2z it.(mi_autocontinue)) mission_type wp in
  if it.(mi_frame) =? MAV_FRAME_MISSION then format_mission_frame int_mode it wp else format_global int_mode it wp.

(** ** The checksum and the stored bytes *)

(** The packed [CrcMissionItem_t]. *)
Definition crc_item_bytes (wp : mavlink_mission_item_t) : list Z :=
  le_bytes 1 wp.(wp_frame) ++ le_bytes 2 wp.(wp_command) ++ le_bytes 1 wp.(wp_autocontinue) ++
  concat (map (le_bytes 4)
    [wp.(wp_param1); wp.(wp_param2); wp.(wp_param3); wp.(wp_param4); wp.(wp_x); wp.(wp_y); wp.(wp_z)]).

Definition crc32_for_mission_item (wp : mavlink_mission_item_t) (prev_crc32 : Z) : Z :=
  default 0 (crc32part (crc_item_bytes wp) prev_crc32).

(** The bit fields of [mission_item_s], first field in the lowest bits. *)
Definition mi_flags (it : mission_item_s) : Z :=
  it.(mi_frame) + 2 ^ 4 * it.(mi_origin) + 2 ^ 7 * b2z it.(mi_loiter_exit_xtrack) + 2 ^ 8 * b2z it.(mi_force_heading)
  + 2 ^ 9 * b2z it.(mi_altitude_is_relative) + 2 ^ 10 * b2z it.(mi_autocontinue) + 2 ^ 11 * b2z it.(mi_vtol_back_transition).

Definition mission_item_bytes (it : mission_item_s) : list Z :=
  le_bytes 8 it.(mi_lat) ++ le_bytes 8 it.(mi_lon) ++ concat (map (le_bytes 4) it.(mi_params)) ++
  le_bytes 2 it.(mi_nav_cmd) ++ le_bytes 2 (u16 it.(mi_do_jump_mission_index)) ++ le_bytes 2 it.(mi_do_jump_repeat_count) ++
  le_bytes 2 it.(mi_count16) ++ le_bytes 2 (mi_flags it) ++ [0; 0].

Definition field (off len : Z) (bytes : list Z) : Z := le_value (slice off len bytes).

Definition mission_item_of_bytes (b : list Z) : mission_item_s :=
  let flags := field 52 2 b in
  mkMissionItem (field 0 8 b) (field 8 8 b)
    [field 16 4 b; field 20 4 b; field 24 4 b; field 28 4 b; field 32 4 b; field 36 4 b; field 40 4 b]
    (field 44 2 b) (s16 (field 46 2 b)) (field 48 2 b) (field 50 2 b)
    (flags mod 2 ^ 4) (flags / 2 ^ 4 mod 2 ^ 3) (Z.testbit flags 7) (Z.testbit flags 8) (Z.testbit flags 9)
    (Z.testbit flags 10) (Z.testbit flags 11).

(** [mission_fence_point_s]; the union of [vertex_count] and [circle_radius] is kept as its
    four bytes. *)
Record mission_fence_point_s := mkFencePoint {
  fp_lat : Z; fp_lon : Z; fp_alt : Z;
  fp_union : list Z;
  fp_nav_cmd : Z; fp_frame : Z;
}.

(** [pad] holds the bytes of the padding on the stack. *)
Definition fence_point_bytes (pad : list Z) (fp : mission_fence_point_s) : list Z :=
  le_bytes 8 fp.(fp_lat) ++ le_bytes 8 fp.(fp_lon) ++ le_bytes 4 fp.(fp_alt) ++ fp.(fp_union) ++
  le_bytes 2 fp.(fp_nav_cmd) ++ le_bytes 1 fp.(fp_frame) ++ pad.
Definition fence_point_of_bytes (b : list Z) : mission_fence_point_s :=
  mkFencePoint (field 0 8 b) (field 8 8 b) (field 16 4 b) (slice 20 4 b) (field 24 2 b) (field 26 1 b).

Definition is_polygon_vertex (cmd : Z) : bool :=
  one_of cmd [MAV_CMD_NAV_FENCE_POLYGON_VERTEX_INCLUSION; MAV_CMD_NAV_FENCE_POLYGON_VERTEX_EXCLUSION].

(** A geofence point from an item ([junk] is the uninitialised union) and back. *)
Definition fence_point_of_item (junk : list Z) (it : mission_item_s) : mission_fence_point_s :=
  mkFencePoint it.(mi_lat) it.(mi_lon) (mi_param it 6)
    (if is_polygon_vertex it.(mi_nav_cmd) then le_bytes 2 it.(mi_count16) ++ drop 2 junk else le_bytes 4 (mi_param it 0))
    it.(mi_nav_cmd) it.(mi_frame).
Definition item_of_fence_point (fp : mission_fence_point_s) : mission_item_s :=
  let it := mi_set_param 6 fp.(fp_alt)
              (mi_set_frame (uwrap 4 fp.(fp_frame))
                (mi_set_cmd fp.(fp_nav_cmd) (mi_set_position fp.(fp_lat) fp.(fp_lon) false mission_item_zero))) in
  if is_polygon_vertex fp.(fp_nav_cmd) then mi_set_count16 (le_value (take 2 fp.(fp_union))) it
  else mi_set_param 0 (le_value fp.(fp_union)) it.

(** [mission_stats_entry_s] *)
Record mission_stats_entry_s := mkStats { st_opaque_id : Z; st_num_items : Z; st_dataman_id : Z }.
Definition stats_bytes (pad : list Z) (s : mission_stats_entry_s) : list Z :=
  le_bytes 4 s.(st_opaque_id) ++ le_bytes 2 s.(st_num_items) ++ le_bytes 1 s.(st_dataman_id) ++ pad.
Definition stats_of_bytes (b : list Z) : mission_stats_entry_s := mkStats (field 0 4 b) (field 4 2 b) (field 6 1 b).

(** ** The table is sorted, so the binary search finds what a scan finds *)

(** [_is_sorted], the condition of the [static_assert]. *)
Fixpoint is_sorted (prev : option Z) (l : list Entry) : bool :=
  match l with
  | [] => true
  | e :: rest => (match prev with Some p => p <? e.(e_cmd) | None => true end) && is_sorted (Some e.(e_cmd)) rest
  end.

Lemma is_sorted_lookup l : forall prev i j a b, is_sorted prev l = true ->
  (i < j)%nat -> l !! i = Some a -> l !! j = Some b -> e_cmd a < e_cmd b.
Proof.
  assert (Hfrom : forall l p j b, is_sorted (Some p) l = true -> l !! j = Some b -> p < e_cmd b).
  { intros l0. induction l0 as [|e l0 IH]; intros p j b Hs Hj; [done|]. cbn in Hs. apply andb_true_iff in Hs as [Hp%Z.ltb_lt Hs].
    destruct j; cbn in Hj; [by simplify_eq|]. specialize (IH _ _ _ Hs Hj). lia. }
  induction l as [|e l IH]; intros prev i j a b Hs Hij Hi Hj; [done|]. cbn in Hs. apply andb_true_iff in Hs as [_ Hs].
  destruct j; [lia|]. destruct i; cbn in Hi, Hj; simplify_eq; [by apply (Hfrom l _ j)|]. apply (IH _ i j a b Hs); done || lia.
Qed.

Lemma table_sorted i j a b : i < j -> zlookup SupportedCommandParams i = Some a -> zlookup SupportedCommandParams j = Some b ->
  e_cmd a < e_cmd b.
Proof.
  unfold zlookup. intros Hij Hi Hj. case_if_in Hi; [|done]. case_if_in Hj; [|done]. bool_hyps.
  apply (is_sorted_lookup SupportedCommandParams None (Z.to_nat i) (Z.to_nat j)); [vm_compute; reflexivity|lia|done..].
Qed.

(** The reference: the first entry of the command. *)
Definition find_mask_scan (cmd : Z) (for_mission : bool) (vehicle_type : Z) : Z :=
  match List.find (fun e => e_cmd e =? cmd) SupportedCommandParams with
  | Some e => override_mask e cmd for_mission vehicle_type
  | None => -1
  end.

Lemma scan_at i e cmd fm vt : zlookup SupportedCommandParams i = Some e -> e_cmd e = cmd ->
  find_mask_scan cmd fm vt = override_mask e cmd fm vt.
Proof.
  intros Hi He. unfold find_mask_scan. destruct (List.find _ _) as [x|] eqn:E.
  - apply List.find_some in E as [Hx Hc]. apply Z.eqb_eq in Hc. apply list_elem_of_In, list_elem_of_lookup in Hx as [j Hj].
    assert (Hz : zlookup SupportedCommandParams (Z.of_nat j) = Some x)
      by (unfold zlookup; rewrite (proj2 (Z.leb_le _ _)), Nat2Z.id by lia; done).
    destruct (Z.lt_trichotomy i (Z.of_nat j)) as [Hl | [-> | Hl]].
    + pose proof (table_sorted _ _ _ _ Hl Hi Hz). lia.
    + by simplify_eq.
    + pose proof (table_sorted _ _ _ _ Hl Hz Hi). lia.
  - apply (List.find_none _ _) with (x := e) in E; [apply Z.eqb_neq in E; done|].
    apply list_elem_of_In, list_elem_of_lookup. exists (Z.to_nat i). unfold zlookup in Hi. by case_if_in Hi.
Qed.

Lemma scan_missing cmd fm vt : (forall i e, zlookup SupportedCommandParams i = Some e -> e_cmd e <> cmd) ->
  find_mask_scan cmd fm vt = -1.
Proof.
  intros Hno. unfold find_mask_scan. destruct (List.find _ _) as [x|] eqn:E; [|done].
  apply List.find_some in E as [Hx Hc]. apply Z.eqb_eq in Hc. apply list_elem_of_In, list_elem_of_lookup in Hx as [j Hj].
  exfalso. apply (Hno (Z.of_nat j) x); [|done]. unfold zlookup. by rewrite (proj2 (Z.leb_le _ _)), Nat2Z.id by lia.
Qed.

Lemma find_mask_loop_scan cmd fm vt fuel : forall lo hi,
  0 <= lo -> hi < SupportedCommandParamsCount -> hi - lo + 1 < Z.of_nat fuel -> lo <= hi + 1 ->
  (forall i e, zlookup SupportedCommandParams i = Some e -> e_cmd e = cmd -> lo <= i <= hi) ->
  find_mask_loop fuel lo hi cmd fm vt = Some (find_mask_scan cmd fm vt).
Proof.
  induction fuel as [|fuel IH]; intros lo hi Hlo Hhi Hf Hlh Hin; [lia|]. cbn [find_mask_loop].
  destruct (Z.leb_spec lo hi) as [Hle|Hgt]; cbn [negb].
  2:{ f_equal. symmetry. apply scan_missing. intros i e Hi He. specialize (Hin i e Hi He). lia. }
  set (mid := lo + (hi - lo) / 2). pose proof (Z.div_mod (hi - lo) 2). pose proof (Z.mod_pos_bound (hi - lo) 2).
  assert (Hmid : lo <= mid <= hi) by (unfold mid; lia).
  destruct (zlookup SupportedCommandParams mid) as [e|] eqn:He; cbn [mbind option_bind].
  2:{ exfalso. unfold zlookup in He. case_if_in He; [|bool_hyps; lia]. apply lookup_ge_None in He.
      unfold SupportedCommandParamsCount, zlen in Hhi. lia. }
  destruct (Z.eqb_spec (e_cmd e) cmd) as [Heq|Hne]; [f_equal; symmetry; by apply (scan_at mid)|].
  destruct (Z.ltb_spec (e_cmd e) cmd) as [Hl|Hg].
  - apply IH; try lia. intros i x Hi Hx. specialize (Hin i x Hi Hx).
    destruct (Z.le_gt_cases i mid) as [Hc|]; [|lia]. destruct (Z.eq_dec i mid) as [-> | Hn]; [by simplify_eq|].
    pose proof (table_sorted i mid _ _ ltac:(lia) Hi He). lia.
  - assert (Hup : forall i x, zlookup SupportedCommandParams i = Some x -> e_cmd x = cmd -> i < mid).
    { intros i x Hi Hx. destruct (Z.lt_ge_cases i mid) as [|Hc]; [done|]. destruct (Z.eq_dec i mid) as [-> | Hn]; [by simplify_eq|].
      pose proof (table_sorted mid i _ _ ltac:(lia) He Hi). lia. }
    destruct (Z.eqb_spec mid 0) as [Hz|Hn0].
    + f_equal. symmetry. apply scan_missing. intros i x Hi Hx. specialize (Hup i x Hi Hx). specialize (Hin i x Hi Hx). lia.
    + apply IH; try lia. intros i x Hi Hx. specialize (Hup i x Hi Hx). specialize (Hin i x Hi Hx). lia.
Qed.

Lemma find_mask_total cmd fm vt : _find_mask cmd fm vt = find_mask_scan cmd fm vt.
Proof.
  unfold _find_mask. rewrite find_mask_loop_scan; [done|lia..| | |].
  - unfold SupportedCommandParamsCount, zlen. lia.
  - vm_compute. done.
  - intros i e Hi _. unfold zlookup in Hi. case_if_in Hi; [|done]. bool_hyps. apply lookup_lt_Some in Hi.
    unfold SupportedCommandParamsCount, zlen. lia.
Qed.

(** ** The bytes of an item hold the item *)
Record item_wf (it : mission_item_s) : Prop := {
  wf_lat : 0 <= it.(mi_lat) < 2 ^ 64;
  wf_lon : 0 <= it.(mi_lon) < 2 ^ 64;
  wf_len : length it.(mi_params) = 7%nat;
  wf_params : Forall (fun p => 0 <= p < 2 ^ 32) it.(mi_params);
  wf_cmd : 0 <= it.(mi_nav_cmd) < 2 ^ 16;
  wf_jump : - 2 ^ 15 <= it.(mi_do_jump_mission_index) < 2 ^ 15;
  wf_repeat : 0 <= it.(mi_do_jump_repeat_count) < 2 ^ 16;
  wf_count16 : 0 <= it.(mi_count16) < 2 ^ 16;
  wf_frame : 0 <= it.(mi_frame) < 2 ^ 4;
  wf_origin : 0 <= it.(mi_origin) < 2 ^ 3;
}.

Lemma field_le n v : 0 <= v < 2 ^ (8 * Z.of_nat n) -> le_value (le_bytes n v) = v.
Proof. intros. rewrite le_value_le_bytes. by apply uwrap_small. Qed.

Lemma flag_fields it : item_wf it ->
  let f := mi_flags it in
  0 <= f < 2 ^ 16 /\ f mod 2 ^ 4 = mi_frame it /\ f / 2 ^ 4 mod 2 ^ 3 = mi_origin it /\
  Z.testbit f 7 = mi_loiter_exit_xtrack it /\ Z.testbit f 8 = mi_force_heading it /\
  Z.testbit f 9 = mi_altitude_is_relative it /\ Z.testbit f 10 = mi_autocontinue it /\
  Z.testbit f 11 = mi_vtol_back_transition it.
Proof.
  intros Hw. pose proof (wf_frame it Hw) as Hf. pose proof (wf_origin it Hw) as Ho. unfold mi_flags. cbv zeta.
  assert (Hq : forall k, 0 <= k < 32 ->
    let f := mi_frame it + 2 ^ 4 * mi_origin it + 2 ^ 7 * k in
    f mod 2 ^ 4 = mi_frame it /\ f / 2 ^ 4 mod 2 ^ 3 = mi_origin it /\
    forall j, 0 <= j -> Z.testbit f (7 + j) = Z.testbit k j).
  { intros k Hk f. assert (Hd : f / 2 ^ 4 = mi_origin it + 2 ^ 3 * k)
      by (symmetry; apply (Z.div_unique _ _ _ (mi_frame it)); [left; lia|unfold f; lia]).
    split; [symmetry; apply (Z.mod_unique _ _ (mi_origin it + 2 ^ 3 * k)); [left; lia|unfold f; lia]|].
    split; [rewrite Hd; symmetry; apply (Z.mod_unique _ _ k); [left; lia|lia]|].
    intros j Hj. replace (7 + j) with (j + 7) by lia. rewrite <- (Z.shiftr_spec f 7 j Hj), Z.shiftr_div_pow2 by lia.
    f_equal. symmetry. apply (Z.div_unique _ _ _ (mi_frame it + 2 ^ 4 * mi_origin it)); [left; lia|unfold f; lia]. }
  set (k := b2z (mi_loiter_exit_xtrack it) + 2 * b2z (mi_force_heading it) + 4 * b2z (mi_altitude_is_relative it)
            + 8 * b2z (mi_autocontinue it) + 16 * b2z (mi_vtol_back_transition it)).
  assert (Hk : 0 <= k < 32 /\ Z.testbit k 0 = mi_loiter_exit_xtrack it /\ Z.testbit k 1 = mi_force_heading it /\
    Z.testbit k 2 = mi_altitude_is_relative it /\ Z.testbit k 3 = mi_autocontinue it /\
    Z.testbit k 4 = mi_vtol_back_transition it).
  { unfold k. destruct (mi_loiter_exit_xtrack it), (mi_force_heading it), (mi_altitude_is_relative it),
      (mi_autocontinue it), (mi_vtol_back_transition it); cbn; split_and!; done. }
  destruct Hk as (Hk & K0 & K1 & K2 & K3 & K4). destruct (Hq k Hk) as (F & O & B).
  match goal with |- context [?e mod 2 ^ 4] => replace e with (mi_frame it + 2 ^ 4 * mi_origin it + 2 ^ 7 * k) by (unfold k; lia) end.
  rewrite F, O. assert (B7 := B 0 ltac:(lia)). assert (B8 := B 1 ltac:(lia)). assert (B9 := B 2 ltac:(lia)).
  assert (B10 := B 3 ltac:(lia)). assert (B11 := B 4 ltac:(lia)). change (7 + 0) with 7 in B7. change (7 + 1) with 8 in B8.
  change (7 + 2) with 9 in B9. change (7 + 3) with 10 in B10. change (7 + 4) with 11 in B11.
  rewrite B7, B8, B9, B10, B11. split_and!; done || lia.
Qed.

Lemma mission_item_roundtrip it : item_wf it ->
  mission_item_of_bytes (mission_item_bytes it) = it /\ zlen (mission_item_bytes it) = 56.
Proof.
  intros Hw. destruct (flag_fields it Hw) as (Hfr & Hf & Ho & H7 & H8 & H9 & H10 & H11).
  pose proof (wf_len it Hw) as Hlen. pose proof (wf_params it Hw) as Hps.
  destruct it as [lat lon ps cmd jump rep c16 fr org xt fh rel aut vt]; cbn [mi_params] in *.
  do 7 (destruct ps as [|? ps]; [done|]). destruct ps; [|done]. clear Hlen.
  repeat (apply Forall_cons in Hps as [? Hps]). destruct Hw as [Hlat Hlon _ _ Hcmd Hj Hr Hc _ _].
  cbn [mi_lat mi_lon mi_nav_cmd mi_do_jump_mission_index mi_do_jump_repeat_count mi_count16 mi_frame mi_origin
       mi_loiter_exit_xtrack mi_force_heading mi_altitude_is_relative mi_autocontinue mi_vtol_back_transition] in *.
  split; [|done]. unfold mission_item_of_bytes.
  set (b := mission_item_bytes _). set (f := mi_flags _) in *.
  assert (E : field 52 2 b = f).
  { change (field 52 2 b) with (le_value (le_bytes 2 f)). by apply field_le. }
  rewrite E, Hf, Ho, H7, H8, H9, H10, H11.
  change (field 0 8 b) with (le_value (le_bytes 8 lat)). change (field 8 8 b) with (le_value (le_bytes 8 lon)).
  change (field 16 4 b) with (le_value (le_bytes 4 z)). change (field 20 4 b) with (le_value (le_bytes 4 z0)).
  change (field 24 4 b) with (le_value (le_bytes 4 z1)). change (field 28 4 b) with (le_value (le_bytes 4 z2)).
  change (field 32 4 b) with (le_value (le_bytes 4 z3)). change (field 36 4 b) with (le_value (le_bytes 4 z4)).
  change (field 40 4 b) with (le_value (le_bytes 4 z5)). change (field 44 2 b) with (le_value (le_bytes 2 cmd)).
  change (field 46 2 b) with (le_value (le_bytes 2 (u16 jump))). change (field 48 2 b) with (le_value (le_bytes 2 rep)).
  change (field 50 2 b) with (le_value (le_bytes 2 c16)).
  rewrite !field_le by (try apply uwrap_range; cbn; lia). by rewrite swrap_uwrap, swrap_small by (cbn; lia).
Qed.

(** ** What is parsed can be stored, and comes back *)

(** A received item: the fields have their widths. *)
Record wp_wf (wp : mavlink_mission_item_t) : Prop := {
  wpwf_floats : Forall f32_ok [wp_param1 wp; wp_param2 wp; wp_param3 wp; wp_param4 wp; wp_x wp; wp_y wp; wp_z wp];
  wpwf_cmd : 0 <= wp_command wp < 2 ^ 16;
  wpwf_frame : 0 <= wp_frame wp < 2 ^ 8;
  wpwf_auto : 0 <= wp_autocontinue wp < 2 ^ 8;
  wpwf_seq : 0 <= wp_seq wp < 2 ^ 16;
}.

Lemma wrap_2pi_ok b : f32_ok b -> f32_ok (wrap_2pi b).
Proof.
  intros Hb. unfold wrap_2pi, wrap_floating. case_if; [done|].
  apply f32_add_ok; [done|]. apply f32_neg_ok, f32_mul_ok.
Qed.

Lemma wp_yaw_ok wp : f32_ok (wp_yaw wp).
Proof. apply wrap_2pi_ok, f32_mul_ok. Qed.

Section setters.
Context (it : mission_item_s) (Hw : item_wf it).
Lemma set_cmd_wf cmd : 0 <= cmd < 2 ^ 16 -> item_wf (mi_set_cmd cmd it).
Proof. destruct Hw. by constructor. Qed.
Lemma set_param_wf i v : f32_ok v -> item_wf (mi_set_param i v it).
Proof. destruct Hw. intros Hv. constructor; cbn; [done|done|by rewrite length_insert|by apply Forall_insert|done..]. Qed.
Lemma set_count16_wf v : 0 <= v < 2 ^ 16 -> item_wf (mi_set_count16 v it).
Proof. destruct Hw. by constructor. Qed.
Lemma set_loiter_wf a b : item_wf (mi_set_loiter a b it).
Proof. destruct Hw. by constructor. Qed.
Lemma set_jump_wf a b c : - 2 ^ 15 <= a < 2 ^ 15 -> 0 <= b < 2 ^ 16 -> 0 <= c < 2 ^ 16 -> item_wf (mi_set_jump a b c it).
Proof. destruct Hw. by constructor. Qed.
Lemma set_frame_wf f : 0 <= f < 2 ^ 4 -> item_wf (mi_set_frame f it).
Proof. destruct Hw. by constructor. Qed.
Lemma set_end_wf a : item_wf (mi_set_end a ORIGIN_MAVLINK it).
Proof. destruct Hw. by constructor. Qed.
Lemma set_position_wf lat lon rel : 0 <= lat < 2 ^ 64 -> 0 <= lon < 2 ^ 64 -> item_wf (mi_set_position lat lon rel it).
Proof. destruct Hw. by constructor. Qed.
End setters.

Create HintDb item_wf.
#[export] Hint Resolve set_cmd_wf set_param_wf set_count16_wf set_loiter_wf set_jump_wf set_frame_wf set_end_wf
  set_position_wf wp_yaw_ok f32_mul_ok f32_of_int_ok f32_to_uint16_range f32_to_int16_range : item_wf.

Ltac inject_inr H := first [discriminate H | injection H as <-].

Lemma zero_wf : item_wf mission_item_zero.
Proof. constructor; cbn; try done. repeat constructor; done. Qed.

Lemma nan_ok : f32_ok FLT_NAN.
Proof. done. Qed.
#[export] Hint Resolve nan_ok zero_wf : item_wf.

Lemma parse_global_command_wf wp it it' :
  wp_wf wp -> item_wf it -> parse_global_command wp it = inr it' -> item_wf it'.
Proof.
  intros [Hf Hc _ _ _] Hw. repeat (apply Forall_cons in Hf as [? Hf]). unfold parse_global_command. cbv zeta.
  assert (0 <= MAV_CMD_DO_SET_ROI < 2 ^ 16) by done.
  repeat case_if; intros H'; inject_inr H'; auto 12 with item_wf.
Qed.

Lemma parse_mission_command_wf wp it it' :
  wp_wf wp -> item_wf it -> parse_mission_command wp it = inr it' -> item_wf it'.
Proof.
  intros [Hf Hc _ _ _] Hw. repeat (apply Forall_cons in Hf as [? Hf]). unfold parse_mission_command. cbv zeta.
  assert (0 <= MAV_CMD_DO_SET_ROI < 2 ^ 16 /\ 0 <= MAV_CMD_DO_JUMP < 2 ^ 16 /\ 0 <= MAV_CMD_NAV_DELAY < 2 ^ 16 /\ 0 <= 0 < 2 ^ 16)
    as (? & ? & ? & ?) by done.
  repeat case_if; intros H'; inject_inr H'; auto 12 with item_wf.
  unfold copy_params. cbn [foldl]. repeat case_if; auto 12 with item_wf.
Qed.

Lemma f64_of_f32_ok b : f32_ok b -> 0 <= f64_of_f32 b < 2 ^ 64.
Proof. apply f64_of_f32_range. Qed.

Lemma parse_wf int_mode vt wp it : wp_wf wp -> parse_mavlink_mission_item int_mode vt wp = inr it -> item_wf it.
Proof.
  intros Hwp. pose proof Hwp as [Hf Hc Hfr _ _]. repeat (apply Forall_cons in Hf as [? Hf]).
  unfold parse_mavlink_mission_item, parse_global, parse_mission_frame. cbv zeta.
  assert (Hdeg : forall x, 0 <= deg_of_e7 x < 2 ^ 64) by (intros; apply f64_mul_ok).
  assert (Hd : forall b (x y z t : Z), (if b : bool then (x, y) else (z, t)) = (if b then x else z, if b then y else t))
    by (by intros []).
  rewrite !Hd. repeat case_if; intros H'; try discriminate H'.
  all: destruct (parse_global_command _ _) as [c|g] eqn:Eg || destruct (parse_mission_command _ _) as [c|g] eqn:Eg;
    inject_inr H'; apply set_end_wf, set_frame_wf; [|by apply uwrap_range || done].
  all: first [eapply parse_global_command_wf; [done| |exact Eg] | eapply parse_mission_command_wf; [done| |exact Eg]].
  all: try (apply set_param_wf; [apply set_position_wf; auto using zero_wf, f64_of_f32_ok|done]).
  all: constructor; cbn; try done; repeat (apply Forall_cons; split); try done; apply f32_of_f64_range.
  all: first [by apply f64_of_f32_ok | apply f64_pack_ok; [apply sign_of_ok|apply encode_nonneg; lia]].
Qed.

Definition canonical_command (cmd : Z) : Z :=
  if one_of cmd [MAV_CMD_NAV_ROI; MAV_CMD_DO_SET_ROI] then MAV_CMD_DO_SET_ROI
  else if cmd =? MAV_CMD_CONDITION_DELAY then MAV_CMD_NAV_DELAY else cmd.

Lemma mi_param_set i j v it : length (mi_params it) = 7%nat -> (i < 7)%nat ->
  mi_param (mi_set_param i v it) j = if decide (i = j) then v else mi_param it j.
Proof.
  intros Hl Hi. unfold mi_param, mi_set_param. cbn. rewrite !nth_lookup. case_decide as E; [subst|].
  - by rewrite list_lookup_insert_eq by lia.
  - by rewrite list_lookup_insert_ne.
Qed.

Lemma one_of_spec cmd l : one_of cmd l = true -> cmd ∈ l.
Proof. unfold one_of. rewrite existsb_exists. intros (x & Hx & ->%Z.eqb_eq). by apply list_elem_of_In. Qed.

(** The switch leaves the position, the altitude and the frame of reference alone. *)
Record positioned (wp : mavlink_mission_item_t) (lat lon : Z) (rel : bool) (it : mission_item_s) : Prop := {
  pos_lat : mi_lat it = lat;
  pos_lon : mi_lon it = lon;
  pos_rel : mi_altitude_is_relative it = rel;
  pos_len : length (mi_params it) = 7%nat;
  pos_alt : mi_param it 6 = wp_z wp;
}.

Section positioned.
Context (wp : mavlink_mission_item_t) (lat lon : Z) (rel : bool) (it : mission_item_s) (Hp : positioned wp lat lon rel it).
Lemma positioned_param i v : (i < 6)%nat -> positioned wp lat lon rel (mi_set_param i v it).
Proof.
  destruct Hp. intros Hi. constructor; try done; [cbn; by rewrite length_insert|].
  rewrite mi_param_set by (done || lia). by rewrite decide_False by lia.
Qed.
Lemma positioned_alt : positioned wp lat lon rel (mi_set_param 6 (wp_z wp) it).
Proof. destruct Hp. constructor; try done; [cbn; by rewrite length_insert|]. by rewrite mi_param_set by (done || lia). Qed.
Lemma positioned_cmd c : positioned wp lat lon rel (mi_set_cmd c it).
Proof. by destruct Hp. Qed.
Lemma positioned_count16 c : positioned wp lat lon rel (mi_set_count16 c it).
Proof. by destruct Hp. Qed.
Lemma positioned_loiter a b : positioned wp lat lon rel (mi_set_loiter a b it).
Proof. by destruct Hp. Qed.
Lemma positioned_frame f : positioned wp lat lon rel (mi_set_frame f it).
Proof. by destruct Hp. Qed.
Lemma positioned_end a o : positioned wp lat lon rel (mi_set_end a o it).
Proof. by destruct Hp. Qed.
End positioned.
#[export] Hint Resolve positioned_alt positioned_cmd positioned_count16 positioned_loiter positioned_frame positioned_end : item_wf.
#[export] Hint Extern 1 (positioned _ _ _ _ (mi_set_param _ _ _)) => apply positioned_param; [|lia] : item_wf.

Lemma parse_global_command_positioned wp lat lon rel it it' :
  positioned wp lat lon rel it -> parse_global_command wp it = inr it' -> positioned wp lat lon rel it'.
Proof.
  intros Hp. unfold parse_global_command. cbv zeta. repeat case_if; intros H'; inject_inr H'; auto 12 with item_wf.
Qed.

Lemma canonical_other cmd : one_of cmd [MAV_CMD_NAV_ROI; MAV_CMD_DO_SET_ROI] = false -> cmd <> MAV_CMD_CONDITION_DELAY ->
  canonical_command cmd = cmd.
Proof. intros H Hn. unfold canonical_command. rewrite H. by rewrite (proj2 (Z.eqb_neq _ _)). Qed.

Ltac command_known :=
  match goal with
  | H : wp_command ?wp = _ |- _ => rewrite H in *; clear H
  | H : one_of (wp_command ?wp) _ = true |- _ =>
      apply one_of_spec in H; repeat (apply elem_of_cons in H as [H | H]; [rewrite H in *; clear H|]); [..|by apply not_elem_of_nil in H]
  end.

Lemma parse_global_command_cmd wp it it' :
  parse_global_command wp it = inr it' -> mi_nav_cmd it' = canonical_command (wp_command wp).
Proof.
  unfold parse_global_command. cbv zeta. repeat case_if; intros H'; inject_inr H';
    cbn [mi_nav_cmd mi_set_param mi_set_cmd mi_set_loiter mi_set_count16]; command_known; reflexivity.
Qed.

Lemma copy_params_12 wp it : copy_params 1 2 wp it = mi_set_param 1 (wp_param2 wp) (mi_set_param 0 (wp_param1 wp) it).
Proof. reflexivity. Qed.

Lemma parse_mission_command_keeps wp it it' a b c :
  mi_params it = [wp_param1 wp; wp_param2 wp; wp_param3 wp; wp_param4 wp; a; b; c] -> parse_mission_command wp it = inr it' ->
  mi_params it' = mi_params it /\ mi_nav_cmd it' = canonical_command (wp_command wp).
Proof.
  intros Hps. unfold parse_mission_command. cbv zeta. rewrite copy_params_12. repeat case_if; intros H'; inject_inr H'.
  all: cbn [mi_nav_cmd mi_set_param mi_set_cmd mi_set_jump mi_params]; split; [try done; by rewrite Hps|].
  all: command_known; reflexivity.
Qed.

Lemma format_global_fields im it wp :
  let w := (format_global im it wp).2 in
  wp_x w = (if im then u32 (e7_of_deg (mi_lat it)) else f32_of_f64 (mi_lat it)) /\
  wp_y w = (if im then u32 (e7_of_deg (mi_lon it)) else f32_of_f64 (mi_lon it)) /\
  wp_z w = mi_param it 6 /\
  wp_frame w = (if mi_altitude_is_relative it
                then (if im then MAV_FRAME_GLOBAL_RELATIVE_ALT_INT else MAV_FRAME_GLOBAL_RELATIVE_ALT)
                else (if im then MAV_FRAME_GLOBAL_INT else MAV_FRAME_GLOBAL)) /\
  wp_command w = wp_command wp /\ wp_autocontinue w = wp_autocontinue wp /\ wp_mission_type w = wp_mission_type wp.
Proof. unfold format_global. cbv zeta. destruct im; repeat case_if; cbn; done. Qed.

Lemma int_pattern x : 0 <= x < 2 ^ 32 -> u32 (s32 x) = x.
Proof. intros. rewrite uwrap_swrap by lia. by apply uwrap_small. Qed.

(** The frame that stands for the same reference of the altitude. *)
Definition same_reference (frame : Z) : Z :=
  if (frame =? MAV_FRAME_GLOBAL) || (frame =? MAV_FRAME_GLOBAL_INT) then MAV_FRAME_GLOBAL_INT
  else MAV_FRAME_GLOBAL_RELATIVE_ALT_INT.

(** An item with a position, parsed, stored, read and formatted again. *)
Lemma global_item_roundtrip vt mt wp it :
  wp_wf wp -> is_global_frame true (wp_frame wp) = true -> parse_mavlink_mission_item true vt wp = inr it ->
  let w := (format_mavlink_mission_item true mt it wp_zero).2 in
  wp_command w = canonical_command (wp_command wp) /\ wp_autocontinue w = b2z (Z.odd (wp_autocontinue wp)) /\
  wp_mission_type w = mt /\ wp_x w = wp_x wp /\ wp_y w = wp_y wp /\ wp_z w = wp_z wp /\
  wp_frame w = same_reference (wp_frame wp).
Proof.
  intros Hwp Hg. pose proof Hwp as [Hf _ _ _ _]. repeat (apply Forall_cons in Hf as [? Hf]).
  unfold parse_mavlink_mission_item. rewrite Hg. unfold parse_global. cbv zeta.
  replace (if _ || _ then true else true) with true by (by case_if).
  set (base := mi_set_param 6 _ _). set (chk := check_params_int_for_vehicle _ _ _ _ _ _ _).
  case_if; [done|]. destruct (parse_global_command wp base) as [c|g] eqn:Eg; intros H'; inject_inr H'.
  set (rel := negb ((wp_frame wp =? MAV_FRAME_GLOBAL) || (wp_frame wp =? MAV_FRAME_GLOBAL_INT))) in *.
  assert (Hb : positioned wp (deg_of_e7 (int_x wp)) (deg_of_e7 (int_y wp)) rel base) by (by constructor).
  pose proof (parse_global_command_positioned _ _ _ _ _ _ Hb Eg) as [Plat Plon Prel _ Palt].
  pose proof (parse_global_command_cmd _ _ _ Eg) as Pcmd.
  unfold format_mavlink_mission_item. set (it := mi_set_end _ _ _). set (w0 := wp_set_header _ _ _ _ _).
  assert (Hne : (mi_frame it =? MAV_FRAME_MISSION) = false).
  { unfold it. cbn [mi_frame mi_set_end mi_set_frame]. unfold is_global_frame in Hg.
    destruct (orb_prop _ _ Hg) as [Hg'|Hg'].
    - destruct (orb_prop _ _ Hg') as [->%Z.eqb_eq | ->%Z.eqb_eq]; reflexivity.
    - cbn [andb] in Hg'. destruct (orb_prop _ _ Hg') as [->%Z.eqb_eq | ->%Z.eqb_eq]; reflexivity. }
  rewrite Hne. destruct (format_global_fields true it w0) as (Fx & Fy & Fz & Ff & Fc & Fa & Fm).
  rewrite Fx, Fy, Fz, Ff, Fc, Fa, Fm. unfold w0, it. cbn [mi_lat mi_lon mi_set_end mi_set_frame mi_altitude_is_relative
    wp_command wp_set_header wp_autocontinue wp_mission_type mi_nav_cmd mi_autocontinue].
  change (mi_param (mi_set_end _ _ (mi_set_frame _ g)) 6) with (mi_param g 6).
  rewrite Plat, Plon, Prel, Pcmd, Palt. unfold int_x, int_y.
  rewrite !e7_roundtrip by (apply (swrap_range 32); lia). rewrite !int_pattern by done.
  split_and!; try done. unfold rel, same_reference. by destruct (_ || _).
Qed.

(** An item without a position. The coordinates pass through a float, which holds 24 bits. *)
Lemma mission_item_frame_roundtrip vt mt wp it :
  wp_wf wp -> wp_frame wp = MAV_FRAME_MISSION -> parse_mavlink_mission_item true vt wp = inr it ->
  let w := (format_mavlink_mission_item true mt it wp_zero).2 in
  wp_command w = canonical_command (wp_command wp) /\ wp_autocontinue w = b2z (Z.odd (wp_autocontinue wp)) /\
  wp_mission_type w = mt /\ wp_frame w = MAV_FRAME_MISSION /\ wp_z w = wp_z wp /\
  wp_param3 w = wp_param3 wp /\ wp_param4 w = wp_param4 wp /\
  (wp_command wp <> MAV_CMD_DO_JUMP -> wp_param1 w = wp_param1 wp /\ wp_param2 w = wp_param2 wp) /\
  (- 2 ^ 24 < int_x wp < 2 ^ 24 -> wp_x w = wp_x wp) /\ (- 2 ^ 24 < int_y wp < 2 ^ 24 -> wp_y w = wp_y wp).
Proof.
  intros Hwp Hfr. pose proof Hwp as [Hf _ _ _ _]. repeat (apply Forall_cons in Hf as [? Hf]).
  unfold parse_mavlink_mission_item. rewrite Hfr. change (is_global_frame true MAV_FRAME_MISSION) with false.
  rewrite Z.eqb_refl. unfold parse_mission_frame. cbv zeta. set (chk := check_params_for_vehicle _ _ _ _).
  case_if; [done|]. set (base := mkMissionItem _ _ (_ ++ _) _ _ _ _ _ _ _ _ _ _ _).
  destruct (parse_mission_command wp base) as [c|g] eqn:Eg; intros H'; inject_inr H'.
  destruct (parse_mission_command_keeps wp base g (f32_of_f64 (f64_of_int (int_x wp))) (f32_of_f64 (f64_of_int (int_y wp)))
              (wp_z wp) eq_refl Eg) as [Gp Gc].
  unfold format_mavlink_mission_item. set (w0 := wp_set_header _ _ _ _ _).
  cbn [mi_frame mi_set_end mi_set_frame]. rewrite Z.eqb_refl. unfold format_mission_frame. cbv zeta.
  set (it := mi_set_end _ _ _) in *.
  assert (Hp : forall i, mi_param it i = nth i (mi_params base) 0) by (intros i; by rewrite <- Gp).
  rewrite !Hp. cbn [base mi_params app nth]. cbn [wp_command wp_set_xyz wp_set_params].
  assert (Hc0 : wp_command w0 = canonical_command (wp_command wp)) by (unfold w0, it; cbn; exact Gc).
  assert (Hin : forall x, 0 <= x < 2 ^ 32 -> - 2 ^ 24 < s32 x < 2 ^ 24 ->
    u32 (f64_round_int32 (f64_of_f32 (f32_of_f64 (f64_of_int (s32 x))))) = x)
    by (intros x ? ?; rewrite int24_roundtrip by done; by apply int_pattern).
  assert (Hj : wp_command w0 = MAV_CMD_DO_JUMP -> wp_command wp = MAV_CMD_DO_JUMP).
  { rewrite Hc0. unfold canonical_command. repeat case_if; done. }
  unfold int_x, int_y. case_if; [|case_if]; cbn [snd wp_set_params wp_set_xyz wp_command wp_autocontinue wp_mission_type
    wp_frame wp_z wp_param1 wp_param2 wp_param3 wp_param4 wp_x wp_y]; rewrite ?Hc0; split_and!; try done; try (intros; by apply Hin).
  intros Hn. exfalso. apply Hn, Hj. done.
Qed.

Lemma crc_item_bytes_ok wp : Forall byte_ok (crc_item_bytes wp).
Proof.
  unfold crc_item_bytes. cbn [map concat]. rewrite app_nil_r. repeat (apply Forall_app; split); apply le_bytes_ok.
Qed.

(** The checksum is the reference CRC-32 over the packed item. *)
Lemma crc32_for_mission_item_eq wp prev : 0 <= prev < 2 ^ 32 ->
  crc32_for_mission_item wp prev = crc32_signature prev (crc_item_bytes wp) /\ 0 <= crc32_for_mission_item wp prev < 2 ^ 32.
Proof.
  intros Hp. unfold crc32_for_mission_item. rewrite crc32part_eq by (done || apply crc_item_bytes_ok).
  cbn [default from_option id]. split; [done|]. apply crc32_signature_range; [apply crc_item_bytes_ok|done].
Qed.

Lemma fence_point_roundtrip pad fp :
  0 <= fp_lat fp < 2 ^ 64 -> 0 <= fp_lon fp < 2 ^ 64 -> f32_ok (fp_alt fp) -> length (fp_union fp) = 4%nat ->
  Forall byte_ok (fp_union fp) -> 0 <= fp_nav_cmd fp < 2 ^ 16 -> 0 <= fp_frame fp < 2 ^ 8 ->
  fence_point_of_bytes (fence_point_bytes pad fp) = fp.
Proof.
  intros Hlat Hlon Halt Hlen Hu Hc Hfr. destruct fp as [lat lon alt u cmd fr]; cbn [fp_lat fp_lon fp_alt fp_union fp_nav_cmd fp_frame] in *.
  do 4 (destruct u as [|? u]; [done|]). destruct u; [|done]. unfold fence_point_of_bytes. set (b := fence_point_bytes _ _).
  change (field 0 8 b) with (le_value (le_bytes 8 lat)). change (field 8 8 b) with (le_value (le_bytes 8 lon)).
  change (field 16 4 b) with (le_value (le_bytes 4 alt)). change (field 24 2 b) with (le_value (le_bytes 2 cmd)).
  change (field 26 1 b) with (le_value (le_bytes 1 fr)). change (slice 20 4 b) with [z; z0; z1; z2].
  rewrite !field_le by (cbn; unfold f32_ok in *; lia). done.
Qed.

Lemma stats_roundtrip pad s : 0 <= st_opaque_id s < 2 ^ 32 -> 0 <= st_num_items s < 2 ^ 16 -> 0 <= st_dataman_id s < 2 ^ 8 ->
  stats_of_bytes (stats_bytes pad s) = s.
Proof.
  intros Ho Hn Hd. destruct s as [o n d]. cbn [st_opaque_id st_num_items st_dataman_id] in *. unfold stats_of_bytes.
  set (b := stats_bytes pad (mkStats o n d)).
  change (field 0 4 b) with (le_value (le_bytes 4 o)). change (field 4 2 b) with (le_value (le_bytes 2 n)).
  change (field 6 1 b) with (le_value (le_bytes 1 d)). by rewrite !field_le by (cbn; lia).
Qed.

(** ** What a download loses *)
Lemma parsed_global vt wp it : is_global_frame true (wp_frame wp) = true -> parse_mavlink_mission_item true vt wp = inr it ->
  mi_frame it = wp_frame wp /\ (mi_frame it =? MAV_FRAME_MISSION) = false /\
  exists base g, parse_global_command wp base = inr g /\ length (mi_params base) = 7%nat /\ mi_params it = mi_params g /\ mi_nav_cmd it = mi_nav_cmd g.
Proof.
  intros Hg. assert (Hf : wp_frame wp = MAV_FRAME_GLOBAL \/ wp_frame wp = MAV_FRAME_GLOBAL_RELATIVE_ALT \/
                          wp_frame wp = MAV_FRAME_GLOBAL_INT \/ wp_frame wp = MAV_FRAME_GLOBAL_RELATIVE_ALT_INT)
    by (unfold is_global_frame in Hg; cbn [andb] in Hg; rewrite !orb_true_iff, !Z.eqb_eq in Hg; tauto).
  unfold parse_mavlink_mission_item. rewrite Hg. unfold parse_global. cbv zeta.
  replace (if _ || _ then true else true) with true by (by case_if). set (base := mi_set_param 6 _ _). set (chk := check_params_int_for_vehicle _ _ _ _ _ _ _).
  case_if; [done|]. destruct (parse_global_command wp base) as [c|g] eqn:Eg; intros H'; inject_inr H'.
  cbn [mi_frame mi_set_end mi_set_frame mi_params mi_nav_cmd]. split_and!; [by destruct Hf as [-> | [-> | [-> | ->]]]..|]. by exists base, g.
Qed.

(** The masks of two commands that [parse_global_command] handles have no place for a position. *)
Lemma no_position_mask vt cmd : cmd = MAV_CMD_DO_SET_ROI \/ cmd = MAV_CMD_CONDITION_GATE ->
  0 <= _find_mask cmd true vt /\ Z.testbit (_find_mask cmd true vt) 4 = false.
Proof. intros [-> | ->]; rewrite find_mask_total; split; reflexivity || done. Qed.

Lemma scan_params_range mask ps i : 0 <= i -> 0 <= scan_params mask ps i.
Proof. revert i. induction ps as [|p ps IH]; intros i Hi; [done|]. cbn. case_if; [lia|]. apply IH. lia. Qed.

Lemma position_refused vt wp : is_global_frame true (wp_frame wp) = true ->
  wp_command wp = MAV_CMD_DO_SET_ROI \/ wp_command wp = MAV_CMD_CONDITION_GATE -> int_param_is_unset (int_x wp) = false ->
  exists code, parse_mavlink_mission_item true vt wp = inl code.
Proof.
  intros Hg Hc Hx. unfold parse_mavlink_mission_item. rewrite Hg. unfold parse_global. cbv zeta.
  replace (if _ || _ then true else true) with true by (by case_if). unfold check_params_int_for_vehicle. cbv zeta.
  destruct (no_position_mask vt _ Hc) as [Hm Hb]. rewrite (proj2 (Z.ltb_ge _ _) Hm), Hb, Hx. cbn [negb andb].
  pose proof (scan_params_range (_find_mask (wp_command wp) true vt) [wp_param1 wp; wp_param2 wp; wp_param3 wp; wp_param4 wp] 0 ltac:(lia)) as Hs.
  destruct (scan_params _ _ 0 =? 0) eqn:E; cbn [negb]; [eauto|]. apply Z.eqb_neq in E. rewrite (proj2 (Z.ltb_lt _ _)) by lia. eauto.
Qed.

(** A region of interest at a location cannot be used in a mission. A DO_SET_ROI item with a
    position, or a CONDITION_GATE item, is refused, because the table of supported parameters
    has no coordinates for them although the translation reads them. The older NAV_ROI is
    accepted and stored, but is sent back as DO_SET_ROI with a position, so the mission that a
    ground station downloads is refused when it is uploaded again. *)
Theorem roi_location_refused vt wp :
  wp_wf wp -> is_global_frame true (wp_frame wp) = true -> int_param_is_unset (int_x wp) = false ->
  (wp_command wp = MAV_CMD_DO_SET_ROI \/ wp_command wp = MAV_CMD_CONDITION_GATE ->
   exists code, parse_mavlink_mission_item true vt wp = inl code) /\
  (forall it, wp_command wp = MAV_CMD_NAV_ROI -> parse_mavlink_mission_item true vt wp = inr it ->
   exists code, parse_mavlink_mission_item true vt (format_mavlink_mission_item true 0 it wp_zero).2 = inl code).
Proof.
  intros Hwf Hg Hx. split; [intros Hc; by apply position_refused|]. intros it Hc Hp.
  destruct (global_item_roundtrip vt 0 wp it Hwf Hg Hp) as (Wc & _ & _ & Wx & _ & _ & Wf). rewrite Hc in Wc.
  apply position_refused; [|by left|unfold int_x in *; by rewrite Wx]. rewrite Wf. unfold same_reference. by case_if.
Qed.

(** The altitude of a geofence point comes back with another reference. A point uploaded
    relative to home keeps its altitude but is sent back in the global frame, because the
    stored frame is read but the flag that selects the frame is not set from it. *)
Theorem fence_reference_lost vt mt wp it junk pad :
  wp_wf wp -> wp_frame wp = MAV_FRAME_GLOBAL_RELATIVE_ALT \/ wp_frame wp = MAV_FRAME_GLOBAL_RELATIVE_ALT_INT ->
  parse_mavlink_mission_item true vt wp = inr it -> length junk = 4%nat -> Forall byte_ok junk ->
  mi_altitude_is_relative it = true /\
  wp_frame (format_mavlink_mission_item true mt
    (item_of_fence_point (fence_point_of_bytes (fence_point_bytes pad (fence_point_of_item junk it)))) wp_zero).2 = MAV_FRAME_GLOBAL_INT.
Proof.
  intros Hwf Hfr Hp Hj Hb. assert (Hg : is_global_frame true (wp_frame wp) = true) by (by destruct Hfr as [-> | ->]).
  destruct (parsed_global _ _ _ Hg Hp) as (Ef & Hf & _). pose proof (parse_wf _ _ _ _ Hwf Hp) as Hit.
  assert (Hps : forall i, (i < 7)%nat -> 0 <= mi_param it i < 2 ^ 32).
  { intros i Hi. unfold mi_param. rewrite <- (wf_len it Hit) in Hi. destruct (lookup_lt_is_Some_2 _ _ Hi) as [p Ep].
    rewrite (nth_lookup_Some _ _ _ _ Ep). exact (Forall_lookup_1 _ _ _ _ (wf_params it Hit) Ep). }
  split.
  - destruct (global_item_roundtrip vt mt wp it Hwf Hg Hp) as (_ & _ & _ & _ & _ & _ & Hw).
    unfold format_mavlink_mission_item in Hw. rewrite Hf in Hw. rewrite (proj1 (proj2 (proj2 (proj2 (format_global_fields true it _))))) in Hw.
    destruct (mi_altitude_is_relative it); [done|]. by destruct Hfr as [E|E]; rewrite E in Hw.
  - rewrite fence_point_roundtrip; cbn [fence_point_of_item fp_lat fp_lon fp_alt fp_union fp_nav_cmd fp_frame]; try apply Hit; try (apply Hps; lia).
    + set (it' := item_of_fence_point _). assert (Hfr' : mi_frame it' = wp_frame wp /\ mi_altitude_is_relative it' = false).
      { unfold it', item_of_fence_point. cbn [fence_point_of_item fp_frame fp_nav_cmd]. rewrite Ef. destruct (is_polygon_vertex _), Hfr as [-> | ->]; done. }
      destruct Hfr' as [E1 E2]. unfold format_mavlink_mission_item. rewrite E1, <- Ef, Hf.
      rewrite (proj1 (proj2 (proj2 (proj2 (format_global_fields true it' _))))), E2. done.
    + destruct (is_polygon_vertex _); rewrite ?length_app, ?length_drop, ?length_le_bytes; lia.
    + destruct (is_polygon_vertex _); [apply Forall_app; split; [apply le_bytes_ok|by apply Forall_drop]|apply le_bytes_ok].
    + pose proof (wf_frame it Hit). lia.
Qed.

(** ** Instances *)
Definition sample_position (command frame : Z) : mavlink_mission_item_t :=
  mkWp 0 0 0 0 473977418 85455939 0 0 command 1 1 frame 0 1 0.
Definition sample_roi : mavlink_mission_item_t :=
  mkWp 0x40400000 0 0 0 473977418 85455939 0x42480000 0 MAV_CMD_NAV_ROI 1 1 MAV_FRAME_GLOBAL_RELATIVE_ALT_INT 0 1 0.
Definition parsed (wp : mavlink_mission_item_t) : mission_item_s :=
  match parse_mavlink_mission_item true 0 wp with inr it => it | inl _ => mission_item_zero end.

Lemma sample_position_wf command frame : 0 <= command < 2 ^ 16 -> 0 <= frame < 2 ^ 8 -> wp_wf (sample_position command frame).
Proof. intros. constructor; try done. repeat apply Forall_cons_2; done. Qed.

Lemma roi_location_refused_witness :
  (exists code, parse_mavlink_mission_item true 0 (sample_position MAV_CMD_DO_SET_ROI MAV_FRAME_GLOBAL_INT) = inl code) /\
  (exists code, parse_mavlink_mission_item true 0 (format_mavlink_mission_item true 0 (parsed sample_roi) wp_zero).2 = inl code).
Proof.
  split.
  - apply (proj1 (roi_location_refused 0 (sample_position MAV_CMD_DO_SET_ROI MAV_FRAME_GLOBAL_INT)
      ltac:(by apply sample_position_wf) eq_refl eq_refl)). by left.
  - apply (proj2 (roi_location_refused 0 sample_roi ltac:(constructor; try done; repeat apply Forall_cons_2; done) eq_refl eq_refl)).
    + reflexivity.
    + vm_compute. reflexivity.
Defined.

Lemma fence_reference_lost_witness :
  let it := parsed (sample_position MAV_CMD_NAV_FENCE_CIRCLE_INCLUSION MAV_FRAME_GLOBAL_RELATIVE_ALT_INT) in
  mi_altitude_is_relative it = true /\
  wp_frame (format_mavlink_mission_item true 1
    (item_of_fence_point (fence_point_of_bytes (fence_point_bytes [] (fence_point_of_item [0; 0; 0; 0] it)))) wp_zero).2 = MAV_FRAME_GLOBAL_INT.
Proof.
  apply (fence_reference_lost 0 1 (sample_position MAV_CMD_NAV_FENCE_CIRCLE_INCLUSION MAV_FRAME_GLOBAL_RELATIVE_ALT_INT)).
  - by apply sample_position_wf.
  - by right.
  - vm_compute. reflexivity.
  - reflexivity.
  - repeat apply Forall_cons_2; done.
Defined.
