(* ===== verification/MavlinkMission.v ===== *)
(** * The MAVLink mission protocol

    [src/modules/mavlink/mavlink_mission.{h,cpp}]: the manager that receives missions,
    geofences and rally points from a ground station, stores them with dataman, sends them
    back and tells the navigator about them. There is one manager per MAVLink link; all
    share the static members ([shared]) and the dataman storage. A handler is a function on
    a manager and its surroundings: the shared members, the storage, the time, the topics and
    the messages sent. Status texts, events and debug output are left out, and a handler runs
    without interleaving with those of other links. *)
From stdpp Require Import base list gmap.
From Stdlib Require Import ZArith Lia.
From S2P Require Import Prelude Float32 FloatOps Crc Dataman MissionItem.

(** ** What the manager needs from dataman

    [readSync] gives the bytes read or fails; [writeSync] reports success. *)
Class MissionStorage (D : Type) := {
  dm_readSync : Z -> Z -> Z -> D -> option (list Z) * D;
  dm_writeSync : Z -> Z -> list Z -> Z -> D -> bool * D;
}.

(** ** Data *)
Inductive wpm_state := MAVLINK_WPM_STATE_IDLE | MAVLINK_WPM_STATE_SENDLIST | MAVLINK_WPM_STATE_GETLIST.
#[global] Instance wpm_state_eq_dec : EqDecision wpm_state.
Proof. solve_decision. Defined.

Definition MAV_MISSION_TYPE_MISSION : Z := 0.
Definition MAV_MISSION_TYPE_FENCE : Z := 1.
Definition MAV_MISSION_TYPE_RALLY : Z := 2.
Definition MAV_MISSION_TYPE_ALL : Z := 255.
Definition MAV_COMP_ID_ALL : Z := 0.
Definition MAV_COMP_ID_MISSIONPLANNER : Z := 190.

Definition MISSION_STATE_UNKNOWN : Z := 0.
Definition MISSION_STATE_NO_MISSION : Z := 1.
Definition MISSION_STATE_NOT_STARTED : Z := 2.
Definition MISSION_STATE_ACTIVE : Z := 3.
Definition MISSION_STATE_PAUSED : Z := 4.
Definition MISSION_STATE_COMPLETE : Z := 5.
Definition MISSION_MODE_UNKNOWN : Z := 0.
Definition MISSION_MODE_ACTIVE : Z := 1.
Definition MISSION_MODE_SUSPENDED : Z := 2.

Definition MAVLINK_MISSION_PROTOCOL_TIMEOUT_DEFAULT : Z := 5000000.
Definition MAVLINK_MISSION_RETRY_TIMEOUT_DEFAULT : Z := 250000.
Definition NAVIGATION_STATE_AUTO_MISSION : Z := 3.
Definition NAVIGATION_STATE_AUTO_TAKEOFF : Z := 17.
Definition NAVIGATION_STATE_AUTO_LAND : Z := 18.

(** The topics [mission], [mission_result] and [vehicle_status], as far as they are used. *)
Record mission_s := mkMission {
  ms_timestamp : Z;
  ms_mission_dataman_id : Z; ms_fence_dataman_id : Z; ms_safepoint_dataman_id : Z;
  ms_count : Z; ms_current_seq : Z;
  ms_land_start_index : Z; ms_land_index : Z;
  ms_mission_id : Z; ms_geofence_id : Z; ms_safe_points_id : Z;
}.
Record mission_result_s := mkResult {
  mr_seq_reached : Z; mr_seq_current : Z; mr_seq_total : Z;
  mr_valid : bool; mr_finished : bool; mr_item_do_jump_changed : bool; mr_item_changed_index : Z;
}.
Record vehicle_status_s := mkStatus { vs_is_vtol : bool; vs_vehicle_type : Z; vs_nav_state : Z }.

(** An array indexed by the mission type. *)
Record by_type := mkByType { of_mission : Z; of_fence : Z; of_rally : Z }.
Definition of_type (a : by_type) (t : Z) : option Z :=
  if t =? MAV_MISSION_TYPE_MISSION then Some a.(of_mission)
  else if t =? MAV_MISSION_TYPE_FENCE then Some a.(of_fence)
  else if t =? MAV_MISSION_TYPE_RALLY then Some a.(of_rally) else None.
Definition set_mission (v : Z) (a : by_type) : by_type := mkByType v a.(of_fence) a.(of_rally).
Definition set_fence (v : Z) (a : by_type) : by_type := mkByType a.(of_mission) v a.(of_rally).
Definition set_rally (v : Z) (a : by_type) : by_type := mkByType a.(of_mission) a.(of_fence) v.

(** The static members. *)
Record shared := mkShared {
  s_mission_id : Z; s_safepoint_id : Z; s_fence_id : Z;
  s_dataman_init : bool;
  s_count : by_type; s_crc32 : by_type;
  s_current_seq : Z;
  s_transfer_in_progress : bool;
}.

(** Their values at start-up. *)
Definition shared_init : shared :=
  mkShared DM_KEY_WAYPOINTS_OFFBOARD_0 DM_KEY_SAFE_POINTS_0 DM_KEY_FENCE_POINTS_0 false (mkByType 0 0 0) (mkByType 0 0 0) 0 false.

(** The members of the current transfer ([_transfer_*]). *)
Record transfer := mkTransfer {
  tr_dataman_id : Z; tr_count : Z; tr_crc32 : Z; tr_seq : Z; tr_current_seq : Z;
  tr_sysid : Z; tr_compid : Z; tr_land_start : Z; tr_land : Z;
}.

(** The members that serve the reports to the ground station, with the last values of the
    subscribed topics and their generations. *)
Record report := mkReport {
  r_mission_state : Z; r_mission_mode : Z; r_reached_sent_count : Z; r_last_reached : Z; r_last_finished : bool;
  r_vehicle_mask : Z; r_limiter : Z;
  r_result : mission_result_s; r_result_gen : Z;
  r_mission : mission_s; r_mission_gen : Z; r_status_gen : Z;
}.

Record manager := mkManager {
  m_state : wpm_state; m_mission_type : Z;
  m_time_last_recv : Z; m_time_last_sent : Z;
  m_int_mode : bool; m_errcount : Z;
  m_my_mission_id : Z; m_my_safepoint_id : Z; m_my_fence_id : Z;
  m_transfer : transfer;
  m_land_start : Z; m_land : Z;
  m_report : report;
}.

(** What a manager sends. *)
Inductive sent :=
  | S_ack (sysid compid type mission_type opaque_id : Z)
  | S_current (seq total state mode mission_id fence_id rally_id : Z)
  | S_count (sysid compid count mission_type opaque_id : Z)
  | S_item (int_mode : bool) (wp : mavlink_mission_item_t)
  | S_request (int_mode : bool) (sysid compid seq mission_type : Z)
  | S_reached (seq : Z).

(** The messages received, decoded; [sysid] and [compid] are the sender's. *)
Inductive mission_message :=
  | M_ack (target_system target_component type mission_type : Z)
  | M_set_current (target_system target_component seq : Z)
  | M_request_list (target_system target_component mission_type : Z)
  | M_request (int_mode : bool) (target_system target_component seq mission_type : Z)
  | M_count (target_system target_component count mission_type : Z)
  | M_item (int_mode : bool) (wp : mavlink_mission_item_t)
  | M_clear_all (target_system target_component mission_type : Z)
  | M_other.
Record mavlink_message := mkMessage { msg_sysid : Z; msg_compid : Z; msg_body : mission_message }.

Record env (D : Type) := mkEnv {
  e_sh : shared; e_dm : D; e_now : Z; e_out : list sent;
  e_mission : mission_s; e_mission_gen : Z;
  e_result : mission_result_s; e_result_gen : Z;
  e_status : vehicle_status_s; e_status_gen : Z;
}.
Arguments mkEnv {D}.
Arguments e_sh {D}.
Arguments e_dm {D}.
Arguments e_now {D}.
Arguments e_out {D}.
Arguments e_mission {D}.
Arguments e_mission_gen {D}.
Arguments e_result {D}.
Arguments e_result_gen {D}.
Arguments e_status {D}.
Arguments e_status_gen {D}.

(** *** Assignments to single members *)
Definition tr_set_seq (v : Z) (t : transfer) : transfer :=
  mkTransfer t.(tr_dataman_id) t.(tr_count) t.(tr_crc32) v t.(tr_current_seq) t.(tr_sysid) t.(tr_compid)
    t.(tr_land_start) t.(tr_land).
Definition tr_set_crc32 (v : Z) (t : transfer) : transfer :=
  mkTransfer t.(tr_dataman_id) t.(tr_count) v t.(tr_seq) t.(tr_current_seq) t.(tr_sysid) t.(tr_compid)
    t.(tr_land_start) t.(tr_land).
Definition tr_set_current_seq (v : Z) (t : transfer) : transfer :=
  mkTransfer t.(tr_dataman_id) t.(tr_count) t.(tr_crc32) t.(tr_seq) v t.(tr_sysid) t.(tr_compid) t.(tr_land_start)
    t.(tr_land).
Definition tr_set_land_start (v : Z) (t : transfer) : transfer :=
  mkTransfer t.(tr_dataman_id) t.(tr_count) t.(tr_crc32) t.(tr_seq) t.(tr_current_seq) t.(tr_sysid) t.(tr_compid) v
    t.(tr_land).
Definition tr_set_land (v : Z) (t : transfer) : transfer :=
  mkTransfer t.(tr_dataman_id) t.(tr_count) t.(tr_crc32) t.(tr_seq) t.(tr_current_seq) t.(tr_sysid) t.(tr_compid)
    t.(tr_land_start) v.
Definition tr_set_partner (a : Z) (b : Z) (t : transfer) : transfer :=
  mkTransfer t.(tr_dataman_id) t.(tr_count) t.(tr_crc32) t.(tr_seq) t.(tr_current_seq) a b t.(tr_land_start)
    t.(tr_land).
Definition tr_set_count (v : Z) (t : transfer) : transfer :=
  mkTransfer t.(tr_dataman_id) v t.(tr_crc32) t.(tr_seq) t.(tr_current_seq) t.(tr_sysid) t.(tr_compid)
    t.(tr_land_start) t.(tr_land).
Definition tr_set_dataman_id (v : Z) (t : transfer) : transfer :=
  mkTransfer v t.(tr_count) t.(tr_crc32) t.(tr_seq) t.(tr_current_seq) t.(tr_sysid) t.(tr_compid) t.(tr_land_start)
    t.(tr_land).

Definition s_set_init (b : bool) (s : shared) : shared :=
  mkShared s.(s_mission_id) s.(s_safepoint_id) s.(s_fence_id) b s.(s_count) s.(s_crc32) s.(s_current_seq)
    s.(s_transfer_in_progress).
Definition s_set_progress (b : bool) (s : shared) : shared :=
  mkShared s.(s_mission_id) s.(s_safepoint_id) s.(s_fence_id) s.(s_dataman_init) s.(s_count) s.(s_crc32)
    s.(s_current_seq) b.
Definition s_set_current_seq (v : Z) (s : shared) : shared :=
  mkShared s.(s_mission_id) s.(s_safepoint_id) s.(s_fence_id) s.(s_dataman_init) s.(s_count) s.(s_crc32) v
    s.(s_transfer_in_progress).
Definition s_set_mission_id (v : Z) (s : shared) : shared :=
  mkShared v s.(s_safepoint_id) s.(s_fence_id) s.(s_dataman_init) s.(s_count) s.(s_crc32) s.(s_current_seq)
    s.(s_transfer_in_progress).
Definition s_set_fence_id (v : Z) (s : shared) : shared :=
  mkShared s.(s_mission_id) s.(s_safepoint_id) v s.(s_dataman_init) s.(s_count) s.(s_crc32) s.(s_current_seq)
    s.(s_transfer_in_progress).
Definition s_set_safepoint_id (v : Z) (s : shared) : shared :=
  mkShared s.(s_mission_id) v s.(s_fence_id) s.(s_dataman_init) s.(s_count) s.(s_crc32) s.(s_current_seq)
    s.(s_transfer_in_progress).
Definition s_set_count (c : by_type) (s : shared) : shared :=
  mkShared s.(s_mission_id) s.(s_safepoint_id) s.(s_fence_id) s.(s_dataman_init) c s.(s_crc32) s.(s_current_seq)
    s.(s_transfer_in_progress).
Definition s_set_crc32 (c : by_type) (s : shared) : shared :=
  mkShared s.(s_mission_id) s.(s_safepoint_id) s.(s_fence_id) s.(s_dataman_init) s.(s_count) c s.(s_current_seq)
    s.(s_transfer_in_progress).

Definition r_set_state (v : Z) (r : report) : report :=
  mkReport v r.(r_mission_mode) r.(r_reached_sent_count) r.(r_last_reached) r.(r_last_finished) r.(r_vehicle_mask)
    r.(r_limiter) r.(r_result) r.(r_result_gen) r.(r_mission) r.(r_mission_gen) r.(r_status_gen).
Definition r_set_mode (v : Z) (r : report) : report :=
  mkReport r.(r_mission_state) v r.(r_reached_sent_count) r.(r_last_reached) r.(r_last_finished) r.(r_vehicle_mask)
    r.(r_limiter) r.(r_result) r.(r_result_gen) r.(r_mission) r.(r_mission_gen) r.(r_status_gen).
Definition r_set_sent_count (v : Z) (r : report) : report :=
  mkReport r.(r_mission_state) r.(r_mission_mode) v r.(r_last_reached) r.(r_last_finished) r.(r_vehicle_mask)
    r.(r_limiter) r.(r_result) r.(r_result_gen) r.(r_mission) r.(r_mission_gen) r.(r_status_gen).
Definition r_set_reached (v : Z) (r : report) : report :=
  mkReport r.(r_mission_state) r.(r_mission_mode) r.(r_reached_sent_count) v r.(r_last_finished) r.(r_vehicle_mask)
    r.(r_limiter) r.(r_result) r.(r_result_gen) r.(r_mission) r.(r_mission_gen) r.(r_status_gen).
Definition r_set_finished (b : bool) (r : report) : report :=
  mkReport r.(r_mission_state) r.(r_mission_mode) r.(r_reached_sent_count) r.(r_last_reached) b r.(r_vehicle_mask)
    r.(r_limiter) r.(r_result) r.(r_result_gen) r.(r_mission) r.(r_mission_gen) r.(r_status_gen).
Definition r_set_vehicle_mask (v : Z) (r : report) : report :=
  mkReport r.(r_mission_state) r.(r_mission_mode) r.(r_reached_sent_count) r.(r_last_reached) r.(r_last_finished) v
    r.(r_limiter) r.(r_result) r.(r_result_gen) r.(r_mission) r.(r_mission_gen) r.(r_status_gen).
Definition r_set_limiter (v : Z) (r : report) : report :=
  mkReport r.(r_mission_state) r.(r_mission_mode) r.(r_reached_sent_count) r.(r_last_reached) r.(r_last_finished)
    r.(r_vehicle_mask) v r.(r_result) r.(r_result_gen) r.(r_mission) r.(r_mission_gen) r.(r_status_gen).
Definition r_set_result (x : mission_result_s) (g : Z) (r : report) : report :=
  mkReport r.(r_mission_state) r.(r_mission_mode) r.(r_reached_sent_count) r.(r_last_reached) r.(r_last_finished)
    r.(r_vehicle_mask) r.(r_limiter) x g r.(r_mission) r.(r_mission_gen) r.(r_status_gen).
Definition r_set_mission (x : mission_s) (g : Z) (r : report) : report :=
  mkReport r.(r_mission_state) r.(r_mission_mode) r.(r_reached_sent_count) r.(r_last_reached) r.(r_last_finished)
    r.(r_vehicle_mask) r.(r_limiter) r.(r_result) r.(r_result_gen) x g r.(r_status_gen).
Definition r_set_status_gen (g : Z) (r : report) : report :=
  mkReport r.(r_mission_state) r.(r_mission_mode) r.(r_reached_sent_count) r.(r_last_reached) r.(r_last_finished)
    r.(r_vehicle_mask) r.(r_limiter) r.(r_result) r.(r_result_gen) r.(r_mission) r.(r_mission_gen) g.

Definition m_set_state (v : wpm_state) (m : manager) : manager :=
  mkManager v m.(m_mission_type) m.(m_time_last_recv) m.(m_time_last_sent) m.(m_int_mode) m.(m_errcount)
    m.(m_my_mission_id) m.(m_my_safepoint_id) m.(m_my_fence_id) m.(m_transfer) m.(m_land_start) m.(m_land)
    m.(m_report).
Definition m_set_type (v : Z) (m : manager) : manager :=
  mkManager m.(m_state) v m.(m_time_last_recv) m.(m_time_last_sent) m.(m_int_mode) m.(m_errcount)
    m.(m_my_mission_id) m.(m_my_safepoint_id) m.(m_my_fence_id) m.(m_transfer) m.(m_land_start) m.(m_land)
    m.(m_report).
Definition m_set_recv (v : Z) (m : manager) : manager :=
  mkManager m.(m_state) m.(m_mission_type) v m.(m_time_last_sent) m.(m_int_mode) m.(m_errcount) m.(m_my_mission_id)
    m.(m_my_safepoint_id) m.(m_my_fence_id) m.(m_transfer) m.(m_land_start) m.(m_land) m.(m_report).
Definition m_set_sent (v : Z) (m : manager) : manager :=
  mkManager m.(m_state) m.(m_mission_type) m.(m_time_last_recv) v m.(m_int_mode) m.(m_errcount) m.(m_my_mission_id)
    m.(m_my_safepoint_id) m.(m_my_fence_id) m.(m_transfer) m.(m_land_start) m.(m_land) m.(m_report).
Definition m_set_int (b : bool) (m : manager) : manager :=
  mkManager m.(m_state) m.(m_mission_type) m.(m_time_last_recv) m.(m_time_last_sent) b m.(m_errcount)
    m.(m_my_mission_id) m.(m_my_safepoint_id) m.(m_my_fence_id) m.(m_transfer) m.(m_land_start) m.(m_land)
    m.(m_report).
Definition m_set_errcount (v : Z) (m : manager) : manager :=
  mkManager m.(m_state) m.(m_mission_type) m.(m_time_last_recv) m.(m_time_last_sent) m.(m_int_mode) v
    m.(m_my_mission_id) m.(m_my_safepoint_id) m.(m_my_fence_id) m.(m_transfer) m.(m_land_start) m.(m_land)
    m.(m_report).
Definition m_set_my_mission (v : Z) (m : manager) : manager :=
  mkManager m.(m_state) m.(m_mission_type) m.(m_time_last_recv) m.(m_time_last_sent) m.(m_int_mode) m.(m_errcount) v
    m.(m_my_safepoint_id) m.(m_my_fence_id) m.(m_transfer) m.(m_land_start) m.(m_land) m.(m_report).
Definition m_set_my_fence (v : Z) (m : manager) : manager :=
  mkManager m.(m_state) m.(m_mission_type) m.(m_time_last_recv) m.(m_time_last_sent) m.(m_int_mode) m.(m_errcount)
    m.(m_my_mission_id) m.(m_my_safepoint_id) v m.(m_transfer) m.(m_land_start) m.(m_land) m.(m_report).
Definition m_set_my_safepoint (v : Z) (m : manager) : manager :=
  mkManager m.(m_state) m.(m_mission_type) m.(m_time_last_recv) m.(m_time_last_sent) m.(m_int_mode) m.(m_errcount)
    m.(m_my_mission_id) v m.(m_my_fence_id) m.(m_transfer) m.(m_land_start) m.(m_land) m.(m_report).
Definition m_set_transfer (t : transfer) (m : manager) : manager :=
  mkManager m.(m_state) m.(m_mission_type) m.(m_time_last_recv) m.(m_time_last_sent) m.(m_int_mode) m.(m_errcount)
    m.(m_my_mission_id) m.(m_my_safepoint_id) m.(m_my_fence_id) t m.(m_land_start) m.(m_land) m.(m_report).
Definition m_set_land (a : Z) (b : Z) (m : manager) : manager :=
  mkManager m.(m_state) m.(m_mission_type) m.(m_time_last_recv) m.(m_time_last_sent) m.(m_int_mode) m.(m_errcount)
    m.(m_my_mission_id) m.(m_my_safepoint_id) m.(m_my_fence_id) m.(m_transfer) a b m.(m_report).
Definition m_set_report (r : report) (m : manager) : manager :=
  mkManager m.(m_state) m.(m_mission_type) m.(m_time_last_recv) m.(m_time_last_sent) m.(m_int_mode) m.(m_errcount)
    m.(m_my_mission_id) m.(m_my_safepoint_id) m.(m_my_fence_id) m.(m_transfer) m.(m_land_start) m.(m_land) r.

Section manager_code.
Context {D : Type} `{MissionStorage D}.

Definition e_set_sh (s : shared) (e : env D) : env D :=
  mkEnv s e.(e_dm) e.(e_now) e.(e_out) e.(e_mission) e.(e_mission_gen) e.(e_result) e.(e_result_gen) e.(e_status)
    e.(e_status_gen).
Definition e_set_dm (d : D) (e : env D) : env D :=
  mkEnv e.(e_sh) d e.(e_now) e.(e_out) e.(e_mission) e.(e_mission_gen) e.(e_result) e.(e_result_gen) e.(e_status)
    e.(e_status_gen).
Definition e_set_now (v : Z) (e : env D) : env D :=
  mkEnv e.(e_sh) e.(e_dm) v e.(e_out) e.(e_mission) e.(e_mission_gen) e.(e_result) e.(e_result_gen) e.(e_status)
    e.(e_status_gen).
Definition e_set_out (l : list sent) (e : env D) : env D :=
  mkEnv e.(e_sh) e.(e_dm) e.(e_now) l e.(e_mission) e.(e_mission_gen) e.(e_result) e.(e_result_gen) e.(e_status)
    e.(e_status_gen).
Definition e_set_mission (x : mission_s) (g : Z) (e : env D) : env D :=
  mkEnv e.(e_sh) e.(e_dm) e.(e_now) e.(e_out) x g e.(e_result) e.(e_result_gen) e.(e_status) e.(e_status_gen).
Definition e_set_result (x : mission_result_s) (g : Z) (e : env D) : env D :=
  mkEnv e.(e_sh) e.(e_dm) e.(e_now) e.(e_out) e.(e_mission) e.(e_mission_gen) x g e.(e_status) e.(e_status_gen).
Definition e_set_status (x : vehicle_status_s) (g : Z) (e : env D) : env D :=
  mkEnv e.(e_sh) e.(e_dm) e.(e_now) e.(e_out) e.(e_mission) e.(e_mission_gen) e.(e_result) e.(e_result_gen) x g.

(** A manager and its surroundings. *)
Record world := mkWorld { w_m : manager; w_e : env D }.

Definition on_m (f : manager -> manager) (w : world) : world := mkWorld (f w.(w_m)) w.(w_e).
Definition on_e (f : env D -> env D) (w : world) : world := mkWorld w.(w_m) (f w.(w_e)).
Definition on_tr (f : transfer -> transfer) : world -> world := on_m (fun m => m_set_transfer (f m.(m_transfer)) m).
Definition on_rep (f : report -> report) : world -> world := on_m (fun m => m_set_report (f m.(m_report)) m).
Definition on_sh (f : shared -> shared) : world -> world := on_e (fun e => e_set_sh (f e.(e_sh)) e).

Definition w_sh (w : world) : shared := w.(w_e).(e_sh).
Definition w_tr (w : world) : transfer := w.(w_m).(m_transfer).
Definition w_rep (w : world) : report := w.(w_m).(m_report).
Definition w_now (w : world) : Z := w.(w_e).(e_now).

Definition emit (s : sent) : world -> world := on_e (fun e => e_set_out (e.(e_out) ++ [s]) e).

Definition readSync (item index length : Z) (w : world) : option (list Z) * world :=
  let '(r, d) := dm_readSync item index length w.(w_e).(e_dm) in (r, on_e (e_set_dm d) w).
Definition writeSync (item index : Z) (bytes : list Z) (timeout : Z) (w : world) : bool * world :=
  let '(r, d) := dm_writeSync item index bytes timeout w.(w_e).(e_dm) in (r, on_e (e_set_dm d) w).

(** [mavlink_system.sysid] and [compid]; the number of mission items of the board; the
    generated [mission_s] with its bytes; the bytes left on the stack; the default time-out
    of the synchronous operations. *)
Context (own_sysid own_compid NUM_MISSION_ITEMS sizeof_mission_s : Z).
Context (mission_bytes : mission_s -> list Z) (mission_of_bytes : list Z -> mission_s) (stack : list Z).

Definition DM_TIMEOUT : Z := 5000000.

(** CHECK_SYSID_COMPID_MISSION *)
Definition for_us (target_system target_component : Z) : bool :=
  (target_system =? own_sysid)
  && ((target_component =? own_compid) || (target_component =? MAV_COMP_ID_MISSIONPLANNER)
      || (target_component =? MAV_COMP_ID_ALL)).

(** ** Stored state *)
Definition init_offboard_mission (ms : mission_s) (w : world) : world :=
  let w := on_sh (s_set_mission_id ms.(ms_mission_dataman_id)) w in
  let w := on_m (m_set_my_mission (w_sh w).(s_mission_id)) w in
  let w := on_sh (fun s => s_set_count (set_mission ms.(ms_count) s.(s_count)) s) w in
  let w := on_sh (fun s => s_set_crc32 (set_mission ms.(ms_mission_id) s.(s_crc32)) s) w in
  let w := on_sh (s_set_current_seq ms.(ms_current_seq)) w in
  on_m (m_set_land ms.(ms_land_start_index) ms.(ms_land_index)) w.

Definition load_geofence_stats (w : world) : bool * world :=
  let '(r, w) := readSync DM_KEY_FENCE_POINTS_STATE 0 sizeof_mission_stats_entry_s w in
  match r with
  | Some bytes =>
      let stats := stats_of_bytes bytes in
      let w := on_sh (fun s => s_set_count (set_fence stats.(st_num_items) s.(s_count)) s) w in
      let w := on_sh (fun s => s_set_crc32 (set_fence stats.(st_opaque_id) s.(s_crc32)) s) w in
      let w := on_sh (s_set_fence_id stats.(st_dataman_id)) w in
      (true, on_m (m_set_my_fence (w_sh w).(s_fence_id)) w)
  | None => (false, w)
  end.

Definition load_safepoint_stats (w : world) : bool * world :=
  let '(r, w) := readSync DM_KEY_SAFE_POINTS_STATE 0 sizeof_mission_stats_entry_s w in
  match r with
  | Some bytes =>
      let stats := stats_of_bytes bytes in
      let w := on_sh (fun s => s_set_count (set_rally stats.(st_num_items) s.(s_count)) s) w in
      let w := on_sh (fun s => s_set_crc32 (set_rally stats.(st_opaque_id) s.(s_crc32)) s) w in
      let w := on_sh (s_set_safepoint_id stats.(st_dataman_id)) w in
      (true, on_m (m_set_my_safepoint (w_sh w).(s_safepoint_id)) w)
  | None => (false, w)
  end.

Definition update_active_mission_locked (id count seq crc : Z) (w : world) : mission_s * world :=
  let w := on_sh (s_set_mission_id id) w in
  let w := on_m (m_set_my_mission (w_sh w).(s_mission_id)) w in
  let w := on_sh (fun s => s_set_count (set_mission count s.(s_count)) s) w in
  let w := on_sh (fun s => s_set_crc32 (set_mission crc s.(s_crc32)) s) w in
  let w := on_sh (s_set_current_seq seq) w in
  let s := w_sh w in
  (mkMission (w_now w) id s.(s_fence_id) s.(s_safepoint_id) count seq w.(w_m).(m_land_start) w.(w_m).(m_land)
     s.(s_crc32).(of_mission) s.(s_crc32).(of_fence) s.(s_crc32).(of_rally), w).

(** [_offboard_mission_pub.publish(mission)] *)
Definition publish_mission (ms : mission_s) : world -> world :=
  on_e (fun e => e_set_mission ms (e.(e_mission_gen) + 1) e).

Definition update_active_mission (id count seq crc : Z) (write_to_dataman : bool) (w : world) : world :=
  let '(ms, w) := update_active_mission_locked id count seq crc w in
  let w := if write_to_dataman then (writeSync DM_KEY_MISSION_STATE 0 (mission_bytes ms) DM_TIMEOUT w).2 else w in
  publish_mission ms w.

Definition count_fs_error : world -> world := on_m (fun m => m_set_errcount (u32 (m.(m_errcount) + 1)) m).

(** The current mission as it is, published again. *)
Definition republish_mission (w : world) : world :=
  let s := w_sh w in
  let '(ms, w) := update_active_mission_locked s.(s_mission_id) s.(s_count).(of_mission) s.(s_current_seq)
                    s.(s_crc32).(of_mission) w in
  publish_mission ms w.

Definition update_geofence_count (id count crc : Z) (w : world) : Z * world :=
  let w := on_m (m_set_my_fence id) (on_sh (s_set_fence_id id) w) in
  let '(ok, w) := writeSync DM_KEY_FENCE_POINTS_STATE 0 (stats_bytes (take 1 stack) (mkStats crc (u16 count) (u8 id)))
                    DM_TIMEOUT w in
  if ok : bool then
    let w := on_sh (fun s => s_set_count (set_fence (u16 count) s.(s_count)) s) w in
    let w := on_sh (fun s => s_set_crc32 (set_fence crc s.(s_crc32)) s) w in
    (PX4_OK, republish_mission w)
  else (PX4_ERROR, count_fs_error w).

Definition update_safepoint_count (id count crc : Z) (w : world) : Z * world :=
  let w := on_m (m_set_my_safepoint id) (on_sh (s_set_safepoint_id id) w) in
  let '(ok, w) := writeSync DM_KEY_SAFE_POINTS_STATE 0 (stats_bytes (take 1 stack) (mkStats crc (u16 count) (u8 id)))
                    DM_TIMEOUT w in
  if ok : bool then
    let w := on_sh (fun s => s_set_count (set_rally (u16 count) s.(s_count)) s) w in
    let w := on_sh (fun s => s_set_crc32 (set_rally crc s.(s_crc32)) s) w in
    (PX4_OK, republish_mission w)
  else (PX4_ERROR, count_fs_error w).

(** ** Sending *)
Definition current_max_item_count (w : world) : Z :=
  default 0 (of_type (mkByType NUM_MISSION_ITEMS DM_KEY_FENCE_POINTS_MAX DM_KEY_SAFE_POINTS_MAX) w.(w_m).(m_mission_type)).
Definition current_item_count (w : world) : Z := default 0 (of_type (w_sh w).(s_count) w.(w_m).(m_mission_type)).
Definition get_current_mission_type_crc (w : world) : Z := default 0 (of_type (w_sh w).(s_crc32) w.(w_m).(m_mission_type)).

Definition send_mission_ack (sysid compid type opaque_id : Z) (w : world) : world :=
  emit (S_ack sysid compid type w.(w_m).(m_mission_type) opaque_id) w.

Definition update_mission_state (w : world) : world :=
  if w.(w_e).(e_status_gen) =? (w_rep w).(r_status_gen) then w
  else
    let st := w.(w_e).(e_status) in
    let w := on_rep (r_set_status_gen w.(w_e).(e_status_gen)) w in
    let w := on_rep (r_set_vehicle_mask (vehicle_type_bitmask st.(vs_is_vtol) st.(vs_vehicle_type))) w in
    let mr := (w_rep w).(r_result) in
    let mode := if one_of st.(vs_nav_state) [NAVIGATION_STATE_AUTO_MISSION; NAVIGATION_STATE_AUTO_TAKEOFF; NAVIGATION_STATE_AUTO_LAND]
                then MISSION_MODE_ACTIVE else MISSION_MODE_SUSPENDED in
    let w := on_rep (r_set_mode mode) w in
    if ((w_sh w).(s_count).(of_mission) =? 0) || negb mr.(mr_valid) then on_rep (r_set_state MISSION_STATE_NO_MISSION) w
    else if mr.(mr_finished) then on_rep (r_set_state MISSION_STATE_COMPLETE) w
    else if mode =? MISSION_MODE_ACTIVE then on_rep (r_set_state MISSION_STATE_ACTIVE) w
    else if (mode =? MISSION_MODE_SUSPENDED) && (0 <=? mr.(mr_seq_reached)) then on_rep (r_set_state MISSION_STATE_PAUSED) w
    else if (mr.(mr_seq_reached) <? 0) && (mr.(mr_seq_current) <? 1) then on_rep (r_set_state MISSION_STATE_NOT_STARTED) w
    else w.

Definition send_mission_current (seq : Z) (w : world) : world :=
  let w := update_mission_state w in
  let s := w_sh w in
  emit (S_current seq (if 0 <? s.(s_count).(of_mission) then s.(s_count).(of_mission) else 65535)
          (w_rep w).(r_mission_state) (w_rep w).(r_mission_mode)
          s.(s_crc32).(of_mission) s.(s_crc32).(of_fence) s.(s_crc32).(of_rally)) w.

Definition send_mission_count (sysid compid count mission_type opaque_id : Z) (w : world) : world :=
  let w := on_m (m_set_sent (w_now w)) w in
  emit (S_count sysid compid count mission_type opaque_id) w.

(** The read of [send_mission_item]; an unknown type reads nothing. *)
Definition read_mission_item (seq : Z) (w : world) : option mission_item_s * world :=
  let t := w.(w_m).(m_mission_type) in
  if t =? MAV_MISSION_TYPE_MISSION then
    let '(r, w) := readSync (w_sh w).(s_mission_id) seq sizeof_mission_item_s w in (mission_item_of_bytes <$> r, w)
  else if t =? MAV_MISSION_TYPE_FENCE then
    let '(r, w) := readSync (w_sh w).(s_fence_id) seq sizeof_mission_fence_point_s w in
    ((fun b => item_of_fence_point (fence_point_of_bytes b)) <$> r, w)
  else if t =? MAV_MISSION_TYPE_RALLY then
    let '(r, w) := readSync (w_sh w).(s_safepoint_id) seq sizeof_mission_item_s w in (mission_item_of_bytes <$> r, w)
  else (None, w).

(** The header that [send_mission_item] fills in after the translation. *)
Definition wp_address (sysid compid seq current : Z) (wp : mavlink_mission_item_t) : mavlink_mission_item_t :=
  mkWp wp.(wp_param1) wp.(wp_param2) wp.(wp_param3) wp.(wp_param4) wp.(wp_x) wp.(wp_y) wp.(wp_z) seq wp.(wp_command)
    sysid compid wp.(wp_frame) current wp.(wp_autocontinue) wp.(wp_mission_type).

Definition send_mission_item (sysid compid seq : Z) (w : world) : world :=
  let '(r, w) := read_mission_item seq w in
  match r with
  | Some it =>
      let w := on_m (m_set_sent (w_now w)) w in
      let m := w.(w_m) in
      let '(_, wp) := format_mavlink_mission_item m.(m_int_mode) m.(m_mission_type) it wp_zero in
      emit (S_item m.(m_int_mode) (wp_address sysid compid seq (if (w_sh w).(s_current_seq) =? seq then 1 else 0) wp)) w
  | None => count_fs_error (send_mission_ack sysid compid MAV_MISSION_ERROR 0 w)
  end.

Definition send_mission_request (sysid compid seq : Z) (w : world) : world :=
  if seq <? current_max_item_count w then
    let w := on_m (m_set_sent (w_now w)) w in
    emit (S_request w.(w_m).(m_int_mode) sysid compid seq w.(w_m).(m_mission_type)) w
  else w.

Definition send_mission_item_reached (seq : Z) : world -> world := emit (S_reached seq).

(** ** [send], called at a fixed rate *)
Definition switch_to_idle_state : world -> world := on_m (m_set_state MAVLINK_WPM_STATE_IDLE).
Definition is_state (s : wpm_state) (w : world) : bool := bool_decide (w.(w_m).(m_state) = s).

(** A new [mission_result]. *)
Definition send_result (w : world) : world :=
  let w := on_rep (r_set_result w.(w_e).(e_result) w.(w_e).(e_result_gen)) w in
  let mr := (w_rep w).(r_result) in
  let '(send_current, w) :=
    if negb ((w_sh w).(s_current_seq) =? mr.(mr_seq_current)) then
      (if 0 <? mr.(mr_seq_total) then mr.(mr_seq_current) <? mr.(mr_seq_total) else false,
       on_sh (s_set_current_seq mr.(mr_seq_current)) w)
    else (false, w) in
  let '(send_current, w) :=
    if negb (eqb (w_rep w).(r_last_finished) mr.(mr_finished)) then (true, on_rep (r_set_finished mr.(mr_finished)) w)
    else (send_current, w) in
  let w := if send_current then send_mission_current (u16 (w_sh w).(s_current_seq)) w else w in
  let w :=
    if negb ((w_rep w).(r_last_reached) =? mr.(mr_seq_reached)) then
      let w := on_rep (r_set_sent_count 0) (on_rep (r_set_reached mr.(mr_seq_reached)) w) in
      if (0 <? mr.(mr_seq_total)) && (0 <=? (w_rep w).(r_last_reached))
      then send_mission_item_reached (u16 (w_rep w).(r_last_reached)) w else w
    else w in
  if mr.(mr_item_do_jump_changed) && (0 <? mr.(mr_seq_total)) && (mr.(mr_item_changed_index) <? mr.(mr_seq_total))
     && is_state MAVLINK_WPM_STATE_IDLE w
  then
    let w := on_m (m_set_type MAV_MISSION_TYPE_MISSION) w in
    send_mission_item (w_tr w).(tr_sysid) (w_tr w).(tr_compid) mr.(mr_item_changed_index) w
  else w.

(** [MavlinkRateLimiter::check] with an interval of one second. *)
Definition limiter_check (w : world) : bool * world :=
  let dt := u64 (w_now w - (w_rep w).(r_limiter)) in
  if (0 <? dt) && (1000000 <=? dt) then (true, on_rep (r_set_limiter (w_now w)) w) else (false, w).

(** No new result: the slow repetition. *)
Definition send_slow (w : world) : world :=
  let '(due, w) := limiter_check w in
  if due : bool then
    let w := send_mission_current (u16 (w_sh w).(s_current_seq)) w in
    if (0 <? (w_sh w).(s_count).(of_mission)) && (0 <=? (w_sh w).(s_current_seq))
       && (0 <=? (w_rep w).(r_last_reached)) && ((w_rep w).(r_reached_sent_count) <? 10)
    then on_rep (fun r => r_set_sent_count (u8 (r.(r_reached_sent_count) + 1)) r)
           (send_mission_item_reached (u16 (w_rep w).(r_last_reached)) w)
    else w
  else w.

Definition timed_out (w : world) : bool :=
  negb (is_state MAVLINK_WPM_STATE_IDLE w) && (0 <? w.(w_m).(m_time_last_recv))
  && (MAVLINK_MISSION_PROTOCOL_TIMEOUT_DEFAULT <? hrt_elapsed_time (w_now w) w.(w_m).(m_time_last_recv)).

Definition send_timeouts (w : world) : world :=
  let retry := (0 <? w.(w_m).(m_time_last_sent))
               && (MAVLINK_MISSION_RETRY_TIMEOUT_DEFAULT <? hrt_elapsed_time (w_now w) w.(w_m).(m_time_last_sent)) in
  let t := w_tr w in
  if timed_out w then on_sh (s_set_progress false) (switch_to_idle_state w)
  else if is_state MAVLINK_WPM_STATE_GETLIST w && retry then send_mission_request t.(tr_sysid) t.(tr_compid) t.(tr_seq) w
  else if is_state MAVLINK_WPM_STATE_SENDLIST w && retry && (t.(tr_seq) =? 0) then
    send_mission_count t.(tr_sysid) t.(tr_compid) t.(tr_count) w.(w_m).(m_mission_type) (get_current_mission_type_crc w) w
  else if is_state MAVLINK_WPM_STATE_IDLE w then on_m (m_set_recv 0) (on_m (m_set_sent 0) w)
  else w.

(** [iridium] says whether the link has high latency. *)
Definition send (iridium : bool) (w : world) : world :=
  if iridium then w
  else
    let w := if negb (w.(w_e).(e_result_gen) =? (w_rep w).(r_result_gen)) then send_result w else send_slow w in
    send_timeouts w.

(** ** The handlers *)
Definition from_partner (msg : mavlink_message) (w : world) : bool :=
  (msg.(msg_sysid) =? (w_tr w).(tr_sysid)) && (msg.(msg_compid) =? (w_tr w).(tr_compid)).

Definition request_current_item (w : world) : world :=
  send_mission_request (w_tr w).(tr_sysid) (w_tr w).(tr_compid) (w_tr w).(tr_seq) w.
Definition ack_partner (type opaque_id : Z) (w : world) : world :=
  send_mission_ack (w_tr w).(tr_sysid) (w_tr w).(tr_compid) type opaque_id w.

Definition handle_mission_ack (msg : mavlink_message) (ts tc type mission_type : Z) (w : world) : world :=
  if negb (for_us ts tc) then w
  else if negb (from_partner msg w) then w
  else if is_state MAVLINK_WPM_STATE_SENDLIST w && (w.(w_m).(m_mission_type) =? mission_type) then
    switch_to_idle_state (on_m (m_set_recv (w_now w)) w)
  else if is_state MAVLINK_WPM_STATE_GETLIST w then
    if type =? MAV_MISSION_UNSUPPORTED then
      request_current_item (on_m (m_set_int (negb w.(w_m).(m_int_mode))) w)
    else if type =? MAV_MISSION_OPERATION_CANCELLED then on_sh (s_set_progress false) (switch_to_idle_state w)
    else w
  else w.

Definition handle_mission_set_current (ts tc seq : Z) (w : world) : world :=
  if negb (for_us ts tc) then w
  else if is_state MAVLINK_WPM_STATE_IDLE w then
    let w := on_m (m_set_recv (w_now w)) w in
    let s := w_sh w in
    if seq <? s.(s_count).(of_mission)
    then update_active_mission s.(s_mission_id) s.(s_count).(of_mission) seq s.(s_crc32).(of_mission) true w
    else w
  else w.

Definition handle_mission_request_list (msg : mavlink_message) (ts tc mission_type : Z) (w : world) : world :=
  if negb (for_us ts tc) then w
  else
    let maybe_completed := is_state MAVLINK_WPM_STATE_SENDLIST w && ((w_tr w).(tr_seq) =? current_item_count w) in
    let w := if maybe_completed then switch_to_idle_state w else w in
    if is_state MAVLINK_WPM_STATE_IDLE w
       || (is_state MAVLINK_WPM_STATE_SENDLIST w && (u8 w.(w_m).(m_mission_type) =? mission_type) && from_partner msg w)
    then
      let w := on_m (m_set_recv (w_now w)) w in
      let w := on_m (m_set_state MAVLINK_WPM_STATE_SENDLIST) w in
      let w := on_m (m_set_type mission_type) w in
      let w := if mission_type =? MAV_MISSION_TYPE_FENCE then (load_geofence_stats w).2
               else if mission_type =? MAV_MISSION_TYPE_RALLY then (load_safepoint_stats w).2 else w in
      let w := on_tr (tr_set_seq 0) w in
      let w := on_tr (tr_set_count (current_item_count w)) w in
      let w := on_tr (tr_set_partner msg.(msg_sysid) msg.(msg_compid)) w in
      send_mission_count msg.(msg_sysid) msg.(msg_compid) (w_tr w).(tr_count) w.(w_m).(m_mission_type)
        (get_current_mission_type_crc w) w
    else w.

(** The rejection of an unexpected request. *)
Definition reject_request (w : world) : world := ack_partner MAV_MISSION_ERROR 0 (switch_to_idle_state w).

Definition handle_mission_request_both (msg : mavlink_message) (ts tc seq mission_type : Z) (w : world) : world :=
  if negb (for_us ts tc) then w
  else if negb (from_partner msg w) then w
  else if is_state MAVLINK_WPM_STATE_SENDLIST w then
    if negb (w.(w_m).(m_mission_type) =? mission_type) then w
    else
      let w := on_m (m_set_recv (w_now w)) w in
      let t := w_tr w in
      let expected := (seq =? t.(tr_seq)) && (t.(tr_seq) <? t.(tr_count)) in
      let again := seq =? t.(tr_seq) - 1 in
      if expected || again then
        let w := if expected then on_tr (tr_set_seq (u16 (t.(tr_seq) + 1))) w else w in
        if seq <? current_item_count w then send_mission_item (w_tr w).(tr_sysid) (w_tr w).(tr_compid) seq w
        else reject_request w
      else reject_request w
  else w.

(** [handle_mission_request] and [handle_mission_request_int] select the mode of the request. *)
Definition handle_mission_request (int_mode : bool) (msg : mavlink_message) (ts tc seq mission_type : Z) (w : world) : world :=
  handle_mission_request_both msg ts tc seq mission_type (on_m (m_set_int int_mode) w).

(** The storage that is not active. *)
Definition other_mission_id (s : shared) : Z :=
  if s.(s_mission_id) =? DM_KEY_WAYPOINTS_OFFBOARD_0 then DM_KEY_WAYPOINTS_OFFBOARD_1 else DM_KEY_WAYPOINTS_OFFBOARD_0.
Definition other_fence_id (s : shared) : Z :=
  if s.(s_fence_id) =? DM_KEY_FENCE_POINTS_0 then DM_KEY_FENCE_POINTS_1 else DM_KEY_FENCE_POINTS_0.
Definition other_safepoint_id (s : shared) : Z :=
  if s.(s_safepoint_id) =? DM_KEY_SAFE_POINTS_0 then DM_KEY_SAFE_POINTS_1 else DM_KEY_SAFE_POINTS_0.

Definition clear_mission (w : world) : world :=
  update_active_mission (other_mission_id (w_sh w)) 0 0 0 true (on_m (m_set_land (-1) (-1)) w).

(** A MISSION_COUNT while idle that is not refused for a transfer on another link; the result
    says whether an item is to be requested. *)
Definition begin_transfer (msg : mavlink_message) (count mission_type : Z) (w : world) : bool * world :=
  let w := on_sh (s_set_progress true) w in
  let w := on_tr (tr_set_partner msg.(msg_sysid) msg.(msg_compid)) w in
  let w := on_m (m_set_type mission_type) w in
  let w := on_tr (tr_set_crc32 0) w in
  let w := on_rep (r_set_reached (-1)) w in
  if current_max_item_count w <? count then
    (false, on_sh (s_set_progress false) (ack_partner MAV_MISSION_NO_SPACE 0 w))
  else if count =? 0 then
    let w := if mission_type =? MAV_MISSION_TYPE_MISSION then clear_mission w
             else if mission_type =? MAV_MISSION_TYPE_FENCE then (update_geofence_count (other_fence_id (w_sh w)) 0 0 w).2
             else if mission_type =? MAV_MISSION_TYPE_RALLY then (update_safepoint_count (other_safepoint_id (w_sh w)) 0 0 w).2
             else w in
    (false, on_sh (s_set_progress false) (ack_partner MAV_MISSION_ACCEPTED 0 w))
  else
    let id := if mission_type =? MAV_MISSION_TYPE_MISSION then Some (other_mission_id (w_sh w))
              else if mission_type =? MAV_MISSION_TYPE_FENCE then Some (other_fence_id (w_sh w))
              else if mission_type =? MAV_MISSION_TYPE_RALLY then Some (other_safepoint_id (w_sh w)) else None in
    match id with
    | None => (false, ack_partner MAV_MISSION_INVALID 0 (on_sh (s_set_progress false) w))
    | Some id =>
        let w := on_tr (tr_set_dataman_id id) w in
        let w := on_m (m_set_state MAVLINK_WPM_STATE_GETLIST) w in
        (true, on_tr (fun t => tr_set_land (-1) (tr_set_land_start (-1) (tr_set_current_seq (-1)
                        (tr_set_count count (tr_set_seq 0 t))))) w)
    end.

Definition handle_mission_count (msg : mavlink_message) (ts tc count mission_type : Z) (w : world) : world :=
  if negb (for_us ts tc) then w
  else if is_state MAVLINK_WPM_STATE_IDLE w then
    let w := on_m (m_set_recv (w_now w)) w in
    if (w_sh w).(s_transfer_in_progress) then send_mission_ack msg.(msg_sysid) msg.(msg_compid) MAV_MISSION_ERROR 0 w
    else
      let '(receiving, w) := begin_transfer msg count mission_type w in
      if receiving : bool then request_current_item w else w
  else if is_state MAVLINK_WPM_STATE_GETLIST w then
    let w := on_m (m_set_recv (w_now w)) w in
    if negb (from_partner msg w) then send_mission_ack msg.(msg_sysid) msg.(msg_compid) MAV_MISSION_ERROR 0 w
    else if (w_tr w).(tr_seq) =? 0 then request_current_item w
    else ack_partner MAV_MISSION_ERROR 0 w
  else send_mission_ack msg.(msg_sysid) msg.(msg_compid) MAV_MISSION_ERROR 0 w.

(** A received item goes to the storage of the transfer. The result says whether the write
    or the check of the item failed. *)
Definition store_mission_item (wp : mavlink_mission_item_t) (it : mission_item_s) (w : world) : bool * bool * world :=
  let cmd := it.(mi_nav_cmd) in
  if one_of cmd [MAV_CMD_NAV_FENCE_POLYGON_VERTEX_INCLUSION; MAV_CMD_NAV_FENCE_POLYGON_VERTEX_EXCLUSION;
                 MAV_CMD_NAV_FENCE_CIRCLE_INCLUSION; MAV_CMD_NAV_FENCE_CIRCLE_EXCLUSION; MAV_CMD_NAV_RALLY_POINT]
  then (false, true, w)
  else
    let '(ok, w) := writeSync (w_tr w).(tr_dataman_id) wp.(wp_seq) (mission_item_bytes it) DM_TIMEOUT w in
    let w := if (cmd =? MAV_CMD_DO_LAND_START) && ((w_tr w).(tr_land_start) =? -1)
             then on_tr (tr_set_land_start wp.(wp_seq)) w else w in
    let w := if one_of cmd [MAV_CMD_NAV_VTOL_LAND; MAV_CMD_NAV_LAND] && ((w_tr w).(tr_land) =? -1) then
               let w := on_tr (tr_set_land wp.(wp_seq)) w in
               if (w_tr w).(tr_land_start) =? -1 then on_tr (tr_set_land_start (w_tr w).(tr_land)) w else w
             else w in
    let w := if ok && negb (wp.(wp_current) =? 0) then on_tr (tr_set_current_seq wp.(wp_seq)) w else w in
    (negb ok, false, w).

Definition store_fence_point (wp : mavlink_mission_item_t) (it : mission_item_s) (w : world) : bool * bool * world :=
  let fp := fence_point_of_item (take 4 stack) it in
  if is_polygon_vertex it.(mi_nav_cmd) && (it.(mi_count16) <? 3) then (false, true, w)
  else
    let '(ok, w) := writeSync (w_tr w).(tr_dataman_id) wp.(wp_seq) (fence_point_bytes (take 5 (drop 4 stack)) fp) DM_TIMEOUT w in
    (negb ok, false, w).

Definition store_item (wp : mavlink_mission_item_t) (it : mission_item_s) (w : world) : bool * bool * world :=
  let t := w.(w_m).(m_mission_type) in
  if t =? MAV_MISSION_TYPE_MISSION then store_mission_item wp it w
  else if t =? MAV_MISSION_TYPE_FENCE then store_fence_point wp it w
  else if t =? MAV_MISSION_TYPE_RALLY then
    let '(ok, w) := writeSync (w_tr w).(tr_dataman_id) wp.(wp_seq) (mission_item_bytes it) 2000000 w in (negb ok, false, w)
  else (false, false, w).

(** The end of a transfer whose result is [ret]. *)
Definition finish_transfer (ret : Z) (w : world) : world :=
  let w := switch_to_idle_state w in
  let w := if ret =? PX4_OK then ack_partner MAV_MISSION_ACCEPTED (w_tr w).(tr_crc32) w else ack_partner MAV_MISSION_ERROR 0 w in
  on_sh (s_set_progress false) w.

(** All items have been received. *)
Definition complete_transfer (w : world) : world :=
  let t := w_tr w in
  let crc := t.(tr_crc32) in
  let mt := w.(w_m).(m_mission_type) in
  let '(ret, w) :=
    if mt =? MAV_MISSION_TYPE_MISSION then
      let w := on_m (m_set_land t.(tr_land_start) t.(tr_land)) w in
      (PX4_OK, if negb (crc =? (w_sh w).(s_crc32).(of_mission))
               then update_active_mission t.(tr_dataman_id) t.(tr_count) t.(tr_current_seq) crc true w else w)
    else if mt =? MAV_MISSION_TYPE_FENCE then
      (if negb (crc =? (w_sh w).(s_crc32).(of_fence)) then update_geofence_count t.(tr_dataman_id) t.(tr_count) crc w else (PX4_OK, w))
    else if mt =? MAV_MISSION_TYPE_RALLY then
      (if negb (crc =? (w_sh w).(s_crc32).(of_rally)) then update_safepoint_count t.(tr_dataman_id) t.(tr_count) crc w else (PX4_OK, w))
    else (PX4_OK, w) in
  finish_transfer ret w.

Definition abort_transfer : world -> world := fun w => on_sh (s_set_progress false) (switch_to_idle_state w).

(** The expected item of a transfer. *)
Definition accept_item (wp : mavlink_mission_item_t) (w : world) : world :=
  match parse_mavlink_mission_item w.(w_m).(m_int_mode) (w_rep w).(r_vehicle_mask) wp with
  | inl code => abort_transfer (ack_partner (u8 code) 0 w)
  | inr it =>
      let w := on_tr (fun t => tr_set_crc32 (crc32_for_mission_item wp t.(tr_crc32)) t) w in
      let '(write_failed, check_failed, w) := store_item wp it w in
      if write_failed || check_failed then abort_transfer (ack_partner MAV_MISSION_ERROR 0 w)
      else
        let w := if negb (wp.(wp_current) =? 0) then on_tr (tr_set_current_seq wp.(wp_seq)) w else w in
        let w := on_tr (tr_set_seq (u16 (wp.(wp_seq) + 1))) w in
        if (w_tr w).(tr_seq) =? (w_tr w).(tr_count) then complete_transfer w else request_current_item w
  end.

Definition handle_mission_item_both (msg : mavlink_message) (wp : mavlink_mission_item_t) (w : world) : world :=
  if negb (for_us wp.(wp_target_system) wp.(wp_target_component)) then w
  else if negb (from_partner msg w) then w
  else if negb (wp.(wp_mission_type) =? w.(w_m).(m_mission_type)) then ack_partner MAV_MISSION_ERROR 0 w
  else if is_state MAVLINK_WPM_STATE_GETLIST w then
    let w := on_m (m_set_recv (w_now w)) w in
    if negb (wp.(wp_seq) =? (w_tr w).(tr_seq)) then w else accept_item wp w
  else if is_state MAVLINK_WPM_STATE_IDLE w then
    if (w_tr w).(tr_seq) =? wp.(wp_seq) + 1 then ack_partner MAV_MISSION_ACCEPTED (w_tr w).(tr_crc32) w
    else ack_partner MAV_MISSION_ERROR 0 w
  else ack_partner MAV_MISSION_ERROR 0 w.

(** [handle_mission_item] and [handle_mission_item_int] *)
Definition handle_mission_item (int_mode : bool) (msg : mavlink_message) (wp : mavlink_mission_item_t) (w : world) : world :=
  handle_mission_item_both msg wp (on_m (m_set_int int_mode) w).

Definition clear_fence (w : world) : Z * world := update_geofence_count (other_fence_id (w_sh w)) 0 0 w.
Definition clear_safepoints (w : world) : Z * world := update_safepoint_count (other_safepoint_id (w_sh w)) 0 0 w.

Definition handle_mission_clear_all (msg : mavlink_message) (ts tc mission_type : Z) (w : world) : world :=
  if negb (for_us ts tc) then w
  else if is_state MAVLINK_WPM_STATE_IDLE w then
    let w := on_m (m_set_type mission_type) (on_m (m_set_recv (w_now w)) w) in
    let '(ret, w) :=
      if mission_type =? MAV_MISSION_TYPE_MISSION then (PX4_OK, clear_mission w)
      else if mission_type =? MAV_MISSION_TYPE_FENCE then clear_fence w
      else if mission_type =? MAV_MISSION_TYPE_RALLY then clear_safepoints w
      else if mission_type =? MAV_MISSION_TYPE_ALL then
        let w := clear_mission w in
        let '(ret, w) := clear_fence w in
        let '(ret2, w) := clear_safepoints w in
        (if negb (ret2 =? 0) || negb (ret =? 0) then 1 else 0, w)
      else (PX4_OK, w) in
    send_mission_ack msg.(msg_sysid) msg.(msg_compid) (if ret =? PX4_OK then MAV_MISSION_ACCEPTED else MAV_MISSION_ERROR) 0 w
  else w.

Definition handle_message (msg : mavlink_message) (w : world) : world :=
  match msg.(msg_body) with
  | M_ack ts tc type mt => handle_mission_ack msg ts tc type mt w
  | M_set_current ts tc seq => handle_mission_set_current ts tc seq w
  | M_request_list ts tc mt => handle_mission_request_list msg ts tc mt w
  | M_request im ts tc seq mt => handle_mission_request im msg ts tc seq mt w
  | M_count ts tc count mt => handle_mission_count msg ts tc count mt w
  | M_item im wp => handle_mission_item im msg wp w
  | M_clear_all ts tc mt => handle_mission_clear_all msg ts tc mt w
  | M_other => w
  end.

Definition check_active_mission (iridium : bool) (w : world) : world :=
  if iridium then w
  else if w.(w_e).(e_mission_gen) =? (w_rep w).(r_mission_gen) then w
  else
    let w := on_rep (r_set_mission w.(w_e).(e_mission) w.(w_e).(e_mission_gen)) w in
    let ms := (w_rep w).(r_mission) in
    let w := if negb (ms.(ms_geofence_id) =? (w_sh w).(s_crc32).(of_fence))
                || negb (w.(w_m).(m_my_fence_id) =? ms.(ms_fence_dataman_id)) then (load_geofence_stats w).2 else w in
    let w := if negb (ms.(ms_safe_points_id) =? (w_sh w).(s_crc32).(of_rally))
                || negb (w.(w_m).(m_my_safepoint_id) =? ms.(ms_safepoint_dataman_id)) then (load_safepoint_stats w).2 else w in
    if negb (ms.(ms_mission_id) =? (w_sh w).(s_crc32).(of_mission))
       || negb (w.(w_m).(m_my_mission_id) =? ms.(ms_mission_dataman_id))
    then init_offboard_mission ms w else w.

(** The constructor; the subscriptions of [mission_result] and [mission] copy what is there. *)
Definition manager_init (e : env D) : manager :=
  mkManager MAVLINK_WPM_STATE_IDLE MAV_MISSION_TYPE_MISSION 0 0 true 0
    DM_KEY_WAYPOINTS_OFFBOARD_0 DM_KEY_SAFE_POINTS_0 DM_KEY_FENCE_POINTS_0
    (mkTransfer DM_KEY_WAYPOINTS_OFFBOARD_1 0 0 0 (-1) 0 0 (-1) (-1)) (-1) (-1)
    (mkReport MISSION_STATE_UNKNOWN MISSION_MODE_UNKNOWN 0 (-1) false 0 0 e.(e_result) e.(e_result_gen)
       e.(e_mission) e.(e_mission_gen) 0).

Definition MavlinkMissionManager_new (e : env D) : world :=
  let w := mkWorld (manager_init e) e in
  let w :=
    if negb (w_sh w).(s_dataman_init) then
      let w := on_sh (s_set_init true) w in
      let '(r, w) := readSync DM_KEY_MISSION_STATE 0 sizeof_mission_s w in
      let w := match r with
               | Some bytes => (load_safepoint_stats (load_geofence_stats (init_offboard_mission (mission_of_bytes bytes) w)).2).2
               | None => w
               end in
      let s := w_sh w in
      update_active_mission s.(s_mission_id) s.(s_count).(of_mission) s.(s_current_seq) s.(s_crc32).(of_mission) false w
    else w in
  let s := w_sh w in
  on_m (fun m => m_set_my_safepoint s.(s_safepoint_id) (m_set_my_fence s.(s_fence_id) (m_set_my_mission s.(s_mission_id) m))) w.
End manager_code.
