(* ===== verification/ClientStorage.v ===== *)
(** * The storage behind the mission manager

    What the mission manager relies on when it reads and writes items, as laws over
    [MissionStorage], and the proof that the dataman client in front of the dataman server
    keeps them: every operation runs the client's [readSync] or [writeSync] against a server
    that either answers or, when it is busy for too long, does not take the request. *)
From stdpp Require Import base list gmap.
From Stdlib Require Import ZArith Lia.
From S2P Require Import Prelude Dataman DatamanClient MavlinkMission.

(** ** What dataman promises to the manager

    A read changes nothing and gives the bytes that are stored, filled up with zeros; a write
    changes at most its own slot, and a successful one stores its bytes. *)
Class MissionStorageLaws (D : Type) `{MissionStorage D} := {
  stored : D -> Z -> Z -> list Z;
  read_frame item index len d r d' : dm_readSync item index len d = (r, d') -> forall i k, stored d' i k = stored d i k;
  read_value item index len d bytes d' : dm_readSync item index len d = (Some bytes, d') ->
    zlen (stored d item index) <= len /\ bytes = stored d item index ++ zeros (len - zlen (stored d item index));
  write_law item index bytes t d ok d' : dm_writeSync item index bytes t d = (ok, d') ->
    (forall i k, (i, k) <> (item, index) -> stored d' i k = stored d i k) /\
    (ok = true -> stored d' item index = bytes);
}.

(** While the storage is healthy, valid operations succeed and it stays healthy. *)
Class HealthyStorage (D : Type) `{MissionStorageLaws D} (sizeof_mission_s NUM_MISSION_ITEMS : Z) := {
  healthy : D -> Prop;
  healthy_read item index len d : healthy d -> slot_ok NUM_MISSION_ITEMS item index ->
    zlen (stored d item index) <= len <= slot_size sizeof_mission_s item ->
    exists bytes d', dm_readSync item index len d = (Some bytes, d') /\ healthy d';
  healthy_write item index bytes t d : healthy d -> slot_ok NUM_MISSION_ITEMS item index ->
    0 < zlen bytes <= slot_size sizeof_mission_s item -> 0 < t -> exists d', dm_writeSync item index bytes t d = (true, d') /\ healthy d';
}.

(** ** The client *)
Section client_storage.
Context (sizeof_mission_s NUM_MISSION_ITEMS : Z) (junk : dataman_request_s) (client : DatamanClient) (now : Z).
Context (mission_fits : 0 < sizeof_mission_s <= sizeof_data) (junk_len : zlen junk.(rq_data) = sizeof_data).
Context (client_ok : 0 < _client_id client).

#[local] Instance server : DmServer (store * Z) := spec_request sizeof_mission_s NUM_MISSION_ITEMS.

(** The server's items and the number of the next client; which of the next requests the server
    takes in time (all, when the list is used up). *)
Record client_store := mkClientStore { cs_srv : store * Z; cs_fate : list bool }.

Definition next_fate (d : client_store) : bool * list bool :=
  match d.(cs_fate) with [] => (true, []) | served :: rest => (served, rest) end.

Definition client_bus (served : bool) (srv : store * Z) : bus (store * Z) :=
  mkBus srv None None None now (if served then [mkWait [Server_takes; Server_answers] false] else []) [].

Definition client_read (item index len : Z) (d : client_store) : option (list Z) * client_store :=
  let '(served, rest) := next_fate d in
  match DatamanClient.readSync sizeof_mission_s junk client item index (zeros len) len DM_TIMEOUT (client_bus served d.(cs_srv)) with
  | Some (true, buffer, b) => (Some buffer, mkClientStore b.(b_srv) rest)
  | Some (false, _, b) => (None, mkClientStore b.(b_srv) rest)
  | None => (None, mkClientStore d.(cs_srv) rest)
  end.

Definition client_write (item index : Z) (bytes : list Z) (t : Z) (d : client_store) : bool * client_store :=
  let '(served, rest) := next_fate d in
  match DatamanClient.writeSync sizeof_mission_s junk client item index bytes (zlen bytes) t (client_bus served d.(cs_srv)) with
  | Some (ok, b) => (ok, mkClientStore b.(b_srv) rest)
  | None => (false, mkClientStore d.(cs_srv) rest)
  end.

#[local] Instance client_storage : MissionStorage client_store := {|
  dm_readSync := client_read;
  dm_writeSync := client_write;
|}.

(** *** One exchange *)
Lemma unserved_loop fuel request start timeout response elapsed b success rs b' :
  b_in_service b = None -> b_response b = None -> b_script b = [] ->
  sync_loop fuel request start timeout response elapsed b = Some (success, rs, b') -> success = false /\ b_srv b' = b_srv b.
Proof.
  revert response elapsed b. induction fuel as [|fuel IH]; intros response elapsed b Hi Hr Hs Hl; [done|].
  cbn [sync_loop] in Hl. case_if_in Hl; [by simplify_eq|]. unfold poll in Hl. rewrite Hs in Hl. cbn [w_events w_error foldl happen b_response] in Hl.
  rewrite Hr in Hl. change (0 <? 0) with false in Hl. change (0 =? 0) with true in Hl. cbn iota in Hl.
  by apply IH in Hl.
Qed.

Lemma exchange_once served request timeout srv :
  rq_request_type request <> DM_GET_ID ->
  exists rs b', syncHandler request no_response now timeout (client_bus served srv) = Some (served && (0 <? timeout), rs, b') /\
    (if served && (0 <? timeout) then server_handle request srv = (rs, b_srv b') else b_srv b' = srv).
Proof.
  intros Ht. destruct (0 <? timeout) eqn:Hpos; [apply Z.ltb_lt in Hpos|].
  2:{ rewrite andb_false_r. unfold syncHandler. cbn [client_bus b_now]. rewrite elapsed_from by lia. rewrite Z.sub_diag.
      set (b0 := publish _ _). assert (Hf : exists n, sync_fuel b0 timeout = S n) by
        (exists (length (b_script b0) + Z.to_nat (timeout / 100000) + 1)%nat; unfold sync_fuel; lia).
      destruct Hf as [n ->]. cbn [sync_loop]. rewrite Hpos. cbn [negb]. eauto. }
  rewrite andb_true_r. destruct served.
  - unfold syncHandler. cbn [client_bus b_now]. rewrite elapsed_from by lia. rewrite Z.sub_diag.
    set (b0 := publish _ _). destruct (server_handle request srv) as [rs srv'] eqn:E.
    assert (Hp : poll b0 = (1, mkBus srv' None None (Some rs) now [] [(request, rs)])) by (unfold poll, b0; cbn; by rewrite E).
    assert (Hf : exists n, sync_fuel b0 timeout = S n) by (exists (length (b_script b0) + Z.to_nat (timeout / 100000) + 1)%nat; unfold sync_fuel; lia).
    destruct Hf as [n ->]. cbn [sync_loop]. rewrite (proj2 (Z.ltb_lt 0 timeout)) by lia. cbn [negb]. rewrite Hp.
    change (1 <? 0) with false. change (1 =? 0) with false. cbn [take_response b_response].
    pose proof (spec_echoes sizeof_mission_s NUM_MISSION_ITEMS request srv) as Hec. cbv zeta in Hec.
    change (store_server sizeof_mission_s NUM_MISSION_ITEMS) with server in Hec. rewrite E in Hec. cbn [fst] in Hec.
    destruct Hec as (E1 & E2 & E3 & E4). unfold sync_matches. rewrite E1, E2, E3, (E4 Ht), !Z.eqb_refl. cbn [andb].
    eexists rs, _. split; [done|]. done.
  - destruct (syncHandler_returns request no_response timeout (client_bus false srv)) as [[[success rs] b'] Hs];
      [apply Forall_nil_2|lia|]. cbn [client_bus b_now] in Hs. rewrite Hs.
    unfold syncHandler in Hs. apply unserved_loop in Hs as [-> Hb]; [|done..]. by exists rs, b'.
Qed.

(** *** What the client's operations do *)
Lemma item_size_range item size : item_size sizeof_mission_s item = Some size ->
  0 <= item < DM_KEY_NUM_KEYS /\ size = slot_size sizeof_mission_s item.
Proof.
  intros Hs. assert (Hi : 0 <= item < DM_KEY_NUM_KEYS).
  { apply zlookup_Some_lt in Hs. exact Hs. }
  split; [done|]. rewrite item_size_ok in Hs by done. congruence.
Qed.

(** A write reaches the server, or nothing happens. *)
Lemma client_write_spec item index bytes t d :
  let '(ok, d') := client_write item index bytes t d in
  let st := spec_write sizeof_mission_s NUM_MISSION_ITEMS item index bytes (zlen bytes) (cs_srv d).1 in
  cs_fate d' = (next_fate d).2 /\
  (if (next_fate d).1 && (0 <? t) && (zlen bytes <=? slot_size sizeof_mission_s item) && (0 <=? item) && (item <? DM_KEY_NUM_KEYS)
   then ok = (0 <? st.1) /\ (cs_srv d').1 = st.2 else ok = false /\ (cs_srv d').1 = (cs_srv d).1).
Proof.
  unfold client_write. destruct (next_fate d) as [served rest]. cbn [fst snd].
  unfold DatamanClient.writeSync. rewrite (proj2 (Z.eqb_neq _ _)) by (unfold CLIENT_ID_NOT_SET; lia).
  destruct (item_size sizeof_mission_s item) as [size|] eqn:Hsz.
  2:{ split; [done|]. destruct (decide (0 <= item < DM_KEY_NUM_KEYS)) as [Hi|Hi]; [by rewrite item_size_ok in Hsz|].
      by rewrite (proj2 (andb_false_iff _ (item <? _))) by (rewrite !andb_false_iff, !Z.ltb_ge, !Z.leb_gt; lia). }
  destruct (item_size_range item size Hsz) as [Hi ->]. cbn [mbind option_bind].
  rewrite (proj2 (Z.leb_le 0 item)), (proj2 (Z.ltb_lt item _)), !andb_true_r by lia.
  case_if; [rewrite (proj2 (Z.leb_gt _ _)), andb_false_r by lia; done|]. rewrite (proj2 (Z.leb_le _ _)), andb_true_r by lia.
  pose proof (slot_size_range _ mission_fits item Hi) as Hr. pose proof (zlen_nonneg bytes).
  rewrite mem_read_Some by lia. cbn [mbind option_bind].
  rewrite slice_full by done. rewrite mem_write_Some by lia. cbn [mbind option_bind]. rewrite item_byte by done.
  cbn [client_bus b_now]. set (rq := mkRequest _ _ _ _ _ _ _).
  destruct (exchange_once served rq t (cs_srv d)) as (rs & b' & -> & Hb); [done|].
  cbn [mbind option_bind cs_fate cs_srv]. split; [done|]. destruct (served && (0 <? t)); [|by rewrite Hb].
  destruct (cs_srv d) as [m clients]. unfold server_handle, server, spec_request in Hb. cbn [rq rq_request_type rq_item rq_index rq_client_id rq_data rq_data_length] in Hb.
  change (DM_WRITE =? DM_GET_ID) with false in Hb. change (DM_WRITE =? DM_WRITE) with true in Hb. cbn iota zeta in Hb.
  assert (Hd : forall c st, spec_write sizeof_mission_s NUM_MISSION_ITEMS item index (splice 0 bytes c) (zlen bytes) st =
    spec_write sizeof_mission_s NUM_MISSION_ITEMS item index bytes (zlen bytes) st).
  { intros c st. unfold spec_write. do 2 f_equal. unfold splice. rewrite take_0. cbn [app]. unfold zlen. rewrite Nat2Z.id.
    by rewrite take_app_length, firstn_all. }
  rewrite Hd in Hb. destruct (spec_write _ _ _ _ _ _ _) as [result m']. cbn [fst snd] in *. injection Hb as <- <-. cbn [rs_status].
  split; [|done]. by destruct (0 <? result).
Qed.

Lemma read_response item index len m clients t : let v := contents m item index in
  let '(rs, srv) := server_handle (mkRequest t (_client_id client) DM_READ item index (rq_data junk) len) (m, clients) in
  srv.1 = m /\
  (if dm_valid NUM_MISSION_ITEMS item index && (len <=? slot_size sizeof_mission_s item) && (zlen v <=? len)
   then rs_status rs = STATUS_SUCCESS /\ rs_data rs = v ++ zeros (sizeof_data - zlen v) else rs_status rs = STATUS_FAILURE_READ_FAILED).
Proof.
  intros v. unfold server_handle, server, spec_request. cbn [rq_request_type rq_item rq_index rq_client_id rq_data rq_data_length].
  change (DM_READ =? DM_GET_ID) with false. change (DM_READ =? DM_WRITE) with false. change (DM_READ =? DM_READ) with true. cbn iota zeta.
  unfold spec_read. fold v. pose proof (zlen_nonneg v). rewrite !Z.leb_antisym.
  destruct (dm_valid NUM_MISSION_ITEMS item index); cbn [negb andb]; [|done].
  destruct (slot_size sizeof_mission_s item <? len); cbn [negb andb]; [done|].
  destruct (len <? zlen v); cbn [negb]; [done|]. by rewrite (proj2 (Z.leb_le 0 (zlen v))) by lia.
Qed.

(** A read gives the item, or fails; the items stay. *)
Lemma client_read_spec item index len d :
  let '(r, d') := client_read item index len d in
  let v := contents (cs_srv d).1 item index in
  cs_fate d' = (next_fate d).2 /\ (cs_srv d').1 = (cs_srv d).1 /\
  r = (if (next_fate d).1 && (len <=? slot_size sizeof_mission_s item) && (0 <=? item) && dm_valid NUM_MISSION_ITEMS item index
     && (zlen v <=? len) then Some (v ++ zeros (len - zlen v)) else None).
Proof.
  unfold client_read. destruct (next_fate d) as [served rest]. cbn [fst snd].
  unfold DatamanClient.readSync. rewrite (proj2 (Z.eqb_neq _ _)) by (unfold CLIENT_ID_NOT_SET; lia).
  destruct (item_size sizeof_mission_s item) as [size|] eqn:Hsz.
  2:{ cbn. split_and!; [done..|]. destruct (decide (0 <= item < DM_KEY_NUM_KEYS)) as [Hi|Hi]; [by rewrite item_size_ok in Hsz|].
      unfold dm_valid. destruct (0 <=? item) eqn:?, (item <? DM_KEY_NUM_KEYS) eqn:?; rewrite ?andb_false_r; try done. lia. }
  destruct (item_size_range item size Hsz) as [Hi ->]. cbn [mbind option_bind]. rewrite (proj2 (Z.leb_le 0 item)), andb_true_r by lia.
  case_if; [rewrite (proj2 (Z.leb_gt len _)), andb_false_r by lia; by cbn|].
  rewrite (proj2 (Z.leb_le len _)), andb_true_r by lia.
  pose proof (slot_size_range _ mission_fits item Hi) as Hr. rewrite item_byte by done. cbn [client_bus b_now]. set (rq := mkRequest _ _ _ _ _ _ _).
  destruct (exchange_once served rq DM_TIMEOUT (cs_srv d)) as (rs & b' & -> & Hb); [done|]. rewrite andb_true_r in *.
  cbn [mbind option_bind]. destruct served; cbn [negb andb]; [|by rewrite Hb].
  destruct (cs_srv d) as [m clients]. cbn [fst]. pose proof (read_response item index len m clients now) as Hrr. cbv zeta in Hrr.
  destruct (server_handle _ _) as [rs0 srv0] in Hrr, Hb. injection Hb as -> ->. destruct Hrr as [Hm Hst].
  rewrite (proj2 (Z.leb_le len _)), andb_true_r in Hst by lia. set (v := contents m item index) in *.
  destruct (dm_valid NUM_MISSION_ITEMS item index && (zlen v <=? len)) eqn:Hc; [|by rewrite Hst; cbn].
  destruct Hst as [-> Hd]. apply andb_true_iff in Hc as [_ Hc]. apply Z.leb_le in Hc. pose proof (zlen_nonneg v).
  change (STATUS_SUCCESS =? STATUS_SUCCESS) with true. cbn [negb].
  rewrite mem_read_Some by (rewrite ?Hd, ?zlen_app, ?zlen_zeros; lia). cbn [mbind option_bind].
  rewrite mem_write_Some by (rewrite ?zlen_slice, ?Hd, ?zlen_app, ?zlen_zeros by (rewrite ?Hd, ?zlen_app, ?zlen_zeros; lia); lia). cbn [mbind option_bind].
  split_and!; [done|done|]. f_equal. rewrite Hd, slice_value by lia. unfold splice. cbn [Z.to_nat]. rewrite take_0. cbn [app].
  rewrite drop_ge, app_nil_r; [done|]. apply Nat2Z.inj_le. change (zlen (zeros len) <= 0 + zlen (v ++ zeros (len - zlen v))).
  rewrite zlen_app, !zlen_zeros. lia.
Qed.

#[local] Instance client_laws : MissionStorageLaws client_store.
Proof.
  refine {| stored d := contents (cs_srv d).1 |}.
  - intros item index len d r d' E i k. pose proof (client_read_spec item index len d) as Hs. cbn in E. rewrite E in Hs.
    by destruct Hs as (_ & -> & _).
  - intros item index len d bytes d' E. pose proof (client_read_spec item index len d) as Hs. cbn in E. rewrite E in Hs.
    destruct Hs as (_ & _ & Hr). case_if_in Hr; [|done]. injection Hr as ->. split; [lia|done].
  - intros item index bytes t d ok d' E. pose proof (client_write_spec item index bytes t d) as Hs. cbn in E. rewrite E in Hs.
    cbv zeta in Hs. destruct Hs as (_ & Hs). case_if_in Hs; destruct Hs as [-> ->]; [|done].
    unfold spec_write. case_if; [done|]. case_if; [done|]. cbn [fst snd]. split.
    + intros i k Hne. rewrite contents_insert. by rewrite decide_False by congruence.
    + intros _. rewrite contents_insert, decide_True by done. unfold zlen. rewrite Nat2Z.id. apply firstn_all.
Defined.

#[local] Instance client_healthy : HealthyStorage client_store sizeof_mission_s NUM_MISSION_ITEMS.
Proof.
  refine {| healthy d := cs_fate d = [] |}.
  - intros item index len d Hd Hslot Hlen. pose proof (client_read_spec item index len d) as Hs.
    cbn [dm_readSync client_storage]. destruct (client_read item index len d) as [r d']. cbv zeta in Hs. destruct Hs as (Hf & _ & ->).
    unfold next_fate in *. rewrite Hd in *. cbn [stored client_laws] in Hlen.
    rewrite (slot_ok_valid _ _ _ Hslot), !(proj2 (Z.leb_le _ _)) by (lia || apply Hslot). by eexists _, d'.
  - intros item index bytes t d Hd Hslot Hlen Ht. pose proof (client_write_spec item index bytes t d) as Hs.
    cbn [dm_writeSync client_storage]. destruct (client_write item index bytes t d) as [ok d']. cbv zeta in Hs. destruct Hs as (Hf & Hs).
    unfold next_fate in *. rewrite Hd in *. destruct Hslot as [Hi Hk].
    rewrite !(proj2 (Z.leb_le _ _)), !(proj2 (Z.ltb_lt _ _)) in Hs by lia. cbn [andb] in Hs. destruct Hs as [-> Hs].
    exists d'. split; [|exact Hf]. f_equal. unfold spec_write. rewrite (slot_ok_valid _ item index) by done. cbn [negb].
    case_if; [lia|]. cbn. lia.
Defined.
End client_storage.

(** ** An instance *)
Lemma sample_mission_fits : 0 < 40 <= sizeof_data.
Proof. unfold sizeof_data. lia. Qed.
Lemma sample_client_ok : 0 < _client_id sample_client.
Proof. done. Qed.

Definition sample_storage : MissionStorage client_store := client_storage 40 4 sample_junk sample_client 1000.
Definition sample_laws : @MissionStorageLaws client_store sample_storage :=
  client_laws 40 4 sample_junk sample_client 1000 sample_mission_fits eq_refl sample_client_ok.
Definition sample_healthy : @HealthyStorage client_store sample_storage sample_laws 40 4 :=
  client_healthy 40 4 sample_junk sample_client 1000 sample_mission_fits eq_refl sample_client_ok.
