(* ===== verification/MissionUpload.v ===== *)
(** * Uploads of missions are atomic

    Several links, each with its mission manager, share the static members and the storage.
    Every handler of a manager is shown to make one of a few kinds of steps ([vstep]) on the
    part of the state that matters for missions ([view]); from these kinds alone it follows
    that the active mission is always one that was uploaded completely. *)
From stdpp Require Import base list gmap.
From Stdlib Require Import ZArith Lia.
From S2P Require Import Prelude Float32 FloatOps Crc Dataman MissionItem MavlinkMission ClientStorage.

Definition waypoint_key (id : Z) : Prop := id = DM_KEY_WAYPOINTS_OFFBOARD_0 \/ id = DM_KEY_WAYPOINTS_OFFBOARD_1.

Section upload.
Context {D : Type} `{MissionStorageLaws D}.
Context (own_sysid own_compid NUM_MISSION_ITEMS sizeof_mission_s : Z).
Context (mission_bytes : mission_s -> list Z) (mission_of_bytes : list Z -> mission_s) (stack : list Z).
Implicit Types (w : world (D := D)) (m : manager) (e : env D) (d : D).

Notation handle_message := (handle_message own_sysid own_compid NUM_MISSION_ITEMS mission_bytes stack).
Notation send := (send (D := D) NUM_MISSION_ITEMS).

(** ** The part of the state that matters *)
Record view := mkView {
  v_id : Z; v_count : Z; v_crc : Z;      (* the active mission *)
  v_progress : bool;
  v_state : wpm_state; v_type : Z; v_tr : transfer;
  v_topic : Z * Z * Z;                   (* the active mission on the topic *)
  v_dm : D;
}.

Definition topic_of (ms : mission_s) : Z * Z * Z := (ms.(ms_mission_dataman_id), ms.(ms_count), ms.(ms_mission_id)).

Definition view_of (w : world) : view :=
  let s := w_sh w in
  mkView s.(s_mission_id) s.(s_count).(of_mission) s.(s_crc32).(of_mission) s.(s_transfer_in_progress)
    w.(w_m).(m_state) w.(w_m).(m_mission_type) (w_tr w) (topic_of w.(w_e).(e_mission)) w.(w_e).(e_dm).

(** The waypoints of two storages are the same. *)
Definition same_items (d d' : D) : Prop := forall i k, waypoint_key i -> stored d' i k = stored d i k.

#[local] Instance same_items_preorder : PreOrder same_items.
Proof. split; [by intros d i k|]. intros d1 d2 d3 H1 H2 i k Hi. by rewrite H2, H1. Qed.

(** Nothing about missions changes. *)
Record calm (v v' : view) : Prop := {
  calm_id : v_id v' = v_id v;
  calm_count : v_count v' = v_count v;
  calm_crc : v_crc v' = v_crc v;
  calm_progress : v_progress v' = v_progress v;
  calm_topic : v_topic v = (v_id v, v_count v, v_crc v) -> v_topic v' = (v_id v', v_count v', v_crc v');
  calm_items : same_items (v_dm v) (v_dm v');
}.

#[local] Instance calm_preorder : PreOrder calm.
Proof.
  split; [intros v; by constructor|]. intros v1 v2 v3 [] []. constructor; [congruence..|auto|by etrans].
Qed.

(** Neither does the state of the transfer. *)
Record quiet_step (w w' : world) : Prop := {
  qs_calm : calm (view_of w) (view_of w');
  qs_state : w'.(w_m).(m_state) = w.(w_m).(m_state);
  qs_type : w'.(w_m).(m_mission_type) = w.(w_m).(m_mission_type);
  qs_tr : w_tr w' = w_tr w;
  qs_int : w'.(w_m).(m_int_mode) = w.(w_m).(m_int_mode);
  qs_now : w_now w' = w_now w;
}.

#[local] Instance quiet_preorder : PreOrder quiet_step.
Proof.
  split; [intros w; by constructor|]. intros w1 w2 w3 [] []. constructor; [by etrans|congruence..].
Qed.

Ltac quiet_now := constructor; [constructor; [reflexivity..|done|reflexivity]|reflexivity..].

Lemma quiet_emit s w : quiet_step w (emit s w).
Proof. quiet_now. Qed.
Lemma quiet_rep f w : quiet_step w (on_rep f w).
Proof. quiet_now. Qed.
Lemma quiet_recv v w : quiet_step w (on_m (m_set_recv v) w).
Proof. quiet_now. Qed.
Lemma quiet_sent v w : quiet_step w (on_m (m_set_sent v) w).
Proof. quiet_now. Qed.
Lemma quiet_land a b w : quiet_step w (on_m (m_set_land a b) w).
Proof. quiet_now. Qed.
Lemma quiet_my_mission a w : quiet_step w (on_m (m_set_my_mission a) w).
Proof. quiet_now. Qed.
Lemma quiet_my_fence a w : quiet_step w (on_m (m_set_my_fence a) w).
Proof. quiet_now. Qed.
Lemma quiet_my_safepoint a w : quiet_step w (on_m (m_set_my_safepoint a) w).
Proof. quiet_now. Qed.
Lemma quiet_fence_id a w : quiet_step w (on_sh (s_set_fence_id a) w).
Proof. quiet_now. Qed.
Lemma quiet_safepoint_id a w : quiet_step w (on_sh (s_set_safepoint_id a) w).
Proof. quiet_now. Qed.
Lemma quiet_current_seq a w : quiet_step w (on_sh (s_set_current_seq a) w).
Proof. quiet_now. Qed.
Lemma quiet_count_fence a w : quiet_step w (on_sh (fun s => s_set_count (set_fence a s.(s_count)) s) w).
Proof. quiet_now. Qed.
Lemma quiet_crc_fence a w : quiet_step w (on_sh (fun s => s_set_crc32 (set_fence a s.(s_crc32)) s) w).
Proof. quiet_now. Qed.
Lemma quiet_count_rally a w : quiet_step w (on_sh (fun s => s_set_count (set_rally a s.(s_count)) s) w).
Proof. quiet_now. Qed.
Lemma quiet_crc_rally a w : quiet_step w (on_sh (fun s => s_set_crc32 (set_rally a s.(s_crc32)) s) w).
Proof. quiet_now. Qed.
Lemma quiet_fs_error w : quiet_step w (count_fs_error w).
Proof. quiet_now. Qed.
Lemma quiet_ack a b c o w : quiet_step w (send_mission_ack a b c o w).
Proof. quiet_now. Qed.
Lemma quiet_ack_partner c o w : quiet_step w (ack_partner c o w).
Proof. quiet_now. Qed.
Lemma quiet_count_msg a b c t o w : quiet_step w (send_mission_count a b c t o w).
Proof. quiet_now. Qed.

Lemma quiet_dm_same d' w :
  (forall i k, waypoint_key i -> stored d' i k = stored (e_dm (w_e w)) i k) -> quiet_step w (on_e (e_set_dm d') w).
Proof. intros Hd. constructor; [constructor; [reflexivity..|done|exact Hd]|reflexivity..]. Qed.

Lemma quiet_read item index len w : quiet_step w (MavlinkMission.readSync item index len w).2.
Proof.
  unfold MavlinkMission.readSync. destruct (dm_readSync _ _ _ _) as [r d'] eqn:E. apply quiet_dm_same.
  intros i k _. by apply (read_frame _ _ _ _ _ _ E).
Qed.

Lemma quiet_write item index bytes t w : ~ waypoint_key item ->
  quiet_step w (MavlinkMission.writeSync item index bytes t w).2.
Proof.
  intros Hi. unfold MavlinkMission.writeSync. destruct (dm_writeSync _ _ _ _ _) as [r d'] eqn:E. apply quiet_dm_same.
  intros i k Hk. apply (write_law _ _ _ _ _ _ _ E). intros [= -> ->]. done.
Qed.

Create HintDb quiet.
Hint Resolve quiet_emit quiet_rep quiet_recv quiet_sent quiet_land quiet_my_mission quiet_my_fence quiet_my_safepoint
  quiet_fence_id quiet_safepoint_id quiet_current_seq quiet_count_fence quiet_crc_fence quiet_count_rally quiet_crc_rally
  quiet_fs_error quiet_ack quiet_ack_partner quiet_count_msg : quiet.

(** Peel the last operation off the world on the right. *)
Ltac quiet_peel := etrans; [|solve [auto with quiet nocore]].
Ltac quiet_steps := repeat first [reflexivity | case_if | quiet_peel].

Lemma quiet_state w : quiet_step w (update_mission_state w).
Proof. unfold update_mission_state. cbv zeta. quiet_steps. Qed.
Hint Resolve quiet_state : quiet.

Lemma quiet_current seq w : quiet_step w (send_mission_current seq w).
Proof. unfold send_mission_current. cbv zeta. quiet_steps. Qed.
Hint Resolve quiet_current : quiet.

Lemma quiet_request a b c w : quiet_step w (send_mission_request NUM_MISSION_ITEMS a b c w).
Proof. unfold send_mission_request. cbv zeta. quiet_steps. Qed.

Lemma quiet_request_current w : quiet_step w (request_current_item NUM_MISSION_ITEMS w).
Proof. apply quiet_request. Qed.

Lemma quiet_reached a w : quiet_step w (send_mission_item_reached a w).
Proof. apply quiet_emit. Qed.
Hint Resolve quiet_request quiet_request_current quiet_reached : quiet.

(** Remember what a read or a write does, and name its results. *)
Ltac after_read Hq r w' :=
  match goal with |- context [MavlinkMission.readSync ?a ?b ?c ?x] =>
    pose proof (quiet_read a b c x) as Hq; destruct (MavlinkMission.readSync a b c x) as [r w'] end; cbn [snd] in Hq.
Ltac after_write Hk Hq r w' :=
  match goal with |- context [MavlinkMission.writeSync ?a ?b ?c ?t ?x] =>
    pose proof (quiet_write a b c t x Hk) as Hq; destruct (MavlinkMission.writeSync a b c t x) as [r w'] end; cbn [snd] in Hq.

Lemma quiet_read_item seq w : quiet_step w (read_mission_item seq w).2.
Proof.
  unfold read_mission_item. cbv zeta. repeat case_if; try reflexivity.
  all: after_read Hq r w'; exact Hq.
Qed.

Lemma quiet_send_item a b c w : quiet_step w (send_mission_item a b c w).
Proof.
  unfold send_mission_item. pose proof (quiet_read_item c w) as Hq. destruct (read_mission_item c w) as [r w1].
  destruct r as [it|]; [|by quiet_steps]. destruct (format_mavlink_mission_item _ _ _ _) as [x wp]. by quiet_steps.
Qed.

Lemma quiet_load_geofence w : quiet_step w (load_geofence_stats w).2.
Proof.
  unfold load_geofence_stats. after_read Hq r w1. destruct r; cbn [snd]; [|exact Hq]. cbv zeta. do 4 quiet_peel. exact Hq.
Qed.

Lemma quiet_load_safepoint w : quiet_step w (load_safepoint_stats w).2.
Proof.
  unfold load_safepoint_stats. after_read Hq r w1. destruct r; cbn [snd]; [|exact Hq]. cbv zeta. do 4 quiet_peel. exact Hq.
Qed.
Hint Resolve quiet_send_item quiet_load_geofence quiet_load_safepoint : quiet.

Lemma quiet_republish w : quiet_step w (republish_mission w).
Proof. quiet_now. Qed.
Hint Resolve quiet_republish : quiet.

Lemma fence_key_not_waypoint : ~ waypoint_key DM_KEY_FENCE_POINTS_STATE.
Proof. by intros [Hk|Hk]. Qed.
Lemma safepoint_key_not_waypoint : ~ waypoint_key DM_KEY_SAFE_POINTS_STATE.
Proof. by intros [Hk|Hk]. Qed.
Lemma state_key_not_waypoint : ~ waypoint_key DM_KEY_MISSION_STATE.
Proof. by intros [Hk|Hk]. Qed.

Lemma quiet_update_geofence id c k w : quiet_step w (update_geofence_count stack id c k w).2.
Proof.
  unfold update_geofence_count. set (w0 := on_m _ _). assert (Hw0 : quiet_step w w0) by (unfold w0; quiet_steps).
  after_write fence_key_not_waypoint Hq r w1.
  destruct r; cbn [snd] in *; cbv zeta; repeat quiet_peel; by etrans.
Qed.

Lemma quiet_update_safepoint id c k w : quiet_step w (update_safepoint_count stack id c k w).2.
Proof.
  unfold update_safepoint_count. set (w0 := on_m _ _). assert (Hw0 : quiet_step w w0) by (unfold w0; quiet_steps).
  after_write safepoint_key_not_waypoint Hq r w1.
  destruct r; cbn [snd] in *; cbv zeta; repeat quiet_peel; by etrans.
Qed.
Hint Resolve quiet_update_geofence quiet_update_safepoint : quiet.

(** [update_active_mission] sets the active mission and publishes it. *)
Record activates (id count crc : Z) (w w' : world) : Prop := {
  act_id : v_id (view_of w') = id;
  act_count : v_count (view_of w') = count;
  act_crc : v_crc (view_of w') = crc;
  act_topic : v_topic (view_of w') = (id, count, crc);
  act_progress : v_progress (view_of w') = v_progress (view_of w);
  act_state : w'.(w_m).(m_state) = w.(w_m).(m_state);
  act_type : w'.(w_m).(m_mission_type) = w.(w_m).(m_mission_type);
  act_tr : w_tr w' = w_tr w;
  act_items : same_items (e_dm (w_e w)) (e_dm (w_e w'));
}.

Lemma activates_update id count seq crc b w :
  activates id count crc w (update_active_mission mission_bytes id count seq crc b w).
Proof.
  unfold update_active_mission, update_active_mission_locked. cbv zeta. destruct b; [|by constructor].
  set (w0 := on_sh _ _). unfold MavlinkMission.writeSync. destruct (dm_writeSync _ _ _ _ _) as [ok d'] eqn:E.
  constructor; try reflexivity. cbn. intros i k Hk. apply (write_law _ _ _ _ _ _ _ E).
  intros [= -> ->]. by apply state_key_not_waypoint.
Qed.

(** A quiet step after it or before it. *)
Lemma activates_quiet_l id count crc w1 w2 w3 : quiet_step w1 w2 -> activates id count crc w2 w3 -> activates id count crc w1 w3.
Proof.
  intros [[? ? ? Hp ? Hi] Hs Ht Htr ? ?] []. constructor; try done; [by etrans|congruence..|by etrans].
Qed.
Lemma activates_quiet_r id count crc w1 w2 w3 : activates id count crc w1 w2 -> quiet_step w2 w3 -> activates id count crc w1 w3.
Proof.
  intros [Hi Hc Hk Ht Hp Hs Hty Htr Hd] [[Qi Qc Qk Qp Qt Qd] Qs Qty Qtr _ _].
  constructor; try congruence; [|by etrans]. rewrite Qt; [congruence|]. by rewrite Ht, Hi, Hc, Hk.
Qed.

(** ** The kinds of steps *)

(** The transfer in progress on a link that receives. *)
Definition receiving (v : view) : Prop := v_state v = MAVLINK_WPM_STATE_GETLIST.
Definition receives_mission (v : view) : Prop := receiving v /\ v_type v = MAV_MISSION_TYPE_MISSION.

Record getlist_ok (v : view) : Prop := {
  gl_seq : 0 <= tr_seq (v_tr v) < tr_count (v_tr v);
  gl_count : tr_count (v_tr v) < 2 ^ 16;
  gl_crc : 0 <= tr_crc32 (v_tr v) < 2 ^ 32;
  gl_mission : v_type v = MAV_MISSION_TYPE_MISSION -> waypoint_key (tr_dataman_id (v_tr v));
  gl_other : v_type v <> MAV_MISSION_TYPE_MISSION -> ~ waypoint_key (tr_dataman_id (v_tr v));
}.
Definition view_ok (v : view) : Prop := receiving v -> getlist_ok v.

(** The active mission, and the flag, stay as they are. *)
Record keeps_mission (v v' : view) : Prop := {
  km_id : v_id v' = v_id v;
  km_count : v_count v' = v_count v;
  km_crc : v_crc v' = v_crc v;
  km_topic : v_topic v = (v_id v, v_count v, v_crc v) -> v_topic v' = (v_id v', v_count v', v_crc v');
}.

(** The items are the same outside one slot, which holds the given item. *)
Definition stores_item (v v' : view) (it : mission_item_s) : Prop :=
  let t := v_tr v in
  waypoint_key (tr_dataman_id t) /\
  stored (v_dm v') (tr_dataman_id t) (tr_seq t) = mission_item_bytes it /\
  forall i k, waypoint_key i -> (i, k) <> (tr_dataman_id t, tr_seq t) -> stored (v_dm v') i k = stored (v_dm v) i k.

(** The message is an item that the parser accepts. *)
Definition item_message (msg : option mavlink_message) (wp : mavlink_mission_item_t) (it : mission_item_s) : Prop :=
  exists sender im mask, msg = Some sender /\ msg_body sender = M_item im wp /\
    parse_mavlink_mission_item im mask wp = inr it.

(** The message asks to delete the mission. *)
Definition clear_message (msg : option mavlink_message) : Prop :=
  exists sender ts tc mt, msg = Some sender /\
    (msg_body sender = M_clear_all ts tc mt \/ msg_body sender = M_count ts tc 0 mt).

Inductive vstep (msg : option mavlink_message) (v v' : view) : Prop :=
  | vs_calm : calm v v' ->
      (receiving v -> receiving v' /\ v_tr v' = v_tr v /\ v_type v' = v_type v) -> (~ receiving v -> ~ receiving v') -> vstep msg v v'
  | vs_clear : ~ receiving v -> ~ receiving v' -> clear_message msg -> waypoint_key (v_id v') -> v_count v' = 0 -> v_crc v' = 0 ->
      v_topic v' = (v_id v', 0, 0) -> v_progress v' = v_progress v -> same_items (v_dm v) (v_dm v') -> vstep msg v v'
  | vs_begin : ~ receiving v -> receiving v' -> v_progress v = false -> v_progress v' = true -> keeps_mission v v' ->
      same_items (v_dm v) (v_dm v') -> getlist_ok v' -> tr_seq (v_tr v') = 0 -> tr_crc32 (v_tr v') = 0 ->
      (v_type v' = MAV_MISSION_TYPE_MISSION -> tr_dataman_id (v_tr v') <> v_id v') -> vstep msg v v'
  | vs_abort : receiving v -> ~ receiving v' -> v_progress v' = false -> keeps_mission v v' ->
      (forall i k, waypoint_key i -> ~ (receives_mission v /\ i = tr_dataman_id (v_tr v) /\ k = tr_seq (v_tr v)) ->
         stored (v_dm v') i k = stored (v_dm v) i k) -> vstep msg v v'
  | vs_item wp it : receives_mission v -> receives_mission v' -> item_message msg wp it -> stores_item v v' it ->
      keeps_mission v v' -> v_progress v' = v_progress v -> tr_dataman_id (v_tr v') = tr_dataman_id (v_tr v) ->
      tr_count (v_tr v') = tr_count (v_tr v) -> tr_seq (v_tr v') = tr_seq (v_tr v) + 1 -> tr_seq (v_tr v') < tr_count (v_tr v') ->
      tr_crc32 (v_tr v') = crc32_for_mission_item wp (tr_crc32 (v_tr v)) -> vstep msg v v'
  | vs_other : receiving v -> receiving v' -> v_type v <> MAV_MISSION_TYPE_MISSION -> v_type v' = v_type v -> calm v v' ->
      getlist_ok v' -> vstep msg v v'
  | vs_commit wp it : receives_mission v -> ~ receiving v' -> item_message msg wp it -> stores_item v v' it ->
      v_progress v' = false -> tr_count (v_tr v) = tr_seq (v_tr v) + 1 ->
      let crc := crc32_for_mission_item wp (tr_crc32 (v_tr v)) in
      (crc = v_crc v -> keeps_mission v v') ->
      (crc <> v_crc v -> v_id v' = tr_dataman_id (v_tr v) /\ v_count v' = tr_count (v_tr v) /\ v_crc v' = crc /\
         v_topic v' = (v_id v', v_count v', v_crc v')) -> vstep msg v v'
  | vs_release : msg = None -> v_state v = MAVLINK_WPM_STATE_SENDLIST -> ~ receiving v' -> v_progress v' = false ->
      keeps_mission v v' -> same_items (v_dm v) (v_dm v') -> vstep msg v v'.

Lemma calm_keeps v v' : calm v v' -> keeps_mission v v'.
Proof. intros []. by constructor. Qed.

(** A step that changes neither the mission nor the transfer under way. *)
Definition calm_step (v v' : view) : Prop :=
  calm v v' /\ (receiving v -> receiving v' /\ v_tr v' = v_tr v /\ v_type v' = v_type v) /\ (~ receiving v -> ~ receiving v').

Lemma calm_step_vstep msg v v' : calm_step v v' -> vstep msg v v'.
Proof. intros (Hc & Hin & Hout). by apply vs_calm. Qed.

Lemma quiet_calm w w' : quiet_step w w' -> calm_step (view_of w) (view_of w').
Proof.
  intros [Hc Hs Ht Htr _ _]. split_and!; [done| |]; unfold receiving; cbn.
  - intros Hr. by rewrite Hs, Ht, Htr.
  - by rewrite Hs.
Qed.

Lemma quiet_vstep msg w w' : quiet_step w w' -> vstep msg (view_of w) (view_of w').
Proof. intros Hq. by apply calm_step_vstep, quiet_calm. Qed.

(** A calm step that stays outside, or leaves, the receiving state is a step. *)
Lemma calm_vstep msg w w' : calm (view_of w) (view_of w') -> m_state (w_m w) <> MAVLINK_WPM_STATE_GETLIST ->
  m_state (w_m w') <> MAVLINK_WPM_STATE_GETLIST -> vstep msg (view_of w) (view_of w').
Proof. intros Hc Hs Hs'. by apply vs_calm. Qed.

(** Small changes that keep the mission: of the state, the type, the transfer, the mode. *)
Lemma calm_on_m f w : calm (view_of w) (view_of (on_m f w)).
Proof. by constructor. Qed.
Lemma calm_on_tr f w : calm (view_of w) (view_of (on_tr f w)).
Proof. by constructor. Qed.
Lemma calm_quiet_r v w w' : calm v (view_of w) -> quiet_step w w' -> calm v (view_of w').
Proof. intros Hv []. by etrans. Qed.

(** ** Every handler makes such a step *)
Lemma is_state_true s w : is_state s w = true <-> m_state (w_m w) = s.
Proof. apply bool_decide_eq_true. Qed.
Lemma is_state_false s w : is_state s w = false <-> m_state (w_m w) <> s.
Proof. apply bool_decide_eq_false. Qed.

Ltac states :=
  repeat match goal with
  | H : is_state _ _ = true |- _ => apply is_state_true in H
  | H : is_state _ _ = false |- _ => apply is_state_false in H
  | H : _ && _ = true |- _ => apply andb_true_iff in H as [? ?]
  | H : negb _ = true |- _ => apply negb_true_iff in H
  | H : negb _ = false |- _ => apply negb_false_iff in H
  end.

Lemma vstep_ack msg ts tc ty mt w : vstep (Some msg) (view_of w)
  (view_of (handle_mission_ack own_sysid own_compid NUM_MISSION_ITEMS msg ts tc ty mt w)).
Proof.
  unfold handle_mission_ack. repeat case_if; states; try (apply quiet_vstep; reflexivity).
  - apply calm_vstep; [by constructor|congruence|done].
  - apply vs_calm; [|intros _|done].
    + etrans; [apply (calm_on_m (m_set_int (negb (m_int_mode (w_m w)))))|]. apply quiet_request_current.
    + match goal with |- context [request_current_item _ ?x] => destruct (quiet_request_current x) as [_ Hs Ht Htr _ _] end.
      unfold receiving. cbn in *. by rewrite Hs, Ht, Htr.
  - apply vs_abort; [done|done|done|by constructor|done].
Qed.

Lemma vstep_set_current msg ts tc seq w : vstep (Some msg) (view_of w)
  (view_of (handle_mission_set_current own_sysid own_compid mission_bytes ts tc seq w)).
Proof.
  unfold handle_mission_set_current. cbv zeta. repeat case_if; states; try (apply quiet_vstep; solve [reflexivity | apply quiet_recv]).
  set (w0 := on_m _ _). match goal with |- context [update_active_mission _ ?a ?b ?c ?k true w0] =>
    destruct (activates_update a b c k true w0) as [Hi Hc Hk Ht Hp Hs Hty Htr Hd] end.
  apply calm_vstep; [|congruence|rewrite Hs; cbn; congruence]. constructor; [done..| |done]. intros _. by rewrite Ht, Hi, Hc, Hk.
Qed.

Lemma vstep_request_list msg ts tc mt w : vstep (Some msg) (view_of w)
  (view_of (handle_mission_request_list own_sysid own_compid msg ts tc mt w)).
Proof.
  unfold handle_mission_request_list. case_if; [apply quiet_vstep; reflexivity|]. cbv zeta.
  match goal with |- context [if ?c then switch_to_idle_state w else w] =>
    set (w0 := if c then switch_to_idle_state w else w); assert (Hw0 : calm (view_of w) (view_of w0) /\
      (w0 = w \/ m_state (w_m w) = MAVLINK_WPM_STATE_SENDLIST /\ m_state (w_m w0) = MAVLINK_WPM_STATE_IDLE)) end.
  { unfold w0. case_if; states; [split; [by constructor|by right]|split; [reflexivity|by left]]. }
  destruct Hw0 as [Hc0 Hs0]. case_if.
  2:{ destruct Hs0 as [-> | [Hs Hi]]; [apply quiet_vstep; reflexivity|]. apply calm_vstep; [done|congruence..]. }
  assert (Hn : m_state (w_m w) <> MAVLINK_WPM_STATE_GETLIST).
  { destruct Hs0 as [E | [Hs _]]; [|congruence]. rewrite <- E. apply orb_true_iff in Hif0 as [Hs|Hs]; states; congruence. }
  set (w1 := on_m (m_set_type mt) _).
  assert (Hc1 : calm (view_of w) (view_of w1)) by (etrans; [exact Hc0|by constructor]).
  match goal with |- context [on_tr (tr_set_seq 0) ?x] => set (w2 := x) end.
  assert (Hq : quiet_step w1 w2) by (unfold w2; repeat case_if; auto with quiet; reflexivity).
  assert (Hs2 : m_state (w_m w2) = MAVLINK_WPM_STATE_SENDLIST) by (by destruct Hq as [_ -> _ _ _ _]).
  apply calm_vstep; [|done|change (m_state (w_m w2) <> MAVLINK_WPM_STATE_GETLIST); by rewrite Hs2]. etrans; [exact Hc1|]. etrans; [apply Hq|]. by constructor.
Qed.

Lemma vstep_request im msg ts tc seq mt w : vstep (Some msg) (view_of w)
  (view_of (handle_mission_request own_sysid own_compid im msg ts tc seq mt w)).
Proof.
  unfold handle_mission_request, handle_mission_request_both. set (w0 := on_m _ w).
  assert (Hskip : vstep (Some msg) (view_of w) (view_of w0)) by (apply vs_calm; [by constructor|done..]).
  do 2 (case_if; [exact Hskip|]). case_if; [|exact Hskip]. case_if; [exact Hskip|]. states. cbv zeta. set (w1 := on_m _ w0).
  match goal with |- context [if ?c then on_tr ?f w1 else w1] => set (w2 := if c then on_tr f w1 else w1) end.
  assert (Hn : m_state (w_m w) <> MAVLINK_WPM_STATE_GETLIST) by (change (m_state (w_m w)) with (m_state (w_m w0)); congruence).
  assert (H2 : calm (view_of w) (view_of w2) /\ m_state (w_m w2) = MAVLINK_WPM_STATE_SENDLIST)
    by (unfold w2; case_if; split; [by constructor|done|by constructor|done]).
  destruct H2 as [Hc2 Hs2].
  assert (Hrej : forall x, calm (view_of w) (view_of x) -> vstep (Some msg) (view_of w) (view_of (reject_request x))).
  { intros x Hx. apply calm_vstep; [|done|done]. etrans; [exact Hx|by constructor]. }
  case_if; [|apply Hrej; by constructor]. case_if; [|by apply Hrej].
  match goal with |- context [send_mission_item ?a ?b ?c w2] => pose proof (quiet_send_item a b c w2) as Hq end.
  apply calm_vstep; [by apply (calm_quiet_r _ _ _ Hc2)|done|]. destruct Hq as [_ -> _ _ _ _]. congruence.
Qed.

Lemma other_mission_key s : waypoint_key (other_mission_id s) /\ (waypoint_key (s_mission_id s) -> other_mission_id s <> s_mission_id s).
Proof.
  unfold other_mission_id, waypoint_key, DM_KEY_WAYPOINTS_OFFBOARD_0, DM_KEY_WAYPOINTS_OFFBOARD_1. case_if; split; lia.
Qed.

Lemma activates_clear w : activates (other_mission_id (w_sh w)) 0 0 w (clear_mission mission_bytes w).
Proof. apply (activates_quiet_l _ _ _ _ _ _ (quiet_land (-1) (-1) w)). apply activates_update. Qed.

(** Deleting the mission, between calm steps. *)
Lemma clear_vstep msg id w w1 w2 w' :
  clear_message msg -> waypoint_key id -> m_state (w_m w) <> MAVLINK_WPM_STATE_GETLIST ->
  m_state (w_m w1) <> MAVLINK_WPM_STATE_GETLIST ->
  same_items (e_dm (w_e w)) (e_dm (w_e w1)) -> activates id 0 0 w1 w2 -> quiet_step w2 w' ->
  v_progress (view_of w1) = v_progress (view_of w) -> vstep msg (view_of w) (view_of w').
Proof.
  intros Hm Hid Hs Hs1 Hd1 Ha Hq Hp1. destruct (activates_quiet_r _ _ _ _ _ _ Ha Hq) as [Hi Hc Hk Ht Hp Hst _ _ Hd].
  apply vs_clear; try done; [unfold receiving; cbn; congruence|congruence|congruence|congruence|by etrans].
Qed.

Lemma vstep_begin msg count mt w : m_state (w_m w) = MAVLINK_WPM_STATE_IDLE ->
  v_progress (view_of w) = false -> waypoint_key (s_mission_id (w_sh w)) -> 0 <= count < 2 ^ 16 ->
  (exists ts tc, msg_body msg = M_count ts tc count mt) ->
  vstep (Some msg) (view_of w) (view_of (begin_transfer NUM_MISSION_ITEMS mission_bytes stack msg count mt w).2).
Proof.
  intros Hs Hp Hkey Hcount (ts & tc & Hmsg). unfold begin_transfer. cbv zeta.
  set (w1 := on_rep _ _). case_if; [apply calm_vstep; [by constructor|cbn; congruence..]|].
  case_if.
  { assert (E : count = 0) by done. subst count. set (w2 := if _ =? _ then _ else _).
    cbn [snd]. unfold w2. case_if; [|case_if; [|case_if]].
    - destruct (activates_clear w1) as [Hi Hc Hk Ht Hp1 Hst _ _ Hd].
      apply vs_clear; [unfold receiving; cbn; congruence|unfold receiving; cbn in *; congruence| |..].
      + by exists msg, ts, tc, mt; auto.
      + cbn in *. rewrite Hi. apply other_mission_key.
      + done.
      + done.
      + cbn in *. by rewrite Ht, Hi.
      + by cbn in *.
      + exact Hd.
    - destruct (quiet_update_geofence (other_fence_id (w_sh w1)) 0 0 w1) as [[] Hst _ _ _ _].
      apply calm_vstep; [|congruence|cbn in *; congruence]. constructor; cbn in *; congruence || done.
    - destruct (quiet_update_safepoint (other_safepoint_id (w_sh w1)) 0 0 w1) as [[] Hst _ _ _ _].
      apply calm_vstep; [|congruence|cbn in *; congruence]. constructor; cbn in *; congruence || done.
    - apply calm_vstep; [by constructor|cbn; congruence..]. }
  assert (Hmax : 0 < count <= current_max_item_count NUM_MISSION_ITEMS w1) by lia. clear Hif Hif0.
  assert (Hgo : forall id, (mt = MAV_MISSION_TYPE_MISSION -> waypoint_key id /\ id <> s_mission_id (w_sh w)) ->
    (mt <> MAV_MISSION_TYPE_MISSION -> ~ waypoint_key id) ->
    vstep (Some msg) (view_of w) (view_of (on_tr (fun t => tr_set_land (-1) (tr_set_land_start (-1) (tr_set_current_seq (-1)
      (tr_set_count count (tr_set_seq 0 t))))) (on_m (m_set_state MAVLINK_WPM_STATE_GETLIST) (on_tr (tr_set_dataman_id id) w1))))).
  { intros id Hmis Hoth. apply vs_begin; try done.
    - unfold receiving. cbn. congruence.
    - constructor; cbn; [lia|lia|lia|apply Hmis|done].
    - cbn. intros Ht. by apply Hmis. }
  repeat case_if; cbn [snd].
  - apply Hgo; [intros _; split; [apply other_mission_key|by apply (other_mission_key (w_sh w))]|congruence].
  - apply Hgo; [subst mt; discriminate|]. intros _. unfold other_fence_id, waypoint_key. case_if; intros [Hk|Hk]; discriminate.
  - apply Hgo; [subst mt; discriminate|]. intros _. unfold other_safepoint_id, waypoint_key. case_if; intros [Hk|Hk]; discriminate.
  - apply calm_vstep; [constructor; cbn; congruence || done|cbn; congruence..].
Qed.

(** Quiet steps before and after a step. *)
Lemma keeps_calm_l v1 v2 v3 : calm v1 v2 -> keeps_mission v2 v3 -> keeps_mission v1 v3.
Proof. intros [] []. constructor; congruence || auto. Qed.
Lemma keeps_calm_r v1 v2 v3 : keeps_mission v1 v2 -> calm v2 v3 -> keeps_mission v1 v3.
Proof. intros [] []. constructor; congruence || auto. Qed.

Lemma getlist_ok_same v v' : v_tr v' = v_tr v -> v_type v' = v_type v -> getlist_ok v -> getlist_ok v'.
Proof. intros Ht Hy []. constructor; rewrite ?Ht, ?Hy; done. Qed.

Lemma vstep_quiet_r msg v w w' : vstep msg v (view_of w) -> quiet_step w w' -> vstep msg v (view_of w').
Proof.
  intros Hstep [Hq Hs Hty Htr _ _].
  assert (Hr : receiving (view_of w') <-> receiving (view_of w)) by (unfold receiving; cbn; by rewrite Hs).
  assert (Hrm : receives_mission (view_of w') <-> receives_mission (view_of w))
    by (unfold receives_mission; rewrite Hr; cbn; by rewrite Hty).
  assert (Etr : v_tr (view_of w') = v_tr (view_of w)) by exact Htr.
  assert (Ety : v_type (view_of w') = v_type (view_of w)) by exact Hty. pose proof Hq as [Qi Qc Qk Qp Qt Qd].
  destruct Hstep as [Hc Hin Hout|?? Hm Hi Hc Hk Ht Hp Hd|?? Hp Hp' Hk Hd Hg Hz Hz' Hne|?? Hp Hk Hd|wp it ?? Hm (Hwk & Hst & Hfr) Hk Hp Hid Hn Hsq Hlt Hcrc
    |?? Ht Ht' Hc Hg|wp it ?? Hm (Hwk & Hst & Hfr) Hp Hn crc Hsame Hnew|Hm Hst Hn Hp Hk Hd].
  - apply vs_calm; [by etrans| |]; rewrite Hr, ?Etr, ?Ety; done.
  - apply vs_clear; rewrite ?Hr, ?Qi, ?Qc, ?Qk, ?Qp; try done; [|by etrans]. rewrite Qt, Qi, Qc, Qk, Hc, Hk; [done|].
    by rewrite Ht, Hc, Hk.
  - apply vs_begin; rewrite ?Hr, ?Qi, ?Qc, ?Qk, ?Qp, ?Etr, ?Ety; try done; [by eapply keeps_calm_r|by etrans|].
    by apply (getlist_ok_same (view_of w)).
  - apply vs_abort; rewrite ?Hr, ?Qp; try done; [by eapply keeps_calm_r|]. intros i k Hi Hno. rewrite Qd by done. by apply Hd.
  - apply (vs_item _ _ _ wp it); rewrite ?Hrm, ?Etr, ?Qp; try done; [|by eapply keeps_calm_r].
    split; [done|]. split; [by rewrite Qd|]. intros i k Hi Hno. rewrite Qd by done. by apply Hfr.
  - apply vs_other; rewrite ?Hr, ?Ety; try done; [by etrans|]. by apply (getlist_ok_same (view_of w)).
  - apply (vs_commit _ _ _ wp it); rewrite ?Hr, ?Qp; try done.
    + split; [done|]. split; [by rewrite Qd|]. intros i k Hi Hno. rewrite Qd by done. by apply Hfr.
    + intros E. eapply keeps_calm_r; [by apply Hsame|done].
    + intros E. destruct (Hnew E) as (A & B & C & T). rewrite Qt by done. by rewrite Qi, Qc, Qk.
  - apply vs_release; rewrite ?Hr, ?Qp; try done; [by eapply keeps_calm_r|by etrans].
Qed.

Lemma vstep_count msg ts tc count mt w :
  waypoint_key (s_mission_id (w_sh w)) -> 0 <= count < 2 ^ 16 -> msg_body msg = M_count ts tc count mt ->
  vstep (Some msg) (view_of w)
    (view_of (handle_mission_count own_sysid own_compid NUM_MISSION_ITEMS mission_bytes stack msg ts tc count mt w)).
Proof.
  intros Hkey Hcount Hmsg. unfold handle_mission_count. case_if; [apply quiet_vstep; reflexivity|]. cbv zeta.
  set (w1 := on_m _ w). assert (Hq : quiet_step w w1) by apply quiet_recv.
  case_if; states; [case_if|case_if; [repeat case_if|]]; try (apply quiet_vstep; repeat quiet_peel; done || reflexivity).
  pose proof (vstep_begin msg count mt w1 Hif0 Hif1 Hkey Hcount ltac:(by exists ts, tc)) as Hb.
  destruct (begin_transfer _ _ _ msg count mt w1) as [b w2]. destruct b; [|exact Hb].
  apply (vstep_quiet_r _ _ w2); [exact Hb|apply quiet_request_current].
Qed.

Lemma vstep_clear_all msg ts tc mt w : msg_body msg = M_clear_all ts tc mt ->
  vstep (Some msg) (view_of w) (view_of (handle_mission_clear_all own_sysid own_compid mission_bytes stack msg ts tc mt w)).
Proof.
  intros Hmsg. unfold handle_mission_clear_all. case_if; [apply quiet_vstep; reflexivity|].
  case_if; [|apply quiet_vstep; reflexivity]. states. set (w1 := on_m _ _).
  assert (Hs1 : m_state (w_m w1) <> MAVLINK_WPM_STATE_GETLIST) by (cbn; congruence).
  assert (Hcm : clear_message (Some msg)) by (by exists msg, ts, tc, mt; auto).
  assert (Hclear : forall w', quiet_step (clear_mission mission_bytes w1) w' -> vstep (Some msg) (view_of w) (view_of w')).
  { intros w' Hq. 
    apply (clear_vstep _ _ w w1 (clear_mission mission_bytes w1) w' Hcm (proj1 (other_mission_key (w_sh w1)))); try done.
    apply activates_clear. }
  assert (Hother : forall w', quiet_step w1 w' -> vstep (Some msg) (view_of w) (view_of w')).
  { intros w' [Hc Hs _ _ _ _]. apply calm_vstep; [etrans; [|exact Hc]; by constructor|congruence|congruence]. }
  unfold clear_fence, clear_safepoints. case_if; [|case_if; [|case_if; [|case_if]]].
  - apply Hclear, quiet_ack.
  - pose proof (quiet_update_geofence (other_fence_id (w_sh w1)) 0 0 w1) as Hq.
    destruct (update_geofence_count _ _ _ _ w1) as [ret w2]. apply Hother. by quiet_peel.
  - pose proof (quiet_update_safepoint (other_safepoint_id (w_sh w1)) 0 0 w1) as Hq.
    destruct (update_safepoint_count _ _ _ _ w1) as [ret w2]. apply Hother. by quiet_peel.
  - cbv zeta. set (w2 := clear_mission mission_bytes w1) in *.
    pose proof (quiet_update_geofence (other_fence_id (w_sh w2)) 0 0 w2) as Hq3.
    destruct (update_geofence_count _ _ _ _ w2) as [ret w3]. cbn [snd] in Hq3.
    pose proof (quiet_update_safepoint (other_safepoint_id (w_sh w3)) 0 0 w3) as Hq4.
    destruct (update_safepoint_count _ _ _ _ w3) as [ret' w4]. apply Hclear. quiet_peel. by etrans.
  - apply Hother, quiet_ack.
Qed.

(** ** Receiving an item *)
Definition tr_core (t : transfer) : Z * Z * Z * Z * Z * Z :=
  (tr_dataman_id t, tr_count t, tr_crc32 t, tr_seq t, tr_sysid t, tr_compid t).

(** Only the slot of the item is written, and the members that remember the landing and the
    current item change. *)
Record writes_slot (slot : Z * Z) (w w' : world) : Prop := {
  ws_tr : tr_core (w_tr w') = tr_core (w_tr w);
  ws_state : m_state (w_m w') = m_state (w_m w);
  ws_type : m_mission_type (w_m w') = m_mission_type (w_m w);
  ws_sh : w_sh w' = w_sh w;
  ws_topic : e_mission (w_e w') = e_mission (w_e w);
  ws_frame i k : (i, k) <> slot -> stored (e_dm (w_e w')) i k = stored (e_dm (w_e w)) i k;
}.

#[local] Instance writes_slot_preorder slot : PreOrder (writes_slot slot).
Proof.
  split; [intros w; by constructor|]. intros w1 w2 w3 [] []. constructor; try congruence.
  intros i k Hi. transitivity (stored (e_dm (w_e w2)) i k); auto.
Qed.

Lemma writes_slot_write item index bytes t w :
  let '(ok, w') := MavlinkMission.writeSync item index bytes t w in
  writes_slot (item, index) w w' /\ (ok = true -> stored (e_dm (w_e w')) item index = bytes).
Proof.
  unfold MavlinkMission.writeSync. destruct (dm_writeSync _ _ _ _ _) as [ok d'] eqn:E.
  apply write_law in E as [Hf Hs]. split; [by constructor|exact Hs].
Qed.

Lemma writes_slot_tr slot f w : (forall t, tr_core (f t) = tr_core t) -> writes_slot slot w (on_tr f w).
Proof. intros Hf. constructor; try done. apply Hf. Qed.

(** A change of the remembered members, under any condition. *)
Lemma writes_slot_if slot (b : bool) f w0 w :
  (forall t, tr_core (f t) = tr_core t) -> writes_slot slot w0 w ->
  writes_slot slot w0 (if b then on_tr f w else w) /\ e_dm (w_e (if b then on_tr f w else w)) = e_dm (w_e w).
Proof. intros Hf Hw. destruct b; [|done]. split; [|done]. etrans; [exact Hw|by apply writes_slot_tr]. Qed.

Lemma store_mission_item_spec wp it w :
  let '(wf, cf, w') := store_mission_item wp it w in
  let slot := (tr_dataman_id (w_tr w), wp_seq wp) in
  writes_slot slot w w' /\ (wf = false -> cf = false -> stored (e_dm (w_e w')) slot.1 slot.2 = mission_item_bytes it).
Proof.
  unfold store_mission_item. cbv zeta. case_if; [split; [reflexivity|done]|].
  match goal with |- context [MavlinkMission.writeSync ?a ?b ?c ?t w] => pose proof (writes_slot_write a b c t w) as Hw;
    destruct (MavlinkMission.writeSync a b c t w) as [ok w1] end. destruct Hw as [Hw Hst].
  set (slot := (tr_dataman_id (w_tr w), wp_seq wp)) in *.
  match goal with |- context [if ?b then on_tr ?f w1 else w1] => destruct (writes_slot_if slot b f w w1) as [H2 D2]; [done..|];
    set (w2 := if b then on_tr f w1 else w1) in * end.
  match goal with |- context [if ?b then ?x else w2] => set (w3 := if b then x else w2) end.
  assert (H3 : writes_slot slot w w3 /\ e_dm (w_e w3) = e_dm (w_e w1)).
  { unfold w3. case_if; [|by split]. case_if; (split; [|exact D2]); (etrans; [exact H2|]).
    - by transitivity (on_tr (tr_set_land (wp_seq wp)) w2); apply writes_slot_tr.
    - by apply writes_slot_tr. }
  destruct H3 as [H3 D3].
  match goal with |- context [if ?b then on_tr ?f w3 else w3] => destruct (writes_slot_if slot b f w w3) as [H4 D4]; [done..|] end.
  split; [exact H4|]. intros Hok _. apply negb_false_iff in Hok. rewrite D4, D3. by apply Hst.
Qed.

Lemma store_item_spec wp it w :
  let '(wf, cf, w') := store_item stack wp it w in
  let slot := (tr_dataman_id (w_tr w), wp_seq wp) in
  writes_slot slot w w' /\
  (m_mission_type (w_m w) = MAV_MISSION_TYPE_MISSION -> wf = false -> cf = false ->
   stored (e_dm (w_e w')) slot.1 slot.2 = mission_item_bytes it).
Proof.
  unfold store_item. cbv zeta. case_if.
  { pose proof (store_mission_item_spec wp it w) as Hs. destruct (store_mission_item wp it w) as [[wf cf] w']. cbv zeta in Hs.
    destruct Hs as [Hw Hst]. split; [exact Hw|]. intros _. exact Hst. }
  case_if; [unfold store_fence_point; cbv zeta; case_if; [split; [reflexivity|congruence]|]|case_if; [|split; [reflexivity|congruence]]].
  all: match goal with |- context [MavlinkMission.writeSync ?a ?b ?c ?t ?x] => pose proof (writes_slot_write a b c t x) as Hw;
    destruct (MavlinkMission.writeSync a b c t x) as [ok w1] end; destruct Hw as [Hw _]; split; [exact Hw|congruence].
Qed.

(** The end of a transfer does not touch the items; a mission with another checksum than the
    active one becomes active. *)
Definition new_mission w : Prop :=
  m_mission_type (w_m w) = MAV_MISSION_TYPE_MISSION /\ tr_crc32 (w_tr w) <> v_crc (view_of w).

Record completed (w : world) (v' : view) : Prop := {
  cp_idle : ~ receiving v';
  cp_progress : v_progress v' = false;
  cp_items : same_items (e_dm (w_e w)) (v_dm v');
  cp_new : new_mission w -> v_id v' = tr_dataman_id (w_tr w) /\ v_count v' = tr_count (w_tr w) /\
    v_crc v' = tr_crc32 (w_tr w) /\ v_topic v' = (v_id v', v_count v', v_crc v');
  cp_old : ~ new_mission w -> keeps_mission (view_of w) v';
}.

Lemma finish_view ret w : let v := view_of w in
  view_of (finish_transfer ret w) =
  mkView (v_id v) (v_count v) (v_crc v) false MAVLINK_WPM_STATE_IDLE (v_type v) (v_tr v) (v_topic v) (v_dm v).
Proof. unfold finish_transfer. cbv zeta. by case_if. Qed.

Lemma finish_quiet ret w x : quiet_step w x -> ~ new_mission w -> completed w (view_of (finish_transfer ret x)).
Proof.
  intros [[Ci Cn Ck _ Ct Cd] _ _ _ _ _] Hno. rewrite finish_view. by constructor; cbn -[view_of].
Qed.

Lemma finish_activates ret w x :
  activates (tr_dataman_id (w_tr w)) (tr_count (w_tr w)) (tr_crc32 (w_tr w)) w x -> new_mission w ->
  completed w (view_of (finish_transfer ret x)).
Proof.
  intros [Ai Ac Ak At _ _ _ _ Ad] Hnew. rewrite finish_view. constructor; cbn -[view_of]; try done.
  intros _. by rewrite At, Ai, Ac, Ak.
Qed.

Lemma complete_spec w : completed w (view_of (complete_transfer mission_bytes stack w)).
Proof.
  unfold complete_transfer. cbv zeta. case_if; [set (w1 := on_m _ w); case_if|case_if; [case_if|case_if; [case_if|]]].
  - apply finish_activates; [|by split].
    eapply activates_quiet_l; [apply quiet_land|apply activates_update].
  - apply finish_quiet; [apply quiet_land|]. by intros [_ Hne].
  - match goal with |- context [update_geofence_count _ ?a ?b ?c w] => pose proof (quiet_update_geofence a b c w) as Hu;
      destruct (update_geofence_count _ a b c w) as [ret x] end. apply finish_quiet; [exact Hu|]. intros [? _]. congruence.
  - apply finish_quiet; [reflexivity|]. intros [? _]. congruence.
  - match goal with |- context [update_safepoint_count _ ?a ?b ?c w] => pose proof (quiet_update_safepoint a b c w) as Hu;
      destruct (update_safepoint_count _ a b c w) as [ret x] end. apply finish_quiet; [exact Hu|]. intros [? _]. congruence.
  - apply finish_quiet; [reflexivity|]. intros [? _]. congruence.
  - apply finish_quiet; [reflexivity|]. intros [? _]. congruence.
Qed.

Lemma tr_core_eq t t' : tr_core t' = tr_core t ->
  tr_dataman_id t' = tr_dataman_id t /\ tr_count t' = tr_count t /\ tr_crc32 t' = tr_crc32 t /\ tr_seq t' = tr_seq t.
Proof. unfold tr_core. intros [= -> -> -> -> _ _]. done. Qed.

Lemma view_on_tr f w : view_of (on_tr f w) =
  let v := view_of w in mkView (v_id v) (v_count v) (v_crc v) (v_progress v) (v_state v) (v_type v) (f (v_tr v)) (v_topic v) (v_dm v).
Proof. done. Qed.

Lemma abort_vstep msg w x :
  receiving (view_of w) -> (forall i k, waypoint_key i ->
    ~ (receives_mission (view_of w) /\ i = tr_dataman_id (w_tr w) /\ k = tr_seq (w_tr w)) ->
    stored (e_dm (w_e x)) i k = stored (e_dm (w_e w)) i k) ->
  w_sh x = w_sh w -> e_mission (w_e x) = e_mission (w_e w) -> vstep msg (view_of w) (view_of (abort_transfer x)).
Proof.
  intros Hr Hd Hsh Htop. apply vs_abort; [done|done|done| |exact Hd].
  unfold abort_transfer, switch_to_idle_state. constructor; cbn; change (e_sh (w_e x)) with (w_sh x); rewrite ?Hsh, ?Htop; done.
Qed.

(** The item is stored and the transfer has moved on. *)
Record advanced (wp : mavlink_mission_item_t) (it : mission_item_s) (w w' : world) : Prop := {
  ad_sh : w_sh w' = w_sh w;
  ad_topic : e_mission (w_e w') = e_mission (w_e w);
  ad_state : m_state (w_m w') = m_state (w_m w);
  ad_type : m_mission_type (w_m w') = m_mission_type (w_m w);
  ad_id : tr_dataman_id (w_tr w') = tr_dataman_id (w_tr w);
  ad_count : tr_count (w_tr w') = tr_count (w_tr w);
  ad_seq : tr_seq (w_tr w') = tr_seq (w_tr w) + 1;
  ad_crc : tr_crc32 (w_tr w') = crc32_for_mission_item wp (tr_crc32 (w_tr w));
  ad_frame i k : (i, k) <> (tr_dataman_id (w_tr w), tr_seq (w_tr w)) -> stored (e_dm (w_e w')) i k = stored (e_dm (w_e w)) i k;
  ad_slot : m_mission_type (w_m w) = MAV_MISSION_TYPE_MISSION ->
    stored (e_dm (w_e w')) (tr_dataman_id (w_tr w)) (tr_seq (w_tr w)) = mission_item_bytes it;
}.

Lemma accept_cases msg wp w :
  receiving (view_of w) -> getlist_ok (view_of w) -> wp_seq wp = tr_seq (w_tr w) ->
  let w' := accept_item NUM_MISSION_ITEMS mission_bytes stack wp w in
  vstep msg (view_of w) (view_of w') \/
  exists it x, parse_mavlink_mission_item (m_int_mode (w_m w)) (r_vehicle_mask (w_rep w)) wp = inr it /\ advanced wp it w x /\
    w' = if tr_seq (w_tr x) =? tr_count (w_tr x) then complete_transfer mission_bytes stack x
         else request_current_item NUM_MISSION_ITEMS x.
Proof.
  intros Hr [Hseq Hcnt _ _ Hoth] Eseq. cbv zeta. unfold accept_item.
  destruct (parse_mavlink_mission_item _ _ wp) as [code|it]; [left; by apply abort_vstep|].
  set (w1 := on_tr _ w). pose proof (store_item_spec wp it w1) as Hst.
  destruct (store_item stack wp it w1) as [[wf cf] w2]. cbv zeta in Hst. destruct Hst as [[Htr Hs Hty Hsh Htop Hfr] Hslot].
  apply tr_core_eq in Htr as (Tid & Tcnt & Tcrc & Tseq).
  change (tr_dataman_id (w_tr w1)) with (tr_dataman_id (w_tr w)) in *. rewrite Eseq in Hfr, Hslot.
  destruct (wf || cf) eqn:Hf.
  { left. apply abort_vstep; try done. intros i k Hi Hno. apply Hfr. intros [= -> ->].
    destruct (decide (m_mission_type (w_m w) = MAV_MISSION_TYPE_MISSION)) as [E|E]; [by apply Hno|by apply (Hoth E)]. }
  apply orb_false_iff in Hf as [-> ->]. right.
  match goal with |- context [if ?b then on_tr ?f w2 else w2] => set (w3 := if b then on_tr f w2 else w2) end.
  exists it, (on_tr (tr_set_seq (u16 (wp_seq wp + 1))) w3). split; [done|]. split; [|done].
  assert (H3 : writes_slot (0, 0) w2 w3) by (unfold w3; case_if; [by apply writes_slot_tr|reflexivity]).
  assert (D3 : w_e w3 = w_e w2) by (unfold w3; by case_if).
  destruct H3 as [Htr3 Hs3 Hty3 Hsh3 Htop3 _]. apply tr_core_eq in Htr3 as (Uid & Ucnt & Ucrc & _).
  assert (Hu : u16 (wp_seq wp + 1) = tr_seq (w_tr w) + 1) by (rewrite Eseq; cbn in Hseq, Hcnt; apply uwrap_small; lia).
  constructor; unfold on_tr, on_m, w_tr, w_sh; cbn [w_m w_e m_transfer m_set_transfer tr_set_seq tr_dataman_id tr_count tr_seq
    tr_crc32 m_state m_mission_type]; unfold w_tr, w_sh in *; rewrite ?D3; try (congruence || auto).
  - exact (eq_trans Hs3 Hs).
  - exact (eq_trans Hty3 Hty).
  - exact (eq_trans Ucnt Tcnt).
  - exact (eq_trans Ucrc Tcrc).
Qed.

Lemma advanced_stores wp it w x v' :
  m_mission_type (w_m w) = MAV_MISSION_TYPE_MISSION -> waypoint_key (tr_dataman_id (w_tr w)) -> advanced wp it w x ->
  same_items (e_dm (w_e x)) (v_dm v') -> stores_item (view_of w) v' it.
Proof.
  intros Hm Hk [] Hd. split; [done|]. cbn. split; [rewrite Hd by done; auto|]. intros i k Hi Hne. rewrite Hd by done. auto.
Qed.

Lemma advanced_keeps wp it w x : advanced wp it w x -> keeps_mission (view_of w) (view_of x).
Proof. intros []. constructor; unfold view_of; cbn; congruence. Qed.

Lemma advanced_calm wp it w x : advanced wp it w x -> ~ waypoint_key (tr_dataman_id (w_tr w)) -> calm (view_of w) (view_of x).
Proof.
  intros [] Hk. constructor; unfold view_of; cbn; try congruence. intros i k Hi. apply ad_frame0. intros [= -> ->]. done.
Qed.

Lemma accept_vstep im msg wp w :
  receiving (view_of w) -> getlist_ok (view_of w) -> wp_wf wp -> msg_body msg = M_item im wp ->
  m_int_mode (w_m w) = im -> wp_seq wp = tr_seq (w_tr w) ->
  vstep (Some msg) (view_of w) (view_of (accept_item NUM_MISSION_ITEMS mission_bytes stack wp w)).
Proof.
  intros Hr Hok Hwp Hmsg Him Eseq.
  destruct (accept_cases (Some msg) wp w Hr Hok Eseq) as [Hv | (it & x & Hparse & Had & ->)]; [exact Hv|].
  assert (Hitem : item_message (Some msg) wp it) by (exists msg, im, (r_vehicle_mask (w_rep w)); rewrite Him in Hparse; done).
  pose proof (advanced_keeps _ _ _ _ Had) as Hk. pose proof Had as [Asd Atop Ast Aty Aid Acnt Aseq Acrc Afr Asl].
  destruct Hok as [Hseq Hcnt Hcrc Hmis Hoth].
  assert (Hcr : 0 <= tr_crc32 (w_tr x) < 2 ^ 32) by (rewrite Acrc; by apply crc32_for_mission_item_eq).
  assert (Hrx : receiving (view_of x)) by (unfold receiving; cbn; by rewrite Ast).
  assert (Hpx : v_progress (view_of x) = v_progress (view_of w)) by (unfold view_of; cbn [v_progress]; by rewrite Asd).
  destruct (Z.eqb_spec (tr_seq (w_tr x)) (tr_count (w_tr x))) as [Hlast|Hmore];
    destruct (decide (m_mission_type (w_m w) = MAV_MISSION_TYPE_MISSION)) as [Hm|Hm].
  - pose proof (complete_spec x) as [Ci Cp Cd Cn Co]. unfold new_mission in *. cbn [v_crc view_of] in Cn, Co. rewrite Aid, Acnt, Acrc, Asd, Aty in Cn.
    apply (vs_commit _ _ _ wp it); [by split|done|done|exact (advanced_stores wp it w x _ Hm (Hmis Hm) Had Cd)|done|cbn; lia|..].
    + intros E. destruct Hk as [Ki Kc Kk Kt]. destruct Co as [Oi Oc Ok Ot].
      { intros [_ Hne]. apply Hne. rewrite Acrc, Asd. exact E. }
      constructor; try congruence. intros Ht. apply Ot, Kt, Ht.
    + intros E. apply Cn. by split.
  - pose proof (complete_spec x) as [Ci Cp Cd Cn Co]. assert (Hc : calm (view_of w) (view_of x)) by (apply (advanced_calm wp it); auto).
    apply vs_abort; [done|done|done| |].
    + eapply keeps_calm_l; [exact Hc|]. apply Co. intros [? _]. congruence.
    + intros i k Hi _. rewrite Cd by done. by apply Hc.
  - apply (vstep_quiet_r _ _ x); [|apply quiet_request_current].
    apply (vs_item _ _ _ wp it); try done; [split; [done|cbn; congruence]|by apply (advanced_stores wp it w x _ Hm (Hmis Hm) Had)|cbn in *; lia].
  - apply (vstep_quiet_r _ _ x); [|apply quiet_request_current].
    apply vs_other; try done; [by apply (advanced_calm wp it); auto|].
    constructor; cbn in *; rewrite ?Aty, ?Aid; try done; lia.
Qed.

Lemma vstep_item im msg wp w : view_ok (view_of w) -> wp_wf wp -> msg_body msg = M_item im wp ->
  vstep (Some msg) (view_of w) (view_of (handle_mission_item own_sysid own_compid NUM_MISSION_ITEMS mission_bytes stack im msg wp w)).
Proof.
  intros Hok Hwp Hmsg. unfold handle_mission_item, handle_mission_item_both. set (w0 := on_m _ w).
  assert (Hskip : vstep (Some msg) (view_of w) (view_of w0)) by (apply vs_calm; [by constructor|done..]).
  do 2 (case_if; [exact Hskip|]). case_if; [apply (vstep_quiet_r _ _ w0 _ Hskip), quiet_ack_partner|].
  case_if; [|repeat case_if; apply (vstep_quiet_r _ _ w0 _ Hskip), quiet_ack_partner]. states. cbv zeta.
  set (w1 := on_m _ w0). case_if; [exact Hskip|].
  change (view_of w) with (view_of w1). apply (accept_vstep im); try done; by apply Hok.
Qed.

(** ** The periodic work *)
Definition agrees (v : view) : Prop := v_topic v = (v_id v, v_count v, v_crc v).

(** Quiet, but for the type of an idle link. *)
Record nearly_quiet (w w' : world) : Prop := {
  nq_calm : calm (view_of w) (view_of w');
  nq_state : m_state (w_m w') = m_state (w_m w);
  nq_tr : w_tr w' = w_tr w;
  nq_type : m_state (w_m w) <> MAVLINK_WPM_STATE_IDLE -> m_mission_type (w_m w') = m_mission_type (w_m w);
}.
#[local] Instance nearly_quiet_preorder : PreOrder nearly_quiet.
Proof.
  split; [intros w; by constructor|]. intros w1 w2 w3 [C1 S1 T1 Y1] [C2 S2 T2 Y2]. constructor; [by etrans|congruence..|].
  intros Hs. rewrite Y2, Y1; congruence.
Qed.
Lemma nearly w w' : quiet_step w w' -> nearly_quiet w w'.
Proof. intros []. by constructor. Qed.

Lemma nearly_calm w w' : nearly_quiet w w' -> calm_step (view_of w) (view_of w').
Proof.
  intros [Hc Hs Ht Hy]. split_and!; [done| |]; unfold receiving; cbn; rewrite Hs; [|done].
  intros Hr. rewrite Ht, Hy by congruence. done.
Qed.

Lemma send_result_nearly w : nearly_quiet w (send_result w).
Proof.
  unfold send_result. cbv zeta. set (w0 := on_rep _ w). set (mr := r_result _).
  assert (Q0 : quiet_step w w0) by apply quiet_rep.
  assert (Hpair : forall (b : bool) (x y : bool) (p q : world (D := D)), (if b then (x, p) else (y, q)) = (if b then x else y, if b then p else q))
    by (by intros []).
  rewrite !Hpair. match goal with |- context [if ?b then on_sh ?f w0 else w0] => set (w1 := if b then on_sh f w0 else w0) end.
  assert (Q1 : quiet_step w w1) by (unfold w1; case_if; [by quiet_peel|done]).
  match goal with |- context [if ?b then on_rep ?f w1 else w1] => set (w2 := if b then on_rep f w1 else w1) end.
  assert (Q2 : quiet_step w w2) by (unfold w2; case_if; [by quiet_peel|done]).
  match goal with |- context [if ?b then send_mission_current ?a w2 else w2] => set (w3 := if b then send_mission_current a w2 else w2) end.
  assert (Q3 : quiet_step w w3) by (unfold w3; case_if; [by quiet_peel|done]).
  match goal with |- context [on_m (m_set_type _) ?x] => set (w4 := x) end.
  assert (Q4 : quiet_step w w4) by (unfold w4; case_if; [case_if; repeat quiet_peel; done|done]).
  case_if; [|by apply nearly]. states. pose proof Q4 as [C4 S4 Y4 T4 _ _].
  match goal with |- context [send_mission_item ?a ?b ?c ?x] => pose proof (quiet_send_item a b c x) as [C5 S5 Y5 T5 _ _] end.
  constructor; [|exact (eq_trans S5 S4)|exact (eq_trans T5 T4)|].
  - etrans; [exact C4|]. etrans; [apply (calm_on_m (m_set_type MAV_MISSION_TYPE_MISSION))|exact C5].
  - intros Hn. exfalso. apply Hn. rewrite <- S4. done.
Qed.

Lemma send_slow_quiet w : quiet_step w (send_slow w).
Proof.
  unfold send_slow, limiter_check. cbv zeta. case_if; [|reflexivity]. quiet_steps.
Qed.

Lemma timeouts_vstep w : vstep None (view_of w) (view_of (send_timeouts NUM_MISSION_ITEMS w)).
Proof.
  unfold send_timeouts. cbv zeta. case_if.
  - unfold timed_out in Hif. states. destruct (m_state (w_m w)) eqn:Hs; [done| |].
    + apply vs_release; [done..|by constructor|done].
    + apply vs_abort; [done..|by constructor|done].
  - apply quiet_vstep. quiet_steps.
Qed.

(** The time-outs do not depend on what was sent before. *)
Definition same_times (w w' : world (D := D)) : Prop :=
  m_time_last_recv (w_m w') = m_time_last_recv (w_m w) /\ w_now w' = w_now w.
#[local] Instance same_times_preorder : PreOrder same_times.
Proof. split; [done|]. intros w1 w2 w3 [] []. split; congruence. Qed.

Lemma times_state w : same_times w (update_mission_state w).
Proof. unfold update_mission_state. cbv zeta. repeat case_if; done. Qed.
Lemma times_current seq w : same_times w (send_mission_current seq w).
Proof. unfold send_mission_current. cbv zeta. etrans; [apply times_state|done]. Qed.
Lemma times_read a b c w : same_times w (MavlinkMission.readSync a b c w).2.
Proof. unfold MavlinkMission.readSync. by destruct (dm_readSync _ _ _ _). Qed.
Lemma times_send_item a b c w : same_times w (send_mission_item a b c w).
Proof.
  unfold send_mission_item, read_mission_item. cbv zeta. repeat case_if.
  all: try match goal with |- context [MavlinkMission.readSync ?i ?j ?l ?x] => pose proof (times_read i j l x);
    destruct (MavlinkMission.readSync i j l x) as [[r|] w1] end; cbn [fmap option_fmap option_map].
  all: try match goal with |- context [format_mavlink_mission_item ?i ?j ?l ?x] => destruct (format_mavlink_mission_item i j l x) end; done.
Qed.

Lemma times_result w : same_times w (send_result w).
Proof.
  unfold send_result. cbv zeta. set (w0 := on_rep _ w). assert (T0 : same_times w w0) by done.
  assert (Hpair : forall (b : bool) (x y : bool) (p q : world (D := D)), (if b then (x, p) else (y, q)) = (if b then x else y, if b then p else q))
    by (by intros []).
  rewrite !Hpair. match goal with |- context [if ?b then on_sh ?f w0 else w0] => set (w1 := if b then on_sh f w0 else w0) end.
  assert (T1 : same_times w w1) by (unfold w1; by case_if).
  match goal with |- context [if ?b then on_rep ?f w1 else w1] => set (w2 := if b then on_rep f w1 else w1) end.
  assert (T2 : same_times w w2) by (unfold w2; by case_if).
  match goal with |- context [if ?b then send_mission_current ?a w2 else w2] => set (w3 := if b then send_mission_current a w2 else w2) end.
  assert (T3 : same_times w w3) by (unfold w3; case_if; [by etrans; [|apply times_current]|done]).
  match goal with |- context [on_m (m_set_type _) ?x] => set (w4 := x) end.
  assert (T4 : same_times w w4) by (unfold w4; case_if; [by case_if|done]).
  case_if; [|done]. etrans; [exact T4|]. etrans; [|apply times_send_item]. done.
Qed.

Lemma times_slow w : same_times w (send_slow w).
Proof.
  unfold send_slow, limiter_check. cbv zeta. case_if; [|done]. set (w1 := on_rep _ w).
  pose proof (times_current (u16 (s_current_seq (w_sh w1))) w1) as Ht. case_if; exact Ht.
Qed.

(** The link gives up a download. *)
Definition drops_download (w : world (D := D)) : Prop := timed_out w = true /\ m_state (w_m w) = MAVLINK_WPM_STATE_SENDLIST.

(** [send] is a quiet step followed by one of the time-outs. *)
Lemma send_steps irid w : exists x, calm_step (view_of w) (view_of x) /\ vstep None (view_of x) (view_of (send irid w)) /\
  (v_state (view_of x) = v_state (view_of w)) /\ (drops_download x <-> drops_download w) /\
  (~ drops_download w -> v_state (view_of x) = MAVLINK_WPM_STATE_SENDLIST -> calm (view_of x) (view_of (send irid w))).
Proof.
  unfold MavlinkMission.send. destruct irid.
  { exists w. split; [apply quiet_calm; reflexivity|]. split; [apply quiet_vstep; reflexivity|]. done. }
  match goal with |- context [send_timeouts _ ?y] => set (x := y) end. exists x.
  assert (Hx : nearly_quiet w x /\ same_times w x).
  { unfold x. case_if; [split; [apply send_result_nearly|apply times_result]|split; [apply nearly, send_slow_quiet|apply times_slow]]. }
  destruct Hx as [Hn [Ht1 Ht2]]. split; [by apply nearly_calm|]. split; [apply timeouts_vstep|]. split; [apply Hn|].
  assert (Hd : drops_download x <-> drops_download w).
  { unfold drops_download, timed_out, is_state. rewrite Ht1, Ht2. by destruct Hn as [_ -> _ _]. }
  split; [done|]. intros Hno Hs. unfold send_timeouts. cbv zeta. case_if; [exfalso; apply Hno, Hd; by split|].
  assert (Q : quiet_step x x) by reflexivity. repeat case_if; try reflexivity; apply quiet_request || apply quiet_count_msg || by constructor.
Qed.

Lemma init_view ms w : let v := view_of w in
  view_of (init_offboard_mission ms w) =
  mkView (ms_mission_dataman_id ms) (ms_count ms) (ms_mission_id ms) (v_progress v) (v_state v) (v_type v) (v_tr v) (v_topic v) (v_dm v).
Proof. done. Qed.

Lemma check_calm irid w : agrees (view_of w) -> calm_step (view_of w) (view_of (check_active_mission irid w)).
Proof.
  intros Hag. unfold check_active_mission. case_if; [apply quiet_calm; reflexivity|].
  case_if; [apply quiet_calm; reflexivity|]. cbv zeta. set (w0 := on_rep _ w).
  assert (Q0 : quiet_step w w0) by apply quiet_rep. assert (Hms : topic_of (r_mission (w_rep w0)) = v_topic (view_of w0)) by done.
  set (ms := r_mission (w_rep w0)) in *.
  match goal with |- context [if ?b then (load_geofence_stats w0).2 else w0] => set (w1 := if b then (load_geofence_stats w0).2 else w0) end.
  assert (Q1 : quiet_step w w1) by (unfold w1; case_if; [by quiet_peel|done]).
  match goal with |- context [if ?b then (load_safepoint_stats w1).2 else w1] => set (w2 := if b then (load_safepoint_stats w1).2 else w1) end.
  assert (Q2 : quiet_step w w2) by (unfold w2; case_if; [by quiet_peel|done]).
  case_if; [|by apply quiet_calm]. destruct Q2 as [[Qi Qc Qk Qp Qt Qd] Qs Qy Qtr _ _]. rewrite init_view.
  assert (E : (ms_mission_dataman_id ms, ms_count ms, ms_mission_id ms) = (v_id (view_of w), v_count (view_of w), v_crc (view_of w)))
    by (rewrite <- Hag; exact Hms). pose proof E as E0. injection E0 as Ei Ec Ek.
  split_and!; [constructor; cbn [v_id v_count v_crc v_progress v_topic v_dm]; try done| |]; unfold receiving; cbn [v_state v_type v_tr].
  - intros _. rewrite (Qt Hag), Qi, Qc, Qk. symmetry. exact E.
  - intros Hr. split; [by rewrite <- Hr; exact Qs|]. split; [exact Qtr|exact Qy].
  - intros Hr. intros Hr'. apply Hr. rewrite <- Hr'. symmetry. exact Qs.
Qed.

Definition message_ok (msg : mavlink_message) : Prop :=
  match msg_body msg with
  | M_item _ wp => wp_wf wp
  | M_count _ _ count _ => 0 <= count < 2 ^ 16
  | _ => True
  end.

Lemma handle_vstep msg w : view_ok (view_of w) -> waypoint_key (s_mission_id (w_sh w)) -> message_ok msg ->
  vstep (Some msg) (view_of w) (view_of (handle_message msg w)).
Proof.
  intros Hok Hkey Hm. unfold MavlinkMission.handle_message, message_ok in *. destruct (msg_body msg) eqn:E.
  - apply vstep_ack.
  - apply vstep_set_current.
  - apply vstep_request_list.
  - apply vstep_request.
  - by apply vstep_count.
  - by apply vstep_item.
  - by apply vstep_clear_all.
  - apply quiet_vstep. reflexivity.
Qed.

(** ** Several links *)
Record system := mkSystem { y_links : list manager; y_env : env D }.

Inductive event :=
  | Message (i : nat) (msg : mavlink_message)   (* a message arrives on a link *)
  | Check_mission (i : nat) (iridium : bool)    (* [check_active_mission] *)
  | Send (i : nat) (iridium : bool)             (* [send] *)
  | Elapse (dt : Z)
  | Nav_index (timestamp seq : Z)               (* the navigator publishes its progress *)
  | Nav_result (r : mission_result_s)
  | Vehicle_status (s : vehicle_status_s).

Definition at_link (i : nat) (f : world -> world) (y : system) : system :=
  match y.(y_links) !! i with
  | Some m => let w := f (mkWorld m y.(y_env)) in mkSystem (<[i := w.(w_m)]> y.(y_links)) w.(w_e)
  | None => y
  end.

Definition set_index (timestamp seq : Z) (ms : mission_s) : mission_s :=
  mkMission timestamp ms.(ms_mission_dataman_id) ms.(ms_fence_dataman_id) ms.(ms_safepoint_dataman_id) ms.(ms_count) seq
    ms.(ms_land_start_index) ms.(ms_land_index) ms.(ms_mission_id) ms.(ms_geofence_id) ms.(ms_safe_points_id).

Definition sys_step (ev : event) (y : system) : system :=
  let e := y.(y_env) in
  match ev with
  | Message i msg => at_link i (handle_message msg) y
  | Check_mission i irid => at_link i (check_active_mission irid) y
  | Send i irid => at_link i (send irid) y
  | Elapse dt => mkSystem y.(y_links) (e_set_now (e.(e_now) + dt) e)
  | Nav_index t seq => mkSystem y.(y_links) (e_set_mission (set_index t seq e.(e_mission)) (e.(e_mission_gen) + 1) e)
  | Nav_result r => mkSystem y.(y_links) (e_set_result r (e.(e_result_gen) + 1) e)
  | Vehicle_status s => mkSystem y.(y_links) (e_set_status s (e.(e_status_gen) + 1) e)
  end.

Definition sys_run (evs : list event) (y : system) : system := foldl (fun y ev => sys_step ev y) y evs.

(** *** What the links do together, abstractly

    There is one active mission, and at most one upload under way. The active mission is
    replaced by an uploaded one in a single step, or deleted. *)
Record missions := mkMissions {
  a_active : list mission_item_s;
  a_crc : Z;
  a_pending : option (nat * list mission_item_s * Z);
}.

Inductive spec_step (i : nat) (msg : option mavlink_message) : missions -> missions -> Prop :=
  | sp_stay a : spec_step i msg a a
  | sp_clear act crc p : clear_message msg -> spec_step i msg (mkMissions act crc p) (mkMissions [] 0 p)
  | sp_begin act crc : spec_step i msg (mkMissions act crc None) (mkMissions act crc (Some (i, [], 0)))
  | sp_abort act crc l k : spec_step i msg (mkMissions act crc (Some (i, l, k))) (mkMissions act crc None)
  | sp_item act crc l k wp it : item_message msg wp it ->
      spec_step i msg (mkMissions act crc (Some (i, l, k))) (mkMissions act crc (Some (i, l ++ [it], crc32_for_mission_item wp k)))
  | sp_commit act crc l k wp it : item_message msg wp it -> crc32_for_mission_item wp k <> crc ->
      spec_step i msg (mkMissions act crc (Some (i, l, k))) (mkMissions (l ++ [it]) (crc32_for_mission_item wp k) None)
  | sp_same act crc l k wp it : item_message msg wp it -> crc32_for_mission_item wp k = crc ->
      spec_step i msg (mkMissions act crc (Some (i, l, k))) (mkMissions act crc None).

Definition spec_event (ev : event) (a a' : missions) : Prop :=
  match ev with
  | Message i msg => spec_step i (Some msg) a a'
  | Check_mission i _ | Send i _ => exists b, spec_step i None a b /\ spec_step i None b a'
  | _ => a' = a
  end.

Inductive spec_run : list event -> missions -> missions -> Prop :=
  | run_nil a : spec_run [] a a
  | run_cons ev evs a b c : spec_event ev a b -> spec_run evs b c -> spec_run (ev :: evs) a c.

(** *** The links implement it *)
Definition link_view (m : manager) (e : env D) : view := view_of (mkWorld m e).

Record uploading (v : view) (act l : list mission_item_s) (k : Z) : Prop := {
  up_receives : receives_mission v;
  up_seq : tr_seq (v_tr v) = zlen l;
  up_crc : tr_crc32 (v_tr v) = k;
  up_items n it : l !! n = Some it -> stored (v_dm v) (tr_dataman_id (v_tr v)) (Z.of_nat n) = mission_item_bytes it;
  up_inactive : act <> [] -> tr_dataman_id (v_tr v) <> v_id v;
}.

(** The shared part of a view implements the active mission. *)
Record active_ok (v : view) (act : list mission_item_s) (crc : Z) : Prop := {
  ac_key : waypoint_key (v_id v);
  ac_count : v_count v = zlen act;
  ac_crc : v_crc v = crc;
  ac_topic : agrees v;
  ac_items k it : act !! k = Some it -> stored (v_dm v) (v_id v) (Z.of_nat k) = mission_item_bytes it;
}.

Record sys_inv (y : system) (a : missions) : Prop := {
  si_active m : active_ok (link_view m (y_env y)) (a_active a) (a_crc a);
  si_ok i m : y_links y !! i = Some m -> receiving (link_view m (y_env y)) ->
    getlist_ok (link_view m (y_env y)) /\ v_progress (link_view m (y_env y)) = true;
  si_one i j m n : y_links y !! i = Some m -> y_links y !! j = Some n ->
    receiving (link_view m (y_env y)) -> receiving (link_view n (y_env y)) -> i = j;
  si_pending i m l k : a_pending a = Some (i, l, k) -> y_links y !! i = Some m ->
    uploading (link_view m (y_env y)) (a_active a) l k;
  si_link i l k : a_pending a = Some (i, l, k) -> is_Some (y_links y !! i);
  si_uploads i m : y_links y !! i = Some m -> receives_mission (link_view m (y_env y)) ->
    exists l k, a_pending a = Some (i, l, k);
}.

Lemma lookup_link (links : list manager) i j m m' n :
  links !! i = Some m -> <[i := m']> links !! j = Some n -> (j = i /\ n = m') \/ (j <> i /\ links !! j = Some n).
Proof.
  intros Hi Hj. destruct (decide (j = i)) as [-> | Hne].
  - rewrite list_lookup_insert_eq in Hj by (by eapply lookup_lt_Some). left. by simplify_eq.
  - rewrite list_lookup_insert_ne in Hj by done. by right.
Qed.

(** Another link's transfer after a step of this one. *)
Lemma other_view n e e' : let v := link_view n e in
  link_view n e' = mkView (v_id (link_view n e')) (v_count (link_view n e')) (v_crc (link_view n e')) (v_progress (link_view n e'))
    (v_state v) (v_type v) (v_tr v) (v_topic (link_view n e')) (v_dm (link_view n e')).
Proof. done. Qed.

Lemma uploading_other n e e' act act' l k :
  uploading (link_view n e) act l k -> getlist_ok (link_view n e) -> same_items (e_dm e) (e_dm e') ->
  (act' <> [] -> act <> [] /\ v_id (link_view n e') = v_id (link_view n e)) -> uploading (link_view n e') act' l k.
Proof.
  intros [Hr Hs Hk Hi Ha] Hok Hd Hact. constructor; [exact Hr|exact Hs|exact Hk| |].
  - intros j it Hj. rewrite <- (Hi j it Hj). apply Hd. apply Hok. apply Hr.
  - intros Hne. destruct (Hact Hne) as [Hne' ->]. by apply Ha.
Qed.

Lemma active_calm v v' act crc : active_ok v act crc -> keeps_mission v v' ->
  (forall k it, act !! k = Some it -> stored (v_dm v') (v_id v) (Z.of_nat k) = stored (v_dm v) (v_id v) (Z.of_nat k)) ->
  active_ok v' act crc.
Proof.
  intros [Hk Hn Hc Ht Hi] [Ki Kn Kc Kt] Hd. constructor; rewrite ?Ki, ?Kn, ?Kc; try done.
  - unfold agrees in *. auto.
  - intros j it Hj. rewrite (Hd j it Hj). auto.
Qed.

(** All links see the same active mission. *)
Lemma active_link m n e act crc : active_ok (link_view m e) act crc -> active_ok (link_view n e) act crc.
Proof. intros []. by constructor. Qed.

Section link_step.
Context (y : system) (a : missions) (i : nat) (m : manager) (w' : world (D := D)).
Context (Hinv : sys_inv y a) (Hlink : y_links y !! i = Some m).
Let v := link_view m (y_env y).
Let v' := view_of w'.
Let y' := mkSystem (<[i := w_m w']> (y_links y)) (w_e w').

Definition others_receive : Prop := exists j n, j <> i /\ y_links y !! j = Some n /\ receiving (link_view n (y_env y)).

(** What has to be shown of a step of link [i]. *)
Lemma inv_step a' :
  active_ok v' (a_active a') (a_crc a') ->
  (receiving v' -> getlist_ok v' /\ v_progress v' = true) ->
  (others_receive -> ~ receiving v' /\ v_progress v' = true /\ same_items (v_dm v) (v_dm v') /\
     (a_active a' <> [] -> a_active a <> [] /\ v_id v' = v_id v)) ->
  (forall j l k, j <> i -> a_pending a' = Some (j, l, k) <-> a_pending a = Some (j, l, k)) ->
  (forall l k, a_pending a' = Some (i, l, k) -> uploading v' (a_active a') l k) ->
  (receives_mission v' -> exists l k, a_pending a' = Some (i, l, k)) -> sys_inv y' a'.
Proof.
  intros P1 P2 P3 P4 P5 P6. destruct Hinv as [Ia Io I1 Ip Il Iu].
  assert (Hoth : forall j n, j <> i -> y_links y !! j = Some n -> receiving (link_view n (y_env y)) -> others_receive)
    by (intros j n ? ? ?; by exists j, n).
  constructor; cbn [y' y_links y_env].
  - intros n. apply (active_link (w_m w')). exact P1.
  - intros j n Hj Hr. apply (lookup_link _ _ _ _ _ _ Hlink) in Hj as [[-> ->] | [Hne Hj]]; [by apply P2|].
    split; [|by apply P3, (Hoth j n)]. apply (getlist_ok_same (link_view n (y_env y))); [done..|]. by apply (Io j n).
  - intros j1 j2 n1 n2 Hj1 Hj2 Hr1 Hr2.
    apply (lookup_link _ _ _ _ _ _ Hlink) in Hj1 as [[-> ->] | [Hne1 Hj1]];
      apply (lookup_link _ _ _ _ _ _ Hlink) in Hj2 as [[-> ->] | [Hne2 Hj2]]; [done| | |by apply (I1 j1 j2 n1 n2)].
    + exfalso. exact (proj1 (P3 (Hoth j2 n2 Hne2 Hj2 Hr2)) Hr1).
    + exfalso. exact (proj1 (P3 (Hoth j1 n1 Hne1 Hj1 Hr1)) Hr2).
  - intros j n l k Hp Hj. apply (lookup_link _ _ _ _ _ _ Hlink) in Hj as [[-> ->] | [Hne Hj]]; [by apply P5|].
    apply P4 in Hp; [|done]. pose proof (Ip j n l k Hp Hj) as Hup. pose proof (up_receives _ _ _ _ Hup) as [Hr _].
    destruct (P3 (Hoth j n Hne Hj Hr)) as (_ & _ & Hd & Ha).
    apply (uploading_other n (y_env y) _ (a_active a)); [done|by apply (Io j n)|exact Hd|exact Ha].
  - intros j l k Hp. destruct (decide (j = i)) as [-> | Hne].
    + rewrite list_lookup_insert_eq; [done|]. by eapply lookup_lt_Some.
    + rewrite list_lookup_insert_ne by done. apply P4 in Hp; [|done]. by apply (Il j l k).
  - intros j n Hj Hr. apply (lookup_link _ _ _ _ _ _ Hlink) in Hj as [[-> ->] | [Hne Hj]]; [by apply P6|].
    destruct (Iu j n Hj Hr) as (l & k & Hp). exists l, k. by apply P4.
Qed.

(** The link's own upload, if it has one. *)
Lemma own_pending : receives_mission v -> exists l k, a = mkMissions (a_active a) (a_crc a) (Some (i, l, k)) /\ uploading v (a_active a) l k.
Proof.
  intros Hr. destruct (si_uploads _ _ Hinv i m Hlink Hr) as (l & k & Hp). exists l, k. split; [destruct a; cbn in *; by subst|].
  by apply (si_pending _ _ Hinv i m).
Qed.
Lemma no_own_pending l k : ~ receives_mission v -> a_pending a <> Some (i, l, k).
Proof. intros Hr Hp. apply Hr. exact (up_receives _ _ _ _ (si_pending _ _ Hinv i m l k Hp Hlink)). Qed.
Lemma receiving_alone : receiving v -> ~ others_receive.
Proof. intros Hr (j & n & Hne & Hj & Hn). apply Hne. exact (si_one _ _ Hinv j i n m Hj Hlink Hn Hr). Qed.
Lemma others_progress : others_receive -> v_progress v = true.
Proof. intros (j & n & Hne & Hj & Hn). by apply (si_ok _ _ Hinv j n Hj). Qed.
Lemma active_now : active_ok v (a_active a) (a_crc a).
Proof. apply (si_active _ _ Hinv). Qed.
Lemma own_ok : receiving v -> getlist_ok v /\ v_progress v = true.
Proof. by apply (si_ok _ _ Hinv i m). Qed.

(** The active items lie outside the slot that the upload writes. *)
Lemma active_frame l k : uploading v (a_active a) l k ->
  (forall j n, waypoint_key j -> (j, n) <> (tr_dataman_id (v_tr v), tr_seq (v_tr v)) -> stored (v_dm v') j n = stored (v_dm v) j n) ->
  forall n it, a_active a !! n = Some it -> stored (v_dm v') (v_id v) (Z.of_nat n) = stored (v_dm v) (v_id v) (Z.of_nat n).
Proof.
  intros Hup Hfr n it Hn. apply Hfr; [apply active_now|]. intros [= E _]. revert E. apply not_eq_sym, (up_inactive _ _ _ _ Hup).
  intros Hnil. by rewrite Hnil in Hn.
Qed.

(** A step that keeps the mission and does not start or continue an upload of one. *)
Lemma step_keep pend : keeps_mission v v' -> same_items (v_dm v) (v_dm v') ->
  (receiving v' -> getlist_ok v' /\ v_progress v' = true) -> (others_receive -> ~ receiving v' /\ v_progress v' = true) ->
  (forall j l k, j <> i -> pend = Some (j, l, k) <-> a_pending a = Some (j, l, k)) ->
  (forall l k, pend = Some (i, l, k) -> uploading v' (a_active a) l k) ->
  (receives_mission v' -> exists l k, pend = Some (i, l, k)) -> sys_inv y' (mkMissions (a_active a) (a_crc a) pend).
Proof.
  intros Hk Hd Hg Ho Hp4 Hp5 Hp6. apply inv_step; try done; cbn [a_active a_crc a_pending].
  - apply (active_calm _ _ _ _ active_now Hk). intros n it _. apply Hd, active_now.
  - intros Hot. destruct (Ho Hot) as [Hr Hp]. split_and!; try done. intros Ha. split; [done|apply Hk].
Qed.

Lemma others_pending pend : (forall j l k, j <> i -> a_pending a <> Some (j, l, k)) ->
  (forall j l k, j <> i -> pend <> Some (j, l, k)) ->
  forall j l k, j <> i -> pend = Some (j, l, k) <-> a_pending a = Some (j, l, k).
Proof. intros Ha Hp j l k Hne. split; intros E; exfalso; [by apply (Hp j l k)|by apply (Ha j l k)]. Qed.

(** An upload on another link means that the other link receives. *)
Lemma pending_others j l k : j <> i -> a_pending a = Some (j, l, k) -> others_receive.
Proof.
  intros Hne Hp. destruct (si_link _ _ Hinv j l k Hp) as [n Hn]. exists j, n. split_and!; try done.
  apply (up_receives _ _ _ _ (si_pending _ _ Hinv j n l k Hp Hn)).
Qed.

Lemma uploading_calm l k : uploading v (a_active a) l k -> calm v v' -> receiving v' -> v_tr v' = v_tr v -> v_type v' = v_type v ->
  uploading v' (a_active a) l k.
Proof.
  intros [[Hr Hm] Hs Hk Hi Ha] [Ci _ _ _ _ Cd] Hr' Ht Hy. destruct (own_ok Hr) as [[_ _ _ Hkey _] _].
  constructor; rewrite ?Ht, ?Ci; try done; [by split; [|congruence]|]. intros n it Hn. rewrite Cd by auto. auto.
Qed.

Lemma step_calm : calm v v' -> (receiving v -> receiving v' /\ v_tr v' = v_tr v /\ v_type v' = v_type v) ->
  (~ receiving v -> ~ receiving v') -> sys_inv y' a.
Proof.
  intros Hc Hin Hout.
  assert (Hback : receiving v' -> receiving v) by (intros Hr; destruct (decide (v_state v = MAVLINK_WPM_STATE_GETLIST)); [done|by destruct Hout]).
  replace a with (mkMissions (a_active a) (a_crc a) (a_pending a)) by (by destruct a).
  apply step_keep; [by apply calm_keeps|apply Hc| | |done| |].
  - intros Hr. destruct (own_ok (Hback Hr)) as [Hg Hp]. destruct (Hin (Hback Hr)) as (_ & Ht & Hy).
    split; [by apply (getlist_ok_same v)|]. destruct Hc. congruence.
  - intros Ho. split; [intros Hr; by apply (receiving_alone (Hback Hr))|]. destruct Hc as [_ _ _ -> _ _]. by apply others_progress.
  - intros l k Hp. pose proof (si_pending _ _ Hinv i m l k Hp Hlink) as Hup. destruct (Hin (proj1 (up_receives _ _ _ _ Hup))) as (Hr & Ht & Hy).
    by apply uploading_calm.
  - intros [Hr Hm]. destruct (Hin (Hback Hr)) as (_ & Ht & Hy). apply (si_uploads _ _ Hinv i m Hlink).
    split; [by apply Hback|]. etrans; [symmetry; exact Hy|exact Hm].
Qed.

Lemma step_clear : ~ receiving v -> ~ receiving v' -> waypoint_key (v_id v') -> v_count v' = 0 -> v_crc v' = 0 ->
  v_topic v' = (v_id v', 0, 0) -> v_progress v' = v_progress v -> same_items (v_dm v) (v_dm v') ->
  sys_inv y' (mkMissions [] 0 (a_pending a)).
Proof.
  intros Hr Hr' Hk Hc Hcrc Ht Hp Hd. apply inv_step; try done; cbn [a_active a_crc a_pending].
  - constructor; try done. unfold agrees. by rewrite Ht, Hc, Hcrc.
  - intros Ho. split_and!; try done. rewrite Hp. by apply others_progress.
  - intros l k E. exfalso. apply (no_own_pending l k); [|done]. by intros [? _].
  - by intros [? _].
Qed.

Lemma step_abort l k : a_pending a = Some (i, l, k) \/ a_pending a = None -> receiving v -> ~ receiving v' -> keeps_mission v v' ->
  (forall j n, waypoint_key j -> ~ (receives_mission v /\ j = tr_dataman_id (v_tr v) /\ n = tr_seq (v_tr v)) ->
     stored (v_dm v') j n = stored (v_dm v) j n) -> sys_inv y' (mkMissions (a_active a) (a_crc a) None).
Proof.
  intros Hpend Hr Hr' Hk Hfr. apply inv_step; try done; cbn [a_active a_crc a_pending].
  - apply (active_calm _ _ _ _ active_now Hk). intros n it Hn.
    destruct (decide (v_type v = MAV_MISSION_TYPE_MISSION)) as [Hm|Hm].
    + destruct (own_pending (conj Hr Hm)) as (l1 & k1 & _ & Hup). apply (active_frame l1 k1 Hup) with (it := it); [|done].
      intros j x Hj Hne. apply Hfr; [done|]. intros (_ & -> & ->). done.
    + apply Hfr; [apply active_now|]. by intros [[_ ?] _].
  - intros Ho. by destruct (receiving_alone Hr).
  - intros j l1 k1 Hne. split; [done|]. intros E. exfalso. destruct Hpend as [E'|E']; rewrite E' in E; [|done]. by injection E.
  - by intros [? _].
Qed.

Lemma step_begin : ~ receiving v -> receiving v' -> v_progress v = false -> v_progress v' = true -> keeps_mission v v' ->
  same_items (v_dm v) (v_dm v') -> getlist_ok v' -> tr_seq (v_tr v') = 0 -> tr_crc32 (v_tr v') = 0 ->
  (v_type v' = MAV_MISSION_TYPE_MISSION -> tr_dataman_id (v_tr v') <> v_id v') ->
  a_pending a = None /\
  sys_inv y' (mkMissions (a_active a) (a_crc a) (if decide (v_type v' = MAV_MISSION_TYPE_MISSION) then Some (i, [], 0) else None)).
Proof.
  intros Hr Hr' Hp Hp' Hk Hd Hg Hs Hc Hid.
  assert (Hno : ~ others_receive) by (intros Ho; by rewrite (others_progress Ho) in Hp).
  assert (Hnone : a_pending a = None).
  { destruct (a_pending a) as [[[j l] k]|] eqn:E; [|done]. exfalso. destruct (decide (j = i)) as [-> | Hne].
    - apply (no_own_pending l k); [|done]. by intros [? _].
    - by apply Hno, (pending_others j l k). }
  split; [done|]. apply step_keep; try done.
  - intros j l k Hne. rewrite Hnone. split; [|done]. case_decide; [|done]. intros [= E _ _]. congruence.
  - intros l k E. case_decide as Hm; [|done]. injection E as <- <-. by constructor; [split| | | |auto].
  - intros [_ Hm]. rewrite decide_True by done. eauto.
Qed.

(** What an upload has after one more item is stored. *)
Lemma stored_more l k it : uploading v (a_active a) l k -> stores_item v v' it -> forall n x, (l ++ [it]) !! n = Some x ->
  stored (v_dm v') (tr_dataman_id (v_tr v)) (Z.of_nat n) = mission_item_bytes x.
Proof.
  intros Hup (Hkey & Hw & Hfr) n x Hn. pose proof (up_seq _ _ _ _ Hup) as Hs. unfold zlen in Hs.
  apply lookup_snoc_Some in Hn as [[Hlt Hn] | [-> <-]].
  - rewrite Hfr; [by apply (up_items _ _ _ _ Hup)|done|]. intros E. apply (f_equal snd) in E. cbn [snd] in E. rewrite Hs in E. lia.
  - by rewrite <- Hs.
Qed.

Lemma own_pending_other l k pend : a_pending a = Some (i, l, k) -> (forall j l' k', j <> i -> pend <> Some (j, l', k')) ->
  forall j l' k', j <> i -> pend = Some (j, l', k') <-> a_pending a = Some (j, l', k').
Proof.
  intros Hp Hno. apply others_pending; [|done]. intros j l' k' Hne E. rewrite Hp in E. congruence.
Qed.

Lemma step_item l k wp it : uploading v (a_active a) l k -> a_pending a = Some (i, l, k) -> receives_mission v' -> stores_item v v' it ->
  keeps_mission v v' -> v_progress v' = v_progress v -> tr_dataman_id (v_tr v') = tr_dataman_id (v_tr v) ->
  tr_count (v_tr v') = tr_count (v_tr v) -> tr_seq (v_tr v') = tr_seq (v_tr v) + 1 -> tr_seq (v_tr v') < tr_count (v_tr v') ->
  tr_crc32 (v_tr v') = crc32_for_mission_item wp (tr_crc32 (v_tr v)) ->
  sys_inv y' (mkMissions (a_active a) (a_crc a) (Some (i, l ++ [it], crc32_for_mission_item wp k))).
Proof.
  intros Hup Hpend Hr' Hst Hk Hpr Hid Hc Hs Hlt Hcrc. destruct (up_receives _ _ _ _ Hup) as [Hr Hm].
  destruct (own_ok Hr) as [Hg Hp]. apply inv_step; cbn [a_active a_crc a_pending].
  - apply (active_calm _ _ _ _ active_now Hk). apply (active_frame l k Hup). apply Hst.
  - intros _. split; [|congruence]. destruct Hr' as [_ Hm']. destruct Hg as [G1 G2 G3 G4 G5]. constructor; rewrite ?Hid, ?Hc, ?Hs; try done.
    + lia.
    + rewrite Hcrc. by apply crc32_for_mission_item_eq.
    + by intros _; apply G4.
  - intros Ho. by destruct (receiving_alone Hr).
  - apply (own_pending_other l k); [done|]. intros j l' k' Hne [= E]. congruence.
  - intros l' k' [= <- <-]. constructor; rewrite ?Hid; try done.
    + rewrite Hs, (up_seq _ _ _ _ Hup). unfold zlen. rewrite length_app. cbn. lia.
    + by rewrite Hcrc, (up_crc _ _ _ _ Hup).
    + by apply (stored_more l k).
    + destruct Hk as [-> _ _ _]. apply (up_inactive _ _ _ _ Hup).
  - eauto.
Qed.

Lemma step_other : receiving v -> receiving v' -> v_type v <> MAV_MISSION_TYPE_MISSION -> v_type v' = v_type v -> calm v v' ->
  getlist_ok v' -> sys_inv y' a.
Proof.
  intros Hr Hr' Hm Hm' Hc Hg. replace a with (mkMissions (a_active a) (a_crc a) (a_pending a)) by (by destruct a).
  apply step_keep; [by apply calm_keeps|apply Hc| | |done| |].
  - intros _. split; [done|]. destruct (own_ok Hr) as [_ Hp]. destruct Hc. congruence.
  - intros Ho. by destruct (receiving_alone Hr).
  - intros l k E. exfalso. apply (no_own_pending l k); [|done]. by intros [_ ?].
  - intros [_ Hm'']. exfalso. apply Hm. by rewrite <- Hm'.
Qed.

Lemma step_release : v_state v = MAVLINK_WPM_STATE_SENDLIST -> ~ receiving v' -> keeps_mission v v' -> same_items (v_dm v) (v_dm v') ->
  (others_receive -> v_progress v' = true) -> sys_inv y' a.
Proof.
  intros Hs Hr' Hk Hd Ho. replace a with (mkMissions (a_active a) (a_crc a) (a_pending a)) by (by destruct a).
  apply step_keep; try done.
  - intros Hot. by split; [|apply Ho].
  - intros l k E. exfalso. apply (no_own_pending l k); [|done]. intros [Hr _]. by rewrite Hr in Hs.
  - by intros [? _].
Qed.

Lemma step_commit l k it crc : uploading v (a_active a) l k -> a_pending a = Some (i, l, k) -> ~ receiving v' -> stores_item v v' it ->
  tr_count (v_tr v) = tr_seq (v_tr v) + 1 ->
  (crc = v_crc v -> keeps_mission v v') ->
  (crc <> v_crc v -> v_id v' = tr_dataman_id (v_tr v) /\ v_count v' = tr_count (v_tr v) /\ v_crc v' = crc /\
     v_topic v' = (v_id v', v_count v', v_crc v')) ->
  sys_inv y' (if decide (crc = v_crc v) then mkMissions (a_active a) (a_crc a) None else mkMissions (l ++ [it]) crc None).
Proof.
  intros Hup Hpend Hr' Hst Hc Hsame Hnew. destruct (up_receives _ _ _ _ Hup) as [Hr Hm]. apply inv_step.
  - case_decide as E; cbn [a_active a_crc].
    + apply (active_calm _ _ _ _ active_now (Hsame E)). apply (active_frame l k Hup). apply Hst.
    + destruct (Hnew E) as (Hi & Hn & Hk & Ht). constructor; rewrite ?Hi; try done; [apply Hst| |].
      * rewrite Hn, Hc, (up_seq _ _ _ _ Hup). unfold zlen. rewrite length_app. cbn. lia.
      * by apply (stored_more l k).
  - done.
  - intros Ho. by destruct (receiving_alone Hr).
  - apply (own_pending_other l k); [done|]. intros j l' k' _. by case_decide.
  - intros l' k'. by case_decide.
  - by intros [? _].
Qed.

(** Every step of a link is a step of the specification, unless a link that gives up a download
    releases the upload of another one. *)
Lemma link_step msg : vstep msg v v' ->
  (v_state v = MAVLINK_WPM_STATE_SENDLIST -> others_receive -> v_progress v' = true) ->
  exists a', spec_step i msg a a' /\ sys_inv y' a'.
Proof.
  intros [Hc Hin Hout|Hr Hr' Hcl Hk Hc Hcrc Ht Hp Hd|Hr Hr' Hp Hp' Hk Hd Hg Hs Hc Hid|Hr Hr' Hp Hk Hfr
    |wp it Hr Hr' Hmsg Hst Hk Hpr Hid Hc Hs Hlt Hcrc|Hr Hr' Hm Hm' Hc Hg
    |wp it Hr Hr' Hmsg Hst Hp Hc crc Hsame Hnew|_ Hs Hr' Hp Hk Hd] Hguard.
  - exists a. split; [constructor|by apply step_calm].
  - exists (mkMissions [] 0 (a_pending a)). split; [destruct a; by constructor|by apply step_clear].
  - destruct (step_begin Hr Hr' Hp Hp' Hk Hd Hg Hs Hc Hid) as [Hnone Hin]. eexists. split; [|exact Hin].
    destruct a as [act ac pend]. cbn in *. subst pend. case_decide; constructor.
  - assert (Hcase : (exists l k, a_pending a = Some (i, l, k)) \/ a_pending a = None).
    { destruct (a_pending a) as [[[j l] k]|] eqn:E; [left|by right]. destruct (decide (j = i)) as [-> | Hne]; [eauto|].
      destruct (receiving_alone Hr). by apply (pending_others j l k). }
    exists (mkMissions (a_active a) (a_crc a) None). destruct Hcase as [(l & k & Hcase)|Hcase].
    + split; [|by apply (step_abort l k); auto]. destruct a; cbn in *; subst; constructor.
    + split; [|by apply (step_abort [] 0); auto]. destruct a; cbn in *; subst; constructor.
  - destruct (own_pending Hr) as (l & k & Ha & Hup). eexists. split; [rewrite Ha at 1; by apply sp_item with (wp := wp) (it := it)|].
    apply step_item; try done. by rewrite Ha.
  - exists a. split; [constructor|]. by apply step_other.
  - destruct (own_pending Hr) as (l & k & Ha & Hup). eexists. split; [|apply (step_commit l k it crc); try done; by rewrite Ha].
    rewrite Ha at 1. pose proof (ac_crc _ _ _ active_now) as Hac. pose proof (up_crc _ _ _ _ Hup) as Hk. unfold crc.
    rewrite Hk. case_decide as E; [apply (sp_same _ _ _ _ _ _ wp it Hmsg)|apply sp_commit; [done|]]; congruence.
  - exists a. split; [constructor|]. apply step_release; auto.
Qed.

Lemma calm_keeps_progress : calm_step v v' -> v_state v = MAVLINK_WPM_STATE_SENDLIST -> others_receive -> v_progress v' = true.
Proof. intros [Hc _] _ Ho. rewrite (calm_progress _ _ Hc). by apply others_progress. Qed.

(** Only [send] gives up a download. *)
Lemma message_keeps_progress msg : vstep (Some msg) v v' -> v_state v = MAVLINK_WPM_STATE_SENDLIST -> others_receive -> v_progress v' = true.
Proof.
  intros Hv Hs Ho. pose proof (others_progress Ho) as Hp. assert (Hnr : ~ receiving v) by (unfold receiving; congruence).
  destruct Hv; try done; try congruence.
  all: try match goal with Hc : calm _ _ |- _ => by rewrite (calm_progress _ _ Hc) | Hr : receives_mission v |- _ => by destruct Hr end.
Qed.
End link_step.

Lemma at_link_spec i f y a msg : sys_inv y a ->
  (forall m, y_links y !! i = Some m -> let w := mkWorld m (y_env y) in
     vstep msg (view_of w) (view_of (f w)) /\
     (v_state (view_of w) = MAVLINK_WPM_STATE_SENDLIST -> others_receive y i -> v_progress (view_of (f w)) = true)) ->
  exists a', spec_step i msg a a' /\ sys_inv (at_link i f y) a'.
Proof.
  intros Hinv Hf. unfold at_link. destruct (y_links y !! i) as [m|] eqn:E; [|exists a; split; [constructor|done]].
  destruct (Hf m eq_refl) as [Hv Hg]. by apply (link_step y a i m (f (mkWorld m (y_env y))) Hinv E msg).
Qed.

(** A link that receives, with another one that gives up a download. *)
Definition undisturbed (ev : event) (y : system) : Prop :=
  match ev with
  | Message _ msg => message_ok msg
  | Send i irid => forall m, y_links y !! i = Some m -> drops_download (mkWorld m (y_env y)) -> ~ others_receive y i
  | _ => True
  end.

Lemma send_in_time i irid y :
  match y_links y !! i with Some m => timed_out (mkWorld m (y_env y)) | None => false end = false -> undisturbed (Send i irid) y.
Proof. intros Ht m Hm [Hd _]. rewrite Hm in Ht. congruence. Qed.

Fixpoint undisturbed_run (evs : list event) (y : system) : Prop :=
  match evs with
  | [] => True
  | ev :: evs => undisturbed ev y /\ undisturbed_run evs (sys_step ev y)
  end.

(** What happens around the links does not matter. *)
Lemma env_inv y a e' : sys_inv y a -> e_sh e' = e_sh (y_env y) -> e_dm e' = e_dm (y_env y) ->
  topic_of (e_mission e') = topic_of (e_mission (y_env y)) -> sys_inv (mkSystem (y_links y) e') a.
Proof.
  intros Hinv Hsh Hdm Ht.
  assert (Hv : forall m, link_view m e' = link_view m (y_env y)) by (intros m; unfold link_view, view_of, w_sh; cbn [w_e w_m]; by rewrite Hsh, Hdm, Ht).
  destruct Hinv. constructor; cbn [y_links y_env]; intros *; rewrite ?Hv; eauto.
Qed.

Lemma message_step i msg y a : sys_inv y a -> message_ok msg ->
  exists a', spec_step i (Some msg) a a' /\ sys_inv (at_link i (handle_message msg) y) a'.
Proof.
  intros Hinv Hm. apply at_link_spec; [done|]. intros m Hl w.
  assert (Hv : vstep (Some msg) (view_of w) (view_of (handle_message msg w))).
  { apply handle_vstep; [|apply (ac_key _ _ _ (si_active _ _ Hinv m))|done]. intros Hr. by apply (si_ok _ _ Hinv i m). }
  split; [exact Hv|]. by apply (message_keeps_progress y a i m _ Hinv msg).
Qed.

Lemma calm_at_link i f y a : sys_inv y a ->
  (forall m, y_links y !! i = Some m -> calm_step (view_of (mkWorld m (y_env y))) (view_of (f (mkWorld m (y_env y))))) ->
  exists a', spec_step i None a a' /\ sys_inv (at_link i f y) a'.
Proof.
  intros Hinv Hf. apply at_link_spec; [done|]. intros m Hl w. pose proof (Hf m Hl) as Hc.
  split; [by apply calm_step_vstep|]. by apply (calm_keeps_progress y a i m _ Hinv).
Qed.

Lemma others_receive_set y i m x : y_links y !! i = Some m ->
  others_receive (mkSystem (<[i := w_m x]> (y_links y)) (w_e x)) i -> others_receive y i.
Proof.
  intros Hl (j & n & Hne & Hj & Hr). exists j, n. split; [done|]. cbn [y_links] in Hj.
  by rewrite list_lookup_insert_ne in Hj by done.
Qed.

Lemma send_step i irid y a : sys_inv y a -> undisturbed (Send i irid) y ->
  exists a', (exists b, spec_step i None a b /\ spec_step i None b a') /\ sys_inv (at_link i (send irid) y) a'.
Proof.
  intros Hinv Hu. cbn [undisturbed] in Hu. unfold at_link. destruct (y_links y !! i) as [m|] eqn:Hl; [|exists a; split; [|done]; exists a; split; constructor].
  destruct (send_steps irid (mkWorld m (y_env y))) as (x & Hx & Hv & Hst & Hd & Hno).
  destruct (link_step y a i m x Hinv Hl None) as (b & Hb & Hib); [by apply calm_step_vstep|by apply (calm_keeps_progress y a i m _ Hinv)|].
  set (y1 := mkSystem (<[i := w_m x]> (y_links y)) (w_e x)) in *.
  assert (Hl1 : y_links y1 !! i = Some (w_m x)) by (apply list_lookup_insert_eq; by eapply lookup_lt_Some).
  cbv zeta. set (w' := send irid _) in *. assert (Hx1 : link_view (w_m x) (y_env y1) = view_of x) by (by destruct x).
  destruct (link_step y1 b i (w_m x) w' Hib Hl1 None) as (c & Hc & Hic); rewrite ?Hx1; [done| |].
  - intros Hs Ho. assert (Hnd : ~ drops_download (mkWorld m (y_env y))) by (intros Hdd; apply (Hu m eq_refl Hdd), (others_receive_set y i m x Hl Ho)).
    rewrite (calm_progress _ _ (Hno Hnd Hs)). rewrite <- Hx1. by apply (others_progress y1 b i).
  - exists c. split; [eauto|]. unfold y1 in Hic. cbn [y_links] in Hic. by rewrite list_insert_insert_eq in Hic.
Qed.

Lemma event_step ev y a : sys_inv y a -> undisturbed ev y -> exists a', spec_event ev a a' /\ sys_inv (sys_step ev y) a'.
Proof.
  intros Hinv Hu. destruct ev; cbn [sys_step spec_event].
  - by apply message_step.
  - destruct (calm_at_link i (check_active_mission iridium) y a) as (b & Hb & Hi); [done| |].
    + intros m Hl. apply check_calm. apply (ac_topic _ _ _ (si_active _ _ Hinv m)).
    + exists b. split; [|done]. exists b. split; [done|constructor].
  - by apply send_step.
  - exists a. split; [done|]. by apply env_inv.
  - exists a. split; [done|]. by apply env_inv.
  - exists a. split; [done|]. by apply env_inv.
  - exists a. split; [done|]. by apply env_inv.
Qed.

Lemma run_step evs y a : sys_inv y a -> undisturbed_run evs y -> exists a', spec_run evs a a' /\ sys_inv (sys_run evs y) a'.
Proof.
  revert y a. induction evs as [|ev evs IH]; intros y a Hinv Hu; [exists a; split; [constructor|done]|].
  destruct Hu as [Hu Hus]. destruct (event_step ev y a Hinv Hu) as (b & Hb & Hi). destruct (IH _ b Hi Hus) as (c & Hc & Hic).
  exists c. split; [by econstructor|done].
Qed.

(** ** Start-up *)

(** The links are created one after the other; the first one loads the mission. *)
Definition new_link (y : system) : system :=
  let w := MavlinkMissionManager_new sizeof_mission_s mission_bytes mission_of_bytes (y_env y) in
  mkSystem (y_links y ++ [w_m w]) (w_e w).
Definition boot (n : nat) (e : env D) : system := Nat.iter n new_link (new_link (mkSystem [] e)).

(** The storage holds a mission, with its state. *)
Record saved (d : D) (ms : mission_s) (act : list mission_item_s) : Prop := {
  sv_state : stored d DM_KEY_MISSION_STATE 0 = mission_bytes ms;
  sv_key : waypoint_key (ms_mission_dataman_id ms);
  sv_count : ms_count ms = zlen act;
  sv_items k it : act !! k = Some it -> stored d (ms_mission_dataman_id ms) (Z.of_nat k) = mission_item_bytes it;
}.

Notation New := (MavlinkMissionManager_new sizeof_mission_s mission_bytes mission_of_bytes).

Lemma quiet_init b w : quiet_step w (on_sh (s_set_init b) w).
Proof. quiet_now. Qed.
Lemma init_after_stats w : s_dataman_init (w_sh (load_geofence_stats w).2) = s_dataman_init (w_sh w) /\
  s_dataman_init (w_sh (load_safepoint_stats w).2) = s_dataman_init (w_sh w).
Proof.
  unfold load_geofence_stats, load_safepoint_stats, MavlinkMission.readSync.
  destruct (dm_readSync DM_KEY_FENCE_POINTS_STATE _ _ _) as [[]], (dm_readSync DM_KEY_SAFE_POINTS_STATE _ _ _) as [[]]; done.
Qed.

Lemma view_my_ids a b c w : view_of (on_m (fun m => m_set_my_safepoint a (m_set_my_fence b (m_set_my_mission c m))) w) = view_of w.
Proof. done. Qed.

(** What the first link finds. *)
Definition found (e : env D) : Z * Z * Z :=
  match (dm_readSync DM_KEY_MISSION_STATE 0 sizeof_mission_s (e_dm e)).1 with
  | Some bytes => topic_of (mission_of_bytes bytes)
  | None => (DM_KEY_WAYPOINTS_OFFBOARD_0, 0, 0)
  end.

Lemma first_link e : e_sh e = shared_init -> let v := view_of (New e) in
  v_state v = MAVLINK_WPM_STATE_IDLE /\ agrees v /\ v_topic v = found e /\ same_items (e_dm e) (v_dm v) /\
  s_dataman_init (w_sh (New e)) = true.
Proof.
  intros He. unfold MavlinkMissionManager_new. cbv zeta. change (w_sh (mkWorld (manager_init e) e)) with (e_sh e). rewrite He.
  change (negb (s_dataman_init shared_init)) with true. cbn iota.
  set (w0 := mkWorld (manager_init e) e). set (w1 := on_sh (s_set_init true) w0). assert (Q1 : quiet_step w0 w1) by apply quiet_init.
  assert (Hf : found e = match (MavlinkMission.readSync DM_KEY_MISSION_STATE 0 sizeof_mission_s w1).1 with
                         | Some bytes => topic_of (mission_of_bytes bytes) | None => (DM_KEY_WAYPOINTS_OFFBOARD_0, 0, 0) end)
    by (unfold found, MavlinkMission.readSync, w1, w0; cbn; by destruct (dm_readSync _ _ _ _)).
  rewrite Hf. clear Hf. assert (Hini : s_dataman_init (w_sh (MavlinkMission.readSync DM_KEY_MISSION_STATE 0 sizeof_mission_s w1).2) = true)
    by (unfold MavlinkMission.readSync, w1; by destruct (dm_readSync _ _ _ _)).
  after_read Qr r w2. cbn [fst snd] in *. assert (Q2 : quiet_step w0 w2) by (by etrans). clear Q1 Qr w1.
  destruct Q2 as [[Qi Qc Qk Qp Qt Qd] Qs _ _ _ _].
  match goal with |- context [update_active_mission _ _ _ _ _ false ?x] => set (w3 := x) end.
  set (t := match r with Some _ => _ | None => _ end).
  assert (H3 : (v_id (view_of w3), v_count (view_of w3), v_crc (view_of w3)) = t /\ m_state (w_m w3) = MAVLINK_WPM_STATE_IDLE /\
               same_items (e_dm e) (e_dm (w_e w3)) /\ s_dataman_init (w_sh w3) = true).
  { unfold w3, t. destruct r as [bytes|]; [|split_and!; try done; rewrite Qi, Qc, Qk; unfold w0, view_of, w_sh; cbn [w_e w_m]; by rewrite He].
    set (w4 := init_offboard_mission _ w2). pose proof (quiet_load_geofence w4) as Q4. set (w5 := (load_geofence_stats w4).2) in *.
    pose proof (quiet_load_safepoint w5) as Q5. assert (Hi6 : s_dataman_init (w_sh (load_safepoint_stats w5).2) = true)
      by (rewrite (proj2 (init_after_stats w5)); unfold w5; rewrite (proj1 (init_after_stats w4)); exact Hini).
    set (w6 := (load_safepoint_stats w5).2) in *. assert (Q6 : quiet_step w4 w6) by (by etrans).
    destruct Q6 as [[Ri Rc Rk _ _ Rd] Rs _ _ _ _]. rewrite Ri, Rc, Rk, Rs. split_and!; [done|exact Qs| |exact Hi6]. etrans; [exact Qd|exact Rd]. }
  destruct H3 as (H3 & Hs3 & Hd3 & Hi3).
  match goal with |- context [update_active_mission ?mb ?a ?b ?c ?d false w3] =>
    destruct (activates_update a b c d false w3) as [Ai Ac Ak At _ As _ _ Ad]; set (w7 := update_active_mission mb a b c d false w3) in * end.
  assert (H7 : s_dataman_init (w_sh w7) = true) by exact Hi3. clearbody w7. rewrite view_my_ids. cbn zeta.
  split_and!; [etrans; [exact As|exact Hs3]| |by rewrite At|etrans; [exact Hd3|exact Ad]|exact H7].
  unfold agrees. by rewrite At, Ai, Ac, Ak.
Qed.

Lemma link_added y m' a : sys_inv y a -> m_state m' = MAVLINK_WPM_STATE_IDLE -> sys_inv (mkSystem (y_links y ++ [m']) (y_env y)) a.
Proof.
  intros [Ia Io I1 Ip Il Iu] Hm.
  assert (Hold : forall i m, (y_links y ++ [m']) !! i = Some m -> receiving (link_view m (y_env y)) -> y_links y !! i = Some m).
  { intros i m [[_ Hi] | [-> <-]]%lookup_snoc_Some Hr; [done|]. unfold receiving in Hr. cbn in Hr. congruence. }
  constructor; cbn [y_links y_env]; [done| | | | |].
  - intros i m Hi Hr. eauto.
  - intros i j m n Hi Hj Hr Hr'. eauto.
  - intros i m l k Hp Hi. destruct (Il i l k Hp) as [n Hn]. rewrite (lookup_app_l_Some _ _ _ _ Hn) in Hi. injection Hi as <-. eauto.
  - intros i l k Hp. destruct (Il i l k Hp) as [n Hn]. rewrite (lookup_app_l_Some _ _ _ _ Hn). done.
  - intros i m Hi [Hr Ht]. apply (Iu i m); [eauto|done].
Qed.

Lemma next_link y a : sys_inv y a -> s_dataman_init (e_sh (y_env y)) = true -> sys_inv (new_link y) a /\ y_env (new_link y) = y_env y.
Proof.
  intros Hinv Hi. unfold new_link, MavlinkMissionManager_new. cbv zeta.
  change (w_sh (mkWorld (manager_init (y_env y)) (y_env y))) with (e_sh (y_env y)). rewrite Hi. cbn [negb]. split; [|done].
  by apply link_added.
Qed.

Lemma boot_inv n e ms act : e_sh e = shared_init -> saved (e_dm e) ms act -> zlen (mission_bytes ms) = sizeof_mission_s ->
  mission_of_bytes (mission_bytes ms) = ms ->
  sys_inv (boot n e) (if (dm_readSync DM_KEY_MISSION_STATE 0 sizeof_mission_s (e_dm e)).1 then mkMissions act (ms_mission_id ms) None
                      else mkMissions [] 0 None).
Proof.
  intros He [Hst Hkey Hc Hit] Hlen Hdec. set (a := if (dm_readSync _ _ _ _).1 then _ else _).
  destruct (first_link e He) as (Hs & Hag & Ht & Hd & Hi).
  assert (H1 : sys_inv (new_link (mkSystem [] e)) a).
  { unfold new_link. cbn [y_links y_env app]. change [w_m (New e)] with ([] ++ [w_m (New e)]).
    apply (link_added (mkSystem [] (w_e (New e)))); [|exact Hs]. constructor; cbn [y_links y_env]; try done.
    2: intros ? ? ?; unfold a; by destruct (dm_readSync _ _ _ _).1.
    intros m. apply (active_link (w_m (New e))). change (link_view (w_m (New e)) (w_e (New e))) with (view_of (New e)).
    set (v := view_of (New e)) in *. clearbody v. unfold found in Ht. rewrite Hag in Ht. unfold a. clear a. destruct (dm_readSync _ _ _ _) as [[bytes|] d'] eqn:Er; cbn [fst] in *.
    - destruct (read_value _ _ _ _ _ _ Er) as [_ Hb]. rewrite Hst, Hlen, Z.sub_diag in Hb. cbn in Hb. rewrite app_nil_r in Hb.
      subst bytes. rewrite Hdec in Ht. injection Ht as Vi Vc Vk. constructor; cbn [a_active a_crc]; rewrite ?Vi; try done; [congruence|].
      intros k it Hk. rewrite Hd by done. auto.
    - injection Ht as Vi Vc Vk. constructor; cbn [a_active a_crc]; rewrite ?Vi; try done. by left. }
  unfold boot. assert (H2 : sys_inv (Nat.iter n new_link (new_link (mkSystem [] e))) a /\
    y_env (Nat.iter n new_link (new_link (mkSystem [] e))) = w_e (New e)); [|apply H2].
  induction n as [|n [IH1 IH2]]; [done|]. cbn [Nat.iter]. destruct (next_link _ a IH1) as [? E2]; [by rewrite IH2|].
  split; [done|]. etrans; [exact E2|exact IH2].
Qed.

(** What the navigator finds: the topic names a storage that holds exactly this mission. *)
Definition publishes (y : system) (act : list mission_item_s) (crc : Z) : Prop :=
  exists id, waypoint_key id /\ topic_of (e_mission (y_env y)) = (id, zlen act, crc) /\
    forall k it, act !! k = Some it -> stored (e_dm (y_env y)) id (Z.of_nat k) = mission_item_bytes it.

Lemma inv_publishes y a : sys_inv y a -> publishes y (a_active a) (a_crc a).
Proof.
  intros Hinv. destruct (si_active _ _ Hinv (manager_init (y_env y))) as [Hk Hn Hc Ht Hi].
  eexists. split; [exact Hk|]. split; [|exact Hi]. unfold agrees in Ht. rewrite Hn, Hc in Ht. exact Ht.
Qed.

(** C5: Missions are replaced atomically. Several links start on a storage that holds a mission
    and then handle messages, send and check the topic in any order, with any write or read
    failing. Unless a link gives up a download while another one receives, the links together
    behave like the specification, in which one upload at a time collects items, and the active
    mission is replaced in one step by the items of a completed upload, kept when an upload
    fails, or deleted on request. At every point the published mission names a storage that
    holds all of the active mission's items. *)
Theorem mission_upload_atomic n e ms act evs :
  e_sh e = shared_init -> saved (e_dm e) ms act -> zlen (mission_bytes ms) = sizeof_mission_s -> mission_of_bytes (mission_bytes ms) = ms ->
  let a0 := if (dm_readSync DM_KEY_MISSION_STATE 0 sizeof_mission_s (e_dm e)).1 then mkMissions act (ms_mission_id ms) None
            else mkMissions [] 0 None in
  let y0 := boot n e in
  undisturbed_run evs y0 -> exists a, spec_run evs a0 a /\ publishes (sys_run evs y0) (a_active a) (a_crc a).
Proof.
  intros He Hs Hl Hd a0 y0 Hu. destruct (run_step evs y0 a0 (boot_inv n e ms act He Hs Hl Hd) Hu) as (a & Hr & Hi).
  exists a. split; [done|]. by apply inv_publishes.
Qed.
End upload.

(** ** An instance

    Two links start on a storage with a mission of one item; the first one uploads another
    mission, the second one looks for changes and sends meanwhile. *)
#[local] Existing Instances sample_storage sample_laws.

Definition sample_waypoint (seq lat lon alt : Z) : mavlink_mission_item_t :=
  mkWp 0 0 0 0 lat lon alt seq MAV_CMD_NAV_WAYPOINT 1 1 MAV_FRAME_GLOBAL_RELATIVE_ALT_INT 0 1 MAV_MISSION_TYPE_MISSION.
Lemma sample_waypoint_wf seq lat lon alt :
  0 <= seq < 2 ^ 16 -> f32_ok lat -> f32_ok lon -> f32_ok alt -> wp_wf (sample_waypoint seq lat lon alt).
Proof. intros. constructor; cbn; try done; repeat apply Forall_cons_2; try done; apply Forall_nil_2. Qed.
Definition sample_item (wp : mavlink_mission_item_t) : mission_item_s :=
  match parse_mavlink_mission_item true 0 wp with inr it => it | inl _ => mission_item_zero end.

Definition sample_mission_bytes (ms : mission_s) : list Z :=
  le_bytes 4 ms.(ms_mission_dataman_id) ++ le_bytes 4 ms.(ms_count) ++ le_bytes 4 ms.(ms_current_seq) ++
  le_bytes 4 ms.(ms_mission_id) ++ zeros 24.
Definition sample_mission_of_bytes (bytes : list Z) : mission_s :=
  mkMission 0 (field 0 4 bytes) 0 0 (field 4 4 bytes) (field 8 4 bytes) 0 0 (field 12 4 bytes) 0 0.

Definition sample_mission : mission_s := mkMission 0 DM_KEY_WAYPOINTS_OFFBOARD_0 0 0 1 0 0 0 77 0 0.
Definition sample_old : mavlink_mission_item_t := sample_waypoint 0 473977420 85455940 1092616192.
Definition sample_store : client_store :=
  mkClientStore (<[(DM_KEY_MISSION_STATE, 0) := sample_mission_bytes sample_mission]>
                 (<[(DM_KEY_WAYPOINTS_OFFBOARD_0, 0) := mission_item_bytes (sample_item sample_old)]> ∅), 5) [].
Definition sample_env : env client_store :=
  mkEnv shared_init sample_store 1000 [] sample_mission 0 (mkResult 0 0 0 true false false 0) 0 (mkStatus false 1 0) 0.

Definition sample_msg (body : mission_message) : mavlink_message := mkMessage 255 190 body.
Definition sample_upload : list event :=
  [Message 0 (sample_msg (M_count 1 1 2 MAV_MISSION_TYPE_MISSION)); Send 1 false;
   Message 0 (sample_msg (M_item true (sample_waypoint 0 473977500 85455940 1092616192)));
   Check_mission 1 false; Elapse 100000;
   Message 0 (sample_msg (M_item true (sample_waypoint 1 473977600 85455940 1092616192))); Send 0 false].

Notation sample_boot := (boot 40 sample_mission_bytes sample_mission_of_bytes 1 sample_env).
Notation sample_run := (sys_run 1 1 4 sample_mission_bytes (zeros 16)).

Lemma sample_saved : saved sample_mission_bytes (e_dm sample_env) sample_mission [sample_item sample_old].
Proof.
  constructor; [reflexivity|by left|reflexivity|]. intros [|[|k]] it; [|done|done]. intros [= <-]. vm_compute. reflexivity.
Qed.
Lemma sample_codec : sample_mission_of_bytes (sample_mission_bytes sample_mission) = sample_mission.
Proof. vm_compute. reflexivity. Qed.

Lemma mission_upload_atomic_witness : exists a,
  spec_run sample_upload (mkMissions [sample_item sample_old] 77 None) a /\
  publishes (sample_run sample_upload sample_boot) (a_active a) (a_crc a).
Proof.
  assert (E : (if (dm_readSync DM_KEY_MISSION_STATE 0 40 (e_dm sample_env)).1 then mkMissions [sample_item sample_old] 77 None
               else mkMissions [] 0 None) = mkMissions [sample_item sample_old] 77 None) by (vm_compute; reflexivity).
  rewrite <- E. apply (mission_upload_atomic 1 1 4 40 sample_mission_bytes sample_mission_of_bytes (zeros 16)
           1 sample_env sample_mission [sample_item sample_old] sample_upload).
  - reflexivity.
  - exact sample_saved.
  - reflexivity.
  - exact sample_codec.
  - cbn [undisturbed_run sample_upload]. split_and!; try exact I.
    all: lazymatch goal with
         | |- undisturbed (Message _ (sample_msg (M_count _ _ _ _))) _ => change (0 <= 2 < 2 ^ 16); lia
         | |- undisturbed (Message _ (sample_msg (M_item _ ?wp))) _ => change (wp_wf wp); apply sample_waypoint_wf; unfold f32_ok; lia
         | |- undisturbed (Send _ _) _ => apply send_in_time; vm_compute; reflexivity
         end.
Defined.
