(* ===== verification/MissionSession.v ===== *)
(** * A session with a ground station

    What a link does when nothing goes wrong: a complete upload of a mission followed by its
    download, with every message sent; and what it does when two links get in each other's
    way. *)
From stdpp Require Import base list gmap.
From Stdlib Require Import ZArith Lia.
From S2P Require Import Prelude Float32 FloatOps Crc Dataman MissionItem MavlinkMission ClientStorage MissionUpload.

Section session.
Context (own_sysid own_compid NUM_MISSION_ITEMS sizeof_mission_s : Z).
Context {D : Type} `{HealthyStorage D sizeof_mission_s NUM_MISSION_ITEMS}.
Context (mission_bytes : mission_s -> list Z) (mission_of_bytes : list Z -> mission_s) (stack : list Z).
Context (items_fit : 0 < NUM_MISSION_ITEMS < 2 ^ 16) (mission_fits : 0 < sizeof_mission_s).
Context (mission_len : forall ms, zlen (mission_bytes ms) = sizeof_mission_s).
Implicit Types (w : world (D := D)).

Notation handle_message := (handle_message own_sysid own_compid NUM_MISSION_ITEMS mission_bytes stack).
Notation accept_item := (accept_item NUM_MISSION_ITEMS mission_bytes stack).

(** The ground station, and the messages it sends one after the other. *)
Context (gcs gcs_comp : Z).
Definition hear (bodies : list mission_message) w : world :=
  foldl (fun w body => handle_message (mkMessage gcs gcs_comp body) w) w bodies.

Definition upload_messages (wps : list mavlink_mission_item_t) : list mission_message :=
  M_count own_sysid own_compid (zlen wps) MAV_MISSION_TYPE_MISSION :: map (M_item true) wps.
Definition download_messages (n : nat) : list mission_message :=
  M_request_list own_sysid own_compid MAV_MISSION_TYPE_MISSION ::
  map (fun k => M_request true own_sysid own_compid (Z.of_nat k) MAV_MISSION_TYPE_MISSION) (seq 0 n) ++
  [M_ack own_sysid own_compid MAV_MISSION_ACCEPTED MAV_MISSION_TYPE_MISSION].

(** ** Items that a mission may hold *)
Definition forbidden : list Z :=
  [MAV_CMD_NAV_FENCE_POLYGON_VERTEX_INCLUSION; MAV_CMD_NAV_FENCE_POLYGON_VERTEX_EXCLUSION;
   MAV_CMD_NAV_FENCE_CIRCLE_INCLUSION; MAV_CMD_NAV_FENCE_CIRCLE_EXCLUSION; MAV_CMD_NAV_RALLY_POINT].

Record good_item (mask seq : Z) (wp : mavlink_mission_item_t) (it : mission_item_s) : Prop := {
  gi_wf : wp_wf wp;
  gi_seq : wp_seq wp = seq;
  gi_type : wp_mission_type wp = MAV_MISSION_TYPE_MISSION;
  gi_target : wp_target_system wp = own_sysid /\ wp_target_component wp = own_compid;
  gi_parse : parse_mavlink_mission_item true mask wp = inr it;
  gi_cmd : one_of (mi_nav_cmd it) forbidden = false;
}.

Lemma for_us_here : for_us own_sysid own_compid own_sysid own_compid = true.
Proof. unfold for_us. by rewrite !Z.eqb_refl. Qed.

Lemma waypoint_slot id k : waypoint_key id -> 0 <= k < NUM_MISSION_ITEMS ->
  slot_ok NUM_MISSION_ITEMS id k /\ slot_size sizeof_mission_s id = 56.
Proof. intros [-> | ->] Hk; (split; [split; [done|exact Hk]|reflexivity]). Qed.
Lemma state_slot : slot_ok NUM_MISSION_ITEMS DM_KEY_MISSION_STATE 0 /\ slot_size sizeof_mission_s DM_KEY_MISSION_STATE = sizeof_mission_s.
Proof. by repeat split. Qed.

(** ** One item *)

(** The world with another transfer and another storage. *)
Definition with_tr_dm (t : transfer) (d : D) w : world := mkWorld (m_set_transfer t (w_m w)) (e_set_dm d (w_e w)).

Lemma on_tr_with f t d w : on_tr f (with_tr_dm t d w) = with_tr_dm (f t) d w.
Proof. done. Qed.

(** What a transfer holds after an item. *)
Record next_transfer (wp : mavlink_mission_item_t) (t t' : transfer) : Prop := {
  nt_id : tr_dataman_id t' = tr_dataman_id t;
  nt_count : tr_count t' = tr_count t;
  nt_crc : tr_crc32 t' = crc32_for_mission_item wp (tr_crc32 t);
  nt_seq : tr_seq t' = wp_seq wp + 1;
  nt_current : tr_current_seq t' = if wp_current wp =? 0 then tr_current_seq t else wp_seq wp;
  nt_partner : tr_sysid t' = tr_sysid t /\ tr_compid t' = tr_compid t;
}.

(** The land items only change their own members. *)
Record same_transfer (t t' : transfer) : Prop := {
  stt_id : tr_dataman_id t' = tr_dataman_id t; stt_count : tr_count t' = tr_count t; stt_crc : tr_crc32 t' = tr_crc32 t;
  stt_current : tr_current_seq t' = tr_current_seq t; stt_sysid : tr_sysid t' = tr_sysid t; stt_compid : tr_compid t' = tr_compid t;
}.

Lemma land_with (starts lands : bool) seq t d w : exists t', same_transfer t t' /\
  (let w := if starts && (tr_land_start (w_tr (with_tr_dm t d w)) =? -1) then on_tr (tr_set_land_start seq) (with_tr_dm t d w) else with_tr_dm t d w in
   if lands && (tr_land (w_tr w) =? -1) then
     let w := on_tr (tr_set_land seq) w in
     if tr_land_start (w_tr w) =? -1 then on_tr (tr_set_land_start (tr_land (w_tr w))) w else w
   else w) = with_tr_dm t' d w.
Proof.
  cbv zeta. destruct (starts && _); rewrite ?on_tr_with; destruct (lands && _); rewrite ?on_tr_with; try destruct (_ =? -1); rewrite ?on_tr_with;
    eexists; (split; [|reflexivity]); done.
Qed.

Lemma accept_good wp it w : let t := w_tr w in
  healthy (e_dm (w_e w)) -> m_int_mode (w_m w) = true -> m_mission_type (w_m w) = MAV_MISSION_TYPE_MISSION ->
  waypoint_key (tr_dataman_id t) -> 0 <= wp_seq wp < NUM_MISSION_ITEMS -> good_item (r_vehicle_mask (w_rep w)) (tr_seq t) wp it ->
  exists t' d', next_transfer wp t t' /\ healthy d' /\
    stored d' (tr_dataman_id t) (wp_seq wp) = mission_item_bytes it /\
    (forall i k, (i, k) <> (tr_dataman_id t, wp_seq wp) -> stored d' i k = stored (e_dm (w_e w)) i k) /\
    accept_item wp w = (if tr_seq t' =? tr_count t' then complete_transfer mission_bytes stack (with_tr_dm t' d' w)
                        else request_current_item NUM_MISSION_ITEMS (with_tr_dm t' d' w)).
Proof.
  intros t Hh Him Hty Hkey Hseq [Hwf Eseq _ _ Hp Hc].
  assert (Hlen : zlen (mission_item_bytes it) = 56) by (by apply mission_item_roundtrip, (parse_wf _ _ _ _ Hwf Hp)).
  destruct (waypoint_slot _ _ Hkey Hseq) as [Hslot Hsz].
  destruct (healthy_write (tr_dataman_id t) (wp_seq wp) (mission_item_bytes it) DM_TIMEOUT (e_dm (w_e w)) Hh Hslot) as (d' & Hw & Hh');
    [by rewrite Hlen, Hsz|done|]. destruct (write_law _ _ _ _ _ _ _ Hw) as [Hfr Hst].
  unfold MavlinkMission.accept_item. rewrite Him, Hp. unfold store_item, store_mission_item.
  change (m_mission_type (w_m (on_tr _ w))) with (m_mission_type (w_m w)). rewrite Hty, Z.eqb_refl. fold forbidden. rewrite Hc.
  set (t1 := tr_set_crc32 (crc32_for_mission_item wp (tr_crc32 t)) t).
  assert (E1 : MavlinkMission.writeSync (tr_dataman_id t) (wp_seq wp) (mission_item_bytes it) DM_TIMEOUT
    (on_tr (fun t => tr_set_crc32 (crc32_for_mission_item wp (tr_crc32 t)) t) w) = (true, with_tr_dm t1 d' w))
    by (unfold MavlinkMission.writeSync; change (e_dm (w_e (on_tr _ w))) with (e_dm (w_e w)); by rewrite Hw).
  change (tr_dataman_id (w_tr (on_tr _ w))) with (tr_dataman_id t). rewrite E1.
  destruct (land_with (mi_nav_cmd it =? MAV_CMD_DO_LAND_START) (one_of (mi_nav_cmd it) [MAV_CMD_NAV_VTOL_LAND; MAV_CMD_NAV_LAND]) (wp_seq wp) t1 d' w)
    as (t2 & Ht2 & E2). cbv zeta in *. rewrite E2. cbn [negb andb orb].
  set (t3 := if wp_current wp =? 0 then t2 else tr_set_current_seq (wp_seq wp) t2).
  exists (tr_set_seq (u16 (wp_seq wp + 1)) t3), d'. split; [|split; [done|split; [auto|split; [done|]]]].
  - destruct Ht2 as [T1 T2 T3 T4 T5 T6]. unfold t3. destruct (wp_current wp =? 0) eqn:Hcur; constructor; cbn; rewrite ?Hcur; try done;
      apply uwrap_small; lia.
  - unfold t3. destruct (wp_current wp =? 0); cbn [negb]; rewrite ?on_tr_with; done.
Qed.

(** ** The upload *)
Record collecting w0 (n : Z) (its : list mission_item_s) (crc cur : Z) (out : list sent) w : Prop := {
  co_state : m_state (w_m w) = MAVLINK_WPM_STATE_GETLIST;
  co_type : m_mission_type (w_m w) = MAV_MISSION_TYPE_MISSION;
  co_sh : w_sh w = s_set_progress true (w_sh w0);
  co_mask : r_vehicle_mask (w_rep w) = r_vehicle_mask (w_rep w0);
  co_id : tr_dataman_id (w_tr w) = other_mission_id (w_sh w0);
  co_count : tr_count (w_tr w) = n;
  co_seq : tr_seq (w_tr w) = zlen its;
  co_crc : tr_crc32 (w_tr w) = crc;
  co_current : tr_current_seq (w_tr w) = cur;
  co_partner : tr_sysid (w_tr w) = gcs /\ tr_compid (w_tr w) = gcs_comp;
  co_healthy : healthy (e_dm (w_e w));
  co_items k it : its !! k = Some it -> stored (e_dm (w_e w)) (other_mission_id (w_sh w0)) (Z.of_nat k) = mission_item_bytes it;
  co_out : e_out (w_e w) = out;
}.

Lemma other_key s : waypoint_key (other_mission_id s).
Proof. unfold other_mission_id. case_if; [by right|by left]. Qed.

Definition request_at (im : bool) (seq : Z) : sent := S_request im gcs gcs_comp seq MAV_MISSION_TYPE_MISSION.

(** A transfer begins. *)
Lemma transfer_begins n w : m_state (w_m w) = MAVLINK_WPM_STATE_IDLE -> s_transfer_in_progress (w_sh w) = false -> 0 < n <= NUM_MISSION_ITEMS ->
  let w' := handle_message (mkMessage gcs gcs_comp (M_count own_sysid own_compid n MAV_MISSION_TYPE_MISSION)) w in
  m_state (w_m w') = MAVLINK_WPM_STATE_GETLIST /\ m_mission_type (w_m w') = MAV_MISSION_TYPE_MISSION /\
  w_sh w' = s_set_progress true (w_sh w) /\ r_vehicle_mask (w_rep w') = r_vehicle_mask (w_rep w) /\
  w_tr w' = mkTransfer (other_mission_id (w_sh w)) n 0 0 (-1) gcs gcs_comp (-1) (-1) /\
  e_dm (w_e w') = e_dm (w_e w) /\ e_out (w_e w') = e_out (w_e w) ++ [request_at (m_int_mode (w_m w)) 0].
Proof.
  intros Hs Hp Hn. unfold MavlinkMission.handle_message. cbn [msg_body]. unfold handle_mission_count. rewrite for_us_here. cbn [negb].
  unfold is_state. rewrite Hs, bool_decide_true by done. cbv zeta. change (s_transfer_in_progress (w_sh (on_m _ w))) with (s_transfer_in_progress (w_sh w)).
  rewrite Hp. unfold begin_transfer. cbv zeta. set (w1 := on_rep _ _).
  assert (E1 : current_max_item_count NUM_MISSION_ITEMS w1 = NUM_MISSION_ITEMS) by done. rewrite E1.
  rewrite (proj2 (Z.ltb_ge _ _)) by lia. rewrite (proj2 (Z.eqb_neq _ _)) by lia. change (MAV_MISSION_TYPE_MISSION =? MAV_MISSION_TYPE_MISSION) with true. cbn iota.
  set (w2 := on_tr _ _). unfold request_current_item, send_mission_request.
  assert (E2 : (tr_seq (w_tr w2) <? current_max_item_count NUM_MISSION_ITEMS w2) = true) by (apply Z.ltb_lt; change (0 < NUM_MISSION_ITEMS); lia).
  rewrite E2. split_and!; done.
Qed.

Lemma begin_collecting n w : m_state (w_m w) = MAVLINK_WPM_STATE_IDLE -> s_transfer_in_progress (w_sh w) = false ->
  healthy (e_dm (w_e w)) -> 0 < n <= NUM_MISSION_ITEMS ->
  collecting w n [] 0 (-1) (e_out (w_e w) ++ [request_at (m_int_mode (w_m w)) 0])
    (handle_message (mkMessage gcs gcs_comp (M_count own_sysid own_compid n MAV_MISSION_TYPE_MISSION)) w).
Proof.
  intros Hs Hp Hh Hn. destruct (transfer_begins n w Hs Hp Hn) as (E1 & E2 & E3 & E4 & E5 & E6 & E7).
  constructor; rewrite ?E5, ?E6; done.
Qed.

(** The expected item is handed on. *)
Lemma hear_item w0 n its crc cur out w wp it : collecting w0 n its crc cur out w ->
  good_item (r_vehicle_mask (w_rep w0)) (zlen its) wp it ->
  exists x, collecting w0 n its crc cur out x /\ m_int_mode (w_m x) = true /\
    handle_message (mkMessage gcs gcs_comp (M_item true wp)) w = accept_item wp x.
Proof.
  intros [] [_ Eseq Hty [Ht1 Ht2] _ _]. exists (on_m (m_set_recv (w_now w)) (on_m (m_set_int true) w)).
  split; [by constructor|]. split; [done|]. unfold MavlinkMission.handle_message. cbn [msg_body].
  unfold handle_mission_item, handle_mission_item_both. rewrite Ht1, Ht2, for_us_here. cbn [negb].
  assert (E1 : from_partner (mkMessage gcs gcs_comp (M_item true wp)) (on_m (m_set_int true) w) = true).
  { unfold from_partner. change (w_tr (on_m (m_set_int true) w)) with (w_tr w). destruct co_partner0 as [-> ->]. cbn. by rewrite !Z.eqb_refl. }
  rewrite E1. cbn [negb]. change (m_mission_type (w_m (on_m (m_set_int true) w))) with (m_mission_type (w_m w)).
  rewrite Hty, co_type0, Z.eqb_refl. cbn [negb]. unfold is_state. change (m_state (w_m (on_m (m_set_int true) w))) with (m_state (w_m w)).
  rewrite co_state0, bool_decide_true by done. cbv zeta. change (w_tr (on_m _ (on_m (m_set_int true) w))) with (w_tr w).
  rewrite Eseq, co_seq0, Z.eqb_refl. done.
Qed.

Definition next_current (cur : Z) (wp : mavlink_mission_item_t) : Z := if wp_current wp =? 0 then cur else wp_seq wp.

(** The items after one more. *)
Lemma items_snoc (id : Z) (d d' : D) (its : list mission_item_s) it :
  (forall k x, its !! k = Some x -> stored d id (Z.of_nat k) = mission_item_bytes x) ->
  stored d' id (zlen its) = mission_item_bytes it ->
  (forall i k, (i, k) <> (id, zlen its) -> stored d' i k = stored d i k) ->
  forall k x, (its ++ [it]) !! k = Some x -> stored d' id (Z.of_nat k) = mission_item_bytes x.
Proof.
  intros Hold Hnew Hfr k x [[Hlt Hk] | [-> <-]]%lookup_snoc_Some; [|exact Hnew].
  rewrite Hfr; [auto|]. intros E. apply (f_equal snd) in E. cbn in E. unfold zlen in E. lia.
Qed.

Lemma zlen_snoc {A} (l : list A) x : zlen (l ++ [x]) = zlen l + 1.
Proof. unfold zlen. rewrite length_app. cbn. lia. Qed.

Lemma collect_more w0 n its crc cur out w wp it : collecting w0 n its crc cur out w ->
  good_item (r_vehicle_mask (w_rep w0)) (zlen its) wp it -> zlen its + 1 < n <= NUM_MISSION_ITEMS ->
  collecting w0 n (its ++ [it]) (crc32_for_mission_item wp crc) (next_current cur wp) (out ++ [request_at true (zlen its + 1)])
    (handle_message (mkMessage gcs gcs_comp (M_item true wp)) w).
Proof.
  intros Hc Hg Hn. destruct (hear_item _ _ _ _ _ _ _ _ _ Hc Hg) as (x & [] & Him & ->). clear Hc w. pose proof (zlen_nonneg its).
  pose proof (gi_seq _ _ _ _ Hg) as Eseq.
  destruct (accept_good wp it x) as (t' & d' & [N1 N2 N3 N4 N5 [N6 N7]] & Hh & Hst & Hfr & ->); try done;
    [rewrite co_id0; apply other_key|lia|by rewrite co_mask0, co_seq0|].
  rewrite (proj2 (Z.eqb_neq _ _)) by lia. unfold request_current_item, send_mission_request.
  assert (E : (tr_seq (w_tr (with_tr_dm t' d' x)) <? current_max_item_count NUM_MISSION_ITEMS (with_tr_dm t' d' x)) = true).
  { unfold current_max_item_count. change (m_mission_type (w_m (with_tr_dm t' d' x))) with (m_mission_type (w_m x)).
    rewrite co_type0. apply Z.ltb_lt. change (tr_seq t' < NUM_MISSION_ITEMS). lia. }
  rewrite E. destruct co_partner0 as [P1 P2].
  constructor; unfold w_tr, w_sh, w_rep; cbn [emit on_e on_m w_m w_e with_tr_dm m_set_sent m_set_transfer m_transfer m_state m_mission_type
    e_set_out e_set_dm e_dm e_out e_sh m_report m_int_mode]; fold (w_sh w0); try done; try congruence.
  - rewrite N4, zlen_snoc. lia.
  - rewrite N5. unfold next_current. by rewrite co_current0.
  - split; congruence.
  - apply (items_snoc _ (e_dm (w_e x))); [done|by rewrite <- co_id0, <- Eseq|]. rewrite <- co_id0, <- Eseq. done.
  - unfold request_at. rewrite co_out0, Him, co_type0, N6, N7, N4, Eseq, P1, P2. done.
Qed.

(** An idle link with an active mission, which is saved. *)
Record serving (its : list mission_item_s) (crc cur : Z) (out : list sent) w : Prop := {
  se_state : m_state (w_m w) = MAVLINK_WPM_STATE_IDLE;
  se_progress : s_transfer_in_progress (w_sh w) = false;
  se_key : waypoint_key (s_mission_id (w_sh w));
  se_count : of_mission (s_count (w_sh w)) = zlen its;
  se_crc : of_mission (s_crc32 (w_sh w)) = crc;
  se_current : s_current_seq (w_sh w) = cur;
  se_topic : topic_of (e_mission (w_e w)) = (s_mission_id (w_sh w), zlen its, crc);
  se_saved : saved mission_bytes (e_dm (w_e w)) (e_mission (w_e w)) its;
  se_healthy : healthy (e_dm (w_e w));
  se_out : e_out (w_e w) = out;
}.

(** Activating a mission, with a storage that works. *)
Lemma activate_healthy id n seq crc w : healthy (e_dm (w_e w)) -> waypoint_key id ->
  exists ms d', topic_of ms = (id, n, crc) /\ healthy d' /\ stored d' DM_KEY_MISSION_STATE 0 = mission_bytes ms /\
    (forall i k, waypoint_key i -> stored d' i k = stored (e_dm (w_e w)) i k) /\
    let w' := update_active_mission mission_bytes id n seq crc true w in
    w_m w' = m_set_my_mission id (w_m w) /\
    w_e w' = e_set_mission ms (e_mission_gen (w_e w) + 1) (e_set_dm d' (e_set_sh (s_set_current_seq seq
      (s_set_crc32 (set_mission crc (s_crc32 (w_sh w))) (s_set_count (set_mission n (s_count (w_sh w))) (s_set_mission_id id (w_sh w))))) (w_e w))).
Proof.
  intros Hh Hk. unfold update_active_mission. destruct (update_active_mission_locked id n seq crc w) as [ms w2] eqn:E2.
  assert (Hm : topic_of ms = (id, n, crc)) by (injection E2 as <- <-; done).
  assert (He : e_dm (w_e w2) = e_dm (w_e w)) by (injection E2 as <- <-; done).
  destruct state_slot as [Hslot Hsz].
  destruct (healthy_write DM_KEY_MISSION_STATE 0 (mission_bytes ms) DM_TIMEOUT (e_dm (w_e w)) Hh Hslot) as (d' & Hw & Hh');
    [rewrite mission_len, Hsz; lia|done|]. destruct (write_law _ _ _ _ _ _ _ Hw) as [Hfr Hst].
  exists ms, d'. split_and!; [done|done|auto| |..].
  - intros i k Hi. apply Hfr. intros [= -> ->]. by apply state_key_not_waypoint.
  - unfold MavlinkMission.writeSync. rewrite He, Hw. injection E2 as <- <-. done.
  - unfold MavlinkMission.writeSync. rewrite He, Hw. injection E2 as <- <-. done.
Qed.

Lemma collect_last w0 its crc cur out w wp it : collecting w0 (zlen its + 1) its crc cur out w ->
  good_item (r_vehicle_mask (w_rep w0)) (zlen its) wp it -> zlen its + 1 <= NUM_MISSION_ITEMS ->
  let crc' := crc32_for_mission_item wp crc in crc' <> of_mission (s_crc32 (w_sh w0)) ->
  serving (its ++ [it]) crc' (next_current cur wp) (out ++ [S_ack gcs gcs_comp MAV_MISSION_ACCEPTED MAV_MISSION_TYPE_MISSION crc'])
    (handle_message (mkMessage gcs gcs_comp (M_item true wp)) w).
Proof.
  intros Hc Hg Hn crc' Hne. destruct (hear_item _ _ _ _ _ _ _ _ _ Hc Hg) as (x & [] & Him & ->). clear Hc w. pose proof (zlen_nonneg its).
  pose proof (gi_seq _ _ _ _ Hg) as Eseq.
  destruct (accept_good wp it x) as (t' & d' & [N1 N2 N3 N4 N5 [N6 N7]] & Hh & Hst & Hfr & ->); try done;
    [rewrite co_id0; apply other_key|lia|by rewrite co_mask0, co_seq0|].
  rewrite (proj2 (Z.eqb_eq _ _)) by lia. unfold complete_transfer.
  change (m_mission_type (w_m (with_tr_dm t' d' x))) with (m_mission_type (w_m x)). change (w_tr (with_tr_dm t' d' x)) with t'.
  rewrite co_type0. change (MAV_MISSION_TYPE_MISSION =? MAV_MISSION_TYPE_MISSION) with true. cbv zeta. cbn iota.
  set (w1 := on_m _ _). rewrite N3, co_crc0. fold crc'. change (w_sh w1) with (w_sh x). rewrite co_sh0.
  change (of_mission (s_crc32 (s_set_progress true (w_sh w0)))) with (of_mission (s_crc32 (w_sh w0))). rewrite (proj2 (Z.eqb_neq _ _) Hne). cbn [negb].
  destruct (activate_healthy (tr_dataman_id t') (tr_count t') (tr_current_seq t') crc' w1) as (ms & d2 & Hms & Hh2 & Hst2 & Hfr2 & Hm2 & He2);
    [done|rewrite N1, co_id0; apply other_key|]. cbv zeta in Hm2, He2.
  set (w2 := update_active_mission _ _ _ _ _ _ _) in *. clearbody w2. destruct w2 as [m2 e2]. cbn [w_m w_e] in Hm2, He2. subst m2 e2.
  destruct co_partner0 as [P1 P2]. injection Hms as M1 M2 M3.
  assert (Hcnt : tr_count t' = zlen (its ++ [it])) by (by rewrite zlen_snoc, N2). constructor; try done.
  - change (waypoint_key (tr_dataman_id t')). rewrite N1, co_id0. apply other_key.
  - change (tr_current_seq t' = next_current cur wp). rewrite N5. unfold next_current. by rewrite co_current0.
  - change (topic_of ms = (tr_dataman_id t', zlen (its ++ [it]), crc')). unfold topic_of. congruence.
  - change (saved mission_bytes d2 ms (its ++ [it])). constructor; rewrite ?M1, ?M2, ?N1, ?co_id0; [done|apply other_key|done|].
    intros k y Hy. rewrite Hfr2 by apply other_key. change (e_dm (w_e w1)) with d'. revert k y Hy.
    apply (items_snoc _ (e_dm (w_e x))); [done|by rewrite <- co_id0, <- Eseq|]. rewrite <- co_id0, <- Eseq. done.
  - change (e_out (w_e x) ++ [S_ack (tr_sysid t') (tr_compid t') MAV_MISSION_ACCEPTED (m_mission_type (w_m x)) (tr_crc32 t')] = 
      out ++ [S_ack gcs gcs_comp MAV_MISSION_ACCEPTED MAV_MISSION_TYPE_MISSION crc']). rewrite co_out0, N6, N7, P1, P2, co_type0, N3, co_crc0. done.
Qed.

Inductive good_items (mask : Z) : Z -> list mavlink_mission_item_t -> list mission_item_s -> Prop :=
  | good_nil k : good_items mask k [] []
  | good_cons k wp it wps its : good_item mask k wp it -> good_items mask (k + 1) wps its -> good_items mask k (wp :: wps) (it :: its).

Definition mission_crc (prev : Z) (wps : list mavlink_mission_item_t) : Z := foldl (fun crc wp => crc32_for_mission_item wp crc) prev wps.
Definition mission_current (prev : Z) (wps : list mavlink_mission_item_t) : Z := foldl next_current prev wps.

(** The requests for the items from the [k]-th on. *)
Fixpoint requests (k : Z) (n : nat) : list sent :=
  match n with
  | O => []
  | S n => request_at true k :: requests (k + 1) n
  end.

Lemma upload_rest w0 wps : forall before its crc cur out w,
  collecting w0 (zlen before + zlen wps) before crc cur out w -> wps <> [] -> zlen before + zlen wps <= NUM_MISSION_ITEMS ->
  good_items (r_vehicle_mask (w_rep w0)) (zlen before) wps its -> mission_crc crc wps <> of_mission (s_crc32 (w_sh w0)) ->
  serving (before ++ its) (mission_crc crc wps) (mission_current cur wps)
    (out ++ requests (zlen before + 1) (length wps - 1)
         ++ [S_ack gcs gcs_comp MAV_MISSION_ACCEPTED MAV_MISSION_TYPE_MISSION (mission_crc crc wps)])
    (hear (map (M_item true) wps) w).
Proof.
  induction wps as [|wp wps IH]; intros before its crc cur out w Hc Hne Hn Hg Hcrc; [done|].
  inversion Hg as [|? ? it ? its' Hgood Hrest]; subst. rewrite zlen_cons in *. destruct wps as [|wp2 wps].
  - inversion Hrest; subst. cbn [zlen length] in *. change (zlen []) with 0 in *. rewrite Z.add_0_r in *.
    cbn [mission_crc mission_current foldl hear map] in *. by apply (collect_last w0 before crc cur out).
  - assert (Hl : 0 < zlen (wp2 :: wps)) by (rewrite zlen_cons; pose proof (zlen_nonneg wps); lia).
    pose proof (collect_more _ _ _ _ _ _ _ wp it Hc Hgood) as Hmore. specialize (IH (before ++ [it]) its' (crc32_for_mission_item wp crc)
      (next_current cur wp) (out ++ [request_at true (zlen before + 1)]) (handle_message (mkMessage gcs gcs_comp (M_item true wp)) w)).
    rewrite <- !app_assoc, zlen_snoc in IH. cbn [app] in IH. replace (length (wp :: wp2 :: wps) - 1)%nat with (S (length (wp2 :: wps) - 1)) by (cbn; lia).
    apply IH; [|done|lia|done|done]. replace (zlen before + 1 + zlen (wp2 :: wps)) with (zlen before + (1 + zlen (wp2 :: wps))) by lia. apply Hmore. lia.
Qed.

(** ** The download *)
Record sending (its : list mission_item_s) (crc cur k : Z) (out : list sent) w : Prop := {
  sn_state : m_state (w_m w) = MAVLINK_WPM_STATE_SENDLIST;
  sn_type : m_mission_type (w_m w) = MAV_MISSION_TYPE_MISSION;
  sn_seq : tr_seq (w_tr w) = k;
  sn_count : tr_count (w_tr w) = zlen its;
  sn_partner : tr_sysid (w_tr w) = gcs /\ tr_compid (w_tr w) = gcs_comp;
  sn_serving : serving its crc cur out (switch_to_idle_state w);
}.

(** The item as it is sent back. *)
Definition item_sent (cur k : Z) (it : mission_item_s) : sent :=
  S_item true (wp_address gcs gcs_comp k (if cur =? k then 1 else 0) (format_mavlink_mission_item true MAV_MISSION_TYPE_MISSION it wp_zero).2).

Lemma download_begins its crc cur out w : serving its crc cur out w ->
  sending its crc cur 0 (out ++ [S_count gcs gcs_comp (zlen its) MAV_MISSION_TYPE_MISSION crc])
    (handle_message (mkMessage gcs gcs_comp (M_request_list own_sysid own_compid MAV_MISSION_TYPE_MISSION)) w).
Proof.
  intros []. unfold MavlinkMission.handle_message. cbn [msg_body]. unfold handle_mission_request_list. rewrite for_us_here. cbn [negb].
  assert (I1 : is_state MAVLINK_WPM_STATE_SENDLIST w = false) by (unfold is_state; by rewrite se_state0).
  assert (I2 : is_state MAVLINK_WPM_STATE_IDLE w = true) by (unfold is_state; by rewrite se_state0).
  rewrite I1. cbn [andb]. cbv zeta. cbn iota. rewrite I2. cbn [orb].
  change (MAV_MISSION_TYPE_MISSION =? MAV_MISSION_TYPE_FENCE) with false. change (MAV_MISSION_TYPE_MISSION =? MAV_MISSION_TYPE_RALLY) with false. cbn iota.
  set (w1 := on_tr (tr_set_seq 0) _). assert (E1 : current_item_count w1 = zlen its) by exact se_count0. rewrite E1.
  set (w2 := on_tr (tr_set_partner _ _) _). assert (E2 : get_current_mission_type_crc w2 = crc) by exact se_crc0. rewrite E2.
  constructor; try done. constructor; try done.
  change (e_out (w_e w) ++ [S_count gcs gcs_comp (zlen its) MAV_MISSION_TYPE_MISSION crc] = out ++ [S_count gcs gcs_comp (zlen its) MAV_MISSION_TYPE_MISSION crc]).
  by rewrite se_out0.
Qed.

Lemma read_saved its crc cur out w k it : serving its crc cur out w -> its !! k = Some it -> item_wf it -> zlen its <= NUM_MISSION_ITEMS ->
  exists d', dm_readSync (s_mission_id (w_sh w)) (Z.of_nat k) sizeof_mission_item_s (e_dm (w_e w)) = (Some (mission_item_bytes it), d') /\
    healthy d' /\ forall i j, stored d' i j = stored (e_dm (w_e w)) i j.
Proof.
  intros [] Hk Hwf Hn. assert (Hlt : Z.of_nat k < zlen its) by (apply lookup_lt_Some in Hk; unfold zlen; lia).
  assert (Hid : ms_mission_dataman_id (e_mission (w_e w)) = s_mission_id (w_sh w)) by (by injection se_topic0).
  pose proof (sv_items _ _ _ _ se_saved0 k it Hk) as Hs. rewrite Hid in Hs. destruct (mission_item_roundtrip it Hwf) as [_ Hl].
  destruct (waypoint_slot (s_mission_id (w_sh w)) (Z.of_nat k)) as [Hslot Hsz]; [done|lia|].
  destruct (healthy_read (s_mission_id (w_sh w)) (Z.of_nat k) sizeof_mission_item_s (e_dm (w_e w)) se_healthy0 Hslot) as (bytes & d' & Hr & Hh);
    [rewrite Hs, Hl, Hsz; done|].
  destruct (read_value _ _ _ _ _ _ Hr) as [_ ->]. exists d'. rewrite Hr, Hs, Hl. change (zeros (sizeof_mission_item_s - 56)) with (@nil Z).
  rewrite app_nil_r. split_and!; [done..|]. apply (read_frame _ _ _ _ _ _ Hr).
Qed.

Lemma download_item its crc cur k it out w : sending its crc cur (Z.of_nat k) out w -> its !! k = Some it -> item_wf it -> zlen its <= NUM_MISSION_ITEMS ->
  sending its crc cur (Z.of_nat (S k)) (out ++ [item_sent cur (Z.of_nat k) it])
    (handle_message (mkMessage gcs gcs_comp (M_request true own_sysid own_compid (Z.of_nat k) MAV_MISSION_TYPE_MISSION)) w).
Proof.
  intros [Hst Hty Hseq Hcnt [P1 P2] []] Hk Hwf Hn. assert (Hlt : Z.of_nat k < zlen its) by (apply lookup_lt_Some in Hk; unfold zlen; lia).
  unfold MavlinkMission.handle_message. cbn [msg_body]. unfold handle_mission_request, handle_mission_request_both. rewrite for_us_here. cbn [negb].
  set (w0 := on_m (m_set_int true) w).
  assert (E0 : from_partner (mkMessage gcs gcs_comp (M_request true own_sysid own_compid (Z.of_nat k) MAV_MISSION_TYPE_MISSION)) w0 = true).
  { unfold from_partner. change (w_tr w0) with (w_tr w). rewrite P1, P2. cbn. by rewrite !Z.eqb_refl. }
  rewrite E0. cbn [negb]. unfold is_state. change (m_state (w_m w0)) with (m_state (w_m w)). rewrite Hst, bool_decide_true by done.
  change (m_mission_type (w_m w0)) with (m_mission_type (w_m w)). rewrite Hty. change (MAV_MISSION_TYPE_MISSION =? MAV_MISSION_TYPE_MISSION) with true.
  cbn [negb]. cbv zeta. set (w1 := on_m (m_set_recv _) w0). change (w_tr w1) with (w_tr w). rewrite Hseq, Hcnt, Z.eqb_refl.
  rewrite (proj2 (Z.ltb_lt _ _)) by done. cbn [andb orb]. rewrite uwrap_small by lia. set (w2 := on_tr _ w1).
  assert (E2 : current_item_count w2 = zlen its) by (unfold current_item_count; change (m_mission_type (w_m w2)) with (m_mission_type (w_m w)); rewrite Hty; exact se_count0).
  rewrite E2, (proj2 (Z.ltb_lt _ _)) by done. unfold send_mission_item, read_mission_item.
  change (m_mission_type (w_m w2)) with (m_mission_type (w_m w)). rewrite Hty. change (MAV_MISSION_TYPE_MISSION =? MAV_MISSION_TYPE_MISSION) with true. cbn iota.
  destruct (read_saved its crc cur out (switch_to_idle_state w) k it) as (d' & Hr & Hh & Hfr); [by constructor|done|done|done|].
  unfold MavlinkMission.readSync. change (e_dm (w_e w2)) with (e_dm (w_e (switch_to_idle_state w))). change (s_mission_id (w_sh w2)) with (s_mission_id (w_sh (switch_to_idle_state w))).
  rewrite Hr. cbn [fmap option_fmap option_map]. rewrite (proj1 (mission_item_roundtrip it Hwf)). cbv zeta.
  set (w3 := on_m (m_set_sent _) _). change (m_int_mode (w_m w3)) with true. change (m_mission_type (w_m w3)) with (m_mission_type (w_m w)). rewrite Hty.
  destruct (format_mavlink_mission_item true MAV_MISSION_TYPE_MISSION it wp_zero) as [r wp'] eqn:Ef.
  constructor; try done; [change (Z.of_nat k + 1 = Z.of_nat (S k)); lia|]. destruct se_saved0 as [V1 V2 V3 V4].
  constructor; try done.
  - constructor; try done; [change (stored d' DM_KEY_MISSION_STATE 0 = mission_bytes (e_mission (w_e w))); by rewrite Hfr|].
    intros j y Hj. change (stored d' (ms_mission_dataman_id (e_mission (w_e w))) (Z.of_nat j) = mission_item_bytes y). rewrite Hfr. by apply V4.
  - unfold item_sent. rewrite Ef. cbn [snd].
    change (e_out (w_e w) ++ [S_item true (wp_address (tr_sysid (w_tr w)) (tr_compid (w_tr w)) (Z.of_nat k)
      (if s_current_seq (w_sh w) =? Z.of_nat k then 1 else 0) wp')] = out ++ [S_item true (wp_address gcs gcs_comp (Z.of_nat k) (if cur =? Z.of_nat k then 1 else 0) wp')]).
    rewrite P1, P2, <- se_current0, <- se_out0. done.
Qed.

Fixpoint items_sent (cur k : Z) (its : list mission_item_s) : list sent :=
  match its with
  | [] => []
  | it :: its => item_sent cur k it :: items_sent cur (k + 1) its
  end.

Lemma download_items its crc cur : Forall item_wf its -> zlen its <= NUM_MISSION_ITEMS -> forall rest k out w,
  drop k its = rest -> sending its crc cur (Z.of_nat k) out w ->
  sending its crc cur (Z.of_nat (k + length rest)) (out ++ items_sent cur (Z.of_nat k) rest)
    (hear (map (fun k => M_request true own_sysid own_compid (Z.of_nat k) MAV_MISSION_TYPE_MISSION) (seq k (length rest))) w).
Proof.
  intros Hwf Hn rest. induction rest as [|it rest IH]; intros k out w Hd Hs.
  - cbn. by rewrite Nat.add_0_r, app_nil_r.
  - assert (Hk : its !! k = Some it) by (rewrite <- (Nat.add_0_r k), <- lookup_drop, Hd; done).
    assert (Hd' : drop (S k) its = rest) by (rewrite <- Nat.add_1_r, <- drop_drop, Hd; done).
    pose proof (IH (S k) _ _ Hd' (download_item its crc cur k it out w Hs Hk (Forall_lookup_1 _ _ _ _ Hwf Hk) Hn)) as Hr.
    rewrite <- app_assoc in Hr. cbn [app] in Hr. cbn [length seq map items_sent hear foldl].
    replace (k + S (length rest))%nat with (S k + length rest)%nat by lia. replace (Z.of_nat k + 1) with (Z.of_nat (S k)) by lia. exact Hr.
Qed.

Lemma download_ends its crc cur k out w : sending its crc cur k out w ->
  serving its crc cur out (handle_message (mkMessage gcs gcs_comp (M_ack own_sysid own_compid MAV_MISSION_ACCEPTED MAV_MISSION_TYPE_MISSION)) w).
Proof.
  intros [Hst Hty _ _ [P1 P2] []]. unfold MavlinkMission.handle_message. cbn [msg_body]. unfold handle_mission_ack. rewrite for_us_here. cbn [negb].
  assert (E0 : from_partner (mkMessage gcs gcs_comp (M_ack own_sysid own_compid MAV_MISSION_ACCEPTED MAV_MISSION_TYPE_MISSION)) w = true).
  { unfold from_partner. rewrite P1, P2. cbn. by rewrite !Z.eqb_refl. }
  rewrite E0. cbn [negb]. unfold is_state. rewrite Hst, Hty, bool_decide_true by done. by constructor.
Qed.

(** ** The round trip *)

(** What an item keeps: with a position, the position and what it refers to; without one, the
    altitude and the parameters, and coordinates that a float can hold. *)
Definition comes_back (wp wp' : mavlink_mission_item_t) : Prop :=
  wp_command wp' = canonical_command (wp_command wp) /\ wp_autocontinue wp' = b2z (Z.odd (wp_autocontinue wp)) /\
  wp_mission_type wp' = MAV_MISSION_TYPE_MISSION /\ wp_z wp' = wp_z wp /\
  if is_global_frame true (wp_frame wp)
  then wp_x wp' = wp_x wp /\ wp_y wp' = wp_y wp /\ wp_frame wp' = same_reference (wp_frame wp)
  else wp_frame wp' = wp_frame wp /\ wp_param3 wp' = wp_param3 wp /\ wp_param4 wp' = wp_param4 wp /\
       (wp_command wp <> MAV_CMD_DO_JUMP -> wp_param1 wp' = wp_param1 wp /\ wp_param2 wp' = wp_param2 wp) /\
       (- 2 ^ 24 < int_x wp < 2 ^ 24 -> wp_x wp' = wp_x wp) /\ (- 2 ^ 24 < int_y wp < 2 ^ 24 -> wp_y wp' = wp_y wp).

Lemma good_comes_back mask k wp it : good_item mask k wp it ->
  comes_back wp (format_mavlink_mission_item true MAV_MISSION_TYPE_MISSION it wp_zero).2.
Proof.
  intros [Hwf _ _ _ Hp _]. unfold comes_back. destruct (is_global_frame true (wp_frame wp)) eqn:Hg.
  - by destruct (global_item_roundtrip mask MAV_MISSION_TYPE_MISSION wp it Hwf Hg Hp) as (? & ? & ? & ? & ? & ? & ?).
  - assert (Hf : wp_frame wp = MAV_FRAME_MISSION).
    { unfold parse_mavlink_mission_item in Hp. rewrite Hg in Hp. destruct (Z.eqb_spec (wp_frame wp) MAV_FRAME_MISSION); [done|]. done. }
    rewrite Hf. by destruct (mission_item_frame_roundtrip mask MAV_MISSION_TYPE_MISSION wp it Hwf Hf Hp) as (? & ? & ? & ? & ? & ? & ? & ? & ? & ?).
Qed.

(** The answers to a download, item by item. *)
Definition sent_back (out : list sent) (wps : list mavlink_mission_item_t) : Prop :=
  Forall2 (fun s wp => exists wp', s = S_item true wp' /\ wp_seq wp' = wp_seq wp /\ wp_target_system wp' = gcs /\
             wp_target_component wp' = gcs_comp /\ comes_back wp wp') out wps.

Lemma items_sent_back mask cur k wps its : good_items mask k wps its -> sent_back (items_sent cur k its) wps /\ Forall item_wf its.
Proof.
  induction 1 as [|k wp it wps its Hg Hgs [IH1 IH2]]; [split; constructor|]. split; constructor; try done.
  - eexists. split; [reflexivity|]. cbn [wp_address wp_seq wp_target_system wp_target_component]. split; [by rewrite (gi_seq _ _ _ _ Hg)|].
    split; [done|]. split; [done|]. exact (good_comes_back _ _ _ _ Hg).
  - exact (parse_wf _ _ _ _ (gi_wf _ _ _ _ Hg) (gi_parse _ _ _ _ Hg)).
Qed.

Lemma good_items_length mask k wps its : good_items mask k wps its -> length its = length wps.
Proof. induction 1; cbn; congruence. Qed.

Lemma hear_app l1 l2 w : hear (l1 ++ l2) w = hear l2 (hear l1 w).
Proof. apply foldl_app. Qed.

Lemma upload_completes w wps its :
  m_state (w_m w) = MAVLINK_WPM_STATE_IDLE -> s_transfer_in_progress (w_sh w) = false -> healthy (e_dm (w_e w)) ->
  wps <> [] -> zlen wps <= NUM_MISSION_ITEMS -> good_items (r_vehicle_mask (w_rep w)) 0 wps its ->
  mission_crc 0 wps <> of_mission (s_crc32 (w_sh w)) ->
  serving its (mission_crc 0 wps) (mission_current (-1) wps)
    (e_out (w_e w) ++ request_at (m_int_mode (w_m w)) 0 :: requests 1 (length wps - 1) ++
       [S_ack gcs gcs_comp MAV_MISSION_ACCEPTED MAV_MISSION_TYPE_MISSION (mission_crc 0 wps)]) (hear (upload_messages wps) w).
Proof.
  intros Hs Hp Hh Hne Hn Hg Hcrc. assert (Hl : 0 < zlen wps) by (destruct wps; [done|]; rewrite zlen_cons; pose proof (zlen_nonneg wps); lia).
  pose proof (begin_collecting (zlen wps) w Hs Hp Hh ltac:(lia)) as Hc.
  pose proof (upload_rest w wps [] its 0 (-1) _ _ Hc Hne ltac:(exact Hn) Hg Hcrc) as Hr. rewrite <- app_assoc in Hr. exact Hr.
Qed.

Lemma download_completes its crc cur out w : serving its crc cur out w -> Forall item_wf its -> zlen its <= NUM_MISSION_ITEMS ->
  serving its crc cur (out ++ S_count gcs gcs_comp (zlen its) MAV_MISSION_TYPE_MISSION crc :: items_sent cur 0 its)
    (hear (download_messages (length its)) w).
Proof.
  intros Hs Hwf Hn. unfold download_messages. change (?x :: ?l) with ([x] ++ l). rewrite !hear_app.
  pose proof (download_begins _ _ _ _ _ Hs) as Hb. pose proof (download_items its crc cur Hwf Hn its 0 _ _ eq_refl Hb) as Hi.
  rewrite <- app_assoc in Hi. cbn [app] in Hi. exact (download_ends _ _ _ _ _ _ Hi).
Qed.


(** ** Two links *)

(** A link that gives up a download clears the flag. *)
Lemma drop_clears w : drops_download w -> let w' := MavlinkMission.send NUM_MISSION_ITEMS false w in
  m_state (w_m w') = MAVLINK_WPM_STATE_IDLE /\ s_transfer_in_progress (w_sh w') = false /\ s_mission_id (w_sh w') = s_mission_id (w_sh w).
Proof.
  intros [Ht Hs]. unfold MavlinkMission.send. cbn iota zeta. match goal with |- context [send_timeouts _ ?z] => set (x := z) end.
  assert (Hx : nearly_quiet w x /\ same_times w x).
  { unfold x. case_if; [split; [apply send_result_nearly|apply times_result]|split; [apply nearly, send_slow_quiet|apply times_slow]]. }
  destruct Hx as [[Hc Hsx _ _] [T1 T2]].
  assert (Hd : timed_out x = true) by (rewrite <- Ht; unfold timed_out, is_state; by rewrite T1, T2, Hsx).
  unfold send_timeouts. rewrite Hd. split_and!; [done|done|]. exact (calm_id _ _ Hc).
Qed.

(** C37: The flag that keeps uploads apart is lost when a download times out. While one link
    receives a mission, a second link whose download is given up after five seconds clears the
    flag that all links share; the next announcement on it is accepted, and both links now
    write their items to the same storage. *)
Theorem download_timeout_breaks_upload y a i j mi mj n :
  sys_inv y a -> a_active a <> [] -> y_links y !! i = Some mi -> receives_mission (link_view mi (y_env y)) ->
  y_links y !! j = Some mj -> drops_download (mkWorld mj (y_env y)) -> 0 < n <= NUM_MISSION_ITEMS ->
  let y' := sys_run own_sysid own_compid NUM_MISSION_ITEMS mission_bytes stack
    [Send j false; Message j (mkMessage gcs gcs_comp (M_count own_sysid own_compid n MAV_MISSION_TYPE_MISSION))] y in
  exists mj', y_links y' !! i = Some mi /\ y_links y' !! j = Some mj' /\ i <> j /\
    receives_mission (link_view mi (y_env y')) /\ receives_mission (link_view mj' (y_env y')) /\
    tr_dataman_id (m_transfer mj') = tr_dataman_id (m_transfer mi).
Proof.
  intros Hinv Hact Hi Hri Hj Hdr Hn y'. destruct (si_uploads _ _ Hinv i mi Hi Hri) as (l & k & Hp).
  pose proof (si_pending _ _ Hinv i mi l k Hp Hi) as Hup. destruct (si_ok _ _ Hinv i mi Hi (proj1 Hri)) as [Hg _].
  assert (Hij : i <> j). { intros <-. destruct Hdr as [_ Hs], Hri as [Hr _]. rewrite Hi in Hj. injection Hj as <-. unfold receiving in Hr. cbn in Hr, Hs. congruence. }
  destruct (drop_clears _ Hdr) as (S1 & S2 & S3). set (w1 := MavlinkMission.send NUM_MISSION_ITEMS false _) in *.
  destruct (transfer_begins n w1 S1 S2 Hn) as (B1 & B2 & _ & _ & B5 & _). set (w2 := handle_message _ w1) in *.
  assert (E : y' = mkSystem (<[j := w_m w2]> (y_links y)) (w_e w2)).
  { unfold y', sys_run. cbn [foldl sys_step]. unfold at_link. rewrite Hj. cbv zeta. fold w1. cbn [y_links y_env].
    rewrite list_lookup_insert_eq by (by eapply lookup_lt_Some). rewrite list_insert_insert_eq.
    replace (mkWorld (w_m w1) (w_e w1)) with w1 by (by destruct w1). done. }
  rewrite E. cbn [y_links y_env]. exists (w_m w2). rewrite list_lookup_insert_ne by done. rewrite list_lookup_insert_eq by (by eapply lookup_lt_Some).
  split_and!; try done. change (m_transfer (w_m w2)) with (w_tr w2). rewrite B5. cbn [tr_dataman_id].
  pose proof (up_inactive _ _ _ _ Hup Hact) as Hin. pose proof (gl_mission _ Hg (proj2 Hri)) as Hk. cbn in Hin, Hk.
  unfold other_mission_id. rewrite S3. change (w_sh (mkWorld mj (y_env y))) with (e_sh (y_env y)).
  change (w_sh (mkWorld mi (y_env y))) with (e_sh (y_env y)) in Hin. change (w_tr (mkWorld mi (y_env y))) with (m_transfer mi) in Hin, Hk.
  pose proof (ac_key _ _ _ (si_active _ _ Hinv mi)) as Ha. cbn in Ha. change (w_sh (mkWorld mi (y_env y))) with (e_sh (y_env y)) in Ha.
  destruct Ha as [Ha|Ha], Hk as [Hk|Hk]; rewrite Ha, Hk in *; try done.
Qed.
End session.

(** ** An instance *)
#[local] Existing Instances sample_storage sample_laws sample_healthy.

Definition sample_speed (seq : Z) : mavlink_mission_item_t :=
  mkWp 1065353216 1084227584 3212836864 0 0 0 0 seq MAV_CMD_DO_CHANGE_SPEED 1 1 MAV_FRAME_MISSION 0 1 MAV_MISSION_TYPE_MISSION.
Definition session_items : list mavlink_mission_item_t :=
  [sample_waypoint 0 473977500 85455940 1092616192; sample_speed 1; sample_waypoint 2 473977600 4209511356 1092616192].
Definition session_world : world := mkWorld (manager_init sample_env) sample_env.

Lemma sample_speed_wf : wp_wf (sample_speed 1).
Proof. constructor; try done. repeat apply Forall_cons_2; done. Qed.


(** The second link begins a download; six seconds later the first one begins an upload. *)
Definition crossing : list event :=
  [Message 1 (sample_msg (M_request_list 1 1 MAV_MISSION_TYPE_MISSION)); Elapse 6000000;
   Message 0 (sample_msg (M_count 1 1 2 MAV_MISSION_TYPE_MISSION))].
Definition crossed : system := sample_run crossing sample_boot.
Definition crossed_link (i : nat) : manager := default (manager_init sample_env) (y_links crossed !! i).

Lemma crossed_inv : exists a, sys_inv crossed a.
Proof.
  destruct (run_step 1 1 4 sample_mission_bytes (zeros 16) crossing sample_boot _
    (boot_inv 40 sample_mission_bytes sample_mission_of_bytes 1 sample_env sample_mission [sample_item sample_old] eq_refl sample_saved eq_refl sample_codec))
    as (a & _ & Ha); [|by exists a].
  cbn [undisturbed_run crossing]. split_and!; try exact I. change (0 <= 2 < 2 ^ 16). lia.
Qed.

Lemma download_timeout_breaks_upload_witness :
  let y' := sample_run [Send 1 false; Message 1 (sample_msg (M_count 1 1 3 MAV_MISSION_TYPE_MISSION))] crossed in
  exists mj', y_links y' !! 0%nat = Some (crossed_link 0) /\ y_links y' !! 1%nat = Some mj' /\ 0%nat <> 1%nat /\
    receives_mission (link_view (crossed_link 0) (y_env y')) /\ receives_mission (link_view mj' (y_env y')) /\
    tr_dataman_id (m_transfer mj') = tr_dataman_id (m_transfer (crossed_link 0)).
Proof.
  destruct crossed_inv as [a Ha].
  apply (download_timeout_breaks_upload 1 1 4 sample_mission_bytes (zeros 16) (conj eq_refl eq_refl) 255 190 crossed a 0 1 (crossed_link 0) (crossed_link 1) 3 Ha).
  - intros Hnil. pose proof (ac_count _ _ _ (si_active _ _ Ha (crossed_link 0))) as Hc. rewrite Hnil in Hc. vm_compute in Hc. discriminate Hc.
  - vm_compute. reflexivity.
  - split; vm_compute; reflexivity.
  - vm_compute. reflexivity.
  - split; vm_compute; reflexivity.
  - lia.
Defined.
