(* ===== verification/DshotTimers.v ===== *)
(** * DShot on the timers of the board

    [platforms/nuttx/src/px4/stm/stm32_common/dshot/dshot.c] with
    [src/drivers/drv_dshot.h] and [px4_platform/io_timer_init.h]: the frames that the
    driver puts into the buffers of the timers, the initialisation of the buffers from the
    description of the board, the cycle of a bidirectional timer (burst, capture,
    processing), and the decoding of the answers of the motor controllers. Registers, DMA
    streams and the cache are not modelled; the outcome of claiming a DMA stream or a timer
    channel is an argument. [None] is an access outside an array. *)
From stdpp Require Import base list tactics option.
From Stdlib Require Import ZArith Lia.
From S2P Require Import Prelude Float32 FloatOps.

(** ** The description of the board *)
Record io_timer := mkIoTimer { io_base : Z; io_dma_base : Z; io_dma_map_up : Z; io_dma_map_ch : list Z }.
Record io_channel := mkIoChannel { ch_gpio_in : Z; ch_gpio_out : Z; ch_timer_index : Z; ch_timer_channel : Z }.
Record mapping_element := mkMapping {
  first_channel_index : Z; channel_count : Z; lowest_timer_channel : Z; channel_count_including_gaps : Z }.
#[export] Instance mapping_element_eq_dec : EqDecision mapping_element.
Proof. solve_decision. Defined.

Definition mapping_zero : mapping_element := mkMapping 0 0 0 0.
Definition UINT32_MAX : Z := 2 ^ 32 - 1.

(** The channels of one timer: first index, count, lowest and highest timer channel. *)
Record group := mkGroup { g_first : Z; g_count : Z; g_min : Z; g_max : Z }.

(** The loop over the channels; [prev] is the timer of the channel before, for the assertion
    that the channels of a timer are grouped together. *)
Fixpoint group_channels (timer channel : Z) (prev : option Z) (l : list io_channel) (g : group) : option group :=
  match l with
  | [] => Some g
  | c :: l' =>
    if (c.(ch_gpio_in) =? 0) && (c.(ch_gpio_out) =? 0) then Some g
    else if c.(ch_timer_index) =? timer then
      if (g.(g_first) =? UINT32_MAX) || bool_decide (prev = Some timer) then
        group_channels timer (channel + 1) (Some timer) l'
          (mkGroup (if g.(g_first) =? UINT32_MAX then channel else g.(g_first)) (g.(g_count) + 1)
             (Z.min c.(ch_timer_channel) g.(g_min)) (Z.max c.(ch_timer_channel) g.(g_max)))
      else None
    else group_channels timer (channel + 1) (Some c.(ch_timer_index)) l' g
  end.

Definition mapping_of_group (g : group) : mapping_element :=
  if g.(g_first) =? UINT32_MAX then mkMapping 0 g.(g_count) 0 0
  else mkMapping g.(g_first) g.(g_count) g.(g_min) (u32 (g.(g_max) - g.(g_min) + 1)).

Fixpoint map_timers (i : Z) (timers : list io_timer) (channels : list io_channel) : option (list mapping_element) :=
  match timers with
  | [] => Some []
  | t :: ts =>
    if t.(io_base) =? 0 then Some (replicate (S (length ts)) mapping_zero)
    else
      g ← group_channels i 0 None channels (mkGroup UINT32_MAX 0 UINT32_MAX 0);
      rest ← map_timers (i + 1) ts channels;
      Some (mapping_of_group g :: rest)
  end.

Fixpoint configured_channels (l : list io_channel) : Z :=
  match l with
  | [] => 0
  | c :: l' => if (c.(ch_gpio_in) =? 0) && (c.(ch_gpio_out) =? 0) then 0 else 1 + configured_channels l'
  end.

(** [initIOTimerChannelMapping]; a failed [constexpr_assert] stops the compilation. *)
Definition initIOTimerChannelMapping (DIRECT_PWM_OUTPUT_CHANNELS : Z) (timers : list io_timer) (channels : list io_channel)
    : option (list mapping_element) :=
  m ← map_timers 0 timers channels;
  if (DIRECT_PWM_OUTPUT_CHANNELS =? configured_channels channels) && (DIRECT_PWM_OUTPUT_CHANNELS <=? zlen channels)
  then Some m else None.

Record board := mkBoard { io_timers : list io_timer; timer_io_channels : list io_channel; io_mapping : list mapping_element }.

(** ** The state of the driver *)
Record timer_config := mkTimer {
  tc_dma_handle : bool; tc_enabled : bool; tc_enabled_channels : list bool; tc_initialized : bool;
  tc_initialized_channels : list bool; tc_bidirectional : bool; tc_capture_channel : Z; tc_timer_index : Z }.
Record erpm_data := mkErpm { er_erpm : Z; er_ready : bool; er_rate_hz : Z; er_last_timestamp : Z }.
Record edt_data := mkEdt { ed_value : Z; ed_ready : bool; ed_rate_hz : Z; ed_last_timestamp : Z }.

(** Per channel: online flag, capture support, counters, calibrated bit time, last values. *)
Record channel_state := mkChannel {
  cs_online : bool; cs_capture_supported : bool; cs_failures : Z; cs_successes : Z; cs_base_interval_x8 : Z;
  cs_erpm : erpm_data; cs_temp : edt_data; cs_volt : edt_data; cs_curr : edt_data; cs_read_ok : Z; cs_read_fail_crc : Z }.

(** [d_burst] are the 32-bit words of [dshot_burst_buffer_array], [d_output_buffer] the word at
    which the buffer of a timer begins. *)
Record dshot := mkDshot {
  d_timers : list timer_config; d_burst : list Z; d_output_buffer : list (option Z);
  d_capture_buffer : list (list (list Z)); d_cycle_complete : list bool; d_channels : list channel_state;
  d_bdshot_channel_mask : Z; d_frequency : Z; d_capture_delay : Z; d_edt_enabled : bool; d_ready_mask : Z }.

Definition timer_zero : timer_config :=
  mkTimer false false (replicate 4 false) false (replicate 4 false) false 0 0.
Definition channel_zero : channel_state :=
  mkChannel false false 0 0 168 (mkErpm 0 false 0 0) (mkEdt 0 false 0 0) (mkEdt 0 false 0 0) (mkEdt 0 false 0 0) 0 0.

Definition ONE_MOTOR_DATA_SIZE : Z := 16.
Definition MOTOR_PWM_BIT_1 : Z := 14.
Definition MOTOR_PWM_BIT_0 : Z := 7.
Definition CHANNEL_OUTPUT_BUFF_SIZE : Z := 17.
Definition CHANNEL_CAPTURE_BUFF_SIZE : nat := 32.
Definition BDSHOT_OFFLINE_COUNT : Z := 200.
Definition ESC_BOOT_DELAY_US : Z := 3000000.

(** DSHOT_OUTPUT_BUFFER_SIZE in bytes, aligned to the 32 bytes of a cache line. *)
Definition output_buffer_size (channel_count : Z) : Z := (4 * CHANNEL_OUTPUT_BUFF_SIZE * channel_count + 31) / 32 * 32.

Definition burst_buffer_size (b : board) : Z := zlen b.(io_timers) * output_buffer_size 4.

Definition dshot_zero (b : board) : dshot :=
  let n := length b.(io_timers) in
  mkDshot (replicate n timer_zero) (replicate (Z.to_nat (burst_buffer_size b / 4)) 0) (replicate n None)
    (replicate n (replicate 4 (replicate CHANNEL_CAPTURE_BUFF_SIZE 0))) (replicate n true)
    (replicate (length b.(timer_io_channels)) channel_zero) 0 0 0 false 0.

Definition set_timers ts (d : dshot) := mkDshot ts d.(d_burst) d.(d_output_buffer) d.(d_capture_buffer) d.(d_cycle_complete) d.(d_channels) d.(d_bdshot_channel_mask) d.(d_frequency) d.(d_capture_delay) d.(d_edt_enabled) d.(d_ready_mask).
Definition set_burst w (d : dshot) := mkDshot d.(d_timers) w d.(d_output_buffer) d.(d_capture_buffer) d.(d_cycle_complete) d.(d_channels) d.(d_bdshot_channel_mask) d.(d_frequency) d.(d_capture_delay) d.(d_edt_enabled) d.(d_ready_mask).
Definition set_output_buffer o (d : dshot) := mkDshot d.(d_timers) d.(d_burst) o d.(d_capture_buffer) d.(d_cycle_complete) d.(d_channels) d.(d_bdshot_channel_mask) d.(d_frequency) d.(d_capture_delay) d.(d_edt_enabled) d.(d_ready_mask).
Definition set_capture_buffer c (d : dshot) := mkDshot d.(d_timers) d.(d_burst) d.(d_output_buffer) c d.(d_cycle_complete) d.(d_channels) d.(d_bdshot_channel_mask) d.(d_frequency) d.(d_capture_delay) d.(d_edt_enabled) d.(d_ready_mask).
Definition set_cycle_complete c (d : dshot) := mkDshot d.(d_timers) d.(d_burst) d.(d_output_buffer) d.(d_capture_buffer) c d.(d_channels) d.(d_bdshot_channel_mask) d.(d_frequency) d.(d_capture_delay) d.(d_edt_enabled) d.(d_ready_mask).
Definition set_channels c (d : dshot) := mkDshot d.(d_timers) d.(d_burst) d.(d_output_buffer) d.(d_capture_buffer) d.(d_cycle_complete) c d.(d_bdshot_channel_mask) d.(d_frequency) d.(d_capture_delay) d.(d_edt_enabled) d.(d_ready_mask).
Definition set_ready_mask m (d : dshot) := mkDshot d.(d_timers) d.(d_burst) d.(d_output_buffer) d.(d_capture_buffer) d.(d_cycle_complete) d.(d_channels) d.(d_bdshot_channel_mask) d.(d_frequency) d.(d_capture_delay) d.(d_edt_enabled) m.

(** Replace an element of an array that the index may miss. *)
Definition zmodify {A} (l : list A) (i : Z) (f : A -> option A) : option (list A) :=
  x ← zlookup l i; y ← f x; zstore l i y.
Definition on_channel (d : dshot) (ch : Z) (f : channel_state -> channel_state) : option dshot :=
  cs ← zmodify d.(d_channels) ch (λ c, Some (f c)); Some (set_channels cs d).
Definition on_timer (d : dshot) (t : Z) (f : timer_config -> timer_config) : option dshot :=
  ts ← zmodify d.(d_timers) t (λ c, Some (f c)); Some (set_timers ts d).
Definition bit (mask i : Z) : bool := Z.testbit mask i.

(** ** Initialisation *)
Section board.
Context (b : board).
Definition MAX_IO_TIMERS : Z := zlen b.(io_timers).
Definition MAX_TIMER_IO_CHANNELS : Z := zlen b.(timer_io_channels).

(** A loop over [0 .. n-1] whose body may leave the array. *)
Fixpoint zloop {S} (n : nat) (i : Z) (body : Z -> S -> option S) (s : S) : option S :=
  match n with O => Some s | S n' => s' ← body i s; zloop n' (i + 1) body s' end.

Definition enable_channel (timer_channel timer_index : Z) (bidirectional : bool) (t : timer_config) : timer_config :=
  mkTimer t.(tc_dma_handle) true (<[Z.to_nat timer_channel := true]> t.(tc_enabled_channels)) t.(tc_initialized)
    t.(tc_initialized_channels) (t.(tc_bidirectional) || bidirectional) t.(tc_capture_channel) timer_index.

Definition init_timer_config (channel_mask : Z) (d : dshot) : option dshot :=
  zloop (length b.(timer_io_channels)) 0 (λ output_channel d,
    if bit channel_mask output_channel then
      c ← zlookup b.(timer_io_channels) output_channel;
      if 4 <=? c.(ch_timer_channel) then Some d
      else
        io ← zlookup b.(io_timers) c.(ch_timer_index);
        if io.(io_dma_base) =? 0 then Some d
        else on_timer d c.(ch_timer_index)
               (enable_channel c.(ch_timer_channel) c.(ch_timer_index) (bit d.(d_bdshot_channel_mask) output_channel))
    else Some d) d.

Definition tc_with_dma (handle initialized : bool) (t : timer_config) : timer_config :=
  mkTimer handle t.(tc_enabled) t.(tc_enabled_channels) initialized t.(tc_initialized_channels)
    t.(tc_bidirectional) t.(tc_capture_channel) t.(tc_timer_index).

(** [dma_up timer] tells whether a DMA stream is free for the timer. *)
Definition init_timers_dma_up (dma_up : Z -> bool) (d : dshot) : option dshot :=
  d ← zloop (length b.(io_timers)) 0 (λ timer_index d,
    t ← zlookup d.(d_timers) timer_index;
    io ← zlookup b.(io_timers) timer_index;
    if negb t.(tc_enabled) then Some d
    else if io.(io_dma_map_up) =? 0 then Some d
    else if dma_up timer_index then on_timer d timer_index (tc_with_dma true true)
    else on_timer d timer_index (tc_with_dma false t.(tc_initialized))) d;
  zloop (length b.(io_timers)) 0 (λ timer_index d,
    t ← zlookup d.(d_timers) timer_index;
    if negb t.(tc_bidirectional) then Some d
    else on_timer d timer_index (tc_with_dma false t.(tc_initialized))) d.

Definition channel_initialized (timer_channel : Z) (t : timer_config) : timer_config :=
  mkTimer t.(tc_dma_handle) t.(tc_enabled) t.(tc_enabled_channels) t.(tc_initialized)
    (<[Z.to_nat timer_channel := true]> t.(tc_initialized_channels)) t.(tc_bidirectional) t.(tc_capture_channel) t.(tc_timer_index).

(** [channel_init channel] tells whether [io_timer_channel_init] succeeds. *)
Definition init_timer_channels (channel_init : Z -> bool) (timer_index : Z) (dm : dshot * Z) : option (dshot * Z) :=
  t ← zlookup (dm.1).(d_timers) timer_index;
  if negb t.(tc_enabled) || negb t.(tc_initialized) then Some dm
  else
    zloop (length b.(timer_io_channels)) 0 (λ output_channel '(d, mask),
      c ← zlookup b.(timer_io_channels) output_channel;
      if 4 <=? c.(ch_timer_channel) then Some (d, mask)
      else
        t ← zlookup d.(d_timers) timer_index;
        enabled ← zlookup t.(tc_enabled_channels) c.(ch_timer_channel);
        if (timer_index =? c.(ch_timer_index)) && enabled && channel_init output_channel then
          d ← on_timer d timer_index (channel_initialized c.(ch_timer_channel));
          Some (d, Z.setbit mask output_channel)
        else Some (d, mask)) dm.

(** The buffers of the timers, one after the other; [inr] is the return of -EINVAL. *)
Fixpoint assign_buffers (n : nat) (timer_index offset : Z) (d : dshot) : option (dshot + dshot) :=
  match n with
  | O => Some (inl d)
  | S n' =>
    t ← zlookup d.(d_timers) timer_index;
    if t.(tc_initialized) then
      io ← zlookup b.(io_timers) timer_index;
      if io.(io_base) =? 0 then Some (inl d)
      else
        m ← zlookup b.(io_mapping) timer_index;
        o ← zstore d.(d_output_buffer) timer_index (Some (offset / 4));
        let d := set_output_buffer o d in
        let offset := offset + output_buffer_size m.(channel_count_including_gaps) in
        if burst_buffer_size b <? offset then Some (inr d) else assign_buffers n' (timer_index + 1) offset d
    else assign_buffers n' (timer_index + 1) offset d
  end.

Definition cs_set_supported (c : channel_state) : channel_state :=
  mkChannel c.(cs_online) true c.(cs_failures) c.(cs_successes) c.(cs_base_interval_x8) c.(cs_erpm) c.(cs_temp) c.(cs_volt) c.(cs_curr) c.(cs_read_ok) c.(cs_read_fail_crc).

Definition mark_capture (bdshot_channel_mask : Z) (d : dshot) : option dshot :=
  zloop (length b.(timer_io_channels)) 0 (λ output_channel d,
    if bit bdshot_channel_mask output_channel then
      c ← zlookup b.(timer_io_channels) output_channel;
      if c.(ch_timer_channel) <? 4 then
        io ← zlookup b.(io_timers) c.(ch_timer_index);
        map ← zlookup io.(io_dma_map_ch) c.(ch_timer_channel);
        if negb (map =? 0) then on_channel d output_channel cs_set_supported
        else Some (set_ready_mask (u16 (Z.setbit d.(d_ready_mask) output_channel)) d)
      else Some d
    else Some d) d.

(** [up_dshot_init]: the result is the mask of the initialised channels or -EINVAL. A frequency
    of 0 is a division by zero. *)
Definition up_dshot_init (dma_up channel_init : Z -> bool) (channel_mask bdshot_channel_mask dshot_pwm_freq : Z) (edt_enable : bool)
    (d : dshot) : option (Z * dshot) :=
  if dshot_pwm_freq =? 0 then None
  else
    let frame_us := 16 * 1000000 / dshot_pwm_freq in
    let d := mkDshot d.(d_timers) d.(d_burst) d.(d_output_buffer) d.(d_capture_buffer) d.(d_cycle_complete) d.(d_channels)
               bdshot_channel_mask dshot_pwm_freq (30 + frame_us + 20) edt_enable d.(d_ready_mask) in
    d ← init_timer_config channel_mask d;
    d ← init_timers_dma_up dma_up d;
    '(d, channels_init_mask) ← zloop (length b.(io_timers)) 0 (init_timer_channels channel_init) (d, 0);
    r ← assign_buffers (length b.(io_timers)) 0 0 d;
    match r with
    | inr d => Some (-22, d)
    | inl d => d ← mark_capture bdshot_channel_mask d; Some (channels_init_mask, d)
    end.

(** ** Sending *)

(** What a burst sends: the timer and the words of its buffer. *)
Record burst := mkBurst { bu_timer : Z; bu_words : list Z }.

(** [dshot_start_timer_burst]. *)
Definition dshot_start_timer_burst (now : Z) (dma_up : Z -> bool) (timer_index : Z) (d : dshot) : option (dshot * list burst) :=
  t ← zlookup d.(d_timers) timer_index;
  m ← zlookup b.(io_mapping) timer_index;
  if t.(tc_bidirectional) && negb (dma_up timer_index) then
    d ← on_timer d timer_index (tc_with_dma false t.(tc_initialized));
    c ← zstore d.(d_cycle_complete) timer_index true;
    Some (set_cycle_complete c d, [])
  else
    d ← (if t.(tc_bidirectional) then on_timer d timer_index (tc_with_dma true t.(tc_initialized)) else Some d);
    buf ← zlookup d.(d_output_buffer) timer_index;
    off ← buf;
    words ← mem_read d.(d_burst) off (m.(channel_count_including_gaps) * CHANNEL_OUTPUT_BUFF_SIZE);
    if t.(tc_bidirectional) && (now <=? ESC_BOOT_DELAY_US) then
      c ← zstore d.(d_cycle_complete) timer_index true;
      Some (set_cycle_complete c d, [mkBurst timer_index words])
    else Some (d, [mkBurst timer_index words]).

(** [up_dshot_trigger]: nothing is sent while a timer has not finished its capture. *)
Definition up_dshot_trigger (now : Z) (dma_up : Z -> bool) (d : dshot) : option (dshot * list burst) :=
  if negb (forallb id d.(d_cycle_complete)) then Some (d, [])
  else
    zloop (length b.(io_timers)) 0 (λ i '(d, sent),
      t ← zlookup d.(d_timers) i;
      if t.(tc_enabled) && t.(tc_initialized) then
        d ← (if t.(tc_bidirectional) then c ← zstore d.(d_cycle_complete) i false; Some (set_cycle_complete c d) else Some d);
        '(d, s) ← dshot_start_timer_burst now dma_up i d;
        Some (d, sent ++ s)
      else Some (d, sent)) (d, []).

(** ** Frames *)

(** The XOR of the three nibbles above the checksum. *)
Fixpoint xor_nibbles (n : nat) (csum_data checksum : Z) : Z :=
  match n with
  | O => checksum
  | S n' => xor_nibbles n' (Z.shiftr csum_data 4) (Z.lxor checksum (Z.land csum_data 15))
  end.

Definition dshot_packet (inverted : bool) (data : Z) (telemetry : bool) : Z :=
  let packet := Z.lor (u16 (Z.shiftl data 5)) (Z.shiftl (b2z telemetry) 4) in
  let checksum := xor_nibbles 3 (Z.shiftr packet 4) 0 in
  Z.lor packet (if inverted then Z.land (Z.lnot checksum) 15 else Z.land checksum 15).

(** The loop over the bits, most significant first. *)
Fixpoint write_bits (n : nat) (base stride motor_data_index packet : Z) (words : list Z) : option (list Z) :=
  match n with
  | O => Some words
  | S n' =>
    words ← zstore words (base + motor_data_index * stride) (if negb (Z.land packet 32768 =? 0) then MOTOR_PWM_BIT_1 else MOTOR_PWM_BIT_0);
    write_bits n' base stride (motor_data_index + 1) (u16 (Z.shiftl packet 1)) words
  end.

Definition dshot_motor_data_set (channel data : Z) (telemetry : bool) (d : dshot) : option dshot :=
  if MAX_TIMER_IO_CHANNELS <=? channel then Some d
  else
    c ← zlookup b.(timer_io_channels) channel;
    t ← zlookup d.(d_timers) c.(ch_timer_index);
    initialized ← zlookup t.(tc_initialized_channels) c.(ch_timer_channel);
    if negb initialized then Some d
    else
      let packet := dshot_packet (bit d.(d_bdshot_channel_mask) channel) data telemetry in
      m ← zlookup b.(io_mapping) c.(ch_timer_index);
      let num_motors := u8 m.(channel_count_including_gaps) in
      let timer_channel := u8 (c.(ch_timer_channel) - m.(lowest_timer_channel)) in
      buf ← zlookup d.(d_output_buffer) c.(ch_timer_index);
      off ← buf;
      words ← write_bits 16 (off + timer_channel) num_motors 0 packet d.(d_burst);
      Some (set_burst words d).

Definition DSHOT_CMD_MIN_THROTTLE : Z := 48.

(** [up_dshot_motor_data_set] and [up_dshot_motor_command] of drv_dshot.h. *)
Definition up_dshot_motor_data_set (channel throttle : Z) (telemetry : bool) (d : dshot) : option dshot :=
  dshot_motor_data_set channel (u16 (throttle + DSHOT_CMD_MIN_THROTTLE)) telemetry d.
Definition up_dshot_motor_command (channel command : Z) (telemetry : bool) (d : dshot) : option dshot :=
  dshot_motor_data_set (u8 channel) command telemetry d.

(** ** Capturing the answers *)

Fixpoint find_channel (timer_index timer_channel_index output_channel : Z) (l : list io_channel) : Z :=
  match l with
  | [] => output_channel
  | c :: l' =>
    if (timer_index =? c.(ch_timer_index)) && (c.(ch_timer_channel) =? timer_channel_index) then output_channel
    else find_channel timer_index timer_channel_index (output_channel + 1) l'
  end.

(** The output of a timer channel, or MAX_TIMER_IO_CHANNELS. *)
Definition output_channel_from_timer_channel (timer_index timer_channel_index : Z) : Z :=
  find_channel timer_index timer_channel_index 0 b.(timer_io_channels).

Fixpoint next_capture (n : nat) (timer_index current i : Z) (t : timer_config) (d : dshot) : option (option Z) :=
  match n with
  | O => Some None
  | S n' =>
    let next := Z.rem (current + i) 4 in
    initialized ← zlookup t.(tc_initialized_channels) next;
    let output_channel := output_channel_from_timer_channel timer_index next in
    if initialized && (output_channel <? MAX_TIMER_IO_CHANNELS) then
      c ← zlookup d.(d_channels) output_channel;
      if c.(cs_capture_supported) then Some (Some next) else next_capture n' timer_index current (i + 1) t d
    else next_capture n' timer_index current (i + 1) t d
  end.

Definition tc_set_capture (capture_channel : Z) (t : timer_config) : timer_config :=
  mkTimer t.(tc_dma_handle) t.(tc_enabled) t.(tc_enabled_channels) t.(tc_initialized) t.(tc_initialized_channels)
    t.(tc_bidirectional) capture_channel t.(tc_timer_index).

Definition select_next_capture_channel (timer_index : Z) (d : dshot) : option dshot :=
  t ← zlookup d.(d_timers) timer_index;
  r ← next_capture 4 timer_index t.(tc_capture_channel) 1 t d;
  match r with
  | Some next => on_timer d timer_index (tc_set_capture next)
  | None => Some d
  end.

(** [dma_burst_finished_callback]: the next channel of the timer is captured if a DMA stream is
    free; the capture buffer is cleared before. The result tells whether the completion of the
    capture is scheduled. *)
Definition dma_burst_finished_callback (now : Z) (dma_ch : Z -> Z -> bool) (timer_index : Z) (d : dshot) : option (bool * dshot) :=
  t ← zlookup d.(d_timers) timer_index;
  if negb t.(tc_bidirectional) || (now <=? ESC_BOOT_DELAY_US) then Some (false, d)
  else
    cb ← zstore d.(d_capture_buffer) timer_index (replicate 4 (replicate CHANNEL_CAPTURE_BUFF_SIZE 0));
    d ← select_next_capture_channel timer_index (set_capture_buffer cb d);
    t ← zlookup d.(d_timers) timer_index;
    if dma_ch timer_index t.(tc_capture_channel) then
      d ← on_timer d timer_index (tc_with_dma true t.(tc_initialized)); Some (true, d)
    else
      d ← on_timer d timer_index (tc_with_dma false t.(tc_initialized));
      c ← zstore d.(d_cycle_complete) timer_index true;
      Some (false, set_cycle_complete c d).

(** ** Decoding the answers *)

(** The intervals between the edges, without those that are too short or too long. *)
Fixpoint collect_intervals (previous : Z) (edges : list Z) : list Z :=
  match edges with
  | [] => []
  | e :: edges' =>
    if e =? 0 then []
    else
      let interval := u32 (e - previous) in
      if (10 <=? interval) && (interval <=? 100) then interval :: collect_intervals e edges'
      else collect_intervals e edges'
  end.

Definition min_interval (intervals : list Z) : Z :=
  match intervals with [] => 0 | i :: l => fold_left Z.min l i end.

(** The number of bits of an interval, between 1 and 4. *)
Definition interval_bits (base_x8 interval : Z) : Z :=
  Z.max 1 (Z.min 4 (u32 (interval * 8 + base_x8 / 2) / base_x8)).

Fixpoint shift_in (n : nat) (high value : Z) : Z :=
  match n with O => value | S n' => shift_in n' high (Z.lor (u32 (Z.shiftl value 1)) high) end.

Fixpoint decode_bits (bits : list Z) (high value shifted : Z) : Z * Z :=
  match bits with
  | [] => (value, shifted)
  | n :: bits' => decode_bits bits' (1 - high) (shift_in (Z.to_nat n) high value) (shifted + n)
  end.

(** Frames of 18 to 24 bits are cut or filled up to 21. *)
Definition pad_frame (r : Z * Z) : Z :=
  let '(value, shifted) := r in
  if (shifted <? 18) || (24 <? shifted) then 0
  else if shifted <? 21 then u32 (Z.shiftl value (21 - shifted))
  else Z.shiftr value (shifted - 21).

Definition cs_set_base (base : Z) (c : channel_state) : channel_state :=
  mkChannel c.(cs_online) c.(cs_capture_supported) c.(cs_failures) c.(cs_successes) base c.(cs_erpm) c.(cs_temp) c.(cs_volt) c.(cs_curr) c.(cs_read_ok) c.(cs_read_fail_crc).

(** The calibrated bit time, with a low pass of 1/8. *)
Definition base_update (base_x8 interval : Z) : Z := u32 (base_x8 - Z.shiftr base_x8 3 + interval).

Definition convert_edge_intervals_to_bitstream (timer_index channel_index : Z) (d : dshot) : option (Z * dshot) :=
  chans ← zlookup d.(d_capture_buffer) timer_index;
  edges ← zlookup chans channel_index;
  previous ← zlookup edges 1;
  let intervals := collect_intervals previous (drop 2 edges) in
  let output_channel := output_channel_from_timer_channel timer_index channel_index in
  match intervals with
  | [] => Some (0, d)
  | _ =>
    if MAX_TIMER_IO_CHANNELS <=? output_channel then Some (0, d)
    else
      c ← zlookup d.(d_channels) output_channel;
      let base_x8 := base_update c.(cs_base_interval_x8) (min_interval intervals) in
      d ← on_channel d output_channel (cs_set_base base_x8);
      if base_x8 =? 0 then None
      else Some (pad_frame (decode_bits (map (interval_bits base_x8) intervals) 1 0 0), d)
  end.

Definition gcr_decode : list Z :=
  [0x0; 0x0; 0x0; 0x0; 0x0; 0x0; 0x0; 0x0;
   0x0; 0x9; 0xA; 0xB; 0x0; 0xD; 0xE; 0xF;
   0x0; 0x0; 0x2; 0x3; 0x0; 0x5; 0x6; 0x7;
   0x0; 0x0; 0x8; 0x1; 0x0; 0x4; 0xC; 0x0].

Definition gcr (index : Z) : Z := default 0 (zlookup gcr_decode (Z.land index 31)).

(** The run-length and the group code of a frame: four groups of five bits. *)
Definition decode_payload (value : Z) : Z :=
  let value := Z.lxor value (Z.shiftr value 1) in
  Z.lor (gcr value) (Z.lor (Z.shiftl (gcr (Z.shiftr value 5)) 4)
    (Z.lor (Z.shiftl (gcr (Z.shiftr value 10)) 8) (Z.shiftl (gcr (Z.shiftr value 15)) 12))).

Definition payload_checksum (payload : Z) : Z :=
  let c := Z.lxor payload (Z.shiftr payload 8) in
  Z.land (Z.lxor c (Z.shiftr c 4)) 15.

Definition DSHOT_EDT_ERPM : Z := 0.
Definition DSHOT_EDT_TEMPERATURE : Z := 2.
Definition DSHOT_EDT_VOLTAGE : Z := 4.
Definition DSHOT_EDT_CURRENT : Z := 6.

(** [decode_dshot_telemetry]: the type and the value of a packet. *)
Definition decode_dshot_telemetry (edt_enabled : bool) (payload : Z) : Z * Z :=
  let mantissa := Z.land payload 0x1FF in
  let is_telemetry := Z.land mantissa 0x100 =? 0 in
  if edt_enabled && is_telemetry then (Z.shiftr (Z.land payload 0xF00) 8, Z.land payload 0xFF)
  else
    let exponent := Z.land (Z.shiftr payload 9) 7 in
    let period := u16 (Z.shiftl (Z.land payload 0x1FF) exponent) in
    if (period =? 65408) || (period =? 0) then (DSHOT_EDT_ERPM, 0)
    else (DSHOT_EDT_ERPM, (1000000 * 60 / 100 + period / 2) / period).

(** [calculate_rate_hz]: a moving average of the rate, only for the status. *)
Definition calculate_rate_hz (last_timestamp last_rate_hz timestamp : Z) : Z :=
  if (last_timestamp =? 0) || (timestamp <=? last_timestamp) then last_rate_hz
  else
    let instant_rate := f32_div (f32_of_int 1000000) (f32_of_int (timestamp - last_timestamp)) in
    f32_add (f32_mul instant_rate (f32_div (f32_of_int 1) (f32_of_int 8)))
            (f32_mul last_rate_hz (f32_div (f32_of_int 7) (f32_of_int 8))).

Definition erpm_sample (now value : Z) (e : erpm_data) : erpm_data :=
  mkErpm (s32 value) true (calculate_rate_hz e.(er_last_timestamp) e.(er_rate_hz) now) now.
Definition edt_sample (now value : Z) (e : edt_data) : edt_data :=
  mkEdt (u8 value) true (calculate_rate_hz e.(ed_last_timestamp) e.(ed_rate_hz) now) now.

(** The packet is stored by its type; other types are dropped. *)
Definition store_packet (now : Z) (packet : Z * Z) (c : channel_state) : channel_state :=
  let '(type, value) := packet in
  let upd erpm temp volt curr :=
    mkChannel c.(cs_online) c.(cs_capture_supported) c.(cs_failures) c.(cs_successes) c.(cs_base_interval_x8) erpm temp volt curr c.(cs_read_ok) c.(cs_read_fail_crc) in
  if type =? DSHOT_EDT_ERPM then upd (erpm_sample now value c.(cs_erpm)) c.(cs_temp) c.(cs_volt) c.(cs_curr)
  else if type =? DSHOT_EDT_TEMPERATURE then upd c.(cs_erpm) (edt_sample now value c.(cs_temp)) c.(cs_volt) c.(cs_curr)
  else if type =? DSHOT_EDT_VOLTAGE then upd c.(cs_erpm) c.(cs_temp) (edt_sample now value c.(cs_volt)) c.(cs_curr)
  else if type =? DSHOT_EDT_CURRENT then upd c.(cs_erpm) c.(cs_temp) c.(cs_volt) (edt_sample now value c.(cs_curr))
  else c.

(** The counters of an invalid and of a valid frame. *)
Definition count_failure (c : channel_state) : channel_state :=
  let upd online failures successes :=
    mkChannel online c.(cs_capture_supported) failures successes c.(cs_base_interval_x8) c.(cs_erpm) c.(cs_temp) c.(cs_volt) c.(cs_curr) c.(cs_read_ok) (u32 (c.(cs_read_fail_crc) + 1)) in
  if BDSHOT_OFFLINE_COUNT <? c.(cs_failures) then upd false BDSHOT_OFFLINE_COUNT 0
  else upd c.(cs_online) (c.(cs_failures) + 1) c.(cs_successes).
Definition count_success (c : channel_state) : channel_state :=
  let upd online failures successes :=
    mkChannel online c.(cs_capture_supported) failures successes c.(cs_base_interval_x8) c.(cs_erpm) c.(cs_temp) c.(cs_volt) c.(cs_curr) (u32 (c.(cs_read_ok) + 1)) c.(cs_read_fail_crc) in
  if BDSHOT_OFFLINE_COUNT <? c.(cs_successes) then upd true 0 BDSHOT_OFFLINE_COUNT
  else upd c.(cs_online) c.(cs_failures) (c.(cs_successes) + 1).

Definition process_capture_results (now timer_index channel_index : Z) (d : dshot) : option dshot :=
  let output_channel := output_channel_from_timer_channel timer_index channel_index in
  if MAX_TIMER_IO_CHANNELS <=? output_channel then Some d
  else
    '(value, d) ← convert_edge_intervals_to_bitstream timer_index channel_index d;
    let payload := decode_payload value in
    d ← (if negb (payload_checksum payload =? 15) then on_channel d output_channel count_failure
         else on_channel d output_channel (λ c,
           store_packet now (decode_dshot_telemetry d.(d_edt_enabled) (Z.land (Z.shiftr payload 4) 0xFFF)) (count_success c)));
    Some (set_ready_mask (u16 (Z.setbit d.(d_ready_mask) output_channel)) d).

(** [capture_complete_callback]; [edges] is what the DMA stream has written. *)
Definition capture_complete_callback (now timer_index : Z) (edges : list Z) (d : dshot) : option dshot :=
  t ← zlookup d.(d_timers) timer_index;
  cb ← zmodify d.(d_capture_buffer) timer_index (λ chans, zstore chans t.(tc_capture_channel) edges);
  d ← process_capture_results now timer_index t.(tc_capture_channel) (set_capture_buffer cb d);
  c ← zstore d.(d_cycle_complete) timer_index true;
  Some (set_cycle_complete c d).

(** ** What the driver asks for *)
Definition up_bdshot_get_ready_mask (d : dshot) : Z := d.(d_ready_mask).
Definition up_bdshot_num_errors (channel : Z) (d : dshot) : option Z :=
  if MAX_TIMER_IO_CHANNELS <=? channel then Some 0
  else c ← zlookup d.(d_channels) channel; Some (s32 c.(cs_read_fail_crc)).
Definition up_bdshot_channel_online (channel : Z) (d : dshot) : option bool :=
  if MAX_TIMER_IO_CHANNELS <=? channel then Some false
  else c ← zlookup d.(d_channels) channel; Some c.(cs_online).

(** [inl erpm] or an error; reading clears the ready bit of a channel with capture. *)
Definition up_bdshot_get_erpm (channel : Z) (d : dshot) : option (option Z * dshot) :=
  if MAX_TIMER_IO_CHANNELS <=? channel then Some (None, d)
  else
    c ← zlookup b.(timer_io_channels) channel;
    t ← zlookup d.(d_timers) c.(ch_timer_index);
    initialized ← zlookup t.(tc_initialized_channels) c.(ch_timer_channel);
    cs ← zlookup d.(d_channels) channel;
    let r := if initialized && cs.(cs_erpm).(er_ready) then Some cs.(cs_erpm).(er_erpm) else None in
    Some (r, if cs.(cs_capture_supported) then set_ready_mask (Z.clearbit d.(d_ready_mask) channel) d else d).

Definition edt_taken (e : edt_data) : edt_data := mkEdt e.(ed_value) false e.(ed_rate_hz) e.(ed_last_timestamp).

Definition up_bdshot_get_extended_telemetry (channel type : Z) (d : dshot) : option (option Z * dshot) :=
  if MAX_TIMER_IO_CHANNELS <=? channel then Some (None, d)
  else
    c ← zlookup d.(d_channels) channel;
    let take_edt e upd :=
      if e.(ed_ready) then d ← on_channel d channel (λ _, upd (edt_taken e)); Some (Some e.(ed_value), d) else Some (None, d) in
    let upd temp volt curr :=
      mkChannel c.(cs_online) c.(cs_capture_supported) c.(cs_failures) c.(cs_successes) c.(cs_base_interval_x8) c.(cs_erpm) temp volt curr c.(cs_read_ok) c.(cs_read_fail_crc) in
    if type =? DSHOT_EDT_TEMPERATURE then take_edt c.(cs_temp) (λ e, upd e c.(cs_volt) c.(cs_curr))
    else if type =? DSHOT_EDT_VOLTAGE then take_edt c.(cs_volt) (λ e, upd c.(cs_temp) e c.(cs_curr))
    else if type =? DSHOT_EDT_CURRENT then take_edt c.(cs_curr) (λ e, upd c.(cs_temp) c.(cs_volt) e)
    else Some (None, d).

(** ** What a motor controller receives

    A channel of a timer sends every [count]-th word of the buffer: sixteen bits, most
    significant first, and an idle period. The receiver checks the four bits of the checksum,
    which are inverted for bidirectional DShot. *)
Definition esc_bit (w : Z) : option Z :=
  if w =? MOTOR_PWM_BIT_1 then Some 1 else if w =? MOTOR_PWM_BIT_0 then Some 0 else None.

Fixpoint esc_bits (l : list Z) (acc : Z) : option Z :=
  match l with [] => Some acc | w :: l' => x ← esc_bit w; esc_bits l' (2 * acc + x) end.

Definition esc_packet (inverted : bool) (packet : Z) : option (Z * bool) :=
  let sum := Z.land (Z.lxor (Z.shiftr packet 4) (Z.lxor (Z.shiftr packet 8) (Z.shiftr packet 12))) 15 in
  if Z.land packet 15 =? (if inverted then 15 - sum else sum) then Some (Z.shiftr packet 5, Z.testbit packet 4) else None.

Fixpoint column (n : nat) (words : list Z) (pos stride : Z) : option (list Z) :=
  match n with O => Some [] | S n' => w ← zlookup words pos; r ← column n' words (pos + stride) stride; Some (w :: r) end.

Definition esc_receive (inverted : bool) (words : list Z) (pos stride : Z) : option (Z * bool) :=
  bits ← column 16 words pos stride;
  idle ← zlookup words (pos + 16 * stride);
  packet ← esc_bits bits 0;
  if idle =? 0 then esc_packet inverted packet else None.

(** The place of an initialised channel in the buffers: timer, begin of its buffer, number of
    interleaved channels and own column. *)
Record slot := mkSlot { sl_timer : Z; sl_off : Z; sl_count : Z; sl_col : Z }.

Definition channel_slot (channel : Z) (d : dshot) : option slot :=
  c ← zlookup b.(timer_io_channels) channel;
  t ← zlookup d.(d_timers) c.(ch_timer_index);
  initialized ← zlookup t.(tc_initialized_channels) c.(ch_timer_channel);
  m ← zlookup b.(io_mapping) c.(ch_timer_index);
  buf ← zlookup d.(d_output_buffer) c.(ch_timer_index);
  off ← buf;
  if (initialized : bool) then
    Some (mkSlot c.(ch_timer_index) off m.(channel_count_including_gaps) (c.(ch_timer_channel) - m.(lowest_timer_channel)))
  else None.

(** The frame that the buffers hold for a channel. *)
Definition channel_value (channel : Z) (d : dshot) : option (Z * bool) :=
  s ← channel_slot channel d;
  esc_receive (bit d.(d_bdshot_channel_mask) channel) d.(d_burst) (s.(sl_off) + s.(sl_col)) s.(sl_count).
End board.

(** ** Frames survive the way through the buffer *)

(** The words that the loop over the bits writes. *)
Fixpoint frame_words (n : nat) (packet : Z) : list Z :=
  match n with
  | O => []
  | S n' => (if negb (Z.land packet 32768 =? 0) then MOTOR_PWM_BIT_1 else MOTOR_PWM_BIT_0) :: frame_words n' (u16 (Z.shiftl packet 1))
  end.

Definition frame_received (inverted : bool) (data : Z) (telemetry : bool) : bool :=
  bool_decide (esc_bits (frame_words 16 (dshot_packet inverted data telemetry)) 0 ≫= esc_packet inverted = Some (data, telemetry)).

(** All numbers below a bound. *)
Lemma forallb_seq (P : Z -> bool) n x : forallb P (seqZ 0 n) = true -> 0 <= x < n -> P x = true.
Proof. intros H Hx. apply (proj1 (forallb_forall P _) H). apply list_elem_of_In, elem_of_seqZ. lia. Qed.

Lemma frames_received inverted data telemetry :
  0 <= data < 2048 -> esc_bits (frame_words 16 (dshot_packet inverted data telemetry)) 0 ≫= esc_packet inverted = Some (data, telemetry).
Proof.
  intros Hd. apply (bool_decide_eq_true_1 _). change (frame_received inverted data telemetry = true).
  apply (forallb_seq (λ x, frame_received inverted x telemetry) 2048 data); [|done].
  destruct inverted, telemetry; vm_compute; reflexivity.
Qed.

Lemma column_lookup n words pos stride l :
  length l = n -> (∀ r x, l !! r = Some x -> zlookup words (pos + Z.of_nat r * stride) = Some x) -> column n words pos stride = Some l.
Proof.
  revert pos l. induction n as [|n IH]; intros pos [|x l] Hl H; try done. cbn [column].
  pose proof (H O x eq_refl) as H0. rewrite Z.mul_0_l, Z.add_0_r in H0. rewrite H0. cbn.
  rewrite (IH (pos + stride) l); [done|by injection Hl|]. intros r y Hr. rewrite <- (H (S r) y Hr). f_equal. lia.
Qed.

Lemma write_bits_spec n base stride k packet words :
  0 < stride -> 0 <= base + k * stride -> base + (k + Z.of_nat n - 1) * stride < zlen words ->
  ∃ words', write_bits n base stride k packet words = Some words' ∧ zlen words' = zlen words ∧
    (∀ r x, frame_words n packet !! r = Some x -> zlookup words' (base + (k + Z.of_nat r) * stride) = Some x) ∧
    (∀ p, (∀ r, (r < n)%nat -> p ≠ base + (k + Z.of_nat r) * stride) -> zlookup words' p = zlookup words p).
Proof.
  revert k packet words. induction n as [|n IH]; intros k packet words Hs H0 H1.
  { exists words. by repeat split. }
  cbn [write_bits]. set (w := if negb (Z.land packet 32768 =? 0) then MOTOR_PWM_BIT_1 else MOTOR_PWM_BIT_0).
  assert (Hi : 0 <= base + k * stride < zlen words) by (pose proof (Z.mul_nonneg_nonneg (Z.of_nat n) stride); lia).
  destruct (zstore_Some words (base + k * stride) w Hi) as (ws & -> & Hlen & Hlk). cbn.
  destruct (IH (k + 1) (u16 (Z.shiftl packet 1)) ws Hs ltac:(nia) ltac:(rewrite Hlen; replace (k + 1 + Z.of_nat n - 1) with (k + Z.of_nat (S n) - 1) by lia; done)) as (ws' & -> & Hl' & Hin & Hout).
  exists ws'. split; [done|]. split; [lia|]. split.
  - intros [|r] x Hr; cbn in Hr.
    + injection Hr as <-. rewrite Hout; [|intros r Hr; nia].
      replace (base + (k + Z.of_nat 0) * stride) with (base + k * stride) by lia. rewrite Hlk. case_if; [done|lia].
    + replace (k + Z.of_nat (S r)) with (k + 1 + Z.of_nat r) by lia. by apply Hin.
  - intros p Hp. rewrite Hout.
    + rewrite Hlk. case_if; [|done]. exfalso. apply (Hp O); lia.
    + intros r Hr. specialize (Hp (S r) ltac:(lia)). replace (k + 1 + Z.of_nat r) with (k + Z.of_nat (S r)) by lia. done.
Qed.

(** ** The layout of the buffers *)

(** What the description of a board has to satisfy: every timer and every channel is in use,
    the channels are distinct, and the mapping is the computed one. *)
Definition board_ok (n : Z) (b : board) : bool :=
  bool_decide (initIOTimerChannelMapping n b.(io_timers) b.(timer_io_channels) = Some b.(io_mapping))
  && forallb (λ t, negb (t.(io_base) =? 0) && (zlen t.(io_dma_map_ch) =? 4)) b.(io_timers)
  && forallb (λ c, (0 <=? c.(ch_timer_index)) && (c.(ch_timer_index) <? zlen b.(io_timers))
                   && (0 <=? c.(ch_timer_channel)) && (c.(ch_timer_channel) <? 4)
                   && negb ((c.(ch_gpio_in) =? 0) && (c.(ch_gpio_out) =? 0))) b.(timer_io_channels)
  && bool_decide (NoDup (map (λ c, (c.(ch_timer_index), c.(ch_timer_channel))) b.(timer_io_channels)))
  && (zlen b.(timer_io_channels) <=? 16).

Lemma zlookup_forallb {A} (P : A -> bool) l i x : forallb P l = true -> zlookup l i = Some x -> P x = true.
Proof.
  intros H Hx. apply (proj1 (forallb_forall P l) H). apply list_elem_of_In. unfold zlookup in Hx. case_if_in Hx; [|done].
  by eapply list_elem_of_lookup_2.
Qed.

Section layout.
Context (n : Z) (b : board) (Hb : board_ok n b = true).

Lemma board_ok_parts :
  initIOTimerChannelMapping n b.(io_timers) b.(timer_io_channels) = Some b.(io_mapping) ∧
  (∀ i t, zlookup b.(io_timers) i = Some t -> t.(io_base) ≠ 0 ∧ zlen t.(io_dma_map_ch) = 4) ∧
  (∀ i c, zlookup b.(timer_io_channels) i = Some c ->
    0 <= c.(ch_timer_index) < zlen b.(io_timers) ∧ 0 <= c.(ch_timer_channel) < 4 ∧ (c.(ch_gpio_in) =? 0) && (c.(ch_gpio_out) =? 0) = false) ∧
  NoDup (map (λ c, (c.(ch_timer_index), c.(ch_timer_channel))) b.(timer_io_channels)) ∧
  zlen b.(timer_io_channels) <= 16.
Proof.
  unfold board_ok in Hb. rewrite !andb_true_iff in Hb. destruct Hb as [[[[Hm Ht] Hc] Hd] Hl].
  repeat split; [by apply bool_decide_eq_true in Hm|..|by apply bool_decide_eq_true in Hd|by apply Z.leb_le].
  all: try (pose proof (zlookup_forallb _ _ _ _ Ht H) as Hx; cbn in Hx; bool_hyps; done).
  all: pose proof (zlookup_forallb _ _ _ _ Hc H) as Hx; cbn in Hx; rewrite !andb_true_iff, negb_true_iff in Hx;
    destruct Hx as [[[[? ?] ?] ?] ?]; bool_hyps; lia || done.
Qed.

Lemma board_channels c : c ∈ b.(timer_io_channels) -> 0 <= c.(ch_timer_channel) < 4 ∧ (c.(ch_gpio_in) =? 0) && (c.(ch_gpio_out) =? 0) = false.
Proof.
  intros [k Hk]%list_elem_of_lookup_1. destruct board_ok_parts as (_ & _ & Hch & _). destruct (Hch (Z.of_nat k) c) as (_ & H1 & H2); [|done].
  unfold zlookup. rewrite (proj2 (Z.leb_le _ _)) by lia. by rewrite Nat2Z.id.
Qed.

(** The group of a timer covers its channels. *)
Lemma group_channels_spec timer l : ∀ channel prev g g',
  (∀ c, c ∈ l -> 0 <= c.(ch_timer_channel) < 4 ∧ (c.(ch_gpio_in) =? 0) && (c.(ch_gpio_out) =? 0) = false) ->
  0 <= channel -> channel + zlen l < UINT32_MAX -> 0 <= g.(g_max) < 4 -> 0 <= g.(g_min) ->
  group_channels timer channel prev l g = Some g' ->
  0 <= g'.(g_max) < 4 ∧ 0 <= g'.(g_min) <= g.(g_min) ∧ g.(g_max) <= g'.(g_max) ∧
  (g.(g_first) ≠ UINT32_MAX -> g'.(g_first) ≠ UINT32_MAX) ∧
  ((g.(g_first) ≠ UINT32_MAX -> g.(g_min) <= g.(g_max)) -> g'.(g_first) ≠ UINT32_MAX -> g'.(g_min) <= g'.(g_max)) ∧
  ∀ c, c ∈ l -> c.(ch_timer_index) = timer -> g'.(g_min) <= c.(ch_timer_channel) <= g'.(g_max) ∧ g'.(g_first) ≠ UINT32_MAX.
Proof.
  induction l as [|c l IH]; intros channel prev g g' Hl Hc Hn Hmax Hmin H; cbn in H.
  { injection H as <-. do 3 (split; [lia|]). split; [done|]. split; [auto|]. by intros c ?%elem_of_nil. }
  destruct (Hl c ltac:(left)) as [Htc Hg]. rewrite Hg in H. rewrite zlen_cons in Hn. pose proof (zlen_nonneg l).
  assert (Hl' : ∀ x, x ∈ l -> 0 <= ch_timer_channel x < 4 ∧ (ch_gpio_in x =? 0) && (ch_gpio_out x =? 0) = false) by (intros; apply Hl; by right).
  case_if_in H.
  - case_if_in H; [|done]. apply IH in H; cbn; try lia; [|done|cbn; lia..]. cbn in H. destruct H as (Ha & Hb' & Hc' & Hd & Hm & He).
    assert (Hf : g'.(g_first) ≠ UINT32_MAX) by (apply Hd; case_if; lia).
    do 3 (split; [lia|]). split; [done|]. split; [intros; apply Hm; [intros; lia|done]|].
    intros x [->|Hx]%elem_of_cons Ht; [split; [lia|done]|by apply He].
  - apply IH in H; try lia; [|done]. destruct H as (Ha & Hb' & Hc' & Hd & Hm & He). do 3 (split; [lia|]).
    split; [done|]. split; [done|]. intros x [->|Hx]%elem_of_cons Ht; [done|by apply He].
Qed.

Lemma map_timers_lookup ts : ∀ i j m t, (∀ k x, zlookup ts k = Some x -> x.(io_base) ≠ 0) ->
  map_timers i ts b.(timer_io_channels) = Some m -> zlookup ts j = Some t ->
  ∃ g, group_channels (i + j) 0 None b.(timer_io_channels) (mkGroup UINT32_MAX 0 UINT32_MAX 0) = Some g ∧
    zlookup m j = Some (mapping_of_group g).
Proof.
  induction ts as [|t0 ts IH]; intros i j m t Ht H Hj; [by apply zlookup_Some_lt in Hj; unfold zlen in Hj; cbn in Hj; lia|].
  cbn in H. rewrite (proj2 (Z.eqb_neq _ _)) in H by (apply (Ht 0); done).
  destruct (group_channels i 0 None _ _) as [g|] eqn:Eg; [|done]. cbn in H.
  destruct (map_timers (i + 1) ts _) as [rest|] eqn:Er; [|done]. injection H as <-.
  pose proof (zlookup_Some_lt _ _ _ Hj) as Hlt. destruct (decide (j = 0)) as [->|Hj0].
  - exists g. rewrite Z.add_0_r. done.
  - replace j with (1 + (j - 1)) in Hj |- * by lia.
    assert (Hs : ∀ A (x : A) l k, 0 <= k -> zlookup (x :: l) (1 + k) = zlookup l k).
    { intros A x l k Hk. unfold zlookup. decide_if. decide_if. by replace (Z.to_nat (1 + k)) with (S (Z.to_nat k)) by lia. }
    rewrite Hs in Hj |- * by lia. replace (i + (1 + (j - 1))) with (i + 1 + (j - 1)) by lia. eapply IH; [|done..].
    intros k x Hk. apply (Ht (1 + k)). rewrite Hs; [done|apply zlookup_Some_lt in Hk; lia].
Qed.

Lemma map_timers_length ts : ∀ i m, map_timers i ts b.(timer_io_channels) = Some m -> zlen m = zlen ts.
Proof.
  induction ts as [|t0 ts IH]; intros i m H; cbn in H; [by injection H as <-|]. case_if_in H.
  - injection H as <-. rewrite zlen_cons. unfold zlen. cbn. rewrite length_replicate. lia.
  - destruct (group_channels _ _ _ _ _); [|done]. cbn in H. destruct (map_timers (i + 1) ts _) eqn:E; [|done].
    injection H as <-. rewrite !zlen_cons. by rewrite (IH _ _ E).
Qed.

Lemma mapping_covers ch c : zlookup b.(timer_io_channels) ch = Some c ->
  ∃ m, zlookup b.(io_mapping) c.(ch_timer_index) = Some m ∧ 0 <= m.(lowest_timer_channel) ∧
    0 <= c.(ch_timer_channel) - m.(lowest_timer_channel) < m.(channel_count_including_gaps) ∧ m.(channel_count_including_gaps) <= 4.
Proof.
  intros Hc. destruct board_ok_parts as (Hm & Ht & Hch & _ & Hl). destruct (Hch _ _ Hc) as (Hi & Htc & _).
  unfold initIOTimerChannelMapping in Hm. destruct (map_timers 0 _ _) as [m|] eqn:Em; [|done]. cbn in Hm. case_if_in Hm; [|done].
  injection Hm as Hm. destruct (zlookup_lt b.(io_timers) c.(ch_timer_index) Hi) as [t Htl].
  destruct (map_timers_lookup _ _ _ _ _ (λ k x Hk, proj1 (Ht k x Hk)) Em Htl) as (g & Hg & Hlk).
  rewrite Z.add_0_l in Hg. rewrite <- Hm. exists (mapping_of_group g). split; [done|].
  eapply (group_channels_spec (ch_timer_index c)) in Hg; cbn; try (unfold UINT32_MAX; lia).
  - destruct Hg as (Hmax & Hmin & _ & _ & _ & Hin).
    destruct (Hin c) as [Hcc Hf]; [|done|].
    { unfold zlookup in Hc. case_if_in Hc; [|done]. by eapply list_elem_of_lookup_2. }
    unfold mapping_of_group. rewrite (proj2 (Z.eqb_neq _ _) Hf). cbn. rewrite uwrap_small by lia. lia.
  - by apply board_channels.
Qed.

(** Every count is at most four, also of timers without channels. *)
Lemma mapping_count i m : zlookup b.(io_mapping) i = Some m -> 0 <= m.(channel_count_including_gaps) <= 4.
Proof.
  intros Hm. destruct board_ok_parts as (Hmap & Ht & Hch & _ & Hl).
  unfold initIOTimerChannelMapping in Hmap. destruct (map_timers 0 _ _) as [ms|] eqn:Em; [|done]. cbn in Hmap. case_if_in Hmap; [|done].
  injection Hmap as Hmap. rewrite <- Hmap in Hm. destruct (zlookup_lt b.(io_timers) i) as [t Htl].
  { rewrite <- (map_timers_length _ _ _ Em). by apply zlookup_Some_lt in Hm. }
  destruct (map_timers_lookup _ _ _ _ _ (λ k x Hk, proj1 (Ht k x Hk)) Em Htl) as (g & Hg & Hlk).
  rewrite Hlk in Hm. injection Hm as <-. rewrite Z.add_0_l in Hg.
  eapply (group_channels_spec i) in Hg; cbn; try (unfold UINT32_MAX; lia); [|by apply board_channels].
  destruct Hg as (Hmax & Hmin & _ & _ & Hle & _). unfold mapping_of_group. case_if; cbn; [lia|].
  assert (g_min g <= g_max g) by (apply Hle; [done|lia]). rewrite uwrap_small by lia. lia.
Qed.

Definition timer_ok (t : timer_config) : Prop :=
  zlen t.(tc_enabled_channels) = 4 ∧ zlen t.(tc_initialized_channels) = 4 ∧
  (∀ k, zlookup t.(tc_initialized_channels) k = Some true -> t.(tc_initialized) = true) ∧
  (t.(tc_initialized) = true -> t.(tc_enabled) = true) ∧ 0 <= t.(tc_capture_channel) < 4.

(** The calibrated bit time stays in a range in which it is no zero. *)
Definition channel_ok (c : channel_state) : Prop := 73 <= c.(cs_base_interval_x8) <= 800.
Definition capture_ok (chans : list (list Z)) : Prop := zlen chans = 4 ∧ ∀ k e, zlookup chans k = Some e -> zlen e = 32.

(** The arrays have their sizes. *)
Record sized (d : dshot) : Prop := mkSized {
  sz_timers : zlen d.(d_timers) = zlen b.(io_timers);
  sz_timer : ∀ i t, zlookup d.(d_timers) i = Some t -> timer_ok t;
  sz_output : zlen d.(d_output_buffer) = zlen b.(io_timers);
  sz_burst : zlen d.(d_burst) = burst_buffer_size b / 4;
  sz_channels : zlen d.(d_channels) = zlen b.(timer_io_channels);
  sz_cycle : zlen d.(d_cycle_complete) = zlen b.(io_timers);
  sz_capture : zlen d.(d_capture_buffer) = zlen b.(io_timers);
  sz_channel : ∀ i c, zlookup d.(d_channels) i = Some c -> channel_ok c;
  sz_captured : ∀ i c, zlookup d.(d_capture_buffer) i = Some c -> capture_ok c }.

(** The buffers are the same, and so are the timers but for the one that changes. *)
Definition same_buffers (d d' : dshot) : Prop :=
  d'.(d_burst) = d.(d_burst) ∧ d'.(d_output_buffer) = d.(d_output_buffer) ∧ d'.(d_bdshot_channel_mask) = d.(d_bdshot_channel_mask).

Lemma same_buffers_trans d1 d2 d3 : same_buffers d1 d2 -> same_buffers d2 d3 -> same_buffers d1 d3.
Proof. unfold same_buffers. intros (? & ? & ?) (? & ? & ?). repeat split; congruence. Qed.

Lemma on_timer_spec d i f t : sized d -> zlookup d.(d_timers) i = Some t -> timer_ok (f t) ->
  ∃ d', on_timer d i f = Some d' ∧ sized d' ∧ same_buffers d d' ∧ d'.(d_channels) = d.(d_channels) ∧ d'.(d_cycle_complete) = d.(d_cycle_complete) ∧
    ∀ j, zlookup d'.(d_timers) j = if j =? i then Some (f t) else zlookup d.(d_timers) j.
Proof.
  intros Hd Hi Hf. unfold on_timer, zmodify. rewrite Hi. cbn.
  destruct (zstore_Some d.(d_timers) i (f t)) as (l & -> & Hl & Hlk); [by apply zlookup_Some_lt in Hi|].
  eexists. split; [done|]. destruct Hd. split; [|by repeat split].
  constructor; cbn; try done; [lia|]. intros j t' Hj. rewrite Hlk in Hj. case_if_in Hj; [by injection Hj as <-|eauto].
Qed.

Lemma on_channel_spec d ch f : sized d -> 0 <= ch < zlen b.(timer_io_channels) -> (∀ c, channel_ok c -> channel_ok (f c)) ->
  ∃ d', on_channel d ch f = Some d' ∧ sized d' ∧ same_buffers d d' ∧ d'.(d_timers) = d.(d_timers) ∧ d'.(d_cycle_complete) = d.(d_cycle_complete).
Proof.
  intros Hd Hc Hf. unfold on_channel, zmodify. destruct (zlookup_lt d.(d_channels) ch) as [c Hch]; [by rewrite (sz_channels _ Hd)|]. rewrite Hch. cbn.
  destruct (zstore_Some d.(d_channels) ch (f c)) as (l & -> & Hl & Hlk); [by rewrite (sz_channels _ Hd)|].
  eexists. split; [done|]. destruct Hd. split; [|by repeat split]. constructor; cbn; try done; [lia|].
  intros j c' Hj. rewrite Hlk in Hj. case_if_in Hj; [injection Hj as <-|]; eauto.
Qed.

Lemma zloop_inv {S} (P : Z -> S -> Prop) body m : ∀ i s,
  (∀ j s, i <= j < i + Z.of_nat m -> P j s -> ∃ s', body j s = Some s' ∧ P (j + 1) s') ->
  P i s -> ∃ s', zloop m i body s = Some s' ∧ P (i + Z.of_nat m) s'.
Proof.
  induction m as [|m IH]; intros i s Hb' Hs; [exists s; split; [done|by rewrite Z.add_0_r]|].
  cbn [zloop]. destruct (Hb' i s) as (s1 & -> & H1); [lia|done|]. cbn.
  destruct (IH (i + 1) s1) as (s2 & H2 & HP); [|done|].
  - intros j s' Hj. apply Hb'. lia.
  - exists s2. split; [done|]. by replace (i + Z.of_nat (Datatypes.S m)) with (i + 1 + Z.of_nat m) by lia.
Qed.

Lemma timer_ok_enable t k i bidi : timer_ok t -> timer_ok (enable_channel k i bidi t).
Proof. intros (H1 & H2 & H3 & H4 & H5). split; [|do 3 (split; [done|]); done]. unfold zlen in *. cbn. by rewrite length_insert. Qed.
Lemma timer_ok_dma t h : timer_ok t -> timer_ok (tc_with_dma h t.(tc_initialized) t).
Proof. done. Qed.
Lemma timer_ok_dma_new t : timer_ok t -> t.(tc_enabled) = true -> timer_ok (tc_with_dma true true t).
Proof. intros (H1 & H2 & H3 & H4 & H5) He. do 4 (split; [done|]). done. Qed.
Lemma timer_ok_channel t k : timer_ok t -> t.(tc_initialized) = true -> timer_ok (channel_initialized k t).
Proof. intros (H1 & H2 & H3 & H4 & H5) Hi. split; [done|]. split; [|do 2 (split; [done|]); done]. unfold zlen in *. cbn. by rewrite length_insert. Qed.
Lemma timer_ok_capture t k : timer_ok t -> 0 <= k < 4 -> timer_ok (tc_set_capture k t).
Proof. intros (H1 & H2 & H3 & H4 & H5) Hk. do 4 (split; [done|]). done. Qed.

Definition stage (d0 d : dshot) : Prop := sized d ∧ same_buffers d0 d.

Lemma stage_timer d0 d i f t : stage d0 d -> zlookup d.(d_timers) i = Some t -> timer_ok (f t) -> ∃ d', on_timer d i f = Some d' ∧ stage d0 d'.
Proof.
  intros [Hd Hs] Hi Hf. destruct (on_timer_spec d i f t Hd Hi Hf) as (d' & He & H1 & H2 & _). exists d'. split; [done|].
  split; [done|by eapply same_buffers_trans].
Qed.

Lemma stage_lookup d0 d i : stage d0 d -> 0 <= i < zlen b.(io_timers) -> ∃ t, zlookup d.(d_timers) i = Some t ∧ timer_ok t.
Proof. intros [Hd _] Hi. destruct (zlookup_lt d.(d_timers) i) as [t Ht]; [by rewrite (sz_timers _ Hd)|]. exists t. split; [done|by eapply sz_timer]. Qed.

Lemma loop_channels {S} (P : S -> Prop) body s :
  (∀ i c s, zlookup b.(timer_io_channels) i = Some c -> P s -> ∃ s', body i s = Some s' ∧ P s') -> P s ->
  ∃ s', zloop (length b.(timer_io_channels)) 0 body s = Some s' ∧ P s'.
Proof.
  intros Hbody Hs. destruct (zloop_inv (λ _, P) body (length b.(timer_io_channels)) 0 s) as (s' & H1 & H2); [|done|by exists s'].
  intros j x Hj Hx. destruct (zlookup_lt b.(timer_io_channels) j) as [c Hc]; [unfold zlen; lia|]. by eapply Hbody.
Qed.

Lemma loop_timers {S} (P : S -> Prop) body s :
  (∀ i t s, zlookup b.(io_timers) i = Some t -> P s -> ∃ s', body i s = Some s' ∧ P s') -> P s ->
  ∃ s', zloop (length b.(io_timers)) 0 body s = Some s' ∧ P s'.
Proof.
  intros Hbody Hs. destruct (zloop_inv (λ _, P) body (length b.(io_timers)) 0 s) as (s' & H1 & H2); [|done|by exists s'].
  intros j x Hj Hx. destruct (zlookup_lt b.(io_timers) j) as [c Hc]; [unfold zlen; lia|]. by eapply Hbody.
Qed.

Lemma init_timer_config_stage d0 d mask : stage d0 d -> ∃ d', init_timer_config b mask d = Some d' ∧ stage d0 d'.
Proof.
  intros Hd. apply (loop_channels (stage d0)); [|done]. intros i c d1 Hc H1. destruct board_ok_parts as (_ & Ht & Hch & _).
  destruct (Hch _ _ Hc) as (Hi & Htc & _). case_if; [|by exists d1]. rewrite Hc. cbn.
  rewrite (proj2 (Z.leb_gt 4 _)) by lia. destruct (zlookup_lt b.(io_timers) (ch_timer_index c) Hi) as [io ->]. cbn.
  case_if; [by exists d1|]. destruct (stage_lookup d0 d1 _ H1 Hi) as (t & Htl & Hok).
  eapply stage_timer; [done..|by apply timer_ok_enable].
Qed.

Lemma init_timers_dma_up_stage d0 d dma_up : stage d0 d -> ∃ d', init_timers_dma_up b dma_up d = Some d' ∧ stage d0 d'.
Proof.
  intros Hd. unfold init_timers_dma_up.
  match goal with |- ∃ _, (zloop ?m 0 ?body d ≫= _) = _ ∧ _ => destruct (loop_timers (stage d0) body d) as (d1 & -> & H1); [|done|] end.
  - intros i io d1 Hi H1. destruct (stage_lookup d0 d1 i H1) as (t & Htl & Hok); [by apply zlookup_Some_lt in Hi|].
    rewrite Htl, Hi. cbn. repeat case_if; try (by exists d1); eapply stage_timer; try done; try by apply timer_ok_dma.
    apply timer_ok_dma_new; [done|]. by destruct (tc_enabled t).
  - cbn. apply (loop_timers (stage d0)); [|done]. intros i io d2 Hi H2.
    destruct (stage_lookup d0 d2 i H2) as (t & Htl & Hok); [by apply zlookup_Some_lt in Hi|].
    rewrite Htl. cbn. case_if; [by exists d2|]. eapply stage_timer; [done..|by apply timer_ok_dma].
Qed.

Lemma init_timer_channels_stage d0 chan_ok i io dm : zlookup b.(io_timers) i = Some io -> stage d0 dm.1 ->
  ∃ dm', init_timer_channels b chan_ok i dm = Some dm' ∧ stage d0 dm'.1.
Proof.
  intros Hi Hd. unfold init_timer_channels. pose proof (zlookup_Some_lt _ _ _ Hi) as Hr.
  destruct (stage_lookup d0 dm.1 i Hd Hr) as (t & Htl & Hok). rewrite Htl. cbn. case_if; [by exists dm|]. bool_hyps.
  set (P := λ dm : dshot * Z, stage d0 dm.1 ∧ ∃ t, zlookup (dm.1).(d_timers) i = Some t ∧ timer_ok t ∧ t.(tc_initialized) = true).
  match goal with |- ∃ _, zloop ?m 0 ?body dm = _ ∧ _ => destruct (loop_channels P body dm) as (dm' & He & HP & _) end;
    [|by split; [done|]; exists t|by exists dm'].
  intros ch c [d m] Hc (Hs & t1 & Ht1 & Hok1 & Hi1). cbn in Hs, Ht1.
  destruct board_ok_parts as (_ & _ & Hch & _). destruct (Hch _ _ Hc) as (_ & Htc & _). rewrite Hc. cbn.
  rewrite (proj2 (Z.leb_gt 4 _)) by lia. rewrite Ht1. cbn.
  destruct (zlookup_lt t1.(tc_enabled_channels) (ch_timer_channel c)) as [e ->]; [by rewrite (proj1 Hok1)|]. cbn.
  case_if; [|exists (d, m); split; [done|]; split; [done|]; by exists t1].
  destruct (on_timer_spec d i (channel_initialized (ch_timer_channel c)) t1) as (d2 & -> & Hz1 & Hz2 & _ & _ & Hlk); [apply Hs|done|by apply timer_ok_channel|].
  cbn. eexists. split; [done|]. split; [split; [done|exact (same_buffers_trans _ _ _ (proj2 Hs) Hz2)]|].
  exists (channel_initialized (ch_timer_channel c) t1). cbn. rewrite Hlk, Z.eqb_refl. split; [done|]. split; [by apply timer_ok_channel|done].
Qed.

Record laid_out (i lim : Z) (d : dshot) : Prop := mkLaid {
  lo_sized : sized d;
  lo_init : ∀ j t, 0 <= j < i -> zlookup d.(d_timers) j = Some t -> t.(tc_initialized) = true -> ∃ off, zlookup d.(d_output_buffer) j = Some (Some off);
  lo_range : ∀ j off m, zlookup d.(d_output_buffer) j = Some (Some off) -> zlookup b.(io_mapping) j = Some m ->
    j < i ∧ 0 <= off ∧ off + 17 * m.(channel_count_including_gaps) <= lim;
  lo_disjoint : ∀ j1 j2 off1 off2 m1, j1 < j2 -> zlookup d.(d_output_buffer) j1 = Some (Some off1) ->
    zlookup d.(d_output_buffer) j2 = Some (Some off2) -> zlookup b.(io_mapping) j1 = Some m1 -> off1 + 17 * m1.(channel_count_including_gaps) <= off2 }.

Lemma output_buffer_size_bounds k : 0 <= k <= 4 -> 68 * k <= output_buffer_size k <= 288 ∧ output_buffer_size k mod 32 = 0.
Proof. intros Hk. unfold output_buffer_size, CHANNEL_OUTPUT_BUFF_SIZE. split; [|apply Z_mod_mult]. Z.div_mod_to_equations. lia. Qed.

Lemma mapping_lookup i : 0 <= i < zlen b.(io_timers) -> is_Some (zlookup b.(io_mapping) i).
Proof.
  intros Hi. apply zlookup_lt. destruct board_ok_parts as (Hmap & _). unfold initIOTimerChannelMapping in Hmap.
  destruct (map_timers 0 _ _) as [ms|] eqn:Em; [|done]. cbn in Hmap. case_if_in Hmap; [|done].
  injection Hmap as <-. by rewrite (map_timers_length _ _ _ Em).
Qed.

Lemma laid_out_next i lim lim' d : laid_out i lim d -> lim <= lim' ->
  (∀ t, zlookup d.(d_timers) i = Some t -> t.(tc_initialized) = false) -> laid_out (i + 1) lim' d.
Proof.
  intros [Hs Hi Hr Hd] Hl Hf. constructor; [done| | |done].
  - intros j t Hj Ht Hti. destruct (decide (j = i)) as [->|]; [by rewrite (Hf t Ht) in Hti|]. apply (Hi j t); [lia|done..].
  - intros j off m Ho Hm. destruct (Hr j off m Ho Hm) as (? & ? & ?). lia.
Qed.

Lemma laid_out_assign i lim d m o : laid_out i lim d -> 0 <= lim -> zlookup b.(io_mapping) i = Some m -> 0 <= m.(channel_count_including_gaps) ->
  zstore d.(d_output_buffer) i (Some lim) = Some o -> ∀ lim', lim + 17 * m.(channel_count_including_gaps) <= lim' ->
  laid_out (i + 1) lim' (set_output_buffer o d).
Proof.
  intros [Hs Hi Hr Hd] Hlim Hm Hc Ho lim' Hl.
  assert (Hlt : 0 <= i < zlen d.(d_output_buffer)) by (unfold zstore in Ho; case_if_in Ho; [lia|done]).
  destruct (zstore_Some _ _ (Some lim) Hlt) as (o' & Ho' & Hlen & Hlk). rewrite Ho in Ho'. injection Ho' as <-.
  constructor; cbn.
  - destruct Hs. constructor; cbn; try done. lia.
  - intros j t Hj Ht Hti. rewrite Hlk. case_if; [eauto|]. apply (Hi j t); [lia|done..].
  - intros j off m' Hj Hm'. rewrite Hlk in Hj. case_if_in Hj.
    + subst j. rewrite Hm in Hm'. injection Hj as <-. injection Hm' as <-. lia.
    + destruct (Hr j off m' Hj Hm') as (? & ? & ?). lia.
  - intros j1 j2 off1 off2 m1 Hj H1 H2 Hm1. rewrite Hlk in H1, H2. case_if_in H1.
    { subst j1. case_if_in H2; [lia|]. destruct (mapping_lookup j2) as [m2 Hm2].
      { rewrite <- (sz_output _ Hs). by apply zlookup_Some_lt in H2. }
      destruct (Hr j2 off2 m2 H2 Hm2). lia. }
    case_if_in H2; [|by eapply Hd]. injection H2 as <-. by destruct (Hr j1 off1 m1 H1 Hm1) as (_ & _ & ?).
Qed.

Lemma assign_buffers_spec k : ∀ i offset d, Z.of_nat k + i = zlen b.(io_timers) -> 0 <= i -> 0 <= offset <= 288 * i -> offset mod 32 = 0 ->
  laid_out i (offset / 4) d ->
  ∃ d', assign_buffers b k i offset d = Some (inl d') ∧ laid_out (zlen b.(io_timers)) (burst_buffer_size b / 4) d' ∧
    d'.(d_burst) = d.(d_burst) ∧ d'.(d_bdshot_channel_mask) = d.(d_bdshot_channel_mask) ∧ d'.(d_timers) = d.(d_timers).
Proof.
  assert (Hsz : burst_buffer_size b = 288 * zlen b.(io_timers)).
  { unfold burst_buffer_size. change (output_buffer_size 4) with 288. lia. }
  induction k as [|k IH]; intros i offset d Hk Hi Ho Hmod Hd.
  { exists d. replace i with (zlen b.(io_timers)) in * by lia. split; [done|]. split; [|done]. destruct Hd as [Hs Hin Hr Hdis].
    constructor; [done..| |done]. intros j off m H1 H2. destruct (Hr j off m H1 H2) as (? & ? & ?).
    assert (offset / 4 <= burst_buffer_size b / 4) by (apply Z.div_le_mono; lia). lia. }
  cbn [assign_buffers]. destruct (zlookup_lt d.(d_timers) i) as [t Ht]; [rewrite (sz_timers _ (lo_sized _ _ _ Hd)); lia|].
  rewrite Ht. cbn. case_if.
  2:{ apply IH; try lia. eapply laid_out_next; [done|lia|]. intros t' Ht'. congruence. }
  destruct (zlookup_lt b.(io_timers) i) as [io Hio]; [lia|]. destruct board_ok_parts as (_ & Hbt & _).
  rewrite Hio. cbn. rewrite (proj2 (Z.eqb_neq _ _)) by (eapply Hbt; done).
  destruct (mapping_lookup i) as [m Hm]; [lia|]. rewrite Hm. cbn. pose proof (mapping_count _ _ Hm) as Hcnt.
  destruct (output_buffer_size_bounds _ Hcnt) as [Hb1 Hb2].
  destruct (zstore_Some d.(d_output_buffer) i (Some (offset / 4))) as (o & Hos & _); [rewrite (sz_output _ (lo_sized _ _ _ Hd)); lia|].
  rewrite Hos. cbn. rewrite (proj2 (Z.ltb_ge _ _)) by lia.
  destruct (IH (i + 1) (offset + output_buffer_size (channel_count_including_gaps m)) (set_output_buffer o d)) as (d' & -> & H1 & H2);
    [lia..| | |by exists d'].
  - rewrite Z.add_mod, Hmod, Hb2 by lia. done.
  - eapply laid_out_assign; [done| |done|lia|done|]; Z.div_mod_to_equations; lia.
Qed.

Lemma mark_capture_spec d mask : sized d -> ∃ d', mark_capture b mask d = Some d' ∧ sized d' ∧ same_buffers d d' ∧ d'.(d_timers) = d.(d_timers).
Proof.
  intros Hd. apply (loop_channels (λ d', sized d' ∧ same_buffers d d' ∧ d'.(d_timers) = d.(d_timers))); [|done].
  intros i c d1 Hc (H1 & H2 & H3). destruct board_ok_parts as (_ & Ht & Hch & _). destruct (Hch _ _ Hc) as (Hi & Htc & _).
  case_if; [|by exists d1]. rewrite Hc. cbn. rewrite (proj2 (Z.ltb_lt _ 4)) by lia.
  destruct (zlookup_lt b.(io_timers) (ch_timer_index c) Hi) as [io Hio]. rewrite Hio. cbn.
  destruct (zlookup_lt io.(io_dma_map_ch) (ch_timer_channel c)) as [map ->]; [by rewrite (proj2 (Ht _ _ Hio))|]. cbn.
  case_if.
  - destruct (on_channel_spec d1 i cs_set_supported H1) as (d2 & -> & H4 & H5 & H6 & _); [by apply zlookup_Some_lt in Hc|done|].
    exists d2. split; [done|]. split; [done|]. split; [exact (same_buffers_trans _ _ _ H2 H5)|by rewrite H6].
  - eexists. split; [done|]. destruct H1. split; [by constructor|]. done.
Qed.

(** The words behind the sixteen bits stay zero, so that a frame ends. *)
Record hw_ok (d : dshot) : Prop := mkHw {
  hw_laid : laid_out (zlen b.(io_timers)) (burst_buffer_size b / 4) d;
  hw_idle : ∀ j off m p, zlookup d.(d_output_buffer) j = Some (Some off) -> zlookup b.(io_mapping) j = Some m ->
    off + 16 * m.(channel_count_including_gaps) <= p < off + 17 * m.(channel_count_including_gaps) -> zlookup d.(d_burst) p = Some 0 }.

Lemma zlookup_replicate {A} (x : A) k i : 0 <= i < k -> zlookup (replicate (Z.to_nat k) x) i = Some x.
Proof. intros Hi. unfold zlookup. decide_if. apply lookup_replicate_2. lia. Qed.

Lemma sized_zero mask freq delay edt ready : sized (mkDshot (d_timers (dshot_zero b)) (d_burst (dshot_zero b)) (d_output_buffer (dshot_zero b))
  (d_capture_buffer (dshot_zero b)) (d_cycle_complete (dshot_zero b)) (d_channels (dshot_zero b)) mask freq delay edt ready).
Proof.
  assert (0 <= burst_buffer_size b / 4).
  { pose proof (zlen_nonneg b.(io_timers)). unfold burst_buffer_size. change (output_buffer_size 4) with 288. Z.div_mod_to_equations; lia. }
  assert (Hr : ∀ A (x y : A) k i, zlookup (replicate k x) i = Some y -> y = x).
  { intros A x y k i Hi. unfold zlookup in Hi. case_if_in Hi; [|done]. by apply lookup_replicate_1 in Hi as [-> _]. }
  constructor; cbn [d_timers d_burst d_output_buffer d_capture_buffer d_cycle_complete d_channels dshot_zero];
    try (unfold zlen; by rewrite length_replicate); [|by rewrite zlen_replicate|..].
  - intros i t ->%Hr. do 2 (split; [done|]). split; [|done]. intros k Hk. apply (Hr _ false _ 4%nat) in Hk. done.
  - by intros i c ->%Hr.
  - intros i c ->%Hr. split; [done|]. intros k e Hk. apply (Hr _ _ _ 4%nat) in Hk as ->. done.
Qed.

Lemma laid_out_start d k : sized d -> d.(d_output_buffer) = replicate k None -> laid_out 0 0 d.
Proof.
  intros Hs Ho. assert (Hn : ∀ j off, zlookup d.(d_output_buffer) j ≠ Some (Some off)).
  { intros j off Hj. rewrite Ho in Hj. unfold zlookup in Hj. case_if_in Hj; [|done]. by apply lookup_replicate_1 in Hj as [? _]. }
  constructor; [done|lia|..].
  - intros j off m Hj. by apply Hn in Hj.
  - intros j1 j2 off1 off2 m1 _ Hj. by apply Hn in Hj.
Qed.

(** From the initial state, [up_dshot_init] gives every timer its buffer. *)
Lemma up_dshot_init_spec dma_up channel_init mask bd_mask freq edt : freq ≠ 0 ->
  ∃ r d, up_dshot_init b dma_up channel_init mask bd_mask freq edt (dshot_zero b) = Some (r, d) ∧ hw_ok d ∧ d.(d_bdshot_channel_mask) = bd_mask.
Proof.
  intros Hf. unfold up_dshot_init. rewrite (proj2 (Z.eqb_neq _ _) Hf).
  set (d0 := mkDshot _ _ _ _ _ _ bd_mask freq _ edt _). assert (Hst : stage d0 d0) by (split; [apply sized_zero|done]).
  destruct (init_timer_config_stage d0 d0 mask Hst) as (d1 & -> & H1). cbn.
  destruct (init_timers_dma_up_stage d0 d1 dma_up H1) as (d2 & -> & H2). cbn.
  destruct (loop_timers (λ dm, stage d0 dm.1) (init_timer_channels b channel_init) (d2, 0)) as ([d3 r] & -> & [Hs3 Hb3]); [|done|].
  { intros i io dm Hi Hdm. by eapply init_timer_channels_stage. } cbn in Hs3, Hb3 |- *. destruct Hb3 as (Hbu & Hob & Hmk).
  destruct (assign_buffers_spec (length b.(io_timers)) 0 0 d3) as (d4 & -> & H4 & Hbu4 & Hmk4 & _); try (unfold zlen; lia); [done| |].
  { apply (laid_out_start _ (length b.(io_timers))); [done|]. by rewrite Hob. }
  cbn. destruct (mark_capture_spec d4 bd_mask (lo_sized _ _ _ H4)) as (d5 & -> & Hs5 & (Hbu5 & Hob5 & Hmk5) & Ht5). cbn.
  exists r, d5. split; [done|]. split; [|by rewrite Hmk5, Hmk4, Hmk]. split.
  - destruct H4 as [? Hi Hr Hd]. constructor; [done|..]; rewrite ?Hob5, ?Ht5; eauto.
  - intros j off m p Ho Hm Hp. rewrite Hob5 in Ho. destruct (lo_range _ _ _ H4 _ _ _ Ho Hm) as (_ & Hoff & Hlim).
    pose proof (mapping_count _ _ Hm). rewrite Hbu5, Hbu4, Hbu. apply zlookup_replicate. lia.
Qed.

Lemma channel_slot_inv d ch s : channel_slot b ch d = Some s ->
  ∃ c t m, zlookup b.(timer_io_channels) ch = Some c ∧ zlookup d.(d_timers) c.(ch_timer_index) = Some t ∧
    zlookup t.(tc_initialized_channels) c.(ch_timer_channel) = Some true ∧ zlookup b.(io_mapping) c.(ch_timer_index) = Some m ∧
    zlookup d.(d_output_buffer) c.(ch_timer_index) = Some (Some s.(sl_off)) ∧
    s = mkSlot c.(ch_timer_index) s.(sl_off) m.(channel_count_including_gaps) (c.(ch_timer_channel) - m.(lowest_timer_channel)).
Proof.
  unfold channel_slot. intros (c & Hc & H)%bind_Some. apply bind_Some in H as (t & Ht & H). apply bind_Some in H as (i & Hi & H).
  apply bind_Some in H as (m & Hm & H). apply bind_Some in H as ([off|] & Ho & H); [|done]. cbn in H. destruct i; [|done].
  injection H as <-. exists c, t, m. cbn. repeat split; done.
Qed.

Lemma slot_bounds d ch s : hw_ok d -> channel_slot b ch d = Some s ->
  0 <= s.(sl_col) < s.(sl_count) ∧ s.(sl_count) <= 4 ∧ 0 <= s.(sl_off) ∧ s.(sl_off) + 17 * s.(sl_count) <= zlen d.(d_burst) ∧
  zlookup d.(d_burst) (s.(sl_off) + s.(sl_col) + 16 * s.(sl_count)) = Some 0.
Proof.
  intros [Hl Hidle] (c & t & m & Hc & _ & _ & Hm & Ho & ->)%channel_slot_inv. cbn.
  destruct (mapping_covers _ _ Hc) as (m' & Hm' & Hlow & Hcol & Hcnt). rewrite Hm in Hm'. injection Hm' as <-.
  destruct (lo_range _ _ _ Hl _ _ _ Ho Hm) as (_ & Hoff & Hlim). rewrite (sz_burst _ (lo_sized _ _ _ Hl)).
  repeat split; try lia. eapply Hidle; [done..|lia].
Qed.

Lemma channels_distinct ch1 ch2 c1 c2 : ch1 ≠ ch2 -> zlookup b.(timer_io_channels) ch1 = Some c1 -> zlookup b.(timer_io_channels) ch2 = Some c2 ->
  c1.(ch_timer_index) = c2.(ch_timer_index) -> c1.(ch_timer_channel) ≠ c2.(ch_timer_channel).
Proof.
  intros Hne H1 H2 Hi Hc. apply Hne. destruct board_ok_parts as (_ & _ & _ & Hnd & _).
  assert (Hl : ∀ ch c, zlookup b.(timer_io_channels) ch = Some c ->
    map (λ c, (c.(ch_timer_index), c.(ch_timer_channel))) b.(timer_io_channels) !! Z.to_nat ch = Some (ch_timer_index c, ch_timer_channel c)).
  { intros ch c Hch. unfold zlookup in Hch. case_if_in Hch; [|done]. by rewrite list_lookup_fmap, Hch. }
  pose proof (Hl _ _ H1) as L1. pose proof (Hl _ _ H2) as L2. rewrite Hi, Hc in L1. pose proof (NoDup_lookup _ _ _ _ Hnd L1 L2).
  apply zlookup_Some_lt in H1, H2. lia.
Qed.

(** Two initialised channels never share a word. *)
Lemma channel_slots_disjoint d ch1 ch2 s1 s2 r1 r2 : hw_ok d -> ch1 ≠ ch2 -> channel_slot b ch1 d = Some s1 -> channel_slot b ch2 d = Some s2 ->
  0 <= r1 < 17 -> 0 <= r2 < 17 -> s1.(sl_off) + s1.(sl_col) + r1 * s1.(sl_count) ≠ s2.(sl_off) + s2.(sl_col) + r2 * s2.(sl_count).
Proof.
  intros Hhw Hne H1 H2 Hr1 Hr2. pose proof (slot_bounds _ _ _ Hhw H1) as (B1 & C1 & D1 & E1 & _). pose proof (slot_bounds _ _ _ Hhw H2) as (B2 & C2 & D2 & E2 & _).
  apply channel_slot_inv in H1 as (c1 & t1 & m1 & Hc1 & _ & _ & Hm1 & Ho1 & Hs1). apply channel_slot_inv in H2 as (c2 & t2 & m2 & Hc2 & _ & _ & Hm2 & Ho2 & Hs2).
  pose proof (hw_laid _ Hhw) as Hl. rewrite Hs1, Hs2 in *. cbn in *.
  destruct (Z.lt_trichotomy (ch_timer_index c1) (ch_timer_index c2)) as [Hlt|[Heq|Hgt]].
  - pose proof (lo_disjoint _ _ _ Hl _ _ _ _ _ Hlt Ho1 Ho2 Hm1). nia.
  - pose proof (channels_distinct _ _ _ _ Hne Hc1 Hc2 Heq) as Hch. rewrite Heq in *. simplify_eq.
    intros Hx. assert (r1 = r2) by nia. nia.
  - pose proof (lo_disjoint _ _ _ Hl _ _ _ _ _ Hgt Ho2 Ho1 Hm2). nia.
Qed.

Lemma esc_receive_ext inv w w' pos stride : (∀ r, 0 <= r < 17 -> zlookup w' (pos + r * stride) = zlookup w (pos + r * stride)) ->
  esc_receive inv w' pos stride = esc_receive inv w pos stride.
Proof.
  intros H. unfold esc_receive. assert (Hcol : ∀ k p, (∀ r, 0 <= r < Z.of_nat k -> zlookup w' (p + r * stride) = zlookup w (p + r * stride)) -> column k w' p stride = column k w p stride).
  { induction k as [|k IH]; intros p Hp; [done|]. cbn [column]. pose proof (Hp 0 ltac:(lia)) as H0. rewrite Z.mul_0_l, Z.add_0_r in H0. rewrite H0.
    rewrite IH; [done|]. intros r Hr. replace (p + stride + r * stride) with (p + (r + 1) * stride) by lia. apply Hp. lia. }
  rewrite Hcol by (intros; apply H; lia). by rewrite H by lia.
Qed.

(** A channel that is not initialised ignores its data. *)
Lemma data_set_ignored d ch data telemetry : hw_ok d -> 0 <= ch -> channel_slot b ch d = None -> dshot_motor_data_set b ch data telemetry d = Some d.
Proof.
  intros Hhw Hch Hs. unfold dshot_motor_data_set, MAX_TIMER_IO_CHANNELS. case_if; [done|].
  destruct (zlookup_lt b.(timer_io_channels) ch) as [c Hc]; [lia|]. unfold channel_slot in Hs. rewrite Hc in *. cbn in Hs |- *.
  destruct board_ok_parts as (_ & _ & Hch' & _). destruct (Hch' _ _ Hc) as (Hi & Htc & _). pose proof (lo_sized _ _ _ (hw_laid _ Hhw)) as Hz.
  destruct (zlookup_lt d.(d_timers) (ch_timer_index c)) as [t Ht]; [by rewrite (sz_timers _ Hz)|]. rewrite Ht in *. cbn in Hs |- *.
  destruct (sz_timer _ Hz _ _ Ht) as (_ & Hlen & Hinit & _).
  destruct (zlookup_lt t.(tc_initialized_channels) (ch_timer_channel c)) as [[] Hk]; [by rewrite Hlen| |by rewrite Hk].
  rewrite Hk in *. cbn in Hs |- *. destruct (mapping_lookup (ch_timer_index c)) as [m Hm]; [done|]. rewrite Hm in *. cbn in Hs |- *.
  destruct (lo_init _ _ _ (hw_laid _ Hhw) _ t Hi Ht (Hinit _ Hk)) as [off Ho]. by rewrite Ho in Hs.
Qed.

Lemma data_set_spec d ch data telemetry s : hw_ok d -> 0 <= data < 2048 -> channel_slot b ch d = Some s ->
  ∃ w, dshot_motor_data_set b ch data telemetry d = Some (set_burst w d) ∧ hw_ok (set_burst w d) ∧
    channel_value b ch (set_burst w d) = Some (data, telemetry) ∧
    ∀ ch', ch' ≠ ch -> channel_value b ch' (set_burst w d) = channel_value b ch' d.
Proof.
  intros Hhw Hdata Hs. pose proof (slot_bounds _ _ _ Hhw Hs) as (Hcol & Hcnt & Hoff & Hlim & Hidle).
  destruct (channel_slot_inv _ _ _ Hs) as (c & t & m & Hc & Ht & Hk & Hm & Ho & Heq).
  set (p := dshot_packet (bit d.(d_bdshot_channel_mask) ch) data telemetry).
  destruct (write_bits_spec 16 (s.(sl_off) + s.(sl_col)) s.(sl_count) 0 p d.(d_burst)) as (w & Hw & Hlen & Hin & Hout); [nia..|].
  destruct (mapping_covers _ _ Hc) as (m' & Hm' & Hlow & Hcc & Hmc). rewrite Hm in Hm'. injection Hm' as <-.
  exists w. split; [|split; [|split]].
  - unfold dshot_motor_data_set, MAX_TIMER_IO_CHANNELS. pose proof (zlookup_Some_lt _ _ _ Hc). rewrite (proj2 (Z.leb_gt _ _)) by lia.
    rewrite Hc. cbn. rewrite Ht. cbn. rewrite Hk. cbn. rewrite Hm. cbn. rewrite Ho. cbn. fold p.
    rewrite !uwrap_small by lia. rewrite Heq in Hw. cbn in Hw. by rewrite Hw.
  - destruct Hhw as [[Hz H1 H2 H3] H4]. split; [constructor; [|done..]; destruct Hz; constructor; cbn; try done; lia|].
    intros j off m0 q Hj Hm0 Hq. cbn in Hj |- *. rewrite Hout; [by eapply H4|]. intros r Hr Hqr. rewrite Heq in Hqr. cbn in Hqr.
    destruct (Z.lt_trichotomy j (ch_timer_index c)) as [Hlt|[->|Hgt]].
    + pose proof (H3 _ _ _ _ _ Hlt Hj Ho Hm0). nia.
    + simplify_eq. nia.
    + pose proof (H3 _ _ _ _ _ Hgt Ho Hj Hm). nia.
  - unfold channel_value. change (channel_slot b ch (set_burst w d)) with (channel_slot b ch d). rewrite Hs.
    cbn [mbind option_bind set_burst d_burst d_bdshot_channel_mask].
    unfold esc_receive. rewrite (column_lookup 16 w _ _ (frame_words 16 p)); [|done|intros r x Hr; rewrite <- (Hin r x Hr); f_equal; lia].
    cbn [mbind option_bind]. rewrite Hout, Hidle by (intros r Hr; nia). pose proof (frames_received (bit d.(d_bdshot_channel_mask) ch) data telemetry Hdata) as Hf.
    fold p in Hf. cbn [mbind option_bind]. destruct (esc_bits (frame_words 16 p) 0); done.
  - intros ch' Hne. unfold channel_value. change (channel_slot b ch' (set_burst w d)) with (channel_slot b ch' d).
    destruct (channel_slot b ch' d) as [s'|] eqn:Hs'; [|done]. cbn. apply esc_receive_ext. intros r Hr. apply Hout.
    intros r' Hr'. rewrite Z.add_0_l. eapply (channel_slots_disjoint d ch' ch); try done. lia.
Qed.

(** What bursts and captures leave alone: the buffers and the configuration of the timers. *)
Definition core (t : timer_config) := (t.(tc_enabled), t.(tc_initialized), t.(tc_initialized_channels), t.(tc_bidirectional)).
Definition kept (d d' : dshot) : Prop :=
  sized d' ∧ same_buffers d d' ∧ ∀ j, core <$> zlookup d'.(d_timers) j = core <$> zlookup d.(d_timers) j.

Lemma kept_refl d : sized d -> kept d d.
Proof. intros. split; [done|]. split; [by repeat split|done]. Qed.
Lemma hw_kept_trans d1 d2 d3 : kept d1 d2 -> kept d2 d3 -> kept d1 d3.
Proof. intros (? & S1 & T1) (? & S2 & T2). split; [done|]. split; [exact (same_buffers_trans _ _ _ S1 S2)|]. intros j. by rewrite T2. Qed.

Lemma kept_timer d d' j t' : kept d d' -> zlookup d'.(d_timers) j = Some t' -> ∃ t, zlookup d.(d_timers) j = Some t ∧ core t = core t'.
Proof. intros (_ & _ & H) Hj. specialize (H j). rewrite Hj in H. destruct (zlookup d.(d_timers) j) as [t|]; [|done]. exists t. split; [done|]. cbn in H. congruence. Qed.

Lemma kept_slot d d' ch : kept d d' -> channel_slot b ch d' = channel_slot b ch d.
Proof.
  intros (_ & (_ & Ho & _) & H). unfold channel_slot. destruct (zlookup b.(timer_io_channels) ch) as [c|]; [|done]. cbn. rewrite Ho. specialize (H (ch_timer_index c)).
  destruct (zlookup d'.(d_timers) _) as [t'|], (zlookup d.(d_timers) _) as [t|]; try done. cbn. cbn in H. assert (tc_initialized_channels t' = tc_initialized_channels t) as -> by (unfold core in H; congruence). done.
Qed.

Lemma kept_hw d d' : kept d d' -> hw_ok d -> hw_ok d' ∧ ∀ ch, channel_value b ch d' = channel_value b ch d.
Proof.
  intros Hk [[Hz H1 H2 H3] H4]. pose proof Hk as (Hz' & (Hb1 & Hb2 & Hb3) & Ht). split.
  - split; [constructor|]; rewrite ?Hb1, ?Hb2; try done. intros j t' Hj Ht' Hi. destruct (kept_timer _ _ _ _ Hk Ht') as (t & Htj & Hc).
    eapply H1; [done..|]. unfold core in Hc. congruence.
  - intros ch. unfold channel_value. rewrite (kept_slot _ _ _ Hk), Hb1, Hb3. done.
Qed.

Lemma kept_on_timer d i f t : sized d -> zlookup d.(d_timers) i = Some t -> timer_ok (f t) -> core (f t) = core t ->
  ∃ d', on_timer d i f = Some d' ∧ kept d d' ∧ d'.(d_cycle_complete) = d.(d_cycle_complete) ∧ d'.(d_channels) = d.(d_channels) ∧ zlookup d'.(d_timers) i = Some (f t).
Proof.
  intros Hd Hi Hf Hc. destruct (on_timer_spec d i f t Hd Hi Hf) as (d' & He & Hz & Hb' & Hch & Hcy & Hlk). exists d'. split; [done|].
  split; [|repeat split; try done; by rewrite Hlk, Z.eqb_refl].
  split; [done|]. split; [done|]. intros j. rewrite Hlk. case_if; [|done]. subst j. rewrite Hi. cbn. by rewrite Hc.
Qed.

Lemma kept_cycle d i v : sized d -> 0 <= i < zlen b.(io_timers) ->
  ∃ c, zstore d.(d_cycle_complete) i v = Some c ∧ kept d (set_cycle_complete c d) ∧ ∀ j, zlookup c j = if j =? i then Some v else zlookup d.(d_cycle_complete) j.
Proof.
  intros Hd Hi. destruct (zstore_Some d.(d_cycle_complete) i v) as (c & Hc & Hl & Hlk); [by rewrite (sz_cycle _ Hd)|]. exists c. split; [done|].
  split; [|done]. split; [|done]. destruct Hd. constructor; cbn; try done. lia.
Qed.

Lemma column_slice k w off len pos stride : 0 <= off -> 0 <= pos -> 0 <= stride -> pos + (Z.of_nat k - 1) * stride < len -> off + len <= zlen w ->
  column k (slice off len w) pos stride = column k w (off + pos) stride.
Proof.
  revert pos. induction k as [|k IH]; intros pos Ho Hp Hs Hl Hw; [done|]. cbn [column]. rewrite zlookup_slice by nia.
  decide_if. rewrite IH by nia. by replace (off + (pos + stride)) with (off + pos + stride) by lia.
Qed.

Lemma start_burst_spec d i now dma_up t : hw_ok d -> zlookup d.(d_timers) i = Some t -> t.(tc_initialized) = true ->
  ∃ d' s, dshot_start_timer_burst b now dma_up i d = Some (d', s) ∧ kept d d' ∧
    ∀ off m, zlookup d.(d_output_buffer) i = Some (Some off) -> zlookup b.(io_mapping) i = Some m -> t.(tc_bidirectional) = false ∨ dma_up i = true ->
      s = [mkBurst i (slice off (m.(channel_count_including_gaps) * 17) d.(d_burst))].
Proof.
  intros Hhw Ht Hi. pose proof (lo_sized _ _ _ (hw_laid _ Hhw)) as Hz. pose proof (sz_timer _ Hz _ _ Ht) as Hok.
  assert (Hr : 0 <= i < zlen b.(io_timers)) by (rewrite <- (sz_timers _ Hz); by apply zlookup_Some_lt in Ht).
  destruct (mapping_lookup i Hr) as [m Hm]. destruct (lo_init _ _ _ (hw_laid _ Hhw) i t Hr Ht Hi) as [off Ho].
  destruct (lo_range _ _ _ (hw_laid _ Hhw) _ _ _ Ho Hm) as (_ & Hoff & Hlim). pose proof (mapping_count _ _ Hm) as Hcnt.
  unfold dshot_start_timer_burst. rewrite Ht, Hm. cbn [mbind option_bind]. case_if.
  - destruct (kept_on_timer d i (tc_with_dma false t.(tc_initialized)) t Hz Ht) as (d1 & -> & K1 & _); [by apply timer_ok_dma|done|]. cbn [mbind option_bind].
    destruct (kept_cycle d1 i true) as (c & -> & K2 & _); [apply K1|done|]. cbn. eexists _, _. split; [done|]. split; [by eapply hw_kept_trans|].
    intros off' m' _ _ [Hx|Hx]; rewrite Hx in *; bool_hyps; done.
  - assert (∃ d1, (if tc_bidirectional t then on_timer d i (tc_with_dma true t.(tc_initialized)) else Some d) = Some d1 ∧ kept d d1) as (d1 & -> & K1).
    { case_if; [|exists d; split; [done|by apply kept_refl]].
      destruct (kept_on_timer d i (tc_with_dma true t.(tc_initialized)) t Hz Ht) as (d1 & He & K1 & _); [by apply timer_ok_dma|done|]. by exists d1. }
    cbn [mbind option_bind]. pose proof K1 as (Hz1 & (Hb1 & Hb2 & _) & _). rewrite Hb2, Ho. cbn [mbind option_bind]. rewrite Hb1.
    assert (mem_read d.(d_burst) off (m.(channel_count_including_gaps) * CHANNEL_OUTPUT_BUFF_SIZE) = Some (slice off (m.(channel_count_including_gaps) * 17) d.(d_burst))) as ->.
    { unfold CHANNEL_OUTPUT_BUFF_SIZE. apply mem_read_Some; rewrite ?(sz_burst _ Hz); lia. }
    cbn [mbind option_bind]. case_if.
    + destruct (kept_cycle d1 i true Hz1 Hr) as (c & -> & K2 & _). cbn. eexists _, _. split; [done|]. split; [by eapply hw_kept_trans|]. intros. by simplify_eq.
    + eexists _, _. split; [done|]. split; [done|]. intros. by simplify_eq.
Qed.

(** The loop of [up_dshot_trigger]. *)
Lemma trigger_spec d now dma_up : hw_ok d -> ∃ d' sent, up_dshot_trigger b now dma_up d = Some (d', sent) ∧ kept d d' ∧
  (forallb id d.(d_cycle_complete) = true -> ∀ i t off m, zlookup d.(d_timers) i = Some t -> t.(tc_initialized) = true ->
    zlookup d.(d_output_buffer) i = Some (Some off) -> zlookup b.(io_mapping) i = Some m -> t.(tc_bidirectional) = false ∨ dma_up i = true ->
    mkBurst i (slice off (m.(channel_count_including_gaps) * 17) d.(d_burst)) ∈ sent).
Proof.
  intros Hhw. pose proof (lo_sized _ _ _ (hw_laid _ Hhw)) as Hz. unfold up_dshot_trigger. case_if.
  { exists d, []. split; [done|]. split; [by apply kept_refl|]. intros Hx. rewrite Hx in *. bool_hyps. done. }
  set (P := λ i (ds : dshot * list burst), kept d ds.1 ∧ ∀ j t off m, j < i -> zlookup d.(d_timers) j = Some t -> t.(tc_initialized) = true ->
    zlookup d.(d_output_buffer) j = Some (Some off) -> zlookup b.(io_mapping) j = Some m -> t.(tc_bidirectional) = false ∨ dma_up j = true ->
    mkBurst j (slice off (m.(channel_count_including_gaps) * 17) d.(d_burst)) ∈ ds.2).
  match goal with |- ∃ _ _, zloop ?k 0 ?body ?s = _ ∧ _ => destruct (zloop_inv P body k 0 s) as ([d' sent] & He & Hk & Hin) end.
  3:{ exists d', sent. split; [done|]. split; [done|]. intros _ i t off m Ht. apply Hin; [|done]. apply zlookup_Some_lt in Ht. rewrite (sz_timers _ Hz) in Ht. unfold zlen in Ht. lia. }
  2:{ split; [by apply kept_refl|]. intros j t off m Hj Ht. apply zlookup_Some_lt in Ht. lia. }
  intros i [d1 sent] Hi (K1 & Hin). cbn in K1, Hin. pose proof (kept_hw _ _ K1 Hhw) as [Hhw1 _]. pose proof K1 as (Hz1 & (Hb1 & Hb2 & _) & _).
  assert (Hr : 0 <= i < zlen b.(io_timers)) by (unfold zlen; lia).
  destruct (zlookup_lt d1.(d_timers) i) as [t1 Ht1]; [by rewrite (sz_timers _ Hz1)|]. rewrite Ht1. cbn [mbind option_bind].
  destruct (kept_timer _ _ _ _ K1 Ht1) as (t & Ht & Hc). assert (Hcc : t.(tc_initialized) = t1.(tc_initialized) ∧ t.(tc_bidirectional) = t1.(tc_bidirectional)) by (unfold core in Hc; split; congruence).
  case_if.
  2:{ eexists. split; [done|]. split; [done|]. intros j t' off m Hj Ht' Hi'. destruct (decide (j = i)) as [->|]; [|apply Hin; [lia|done..]].
      simplify_eq. destruct (sz_timer _ Hz1 _ _ Ht1) as (_ & _ & _ & He & _). rewrite (proj1 Hcc) in Hi'. specialize (He Hi'). by destruct (tc_enabled t1), (tc_initialized t1). }
  assert (∃ d2, (if tc_bidirectional t1 then c ← zstore (d_cycle_complete d1) i false; Some (set_cycle_complete c d1) else Some d1) = Some d2 ∧ kept d1 d2 ∧ d2.(d_timers) = d1.(d_timers)) as (d2 & -> & K2 & Htm).
  { case_if; [|exists d1; split; [done|split; [by apply kept_refl|done]]]. destruct (kept_cycle d1 i false Hz1 Hr) as (c & -> & K2 & _). by eexists. }
  cbn [mbind option_bind]. pose proof (kept_hw _ _ K2 Hhw1) as [Hhw2 _]. pose proof K2 as (_ & (Hb3 & Hb4 & _) & _). bool_hyps.
  destruct (start_burst_spec d2 i now dma_up t1 Hhw2) as (d3 & s & -> & K3 & Hs); [by rewrite Htm|done|]. cbn [mbind option_bind].
  eexists. split; [done|]. split; [exact (hw_kept_trans _ _ _ K1 (hw_kept_trans _ _ _ K2 K3))|]. cbn. intros j t' off m Hj Ht' Hi' Ho Hm Hd.
  apply elem_of_app. destruct (decide (j = i)) as [->|]; [right|left; apply (Hin j t' off m); try done; lia]. simplify_eq.
  rewrite (Hs off m); [|by rewrite Hb4, Hb2|done|by rewrite <- (proj2 Hcc)]. rewrite Hb3, Hb1. by apply list_elem_of_singleton.
Qed.

(** ** Captures *)
Lemma find_channel_range timer k l : ∀ i, 0 <= i -> i <= find_channel timer k i l <= i + zlen l.
Proof.
  induction l as [|c l IH]; intros i Hi; cbn; [unfold zlen; cbn; lia|]. rewrite zlen_cons. pose proof (zlen_nonneg l).
  case_if; [lia|]. specialize (IH (i + 1) ltac:(lia)). lia.
Qed.

Lemma next_capture_spec d timer current t k : ∀ i, sized d -> timer_ok t -> 0 <= current -> 0 <= i ->
  ∃ r, next_capture b k timer current i t d = Some r ∧ ∀ next, r = Some next -> 0 <= next < 4.
Proof.
  induction k as [|k IH]; intros i Hz Ht Hc Hi; [by exists None|]. cbn [next_capture].
  assert (Hr : 0 <= Z.rem (current + i) 4 < 4) by (apply Z.rem_bound_pos; lia).
  destruct (zlookup_lt t.(tc_initialized_channels) (Z.rem (current + i) 4)) as [init ->]; [by rewrite (proj1 (proj2 Ht))|]. cbn [mbind option_bind].
  case_if; [|apply IH; done || lia]. unfold MAX_TIMER_IO_CHANNELS in *. bool_hyps.
  unfold output_channel_from_timer_channel in *. pose proof (find_channel_range timer (Z.rem (current + i) 4) b.(timer_io_channels) 0 ltac:(lia)).
  destruct (zlookup_lt d.(d_channels) (find_channel timer (Z.rem (current + i) 4) 0 b.(timer_io_channels))) as [c ->]; [rewrite (sz_channels _ Hz); lia|].
  cbn [mbind option_bind]. case_if; [eexists; split; [done|]; by intros ? [= <-]|apply IH; done || lia].
Qed.

Lemma kept_set_capture d cb : sized d -> zlen cb = zlen b.(io_timers) -> (∀ i c, zlookup cb i = Some c -> capture_ok c) -> kept d (set_capture_buffer cb d).
Proof. intros Hd Hl Hc. split; [|done]. destruct Hd. by constructor. Qed.

Lemma capture_ok_zero : capture_ok (replicate 4 (replicate CHANNEL_CAPTURE_BUFF_SIZE 0)).
Proof.
  split; [done|]. intros k e Hk. unfold zlookup in Hk. case_if_in Hk; [|done]. apply (lookup_replicate_1 4) in Hk as [-> _]. done.
Qed.

Lemma capture_stored d i c : sized d -> 0 <= i < zlen b.(io_timers) -> capture_ok c ->
  ∃ cb, zstore d.(d_capture_buffer) i c = Some cb ∧ kept d (set_capture_buffer cb d) ∧ zlookup cb i = Some c.
Proof.
  intros Hz Hi Hc. destruct (zstore_Some d.(d_capture_buffer) i c) as (cb & -> & Hl & Hlk); [by rewrite (sz_capture _ Hz)|].
  exists cb. split; [done|]. split; [|by rewrite Hlk, Z.eqb_refl]. apply kept_set_capture; [done|by rewrite Hl, (sz_capture _ Hz)|].
  intros j c' Hj. rewrite Hlk in Hj. case_if_in Hj; [by injection Hj as <-|by eapply (sz_captured _ Hz)].
Qed.

Lemma burst_finished_spec d now dma_ch i : sized d -> 0 <= i < zlen b.(io_timers) ->
  ∃ r d', dma_burst_finished_callback b now dma_ch i d = Some (r, d') ∧ kept d d'.
Proof.
  intros Hz Hi. unfold dma_burst_finished_callback.
  destruct (zlookup_lt d.(d_timers) i) as [t Ht]; [by rewrite (sz_timers _ Hz)|]. rewrite Ht. cbn [mbind option_bind].
  case_if; [exists false, d; split; [done|by apply kept_refl]|].
  destruct (capture_stored d i _ Hz Hi capture_ok_zero) as (cb & -> & K1 & _). cbn [mbind option_bind].
  pose proof (sz_timer _ Hz _ _ Ht) as Hok. set (d1 := set_capture_buffer cb d) in *. pose proof (proj1 K1) as Hz1.
  assert (∃ d2 t2, select_next_capture_channel b i d1 = Some d2 ∧ kept d1 d2 ∧ zlookup d2.(d_timers) i = Some t2) as (d2 & t2 & -> & K2 & Ht2).
  { unfold select_next_capture_channel. change (d_timers d1) with (d_timers d). rewrite Ht. cbn [mbind option_bind].
    destruct (next_capture_spec d1 i t.(tc_capture_channel) t 4 1 Hz1 Hok) as (r & -> & Hr); [apply Hok|lia|]. cbn [mbind option_bind].
    destruct r as [next|]; [|exists d1, t; split; [done|split; [by apply kept_refl|done]]].
    destruct (kept_on_timer d1 i (tc_set_capture next) t Hz1 Ht) as (d2 & He & K2 & _ & _ & Hl); [apply timer_ok_capture; auto|done|].
    by exists d2, (tc_set_capture next t). }
  cbn [mbind option_bind]. rewrite Ht2. cbn [mbind option_bind]. pose proof (proj1 K2) as Hz2. pose proof (sz_timer _ Hz2 _ _ Ht2) as Hok2.
  case_if.
  - destruct (kept_on_timer d2 i (tc_with_dma true (tc_initialized t2)) t2 Hz2 Ht2) as (d3 & -> & K3 & _); [done..|]. cbn.
    eexists _, _. split; [done|]. exact (hw_kept_trans _ _ _ K1 (hw_kept_trans _ _ _ K2 K3)).
  - destruct (kept_on_timer d2 i (tc_with_dma false (tc_initialized t2)) t2 Hz2 Ht2) as (d3 & -> & K3 & _); [done..|]. cbn [mbind option_bind].
    destruct (kept_cycle d3 i true (proj1 K3) Hi) as (c & -> & K4 & _). cbn. eexists _, _. split; [done|].
    exact (hw_kept_trans _ _ _ K1 (hw_kept_trans _ _ _ K2 (hw_kept_trans _ _ _ K3 K4))).
Qed.

Lemma collect_range edges : ∀ prev, Forall (λ i, 10 <= i <= 100) (collect_intervals prev edges).
Proof. induction edges as [|e edges IH]; intros prev; cbn; [done|]. case_if; [done|]. case_if; [|done]. constructor; [lia|done]. Qed.

Lemma min_interval_range l : l ≠ [] -> Forall (λ i, 10 <= i <= 100) l -> 10 <= min_interval l <= 100.
Proof.
  destruct l as [|i l]; [done|]. intros _ Hf. apply Forall_cons_1 in Hf as [Hi Hl]. cbn. revert i Hi. induction Hl as [|x l Hx _ IH]; intros i Hi; cbn; [done|].
  apply IH. lia.
Qed.

Lemma base_update_range base i : 73 <= base <= 800 -> 10 <= i <= 100 -> 73 <= base_update base i <= 800.
Proof.
  intros Hb' Hi. unfold base_update. rewrite Z.shiftr_div_pow2 by lia. change (2 ^ 3) with 8.
  assert (73 <= base - base / 8 + i <= 800) by (Z.div_mod_to_equations; lia). rewrite uwrap_small by lia. lia.
Qed.

Lemma kept_on_channel d ch f : sized d -> 0 <= ch < zlen b.(timer_io_channels) -> (∀ c, channel_ok c -> channel_ok (f c)) -> ∃ d', on_channel d ch f = Some d' ∧ kept d d'.
Proof.
  intros Hz Hc Hf. destruct (on_channel_spec d ch f Hz Hc Hf) as (d' & He & Hz' & Hb' & Ht & _). exists d'. split; [done|].
  split; [done|]. split; [done|]. intros j. by rewrite Ht.
Qed.

Lemma convert_spec d i k : sized d -> 0 <= i < zlen b.(io_timers) -> 0 <= k < 4 ->
  ∃ v d', convert_edge_intervals_to_bitstream b i k d = Some (v, d') ∧ kept d d'.
Proof.
  intros Hz Hi Hk. unfold convert_edge_intervals_to_bitstream.
  destruct (zlookup_lt d.(d_capture_buffer) i) as [ch Hch]; [by rewrite (sz_capture _ Hz)|]. rewrite Hch. cbn [mbind option_bind].
  destruct (sz_captured _ Hz _ _ Hch) as [Hl He]. destruct (zlookup_lt ch k) as [edges Hed]; [by rewrite Hl|]. rewrite Hed. cbn [mbind option_bind].
  destruct (zlookup_lt edges 1) as [prev ->]; [rewrite (He _ _ Hed); lia|]. cbn [mbind option_bind].
  pose proof (collect_range (drop 2 edges) prev) as Hr. destruct (collect_intervals prev (drop 2 edges)) as [|x l] eqn:Hci; [exists 0, d; split; [done|by apply kept_refl]|].
  case_if; [exists 0, d; split; [done|by apply kept_refl]|]. unfold MAX_TIMER_IO_CHANNELS, output_channel_from_timer_channel in *.
  pose proof (find_channel_range i k b.(timer_io_channels) 0 ltac:(lia)) as Hf. set (oc := find_channel i k 0 b.(timer_io_channels)) in *.
  destruct (zlookup_lt d.(d_channels) oc) as [c Hc]; [rewrite (sz_channels _ Hz); lia|]. rewrite Hc. cbn [mbind option_bind].
  pose proof (base_update_range _ _ (sz_channel _ Hz _ _ Hc) (min_interval_range (x :: l) ltac:(done) Hr)) as Hbase.
  destruct (kept_on_channel d oc (cs_set_base (base_update (cs_base_interval_x8 c) (min_interval (x :: l))))) as (d' & -> & K); [done|lia|by intros|].
  cbn [mbind option_bind]. rewrite (proj2 (Z.eqb_neq _ 0)) by lia. eexists _, d'. by split.
Qed.

Lemma channel_ok_failure c : channel_ok c -> channel_ok (count_failure c).
Proof. unfold count_failure, channel_ok. by case_if. Qed.
Lemma channel_ok_success c : channel_ok c -> channel_ok (count_success c).
Proof. unfold count_success, channel_ok. by case_if. Qed.
Lemma channel_ok_packet now p c : channel_ok c -> channel_ok (store_packet now p c).
Proof. unfold store_packet, channel_ok. destruct p. by repeat case_if. Qed.

Lemma process_capture_spec d now i k : sized d -> 0 <= i < zlen b.(io_timers) -> 0 <= k < 4 -> ∃ d', process_capture_results b now i k d = Some d' ∧ kept d d'.
Proof.
  intros Hz Hi Hk. unfold process_capture_results. case_if; [exists d; split; [done|by apply kept_refl]|].
  destruct (convert_spec d i k Hz Hi Hk) as (v & d1 & -> & K1). cbn [mbind option_bind]. pose proof (proj1 K1) as Hz1.
  unfold MAX_TIMER_IO_CHANNELS, output_channel_from_timer_channel in *. pose proof (find_channel_range i k b.(timer_io_channels) 0 ltac:(lia)) as Hf.
  set (oc := find_channel i k 0 b.(timer_io_channels)) in *.
  match goal with |- ∃ _, (?x ≫= _) = _ ∧ _ => assert (∃ d2, x = Some d2 ∧ kept d1 d2) as (d2 & -> & K2) end.
  { case_if; apply kept_on_channel; try done; try lia; [apply channel_ok_failure|]. intros c Hc. by apply channel_ok_packet, channel_ok_success. }
  cbn [mbind option_bind]. eexists. split; [done|]. eapply hw_kept_trans; [done|]. eapply hw_kept_trans; [done|]. split; [|done].
  destruct K2 as [[] _]. by constructor.
Qed.

Lemma capture_complete_spec d now i edges : sized d -> 0 <= i < zlen b.(io_timers) -> zlen edges = 32 ->
  ∃ d', capture_complete_callback b now i edges d = Some d' ∧ kept d d'.
Proof.
  intros Hz Hi He. unfold capture_complete_callback. destruct (zlookup_lt d.(d_timers) i) as [t Ht]; [by rewrite (sz_timers _ Hz)|].
  rewrite Ht. cbn [mbind option_bind]. destruct (sz_timer _ Hz _ _ Ht) as (_ & _ & _ & _ & Hcc).
  unfold zmodify. destruct (zlookup_lt d.(d_capture_buffer) i) as [ch Hch]; [by rewrite (sz_capture _ Hz)|]. rewrite Hch. cbn [mbind option_bind].
  destruct (sz_captured _ Hz _ _ Hch) as [Hl Hlen]. destruct (zstore_Some ch t.(tc_capture_channel) edges) as (ch' & -> & Hl' & Hlk); [by rewrite Hl|].
  cbn [mbind option_bind]. destruct (capture_stored d i ch' Hz Hi) as (cb & -> & K1 & _).
  { split; [lia|]. intros k e Hk. rewrite Hlk in Hk. case_if_in Hk; [by injection Hk as <-|eauto]. }
  cbn [mbind option_bind]. destruct (process_capture_spec _ now i t.(tc_capture_channel) (proj1 K1) Hi Hcc) as (d1 & -> & K2). cbn [mbind option_bind].
  destruct (kept_cycle d1 i true (proj1 K2) Hi) as (c & -> & K3 & _). cbn. eexists. split; [done|].
  exact (hw_kept_trans _ _ _ K1 (hw_kept_trans _ _ _ K2 K3)).
Qed.

Lemma kept_ready d m : sized d -> kept d (set_ready_mask m d).
Proof. intros Hz. split; [|done]. destruct Hz. by constructor. Qed.

Lemma get_erpm_spec d ch : sized d -> 0 <= ch -> ∃ r d', up_bdshot_get_erpm b ch d = Some (r, d') ∧ kept d d'.
Proof.
  intros Hz Hc. unfold up_bdshot_get_erpm, MAX_TIMER_IO_CHANNELS. case_if; [exists None, d; split; [done|by apply kept_refl]|].
  destruct (zlookup_lt b.(timer_io_channels) ch) as [c Hch]; [lia|]. rewrite Hch. cbn [mbind option_bind].
  destruct board_ok_parts as (_ & _ & Hp & _). destruct (Hp _ _ Hch) as (Hi & Htc & _).
  destruct (zlookup_lt d.(d_timers) (ch_timer_index c)) as [t Ht]; [by rewrite (sz_timers _ Hz)|]. rewrite Ht. cbn [mbind option_bind].
  destruct (zlookup_lt t.(tc_initialized_channels) (ch_timer_channel c)) as [x ->]; [by rewrite (proj1 (proj2 (sz_timer _ Hz _ _ Ht)))|].
  cbn [mbind option_bind]. destruct (zlookup_lt d.(d_channels) ch) as [cs ->]; [rewrite (sz_channels _ Hz); lia|]. cbn [mbind option_bind].
  eexists _, _. split; [done|]. case_if; [by apply kept_ready|by apply kept_refl].
Qed.

Lemma get_edt_spec d ch type : sized d -> 0 <= ch -> ∃ r d', up_bdshot_get_extended_telemetry b ch type d = Some (r, d') ∧ kept d d'.
Proof.
  intros Hz Hc. unfold up_bdshot_get_extended_telemetry, MAX_TIMER_IO_CHANNELS. case_if; [exists None, d; split; [done|by apply kept_refl]|].
  destruct (zlookup_lt d.(d_channels) ch) as [cs Hcs]; [rewrite (sz_channels _ Hz); lia|]. rewrite Hcs. cbn [mbind option_bind].
  pose proof (sz_channel _ Hz _ _ Hcs) as Hok.
  repeat case_if; try (eexists None, d; split; [done|by apply kept_refl]).
  all: match goal with |- ∃ _ _, (on_channel ?d ?ch ?f ≫= _) = _ ∧ _ => destruct (kept_on_channel d ch f) as (d' & -> & K); [done|lia|by intros|cbn; by eexists _, d'] end.
Qed.

(** ** Runs of the operations *)
Inductive op :=
  | OpSet (channel data : Z) (telemetry : bool)
  | OpTrigger (now : Z) (dma_up : Z -> bool)
  | OpBurstFinished (now : Z) (dma_ch : Z -> Z -> bool) (timer : Z)
  | OpCaptured (now timer : Z) (edges : list Z)
  | OpErpm (channel : Z)
  | OpEdt (channel type : Z).

(** Data has eleven bits; callbacks belong to timers; a capture fills its buffer. *)
Definition op_ok (o : op) : Prop :=
  match o with
  | OpSet channel data _ => 0 <= channel ∧ 0 <= data < 2048
  | OpTrigger _ _ => True
  | OpBurstFinished _ _ timer => 0 <= timer < zlen b.(io_timers)
  | OpCaptured _ timer edges => 0 <= timer < zlen b.(io_timers) ∧ zlen edges = 32
  | OpErpm channel | OpEdt channel _ => 0 <= channel
  end.

Definition step (o : op) (d : dshot) : option dshot :=
  match o with
  | OpSet channel data telemetry => dshot_motor_data_set b channel data telemetry d
  | OpTrigger now dma_up => fst <$> up_dshot_trigger b now dma_up d
  | OpBurstFinished now dma_ch timer => snd <$> dma_burst_finished_callback b now dma_ch timer d
  | OpCaptured now timer edges => capture_complete_callback b now timer edges d
  | OpErpm channel => snd <$> up_bdshot_get_erpm b channel d
  | OpEdt channel type => snd <$> up_bdshot_get_extended_telemetry b channel type d
  end.

Fixpoint run (ops : list op) (d : dshot) : option dshot :=
  match ops with [] => Some d | o :: ops' => d' ← step o d; run ops' d' end.

(** The data that was set last for a channel. *)
Fixpoint last_set (ops : list op) (channel : Z) (v : option (Z * bool)) : option (Z * bool) :=
  match ops with
  | [] => v
  | OpSet ch data telemetry :: ops' => last_set ops' channel (if ch =? channel then Some (data, telemetry) else v)
  | _ :: ops' => last_set ops' channel v
  end.

Lemma last_set_init ops ch v w : last_set ops ch None = Some w -> last_set ops ch v = Some w.
Proof.
  revert v. induction ops as [|o ops IH]; intros v H; [done|]. destruct o; cbn in H |- *; auto. case_if; auto.
Qed.

Lemma step_spec o d : hw_ok d -> op_ok o ->
  ∃ d', step o d = Some d' ∧ hw_ok d' ∧ d'.(d_bdshot_channel_mask) = d.(d_bdshot_channel_mask) ∧ (∀ ch, channel_slot b ch d' = channel_slot b ch d) ∧
    (∀ j, core <$> zlookup d'.(d_timers) j = core <$> zlookup d.(d_timers) j) ∧
    ∀ ch, is_Some (channel_slot b ch d) -> channel_value b ch d' = last_set [o] ch (channel_value b ch d).
Proof.
  intros Hhw Ho. pose proof (lo_sized _ _ _ (hw_laid _ Hhw)) as Hz.
  assert (Hkept : ∀ d', kept d d' -> (∀ ch v, last_set [o] ch v = v) -> hw_ok d' ∧ d'.(d_bdshot_channel_mask) = d.(d_bdshot_channel_mask) ∧ (∀ ch, channel_slot b ch d' = channel_slot b ch d) ∧
    (∀ j, core <$> zlookup d'.(d_timers) j = core <$> zlookup d.(d_timers) j) ∧ ∀ ch, is_Some (channel_slot b ch d) -> channel_value b ch d' = last_set [o] ch (channel_value b ch d)).
  { intros d' K Hl. destruct (kept_hw _ _ K Hhw) as [H1 H2]. split; [done|]. split; [apply K|]. split; [intros; by apply kept_slot|]. split; [apply K|]. intros. by rewrite Hl. }
  destruct o as [ch data tel|now dma|now dma i|now i edges|ch|ch type]; cbn [step op_ok] in *.
  - destruct (channel_slot b ch d) as [s|] eqn:Hs.
    + destruct (data_set_spec d ch data tel s Hhw (proj2 Ho) Hs) as (w & He & H1 & H2 & H3). exists (set_burst w d).
      split; [done|]. split; [done|]. split; [done|]. split; [done|]. split; [done|]. intros ch' _. cbn. case_if; [by subst|]. by rewrite H3.
    + exists d. rewrite data_set_ignored; [|done|lia|done]. do 5 (split; [done|]). intros ch' [s' Hs']. cbn. case_if; [|done]. subst. congruence.
  - destruct (trigger_spec d now dma Hhw) as (d' & s & -> & K & _). exists d'. split; [done|]. by apply Hkept.
  - destruct (burst_finished_spec d now dma i Hz Ho) as (r & d' & -> & K). exists d'. split; [done|]. by apply Hkept.
  - destruct (capture_complete_spec d now i edges Hz (proj1 Ho) (proj2 Ho)) as (d' & -> & K). exists d'. split; [done|]. by apply Hkept.
  - destruct (get_erpm_spec d ch Hz Ho) as (r & d' & -> & K). exists d'. split; [done|]. by apply Hkept.
  - destruct (get_edt_spec d ch type Hz Ho) as (r & d' & -> & K). exists d'. split; [done|]. by apply Hkept.
Qed.

Lemma run_spec ops : ∀ d, hw_ok d -> Forall op_ok ops ->
  ∃ d', run ops d = Some d' ∧ hw_ok d' ∧ d'.(d_bdshot_channel_mask) = d.(d_bdshot_channel_mask) ∧ (∀ ch, channel_slot b ch d' = channel_slot b ch d) ∧
    (∀ j, core <$> zlookup d'.(d_timers) j = core <$> zlookup d.(d_timers) j) ∧
    ∀ ch, is_Some (channel_slot b ch d) -> channel_value b ch d' = last_set ops ch (channel_value b ch d).
Proof.
  induction ops as [|o ops IH]; intros d Hhw Ho; [by exists d|]. apply Forall_cons_1 in Ho as [Ho Hops].
  destruct (step_spec o d Hhw Ho) as (d1 & He & H1 & H2 & H3 & H4 & H5). destruct (IH d1 H1 Hops) as (d2 & Hr & G1 & G2 & G3 & G4 & G5).
  exists d2. cbn [run]. rewrite He. cbn. split; [done|]. split; [done|]. split; [congruence|]. split; [intros; by rewrite G3|]. split; [intros; by rewrite G4|].
  intros ch Hch. rewrite G5 by (by rewrite H3). rewrite H5 by done. by destruct o.
Qed.
End layout.

(** The Pixhawk 6X ([boards/px4/fmu-v6x/src/timer_config.cpp]): TIM5, TIM4, TIM12, TIM1, TIM2. The code
    compares addresses, DMA requests and pins with zero only; 1 stands for any other value. *)
Definition fmu_v6x_timers : list io_timer :=
  [mkIoTimer 1 1 1 [1; 1; 1; 1]; mkIoTimer 1 1 1 [1; 1; 1; 0]; mkIoTimer 1 0 0 [0; 0; 0; 0]; mkIoTimer 1 0 0 [0; 0; 0; 0]; mkIoTimer 1 0 0 [0; 0; 0; 0]].
Definition fmu_v6x_channels : list io_channel :=
  [mkIoChannel 1 1 0 3; mkIoChannel 1 1 0 2; mkIoChannel 1 1 0 1; mkIoChannel 1 1 0 0; mkIoChannel 1 1 1 1; mkIoChannel 1 1 1 2;
   mkIoChannel 1 1 2 0; mkIoChannel 1 1 2 1; mkIoChannel 1 0 3 1].
Definition fmu_v6x : board :=
  mkBoard fmu_v6x_timers fmu_v6x_channels (default [] (initIOTimerChannelMapping 9 fmu_v6x_timers fmu_v6x_channels)).

Lemma esc_receive_slice inv w off len pos stride : 0 <= off -> 0 <= pos -> 0 <= stride -> pos + 16 * stride < len -> off + len <= zlen w ->
  esc_receive inv (slice off len w) pos stride = esc_receive inv w (off + pos) stride.
Proof.
  intros Ho Hp Hs Hl Hw. unfold esc_receive. rewrite column_slice by lia. destruct (column 16 w (off + pos) stride); [|done]. cbn [mbind option_bind].
  rewrite zlookup_slice by lia. decide_if. by rewrite Z.add_assoc.
Qed.

(** C12: On every board whose description is consistent, the initialisation gives the timers
    disjoint buffers, and after any sequence of operations (data for the channels, triggers,
    callbacks with any captured edges and at any time, reads) no access has left an array; the
    next trigger then sends to every initialised channel the data and the telemetry bit that
    were set last for it, as a motor controller decodes them, whatever was set for the others.
    A timer sends unless it is bidirectional and has no DMA stream, and nothing is sent while a
    capture is running. *)
Theorem dshot_frames_delivered n b dma_up channel_init mask bd_mask freq edt ops : board_ok n b = true -> freq ≠ 0 -> Forall (op_ok b) ops ->
  ∃ r d d', up_dshot_init b dma_up channel_init mask bd_mask freq edt (dshot_zero b) = Some (r, d) ∧ run b ops d = Some d' ∧
  ∀ now dma, ∃ d'' sent, up_dshot_trigger b now dma d' = Some (d'', sent) ∧
    ∀ ch s t data telemetry, channel_slot b ch d = Some s -> last_set ops ch None = Some (data, telemetry) -> zlookup d.(d_timers) s.(sl_timer) = Some t ->
      channel_value b ch d' = Some (data, telemetry) ∧
      (forallb id d'.(d_cycle_complete) = true -> t.(tc_bidirectional) = false ∨ dma s.(sl_timer) = true ->
        ∃ bu, bu ∈ sent ∧ bu.(bu_timer) = s.(sl_timer) ∧ esc_receive (bit bd_mask ch) bu.(bu_words) s.(sl_col) s.(sl_count) = Some (data, telemetry)).
Proof.
  intros Hb Hf Hops. destruct (up_dshot_init_spec n b Hb dma_up channel_init mask bd_mask freq edt Hf) as (r & d & Hinit & Hhw & Hmask).
  destruct (run_spec n b Hb ops d Hhw Hops) as (d' & Hrun & Hhw' & Hm' & Hslot & Hcore & Hval). exists r, d, d'. split; [done|]. split; [done|].
  intros now dma. destruct (trigger_spec n b Hb d' now dma Hhw') as (d'' & sent & Htr & _ & Hsent). exists d'', sent. split; [done|].
  intros ch s t data tel Hs Hlast Ht. assert (Hv : channel_value b ch d' = Some (data, tel)).
  { rewrite Hval by (by rewrite Hs). by apply last_set_init. }
  split; [done|]. intros Hcyc Hdma. rewrite <- Hslot in Hs. destruct (slot_bounds n b Hb _ _ _ Hhw' Hs) as (Hcol & Hcnt & Hoff & Hlim & _).
  unfold channel_value in Hv. rewrite Hs in Hv. cbn [mbind option_bind] in Hv. rewrite Hm', Hmask in Hv.
  destruct (channel_slot_inv b _ _ _ Hs) as (c & t' & m & Hc & Ht' & Hk & Hm & Ho & Heq). rewrite Heq in Ht, Hdma. cbn in Ht, Hdma.
  pose proof (Hcore (ch_timer_index c)) as Hcc. rewrite Ht', Ht in Hcc. cbn in Hcc. unfold core in Hcc.
  destruct (sz_timer _ _ (lo_sized _ _ _ _ (hw_laid _ _ Hhw')) _ _ Ht') as (_ & _ & Hinit' & _).
  eexists. split; [eapply (Hsent Hcyc _ t'); [done|by eapply Hinit'|done..|destruct Hdma; [left; congruence|by right]]|]. cbn [bu_words bu_timer]. rewrite Heq at 1. split; [done|].
  rewrite Heq in Hv, Hlim, Hcol |- *. cbn [sl_timer sl_off sl_col sl_count] in *. rewrite esc_receive_slice; [done|lia..].
Qed.

Definition sample_ops : list op := [OpSet 0 1000 false; OpSet 1 48 true; OpTrigger 100 (λ _, true); OpSet 0 2047 false].
Notation sample_init := (up_dshot_init fmu_v6x (λ _, true) (λ _, true) 15 0 600000 false (dshot_zero fmu_v6x)) (only parsing).

Lemma sample_run : (sample_init ≫= λ '(r, d), Some (r, channel_slot fmu_v6x 0 d, tc_bidirectional <$> zlookup d.(d_timers) 0,
    forallb id <$> (d_cycle_complete <$> run fmu_v6x sample_ops d))) = Some (15, Some (mkSlot 0 0 4 3), Some false, Some true).
Proof. vm_compute. reflexivity. Qed.

Lemma dshot_frames_delivered_witness : ∃ d d' d'' sent bu, sample_init = Some (15, d) ∧ run fmu_v6x sample_ops d = Some d' ∧
  up_dshot_trigger fmu_v6x 0 (λ _, true) d' = Some (d'', sent) ∧ bu ∈ sent ∧ esc_receive false bu.(bu_words) 3 4 = Some (2047, false).
Proof.
  destruct (dshot_frames_delivered 9 fmu_v6x (λ _, true) (λ _, true) 15 0 600000 false sample_ops) as (r & d & d' & Hi & Hr & H).
  - vm_compute. reflexivity.
  - lia.
  - repeat constructor; cbn; lia.
  - destruct (H 0 (λ _, true)) as (d'' & sent & Ht & Hs). pose proof sample_run as E.
    rewrite Hi in E |- *. apply bind_Some in E as ([r0 d0] & E0 & E). injection E0 as <- <-. rewrite Hr in E. injection E as -> E1 E2 E3.
    apply fmap_Some in E2 as (t & Htm & Hbi).
    destruct (Hs 0 (mkSlot 0 0 4 3) t 2047 false E1 eq_refl Htm) as (_ & Hd).
    destruct (Hd E3 (or_introl (eq_sym Hbi))) as (bu & Hin & _ & Hbu).
    exact (ex_intro _ d (ex_intro _ d' (ex_intro _ d'' (ex_intro _ sent (ex_intro _ bu (conj eq_refl (conj Hr (conj Ht (conj Hin Hbu))))))))).
Defined.
