(* ===== verification/BdshotDecode.v ===== *)
(** * Answers of the motor controllers are decoded

    What a bidirectional motor controller sends back (a payload with its checksum, in the
    group code of the protocol, as a sequence of level changes) and the proof that
    [convert_edge_intervals_to_bitstream] and [process_capture_results] (DshotTimers) recover
    it from edges whose times are a few percent off. *)
From stdpp Require Import base list tactics option.
From Stdlib Require Import ZArith Lia.
From S2P Require Import Prelude DshotTimers.

(** ** What a motor controller sends *)
Definition gcr_codes : list Z := [0x19; 0x1B; 0x12; 0x13; 0x1D; 0x15; 0x16; 0x17; 0x1A; 0x09; 0x0A; 0x0B; 0x1E; 0x0D; 0x0E; 0x0F].

(** Twelve bits of data and four of checksum. *)
Definition esc_payload (data : Z) : Z :=
  data * 16 + Z.lxor 15 (Z.lxor (Z.land data 15) (Z.lxor (Z.land (Z.shiftr data 4) 15) (Z.land (Z.shiftr data 8) 15))).

Definition code_bits (payload nibble : Z) : list bool :=
  let code := default 0 (zlookup gcr_codes (Z.land (Z.shiftr payload (4 * nibble)) 15)) in
  map (Z.testbit code) [4; 3; 2; 1; 0].
Definition group_bits (payload : Z) : list bool := concat (map (code_bits payload) [3; 2; 1; 0]).

(** The line starts active for one bit time and changes its level before each bit that is one;
    the lengths of the levels, without an idle level at the end, which has no edge. *)
Fixpoint level_runs (bits : list bool) (active : bool) (n : Z) : list Z :=
  match bits with
  | [] => if active then [n] else []
  | true :: bits' => n :: level_runs bits' (negb active) 1
  | false :: bits' => level_runs bits' active (n + 1)
  end.
Definition esc_runs (data : Z) : list Z := level_runs (group_bits (esc_payload data)) true 1.

(** The capture buffer: an edge before the frame, the first edge, the edges after the given
    intervals, and zeros. *)
Fixpoint edge_times (t : Z) (intervals : list Z) : list Z :=
  match intervals with [] => [] | i :: l => (t + i) :: edge_times (t + i) l end.
Definition captured (e0 t : Z) (intervals : list Z) : list Z :=
  e0 :: t :: edge_times t intervals ++ replicate (30 - length intervals) 0.

(** An interval of [n] bits, when a bit takes between [lo] and [hi] ticks. *)
Definition in_time (lo hi n i : Z) : Prop := n * lo <= i <= n * hi.

(** ** Decoding *)
Lemma interval_bits_in_time lo hi base n i : 0 < lo -> hi <= 100 -> 6 * hi < 7 * lo -> 8 * lo <= base <= 8 * hi -> 1 <= n <= 3 -> in_time lo hi n i ->
  interval_bits base i = n.
Proof.
  unfold in_time, interval_bits. intros Hlo Hhi Ht Hb Hn Hi. pose proof (Z.div_mod base 2 ltac:(lia)). pose proof (Z.mod_pos_bound base 2 ltac:(lia)).
  assert (Hr : n * base <= i * 8 + base / 2 < (n + 1) * base) by (assert (n = 1 ∨ n = 2 ∨ n = 3) as [->|[->| ->]] by lia; lia).
  rewrite uwrap_small by nia. rewrite <- (Z.div_unique_pos (i * 8 + base / 2) base n (i * 8 + base / 2 - n * base)) by lia. lia.
Qed.

Lemma collect_edge_times lo l : ∀ t, 10 <= lo -> 0 < t -> Forall (λ i, lo <= i <= 100) l -> t + 100 * Z.of_nat (length l) < 2 ^ 32 ->
  ∀ k, collect_intervals t (edge_times t l ++ replicate k 0) = l.
Proof.
  induction l as [|i l IH]; intros t Hlo Ht Hl Hs k; cbn [edge_times app collect_intervals].
  { destruct k; done. }
  apply Forall_cons_1 in Hl as [Hi Hl]. cbn [length] in Hs. rewrite (proj2 (Z.eqb_neq _ 0)) by lia.
  replace (t + i - t) with i by lia. rewrite uwrap_small by lia. decide_if. f_equal. apply IH; try done; lia.
Qed.

(** All 4096 frames, by evaluation: level lengths up to three, at most 21 of them, and the
    decoder gives the payload back. *)
Definition frame_decodes (data : Z) : bool :=
  forallb (λ n, (1 <=? n) && (n <=? 3)) (esc_runs data) && (length (esc_runs data) <=? 21)%nat && (1 <=? length (esc_runs data))%nat
  && bool_decide (decode_payload (pad_frame (decode_bits (esc_runs data) 1 0 0)) = esc_payload data)
  && (payload_checksum (esc_payload data) =? 15) && (Z.land (Z.shiftr (esc_payload data) 4) 0xFFF =? data).

Lemma frames_decode data : 0 <= data < 4096 -> frame_decodes data = true.
Proof. intros Hd. apply (forallb_seq frame_decodes 4096 data); [vm_compute; reflexivity|done]. Qed.

Lemma min_interval_bounds lo hi l : (∀ i, i ∈ l -> lo <= i) -> (∃ i, i ∈ l ∧ i <= hi) -> lo <= min_interval l <= hi.
Proof.
  destruct l as [|x l]; intros Hlo (i & Hi & Hh); [by apply elem_of_nil in Hi|]. cbn [min_interval].
  assert (Hf : ∀ l x, (∀ i, i ∈ x :: l -> lo <= i) -> lo <= fold_left Z.min l x ∧ ∀ i, i ∈ x :: l -> fold_left Z.min l x <= i).
  { clear. induction l as [|y l IH]; intros x Hx; cbn [fold_left].
    - split; [apply Hx; left|]. intros i Hi. apply list_elem_of_singleton in Hi as ->. lia.
    - destruct (IH (Z.min x y)) as [H1 H2].
      { intros i [->|Hi]%elem_of_cons; [|apply Hx; by do 2 right]. pose proof (Hx x ltac:(left)). pose proof (Hx y ltac:(right; left)). lia. }
      split; [done|]. pose proof (H2 (Z.min x y) ltac:(left)). intros i [->|[->|Hi]%elem_of_cons]%elem_of_cons; [lia|lia|]. apply H2. by right. }
  destruct (Hf l x Hlo) as [H1 H2]. split; [done|]. specialize (H2 i Hi). lia.
Qed.

Lemma base_update_between lo hi base i : 0 <= lo -> hi <= 100 -> 8 * lo <= base <= 8 * hi -> lo <= i <= hi -> 8 * lo <= base_update base i <= 8 * hi.
Proof.
  intros Hlo Hhi Hb Hi. unfold base_update. rewrite Z.shiftr_div_pow2 by lia. change (2 ^ 3) with 8.
  assert (8 * lo <= base - base / 8 + i <= 8 * hi) by (Z.div_mod_to_equations; lia). rewrite uwrap_small by lia. lia.
Qed.

(** What [captured] edges say: the intervals, the bits and the shortest interval. *)
Lemma captured_intervals lo hi runs t intervals : 10 <= lo -> 3 * hi <= 100 -> 6 * hi < 7 * lo -> (∀ n, n ∈ runs -> 1 <= n <= 3) -> (1 <= length runs <= 21)%nat ->
  0 < t < 2 ^ 16 -> Forall2 (in_time lo hi) runs intervals ->
  (∀ e0, zlen (captured e0 t intervals) = 32) ∧ (∀ e0, collect_intervals t (drop 2 (captured e0 t intervals)) = intervals) ∧ intervals ≠ [] ∧
  (∀ base, 8 * lo <= base <= 8 * hi -> map (interval_bits base) intervals = runs) ∧ (1 ∈ runs -> lo <= min_interval intervals <= hi).
Proof.
  intros Hlo Hhi Htol Hruns Hl Ht Hin. assert (Hlen : length runs = length intervals) by (by eapply Forall2_length).
  assert (Hi : Forall (λ i, lo <= i <= 100) intervals).
  { apply Forall_lookup_2. intros k i Hk. destruct (Forall2_lookup_r _ _ _ _ _ Hin Hk) as (n & Hn & Ht').
    specialize (Hruns n (list_elem_of_lookup_2 _ _ _ Hn)). unfold in_time in Ht'. nia. }
  split; [|split; [|split; [|split]]].
  - intros e0. assert (He : ∀ l t, length (edge_times t l) = length l) by (clear; induction l; intros; cbn; auto).
    unfold captured, zlen. cbn [length]. rewrite length_app, He, length_replicate. lia.
  - intros e0. unfold captured. cbn [drop]. apply (collect_edge_times lo); try done; lia.
  - intros ->. cbn in Hlen. lia.
  - intros base Hb. clear Hlen Hi Hl. induction Hin as [|n i ns ks Hni Hin IH]; [done|]. cbn [map]. f_equal.
    + apply (interval_bits_in_time lo hi); try done; try lia. apply Hruns. left.
    + apply IH. intros m Hm. apply Hruns. by right.
  - intros H1. apply min_interval_bounds.
    + intros i [k Hk]%list_elem_of_lookup_1. eapply Forall_lookup_1 in Hi; [|done]. lia.
    + apply list_elem_of_lookup_1 in H1 as [k Hk]. destruct (Forall2_lookup_l _ _ _ _ _ Hin Hk) as (i & Hki & Ht'). exists i.
      split; [by eapply list_elem_of_lookup_2|]. unfold in_time in Ht'. lia.
Qed.

Lemma frame_runs data : 0 <= data < 4096 ->
  (∀ n, n ∈ esc_runs data -> 1 <= n <= 3) ∧ (1 <= length (esc_runs data) <= 21)%nat ∧
  decode_payload (pad_frame (decode_bits (esc_runs data) 1 0 0)) = esc_payload data ∧
  payload_checksum (esc_payload data) = 15 ∧ Z.land (Z.shiftr (esc_payload data) 4) 0xFFF = data.
Proof.
  intros Hd. pose proof (frames_decode data Hd) as H. unfold frame_decodes in H. rewrite !andb_true_iff in H.
  destruct H as [[[[[Hr Hmax] Hmin] Hp] Hc] Hl]. apply Nat.leb_le in Hmax, Hmin. apply bool_decide_eq_true in Hp. apply Z.eqb_eq in Hc, Hl.
  split; [|done]. intros n Hn%list_elem_of_In. pose proof (proj1 (forallb_forall _ _) Hr n Hn) as Hx. cbn beta in Hx. lia.
Qed.

Section decoding.
Context (n : Z) (b : board) (Hb : board_ok n b = true).

Lemma on_channel_lookup d ch f c : zlookup d.(d_channels) ch = Some c ->
  ∃ l, on_channel d ch f = Some (set_channels l d) ∧ zlookup l ch = Some (f c) ∧ zlen l = zlen d.(d_channels).
Proof.
  intros Hc. unfold on_channel, zmodify. rewrite Hc. cbn. destruct (zstore_Some d.(d_channels) ch (f c)) as (l & -> & Hl & Hlk); [by apply zlookup_Some_lt in Hc|].
  cbn. exists l. split; [done|]. split; [by rewrite Hlk, Z.eqb_refl|done].
Qed.

(** The capture of a frame with the right timing, step by step. *)
Lemma process_frame d now timer k c edges lo hi data e0 t intervals :
  let oc := output_channel_from_timer_channel b timer k in
  zlookup d.(d_channels) oc = Some c -> zlen d.(d_channels) = zlen b.(timer_io_channels) ->
  zlookup d.(d_capture_buffer) timer = Some edges -> zlookup edges k = Some (captured e0 t intervals) ->
  10 <= lo -> 3 * hi <= 100 -> 6 * hi < 7 * lo -> 8 * lo <= c.(cs_base_interval_x8) <= 8 * hi -> 0 <= data < 4096 -> 1 ∈ esc_runs data -> 0 < t < 2 ^ 16 ->
  Forall2 (in_time lo hi) (esc_runs data) intervals ->
  ∃ d' base, process_capture_results b now timer k d = Some d' ∧ 8 * lo <= base <= 8 * hi ∧
    zlookup d'.(d_channels) oc = Some (store_packet now (decode_dshot_telemetry d.(d_edt_enabled) data) (count_success (cs_set_base base c))) ∧
    d'.(d_ready_mask) = u16 (Z.setbit d.(d_ready_mask) oc).
Proof.
  intros oc Hc Hlen Hed Hek Hlo Hhi Htol Hbase Hdata H1 Ht Hin. destruct (frame_runs data Hdata) as (Hr & Hl & Hp & Hcs & Hdt).
  destruct (captured_intervals lo hi (esc_runs data) t intervals Hlo Hhi Htol Hr Hl Ht Hin) as (_ & Hcol & Hne & Hbits & Hmin).
  assert (Hoc : (MAX_TIMER_IO_CHANNELS b <=? oc) = false) by (apply Z.leb_gt; apply zlookup_Some_lt in Hc; unfold MAX_TIMER_IO_CHANNELS; lia).
  set (base := base_update c.(cs_base_interval_x8) (min_interval intervals)).
  assert (Hb' : 8 * lo <= base <= 8 * hi) by (apply base_update_between; auto; lia).
  unfold process_capture_results. fold oc. rewrite Hoc. unfold convert_edge_intervals_to_bitstream. rewrite Hed. cbn [mbind option_bind]. rewrite Hek. cbn [mbind option_bind].
  change (zlookup (captured e0 t intervals) 1) with (Some t). cbn [mbind option_bind]. rewrite Hcol.
  match goal with |- context [match intervals with [] => ?X | _ :: _ => ?Y end] => replace (match intervals with [] => X | _ :: _ => Y end) with Y by (by destruct intervals) end.
  fold oc. rewrite Hoc, Hc. cbn [mbind option_bind]. fold base.
  destruct (on_channel_lookup d oc (cs_set_base base) c Hc) as (l1 & -> & Hl1 & Hlen1). cbn [mbind option_bind].
  rewrite (proj2 (Z.eqb_neq base 0)) by lia. cbn [mbind option_bind]. rewrite (Hbits base Hb'), Hp, Hcs, Hdt. cbn [Z.eqb negb Pos.eqb].
  change (negb (15 =? 15)) with false. cbn match.
  destruct (on_channel_lookup (set_channels l1 d) oc (λ c, store_packet now (decode_dshot_telemetry (d_edt_enabled (set_channels l1 d)) data) (count_success c)) _ Hl1) as (l2 & -> & Hl2 & _).
  cbn [mbind option_bind]. eexists _, base. split; [done|]. split; [done|]. split; [exact Hl2|done].
Qed.
End decoding.


(** The Pixhawk 6X with a bidirectional motor on output 1, answering with exact bit times. *)
Definition bd_start : option dshot := snd <$> up_dshot_init fmu_v6x (λ _, true) (λ _, true) 1 1 600000 false (dshot_zero fmu_v6x).
Definition exact_frame (data : Z) : list Z := captured 5 100 (map (Z.mul 21) (esc_runs data)).
Definition cycle (data : Z) : list op :=
  [OpTrigger 4000000 (λ _, true); OpBurstFinished 4000000 (λ _ _, true) 0; OpCaptured 4000000 0 (exact_frame data); OpErpm 0].
Definition answers (k : nat) (data : Z) : list op := concat (replicate k (cycle data)).



Lemma steady_speed_run :
  (d1 ← bd_start ≫= run fmu_v6x (answers 205 0x8FF); c1 ← zlookup d1.(d_channels) 0; d2 ← run fmu_v6x (answers 210 0x99A) d1; c2 ← zlookup d2.(d_channels) 0;
   Some ((c1.(cs_online), c1.(cs_read_ok), c1.(cs_read_fail_crc)), (c2.(cs_online), c2.(cs_read_ok), c2.(cs_read_fail_crc)))) =
  Some ((true, 205, 0), (false, 206, 209)).
Proof. vm_compute. reflexivity. Qed.

