(* ===== verification/DShotTelemetry.v ===== *)
(** * Serial telemetry of the motor controllers

    [src/drivers/dshot/DShotTelemetry.{h,cpp}], [DShotCommon.h] and [esc/AM32Settings.{h,cpp}]:
    the requests for telemetry frames and for settings, and the parser of the answers that
    arrive on a serial port. The bytes that a read of the port gives are an argument; opening
    the port and the status output are not modelled. [None] is an access outside a buffer. *)
From stdpp Require Import base list tactics option.
From Stdlib Require Import ZArith Lia.
From S2P Require Import Prelude Float32 FloatOps Crc.

(** ** Checksum and data *)
Definition crc8_byte (crc byte : Z) : Z := Nat.iter 8 (crc_bit_msb 8 7) (Z.lxor byte crc).
Definition crc8 (buf : list Z) : Z := foldl crc8_byte 0 buf.

Inductive TelemetrySource := Serial | BDShot.
Record EscData := mkEsc {
  esc_motor_index : Z; esc_timestamp : Z; esc_source : TelemetrySource; esc_temperature : Z; esc_voltage : Z; esc_current : Z; esc_erpm : Z }.
Inductive TelemetryStatus := NotStarted | NotReady | Ready | Timeout | ParseError.

Definition EEPROM_SIZE : Z := 48.
Definition RESPONSE_SIZE : Z := EEPROM_SIZE + 1.
Definition COMMAND_RESPONSE_MAX_SIZE : Z := 49.
Definition TELEMETRY_FRAME_SIZE : Z := 10.
Definition DSHOT_CMD_ESC_INFO : Z := 6.
Definition ESC_TYPE_AM32 : Z := 1.

(** ** Settings of an AM32 controller *)
Record AM32Settings := mkAM32 { am_esc_index : Z; am_eeprom_data : list Z }.

Definition AM32Settings_new (index : Z) : AM32Settings := mkAM32 index (replicate 48 0).

(** [decodeInfoResponse]; a valid response is stored and published (index and data). *)
Definition decodeInfoResponse (buf : list Z) (h : AM32Settings) : option (AM32Settings * option (Z * list Z)) :=
  if negb (zlen buf =? RESPONSE_SIZE) then Some (h, None)
  else
    data ← mem_read buf 0 EEPROM_SIZE;
    checksum_data ← zlookup buf EEPROM_SIZE;
    if negb (crc8 data =? checksum_data) then Some (h, None)
    else Some (mkAM32 h.(am_esc_index) data, Some (h.(am_esc_index), data)).

(** ** The parser *)
Record DShotTelemetry := mkTelemetry {
  t_response_motor_index : Z; t_response_command : Z; t_response_buffer : list Z; t_response_position : Z; t_response_start : Z;
  t_frame_buffer : list Z; t_frame_position : Z; t_request_start : Z;
  t_num_timeouts : Z; t_num_successful : Z; t_num_checksum_errors : Z;
  t_handlers : list (option AM32Settings); t_esc_type : Z; t_settings_initialized : bool }.

(** The buffers are not initialised; [frame] and [response] are what they hold. *)
Definition DShotTelemetry_new (max_motors : nat) (frame response : list Z) : DShotTelemetry :=
  mkTelemetry (-1) 0 response 0 0 frame 0 0 0 0 0 (replicate max_motors None) 0 false.

Definition with_response (motor command : Z) (buffer : list Z) (position start : Z) (t : DShotTelemetry) : DShotTelemetry :=
  mkTelemetry motor command buffer position start t.(t_frame_buffer) t.(t_frame_position) t.(t_request_start) t.(t_num_timeouts) t.(t_num_successful) t.(t_num_checksum_errors) t.(t_handlers) t.(t_esc_type) t.(t_settings_initialized).
Definition with_frame (buffer : list Z) (position start : Z) (t : DShotTelemetry) : DShotTelemetry :=
  mkTelemetry t.(t_response_motor_index) t.(t_response_command) t.(t_response_buffer) t.(t_response_position) t.(t_response_start) buffer position start t.(t_num_timeouts) t.(t_num_successful) t.(t_num_checksum_errors) t.(t_handlers) t.(t_esc_type) t.(t_settings_initialized).
Definition with_counts (timeouts successful errors : Z) (t : DShotTelemetry) : DShotTelemetry :=
  mkTelemetry t.(t_response_motor_index) t.(t_response_command) t.(t_response_buffer) t.(t_response_position) t.(t_response_start) t.(t_frame_buffer) t.(t_frame_position) t.(t_request_start) timeouts successful errors t.(t_handlers) t.(t_esc_type) t.(t_settings_initialized).
Definition with_handlers (handlers : list (option AM32Settings)) (esc_type : Z) (initialized : bool) (t : DShotTelemetry) : DShotTelemetry :=
  mkTelemetry t.(t_response_motor_index) t.(t_response_command) t.(t_response_buffer) t.(t_response_position) t.(t_response_start) t.(t_frame_buffer) t.(t_frame_position) t.(t_request_start) t.(t_num_timeouts) t.(t_num_successful) t.(t_num_checksum_errors) handlers esc_type initialized.

(** [initSettingsHandlers]; an allocation does not fail. *)
Definition initSettingsHandlers (esc_type output_mask : Z) (t : DShotTelemetry) : DShotTelemetry :=
  if t.(t_settings_initialized) then t
  else
    with_handlers (imap (λ i h, if Z.testbit output_mask (Z.of_nat i) && (esc_type =? ESC_TYPE_AM32) then Some (AM32Settings_new (Z.of_nat i)) else h) t.(t_handlers))
      esc_type true t.

Definition resetCommandResponse (t : DShotTelemetry) : DShotTelemetry :=
  with_response (-1) t.(t_response_command) t.(t_response_buffer) 0 0 t.

(** The received bytes of a response to DSHOT_CMD_ESC_INFO; other commands have none. *)
Definition handle_response (t : DShotTelemetry) : option (DShotTelemetry * option (Z * list Z)) :=
  if negb (t.(t_response_command) =? DSHOT_CMD_ESC_INFO) then Some (t, None)
  else if (t.(t_response_motor_index) <? 0) || (zlen t.(t_handlers) <=? t.(t_response_motor_index)) then Some (resetCommandResponse t, None)
  else
    handler ← zlookup t.(t_handlers) t.(t_response_motor_index);
    match handler with
    | None => Some (resetCommandResponse t, None)
    | Some h =>
      if t.(t_response_position) =? RESPONSE_SIZE then
        buf ← mem_read t.(t_response_buffer) 0 t.(t_response_position);
        '(h, published) ← decodeInfoResponse buf h;
        handlers ← zstore t.(t_handlers) t.(t_response_motor_index) (Some h);
        Some (resetCommandResponse (with_handlers handlers t.(t_esc_type) t.(t_settings_initialized) t), published)
      else Some (t, None)
    end.

(** [parseCommandResponse]; [got] are the bytes that the port gives, at most as many as the
    buffer has room for. *)
Definition parseCommandResponse (now : Z) (got : list Z) (t : DShotTelemetry) : option (DShotTelemetry * option (Z * list Z)) :=
  if 1000000 <? hrt_elapsed_time now t.(t_response_start) then Some (resetCommandResponse t, None)
  else
    match got with
    | [] => Some (t, None)
    | _ =>
      if COMMAND_RESPONSE_MAX_SIZE <? t.(t_response_position) + zlen got then Some (resetCommandResponse t, None)
      else
        buffer ← mem_write t.(t_response_buffer) t.(t_response_position) got;
        handle_response (with_response t.(t_response_motor_index) t.(t_response_command) buffer (t.(t_response_position) + zlen got) t.(t_response_start) t)
    end.

Definition commandResponseFinished (t : DShotTelemetry) : bool := t.(t_response_motor_index) <? 0.
Definition commandResponseStarted (t : DShotTelemetry) : bool := 0 <? t.(t_response_start).
Definition telemetryResponseFinished (t : DShotTelemetry) : bool := t.(t_request_start) =? 0.
Definition startTelemetryRequest (now : Z) (t : DShotTelemetry) : DShotTelemetry := with_frame t.(t_frame_buffer) 0 now t.
Definition setExpectCommandResponse (now motor_index command : Z) (t : DShotTelemetry) : DShotTelemetry :=
  with_response motor_index command t.(t_response_buffer) 0 now t.

Definition FLOAT_0_01 : Z := f_encode_q 23 (2 ^ 149) 100.

(** The fields of a frame, most significant byte first. *)
Definition frame_data (now : Z) (f : list Z) (esc : EscData) : option EscData :=
  b0 ← zlookup f 0; b1 ← zlookup f 1; b2 ← zlookup f 2; b3 ← zlookup f 3; b4 ← zlookup f 4; b7 ← zlookup f 7; b8 ← zlookup f 8;
  let voltage := Z.lor (Z.shiftl b1 8) b2 in
  let current := Z.lor (Z.shiftl b3 8) b4 in
  let erpm := Z.lor (Z.shiftl b7 8) b8 in
  Some (mkEsc esc.(esc_motor_index) now esc.(esc_source) (f32_of_int b0) (f32_mul (f32_of_int voltage) FLOAT_0_01)
          (f32_mul (f32_of_int current) FLOAT_0_01) (erpm * 100)).

(** [decodeTelemetryResponse], byte by byte. *)
Fixpoint decodeTelemetryResponse (now : Z) (buffer : list Z) (t : DShotTelemetry) (esc : EscData) (status : TelemetryStatus)
    : option (TelemetryStatus * EscData * DShotTelemetry) :=
  match buffer with
  | [] => Some (status, esc, t)
  | byte :: buffer' =>
    frame ← zstore t.(t_frame_buffer) t.(t_frame_position) byte;
    let t := with_frame frame (t.(t_frame_position) + 1) t.(t_request_start) t in
    if t.(t_frame_position) =? TELEMETRY_FRAME_SIZE then
      data ← mem_read frame 0 (TELEMETRY_FRAME_SIZE - 1);
      checksum_data ← zlookup frame (TELEMETRY_FRAME_SIZE - 1);
      if crc8 data =? checksum_data then
        esc ← frame_data now frame esc;
        decodeTelemetryResponse now buffer' (with_frame frame 0 0 (with_counts t.(t_num_timeouts) (s32 (t.(t_num_successful) + 1)) t.(t_num_checksum_errors) t)) esc Ready
      else decodeTelemetryResponse now buffer' (with_frame frame 0 0 (with_counts t.(t_num_timeouts) t.(t_num_successful) (s32 (t.(t_num_checksum_errors) + 1)) t)) esc ParseError
    else decodeTelemetryResponse now buffer' t esc status
  end.

Definition parseTelemetryPacket (now : Z) (got : list Z) (t : DShotTelemetry) (esc : EscData) : option (TelemetryStatus * EscData * DShotTelemetry) :=
  if telemetryResponseFinished t then Some (NotStarted, esc, t)
  else
    let elapsed := hrt_elapsed_time now t.(t_request_start) in
    if elapsed <? 800 then Some (NotReady, esc, t)
    else
      match got with
      | [] =>
        if 5000 <? elapsed then
          Some (Timeout, esc, with_frame t.(t_frame_buffer) 0 0 (with_counts (s32 (t.(t_num_timeouts) + 1)) t.(t_num_successful) t.(t_num_checksum_errors) t))
        else Some (NotReady, esc, t)
      | _ => decodeTelemetryResponse now got t esc NotReady
      end.

(** ** The parser stays in its buffers *)
Record tel_ok (t : DShotTelemetry) : Prop := mkTelOk {
  to_frame : zlen t.(t_frame_buffer) = TELEMETRY_FRAME_SIZE;
  to_position : 0 <= t.(t_frame_position) < TELEMETRY_FRAME_SIZE;
  to_response : zlen t.(t_response_buffer) = COMMAND_RESPONSE_MAX_SIZE;
  to_response_position : 0 <= t.(t_response_position) <= COMMAND_RESPONSE_MAX_SIZE;
  to_motor : t.(t_response_motor_index) < zlen t.(t_handlers) }.

Lemma frame_data_total now f esc : zlen f = 10 -> is_Some (frame_data now f esc).
Proof.
  intros Hf. unfold frame_data. repeat match goal with |- context [zlookup f ?i] => destruct (zlookup_lt f i ltac:(lia)) as [? ->]; cbn [mbind option_bind] end. done.
Qed.

Lemma decode_step_ok now byte t esc status : tel_ok t -> ∃ status' esc' t', tel_ok t' ∧ ∀ rest,
  decodeTelemetryResponse now (byte :: rest) t esc status = decodeTelemetryResponse now rest t' esc' status'.
Proof.
  intros [H1 H2 H3 H4 H5]. unfold TELEMETRY_FRAME_SIZE in *.
  destruct (zstore_Some t.(t_frame_buffer) t.(t_frame_position) byte) as (f & Hf & Hl & _); [lia|].
  destruct (decide (t.(t_frame_position) + 1 = 10)) as [He|He].
  - destruct (zlookup_lt f 9) as [ck Hck]; [lia|]. destruct (frame_data_total now f esc) as [e' He']; [lia|].
    destruct (decide (crc8 (slice 0 9 f) = ck)) as [Hcrc|Hcrc]; eexists _, _, _; (split; [|intros rest; cbn [decodeTelemetryResponse]; rewrite Hf;
      cbn [mbind option_bind with_frame t_frame_position]; unfold TELEMETRY_FRAME_SIZE; rewrite He; change (10 =? 10) with true; cbn match;
      rewrite (mem_read_Some f 0 (10 - 1)) by lia; cbn [mbind option_bind]; change (10 - 1) with 9; rewrite Hck; cbn [mbind option_bind]]).
    2: rewrite (proj2 (Z.eqb_eq _ _) Hcrc), He'; reflexivity.
    3: rewrite (proj2 (Z.eqb_neq _ _) Hcrc); reflexivity.
    all: constructor; cbn; unfold TELEMETRY_FRAME_SIZE; (lia || done).
  - eexists _, _, _. split; [|intros rest; cbn [decodeTelemetryResponse]; rewrite Hf; cbn [mbind option_bind with_frame t_frame_position]; unfold TELEMETRY_FRAME_SIZE;
      rewrite (proj2 (Z.eqb_neq _ _) He); reflexivity].
    constructor; cbn; unfold TELEMETRY_FRAME_SIZE; lia || done.
Qed.

Lemma frame_decode_total now bytes : ∀ t esc status, tel_ok t -> ∃ status' esc' t', decodeTelemetryResponse now bytes t esc status = Some (status', esc', t') ∧ tel_ok t'.
Proof.
  induction bytes as [|byte bytes IH]; intros t esc status Ht; [by eexists _, _, _|].
  destruct (decode_step_ok now byte t esc status Ht) as (s1 & e1 & t1 & Ht1 & ->). by apply IH.
Qed.

Lemma parse_total now got t esc : tel_ok t -> ∃ status esc' t', parseTelemetryPacket now got t esc = Some (status, esc', t') ∧ tel_ok t'.
Proof.
  intros Ht. unfold parseTelemetryPacket. do 2 (case_if; [by eexists _, _, _|]). destruct got; [|by apply frame_decode_total].
  case_if; [|by eexists _, _, _]. eexists _, _, _. split; [done|]. destruct Ht. by constructor.
Qed.

Lemma response_total now got t : tel_ok t -> ∃ t' p, parseCommandResponse now got t = Some (t', p) ∧ tel_ok t'.
Proof.
  intros Ht. pose proof Ht as [H1 H2 H3 H4 H5]. pose proof (zlen_nonneg t.(t_handlers)) as Hn.
  assert (Hreset : ∀ t, tel_ok t -> tel_ok (resetCommandResponse t)).
  { intros u [U1 U2 U3 U4 U5]. pose proof (zlen_nonneg u.(t_handlers)). constructor; cbn; unfold COMMAND_RESPONSE_MAX_SIZE in *; lia || done. }
  unfold parseCommandResponse. case_if; [eexists _, _; split; [done|by apply Hreset]|]. destruct got as [|x got]; [by eexists _, _|].
  set (g := x :: got). case_if; [eexists _, _; split; [done|by apply Hreset]|]. pose proof (zlen_nonneg g).
  unfold COMMAND_RESPONSE_MAX_SIZE in *. rewrite mem_write_Some by lia. cbn [mbind option_bind].
  match goal with |- ∃ _ _, handle_response ?u = _ ∧ _ => set (t1 := u); assert (Hu : tel_ok t1) end.
  { constructor; cbn; unfold COMMAND_RESPONSE_MAX_SIZE; try done; [|lia]. by rewrite zlen_splice by lia. }
  unfold handle_response. case_if; [by eexists _, _|]. case_if; [eexists _, _; split; [done|by apply Hreset]|].
  destruct (zlookup_lt t1.(t_handlers) t1.(t_response_motor_index)) as [h Hh]; [lia|]. rewrite Hh. cbn [mbind option_bind].
  destruct h as [h|]; [|eexists _, _; split; [done|by apply Hreset]]. case_if; [|by eexists _, _].
  destruct Hu as [U1 U2 U3 U4 U5]. unfold RESPONSE_SIZE, EEPROM_SIZE, COMMAND_RESPONSE_MAX_SIZE in *. rewrite mem_read_Some by lia. cbn [mbind option_bind].
  assert (Hz : zlen (slice 0 (t_response_position t1) (t_response_buffer t1)) = 49) by (rewrite zlen_slice; lia).
  assert (∃ h' p, decodeInfoResponse (slice 0 (t_response_position t1) (t_response_buffer t1)) h = Some (h', p)) as (h' & p & ->).
  { unfold decodeInfoResponse, RESPONSE_SIZE, EEPROM_SIZE. rewrite Hz. change (negb (49 =? 48 + 1)) with false. cbn match. rewrite mem_read_Some by lia. cbn [mbind option_bind].
    destruct (zlookup_lt (slice 0 (t_response_position t1) (t_response_buffer t1)) 48) as [ck ->]; [lia|]. cbn [mbind option_bind]. case_if; by eexists _, _. }
  cbn [mbind option_bind]. destruct (zstore_Some t1.(t_handlers) t1.(t_response_motor_index) (Some h')) as (hs & -> & Hl & _); [lia|]. cbn [mbind option_bind].
  eexists _, _. split; [done|]. apply Hreset. constructor; cbn; try done. rewrite Hl. done.
Qed.

(** ** Frames in any chunks *)
Lemma decode_app now l1 l2 : ∀ t esc st, decodeTelemetryResponse now (l1 ++ l2) t esc st =
  '(st, esc, t) ← decodeTelemetryResponse now l1 t esc st; decodeTelemetryResponse now l2 t esc st.
Proof.
  induction l1 as [|x l1 IH]; intros t esc st; [done|]. cbn [app decodeTelemetryResponse]. destruct (zstore _ _ _) as [f|]; [|done]. cbn [mbind option_bind].
  case_if; [|apply IH]. destruct (mem_read f _ _); [|done]. cbn [mbind option_bind]. destruct (zlookup f _); [|done]. cbn [mbind option_bind].
  case_if; [|apply IH]. destruct (frame_data now f esc); [|done]. cbn [mbind option_bind]. apply IH.
Qed.

(** The frame buffer begins with the bytes received so far. *)
Definition received (pre : list Z) (t : DShotTelemetry) : Prop :=
  t.(t_frame_position) = zlen pre ∧ take (length pre) t.(t_frame_buffer) = pre ∧ zlen t.(t_frame_buffer) = 10.

Lemma store_received pre t x : received pre t -> (length pre < 10)%nat ->
  ∃ f, zstore t.(t_frame_buffer) t.(t_frame_position) x = Some f ∧ zlen f = 10 ∧ take (length (pre ++ [x])) f = pre ++ [x].
Proof.
  intros (Hp & Ht & Hl) Hlen. unfold zlen in *. unfold zstore. rewrite (proj2 (Z.leb_le _ _)), (proj2 (Z.ltb_lt _ _)) by (unfold zlen; lia). cbn [andb].
  eexists. split; [done|]. rewrite length_insert. split; [done|]. rewrite Hp, Nat2Z.id, length_app. cbn.
  assert (Hl2 : (length pre < length (t_frame_buffer t))%nat) by lia. replace (length pre + 1)%nat with (S (length pre)) by lia.
  erewrite take_S_r by (apply list_lookup_insert_eq; lia). rewrite take_insert_ge by lia. by rewrite Ht.
Qed.

Lemma decode_prefix now l : ∀ pre t esc st, received pre t -> (length pre + length l < 10)%nat ->
  ∃ f, decodeTelemetryResponse now l t esc st = Some (st, esc, with_frame f (zlen (pre ++ l)) t.(t_request_start) t) ∧ received (pre ++ l) (with_frame f (zlen (pre ++ l)) t.(t_request_start) t).
Proof.
  induction l as [|x l IH]; intros pre t esc st Hr Hlen.
  { exists t.(t_frame_buffer). rewrite app_nil_r. destruct Hr as (Hp & ? & ?). rewrite <- Hp. split; [by destruct t|done]. }
  cbn [length] in Hlen. destruct (store_received pre t x Hr) as (f & Hf & Hz & Hk); [lia|]. cbn [decodeTelemetryResponse]. rewrite Hf. cbn [mbind option_bind].
  assert (Hp : t.(t_frame_position) + 1 = zlen (pre ++ [x])) by (rewrite zlen_app, (proj1 Hr); done). cbn [t_frame_position with_frame].
  rewrite (proj2 (Z.eqb_neq _ _)) by (rewrite Hp; unfold zlen, TELEMETRY_FRAME_SIZE; rewrite length_app; cbn; lia).
  destruct (IH (pre ++ [x]) (with_frame f (t.(t_frame_position) + 1) t.(t_request_start) t) esc st) as (f' & He & Hr').
  - done.
  - rewrite length_app. cbn. lia.
  - rewrite <- app_assoc in He, Hr'. exists f'. split; [exact He|exact Hr'].
Qed.

(** What the last byte of a frame does. *)
Definition frame_end (now : Z) (f : list Z) (t : DShotTelemetry) (esc : EscData) : option (TelemetryStatus * EscData * DShotTelemetry) :=
  if crc8 (take 9 f) =? List.last f 0 then
    esc ← frame_data now f esc; Some (Ready, esc, with_frame f 0 0 (with_counts t.(t_num_timeouts) (s32 (t.(t_num_successful) + 1)) t.(t_num_checksum_errors) t))
  else Some (ParseError, esc, with_frame f 0 0 (with_counts t.(t_num_timeouts) t.(t_num_successful) (s32 (t.(t_num_checksum_errors) + 1)) t)).

Lemma decode_complete now l pre t esc st : received pre t -> (length pre + length l = 10)%nat -> l ≠ [] ->
  decodeTelemetryResponse now l t esc st = frame_end now (pre ++ l) t esc.
Proof.
  intros Hr Hlen Hne. destruct (exists_last Hne) as (l' & x & ->). rewrite length_app in Hlen. cbn in Hlen. rewrite decode_app.
  destruct (decode_prefix now l' pre t esc st Hr) as (f & -> & Hr'); [lia|]. cbn [mbind option_bind]. set (t1 := with_frame f _ _ t) in *.
  destruct (store_received (pre ++ l') t1 x Hr') as (g & Hg & Hz & Hk); [rewrite length_app; lia|]. rewrite app_assoc.
  assert (g = (pre ++ l') ++ [x]) as Hgf.
  { rewrite <- Hk. symmetry. apply take_ge. rewrite !length_app. cbn. unfold zlen in Hz. lia. }
  cbn [decodeTelemetryResponse]. rewrite Hg. cbn [mbind option_bind]. cbn [t_frame_position with_frame t1].
  rewrite (proj2 (Z.eqb_eq _ _)) by (unfold TELEMETRY_FRAME_SIZE, zlen; rewrite length_app; lia).
  unfold TELEMETRY_FRAME_SIZE. change (10 - 1) with 9. rewrite mem_read_Some by lia. cbn [mbind option_bind].
  change (slice 0 9 g) with (take 9 (drop 0 g)). rewrite drop_0. rewrite Hgf.
  assert (zlookup ((pre ++ l') ++ [x]) 9 = Some x) as ->.
  { unfold zlookup. cbn match. change (Z.to_nat 9) with 9%nat. rewrite lookup_app_r by (rewrite length_app; lia). by replace (9 - length (pre ++ l'))%nat with 0%nat by (rewrite length_app; lia). }
  cbn [mbind option_bind]. unfold frame_end. rewrite List.last_last. case_if; [|done].
  destruct (frame_data now ((pre ++ l') ++ [x]) esc); [|done]. reflexivity.
Qed.

(** Polls of the parser: their times and the bytes that each of them reads. *)
Fixpoint polls (l : list (Z * list Z)) (t : DShotTelemetry) (esc : EscData) : option (list TelemetryStatus * EscData * DShotTelemetry) :=
  match l with
  | [] => Some ([], esc, t)
  | (now, got) :: l' =>
    '(st, esc, t) ← parseTelemetryPacket now got t esc;
    '(sts, esc, t) ← polls l' t esc;
    Some (st :: sts, esc, t)
  end.

(** A poll while the answer may arrive. *)
Definition in_window (start : Z) (p : Z * list Z) : Prop := 800 <= hrt_elapsed_time p.1 start <= 5000.

Lemma polls_app l1 l2 : ∀ t esc, polls (l1 ++ l2) t esc =
  '(s1, esc, t) ← polls l1 t esc; '(s2, esc, t) ← polls l2 t esc; Some (s1 ++ s2, esc, t).
Proof.
  induction l1 as [|[now got] l1 IH]; intros t esc; cbn [app polls mbind option_bind]. { by destruct (polls l2 t esc) as [[[??]?]|]. }
  destruct (parseTelemetryPacket now got t esc) as [[[??]?]|]; [|done]. cbn [mbind option_bind]. rewrite IH.
  destruct (polls l1 _ _) as [[[??]?]|]; [|done]. cbn [mbind option_bind]. by destruct (polls l2 _ _) as [[[??]?]|].
Qed.

Lemma parse_in_window now got t esc : t.(t_request_start) ≠ 0 -> in_window t.(t_request_start) (now, got) ->
  parseTelemetryPacket now got t esc = decodeTelemetryResponse now got t esc NotReady.
Proof.
  intros Hs [H1 H2]. unfold parseTelemetryPacket, telemetryResponseFinished. cbn [fst] in *. rewrite (proj2 (Z.eqb_neq _ _)) by done.
  rewrite (proj2 (Z.ltb_ge _ _)) by lia. destruct got; [|done]. by rewrite (proj2 (Z.ltb_ge _ _)) by lia.
Qed.

Lemma polls_prefix l : ∀ pre t esc, received pre t -> t.(t_request_start) ≠ 0 -> Forall (in_window t.(t_request_start)) l ->
  (length pre + length (concat l.*2) < 10)%nat ->
  ∃ f, let t' := with_frame f (zlen (pre ++ concat l.*2)) t.(t_request_start) t in polls l t esc = Some (replicate (length l) NotReady, esc, t') ∧ received (pre ++ concat l.*2) t'.
Proof.
  induction l as [|[now got] l IH]; intros pre t esc Hr Hs Hw Hlen.
  { exists t.(t_frame_buffer). cbn. rewrite app_nil_r. destruct Hr as (Hp & ? & ?). rewrite <- Hp. split; [by destruct t|done]. }
  cbn [fmap list_fmap concat snd] in Hlen. rewrite length_app in Hlen. destruct (Forall_cons_1 _ _ _ Hw) as [Hw1 Hw2]. cbn [polls]. rewrite parse_in_window by done.
  destruct (decode_prefix now got pre t esc NotReady Hr) as (f & -> & Hr'); [lia|]. cbn [mbind option_bind]. set (t1 := with_frame f _ _ t) in *.
  destruct (IH (pre ++ got) t1 esc Hr' Hs Hw2) as (f' & He & Hr2); [rewrite length_app; lia|]. rewrite He. cbn [mbind option_bind]. cbn [fmap list_fmap concat snd].
  rewrite <- app_assoc in Hr2 |- *. exists f'. split; [done|exact Hr2].
Qed.

(** ** The checksum finds a wrong byte *)
Lemma crc8_msb l : crc8 l = foldl (msb_byte 8 7) 0 l.
Proof.
  unfold crc8. generalize 0 as crc. induction l as [|b l IH]; intros crc; [done|]. cbn [foldl]. rewrite IH. f_equal.
  unfold crc8_byte, msb_byte. by rewrite Z.shiftl_0_r, Z.lxor_comm.
Qed.

Lemma crc8_wrong_byte l i x b : Forall byte_ok l -> l !! i = Some x -> byte_ok b -> b ≠ x -> crc8 (<[i := b]> l) ≠ crc8 l.
Proof.
  intros Hl Hx Hb Hne E. rewrite !crc8_msb in E. pose proof (lookup_lt_Some _ _ _ Hx) as Hlt.
  rewrite insert_take_drop in E by done. pose proof (take_drop_middle l i x Hx) as Hm. rewrite <- Hm in E at 3.
  apply (msb_burst 8 7 0 (take i l) [b] [x] (drop (S i) l)) in E; [by injection E|lia|lia|done|lia| | |done|unfold zlen; cbn; lia].
  - rewrite !Forall_app. split; [by apply Forall_take|]. split; [by constructor|by apply Forall_drop].
  - constructor; [|done]. by eapply Forall_lookup_1.
Qed.

(** A frame of a controller: nine bytes and their checksum. *)
Definition esc_frame (data : list Z) : list Z := data ++ [crc8 data].

Lemma esc_frame_accepted data : length data = 9%nat -> crc8 (take 9 (esc_frame data)) = List.last (esc_frame data) 0.
Proof. intros Hl. unfold esc_frame. rewrite List.last_last, <- Hl, take_app_length. done. Qed.

Lemma esc_frame_rejected data i x b : Forall byte_ok data -> length data = 9%nat -> esc_frame data !! i = Some x -> byte_ok b -> b ≠ x ->
  crc8 (take 9 (<[i := b]> (esc_frame data))) ≠ List.last (<[i := b]> (esc_frame data)) 0.
Proof.
  intros Hd Hl Hx Hb Hne. unfold esc_frame in *. destruct (decide (i < 9)%nat) as [Hi|Hi].
  - rewrite insert_app_l, List.last_last by lia. rewrite take_app_le, take_ge by (rewrite length_insert; lia).
    rewrite lookup_app_l in Hx by lia. by eapply crc8_wrong_byte.
  - rewrite insert_app_r_alt by lia. pose proof (lookup_lt_Some _ _ _ Hx) as Hlt. rewrite length_app in Hlt. cbn in Hlt.
    rewrite lookup_app_r in Hx by lia. replace (i - length data)%nat with 0%nat in * by lia. cbn in Hx |- *. injection Hx as <-.
    rewrite List.last_last, <- Hl, take_app_length. congruence.
Qed.

Lemma polls_frame t esc start l now got : zlen t.(t_frame_buffer) = TELEMETRY_FRAME_SIZE -> start ≠ 0 ->
  Forall (in_window start) (l ++ [(now, got)]) -> got ≠ [] -> length (concat l.*2 ++ got) = 10%nat ->
  ∃ t1, polls (l ++ [(now, got)]) (startTelemetryRequest start t) esc =
    ('(st, esc, t) ← frame_end now (concat l.*2 ++ got) t1 esc; Some (replicate (length l) NotReady ++ [st], esc, t)).
Proof.
  intros Hf Hs Hw Hg Hl. apply Forall_app in Hw as [Hw1 Hw2]. rewrite length_app in Hl. rewrite polls_app.
  assert (length got ≠ 0%nat) by (by destruct got).
  destruct (polls_prefix l [] (startTelemetryRequest start t) esc) as (f & -> & Hr); [by split_and!|done|done|cbn; lia|]. cbn [app] in *.
  cbn [mbind option_bind polls]. rewrite parse_in_window; [|done|exact (proj1 (Forall_cons_1 _ _ _ Hw2))]. rewrite (decode_complete _ _ _ _ _ _ Hr) by (done || lia).
  match goal with |- context [frame_end now _ ?u esc] => exists u; by destruct (frame_end now (concat l.*2 ++ got) u esc) as [[[??]?]|] end.
Qed.

Lemma be16_lor h l : byte_ok h -> byte_ok l -> Z.lor (Z.shiftl h 8) l = 256 * h + l.
Proof.
  unfold byte_ok. intros Hh Hl. rewrite Z.shiftl_mul_pow2 by lia. pose proof (Z.add_lor_land (h * 2 ^ 8) l) as E.
  assert (Z.land (h * 2 ^ 8) l = 0) as H0; [|lia]. rewrite <- (Z.mod_small l (2 ^ 8)) by lia. rewrite <- Z.land_ones, (Z.land_comm l), Z.land_assoc by lia.
  rewrite Z.land_ones, Z.mod_mul by lia. apply Z.land_0_l.
Qed.

Definition nine (temp vh vl ch cl mh ml eh el : Z) : list Z := [temp; vh; vl; ch; cl; mh; ml; eh; el].

Lemma frame_data_nine now esc temp vh vl ch cl mh ml eh el ck : Forall byte_ok (nine temp vh vl ch cl mh ml eh el) ->
  frame_data now (nine temp vh vl ch cl mh ml eh el ++ [ck]) esc =
  Some (mkEsc esc.(esc_motor_index) now esc.(esc_source) (f32_of_int temp) (f32_mul (f32_of_int (256 * vh + vl)) FLOAT_0_01)
          (f32_mul (f32_of_int (256 * ch + cl)) FLOAT_0_01) (100 * (256 * eh + el))).
Proof.
  unfold nine. intros Hb. repeat match goal with H : Forall byte_ok (_ :: _) |- _ => apply Forall_cons_1 in H as [? H] end.
  rewrite <- !be16_lor, (Z.mul_comm 100) by done. reflexivity.
Qed.

(** C28: an answer of a motor controller that arrives in the window of the request is received whatever the chunks in which the port gives it: every poll before the last one reports that the frame is not ready, the poll that reads the last byte reports the frame with the temperature, voltage, current and speed that the controller sent, and the request is over. If one byte of the answer is wrong, whichever it is, the poll reports an error and the data of the caller are not touched. *)
Theorem serial_frame_received t esc start temp vh vl ch cl mh ml eh el l now got :
  let data := nine temp vh vl ch cl mh ml eh el in
  let answer := concat l.*2 ++ got in
  let run := polls (l ++ [(now, got)]) (startTelemetryRequest start t) esc in
  zlen t.(t_frame_buffer) = TELEMETRY_FRAME_SIZE -> start ≠ 0 -> Forall byte_ok data ->
  Forall (in_window start) (l ++ [(now, got)]) -> got ≠ [] ->
  (answer = esc_frame data -> ∃ t', telemetryResponseFinished t' = true ∧
     run = Some (replicate (length l) NotReady ++ [Ready],
                 mkEsc esc.(esc_motor_index) now esc.(esc_source) (f32_of_int temp) (f32_mul (f32_of_int (256 * vh + vl)) FLOAT_0_01)
                   (f32_mul (f32_of_int (256 * ch + cl)) FLOAT_0_01) (100 * (256 * eh + el)), t')) ∧
  (∀ i x b, esc_frame data !! i = Some x -> byte_ok b -> b ≠ x -> answer = <[i := b]> (esc_frame data) ->
     ∃ t', telemetryResponseFinished t' = true ∧ run = Some (replicate (length l) NotReady ++ [ParseError], esc, t')).
Proof.
  intros data answer run Hf Hs Hb Hw Hg. split.
  - intros Ha. destruct (polls_frame t esc start l now got Hf Hs Hw Hg) as (t1 & He); [fold answer; by rewrite Ha|]. fold run answer in He. rewrite He, Ha. unfold frame_end.
    rewrite (proj2 (Z.eqb_eq _ _) (esc_frame_accepted data eq_refl)).
    rewrite (frame_data_nine now esc _ _ _ _ _ _ _ _ _ (crc8 data) Hb : frame_data now (esc_frame data) esc = _). eexists; split; [|reflexivity]; done.
  - intros i x b Hx Hbb Hne Ha. destruct (polls_frame t esc start l now got Hf Hs Hw Hg) as (t1 & He); [fold answer; by rewrite Ha, length_insert|]. fold run answer in He.
    rewrite He, Ha. unfold frame_end. rewrite (proj2 (Z.eqb_neq _ _)) by (eapply esc_frame_rejected; done). eexists; split; [|reflexivity]; done.
Qed.

Lemma serial_frame_received_witness :
  let run got2 := polls [(2000, [25; 6; 64]); (2500, []); (3000, got2)] (startTelemetryRequest 1000 (DShotTelemetry_new 4 (replicate 10 0) (replicate 49 0))) (mkEsc 2 0 Serial 0 0 0 0) in
  ∃ t' t'', run [0; 150; 0; 10; 1; 44; crc8 (nine 25 6 64 0 150 0 10 1 44)] =
    Some ([NotReady; NotReady; Ready], mkEsc 2 3000 Serial (f32_of_int 25) (f32_mul (f32_of_int 1600) FLOAT_0_01) (f32_mul (f32_of_int 150) FLOAT_0_01) 30000, t') ∧
  run [0; 150; 0; 10; 1; 45; crc8 (nine 25 6 64 0 150 0 10 1 44)] = Some ([NotReady; NotReady; ParseError], mkEsc 2 0 Serial 0 0 0 0, t'').
Proof.
  cbv zeta. pose proof (λ got, serial_frame_received (DShotTelemetry_new 4 (replicate 10 0) (replicate 49 0)) (mkEsc 2 0 Serial 0 0 0 0) 1000 25 6 64 0 150 0 10 1 44
    [(2000, [25; 6; 64]); (2500, [])] 3000 got eq_refl ltac:(lia)) as H.
  assert (Hb : Forall byte_ok (nine 25 6 64 0 150 0 10 1 44)) by (repeat constructor; unfold byte_ok; lia).
  assert (Hw : ∀ got, Forall (in_window 1000) ([(2000, [25; 6; 64]); (2500, [])] ++ [(3000, got)])) by (intros got; repeat constructor; cbn; vm_compute; discriminate).
  destruct (proj1 (H [0; 150; 0; 10; 1; 44; crc8 (nine 25 6 64 0 150 0 10 1 44)] Hb (Hw _) ltac:(done)) eq_refl) as (t' & _ & H1).
  destruct (proj2 (H [0; 150; 0; 10; 1; 45; crc8 (nine 25 6 64 0 150 0 10 1 44)] Hb (Hw _) ltac:(done)) 8%nat 44 45 eq_refl ltac:(unfold byte_ok; lia) ltac:(lia) eq_refl) as (t'' & _ & H2).
  exists t', t''. split; [exact H1|exact H2].
Defined.
