(* ===== verification/MixerModule.v ===== *)
(** * Output module

    [src/lib/mixer_module]: the functions that can be assigned to an output
    ([functions/*.hpp]), the actuator test ([actuator_test.{hpp,cpp}]) and [MixingOutput]
    ([mixer_module.{hpp,cpp}]), which gives the values of the functions, limited, to a driver.
    Floats are bit patterns. What the subscriptions deliver during a call, the time and the
    values of the parameters are arguments; a driver is an instance of
    [OutputModuleInterface]. Performance counters and text output are not modelled. *)
From stdpp Require Import base list tactics option.
From Stdlib Require Import ZArith Lia.
From S2P Require Import Prelude Float32 FloatOps FloatBounds.

(** ** Functions ([output_functions.yaml]) *)
Definition Disabled : Z := 0.
Definition Constant_Min : Z := 1.
Definition Constant_Max : Z := 2.
Definition Motor1 : Z := 101.
Definition MotorMax : Z := 112.
Definition Servo1 : Z := 201.
Definition ServoMax : Z := 215.
Definition Peripheral_via_Actuator_Set1 : Z := 301.
Definition Peripheral_via_Actuator_Set6 : Z := 306.
Definition Landing_Gear : Z := 400.
Definition Parachute : Z := 401.
Definition RC_Roll : Z := 402.
Definition RC_AUXMax : Z := 412.
Definition Gimbal_Roll : Z := 420.
Definition Gimbal_Yaw : Z := 422.
Definition Gripper : Z := 430.
Definition Landing_Gear_Wheel : Z := 440.
Definition IC_Engine_Ignition : Z := 450.
Definition IC_Engine_Starter : Z := 453.
Definition MAX_ACTUATORS : nat := 16.

Definition F_1 : Z := f32_of_int 1.
Definition F_m1 : Z := f32_of_int (-1).
Definition F_2 : Z := f32_of_int 2.
Definition F_4 : Z := f32_of_int 4.
Definition F_HALF : Z := f32_of_half 1.

(** ** Messages *)
Record actuator_motors := mkMotors { am_timestamp_sample : Z; am_reversible_flags : Z; am_control : list Z }.
Record vehicle_command := mkCommand { vc_command : Z; vc_param1 : Z; vc_param2 : Z; vc_param3 : Z; vc_param4 : Z; vc_param5 : Z; vc_param6 : Z; vc_param7 : Z }.
Record actuator_armed := mkArmed { ar_armed : bool; ar_prearmed : bool; ar_lockdown : bool; ar_kill : bool; ar_termination : bool; ar_in_esc_calibration_mode : bool }.
Record actuator_test := mkTest { ts_timestamp : Z; ts_action : Z; ts_function : Z; ts_value : Z; ts_timeout_ms : Z }.
Record ice_control := mkIce { ic_ignition_on : bool; ic_throttle : Z; ic_choke : Z; ic_starter : Z }.

(** What the subscriptions of the module deliver during an update: the new message of each
    topic or none, all new messages where the code loops, and the last message where it
    copies. [in_manual] is the flag [valid] with the eleven values. *)
Record topics := mkTopics {
  in_armed : option actuator_armed; in_motors : option actuator_motors; in_servos : option (list Z); in_commands : list vehicle_command;
  in_landing_gear : option Z; in_landing_gear_wheel : option Z; in_gripper : option Z; in_manual : option (bool * list Z);
  in_gimbal : option (list Z); in_ice : option ice_control; in_tests : list actuator_test;
  last_motors_reversible : option Z; last_servos_trim : option (list Z) }.

(** ** Function providers *)
Inductive FunctionProvider :=
  | FunctionConstantMin
  | FunctionConstantMax
  | FunctionMotors (data : actuator_motors)
  | FunctionServos (control : list Z)
  | FunctionActuatorSet (data : list Z)
  | FunctionLandingGear (data : Z)
  | FunctionLandingGearWheel (data : Z)
  | FunctionParachute
  | FunctionGripper (data : Z)
  | FunctionManualRC (data : list Z)
  | FunctionGimbal (data : list Z)
  | FunctionICEControl (data : list Z).

(** The table of [mixer_module.cpp], with what the constructors build. *)
Definition all_function_providers : list (Z * Z * FunctionProvider) :=
  [ (Constant_Min, Constant_Min, FunctionConstantMin);
    (Constant_Max, Constant_Max, FunctionConstantMax);
    (Motor1, MotorMax, FunctionMotors (mkMotors 0 0 (replicate 12 f32_nan)));
    (Servo1, ServoMax, FunctionServos (replicate 15 f32_nan));
    (Peripheral_via_Actuator_Set1, Peripheral_via_Actuator_Set6, FunctionActuatorSet (replicate 6 f32_nan));
    (Landing_Gear, Landing_Gear, FunctionLandingGear F_m1);
    (Landing_Gear_Wheel, Landing_Gear_Wheel, FunctionLandingGearWheel 0);
    (Parachute, Parachute, FunctionParachute);
    (Gripper, Gripper, FunctionGripper F_m1);
    (RC_Roll, RC_AUXMax, FunctionManualRC (replicate 11 f32_nan));
    (Gimbal_Roll, Gimbal_Yaw, FunctionGimbal (replicate 3 f32_nan));
    (IC_Engine_Ignition, IC_Engine_Starter, FunctionICEControl (replicate 4 f32_nan)) ].

(** [FunctionMotors::updateValues] *)
Definition thrust_curve (thrust_factor control : Z) : Z :=
  let a := thrust_factor in
  let b := f32_sub F_1 thrust_factor in
  let tmp1 := f32_divide b (f32_mul F_2 a) in
  let tmp2 := f32_divide (f32_mul b b) (f32_mul (f32_mul F_4 a) a) in
  if f32_is_finite control then
    if f32_lt FLT_EPSILON control then f32_add (f32_neg tmp1) (f32_sqrt (f32_add tmp2 (f32_divide control a)))
    else if f32_lt control (f32_neg FLT_EPSILON) then f32_sub tmp1 (f32_sqrt (f32_sub tmp2 (f32_divide control a)))
    else control
  else control.

Definition remap_motor (value : Z) : Z :=
  if f32_lt value (f32_neg FLT_EPSILON) then f32_nan else f32_sub (f32_mul value F_2) F_1.

Definition updateValues (reversible thrust_factor : Z) (values : list Z) : list Z :=
  let values := if f32_lt FLT_EPSILON thrust_factor && f32_le thrust_factor F_1 then map (thrust_curve thrust_factor) values else values in
  imap (λ i value, if Z.testbit reversible (Z.of_nat i) then value else remap_motor value) values.

Definition VEHICLE_CMD_DO_SET_ACTUATOR : Z := 187.

(** A command of [FunctionActuatorSet::update]; the parameters 5 and 6 are doubles. *)
Definition set_actuator (data : list Z) (c : vehicle_command) : list Z :=
  if negb (c.(vc_command) =? VEHICLE_CMD_DO_SET_ACTUATOR) then data
  else if f32_lround c.(vc_param7) =? 0 then
    let set32 d p : Z := if f32_is_finite p then p else d in
    let set64 d p : Z := if negb (f64_is_nan p) && negb (f64_is_inf p) then f32_of_f64 p else d in
    match data with
    | [d0; d1; d2; d3; d4; d5] =>
      [set32 d0 c.(vc_param1); set32 d1 c.(vc_param2); set32 d2 c.(vc_param3); set32 d3 c.(vc_param4); set64 d4 c.(vc_param5); set64 d5 c.(vc_param6)]
    | _ => data
    end
  else data.

Definition ice_value (v : Z) : Z := f32_sub (f32_mul v F_2) F_1.

(** [update] of each provider *)
Definition provider_update (thrust_factor : Z) (t : topics) (f : FunctionProvider) : FunctionProvider :=
  match f with
  | FunctionMotors data =>
    match t.(in_motors) with
    | Some m => FunctionMotors (mkMotors m.(am_timestamp_sample) m.(am_reversible_flags) (updateValues m.(am_reversible_flags) thrust_factor m.(am_control)))
    | None => f
    end
  | FunctionServos control => FunctionServos (default control t.(in_servos))
  | FunctionActuatorSet data => FunctionActuatorSet (foldl set_actuator data t.(in_commands))
  | FunctionLandingGear data =>
    match t.(in_landing_gear) with Some g => FunctionLandingGear (if g =? -1 then F_m1 else if g =? 1 then F_1 else data) | None => f end
  | FunctionLandingGearWheel data => FunctionLandingGearWheel (default data t.(in_landing_gear_wheel))
  | FunctionGripper data =>
    match t.(in_gripper) with Some g => FunctionGripper (if g =? 1 then F_m1 else if g =? 0 then F_1 else data) | None => f end
  | FunctionManualRC data =>
    match t.(in_manual) with Some (valid, values) => FunctionManualRC (if valid : bool then values else replicate 11 f32_nan) | None => f end
  | FunctionGimbal data => FunctionGimbal (default data t.(in_gimbal))
  | FunctionICEControl data =>
    match t.(in_ice) with
    | Some i => FunctionICEControl [ice_value (f32_of_int (b2z i.(ic_ignition_on))); ice_value i.(ic_throttle); ice_value i.(ic_choke); ice_value i.(ic_starter)]
    | None => f
    end
  | FunctionConstantMin | FunctionConstantMax | FunctionParachute => f
  end.

(** [value]; the index is in range for the functions of the table. *)
Definition provider_value (func : Z) (f : FunctionProvider) : Z :=
  let at_index l first := default f32_nan (zlookup l (func - first)) in
  match f with
  | FunctionConstantMin => F_m1
  | FunctionConstantMax => F_1
  | FunctionMotors data => at_index data.(am_control) Motor1
  | FunctionServos control => at_index control Servo1
  | FunctionActuatorSet data => at_index data Peripheral_via_Actuator_Set1
  | FunctionLandingGear data | FunctionLandingGearWheel data | FunctionGripper data => data
  | FunctionParachute => F_m1
  | FunctionManualRC data => at_index data RC_Roll
  | FunctionGimbal data => at_index data Gimbal_Roll
  | FunctionICEControl data => at_index data IC_Engine_Ignition
  end.

Definition defaultFailsafeValue (f : FunctionProvider) : Z :=
  match f with
  | FunctionConstantMin => F_m1
  | FunctionConstantMax | FunctionParachute => F_1
  | FunctionServos _ => 0
  | _ => f32_nan
  end.

(** [allowPrearmControl] (the board is no CAN node), [subscriptionCallback] and [reversible] *)
Definition allowPrearmControl (f : FunctionProvider) : bool := match f with FunctionMotors _ => false | _ => true end.
Definition hasSubscriptionCallback (f : FunctionProvider) : bool := match f with FunctionMotors _ | FunctionServos _ => true | _ => false end.
Definition reversible (func : Z) (f : FunctionProvider) : bool :=
  match f with FunctionMotors data => Z.testbit data.(am_reversible_flags) (func - Motor1) | _ => false end.

(** ** Actuator test *)
Record ActuatorTest := mkActuatorTest { _in_test_mode : bool; _next_timeout : Z; _current_outputs : list Z; _output_overridden : list bool }.

Definition actuator_test_reset : ActuatorTest := mkActuatorTest false 0 (replicate MAX_ACTUATORS f32_nan) (replicate MAX_ACTUATORS false).

Definition ACTION_DO_CONTROL : Z := 1.

(** The value of a test message: motors are scaled like the controls, servos are trimmed. *)
Definition test_value (thrust_factor : Z) (t : topics) (ts : actuator_test) : Z :=
  let value := ts.(ts_value) in
  let value :=
    if (Motor1 <=? ts.(ts_function)) && (ts.(ts_function) <=? MotorMax) then
      default f32_nan (head (updateValues (Z.shiftr (default 0 t.(last_motors_reversible)) (ts.(ts_function) - Motor1)) thrust_factor [value]))
    else value in
  if (Servo1 <=? ts.(ts_function)) && (ts.(ts_function) <=? ServoMax) then
    match zlookup (default (replicate 15 0) t.(last_servos_trim)) (ts.(ts_function) - Servo1) with
    | Some trim => f32_add value trim
    | None => value
    end
  else value.

(** A test message for the output [i]. *)
Definition test_output (now thrust_factor : Z) (t : topics) (ts : actuator_test) (i : nat) (a : ActuatorTest) : ActuatorTest :=
  let in_test_mode := ts.(ts_action) =? ACTION_DO_CONTROL in
  let a := if negb a.(_in_test_mode) && in_test_mode then
             mkActuatorTest true actuator_test_reset.(_next_timeout) actuator_test_reset.(_current_outputs) actuator_test_reset.(_output_overridden)
           else a in
  let overridden := <[i := in_test_mode]> a.(_output_overridden) in
  if in_test_mode then
    mkActuatorTest a.(_in_test_mode) (if 0 <? ts.(ts_timeout_ms) then u64 (now + u32 (ts.(ts_timeout_ms) * 1000)) else a.(_next_timeout))
      (<[i := test_value thrust_factor t ts]> a.(_current_outputs)) overridden
  else mkActuatorTest a.(_in_test_mode) a.(_next_timeout) (<[i := f32_nan]> a.(_current_outputs)) overridden.

(** The loop over the outputs: [functions] are the functions of the outputs from [i] on. *)
Fixpoint test_outputs (now thrust_factor : Z) (t : topics) (ts : actuator_test) (functions : list Z) (i : nat) (a : ActuatorTest) : ActuatorTest :=
  match functions with
  | [] => a
  | f :: functions' => test_outputs now thrust_factor t ts functions' (S i) (if f =? ts.(ts_function) then test_output now thrust_factor t ts i a else a)
  end.

Definition test_message (now thrust_factor : Z) (t : topics) (functions : list Z) (a : ActuatorTest) (ts : actuator_test) : ActuatorTest :=
  if (ts.(ts_timestamp) =? 0) || (100000 <? hrt_elapsed_time now ts.(ts_timestamp)) then a
  else test_outputs now thrust_factor t ts functions 0 a.

(** [ActuatorTest::update]; [functions] are the functions of the outputs in use. *)
Definition actuator_test_update (now thrust_factor : Z) (t : topics) (functions : list Z) (a : ActuatorTest) : ActuatorTest :=
  let a := foldl (test_message now thrust_factor t functions) a t.(in_tests) in
  let any_overridden := existsb id (take (length functions) a.(_output_overridden)) in
  let in_test_mode := a.(_in_test_mode) && any_overridden in
  let in_test_mode := in_test_mode && negb (negb (a.(_next_timeout) =? 0) && (a.(_next_timeout) <? now)) in
  mkActuatorTest in_test_mode a.(_next_timeout) a.(_current_outputs) a.(_output_overridden).

(** [overrideValues] *)
Definition overrideValues (outputs : list Z) (a : ActuatorTest) : list Z :=
  if a.(_in_test_mode) then take (length outputs) a.(_current_outputs) else outputs.

(** ** The outputs of a module *)
Record handles := mkHandles { h_function : bool; h_disarmed : bool; h_min : bool; h_center : bool; h_max : bool; h_failsafe : bool }.

(** An entry of the arrays of [MixingOutput]; [o_function] is the index of the provider that
    [_functions] points to, or none for a null pointer. *)
Record output := mkOutput {
  o_failsafe : Z; o_disarmed : Z; o_min : Z; o_center : Z; o_max : Z; o_current : Z; o_function : option nat; o_assignment : Z; o_handles : handles }.

Inductive OutputLimitState := OFF | RAMP | ON.
Inductive SchedulingPolicy := SchedulingDisabled | SchedulingAuto.

(** When the work item of the driver runs next, apart from callbacks. *)
Inductive Schedule := NotScheduled | ScheduledNow | ScheduledDelayed (delay : Z) | ScheduledOnInterval (interval : Z).

(** What the constructor and the setters of the driver fix. *)
Record config := mkConfig {
  _output_ramp_up : bool; _scheduling_policy : SchedulingPolicy; _support_esc_calibration : bool; _ignore_lockdown : bool; _max_num_outputs : nat;
  _max_topic_update_interval_us : Z; _lowrate_schedule_interval : Z; _rev_range_handle : bool }.

Record MixingOutput := mkMixing {
  _config : config; _outputs : list output; _reverse_output_mask : Z; _output_state : OutputLimitState; _output_time_armed : Z; _armed : actuator_armed; _throttle_armed : bool; _wq_switched : bool; _function_allocated : list FunctionProvider; _need_function_update : bool; _has_backup_schedule : bool; _actuator_test : ActuatorTest; _reversible_mask : Z; _was_all_disabled : bool; _subscription_callback : option nat; _thr_mdl_fac : Z; _schedule : Schedule; _callback_registered : bool }.

Definition set_outputs (x : _) (m : MixingOutput) : MixingOutput :=
  mkMixing m.(_config) x m.(_reverse_output_mask) m.(_output_state) m.(_output_time_armed) m.(_armed) m.(_throttle_armed) m.(_wq_switched) m.(_function_allocated) m.(_need_function_update) m.(_has_backup_schedule) m.(_actuator_test) m.(_reversible_mask) m.(_was_all_disabled) m.(_subscription_callback) m.(_thr_mdl_fac) m.(_schedule) m.(_callback_registered).
Definition set_reverse_output_mask (x : _) (m : MixingOutput) : MixingOutput :=
  mkMixing m.(_config) m.(_outputs) x m.(_output_state) m.(_output_time_armed) m.(_armed) m.(_throttle_armed) m.(_wq_switched) m.(_function_allocated) m.(_need_function_update) m.(_has_backup_schedule) m.(_actuator_test) m.(_reversible_mask) m.(_was_all_disabled) m.(_subscription_callback) m.(_thr_mdl_fac) m.(_schedule) m.(_callback_registered).
Definition set_output_state (x : _) (m : MixingOutput) : MixingOutput :=
  mkMixing m.(_config) m.(_outputs) m.(_reverse_output_mask) x m.(_output_time_armed) m.(_armed) m.(_throttle_armed) m.(_wq_switched) m.(_function_allocated) m.(_need_function_update) m.(_has_backup_schedule) m.(_actuator_test) m.(_reversible_mask) m.(_was_all_disabled) m.(_subscription_callback) m.(_thr_mdl_fac) m.(_schedule) m.(_callback_registered).
Definition set_output_time_armed (x : _) (m : MixingOutput) : MixingOutput :=
  mkMixing m.(_config) m.(_outputs) m.(_reverse_output_mask) m.(_output_state) x m.(_armed) m.(_throttle_armed) m.(_wq_switched) m.(_function_allocated) m.(_need_function_update) m.(_has_backup_schedule) m.(_actuator_test) m.(_reversible_mask) m.(_was_all_disabled) m.(_subscription_callback) m.(_thr_mdl_fac) m.(_schedule) m.(_callback_registered).
Definition set_armed (x : _) (m : MixingOutput) : MixingOutput :=
  mkMixing m.(_config) m.(_outputs) m.(_reverse_output_mask) m.(_output_state) m.(_output_time_armed) x m.(_throttle_armed) m.(_wq_switched) m.(_function_allocated) m.(_need_function_update) m.(_has_backup_schedule) m.(_actuator_test) m.(_reversible_mask) m.(_was_all_disabled) m.(_subscription_callback) m.(_thr_mdl_fac) m.(_schedule) m.(_callback_registered).
Definition set_throttle_armed (x : _) (m : MixingOutput) : MixingOutput :=
  mkMixing m.(_config) m.(_outputs) m.(_reverse_output_mask) m.(_output_state) m.(_output_time_armed) m.(_armed) x m.(_wq_switched) m.(_function_allocated) m.(_need_function_update) m.(_has_backup_schedule) m.(_actuator_test) m.(_reversible_mask) m.(_was_all_disabled) m.(_subscription_callback) m.(_thr_mdl_fac) m.(_schedule) m.(_callback_registered).
Definition set_wq_switched (x : _) (m : MixingOutput) : MixingOutput :=
  mkMixing m.(_config) m.(_outputs) m.(_reverse_output_mask) m.(_output_state) m.(_output_time_armed) m.(_armed) m.(_throttle_armed) x m.(_function_allocated) m.(_need_function_update) m.(_has_backup_schedule) m.(_actuator_test) m.(_reversible_mask) m.(_was_all_disabled) m.(_subscription_callback) m.(_thr_mdl_fac) m.(_schedule) m.(_callback_registered).
Definition set_function_allocated (x : _) (m : MixingOutput) : MixingOutput :=
  mkMixing m.(_config) m.(_outputs) m.(_reverse_output_mask) m.(_output_state) m.(_output_time_armed) m.(_armed) m.(_throttle_armed) m.(_wq_switched) x m.(_need_function_update) m.(_has_backup_schedule) m.(_actuator_test) m.(_reversible_mask) m.(_was_all_disabled) m.(_subscription_callback) m.(_thr_mdl_fac) m.(_schedule) m.(_callback_registered).
Definition set_need_function_update (x : _) (m : MixingOutput) : MixingOutput :=
  mkMixing m.(_config) m.(_outputs) m.(_reverse_output_mask) m.(_output_state) m.(_output_time_armed) m.(_armed) m.(_throttle_armed) m.(_wq_switched) m.(_function_allocated) x m.(_has_backup_schedule) m.(_actuator_test) m.(_reversible_mask) m.(_was_all_disabled) m.(_subscription_callback) m.(_thr_mdl_fac) m.(_schedule) m.(_callback_registered).
Definition set_has_backup_schedule (x : _) (m : MixingOutput) : MixingOutput :=
  mkMixing m.(_config) m.(_outputs) m.(_reverse_output_mask) m.(_output_state) m.(_output_time_armed) m.(_armed) m.(_throttle_armed) m.(_wq_switched) m.(_function_allocated) m.(_need_function_update) x m.(_actuator_test) m.(_reversible_mask) m.(_was_all_disabled) m.(_subscription_callback) m.(_thr_mdl_fac) m.(_schedule) m.(_callback_registered).
Definition set_actuator_test (x : _) (m : MixingOutput) : MixingOutput :=
  mkMixing m.(_config) m.(_outputs) m.(_reverse_output_mask) m.(_output_state) m.(_output_time_armed) m.(_armed) m.(_throttle_armed) m.(_wq_switched) m.(_function_allocated) m.(_need_function_update) m.(_has_backup_schedule) x m.(_reversible_mask) m.(_was_all_disabled) m.(_subscription_callback) m.(_thr_mdl_fac) m.(_schedule) m.(_callback_registered).
Definition set_reversible_mask (x : _) (m : MixingOutput) : MixingOutput :=
  mkMixing m.(_config) m.(_outputs) m.(_reverse_output_mask) m.(_output_state) m.(_output_time_armed) m.(_armed) m.(_throttle_armed) m.(_wq_switched) m.(_function_allocated) m.(_need_function_update) m.(_has_backup_schedule) m.(_actuator_test) x m.(_was_all_disabled) m.(_subscription_callback) m.(_thr_mdl_fac) m.(_schedule) m.(_callback_registered).
Definition set_was_all_disabled (x : _) (m : MixingOutput) : MixingOutput :=
  mkMixing m.(_config) m.(_outputs) m.(_reverse_output_mask) m.(_output_state) m.(_output_time_armed) m.(_armed) m.(_throttle_armed) m.(_wq_switched) m.(_function_allocated) m.(_need_function_update) m.(_has_backup_schedule) m.(_actuator_test) m.(_reversible_mask) x m.(_subscription_callback) m.(_thr_mdl_fac) m.(_schedule) m.(_callback_registered).
Definition set_subscription_callback (x : _) (m : MixingOutput) : MixingOutput :=
  mkMixing m.(_config) m.(_outputs) m.(_reverse_output_mask) m.(_output_state) m.(_output_time_armed) m.(_armed) m.(_throttle_armed) m.(_wq_switched) m.(_function_allocated) m.(_need_function_update) m.(_has_backup_schedule) m.(_actuator_test) m.(_reversible_mask) m.(_was_all_disabled) x m.(_thr_mdl_fac) m.(_schedule) m.(_callback_registered).
Definition set_thr_mdl_fac (x : _) (m : MixingOutput) : MixingOutput :=
  mkMixing m.(_config) m.(_outputs) m.(_reverse_output_mask) m.(_output_state) m.(_output_time_armed) m.(_armed) m.(_throttle_armed) m.(_wq_switched) m.(_function_allocated) m.(_need_function_update) m.(_has_backup_schedule) m.(_actuator_test) m.(_reversible_mask) m.(_was_all_disabled) m.(_subscription_callback) x m.(_schedule) m.(_callback_registered).
Definition set_schedule (x : _) (m : MixingOutput) : MixingOutput :=
  mkMixing m.(_config) m.(_outputs) m.(_reverse_output_mask) m.(_output_state) m.(_output_time_armed) m.(_armed) m.(_throttle_armed) m.(_wq_switched) m.(_function_allocated) m.(_need_function_update) m.(_has_backup_schedule) m.(_actuator_test) m.(_reversible_mask) m.(_was_all_disabled) m.(_subscription_callback) m.(_thr_mdl_fac) x m.(_callback_registered).
Definition set_callback_registered (x : _) (m : MixingOutput) : MixingOutput :=
  mkMixing m.(_config) m.(_outputs) m.(_reverse_output_mask) m.(_output_state) m.(_output_time_armed) m.(_armed) m.(_throttle_armed) m.(_wq_switched) m.(_function_allocated) m.(_need_function_update) m.(_has_backup_schedule) m.(_actuator_test) m.(_reversible_mask) m.(_was_all_disabled) m.(_subscription_callback) m.(_thr_mdl_fac) m.(_schedule) x.

(** ** Parameters

    [p_out f i] is the value of parameter [f] of output [i], none if there is no such
    parameter. *)
Inductive out_param := P_FUNC | P_DIS | P_MIN | P_CENT | P_MAX | P_FAIL.
Record params := mkParams { p_out : out_param -> nat -> option Z; p_rev : option Z; p_thr_mdl_fac : Z }.

(** [param_get] through a handle, which is invalid if [h] is false. *)
Definition param_value (pr : params) (h : bool) (f : out_param) (i : nat) : option Z := if h then pr.(p_out) f i else None.

Definition update_output_params (pr : params) (i : nat) (o : output) : output :=
  let get h f old := match param_value pr (h o.(o_handles)) f i with Some v => u16 v | None => old end in
  let disarmed := get h_disarmed P_DIS o.(o_disarmed) in
  let min := get h_min P_MIN o.(o_min) in
  let center := get h_center P_CENT o.(o_center) in
  let max := get h_max P_MAX o.(o_max) in
  let '(min, max) := if max <? min then (max, min) else (min, max) in
  mkOutput (get h_failsafe P_FAIL o.(o_failsafe)) disarmed min center max o.(o_current) o.(o_function) o.(o_assignment) o.(o_handles).

Definition function_changed (pr : params) (i : nat) (o : output) : bool :=
  match param_value pr o.(o_handles).(h_function) P_FUNC i with Some v => negb (v =? o.(o_assignment)) | None => false end.

(** Applies [f] to the outputs that are in use. *)
Definition map_used (m : MixingOutput) (f : nat -> output -> output) : list output :=
  imap f (take m.(_config).(_max_num_outputs) m.(_outputs)) ++ drop m.(_config).(_max_num_outputs) m.(_outputs).

Definition used (m : MixingOutput) : list output := take m.(_config).(_max_num_outputs) m.(_outputs).

Definition updateParams (pr : params) (m : MixingOutput) : MixingOutput :=
  let changed := existsb id (imap (function_changed pr) (used m)) in
  let m := set_outputs (map_used m (update_output_params pr)) (set_thr_mdl_fac pr.(p_thr_mdl_fac) m) in
  let m := set_reverse_output_mask (match (if m.(_config).(_rev_range_handle) then pr.(p_rev) else None) with Some v => u16 v | None => 0 end) m in
  if changed then set_need_function_update true m else m.

Definition UINT16_MAX : Z := 65535.

(** The constructor: the handles are valid where the parameters exist. *)
Definition init_handles (pr : params) (i : nat) : handles :=
  let found f := bool_decide (is_Some (pr.(p_out) f i)) in
  mkHandles (found P_FUNC) (found P_DIS) (found P_MIN) (found P_CENT) (found P_MAX) (found P_FAIL).

Definition armed_init : actuator_armed := mkArmed false false false false false false.

Definition MixingOutput_new (pr : params) (max_num_outputs : nat) (policy : SchedulingPolicy) (support_esc_calibration ramp_up : bool) : MixingOutput :=
  let n := Nat.min max_num_outputs MAX_ACTUATORS in
  let no_handles := mkHandles false false false false false false in
  let outputs := imap (λ i _, mkOutput UINT16_MAX 0 0 0 0 0 None Disabled (if (i <? n)%nat then init_handles pr i else no_handles)) (replicate MAX_ACTUATORS tt) in
  updateParams pr
    (mkMixing (mkConfig ramp_up policy support_esc_calibration false n 0 300000 (bool_decide (is_Some pr.(p_rev)))) outputs 0 OFF 0 armed_init
       false false [] true false actuator_test_reset 0 false None 0 NotScheduled false).

(** [setAll...Values]: the values no longer follow the parameters. *)
Definition setAllMinValues (value : Z) (m : MixingOutput) : MixingOutput :=
  set_outputs (map (λ o, mkOutput o.(o_failsafe) o.(o_disarmed) value o.(o_center) o.(o_max) o.(o_current) o.(o_function) o.(o_assignment)
    (mkHandles o.(o_handles).(h_function) o.(o_handles).(h_disarmed) false o.(o_handles).(h_center) o.(o_handles).(h_max) o.(o_handles).(h_failsafe))) m.(_outputs)) m.
Definition setAllCenterValues (value : Z) (m : MixingOutput) : MixingOutput :=
  set_outputs (map (λ o, mkOutput o.(o_failsafe) o.(o_disarmed) o.(o_min) value o.(o_max) o.(o_current) o.(o_function) o.(o_assignment)
    (mkHandles o.(o_handles).(h_function) o.(o_handles).(h_disarmed) o.(o_handles).(h_min) false o.(o_handles).(h_max) o.(o_handles).(h_failsafe))) m.(_outputs)) m.
Definition setAllMaxValues (value : Z) (m : MixingOutput) : MixingOutput :=
  set_outputs (map (λ o, mkOutput o.(o_failsafe) o.(o_disarmed) o.(o_min) o.(o_center) value o.(o_current) o.(o_function) o.(o_assignment)
    (mkHandles o.(o_handles).(h_function) o.(o_handles).(h_disarmed) o.(o_handles).(h_min) o.(o_handles).(h_center) false o.(o_handles).(h_failsafe))) m.(_outputs)) m.
Definition setAllFailsafeValues (value : Z) (m : MixingOutput) : MixingOutput :=
  set_outputs (map (λ o, mkOutput value o.(o_disarmed) o.(o_min) o.(o_center) o.(o_max) o.(o_current) o.(o_function) o.(o_assignment)
    (mkHandles o.(o_handles).(h_function) o.(o_handles).(h_disarmed) o.(o_handles).(h_min) o.(o_handles).(h_center) o.(o_handles).(h_max) false)) m.(_outputs)) m.
Definition setAllDisarmedValues (value : Z) (m : MixingOutput) : MixingOutput :=
  set_outputs (map (λ o, mkOutput o.(o_failsafe) value o.(o_min) o.(o_center) o.(o_max) o.(o_current) o.(o_function) o.(o_assignment)
    (mkHandles o.(o_handles).(h_function) false o.(o_handles).(h_min) o.(o_handles).(h_center) o.(o_handles).(h_max) o.(o_handles).(h_failsafe))) m.(_outputs)) m.

(** [minValue(i) = value] *)
Definition setMinValue (i : nat) (value : Z) (m : MixingOutput) : MixingOutput :=
  set_outputs (alter (λ o, mkOutput o.(o_failsafe) o.(o_disarmed) value o.(o_center) o.(o_max) o.(o_current) o.(o_function) o.(o_assignment) o.(o_handles)) i m.(_outputs)) m.

(** [disableFunction] *)
Definition disableFunction (i : nat) (m : MixingOutput) : MixingOutput :=
  set_need_function_update true
    (set_outputs (alter (λ o, mkOutput o.(o_failsafe) o.(o_disarmed) o.(o_min) o.(o_center) o.(o_max) o.(o_current) o.(o_function) o.(o_assignment)
      (mkHandles false o.(o_handles).(h_disarmed) o.(o_handles).(h_min) o.(o_handles).(h_center) o.(o_handles).(h_max) o.(o_handles).(h_failsafe))) i m.(_outputs)) m).

Definition unregister (m : MixingOutput) : MixingOutput :=
  match m.(_subscription_callback) with Some _ => set_callback_registered false m | None => m end.

Definition clear_function (o : output) : output :=
  mkOutput o.(o_failsafe) o.(o_disarmed) o.(o_min) o.(o_center) o.(o_max) o.(o_current) None o.(o_assignment) o.(o_handles).

Definition cleanupFunctions (m : MixingOutput) : MixingOutput :=
  let m := set_subscription_callback None (unregister m) in
  set_outputs (map clear_function m.(_outputs)) (set_function_allocated [] m).

(** The setters of the configuration. *)
Definition set_config (c : config) (m : MixingOutput) : MixingOutput :=
  mkMixing c m.(_outputs) m.(_reverse_output_mask) m.(_output_state) m.(_output_time_armed) m.(_armed) m.(_throttle_armed) m.(_wq_switched) m.(_function_allocated)
    m.(_need_function_update) m.(_has_backup_schedule) m.(_actuator_test) m.(_reversible_mask) m.(_was_all_disabled) m.(_subscription_callback) m.(_thr_mdl_fac)
    m.(_schedule) m.(_callback_registered).
Definition setIgnoreLockdown (ignore : bool) (m : MixingOutput) : MixingOutput :=
  let c := m.(_config) in
  set_config (mkConfig c.(_output_ramp_up) c.(_scheduling_policy) c.(_support_esc_calibration) ignore c.(_max_num_outputs) c.(_max_topic_update_interval_us)
    c.(_lowrate_schedule_interval) c.(_rev_range_handle)) m.
Definition setMaxNumOutputs (n : nat) (m : MixingOutput) : MixingOutput :=
  let c := m.(_config) in
  set_config (mkConfig c.(_output_ramp_up) c.(_scheduling_policy) c.(_support_esc_calibration) c.(_ignore_lockdown) (Nat.min n c.(_max_num_outputs))
    c.(_max_topic_update_interval_us) c.(_lowrate_schedule_interval) c.(_rev_range_handle)) m.
Definition setMaxTopicUpdateRate (interval : Z) (m : MixingOutput) : MixingOutput :=
  let c := m.(_config) in
  set_config (mkConfig c.(_output_ramp_up) c.(_scheduling_policy) c.(_support_esc_calibration) c.(_ignore_lockdown) c.(_max_num_outputs) interval
    c.(_lowrate_schedule_interval) c.(_rev_range_handle)) m.
Definition setLowrateSchedulingInterval (interval : Z) (m : MixingOutput) : MixingOutput :=
  let c := m.(_config) in
  set_config (mkConfig c.(_output_ramp_up) c.(_scheduling_policy) c.(_support_esc_calibration) c.(_ignore_lockdown) c.(_max_num_outputs)
    c.(_max_topic_update_interval_us) interval c.(_rev_range_handle)) m.

(** ** Assignment of the functions *)

(** The first entry of the table that has the function, and its position. *)
Fixpoint find_provider (func : Z) (table : list (Z * Z * FunctionProvider)) (p : nat) : option (nat * FunctionProvider) :=
  match table with
  | [] => None
  | (min_func, max_func, f) :: table' => if (min_func <=? func) && (func <=? max_func) then Some (p, f) else find_provider func table' (S p)
  end.

(** The variables of the loop over the outputs: the providers with their positions in the
    table, the provider whose topic schedules the module and its position. *)
Record assignment := mkAssignment {
  as_allocated : list FunctionProvider; as_indexes : list nat; as_callback : option nat; as_callback_index : Z; as_all_disabled : bool }.
Definition assignment_init : assignment := mkAssignment [] [] None (2 ^ 31 - 1) true.

Fixpoint position (p : nat) (l : list nat) (k : nat) : option nat :=
  match l with [] => None | q :: l' => if (q =? p)%nat then Some k else position p l' (S k) end.

(** The provider of a function; [alloc] tells whether a new one can be allocated. *)
Definition assign_provider (alloc : bool) (func : Z) (s : assignment) : option nat * assignment :=
  match find_provider func all_function_providers 0 with
  | None => (None, s)
  | Some (p, f) =>
    match position p s.(as_indexes) 0 with
    | Some k => (Some k, mkAssignment s.(as_allocated) s.(as_indexes) s.(as_callback) s.(as_callback_index) false)
    | None =>
      if alloc then
        let k := length s.(as_allocated) in
        let precedence := (Z.of_nat p <? s.(as_callback_index)) && hasSubscriptionCallback f in
        (Some k, mkAssignment (s.(as_allocated) ++ [f]) (s.(as_indexes) ++ [p]) (if precedence then Some k else s.(as_callback))
                   (if precedence then Z.of_nat p else s.(as_callback_index)) false)
      else (None, mkAssignment s.(as_allocated) s.(as_indexes) s.(as_callback) s.(as_callback_index) false)
    end
  end.

(** The loop; the outputs not in use keep the null pointer that the cleanup left. *)
Fixpoint assign_outputs (pr : params) (alloc : nat -> bool) (outputs : list output) (i n : nat) (s : assignment) : list output * assignment :=
  match outputs, n with
  | o :: outputs', S n' =>
    let func := default Disabled (param_value pr o.(o_handles).(h_function) P_FUNC i) in
    let '(k, s) := assign_provider (alloc i) func s in
    let '(rest, s) := assign_outputs pr alloc outputs' (S i) n' s in
    (mkOutput o.(o_failsafe) o.(o_disarmed) o.(o_min) o.(o_center) o.(o_max) o.(o_current) k func o.(o_handles) :: rest, s)
  | _, _ => (outputs, s)
  end.

(** Whether the parameters assign a motor to some output. *)
Definition motor_requested (pr : params) (m : MixingOutput) : bool :=
  existsb id (imap (λ i o, match param_value pr o.(o_handles).(h_function) P_FUNC i with
                           | Some f => (Motor1 <=? f) && (f <=? MotorMax)
                           | None => false
                           end) (used m)).

(** The driver that owns the module. It sees the module when it is called back. *)
Class OutputModuleInterface (D : Type) := {
  updateOutputs : MixingOutput -> list Z -> bool -> D -> option (bool * D);
  mixerChanged : MixingOutput -> D -> option D }.

(** ** Limits *)

(** [math::interpolate] and [math::interpolateNXY] for three points *)
Definition interpolate (value x_low x_high y_low y_high : Z) : Z :=
  if f32_le value x_low then y_low
  else if f32_lt x_high value then y_high
  else
    let a := f32_divide (f32_sub y_high y_low) (f32_sub x_high x_low) in
    let b := f32_sub y_low (f32_mul a x_low) in
    f32_add (f32_mul a value) b.

Definition interpolateNXY (value x0 x1 x2 y0 y1 y2 : Z) : Z :=
  if f32_lt x1 value then interpolate value x1 x2 y1 y2 else interpolate value x0 x1 y0 y1.

Definition has_center (o : output) : bool :=
  (((Servo1 <=? o.(o_assignment)) && (o.(o_assignment) <=? ServoMax)) || (o.(o_assignment) =? Landing_Gear_Wheel)
   || ((Gimbal_Roll <=? o.(o_assignment)) && (o.(o_assignment) <=? Gimbal_Yaw)))
  && o.(o_handles).(h_center) && (800 <=? o.(o_center)) && (o.(o_center) <=? 2200).

Definition output_limit_calc_single (reverse_mask : Z) (i : nat) (o : output) (value : Z) : Z :=
  if negb (f32_is_finite value) then f32_of_int o.(o_disarmed)
  else
    let value := if Z.testbit reverse_mask (Z.of_nat i) then f32_mul F_m1 value else value in
    if has_center o then interpolateNXY value F_m1 0 F_1 (f32_of_int o.(o_min)) (f32_of_int o.(o_center)) (f32_of_int o.(o_max))
    else interpolate value F_m1 F_1 (f32_of_int o.(o_min)) (f32_of_int o.(o_max)).

Definition with_current (x : Z) (o : output) : output :=
  mkOutput o.(o_failsafe) o.(o_disarmed) o.(o_min) o.(o_center) o.(o_max) x o.(o_function) o.(o_assignment) o.(o_handles).

Definition RAMP_TIME_US : Z := 500000.

(** The state machine of [output_limit_calc]. *)
Definition next_limit_state (now : Z) (armed : bool) (m : MixingOutput) : OutputLimitState * Z :=
  match m.(_output_state) with
  | OFF => if armed then (if m.(_config).(_output_ramp_up) then RAMP else ON, now) else (OFF, m.(_output_time_armed))
  | RAMP =>
    (if negb armed then OFF else if RAMP_TIME_US <=? hrt_elapsed_time now m.(_output_time_armed) then ON else RAMP, m.(_output_time_armed))
  | ON => (if negb armed then OFF else ON, m.(_output_time_armed))
  end.

Definition isPrearmed (m : MixingOutput) : bool :=
  (m.(_armed).(ar_prearmed) && negb m.(_armed).(ar_armed)) || m.(_armed).(ar_in_esc_calibration_mode).

(** The output of a channel in a state. *)
Definition limited_value (now : Z) (state : OutputLimitState) (m : MixingOutput) (i : nat) (o : output) (value : Z) : Z :=
  match state with
  | OFF => f32_of_int o.(o_disarmed)
  | RAMP =>
    let progress := f32_divide (f32_of_int (hrt_elapsed_time now m.(_output_time_armed))) (f32_of_int RAMP_TIME_US) in
    let progress := if f32_lt F_1 progress then F_1 else progress in
    let desired_output := output_limit_calc_single m.(_reverse_output_mask) i o value in
    f32_add (f32_of_int o.(o_disarmed)) (f32_mul progress (f32_sub desired_output (f32_of_int o.(o_disarmed))))
  | ON => output_limit_calc_single m.(_reverse_output_mask) i o value
  end.

Definition output_limit_calc (now : Z) (armed : bool) (outputs : list Z) (m : MixingOutput) : MixingOutput :=
  let '(state, time_armed) := next_limit_state now armed m in
  let m := set_output_time_armed time_armed (set_output_state state m) in
  let local_limit_state := if isPrearmed m then ON else state in
  set_outputs (map_used m (λ i o, with_current (limited_value now local_limit_state m i o (default f32_nan (outputs !! i))) o)) m.

Definition provider_of (m : MixingOutput) (o : output) : option FunctionProvider := k ← o.(o_function); m.(_function_allocated) !! k.

Definition actualFailsafeValue (m : MixingOutput) (i : nat) (o : output) : Z :=
  if o.(o_failsafe) =? UINT16_MAX then
    output_limit_calc_single m.(_reverse_output_mask) i o (match provider_of m o with Some f => defaultFailsafeValue f | None => f32_nan end)
  else f32_of_int o.(o_failsafe).

(** The calibration range for an output that is at its minimum or maximum. *)
Definition calibration_value (o : output) : Z :=
  let x := if f32_lt (f32_abs_diff o.(o_current) (f32_of_int o.(o_min))) F_HALF then f32_of_int 1000 else o.(o_current) in
  if f32_lt (f32_abs_diff x (f32_of_int o.(o_max))) F_HALF then f32_of_int 2000 else x.

(** The values that [limitAndUpdateOutputs] gives to the driver. *)
Definition limit_outputs (now : Z) (outputs : list Z) (m : MixingOutput) : MixingOutput :=
  let m :=
    if m.(_armed).(ar_lockdown) || m.(_armed).(ar_kill) then set_outputs (map_used m (λ _ o, with_current (f32_of_int o.(o_disarmed)) o)) m
    else if m.(_armed).(ar_termination) then set_outputs (map_used m (λ i o, with_current (actualFailsafeValue m i o) o)) m
    else output_limit_calc now (m.(_throttle_armed) || m.(_actuator_test).(_in_test_mode)) outputs m in
  if m.(_armed).(ar_in_esc_calibration_mode) then set_outputs (map_used m (λ _ o, with_current (calibration_value o) o)) m else m.

(** The message of [_armed_sub]. *)
Definition update_armed (msg : option actuator_armed) (m : MixingOutput) : MixingOutput :=
  match msg with
  | None => m
  | Some a =>
    let a := mkArmed a.(ar_armed) a.(ar_prearmed) (if m.(_config).(_ignore_lockdown) then false else a.(ar_lockdown)) a.(ar_kill) a.(ar_termination)
               (a.(ar_in_esc_calibration_mode) && m.(_config).(_support_esc_calibration)) in
    set_throttle_armed ((a.(ar_armed) && negb a.(ar_lockdown)) || a.(ar_in_esc_calibration_mode)) (set_armed a m)
  end.

Definition output_value (m : MixingOutput) (o : output) : Z :=
  match provider_of m o with
  | Some f => if m.(_armed).(ar_armed) || (m.(_armed).(ar_prearmed) && allowPrearmControl f) then provider_value o.(o_assignment) f else f32_nan
  | None => f32_nan
  end.

Definition output_reversible (m : MixingOutput) (i : nat) (o : output) : Z :=
  Z.shiftl (b2z (match provider_of m o with Some f => reversible o.(o_assignment) f | None => false end)) (Z.of_nat i).

Definition all_disabled (m : MixingOutput) : bool := forallb (λ o, match provider_of m o with Some _ => false | None => true end) (used m).

(** [update] up to the values of the functions. *)
Definition update_inputs (now : Z) (t : topics) (m : MixingOutput) : MixingOutput :=
  let m := update_armed t.(in_armed) m in
  let m := set_function_allocated (map (provider_update m.(_thr_mdl_fac) t) m.(_function_allocated)) m in
  let m := if m.(_has_backup_schedule) then set_schedule (ScheduledDelayed 50000) m else m in
  let m := set_actuator_test (actuator_test_update now m.(_thr_mdl_fac) t (map o_assignment (used m)) m.(_actuator_test)) m in
  set_reversible_mask (foldr Z.lor 0 (imap (output_reversible m) (used m))) m.

(** The values before they are limited. *)
Definition raw_values (m : MixingOutput) : list Z :=
  let outputs := map (output_value m) (used m) in
  if negb m.(_armed).(ar_armed) && negb m.(_armed).(ar_kill) then overrideValues outputs m.(_actuator_test) else outputs.

(** [update] up to the call of the driver: whether outputs are sent, and the module. *)
Definition update_values (now : Z) (t : topics) (m : MixingOutput) : bool * MixingOutput :=
  let m := update_inputs now t m in
  if negb (all_disabled m) || negb m.(_was_all_disabled) then (true, limit_outputs now (raw_values m) m) else (false, m).

Definition current_values (m : MixingOutput) : list Z := map o_current (used m).

Section module.
Context {D : Type} `{OutputModuleInterface D}.

(** [MixingOutput::update]; the result has the published outputs. *)
Definition update (now : Z) (t : topics) (has_updates : bool) (m : MixingOutput) (d : D) : option (option (list Z) * MixingOutput * D) :=
  let '(send, m) := update_values now t m in
  let finish (m : MixingOutput) := set_was_all_disabled (all_disabled m) m in
  if send then
    '(handled, d) ← updateOutputs m (current_values m) has_updates d;
    Some (if (handled : bool) then Some (current_values m) else None, finish m, d)
  else Some (None, finish m, d).

(** [updateSubscriptions]; [change_wq] and [register] tell whether the work queue can be
    changed and the callback be registered. *)
Definition updateSubscriptions (pr : params) (alloc : nat -> bool) (change_wq register allow_wq_switch : bool) (m : MixingOutput) (d : D)
    : option (bool * MixingOutput * D) :=
  if negb m.(_need_function_update) || m.(_armed).(ar_armed) then Some (false, m, d)
  else
    let auto := match m.(_config).(_scheduling_policy) with SchedulingAuto => true | SchedulingDisabled => false end in
    let m := set_has_backup_schedule false m in
    let m := if auto then set_schedule NotScheduled (unregister m) else m in
    if auto && allow_wq_switch && negb m.(_wq_switched) && motor_requested pr m && change_wq then
      Some (false, set_schedule ScheduledNow (set_wq_switched true m), d)
    else
      let m := cleanupFunctions m in
      let '(outputs, s) := assign_outputs pr alloc m.(_outputs) 0 m.(_config).(_max_num_outputs) assignment_init in
      let m := set_outputs outputs (set_function_allocated s.(as_allocated) (set_subscription_callback s.(as_callback) m)) in
      let fixed_rate := if 4000 <? m.(_config).(_max_topic_update_interval_us) then m.(_config).(_max_topic_update_interval_us) else 4000 in
      let m :=
        if auto then
          match s.(as_callback) with
          | Some _ =>
            if register then set_schedule (ScheduledDelayed 50000) (set_has_backup_schedule true (set_callback_registered true m))
            else set_schedule (ScheduledOnInterval fixed_rate) m
          | None =>
            if s.(as_all_disabled) then set_schedule (ScheduledOnInterval m.(_config).(_lowrate_schedule_interval)) m
            else set_schedule (ScheduledOnInterval fixed_rate) m
          end
        else m in
      let m := set_actuator_test actuator_test_reset (set_need_function_update false m) in
      d ← mixerChanged m d;
      Some (true, m, d).
End module.

(** [isMotor] and [outputFunction] *)
Definition isMotor (m : MixingOutput) (i : nat) : bool :=
  match m.(_outputs) !! i with
  | Some o => match o.(o_function) with Some _ => (Motor1 <=? o.(o_assignment)) && (o.(o_assignment) <=? MotorMax) | None => false end
  | None => false
  end.
Definition outputFunction (m : MixingOutput) (i : nat) : Z := from_option o_assignment Disabled (m.(_outputs) !! i).

(** ** The range of the outputs *)
Lemma F_1_spec : f32_fin F_1 ∧ f32_units F_1 = 2 ^ 149.
Proof. apply (of_int_spec 1). lia. Qed.
Lemma F_m1_spec : f32_fin F_m1 ∧ f32_units F_m1 = - 2 ^ 149.
Proof. apply (of_int_spec (-1)). lia. Qed.

Lemma lt_units a b : f32_fin a -> f32_fin b -> f32_lt a b = true ↔ f32_units a < f32_units b.
Proof.
  intros Ha Hb. unfold f32_lt. rewrite (proj1 (fin_not_nan a Ha)), (proj1 (fin_not_nan b Hb)). cbn [negb andb]. rewrite Z.ltb_lt.
  pose proof (units_order b a Hb Ha). lia.
Qed.
Lemma le_units a b : f32_fin a -> f32_fin b -> f32_le a b = true ↔ f32_units a <= f32_units b.
Proof.
  intros Ha Hb. unfold f32_le. rewrite (proj1 (fin_not_nan a Ha)), (proj1 (fin_not_nan b Hb)). cbn [negb andb]. rewrite Z.leb_le.
  by rewrite (units_order a b Ha Hb).
Qed.

(** The slope and the offset of the interpolation are exact. *)
Lemma interpolation_line lo hi : 0 <= lo <= hi -> hi < 2 ^ 16 ->
  let a := f32_divide (f32_sub (f32_of_int hi) (f32_of_int lo)) (f32_sub F_1 F_m1) in
  let b := f32_sub (f32_of_int lo) (f32_mul a F_m1) in
  f32_fin a ∧ f32_units a = (hi - lo) * 2 ^ 148 ∧ f32_fin b ∧ f32_units b = (hi + lo) * 2 ^ 148.
Proof.
  intros Hlo Hhi. destruct (of_int_spec lo ltac:(lia)) as [Fl Ul]. destruct (of_int_spec hi ltac:(lia)) as [Fh Uh].
  destruct (of_int_spec (hi - lo) ltac:(lia)) as [Fd Ud].
  destruct (f32_sub_exact (f32_of_int hi) (f32_of_int lo) (f32_of_int (hi - lo)) Fh Fl Fd ltac:(lia)) as [Fs Us].
  assert (Hdiv : f32_divide (f32_sub (f32_of_int hi) (f32_of_int lo)) (f32_sub F_1 F_m1) = f32_div (f32_sub (f32_of_int hi) (f32_of_int lo)) (f32_of_int 2)).
  { unfold f32_divide. change (f32_sub F_1 F_m1) with (f32_of_int 2). destruct (fin_not_nan _ Fs) as [-> ->]. change (f32_is_nan (f32_of_int 2)) with false.
    change (f32_is_inf (f32_of_int 2)) with false. change (f32_mag (f32_of_int 2) =? 0) with false. reflexivity. }
  cbv zeta. rewrite Hdiv. destruct (f32_half_exact _ (hi - lo) Fs ltac:(lia) ltac:(lia)) as [Fa Ua]. set (a := f32_div _ _) in *.
  destruct (of_half_spec (lo - hi) ltac:(lia)) as [Fn Un]. destruct (of_half_spec (hi + lo) ltac:(lia)) as [Fb Ub]. destruct F_m1_spec as [Fm Um].
  destruct (f32_mul_between (f32_of_half (lo - hi)) a F_m1 (f32_of_half (lo - hi)) Fn Fa Fm Fn) as [Fp Up].
  { rewrite Ua, Um, Un. change (2 ^ 149) with (2 * 2 ^ 148). nia. }
  destruct (f32_sub_exact (f32_of_int lo) (f32_mul a F_m1) (f32_of_half (hi + lo)) Fl Fp Fb) as [Fq Uq].
  { rewrite Ul, Ub. change (2 ^ 149) with (2 * 2 ^ 148). lia. }
  split; [done|]. split; [done|]. split; [done|]. by rewrite Uq, Ub.
Qed.

Lemma interpolate_bounds value lo hi : f32_fin value -> 0 <= lo <= hi -> hi < 2 ^ 16 ->
  let r := interpolate value F_m1 F_1 (f32_of_int lo) (f32_of_int hi) in f32_fin r ∧ lo * 2 ^ 149 <= f32_units r <= hi * 2 ^ 149.
Proof.
  intros Hv Hlo Hhi. destruct (of_int_spec lo ltac:(lia)) as [Fl Ul]. destruct (of_int_spec hi ltac:(lia)) as [Fh Uh]. destruct F_1_spec as [F1 U1]. destruct F_m1_spec as [Fm Um].
  pose proof (le_units value F_m1 Hv Fm) as Hle. pose proof (lt_units F_1 value F1 Hv) as Hlt.
  cbv zeta. unfold interpolate. destruct (f32_le value F_m1); [split; [done|lia]|]. destruct (f32_lt F_1 value); [split; [done|lia]|].
  assert (Hr : - 2 ^ 149 <= f32_units value <= 2 ^ 149).
  { destruct (Z.le_gt_cases (f32_units value) (f32_units F_m1)) as [H|H]; [by apply Hle in H|]. destruct (Z.lt_ge_cases (f32_units F_1) (f32_units value)) as [H'|H']; [by apply Hlt in H'|]. lia. }
  destruct (interpolation_line lo hi Hlo Hhi) as (Fa & Ua & Fb & Ub). set (a := f32_divide _ _) in *. set (b := f32_sub (f32_of_int lo) _) in *. clearbody a b.
  destruct (of_half_spec (hi - lo) ltac:(lia)) as [Fd Ud]. destruct (of_half_spec (lo - hi) ltac:(lia)) as [Fn Un].
  destruct (f32_mul_between (f32_of_half (lo - hi)) a value (f32_of_half (hi - lo)) Fn Fa Hv Fd) as [Fp Up].
  { rewrite Ua, Un, Ud. set (U := 2 ^ 149) in *. set (V := 2 ^ 148) in *. assert (0 < V) by done. replace ((lo - hi) * V) with (- ((hi - lo) * V)) by ring.
    assert (0 <= (hi - lo) * V) by nia. set (P := (hi - lo) * V) in *. clearbody P U V. nia. }
  rewrite Un, Ud in Up. assert (E2 : 2 ^ 149 = 2 * 2 ^ 148) by done.
  destruct (f32_add_between (f32_of_int lo) (f32_mul a value) b (f32_of_int hi) Fl Fp Fb Fh) as [Fq Uq]; [rewrite Ul, Uh, Ub; lia|].
  split; [done|]. lia.
Qed.

(** More control never gives less output. *)
Lemma interpolate_mono x y lo hi : f32_fin x -> f32_fin y -> 0 <= lo <= hi -> hi < 2 ^ 16 -> f32_units x <= f32_units y ->
  f32_units (interpolate x F_m1 F_1 (f32_of_int lo) (f32_of_int hi)) <= f32_units (interpolate y F_m1 F_1 (f32_of_int lo) (f32_of_int hi)).
Proof.
  intros Hx Hy Hlo Hhi Hxy. destruct (interpolate_bounds x lo hi Hx Hlo Hhi) as [Fx Bx]. destruct (interpolate_bounds y lo hi Hy Hlo Hhi) as [Fy By].
  destruct (of_int_spec lo ltac:(lia)) as [Fl Ul]. destruct (of_int_spec hi ltac:(lia)) as [Fh Uh]. destruct F_1_spec as [F1 U1]. destruct F_m1_spec as [Fm Um].
  pose proof (le_units x F_m1 Hx Fm) as Lx. pose proof (lt_units F_1 x F1 Hx) as Gx. pose proof (le_units y F_m1 Hy Fm) as Ly. pose proof (lt_units F_1 y F1 Hy) as Gy.
  unfold interpolate in *. destruct (f32_le x F_m1); [lia|]. destruct (f32_le y F_m1); [pose proof (proj1 Ly eq_refl); discriminate (proj2 Lx ltac:(lia))|].
  destruct (f32_lt F_1 y); [lia|]. destruct (f32_lt F_1 x); [pose proof (proj1 Gx eq_refl); discriminate (proj2 Gy ltac:(lia))|].
  destruct (interpolation_line lo hi Hlo Hhi) as (Fa & Ua & Fb & Ub). cbv zeta in *. set (a := f32_divide _ _) in *. set (b := f32_sub (f32_of_int lo) _) in *. clearbody a b.
  assert (Hin : ∀ v, f32_fin v -> - 2 ^ 149 <= f32_units v <= 2 ^ 149 -> f32_fin (f32_mul a v)).
  { intros v Hv Hr. destruct (of_half_spec (hi - lo) ltac:(lia)) as [Fd Ud]. destruct (of_half_spec (lo - hi) ltac:(lia)) as [Fn Un].
    refine (proj1 (f32_mul_between (f32_of_half (lo - hi)) a v (f32_of_half (hi - lo)) Fn Fa Hv Fd _)).
    rewrite Ua, Un, Ud. set (U := 2 ^ 149) in *. set (V := 2 ^ 148) in *. assert (0 < V) by done. replace ((lo - hi) * V) with (- ((hi - lo) * V)) by ring.
    assert (0 <= (hi - lo) * V) by nia. set (P := (hi - lo) * V) in *. clearbody P U V. nia. }
  assert (Hrx : - 2 ^ 149 <= f32_units x).
  { destruct (Z.le_gt_cases (f32_units x) (f32_units F_m1)) as [H|H]; [discriminate (proj2 Lx H)|]. lia. }
  assert (Hry : f32_units y <= 2 ^ 149).
  { destruct (Z.lt_ge_cases (f32_units F_1) (f32_units y)) as [H|H]; [discriminate (proj2 Gy H)|]. lia. }
  assert (0 <= f32_units a) by (rewrite Ua; assert (0 < 2 ^ 148) by done; nia).
  assert (Mx : f32_fin (f32_mul a x)) by (apply Hin; [exact Hx|lia]). assert (My : f32_fin (f32_mul a y)) by (apply Hin; [exact Hy|lia]).
  exact (f32_add_mono _ _ b Mx My Fb (f32_mul_mono a x y Fa Hx Hy H Hxy Mx My) Fx Fy).
Qed.

(** Without a centre point the output of a channel is the disarmed value, or is within the
    limits of the channel. *)
Lemma output_limit_range mask i o value : f32_ok value -> has_center o = false -> 0 <= o.(o_min) <= o.(o_max) -> o.(o_max) < 2 ^ 16 ->
  (f32_is_finite value = false ∧ output_limit_calc_single mask i o value = f32_of_int o.(o_disarmed)) ∨
  (f32_is_finite value = true ∧ let r := output_limit_calc_single mask i o value in f32_fin r ∧ o.(o_min) * 2 ^ 149 <= f32_units r <= o.(o_max) * 2 ^ 149).
Proof.
  intros Hv Hc Hmin Hmax. unfold output_limit_calc_single. rewrite Hc. destruct (f32_is_finite value) eqn:Hf; cbn [negb]; [right|by left]. split; [done|].
  pose proof (is_finite_fin value Hv Hf) as Fv. cbv zeta. apply interpolate_bounds; [|done..]. case_if; [|done].
  destruct (order_neg value Hv) as (_ & Hn & _).
  refine (proj1 (f32_mul_between (f32_neg value) F_m1 value (f32_neg value) (neg_fin _ Fv) (proj1 F_m1_spec) Fv (neg_fin _ Fv) _)).
  rewrite Hn, (proj2 F_m1_spec). lia.
Qed.

(** ** Invariant *)

(** The position of a provider in the table. *)
Definition provider_index (f : FunctionProvider) : nat :=
  match f with
  | FunctionConstantMin => 0 | FunctionConstantMax => 1 | FunctionMotors _ => 2 | FunctionServos _ => 3 | FunctionActuatorSet _ => 4 | FunctionLandingGear _ => 5
  | FunctionLandingGearWheel _ => 6 | FunctionParachute => 7 | FunctionGripper _ => 8 | FunctionManualRC _ => 9 | FunctionGimbal _ => 10 | FunctionICEControl _ => 11
  end.

Definition provider_data (f : FunctionProvider) : list Z :=
  match f with
  | FunctionMotors m => m.(am_control)
  | FunctionServos l | FunctionActuatorSet l | FunctionManualRC l | FunctionGimbal l | FunctionICEControl l => l
  | FunctionLandingGear x | FunctionLandingGearWheel x | FunctionGripper x => [x]
  | FunctionConstantMin | FunctionConstantMax | FunctionParachute => []
  end.

(** Every float of a message is a pattern of 32 bits. *)
Record topics_ok (t : topics) : Prop := mkTopicsOk {
  tk_motors : ∀ m, t.(in_motors) = Some m -> Forall f32_ok m.(am_control);
  tk_servos : ∀ l, t.(in_servos) = Some l -> Forall f32_ok l;
  tk_commands : Forall (λ c, Forall f32_ok [c.(vc_param1); c.(vc_param2); c.(vc_param3); c.(vc_param4)] ∧ 0 <= c.(vc_param5) < 2 ^ 64 ∧ 0 <= c.(vc_param6) < 2 ^ 64) t.(in_commands);
  tk_wheel : ∀ x, t.(in_landing_gear_wheel) = Some x -> f32_ok x;
  tk_manual : ∀ v l, t.(in_manual) = Some (v, l) -> Forall f32_ok l;
  tk_gimbal : ∀ l, t.(in_gimbal) = Some l -> Forall f32_ok l;
  tk_tests : Forall (λ ts, f32_ok ts.(ts_value)) t.(in_tests);
  tk_trim : ∀ l, t.(last_servos_trim) = Some l -> Forall f32_ok l }.

(** The pointer of an output leads to the provider that the table gives for its function. *)
Definition function_ok (allocated : list FunctionProvider) (o : output) : Prop :=
  ∀ k, o.(o_function) = Some k -> ∃ f p f0, allocated !! k = Some f ∧ find_provider o.(o_assignment) all_function_providers 0 = Some (p, f0) ∧ provider_index f = p.

Record mixing_ok (m : MixingOutput) : Prop := mkMixingOk {
  mo_length : length m.(_outputs) = MAX_ACTUATORS;
  mo_max : (m.(_config).(_max_num_outputs) <= MAX_ACTUATORS)%nat;
  mo_functions : Forall (function_ok m.(_function_allocated)) m.(_outputs);
  mo_data : Forall (λ f, Forall f32_ok (provider_data f)) m.(_function_allocated);
  mo_test : Forall f32_ok m.(_actuator_test).(_current_outputs) ∧ length m.(_actuator_test).(_current_outputs) = MAX_ACTUATORS;
  mo_thrust : f32_ok m.(_thr_mdl_fac);
  mo_throttle : m.(_throttle_armed) = (m.(_armed).(ar_armed) && negb m.(_armed).(ar_lockdown)) || m.(_armed).(ar_in_esc_calibration_mode);
  mo_calibration : m.(_config).(_support_esc_calibration) = false -> m.(_armed).(ar_in_esc_calibration_mode) = false;
  mo_ramp : m.(_config).(_output_ramp_up) = false -> m.(_output_state) ≠ RAMP }.

Lemma f32_nan_ok : f32_ok f32_nan.
Proof. done. Qed.
Lemma replicate_ok n x : f32_ok x -> Forall f32_ok (replicate n x).
Proof. intros Hx. induction n; by constructor. Qed.

Lemma f32_div_ok a b : f32_ok (f32_div a b).
Proof.
  apply f32_pack_ok; [apply xor_sign_bit|]. unfold f_encode_q, div_rne. pose proof (mag_decode_nonneg a). pose proof (mag_decode_nonneg b).
  set (e := Z.max 0 _). assert (0 <= e) by lia. assert (0 <= e * 2 ^ 23) by lia. assert (0 <= 2 ^ e) by (apply Z.pow_nonneg; lia).
  assert (0 <= f_decode 23 (f32_mag a) * 2 ^ 149 / (f_decode 23 (f32_mag b) * 2 ^ e)).
  { destruct (Z.eq_dec (f_decode 23 (f32_mag b) * 2 ^ e) 0) as [-> |]; [by rewrite Zdiv_0_r|]. apply Z.div_pos; nia. }
  cbv zeta. repeat case_if; lia.
Qed.

Lemma f32_divide_ok a b : f32_ok (f32_divide a b).
Proof. unfold f32_divide. repeat case_if; first [done | apply f32_div_ok | apply f32_pack_ok; [apply xor_sign_bit|done]]. Qed.

Lemma f32_sqrt_ok b : f32_ok b -> f32_ok (f32_sqrt b).
Proof.
  intros Hb. unfold f32_sqrt. repeat (case_if; [done|]). cbv zeta. apply f32_pack_ok; [by left|]. apply encode_nonneg; [lia|lia|].
  pose proof (Z.sqrt_nonneg (f_decode 23 (f32_mag b) * 2 ^ 249)). case_if; lia.
Qed.

Lemma f32_sub_ok a b : f32_ok a -> f32_ok b -> f32_ok (f32_sub a b).
Proof. intros Ha Hb. apply f32_add_ok; [done|]. by apply f32_neg_ok. Qed.

Lemma F_1_ok : f32_ok F_1.
Proof. apply f32_of_int_ok. Qed.
Lemma F_m1_ok : f32_ok F_m1.
Proof. apply f32_of_int_ok. Qed.
Lemma F_2_ok : f32_ok F_2.
Proof. apply f32_of_int_ok. Qed.

Create HintDb f32 discriminated.
#[export] Hint Resolve f32_mul_ok f32_add_ok f32_sub_ok f32_neg_ok f32_div_ok f32_divide_ok f32_sqrt_ok f32_of_int_ok f32_nan_ok replicate_ok F_1_ok F_m1_ok F_2_ok : f32.

Lemma thrust_curve_ok tf x : f32_ok tf -> f32_ok x -> f32_ok (thrust_curve tf x).
Proof. intros Ht Hx. unfold thrust_curve. repeat case_if; auto 9 with f32. Qed.

Lemma updateValues_ok rev tf l : f32_ok tf -> Forall f32_ok l -> Forall f32_ok (updateValues rev tf l).
Proof.
  intros Ht Hl. unfold updateValues. match goal with |- Forall _ (imap _ ?x) => set (l' := x) end. assert (Hl' : Forall f32_ok l').
  { unfold l'. case_if; [|done]. apply Forall_map. eapply Forall_impl; [|exact Hl]. intros x Hx. by apply thrust_curve_ok. }
  apply Forall_lookup_2. intros i x Hx. rewrite list_lookup_imap in Hx. destruct (l' !! i) as [y|] eqn:Ey; [|done]. cbn in Hx. injection Hx as <-.
  pose proof (Forall_lookup_1 _ _ _ _ Hl' Ey). unfold remap_motor. repeat case_if; auto with f32.
Qed.

Ltac ok_list :=
  repeat match goal with H : Forall f32_ok (_ :: _) |- _ => apply Forall_cons_1 in H as [? H] end;
  repeat (apply List.Forall_cons; [repeat case_if; auto with f32|]); apply List.Forall_nil.

Lemma set_actuator_ok data c : Forall f32_ok [c.(vc_param1); c.(vc_param2); c.(vc_param3); c.(vc_param4)] ->
  0 <= c.(vc_param5) < 2 ^ 64 -> 0 <= c.(vc_param6) < 2 ^ 64 -> Forall f32_ok data -> Forall f32_ok (set_actuator data c).
Proof.
  intros Hc H5 H6 Hd. unfold set_actuator. case_if; [done|]. case_if; [|done]. cbv zeta.
  do 6 (destruct data as [|? data]; [done|]). destruct data; [|done].
  repeat match goal with H : Forall _ (_ :: _) |- _ => apply Forall_cons_1 in H as [? H] end.
  repeat (apply List.Forall_cons; [case_if; (assumption || by apply f32_of_f64_range)|]). apply List.Forall_nil.
Qed.

Lemma provider_update_spec tf t f : f32_ok tf -> topics_ok t -> Forall f32_ok (provider_data f) ->
  provider_index (provider_update tf t f) = provider_index f ∧ Forall f32_ok (provider_data (provider_update tf t f)).
Proof.
  intros Htf [T1 T2 T3 T4 T5 T6 T7 T8] Hd. pose proof F_1_ok. pose proof F_m1_ok. destruct f; cbn [provider_update]; cbn [provider_data] in Hd; try (split; done).
  - destruct (in_motors t) as [m|]; [|done]. split; [done|]. apply updateValues_ok; [done|]. by apply T1.
  - split; [done|]. cbn. destruct (in_servos t); [by apply T2|done].
  - split; [done|]. cbn. induction T3 as [|c l (Hc & H5 & H6) _ IH] in data, Hd |- *; [done|]. cbn [foldl]. apply IH. by apply set_actuator_ok.
  - destruct (in_landing_gear t); [|done]. split; [done|]. cbn [provider_data]. ok_list.
  - split; [done|]. cbn [provider_data]. destruct (in_landing_gear_wheel t) as [x|]; [|done]. pose proof (T4 x eq_refl). cbn. ok_list.
  - destruct (in_gripper t); [|done]. split; [done|]. cbn [provider_data]. ok_list.
  - destruct (in_manual t) as [[v l]|] eqn:E; [|done]. split; [done|]. cbn [provider_data]. case_if; [by eapply T5|apply replicate_ok, f32_nan_ok].
  - split; [done|]. cbn. destruct (in_gimbal t); [by apply T6|done].
  - destruct (in_ice t) as [i|]; [|done]. split; [done|]. cbn [provider_data]. unfold ice_value. ok_list.
Qed.

(** *** The actuator test *)
Definition test_ok (a : ActuatorTest) : Prop := Forall f32_ok a.(_current_outputs) ∧ length a.(_current_outputs) = MAX_ACTUATORS.

Lemma test_reset_ok : test_ok actuator_test_reset.
Proof. split; [apply replicate_ok, f32_nan_ok|done]. Qed.

Lemma insert_ok l i x : Forall f32_ok l -> f32_ok x -> Forall f32_ok (<[i := x]> l).
Proof. intros Hl Hx. by apply Forall_insert. Qed.

Lemma test_value_ok tf t ts : f32_ok tf -> topics_ok t -> f32_ok ts.(ts_value) -> f32_ok (test_value tf t ts).
Proof.
  intros Htf Ht Hv. unfold test_value. cbv zeta. set (v := if _ && _ then default f32_nan _ else ts.(ts_value)). assert (Hv' : f32_ok v).
  { unfold v. case_if; [|done]. set (r := Z.shiftr _ _). pose proof (updateValues_ok r tf [ts.(ts_value)] Htf (List.Forall_cons _ _ _ Hv (List.Forall_nil _))) as Hu.
    destruct (updateValues r tf [ts.(ts_value)]) as [|x l]; [apply f32_nan_ok|]. exact (proj1 (Forall_cons_1 _ _ _ Hu)). }
  case_if; [|done]. destruct (zlookup _ _) as [trim|] eqn:E; [|done]. apply f32_add_ok; [done|].
  assert (Forall f32_ok (default (replicate 15 0) (last_servos_trim t))) as Hl by (destruct (last_servos_trim t) eqn:El; [by eapply tk_trim|apply replicate_ok; done]).
  apply zlookup_nat in E. by eapply Forall_lookup_1.
Qed.

Lemma test_output_ok now tf t ts i a : f32_ok tf -> topics_ok t -> f32_ok ts.(ts_value) -> test_ok a -> test_ok (test_output now tf t ts i a).
Proof.
  intros Htf Ht Hv Ha. unfold test_output. cbv zeta. set (a' := if _ && _ then _ else a).
  assert (test_ok a') as [Hf Hl] by (unfold a'; case_if; [apply test_reset_ok|done]).
  case_if; split; cbn; rewrite ?length_insert; try done; apply insert_ok; auto using test_value_ok, f32_nan_ok.
Qed.

Lemma test_update_ok now tf t fs a : f32_ok tf -> topics_ok t -> test_ok a -> test_ok (actuator_test_update now tf t fs a).
Proof.
  intros Htf Ht Ha. unfold actuator_test_update. cbv zeta. apply (λ H : test_ok (foldl _ a t.(in_tests)), H).
  pose proof (tk_tests t Ht) as Hts. induction Hts as [|ts l Hts _ IH] in a, Ha |- *; [done|]. cbn [foldl]. apply IH. unfold test_message. case_if; [done|].
  generalize 0%nat as i. induction fs as [|f fs IHf] in a, Ha |- *; intros i; [done|]. cbn [test_outputs]. apply IHf. case_if; [|done]. by apply test_output_ok.
Qed.

(** *** The inputs of an update *)
Lemma update_armed_keeps msg m : let m' := update_armed msg m in
  m'.(_config) = m.(_config) ∧ m'.(_outputs) = m.(_outputs) ∧ m'.(_function_allocated) = m.(_function_allocated) ∧ m'.(_actuator_test) = m.(_actuator_test) ∧ m'.(_thr_mdl_fac) = m.(_thr_mdl_fac) ∧ m'.(_output_state) = m.(_output_state) ∧ m'.(_reverse_output_mask) = m.(_reverse_output_mask).
Proof. by destruct msg. Qed.

Lemma update_armed_throttle msg m : mixing_ok m -> let m' := update_armed msg m in
  m'.(_throttle_armed) = (m'.(_armed).(ar_armed) && negb m'.(_armed).(ar_lockdown)) || m'.(_armed).(ar_in_esc_calibration_mode) ∧
  (m'.(_config).(_support_esc_calibration) = false -> m'.(_armed).(ar_in_esc_calibration_mode) = false).
Proof. intros Hm. destruct msg as [a|]; [|split; apply Hm]. cbn. split; [done|]. intros ->. apply andb_false_r. Qed.

Lemma update_inputs_ok now t m : mixing_ok m -> topics_ok t ->
  let m' := update_inputs now t m in mixing_ok m' ∧ m'.(_config) = m.(_config) ∧ m'.(_outputs) = m.(_outputs) ∧ m'.(_armed) = (update_armed t.(in_armed) m).(_armed) ∧
    m'.(_throttle_armed) = (update_armed t.(in_armed) m).(_throttle_armed) ∧ m'.(_output_state) = m.(_output_state) ∧ m'.(_reverse_output_mask) = m.(_reverse_output_mask).
Proof.
  intros Hm Ht. destruct (update_armed_throttle t.(in_armed) m Hm) as [T1 T2]. destruct Hm as [H1 H2 H3 H4 [H5 H6] H7 H8 H9 H10]. destruct (update_armed_keeps t.(in_armed) m) as (E1 & E2 & E3 & E4 & E5 & E6 & E7). unfold update_inputs.
  cbv zeta. set (m1 := update_armed _ m) in *. clearbody m1. case_if; (split; [|done]).
  all: constructor; cbn; rewrite ?E1, ?E2, ?E3, ?E4, ?E5, ?E6; rewrite ?E1 in T2; try done.
  all: try (apply test_update_ok; [done|done|by split]).
  all: try (apply Forall_map; eapply Forall_impl; [|exact H4]; intros f Hf; by apply provider_update_spec).
  all: eapply Forall_impl; [|exact H3]; intros o Ho k Hk; destruct (Ho k Hk) as (f & p & f0 & Hf & Hp & Hi); exists (provider_update m.(_thr_mdl_fac) t f), p, f0;
    rewrite list_lookup_fmap, Hf; (split; [done|]); (split; [done|]); rewrite <- Hi; apply provider_update_spec; [done|done|exact (Forall_lookup_1 _ _ _ _ H4 Hf)].
Qed.

(** *** The limits *)
Lemma lookup_map_used m f i : length m.(_outputs) = MAX_ACTUATORS ->
  map_used m f !! i = (if (i <? m.(_config).(_max_num_outputs))%nat then f i else id) <$> m.(_outputs) !! i.
Proof.
  intros Hl. unfold map_used. destruct (Nat.ltb_spec i m.(_config).(_max_num_outputs)) as [Hi|Hi].
  - destruct (m.(_outputs) !! i) as [o|] eqn:Eo.
    + rewrite lookup_app_l by (rewrite length_imap, length_take; apply lookup_lt_Some in Eo; lia). rewrite list_lookup_imap, lookup_take_lt, Eo by done. done.
    + apply lookup_ge_None in Eo. apply lookup_ge_None. rewrite length_app, length_imap, length_take, length_drop. lia.
  - destruct (decide (i < length m.(_outputs))%nat) as [Hlt|Hge].
    + rewrite lookup_app_r by (rewrite length_imap, length_take; lia). rewrite length_imap, length_take, lookup_drop. rewrite option_fmap_id. f_equal. lia.
    + rewrite (lookup_ge_None_2 m.(_outputs)) by lia. apply lookup_ge_None. rewrite length_app, length_imap, length_take, length_drop. lia.
Qed.

(** What the limits do not change. *)
Definition same_setup (m m' : MixingOutput) : Prop :=
  m'.(_config) = m.(_config) ∧ m'.(_function_allocated) = m.(_function_allocated) ∧ m'.(_armed) = m.(_armed) ∧ m'.(_throttle_armed) = m.(_throttle_armed) ∧
  m'.(_actuator_test) = m.(_actuator_test) ∧ m'.(_thr_mdl_fac) = m.(_thr_mdl_fac) ∧ m'.(_reverse_output_mask) = m.(_reverse_output_mask) ∧ m'.(_reversible_mask) = m.(_reversible_mask) ∧
  m'.(_need_function_update) = m.(_need_function_update) ∧
  ∀ i, ∃ c, m'.(_outputs) !! i = with_current c <$> m.(_outputs) !! i.

Lemma with_current_id o : with_current o.(o_current) o = o.
Proof. by destruct o. Qed.

Lemma set_current_setup f m : length m.(_outputs) = MAX_ACTUATORS -> same_setup m (set_outputs (map_used m (λ i o, with_current (f i o) o)) m).
Proof.
  intros Hl. do 9 (split; [done|]). intros i. cbn [_outputs set_outputs]. rewrite lookup_map_used by done. destruct (m.(_outputs) !! i) as [o|]; [|by exists 0].
  destruct (_ <? _)%nat; cbn; [by eexists|]. exists o.(o_current). by rewrite with_current_id.
Qed.

Lemma same_setup_refl m : same_setup m m.
Proof. do 9 (split; [done|]). intros i. destruct (m.(_outputs) !! i) as [o|]; [exists o.(o_current); cbn; by rewrite with_current_id|by exists 0]. Qed.

Lemma same_setup_trans m1 m2 m3 : same_setup m1 m2 -> same_setup m2 m3 -> same_setup m1 m3.
Proof.
  intros (A1 & A2 & A3 & A4 & A5 & A6 & A7 & A8 & A9 & A) (B1 & B2 & B3 & B4 & B5 & B6 & B7 & B8 & B9 & B). do 9 (split; [congruence|]).
  intros i. destruct (A i) as [a Ha], (B i) as [c Hc]. exists c. rewrite Hc, Ha. destruct (m1.(_outputs) !! i); reflexivity.
Qed.

Lemma same_setup_length m m' : same_setup m m' -> length m'.(_outputs) = length m.(_outputs).
Proof.
  intros (_ & _ & _ & _ & _ & _ & _ & _ & _ & H). apply Nat.le_antisymm; apply Nat.nlt_ge; intros Hlt.
  - destruct (lookup_lt_is_Some_2 m'.(_outputs) (length m.(_outputs))) as [o Ho]; [lia|]. destruct (H (length m.(_outputs))) as [c Hc]. rewrite Hc, lookup_ge_None_2 in Ho by lia. done.
  - destruct (lookup_lt_is_Some_2 m.(_outputs) (length m'.(_outputs))) as [o Ho]; [lia|]. destruct (H (length m'.(_outputs))) as [c Hc]. rewrite Ho, lookup_ge_None_2 in Hc by lia. done.
Qed.

(** The state that the limits use: the next state, or on while the system is prearmed. *)
Definition local_limit_state (now : Z) (m : MixingOutput) : OutputLimitState :=
  if isPrearmed m then ON else fst (next_limit_state now (m.(_throttle_armed) || m.(_actuator_test).(_in_test_mode)) m).
Definition limit_module (now : Z) (m : MixingOutput) : MixingOutput :=
  let '(state, time_armed) := next_limit_state now (m.(_throttle_armed) || m.(_actuator_test).(_in_test_mode)) m in
  set_output_time_armed time_armed (set_output_state state m).

Lemma limit_outputs_spec now vs m : mixing_ok m -> m.(_config).(_support_esc_calibration) = false -> same_setup m (limit_outputs now vs m) ∧
  ∀ i o, (limit_outputs now vs m).(_outputs) !! i = Some o -> (i < m.(_config).(_max_num_outputs))%nat ->
    ∃ o0, m.(_outputs) !! i = Some o0 ∧ o = with_current
      (if m.(_armed).(ar_lockdown) || m.(_armed).(ar_kill) then f32_of_int o0.(o_disarmed)
       else if m.(_armed).(ar_termination) then actualFailsafeValue m i o0
       else limited_value now (local_limit_state now m) (limit_module now m) i o0 (default f32_nan (vs !! i))) o0.
Proof.
  intros Hm Hs. pose proof (mo_length m Hm) as Hl. pose proof (mo_calibration m Hm Hs) as Hc.
  assert (Hmap : ∀ m' f, length m'.(_outputs) = MAX_ACTUATORS -> ∀ i o, map_used m' f !! i = Some o -> (i < m'.(_config).(_max_num_outputs))%nat -> ∃ o0, m'.(_outputs) !! i = Some o0 ∧ o = f i o0).
  { intros m' f Hl' i o Ho Hi. rewrite lookup_map_used in Ho by done. rewrite (proj2 (Nat.ltb_lt _ _) Hi) in Ho. destruct (m'.(_outputs) !! i) as [o0|]; [|done]. injection Ho as <-. by eexists. }
  unfold limit_outputs. cbv zeta. destruct (ar_lockdown (_armed m) || ar_kill (_armed m)).
  - cbn [_armed set_outputs]. rewrite Hc. split; [by apply (set_current_setup (λ _ o, f32_of_int o.(o_disarmed)))|]. intros i o Ho Hi. by apply (Hmap m _ Hl) in Ho.
  - destruct (ar_termination (_armed m)).
    + cbn [_armed set_outputs]. rewrite Hc. split; [by apply (set_current_setup (actualFailsafeValue m))|]. intros i o Ho Hi. by apply (Hmap m _ Hl) in Ho.
    + unfold output_limit_calc, limit_module, local_limit_state. destruct (next_limit_state _ _ _) as [st ta] eqn:En. cbn [_armed set_outputs set_output_time_armed set_output_state fst]. rewrite Hc.
      change (isPrearmed (set_output_time_armed ta (set_output_state st m))) with (isPrearmed m). set (m1 := set_output_time_armed ta (set_output_state st m)).
      split; [|intros i o Ho Hi; by apply (Hmap m1 _ Hl) in Ho].
      eapply same_setup_trans; [|apply (set_current_setup (λ i o, limited_value now (if isPrearmed m then ON else st) m1 i o (default f32_nan (vs !! i))) m1 Hl)].
      do 9 (split; [done|]). apply (same_setup_refl m).
Qed.

Lemma next_state_no_ramp now armed m st ta : m.(_config).(_output_ramp_up) = false -> m.(_output_state) ≠ RAMP -> next_limit_state now armed m = (st, ta) -> st ≠ RAMP.
Proof. intros Hr Hs. unfold next_limit_state. rewrite Hr. destruct (_output_state m); [|done|]; destruct armed; intros [= <- <-]; done. Qed.

Lemma limit_outputs_ok now vs m : mixing_ok m -> m.(_config).(_support_esc_calibration) = false -> mixing_ok (limit_outputs now vs m).
Proof.
  intros Hm Hs. destruct (limit_outputs_spec now vs m Hm Hs) as [Hss _]. pose proof (same_setup_length _ _ Hss) as Hl. pose proof (mo_ramp m Hm) as Hr. pose proof (mo_calibration m Hm Hs) as Hc.
  destruct Hss as (E1 & E2 & E3 & E4 & E5 & E6 & E7 & E8 & E9 & Eo). destruct Hm as [H1 H2 H3 H4 [H5 H6] H7 H8 H9 H10].
  constructor; rewrite ?E1, ?E2, ?E3, ?E4, ?E5, ?E6, ?Hl; try done.
  - apply Forall_lookup_2. intros i o Ho. destruct (Eo i) as [c Ec]. rewrite Ec in Ho. destruct (m.(_outputs) !! i) as [o0|] eqn:E0; [|done]. injection Ho as <-.
    intros k Hk. exact (Forall_lookup_1 _ _ _ _ H3 E0 k Hk).
  - intros Hramp. specialize (Hr Hramp). unfold limit_outputs. cbv zeta. destruct (ar_lockdown _ || _); [cbn [_armed set_outputs]; by rewrite Hc|].
    destruct (ar_termination _); [cbn [_armed set_outputs]; by rewrite Hc|]. unfold output_limit_calc.
    destruct (next_limit_state _ _ _) as [st ta] eqn:En. cbn [_armed set_outputs set_output_time_armed set_output_state]. rewrite Hc. cbn. by eapply next_state_no_ramp.
Qed.

(** *** Motors *)
Definition motor_output (o : output) : bool :=
  match o.(o_function) with Some _ => (Motor1 <=? o.(o_assignment)) && (o.(o_assignment) <=? MotorMax) | None => false end.

Lemma motor_provider m i o : mixing_ok m -> m.(_outputs) !! i = Some o -> motor_output o = true -> ∃ data, provider_of m o = Some (FunctionMotors data).
Proof.
  intros Hm Ho Hmo. unfold motor_output in Hmo. destruct (o_function o) as [k|] eqn:Ek; [|done]. apply andb_prop in Hmo as [H1 H2]. apply Z.leb_le in H1, H2.
  destruct (Forall_lookup_1 _ _ _ _ (mo_functions m Hm) Ho k Ek) as (f & p & f0 & Hf & Hp & Hi). unfold provider_of. rewrite Ek. cbn. rewrite Hf.
  assert (p = 2%nat) as ->.
  { unfold all_function_providers in Hp. cbn [find_provider] in Hp. unfold Motor1, MotorMax, Constant_Min, Constant_Max in *.
    rewrite (proj2 (Z.leb_gt (o_assignment o) 1)), (proj2 (Z.leb_gt (o_assignment o) 2)), !andb_false_r, (proj2 (Z.leb_le 101 _)), (proj2 (Z.leb_le _ 112)) in Hp by lia. cbn in Hp. congruence. }
  destruct f; try discriminate Hi. by eexists.
Qed.

Lemma motor_no_center o : motor_output o = true -> has_center o = false.
Proof.
  unfold motor_output, has_center. destruct (o_function o); [|done]. intros H. apply andb_prop in H as [H1 H2]. apply Z.leb_le in H1, H2.
  unfold Motor1, MotorMax, Servo1, Gimbal_Roll, Landing_Gear_Wheel in *. by rewrite (proj2 (Z.leb_gt 201 _)), (proj2 (Z.leb_gt 420 _)), (proj2 (Z.eqb_neq _ 440)) by lia.
Qed.

Definition stopped (m : MixingOutput) : bool :=
  m.(_armed).(ar_lockdown) || m.(_armed).(ar_kill) || m.(_armed).(ar_termination) || (negb m.(_armed).(ar_armed) && negb m.(_actuator_test).(_in_test_mode)).

Lemma lookup_used m i : (i < m.(_config).(_max_num_outputs))%nat -> used m !! i = m.(_outputs) !! i.
Proof. intros Hi. unfold used. by rewrite lookup_take_lt. Qed.

Lemma lookup_raw m i o : m.(_outputs) !! i = Some o -> (i < m.(_config).(_max_num_outputs))%nat ->
  negb m.(_armed).(ar_armed) && negb m.(_armed).(ar_kill) && m.(_actuator_test).(_in_test_mode) = false -> raw_values m !! i = Some (output_value m o).
Proof.
  intros Ho Hi Ht. unfold raw_values, overrideValues. assert (Hl : map (output_value m) (used m) !! i = Some (output_value m o)) by (by rewrite list_lookup_fmap, lookup_used, Ho).
  destruct (negb _ && negb _); [|done]. cbn in Ht. by rewrite Ht.
Qed.

Lemma motor_value_disarmed m i o : mixing_ok m -> m.(_outputs) !! i = Some o -> motor_output o = true -> m.(_armed).(ar_armed) = false -> output_value m o = f32_nan.
Proof. intros Hm Ho Hmo Ha. destruct (motor_provider m i o Hm Ho Hmo) as [data Hp]. unfold output_value. rewrite Hp, Ha. cbn [allowPrearmControl]. by rewrite andb_false_r. Qed.

(** A motor that must not run is at its disarmed value. *)
Lemma motor_stopped now m i o : mixing_ok m -> m.(_config).(_support_esc_calibration) = false -> stopped m = true ->
  (limit_outputs now (raw_values m) m).(_outputs) !! i = Some o -> (i < m.(_config).(_max_num_outputs))%nat -> motor_output o = true -> o.(o_failsafe) = UINT16_MAX ->
  o.(o_current) = f32_of_int o.(o_disarmed).
Proof.
  intros Hm Hs Hstop Ho Hi Hmo Hfs. destruct (limit_outputs_spec now (raw_values m) m Hm Hs) as [_ H]. destruct (H i o Ho Hi) as (o0 & H0 & ->). clear H Ho. cbn in Hmo, Hfs |- *.
  change (motor_output o0 = true) in Hmo. unfold stopped in Hstop. destruct (ar_lockdown _ || ar_kill _) eqn:Elk; [done|]. cbn [orb] in Hstop. apply orb_false_iff in Elk as [_ Ek].
  destruct (motor_provider m i o0 Hm H0 Hmo) as [data Hp]. destruct (ar_termination _) eqn:Et.
  { unfold actualFailsafeValue. by rewrite Hfs, Hp. }
  cbn [orb] in Hstop. apply andb_prop in Hstop as [Ha Ht]. apply negb_true_iff in Ha, Ht.
  rewrite (lookup_raw m i o0 H0 Hi) by (by rewrite Ht, andb_false_r). rewrite (motor_value_disarmed m i o0 Hm H0 Hmo Ha). cbn [default from_option id].
  unfold local_limit_state. destruct (isPrearmed m); [done|]. rewrite (mo_throttle m Hm), Ha, Ht, (mo_calibration m Hm Hs). unfold next_limit_state. cbn. by destruct (_output_state m).
Qed.

Lemma raw_values_ok m i x : mixing_ok m -> raw_values m !! i = Some x -> f32_ok x.
Proof.
  intros Hm Hx. assert (Hv : Forall f32_ok (map (output_value m) (used m))).
  { apply Forall_map, Forall_lookup_2. intros j o _. unfold output_value. destruct (provider_of m o) as [f|] eqn:Ep; [|apply f32_nan_ok]. case_if; [|apply f32_nan_ok].
    unfold provider_of in Ep. apply bind_Some in Ep as (k & _ & Hf). pose proof (Forall_lookup_1 _ _ _ _ (mo_data m Hm) Hf) as Hd. clear Hf.
    destruct f; cbn [provider_value provider_data] in *; auto with f32; try (by apply Forall_cons_1 in Hd as [? _]);
      match goal with |- f32_ok (default _ (zlookup ?l ?q)) => destruct (zlookup l q) as [y|] eqn:El; [|apply f32_nan_ok] end; apply zlookup_nat in El; exact (Forall_lookup_1 _ _ _ _ Hd El). }
  unfold raw_values, overrideValues in Hx. destruct (negb _ && negb _); [|exact (Forall_lookup_1 _ _ _ _ Hv Hx)]. destruct (_in_test_mode _); [|exact (Forall_lookup_1 _ _ _ _ Hv Hx)].
  pose proof (lookup_lt_Some _ _ _ Hx) as Hlt. rewrite length_take in Hlt. rewrite lookup_take_lt in Hx by lia. exact (Forall_lookup_1 _ _ _ _ (proj1 (mo_test m Hm)) Hx).
Qed.

(** A motor is always at its disarmed value or within its limits. *)
Lemma motor_in_range now m i o : mixing_ok m -> m.(_config).(_support_esc_calibration) = false -> m.(_config).(_output_ramp_up) = false ->
  (limit_outputs now (raw_values m) m).(_outputs) !! i = Some o -> (i < m.(_config).(_max_num_outputs))%nat -> motor_output o = true -> o.(o_failsafe) = UINT16_MAX ->
  0 <= o.(o_min) <= o.(o_max) -> o.(o_max) < 2 ^ 16 ->
  o.(o_current) = f32_of_int o.(o_disarmed) ∨ (f32_fin o.(o_current) ∧ o.(o_min) * 2 ^ 149 <= f32_units o.(o_current) <= o.(o_max) * 2 ^ 149).
Proof.
  intros Hm Hs Hr Ho Hi Hmo Hfs Hmin Hmax. destruct (stopped m) eqn:Est; [left; by eapply motor_stopped|].
  destruct (limit_outputs_spec now (raw_values m) m Hm Hs) as [_ H]. destruct (H i o Ho Hi) as (o0 & H0 & ->). clear H Ho. cbn [o_current o_disarmed o_min o_max o_failsafe with_current] in *.
  change (motor_output o0 = true) in Hmo. unfold stopped in Est. apply orb_false_iff in Est as [Est _]. apply orb_false_iff in Est as [-> ->]. set (v := default _ _).
  assert (f32_ok v) as Hv by (unfold v; destruct (raw_values m !! i) eqn:E; [by eapply raw_values_ok|apply f32_nan_ok]).
  pose proof (output_limit_range (limit_module now m).(_reverse_output_mask) i o0 v Hv (motor_no_center o0 Hmo) Hmin Hmax) as Hrange.
  assert (Hst : local_limit_state now m ≠ RAMP).
  { unfold local_limit_state. case_if; [done|]. destruct (next_limit_state _ _ _) as [st ta] eqn:E. eapply next_state_no_ramp; [done| |done]. by apply mo_ramp. }
  destruct (local_limit_state now m); [by left|done|]. cbn [limited_value]. destruct Hrange as [[_ ?]|[_ ?]]; [by left|by right].
Qed.

(** While armed a motor gets the value that its control has. *)
Lemma motor_armed now m i o : mixing_ok m -> m.(_config).(_support_esc_calibration) = false -> m.(_config).(_output_ramp_up) = false ->
  m.(_armed).(ar_armed) = true -> m.(_armed).(ar_lockdown) = false -> m.(_armed).(ar_kill) = false -> m.(_armed).(ar_termination) = false ->
  (limit_outputs now (raw_values m) m).(_outputs) !! i = Some o -> (i < m.(_config).(_max_num_outputs))%nat -> motor_output o = true ->
  ∃ data, provider_of m o = Some (FunctionMotors data) ∧
    o.(o_current) = output_limit_calc_single m.(_reverse_output_mask) i o (default f32_nan (zlookup data.(am_control) (o.(o_assignment) - Motor1))).
Proof.
  intros Hm Hs Hr Ha Hl Hk Ht Ho Hi Hmo. destruct (limit_outputs_spec now (raw_values m) m Hm Hs) as [_ H]. destruct (H i o Ho Hi) as (o0 & H0 & ->). clear H Ho.
  change (motor_output o0 = true) in Hmo. destruct (motor_provider m i o0 Hm H0 Hmo) as [data Hp]. exists data. split; [done|]. cbn [o_current with_current o_assignment].
  rewrite Hl, Hk, Ht. cbn [orb]. rewrite (lookup_raw m i o0 H0 Hi) by (by rewrite Ha). unfold output_value. rewrite Hp, Ha. cbn [orb default from_option id provider_value].
  unfold local_limit_state, limit_module, isPrearmed, next_limit_state. rewrite Hr, (mo_throttle m Hm), Ha, Hl, (mo_calibration m Hm Hs), andb_false_r. cbn [negb andb orb].
  pose proof (mo_ramp m Hm Hr). by destruct (_output_state m).
Qed.

(** *** Assignment *)
Definition assignment_ok (s : assignment) : Prop :=
  s.(as_indexes) = map provider_index s.(as_allocated) ∧ Forall (λ f, Forall f32_ok (provider_data f)) s.(as_allocated) ∧ NoDup s.(as_indexes) ∧
  (∀ k, s.(as_callback) = Some k -> ∃ f, s.(as_allocated) !! k = Some f ∧ hasSubscriptionCallback f = true).

Lemma find_provider_table func p f : find_provider func all_function_providers 0 = Some (p, f) -> provider_index f = p ∧ Forall f32_ok (provider_data f).
Proof.
  pose proof F_m1_ok. unfold all_function_providers. cbn [find_provider]. repeat case_if; intros [= <- <-]; (split; [done|]); cbn [provider_data am_control]; try apply replicate_ok, f32_nan_ok.
  all: repeat (apply List.Forall_cons; [first [assumption | apply f32_nan_ok | done]|]); apply List.Forall_nil.
Qed.

Lemma position_spec p l : ∀ k0 k, position p l k0 = Some k -> ∃ j, k = (k0 + j)%nat ∧ l !! j = Some p.
Proof.
  induction l as [|q l IH]; intros k0 k; [done|]. cbn [position]. destruct (Nat.eqb_spec q p) as [->|]; [intros [= <-]; by exists 0%nat; rewrite Nat.add_0_r|].
  intros H. destruct (IH _ _ H) as (j & -> & Hj). exists (S j). split; [lia|done].
Qed.

Lemma position_none p l : ∀ k0, position p l k0 = None -> p ∉ l.
Proof.
  induction l as [|q l IH]; intros k0; [intros _; apply not_elem_of_nil|]. cbn [position]. destruct (Nat.eqb_spec q p) as [->|Hne]; [done|].
  intros H Hin. apply elem_of_cons in Hin as [->|Hin]; [done|]. by eapply IH.
Qed.

Lemma assign_provider_ok alloc func s k s' : assignment_ok s -> assign_provider alloc func s = (k, s') ->
  assignment_ok s' ∧ (∃ l, s'.(as_allocated) = s.(as_allocated) ++ l) ∧
  ∀ i, k = Some i -> ∃ f p f0, s'.(as_allocated) !! i = Some f ∧ find_provider func all_function_providers 0 = Some (p, f0) ∧ provider_index f = p.
Proof.
  intros (Hix & Hd & Hnd & Hcb). unfold assign_provider. destruct (find_provider func _ 0) as [[p f]|] eqn:Ef.
  2: { intros [= <- <-]. split; [done|]. split; [by exists []; rewrite app_nil_r|done]. }
  destruct (find_provider_table func p f Ef) as [Hpi Hpd]. destruct (position p _ 0) as [j|] eqn:Ep.
  { intros [= <- <-]. split; [done|]. split; [by exists []; rewrite app_nil_r|]. intros i [= <-]. apply position_spec in Ep as (j' & -> & Hj). rewrite Hix, list_lookup_fmap in Hj.
    cbn [Nat.add]. destruct (as_allocated s !! j') as [g|] eqn:Eg; [|done]. injection Hj as Hj. by exists g, p, f. }
  destruct alloc; intros [= <- <-]; cbn [as_allocated]; (split; [|split]).
  - split; [cbn; by rewrite map_app, Hix, <- Hpi|]. split; [apply Forall_app; split; [done|by constructor]|]. split.
    + cbn. apply (proj2 (list.NoDup_app _ _)). split; [done|]. split; [|apply NoDup_singleton]. intros x Hx Hx'. apply list_elem_of_singleton in Hx' as ->. by eapply position_none.
    + cbn. intros i Hi. destruct (_ && hasSubscriptionCallback f) eqn:E.
      * injection Hi as <-. exists f. split; [by rewrite lookup_app_r, Nat.sub_diag by lia|]. exact (proj2 (andb_prop _ _ E)).
      * destruct (Hcb i Hi) as (g & Hg & Hs). exists g. split; [by apply lookup_app_l_Some|done].
  - by eexists.
  - intros i [= <-]. exists f, p, f. split; [by rewrite lookup_app_r, Nat.sub_diag by lia|done].
  - done.
  - by exists []; rewrite app_nil_r.
  - done.
Qed.

Lemma assignment_init_ok : assignment_ok assignment_init.
Proof. split; [done|]. split; [constructor|]. split; [constructor|done]. Qed.

Lemma cleared_none outputs : Forall (λ o, o.(o_function) = None) (map clear_function outputs).
Proof. apply Forall_map, Forall_true. done. Qed.

Lemma assign_outputs_ok pr alloc outputs : ∀ i n s outputs' s', assignment_ok s -> Forall (λ o, o.(o_function) = None) outputs -> assign_outputs pr alloc outputs i n s = (outputs', s') ->
  assignment_ok s' ∧ (∃ l, s'.(as_allocated) = s.(as_allocated) ++ l) ∧ length outputs' = length outputs ∧ Forall (function_ok s'.(as_allocated)) outputs'.
Proof.
  induction outputs as [|o outputs IH]; intros i n s outputs' s' Hs Ho E.
  { cbn in E. injection E as <- <-. split; [done|]. split; [by exists []; rewrite app_nil_r|done]. }
  destruct (Forall_cons_1 _ _ _ Ho) as [Ho1 Ho2]. cbn [assign_outputs] in E. destruct n as [|n].
  { injection E as <- <-. split; [done|]. split; [by exists []; rewrite app_nil_r|]. split; [done|]. eapply Forall_impl; [|exact Ho]. cbn. intros o' Hn k Hk. congruence. }
  destruct (assign_provider _ _ s) as [k s1] eqn:E1. destruct (assign_outputs pr alloc outputs (S i) n s1) as [rest s2] eqn:E2. injection E as <- <-.
  destruct (assign_provider_ok _ _ _ _ _ Hs E1) as (Hs1 & (l1 & Hl1) & Hk). destruct (IH _ _ _ _ _ Hs1 Ho2 E2) as (Hs2 & (l2 & Hl2) & Hlen & Hf).
  split; [done|]. split; [exists (l1 ++ l2); by rewrite Hl2, Hl1, app_assoc|]. split; [cbn; by rewrite Hlen|]. constructor; [|done].
  intros j Hj. cbn in Hj. destruct (Hk j Hj) as (f & p & f0 & Hfj & Hp & Hi). exists f, p, f0. split; [rewrite Hl2; by apply lookup_app_l_Some|done].
Qed.

(** The module is never left without a schedule when it schedules itself, and a callback has a
    delayed run behind it. *)
Definition scheduled (m : MixingOutput) : Prop :=
  m.(_schedule) ≠ NotScheduled ∧ (m.(_callback_registered) = true -> m.(_has_backup_schedule) = true ∨ m.(_schedule) = ScheduledNow).

Section assigned.
Context {D : Type} `{OutputModuleInterface D}.

Lemma updateSubscriptions_ok pr alloc cw rg sw (m : MixingOutput) (d : D) r m' d' : mixing_ok m -> updateSubscriptions pr alloc cw rg sw m d = Some (r, m', d') ->
  mixing_ok m' ∧ m'.(_config) = m.(_config) ∧ m'.(_armed) = m.(_armed) ∧ m'.(_reversible_mask) = m.(_reversible_mask).
Proof.
  intros [H1 H2 H3 H4 [H5 H6] H7 H8 H9 H10]. unfold updateSubscriptions. case_if; [intros [= <- <- <-]; split; [by constructor|done]|]. cbv zeta.
  set (auto := match _ with SchedulingAuto => true | SchedulingDisabled => false end).
  set (m1 := if auto then _ else _). assert (M1 : mixing_ok m1 ∧ m1.(_config) = m.(_config) ∧ m1.(_armed) = m.(_armed) ∧ m1.(_reversible_mask) = m.(_reversible_mask)).
  { unfold m1, unregister. destruct auto; [|split; [by constructor|done]]. cbn [_subscription_callback set_has_backup_schedule]. destruct (_subscription_callback m); (split; [by constructor|done]). }
  destruct M1 as ([G1 G2 G3 G4 G5 G6 G7 G8 G9] & C1 & C2 & C3). clearbody m1. case_if; [intros [= <- <- <-]; split; [by constructor|done]|].
  assert (M2 : (cleanupFunctions m1).(_outputs) = map clear_function m1.(_outputs)) by (unfold cleanupFunctions, unregister; by destruct (_subscription_callback m1)).
  rewrite M2. destruct (assign_outputs _ _ _ 0 _ _) as [outputs s] eqn:Ea.
  destruct (assign_outputs_ok _ _ _ _ _ _ _ _ assignment_init_ok (cleared_none _) Ea) as (Hs & _ & Hlen & Hf).
  match goal with |- context [mixerChanged ?x d] => set (m2 := x) end. destruct (mixerChanged m2 d) as [d2|]; [|done]. intros [= <- <- <-].
  assert (F : m2.(_outputs) = outputs ∧ m2.(_function_allocated) = s.(as_allocated) ∧ m2.(_actuator_test) = actuator_test_reset ∧ m2.(_config) = m1.(_config) ∧ m2.(_thr_mdl_fac) = m1.(_thr_mdl_fac) ∧
    m2.(_throttle_armed) = m1.(_throttle_armed) ∧ m2.(_armed) = m1.(_armed) ∧ m2.(_output_state) = m1.(_output_state) ∧ m2.(_reversible_mask) = m1.(_reversible_mask)).
  { unfold m2, cleanupFunctions, unregister. destruct (_subscription_callback m1), auto, (as_callback s), rg, (as_all_disabled s); done. }
  destruct F as (F1 & F2 & F3 & F4 & F5 & F6 & F7 & F8 & F9). split; [|by rewrite F4, F7, F9]. clearbody m2.
  constructor; rewrite ?F1, ?F2, ?F3, ?F4, ?F5, ?F6, ?F7, ?F8; try done; [by rewrite Hlen, length_map|apply Hs|apply test_reset_ok].
Qed.
End assigned.
