(* ===== verification/ControlAllocator.v ===== *)
(** * Control allocation

    [modules/control_allocator] and the vehicle of [lib/palletrone]: from the setpoints of
    torque and thrust and the angles of the servos to the forces of the four rotors, and from
    a force over the thrust table of the motors to the control that the output module takes.
    How the mixing matrix is inverted is a parameter ([geninv], [mix_mul]): the theorems hold
    for whatever forces it gives. Numbers are bit patterns of floats. *)
From stdpp Require Import base list tactics option.
From Stdlib Require Import ZArith Lia.
From S2P Require Import Prelude Float32 FloatOps FloatBounds MixerModule.

(** ** The vehicle *)

(** A decimal literal. *)
Definition f32_dec (num den : Z) : Z := f_encode_q 23 (num * 2 ^ 149) den.

Definition kMotorThrottleLimit : Z := f32_dec 85 100.
Definition kDshotMinDefault : Z := f32_dec 55 1000.
Definition kMotorMinimumForceN : Z := f32_dec 1 1.
Definition kMotorThrottleTable : list Z := map (λ k, f32_dec k 100) [0; 20; 40; 60; 80; 100].
Definition kMotorThrustTableN : list Z :=
  [0; f32_dec 282313214 (10 ^ 8); f32_dec 696573219 (10 ^ 8); f32_dec 10761548848 (10 ^ 9); f32_dec 166937434084 (10 ^ 10); f32_dec 20835125527 (10 ^ 9)].
Definition kMotorFullThrustN : Z := f32_dec 20835125527 (10 ^ 9).
Definition kMotorMaxUsableThrustN : Z := f32_mul kMotorThrottleLimit kMotorFullThrustN.

(** ** Conversion of a force *)
Definition clampf (value lower upper : Z) : Z := if f32_lt value lower then lower else if f32_lt upper value then upper else value.

Definition validated_dshot_min (dshot_min_norm : Z) : Z :=
  if negb (f32_is_finite dshot_min_norm) then kDshotMinDefault else clampf dshot_min_norm 0 (f32_sub kMotorThrottleLimit (f32_dec 1 1000)).

Definition dshot_throttle_to_actuator_control (esc_throttle dshot_min_norm : Z) : Z :=
  let dshot_min := validated_dshot_min dshot_min_norm in
  let throttle := clampf esc_throttle dshot_min kMotorThrottleLimit in
  clampf (f32_divide (f32_sub throttle dshot_min) (f32_sub F_1 dshot_min)) 0 F_1.

(** The loop over the points of the table; [points] has those from the current one on. *)
Fixpoint lookup_throttle (points : list (Z * Z)) (limited_force : Z) : Z :=
  match points with
  | (force_low, throttle_low) :: (((force_high, throttle_high) :: _) as rest) =>
    if f32_le limited_force force_high then
      let interpolation := f32_divide (f32_sub limited_force force_low) (f32_sub force_high force_low) in
      f32_add throttle_low (f32_mul interpolation (f32_sub throttle_high throttle_low))
    else lookup_throttle rest limited_force
  | _ => kMotorThrottleLimit
  end.

Definition motor_table : list (Z * Z) := zip kMotorThrustTableN kMotorThrottleTable.

Definition force_to_dshot_control (force_n dshot_min_norm : Z) : Z :=
  if negb (f32_is_finite force_n) || f32_le force_n 0 then 0
  else
    let limited_force := clampf force_n 0 kMotorMaxUsableThrustN in
    let esc_throttle := lookup_throttle motor_table limited_force in
    let esc_throttle := clampf esc_throttle (validated_dshot_min dshot_min_norm) kMotorThrottleLimit in
    dshot_throttle_to_actuator_control esc_throttle dshot_min_norm.

(** [math::constrain] *)
Definition constrain (val min_val max_val : Z) : Z := if f32_lt val min_val then min_val else if f32_lt max_val val then max_val else val.

(** ** The module *)
Record thrust_command := mkThrust { tc_thrust_command : list Z }.

(** What the subscriptions of the module deliver during a run: new parameters (CA_R_REV and
    DSHOT_MIN), the angles of the servos, whether the centre of mass was updated, and the
    setpoints with their sample times. *)
Record allocator_inputs := mkAllocatorInputs {
  ai_exit : bool; ai_now : Z; ai_params : option (Z * Z); ai_servo_angle : option (list Z); ai_center_of_mass : bool;
  ai_torque : option (list Z * Z); ai_thrust : option (list Z * Z) }.

Section allocator.
Context {Mix : Type} (mix_zero : Mix) (geninv : list Z -> Z * Z * Z -> Mix -> Mix) (mix_mul : Mix -> list Z -> list Z).

Record ControlAllocator := mkAllocator {
  al_torque_sp : list Z; al_thrust_sp : list Z; al_servo_ang : list Z; al_center : Z * Z * Z; al_last_run : Z; al_timestamp_sample : Z;
  al_mix : Mix; al_control_sp : list Z; al_actuator_sp : list Z; al_r_rev : Z; al_dshot_min : Z; al_registered : bool; al_schedule : Schedule }.

(** [update_effectiveness_matrix_if_needed]: [geninv] has the effectiveness matrix of the angles
    and the centre of mass and its pseudo-inverse. *)
Definition update_effectiveness_matrix_if_needed (a : ControlAllocator) : ControlAllocator :=
  let '(mkAllocator torque thrust servo com last ts mix _ _ rev dmin reg sch) := a in
  let control_sp := take 3 torque ++ [default 0 (thrust !! 2%nat)] in
  let mix := geninv servo com mix in
  let actuator_sp := map (λ f, constrain f kMotorMinimumForceN kMotorMaxUsableThrustN) (mix_mul mix control_sp) in
  mkAllocator torque thrust servo com last ts mix control_sp actuator_sp rev dmin reg sch.

(** The constructor, with the parameters at that time. *)
Definition ControlAllocator_new (r_rev dshot_min : Z) : ControlAllocator :=
  update_effectiveness_matrix_if_needed
    (mkAllocator [0; 0; 0] [0; 0; 0] [0; 0; 0; 0] (0, 0, 0) 0 0 mix_zero [0; 0; 0; 0] [0; 0; 0; 0] r_rev dshot_min false NotScheduled).

Definition set_al_schedule (registered : bool) (s : Schedule) (a : ControlAllocator) : ControlAllocator :=
  let '(mkAllocator torque thrust servo com last ts mix ctl act rev dmin _ _) := a in mkAllocator torque thrust servo com last ts mix ctl act rev dmin registered s.

(** [init]: whether the callbacks of both setpoints can be registered. *)
Definition allocator_init (register_torque register_thrust : bool) (a : ControlAllocator) : bool * ControlAllocator :=
  if negb register_torque then (false, a)
  else if negb register_thrust then (false, set_al_schedule true a.(al_schedule) a)
  else (true, set_al_schedule true (ScheduledDelayed 50000) a).

(** [publish_actuator_controls]; the controls of the motors 5 to 12 are zero. *)
Definition publish_actuator_controls (a : ControlAllocator) : actuator_motors * thrust_command :=
  let u_max := dshot_throttle_to_actuator_control kMotorThrottleLimit a.(al_dshot_min) in
  let control force_cmd :=
    let u := constrain (force_to_dshot_control force_cmd a.(al_dshot_min)) 0 u_max in
    if f32_is_finite u then u else 0 in
  (mkMotors a.(al_timestamp_sample) (u16 a.(al_r_rev)) (map control a.(al_actuator_sp) ++ replicate 8 0),
   mkThrust (map (λ f, if f32_is_finite f then f else 0) a.(al_actuator_sp))).

(** The time since the last allocation in seconds, at least 0.2 ms and at most 20 ms. *)
Definition allocation_dt (now last_run : Z) : Z :=
  constrain (f32_divide (f32_of_int (u64 (now - last_run))) (f32_of_int 1000000)) (f32_dec 2 10000) (f32_dec 2 100).

(** The parts of [Run] up to the allocation: the parameters, the angles and the setpoints. *)
Definition allocator_params (ri : allocator_inputs) (a : ControlAllocator) : ControlAllocator :=
  match ri.(ai_params) with
  | Some (rev, dmin) =>
    let '(mkAllocator torque thrust servo com last ts mix ctl act _ _ reg sch) := a in
    update_effectiveness_matrix_if_needed (mkAllocator torque thrust servo com last ts mix ctl act rev dmin reg sch)
  | None => a
  end.

Definition allocator_angles (ri : allocator_inputs) (a : ControlAllocator) : ControlAllocator :=
  let a :=
    match ri.(ai_servo_angle) with
    | Some servo =>
      let '(mkAllocator torque thrust _ com last ts mix ctl act rev dmin reg sch) := a in
      update_effectiveness_matrix_if_needed (mkAllocator torque thrust servo com last ts mix ctl act rev dmin reg sch)
    | None => a
    end in
  let '(mkAllocator torque thrust servo com last ts mix ctl act rev dmin reg sch) := a in
  mkAllocator torque thrust servo (if ri.(ai_center_of_mass) then (0, 0, 0) else com) last ts mix ctl act rev dmin reg sch.

Definition allocator_setpoints (ri : allocator_inputs) (a : ControlAllocator) : bool * ControlAllocator :=
  let dt := allocation_dt ri.(ai_now) a.(al_last_run) in
  let '(mkAllocator torque thrust servo com last ts mix ctl act rev dmin reg sch) := a in
  let '(do_update, torque, ts) := match ri.(ai_torque) with Some (t, s) => (true, t, s) | None => (false, torque, ts) end in
  let '(do_update, thrust, ts) :=
    match ri.(ai_thrust) with
    | Some (t, s) => if f32_lt (f32_dec 5 1000) dt then (true, t, s) else (do_update, t, ts)
    | None => (do_update, thrust, ts)
    end in
  (do_update, mkAllocator torque thrust servo com last ts mix ctl act rev dmin reg sch).

Definition set_al_last_run (now : Z) (a : ControlAllocator) : ControlAllocator :=
  let '(mkAllocator torque thrust servo com _ ts mix ctl act rev dmin reg sch) := a in mkAllocator torque thrust servo com now ts mix ctl act rev dmin reg sch.

(** [Run] with what it publishes. *)
Definition allocator_Run (ri : allocator_inputs) (a : ControlAllocator) : option (actuator_motors * thrust_command) * ControlAllocator :=
  if ri.(ai_exit) then (None, set_al_schedule false a.(al_schedule) a)
  else
    let a := set_al_schedule a.(al_registered) (ScheduledDelayed 50000) a in
    let a := allocator_angles ri (allocator_params ri a) in
    let '(do_update, a) := allocator_setpoints ri a in
    let a := if do_update then update_effectiveness_matrix_if_needed (set_al_last_run ri.(ai_now) a) else a in
    (Some (publish_actuator_controls a), a).

Fixpoint allocator_Runs (l : list allocator_inputs) (a : ControlAllocator) : list (actuator_motors * thrust_command) * ControlAllocator :=
  match l with
  | [] => ([], a)
  | ri :: l =>
    let '(o, a) := allocator_Run ri a in
    let '(os, a) := allocator_Runs l a in
    (match o with Some x => x :: os | None => os end, a)
  end.
End allocator.

(** ** Constants and limits *)
Ltac literal := split; [unfold f32_ok; vm_compute; split; (discriminate || reflexivity)|vm_compute; reflexivity].

Lemma limit_fin : f32_fin kMotorThrottleLimit. Proof. literal. Qed.
Lemma limit_units : 17 * 2 ^ 149 <= f32_units kMotorThrottleLimit * 20 <= 17 * 2 ^ 149 + 2 ^ 129. Proof. vm_compute. split; discriminate. Qed.
Definition min_ceiling : Z := f32_sub kMotorThrottleLimit (f32_dec 1 1000).
Lemma ceiling_fin : f32_fin min_ceiling. Proof. literal. Qed.
Lemma ceiling_units : 0 < f32_units min_ceiling < f32_units kMotorThrottleLimit. Proof. vm_compute. split; reflexivity. Qed.
Lemma default_fin : f32_fin kDshotMinDefault. Proof. literal. Qed.
Lemma default_units : 0 <= f32_units kDshotMinDefault <= f32_units min_ceiling. Proof. vm_compute. split; discriminate. Qed.
Lemma zero_fin : f32_fin 0. Proof. literal. Qed.
Lemma zero_units : f32_units 0 = 0. Proof. reflexivity. Qed.

Lemma clampf_spec v lo hi : f32_fin v -> f32_fin lo -> f32_fin hi -> f32_units lo <= f32_units hi ->
  f32_fin (clampf v lo hi) ∧ f32_units (clampf v lo hi) = Z.max (f32_units lo) (Z.min (f32_units v) (f32_units hi)).
Proof.
  intros Hv Hl Hh Hle. unfold clampf. pose proof (lt_units v lo Hv Hl) as H1. pose proof (lt_units hi v Hh Hv) as H2.
  destruct (f32_lt v lo); [pose proof (proj1 H1 eq_refl); split; [done|lia]|]. assert (¬ f32_units v < f32_units lo) by (intros ?%H1; discriminate).
  destruct (f32_lt hi v); [pose proof (proj1 H2 eq_refl); split; [done|lia]|]. assert (¬ f32_units hi < f32_units v) by (intros ?%H2; discriminate). split; [done|lia].
Qed.

Lemma validated_spec d : f32_ok d -> f32_fin (validated_dshot_min d) ∧ 0 <= f32_units (validated_dshot_min d) <= f32_units min_ceiling ∧
  (f32_is_finite d = true -> 0 <= f32_units d <= f32_units min_ceiling -> f32_units (validated_dshot_min d) = f32_units d).
Proof.
  intros Hd. pose proof default_units. pose proof ceiling_units. unfold validated_dshot_min. destruct (f32_is_finite d) eqn:Ef; cbn [negb]; [|split; [apply default_fin|done]].
  destruct (clampf_spec d 0 min_ceiling (is_finite_fin d Hd Ef) zero_fin ceiling_fin) as [F E]; [rewrite zero_units; lia|]. rewrite zero_units in E. split; [exact F|].
  change (f32_sub kMotorThrottleLimit (f32_dec 1 1000)) with min_ceiling. rewrite E. lia.
Qed.

(** The error of the quotient: [U] is one, [h] the error of an operation. *)
Lemma quotient_near U h c dm T A B q : 0 < h -> U = 4194304 * h -> 20 * c <= 17 * U + 4 * h -> 0 <= dm <= T -> T <= c -> 0 <= q -> Z.abs (A - (T - dm)) <= h -> Z.abs (B - (U - dm)) <= h ->
  Z.abs (q * B - A * U) <= h * B -> q <= U ∧ Z.abs (q * (U - dm) - (T - dm) * U) <= 4 * h * U.
Proof.
  intros Hh HU Hc Hd HT Hq HA HB HQ. assert (HB0 : 0 < B) by lia. assert (Hle : q <= U).
  { apply (Z.mul_le_mono_pos_r _ _ B HB0). assert (A * U <= (U - dm - 3 * h) * U) by (apply Z.mul_le_mono_nonneg_r; lia). assert (h * B <= h * (U + h)) by (apply Z.mul_le_mono_nonneg_l; lia). assert (h * h <= h * U) by (apply Z.mul_le_mono_nonneg_l; lia).
    assert ((U - dm - h) * U <= B * U) by (apply Z.mul_le_mono_nonneg_r; lia). lia. }
  split; [done|]. assert (E : q * (U - dm) - (T - dm) * U = (q * B - A * U) + q * (U - dm - B) + (A - (T - dm)) * U) by ring.
  assert (h * B <= h * (2 * U)) by (apply Z.mul_le_mono_nonneg_l; lia). assert (Z.abs (q * (U - dm - B)) <= U * h) by (rewrite Z.abs_mul; apply Z.mul_le_mono_nonneg; lia).
  assert (Z.abs ((A - (T - dm)) * U) <= h * U) by (rewrite Z.abs_mul, (Z.abs_eq U) by lia; apply Z.mul_le_mono_nonneg_r; lia). lia.
Qed.

(** The control of a throttle: the throttle above the minimum, in parts of the range above the
    minimum. *)
Lemma throttle_control_spec t d : f32_fin t -> f32_ok d ->
  let dm := f32_units (validated_dshot_min d) in
  let u := dshot_throttle_to_actuator_control t d in
  let T := Z.max dm (Z.min (f32_units t) (f32_units kMotorThrottleLimit)) in
  f32_fin u ∧ 0 <= f32_units u <= 2 ^ 149 ∧ Z.abs (f32_units u * (2 ^ 149 - dm) - (T - dm) * 2 ^ 149) <= 4 * 2 ^ 127 * 2 ^ 149.
Proof.
  intros Ht Hd. destruct (validated_spec d Hd) as (Fm & Um & _). pose proof ceiling_units. pose proof limit_units as HL. cbv zeta. unfold dshot_throttle_to_actuator_control. cbv zeta. set (m := validated_dshot_min d) in *.
  destruct (clampf_spec t m kMotorThrottleLimit Ht Fm limit_fin) as [FT ET]; [lia|]. set (th := clampf t m kMotorThrottleLimit) in *. destruct F_1_spec as [F1 U1].
  set (T := Z.max _ _) in ET |- *. assert (HT : f32_units m <= T <= f32_units kMotorThrottleLimit) by lia. clearbody T th m. set (c := f32_units kMotorThrottleLimit) in *. set (dm := f32_units m) in *.
  destruct (f32_sub_near 127 th m FT Fm) as (FA & EA & A0); [lia|lia|]. destruct (f32_sub_near 127 F_1 m F1 Fm) as (FB & EB & _); [lia|lia|].
  set (A := f32_sub th m) in *. set (B := f32_sub F_1 m) in *. rewrite ET in EA, A0. rewrite U1 in EB. fold dm in EA, EB, A0. specialize (A0 ltac:(lia)). clearbody A B c dm.
  destruct (f32_div_near 127 A B FA FB) as (Fq & Eq & Q0); [lia|lia|lia|change (2 ^ (23 + 127)) with (2 * 2 ^ 149); nia|]. set (q := f32_divide A B) in *. clearbody q.
  destruct (quotient_near (2 ^ 149) (2 ^ 127) c dm T (f32_units A) (f32_units B) (f32_units q)) as [Hq Hn]; [done|reflexivity|lia|lia|lia|lia|lia|lia|lia|].
  destruct (clampf_spec q 0 F_1 Fq zero_fin F1) as [Fu Eu]; [rewrite zero_units; lia|]. rewrite zero_units, U1, Z.min_l, Z.max_r in Eu by lia. rewrite Eu. split; [done|]. split; [lia|done].
Qed.
