(* ===== verification/DShotDriver.v ===== *)
(** * DShot driver

    [src/drivers/dshot/DShot.{h,cpp}]: the driver that turns the outputs of [MixerModule] into
    frames for the motor controllers, sends them commands and settings, and collects their
    telemetry. The hardware is an instance of [DshotHardware]; [DShotHardware_timers] makes
    the timers of [DshotTimers] one. A run takes place at one time; what the subscriptions, the
    parameters and the serial port deliver during the run are fields of the state or arguments.
    Status output, performance counters and the start of the module are not modelled. *)
From stdpp Require Import base list tactics option.
From Stdlib Require Import ZArith Lia.
From S2P Require Import Prelude Float32 FloatOps FloatBounds MixerModule DShotTelemetry.

Definition DSHOT_MAXIMUM_CHANNELS : nat := 9.
Definition DSHOT_MAX_MOTORS : nat := 9.
Definition ESC_INIT_TELEM_DELAY : Z := 5000000.
Definition DSHOT_DISARM_VALUE : Z := 0.
Definition DSHOT_MIN_THROTTLE : Z := 1.
Definition DSHOT_MAX_THROTTLE : Z := 1999.
Definition DSHOT_CMD_MOTOR_STOP : Z := 0.
Definition DSHOT_CMD_BEEP1 : Z := 1.
Definition DSHOT_CMD_SPIN_DIRECTION_1 : Z := 7.
Definition DSHOT_CMD_SPIN_DIRECTION_2 : Z := 8.
Definition DSHOT_CMD_3D_MODE_OFF : Z := 9.
Definition DSHOT_CMD_3D_MODE_ON : Z := 10.
Definition DSHOT_CMD_SAVE_SETTINGS : Z := 12.
Definition DSHOT_EXTENDED_TELEMETRY_ENABLE : Z := 13.
Definition DSHOT_CMD_ENTER_PROGRAMMING_MODE : Z := 36.
Definition DSHOT_CMD_EXIT_PROGRAMMING_MODE : Z := 37.
Definition DSHOT_CMD_MIN_THROTTLE : Z := 48.
Definition DSHOT_EDT_TEMPERATURE : Z := 2.
Definition DSHOT_EDT_VOLTAGE : Z := 4.
Definition DSHOT_EDT_CURRENT : Z := 6.
Definition SERIAL_TELEM_SKIP_THRESHOLD : Z := 10.
Definition SERIAL_TELEM_RETRY_INTERVAL : Z := 3000000.

(** ** The hardware ([drv_dshot.h])

    [T] is what a trigger sends and [hw_received] what the controller of a channel receives
    of it. [None] is an access outside the arrays of the hardware layer. *)
Class DshotHardware (H T : Type) := {
  hw_init : Z -> Z -> Z -> bool -> H -> option H;
  hw_set : Z -> Z -> bool -> H -> option H;
  hw_trigger : Z -> H -> option (H * T);
  hw_received : T -> Z -> option (Z * bool);
  hw_ready_mask : H -> Z;
  hw_num_errors : Z -> H -> option Z;
  hw_online : Z -> H -> option bool;
  hw_get_erpm : Z -> H -> option (option Z * H);
  hw_get_edt : Z -> Z -> H -> option (option Z * H) }.

(** [up_dshot_motor_data_set] and [up_dshot_motor_command] *)
Definition motor_throttle `{DshotHardware H T} (channel throttle : Z) (telemetry : bool) (h : H) : option H :=
  hw_set channel (u16 (throttle + DSHOT_CMD_MIN_THROTTLE)) telemetry h.
Definition motor_command `{DshotHardware H T} (channel command : Z) (telemetry : bool) (h : H) : option H := hw_set channel command telemetry h.

(** ** State *)
Record DShotCommand := mkDCommand { dc_command : Z; dc_num_repetitions : Z; dc_motor_mask : Z; dc_save : bool; dc_expect_response : bool }.

Definition command_init : DShotCommand := mkDCommand 0 0 (2 ^ 9 - 1) false false.
Definition command_clear : DShotCommand := mkDCommand 0 0 0 false false.
Definition finished (c : DShotCommand) : bool := c.(dc_num_repetitions) =? 0.

Inductive ProgrammingState := Idle | EnterMode | SendAddress | SendValue | ExitMode.
Record esc_eeprom_write := mkEeprom { ew_index : Z; ew_length : Z; ew_data : list Z; ew_write_mask : Z * Z }.

Record programming := mkProgramming {
  pg_write : esc_eeprom_write; pg_active : bool; pg_written : Z * Z; pg_state : ProgrammingState; pg_address : Z; pg_value : Z }.

Record esc_report := mkReport { rp_timestamp : Z; rp_errorcount : Z; rp_rpm : Z; rp_voltage : Z; rp_current : Z; rp_temperature : Z; rp_actuator_function : Z }.
Record esc_status := mkStatus { st_timestamp : Z; st_counter : Z; st_esc_count : Z; st_connectiontype : Z; st_online_flags : Z; st_armed_flags : Z; st_esc : list esc_report }.

Record masks := mkMasks { mk_output : Z; mk_bdshot_output : Z; mk_motor : Z; mk_bdshot_motor : Z; mk_motor_count : Z }.

(** The serial telemetry. *)
Record serial := mkSerial {
  sr_enabled : bool; sr_online_mask : Z; sr_errors : list Z; sr_online_timestamps : list Z; sr_skip_mask : Z; sr_consecutive_timeouts : list Z; sr_last_retry : Z;
  sr_telemetry : DShotTelemetry; sr_motor_index : Z; sr_requested_mask : Z; sr_delay_until : Z; sr_settings_requested_mask : Z }.

(** The bidirectional telemetry. *)
Record bidirectional := mkBidir { bd_online_mask : Z; bd_errors : list Z; bd_edt_requested_mask : Z; bd_online_timestamps : list Z }.

(** The cached parameters. *)
Record cached := mkCached { ca_edt_enabled : bool; ca_3d_enabled : bool; ca_3d_dead_l : Z; ca_3d_dead_h : Z; ca_dshot_min : Z; ca_esc_type : Z; ca_pole_counts : list Z }.

(** What the driver publishes. *)
Inductive event := EvAck (command result : Z) | EvStatus (s : esc_status) | EvEeprom (index : Z) (data : list Z).

(** [ds_commands] and [ds_eeprom_writes] are the messages that the subscriptions have not
    delivered yet, [ds_now] the time of the run, [ds_log] what was published and [ds_sent]
    what was sent, the latest first. *)
Record DShot {H T : Type} := mkDShot {
  ds_masks : masks; ds_status : esc_status; ds_serial : serial; ds_bidir : bidirectional; ds_cached : cached; ds_command : DShotCommand; ds_programming : programming; ds_initialized : bool; ds_frequency : Z; ds_bdshot_timer_channels : Z; ds_commands : list vehicle_command; ds_eeprom_writes : list esc_eeprom_write; ds_log : list event; ds_now : Z; ds_hw : H; ds_sent : list T }.
Arguments DShot : clear implicits.

Section driver.
Context {H T : Type} `{!DshotHardware H T}.
Notation D := (DShot H T).

Definition set_masks (x : _) (d : D) : D :=
  mkDShot _ _ x d.(ds_status) d.(ds_serial) d.(ds_bidir) d.(ds_cached) d.(ds_command) d.(ds_programming) d.(ds_initialized) d.(ds_frequency) d.(ds_bdshot_timer_channels) d.(ds_commands) d.(ds_eeprom_writes) d.(ds_log) d.(ds_now) d.(ds_hw) d.(ds_sent).
Definition set_status (x : _) (d : D) : D :=
  mkDShot _ _ d.(ds_masks) x d.(ds_serial) d.(ds_bidir) d.(ds_cached) d.(ds_command) d.(ds_programming) d.(ds_initialized) d.(ds_frequency) d.(ds_bdshot_timer_channels) d.(ds_commands) d.(ds_eeprom_writes) d.(ds_log) d.(ds_now) d.(ds_hw) d.(ds_sent).
Definition set_serial (x : _) (d : D) : D :=
  mkDShot _ _ d.(ds_masks) d.(ds_status) x d.(ds_bidir) d.(ds_cached) d.(ds_command) d.(ds_programming) d.(ds_initialized) d.(ds_frequency) d.(ds_bdshot_timer_channels) d.(ds_commands) d.(ds_eeprom_writes) d.(ds_log) d.(ds_now) d.(ds_hw) d.(ds_sent).
Definition set_bidir (x : _) (d : D) : D :=
  mkDShot _ _ d.(ds_masks) d.(ds_status) d.(ds_serial) x d.(ds_cached) d.(ds_command) d.(ds_programming) d.(ds_initialized) d.(ds_frequency) d.(ds_bdshot_timer_channels) d.(ds_commands) d.(ds_eeprom_writes) d.(ds_log) d.(ds_now) d.(ds_hw) d.(ds_sent).
Definition set_cached (x : _) (d : D) : D :=
  mkDShot _ _ d.(ds_masks) d.(ds_status) d.(ds_serial) d.(ds_bidir) x d.(ds_command) d.(ds_programming) d.(ds_initialized) d.(ds_frequency) d.(ds_bdshot_timer_channels) d.(ds_commands) d.(ds_eeprom_writes) d.(ds_log) d.(ds_now) d.(ds_hw) d.(ds_sent).
Definition set_command (x : _) (d : D) : D :=
  mkDShot _ _ d.(ds_masks) d.(ds_status) d.(ds_serial) d.(ds_bidir) d.(ds_cached) x d.(ds_programming) d.(ds_initialized) d.(ds_frequency) d.(ds_bdshot_timer_channels) d.(ds_commands) d.(ds_eeprom_writes) d.(ds_log) d.(ds_now) d.(ds_hw) d.(ds_sent).
Definition set_programming (x : _) (d : D) : D :=
  mkDShot _ _ d.(ds_masks) d.(ds_status) d.(ds_serial) d.(ds_bidir) d.(ds_cached) d.(ds_command) x d.(ds_initialized) d.(ds_frequency) d.(ds_bdshot_timer_channels) d.(ds_commands) d.(ds_eeprom_writes) d.(ds_log) d.(ds_now) d.(ds_hw) d.(ds_sent).
Definition set_initialized (x : _) (d : D) : D :=
  mkDShot _ _ d.(ds_masks) d.(ds_status) d.(ds_serial) d.(ds_bidir) d.(ds_cached) d.(ds_command) d.(ds_programming) x d.(ds_frequency) d.(ds_bdshot_timer_channels) d.(ds_commands) d.(ds_eeprom_writes) d.(ds_log) d.(ds_now) d.(ds_hw) d.(ds_sent).
Definition set_frequency (x : _) (d : D) : D :=
  mkDShot _ _ d.(ds_masks) d.(ds_status) d.(ds_serial) d.(ds_bidir) d.(ds_cached) d.(ds_command) d.(ds_programming) d.(ds_initialized) x d.(ds_bdshot_timer_channels) d.(ds_commands) d.(ds_eeprom_writes) d.(ds_log) d.(ds_now) d.(ds_hw) d.(ds_sent).
Definition set_bdshot_timer_channels (x : _) (d : D) : D :=
  mkDShot _ _ d.(ds_masks) d.(ds_status) d.(ds_serial) d.(ds_bidir) d.(ds_cached) d.(ds_command) d.(ds_programming) d.(ds_initialized) d.(ds_frequency) x d.(ds_commands) d.(ds_eeprom_writes) d.(ds_log) d.(ds_now) d.(ds_hw) d.(ds_sent).
Definition set_commands (x : _) (d : D) : D :=
  mkDShot _ _ d.(ds_masks) d.(ds_status) d.(ds_serial) d.(ds_bidir) d.(ds_cached) d.(ds_command) d.(ds_programming) d.(ds_initialized) d.(ds_frequency) d.(ds_bdshot_timer_channels) x d.(ds_eeprom_writes) d.(ds_log) d.(ds_now) d.(ds_hw) d.(ds_sent).
Definition set_eeprom_writes (x : _) (d : D) : D :=
  mkDShot _ _ d.(ds_masks) d.(ds_status) d.(ds_serial) d.(ds_bidir) d.(ds_cached) d.(ds_command) d.(ds_programming) d.(ds_initialized) d.(ds_frequency) d.(ds_bdshot_timer_channels) d.(ds_commands) x d.(ds_log) d.(ds_now) d.(ds_hw) d.(ds_sent).
Definition set_log (x : _) (d : D) : D :=
  mkDShot _ _ d.(ds_masks) d.(ds_status) d.(ds_serial) d.(ds_bidir) d.(ds_cached) d.(ds_command) d.(ds_programming) d.(ds_initialized) d.(ds_frequency) d.(ds_bdshot_timer_channels) d.(ds_commands) d.(ds_eeprom_writes) x d.(ds_now) d.(ds_hw) d.(ds_sent).
Definition set_now (x : _) (d : D) : D :=
  mkDShot _ _ d.(ds_masks) d.(ds_status) d.(ds_serial) d.(ds_bidir) d.(ds_cached) d.(ds_command) d.(ds_programming) d.(ds_initialized) d.(ds_frequency) d.(ds_bdshot_timer_channels) d.(ds_commands) d.(ds_eeprom_writes) d.(ds_log) x d.(ds_hw) d.(ds_sent).
Definition set_hw (x : _) (d : D) : D :=
  mkDShot _ _ d.(ds_masks) d.(ds_status) d.(ds_serial) d.(ds_bidir) d.(ds_cached) d.(ds_command) d.(ds_programming) d.(ds_initialized) d.(ds_frequency) d.(ds_bdshot_timer_channels) d.(ds_commands) d.(ds_eeprom_writes) d.(ds_log) d.(ds_now) x d.(ds_sent).
Definition set_sent (x : _) (d : D) : D :=
  mkDShot _ _ d.(ds_masks) d.(ds_status) d.(ds_serial) d.(ds_bidir) d.(ds_cached) d.(ds_command) d.(ds_programming) d.(ds_initialized) d.(ds_frequency) d.(ds_bdshot_timer_channels) d.(ds_commands) d.(ds_eeprom_writes) d.(ds_log) d.(ds_now) d.(ds_hw) x.

Definition on_serial (f : serial -> serial) (d : D) : D := set_serial (f d.(ds_serial)) d.
Definition with_telemetry (t : DShotTelemetry) (s : serial) : serial :=
  mkSerial s.(sr_enabled) s.(sr_online_mask) s.(sr_errors) s.(sr_online_timestamps) s.(sr_skip_mask) s.(sr_consecutive_timeouts) s.(sr_last_retry) t s.(sr_motor_index)
    s.(sr_requested_mask) s.(sr_delay_until) s.(sr_settings_requested_mask).
Definition with_polling (motor_index requested_mask : Z) (s : serial) : serial :=
  mkSerial s.(sr_enabled) s.(sr_online_mask) s.(sr_errors) s.(sr_online_timestamps) s.(sr_skip_mask) s.(sr_consecutive_timeouts) s.(sr_last_retry) s.(sr_telemetry) motor_index
    requested_mask s.(sr_delay_until) s.(sr_settings_requested_mask).
Definition with_delay (until : Z) (s : serial) : serial :=
  mkSerial s.(sr_enabled) s.(sr_online_mask) s.(sr_errors) s.(sr_online_timestamps) s.(sr_skip_mask) s.(sr_consecutive_timeouts) s.(sr_last_retry) s.(sr_telemetry) s.(sr_motor_index)
    s.(sr_requested_mask) until s.(sr_settings_requested_mask).
Definition with_settings_requested (mask : Z) (s : serial) : serial :=
  mkSerial s.(sr_enabled) s.(sr_online_mask) s.(sr_errors) s.(sr_online_timestamps) s.(sr_skip_mask) s.(sr_consecutive_timeouts) s.(sr_last_retry) s.(sr_telemetry) s.(sr_motor_index)
    s.(sr_requested_mask) s.(sr_delay_until) mask.
Definition with_skip (mask : Z) (timeouts : list Z) (last_retry : Z) (s : serial) : serial :=
  mkSerial s.(sr_enabled) s.(sr_online_mask) s.(sr_errors) s.(sr_online_timestamps) mask timeouts last_retry s.(sr_telemetry) s.(sr_motor_index)
    s.(sr_requested_mask) s.(sr_delay_until) s.(sr_settings_requested_mask).
Definition with_online (mask : Z) (errors timestamps : list Z) (s : serial) : serial :=
  mkSerial s.(sr_enabled) mask errors timestamps s.(sr_skip_mask) s.(sr_consecutive_timeouts) s.(sr_last_retry) s.(sr_telemetry) s.(sr_motor_index)
    s.(sr_requested_mask) s.(sr_delay_until) s.(sr_settings_requested_mask).

(** [motor_index_from_output] *)
Definition motor_index_from_output (m : MixingOutput) (output_channel : nat) : Z :=
  if negb (isMotor m output_channel) then -1
  else
    let idx := outputFunction m output_channel - Motor1 in
    if (0 <=? idx) && (idx <? Z.of_nat DSHOT_MAX_MOTORS) then idx else -1.

(** ** Commands *)
Definition esc_armed_mask (m : MixingOutput) (outputs : list Z) : Z :=
  foldl Z.lor 0 (imap (λ i output,
    let motor_index := motor_index_from_output m i in
    if (0 <=? motor_index) && negb (output =? DSHOT_DISARM_VALUE) then Z.shiftl 1 motor_index else 0) outputs).

(** The first motor of [mask] from [i] on that satisfies [p]. *)
Fixpoint first_motor (n : nat) (i : Z) (mask : Z) (p : Z -> bool) : option Z :=
  match n with
  | O => None
  | S n' => if Z.testbit mask i && p i then Some i else first_motor n' (i + 1) mask p
  end.

(** The pending write request, while no programming is active. *)
Definition take_eeprom_write (d : D) : D :=
  if d.(ds_programming).(pg_active) then d
  else
    match d.(ds_eeprom_writes) with
    | [] => d
    | w :: rest =>
      let p := d.(ds_programming) in
      let invalid := negb (w.(ew_index) =? 255) && (Z.of_nat DSHOT_MAX_MOTORS <=? w.(ew_index)) in
      set_programming (mkProgramming w (negb invalid) p.(pg_written) p.(pg_state) p.(pg_address) p.(pg_value)) (set_eeprom_writes rest d)
    end.

Definition mask_bit (m : Z * Z) (i : Z) : bool := Z.testbit (if i / 32 =? 0 then m.1 else m.2) (i mod 32).
Definition mask_set (m : Z * Z) (i : Z) : Z * Z :=
  if i / 32 =? 0 then (Z.lor m.1 (Z.shiftl 1 (i mod 32)), m.2) else (m.1, Z.lor m.2 (Z.shiftl 1 (i mod 32))).

(** The next setting to write. *)
Fixpoint next_setting (n : nat) (i : Z) (p : programming) : option Z :=
  match n with
  | O => None
  | S n' => if mask_bit p.(pg_write).(ew_write_mask) i && negb (mask_bit p.(pg_written) i) then Some i else next_setting n' (i + 1) p
  end.

Definition programming_motor_mask (w : esc_eeprom_write) : Z := if w.(ew_index) =? 255 then 2 ^ 9 - 1 else u16 (Z.shiftl 1 w.(ew_index)).

(** The idle state: the next setting is chosen, or all are written. *)
Definition program_idle (d : D) : option D :=
  let p := d.(ds_programming) in
  let w := p.(pg_write) in
  match next_setting (Z.to_nat (Z.min w.(ew_length) 48)) 0 p with
  | Some i =>
    value ← zlookup w.(ew_data) i;
    Some (set_programming (mkProgramming w p.(pg_active) (mask_set p.(pg_written) i) EnterMode i value) d)
  | None =>
    let d := set_programming (mkProgramming w false (0, 0) Idle p.(pg_address) p.(pg_value)) d in
    let d := set_command (mkDCommand DSHOT_CMD_SAVE_SETTINGS 6 (programming_motor_mask w) false false) d in
    Some (on_serial (λ s, with_delay (u64 (d.(ds_now) + 500000)) (with_settings_requested (Z.ldiff s.(sr_settings_requested_mask) (programming_motor_mask w)) s)) d)
  end.

(** The command of the state, and the next state. *)
Definition program_command (d : D) : D :=
  let p := d.(ds_programming) in
  let step command repetitions state :=
    set_command (mkDCommand command repetitions (programming_motor_mask p.(pg_write)) d.(ds_command).(dc_save) d.(ds_command).(dc_expect_response))
      (set_programming (mkProgramming p.(pg_write) p.(pg_active) p.(pg_written) state p.(pg_address) p.(pg_value)) d) in
  match p.(pg_state) with
  | EnterMode => step DSHOT_CMD_ENTER_PROGRAMMING_MODE 6 SendAddress
  | SendAddress => step p.(pg_address) 1 SendValue
  | SendValue => step p.(pg_value) 1 ExitMode
  | ExitMode => step DSHOT_CMD_EXIT_PROGRAMMING_MODE 1 Idle
  | Idle => d
  end.

Definition program (d : D) : option D :=
  d ← (match d.(ds_programming).(pg_state) with Idle => program_idle d | _ => Some d end);
  Some (program_command d).

(** [select_next_command] *)
Definition select_next_command (d : D) : option D :=
  let d := take_eeprom_write d in
  let needs_edt_request_mask := u16 (Z.ldiff d.(ds_bidir).(bd_online_mask) d.(ds_bidir).(bd_edt_requested_mask)) in
  let needs_settings_request_mask := u16 (Z.ldiff d.(ds_serial).(sr_online_mask) d.(ds_serial).(sr_settings_requested_mask)) in
  let serial_telem_delay_elapsed := d.(ds_serial).(sr_delay_until) <? d.(ds_now) in
  let d := set_command command_clear d in
  let edt_motors_to_request := u16 (Z.land d.(ds_masks).(mk_bdshot_motor) needs_edt_request_mask) in
  let settings_motors_to_request := u16 (Z.land d.(ds_masks).(mk_motor) needs_settings_request_mask) in
  if d.(ds_cached).(ca_edt_enabled) && negb (edt_motors_to_request =? 0) then
    let b := d.(ds_bidir) in
    let online_long_enough i :=
      let since := default 0 (zlookup b.(bd_online_timestamps) i) in negb ((since =? 0) || (u64 (d.(ds_now) - since) <? 1000000)) in
    match first_motor DSHOT_MAX_MOTORS 0 edt_motors_to_request online_long_enough with
    | Some i =>
      Some (set_bidir (mkBidir b.(bd_online_mask) b.(bd_errors) (Z.lor b.(bd_edt_requested_mask) (Z.shiftl 1 i)) b.(bd_online_timestamps))
        (set_command (mkDCommand DSHOT_EXTENDED_TELEMETRY_ENABLE 10 (Z.shiftl 1 i) false false) d))
    | None => Some d
    end
  else if negb (d.(ds_cached).(ca_esc_type) =? 0) && d.(ds_serial).(sr_enabled) && serial_telem_delay_elapsed && negb (settings_motors_to_request =? 0) then
    match first_motor DSHOT_MAX_MOTORS 0 settings_motors_to_request (λ _, true) with
    | Some i =>
      Some (on_serial (λ s, with_settings_requested (Z.lor s.(sr_settings_requested_mask) (Z.shiftl 1 i)) s)
        (set_command (mkDCommand DSHOT_CMD_ESC_INFO 6 (Z.shiftl 1 i) false true) d))
    | None => Some d
    end
  else if d.(ds_programming).(pg_active) then program d
  else Some d.

(** ** Outputs *)

(** [convert_output_to_3d_scaling] *)
Definition convert_output_to_3d_scaling (c : cached) (output : Z) : Z :=
  if (c.(ca_3d_dead_l) <=? output) && (output <=? c.(ca_3d_dead_h)) then DSHOT_DISARM_VALUE
  else
    let upper_range := 1000 <=? output in
    let output := u16 (if upper_range then output - 1000 else 999 - output) in
    let max_output := f32_of_int 999 in
    let min_output := f32_mul max_output c.(ca_dshot_min) in
    let scaled := f32_add min_output (f32_divide (f32_mul (f32_of_int output) (f32_sub max_output min_output)) max_output) in
    let output := f32_to_uint16 (if f32_lt max_output scaled then max_output else scaled) in
    if upper_range then u16 (output + 1000) else output.

(** [calculate_output_value] *)
Definition calculate_output_value (m : MixingOutput) (c : cached) (raw : Z) (index : nat) : Z :=
  let output := if c.(ca_3d_enabled) || Z.testbit m.(_reversible_mask) (Z.of_nat index) then convert_output_to_3d_scaling c raw else raw in
  Z.min output DSHOT_MAX_THROTTLE.

(** One output of [update_motor_outputs] *)
Definition update_motor_output (m : MixingOutput) (i : nat) (output : Z) (d : D) : option D :=
  let motor_index := motor_index_from_output m i in
  if motor_index <? 0 then h ← motor_command (Z.of_nat i) DSHOT_CMD_MOTOR_STOP false d.(ds_hw); Some (set_hw h d)
  else
    let s := d.(ds_serial) in
    let set_telemetry_bit :=
      (s.(sr_motor_index) =? motor_index) && s.(sr_enabled) && telemetryResponseFinished s.(sr_telemetry) && commandResponseFinished s.(sr_telemetry) && (s.(sr_delay_until) <? d.(ds_now)) in
    let d := if set_telemetry_bit then on_serial (with_telemetry (startTelemetryRequest d.(ds_now) s.(sr_telemetry))) d else d in
    h ← (if output =? DSHOT_DISARM_VALUE then motor_command (Z.of_nat i) DSHOT_CMD_MOTOR_STOP set_telemetry_bit d.(ds_hw)
         else
           let output := calculate_output_value m d.(ds_cached) output i in
           if output =? DSHOT_DISARM_VALUE then motor_command (Z.of_nat i) DSHOT_CMD_MOTOR_STOP set_telemetry_bit d.(ds_hw)
           else motor_throttle (Z.of_nat i) output set_telemetry_bit d.(ds_hw));
    Some (set_hw h d).

Fixpoint update_motor_outputs (m : MixingOutput) (outputs : list Z) (i : nat) (d : D) : option D :=
  match outputs with
  | [] => Some d
  | output :: outputs' => d ← update_motor_output m i output d; update_motor_outputs m outputs' (S i) d
  end.

(** The loop of [update_motor_commands] over [n] outputs from [i] on. *)
Fixpoint send_commands (m : MixingOutput) (n : nat) (i : nat) (sent : bool) (d : D) : option (bool * D) :=
  match n with
  | O => Some (sent, d)
  | S n' =>
    let motor_index := motor_index_from_output m i in
    let addressed := (0 <=? motor_index) && Z.testbit d.(ds_command).(dc_motor_mask) motor_index in
    let d := if addressed && d.(ds_command).(dc_expect_response) then
               on_serial (λ s, with_telemetry (setExpectCommandResponse d.(ds_now) motor_index d.(ds_command).(dc_command) s.(sr_telemetry)) s) d
             else d in
    h ← motor_command (Z.of_nat i) (if addressed then d.(ds_command).(dc_command) else DSHOT_CMD_MOTOR_STOP) false d.(ds_hw);
    send_commands m n' (S i) (sent || addressed) (set_hw h d)
  end.

(** One repetition has been sent; a save command follows the last one if requested. *)
Definition command_sent (c : DShotCommand) : DShotCommand :=
  let n := c.(dc_num_repetitions) - 1 in
  if (n =? 0) && c.(dc_save) then mkDCommand DSHOT_CMD_SAVE_SETTINGS 10 c.(dc_motor_mask) false c.(dc_expect_response)
  else mkDCommand c.(dc_command) n c.(dc_motor_mask) c.(dc_save) c.(dc_expect_response).

Definition update_motor_commands (m : MixingOutput) (num_outputs : nat) (d : D) : option D :=
  '(sent, d) ← send_commands m num_outputs 0 false d;
  Some (if (sent : bool) then set_command (command_sent d.(ds_command)) d else d).

Definition with_armed_flags (flags : Z) (s : esc_status) : esc_status :=
  mkStatus s.(st_timestamp) s.(st_counter) s.(st_esc_count) s.(st_connectiontype) s.(st_online_flags) flags s.(st_esc).

(** [updateOutputs] *)
Definition dshot_updateOutputs (m : MixingOutput) (outputs : list Z) (has_updates : bool) (d : D) : option (bool * D) :=
  if negb d.(ds_initialized) || (d.(ds_masks).(mk_motor_count) =? 0) then Some (false, d)
  else
    let hw_outputs := map (λ x, u16 (f32_lround x)) outputs in
    let d := set_status (with_armed_flags (u16 (esc_armed_mask m hw_outputs)) d.(ds_status)) d in
    let armed := negb (d.(ds_status).(st_armed_flags) =? 0) in
    d ← (if negb armed then
           d ← (if telemetryResponseFinished d.(ds_serial).(sr_telemetry) && finished d.(ds_command) && commandResponseFinished d.(ds_serial).(sr_telemetry)
                then select_next_command d else Some d);
           if negb (finished d.(ds_command)) then update_motor_commands m (length outputs) d else update_motor_outputs m hw_outputs 0 d
         else update_motor_outputs m hw_outputs 0 d);
    '(h, sent) ← hw_trigger d.(ds_now) d.(ds_hw);
    Some (true, set_sent (sent :: d.(ds_sent)) (set_hw h d)).

(** ** Telemetry *)
Definition get_pole_count (d : D) (motor_index : Z) : Z := default 14 (zlookup d.(ds_cached).(ca_pole_counts) motor_index).

(** [constrained to 2 to avoid divide by zero] *)
Definition pole_pairs (d : D) (motor_index : Z) : Z := Z.max (get_pole_count d motor_index) 2 ÷ 2.

Definition bit_set (mask i : Z) (b : bool) : Z := if b then Z.lor mask (Z.shiftl 1 i) else Z.ldiff mask (Z.shiftl 1 i).

(** [consume_esc_data] *)
Definition consume_esc_data (e : EscData) (d : D) : option D :=
  let i := e.(esc_motor_index) in
  if negb ((0 <=? i) && (i <=? Z.of_nat DSHOT_MAX_MOTORS - 1)) then Some d
  else
    let is_bdshot := Z.testbit d.(ds_masks).(mk_bdshot_motor) i in
    let s := d.(ds_serial) in
    let motor_online := (negb is_bdshot || Z.testbit d.(ds_bidir).(bd_online_mask) i) && (negb s.(sr_enabled) || Z.testbit s.(sr_online_mask) i) in
    serial_errors ← zlookup s.(sr_errors) i;
    bdshot_errors ← zlookup d.(ds_bidir).(bd_errors) i;
    r ← zlookup d.(ds_status).(st_esc) i;
    let errorcount := u32 (serial_errors + bdshot_errors) in
    let rpm := e.(esc_erpm) ÷ pole_pairs d i in
    let r :=
      match e.(esc_source) with
      | Serial =>
        mkReport (if is_bdshot then r.(rp_timestamp) else e.(esc_timestamp)) errorcount (if is_bdshot then r.(rp_rpm) else rpm) e.(esc_voltage) e.(esc_current) e.(esc_temperature) r.(rp_actuator_function)
      | BDShot =>
        if s.(sr_enabled) then mkReport e.(esc_timestamp) errorcount rpm r.(rp_voltage) r.(rp_current) r.(rp_temperature) r.(rp_actuator_function)
        else mkReport e.(esc_timestamp) errorcount rpm e.(esc_voltage) e.(esc_current) e.(esc_temperature) r.(rp_actuator_function)
      end in
    esc ← zstore d.(ds_status).(st_esc) i r;
    let st := d.(ds_status) in
    Some (set_status (mkStatus st.(st_timestamp) st.(st_counter) st.(st_esc_count) st.(st_connectiontype) (bit_set st.(st_online_flags) i motor_online) st.(st_armed_flags) esc) d).

(** The search of [set_next_telemetry_index]: the first motor of [mask] not in [requested],
    from [motor] on, among [n]. *)
Fixpoint next_motor (n : nat) (motor mask requested : Z) : option Z :=
  match n with
  | O => None
  | S n' => if Z.testbit mask motor && negb (Z.testbit requested motor) then Some motor else next_motor n' ((motor + 1) mod Z.of_nat DSHOT_MAX_MOTORS) mask requested
  end.

Definition set_next_telemetry_index (motor_mask : Z) (s : serial) : bool * serial :=
  let active_motor_mask := u16 (Z.ldiff motor_mask s.(sr_skip_mask)) in
  if active_motor_mask =? 0 then (true, with_polling (-1) 0 s)
  else
    let start := if s.(sr_motor_index) <? 0 then 0 else (s.(sr_motor_index) + 1) mod Z.of_nat DSHOT_MAX_MOTORS in
    match next_motor DSHOT_MAX_MOTORS start active_motor_mask s.(sr_requested_mask) with
    | Some motor => (false, with_polling motor (Z.lor s.(sr_requested_mask) (Z.shiftl 1 motor)) s)
    | None => (true, with_polling (-1) 0 s)
    end.

Definition next_telemetry (d : D) : bool * D :=
  let '(all, s) := set_next_telemetry_index d.(ds_masks).(mk_motor) d.(ds_serial) in (all, set_serial s d).

(** A response that was not received: the error is counted and the motor goes offline. *)
Definition serial_failure (i : Z) (s : serial) : option serial :=
  errors ← zlookup s.(sr_errors) i;
  errors ← zstore s.(sr_errors) i (u32 (errors + 1));
  timestamps ← zstore s.(sr_online_timestamps) i 0;
  Some (with_online (Z.ldiff s.(sr_online_mask) (Z.shiftl 1 i)) errors timestamps s).

(** A motor that does not answer [SERIAL_TELEM_SKIP_THRESHOLD] times is not polled. *)
Definition count_timeout (i : Z) (s : serial) : option serial :=
  n ← zlookup s.(sr_consecutive_timeouts) i;
  if n <? SERIAL_TELEM_SKIP_THRESHOLD then
    timeouts ← zstore s.(sr_consecutive_timeouts) i (n + 1);
    Some (with_skip (if SERIAL_TELEM_SKIP_THRESHOLD <=? n + 1 then Z.lor s.(sr_skip_mask) (Z.shiftl 1 i) else s.(sr_skip_mask)) timeouts s.(sr_last_retry) s)
  else Some s.

(** The skipped motors are polled again from time to time while disarmed. *)
Definition retry_skipped (now armed_flags : Z) (s : serial) : serial :=
  if (armed_flags =? 0) && negb (s.(sr_skip_mask) =? 0) && (SERIAL_TELEM_RETRY_INTERVAL <? hrt_elapsed_time now s.(sr_last_retry)) then
    with_skip 0 (replicate DSHOT_MAX_MOTORS 0) now s
  else s.

(** The result of a poll of motor [i]. *)
Definition serial_polled (i : Z) (status : TelemetryStatus) (e : EscData) (d : D) : option (bool * D) :=
  let s := d.(ds_serial) in
  match status with
  | NotStarted | NotReady => Some (false, d)
  | Ready =>
    timeouts ← zstore s.(sr_consecutive_timeouts) i 0;
    let s := with_skip (Z.ldiff s.(sr_skip_mask) (Z.shiftl 1 i)) timeouts s.(sr_last_retry) s in
    if Z.testbit s.(sr_online_mask) i then d ← consume_esc_data e (set_serial s d); Some (next_telemetry d)
    else
      since ← zlookup s.(sr_online_timestamps) i;
      let since := if since =? 0 then d.(ds_now) else since in
      timestamps ← zstore s.(sr_online_timestamps) i since;
      let mask := if 100000 <? u64 (d.(ds_now) - since) then Z.lor s.(sr_online_mask) (Z.shiftl 1 i) else s.(sr_online_mask) in
      Some (false, set_serial (with_online mask s.(sr_errors) timestamps s) d)
  | Timeout => s ← serial_failure i s; s ← count_timeout i s; d ← consume_esc_data e (set_serial s d); Some (next_telemetry d)
  | ParseError =>
    s ← serial_failure i s;
    d ← consume_esc_data e (set_serial s d);
    let '(all, d) := next_telemetry d in
    Some (all, on_serial (with_delay (u64 (d.(ds_now) + 1000000))) d)
  end.

(** [process_serial_telemetry]; [got] are the bytes that the port gives. *)
Definition process_serial_telemetry (got : list Z) (d : D) : option (bool * D) :=
  if negb d.(ds_serial).(sr_enabled) then Some (false, d)
  else
    let d := on_serial (retry_skipped d.(ds_now) d.(ds_status).(st_armed_flags)) d in
    let t := d.(ds_serial).(sr_telemetry) in
    if negb (commandResponseFinished t) then
      if commandResponseStarted t then
        '(t, published) ← parseCommandResponse d.(ds_now) got t;
        let d := on_serial (with_telemetry t) d in
        Some (false, match published with Some (index, data) => set_log (EvEeprom index data :: d.(ds_log)) d | None => d end)
      else Some (false, d)
    else if d.(ds_serial).(sr_motor_index) <? 0 then Some (false, (next_telemetry d).2)
    else
      let i := d.(ds_serial).(sr_motor_index) in
      '(status, e, t) ← parseTelemetryPacket d.(ds_now) got t (mkEsc i 0 Serial 0 0 0 0);
      serial_polled i status e (on_serial (with_telemetry t) d).

(** What a controller reports: its extended telemetry, the previous value where there is
    no new one. *)
Definition bdshot_extended (channel type : Z) (convert : Z -> Z) (previous : Z) (d : D) : option (Z * D) :=
  '(value, h) ← hw_get_edt channel type d.(ds_hw);
  Some (match value with Some v => convert v | None => previous end, set_hw h d).

Definition bdshot_report (channel i : Z) (r : esc_report) (d : D) : option (EscData * D) :=
  '(erpm, h) ← hw_get_erpm channel d.(ds_hw);
  let d := set_hw h d in
  let erpm := match erpm with Some v => s32 (v * 100) | None => s32 (r.(rp_rpm) * pole_pairs d i) end in
  if d.(ds_cached).(ca_edt_enabled) then
    '(temperature, d) ← bdshot_extended channel DSHOT_EDT_TEMPERATURE f32_of_int r.(rp_temperature) d;
    '(voltage, d) ← bdshot_extended channel DSHOT_EDT_VOLTAGE (λ v, f32_divide (f32_of_int v) F_4) r.(rp_voltage) d;
    '(current, d) ← bdshot_extended channel DSHOT_EDT_CURRENT (λ v, f32_divide (f32_of_int v) F_2) r.(rp_current) d;
    Some (mkEsc i d.(ds_now) BDShot temperature voltage current erpm, d)
  else Some (mkEsc i d.(ds_now) BDShot 0 0 0 erpm, d).

Definition bdshot_online (i : Z) (errors : list Z) (b : bidirectional) (now : Z) : option bidirectional :=
  timestamps ← (if Z.testbit b.(bd_online_mask) i then Some b.(bd_online_timestamps) else zstore b.(bd_online_timestamps) i now);
  Some (mkBidir (Z.lor b.(bd_online_mask) (Z.shiftl 1 i)) errors b.(bd_edt_requested_mask) timestamps).
Definition bdshot_offline (i : Z) (errors : list Z) (b : bidirectional) : option bidirectional :=
  timestamps ← zstore b.(bd_online_timestamps) i 0;
  Some (mkBidir (Z.ldiff b.(bd_online_mask) (Z.shiftl 1 i)) errors (Z.ldiff b.(bd_edt_requested_mask) (Z.shiftl 1 i)) timestamps).

(** One channel of [process_bdshot_telemetry] *)
Definition bdshot_channel (m : MixingOutput) (channel : nat) (d : D) : option D :=
  let i := motor_index_from_output m channel in
  if negb (Z.testbit d.(ds_masks).(mk_bdshot_output) (Z.of_nat channel)) || (i <? 0) then Some d
  else
    n ← hw_num_errors (Z.of_nat channel) d.(ds_hw);
    errors ← zstore d.(ds_bidir).(bd_errors) i n;
    online ← hw_online (Z.of_nat channel) d.(ds_hw);
    if (online : bool) then
      b ← bdshot_online i errors d.(ds_bidir) d.(ds_now);
      r ← zlookup d.(ds_status).(st_esc) i;
      '(e, d) ← bdshot_report (Z.of_nat channel) i r (set_bidir b d);
      consume_esc_data e d
    else
      b ← bdshot_offline i errors d.(ds_bidir);
      consume_esc_data (mkEsc i d.(ds_now) BDShot 0 0 0 0) (set_bidir b d).

Fixpoint bdshot_channels (m : MixingOutput) (channels : list nat) (d : D) : option D :=
  match channels with
  | [] => Some d
  | c :: channels' => d ← bdshot_channel m c d; bdshot_channels m channels' d
  end.

(** [process_bdshot_telemetry] *)
Definition process_bdshot_telemetry (m : MixingOutput) (d : D) : option (bool * D) :=
  let mask := d.(ds_masks).(mk_bdshot_output) in
  if (mask =? 0) || (d.(ds_now) <? ESC_INIT_TELEM_DELAY) || negb (Z.land (hw_ready_mask d.(ds_hw)) mask =? mask) then Some (false, d)
  else d ← bdshot_channels m (seq 0 DSHOT_MAXIMUM_CHANNELS) d; Some (true, d).

(** ** Vehicle commands *)

(** [0.5] *)
Definition F64_HALF : Z := 1022 * 2 ^ 52.
Definition VEHICLE_CMD_CONFIGURE_ACTUATOR : Z := 311.
Definition VEHICLE_CMD_ESC_REQUEST_EEPROM : Z := 312.
Definition VEHICLE_CMD_RESULT_ACCEPTED : Z := 0.
Definition VEHICLE_CMD_RESULT_UNSUPPORTED : Z := 3.

(** The function that a command addresses, in the numbers of PX4. *)
Definition command_function (param5 : Z) : Z :=
  let function := f64_to_int32 (f64_add param5 F64_HALF) in
  if 1000 <? function then function - 1000 else if (1 <=? function) && (function <=? 16) then function + 100 else function.

(** The motor that has the function, the last one if there are several. *)
Definition command_motor (m : MixingOutput) (function : Z) : Z :=
  if (Motor1 <=? function) && (function <? Motor1 + Z.of_nat DSHOT_MAXIMUM_CHANNELS) then
    foldl (λ motor i, if (outputFunction m i =? function) && isMotor m i then outputFunction m i - Motor1 else motor) (-1) (seq 0 DSHOT_MAXIMUM_CHANNELS)
  else -1.

(** The command of a configuration type and whether it is saved. *)
Definition configuration_command (type : Z) : Z * bool :=
  if type =? 1 then (DSHOT_CMD_BEEP1, false)
  else if type =? 2 then (DSHOT_CMD_3D_MODE_ON, true)
  else if type =? 3 then (DSHOT_CMD_3D_MODE_OFF, true)
  else if type =? 4 then (DSHOT_CMD_SPIN_DIRECTION_1, true)
  else if type =? 5 then (DSHOT_CMD_SPIN_DIRECTION_2, true)
  else (DSHOT_CMD_MOTOR_STOP, false).

(** [handle_configure_actuator]; of the acknowledgement, the command and the result. *)
Definition handle_configure_actuator (m : MixingOutput) (c : vehicle_command) (d : D) : D :=
  let motor_index := command_motor m (command_function c.(vc_param5)) in
  let ack result (d : D) := set_log (EvAck c.(vc_command) result :: d.(ds_log)) d in
  if (0 <=? motor_index) && (motor_index <? Z.of_nat DSHOT_MAX_MOTORS) then
    let '(command, save) := configuration_command (f32_lround c.(vc_param1)) in
    if command =? DSHOT_CMD_MOTOR_STOP then ack VEHICLE_CMD_RESULT_UNSUPPORTED (set_command (mkDCommand command 10 0 save false) d)
    else ack VEHICLE_CMD_RESULT_ACCEPTED (set_command (mkDCommand command 10 (Z.shiftl 1 motor_index) save false) d)
  else ack VEHICLE_CMD_RESULT_UNSUPPORTED d.

(** [handle_esc_request_eeprom] *)
Definition handle_esc_request_eeprom (c : vehicle_command) (d : D) : D :=
  let esc_index := f32_lround c.(vc_param2) in
  if negb (esc_index =? 255) && ((esc_index <? 0) || (Z.of_nat DSHOT_MAX_MOTORS <=? esc_index)) then d
  else if esc_index =? 255 then on_serial (with_settings_requested 0) d
  else on_serial (λ s, with_settings_requested (Z.ldiff s.(sr_settings_requested_mask) (Z.shiftl 1 esc_index)) s) d.

Definition handle_vehicle_command (m : MixingOutput) (c : vehicle_command) (d : D) : D :=
  if c.(vc_command) =? VEHICLE_CMD_CONFIGURE_ACTUATOR then handle_configure_actuator m c d
  else if c.(vc_command) =? VEHICLE_CMD_ESC_REQUEST_EEPROM then handle_esc_request_eeprom c d
  else d.

(** [handle_vehicle_commands]: the pending messages until one of them is a command to send. *)
Fixpoint handle_pending (m : MixingOutput) (pending : list vehicle_command) (d : D) : D :=
  if negb (finished d.(ds_command)) then set_commands pending d
  else
    match pending with
    | [] => set_commands [] d
    | c :: pending' => handle_pending m pending' (handle_vehicle_command m c d)
    end.
Definition handle_vehicle_commands (m : MixingOutput) (d : D) : D := handle_pending m d.(ds_commands) d.

(** ** Parameters and set-up *)

(** The parameters of the driver. *)
Record dshot_params := mkDParams { dp_edt : bool; dp_3d_enable : bool; dp_3d_dead_l : Z; dp_3d_dead_h : Z; dp_min : Z; dp_esc_type : Z; dp_pole_count : nat -> option Z }.

(** The minimum output: a fraction of the throttle range. *)
Definition dshot_min_value (dshot_min : Z) : Z :=
  let v := f32_to_uint16 (f32_mul dshot_min (f32_of_int DSHOT_MAX_THROTTLE)) in
  if v <? DSHOT_MIN_THROTTLE then DSHOT_MIN_THROTTLE else if DSHOT_MAX_THROTTLE <? v then DSHOT_MAX_THROTTLE else v.

(** [update_params] *)
Definition update_params (pr : params) (dp : dshot_params) (m : MixingOutput) (d : D) : MixingOutput * D :=
  let m := updateParams pr m in
  let m := setAllMinValues (dshot_min_value dp.(dp_min)) m in
  let m := foldl (λ m i, if Z.testbit m.(_reversible_mask) (Z.of_nat i) then setMinValue i DSHOT_MIN_THROTTLE m else m) m (seq 0 DSHOT_MAXIMUM_CHANNELS) in
  let pole_counts := map (λ i, default 14 (dp.(dp_pole_count) i)) (seq 0 DSHOT_MAX_MOTORS) in
  (m, set_cached (mkCached dp.(dp_edt) dp.(dp_3d_enable) dp.(dp_3d_dead_l) dp.(dp_3d_dead_h) dp.(dp_min) dp.(dp_esc_type) pole_counts) d).

Definition popcount (mask : Z) : Z := Z.of_nat (length (List.filter (λ i, Z.testbit mask (Z.of_nat i)) (seq 0 32))).

(** The channels that have a motor and the motors, as a pair of masks. *)
Definition motor_masks (m : MixingOutput) (channels : list nat) : Z * Z :=
  foldl (λ '(output_mask, motor_mask) c,
    let i := motor_index_from_output m c in
    if 0 <=? i then (Z.lor output_mask (Z.shiftl 1 (Z.of_nat c)), Z.lor motor_mask (Z.shiftl 1 i)) else (output_mask, motor_mask)) (0, 0) channels.

Definition set_function (f : Z) (r : esc_report) : esc_report :=
  mkReport r.(rp_timestamp) r.(rp_errorcount) r.(rp_rpm) r.(rp_voltage) r.(rp_current) r.(rp_temperature) f.

Definition ESC_CONNECTION_TYPE_DSHOT : Z := 5.

(** The part of [mixerChanged] that fills in the functions of the reports. *)
Definition report_functions (m : MixingOutput) (esc : list esc_report) : option (list esc_report) :=
  foldl (λ esc c, esc ← esc;
    let i := motor_index_from_output m c in
    if 0 <=? i then r ← zlookup esc i; zstore esc i (set_function (u8 (outputFunction m c)) r) else Some esc) (Some esc) (seq 0 DSHOT_MAXIMUM_CHANNELS).

(** [mixerChanged]: the hardware is initialised the first time. *)
Definition dshot_mixerChanged (m : MixingOutput) (d : D) : option D :=
  let '(output_mask, motor_mask) := motor_masks m (seq 0 DSHOT_MAXIMUM_CHANNELS) in
  esc ← report_functions m d.(ds_status).(st_esc);
  let st := d.(ds_status) in
  let d := set_status (mkStatus st.(st_timestamp) st.(st_counter) st.(st_esc_count) ESC_CONNECTION_TYPE_DSHOT st.(st_online_flags) st.(st_armed_flags) esc) d in
  if d.(ds_initialized) then Some d
  else
    let bdshot_output_mask := Z.land d.(ds_bdshot_timer_channels) output_mask in
    let bdshot_motor_mask := (motor_masks m (List.filter (λ c, Z.testbit bdshot_output_mask (Z.of_nat c)) (seq 0 DSHOT_MAXIMUM_CHANNELS))).2 in
    let d := set_masks (mkMasks output_mask bdshot_output_mask motor_mask bdshot_motor_mask (u8 (popcount output_mask))) d in
    h ← hw_init output_mask bdshot_output_mask d.(ds_frequency) d.(ds_cached).(ca_edt_enabled) d.(ds_hw);
    Some (set_initialized true (set_hw h d)).

(** The frequency of a timer configuration and whether it is bidirectional. *)
Definition timer_frequency (tim_config : Z) : Z * bool :=
  if tim_config =? -5 then (150000, false) else if tim_config =? -4 then (300000, false) else if tim_config =? -3 then (600000, false)
  else if tim_config =? -8 then (150000, true) else if tim_config =? -7 then (300000, true) else if tim_config =? -6 then (600000, true)
  else (0, false).

(** [initialize_dshot]: [timers] are the channels of the timers and their configuration. *)
Fixpoint configure_timers (timers : list (Z * Z)) (channels : Z) (d : D) : Z * D :=
  match timers with
  | [] => (channels, d)
  | (timer_channels, tim_config) :: timers' =>
    let '(freq, is_bdshot) := timer_frequency tim_config in
    if (timer_channels =? 0) || (freq <=? 0) then configure_timers timers' channels d
    else
      let d := set_frequency freq d in
      let d := if is_bdshot then set_bdshot_timer_channels (Z.lor d.(ds_bdshot_timer_channels) timer_channels) d else d in
      configure_timers timers' (Z.lor channels timer_channels) d
  end.
Definition initialize_dshot (timers : list (Z * Z)) (d : D) : bool * D :=
  let '(channels, d) := configure_timers timers 0 d in (negb (channels =? 0), d).

(** [init_telemetry]; [opened] tells whether the port could be initialised. *)
Definition init_telemetry (opened : bool) (d : D) : D :=
  if opened then
    on_serial (λ s, mkSerial true s.(sr_online_mask) s.(sr_errors) s.(sr_online_timestamps) s.(sr_skip_mask) s.(sr_consecutive_timeouts) s.(sr_last_retry)
      (initSettingsHandlers d.(ds_cached).(ca_esc_type) (u16 d.(ds_masks).(mk_motor)) s.(sr_telemetry)) s.(sr_motor_index) s.(sr_requested_mask) s.(sr_delay_until)
      s.(sr_settings_requested_mask)) d
  else d.

(** The constructor; the buffers of the serial telemetry are not initialised. *)
Definition DShot_new (pr : params) (frame response : list Z) (h : H) : MixingOutput * D :=
  let m := MixingOutput_new pr DSHOT_MAXIMUM_CHANNELS SchedulingAuto false false in
  let m := setAllFailsafeValues UINT16_MAX (setAllMaxValues DSHOT_MAX_THROTTLE (setAllMinValues DSHOT_MIN_THROTTLE (setAllDisarmedValues DSHOT_DISARM_VALUE m))) in
  let zeros := replicate DSHOT_MAX_MOTORS 0 in
  (m, mkDShot _ _ (mkMasks 0 0 0 0 0) (mkStatus 0 0 0 0 0 0 (replicate 12 (mkReport 0 0 0 0 0 0 0)))
        (mkSerial false 0 zeros zeros 0 zeros 0 (DShotTelemetry_new DSHOT_MAX_MOTORS frame response) (-1) 0 ESC_INIT_TELEM_DELAY 0)
        (mkBidir 0 zeros 0 zeros) (mkCached false false 0 0 0 0 zeros) command_init
        (mkProgramming (mkEeprom 0 0 (replicate 48 0) (0, 0)) false (0, 0) Idle 0 0) false 0 0 [] [] [] 0 h []).

(** [init]; the module is scheduled if a timer is configured. *)
Definition init (pr : params) (dp : dshot_params) (timers : list (Z * Z)) (m : MixingOutput) (d : D) : bool * MixingOutput * D :=
  let '(m, d) := update_params pr dp m d in
  let '(ok, d) := initialize_dshot timers d in
  (ok, if ok then set_schedule ScheduledNow m else m, d).

(** ** The run *)
#[export] Instance dshot_module : OutputModuleInterface D := {| updateOutputs := dshot_updateOutputs; mixerChanged := dshot_mixerChanged |}.

(** What a run finds: the time, the topics, the vehicle commands and settings to write that
    were published since the last run, the bytes of the serial port, the parameters and
    whether they changed, a request to open the port (with its outcome), whether the memory
    for a function could be allocated, the work queue be changed and the callback registered. *)
Record inputs := mkInputs {
  ri_exit : bool; ri_now : Z; ri_topics : topics; ri_has_updates : bool; ri_commands : list vehicle_command; ri_eeprom_writes : list esc_eeprom_write; ri_bytes : list Z;
  ri_params : params; ri_dshot_params : dshot_params; ri_params_updated : bool; ri_telemetry_init : option bool; ri_alloc : nat -> bool; ri_change_wq : bool; ri_register : bool }.

Definition receive (ri : inputs) (d : D) : D :=
  set_now ri.(ri_now) (set_commands (d.(ds_commands) ++ ri.(ri_commands)) (set_eeprom_writes (d.(ds_eeprom_writes) ++ ri.(ri_eeprom_writes)) d)).

Definition publish_status (d : D) : D :=
  let st := d.(ds_status) in
  let st := mkStatus d.(ds_now) (u16 (st.(st_counter) + 1)) d.(ds_masks).(mk_motor_count) st.(st_connectiontype) st.(st_online_flags) st.(st_armed_flags) st.(st_esc) in
  set_log (EvStatus st :: d.(ds_log)) (set_status st d).

(** The outputs and the telemetry. *)
Definition run_outputs (ri : inputs) (m : MixingOutput) (d : D) : option (MixingOutput * D) :=
  '(_, m, d) ← update ri.(ri_now) ri.(ri_topics) ri.(ri_has_updates) m (receive ri d);
  '(serial_updated, d) ← process_serial_telemetry ri.(ri_bytes) d;
  '(bdshot_updated, d) ← process_bdshot_telemetry m d;
  Some (m, if serial_updated || bdshot_updated then publish_status d else d).

(** The parameters, the telemetry port and the commands. *)
Definition run_requests (ri : inputs) (m : MixingOutput) (d : D) : MixingOutput * D :=
  let '(m, d) := if ri.(ri_params_updated) then update_params ri.(ri_params) ri.(ri_dshot_params) m d else (m, d) in
  let d := match ri.(ri_telemetry_init) with Some opened => init_telemetry opened d | None => d end in
  (m, handle_vehicle_commands m d).

Definition Run (ri : inputs) (m : MixingOutput) (d : D) : option (MixingOutput * D) :=
  if ri.(ri_exit) then Some (unregister (set_schedule NotScheduled m), d)
  else
    '(m, d) ← run_outputs ri m d;
    let '(m, d) := run_requests ri m d in
    '(_, m, d) ← updateSubscriptions ri.(ri_params) ri.(ri_alloc) ri.(ri_change_wq) ri.(ri_register) true m d;
    Some (m, d).

(** Consecutive runs. *)
Fixpoint Runs (l : list inputs) (m : MixingOutput) (d : D) : option (MixingOutput * D) :=
  match l with
  | [] => Some (m, d)
  | ri :: l' => '(m, d) ← Run ri m d; Runs l' m d
  end.
End driver.
