(* ===== verification/DShotInvariant.v ===== *)
(** * Invariant of the DShot driver

    What the driver of [DShotDriver] relies on in the hardware ([DshotLaws]), the invariant
    of its state with the interrupts of the hardware between its runs, and what a run sends
    to the motors. *)
From stdpp Require Import base list tactics option.
From Stdlib Require Import ZArith Lia.
From S2P Require Import Prelude Float32 FloatOps FloatBounds MixerModule DShotTelemetry DShotDriver.

(** ** The hardware

    [hw_value] is the frame that waits in the buffers for a channel in use, [hw_interrupt]
    what the interrupts may do at any time. *)
Class DshotLaws (H T : Type) `{!DshotHardware H T} := {
  hw_start : H -> Prop;
  hw_good : H -> Prop;
  hw_active : H -> Z -> bool;
  hw_value : H -> Z -> option (Z * bool);
  hw_interrupt : H -> H -> Prop;
  hw_init_law h mask bdshot_mask freq edt : hw_start h -> freq ≠ 0 -> ∃ h', hw_init mask bdshot_mask freq edt h = Some h' ∧ hw_good h';
  hw_set_law h ch data tel : hw_good h -> 0 <= ch -> 0 <= data < 2048 ->
    ∃ h', hw_set ch data tel h = Some h' ∧ hw_good h' ∧ (∀ c, hw_active h' c = hw_active h c) ∧
      ∀ c, hw_active h c = true -> hw_value h' c = if ch =? c then Some (data, tel) else hw_value h c;
  hw_trigger_law h now : hw_good h ->
    ∃ h' sent, hw_trigger now h = Some (h', sent) ∧ hw_good h' ∧ (∀ c, hw_active h' c = hw_active h c) ∧
      ∀ c v, hw_received sent c = Some v -> hw_active h c = true ∧ hw_value h c = Some v;
  hw_interrupt_law h h' : hw_good h -> hw_interrupt h h' -> hw_good h' ∧ (∀ c, hw_active h' c = hw_active h c) ∧ ∀ c, hw_value h' c = hw_value h c;
  hw_num_errors_law h ch : hw_good h -> 0 <= ch -> is_Some (hw_num_errors ch h);
  hw_online_law h ch : hw_good h -> 0 <= ch -> is_Some (hw_online ch h);
  hw_erpm_law h ch : hw_good h -> 0 <= ch -> ∃ r h', hw_get_erpm ch h = Some (r, h') ∧ hw_good h' ∧ (∀ c, hw_active h' c = hw_active h c) ∧ ∀ c, hw_value h' c = hw_value h c;
  hw_edt_law h ch type : hw_good h -> 0 <= ch -> ∃ r h', hw_get_edt ch type h = Some (r, h') ∧ hw_good h' ∧ (∀ c, hw_active h' c = hw_active h c) ∧ ∀ c, hw_value h' c = hw_value h c }.

(** ** The outputs of the mixer as the driver sets them up *)
Definition dshot_output (o : output) : Prop :=
  o.(o_disarmed) = DSHOT_DISARM_VALUE ∧ o.(o_failsafe) = UINT16_MAX ∧ o.(o_max) = DSHOT_MAX_THROTTLE ∧ DSHOT_MIN_THROTTLE <= o.(o_min) <= DSHOT_MAX_THROTTLE ∧
  o.(o_handles).(h_disarmed) = false ∧ o.(o_handles).(h_min) = false ∧ o.(o_handles).(h_max) = false ∧ o.(o_handles).(h_failsafe) = false.

Record mixer_ok (m : MixingOutput) : Prop := mkMixerOk {
  mx_mixing : mixing_ok m;
  mx_calibration : m.(_config).(_support_esc_calibration) = false;
  mx_ramp : m.(_config).(_output_ramp_up) = false;
  mx_outputs : m.(_config).(_max_num_outputs) = DSHOT_MAXIMUM_CHANNELS;
  mx_policy : m.(_config).(_scheduling_policy) = SchedulingAuto;
  mx_output : Forall dshot_output m.(_outputs) }.

(** ** The state of the driver *)
Definition telemetry_ok (t : DShotTelemetry) : Prop := tel_ok t ∧ zlen t.(t_handlers) = 9.

Record serial_ok (s : serial) : Prop := mkSerialOk {
  sk_errors : zlen s.(sr_errors) = 9;
  sk_timestamps : zlen s.(sr_online_timestamps) = 9;
  sk_timeouts : zlen s.(sr_consecutive_timeouts) = 9;
  sk_telemetry : telemetry_ok s.(sr_telemetry);
  sk_motor : -1 <= s.(sr_motor_index) < 9 }.

Definition bidir_ok (b : bidirectional) : Prop := zlen b.(bd_errors) = 9 ∧ zlen b.(bd_online_timestamps) = 9.
Definition eeprom_ok (w : esc_eeprom_write) : Prop := zlen w.(ew_data) = 48 ∧ Forall byte_ok w.(ew_data) ∧ 0 <= w.(ew_index) < 256.
Definition programming_ok (p : programming) : Prop := eeprom_ok p.(pg_write) ∧ 0 <= p.(pg_address) < 48 ∧ byte_ok p.(pg_value).

(** A pending command is not a throttle value, unless it is the value of a setting. *)
Definition command_ok (p : programming) (c : DShotCommand) : Prop :=
  0 <= c.(dc_num_repetitions) ∧ (0 <= c.(dc_command) < DSHOT_CMD_MIN_THROTTLE ∨ (c.(dc_command) = p.(pg_value) ∧ (finished c = true ∨ p.(pg_state) = ExitMode ∧ p.(pg_active) = true))).

Section invariant.
Context {H T : Type} `{!DshotHardware H T, !DshotLaws H T}.
Notation D := (DShot H T).

Record dshot_ok (d : D) : Prop := mkDshotOk {
  dk_status : zlen d.(ds_status).(st_esc) = 12;
  dk_serial : serial_ok d.(ds_serial);
  dk_bidir : bidir_ok d.(ds_bidir);
  dk_command : command_ok d.(ds_programming) d.(ds_command);
  dk_programming : programming_ok d.(ds_programming);
  dk_writes : Forall eeprom_ok d.(ds_eeprom_writes);
  dk_frequency : d.(ds_frequency) ≠ 0;
  dk_hw : if d.(ds_initialized) then hw_good d.(ds_hw) else hw_start d.(ds_hw) ∧ d.(ds_masks).(mk_bdshot_output) = 0 }.

(** What the choice and the transfer of frames leave alone: what was sent and the configuration. *)
Definition same_setting (d d' : D) : Prop :=
  d'.(ds_sent) = d.(ds_sent) ∧ d'.(ds_initialized) = d.(ds_initialized) ∧ d'.(ds_masks) = d.(ds_masks) ∧ d'.(ds_now) = d.(ds_now) ∧ ∀ c, hw_active d'.(ds_hw) c = hw_active d.(ds_hw) c.

(** Telemetry and requests also leave the programming of settings alone. *)
Definition same_outputs (d d' : D) : Prop :=
  d'.(ds_sent) = d.(ds_sent) ∧ d'.(ds_initialized) = d.(ds_initialized) ∧ (d'.(ds_masks), d'.(ds_programming)) = (d.(ds_masks), d.(ds_programming)) ∧ d'.(ds_now) = d.(ds_now) ∧ ∀ c, hw_active d'.(ds_hw) c = hw_active d.(ds_hw) c.

Lemma same_outputs_refl d : same_outputs d d.
Proof. by repeat split. Qed.
Lemma same_outputs_trans d1 d2 d3 : same_outputs d1 d2 -> same_outputs d2 d3 -> same_outputs d1 d3.
Proof. intros (A1 & A2 & A3 & A4 & A5) (B1 & B2 & B3 & B4 & B5). do 4 (split; [congruence|]). intros c. by rewrite B5, A5. Qed.

Lemma same_setting_of d d' : same_outputs d d' -> same_setting d d'.
Proof. intros (A1 & A2 & A3 & A4 & A5). do 2 (split; [done|]). by injection A3 as ->. Qed.

(** ** Telemetry *)
Lemma decode_handlers now bytes : ∀ t esc st st' esc' t', decodeTelemetryResponse now bytes t esc st = Some (st', esc', t') -> t'.(t_handlers) = t.(t_handlers).
Proof.
  induction bytes as [|x l IH]; intros t esc st st' esc' t' E; cbn [decodeTelemetryResponse] in E; [by injection E as <- <- <-|].
  apply bind_Some in E as (f & _ & E). case_if_in E; [|by apply IH in E]. apply bind_Some in E as (a & _ & E). apply bind_Some in E as (b & _ & E).
  case_if_in E; [apply bind_Some in E as (e & _ & E)|]; by apply IH in E.
Qed.

Lemma telemetry_parse now got t esc : telemetry_ok t -> ∃ st esc' t', parseTelemetryPacket now got t esc = Some (st, esc', t') ∧ telemetry_ok t'.
Proof.
  intros [Ht Hh]. destruct (parse_total now got t esc Ht) as (st & e & t' & E & Ht'). exists st, e, t'. split; [done|]. split; [done|]. rewrite <- Hh. f_equal.
  unfold parseTelemetryPacket in E. do 2 (case_if_in E; [by injection E as <- <- <-|]). destruct got; [case_if_in E; by injection E as <- <- <-|]. by apply decode_handlers in E.
Qed.

Lemma handle_response_handlers t t' p : handle_response t = Some (t', p) -> zlen t'.(t_handlers) = zlen t.(t_handlers).
Proof.
  unfold handle_response. do 2 (case_if; [by intros [= <- <-]|]). intros E. apply bind_Some in E as (h & Hh & E). destruct h as [h|]; [|by injection E as <- <-].
  case_if_in E; [|by injection E as <- <-]. apply bind_Some in E as (buf & _ & E). apply bind_Some in E as ([h' p'] & _ & E). apply bind_Some in E as (hs & Hs & E). injection E as <- <-.
  apply zlookup_Some_lt in Hh. destruct (zstore_Some t.(t_handlers) t.(t_response_motor_index) (Some h')) as (hs' & E' & Hl & _); [done|]. rewrite Hs in E'. injection E' as <-. done.
Qed.

Lemma telemetry_response now got t : telemetry_ok t -> ∃ t' p, parseCommandResponse now got t = Some (t', p) ∧ telemetry_ok t'.
Proof.
  intros [Ht Hh]. destruct (response_total now got t Ht) as (t' & p & E & Ht'). exists t', p. split; [done|]. split; [done|]. rewrite <- Hh.
  unfold parseCommandResponse in E. case_if_in E; [by injection E as <- <-|]. destruct got; [by injection E as <- <-|]. case_if_in E; [by injection E as <- <-|].
  apply bind_Some in E as (buf & _ & E). by apply handle_response_handlers in E.
Qed.

Lemma motor_index_range m i : -1 <= motor_index_from_output m i < 9.
Proof. unfold motor_index_from_output. change (Z.of_nat DSHOT_MAX_MOTORS) with 9. destruct (negb _); [lia|]. case_if; [|lia]. bool_hyps. lia. Qed.

Lemma consume_ok e d : dshot_ok d -> ∃ d', consume_esc_data e d = Some d' ∧ dshot_ok d' ∧ ∃ st, d' = set_status st d.
Proof.
  intros Hd. unfold consume_esc_data. change (Z.of_nat DSHOT_MAX_MOTORS) with 9. case_if; [exists d; split; [done|split; [done|]]; exists d.(ds_status); by destruct d|]. bool_hyps.
  pose proof (dk_status d Hd) as K1. pose proof (sk_errors _ (dk_serial d Hd)) as K2. destruct (dk_bidir d Hd) as [K3 _].
  destruct (zlookup_lt d.(ds_serial).(sr_errors) e.(esc_motor_index)) as [x ->]; [lia|]. destruct (zlookup_lt d.(ds_bidir).(bd_errors) e.(esc_motor_index)) as [y ->]; [lia|].
  destruct (zlookup_lt d.(ds_status).(st_esc) e.(esc_motor_index)) as [r ->]; [lia|]. cbn [mbind option_bind].
  match goal with |- context [zstore _ _ ?v] => destruct (zstore_Some d.(ds_status).(st_esc) e.(esc_motor_index) v) as (l & -> & Hl & _); [lia|] end.
  cbn [mbind option_bind]. eexists. split; [done|]. split; [|by eexists]. destruct Hd. constructor; cbn; try done. by rewrite Hl.
Qed.

Lemma next_motor_range n : ∀ motor mask requested k, 0 <= motor < 9 -> next_motor n motor mask requested = Some k -> 0 <= k < 9.
Proof.
  induction n as [|n IH]; intros motor mask requested k Hm E; [done|]. cbn [next_motor] in E. change (Z.of_nat DSHOT_MAX_MOTORS) with 9 in E.
  case_if_in E; [by injection E as <-|]. apply IH in E; [done|]. apply Z.mod_pos_bound. lia.
Qed.

Lemma next_index_ok mask s all s' : serial_ok s -> set_next_telemetry_index mask s = (all, s') -> serial_ok s'.
Proof.
  intros [K1 K2 K3 K4 K5]. unfold set_next_telemetry_index. change (Z.of_nat DSHOT_MAX_MOTORS) with 9. case_if; [intros [= <- <-]; constructor; cbn; lia || done|].
  destruct (next_motor _ _ _ _) as [k|] eqn:E; intros [= <- <-]; constructor; cbn; try lia; try done. apply next_motor_range in E; [lia|]. case_if; [lia|]. apply Z.mod_pos_bound. lia.
Qed.

Lemma set_serial_ok s d : dshot_ok d -> serial_ok s -> dshot_ok (set_serial s d).
Proof. intros Hd Hs. by destruct Hd; constructor. Qed.

Lemma set_serial_same s d : same_outputs d (set_serial s d).
Proof. by repeat split. Qed.
Lemma set_status_same s d : same_outputs d (set_status s d).
Proof. by repeat split. Qed.

Lemma next_telemetry_ok d : dshot_ok d -> dshot_ok (next_telemetry d).2 ∧ same_outputs d (next_telemetry d).2.
Proof.
  intros Hd. unfold next_telemetry. destruct (set_next_telemetry_index _ _) as [all s] eqn:E. split; [|apply set_serial_same]. apply set_serial_ok; [done|]. eapply next_index_ok; [apply Hd|done].
Qed.

Lemma serial_failure_ok i s : 0 <= i < 9 -> serial_ok s -> ∃ s', serial_failure i s = Some s' ∧ serial_ok s'.
Proof.
  intros Hi [K1 K2 K3 K4 K5]. unfold serial_failure. destruct (zlookup_lt s.(sr_errors) i) as [x ->]; [lia|]. cbn [mbind option_bind].
  destruct (zstore_Some s.(sr_errors) i (u32 (x + 1))) as (l1 & -> & Hl1 & _); [lia|]. cbn [mbind option_bind].
  destruct (zstore_Some s.(sr_online_timestamps) i 0) as (l2 & -> & Hl2 & _); [lia|]. cbn [mbind option_bind]. eexists. split; [done|]. constructor; cbn; lia || done.
Qed.

Lemma count_timeout_ok i s : 0 <= i < 9 -> serial_ok s -> ∃ s', count_timeout i s = Some s' ∧ serial_ok s'.
Proof.
  intros Hi [K1 K2 K3 K4 K5]. unfold count_timeout. destruct (zlookup_lt s.(sr_consecutive_timeouts) i) as [n ->]; [lia|]. cbn [mbind option_bind]. case_if; [|by eexists].
  destruct (zstore_Some s.(sr_consecutive_timeouts) i (n + 1)) as (l & -> & Hl & _); [lia|]. cbn [mbind option_bind]. eexists. split; [done|]. constructor; cbn; lia || done.
Qed.

(** The data is consumed and the next motor is polled. *)
Lemma consume_next e s d : dshot_ok d -> serial_ok s ->
  ∃ d1, consume_esc_data e (set_serial s d) = Some d1 ∧ dshot_ok d1 ∧ dshot_ok (next_telemetry d1).2 ∧ same_outputs d (next_telemetry d1).2.
Proof.
  intros Hd Hs. destruct (consume_ok e (set_serial s d) (set_serial_ok s d Hd Hs)) as (d1 & E & Hd1 & st & ->). eexists. split; [exact E|]. split; [done|].
  destruct (next_telemetry_ok _ Hd1) as [Hd2 Hsame]. split; [done|]. eapply same_outputs_trans; [|exact Hsame]. by repeat split.
Qed.

Lemma serial_polled_ok i status e d : 0 <= i < 9 -> dshot_ok d -> ∃ r d', serial_polled i status e d = Some (r, d') ∧ dshot_ok d' ∧ same_outputs d d'.
Proof.
  intros Hi Hd. pose proof (dk_serial d Hd) as Hs. unfold serial_polled. destruct status.
  - exists false, d. split; [done|]. split; [done|apply same_outputs_refl].
  - exists false, d. split; [done|]. split; [done|apply same_outputs_refl].
  - pose proof Hs as [K1 K2 K3 K4 K5]. destruct (zstore_Some d.(ds_serial).(sr_consecutive_timeouts) i 0) as (l & -> & Hl & _); [lia|]. cbn [mbind option_bind]. set (s := with_skip _ _ _ _).
    assert (Hs1 : serial_ok s) by (constructor; cbn; lia || done). case_if.
    + destruct (consume_next e s d Hd Hs1) as (d1 & -> & _ & Hd2 & Hsame). cbn [mbind option_bind]. destruct (next_telemetry d1) as [r d2]. by exists r, d2.
    + destruct (zlookup_lt s.(sr_online_timestamps) i) as [x ->]; [apply sk_timestamps in Hs1; lia|]. cbn [mbind option_bind].
      match goal with |- context [zstore _ _ ?v] => destruct (zstore_Some s.(sr_online_timestamps) i v) as (l2 & -> & Hl2 & _); [apply sk_timestamps in Hs1; lia|] end.
      cbn [mbind option_bind]. eexists _, _. split; [done|]. split; [|apply set_serial_same]. apply set_serial_ok; [done|]. destruct Hs1. constructor; cbn; lia || done.
  - destruct (serial_failure_ok i _ Hi Hs) as (s1 & -> & Hs1). cbn [mbind option_bind]. destruct (count_timeout_ok i _ Hi Hs1) as (s2 & -> & Hs2). cbn [mbind option_bind].
    destruct (consume_next e s2 d Hd Hs2) as (d1 & -> & _ & Hd2 & Hsame). cbn [mbind option_bind]. destruct (next_telemetry d1) as [r d2]. by exists r, d2.
  - destruct (serial_failure_ok i _ Hi Hs) as (s1 & -> & Hs1). cbn [mbind option_bind].
    destruct (consume_next e s1 d Hd Hs1) as (d1 & -> & _ & Hd2 & Hsame). cbn [mbind option_bind]. destruct (next_telemetry d1) as [r d2]. cbn [snd] in *. eexists r, _. split; [done|].
    split; [|eapply same_outputs_trans; [exact Hsame|apply set_serial_same]]. apply set_serial_ok; [done|]. destruct (dk_serial _ Hd2). by constructor.
Qed.

Lemma retry_ok now flags s : serial_ok s -> serial_ok (retry_skipped now flags s).
Proof. intros Hs. unfold retry_skipped. case_if; [|done]. by destruct Hs; constructor. Qed.

Lemma with_telemetry_ok t s : serial_ok s -> telemetry_ok t -> serial_ok (with_telemetry t s).
Proof. intros [] Ht. by constructor. Qed.

Lemma process_serial_ok got d : dshot_ok d -> ∃ r d', process_serial_telemetry got d = Some (r, d') ∧ dshot_ok d' ∧ same_outputs d d'.
Proof.
  intros Hd. unfold process_serial_telemetry. case_if; [exists false, d; split; [done|]; split; [done|apply same_outputs_refl]|]. set (d1 := on_serial _ d).
  assert (H1 : dshot_ok d1) by (apply set_serial_ok; [done|by apply retry_ok, dk_serial]). assert (S1 : same_outputs d d1) by apply set_serial_same. clearbody d1. cbv zeta.
  pose proof (dk_serial _ H1) as Hs. case_if; [case_if; [|by eexists _, _]|case_if].
  - destruct (telemetry_response d1.(ds_now) got _ (sk_telemetry _ Hs)) as (t & p & -> & Ht). cbn [mbind option_bind].
    assert (H2 : dshot_ok (on_serial (with_telemetry t) d1)) by (apply set_serial_ok; [done|by apply with_telemetry_ok]).
    destruct p as [[index data]|]; eexists _, _; (split; [done|]); (split; [|exact S1]); [|done]. by destruct H2; constructor.
  - destruct (next_telemetry_ok _ H1) as [H2 S2]. eexists _, _. split; [done|]. split; [done|]. by eapply same_outputs_trans.
  - bool_hyps. pose proof (sk_motor _ Hs). destruct (telemetry_parse d1.(ds_now) got _ (mkEsc d1.(ds_serial).(sr_motor_index) 0 Serial 0 0 0 0) (sk_telemetry _ Hs)) as (st & e & t & -> & Ht).
    cbn [mbind option_bind]. destruct (serial_polled_ok d1.(ds_serial).(sr_motor_index) st e (on_serial (with_telemetry t) d1)) as (r & d2 & E & H2 & S2).
    + lia.
    + apply set_serial_ok; [done|by apply with_telemetry_ok].
    + exists r, d2. split; [done|]. split; [done|]. eapply same_outputs_trans; [exact S1|exact S2].
Qed.

(** The hardware after a read. *)
Lemma set_hw_ok h d : dshot_ok d -> d.(ds_initialized) = true -> hw_good h -> dshot_ok (set_hw h d).
Proof. intros [] Hi Hh. constructor; cbn; try done. by rewrite Hi. Qed.

Lemma hw_good_of d : dshot_ok d -> d.(ds_initialized) = true -> hw_good d.(ds_hw).
Proof. intros Hd Hi. pose proof (dk_hw d Hd) as Hh. by rewrite Hi in Hh. Qed.

Lemma set_hw_same h d : (∀ c, hw_active h c = hw_active d.(ds_hw) c) -> same_outputs d (set_hw h d).
Proof. by repeat split. Qed.

Lemma bdshot_extended_ok channel type convert previous d : dshot_ok d -> d.(ds_initialized) = true -> 0 <= channel ->
  ∃ v d', bdshot_extended channel type convert previous d = Some (v, d') ∧ dshot_ok d' ∧ same_outputs d d' ∧ d'.(ds_initialized) = true.
Proof.
  intros Hd Hi Hc. unfold bdshot_extended. destruct (hw_edt_law d.(ds_hw) channel type (hw_good_of d Hd Hi) Hc) as (r & h & -> & Hh & Ha & _). cbn [mbind option_bind].
  eexists _, _. split; [done|]. split; [by apply set_hw_ok|]. split; [by apply set_hw_same|done].
Qed.

Lemma bdshot_report_ok channel i r d : dshot_ok d -> d.(ds_initialized) = true -> 0 <= channel -> ∃ e d', bdshot_report channel i r d = Some (e, d') ∧ dshot_ok d' ∧ same_outputs d d'.
Proof.
  intros Hd Hi Hc. unfold bdshot_report. destruct (hw_erpm_law d.(ds_hw) channel (hw_good_of d Hd Hi) Hc) as (v & h & -> & Hh & Ha & _). cbn [mbind option_bind].
  pose proof (set_hw_ok h d Hd Hi Hh) as H1. pose proof (set_hw_same h d Ha) as S1. set (d1 := set_hw h d) in *. assert (I1 : d1.(ds_initialized) = true) by done. clearbody d1.
  case_if; [|by eexists _, _].
  destruct (bdshot_extended_ok channel DSHOT_EDT_TEMPERATURE f32_of_int r.(rp_temperature) d1 H1 I1 Hc) as (v1 & d2 & -> & H2 & S2 & I2). cbn [mbind option_bind].
  destruct (bdshot_extended_ok channel DSHOT_EDT_VOLTAGE (λ v, f32_divide (f32_of_int v) F_4) r.(rp_voltage) d2 H2 I2 Hc) as (v2 & d3 & -> & H3 & S3 & I3). cbn [mbind option_bind].
  destruct (bdshot_extended_ok channel DSHOT_EDT_CURRENT (λ v, f32_divide (f32_of_int v) F_2) r.(rp_current) d3 H3 I3 Hc) as (v3 & d4 & -> & H4 & S4 & I4). cbn [mbind option_bind].
  eexists _, _. split; [done|]. split; [done|]. eapply same_outputs_trans; [exact S1|]. eapply same_outputs_trans; [exact S2|]. by eapply same_outputs_trans.
Qed.

Lemma set_bidir_ok b d : dshot_ok d -> bidir_ok b -> dshot_ok (set_bidir b d).
Proof. intros [] Hb. by constructor. Qed.

Lemma bdshot_online_ok i errors b now : 0 <= i < 9 -> bidir_ok b -> zlen errors = 9 -> ∃ b', bdshot_online i errors b now = Some b' ∧ bidir_ok b'.
Proof.
  intros Hi [B1 B2] He. unfold bdshot_online. case_if; [by eexists|]. destruct (zstore_Some b.(bd_online_timestamps) i now) as (l & -> & Hl & _); [lia|]. cbn. eexists. split; [done|]. split; cbn; lia.
Qed.

Lemma bdshot_offline_ok i errors b : 0 <= i < 9 -> bidir_ok b -> zlen errors = 9 -> ∃ b', bdshot_offline i errors b = Some b' ∧ bidir_ok b'.
Proof.
  intros Hi [B1 B2] He. unfold bdshot_offline. destruct (zstore_Some b.(bd_online_timestamps) i 0) as (l & -> & Hl & _); [lia|]. cbn. eexists. split; [done|]. split; cbn; lia.
Qed.

Lemma bdshot_channel_ok m channel d : dshot_ok d -> d.(ds_initialized) = true -> ∃ d', bdshot_channel m channel d = Some d' ∧ dshot_ok d' ∧ same_outputs d d'.
Proof.
  intros Hd Hi. unfold bdshot_channel. case_if; [exists d; split; [done|]; split; [done|apply same_outputs_refl]|]. bool_hyps.
  pose proof (motor_index_range m channel) as Hr. set (i := motor_index_from_output m channel) in *. clearbody i. pose proof (hw_good_of d Hd Hi) as Hg.
  destruct (hw_num_errors_law _ (Z.of_nat channel) Hg) as [n ->]; [lia|]. cbn [mbind option_bind]. destruct (dk_bidir d Hd) as [B1 B2].
  destruct (zstore_Some d.(ds_bidir).(bd_errors) i n) as (errors & -> & Hl & _); [lia|]. cbn [mbind option_bind].
  destruct (hw_online_law _ (Z.of_nat channel) Hg) as [online ->]; [lia|]. cbn [mbind option_bind]. destruct online.
  - destruct (bdshot_online_ok i errors d.(ds_bidir) d.(ds_now)) as (b & -> & Hb); [lia|done|lia|]. cbn [mbind option_bind].
    destruct (zlookup_lt d.(ds_status).(st_esc) i) as [r ->]; [rewrite (dk_status d Hd); lia|]. cbn [mbind option_bind].
    destruct (bdshot_report_ok (Z.of_nat channel) i r (set_bidir b d)) as (e & d1 & -> & G1 & S1); [by apply set_bidir_ok|done|lia|]. cbn [mbind option_bind].
    destruct (consume_ok e d1 G1) as (d2 & -> & G2 & st & ->). eexists. split; [done|]. split; [done|]. eapply same_outputs_trans; [exact S1|apply set_status_same].
  - destruct (bdshot_offline_ok i errors d.(ds_bidir)) as (b & -> & Hb); [lia|done|lia|]. cbn [mbind option_bind].
    destruct (consume_ok (mkEsc i d.(ds_now) BDShot 0 0 0 0) (set_bidir b d)) as (d2 & -> & G2 & st & ->); [by apply set_bidir_ok|]. eexists. split; [done|]. split; [done|]. by repeat split.
Qed.

Lemma process_bdshot_ok m d : dshot_ok d -> ∃ r d', process_bdshot_telemetry m d = Some (r, d') ∧ dshot_ok d' ∧ same_outputs d d'.
Proof.
  intros Hd. unfold process_bdshot_telemetry. cbv zeta. case_if; [exists false, d; split; [done|]; split; [done|apply same_outputs_refl]|]. bool_hyps.
  assert (Hi : d.(ds_initialized) = true).
  { destruct (ds_initialized d) eqn:E; [done|]. pose proof (dk_hw d Hd) as Hh. rewrite E in Hh. destruct Hh. lia. }
  enough (Hall : ∀ l d, dshot_ok d -> d.(ds_initialized) = true -> ∃ d', bdshot_channels m l d = Some d' ∧ dshot_ok d' ∧ same_outputs d d').
  { destruct (Hall (seq 0 DSHOT_MAXIMUM_CHANNELS) d Hd Hi) as (d' & -> & G1 & S1). cbn. by exists true, d'. }
  clear. induction l as [|c l IH]; intros d Hd Hi; [exists d; split; [done|]; split; [done|apply same_outputs_refl]|]. cbn [bdshot_channels].
  destruct (bdshot_channel_ok m c d Hd Hi) as (d1 & -> & G1 & S1). cbn [mbind option_bind]. destruct (IH d1 G1) as (d2 & -> & G2 & S2); [by rewrite (proj1 (proj2 S1))|].
  exists d2. split; [done|]. split; [done|]. by eapply same_outputs_trans.
Qed.

(** ** Commands *)

(** What the choice of a command leaves alone. *)
Definition same_state (d d' : D) : Prop :=
  d'.(ds_sent) = d.(ds_sent) ∧ d'.(ds_initialized) = d.(ds_initialized) ∧ d'.(ds_masks) = d.(ds_masks) ∧ d'.(ds_now) = d.(ds_now) ∧ d'.(ds_hw) = d.(ds_hw) ∧
  d'.(ds_cached) = d.(ds_cached) ∧ d'.(ds_status) = d.(ds_status).

Lemma take_eeprom_ok d : dshot_ok d -> finished d.(ds_command) = true -> dshot_ok (take_eeprom_write d) ∧ same_state d (take_eeprom_write d).
Proof.
  intros Hd Hf. unfold take_eeprom_write. case_if; [done|]. destruct (ds_eeprom_writes d) as [|w rest] eqn:Ew; [done|]. split; [|done].
  destruct Hd. rewrite Ew in *. destruct (Forall_cons_1 _ _ _ dk_writes0) as [Hw Hr]. constructor; cbn; try done.
  - destruct dk_command0 as [C1 [C2|[C2 _]]]; (split; [done|]); [by left|right]. split; [done|by left].
  - destruct dk_programming0 as (P1 & P2 & P3). done.
Qed.

Lemma set_command_ok c d : dshot_ok d -> command_ok d.(ds_programming) c -> dshot_ok (set_command c d).
Proof. intros [] Hc. by constructor. Qed.

Lemma plain_command p c n mask save expect : 0 <= c < DSHOT_CMD_MIN_THROTTLE -> 0 <= n -> command_ok p (mkDCommand c n mask save expect).
Proof. intros Hc Hn. split; [done|by left]. Qed.

Lemma set_command_same c d : same_state d (set_command c d).
Proof. by repeat split. Qed.

Lemma next_setting_range n : ∀ i p k, next_setting n i p = Some k -> i <= k < i + Z.of_nat n.
Proof. induction n as [|n IH]; intros i p k E; [done|]. cbn [next_setting] in E. case_if_in E; [injection E as <-; lia|]. apply IH in E. lia. Qed.

Lemma program_idle_ok d : dshot_ok d -> d.(ds_command) = command_clear -> d.(ds_programming).(pg_active) = true ->
  ∃ d', program_idle d = Some d' ∧ dshot_ok d' ∧ same_state d d' ∧ (d'.(ds_programming).(pg_state) = Idle ∨ (d'.(ds_command) = command_clear ∧ d'.(ds_programming).(pg_active) = true)).
Proof.
  intros Hd Hf Ha. unfold program_idle. cbv zeta. pose proof (dk_programming d Hd) as (Hw & Hp & Hv).
  assert (Hc : ∀ p, command_ok p d.(ds_command)) by (intros p; rewrite Hf; by apply plain_command).
  destruct (next_setting _ _ _) as [i|] eqn:E.
  - apply next_setting_range in E. destruct Hw as (W1 & W2 & W3). destruct (zlookup_lt d.(ds_programming).(pg_write).(ew_data) i) as [v Ev]; [lia|]. rewrite Ev. cbn [mbind option_bind].
    eexists. split; [done|]. split; [|split; [done|by right]]. destruct Hd. constructor; cbn; try apply Hc; try done.
    split; [by split|]. split; [cbn; lia|]. apply zlookup_nat in Ev. exact (Forall_lookup_1 _ _ _ _ W2 Ev).
  - eexists. split; [done|]. split; [|split; [done|by left]]. apply set_serial_ok.
    + apply set_command_ok; [|apply plain_command; unfold DSHOT_CMD_SAVE_SETTINGS, DSHOT_CMD_MIN_THROTTLE; lia]. destruct Hd. constructor; cbn; try apply Hc; done.
    + destruct (dk_serial d Hd). by constructor.
Qed.

Lemma program_ok d : dshot_ok d -> d.(ds_command) = command_clear -> d.(ds_programming).(pg_active) = true -> ∃ d', program d = Some d' ∧ dshot_ok d' ∧ same_state d d'.
Proof.
  intros Hd Hf Ha. unfold program.
  assert (∃ d1, match d.(ds_programming).(pg_state) with Idle => program_idle d | _ => Some d end = Some d1 ∧ dshot_ok d1 ∧ same_state d d1 ∧
    (d1.(ds_programming).(pg_state) = Idle ∨ (d1.(ds_command) = command_clear ∧ d1.(ds_programming).(pg_active) = true))) as (d1 & -> & G1 & S1 & G2).
  { destruct (pg_state _); [by apply program_idle_ok|..]; exists d; (split; [done|]); (split; [done|]); (split; [done|]); by right. }
  cbn [mbind option_bind]. eexists. split; [done|]. unfold program_command. cbv zeta. pose proof (dk_programming d1 G1) as (P1 & P2 & P3). unfold byte_ok in P3.
  destruct (pg_state _) eqn:Es; [done|..]; destruct G2 as [G2|[G2 G3]]; try done; (split; [|exact S1]).
  all: destruct G1; constructor; cbn; try done; (split; [cbn; lia|]); cbn; unfold DSHOT_CMD_MIN_THROTTLE, DSHOT_CMD_ENTER_PROGRAMMING_MODE, DSHOT_CMD_EXIT_PROGRAMMING_MODE.
  1, 2, 4: left; lia. right. split; [done|by right].
Qed.

Lemma same_state_trans d1 d2 d3 : same_state d1 d2 -> same_state d2 d3 -> same_state d1 d3.
Proof. intros (A1 & A2 & A3 & A4 & A5 & A6 & A7) (B1 & B2 & B3 & B4 & B5 & B6 & B7). repeat split; congruence. Qed.

Lemma select_ok d : dshot_ok d -> finished d.(ds_command) = true -> ∃ d', select_next_command d = Some d' ∧ dshot_ok d' ∧ same_state d d'.
Proof.
  intros Hd Hf. destruct (take_eeprom_ok d Hd Hf) as [G1 S1]. unfold select_next_command. cbv zeta. set (d1 := take_eeprom_write d) in *. clearbody d1.
  assert (G2 : dshot_ok (set_command command_clear d1)) by (apply set_command_ok; [done|by apply plain_command]).
  pose proof (same_state_trans _ _ _ S1 (set_command_same command_clear d1)) as S2.
  assert (Hn : ∀ c n mask e d', 0 <= c < DSHOT_CMD_MIN_THROTTLE -> 0 <= n -> dshot_ok d' -> dshot_ok (set_command (mkDCommand c n mask false e) d')) by (intros; apply set_command_ok; [done|by apply plain_command]).
  case_if; [|case_if; [|case_if]].
  - destruct (first_motor _ _ _ _) as [i|]; [|by eexists]. eexists. split; [done|]. split; [|exact S2]. apply set_bidir_ok; [by apply Hn|]. apply G2.
  - destruct (first_motor _ _ _ _) as [i|]; [|by eexists]. eexists. split; [done|]. split; [|exact S2]. apply set_serial_ok; [by apply Hn|]. destruct (dk_serial _ G2). by constructor.
  - destruct (program_ok _ G2 eq_refl) as (d2 & E & G3 & S3); [done|]. exists d2. split; [done|]. split; [done|]. by eapply same_state_trans.
  - by eexists.
Qed.

(** ** Outputs *)

(** The frame of output [x] on channel [k]: a stop, or the throttle above the commands. *)
Definition throttle_frame (m : MixingOutput) (c : cached) (k : nat) (x : Z) : Z :=
  if (motor_index_from_output m k <? 0) || (x =? DSHOT_DISARM_VALUE) then DSHOT_CMD_MOTOR_STOP
  else let v := calculate_output_value m c x k in if v =? DSHOT_DISARM_VALUE then DSHOT_CMD_MOTOR_STOP else v + DSHOT_CMD_MIN_THROTTLE.

Definition command_frame (m : MixingOutput) (c : DShotCommand) (k : nat) : Z :=
  let i := motor_index_from_output m k in if (0 <=? i) && Z.testbit c.(dc_motor_mask) i then c.(dc_command) else DSHOT_CMD_MOTOR_STOP.

Lemma u16_range x : 0 <= u16 x < 2 ^ 16.
Proof. by apply uwrap_range. Qed.

Lemma calculate_range m c x k : 0 <= x -> 0 <= calculate_output_value m c x k <= DSHOT_MAX_THROTTLE.
Proof.
  intros Hx. unfold calculate_output_value, DSHOT_MAX_THROTTLE. enough (Hc : 0 <= convert_output_to_3d_scaling c x) by (case_if; lia).
  unfold convert_output_to_3d_scaling, f32_to_uint16. case_if; [done|]. cbv zeta. case_if; apply u16_range.
Qed.

Lemma throttle_frame_range m c k x : 0 <= x -> throttle_frame m c k x = 0 ∨ DSHOT_CMD_MIN_THROTTLE < throttle_frame m c k x < 2048.
Proof.
  intros Hx. unfold throttle_frame, DSHOT_CMD_MIN_THROTTLE, DSHOT_DISARM_VALUE. case_if; [by left|]. cbv zeta. pose proof (calculate_range m c x k Hx) as Hr. unfold DSHOT_MAX_THROTTLE in Hr. case_if; [by left|right]. bool_hyps. lia.
Qed.

(** A frame is set for one channel. *)
Lemma hw_set_ok d k v tel : dshot_ok d -> d.(ds_initialized) = true -> 0 <= v < 2048 -> ∃ h, hw_set (Z.of_nat k) v tel d.(ds_hw) = Some h ∧ dshot_ok (set_hw h d) ∧ same_outputs d (set_hw h d) ∧
  ∀ n, hw_active d.(ds_hw) (Z.of_nat n) = true -> hw_value h (Z.of_nat n) = if decide (n = k) then Some (v, tel) else hw_value d.(ds_hw) (Z.of_nat n).
Proof.
  intros Hd Hi Hv. destruct (hw_set_law d.(ds_hw) (Z.of_nat k) v tel (hw_good_of d Hd Hi)) as (h & E & Hg & Ha & Hn); [lia|done|]. exists h. split; [done|].
  split; [by apply set_hw_ok|]. split; [by apply set_hw_same|]. intros n Hact. rewrite (Hn _ Hact). case_if; bool_hyps; case_decide; lia || done.
Qed.

(** What sending leaves alone. *)
Definition same_choice (d d' : D) : Prop :=
  d'.(ds_cached) = d.(ds_cached) ∧ d'.(ds_command) = d.(ds_command) ∧ d'.(ds_programming) = d.(ds_programming) ∧ d'.(ds_status) = d.(ds_status).
Lemma same_choice_trans d1 d2 d3 : same_choice d1 d2 -> same_choice d2 d3 -> same_choice d1 d3.
Proof. intros (A1 & A2 & A3 & A4) (B1 & B2 & B3 & B4). repeat split; congruence. Qed.

Lemma update_motor_output_spec m k x d : dshot_ok d -> d.(ds_initialized) = true -> 0 <= x ->
  ∃ d' tel, update_motor_output m k x d = Some d' ∧ dshot_ok d' ∧ same_outputs d d' ∧ same_choice d d' ∧
    ∀ n, hw_active d.(ds_hw) (Z.of_nat n) = true -> hw_value d'.(ds_hw) (Z.of_nat n) = if decide (n = k) then Some (throttle_frame m d.(ds_cached) k x, tel) else hw_value d.(ds_hw) (Z.of_nat n).
Proof.
  intros Hd Hi Hx. unfold update_motor_output, throttle_frame, motor_command, motor_throttle. cbv zeta. case_if; cbn [orb].
  { destruct (hw_set_ok d k DSHOT_CMD_MOTOR_STOP false Hd Hi) as (h & -> & G1 & S1 & V1); [done|]. cbn [mbind option_bind]. exists (set_hw h d), false. done. }
  set (tel := _ && _ && _ && _ && _). set (d1 := if tel then _ else d).
  assert (dshot_ok d1 ∧ same_outputs d d1 ∧ same_choice d d1 ∧ d1.(ds_hw) = d.(ds_hw)) as (G1 & S1 & C1 & E1).
  { unfold d1. case_if; [|done]. split; [|done]. pose proof (dk_serial d Hd) as [K1 K2 K3 [K4 K5] K6]. apply set_serial_ok; [done|]. constructor; cbn; try done. split; [|done]. destruct K4. constructor; cbn; try done. }
  assert (I1 : d1.(ds_initialized) = true) by (by rewrite (proj1 (proj2 S1))). rewrite <- (proj1 C1).
  enough (Hset : ∀ v, 0 <= v < 2048 -> ∃ d' t, (h ← hw_set (Z.of_nat k) v tel d1.(ds_hw); Some (set_hw h d1)) = Some d' ∧ dshot_ok d' ∧ same_outputs d d' ∧ same_choice d d' ∧
    ∀ n, hw_active d.(ds_hw) (Z.of_nat n) = true -> hw_value d'.(ds_hw) (Z.of_nat n) = if decide (n = k) then Some (v, t) else hw_value d.(ds_hw) (Z.of_nat n)).
  { case_if; [by apply Hset|]. pose proof (calculate_range m d1.(ds_cached) x k Hx) as Hr. unfold DSHOT_MAX_THROTTLE in Hr. case_if; [by apply Hset|].
    unfold DSHOT_CMD_MIN_THROTTLE. rewrite (uwrap_small 16) by lia. apply Hset. lia. }
  intros v Hv. destruct (hw_set_ok d1 k v tel G1 I1 Hv) as (h & -> & G2 & S2 & V2). cbn [mbind option_bind]. exists (set_hw h d1), tel. split; [done|]. split; [done|].
  split; [by eapply same_outputs_trans|]. split; [exact C1|]. rewrite <- E1. exact V2.
Qed.

Lemma update_motor_outputs_spec m outputs : ∀ k d, dshot_ok d -> d.(ds_initialized) = true -> Forall (Z.le 0) outputs ->
  ∃ d', update_motor_outputs m outputs k d = Some d' ∧ dshot_ok d' ∧ same_outputs d d' ∧ same_choice d d' ∧
    ∀ n, hw_active d.(ds_hw) (Z.of_nat n) = true ->
      (∀ x, (k <= n)%nat -> outputs !! (n - k)%nat = Some x -> ∃ tel, hw_value d'.(ds_hw) (Z.of_nat n) = Some (throttle_frame m d.(ds_cached) n x, tel)) ∧
      ((n < k)%nat -> hw_value d'.(ds_hw) (Z.of_nat n) = hw_value d.(ds_hw) (Z.of_nat n)).
Proof.
  induction outputs as [|x outputs IH]; intros k d Hd Hi Ho; [exists d; split; [done|]; split; [done|]; split; [apply same_outputs_refl|done]|].
  destruct (Forall_cons_1 _ _ _ Ho) as [Hx Ho']. cbn [update_motor_outputs]. destruct (update_motor_output_spec m k x d Hd Hi Hx) as (d1 & tel & -> & G1 & S1 & C1 & V1). cbn [mbind option_bind].
  destruct (IH (S k) d1 G1) as (d2 & -> & G2 & S2 & C2 & V2); [by rewrite (proj1 (proj2 S1))|done|]. exists d2. split; [done|]. split; [done|]. split; [by eapply same_outputs_trans|].
  split; [by eapply same_choice_trans|]. intros n Hn. pose proof S1 as (_ & _ & _ & _ & A1). destruct (V2 n) as [W1 W2]; [by rewrite A1|]. specialize (V1 n Hn). split.
  - intros y Hk Hy. destruct (decide (n = k)) as [->|Hne].
    + rewrite Nat.sub_diag in Hy. injection Hy as <-. exists tel. rewrite W2 by lia. exact V1.
    + replace (n - k)%nat with (S (n - S k)) in Hy by lia. cbn in Hy. rewrite <- (proj1 C1). apply W1; [lia|done].
  - intros Hlt. rewrite W2 by lia. rewrite V1. case_decide; [lia|done].
Qed.

Lemma expect_ok now i command t : telemetry_ok t -> 0 <= i < 9 -> telemetry_ok (setExpectCommandResponse now i command t).
Proof. intros [[] Hh] Hi. split; [|done]. constructor; cbn; unfold COMMAND_RESPONSE_MAX_SIZE in *; lia || done. Qed.

Lemma command_range p c : programming_ok p -> command_ok p c -> 0 <= c.(dc_command) < 2048.
Proof. intros (_ & _ & Hv) (_ & [Hc|[-> _]]); unfold byte_ok, DSHOT_CMD_MIN_THROTTLE in *; lia. Qed.

Lemma command_frame_range m c k : 0 <= c.(dc_command) < 2048 -> 0 <= command_frame m c k < 2048.
Proof. intros Hc. unfold command_frame. cbv zeta. case_if; done. Qed.

Lemma send_commands_spec m n : ∀ k sent d, dshot_ok d -> d.(ds_initialized) = true ->
  ∃ sent' d', send_commands m n k sent d = Some (sent', d') ∧ dshot_ok d' ∧ same_outputs d d' ∧ same_choice d d' ∧
    ∀ i, hw_active d.(ds_hw) (Z.of_nat i) = true ->
      ((k <= i < k + n)%nat -> hw_value d'.(ds_hw) (Z.of_nat i) = Some (command_frame m d.(ds_command) i, false)) ∧
      ((i < k)%nat -> hw_value d'.(ds_hw) (Z.of_nat i) = hw_value d.(ds_hw) (Z.of_nat i)).
Proof.
  induction n as [|n IH]; intros k sent d Hd Hi; [exists sent, d; split; [done|]; split; [done|]; split; [apply same_outputs_refl|]; split; [done|]; intros; split; [lia|done]|].
  cbn [send_commands]. cbv zeta. pose proof (motor_index_range m k) as Hr. set (addressed := (0 <=? motor_index_from_output m k) && _) in *.
  assert (Hf : ∀ d1 : D, d1.(ds_command) = d.(ds_command) -> (if addressed then d1.(ds_command).(dc_command) else DSHOT_CMD_MOTOR_STOP) = command_frame m d.(ds_command) k) by (intros ? ->; done).
  set (d1 := if addressed && _ then _ else d).
  assert (dshot_ok d1 ∧ same_outputs d d1 ∧ same_choice d d1 ∧ d1.(ds_hw) = d.(ds_hw)) as (G1 & S1 & C1 & E1).
  { unfold d1. destruct (addressed && _) eqn:Ea; [|done]. split; [|done]. unfold addressed in Ea. bool_hyps. apply set_serial_ok; [done|]. apply with_telemetry_ok; [apply Hd|]. apply expect_ok; [apply Hd|lia]. }
  assert (I1 : d1.(ds_initialized) = true) by (by rewrite (proj1 (proj2 S1))). rewrite (Hf d1) by apply C1. clearbody d1 addressed.
  pose proof (command_range _ _ (dk_programming d Hd) (dk_command d Hd)) as Hc. unfold motor_command.
  destruct (hw_set_ok d1 k (command_frame m d.(ds_command) k) false G1 I1) as (h & -> & G2 & S2 & V2); [by apply command_frame_range|]. cbn [mbind option_bind].
  destruct (IH (S k) (sent || addressed) (set_hw h d1) G2) as (s3 & d3 & -> & G3 & S3 & C3 & V3); [done|]. exists s3, d3. split; [done|]. split; [done|].
  split; [eapply same_outputs_trans; [exact S1|]; by eapply same_outputs_trans|]. split; [eapply same_choice_trans; [exact C1|exact C3]|].
  intros i Ha. pose proof S2 as (_ & _ & _ & _ & A2). destruct (V3 i) as [W1 W2]; [by rewrite A2, E1|]. cbn in W2. rewrite V2 in W2 by (by rewrite E1). split.
  - intros Hk. destruct (decide (i = k)) as [->|Hne]; [rewrite W2 by lia; done|]. rewrite W1 by lia. cbn. by rewrite (proj1 (proj2 C1)).
  - intros Hlt. rewrite W2 by lia. case_decide; [lia|by rewrite E1].
Qed.

Lemma command_sent_ok p c : command_ok p c -> finished c = false -> command_ok p (command_sent c).
Proof.
  intros [Hn Hc] Hf. unfold finished in *. bool_hyps. unfold command_sent. cbv zeta. case_if; [by apply plain_command|]. split; [cbn; lia|]. destruct Hc as [Hc|[Hc [Hf'|Hs]]]; [by left| |right].
  - unfold finished in Hf'. bool_hyps. lia.
  - split; [done|by right].
Qed.

Lemma update_motor_commands_spec m n d : dshot_ok d -> d.(ds_initialized) = true -> finished d.(ds_command) = false ->
  ∃ d', update_motor_commands m n d = Some d' ∧ dshot_ok d' ∧ same_outputs d d' ∧ d'.(ds_programming) = d.(ds_programming) ∧ d'.(ds_cached) = d.(ds_cached) ∧ d'.(ds_status) = d.(ds_status) ∧
    ∀ k, (k < n)%nat -> hw_active d.(ds_hw) (Z.of_nat k) = true -> hw_value d'.(ds_hw) (Z.of_nat k) = Some (command_frame m d.(ds_command) k, false).
Proof.
  intros Hd Hi Hf. unfold update_motor_commands. destruct (send_commands_spec m n 0 false d Hd Hi) as (sent & d1 & -> & G1 & S1 & (C1 & C2 & C3 & C4) & V1). cbn [mbind option_bind].
  eexists. split; [done|]. assert (Hv : ∀ k, (k < n)%nat -> hw_active d.(ds_hw) (Z.of_nat k) = true -> hw_value d1.(ds_hw) (Z.of_nat k) = Some (command_frame m d.(ds_command) k, false)).
  { intros k Hk Ha. apply V1; [done|lia]. } destruct sent; [|done]. split; [|done]. apply set_command_ok; [done|]. apply command_sent_ok; [apply G1|by rewrite C2].
Qed.

Definition hw_outputs (outputs : list Z) : list Z := map (λ x, u16 (f32_lround x)) outputs.

(** What a trigger sends: the outputs, or a command while no motor runs. *)
Definition sends_outputs (m : MixingOutput) (c : cached) (outputs : list Z) (s : T) : Prop :=
  ∀ k v tel, (k < length outputs)%nat -> hw_received s (Z.of_nat k) = Some (v, tel) -> ∃ x, hw_outputs outputs !! k = Some x ∧ v = throttle_frame m c k x.
Definition sends_command (m : MixingOutput) (outputs : list Z) (p : programming) (s : T) : Prop :=
  u16 (esc_armed_mask m (hw_outputs outputs)) = 0 ∧
  ∃ cmd, finished cmd = false ∧ command_ok p cmd ∧ ∀ k v tel, (k < length outputs)%nat -> hw_received s (Z.of_nat k) = Some (v, tel) -> v = command_frame m cmd k.

Lemma hw_outputs_range l : Forall (Z.le 0) (hw_outputs l).
Proof. apply Forall_map, Forall_true. intros x. apply u16_range. Qed.

(** The outputs or the command are set for the channels. *)
Lemma frames_set m outputs d : dshot_ok d -> d.(ds_initialized) = true ->
  let hws := hw_outputs outputs in let armed := negb (u16 (esc_armed_mask m hws) =? 0) in
  ∃ d1, (if negb armed then
           d ← (if telemetryResponseFinished d.(ds_serial).(sr_telemetry) && finished d.(ds_command) && commandResponseFinished d.(ds_serial).(sr_telemetry)
                then select_next_command d else Some d);
           if negb (finished d.(ds_command)) then update_motor_commands m (length outputs) d else update_motor_outputs m hws 0 d
         else update_motor_outputs m hws 0 d) = Some d1 ∧ dshot_ok d1 ∧ same_setting d d1 ∧ d1.(ds_cached) = d.(ds_cached) ∧ d1.(ds_status) = d.(ds_status) ∧
    ((∀ k x, hws !! k = Some x -> hw_active d.(ds_hw) (Z.of_nat k) = true -> ∃ tel, hw_value d1.(ds_hw) (Z.of_nat k) = Some (throttle_frame m d.(ds_cached) k x, tel)) ∨
     (armed = false ∧ ∃ cmd, finished cmd = false ∧ command_ok d1.(ds_programming) cmd ∧
       ∀ k, (k < length outputs)%nat -> hw_active d.(ds_hw) (Z.of_nat k) = true -> hw_value d1.(ds_hw) (Z.of_nat k) = Some (command_frame m cmd k, false))).
Proof.
  intros Hd Hi. cbv zeta. assert (Hout : ∀ d0 : D, dshot_ok d0 -> d0.(ds_initialized) = true -> ∃ d1, update_motor_outputs m (hw_outputs outputs) 0 d0 = Some d1 ∧ dshot_ok d1 ∧ same_setting d0 d1 ∧
    d1.(ds_cached) = d0.(ds_cached) ∧ d1.(ds_status) = d0.(ds_status) ∧
    ∀ k x, hw_outputs outputs !! k = Some x -> hw_active d0.(ds_hw) (Z.of_nat k) = true -> ∃ tel, hw_value d1.(ds_hw) (Z.of_nat k) = Some (throttle_frame m d0.(ds_cached) k x, tel)).
  { intros d0 H0 I0. destruct (update_motor_outputs_spec m (hw_outputs outputs) 0 d0 H0 I0 (hw_outputs_range _)) as (d1 & -> & G1 & S1 & (C1 & _ & _ & C4) & V1).
    exists d1. do 2 (split; [done|]). split; [by apply same_setting_of|]. do 2 (split; [done|]). intros k x Hk Ha. apply (V1 k Ha); [lia|]. by rewrite Nat.sub_0_r. }
  rewrite negb_involutive. case_if.
  2:{ destruct (Hout d Hd Hi) as (d1 & E & G1 & S1 & C1 & C4 & V1). exists d1. do 5 (split; [done|]). by left. }
  assert (∃ d0, (if telemetryResponseFinished d.(ds_serial).(sr_telemetry) && finished d.(ds_command) && commandResponseFinished d.(ds_serial).(sr_telemetry)
                then select_next_command d else Some d) = Some d0 ∧ dshot_ok d0 ∧ same_state d d0) as (d0 & -> & G0 & (S1 & S2 & S3 & S4 & S5 & S6 & S7)).
  { case_if; [|by exists d]. apply select_ok; [done|]. bool_hyps. done. }
  cbn [mbind option_bind]. assert (I0 : d0.(ds_initialized) = true) by congruence. rewrite <- S5, <- S6, <- S7.
  assert (Ssame : ∀ d1, same_setting d0 d1 -> same_setting d d1). { intros d1 (A1 & A2 & A3 & A4 & A5). do 4 (split; [congruence|]). intros c. by rewrite A5, S5. }
  destruct (finished _) eqn:Ef; cbn [negb].
  - destruct (Hout d0 G0 I0) as (d1 & E & G1 & T1 & C1 & C4 & V1). exists d1. do 2 (split; [done|]). split; [by apply Ssame|]. do 2 (split; [done|]). by left.
  - destruct (update_motor_commands_spec m (length outputs) d0 G0 I0 Ef) as (d1 & E & G1 & T1 & P1 & C1 & C4 & V1). exists d1. do 2 (split; [done|]). split; [by apply Ssame, same_setting_of|]. do 2 (split; [done|]).
    right. split; [done|]. exists d0.(ds_command). split; [done|]. split; [rewrite P1; apply G0|done].
Qed.

Lemma updateOutputs_spec m outputs hu d : dshot_ok d ->
  ∃ r d', dshot_updateOutputs m outputs hu d = Some (r, d') ∧ dshot_ok d' ∧ d'.(ds_initialized) = d.(ds_initialized) ∧ d'.(ds_masks) = d.(ds_masks) ∧ d'.(ds_now) = d.(ds_now) ∧
    (d' = d ∨ ∃ s, d'.(ds_sent) = s :: d.(ds_sent) ∧ (sends_outputs m d.(ds_cached) outputs s ∨ sends_command m outputs d'.(ds_programming) s)).
Proof.
  intros Hd. unfold dshot_updateOutputs. case_if; [exists false, d; do 5 (split; [done|]); by left|]. bool_hyps. cbv zeta. set (d0 := set_status _ d).
  assert (G0 : dshot_ok d0) by (by destruct Hd; constructor). destruct (frames_set m outputs d0) as (d1 & E & G1 & (S1 & S2 & S3 & S4 & S5) & C1 & C2 & V1); [done|done|].
  cbv zeta in E. unfold hw_outputs in E. cbn [st_armed_flags ds_status set_status with_armed_flags d0]. rewrite E. cbn [mbind option_bind]. clear E.
  assert (I1 : d1.(ds_initialized) = true) by (rewrite S2; done). destruct (hw_trigger_law d1.(ds_hw) d1.(ds_now) (hw_good_of d1 G1 I1)) as (h & s & -> & Hh & Ha & Hr). cbn [mbind option_bind].
  eexists _, _. split; [done|]. split; [pose proof (set_hw_ok h d1 G1 I1 Hh) as G2; by destruct G2; constructor|]. do 3 (split; [done|]). right. exists s. cbn [ds_sent set_sent set_hw ds_hw ds_programming].
  split; [by rewrite S1|]. destruct V1 as [V1|(Ham & cmd & Hf & Hc & V1)]; [left|right].
  - intros k v tel Hk Hrec. destruct (Hr _ _ Hrec) as [Hact Hval]. rewrite S5 in Hact. destruct (lookup_lt_is_Some_2 (hw_outputs outputs) k) as [x Hx]; [by unfold hw_outputs; rewrite length_map|].
    exists x. split; [done|]. destruct (V1 k x Hx Hact) as [tel' Hv]. rewrite Hv in Hval. by injection Hval as <- <-.
  - split; [by apply negb_false_iff, Z.eqb_eq in Ham|]. exists cmd. split; [done|]. split; [done|]. intros k v tel Hk Hrec. destruct (Hr _ _ Hrec) as [Hact Hval]. rewrite S5 in Hact.
    rewrite (V1 k Hk Hact) in Hval. congruence.
Qed.

(** ** Requests and set-up *)
Lemma handle_command_ok m c d : dshot_ok d -> dshot_ok (handle_vehicle_command m c d) ∧ same_outputs d (handle_vehicle_command m c d).
Proof.
  intros Hd. unfold handle_vehicle_command. case_if; [|case_if; [|by split; [|apply same_outputs_refl]]].
  - unfold handle_configure_actuator. cbv zeta. assert (Hlog : ∀ l (d0 : D), dshot_ok d0 -> dshot_ok (set_log l d0)) by (intros l d0 []; by constructor).
    case_if; [|split; [by apply Hlog|by repeat split]]. destruct (configuration_command _) as [command save] eqn:Ec.
    assert (0 <= command < DSHOT_CMD_MIN_THROTTLE) by (unfold configuration_command in Ec; repeat (case_if_in Ec; [by injection Ec as <- <-|]); by injection Ec as <- <-).
    case_if; (split; [|by repeat split]); apply Hlog, set_command_ok; try done; by apply plain_command.
  - unfold handle_esc_request_eeprom. cbv zeta. assert (Hs : ∀ mask, serial_ok (with_settings_requested mask d.(ds_serial))) by (intros; destruct (dk_serial d Hd); by constructor).
    case_if; [by split; [|apply same_outputs_refl]|]. case_if; (split; [by apply set_serial_ok|by repeat split]).
Qed.

Lemma handle_pending_ok m pending : ∀ d, dshot_ok d -> dshot_ok (handle_pending m pending d) ∧ same_outputs d (handle_pending m pending d).
Proof.
  assert (Hset : ∀ l (d0 : D), dshot_ok d0 -> dshot_ok (set_commands l d0)) by (intros l d0 []; by constructor).
  induction pending as [|c pending IH]; intros d Hd; cbn [handle_pending]; (case_if; [split; [by apply Hset|by repeat split]|]); [split; [by apply Hset|by repeat split]|].
  destruct (handle_command_ok m c d Hd) as [G1 S1]. destruct (IH _ G1) as [G2 S2]. split; [done|]. by eapply same_outputs_trans.
Qed.

Lemma init_telemetry_ok opened d : dshot_ok d -> dshot_ok (init_telemetry opened d) ∧ same_outputs d (init_telemetry opened d).
Proof.
  intros Hd. unfold init_telemetry. case_if; [|by split; [|apply same_outputs_refl]]. split; [|by repeat split]. pose proof (dk_serial d Hd) as [K1 K2 K3 [K4 K5] K6]. apply set_serial_ok; [done|].
  constructor; cbn; try done. unfold initSettingsHandlers. case_if; [done|]. split; [|cbn; unfold zlen; by rewrite length_imap]. destruct K4. constructor; cbn; try done.
  unfold zlen. by rewrite length_imap.
Qed.

Lemma report_functions_ok m esc : zlen esc = 12 -> ∃ esc', report_functions m esc = Some esc' ∧ zlen esc' = 12.
Proof.
  unfold report_functions. generalize (seq 0 DSHOT_MAXIMUM_CHANNELS) as l. intros l. revert esc. induction l as [|c l IH]; intros esc He; [by exists esc|]. cbn [foldl mbind option_bind].
  pose proof (motor_index_range m c) as Hr. case_if; [|by apply IH]. bool_hyps. destruct (zlookup_lt esc (motor_index_from_output m c)) as [r ->]; [lia|]. cbn [mbind option_bind].
  match goal with |- context [zstore _ _ ?v] => destruct (zstore_Some esc (motor_index_from_output m c) v) as (l' & -> & Hl & _); [lia|] end. apply IH. lia.
Qed.

Lemma mixerChanged_ok m d : dshot_ok d -> ∃ d', dshot_mixerChanged m d = Some d' ∧ dshot_ok d' ∧ d'.(ds_sent) = d.(ds_sent) ∧ d'.(ds_programming) = d.(ds_programming).
Proof.
  intros Hd. unfold dshot_mixerChanged. destruct (motor_masks m _) as [output_mask motor_mask]. destruct (report_functions_ok m _ (dk_status d Hd)) as (esc & -> & He). cbn [mbind option_bind]. cbv zeta.
  pose proof (dk_hw d Hd) as Hh. cbn [ds_initialized set_status]. destruct (ds_initialized d) eqn:Ei.
  { eexists. split; [done|]. split; [|done]. by destruct Hd; constructor. }
  destruct Hh as [Hh _].
  cbn [ds_hw ds_frequency ds_cached set_masks set_status ds_bdshot_timer_channels].
  match goal with |- context [hw_init ?a ?b ?c ?e d.(ds_hw)] => destruct (hw_init_law d.(ds_hw) a b c e Hh (dk_frequency d Hd)) as (h & -> & Hg) end. cbn [mbind option_bind].
  eexists. split; [done|]. split; [|done]. by destruct Hd; constructor.
Qed.
End invariant.

(** ** The mixer keeps the limits of the outputs *)
Definition same_values (o o' : output) : Prop :=
  o'.(o_failsafe) = o.(o_failsafe) ∧ o'.(o_disarmed) = o.(o_disarmed) ∧ o'.(o_min) = o.(o_min) ∧ o'.(o_max) = o.(o_max) ∧ o'.(o_handles) = o.(o_handles).

Lemma dshot_output_same o o' : dshot_output o -> same_values o o' -> dshot_output o'.
Proof. intros (A1 & A2 & A3 & A4 & A5 & A6 & A7 & A8) (B1 & B2 & B3 & B4 & B5). unfold dshot_output. rewrite B1, B2, B3, B4, B5. done. Qed.

Lemma dshot_outputs_same l l' : Forall dshot_output l -> Forall2 same_values l l' -> Forall dshot_output l'.
Proof. intros Hl H2. induction H2 as [|o o' l l' Ho H2 IH]; [done|]. destruct (Forall_cons_1 _ _ _ Hl). constructor; [by eapply dshot_output_same|by apply IH]. Qed.

Lemma same_values_refl l : Forall2 same_values l l.
Proof. induction l; constructor; [by repeat split|done]. Qed.

Lemma same_values_trans l1 l2 l3 : Forall2 same_values l1 l2 -> Forall2 same_values l2 l3 -> Forall2 same_values l1 l3.
Proof.
  intros H12. revert l3. induction H12 as [|x y l1 l2 Hxy H12 IH]; intros l3 H23; inversion H23 as [|y' z ? l3' Hyz H23' E1 E2]; subst; constructor; [|by apply IH].
  destruct Hxy as (A1 & A2 & A3 & A4 & A5), Hyz as (B1 & B2 & B3 & B4 & B5). repeat split; congruence.
Qed.

Lemma assign_outputs_values pr alloc outputs : ∀ i n s outputs' s', assign_outputs pr alloc outputs i n s = (outputs', s') -> Forall2 same_values outputs outputs'.
Proof.
  induction outputs as [|o outputs IH]; intros i n s outputs' s' E; cbn [assign_outputs] in E; [injection E as <- <-; constructor|]. destruct n as [|n]; [injection E as <- <-; apply same_values_refl|].
  destruct (assign_provider _ _ _) as [k s1]. destruct (assign_outputs pr alloc outputs (S i) n s1) as [rest s2] eqn:E2. injection E as <- <-. constructor; [by repeat split|by eapply IH].
Qed.

Lemma clear_functions_values l : Forall2 same_values l (map clear_function l).
Proof. induction l; constructor; [by repeat split|done]. Qed.

Lemma subscriptions_values {D} `{OutputModuleInterface D} pr alloc cw rg sw (m : MixingOutput) (d : D) : (∀ m', is_Some (mixerChanged m' d)) ->
  ∃ r m' d', updateSubscriptions pr alloc cw rg sw m d = Some (r, m', d') ∧ Forall2 same_values m.(_outputs) m'.(_outputs) ∧ (d' = d ∨ ∃ m1, mixerChanged m1 d = Some d').
Proof.
  intros Hd. unfold updateSubscriptions. case_if; [eexists _, _, _; split; [done|]; split; [apply same_values_refl|by left]|]. cbv zeta.
  set (auto := match _ with SchedulingAuto => true | SchedulingDisabled => false end). set (m1 := if auto then _ else _).
  assert (M1 : m1.(_outputs) = m.(_outputs)) by (unfold m1, unregister; destruct auto; [|done]; cbn [_subscription_callback set_has_backup_schedule]; by destruct (_subscription_callback m)).
  clearbody m1. case_if; [eexists _, _, _; split; [done|]; split; [cbn; rewrite M1; apply same_values_refl|by left]|].
  assert (M2 : (cleanupFunctions m1).(_outputs) = map clear_function m1.(_outputs)) by (unfold cleanupFunctions, unregister; by destruct (_subscription_callback m1)).
  rewrite M2, M1. destruct (assign_outputs _ _ _ 0 _ _) as [outputs s] eqn:Ea. apply assign_outputs_values in Ea.
  match goal with |- context [mixerChanged ?x d] => set (m2 := x); assert (E2 : m2.(_outputs) = outputs) by (unfold m2; destruct auto, (as_callback s), rg, (as_all_disabled s); done); clearbody m2 end.
  destruct (Hd m2) as [d2 E]. rewrite E. cbn [mbind option_bind]. eexists _, _, _. split; [done|]. split; [|right; by eexists]. rewrite E2. eapply same_values_trans; [apply clear_functions_values|done].
Qed.

Lemma setup_values m m' : same_setup m m' -> Forall2 same_values m.(_outputs) m'.(_outputs).
Proof.
  intros Hs. apply Forall2_same_length_lookup_2; [symmetry; by apply same_setup_length|]. intros i o o' Ho Ho'. destruct Hs as (_ & _ & _ & _ & _ & _ & _ & _ & _ & H).
  destruct (H i) as [c Hc]. rewrite Ho, Ho' in Hc. injection Hc as ->. by repeat split.
Qed.

(** The mixer after its inputs have been read and the outputs limited. *)
Definition mixed (now : Z) (t : topics) (m : MixingOutput) : MixingOutput := limit_outputs now (raw_values (update_inputs now t m)) (update_inputs now t m).

Lemma mixed_eq now t m : mixed now t m = limit_outputs now (raw_values (update_inputs now t m)) (update_inputs now t m).
Proof. reflexivity. Qed.

Lemma update_inputs_mixer now t m : mixer_ok m -> topics_ok t -> mixer_ok (update_inputs now t m).
Proof. intros [] Ht. destruct (update_inputs_ok now t m mx_mixing0 Ht) as (Hm & Ec & Eo & _). constructor; rewrite ?Ec, ?Eo; done. Qed.

Lemma mixed_ok now t m : mixer_ok m -> topics_ok t -> mixer_ok (mixed now t m) ∧ same_setup (update_inputs now t m) (mixed now t m).
Proof.
  intros Hm Ht. pose proof (update_inputs_mixer now t m Hm Ht) as [Hi Hs Hr Ho Hp Hf]. unfold mixed. cbv zeta. set (m1 := update_inputs now t m) in *.
  destruct (limit_outputs_spec now (raw_values m1) m1 Hi Hs) as [Hss _]. pose proof (limit_outputs_ok now (raw_values m1) m1 Hi Hs) as Hok. split; [|done].
  pose proof (setup_values _ _ Hss) as Hv. destruct Hss as (Ec & _). constructor; rewrite ?Ec; try done. by eapply dshot_outputs_same.
Qed.

Lemma update_values_cases now t m : update_values now t m = (true, mixed now t m) ∨ update_values now t m = (false, update_inputs now t m).
Proof. unfold update_values, mixed. cbv zeta. destruct (negb _ || negb _); [left|right]; reflexivity. Qed.

Lemma disabled_mixer b m : mixer_ok m -> mixer_ok (set_was_all_disabled b m).
Proof. intros []. constructor; try done. by destruct mx_mixing0; constructor. Qed.

Lemma length_current m : mixer_ok m -> length (current_values m) = DSHOT_MAXIMUM_CHANNELS.
Proof. intros [[] ? ? Ho _ _]. unfold current_values, used. rewrite length_map, length_take, Ho. unfold MAX_ACTUATORS, DSHOT_MAXIMUM_CHANNELS in *. lia. Qed.

(** Outputs that only get other limits. *)
Lemma mixing_outputs m outs : mixing_ok m -> Forall2 (λ o o', o'.(o_function) = o.(o_function) ∧ o'.(o_assignment) = o.(o_assignment)) m.(_outputs) outs -> mixing_ok (set_outputs outs m).
Proof.
  intros [H1 H2 H3 H4 H5 H6 H7 H8 H9] Hf. constructor; cbn; try done; [by rewrite <- (list.Forall2_length _ _ _ Hf)|].
  apply Forall_lookup_2. intros i o' Ho'. destruct (Forall2_lookup_r _ _ _ _ _ Hf Ho') as (o & Ho & E1 & E2). intros k. rewrite E1, E2. exact (Forall_lookup_1 _ _ _ _ H3 Ho k).
Qed.

Lemma Forall2_map_r {A B} (P : A -> B -> Prop) (f : A -> B) l : (∀ x, P x (f x)) -> Forall2 P l (map f l).
Proof. intros H. induction l; by constructor. Qed.

Lemma Forall2_map_used (P : output -> output -> Prop) m f : length m.(_outputs) = MAX_ACTUATORS -> (∀ i o, m.(_outputs) !! i = Some o -> P o (f i o)) -> (∀ o, P o o) -> Forall2 P m.(_outputs) (map_used m f).
Proof.
  intros Hl Hf Hr. apply Forall2_same_length_lookup_2.
  - unfold map_used. rewrite length_app, length_imap, length_take, length_drop. lia.
  - intros i o o' Ho Ho'. rewrite lookup_map_used, Ho in Ho' by done. injection Ho' as <-. case_if; [by apply Hf|apply Hr].
Qed.

Lemma update_output_params_dshot pr i o : dshot_output o -> let o' := update_output_params pr i o in dshot_output o' ∧ o'.(o_function) = o.(o_function) ∧ o'.(o_assignment) = o.(o_assignment).
Proof.
  intros (A1 & A2 & A3 & A4 & A5 & A6 & A7 & A8). unfold update_output_params, param_value. cbv zeta. rewrite A5, A6, A7, A8, A3.
  rewrite (proj2 (Z.ltb_ge DSHOT_MAX_THROTTLE o.(o_min))) by lia. unfold dshot_output. cbn. done.
Qed.

Lemma min_value_range x : DSHOT_MIN_THROTTLE <= dshot_min_value x <= DSHOT_MAX_THROTTLE.
Proof. unfold dshot_min_value. cbv zeta. unfold DSHOT_MIN_THROTTLE, DSHOT_MAX_THROTTLE in *. repeat case_if; bool_hyps; lia. Qed.

Lemma outputs_mixer m outs : mixer_ok m -> Forall2 (λ o o', (dshot_output o -> dshot_output o') ∧ o'.(o_function) = o.(o_function) ∧ o'.(o_assignment) = o.(o_assignment)) m.(_outputs) outs ->
  mixer_ok (set_outputs outs m).
Proof.
  intros [] Hf. constructor; try done.
  - apply mixing_outputs; [done|]. eapply Forall2_impl; [|exact Hf]. by intros o o' [_ ?].
  - cbn. clear -mx_output0 Hf. revert mx_output0. induction Hf as [|o o' l l' Ho Hf IH]; intros Hl; [done|]. destruct (Forall_cons_1 _ _ _ Hl). constructor; [by apply Ho|by apply IH].
Qed.

Lemma updateParams_mixer pr m : mixer_ok m -> f32_ok pr.(p_thr_mdl_fac) -> mixer_ok (updateParams pr m).
Proof.
  intros Hm Ht. unfold updateParams. cbv zeta. set (m1 := set_thr_mdl_fac _ m).
  assert (M1 : mixer_ok m1) by (destruct Hm as [[] ? ? ? ? ?]; constructor; try done; by constructor).
  assert (M2 : mixer_ok (set_outputs (map_used m (update_output_params pr)) m1)).
  { apply outputs_mixer; [done|]. change (map_used m (update_output_params pr)) with (map_used m1 (update_output_params pr)). apply Forall2_map_used; [by apply M1|..].
    - intros i o Ho. pose proof (Forall_lookup_1 _ _ _ _ (mx_output m1 M1) Ho) as Hd. destruct (update_output_params_dshot pr i o Hd) as (? & ? & ?). done.
    - done. }
  clearbody m1. case_if; destruct M2 as [[] ? ? ? ? ?]; constructor; try done; by constructor.
Qed.

Lemma set_min_dshot v o : dshot_output o -> DSHOT_MIN_THROTTLE <= v <= DSHOT_MAX_THROTTLE ->
  dshot_output (mkOutput o.(o_failsafe) o.(o_disarmed) v o.(o_center) o.(o_max) o.(o_current) o.(o_function) o.(o_assignment) o.(o_handles)).
Proof. intros (A1 & A2 & A3 & A4 & A5 & A6 & A7 & A8) Hv. done. Qed.

Lemma setMinValue_mixer i v m : mixer_ok m -> DSHOT_MIN_THROTTLE <= v <= DSHOT_MAX_THROTTLE -> mixer_ok (setMinValue i v m).
Proof.
  intros Hm Hv. unfold setMinValue. apply outputs_mixer; [done|]. apply Forall2_same_length_lookup_2; [by rewrite length_alter|]. intros j o o' Ho Ho'.
  rewrite list_lookup_alter in Ho'. case_decide; subst; rewrite Ho in Ho'; injection Ho' as <-; [|done]. split; [|done]. intros Hd. by apply set_min_dshot.
Qed.

Lemma setAllMinValues_mixer v m : mixer_ok m -> DSHOT_MIN_THROTTLE <= v <= DSHOT_MAX_THROTTLE -> mixer_ok (setAllMinValues v m).
Proof. intros Hm Hv. unfold setAllMinValues. apply outputs_mixer; [done|]. apply Forall2_map_r. intros o. split; [|done]. by intros (A1 & A2 & A3 & A4 & A5 & A6 & A7 & A8). Qed.

Lemma reversible_min_mixer l : ∀ m, mixer_ok m -> mixer_ok (foldl (λ m i, if Z.testbit m.(_reversible_mask) (Z.of_nat i) then setMinValue i DSHOT_MIN_THROTTLE m else m) m l).
Proof. induction l as [|i l IH]; intros m Hm; [done|]. cbn [foldl]. apply IH. case_if; [|done]. by apply setMinValue_mixer. Qed.

Lemma update_params_ok {H T} `{!DshotHardware H T, !DshotLaws H T} pr dp m (d : DShot H T) : mixer_ok m -> dshot_ok d -> f32_ok pr.(p_thr_mdl_fac) ->
  let md := update_params pr dp m d in mixer_ok md.1 ∧ dshot_ok md.2 ∧ same_outputs d md.2.
Proof.
  intros Hm Hd Ht. unfold update_params. cbv zeta. cbn [fst snd]. split; [|split; [by destruct Hd; constructor|by repeat split]].
  apply reversible_min_mixer, setAllMinValues_mixer; [by apply updateParams_mixer|apply min_value_range].
Qed.

(** ** The run *)
Record inputs_ok (ri : inputs) : Prop := mkInputsOk {
  ik_topics : topics_ok ri.(ri_topics);
  ik_writes : Forall eeprom_ok ri.(ri_eeprom_writes);
  ik_thrust : f32_ok ri.(ri_params).(p_thr_mdl_fac) }.

Section run.
Context {H T : Type} `{!DshotHardware H T, !DshotLaws H T}.
Notation D := (DShot H T).

(** What a run has sent: nothing, or once what the mixed outputs give. *)
Definition run_sends (ri : inputs) (m : MixingOutput) (d d' : D) : Prop :=
  let m1 := mixed ri.(ri_now) ri.(ri_topics) m in
  d'.(ds_sent) = d.(ds_sent) ∨
  ∃ s, d'.(ds_sent) = s :: d.(ds_sent) ∧ (sends_outputs m1 d.(ds_cached) (current_values m1) s ∨ sends_command m1 (current_values m1) d'.(ds_programming) s).

Lemma receive_ok ri d : dshot_ok d -> inputs_ok ri -> dshot_ok (receive ri d).
Proof. intros [] []. constructor; try done. cbn. by apply Forall_app_2. Qed.

Lemma update_spec ri m d : mixer_ok m -> dshot_ok d -> inputs_ok ri ->
  ∃ r m' d', update ri.(ri_now) ri.(ri_topics) ri.(ri_has_updates) m (receive ri d) = Some (r, m', d') ∧ mixer_ok m' ∧ dshot_ok d' ∧ run_sends ri m d d'.
Proof.
  intros Hm Hd Hi. pose proof (receive_ok ri d Hd Hi) as Hr. unfold update. destruct (update_values_cases ri.(ri_now) ri.(ri_topics) m) as [->| ->].
  - destruct (mixed_ok ri.(ri_now) ri.(ri_topics) m Hm (ik_topics _ Hi)) as [Hmx _]. set (m1 := mixed _ _ m) in *. cbn [updateOutputs dshot_module].
    destruct (updateOutputs_spec m1 (current_values m1) ri.(ri_has_updates) (receive ri d) Hr) as (r & d' & -> & G1 & _ & _ & _ & Hs). cbn [mbind option_bind].
    eexists _, _, _. split; [done|]. split; [by apply disabled_mixer|]. split; [done|]. destruct Hs as [->|Hs]; [by left|by right].
  - eexists _, _, _. split; [done|]. split; [by apply disabled_mixer, update_inputs_mixer, Hi|]. split; [done|by left].
Qed.

Lemma publish_ok d : dshot_ok d -> dshot_ok (publish_status d) ∧ same_outputs d (publish_status d).
Proof. intros []. split; [by constructor|by repeat split]. Qed.

Lemma run_sends_same ri m d d1 d2 : run_sends ri m d d1 -> d2.(ds_sent) = d1.(ds_sent) -> d2.(ds_programming) = d1.(ds_programming) -> run_sends ri m d d2.
Proof. unfold run_sends. intros Hs -> ->. exact Hs. Qed.

Lemma run_sends_outputs ri m d d1 d2 : run_sends ri m d d1 -> same_outputs d1 d2 -> run_sends ri m d d2.
Proof. intros Hs (A1 & _ & A3 & _). injection A3 as _ A3. by eapply run_sends_same. Qed.

Lemma run_outputs_spec ri m d : mixer_ok m -> dshot_ok d -> inputs_ok ri ->
  ∃ m' d', run_outputs ri m d = Some (m', d') ∧ mixer_ok m' ∧ dshot_ok d' ∧ run_sends ri m d d'.
Proof.
  intros Hm Hd Hi. unfold run_outputs. destruct (update_spec ri m d Hm Hd Hi) as (r & m1 & d1 & -> & M1 & G1 & R1). cbn [mbind option_bind].
  destruct (process_serial_ok ri.(ri_bytes) d1 G1) as (b1 & d2 & -> & G2 & S2). cbn [mbind option_bind]. destruct (process_bdshot_ok m1 d2 G2) as (b2 & d3 & -> & G3 & S3). cbn [mbind option_bind].
  destruct (publish_ok d3 G3) as [G4 S4]. pose proof (run_sends_outputs _ _ _ _ _ R1 (same_outputs_trans _ _ _ S2 S3)) as R3.
  eexists _, _. split; [done|]. split; [done|]. case_if; [|done]. split; [done|]. by eapply run_sends_outputs.
Qed.

(** Before the hardware is initialised nothing is sent. *)
Lemma run_outputs_idle ri m d : mixer_ok m -> dshot_ok d -> inputs_ok ri -> d.(ds_initialized) = false ->
  ∃ m' d', run_outputs ri m d = Some (m', d') ∧ mixer_ok m' ∧ dshot_ok d' ∧ d'.(ds_initialized) = false ∧ d'.(ds_sent) = d.(ds_sent).
Proof.
  intros Hm Hd Hi Hn. destruct (run_outputs_spec ri m d Hm Hd Hi) as (m' & d' & E & M1 & G1 & _). exists m', d'. split; [done|]. split; [done|]. split; [done|].
  unfold run_outputs in E. apply bind_Some in E as ([[r m1] d1] & E1 & E). apply bind_Some in E as ([b1 d2] & E2 & E). apply bind_Some in E as ([b2 d3] & E3 & E). injection E as _ E.
  destruct (update_spec ri m d Hm Hd Hi) as (r' & m1' & d1' & E1' & _ & K1 & _). rewrite E1 in E1'. injection E1' as <- <- <-.
  assert (Hd1 : d1 = receive ri d).
  { unfold update in E1. destruct (update_values _ _ m) as [[] m2]; [|by injection E1 as _ _ <-]. cbn [updateOutputs dshot_module] in E1. unfold dshot_updateOutputs in E1.
    cbn [ds_initialized receive set_now set_commands set_eeprom_writes] in E1. rewrite Hn in E1. cbn [negb orb mbind option_bind] in E1. by injection E1 as _ _ <-. }
  destruct (process_serial_ok ri.(ri_bytes) d1 K1) as (x & d2' & E2' & K2 & (A1 & A2 & _)). rewrite E2 in E2'. injection E2' as <- <-.
  destruct (process_bdshot_ok m1 d2 K2) as (y & d3' & E3' & K3 & (B1 & B2 & _)). rewrite E3 in E3'. injection E3' as <- <-.
  assert (d'.(ds_initialized) = d3.(ds_initialized) ∧ d'.(ds_sent) = d3.(ds_sent)) as [-> ->] by (subst d'; by case_if). rewrite B1, B2, A1, A2, Hd1. done.
Qed.

Lemma run_requests_ok ri m d : mixer_ok m -> dshot_ok d -> inputs_ok ri -> let md := run_requests ri m d in mixer_ok md.1 ∧ dshot_ok md.2 ∧ same_outputs d md.2.
Proof.
  intros Hm Hd Hi. unfold run_requests. set (md := if ri_params_updated ri then _ else _).
  assert (mixer_ok md.1 ∧ dshot_ok md.2 ∧ same_outputs d md.2) as (M1 & G1 & S1).
  { unfold md. case_if; [exact (update_params_ok _ _ m d Hm Hd (ik_thrust _ Hi))|]. split; [done|]. split; [done|apply same_outputs_refl]. }
  destruct md as [m1 d1]. cbn [fst snd] in *. set (d2 := match _ with Some opened => _ | None => d1 end).
  assert (dshot_ok d2 ∧ same_outputs d d2) as [G2 S2].
  { unfold d2. destruct (ri_telemetry_init ri) as [opened|]; [|done]. destruct (init_telemetry_ok opened d1 G1) as [? ?]. split; [done|]. by eapply same_outputs_trans. }
  destruct (handle_pending_ok m1 d2.(ds_commands) d2 G2) as [G3 S3]. split; [done|]. split; [done|]. by eapply same_outputs_trans.
Qed.

Lemma subscriptions_ok ri m d : mixer_ok m -> dshot_ok d -> ∃ r m' d', updateSubscriptions ri.(ri_params) ri.(ri_alloc) ri.(ri_change_wq) ri.(ri_register) true m d = Some (r, m', d') ∧
  mixer_ok m' ∧ dshot_ok d' ∧ d'.(ds_sent) = d.(ds_sent) ∧ d'.(ds_programming) = d.(ds_programming).
Proof.
  intros Hm Hd. destruct (subscriptions_values ri.(ri_params) ri.(ri_alloc) ri.(ri_change_wq) ri.(ri_register) true m d) as (r & m' & d' & E & Hv & Hc).
  { intros m'. destruct (mixerChanged_ok m' d Hd) as (d' & E & _). by exists d'. }
  exists r, m', d'. split; [done|]. pose proof Hm as [Hm1 Hm2 Hm3 Hm4 Hm5 Hm6]. destruct (updateSubscriptions_ok _ _ _ _ _ _ _ _ _ _ Hm1 E) as (M1 & Ec & _).
  split; [constructor; rewrite ?Ec; try done; by eapply dshot_outputs_same|]. destruct Hc as [->|[m1 Hc]]; [done|]. destruct (mixerChanged_ok m1 d Hd) as (d2 & E2 & G2 & S2 & P2).
  cbn in Hc. rewrite Hc in E2. by injection E2 as <-.
Qed.

(** Every run comes to its end, keeps the invariant and sends what the mixer gives. *)
Lemma Run_spec ri m d : mixer_ok m -> dshot_ok d -> inputs_ok ri -> ∃ m' d', Run ri m d = Some (m', d') ∧ mixer_ok m' ∧ dshot_ok d' ∧ run_sends ri m d d'.
Proof.
  intros Hm Hd Hi. unfold Run. case_if.
  { eexists _, _. split; [done|]. split; [|split; [done|by left]]. unfold unregister. cbn [_subscription_callback set_schedule].
    destruct Hm as [[] ? ? ? ? ?], (_subscription_callback m); constructor; try done; by constructor. }
  destruct (run_outputs_spec ri m d Hm Hd Hi) as (m1 & d1 & -> & M1 & G1 & R1). cbn [mbind option_bind]. destruct (run_requests_ok ri m1 d1 M1 G1 Hi) as (M2 & G2 & S2).
  destruct (run_requests ri m1 d1) as [m2 d2]. cbn [fst snd] in *. destruct (subscriptions_ok ri m2 d2 M2 G2) as (r & m3 & d3 & -> & M3 & G3 & S3 & P3). cbn [mbind option_bind].
  eexists _, _. split; [done|]. split; [done|]. split; [done|]. eapply run_sends_same; [|done|done]. by eapply run_sends_outputs.
Qed.

Lemma Runs_total l : ∀ m d, mixer_ok m -> dshot_ok d -> Forall inputs_ok l -> ∃ m' d', Runs l m d = Some (m', d') ∧ mixer_ok m' ∧ dshot_ok d'.
Proof.
  induction l as [|ri l IH]; intros m d Hm Hd Hl; [by exists m, d|]. destruct (Forall_cons_1 _ _ _ Hl) as [Hi Hl']. cbn [Runs].
  destruct (Run_spec ri m d Hm Hd Hi) as (m1 & d1 & -> & M1 & G1 & _). cbn [mbind option_bind]. by apply IH.
Qed.
End run.

(** ** The start *)
Lemma update_output_params_function pr i o : (update_output_params pr i o).(o_function) = o.(o_function) ∧ (update_output_params pr i o).(o_assignment) = o.(o_assignment).
Proof. unfold update_output_params. cbv zeta. by destruct (if _ <? _ then _ else _). Qed.

Lemma MixingOutput_new_ok pr n policy esc ramp : f32_ok pr.(p_thr_mdl_fac) -> mixing_ok (MixingOutput_new pr n policy esc ramp).
Proof.
  intros Ht. unfold MixingOutput_new, updateParams. cbv zeta. match goal with |- context [set_thr_mdl_fac _ ?x] => set (m0 := x) end. set (outs := m0.(_outputs)).
  assert (Ho : length outs = MAX_ACTUATORS) by (unfold outs; cbn [_outputs m0]; by rewrite length_imap).
  assert (Hn : ∀ i o, outs !! i = Some o -> o.(o_function) = None).
  { intros i o Hi. unfold outs in Hi. cbn [_outputs m0] in Hi. rewrite list_lookup_imap in Hi. by apply fmap_Some in Hi as (x & _ & ->). }
  assert (M0 : mixing_ok (set_thr_mdl_fac pr.(p_thr_mdl_fac) m0)).
  { constructor; try done; [apply Nat.le_min_r| |apply test_reset_ok]. apply Forall_lookup_2. intros i o Hi k Hk. change (outs !! i = Some o) in Hi. by rewrite (Hn i o Hi) in Hk. }
  assert (M1 : mixing_ok (set_outputs (map_used m0 (update_output_params pr)) (set_thr_mdl_fac pr.(p_thr_mdl_fac) m0))).
  { apply mixing_outputs; [done|]. apply (Forall2_map_used _ m0); [done| |done]. intros i o _. apply update_output_params_function. }
  case_if; destruct M1; by constructor.
Qed.

Lemma new_mixer pr : f32_ok pr.(p_thr_mdl_fac) ->
  mixer_ok (setAllFailsafeValues UINT16_MAX (setAllMaxValues DSHOT_MAX_THROTTLE (setAllMinValues DSHOT_MIN_THROTTLE (setAllDisarmedValues DSHOT_DISARM_VALUE
    (MixingOutput_new pr DSHOT_MAXIMUM_CHANNELS SchedulingAuto false false))))).
Proof.
  intros Ht. pose proof (MixingOutput_new_ok pr DSHOT_MAXIMUM_CHANNELS SchedulingAuto false false Ht) as Hm.
  assert (Hc : (MixingOutput_new pr DSHOT_MAXIMUM_CHANNELS SchedulingAuto false false).(_config) = mkConfig false SchedulingAuto false false 9 0 300000 (bool_decide (is_Some pr.(p_rev)))).
  { unfold MixingOutput_new, updateParams. cbv zeta. by case_if. }
  set (m := MixingOutput_new _ _ _ _ _) in *. clearbody m. constructor; try (cbn; by rewrite Hc).
  - do 4 (apply mixing_outputs; [|by apply Forall2_map_r]). done.
  - cbn. rewrite !Forall_map. apply Forall_true. intros o. unfold dshot_output, DSHOT_MIN_THROTTLE, DSHOT_MAX_THROTTLE. cbn. repeat split; lia.
Qed.

(** A run uses up its schedule, unless it is periodic. *)
Definition fire (m : MixingOutput) : MixingOutput := match m.(_schedule) with ScheduledOnInterval _ => m | _ => set_schedule NotScheduled m end.

Lemma fire_mixer m : mixer_ok m -> mixer_ok (fire m).
Proof. intros []. unfold fire. destruct (_schedule m); constructor; try done; by destruct mx_mixing0; constructor. Qed.

Section start.
Context {H T : Type} `{!DshotHardware H T, !DshotLaws H T}.
Notation D := (DShot H T).

Lemma configure_timers_spec timers : ∀ channels (d : D) channels' d', configure_timers timers channels d = (channels', d') -> (channels ≠ 0 -> d.(ds_frequency) ≠ 0) ->
  (channels' ≠ 0 -> d'.(ds_frequency) ≠ 0) ∧ ∃ c, d' = set_frequency d'.(ds_frequency) (set_bdshot_timer_channels c d).
Proof.
  induction timers as [|[timer_channels tim_config] timers IH]; intros channels d channels' d' E Hf; cbn [configure_timers] in E.
  { injection E as <- <-. split; [done|]. exists d.(ds_bdshot_timer_channels). by destruct d. }
  destruct (timer_frequency tim_config) as [freq is_bdshot]. case_if_in E; [by eapply IH|]. bool_hyps.
  set (d1 := if is_bdshot then _ else _) in E. apply IH in E as [F1 [c F2]]; [|intros _; unfold d1; destruct is_bdshot; cbn; lia]. split; [done|]. exists c. rewrite F2. unfold d1. by destruct is_bdshot.
Qed.

(** The states that runs and interrupts lead to after a successful start. *)
Inductive reachable (pr : params) (dp : dshot_params) (timers : list (Z * Z)) (frame response : list Z) (h : H) : MixingOutput -> D -> Prop :=
  | reach_init m d : (let '(m0, d0) := DShot_new pr frame response h in init pr dp timers m0 d0) = (true, m, d) -> reachable pr dp timers frame response h m d
  | reach_run m d ri m' d' : reachable pr dp timers frame response h m d -> inputs_ok ri -> Run ri m d = Some (m', d') -> reachable pr dp timers frame response h m' d'
  | reach_fire m d : reachable pr dp timers frame response h m d -> reachable pr dp timers frame response h (fire m) d
  | reach_interrupt m d h' : reachable pr dp timers frame response h m d -> d.(ds_initialized) = true -> hw_interrupt d.(ds_hw) h' -> reachable pr dp timers frame response h m (set_hw h' d).

Lemma init_ok pr dp timers frame response h m d : f32_ok pr.(p_thr_mdl_fac) -> hw_start h -> zlen frame = 10 -> zlen response = 49 ->
  (let '(m0, d0) := DShot_new pr frame response h in init pr dp timers m0 d0) = (true, m, d) -> mixer_ok m ∧ dshot_ok d.
Proof.
  intros Ht Hh Hf Hr E. unfold DShot_new, init in E. pose proof (new_mixer pr Ht) as Hm. unfold update_params in E. cbv zeta in E.
  match type of E with context [setAllMinValues (dshot_min_value _) (updateParams pr ?x)] => set (m0 := x) in * end.
  pose proof (reversible_min_mixer (seq 0 DSHOT_MAXIMUM_CHANNELS) _ (setAllMinValues_mixer _ _ (updateParams_mixer pr m0 Hm Ht) (min_value_range dp.(dp_min)))) as M1.
  match type of M1 with mixer_ok ?x => set (m1 := x) in * end. clearbody m1. unfold initialize_dshot in E.
  destruct (configure_timers _ _ _) as [channels d1] eqn:Ec. apply configure_timers_spec in Ec as [F1 [c F2]]; [|done].
  injection E as E1 E2 E3. subst d. bool_hyps. split.
  - subst m. case_if. destruct M1 as [[] ? ? ? ? ?]. constructor; try done. by constructor.
  - specialize (F1 ltac:(lia)). rewrite F2 in F1 |- *. cbn [ds_frequency set_frequency] in F1. constructor; try done.
    + by apply plain_command.
    + split; [|done]. split; [done|]. split; [|done]. by repeat constructor.
Qed.

Lemma dshot_reachable_ok pr dp timers frame response h m d : f32_ok pr.(p_thr_mdl_fac) -> hw_start h -> zlen frame = 10 -> zlen response = 49 ->
  reachable pr dp timers frame response h m d -> mixer_ok m ∧ dshot_ok d.
Proof.
  intros Ht Hh Hf Hr. induction 1 as [m d E|m d ri m' d' _ [IH1 IH2] Hi E|m d _ [IH1 IH2]|m d h' _ [IH1 IH2] Hi E].
  - by eapply init_ok.
  - destruct (Run_spec ri m d IH1 IH2 Hi) as (m1 & d1 & E1 & M1 & G1 & _). by simplify_eq.
  - split; [by apply fire_mixer|done].
  - split; [done|]. apply set_hw_ok; [done|done|]. apply (hw_interrupt_law d.(ds_hw) h'); [by apply hw_good_of|done].
Qed.
End start.
