(* ===== verification/DShotCommands.v ===== *)
(** * Commands of the DShot driver

    What happens to the command queue of the driver over runs: a command is sent until its
    repetitions are used up, and only then the next vehicle command or setting is taken. A
    command that addresses no motor is never used up. *)
From stdpp Require Import base list tactics option.
From Stdlib Require Import ZArith Lia.
From S2P Require Import Prelude Float32 FloatOps FloatBounds MixerModule DShotTelemetry DShotDriver DShotInvariant.

(** Takes a computation that has a result apart. *)
Ltac result E :=
  repeat match type of E with
  | (_ ≫= _) = Some _ => let x := fresh "x" in let Hx := fresh "Hx" in apply bind_Some in E as (x & Hx & E)
  | (let '(_, _) := ?p in _) = Some _ => destruct p
  | (if ?b then _ else _) = Some _ => destruct b
  | (match ?o with Some _ => _ | None => _ end) = Some _ => destruct o
  end.

Section queue.
Context {H T : Type} `{!DshotHardware H T}.
Notation D := (DShot H T).

(** The command in progress and the vehicle commands that wait. *)
Definition same_queue (d d' : D) : Prop := d'.(ds_command) = d.(ds_command) ∧ d'.(ds_commands) = d.(ds_commands).

Lemma same_queue_trans d1 d2 d3 : same_queue d1 d2 -> same_queue d2 d3 -> same_queue d1 d3.
Proof. intros [A1 A2] [B1 B2]. split; congruence. Qed.

Lemma consume_queue e d d' : consume_esc_data e d = Some d' -> same_queue d d'.
Proof. unfold consume_esc_data. intros E. case_if_in E; [by injection E as <-|]. result E. by injection E as <-. Qed.

Lemma next_telemetry_queue d : same_queue d (next_telemetry d).2.
Proof. unfold next_telemetry. by destruct (set_next_telemetry_index _ _). Qed.

Lemma serial_polled_queue i status e d r d' : serial_polled i status e d = Some (r, d') -> same_queue d d'.
Proof.
  assert (Hn : ∀ s d1 r1 d2, consume_esc_data e (set_serial s d) = Some d1 -> next_telemetry d1 = (r1, d2) -> same_queue d d2).
  { intros s d1 r1 d2 Hc Hn. pose proof (next_telemetry_queue d1) as Hq. rewrite Hn in Hq. eapply same_queue_trans; [|exact Hq]. by apply consume_queue in Hc. }
  unfold serial_polled. intros E. destruct status; cbv zeta in E.
  - by injection E as <- <-.
  - by injection E as <- <-.
  - apply bind_Some in E as (l & _ & E). case_if_in E; [|result E; by injection E as <- <-]. apply bind_Some in E as (d1 & Hc & E). injection E as E. destruct (next_telemetry d1) eqn:En. simplify_eq. by eapply Hn.
  - apply bind_Some in E as (s1 & _ & E). apply bind_Some in E as (s2 & _ & E). apply bind_Some in E as (d1 & Hc & E). injection E as E. by eapply Hn.
  - apply bind_Some in E as (s1 & _ & E). apply bind_Some in E as (d1 & Hc & E). destruct (next_telemetry d1) as [all d2] eqn:En. injection E as <- <-. by apply (Hn _ _ _ _ Hc En).
Qed.

Lemma process_serial_queue got d r d' : process_serial_telemetry got d = Some (r, d') -> same_queue d d'.
Proof.
  unfold process_serial_telemetry. intros E. case_if_in E; [by injection E as <- <-|]. cbv zeta in E. case_if_in E; [case_if_in E|case_if_in E].
  - apply bind_Some in E as ([t p] & _ & E). destruct p as [[]|]; by injection E as <- <-.
  - by injection E as <- <-.
  - injection E as <- <-. apply (next_telemetry_queue (on_serial _ d)).
  - apply bind_Some in E as ([[st e] t] & _ & E). apply serial_polled_queue in E. exact E.
Qed.

Lemma bdshot_report_queue channel i r d e d' : bdshot_report channel i r d = Some (e, d') -> same_queue d d'.
Proof.
  assert (Hx : ∀ t c p (d0 : D) v d1, bdshot_extended channel t c p d0 = Some (v, d1) -> same_queue d0 d1).
  { intros t c p d0 v d1 E. unfold bdshot_extended in E. apply bind_Some in E as ([x h] & _ & E). by injection E as <- <-. }
  unfold bdshot_report. intros E. apply bind_Some in E as ([v h] & _ & E). case_if_in E; [|by injection E as <- <-].
  apply bind_Some in E as ([v1 d1] & E1 & E). apply bind_Some in E as ([v2 d2] & E2 & E). apply bind_Some in E as ([v3 d3] & E3 & E). injection E as <- <-.
  apply Hx in E1, E2, E3. eapply same_queue_trans; [|exact E3]. eapply same_queue_trans; [exact E1|exact E2].
Qed.

Lemma bdshot_channel_queue m c d d' : bdshot_channel m c d = Some d' -> same_queue d d'.
Proof.
  unfold bdshot_channel. intros E. cbv zeta in E. case_if_in E; [by injection E as <-|]. apply bind_Some in E as (n & _ & E). apply bind_Some in E as (errors & _ & E). apply bind_Some in E as (online & _ & E).
  destruct online; apply bind_Some in E as (b & _ & E).
  - apply bind_Some in E as (r & _ & E). apply bind_Some in E as ([e d1] & E1 & E). apply bdshot_report_queue in E1. apply consume_queue in E. eapply same_queue_trans; [exact E1|exact E].
  - apply consume_queue in E. exact E.
Qed.

Lemma process_bdshot_queue m d r d' : process_bdshot_telemetry m d = Some (r, d') -> same_queue d d'.
Proof.
  unfold process_bdshot_telemetry. intros E. cbv zeta in E. destruct (_ || _ || _); [by injection E as <- <-|]. apply bind_Some in E as (d1 & E1 & E). injection E as <- <-. revert d E1.
  generalize (seq 0 DSHOT_MAXIMUM_CHANNELS). induction l as [|c l IH]; intros d E; cbn [bdshot_channels] in E; [by injection E as <-|]. apply bind_Some in E as (d2 & E2 & E).
  eapply same_queue_trans; [by eapply bdshot_channel_queue|by apply IH].
Qed.

Lemma update_motor_output_queue m k x d d' : update_motor_output m k x d = Some d' -> same_queue d d'.
Proof. unfold update_motor_output. intros E. cbv zeta in E. case_if_in E; apply bind_Some in E as (h & _ & E); injection E as <-; [done|]. by case_if. Qed.

Lemma update_motor_outputs_queue m l : ∀ k d d', update_motor_outputs m l k d = Some d' -> same_queue d d'.
Proof.
  induction l as [|x l IH]; intros k d d' E; cbn [update_motor_outputs] in E; [by injection E as <-|]. apply bind_Some in E as (d1 & E1 & E).
  eapply same_queue_trans; [by eapply update_motor_output_queue|by eapply IH].
Qed.

Lemma mixerChanged_queue m d d' : dshot_mixerChanged m d = Some d' -> same_queue d d'.
Proof. unfold dshot_mixerChanged. destruct (motor_masks m _). intros E. result E; by injection E as <-. Qed.

Lemma init_telemetry_queue opened d : same_queue d (init_telemetry opened d).
Proof. unfold init_telemetry. by case_if. Qed.

(** ** A command in progress *)

(** Whether one of [n] channels from [k] on has a motor of the mask. *)
Definition addressed (m : MixingOutput) (mask : Z) (k : nat) : bool := let i := motor_index_from_output m k in (0 <=? i) && Z.testbit mask i.
Definition any_addressed (m : MixingOutput) (mask : Z) (channels : list nat) : bool := existsb (addressed m mask) channels.

Lemma send_commands_queue m n : ∀ k sent d sent' d', send_commands m n k sent d = Some (sent', d') ->
  same_queue d d' ∧ sent' = sent || any_addressed m d.(ds_command).(dc_motor_mask) (seq k n).
Proof.
  induction n as [|n IH]; intros k sent d sent' d' E; cbn [send_commands] in E; [injection E as <- <-; by rewrite orb_false_r|]. cbv zeta in E.
  apply bind_Some in E as (h & _ & E). apply IH in E as [[Q1 Q2] ->].
  match type of Q1 with _ = ds_command (set_hw h ?x) => set (d1 := x) in * end. assert (F : d1.(ds_command) = d.(ds_command) ∧ d1.(ds_commands) = d.(ds_commands)) by (unfold d1; by case_if). destruct F as [F1 F2].
  cbn [ds_command ds_commands set_hw] in *. rewrite F1 in *. rewrite F2 in *. split; [done|]. cbn [seq]. unfold any_addressed. cbn [existsb]. by rewrite orb_assoc.
Qed.

(** The command after an update of the outputs: one repetition less if it was sent to a motor. *)
Lemma updateOutputs_queue m outs hu d r d' : dshot_updateOutputs m outs hu d = Some (r, d') -> finished d.(ds_command) = false ->
  d'.(ds_commands) = d.(ds_commands) ∧
  (d'.(ds_command) = d.(ds_command) ∨
   (any_addressed m d.(ds_command).(dc_motor_mask) (seq 0 (length outs)) = true ∧ d'.(ds_command) = command_sent d.(ds_command))).
Proof.
  unfold dshot_updateOutputs. intros E Hf. destruct (_ || _) in E; [injection E as <- <-; split; [done|by left]|]. cbv zeta in E. apply bind_Some in E as (d1 & E1 & E). apply bind_Some in E as ([h s] & _ & E).
  injection E as <- <-. cbn [ds_command ds_commands set_sent set_hw]. destruct (negb (negb _)) in E1.
  - apply bind_Some in E1 as (d2 & E2 & E1). cbn [ds_serial ds_command set_status] in E2. rewrite Hf, andb_false_r in E2. cbn [andb] in E2. injection E2 as <-. cbn [ds_command set_status] in E1. rewrite Hf in E1. cbn [negb] in E1.
    unfold update_motor_commands in E1. apply bind_Some in E1 as ([sent d3] & E3 & E1). apply send_commands_queue in E3 as [[Q1 Q2] Hs]. cbn [orb ds_command set_status] in *. subst sent. injection E1 as <-.
    destruct (any_addressed _ _ _) eqn:Ea; [|split; [done|by left]]. cbn [ds_command ds_commands set_command]. split; [done|]. right. by rewrite Q1.
  - apply update_motor_outputs_queue in E1 as [Q1 Q2]. split; [done|by left].
Qed.

(** ** A command that addresses no motor *)
Definition blocked (c : DShotCommand) : Prop := c.(dc_motor_mask) = 0 ∧ finished c = false.

Lemma any_addressed_none m l : any_addressed m 0 l = false.
Proof. unfold any_addressed, addressed. induction l as [|k l IH]; [done|]. cbn [existsb]. by rewrite Z.bits_0, andb_false_r, IH. Qed.

Lemma update_blocked ri m d r m' d' : blocked d.(ds_command) -> update ri.(ri_now) ri.(ri_topics) ri.(ri_has_updates) m (receive ri d) = Some (r, m', d') ->
  d'.(ds_command) = d.(ds_command) ∧ d'.(ds_commands) = d.(ds_commands) ++ ri.(ri_commands).
Proof.
  intros [Hm Hf] E. unfold update in E. destruct (update_values _ _ m) as [send m1]. destruct send; [|by injection E as <- <- <-]. apply bind_Some in E as ([handled d1] & E1 & E). injection E as <- <- <-.
  cbn [updateOutputs dshot_module] in E1. apply updateOutputs_queue in E1 as [Q1 Q2]; [|done]. cbn [ds_command ds_commands receive set_now set_commands set_eeprom_writes] in *. rewrite Hm, any_addressed_none in Q2.
  split; [|done]. destruct Q2 as [Q2|[? _]]; done.
Qed.

Lemma handle_commands_unfinished m d : finished d.(ds_command) = false -> same_queue d (handle_vehicle_commands m d).
Proof. intros Hf. unfold handle_vehicle_commands. destruct (ds_commands d) eqn:Ec; cbn [handle_pending]; rewrite Hf; cbn [negb]; split; cbn; done. Qed.

Lemma requests_queue ri m d : finished d.(ds_command) = false -> same_queue d (run_requests ri m d).2.
Proof.
  intros Hf. unfold run_requests. set (md := if ri_params_updated ri then _ else _). assert (Q1 : same_queue d md.2) by (unfold md; by case_if). destruct md as [m1 d1]. cbn [snd] in *.
  set (d2 := match _ with Some opened => _ | None => d1 end). assert (Q2 : same_queue d1 d2) by (unfold d2; destruct (ri_telemetry_init ri); [apply init_telemetry_queue|done]).
  pose proof (same_queue_trans _ _ _ Q1 Q2) as Q3. eapply same_queue_trans; [exact Q3|]. apply handle_commands_unfinished. by rewrite (proj1 Q3).
Qed.

Lemma Run_blocked ri m d m' d' : blocked d.(ds_command) -> ri.(ri_exit) = false -> Run ri m d = Some (m', d') ->
  d'.(ds_command) = d.(ds_command) ∧ d'.(ds_commands) = d.(ds_commands) ++ ri.(ri_commands).
Proof.
  intros Hb Hx E. unfold Run in E. rewrite Hx in E. apply bind_Some in E as ([m1 d1] & E1 & E). unfold run_outputs in E1.
  apply bind_Some in E1 as ([[r0 m2] d2] & E2 & E1). apply bind_Some in E1 as ([b1 d3] & E3 & E1). apply bind_Some in E1 as ([b2 d4] & E4 & E1). injection E1 as <- E1.
  apply update_blocked in E2 as [U1 U2]; [|done]. apply process_serial_queue in E3. apply process_bdshot_queue in E4.
  assert (Q1 : same_queue d2 d1) by (subst d1; case_if; by apply (same_queue_trans _ _ _ E3 E4)).
  pose proof (requests_queue ri m2 d1) as Q2. destruct (run_requests ri m2 d1) as [m3 d5]. cbn [snd] in Q2. apply bind_Some in E as ([[r1 m4] d6] & E6 & E). injection E as <- <-.
  assert (Q3 : same_queue d5 d6).
  { unfold updateSubscriptions in E6. case_if_in E6; [by injection E6 as _ _ <-|]. cbv zeta in E6. destruct (_ && _ && _ && _ && _) in E6; [by injection E6 as _ _ <-|].
    destruct (assign_outputs _ _ _ _ _ _). apply bind_Some in E6 as (d7 & E7 & E6). injection E6 as _ _ <-. by apply mixerChanged_queue in E7. }
  destruct Hb as [_ Hf]. destruct Q1 as [A1 A2]. destruct Q2 as [B1 B2]; [by rewrite A1, U1|]. destruct Q3 as [C1 C2]. split; congruence.
Qed.

Lemma Runs_blocked l : ∀ m d m' d', blocked d.(ds_command) -> Forall (λ ri, ri.(ri_exit) = false) l -> Runs l m d = Some (m', d') ->
  d'.(ds_command) = d.(ds_command) ∧ d'.(ds_commands) = d.(ds_commands) ++ concat (map ri_commands l).
Proof.
  induction l as [|ri l IH]; intros m d m' d' Hb Hx E; cbn [Runs] in E; [injection E as <- <-; cbn; by rewrite app_nil_r|]. destruct (Forall_cons_1 _ _ _ Hx) as [Hx1 Hx2].
  apply bind_Some in E as ([m1 d1] & E1 & E). destruct (Run_blocked _ _ _ _ _ Hb Hx1 E1) as [Q1 Q2]. destruct (IH m1 d1 m' d') as [R1 R2]; [by rewrite Q1|done|done|]. split; [congruence|].
  rewrite R2, Q2. cbn. by rewrite <- app_assoc.
Qed.

Lemma command_motor_range m f : command_motor m f < 9.
Proof.
  unfold command_motor. case_if; [|lia]. bool_hyps. change (Z.of_nat DSHOT_MAXIMUM_CHANNELS) with 9 in *.
  enough (Hf : ∀ l a, a < 9 -> foldl (λ motor i, if (outputFunction m i =? f) && isMotor m i then outputFunction m i - Motor1 else motor) a l < 9) by (apply Hf; lia).
  induction l as [|i l IH]; intros a Ha; [done|]. cbn [foldl]. apply IH. destruct (_ && _) eqn:E; [|done]. bool_hyps. lia.
Qed.

(** A configuration type that the driver does not know. *)
Lemma unknown_configuration m c (d : D) : c.(vc_command) = VEHICLE_CMD_CONFIGURE_ACTUATOR -> 0 <= command_motor m (command_function c.(vc_param5)) -> ¬ 1 <= f32_lround c.(vc_param1) <= 5 ->
  let d' := handle_vehicle_command m c d in blocked d'.(ds_command) ∧ d'.(ds_log) = EvAck c.(vc_command) VEHICLE_CMD_RESULT_UNSUPPORTED :: d.(ds_log).
Proof.
  intros Hc Hm Ht. unfold handle_vehicle_command, handle_configure_actuator. rewrite Hc, Z.eqb_refl. cbv zeta. pose proof (command_motor_range m (command_function c.(vc_param5))).
  change (Z.of_nat DSHOT_MAX_MOTORS) with 9. rewrite (proj2 (Z.leb_le _ _) Hm), (proj2 (Z.ltb_lt _ _)) by done. cbn [andb].
  assert (configuration_command (f32_lround c.(vc_param1)) = (DSHOT_CMD_MOTOR_STOP, false)) as ->.
  { unfold configuration_command. set (t := f32_lround _) in *. clearbody t. by rewrite !(proj2 (Z.eqb_neq t _)) by lia. }
  done.
Qed.
End queue.
