(* ===== verification/DShotSchedule.v ===== *)
(** * Schedule of the DShot driver

    The driver is not polled: a run takes place when the work queue has it scheduled. This
    file shows when a run leaves the driver scheduled, when it does not, and in which order the
    driver asks the motor controllers for their telemetry. *)
From stdpp Require Import base list tactics option.
From Stdlib Require Import ZArith Lia.
From S2P Require Import Prelude Float32 FloatOps FloatBounds MixerModule DShotTelemetry DShotDriver DShotInvariant.

(** The driver is scheduled, and will be scheduled again: periodically, by the delayed run that
    every run renews, or by the assignment of the functions that is still to come. *)
Definition live (m : MixingOutput) : Prop :=
  match m.(_schedule) with
  | NotScheduled => False
  | ScheduledOnInterval _ => True
  | ScheduledDelayed _ => m.(_has_backup_schedule) = true
  | ScheduledNow => m.(_need_function_update) = true ∧ m.(_has_backup_schedule) = false
  end.

(** The part of the state that the schedule depends on. *)
Definition schedule_state (m : MixingOutput) : Schedule * bool * bool * bool * option nat :=
  (m.(_schedule), m.(_has_backup_schedule), m.(_need_function_update), m.(_callback_registered), m.(_subscription_callback)).

Lemma limit_outputs_schedule now vs m : schedule_state (limit_outputs now vs m) = schedule_state m.
Proof.
  unfold limit_outputs, output_limit_calc. cbv zeta. destruct (ar_lockdown _ || ar_kill _); [|destruct (ar_termination _)].
  - cbn [_armed set_outputs]. by destruct (ar_in_esc_calibration_mode _).
  - cbn [_armed set_outputs]. by destruct (ar_in_esc_calibration_mode _).
  - destruct (next_limit_state _ _ _) as [st ta]. cbn [_armed set_outputs set_output_time_armed set_output_state]. by destruct (ar_in_esc_calibration_mode _).
Qed.

Lemma limit_outputs_config now vs m : (limit_outputs now vs m).(_armed) = m.(_armed) ∧ (limit_outputs now vs m).(_config) = m.(_config).
Proof.
  unfold limit_outputs, output_limit_calc. cbv zeta. destruct (ar_lockdown _ || ar_kill _); [|destruct (ar_termination _); [|destruct (next_limit_state _ _ _)]].
  all: cbn [_armed set_outputs set_output_time_armed set_output_state]; by destruct (ar_in_esc_calibration_mode _).
Qed.

(** After a run has read its inputs: the delayed run has been renewed. *)
Definition renewed (m : MixingOutput) : Schedule * bool * bool * bool * option nat :=
  (if m.(_has_backup_schedule) then ScheduledDelayed 50000 else m.(_schedule), m.(_has_backup_schedule), m.(_need_function_update), m.(_callback_registered), m.(_subscription_callback)).

Lemma update_inputs_schedule now t m : schedule_state (update_inputs now t m) = renewed m.
Proof.
  unfold update_inputs, renewed, schedule_state. cbv zeta. assert (Ea : schedule_state (update_armed t.(in_armed) m) = schedule_state m) by (by destruct (in_armed t)).
  set (m1 := update_armed _ m) in *. clearbody m1. injection Ea as E1 E2 E3 E4 E5. rewrite <- E2 in *.
  destruct (_has_backup_schedule m1) eqn:Eb; cbn; rewrite Eb; cbn; rewrite ?Eb; congruence.
Qed.

Section schedule.
Context {H T : Type} `{!DshotHardware H T}.
Notation D := (DShot H T).

Lemma run_outputs_schedule ri m (d : D) m' d' : run_outputs ri m d = Some (m', d') ->
  schedule_state m' = renewed m ∧ m'.(_armed) = (update_inputs ri.(ri_now) ri.(ri_topics) m).(_armed) ∧ m'.(_config) = (update_inputs ri.(ri_now) ri.(ri_topics) m).(_config).
Proof.
  unfold run_outputs, update. intros E. apply bind_Some in E as ([[r m1] d1] & E1 & E). apply bind_Some in E as ([b1 d2] & _ & E). apply bind_Some in E as ([b2 d3] & _ & E). injection E as <- _.
  pose proof (update_inputs_schedule ri.(ri_now) ri.(ri_topics) m) as Hs. set (m0 := update_inputs ri.(ri_now) ri.(ri_topics) m) in *.
  destruct (update_values_cases ri.(ri_now) ri.(ri_topics) m) as [Hu|Hu]; rewrite Hu in E1.
  - apply bind_Some in E1 as ([h d4] & _ & E1). injection E1 as _ <- _. rewrite mixed_eq. fold m0. rewrite <- Hs, <- (limit_outputs_schedule ri.(ri_now) (raw_values m0) m0).
    split; [done|]. cbn [_armed _config set_was_all_disabled]. by destruct (limit_outputs_config ri.(ri_now) (raw_values m0) m0) as [-> ->].
  - injection E1 as _ <- _. done.
Qed.

(** The requests may only ask for a new assignment of the functions. *)
Lemma run_requests_schedule ri m (d : D) : let m' := (run_requests ri m d).1 in
  m'.(_schedule) = m.(_schedule) ∧ m'.(_has_backup_schedule) = m.(_has_backup_schedule) ∧ m'.(_armed) = m.(_armed) ∧ m'.(_config) = m.(_config) ∧
  m'.(_callback_registered) = m.(_callback_registered) ∧ m'.(_subscription_callback) = m.(_subscription_callback) ∧ (m.(_need_function_update) = true -> m'.(_need_function_update) = true).
Proof.
  unfold run_requests. destruct (ri_params_updated ri); [|done]. unfold update_params. cbv zeta. cbn [fst].
  set (m1 := setAllMinValues _ (updateParams ri.(ri_params) m)).
  assert (P1 : m1.(_schedule) = m.(_schedule) ∧ m1.(_has_backup_schedule) = m.(_has_backup_schedule) ∧ m1.(_armed) = m.(_armed) ∧ m1.(_config) = m.(_config) ∧
    m1.(_callback_registered) = m.(_callback_registered) ∧ m1.(_subscription_callback) = m.(_subscription_callback) ∧ (m.(_need_function_update) = true -> m1.(_need_function_update) = true)).
  { unfold m1, updateParams. cbv zeta. destruct (existsb _ _); done. }
  clearbody m1. revert m1 P1. generalize (seq 0 DSHOT_MAXIMUM_CHANNELS). induction l as [|i l IH]; intros m1 P1; [done|]. cbn [foldl]. apply IH. by destruct (Z.testbit _ _).
Qed.

(** An assignment of the functions leaves the driver scheduled. *)
Lemma subscriptions_live pr alloc cw rg m (d : D) r m' d' : m.(_config).(_scheduling_policy) = SchedulingAuto -> m.(_need_function_update) = true -> m.(_armed).(ar_armed) = false ->
  updateSubscriptions pr alloc cw rg true m d = Some (r, m', d') -> live m'.
Proof.
  intros Hp Hn Ha E. unfold updateSubscriptions in E. rewrite Hn, Ha, Hp in E. cbn [negb orb andb] in E. cbv zeta in E. set (m1 := set_schedule NotScheduled _) in E.
  assert (N1 : m1.(_need_function_update) = true ∧ m1.(_has_backup_schedule) = false) by (unfold m1, unregister; cbn [_subscription_callback set_has_backup_schedule]; by destruct (_subscription_callback m)).
  clearbody m1. destruct (_ && _ && _) in E; [injection E as _ <- _; exact N1|]. destruct (assign_outputs _ _ _ _ _ _) as [outs s]. apply bind_Some in E as (d1 & _ & E). injection E as _ <- _.
  unfold live. destruct (as_callback s); [destruct rg|destruct (as_all_disabled s)]; done.
Qed.

(** The driver is not scheduled again if its first run finds the system armed. *)
Lemma subscriptions_armed pr alloc cw rg m (d : D) : m.(_armed).(ar_armed) = true -> updateSubscriptions pr alloc cw rg true m d = Some (false, m, d).
Proof. intros Ha. unfold updateSubscriptions. by rewrite Ha, orb_true_r. Qed.

Lemma fire_inputs now t m : (update_inputs now t (fire m)).(_armed) = (update_inputs now t m).(_armed) ∧ (fire m).(_config) = m.(_config) ∧ (fire m).(_has_backup_schedule) = m.(_has_backup_schedule) ∧
  (fire m).(_need_function_update) = m.(_need_function_update) ∧ (fire m).(_callback_registered) = m.(_callback_registered).
Proof.
  unfold fire. destruct (_schedule m); try done. all: split; [|done]; unfold update_inputs; cbv zeta; cbn [_armed set_reversible_mask set_actuator_test set_schedule].
  all: destruct (in_armed t); cbn; by destruct (_has_backup_schedule m).
Qed.

Lemma Run_live ri m (d : D) m' d' : m.(_config).(_scheduling_policy) = SchedulingAuto -> ri.(ri_exit) = false -> live m ->
  (m.(_schedule) = ScheduledNow -> (update_inputs ri.(ri_now) ri.(ri_topics) m).(_armed).(ar_armed) = false) -> Run ri (fire m) d = Some (m', d') -> live m'.
Proof.
  intros Hp Hx Hl Hnow E. unfold Run in E. rewrite Hx in E. apply bind_Some in E as ([m1 d1] & E1 & E). destruct (run_outputs_schedule _ _ _ _ _ E1) as (Hs & Ha & Hc).
  destruct (fire_inputs ri.(ri_now) ri.(ri_topics) m) as (F1 & F2 & F3 & F4 & F5). rewrite F1 in Ha. pose proof (run_requests_schedule ri m1 d1) as Hq. destruct (run_requests ri m1 d1) as [m2 d2]. cbn [fst] in Hq.
  destruct Hq as (Q1 & Q2 & Q3 & Q4 & Q5 & Q6 & Q7). apply bind_Some in E as ([[r m3] d3] & E3 & E). injection E as <- <-. unfold schedule_state, renewed in Hs. injection Hs as S1 S2 S3 S4 S5.
  assert (Hp2 : m2.(_config).(_scheduling_policy) = SchedulingAuto).
  { rewrite Q4, Hc. assert (He : (update_inputs ri.(ri_now) ri.(ri_topics) (fire m)).(_config) = (fire m).(_config)).
    { unfold update_inputs. cbv zeta. destruct (in_armed ri.(ri_topics)); cbn; by destruct (_has_backup_schedule (fire m)). }
    by rewrite He, F2. }
  destruct (m2.(_need_function_update) && negb m2.(_armed).(ar_armed)) eqn:En.
  { bool_hyps. by eapply subscriptions_live. }
  assert (Hsame : m3 = m2). { unfold updateSubscriptions in E3. replace (negb (_need_function_update m2) || ar_armed (_armed m2)) with true in E3; [by injection E3 as _ <- _|]. by destruct (_need_function_update m2), (ar_armed (_armed m2)). }
  subst m3. unfold live in *. rewrite Q1, S1, Q2, S2, F3. destruct (_schedule m) as [| |delay|interval] eqn:Es.
  - done.
  - destruct Hl as [L1 L2]. rewrite Q3, Ha, (Hnow eq_refl) in En. rewrite Q7 in En; [done|]. by rewrite S3, F4.
  - by rewrite Hl.
  - destruct (_has_backup_schedule m); [done|]. unfold fire. by rewrite Es, Es.
Qed.

(** The start. *)
Lemma new_schedule pr frame response (h : H) : let '(m, d) := (DShot_new pr frame response h : MixingOutput * D) in schedule_state m = (NotScheduled, false, true, false, None) ∧ d.(ds_initialized) = false ∧ d.(ds_sent) = [].
Proof. unfold DShot_new, MixingOutput_new, updateParams. cbv zeta. by destruct (existsb _ _). Qed.

Lemma update_params_schedule pr dp m (d : D) : schedule_state m = (NotScheduled, false, true, false, None) -> schedule_state (update_params pr dp m d).1 = (NotScheduled, false, true, false, None).
Proof.
  intros Hs. unfold update_params. cbv zeta. cbn [fst]. set (m1 := setAllMinValues _ _). assert (H1 : schedule_state m1 = (NotScheduled, false, true, false, None)).
  { unfold m1, updateParams. cbv zeta. injection Hs as E1 E2 E3 E4 E5. destruct (existsb _ _); unfold schedule_state; cbn; congruence. }
  clearbody m1. revert m1 H1. generalize (seq 0 DSHOT_MAXIMUM_CHANNELS). induction l as [|i l IH]; intros m1 H1; [done|]. cbn [foldl]. apply IH. by destruct (Z.testbit _ _).
Qed.

Lemma init_schedule pr dp timers frame response (h : H) m (d : D) : (let '(m0, d0) := DShot_new pr frame response h in init pr dp timers m0 d0) = (true, m, d) ->
  schedule_state m = (ScheduledNow, false, true, false, None) ∧ d.(ds_initialized) = false ∧ d.(ds_sent) = [].
Proof.
  intros E. pose proof (new_schedule pr frame response h) as Hn. destruct (DShot_new pr frame response h : MixingOutput * D) as [m0 d0]. destruct Hn as (Hs & Hi & He). unfold init in E.
  pose proof (update_params_schedule pr dp m0 d0 Hs) as Hs1. assert (Hu : (update_params pr dp m0 d0).2.(ds_initialized) = false ∧ (update_params pr dp m0 d0).2.(ds_sent) = []) by done.
  destruct (update_params pr dp m0 d0) as [m1 d1]. cbn [fst snd] in *. unfold initialize_dshot in E. destruct (configure_timers timers 0 d1) as [channels d2] eqn:Ec.
  apply configure_timers_spec in Ec as [_ [c F]]; [|done]. injection E as E1 E2 E3. rewrite E1 in E2. subst m d. injection Hs1 as S1 S2 S3 S4 S5. rewrite F. cbn. split; [|done]. unfold schedule_state. cbn. congruence.
Qed.

Lemma init_live pr dp timers frame response (h : H) m (d : D) : (let '(m0, d0) := DShot_new pr frame response h in init pr dp timers m0 d0) = (true, m, d) -> live m.
Proof. intros E. destruct (init_schedule _ _ _ _ _ _ _ _ E) as [Hs _]. unfold schedule_state in Hs. injection Hs as S1 S2 S3 S4 S5. unfold live. by rewrite S1. Qed.
End schedule.

(** ** The order of the telemetry requests *)

(** The motors that are asked from a state on until the round is complete, among [n] requests. *)
Fixpoint polled (n : nat) (motor_mask : Z) (s : serial) : list Z :=
  match n with
  | O => []
  | S n' => let '(all_sampled, s') := set_next_telemetry_index motor_mask s in if all_sampled then [] else s'.(sr_motor_index) :: polled n' motor_mask s'
  end.

(** The same on the numbers that the order depends on. *)
Definition next_poll (active motor requested : Z) : option Z :=
  if active =? 0 then None
  else next_motor DSHOT_MAX_MOTORS (if motor <? 0 then 0 else (motor + 1) mod Z.of_nat DSHOT_MAX_MOTORS) active requested.
Fixpoint poll_round (n : nat) (active motor requested : Z) : list Z :=
  match n with
  | O => []
  | S n' => match next_poll active motor requested with None => [] | Some i => i :: poll_round n' active i (Z.lor requested (Z.shiftl 1 i)) end
  end.

Lemma polled_round n : ∀ mask s, polled n mask s = poll_round n (u16 (Z.ldiff mask s.(sr_skip_mask))) s.(sr_motor_index) s.(sr_requested_mask).
Proof.
  induction n as [|n IH]; intros mask s; [done|]. cbn [polled poll_round]. unfold set_next_telemetry_index, next_poll. cbv zeta. destruct (_ =? 0); [done|].
  destruct (next_motor _ _ _ _) as [i|]; [|done]. by rewrite IH.
Qed.

Definition motors_of (active : Z) : list Z := List.filter (Z.testbit active) (seqZ 0 9).

Lemma poll_round_complete active : 0 <= active < 512 -> poll_round 10 active (-1) 0 = motors_of active.
Proof.
  intros Ha. assert (Hall : forallb (λ a, bool_decide (poll_round 10 a (-1) 0 = motors_of a)) (seqZ 0 512) = true) by (vm_compute; reflexivity).
  rewrite forallb_forall in Hall. specialize (Hall active). apply (bool_decide_eq_true_1 _), Hall, list_elem_of_In, elem_of_seqZ. lia.
Qed.

(** In every round of telemetry requests each motor that has an output and is not skipped is
    asked exactly once, in ascending order, and then the round is complete. *)
Theorem telemetry_polls_every_motor motor_mask s : 0 <= motor_mask < 512 -> s.(sr_motor_index) = -1 -> s.(sr_requested_mask) = 0 ->
  polled 10 motor_mask s = motors_of (Z.ldiff motor_mask s.(sr_skip_mask)) ∧ NoDup (motors_of (Z.ldiff motor_mask s.(sr_skip_mask))) ∧
  ∀ i, i ∈ motors_of (Z.ldiff motor_mask s.(sr_skip_mask)) ↔ 0 <= i < 9 ∧ Z.testbit motor_mask i = true ∧ Z.testbit s.(sr_skip_mask) i = false.
Proof.
  intros Hm Hi Hr. set (a := Z.ldiff motor_mask s.(sr_skip_mask)). assert (Ha : 0 <= a < 512).
  { assert (a = a mod 2 ^ 9) as ->; [|by apply Z.mod_pos_bound]. apply Z.bits_inj'. intros i Hi0. destruct (Z.lt_ge_cases i 9) as [Hl|Hl]; [by rewrite Z.mod_pow2_bits_low|].
    rewrite Z.mod_pow2_bits_high by lia. unfold a. rewrite Z.ldiff_spec. rewrite <- (Z.mod_small motor_mask (2 ^ 9)) by lia. by rewrite Z.mod_pow2_bits_high by lia. }
  rewrite polled_round, Hi, Hr, (uwrap_small 16) by lia. split; [by apply poll_round_complete|]. unfold motors_of. split.
  - apply NoDup_ListNoDup, List.NoDup_filter, NoDup_ListNoDup, NoDup_seqZ.
  - intros i. rewrite list_elem_of_In, List.filter_In, <- list_elem_of_In, elem_of_seqZ. unfold a. rewrite Z.ldiff_spec, andb_true_iff, negb_true_iff. change (0 + 9) with 9. tauto.
Qed.

Lemma telemetry_polls_every_motor_witness : polled 10 11 (mkSerial true 0 [] [] 2 [] 0 (DShotTelemetry_new 9 [] []) (-1) 0 0 0) = [0; 3].
Proof. exact (proj1 (telemetry_polls_every_motor 11 (mkSerial true 0 [] [] 2 [] 0 (DShotTelemetry_new 9 [] []) (-1) 0 0 0) ltac:(lia) eq_refl eq_refl)). Defined.
