(* ===== verification/MotorOutput.v ===== *)
(** * Motor outputs

    The timers of [DshotTimers] are hardware for the driver ([timers_laws]). The theorems
    follow a value from the control topic over the mixer module, the driver and the timers to
    what a motor controller decodes, over any sequence of runs and interrupts. *)
From stdpp Require Import base list tactics option.
From Stdlib Require Import ZArith Lia.
From S2P Require Import Prelude Float32 FloatOps FloatBounds DshotTimers MixerModule DShotTelemetry DShotDriver DShotInvariant DShotCommands DShotSchedule.

(** ** What a trigger sends *)
Lemma zloop_keeps {S} (P : S -> Prop) body n : ∀ i s s', zloop n i body s = Some s' -> (∀ j s s', body j s = Some s' -> P s -> P s') -> P s -> P s'.
Proof.
  induction n as [|n IH]; intros i s s' E Hb Hs; cbn [zloop] in E; [by injection E as <-|]. apply bind_Some in E as (s1 & E1 & E). eapply IH; [exact E|done|by eapply Hb].
Qed.

(** A burst has the words of the buffer of its timer. *)
Definition from_buffers (b : board) (burst : list Z) (buffers : list (option Z)) (bu : DshotTimers.burst) : Prop :=
  ∃ off m, zlookup buffers bu.(bu_timer) = Some (Some off) ∧ zlookup b.(io_mapping) bu.(bu_timer) = Some m ∧ bu.(bu_words) = slice off (m.(channel_count_including_gaps) * 17) burst.

Lemma on_timer_buffers d i f d' : on_timer d i f = Some d' -> d'.(d_burst) = d.(d_burst) ∧ d'.(d_output_buffer) = d.(d_output_buffer).
Proof. intros E. unfold on_timer in E. apply bind_Some in E as (ts & _ & E). by injection E as <-. Qed.

Lemma start_burst_sent b now dma i d d' s : dshot_start_timer_burst b now dma i d = Some (d', s) ->
  d'.(d_burst) = d.(d_burst) ∧ d'.(d_output_buffer) = d.(d_output_buffer) ∧ Forall (from_buffers b d.(d_burst) d.(d_output_buffer)) s.
Proof.
  intros E. unfold dshot_start_timer_burst in E. apply bind_Some in E as (t & Ht & E). apply bind_Some in E as (m & Hm & E). case_if_in E.
  - apply bind_Some in E as (d1 & E1 & E). apply on_timer_buffers in E1 as [B1 B2]. apply bind_Some in E as (c & _ & E). by injection E as <- <-.
  - apply bind_Some in E as (d1 & E1 & E). assert (d1.(d_burst) = d.(d_burst) ∧ d1.(d_output_buffer) = d.(d_output_buffer)) as [B1 B2] by (case_if_in E1; [by apply on_timer_buffers in E1|by injection E1 as <-]).
    apply bind_Some in E as (buf & Hbuf & E). apply bind_Some in E as (off & Hoff & E). apply bind_Some in E as (words & Hw & E). rewrite B1 in Hw. rewrite B2 in Hbuf. subst buf.
    assert (Hs : Forall (from_buffers b d.(d_burst) d.(d_output_buffer)) [mkBurst i words]).
    { constructor; [|constructor]. exists off, m. split; [done|]. split; [done|]. unfold mem_read in Hw. case_if_in Hw; [|done]. by injection Hw as <-. }
    case_if_in E; [apply bind_Some in E as (c & _ & E)|]; by injection E as <- <-.
Qed.

Lemma trigger_sent b now dma d d' s : up_dshot_trigger b now dma d = Some (d', s) -> Forall (from_buffers b d.(d_burst) d.(d_output_buffer)) s.
Proof.
  intros E. unfold up_dshot_trigger in E. case_if_in E; [by injection E as <- <-|].
  set (P := λ ds : dshot * list DshotTimers.burst, ds.1.(d_burst) = d.(d_burst) ∧ ds.1.(d_output_buffer) = d.(d_output_buffer) ∧ Forall (from_buffers b d.(d_burst) d.(d_output_buffer)) ds.2).
  enough (HP : P (d', s)) by apply HP. eapply (zloop_keeps P); [exact E| |by split]. clear. intros j [d1 s1] [d2 s2] E (B1 & B2 & B3). cbn [fst snd] in *.
  apply bind_Some in E as (t & _ & E). case_if_in E; [|by injection E as <- <-]. apply bind_Some in E as (d3 & E3 & E).
  assert (d3.(d_burst) = d1.(d_burst) ∧ d3.(d_output_buffer) = d1.(d_output_buffer)) as [C1 C2] by (case_if_in E3; [apply bind_Some in E3 as (c & _ & E3)|]; by injection E3 as <-).
  apply bind_Some in E as ([d4 s4] & E4 & E). injection E as <- <-. apply start_burst_sent in E4 as (F1 & F2 & F3). split; [cbn; congruence|]. split; [cbn; congruence|]. cbn.
  apply Forall_app_2; [done|]. by rewrite <- B1, <- B2, <- C1, <- C2.
Qed.

(** ** Channels with a motor *)
Lemma motor_channel m k : mixer_ok m -> 0 <= motor_index_from_output m k ->
  ∃ o, m.(_outputs) !! k = Some o ∧ motor_output o = true ∧ dshot_output o ∧ motor_index_from_output m k = o.(o_assignment) - Motor1.
Proof.
  intros Hm. unfold motor_index_from_output, isMotor, outputFunction. destruct (m.(_outputs) !! k) as [o|] eqn:Eo; [|cbn; lia]. cbn [from_option].
  change (match o.(o_function) with Some _ => (Motor1 <=? o.(o_assignment)) && (o.(o_assignment) <=? MotorMax) | None => false end) with (motor_output o).
  destruct (motor_output o) eqn:Em; [|cbn; lia]. cbn [negb]. case_if; [|lia]. intros _. exists o. split; [done|]. split; [done|]. split; [|done]. exact (Forall_lookup_1 _ _ _ _ (mx_output m Hm) Eo).
Qed.

Lemma channel_output m k o : mixer_ok m -> (k < 9)%nat -> m.(_outputs) !! k = Some o -> hw_outputs (current_values m) !! k = Some (u16 (f32_lround o.(o_current))).
Proof.
  intros Hm Hk Ho. unfold hw_outputs, current_values. rewrite !list_lookup_fmap, lookup_used, Ho; [done|]. by rewrite (mx_outputs m Hm).
Qed.

Lemma stop_value : u16 (f32_lround (f32_of_int DSHOT_DISARM_VALUE)) = DSHOT_DISARM_VALUE.
Proof. vm_compute. reflexivity. Qed.

(** The frame of a motor that must not run. *)
Lemma stopped_frame now t m k x c : mixer_ok m -> topics_ok t -> stopped (update_inputs now t m) = true -> (k < 9)%nat ->
  hw_outputs (current_values (mixed now t m)) !! k = Some x -> throttle_frame (mixed now t m) c k x = DSHOT_CMD_MOTOR_STOP.
Proof.
  intros Hm Ht Hs Hk Hx. destruct (mixed_ok now t m Hm Ht) as [Hmx _]. pose proof (update_inputs_mixer now t m Hm Ht) as Hi. unfold throttle_frame.
  destruct (motor_index_from_output (mixed now t m) k <? 0) eqn:En; [done|]. apply Z.ltb_ge in En. destruct (motor_channel _ k Hmx En) as (o & Ho & Hmo & (D1 & D2 & _) & _).
  rewrite (channel_output _ k o Hmx Hk Ho) in Hx. injection Hx as <-. rewrite (motor_stopped now (update_inputs now t m) k o).
  - by rewrite D1, stop_value.
  - apply Hi.
  - apply Hi.
  - done.
  - rewrite <- mixed_eq. exact Ho.
  - rewrite (mx_outputs _ Hi). exact Hk.
  - done.
  - done.
Qed.

(** A frame below the throttle range, or the value of a setting that is being written. *)
Definition no_throttle (p : programming) (v : Z) : Prop :=
  0 <= v < DSHOT_CMD_MIN_THROTTLE ∨ (v = p.(pg_value) ∧ p.(pg_state) = ExitMode ∧ p.(pg_active) = true).

Lemma command_no_throttle m p cmd k : finished cmd = false -> command_ok p cmd -> no_throttle p (command_frame m cmd k).
Proof.
  intros Hf [_ Hc]. unfold command_frame. cbv zeta. case_if; [|by left]. destruct Hc as [Hc|[Hc [Hf'|Hs]]]; [by left|congruence|by right].
Qed.

(** ** Control *)

(** The control of the motor on a channel. *)
Definition motor_control (m : MixingOutput) (k : nat) : option Z :=
  let i := motor_index_from_output m k in
  if i <? 0 then None
  else
    o ← m.(_outputs) !! k;
    match provider_of m o with Some (FunctionMotors data) => Some (default f32_nan (zlookup data.(am_control) i)) | _ => None end.

(** The frame of a motor that turns one way: a stop for a control that is not a number, the
    minimum at -1 and full throttle at 1. *)
Definition control_frame (min x : Z) : Z :=
  if f32_is_finite x then DSHOT_CMD_MIN_THROTTLE + f32_lround (interpolate x F_m1 F_1 (f32_of_int min) (f32_of_int DSHOT_MAX_THROTTLE)) else DSHOT_CMD_MOTOR_STOP.

Lemma motor_index_same m m' k : same_setup m m' -> motor_index_from_output m' k = motor_index_from_output m k.
Proof.
  intros (_ & _ & _ & _ & _ & _ & _ & _ & _ & Hs). destruct (Hs k) as [c Hc]. unfold motor_index_from_output, isMotor, outputFunction. rewrite Hc. by destruct (m.(_outputs) !! k).
Qed.

Lemma control_frame_range min x : f32_ok x -> DSHOT_MIN_THROTTLE <= min <= DSHOT_MAX_THROTTLE -> f32_is_finite x = true ->
  min <= f32_lround (interpolate x F_m1 F_1 (f32_of_int min) (f32_of_int DSHOT_MAX_THROTTLE)) <= DSHOT_MAX_THROTTLE.
Proof.
  unfold DSHOT_MIN_THROTTLE, DSHOT_MAX_THROTTLE. intros Hx Hm Hf. destruct (interpolate_bounds x min 1999 (is_finite_fin x Hx Hf)) as [F B]; [lia..|]. apply f32_lround_between; [exact F|lia|exact B].
Qed.

(** More control never gives less throttle. *)
Lemma control_frame_mono min x y : f32_ok x -> f32_ok y -> DSHOT_MIN_THROTTLE <= min <= DSHOT_MAX_THROTTLE -> f32_is_finite x = true -> f32_is_finite y = true -> f32_units x <= f32_units y ->
  control_frame min x <= control_frame min y.
Proof.
  intros Hx Hy Hm Fx Fy Hxy. unfold control_frame. rewrite Fx, Fy. unfold DSHOT_MIN_THROTTLE, DSHOT_MAX_THROTTLE in *. apply Z.add_le_mono_l.
  pose proof (is_finite_fin x Hx Fx) as Gx. pose proof (is_finite_fin y Hy Fy) as Gy.
  destruct (interpolate_bounds x min 1999 Gx) as [F1 B1]; [lia..|]. destruct (interpolate_bounds y min 1999 Gy) as [F2 B2]; [lia..|].
  apply f32_lround_mono; [exact F1|exact F2|]. split; [|apply interpolate_mono; (exact Gx || exact Gy || lia)]. assert (0 < 2 ^ 149) by done. nia.
Qed.

Lemma armed_mask_zero m outs k x : u16 (esc_armed_mask m outs) = 0 -> outs !! k = Some x -> 0 <= motor_index_from_output m k -> x = DSHOT_DISARM_VALUE.
Proof.
  intros Hz Hk Hi. destruct (decide (x = DSHOT_DISARM_VALUE)) as [|Hx]; [done|]. exfalso. pose proof (motor_index_range m k) as Hr. set (i := motor_index_from_output m k) in *.
  assert (Hfold : ∀ l a, Z.testbit a i = true ∨ Exists (λ y, Z.testbit y i = true) l -> Z.testbit (foldl Z.lor a l) i = true).
  { induction l as [|y l IH]; intros a Ha; cbn [foldl]; [destruct Ha as [Ha|Ha]; [done|by apply Exists_nil in Ha]|]. apply IH. rewrite Z.lor_spec.
    destruct Ha as [->|Ha]; [by left|]. apply Exists_cons in Ha as [->|Ha]; [left; by rewrite orb_true_r|by right]. }
  assert (Hbit : Z.testbit (esc_armed_mask m outs) i = true).
  { unfold esc_armed_mask. apply Hfold. right. apply Exists_exists. exists (Z.shiftl 1 i). split.
    - apply list_elem_of_In, list_elem_of_lookup. exists k. rewrite list_lookup_imap, Hk. cbn. fold i. rewrite (proj2 (Z.leb_le 0 i) Hi), (proj2 (Z.eqb_neq _ _) Hx). done.
    - rewrite Z.shiftl_spec, Z.sub_diag by lia. done. }
  assert (Hu : Z.testbit (u16 (esc_armed_mask m outs)) i = true) by (unfold u16, uwrap; rewrite Z.mod_pow2_bits_low by lia; done). rewrite Hz, Z.bits_0 in Hu. done.
Qed.

(** The output of a motor while armed. *)
Lemma armed_output now t m k x : mixer_ok m -> topics_ok t -> let m0 := update_inputs now t m in
  m0.(_armed).(ar_armed) = true -> m0.(_armed).(ar_lockdown) = false -> m0.(_armed).(ar_kill) = false -> m0.(_armed).(ar_termination) = false -> (k < 9)%nat ->
  motor_control m0 k = Some x -> ∃ o, m0.(_outputs) !! k = Some o ∧ DSHOT_MIN_THROTTLE <= o.(o_min) <= DSHOT_MAX_THROTTLE ∧ f32_ok x ∧ 0 <= motor_index_from_output (mixed now t m) k ∧
    hw_outputs (current_values (mixed now t m)) !! k = Some (u16 (f32_lround (output_limit_calc_single m0.(_reverse_output_mask) k o x))) ∧ has_center o = false ∧ o.(o_disarmed) = 0 ∧ o.(o_max) = DSHOT_MAX_THROTTLE.
Proof.
  intros Hm Ht m0 Ha Hl Hk Hte Hk9 Hc. pose proof (update_inputs_mixer now t m Hm Ht) as Hi. fold m0 in Hi. destruct (mixed_ok now t m Hm Ht) as [Hmx Hss]. fold m0 in Hss.
  unfold motor_control in Hc. cbv zeta in Hc. case_if_in Hc; [done|]. bool_hyps. apply bind_Some in Hc as (o0 & Ho0 & Hc).
  assert (Hn : 0 <= motor_index_from_output (mixed now t m) k) by (rewrite (motor_index_same m0) by done; lia).
  destruct (motor_channel _ k Hmx Hn) as (o & Ho & Hmo & (D1 & D2 & D3 & D4 & _) & Hidx).
  destruct (motor_armed now m0 k o (mx_mixing _ Hi) (mx_calibration _ Hi) (mx_ramp _ Hi) Ha Hl Hk Hte) as (data & Hp & Hcur); [unfold m0; by rewrite <- mixed_eq|by rewrite (mx_outputs _ Hi)|done|].
  pose proof Hss as (_ & Hfa & _ & _ & _ & _ & _ & _ & _ & Hso). destruct (Hso k) as [c Hco]. rewrite Ho, Ho0 in Hco. cbn in Hco. injection Hco as ->.
  change (provider_of m0 (with_current c o0)) with (provider_of m0 o0) in Hp. rewrite Hp in Hc. injection Hc as <-. cbn [o_assignment with_current] in Hidx, Hcur.
  assert (Hcalc : ∀ mask v, output_limit_calc_single mask k (with_current c o0) v = output_limit_calc_single mask k o0 v) by done.
  rewrite (motor_index_same m0) in Hidx by done. exists o0. split; [done|]. split; [exact D4|]. split.
  { rewrite Hidx. unfold provider_of in Hp. apply bind_Some in Hp as (j & _ & Hj). pose proof (Forall_lookup_1 _ _ _ _ (mo_data m0 (mx_mixing _ Hi)) Hj) as Hd. cbn [provider_data] in Hd.
    destruct (zlookup data.(am_control) _) as [y|] eqn:Ey; [|apply f32_nan_ok]. apply zlookup_nat in Ey. exact (Forall_lookup_1 _ _ _ _ Hd Ey). }
  split; [done|]. split; [|split; [exact (motor_no_center _ Hmo)|split; [exact D1|exact D3]]].
  rewrite (channel_output _ k _ Hmx Hk9 Ho), Hcur, Hidx, Hcalc. done.
Qed.

Lemma motor_control_some m k : mixer_ok m -> 0 <= motor_index_from_output m k -> ∃ x, motor_control m k = Some x.
Proof.
  intros Hm Hi. destruct (motor_channel m k Hm Hi) as (o & Ho & Hmo & _). destruct (motor_provider m k o (mx_mixing m Hm) Ho Hmo) as [data Hp].
  unfold motor_control. cbv zeta. rewrite (proj2 (Z.ltb_ge _ _) Hi), Ho. cbn [mbind option_bind]. rewrite Hp. by eexists.
Qed.

(** A finite control gives an output within the limits. *)
Lemma finite_output mask k o x : f32_ok x -> has_center o = false -> DSHOT_MIN_THROTTLE <= o.(o_min) <= DSHOT_MAX_THROTTLE -> o.(o_max) = DSHOT_MAX_THROTTLE -> f32_is_finite x = true ->
  o.(o_min) <= f32_lround (output_limit_calc_single mask k o x) <= DSHOT_MAX_THROTTLE.
Proof.
  unfold DSHOT_MIN_THROTTLE, DSHOT_MAX_THROTTLE. intros Hx Hc Hmin Hmax Hf. destruct (output_limit_range mask k o x Hx Hc) as [[Hn _]|[_ [F B]]]; [lia..|congruence|].
  rewrite Hmax in B. apply f32_lround_between; [exact F|lia|exact B].
Qed.

(** The frame of a motor that turns one way is the one of its control. *)
Lemma armed_frame now t m k y c : mixer_ok m -> topics_ok t -> let m0 := update_inputs now t m in
  m0.(_armed).(ar_armed) = true -> m0.(_armed).(ar_lockdown) = false -> m0.(_armed).(ar_kill) = false -> m0.(_armed).(ar_termination) = false -> (k < 9)%nat ->
  c.(ca_3d_enabled) = false -> Z.testbit m0.(_reversible_mask) (Z.of_nat k) = false -> Z.testbit m0.(_reverse_output_mask) (Z.of_nat k) = false ->
  hw_outputs (current_values (mixed now t m)) !! k = Some y ->
  ∃ o, m0.(_outputs) !! k = Some o ∧ DSHOT_MIN_THROTTLE <= o.(o_min) <= DSHOT_MAX_THROTTLE ∧
    throttle_frame (mixed now t m) c k y = match motor_control m0 k with Some x => control_frame o.(o_min) x | None => DSHOT_CMD_MOTOR_STOP end.
Proof.
  intros Hm Ht m0 Ha Hl Hk Hte Hk9 H3d Hrv Hrev Hy. pose proof (update_inputs_mixer now t m Hm Ht) as Hi. fold m0 in Hi. destruct (mixed_ok now t m Hm Ht) as [Hmx Hss]. fold m0 in Hss.
  destruct (motor_control m0 k) as [x|] eqn:Ec.
  - destruct (armed_output now t m k x Hm Ht Ha Hl Hk Hte Hk9 Ec) as (o & Ho & Hmin & Hx & Hn & Hout & Hcen & Hdis & Hmax). fold m0 in Hout. exists o. split; [done|]. split; [done|].
    assert (y = u16 (f32_lround (output_limit_calc_single m0.(_reverse_output_mask) k o x))) as -> by congruence. unfold throttle_frame. rewrite (proj2 (Z.ltb_ge _ _) Hn). cbn [orb].
    assert (Hcalc : output_limit_calc_single m0.(_reverse_output_mask) k o x = if f32_is_finite x then interpolate x F_m1 F_1 (f32_of_int o.(o_min)) (f32_of_int DSHOT_MAX_THROTTLE) else f32_of_int 0).
    { unfold output_limit_calc_single. rewrite Hrev, Hcen, Hdis, Hmax. by destruct (f32_is_finite x). }
    rewrite Hcalc. unfold control_frame. destruct (f32_is_finite x) eqn:Ef; [|by rewrite (stop_value : u16 (f32_lround (f32_of_int 0)) = 0)].
    pose proof (control_frame_range o.(o_min) x Hx Hmin Ef) as Hr. match goal with |- context [f32_lround ?e] => set (r := f32_lround e) in * end. clearbody r. unfold DSHOT_MIN_THROTTLE, DSHOT_MAX_THROTTLE, DSHOT_DISARM_VALUE in *.
    rewrite (uwrap_small 16) by lia. rewrite (proj2 (Z.eqb_neq r 0)) by lia. cbv zeta. unfold calculate_output_value, DSHOT_MAX_THROTTLE. pose proof Hss as (_ & _ & _ & _ & _ & _ & _ & Hrm & _).
    rewrite Hrm, H3d, Hrv. cbn [orb]. rewrite Z.min_l by lia. rewrite (proj2 (Z.eqb_neq r 0)) by lia. lia.
  - assert (Hn : motor_index_from_output m0 k < 0).
    { destruct (Z.lt_ge_cases (motor_index_from_output m0 k) 0) as [|Hge]; [done|]. destruct (motor_control_some m0 k Hi Hge) as [x Hx]. congruence. }
    destruct (lookup_lt_is_Some_2 m0.(_outputs) k) as [o Ho]; [rewrite (mo_length m0 (mx_mixing _ Hi)); unfold MAX_ACTUATORS; lia|]. exists o. split; [done|].
    destruct (Forall_lookup_1 _ _ _ _ (mx_output m0 Hi) Ho) as (_ & _ & _ & Hmin & _). split; [done|]. unfold throttle_frame. rewrite (motor_index_same m0) by done. by rewrite (proj2 (Z.ltb_lt _ _) Hn).
Qed.

(** A command is sent while armed only if no motor has a control. *)
Lemma armed_command now t m k x : mixer_ok m -> topics_ok t -> let m0 := update_inputs now t m in
  m0.(_armed).(ar_armed) = true -> m0.(_armed).(ar_lockdown) = false -> m0.(_armed).(ar_kill) = false -> m0.(_armed).(ar_termination) = false -> (k < 9)%nat ->
  u16 (esc_armed_mask (mixed now t m) (hw_outputs (current_values (mixed now t m)))) = 0 -> motor_control m0 k = Some x -> f32_is_finite x = false.
Proof.
  intros Hm Ht m0 Ha Hl Hk Hte Hk9 Hz Hc. destruct (armed_output now t m k x Hm Ht Ha Hl Hk Hte Hk9 Hc) as (o & Ho & Hmin & Hx & Hn & Hout & Hcen & Hdis & Hmax). fold m0 in Hout.
  destruct (f32_is_finite x) eqn:Ef; [|done]. pose proof (armed_mask_zero _ _ _ _ Hz Hout Hn) as H0. pose proof (finite_output m0.(_reverse_output_mask) k o x Hx Hcen Hmin Hmax Ef) as Hr.
  unfold DSHOT_MIN_THROTTLE, DSHOT_MAX_THROTTLE, DSHOT_DISARM_VALUE in *. rewrite (uwrap_small 16) in H0 by lia. lia.
Qed.

(** ** The timers as hardware

    A trigger is what the timers send and the layout of the channels at that time. Whether the
    DMA streams and the channels can be allocated is left open. *)
Section timers.
Context (n : Z) (b : board) (Hb : board_ok n b = true) (dma_init channel_init : Z -> bool) (dma : Z -> Z -> bool).

#[local] Instance timers_hardware : DshotHardware dshot (list DshotTimers.burst * dshot) := {|
  hw_init mask bdshot_mask freq edt d := snd <$> up_dshot_init b dma_init channel_init mask bdshot_mask freq edt d;
  hw_set ch data tel d := dshot_motor_data_set b ch data tel d;
  hw_trigger now d := '(d', s) ← up_dshot_trigger b now (dma now) d; Some (d', (s, d));
  hw_received sent ch :=
    s ← channel_slot b ch sent.2;
    bu ← List.find (λ bu, bu.(bu_timer) =? s.(sl_timer)) sent.1;
    esc_receive (bit sent.2.(d_bdshot_channel_mask) ch) bu.(bu_words) s.(sl_col) s.(sl_count);
  hw_ready_mask := up_bdshot_get_ready_mask;
  hw_num_errors := up_bdshot_num_errors b;
  hw_online := up_bdshot_channel_online b;
  hw_get_erpm := up_bdshot_get_erpm b;
  hw_get_edt := up_bdshot_get_extended_telemetry b |}.

(** The end of a burst or of a capture. *)
Definition timer_interrupt (d d' : dshot) : Prop :=
  ∃ o, op_ok b o ∧ step b o d = Some d' ∧ match o with OpBurstFinished _ _ _ | OpCaptured _ _ _ => True | _ => False end.

Lemma step_kept o d : hw_ok b d -> op_ok b o -> match o with OpSet _ _ _ => False | _ => True end ->
  ∃ d', step b o d = Some d' ∧ hw_ok b d' ∧ (∀ c, channel_slot b c d' = channel_slot b c d) ∧ ∀ c, channel_value b c d' = channel_value b c d.
Proof.
  intros Hd Ho Hk. destruct (step_spec n b Hb o d Hd Ho) as (d' & E & G1 & G2 & G3 & _ & G5). exists d'. split; [done|]. split; [done|]. split; [done|]. intros c.
  destruct (channel_slot b c d) as [s|] eqn:Es; [rewrite G5 by (by rewrite Es); by destruct o|]. unfold channel_value. by rewrite G3, Es.
Qed.

Lemma step_result {A} (r : option (A * dshot)) d' : snd <$> r = Some d' -> ∃ a, r = Some (a, d').
Proof. destruct r as [[a d]|]; intros [= <-]. by exists a. Qed.

Lemma received_value d now d' s ch v : hw_ok b d -> up_dshot_trigger b now (dma now) d = Some (d', s) ->
  hw_received (s, d) ch = Some v -> is_Some (channel_slot b ch d) ∧ channel_value b ch d = Some v.
Proof.
  intros Hd Ht E. cbn [hw_received timers_hardware fst snd] in E. apply bind_Some in E as (sl & Es & E). apply bind_Some in E as (bu & Hbu & E). split; [by exists sl|].
  unfold channel_value. rewrite Es. cbn [mbind option_bind]. apply List.find_some in Hbu as [Hin Heq]. apply Z.eqb_eq in Heq.
  apply trigger_sent in Ht. rewrite List.Forall_forall in Ht. destruct (Ht bu Hin) as (off & m & Ho & Hm & Hw). rewrite Hw in E.
  destruct (slot_bounds n b Hb _ _ _ Hd Es) as (Hcol & Hcnt & Hoff & Hlim & _). destruct (channel_slot_inv b _ _ _ Es) as (c & t & m' & Hc & Htm & Hk & Hm' & Ho' & Hsl).
  rewrite Heq, Hsl in Ho, Hm. cbn in Ho, Hm. rewrite Ho' in Ho. rewrite Hm' in Hm. injection Ho as <-. injection Hm as <-.
  assert (Hcount : sl_count sl = channel_count_including_gaps m') by (by rewrite Hsl). rewrite <- Hcount in E. rewrite esc_receive_slice in E; [done|lia..].
Qed.

#[local] Instance timers_laws : DshotLaws dshot (list DshotTimers.burst * dshot).
Proof.
  refine (Build_DshotLaws dshot _ timers_hardware (λ d, d = dshot_zero b) (hw_ok b) (λ d c, bool_decide (is_Some (channel_slot b c d))) (λ d c, channel_value b c d) timer_interrupt _ _ _ _ _ _ _ _).
  - intros d mask bdshot_mask freq edt -> Hf. destruct (up_dshot_init_spec n b Hb dma_init channel_init mask bdshot_mask freq edt Hf) as (r & d & E & Hd & _). exists d. cbn. by rewrite E.
  - intros d ch data tel Hd Hc Hv. destruct (step_spec n b Hb (OpSet ch data tel) d Hd (conj Hc Hv)) as (d' & E & G1 & G2 & G3 & _ & G5). exists d'. split; [exact E|]. split; [done|].
    split; [intros c; by rewrite G3|]. intros c Ha%bool_decide_eq_true_1. by rewrite G5.
  - intros d now Hd. destruct (step_kept (OpTrigger now (dma now)) d Hd I I) as (d' & E & G1 & G2 & G3). apply fmap_Some in E as ([d1 s] & Es & E). cbn in E. subst d1.
    exists d', (s, d). split; [cbn; by rewrite Es|]. split; [done|]. split; [intros c; by rewrite G2|]. intros c v Hr. destruct (received_value _ _ _ _ _ _ Hd Es Hr). split; [by apply bool_decide_eq_true_2|done].
  - intros d d' Hd (o & Ho & E & Hk). destruct (step_kept o d Hd Ho) as (d1 & E1 & G1 & G2 & G3); [by destruct o|]. rewrite E in E1. injection E1 as <-. split; [done|]. split; [intros c; by rewrite G2|done].
  - intros d ch Hd Hc. cbn. unfold up_bdshot_num_errors, MAX_TIMER_IO_CHANNELS. case_if; [by eexists|]. bool_hyps. destruct (zlookup_lt d.(d_channels) ch) as [c ->]; [|by eexists].
    pose proof (sz_channels _ _ (lo_sized _ _ _ _ (hw_laid _ _ Hd))). lia.
  - intros d ch Hd Hc. cbn. unfold up_bdshot_channel_online, MAX_TIMER_IO_CHANNELS. case_if; [by eexists|]. bool_hyps. destruct (zlookup_lt d.(d_channels) ch) as [c ->]; [|by eexists].
    pose proof (sz_channels _ _ (lo_sized _ _ _ _ (hw_laid _ _ Hd))). lia.
  - intros d ch Hd Hc. destruct (step_kept (OpErpm ch) d Hd Hc I) as (d' & E & G1 & G2 & G3). apply step_result in E as [r E]. exists r, d'. split; [done|]. split; [done|]. split; [intros c; by rewrite G2|done].
  - intros d ch type Hd Hc. destruct (step_kept (OpEdt ch type) d Hd Hc I) as (d' & E & G1 & G2 & G3). apply step_result in E as [r E]. exists r, d'. split; [done|]. split; [done|]. split; [intros c; by rewrite G2|done].
Defined.

Lemma timers_start : hw_start (dshot_zero b).
Proof. reflexivity. Qed.

(** C3: Whatever runs, interrupts and inputs the driver has seen since its start, its next run
    comes to its end without leaving an array. If the system is disarmed without an actuator
    test, locked down, killed or terminated, then no motor receives a throttle: every frame of
    the run is a stop or a command, or the value of a setting that is being written. *)
Theorem stopped_motors_get_no_throttle pr dp timers frame response m (d : DShot dshot (list DshotTimers.burst * dshot)) ri :
  f32_ok pr.(p_thr_mdl_fac) -> zlen frame = 10 -> zlen response = 49 -> reachable pr dp timers frame response (dshot_zero b) m d -> inputs_ok ri ->
  ∃ m' d', Run ri m d = Some (m', d') ∧
    (d'.(ds_sent) = d.(ds_sent) ∨ ∃ s, d'.(ds_sent) = s :: d.(ds_sent) ∧
      (stopped (update_inputs ri.(ri_now) ri.(ri_topics) m) = true ->
        ∀ k v tel, (k < 9)%nat -> hw_received s (Z.of_nat k) = Some (v, tel) -> no_throttle d'.(ds_programming) v)).
Proof.
  intros Hp Hf Hr Hreach Hi. destruct (dshot_reachable_ok pr dp timers frame response (dshot_zero b) m d Hp timers_start Hf Hr Hreach) as [Hm Hd]. destruct (Run_spec ri m d Hm Hd Hi) as (m' & d' & E & Hm' & _ & [Hs|(s & Hs & Hc)]).
  { exists m', d'. split; [done|by left]. }
  destruct (mixed_ok ri.(ri_now) ri.(ri_topics) m Hm (ik_topics _ Hi)) as [Hmx _]. exists m', d'. split; [done|]. right. exists s. split; [done|]. intros Hstop k v tel Hk Hrec.
  assert (Hlen : (k < length (current_values (mixed ri.(ri_now) ri.(ri_topics) m)))%nat) by (by rewrite (length_current _ Hmx)). destruct Hc as [Hc|(_ & cmd & Hfin & Hcok & Hc)].
  - destruct (Hc k v tel Hlen Hrec) as (x & Hx & ->). left. by rewrite (stopped_frame _ _ _ _ _ _ Hm (ik_topics _ Hi) Hstop Hk Hx).
  - rewrite (Hc k v tel Hlen Hrec). by apply command_no_throttle.
Qed.


(** C13: Every run of the driver comes to its end and leaves the driver scheduled: after a
    successful start it is scheduled, and a run that was scheduled schedules another one
    periodically or with a delay that each run renews, whether the functions are assigned or
    not and whether the callback can be registered or not. The exception is the run that
    is to assign the functions first: it must not find the system armed. *)
Theorem driver_stays_scheduled pr dp timers frame response m (d : DShot dshot (list DshotTimers.burst * dshot)) ri :
  f32_ok pr.(p_thr_mdl_fac) -> zlen frame = 10 -> zlen response = 49 -> reachable pr dp timers frame response (dshot_zero b) m d -> inputs_ok ri -> ri.(ri_exit) = false ->
  ((let '(m0, d0) := DShot_new pr frame response (dshot_zero b) in init pr dp timers m0 d0) = (true, m, d) -> live m) ∧
  (live m -> (m.(_schedule) = ScheduledNow -> (update_inputs ri.(ri_now) ri.(ri_topics) m).(_armed).(ar_armed) = false) ->
    ∃ m' d', Run ri (fire m) d = Some (m', d') ∧ live m' ∧ reachable pr dp timers frame response (dshot_zero b) m' d').
Proof.
  intros Hp Hf Hr Hreach Hi Hx. destruct (dshot_reachable_ok pr dp timers frame response (dshot_zero b) m d Hp timers_start Hf Hr Hreach) as [Hm Hd]. split.
  - intros E. exact (init_live _ _ _ _ _ _ _ _ E).
  - intros Hl Hnow. destruct (Run_spec ri (fire m) d (fire_mixer m Hm) Hd Hi) as (m' & d' & E & _). exists m', d'. split; [done|]. split; [exact (Run_live ri m d m' d' (mx_policy m Hm) Hx Hl Hnow E)|].
    eapply reach_run; [by apply reach_fire|done|done].
Qed.

(** C36: A run that finds the system armed before the functions have been assigned, as the first
    run of a driver that is started while the vehicle flies, is the last one: no motor is
    assigned, the hardware is not initialised, the driver is not scheduled and no callback is
    registered. *)
Theorem started_armed_never_runs_again pr dp timers frame response m (d : DShot dshot (list DshotTimers.burst * dshot)) ri :
  f32_ok pr.(p_thr_mdl_fac) -> zlen frame = 10 -> zlen response = 49 -> (let '(m0, d0) := DShot_new pr frame response (dshot_zero b) in init pr dp timers m0 d0) = (true, m, d) ->
  inputs_ok ri -> ri.(ri_exit) = false -> (update_inputs ri.(ri_now) ri.(ri_topics) m).(_armed).(ar_armed) = true ->
  ∃ m' d', Run ri (fire m) d = Some (m', d') ∧ m'.(_schedule) = NotScheduled ∧ m'.(_callback_registered) = false ∧ d'.(ds_initialized) = false ∧ d'.(ds_sent) = [].
Proof.
  intros Hp Hf Hr Hstart Hi Hx Ha. destruct (init_ok pr dp timers frame response (dshot_zero b) m d Hp timers_start Hf Hr Hstart) as [Hm Hd].
  destruct (init_schedule _ _ _ _ _ _ _ _ Hstart) as (Hs & Hin & Hse). pose proof (fire_mixer m Hm) as Hm1. destruct (fire_inputs ri.(ri_now) ri.(ri_topics) m) as (F1 & _ & F3 & _ & F5).
  destruct (run_outputs_idle ri (fire m) d Hm1 Hd Hi Hin) as (m1 & d1 & E1 & M1 & G1 & I1 & S1). destruct (run_outputs_schedule _ _ _ _ _ E1) as (R1 & A1 & _).
  pose proof (run_requests_schedule ri m1 d1) as (Q1 & _ & Q3 & _ & Q5 & _). destruct (run_requests_ok ri m1 d1 M1 G1 Hi) as (_ & _ & (T1 & T2 & _)). unfold Run. rewrite Hx, E1. cbn [mbind option_bind].
  destruct (run_requests ri m1 d1) as [m2 d2]. cbn [fst snd] in *. rewrite subscriptions_armed by (rewrite Q3, A1, F1; exact Ha). cbn [mbind option_bind]. exists m2, d2. split; [done|].
  unfold schedule_state in Hs, R1. injection Hs as S2 S3 _ S4 _. injection R1 as R1 _ _ R4 _. rewrite F3, S3 in R1. split; [rewrite Q1, R1; unfold fire; by rewrite S2|]. split; [congruence|]. split; congruence.
Qed.

(** C33: A vehicle command that configures a motor with a type that the driver does not know is
    answered as unsupported, but leaves a command with ten repetitions that addresses no
    motor. Whatever happens from then on, the driver never gets rid of it: no later vehicle
    command is handled, all of them wait. *)
Theorem unknown_configuration_blocks_commands pr dp timers frame response m (d : DShot dshot (list DshotTimers.burst * dshot)) c l :
  f32_ok pr.(p_thr_mdl_fac) -> zlen frame = 10 -> zlen response = 49 -> reachable pr dp timers frame response (dshot_zero b) m d ->
  (c.(vc_command) = VEHICLE_CMD_CONFIGURE_ACTUATOR -> 0 <= command_motor m (command_function c.(vc_param5)) -> ¬ 1 <= f32_lround c.(vc_param1) <= 5 ->
    let d' := handle_vehicle_command m c d in blocked d'.(ds_command) ∧ d'.(ds_log) = EvAck c.(vc_command) VEHICLE_CMD_RESULT_UNSUPPORTED :: d.(ds_log)) ∧
  (blocked d.(ds_command) -> Forall inputs_ok l -> Forall (λ ri, ri.(ri_exit) = false) l ->
    ∃ m' d', Runs l m d = Some (m', d') ∧ d'.(ds_command) = d.(ds_command) ∧ d'.(ds_commands) = d.(ds_commands) ++ concat (map ri_commands l)).
Proof.
  intros Hp Hf Hr Hreach. destruct (dshot_reachable_ok pr dp timers frame response (dshot_zero b) m d Hp timers_start Hf Hr Hreach) as [Hm Hd]. split.
  - intros Hc Hmot Ht. exact (unknown_configuration m c d Hc Hmot Ht).
  - intros Hbl Hi Hx. destruct (Runs_total l m d Hm Hd Hi) as (m' & d' & E & _). exists m', d'. split; [done|]. exact (Runs_blocked l m d m' d' Hbl Hx E).
Qed.
End timers.

(** ** Two motors on a Pixhawk 6X *)
Lemma fmu_board_ok : board_ok 9 fmu_v6x = true.
Proof. vm_compute. reflexivity. Qed.

#[local] Hint Extern 0 (DshotHardware _ _) => exact (timers_hardware fmu_v6x (λ _, true) (λ _, true) (λ _ _, true)) : typeclass_instances.
#[local] Hint Extern 0 (DshotLaws _ _) => exact (timers_laws 9 fmu_v6x fmu_board_ok (λ _, true) (λ _, true) (λ _ _, true)) : typeclass_instances.

(** The first two outputs are motors; the parameters of the driver have their default values. *)
Definition sample_params : params := mkParams (λ f i, match f with P_FUNC => Some (match i with O => 101 | 1%nat => 102 | _ => 0 end) | _ => None end) None 0.
Definition sample_dshot_params : dshot_params := mkDParams false false 1000 1000 (f_encode_q 23 (55 * 2 ^ 149) 1000) 0 (λ _, None).

(** A run: the arming state with the controls and the reversible motors, if they changed, new
    vehicle commands and settings to write, and whether the parameters changed. *)
Definition run_inputs (control : option (bool * Z * list Z)) (commands : list vehicle_command) (writes : list esc_eeprom_write) (updated : bool) (now : Z) : inputs :=
  let t := mkTopics ((λ c, mkArmed c.1.1 false false false false false) <$> control) ((λ c, mkMotors 0 c.1.2 c.2) <$> control) None [] None None None None None None [] None None in
  mkInputs false now t false commands writes [] sample_params sample_dshot_params updated None (λ _, true) false true.

Definition sample_start : bool * MixingOutput * DShot dshot (list DshotTimers.burst * dshot) :=
  let '(m, d) := DShot_new sample_params (replicate 10 0) (replicate 49 0) (dshot_zero fmu_v6x) in init sample_params sample_dshot_params [(15, -3)] m d.

Definition sample_runs (l : list inputs) : option (MixingOutput * DShot dshot (list DshotTimers.burst * dshot)) := let '(ok, m, d) := sample_start in if ok then Runs l m d else None.

(** The frames that the two motors have received, the first trigger first. *)
Definition received_frames (l : list inputs) : option (list (list (option (Z * bool)))) :=
  '(_, d) ← sample_runs l; Some (rev (map (λ s, [hw_received s 0; hw_received s 1]) d.(ds_sent))).



(** ** Instances *)
Lemma sample_thrust_ok : f32_ok sample_params.(p_thr_mdl_fac).
Proof. unfold f32_ok. cbn. lia. Qed.

Lemma run_inputs_ok control commands writes updated now : match control with Some c => Forall f32_ok c.2 | None => True end -> Forall eeprom_ok writes ->
  inputs_ok (run_inputs control commands writes updated now).
Proof.
  intros Hc Hw. constructor; [|done|apply sample_thrust_ok]. constructor; try done. intros a Ha. destruct control as [[[x y] c]|]; [|done]. cbn in Ha. by injection Ha as <-.
Qed.

Notation sample_reachable := (reachable sample_params sample_dshot_params [(15, -3)] (replicate 10 0) (replicate 49 0) (dshot_zero fmu_v6x)).

Lemma reach_runs l : ∀ m d m' d', sample_reachable m d -> Forall inputs_ok l -> Runs l m d = Some (m', d') -> sample_reachable m' d'.
Proof.
  induction l as [|ri l IH]; intros m d m' d' Hr Hl E; cbn [Runs] in E; [by injection E as <- <-|]. destruct (Forall_cons_1 _ _ _ Hl) as [Hi Hl']. apply bind_Some in E as ([m1 d1] & E1 & E).
  eapply IH; [|done|exact E]. by eapply reach_run.
Qed.

Lemma sample_runs_reachable l m d : Forall inputs_ok l -> sample_runs l = Some (m, d) -> sample_reachable m d.
Proof.
  intros Hl E. unfold sample_runs in E. destruct sample_start as [[ok m0] d0] eqn:Es. destruct ok; [|done]. eapply reach_runs; [|done|exact E]. by apply reach_init.
Qed.

(** A run after a sample run: whether the system is stopped, how often was sent before, and what the motors receive. *)
Lemma sample_stop : ('(m, d) ← sample_runs [run_inputs None [] [] false 1]; '(_, d') ← Run (run_inputs (Some (false, 0, [F_1; F_1])) [] [] false 2) m d;
  Some (stopped (update_inputs 2 (run_inputs (Some (false, 0, [F_1; F_1])) [] [] false 2).(ri_topics) m), d.(ds_sent), (λ s, (hw_received s 0, hw_received s 1)) <$> d'.(ds_sent)))
  = Some (true, [], [(Some (0, false), Some (0, false))]).
Proof. vm_compute. reflexivity. Qed.

Lemma stopped_motors_get_no_throttle_witness : ∃ m d m' d' s, sample_reachable m d ∧ Run (run_inputs (Some (false, 0, [F_1; F_1])) [] [] false 2) m d = Some (m', d') ∧ d'.(ds_sent) = [s] ∧
  hw_received s 0 = Some (0, false) ∧ ∀ k v tel, (k < 9)%nat -> hw_received s (Z.of_nat k) = Some (v, tel) -> no_throttle d'.(ds_programming) v.
Proof.
  pose proof sample_stop as E. apply bind_Some in E as ([m d] & Em & E). apply bind_Some in E as ([m1 d1] & Er & E). apply (inj Some) in E. apply pair_equal_spec in E as [E Hfr]. apply pair_equal_spec in E as [Hst Hse].
  assert (Hreach : sample_reachable m d) by (apply (sample_runs_reachable [run_inputs None [] [] false 1]); [constructor; [by apply run_inputs_ok|constructor]|exact Em]).
  destruct (stopped_motors_get_no_throttle 9 fmu_v6x fmu_board_ok (λ _, true) (λ _, true) (λ _ _, true) sample_params sample_dshot_params [(15, -3)] (replicate 10 0) (replicate 49 0) m d
    (run_inputs (Some (false, 0, [F_1; F_1])) [] [] false 2)) as (m' & d' & Er' & Hs).
  - exact sample_thrust_ok.
  - reflexivity.
  - reflexivity.
  - exact Hreach.
  - apply run_inputs_ok; [|constructor]. cbn. repeat (apply List.Forall_cons; [apply F_1_ok|]). constructor.
  - rewrite Er in Er'. injection Er' as <- <-. rewrite Hse in Hs. destruct Hs as [Hs|(s & Hs & Hv)]; rewrite Hs in Hfr; [done|]. injection Hfr as Hf0 Hf1.
    exists m, d, m1, d1, s. split; [exact Hreach|]. split; [exact Er|]. split; [exact Hs|]. split; [exact Hf0|]. exact (Hv Hst).
Defined.

Notation armed_run := (run_inputs (Some (true, 0, [F_1; 0])) [] [] false 2).

Lemma armed_run_ok : inputs_ok armed_run.
Proof. apply run_inputs_ok; [|constructor]. cbn. apply List.Forall_cons; [apply F_1_ok|]. apply List.Forall_cons; [apply sample_thrust_ok|constructor]. Qed.

Lemma sample_armed : ('(m, d) ← sample_runs [run_inputs None [] [] false 1]; '(_, d') ← Run armed_run m d;
  let m0 := update_inputs 2 armed_run.(ri_topics) m in
  Some (m0.(_armed), (d.(ds_sent), d.(ds_cached).(ca_3d_enabled), Z.testbit m0.(_reversible_mask) 0, Z.testbit m0.(_reverse_output_mask) 0), motor_control m0 0, (λ s, (hw_received s 0, hw_received s 1)) <$> d'.(ds_sent)))
  = Some (mkArmed true false false false false false, ([], false, false, false), Some F_1, [(Some (2047, false), Some (157, false))]).
Proof. vm_compute. reflexivity. Qed.


(** A configuration of the first motor with a type. *)
Definition configure (type : Z) : vehicle_command := mkCommand VEHICLE_CMD_CONFIGURE_ACTUATOR (f32_of_int type) 0 0 0 (f64_of_int 1) 0 0.

Lemma sample_unknown : ('(m, d) ← sample_runs [run_inputs None [] [] false 1; run_inputs None [configure 0] [] false 2];
  Some (command_motor m (command_function (configure 6).(vc_param5)), f32_lround (configure 6).(vc_param1), (d.(ds_command).(dc_motor_mask), finished d.(ds_command)), d.(ds_commands))) = Some (0, 6, (0, false), []).
Proof. vm_compute. reflexivity. Qed.

Lemma unknown_configuration_blocks_commands_witness : ∃ m d m' d', sample_runs [run_inputs None [] [] false 1; run_inputs None [configure 0] [] false 2] = Some (m, d) ∧
  blocked (handle_vehicle_command m (configure 6) d).(ds_command) ∧
  Runs [run_inputs None [configure 1] [] false 3; run_inputs None [] [] false 4] m d = Some (m', d') ∧ d'.(ds_command) = d.(ds_command) ∧ d'.(ds_commands) = [configure 1].
Proof.
  pose proof sample_unknown as E. apply bind_Some in E as ([m d] & Em & E). apply (inj Some) in E.
  apply pair_equal_spec in E as [E Hq]. apply pair_equal_spec in E as [E Hbl]. apply pair_equal_spec in E as [Hmot Hty]. apply pair_equal_spec in Hbl as [Hmask Hfin].
  assert (Hok : ∀ c now, inputs_ok (run_inputs None c [] false now)) by (intros; by apply run_inputs_ok).
  assert (Hreach : sample_reachable m d) by (eapply sample_runs_reachable; [|exact Em]; repeat (apply List.Forall_cons; [apply Hok|]); constructor).
  destruct (unknown_configuration_blocks_commands 9 fmu_v6x fmu_board_ok (λ _, true) (λ _, true) (λ _ _, true) sample_params sample_dshot_params [(15, -3)] (replicate 10 0) (replicate 49 0) m d (configure 6)
    [run_inputs None [configure 1] [] false 3; run_inputs None [] [] false 4]) as [H1 H2].
  - exact sample_thrust_ok.
  - reflexivity.
  - reflexivity.
  - exact Hreach.
  - destruct (H1 eq_refl ltac:(rewrite Hmot; lia) ltac:(rewrite Hty; lia)) as [Hb _]. destruct H2 as (m' & d' & Er & Hc & Hcs).
    + by split.
    + repeat (apply List.Forall_cons; [apply Hok|]). constructor.
    + by repeat constructor.
    + exists m, d, m', d'. split; [exact Em|]. split; [exact Hb|]. split; [exact Er|]. split; [exact Hc|]. rewrite Hcs, Hq. reflexivity.
Defined.

Lemma sample_scheduled : ('(m, d) ← sample_runs [run_inputs None [] [] false 1]; Some (m.(_schedule), m.(_has_backup_schedule))) = Some (ScheduledDelayed 50000, true).
Proof. vm_compute. reflexivity. Qed.

Lemma driver_stays_scheduled_witness : ∃ m d m' d', sample_runs [run_inputs None [] [] false 1] = Some (m, d) ∧ Run armed_run (fire m) d = Some (m', d') ∧ live m'.
Proof.
  pose proof sample_scheduled as E. apply bind_Some in E as ([m d] & Em & E). apply (inj Some) in E. apply pair_equal_spec in E as [Hs Hb].
  assert (Hreach : sample_reachable m d) by (eapply sample_runs_reachable; [|exact Em]; constructor; [by apply run_inputs_ok|constructor]).
  destruct (driver_stays_scheduled 9 fmu_v6x fmu_board_ok (λ _, true) (λ _, true) (λ _ _, true) sample_params sample_dshot_params [(15, -3)] (replicate 10 0) (replicate 49 0) m d armed_run) as [_ H].
  - exact sample_thrust_ok.
  - reflexivity.
  - reflexivity.
  - exact Hreach.
  - exact armed_run_ok.
  - done.
  - destruct H as (m' & d' & Er & Hl & _).
    + unfold live. rewrite Hs. exact Hb.
    + rewrite Hs. done.
    + exists m, d, m', d'. split; [exact Em|]. split; [exact Er|exact Hl].
Defined.

Lemma sample_start_armed : (let '(ok, m, d) := sample_start in (ok, (update_inputs 2 armed_run.(ri_topics) m).(_armed).(ar_armed))) = (true, true).
Proof. vm_compute. reflexivity. Qed.

Lemma started_armed_never_runs_again_witness : ∃ m d m' d', sample_start = (true, m, d) ∧ Run armed_run (fire m) d = Some (m', d') ∧ m'.(_schedule) = NotScheduled ∧ m'.(_callback_registered) = false ∧
  d'.(ds_initialized) = false ∧ d'.(ds_sent) = [].
Proof.
  pose proof sample_start_armed as E. destruct sample_start as [[ok m] d] eqn:Es. apply pair_equal_spec in E as [-> Ha].
  destruct (started_armed_never_runs_again 9 fmu_v6x fmu_board_ok (λ _, true) (λ _, true) (λ _ _, true) sample_params sample_dshot_params [(15, -3)] (replicate 10 0) (replicate 49 0) m d armed_run) as (m' & d' & Er & Hc).
  - exact sample_thrust_ok.
  - reflexivity.
  - reflexivity.
  - exact Es.
  - exact armed_run_ok.
  - done.
  - exact Ha.
  - exists m, d, m', d'. split; [done|]. split; [exact Er|exact Hc].
Defined.
