(* ===== verification/ThrustLimit.v ===== *)
(** * From a force to a frame

    The controls that [ControlAllocator] publishes, followed through the output module, the
    driver and the timers: the throttle that a motor receives is the one of the thrust table,
    and it never exceeds the limit of the vehicle. *)
From stdpp Require Import base list tactics option.
From Stdlib Require Import ZArith Lia.
From S2P Require Import Prelude Float32 FloatOps FloatBounds DshotTimers MixerModule ControlAllocator DShotTelemetry DShotDriver DShotInvariant DShotCommands DShotSchedule MotorOutput.

(** ** The error of the conversions *)
Lemma F_2_spec : f32_fin F_2 ∧ f32_units F_2 = 2 ^ 150.
Proof. apply (of_int_spec 2). lia. Qed.

Lemma remap_spec u : f32_fin u -> 0 <= f32_units u <= 2 ^ 149 ->
  f32_fin (remap_motor u) ∧ Z.abs (f32_units (remap_motor u)) <= 2 ^ 149 ∧ Z.abs (f32_units (remap_motor u) - (2 * f32_units u - 2 ^ 149)) <= 2 ^ 128.
Proof.
  intros Hu Hr. destruct F_2_spec as [F2 U2]. destruct F_1_spec as [F1 U1]. destruct F_m1_spec as [Fm Um]. unfold remap_motor.
  assert (He : f32_fin (f32_neg FLT_EPSILON)) by literal. pose proof (lt_units u (f32_neg FLT_EPSILON) Hu He) as Hlt. destruct (f32_lt u _).
  { exfalso. assert (f32_units (f32_neg FLT_EPSILON) < 0) by reflexivity. pose proof (proj1 Hlt eq_refl). lia. }
  assert (E : 2 ^ 150 = 2 * 2 ^ 149) by done.
  destruct (f32_mul_between 0 u F_2 F_2 zero_fin Hu F2 F2) as [Fp Bp]; [rewrite zero_units, U2; nia|]. destruct (f32_mul_near 127 u F_2 Hu F2) as [_ Np]; [lia|rewrite U2; change (2 ^ (23 + 127)) with (2 ^ 150); nia|].
  set (p := f32_mul u F_2) in *. rewrite zero_units, U2 in Bp. rewrite U2 in Np. destruct (order_neg F_1 (proj1 F1)) as (_ & Un & _).
  destruct (f32_add_between F_m1 p (f32_neg F_1) F_1 Fm Fp (neg_fin _ F1) F1) as [Fs Bs]; [lia|]. destruct (f32_sub_near 127 p F_1 Fp F1) as (_ & Ns & _); [lia|lia|].
  change (f32_add p (f32_neg F_1)) with (f32_sub p F_1) in *. split; [done|]. split; [lia|]. assert (Z.abs (f32_units p - 2 * f32_units u) <= 2 ^ 127); [|lia].
  apply (Z.mul_le_mono_pos_r _ _ (2 ^ 149)); [done|]. rewrite <- (Z.abs_eq (2 ^ 149)) at 1 by lia. rewrite <- Z.abs_mul. rewrite E in Np. lia.
Qed.

Lemma interpolate_near x lo hi : f32_fin x -> Z.abs (f32_units x) <= 2 ^ 149 -> 0 <= lo <= hi -> hi < 2048 ->
  Z.abs (2 * f32_units (interpolate x F_m1 F_1 (f32_of_int lo) (f32_of_int hi)) - ((hi - lo) * f32_units x + (hi + lo) * 2 ^ 149)) <= 2 ^ 139.
Proof.
  intros Hx Hr Hlo Hhi. destruct (of_int_spec lo ltac:(lia)) as [Fl Ul]. destruct F_1_spec as [F1 U1]. destruct F_m1_spec as [Fm Um].
  pose proof (le_units x F_m1 Hx Fm) as Hle. pose proof (lt_units F_1 x F1 Hx) as Hlt. unfold interpolate. destruct (f32_le x F_m1).
  { pose proof (proj1 Hle eq_refl). assert (f32_units x = - 2 ^ 149) as -> by lia. rewrite Ul. lia. }
  destruct (f32_lt F_1 x); [pose proof (proj1 Hlt eq_refl); lia|]. destruct (interpolation_line lo hi Hlo ltac:(lia)) as (Fa & Ua & Fb & Ub). cbv zeta in *. set (a := f32_divide _ _) in *. set (b := f32_sub (f32_of_int lo) _) in *. clearbody a b.
  set (X := f32_units x) in *. assert (E : 2 ^ 149 = 2 * 2 ^ 148) by done. assert (E1 : 2 ^ 160 = 4096 * 2 ^ 148) by done.
  destruct (f32_mul_near 137 a x Fa Hx) as [Fp Np]; [lia|change (2 ^ (23 + 137)) with (2 ^ 160); rewrite Ua; fold X; rewrite Z.abs_mul; apply Z.mul_le_mono_nonneg; lia|].
  fold X in Np. rewrite Ua in Np. set (p := f32_mul a x) in *.
  assert (Ep : Z.abs (2 * f32_units p - (hi - lo) * X) <= 2 ^ 138).
  { apply (Z.mul_le_mono_pos_r _ _ (2 ^ 148)); [done|]. rewrite <- (Z.abs_eq (2 ^ 148)) at 1 by lia. rewrite <- Z.abs_mul. replace (2 ^ 138 * 2 ^ 148) with (2 ^ 137 * 2 ^ 149) by reflexivity.
    replace ((2 * f32_units p - (hi - lo) * X) * 2 ^ 148) with (f32_units p * 2 ^ 149 - (hi - lo) * 2 ^ 148 * X) by (rewrite E; ring). exact Np. }
  assert (Hx2 : Z.abs ((hi - lo) * X) <= (hi - lo) * 2 ^ 149) by (rewrite Z.abs_mul, (Z.abs_eq (hi - lo)) by lia; apply Z.mul_le_mono_nonneg_l; lia).
  destruct (f32_add_near 137 p b Fp Fb) as (_ & Ns & _); [lia|change (2 ^ (23 + 137)) with (2 ^ 160); rewrite Ub; lia|]. rewrite Ub in Ns. lia.
Qed.
